(* ===== verification/_CoqProject ===== *)
-Q . S2P
Prelude.v
DispatchTypes.v
StateMachine.v
StateMachineFacts.v
ParserParams.v
ParserCsi.v
ParserInput.v
ParserEquiv.v
Utils.v
ColorTable.v
Base64.v
OutputEngine.v
OutputFacts.v
TextColor.v
TextAttribute.v
SgrStack.v
Sgr.v
Rle.v
RleFacts.v
RleIter.v
Viewport.v
ViewportFacts.v
Utf16.v
CodepointWidth.v
OutputCell.v
CharRow.v
Row.v
RowFacts.v
Cursor.v
TextBuffer.v
TextNav.v
TextBufferFacts.v
TextNavFacts.v
SelectionFacts.v
CircularFacts.v
ScrollRowsFacts.v
ResizeFacts.v
Scroll.v
ScrollFacts.v
Utf8.v
Utf8Facts.v
Til.v
Bitmap.v
BitmapFacts.v
Spsc.v
SpscRing.v
SpscFacts.v
SpscSim.v
InputEvent.v
Charsets.v
TerminalOutput.v
AdaptDispatch.v
AdaptFacts.v
AdaptSafe.v
AdaptCursor.v
AdaptTabs.v
AdaptConsole.v
Terminal.v
InputEngine.v
TerminalInput.v
InputFacts.v
InputRoundTrip.v
MouseRoundTrip.v
InputRecorder.v
WriteFacts.v
TerminalCore.v
TerminalDispatch.v
TerminalCoreFacts.v
TerminalCoreSafe.v
TerminalCoreErase.v
TerminalSelection.v
TerminalKeys.v
TerminalDispatchFacts.v
TerminalScreen.v
WindowsTerminal.v
TerminalDisplay.v
VtRenderer.v
VtFacts.v
Conpty.v
