(* ===== verification/Prelude.v ===== *)
(** * The Windows console and terminal: text out, keys in

    The program turns the characters that applications write into changes of a
    screen, and keys and mouse events into text and back.  Text that is written
    goes through these layers:

    - the VT parser ([src/src/terminal/parser/stateMachine.cpp]), a state
      machine that splits the text into printable runs, control characters and
      escape sequences and hands each to an engine
      ([IStateMachineEngine.hpp]);
    - the output engine ([OutputStateMachineEngine.cpp]), which recognises the
      sequences and calls one method of the terminal dispatch
      ([src/src/terminal/adapter/ITermDispatch.hpp]) for each, or passes a
      sequence it does not know on to a connected outer terminal, for which it
      calls back into the parser ([FlushToTerminal]);
    - the adapter ([src/src/terminal/adapter/adaptDispatch*.cpp]), which
      implements the dispatch on the console, with the stack of saved
      attributes ([src/src/types/sgrStack.cpp]) and the translation of
      character sets ([terminalOutput.cpp], [charsets.hpp]);
    - the text buffer ([src/src/buffer/out]), a ring of rows of cells with
      attributes, a cursor and hyperlinks.  Text to be written is read by an
      iterator that makes cells of it, with the widths of
      [src/src/types/CodepointWidthDetector.cpp]; rows keep their attributes
      run-length encoded ([src/src/inc/til/rle.h]) and the glyphs that need
      more than one code unit in a storage that all rows share;
    - the screen ([src/src/host/output.cpp]), which scrolls and fills
      regions of the buffer, with the geometry of
      [src/src/types/viewport.cpp]; selections and word movements read the
      buffer.

    The Windows Terminal ([src/src/cascadia/TerminalCore]) has a dispatch of its
    own ([TerminalDispatch*.cpp]) for the same parser and engine, over a
    terminal ([Terminal.cpp], [TerminalApi.cpp]) that keeps a text buffer with
    scrollback, the window that applications write to and what the user has
    scrolled to.  The user selects in it ([TerminalSelection.cpp]) and sends it
    keys, mouse events and pasted text.

    A console without a window of its own is shown by a terminal like this one:
    the VT renderer ([src/src/renderer/vt]) writes the screen as text, as little
    of it as it can, and the terminal reads it.

    On the way in, [src/src/terminal/input] writes keys and mouse events as
    sequences, in the modes that applications ask for; at the other end of the
    connection the same parser with the input engine
    ([InputStateMachineEngine.cpp]) reads them and the interaction dispatch
    ([InteractDispatch.cpp]) writes key and mouse events into the console.

    The parts share a library of templates ([src/src/inc/til]): geometry and the
    bitmap of the cells that a renderer has to paint again ([point.h], [size.h],
    [rectangle.h], [bitmap.h]), the conversion of UTF-8 that arrives in pieces
    ([u8u16convert.h]) and a channel between two threads without locks
    ([spsc.h]).

    ** Files

    - [Prelude]: machine integers with explicit wrap-around, the state-and-
      exception monad [prog] with its weakest preconditions [wp], the result
      monad on [sum exn], list lemmas.  [catchable] tells exceptions from the end
      of the process, [try_log] and [noexcept] are the two ways in which methods
      treat them.
    - [DispatchTypes]: identifiers ([VTID], [VTIDBuilder]), parameters
      ([VTParameter], [VTParameters]), control characters (Module
      [AsciiChars]).
    - [StateMachine]: the parser.  The class [StateMachine] is the record of
      that name with the same members; every member function is a program of
      the same name.  The engine is the class [IStateMachineEngine]; an action
      works on an [EngineView], the part of the machine it can reach: itself,
      the ANSI mode and the cached sequence, with the flush callback as an
      argument.
    - [StateMachineFacts]: the invariant [sm_wf], that no function throws and
      that the loops end, for every engine of the class [EngineSafe].
    - [ParserParams]: the parameters against a reference that splits the text.
    - [ParserCsi]: whole control sequences, for engines of the class
      [EngineQuiet].
    - [ParserInput]: engines that dispatch what is left at the end of a string;
      single shifts.
    - [ParserEquiv]: [ProcessString] against a machine that takes one character
      at a time, for engines of the class [EngineFlushFree]; the relation
      [same] of two programs and its rules; Module [Transcript] is an engine
      that writes down what it is told and answers in any way.
    - [Utils], [ColorTable], [Base64]: the helpers the engine's OSC sequences
      use ([src/src/types/utils.cpp], [colorTable.cpp],
      [src/src/terminal/parser/base64.cpp]), with the sorted map of
      [src/src/inc/til/static_map.h].
    - [OutputEngine]: the engine, as an instance of [IStateMachineEngine], over
      the classes [ITermDispatch], [ITerminalOutputConnection] and
      [Utf8Converter].  Its [switch] statements are lists of cases.
    - [OutputFacts]: the engine is an instance of [EngineSafe], [EngineQuiet]
      and [EngineFlushFree], the last for dispatches that print text in pieces
      as they print it at once ([DispatchPrints]); the theorems on whole
      sequences; Module [DispatchTranscript] is a dispatch that writes down its
      calls and answers in any way, Module [Recorder] one for examples.
    - [TextColor], [TextAttribute]: the attributes of a cell.
    - [SgrStack], [Sgr]: the stack of saved attributes and the three graphics
      operations of the adapter, over the class [ConGetSet] of the console.
    - [Rle], [RleFacts], [RleIter]: [til::basic_rle] and its operations against
      plain lists; its random-access iterator.
    - [Viewport], [ViewportFacts]: rectangles with inclusive 16-bit edges, the
      moves and walks of positions in them, and their set operations.
    - [Utf16], [CodepointWidth]: splitting UTF-16 text into glyphs and their
      widths, from the table and a fallback of the font with its cache.
    - [OutputCell]: cells, their views and the iterator that makes them from
      text, attributes, legacy cells or fills; the class [GlyphWidth] tells it
      which glyphs are wide.
    - [CharRow], [Row], [RowFacts]: the cells of a row with the shared storage
      of long glyphs, attribute rows, and writing cells; [shown] is what a row
      displays.
    - [Cursor]: the cursor; requests to draw it are recorded in [redrawn].
    - [TextBuffer]: the ring of rows and its operations.  [TextBufferFacts]: the
      invariant [buffer_ok] and the [screen], the lines in the order they are
      seen, that the operations are described by.  [CircularFacts],
      [ScrollRowsFacts] and [ResizeFacts]: new lines and the advance of the
      ring, the rotation of rows, resizing.
    - [TextNav], [TextNavFacts], [SelectionFacts]: the iterator over the cells of
      a buffer, words, glyphs, the rectangles of selections and their text.
    - [Scroll], [ScrollFacts]: scrolling and filling of regions.
    - [Charsets], [TerminalOutput]: the tables of character sets and the four
      designated sets, against the model [Iso2022].
    - [AdaptDispatch]: the rest of the adapter, every method of the dispatch as a
      program on the record [AdaptDispatch], over the class [ConsoleApi] of the
      console: its queries and, as data of the type [ConCall], the calls that
      change it.  [AdaptFacts]: the class [ConsoleLaws] of what the adapter
      relies on in a console, and the invariant [adapt_ok].  [AdaptSafe],
      [AdaptCursor], [AdaptTabs]: the theorems; [AdaptConsole]: a console in
      Module [PlainConsole] that keeps the laws, and the theorems evaluated on
      it.
    - [Terminal]: parser, engine and adapter as one program over a console.  The
      engine asks its dispatch for the invariant of the class [DispatchSafe]
      ([OutputFacts]), the parser asks the engine for the one of [EngineSafe];
      [Terminal] puts the instances together.
    - [InputEvent]: key and mouse events and the key presses made up for
      characters; the keyboard layout is the class [Keyboard].
    - [InputEngine]: the input engine, an instance of [IStateMachineEngine] over
      the class [IInteractDispatch], and the dispatch on a console.
    - [TerminalInput]: keys and mouse events as sequences; the field [_written]
      records what the callback of the class was given.
    - [InputFacts]: the input engine is an instance of [EngineSafe], the dispatch
      on a console of [InteractSafe].  [InputRoundTrip], [MouseRoundTrip]: from
      an event to text and back.  [InputRecorder]: a keyboard and a dispatch for
      examples.
    - [WriteFacts]: programs that may throw ([wpx]); writing any cells, also
      halves of wide glyphs that do not fit, keeps the buffer well formed.
    - [TerminalCore]: the class [Terminal] of the Windows Terminal as the record
      [TerminalCore], with the operations that its dispatch asks for.  The
      callbacks of the control are recorded in [notified].
    - [TerminalDispatch]: the dispatch; Module [Vt] has its graphics.
    - [TerminalCoreFacts]: the invariant [core_ok] and how the view follows the
      cursor; [TerminalCoreSafe], [TerminalCoreErase]: the operations keep it.
      [TerminalDispatchFacts]: the calls, those that end the process ([fatal]),
      and SGR against the adapter's.
    - [TerminalScreen]: a typewriter on paper ([Paper], [strike]) and the core as
      one.  [WindowsTerminal]: parser, engine, dispatch and core as one program,
      and the theorems evaluated on a small terminal.
    - [TerminalDisplay]: the Windows Terminal as an abstract display ([Display],
      [Piece], [acts]) that text, renditions, movements and erasures change.
    - [VtRenderer]: the renderer that writes the screen as text for another
      terminal ([src/src/renderer/vt]); the class [VtEngine] with its derived
      classes is the record of that name, the system is the class [VtSystem].
      [VtFacts]: the attributes it sends, as lists of SGR sequences.  [Conpty]:
      the renderer and the Windows Terminal, in step frame by frame ([synced]).
    - [TerminalSelection]: the selection of the terminal, its anchors and pivot.
      [TerminalKeys]: keys, characters, mouse events and pasted text on their way
      from the control to the connection; the keyboard layout is the class
      [KeyLayout].
    - [Til], [Bitmap], [BitmapFacts]: points, sizes and rectangles with checked
      arithmetic; the bitmap with its cache of runs, against the set of its
      cells.
    - [Utf8], [Utf8Facts]: the two stream converters with the state that carries
      a partial character from one piece to the next.
    - [Spsc], [SpscRing], [SpscFacts], [SpscSim]: the channel.  Each thread is a
      machine that does one access to shared memory at a time ([pstep], [cstep]);
      a schedule interleaves the two in any order.  [SpscFacts] has the abstract
      machine, a bounded queue, and [SpscSim] the simulation.

    ** What the theorems show

    Parser: it processes all strings that are not empty (and the empty one too
    for an engine that does not flush at the end of a string) without failing and
    keeps its invariant; CAN, SUB and ESC resynchronise it; parameters and control
    sequences are what their text says, for every sequence; and a list of writes
    tells the engine what its characters tell it one at a time, so that the cuts
    between writes matter only to how printed text is cut into calls.  Engine: the 64-bit identifiers select the case of the text of the
    sequence; cursor position, REP and unknown sequences are followed from the
    characters to the calls of the dispatch and the writes to the outer
    terminal.  Graphics: SGR handles all lists of options and applies its items
    from left to right; flags are independent; conversions from and to legacy
    attributes round-trip; the ring of saved attributes refines a bounded
    stack, and push, change, pop restores.  Vectors: at, slice, replace,
    replace_values, resize and the iterator are the operations on plain lists,
    within the bounds of the vector of runs and of the size type.  Helpers:
    splitting, numbers, colours, colour names, base64 and the paste filter, on
    all inputs.

    Adapter: every call ends without an exception or an undefined operation and
    keeps the margins, saved cursors, tab stops and character sets well formed;
    movements stop at margins and edges; a position that was set is the one that
    is reported; a saved cursor is restored in full; tabs go to the stops that
    were set; translation is that of ISO 2022.  The layers together: no text
    brings the terminal down, and an application that sets a position and asks
    for it is answered with its own numbers.

    Windows Terminal: text is typed as on a typewriter, from the characters that
    an application writes to the lines of the buffer; the process ends exactly in
    the calls that are named; the view of a user who has scrolled back stays;
    erasing the scrollback keeps the window; its SGR is that of the adapter up to
    the numbering of the colours; any stream of text, renditions, movements and
    erasures does to it what it does to an abstract display.

    VT renderer: the frames that it paints are the frames that the Windows
    Terminal shows, from the attributes and texts of the runs through the
    sequences, the parser, the engine and the dispatch to the cells of the
    buffer, with the relative movements of the cursor, the differences of
    attributes and the erasures that the renderer writes instead of whole lines.
    The theorem is about runs of printable ASCII in rows that are not wrapped, in
    frames that do not scroll; two examples show where renderer and terminal do
    not agree outside of these.

    Input: no text brings the input side down, and the parser is in its ground
    state after every string; key events in win32 input mode, the function keys
    with all modifiers and mouse events in the SGR encoding arrive as they were;
    the presses that are made up for characters and keys can be typed.

    User input of the Windows Terminal: extending a selection keeps the word, line
    or cell that it started from; pasted text cannot contain the sequence that
    ends it, and cannot leave the brackets of bracketed paste; a typed character
    goes out with the key that was pressed for it.

    Template library: under every interleaving of a producer and a consumer the
    channel is a first-in-first-out queue of bounded size, no slot is read before
    it is written or written before it is read, and a thread that waits is woken;
    the runs of a bitmap are exactly its set cells; translating and resizing move
    and keep the cells they should, with the cache of runs never stale; the cuts
    in a UTF-8 stream do not change what is converted.

    Geometry: a walk sees every position of a viewport once; moves are
    arithmetic on positions in reading order; the difference of two rectangles
    is covered exactly and without overlap.  Text: the iterator yields the cells
    of the code points of a text; the width cache cannot be observed.  Buffer:
    every operation is a change of the screen that it describes in full: writing
    cells into a row, advancing the ring, new lines and the advance of the
    cursor, rotating rows, resizing; each keeps [buffer_ok], so that row
    numbers, widths, runs and stored glyphs stay consistent.  Scrolling a region
    moves its cells and fills the rest, also when source and target overlap, but
    for whole rows that move farther than their own height and for wide glyphs
    that would be cut at an edge.
    Reading: word movements, selected words, the rectangles of a selection and
    the copied text against definitions on the cells of the screen.

    Some theorems state behaviour that differs from what the comments of the
    source say: a control character in the parameters of a device control
    string, final characters that are not bytes, wide characters in base64
    text, colour names with digits, the replacement of an empty range, stray
    surrogates, the postfix operators of the iterator, deferred redraws of the
    cursor, full rows that scroll by more than their height, the link of the
    current attributes, the previous glyph of a wide one, large characters in
    win32 input mode, surrogates that do not pair, characters that a keyboard
    does not have, calls that end the process of the Windows Terminal, bitmaps
    that are constructed filled or resized to an empty size, division of sizes
    that rounds up, guessed keys, the cursor of a frame that does not paint it,
    and the background of a line that is scrolled in.

    ** Bounds and fuel

    Characters are 16-bit code units, [size_t] has 64 bits, coordinates are
    [SHORT]s with explicit narrowing, the lengths of runs wrap at the width that
    the instantiation of the vector gives.  The recursion of [ProcessCharacter]
    on C1 characters has fuel 2, because neither ESC nor a 7-bit equivalent is a
    C1 character.  The loop of [ProcessString] has fuel twice the length of the
    string plus two: each character is visited at most twice, once to start
    individual processing.  The loop of SGR has fuel for its options, since
    every step consumes one.  The loop of [WriteCells] has fuel for the width of
    the row, walks and searches over a buffer have fuel for its area, because
    each step goes to another cell.  Tabs have fuel for the columns of the line.
    The loop of [_WriteBuffer] has fuel twice the length of the text: a round
    writes, or starts a line in which the next round writes, since the invariant
    gives the buffer two columns.
    That the fuel is enough is part of
    [parser_never_fails], [graphics_agree], [walk_visits_once] and the
    functional theorems, whose results are never out of fuel.

    ** What is not modelled

    Tracing and telemetry, which do not change the state; the operating system
    and its character conversion ([til::u8u16] is a parameter); allocation
    failure.  The dispatch, the outer terminal, the console behind the adapter,
    the keyboard layout, the clock and the fallback of the font are interfaces or
    parameters.  Of the text buffer: reflow, the clipboard formats HTML and RTF,
    and patterns.  Of the input side: the records of the operating system, the
    number pad of the in-box console.  Of the template library: scaling by
    floating-point factors; the memory orders of the channel, whose accesses are
    sequentially consistent here, and the moving of its handles.  Of the Windows
    Terminal: settings, resizing with reflow, lookups of links and patterns, and
    the requests to repaint.  The console host behind the interface of the adapter
    is bound to handles, processes and the registry of the operating system, the
    other renderers to its graphics, and the application to its user interface
    framework; they are not modelled. *)

From stdpp Require Export base list option numbers sets.
From Stdlib Require Export ZArith Lia.
From Stdlib Require Import Zbitwise.

#[global] Open Scope Z_scope.

(** ** Machine integers

    A w-bit unsigned integer is a [Z] in [0, 2^w); a w-bit signed one is a [Z]
    in [-2^(w-1), 2^(w-1)).  The wrap-around of the C++ types is explicit. *)

Definition wrapu (w z : Z) : Z := z `mod` 2 ^ w.

Definition wraps (w z : Z) : Z := (z + 2 ^ (w - 1)) `mod` 2 ^ w - 2 ^ (w - 1).

Abbreviation u8 := (wrapu 8).
Abbreviation u16 := (wrapu 16).
Abbreviation u32 := (wrapu 32).
Abbreviation u64 := (wrapu 64).
Abbreviation i16 := (wraps 16).
Abbreviation i32 := (wraps 32).
Abbreviation i64 := (wraps 64).

(** A [wchar_t] is a UTF-16 code unit. *)
Abbreviation wchar := Z (only parsing).
Abbreviation wstring := (list Z) (only parsing).

Definition is_wchar (c : Z) : Prop := 0 <= c < 65536.

#[global] Instance is_wchar_dec c : Decision (is_wchar c).
Proof. unfold is_wchar. apply _. Defined.

(** ** Programs

    C++ member functions read and write the object they belong to and may
    throw.  [prog W A] is such a function on a world [W]; a throw keeps the
    world as it was when the exception left the function. *)

Inductive exn :=
  | BadFunctionCall  (* std::bad_function_call: an empty std::function is called *)
  | UndefinedBehavior (* C++ gives the operation no meaning *)
  | OutOfFuel        (* the model's loop bound is too small; never a C++ outcome *)
  | FailFast         (* the process is terminated: FAIL_FAST, a broken contract *)
  | OutOfRange       (* std::out_of_range *)
  | InvalidArg       (* E_INVALIDARG *)
  | NarrowingError   (* gsl::narrow: the value does not fit *)
  | LengthError      (* std::length_error: a container would be too large *)
  | EAbort           (* E_ABORT *)
  | EUnexpected      (* E_UNEXPECTED *)
  | Win32Error.      (* an error code of the operating system *)

Inductive outcome (W A : Type) :=
  | Ok (a : A) (w : W)
  | Throw (e : exn) (w : W).
Arguments Ok {W A} a w.
Arguments Throw {W A} e w.

Definition prog (W A : Type) : Type := W → outcome W A.

#[global] Instance prog_ret {W} : MRet (prog W) := λ A a w, Ok a w.
#[global] Instance prog_bind {W} : MBind (prog W) := λ A B f m w,
  match m w with
  | Ok a w' => f a w'
  | Throw e w' => Throw e w'
  end.

(** Functions that read and write no object but can fail: [exn + A]. *)
#[global] Instance result_ret : MRet (sum exn) := λ A a, inr a.
#[global] Instance result_bind : MBind (sum exn) := λ A B f m,
  match m with
  | inl e => inl e
  | inr a => f a
  end.

Definition gets {W A} (f : W → A) : prog W A := λ w, Ok (f w) w.
Definition modify {W} (f : W → W) : prog W unit := λ w, Ok tt (f w).
Definition throw {W A} (e : exn) : prog W A := λ w, Throw e w.

Definition lift {W A} (m : exn + A) : prog W A := λ w,
  match m with inr a => Ok a w | inl e => Throw e w end.

(** Exceptions that [catch] sees; the others end the process. *)
Definition catchable (e : exn) : bool :=
  match e with UndefinedBehavior | OutOfFuel | FailFast => false | _ => true end.

(** [CATCH_LOG_RETURN_FALSE] *)
Definition try_log {W} (m : prog W bool) : prog W bool := λ w,
  match m w with
  | Ok a w => Ok a w
  | Throw e w => if catchable e then Ok false w else Throw e w
  end.

(** An exception that leaves a [noexcept] function ends the process. *)
Definition noexcept {W A} (m : prog W A) : prog W A := λ w,
  match m w with
  | Ok a w => Ok a w
  | Throw e w => Throw (if catchable e then FailFast else e) w
  end.

(** The weakest precondition of a program: it returns, and the result and the
    world it leaves satisfy [Q].  A program that throws satisfies no [wp]. *)
Definition wp {W A} (m : prog W A) (Q : A → W → Prop) (w : W) : Prop :=
  match m w with
  | Ok a w' => Q a w'
  | Throw _ _ => False
  end.

(** The parts of a list between the elements that satisfy [p]; a reference
    definition that several components are compared with. *)
Fixpoint split_on {A} (p : A → bool) (l : list A) : list (list A) :=
  match l with
  | [] => [[]]
  | c :: l' =>
      if p c then [] :: split_on p l'
      else match split_on p l' with
           | [] => [[c]]
           | f :: fs => (c :: f) :: fs
           end
  end.

(** The parts joined again with a separator. *)
Fixpoint join_with {A} (sep : A) (ls : list (list A)) : list A :=
  match ls with
  | [] => []
  | [l] => l
  | l :: ls' => l ++ sep :: join_with sep ls'
  end.

(** The number a string of decimal digits denotes. *)
Definition decimal (digits : wstring) : Z :=
  fold_left (λ n c, 10 * n + (c - 48)) digits 0.

(** The decimal digits of a number below [10 ^ fuel], and the [%d] of the formatting
    functions. *)
Fixpoint digits_of (fuel : nat) (n : Z) : wstring :=
  match fuel with
  | O => []
  | S fuel => (if n <? 10 then [] else digits_of fuel (n / 10)) ++ [48 + n mod 10]
  end.

Definition print_int (n : Z) : wstring :=
  if n <? 0 then 45 :: digits_of 20 (- n) else digits_of 20 n.

(** ** Generic lemmas *)

Section wp_rules.
Context {W A B : Type}.
Implicit Types (w : W).

Lemma wp_ret (a : A) (Q : A → W → Prop) w : Q a w → wp (mret a) Q w.
Proof. done. Qed.

Lemma wp_bind (m : prog W A) (f : A → prog W B) (Q : B → W → Prop) w :
  wp m (λ a w', wp (f a) Q w') w → wp (m ≫= f) Q w.
Proof. unfold wp, mbind, prog_bind. by destruct (m w). Qed.

Lemma wp_gets (f : W → A) (Q : A → W → Prop) w : Q (f w) w → wp (gets f) Q w.
Proof. done. Qed.

Lemma wp_modify (f : W → W) (Q : unit → W → Prop) w : Q tt (f w) → wp (modify f) Q w.
Proof. done. Qed.

Lemma wp_mono (m : prog W A) (P Q : A → W → Prop) w :
  wp m P w → (∀ a w', P a w' → Q a w') → wp m Q w.
Proof. unfold wp. destruct (m w); naive_solver. Qed.

Lemma wp_ok (m : prog W A) (Q : A → W → Prop) w :
  wp m Q w → ∃ a w', m w = Ok a w' ∧ Q a w'.
Proof. unfold wp. destruct (m w); naive_solver. Qed.

Lemma wp_of_ok (m : prog W A) (Q : A → W → Prop) w a w' :
  m w = Ok a w' → Q a w' → wp m Q w.
Proof. unfold wp. by intros ->. Qed.

Lemma bind_ok (m : prog W A) (f : A → prog W B) w a w' :
  m w = Ok a w' → (m ≫= f) w = f a w'.
Proof. unfold mbind, prog_bind. by intros ->. Qed.
End wp_rules.

Lemma wrapu_small w z : 0 <= z < 2 ^ w → wrapu w z = z.
Proof. intros. unfold wrapu. by apply Z.mod_small. Qed.

Lemma wrapu_range w z : 0 <= w → 0 <= wrapu w z < 2 ^ w.
Proof. intros. unfold wrapu. apply Z.mod_pos_bound. by apply Z.pow_pos_nonneg. Qed.

Lemma wraps_small w z : 0 < w → - 2 ^ (w - 1) <= z < 2 ^ (w - 1) → wraps w z = z.
Proof.
  intros Hw Hz. unfold wraps.
  assert (2 ^ w = 2 * 2 ^ (w - 1)) as E.
  { rewrite <-Z.pow_succ_r by lia. f_equal. lia. }
  rewrite Z.mod_small; lia.
Qed.

Lemma wraps_range w z : 0 < w → - 2 ^ (w - 1) <= wraps w z < 2 ^ (w - 1).
Proof.
  intros Hw. unfold wraps.
  assert (2 ^ w = 2 * 2 ^ (w - 1)) as E.
  { rewrite <-Z.pow_succ_r by lia. f_equal. lia. }
  assert (0 < 2 ^ (w - 1)) by (apply Z.pow_pos_nonneg; lia).
  pose proof (Z.mod_pos_bound (z + 2 ^ (w - 1)) (2 ^ w)). lia.
Qed.

Lemma removelast_last_app {A} (l : list A) (d : A) :
  l ≠ [] → removelast l ++ [List.last l d] = l.
Proof. intros Hl. symmetry. by apply app_removelast_last. Qed.

Lemma length_removelast {A} (l : list A) : length (removelast l) = (length l - 1)%nat.
Proof.
  destruct (decide (l = [])) as [->|Hl]; [done|].
  destruct l as [|d l]; [done|].
  rewrite <-(removelast_last_app (d :: l) d) at 2 by done.
  rewrite length_app. cbn [length]. lia.
Qed.

Lemma split_on_nonempty {A} (p : A → bool) l : split_on p l ≠ [].
Proof. destruct l as [|c t]; cbn; [done|]. destruct (p c), (split_on p t); done. Qed.

Lemma split_on_snoc_sep {A} (p : A → bool) l c :
  p c = true → split_on p (l ++ [c]) = split_on p l ++ [[]].
Proof.
  intros Hc. induction l as [|d t IH]; cbn; [by rewrite Hc|].
  rewrite IH. pose proof (split_on_nonempty p t). by destruct (p d), (split_on p t).
Qed.

Lemma split_on_snoc {A} (p : A → bool) l c :
  p c = false →
  split_on p (l ++ [c]) = removelast (split_on p l) ++ [List.last (split_on p l) [] ++ [c]].
Proof.
  intros Hc. induction l as [|d t IH]; cbn; [by rewrite Hc|].
  rewrite IH. pose proof (split_on_nonempty p t).
  destruct (p d), (split_on p t) as [|f [|g fs]]; done.
Qed.

Lemma split_on_no_sep {A} (p : A → bool) l :
  Forall (λ c, p c = false) l → split_on p l = [l].
Proof. induction 1 as [|c l Hc _ IH]; cbn; [done|]. by rewrite Hc, IH. Qed.

Lemma split_on_app_sep {A} (p : A → bool) l c l' :
  Forall (λ c, p c = false) l → p c = true → split_on p (l ++ c :: l') = l :: split_on p l'.
Proof. intros Hl Hc. induction Hl as [|d l Hd _ IH]; cbn; [by rewrite Hc|]. by rewrite Hd, IH. Qed.

Lemma join_split_on {A} `{EqDecision A} (sep : A) l :
  join_with sep (split_on (λ c, bool_decide (c = sep)) l) = l.
Proof.
  induction l as [|c l IH]; [done|]. cbn [split_on].
  pose proof (split_on_nonempty (λ c, bool_decide (c = sep)) l) as Hn.
  case_bool_decide as Hc; destruct (split_on _ l) as [|f [|g fs]]; try done; cbn in *; congruence.
Qed.

Lemma decimal_snoc f c : decimal (f ++ [c]) = 10 * decimal f + (c - 48).
Proof. unfold decimal. by rewrite fold_left_app. Qed.

(** A property of all bytes, by evaluation. *)
Lemma forall_byte (P : Z → Prop) `{∀ b, Decision (P b)} :
  forallb (λ b, bool_decide (P b)) (seqZ 0 256) = true → ∀ b, 0 <= b < 256 → P b.
Proof.
  rewrite forallb_forall. intros HP b Hb. eapply bool_decide_eq_true_1, HP.
  apply list_elem_of_In, elem_of_seqZ. lia.
Qed.

(** Bit fields as arithmetic. *)
Lemma lor_shiftl_add a n b : 0 <= n → 0 <= b < 2 ^ n → Z.lor (Z.shiftl a n) b = a * 2 ^ n + b.
Proof.
  intros Hn Hb. rewrite <-Z.shiftl_mul_pow2 by done.
  rewrite <-(Z.add_lor_land (Z.shiftl a n) b).
  assert (Z.land (Z.shiftl a n) b = 0) as ->; [|lia].
  apply Z.bits_inj'. intros i Hi. rewrite Z.land_spec, Z.bits_0.
  destruct (Z.lt_ge_cases i n).
  - by rewrite Z.shiftl_spec_low.
  - rewrite <-(Z.mod_small b (2 ^ n)) by done. by rewrite Z.mod_pow2_bits_high, andb_false_r.
Qed.

Lemma forallb_Forall_true {A} (f : A → bool) (l : list A) :
  forallb f l = true → Forall (λ x, f x = true) l.
Proof. induction l; cbn; [done|]. intros [? ?]%andb_true_iff. constructor; auto. Qed.

(** Reflects boolean integer tests in the hypotheses and the goal. *)
Ltac zify_bool :=
  repeat match goal with
  | H : (_ && _)%bool = true |- _ => apply andb_true_iff in H as [? ?]
  | H : (_ || _)%bool = false |- _ => apply orb_false_iff in H as [? ?]
  | H : negb _ = true |- _ => apply negb_true_iff in H
  | H : negb _ = false |- _ => apply negb_false_iff in H
  | H : (_ <=? _) = true |- _ => apply Z.leb_le in H
  | H : (_ <=? _) = false |- _ => apply Z.leb_gt in H
  | H : (_ <? _) = true |- _ => apply Z.ltb_lt in H
  | H : (_ <? _) = false |- _ => apply Z.ltb_ge in H
  | H : (_ =? _) = true |- _ => apply Z.eqb_eq in H
  | H : (_ =? _) = false |- _ => apply Z.eqb_neq in H
  | H : (_ >=? _) = _ |- _ => rewrite Z.geb_leb in H
  | H : (_ >? _) = _ |- _ => rewrite Z.gtb_ltb in H
  end.

(** Runs the [wp] rules of the monad's own operations. *)
Ltac wp_step :=
  match goal with
  | |- wp (_ ≫= _) _ _ => apply wp_bind
  | |- wp (mret _) _ _ => apply wp_ret
  | |- wp (gets _) _ _ => apply wp_gets
  | |- wp (modify _) _ _ => apply wp_modify
  end.

(** Two predicates that agree on the elements of a list filter it the same. *)
Lemma filter_Forall_iff {A} (P Q : A → Prop) `{∀ x, Decision (P x), ∀ x, Decision (Q x)} (l : list A) :
  Forall (λ x, P x ↔ Q x) l → filter P l = filter Q l.
Proof.
  induction 1 as [|x l Hx _ IH]; [done|]. rewrite !filter_cons, IH.
  destruct (decide (P x)), (decide (Q x)); tauto.
Qed.

Lemma digits_of_ok fuel n : 0 <= n < 10 ^ Z.of_nat fuel →
  decimal (digits_of fuel n) = n ∧ Forall (λ c, 48 <= c <= 57) (digits_of fuel n).
Proof.
  revert n. induction fuel as [|fuel IH]; intros n Hn; [cbn in *; split; [lia|constructor]|].
  cbn [digits_of]. pose proof (Z.mod_pos_bound n 10 ltac:(lia)). pose proof (Z.div_mod n 10 ltac:(lia)).
  destruct (Z.ltb_spec n 10).
  - cbn. rewrite Z.mod_small by lia. split; [lia|]. repeat constructor; lia.
  - destruct (IH (n / 10)) as [E F].
    { split; [apply Z.div_pos; lia|]. apply Z.div_lt_upper_bound; [lia|]. rewrite Nat2Z.inj_succ, Z.pow_succ_r in Hn by lia. lia. }
    rewrite decimal_snoc, E. split; [lia|]. apply Forall_app. split; [done|]. repeat constructor; lia.
Qed.

Lemma print_int_ok n : 0 <= n < 2 ^ 64 →
  decimal (print_int n) = n ∧ Forall (λ c, 48 <= c <= 57) (print_int n).
Proof.
  intros Hn. unfold print_int. rewrite (proj2 (Z.ltb_ge n 0)) by lia. apply digits_of_ok.
  split; [lia|]. apply (Z.lt_trans _ (2 ^ 64)); [lia|]. by vm_compute.
Qed.

Lemma print_int_nonempty n : print_int n ≠ [].
Proof.
  unfold print_int. case_match; [done|]. cbn [digits_of]. intros Hd%(f_equal length). rewrite length_app in Hd. cbn in Hd. lia.
Qed.
