(* ===== verification/DispatchTypes.v ===== *)
(** The identifiers and parameters that the VT parser hands to its engine:
    [src/src/terminal/adapter/DispatchTypes.hpp] and the character constants of
    [src/src/terminal/parser/ascii.hpp]. *)

From stdpp Require Import strings.
From S2P Require Import Prelude.

(** ** ascii.hpp *)

Module AsciiChars.
Definition NUL : wchar := 0x0.
Definition BEL : wchar := 0x7.
Definition BS : wchar := 0x8.
Definition TAB : wchar := 0x9.
Definition LF : wchar := 0xA.
Definition VT : wchar := 0xB.
Definition FF : wchar := 0xC.
Definition CR : wchar := 0xD.
Definition SO : wchar := 0xE.
Definition SI : wchar := 0xF.
Definition ETB : wchar := 0x17.
Definition CAN : wchar := 0x18.
Definition EM : wchar := 0x19.
Definition SUB : wchar := 0x1A.
Definition ESC : wchar := 0x1B.
Definition FS : wchar := 0x1C.
Definition US : wchar := 0x1F.
Definition SPC : wchar := 0x20.
Definition DEL : wchar := 0x7F.
End AsciiChars.

(** The code of a character literal and of a wide string literal. *)
Definition chr (a : Ascii.ascii) : wchar := Z.of_N (Ascii.N_of_ascii a).

Fixpoint wstr (s : string) : wstring :=
  match s with
  | EmptyString => []
  | String a s' => chr a :: wstr s'
  end.

(** ** VTID

    An identifier is a [uint64_t] that packs the characters of the sequence,
    the first one in the low byte. *)

Definition CHAR_BIT : Z := 8.

(** [VTID::_FromString]: the loop runs from the last character to the first. *)
Fixpoint VTID_FromString (s : wstring) : Z :=
  match s with
  | [] => 0
  | c :: s' => u64 (u64 (Z.shiftl (VTID_FromString s') CHAR_BIT) + c)
  end.

Definition VTID (s : string) : Z := VTID_FromString (wstr s).

Definition VTID_SubSequence (id offset : Z) : Z := Z.shiftr id (CHAR_BIT * offset).

(** [operator[]] returns a [char], which is signed: the codes from 0x80 on are
    negative. *)
Definition VTID_at (id offset : Z) : Z :=
  wraps 8 (Z.land (VTID_SubSequence id offset) 0xFF).

(** ** VTIDBuilder *)

Record VTIDBuilder := mkVTIDBuilder {
  _idAccumulator : Z;
  _idShift : Z
}.

Definition VTIDBuilder_Clear : VTIDBuilder := mkVTIDBuilder 0 0.

Definition AddIntermediate (intermediateChar : wchar) (b : VTIDBuilder) : VTIDBuilder :=
  if _idShift b + CHAR_BIT >=? 8 * CHAR_BIT then
    mkVTIDBuilder 0 (_idShift b)
  else
    mkVTIDBuilder
      (u64 (_idAccumulator b + u64 (Z.shiftl intermediateChar (_idShift b))))
      (_idShift b + CHAR_BIT).

Definition Finalize (finalChar : wchar) (b : VTIDBuilder) : Z :=
  u64 (_idAccumulator b + u64 (Z.shiftl finalChar (_idShift b))).

(** ** VTParameter

    A parameter is a signed [size_t]; a negative value is an omitted one. *)

Record VTParameter := mkVTParameter { _value : Z }.

Definition VTParameter_empty : VTParameter := mkVTParameter (-1).

Definition VTParameter_of (rhs : Z) : VTParameter := mkVTParameter (i64 rhs).

Definition has_value (p : VTParameter) : bool := _value p >=? 0.

(** [value()] converts the signed member to [size_t]. *)
Definition value (p : VTParameter) : Z := u64 (_value p).

Definition value_or (p : VTParameter) (defaultValue : Z) : Z :=
  if has_value p then u64 (_value p) else defaultValue.

(** The conversion to a selective parameter (an [enum] of the width of [size_t]). *)
Definition as_selective (p : VTParameter) : Z := value_or p 0.

(** The conversion to a numeric parameter, [operator size_t]. *)
Definition as_numeric (p : VTParameter) : Z :=
  if has_value p && negb (_value p =? 0) then u64 (_value p) else 1.

(** ** VTParameters

    A span over the parser's vector of parameters. *)

Abbreviation VTParameters := (list VTParameter).

Definition params_at (ps : VTParameters) (index : Z) : VTParameter :=
  if index <? Z.of_nat (length ps)
  then default VTParameter_empty (ps !! Z.to_nat index)
  else VTParameter_empty.

Definition params_empty (ps : VTParameters) : bool := bool_decide (ps = []).

Definition params_size (ps : VTParameters) : Z := Z.max (Z.of_nat (length ps)) 1.

(** [gsl::span::subspan] contracts that the offset is at most the size, and
    terminates the process otherwise. *)
Definition params_subspan (ps : VTParameters) (offset : Z) : option VTParameters :=
  if offset <=? Z.of_nat (length ps) then Some (drop (Z.to_nat offset) ps) else None.

(** [for_each]: the predicate runs on every parameter, also after one failed,
    and at least once. *)
Fixpoint params_for_each_from {W} (predicate : VTParameter → prog W bool)
    (ps : VTParameters) (success : bool) : prog W bool :=
  match ps with
  | [] => mret success
  | p :: ps' =>
      r ← predicate p;
      params_for_each_from predicate ps' (r && success)
  end.

Definition params_for_each {W} (predicate : VTParameter → prog W bool)
    (ps : VTParameters) : prog W bool :=
  success ← predicate (params_at ps 0);
  params_for_each_from predicate (drop 1 ps) success.

(** ** FlaggedEnumValue *)

Definition ANSIStandardMode (v : Z) : Z := Z.lor v 0x00000000.
Definition DECPrivateMode (v : Z) : Z := Z.lor v 0x01000000.

#[global] Instance VTParameter_eq_dec : EqDecision VTParameter.
Proof. solve_decision. Defined.
#[global] Instance VTIDBuilder_eq_dec : EqDecision VTIDBuilder.
Proof. solve_decision. Defined.

(** ** Types that the parser, the adapter and the buffers share *)

(** [src/src/buffer/out/LineRendition.hpp] *)
Inductive LineRendition := SingleWidth | DoubleWidth | DoubleHeightTop | DoubleHeightBottom.

#[global] Instance LineRendition_eq_dec : EqDecision LineRendition.
Proof. solve_decision. Defined.

(** [src/src/inc/conattrs.hpp] *)
Definition INVALID_COLOR : Z := 0xffffffff.
