(* ===== verification/StateMachine.v ===== *)
(** The VT parser: [src/src/terminal/parser/stateMachine.cpp] and
    [stateMachine.hpp], and the interface [IStateMachineEngine] it drives.

    The machine is the record [StateMachine], its member functions are programs
    on it ([SM]), and the engine is a parameter described by the class
    [IStateMachineEngine].  ETW tracing and telemetry ([_trace],
    [TermTelemetry]) have no effect on the machine and are left out. *)

From S2P Require Import Prelude DispatchTypes.
Import AsciiChars.

(** ** Constants and states *)

Definition MAX_PARAMETER_VALUE : Z := 32767.
Definition MAX_PARAMETER_COUNT : Z := 32.

Inductive VTStates :=
  | Ground | Escape | EscapeIntermediate
  | CsiEntry | CsiIntermediate | CsiIgnore | CsiParam
  | OscParam | OscString | OscTermination
  | Ss3Entry | Ss3Param | Vt52Param
  | DcsEntry | DcsIgnore | DcsIntermediate | DcsParam | DcsPassThrough
  | SosPmApcString.

#[global] Instance VTStates_eq_dec : EqDecision VTStates.
Proof. solve_decision. Defined.

(** ** Character classes *)

Definition _isNumericParamValue (wch : wchar) : bool := (48 <=? wch) && (wch <=? 57).

Definition _isC0Code (wch : wchar) : bool :=
  ((NUL <=? wch) && (wch <=? ETB)) || (wch =? EM) || ((FS <=? wch) && (wch <=? US)).

Definition _isC1ControlCharacter (wch : wchar) : bool := (0x80 <=? wch) && (wch <=? 0x9F).

Definition _c1To7Bit (wch : wchar) : wchar := u16 (wch - 0x40).

Definition _isIntermediate (wch : wchar) : bool := (0x20 <=? wch) && (wch <=? 0x2F).

Definition _isDelete (wch : wchar) : bool := wch =? DEL.

Definition _isEscape (wch : wchar) : bool := wch =? ESC.

Definition _isParameterDelimiter (wch : wchar) : bool := wch =? 0x3B.

Definition _isCsiIndicator (wch : wchar) : bool := wch =? 0x5B.

Definition _isCsiPrivateMarker (wch : wchar) : bool :=
  (wch =? 0x3C) || (wch =? 0x3D) || (wch =? 0x3E) || (wch =? 0x3F).

Definition _isCsiInvalid (wch : wchar) : bool := wch =? 0x3A.

Definition _isIntermediateInvalid (wch : wchar) : bool :=
  _isNumericParamValue wch || _isCsiInvalid wch || _isParameterDelimiter wch
  || _isCsiPrivateMarker wch.

Definition _isParameterInvalid (wch : wchar) : bool :=
  _isCsiInvalid wch || _isCsiPrivateMarker wch.

Definition _isStringTerminatorIndicator (wch : wchar) : bool := wch =? 0x5C.

Definition _isSs3Indicator (wch : wchar) : bool := wch =? 0x4F.

Definition _isVt52CursorAddress (wch : wchar) : bool := wch =? 0x59.

Definition _isOscIndicator (wch : wchar) : bool := wch =? 0x5D.

Definition _isOscDelimiter (wch : wchar) : bool := wch =? 0x3B.

Definition _isOscInvalid (wch : wchar) : bool :=
  (wch <=? 0x17) || (wch =? 0x19) || ((0x1C <=? wch) && (wch <=? 0x1F)).

Definition _isOscTerminator (wch : wchar) : bool := wch =? BEL.

Definition _isDcsIndicator (wch : wchar) : bool := wch =? 0x50.

Definition _isDcsPassThroughValid (wch : wchar) : bool := (SPC <=? wch) && (wch <? DEL).

Definition _isSosIndicator (wch : wchar) : bool := wch =? 0x58.

Definition _isPmIndicator (wch : wchar) : bool := wch =? 0x5E.

Definition _isApcIndicator (wch : wchar) : bool := wch =? 0x5F.

Definition _isActionableFromGround (wch : wchar) : bool :=
  (wch <=? US) || _isC1ControlCharacter wch || _isDelete wch.

#[global] Arguments _isNumericParamValue : simpl never.
#[global] Arguments _isC0Code : simpl never.
#[global] Arguments _isC1ControlCharacter : simpl never.
#[global] Arguments _c1To7Bit : simpl never.
#[global] Arguments _isIntermediate : simpl never.
#[global] Arguments _isDelete : simpl never.
#[global] Arguments _isEscape : simpl never.
#[global] Arguments _isParameterDelimiter : simpl never.
#[global] Arguments _isCsiIndicator : simpl never.
#[global] Arguments _isCsiPrivateMarker : simpl never.
#[global] Arguments _isCsiInvalid : simpl never.
#[global] Arguments _isIntermediateInvalid : simpl never.
#[global] Arguments _isParameterInvalid : simpl never.
#[global] Arguments _isStringTerminatorIndicator : simpl never.
#[global] Arguments _isSs3Indicator : simpl never.
#[global] Arguments _isVt52CursorAddress : simpl never.
#[global] Arguments _isOscIndicator : simpl never.
#[global] Arguments _isOscDelimiter : simpl never.
#[global] Arguments _isOscInvalid : simpl never.
#[global] Arguments _isOscTerminator : simpl never.
#[global] Arguments _isDcsIndicator : simpl never.
#[global] Arguments _isDcsPassThroughValid : simpl never.
#[global] Arguments _isSosIndicator : simpl never.
#[global] Arguments _isPmIndicator : simpl never.
#[global] Arguments _isApcIndicator : simpl never.
#[global] Arguments _isActionableFromGround : simpl never.

(** ** The engine interface

    While it handles an action the engine can reach back into the machine in
    two ways: through the callback bound to [StateMachine::FlushToTerminal],
    which empties the cached sequence, and through [SetAnsiMode].  The part of
    the machine it can so touch is [EngineView]; the callback is an argument
    of every action. *)

Record EngineView (E : Type) := mkView {
  ev_cachedSequence : option wstring;
  ev_isInAnsiMode : bool;
  ev_engine : E
}.
Arguments mkView {E} _ _ _.
Arguments ev_cachedSequence {E} _.
Arguments ev_isInAnsiMode {E} _.
Arguments ev_engine {E} _.

Definition EngM (E A : Type) : Type := prog (EngineView E) bool → prog (EngineView E) A.

Definition SetAnsiMode {E} (ansiMode : bool) : prog (EngineView E) unit :=
  modify (λ v, mkView (ev_cachedSequence v) ansiMode (ev_engine v)).

(** [H] is the type of the engine's data-string handlers
    ([IStateMachineEngine::StringHandler], a [std::function]). *)
Class IStateMachineEngine (E H : Type) := {
  ActionExecute : wchar → EngM E bool;
  ActionExecuteFromEscape : wchar → EngM E bool;
  ActionPrint : wchar → EngM E bool;
  ActionPrintString : wstring → EngM E bool;
  ActionPassThroughString : wstring → prog E bool;
  ActionEscDispatch : Z → EngM E bool;
  ActionVt52EscDispatch : Z → VTParameters → EngM E bool;
  ActionCsiDispatch : Z → VTParameters → EngM E bool;
  ActionDcsDispatch : Z → VTParameters → EngM E (option H);
  ActionClear : EngM E bool;
  ActionOscDispatch : wchar → Z → wstring → EngM E bool;
  ActionSs3Dispatch : wchar → VTParameters → EngM E bool;
  StringHandler_call : H → wchar → EngM E bool;
  ParseControlSequenceAfterSs3 : E → bool;
  FlushAtEndOfString : E → bool;
  DispatchControlCharsFromEscape : E → bool;
  DispatchIntermediatesFromEscape : E → bool
}.

(** ** The machine's state *)

Record StateMachine (E H : Type) := mkSM {
  _engine : E;
  _state : VTStates;
  _isInAnsiMode : bool;
  _run : wstring;
  _identifier : VTIDBuilder;
  _parameters : list VTParameter;
  _parameterLimitReached : bool;
  _oscString : wstring;
  _oscParameter : Z;
  _dcsStringHandler : option H;
  _cachedSequence : option wstring;
  _processingIndividually : bool
}.
Arguments mkSM {E H} _ _ _ _ _ _ _ _ _ _ _ _.
Arguments _engine {E H} _.
Arguments _state {E H} _.
Arguments _isInAnsiMode {E H} _.
Arguments _run {E H} _.
Arguments _identifier {E H} _.
Arguments _parameters {E H} _.
Arguments _parameterLimitReached {E H} _.
Arguments _oscString {E H} _.
Arguments _oscParameter {E H} _.
Arguments _dcsStringHandler {E H} _.
Arguments _cachedSequence {E H} _.
Arguments _processingIndividually {E H} _.

Section machine.
Context {E H : Type} `{IStateMachineEngine E H}.

Abbreviation SM := (prog (StateMachine E H)).
Implicit Types (s : StateMachine E H).

(** Assignments to one member. *)
Definition set_state (st : VTStates) s : StateMachine E H :=
  mkSM (_engine s) st (_isInAnsiMode s) (_run s) (_identifier s) (_parameters s)
    (_parameterLimitReached s) (_oscString s) (_oscParameter s) (_dcsStringHandler s)
    (_cachedSequence s) (_processingIndividually s).
Definition set_run (r : wstring) s : StateMachine E H :=
  mkSM (_engine s) (_state s) (_isInAnsiMode s) r (_identifier s) (_parameters s)
    (_parameterLimitReached s) (_oscString s) (_oscParameter s) (_dcsStringHandler s)
    (_cachedSequence s) (_processingIndividually s).
Definition set_identifier (b : VTIDBuilder) s : StateMachine E H :=
  mkSM (_engine s) (_state s) (_isInAnsiMode s) (_run s) b (_parameters s)
    (_parameterLimitReached s) (_oscString s) (_oscParameter s) (_dcsStringHandler s)
    (_cachedSequence s) (_processingIndividually s).
Definition set_parameters (ps : list VTParameter) s : StateMachine E H :=
  mkSM (_engine s) (_state s) (_isInAnsiMode s) (_run s) (_identifier s) ps
    (_parameterLimitReached s) (_oscString s) (_oscParameter s) (_dcsStringHandler s)
    (_cachedSequence s) (_processingIndividually s).
Definition set_limitReached (b : bool) s : StateMachine E H :=
  mkSM (_engine s) (_state s) (_isInAnsiMode s) (_run s) (_identifier s) (_parameters s)
    b (_oscString s) (_oscParameter s) (_dcsStringHandler s)
    (_cachedSequence s) (_processingIndividually s).
Definition set_oscString (o : wstring) s : StateMachine E H :=
  mkSM (_engine s) (_state s) (_isInAnsiMode s) (_run s) (_identifier s) (_parameters s)
    (_parameterLimitReached s) o (_oscParameter s) (_dcsStringHandler s)
    (_cachedSequence s) (_processingIndividually s).
Definition set_oscParameter (z : Z) s : StateMachine E H :=
  mkSM (_engine s) (_state s) (_isInAnsiMode s) (_run s) (_identifier s) (_parameters s)
    (_parameterLimitReached s) (_oscString s) z (_dcsStringHandler s)
    (_cachedSequence s) (_processingIndividually s).
Definition set_dcsStringHandler (h : option H) s : StateMachine E H :=
  mkSM (_engine s) (_state s) (_isInAnsiMode s) (_run s) (_identifier s) (_parameters s)
    (_parameterLimitReached s) (_oscString s) (_oscParameter s) h
    (_cachedSequence s) (_processingIndividually s).
Definition set_cachedSequence (c : option wstring) s : StateMachine E H :=
  mkSM (_engine s) (_state s) (_isInAnsiMode s) (_run s) (_identifier s) (_parameters s)
    (_parameterLimitReached s) (_oscString s) (_oscParameter s) (_dcsStringHandler s)
    c (_processingIndividually s).
Definition set_processingIndividually (b : bool) s : StateMachine E H :=
  mkSM (_engine s) (_state s) (_isInAnsiMode s) (_run s) (_identifier s) (_parameters s)
    (_parameterLimitReached s) (_oscString s) (_oscParameter s) (_dcsStringHandler s)
    (_cachedSequence s) b.

(** What the engine sees of the machine, and what it writes back. *)
Definition view_of s : EngineView E :=
  mkView (_cachedSequence s) (_isInAnsiMode s) (_engine s).
Definition with_view (v : EngineView E) s : StateMachine E H :=
  mkSM (ev_engine v) (_state s) (ev_isInAnsiMode v) (_run s) (_identifier s) (_parameters s)
    (_parameterLimitReached s) (_oscString s) (_oscParameter s) (_dcsStringHandler s)
    (ev_cachedSequence v) (_processingIndividually s).

(** [ActionPassThroughString] as an action on the view. *)
Definition on_engine {A} (m : prog E A) : prog (EngineView E) A := λ v,
  match m (ev_engine v) with
  | Ok a e => Ok a (mkView (ev_cachedSequence v) (ev_isInAnsiMode v) e)
  | Throw x e => Throw x (mkView (ev_cachedSequence v) (ev_isInAnsiMode v) e)
  end.

(** [StateMachine::FlushToTerminal], for the run the machine currently holds. *)
Definition FlushToTerminal (run : wstring) : prog (EngineView E) bool :=
  cached ← gets ev_cachedSequence;
  success ← match cached with
            | Some c =>
                r ← on_engine (ActionPassThroughString c);
                modify (λ v, mkView None (ev_isInAnsiMode v) (ev_engine v));;
                mret r
            | None => mret true
            end;
  if (success : bool) then on_engine (ActionPassThroughString run) else mret false.

(** A virtual call on [_engine]. *)
Definition call {A} (m : EngM E A) : SM A := λ s,
  match m (FlushToTerminal (_run s)) (view_of s) with
  | Ok a v => Ok a (with_view v s)
  | Throw x v => Throw x (with_view v s)
  end.

(** ** Actions *)

Definition _AccumulateTo (wch : wchar) (value : Z) : Z :=
  let digit := u64 (wch - 48) in
  let value := u64 (u64 (value * 10) + digit) in
  if value >? MAX_PARAMETER_VALUE then MAX_PARAMETER_VALUE else value.

Definition _ActionExecute (wch : wchar) : SM unit :=
  _ ← call (ActionExecute wch); mret tt.

Definition _ActionExecuteFromEscape (wch : wchar) : SM unit :=
  _ ← call (ActionExecuteFromEscape wch); mret tt.

Definition _ActionPrint (wch : wchar) : SM unit :=
  _ ← call (ActionPrint wch); mret tt.

Definition _ActionEscDispatch (wch : wchar) : SM unit :=
  id ← gets (λ s, Finalize wch (_identifier s));
  _ ← call (ActionEscDispatch id); mret tt.

Definition _ActionVt52EscDispatch (wch : wchar) : SM unit :=
  id ← gets (λ s, Finalize wch (_identifier s));
  ps ← gets _parameters;
  _ ← call (ActionVt52EscDispatch id ps); mret tt.

Definition _ActionCsiDispatch (wch : wchar) : SM unit :=
  id ← gets (λ s, Finalize wch (_identifier s));
  ps ← gets _parameters;
  _ ← call (ActionCsiDispatch id ps); mret tt.

Definition _ActionCollect (wch : wchar) : SM unit :=
  modify (λ s, set_identifier (AddIntermediate wch (_identifier s)) s).

(** [_ActionParam] on the vector of parameters and the limit flag. *)
Definition param_step (wch : wchar) (ps : list VTParameter) (limit : bool)
    : list VTParameter * bool :=
  if limit then (ps, limit)
  else
    let ps := match ps with [] => [VTParameter_empty] | _ => ps end in
    if _isParameterDelimiter wch then
      if Z.of_nat (length ps) >=? MAX_PARAMETER_COUNT then (ps, true)
      else (ps ++ [VTParameter_empty], limit)
    else
      let back := List.last ps VTParameter_empty in
      let currentParameter := _AccumulateTo wch (value_or back 0) in
      (removelast ps ++ [VTParameter_of currentParameter], limit).

Definition _ActionParam (wch : wchar) : SM unit :=
  modify (λ s,
    let '(ps, limit) := param_step wch (_parameters s) (_parameterLimitReached s) in
    set_limitReached limit (set_parameters ps s)).

Definition _ActionClear : SM unit :=
  modify (λ s,
    set_dcsStringHandler None (set_oscParameter 0 (set_oscString []
      (set_limitReached false (set_parameters [] (set_identifier VTIDBuilder_Clear s))))));;
  _ ← call ActionClear; mret tt.

Definition _ActionIgnore : SM unit := mret tt.

(** Calling an empty [std::function] throws [std::bad_function_call]. *)
Definition callStringHandler (wch : wchar) : SM bool :=
  h ← gets _dcsStringHandler;
  match h with
  | Some h => call (StringHandler_call h wch)
  | None => throw BadFunctionCall
  end.

Definition _ActionInterrupt : SM unit :=
  st ← gets _state;
  if decide (st = DcsPassThrough) then
    _ ← callStringHandler ESC;
    modify (set_dcsStringHandler None)
  else mret tt.

Definition _ActionOscParam (wch : wchar) : SM unit :=
  modify (λ s, set_oscParameter (_AccumulateTo wch (_oscParameter s)) s).

Definition _ActionOscPut (wch : wchar) : SM unit :=
  modify (λ s, set_oscString (_oscString s ++ [wch]) s).

Definition _ActionOscDispatch (wch : wchar) : SM unit :=
  p ← gets _oscParameter;
  o ← gets _oscString;
  _ ← call (ActionOscDispatch wch p o); mret tt.

Definition _ActionSs3Dispatch (wch : wchar) : SM unit :=
  ps ← gets _parameters;
  _ ← call (ActionSs3Dispatch wch ps); mret tt.

(** ** State entries *)

Definition _EnterGround : SM unit :=
  modify (λ s, set_cachedSequence None (set_state Ground s)).
Definition _EnterEscape : SM unit := modify (set_state Escape);; _ActionClear.
Definition _EnterEscapeIntermediate : SM unit := modify (set_state EscapeIntermediate).
Definition _EnterCsiEntry : SM unit := modify (set_state CsiEntry);; _ActionClear.
Definition _EnterCsiParam : SM unit := modify (set_state CsiParam).
Definition _EnterCsiIgnore : SM unit := modify (set_state CsiIgnore).
Definition _EnterCsiIntermediate : SM unit := modify (set_state CsiIntermediate).
Definition _EnterOscParam : SM unit := modify (set_state OscParam).
Definition _EnterOscString : SM unit := modify (set_state OscString).
Definition _EnterOscTermination : SM unit := modify (set_state OscTermination).
Definition _EnterSs3Entry : SM unit := modify (set_state Ss3Entry);; _ActionClear.
Definition _EnterSs3Param : SM unit := modify (set_state Ss3Param).
Definition _EnterVt52Param : SM unit := modify (set_state Vt52Param).
Definition _EnterDcsEntry : SM unit := modify (set_state DcsEntry);; _ActionClear.
Definition _EnterDcsParam : SM unit := modify (set_state DcsParam).
Definition _EnterDcsIgnore : SM unit := modify (set_state DcsIgnore).
Definition _EnterDcsIntermediate : SM unit := modify (set_state DcsIntermediate).
Definition _EnterDcsPassThrough : SM unit := modify (set_state DcsPassThrough).
Definition _EnterSosPmApcString : SM unit := modify (set_state SosPmApcString).

Definition _ActionDcsDispatch (wch : wchar) : SM unit :=
  id ← gets (λ s, Finalize wch (_identifier s));
  ps ← gets _parameters;
  h ← call (ActionDcsDispatch id ps);
  modify (set_dcsStringHandler h);;
  match h with
  | Some _ => _EnterDcsPassThrough
  | None => _EnterDcsIgnore
  end.

(** ** Events *)

Definition _EventGround (wch : wchar) : SM unit :=
  if _isC0Code wch || _isDelete wch then _ActionExecute wch
  else _ActionPrint wch.

Definition _EventEscape (wch : wchar) : SM unit :=
  e ← gets _engine;
  ansi ← gets _isInAnsiMode;
  if _isC0Code wch then
    if DispatchControlCharsFromEscape e then _ActionExecuteFromEscape wch;; _EnterGround
    else _ActionExecute wch
  else if _isDelete wch then _ActionIgnore
  else if _isIntermediate wch then
    if DispatchIntermediatesFromEscape e then _ActionEscDispatch wch;; _EnterGround
    else _ActionCollect wch;; _EnterEscapeIntermediate
  else if (ansi : bool) then
    if _isCsiIndicator wch then _EnterCsiEntry
    else if _isOscIndicator wch then _EnterOscParam
    else if _isSs3Indicator wch && ParseControlSequenceAfterSs3 e then _EnterSs3Entry
    else if _isDcsIndicator wch then _EnterDcsEntry
    else if _isSosIndicator wch || _isPmIndicator wch || _isApcIndicator wch then
      _EnterSosPmApcString
    else _ActionEscDispatch wch;; _EnterGround
  else if _isVt52CursorAddress wch then _EnterVt52Param
  else _ActionVt52EscDispatch wch;; _EnterGround.

Definition _EventEscapeIntermediate (wch : wchar) : SM unit :=
  ansi ← gets _isInAnsiMode;
  if _isC0Code wch then _ActionExecute wch
  else if _isIntermediate wch then _ActionCollect wch
  else if _isDelete wch then _ActionIgnore
  else if (ansi : bool) then _ActionEscDispatch wch;; _EnterGround
  else if _isVt52CursorAddress wch then _EnterVt52Param
  else _ActionVt52EscDispatch wch;; _EnterGround.

Definition _EventCsiEntry (wch : wchar) : SM unit :=
  if _isC0Code wch then _ActionExecute wch
  else if _isDelete wch then _ActionIgnore
  else if _isIntermediate wch then _ActionCollect wch;; _EnterCsiIntermediate
  else if _isCsiInvalid wch then _EnterCsiIgnore
  else if _isNumericParamValue wch || _isParameterDelimiter wch then
    _ActionParam wch;; _EnterCsiParam
  else if _isCsiPrivateMarker wch then _ActionCollect wch;; _EnterCsiParam
  else _ActionCsiDispatch wch;; _EnterGround.

Definition _EventCsiIntermediate (wch : wchar) : SM unit :=
  if _isC0Code wch then _ActionExecute wch
  else if _isIntermediate wch then _ActionCollect wch
  else if _isDelete wch then _ActionIgnore
  else if _isIntermediateInvalid wch then _EnterCsiIgnore
  else _ActionCsiDispatch wch;; _EnterGround.

Definition _EventCsiIgnore (wch : wchar) : SM unit :=
  if _isC0Code wch then _ActionExecute wch
  else if _isDelete wch then _ActionIgnore
  else if _isIntermediate wch then _ActionIgnore
  else if _isIntermediateInvalid wch then _ActionIgnore
  else _EnterGround.

Definition _EventCsiParam (wch : wchar) : SM unit :=
  if _isC0Code wch then _ActionExecute wch
  else if _isDelete wch then _ActionIgnore
  else if _isNumericParamValue wch || _isParameterDelimiter wch then _ActionParam wch
  else if _isIntermediate wch then _ActionCollect wch;; _EnterCsiIntermediate
  else if _isParameterInvalid wch then _EnterCsiIgnore
  else _ActionCsiDispatch wch;; _EnterGround.

Definition _EventOscParam (wch : wchar) : SM unit :=
  if _isOscTerminator wch then _EnterGround
  else if _isNumericParamValue wch then _ActionOscParam wch
  else if _isOscDelimiter wch then _EnterOscString
  else _ActionIgnore.

Definition _EventOscString (wch : wchar) : SM unit :=
  if _isOscTerminator wch then _ActionOscDispatch wch;; _EnterGround
  else if _isEscape wch then _EnterOscTermination
  else if _isOscInvalid wch then _ActionIgnore
  else _ActionOscPut wch.

Definition _EventOscTermination (wch : wchar) : SM unit :=
  if _isStringTerminatorIndicator wch then _ActionOscDispatch wch;; _EnterGround
  else _EnterEscape;; _EventEscape wch.

Definition _EventSs3Entry (wch : wchar) : SM unit :=
  if _isC0Code wch then _ActionExecute wch
  else if _isDelete wch then _ActionIgnore
  else if _isCsiInvalid wch then _EnterCsiIgnore
  else if _isNumericParamValue wch || _isParameterDelimiter wch then
    _ActionParam wch;; _EnterSs3Param
  else _ActionSs3Dispatch wch;; _EnterGround.

Definition _EventSs3Param (wch : wchar) : SM unit :=
  if _isC0Code wch then _ActionExecute wch
  else if _isDelete wch then _ActionIgnore
  else if _isNumericParamValue wch || _isParameterDelimiter wch then _ActionParam wch
  else if _isParameterInvalid wch then _EnterCsiIgnore
  else _ActionSs3Dispatch wch;; _EnterGround.

Definition _EventVt52Param (wch : wchar) : SM unit :=
  if _isC0Code wch then _ActionExecute wch
  else if _isDelete wch then _ActionIgnore
  else
    modify (λ s, set_parameters (_parameters s ++ [VTParameter_of wch]) s);;
    n ← gets (λ s, length (_parameters s));
    if decide (n = 2%nat) then _ActionVt52EscDispatch 0x59;; _EnterGround
    else mret tt.

Definition _EventDcsEntry (wch : wchar) : SM unit :=
  if _isC0Code wch then _ActionIgnore
  else if _isDelete wch then _ActionIgnore
  else if _isCsiInvalid wch then _EnterDcsIgnore
  else if _isNumericParamValue wch || _isParameterDelimiter wch then
    _ActionParam wch;; _EnterDcsParam
  else if _isIntermediate wch then _ActionCollect wch;; _EnterDcsIntermediate
  else _ActionDcsDispatch wch.

Definition _EventDcsIgnore : SM unit := _ActionIgnore.

Definition _EventDcsIntermediate (wch : wchar) : SM unit :=
  if _isC0Code wch then _ActionIgnore
  else if _isDelete wch then _ActionIgnore
  else if _isIntermediate wch then _ActionCollect wch
  else if _isIntermediateInvalid wch then _EnterDcsIgnore
  else _ActionDcsDispatch wch.

(** The second [if] of the source is not chained to the first one with an
    [else]: both run. *)
Definition _EventDcsParam (wch : wchar) : SM unit :=
  (if _isC0Code wch then _ActionIgnore
   else if _isDelete wch then _ActionIgnore
   else mret tt);;
  if _isNumericParamValue wch || _isParameterDelimiter wch then _ActionParam wch
  else if _isIntermediate wch then _ActionCollect wch;; _EnterDcsIntermediate
  else if _isParameterInvalid wch then _EnterDcsIgnore
  else _ActionDcsDispatch wch.

Definition _EventDcsPassThrough (wch : wchar) : SM unit :=
  if _isC0Code wch || _isDcsPassThroughValid wch then
    handled ← callStringHandler wch;
    if (handled : bool) then mret tt else _EnterDcsIgnore
  else _ActionIgnore.

Definition _EventSosPmApcString (wch : wchar) : SM unit := _ActionIgnore.

(** ** ProcessCharacter

    The body of the function, with the recursive calls as an argument: a C1
    control character is processed as ESC and its 7-bit equivalent. *)

Definition process_event (wch : wchar) : SM unit :=
  st ← gets _state;
  match st with
  | Ground => _EventGround wch
  | Escape => _EventEscape wch
  | EscapeIntermediate => _EventEscapeIntermediate wch
  | CsiEntry => _EventCsiEntry wch
  | CsiIntermediate => _EventCsiIntermediate wch
  | CsiIgnore => _EventCsiIgnore wch
  | CsiParam => _EventCsiParam wch
  | OscParam => _EventOscParam wch
  | OscString => _EventOscString wch
  | OscTermination => _EventOscTermination wch
  | Ss3Entry => _EventSs3Entry wch
  | Ss3Param => _EventSs3Param wch
  | Vt52Param => _EventVt52Param wch
  | DcsEntry => _EventDcsEntry wch
  | DcsIgnore => _EventDcsIgnore
  | DcsIntermediate => _EventDcsIntermediate wch
  | DcsParam => _EventDcsParam wch
  | DcsPassThrough => _EventDcsPassThrough wch
  | SosPmApcString => _EventSosPmApcString wch
  end.

Definition ProcessCharacter_body (rec : wchar → SM unit) (wch : wchar) : SM unit :=
  st ← gets _state;
  e ← gets _engine;
  let isFromAnywhereChar := (wch =? CAN) || (wch =? SUB) in
  if isFromAnywhereChar
     && negb (bool_decide (st = Escape) && DispatchControlCharsFromEscape e) then
    _ActionInterrupt;; _ActionExecute wch;; _EnterGround
  else if _isC1ControlCharacter wch then rec ESC;; rec (_c1To7Bit wch)
  else if _isEscape wch && negb (bool_decide (st = OscString)) then
    _ActionInterrupt;; _EnterEscape
  else process_event wch.

Fixpoint ProcessCharacter_fuel (fuel : nat) (wch : wchar) : SM unit :=
  match fuel with
  | O => throw OutOfFuel
  | S fuel => ProcessCharacter_body (ProcessCharacter_fuel fuel) wch
  end.

(** Neither ESC nor a 7-bit equivalent is a C1 character, so that the
    recursion is two deep. *)
Definition ProcessCharacter (wch : wchar) : SM unit := ProcessCharacter_fuel 2 wch.

Definition ResetState : SM unit := _EnterGround.

(** ** ProcessString *)

Definition substr (str : wstring) (pos n : nat) : wstring := take n (drop pos str).

(** The [while] loop, on the indices [start] and [current]. *)
Fixpoint ProcessString_loop (fuel : nat) (string : wstring) (start current : nat)
    : SM nat :=
  match fuel with
  | O => throw OutOfFuel
  | S fuel =>
      match string !! current with
      | None => mret start
      | Some wch =>
          modify (set_run (substr string start (current - start + 1)));;
          individually ← gets _processingIndividually;
          if (individually : bool) then
            ProcessCharacter wch;;
            st ← gets _state;
            if decide (st = Ground) then
              modify (set_processingIndividually false);;
              ProcessString_loop fuel string (S current) (S current)
            else ProcessString_loop fuel string start (S current)
          else if _isActionableFromGround wch then
            run ← gets _run;
            match run with
            | [] => mret tt
            | _ =>
                let allLeadingUpTo := take (length run - 1) run in
                _ ← call (ActionPrintString allLeadingUpTo); mret tt
            end;;
            modify (set_processingIndividually true);;
            ProcessString_loop fuel string current current
          else ProcessString_loop fuel string start (S current)
      end
  end.

(** [for (wchIter ...) ProcessCharacter( *wchIter)] over all but the last one. *)
Fixpoint ProcessCharacters (l : wstring) : SM unit :=
  match l with
  | [] => mret tt
  | c :: l' => ProcessCharacter c;; ProcessCharacters l'
  end.

(** The [switch] that dispatches the last character of an undispatched
    sequence. *)
Definition flush_last (wch : wchar) : SM unit :=
  st ← gets _state;
  match st with
  | Ground => _ActionExecute wch
  | Escape | EscapeIntermediate => _ActionEscDispatch wch
  | CsiEntry | CsiIntermediate | CsiIgnore | CsiParam => _ActionCsiDispatch wch
  | OscParam | OscString | OscTermination => _ActionOscDispatch wch
  | Ss3Entry | Ss3Param => _ActionSs3Dispatch wch
  | _ => mret tt
  end.

(** What follows the loop.  The flush dereferences [_run.cend() - 1], which an
    empty run does not have. *)
Definition ProcessString_tail (string : wstring) (start : nat) : SM unit :=
  modify (set_run (if decide (start < length string)%nat then drop start string else []));;
  run ← gets _run;
  individually ← gets _processingIndividually;
  e ← gets _engine;
  if negb individually && negb (bool_decide (run = [])) then
    _ ← call (ActionPrintString run); mret tt
  else if (individually : bool) then
    if FlushAtEndOfString e then
      ResetState;;
      match run with
      | [] => throw UndefinedBehavior
      | _ =>
          ProcessCharacters (removelast run);;
          flush_last (List.last run 0);;
          _EnterGround
      end
    else
      modify (λ s, set_cachedSequence (Some (default [] (_cachedSequence s) ++ run)) s)
  else mret tt.

Definition ProcessString (string : wstring) : SM unit :=
  start ← ProcessString_loop (2 * length string + 2) string 0 0;
  ProcessString_tail string start.

(** The constructor: [_ActionClear] runs on the engine before it returns. *)
Definition StateMachine_init (engine : E) : StateMachine E H :=
  mkSM engine Ground true [] VTIDBuilder_Clear [] false [] 0 None None false.

Definition StateMachine_new : SM unit := _ActionClear.

End machine.

Abbreviation SM E H := (prog (StateMachine E H)).

#[global] Arguments call : simpl never.
#[global] Arguments FlushToTerminal : simpl never.
#[global] Arguments ProcessCharacter : simpl never.
#[global] Arguments AddIntermediate : simpl never.
#[global] Arguments Finalize : simpl never.
#[global] Arguments param_step : simpl never.
#[global] Arguments _AccumulateTo : simpl never.
