(* ===== verification/StateMachineFacts.v ===== *)
(** Facts of the VT parser that hold for every engine: the well-formedness of
    the machine, that no function of it throws, and that its loops terminate. *)

From S2P Require Import Prelude DispatchTypes StateMachine.
Import AsciiChars.

(** The parameters of a VT52 cursor address are characters; the others are
    numbers that [_AccumulateTo] limits. *)
Definition param_max (st : VTStates) : Z :=
  match st with
  | Ground | Vt52Param => 65535
  | _ => MAX_PARAMETER_VALUE
  end.

Definition param_wf (m : Z) (p : VTParameter) : Prop := -1 <= _value p <= m.

(** ** What the parser asks of its engine

    An engine is safe when it has an invariant that each of its actions maintains
    without throwing, given a flush callback that does so too.  Actions for
    sequences may rely on the limits of the parameters. *)

Definition maintains {W A} (I : W → Prop) (m : prog W A) : Prop := ∀ w, I w → wp m (λ _, I) w.

Definition view_ok {E} (I : E → Prop) (v : EngineView E) : Prop := I (ev_engine v).

Definition safe_action {E A} (I : E → Prop) (m : EngM E A) : Prop :=
  ∀ k, maintains (view_ok I) k → maintains (view_ok I) (m k).

Class EngineSafe (E H : Type) `{IStateMachineEngine E H} := {
  engine_ok : E → Prop;
  safe_ActionExecute c : safe_action engine_ok (ActionExecute (E:=E) (H:=H) c);
  safe_ActionExecuteFromEscape c : safe_action engine_ok (ActionExecuteFromEscape (E:=E) (H:=H) c);
  safe_ActionPrint c : safe_action engine_ok (ActionPrint (E:=E) (H:=H) c);
  safe_ActionPrintString str : safe_action engine_ok (ActionPrintString (E:=E) (H:=H) str);
  safe_ActionPassThroughString str :
    maintains engine_ok (ActionPassThroughString (E:=E) (H:=H) str);
  safe_ActionEscDispatch id : safe_action engine_ok (ActionEscDispatch (E:=E) (H:=H) id);
  safe_ActionVt52EscDispatch id ps : Forall (param_wf 65535) ps →
    safe_action engine_ok (ActionVt52EscDispatch (E:=E) (H:=H) id ps);
  safe_ActionCsiDispatch id ps : Forall (param_wf MAX_PARAMETER_VALUE) ps →
    safe_action engine_ok (ActionCsiDispatch (E:=E) (H:=H) id ps);
  safe_ActionDcsDispatch id ps : safe_action engine_ok (ActionDcsDispatch (E:=E) (H:=H) id ps);
  safe_ActionClear : safe_action engine_ok (ActionClear (E:=E) (H:=H));
  safe_ActionOscDispatch c p o : safe_action engine_ok (ActionOscDispatch (E:=E) (H:=H) c p o);
  safe_ActionSs3Dispatch c ps : safe_action engine_ok (ActionSs3Dispatch (E:=E) (H:=H) c ps);
  safe_StringHandler_call h c : safe_action engine_ok (StringHandler_call (E:=E) (H:=H) h c)
}.

Create HintDb engine.
#[export] Hint Resolve safe_ActionExecute safe_ActionExecuteFromEscape safe_ActionPrint
  safe_ActionPrintString safe_ActionEscDispatch safe_ActionVt52EscDispatch
  safe_ActionCsiDispatch safe_ActionDcsDispatch safe_ActionClear safe_ActionOscDispatch
  safe_ActionSs3Dispatch safe_StringHandler_call : engine.

(** ** Well-formedness *)

Definition id_wf (b : VTIDBuilder) : Prop :=
  0 <= _idShift b <= 56 ∧ (8 | _idShift b) ∧ 0 <= _idAccumulator b < 2 ^ _idShift b.

Section wf.
Context {E H : Type} `{EngineSafe E H}.
Implicit Types (s : StateMachine E H).

Record sm_wf s : Prop := {
  wf_identifier : id_wf (_identifier s);
  wf_parameters : Forall (param_wf (param_max (_state s))) (_parameters s);
  wf_count : (length (_parameters s) <= 32)%nat;
  wf_limit : _parameterLimitReached s = true → length (_parameters s) = 32%nat;
  wf_osc : 0 <= _oscParameter s <= MAX_PARAMETER_VALUE;
  wf_handler : _state s = DcsPassThrough → is_Some (_dcsStringHandler s);
  wf_escape : _state s = Escape ∨ _state s = EscapeIntermediate → _parameters s = [];
  wf_vt52 : _state s = Vt52Param → (length (_parameters s) < 2)%nat;
  wf_engine : engine_ok (_engine s)
}.
End wf.

(** ** Lemmas on the parameters *)

Lemma u64_small z : 0 <= z < 2 ^ 64 → u64 z = z.
Proof. apply wrapu_small. Qed.

Lemma i64_small z : - 2 ^ 63 <= z < 2 ^ 63 → i64 z = z.
Proof. by apply (wraps_small 64). Qed.

Lemma AccumulateTo_range c v : 0 <= _AccumulateTo c v <= MAX_PARAMETER_VALUE.
Proof.
  unfold _AccumulateTo, MAX_PARAMETER_VALUE. cbv zeta.
  pose proof (wrapu_range 64 (u64 (v * 10) + u64 (c - 48))).
  destruct (Z.gtb_spec (u64 (u64 (v * 10) + u64 (c - 48))) 32767); lia.
Qed.

Lemma AccumulateTo_wf c v : param_wf MAX_PARAMETER_VALUE (VTParameter_of (_AccumulateTo c v)).
Proof.
  pose proof (AccumulateTo_range c v) as Hr. unfold MAX_PARAMETER_VALUE in *.
  unfold param_wf, VTParameter_of. cbn [_value]. rewrite i64_small; lia.
Qed.

Lemma param_wf_empty m : -1 <= m → param_wf m VTParameter_empty.
Proof. unfold param_wf. cbn. lia. Qed.

Lemma Forall_removelast {A} (P : A → Prop) (l : list A) : Forall P l → Forall P (removelast l).
Proof.
  intros Hl. destruct (decide (l = [])) as [->|Hne]; [done|].
  destruct l as [|d l]; [done|].
  rewrite <-(removelast_last_app (d :: l) d) in Hl by done.
  by apply Forall_app in Hl as [? _].
Qed.

(** What [_ActionParam] maintains. *)
Lemma param_step_wf c ps limit ps' limit' :
  param_step c ps limit = (ps', limit') →
  Forall (param_wf MAX_PARAMETER_VALUE) ps → (length ps <= 32)%nat →
  (limit = true → length ps = 32%nat) →
  Forall (param_wf MAX_PARAMETER_VALUE) ps' ∧ (length ps' <= 32)%nat ∧
  (limit' = true → length ps' = 32%nat).
Proof.
  unfold param_step. intros Hs Hps Hlen Hlim. destruct limit; [naive_solver|].
  set (qs := match ps with [] => [VTParameter_empty] | _ => ps end) in *.
  assert (Forall (param_wf MAX_PARAMETER_VALUE) qs) as Hqs.
  { destruct ps; [|done]. constructor; [by apply param_wf_empty|done]. }
  assert (0 < length qs <= 32)%nat as Hql by (destruct ps; cbn in *; lia).
  clearbody qs. unfold MAX_PARAMETER_COUNT in Hs.
  destruct (_isParameterDelimiter c).
  - destruct (Z.geb_spec (Z.of_nat (length qs)) 32); simplify_eq.
    + repeat split; [done|lia|lia].
    + rewrite length_app. cbn [length]. repeat split; [|lia|done].
      apply Forall_app; split; [done|]. constructor; [by apply param_wf_empty|done].
  - simplify_eq. rewrite length_app, length_removelast. cbn [length].
    repeat split; [|lia|done].
    apply Forall_app; split; [by apply Forall_removelast|].
    constructor; [apply AccumulateTo_wf|done].
Qed.

(** ** Lemmas on the identifier *)

Lemma id_wf_clear : id_wf VTIDBuilder_Clear.
Proof. unfold id_wf. cbn. split; [lia|]. split; [by exists 0|lia]. Qed.

(** The accumulator never wraps. *)
Lemma AddIntermediate_wf c b : 0 <= c < 256 → id_wf b → id_wf (AddIntermediate c b).
Proof.
  intros Hc (Hs & Hd & Ha). unfold AddIntermediate, CHAR_BIT.
  destruct (Z.geb_spec (_idShift b + 8) (8 * 8)); unfold id_wf; cbn [_idShift _idAccumulator].
  { split; [lia|]. split; [done|]. split; [lia|]. apply Z.pow_pos_nonneg; lia. }
  assert (_idShift b <= 48) by (destruct Hd as [q ?]; lia).
  rewrite Z.shiftl_mul_pow2 by lia.
  assert (0 < 2 ^ _idShift b) by (apply Z.pow_pos_nonneg; lia).
  assert (2 ^ _idShift b <= 2 ^ 48) by (apply Z.pow_le_mono_r; lia).
  rewrite Z.pow_add_r by lia. change (2 ^ 8) with 256.
  rewrite (u64_small (c * _)) by (change (2 ^ 64) with (65536 * 2 ^ 48); nia).
  rewrite u64_small by (change (2 ^ 64) with (65536 * 2 ^ 48); nia).
  split; [lia|]. split; [by apply Z.divide_add_r; [|exists 1]|nia].
Qed.

(** ** Safety: no function of the machine throws *)

Section safety.
Context {E H : Type} `{IStateMachineEngine E H} `{!EngineSafe E H}.
Implicit Types (s : StateMachine E H).

Lemma on_engine_maintains {A} (m : prog E A) : maintains engine_ok m → maintains (view_ok engine_ok) (on_engine m).
Proof. intros Hm v Hv. specialize (Hm (ev_engine v) Hv). unfold wp, on_engine in *. by destruct m. Qed.

Lemma FlushToTerminal_maintains run : maintains (view_ok engine_ok) (FlushToTerminal (E:=E) (H:=H) run).
Proof.
  intros v Hv. unfold FlushToTerminal. wp_step. wp_step. wp_step.
  assert (∀ str, maintains (view_ok engine_ok) (on_engine (ActionPassThroughString (E:=E) (H:=H) str))) as Hp.
  { intros str. apply on_engine_maintains, safe_ActionPassThroughString. }
  destruct (ev_cachedSequence v) as [c|].
  - wp_step. eapply wp_mono; [by apply Hp|]. intros [] w Hw; repeat wp_step; [by apply Hp|done].
  - wp_step. by apply Hp.
Qed.

Lemma wp_call {A} (m : EngM E A) (Q : A → StateMachine E H → Prop) s :
  safe_action engine_ok m → engine_ok (_engine s) →
  (∀ a v, engine_ok (ev_engine v) → Q a (with_view v s)) → wp (call m) Q s.
Proof.
  intros Hm He HQ. unfold wp, call.
  pose proof (Hm _ (FlushToTerminal_maintains (_run s)) (view_of s) He) as Hw.
  unfold wp in Hw. destruct (m _ _); [|done]. by apply HQ.
Qed.

(** The members that an engine call leaves alone decide the rest. *)
Lemma sm_wf_with_view v s : engine_ok (ev_engine v) → sm_wf s → sm_wf (with_view v s).
Proof. intros ? []. by constructor. Qed.

Lemma sm_wf_set_cachedSequence c s : sm_wf s → sm_wf (set_cachedSequence c s).
Proof. intros []. by constructor. Qed.

Lemma sm_wf_set_run r s : sm_wf s → sm_wf (set_run r s).
Proof. intros []. by constructor. Qed.

Lemma sm_wf_set_processingIndividually b s : sm_wf s → sm_wf (set_processingIndividually b s).
Proof. intros []. by constructor. Qed.

(** A state whose entry needs nothing but numeric parameters. *)
Definition plain_state (st : VTStates) : bool :=
  match st with
  | DcsPassThrough | Escape | EscapeIntermediate | Vt52Param => false
  | _ => true
  end.

Lemma param_wf_mono m m' (ps : list VTParameter) :
  m <= m' → Forall (param_wf m) ps → Forall (param_wf m') ps.
Proof. intros Hm Hp. induction Hp; constructor; unfold param_wf in *; [lia|done]. Qed.

Lemma sm_wf_set_state st s :
  plain_state st = true → param_max (_state s) <= param_max st → sm_wf s → sm_wf (set_state st s).
Proof.
  intros Hp Hm []. constructor; cbn; try done.
  - by eapply param_wf_mono.
  - by intros ->.
  - by intros [-> | ->].
  - by intros ->.
Qed.

(** With no parameters yet every state but [DcsPassThrough] may be entered. *)
Lemma sm_wf_set_state_nil st s :
  st ≠ DcsPassThrough → _parameters s = [] → sm_wf s → sm_wf (set_state st s).
Proof.
  intros Hp Hn []. constructor; cbn; try done.
  - by rewrite Hn.
  - intros _. rewrite Hn. cbn. lia.
Qed.

Lemma sm_wf_ground s : sm_wf s → sm_wf (set_state Ground s).
Proof. intros. apply sm_wf_set_state; [done| |done]. by destruct (_state s). Qed.

Lemma sm_wf_set_identifier b s : id_wf b → sm_wf s → sm_wf (set_identifier b s).
Proof. intros ? []. by constructor. Qed.

Lemma sm_wf_set_oscString o s : sm_wf s → sm_wf (set_oscString o s).
Proof. intros []. by constructor. Qed.

Lemma sm_wf_set_oscParameter c s :
  sm_wf s → sm_wf (set_oscParameter (_AccumulateTo c (_oscParameter s)) s).
Proof. intros []. constructor; try done. apply AccumulateTo_range. Qed.

(** Clearing makes any state but [DcsPassThrough] well-formed. *)
Lemma sm_wf_cleared s :
  _state s ≠ DcsPassThrough → engine_ok (_engine s) →
  sm_wf (set_dcsStringHandler None (set_oscParameter 0 (set_oscString []
      (set_limitReached false (set_parameters [] (set_identifier VTIDBuilder_Clear s)))))).
Proof.
  intros Hs He. constructor; cbn; try done; [apply id_wf_clear|lia|intros _; lia].
Qed.

Lemma wp_ActionClear s (Q : unit → StateMachine E H → Prop) :
  _state s ≠ DcsPassThrough → engine_ok (_engine s) →
  (∀ s', sm_wf s' → _state s' = _state s → _parameters s' = [] → Q tt s') →
  wp _ActionClear Q s.
Proof.
  intros Hs He HQ. unfold _ActionClear. repeat wp_step.
  apply wp_call; [eauto with engine|done|]. intros _ v Hv. wp_step.
  apply HQ; [|done|done]. by apply sm_wf_with_view, sm_wf_cleared.
Qed.

Lemma wp_enter_clear st s (Q : unit → StateMachine E H → Prop) :
  st ≠ DcsPassThrough → engine_ok (_engine s) →
  (∀ s', sm_wf s' → _state s' = st → Q tt s') →
  wp (modify (set_state st);; _ActionClear) Q s.
Proof. intros Hs He HQ. repeat wp_step. apply wp_ActionClear; [done|done|]. naive_solver. Qed.

Lemma wp_ActionParam c s (Q : unit → StateMachine E H → Prop) :
  sm_wf s → param_max (_state s) = MAX_PARAMETER_VALUE →
  _state s ≠ Escape → _state s ≠ EscapeIntermediate →
  (∀ s', sm_wf s' → _state s' = _state s → Q tt s') → wp (_ActionParam c) Q s.
Proof.
  intros [] Hm Hne1 Hne2 HQ. unfold _ActionParam. wp_step.
  destruct (param_step _ _ _) as [ps lim] eqn:Hp. rewrite Hm in wf_parameters0.
  pose proof (param_step_wf _ _ _ _ _ Hp wf_parameters0 wf_count0 wf_limit0) as (?&?&?).
  apply HQ; [|done]. constructor; cbn; try done.
  - by rewrite Hm.
  - by intros [? | ?].
  - intros Hv. by rewrite Hv in Hm.
Qed.

Lemma wp_ActionCollect c s (Q : unit → StateMachine E H → Prop) :
  sm_wf s → 0 <= c < 256 →
  (∀ s', sm_wf s' → _state s' = _state s → _parameters s' = _parameters s → Q tt s') →
  wp (_ActionCollect c) Q s.
Proof.
  intros Hw Hc HQ. unfold _ActionCollect. wp_step. apply HQ; [|done|done].
  apply sm_wf_set_identifier; [|done]. apply AddIntermediate_wf; [done|]. apply Hw.
Qed.

Lemma wp_ActionDcsDispatch c s :
  sm_wf s → param_max (_state s) = MAX_PARAMETER_VALUE →
  wp (_ActionDcsDispatch c) (λ _, sm_wf) s.
Proof.
  intros [] Hm. unfold _ActionDcsDispatch. repeat wp_step.
  apply wp_call; [eauto with engine|done|]. intros h v Hv. repeat wp_step.
  rewrite Hm in wf_parameters0.
  destruct h; unfold _EnterDcsPassThrough, _EnterDcsIgnore; wp_step;
    (constructor; cbn; try done; by intros [? | ?]).
Qed.

Lemma wp_ActionInterrupt s (Q : unit → StateMachine E H → Prop) :
  sm_wf s → (∀ s', sm_wf (set_state Ground s') → Q tt s') → wp _ActionInterrupt Q s.
Proof.
  intros Hw HQ. unfold _ActionInterrupt. repeat wp_step. case_decide as Hs.
  - wp_step. unfold callStringHandler. repeat wp_step.
    destruct (wf_handler _ Hw Hs) as [h ->].
    apply wp_call; [eauto with engine|apply Hw|]. intros _ v Hv. wp_step. apply HQ.
    apply sm_wf_ground in Hw as []. by constructor.
  - wp_step. by apply HQ, sm_wf_ground.
Qed.

Hint Resolve sm_wf_with_view sm_wf_set_cachedSequence sm_wf_set_run
  sm_wf_set_processingIndividually sm_wf_ground sm_wf_set_identifier sm_wf_set_oscString
  sm_wf_set_oscParameter : engine.

(** The engine of a machine that differs from a well-formed one in other members. *)
Ltac engine_state_ok :=
  cbn; first [by eauto using wf_engine|match goal with Hw : sm_wf _ |- _ => exact (wf_engine _ Hw) end].

(** An action of the engine, with the limits of the parameters where it needs them. *)
Ltac action_ok :=
  first
  [ by eauto with engine
  | (apply safe_ActionCsiDispatch || apply safe_ActionVt52EscDispatch); cbn;
    match goal with Hw : sm_wf ?s |- Forall _ (_parameters ?s) =>
      refine (param_wf_mono _ _ _ _ (wf_parameters s Hw)); first [by destruct (_state s)|match goal with Hs : _state s = _ |- _ => by rewrite Hs end] end ].

(** Runs an event function; what remains is that the machine it leaves is
    well-formed. *)
Ltac sm_run :=
  repeat match goal with
  | |- wp (if ?b then _ else _) _ _ => destruct b eqn:?
  | |- wp (if decide _ then _ else _) _ _ => case_decide
  | |- wp (call _) _ _ => apply wp_call; [action_ok|engine_state_ok|intros ? ? ?]
  | |- wp (_ ≫= _) _ _ => apply wp_bind
  | |- wp (mret _) _ _ => apply wp_ret
  | |- wp (gets _) _ _ => apply wp_gets
  | |- wp (_ActionParam _) _ _ => apply wp_ActionParam; [by eauto with engine|..|intros ? ? ?]
  | |- wp (_ActionCollect _) _ _ => apply wp_ActionCollect; [by eauto with engine| |intros ? ? ? ?]
  | |- wp (_ActionDcsDispatch _) _ _ => apply wp_ActionDcsDispatch; [by eauto with engine|]
  | |- wp _EnterEscape _ _ => apply wp_enter_clear; [done|engine_state_ok|intros ? ? ?]
  | |- wp _EnterCsiEntry _ _ => apply wp_enter_clear; [done|engine_state_ok|intros ? ? ?]
  | |- wp _EnterSs3Entry _ _ => apply wp_enter_clear; [done|engine_state_ok|intros ? ? ?]
  | |- wp _EnterDcsEntry _ _ => apply wp_enter_clear; [done|engine_state_ok|intros ? ? ?]
  | |- wp (_EventEscape _) _ _ => fail 1
  | |- wp (modify _) _ _ => apply wp_modify
  | |- wp ?m _ _ => let h := get_head m in progress unfold h
  end.

Ltac sm_done :=
  lazymatch goal with
  | |- sm_wf (set_state EscapeIntermediate _) =>
      apply sm_wf_set_state_nil; [done|eauto using eq_trans, wf_escape|by eauto with engine]
  | |- sm_wf (set_state Vt52Param _) =>
      apply sm_wf_set_state_nil; [done|eauto using eq_trans, wf_escape|by eauto with engine]
  | |- sm_wf (set_state _ _) =>
      apply sm_wf_set_state;
        [done
        |cbn; repeat match goal with Hs : _state _ = _ |- _ => rewrite Hs in * end; done
        |by eauto with engine]
  | |- sm_wf _ => by eauto with engine
  | |- 0 <= _ < 256 =>
      unfold _isIntermediate, _isCsiPrivateMarker in *;
      repeat match goal with Hc : (_ || _)%bool = true |- _ => apply orb_true_iff in Hc as [?|?] end;
      zify_bool; lia
  | |- _ => repeat match goal with Hs : _state _ = _ |- _ => rewrite Hs in * end; done
  end.

Lemma EventEscape_wf c s : sm_wf s → _state s = Escape → wp (_EventEscape c) (λ _, sm_wf) s.
Proof. intros Hw Hs. unfold _EventEscape. sm_run; sm_done. Qed.

Lemma EventVt52Param_wf c s :
  is_wchar c → sm_wf s → _state s = Vt52Param → wp (_EventVt52Param c) (λ _, sm_wf) s.
Proof.
  intros Hc Hw Hs. pose proof (wf_vt52 _ Hw Hs) as Hlen.
  assert (Forall (param_wf 65535) (_parameters s ++ [VTParameter_of c])) as Hps.
  { apply Forall_app; split.
    - pose proof (wf_parameters _ Hw) as Hp. by rewrite Hs in Hp.
    - constructor; [|done]. unfold is_wchar in Hc.
      unfold param_wf, VTParameter_of. cbn [_value]. rewrite i64_small; lia. }
  assert (∀ st, st = Ground ∨ (st = Vt52Param ∧ length (_parameters s ++ [VTParameter_of c]) ≠ 2%nat) →
    sm_wf (set_state st (set_parameters (_parameters s ++ [VTParameter_of c]) s))) as Hset.
  { intros st Hst. rewrite length_app in *. cbn [length] in *. destruct Hw.
    constructor; cbn; rewrite ?length_app; cbn [length]; try done.
    - destruct Hst as [->|[-> _]]; done.
    - lia.
    - intros Hl. specialize (wf_limit0 Hl). lia.
    - destruct Hst as [->|[-> _]]; done.
    - destruct Hst as [->|[-> _]]; intros [?|?]; done.
    - destruct Hst as [->|[-> Hne]]; [done|]. intros _. lia. }
  unfold _EventVt52Param. sm_run; try sm_done.
  apply sm_wf_set_cachedSequence.
  by apply (sm_wf_with_view _ _ ltac:(eassumption) (Hset Ground (or_introl eq_refl))).
Qed.

Lemma process_event_wf c s : is_wchar c → sm_wf s → wp (process_event c) (λ _, sm_wf) s.
Proof.
  intros Hc Hw. unfold process_event. apply wp_bind, wp_gets.
  destruct (_state s) eqn:Hs.
  all: try (by apply EventEscape_wf). all: try (by apply EventVt52Param_wf).
  all: sm_run; try (by sm_done).
  - by apply EventEscape_wf.
  - destruct (wf_handler _ Hw Hs) as [h ->]. sm_run; sm_done.
Qed.

(** *** ProcessCharacter *)

Lemma process_body_non_C1 (rec rec' : wchar → SM E H unit) c s :
  _isC1ControlCharacter c = false →
  ProcessCharacter_body rec c s = ProcessCharacter_body rec' c s.
Proof. intros Hc. unfold ProcessCharacter_body. by rewrite Hc. Qed.

Lemma c1To7Bit_range c : _isC1ControlCharacter c = true → 0x40 <= _c1To7Bit c <= 0x5F.
Proof.
  unfold _isC1ControlCharacter, _c1To7Bit. intros Hc. zify_bool.
  rewrite wrapu_small by lia. lia.
Qed.

Lemma c1To7Bit_non_C1 c :
  _isC1ControlCharacter c = true → _isC1ControlCharacter (_c1To7Bit c) = false.
Proof.
  intros Hc%c1To7Bit_range. unfold _isC1ControlCharacter.
  destruct (Z.leb_spec 0x80 (_c1To7Bit c)); [lia|done].
Qed.

(** More fuel changes nothing: the recursion is at most two deep. *)
Lemma ProcessCharacter_fuel_enough n c s :
  ProcessCharacter_fuel (S (S n)) c s = ProcessCharacter c s.
Proof.
  assert (∀ n m c s, _isC1ControlCharacter c = false →
    ProcessCharacter_fuel (S n) c s = ProcessCharacter_fuel (S m) c s) as Hn.
  { intros. by apply process_body_non_C1. }
  unfold ProcessCharacter. cbn [ProcessCharacter_fuel].
  destruct (_isC1ControlCharacter c) eqn:Hc; [|by apply process_body_non_C1].
  unfold ProcessCharacter_body at 1 3. rewrite Hc.
  unfold mbind, prog_bind, gets. case_match; [done|].
  change (match ProcessCharacter_fuel (S n) ESC s with
          | Ok _ w => ProcessCharacter_fuel (S n) (_c1To7Bit c) w
          | Throw e w => Throw e w
          end =
          match ProcessCharacter_fuel 1 ESC s with
          | Ok _ w => ProcessCharacter_fuel 1 (_c1To7Bit c) w
          | Throw e w => Throw e w
          end).
  rewrite (Hn n 0%nat ESC) by done. destruct (ProcessCharacter_fuel 1 ESC s); [|done].
  by apply Hn, c1To7Bit_non_C1.
Qed.

Lemma process_body_wf (rec : wchar → SM E H unit) c s :
  is_wchar c →
  (∀ c' s', _isC1ControlCharacter c = true → c' = ESC ∨ c' = _c1To7Bit c →
    sm_wf s' → wp (rec c') (λ _, sm_wf) s') →
  sm_wf s → wp (ProcessCharacter_body rec c) (λ _, sm_wf) s.
Proof.
  intros Hc Hrec Hw. unfold ProcessCharacter_body.
  do 2 (apply wp_bind, wp_gets).
  match goal with |- wp (if ?b then _ else _) _ _ => destruct b end.
  { apply wp_bind, wp_ActionInterrupt; [done|]. intros s' Hs'. sm_run.
    by apply sm_wf_set_cachedSequence, (sm_wf_with_view _ (set_state Ground s')). }
  destruct (_isC1ControlCharacter c) eqn:Hc1.
  { apply wp_bind. eapply wp_mono; [by apply Hrec; [|left|]|].
    intros ? s' ?. by apply Hrec; [|right|]. }
  match goal with |- wp (if ?b then _ else _) _ _ => destruct b end.
  - apply wp_bind, wp_ActionInterrupt; [done|]. intros s' Hs'.
    apply wp_enter_clear; [done|exact (wf_engine _ Hs')|done].
  - by apply process_event_wf.
Qed.

Lemma ProcessCharacter_wf c s :
  is_wchar c → sm_wf s → wp (ProcessCharacter c) (λ _, sm_wf) s.
Proof.
  intros Hc. unfold ProcessCharacter. cbn [ProcessCharacter_fuel].
  apply process_body_wf; [done|]. intros c' s' Hc1 Hc' Hs'.
  assert (_isC1ControlCharacter c' = false ∧ is_wchar c') as [Hn Hr].
  { destruct Hc' as [->| ->]; [done|]. split; [by apply c1To7Bit_non_C1|].
    apply c1To7Bit_range in Hc1. unfold is_wchar. lia. }
  apply process_body_wf; [done| |done]. intros ? ? Hn'. by rewrite Hn in Hn'.
Qed.

Lemma ProcessCharacters_wf l s :
  Forall is_wchar l → sm_wf s → wp (ProcessCharacters l) (λ _, sm_wf) s.
Proof.
  intros Hl. revert s. induction Hl as [|c l Hc _ IH]; intros s Hw; cbn; [done|].
  apply wp_bind. eapply wp_mono; [by apply ProcessCharacter_wf|]. intros ? s' Hs'. by apply IH.
Qed.

Lemma flush_last_wf c s : sm_wf s → wp (flush_last c) (λ _, sm_wf) s.
Proof.
  intros Hw. unfold flush_last. apply wp_bind, wp_gets.
  destruct (_state s) eqn:Hs; sm_run; by sm_done.
Qed.

(** *** ProcessString

    The fuel the loop starts with covers the two rounds that a character may
    take: one that ends the run of printable characters before it, and one that
    feeds it to the machine. *)

Definition loop_measure (string : wstring) (current : nat) s : nat :=
  (2 * (length string - current) + if _processingIndividually s then 0 else 1)%nat.

Definition loop_inv (string : wstring) (start : nat) s : Prop :=
  sm_wf s ∧ (start <= length string)%nat ∧
  (_processingIndividually s = true → (start < length string)%nat ∨ string = []).

Lemma ProcessString_loop_wf fuel string start current s :
  Forall is_wchar string →
  (start <= current <= length string)%nat → loop_inv string start s →
  (loop_measure string current s < fuel)%nat →
  wp (ProcessString_loop fuel string start current) (loop_inv string) s.
Proof.
  intros Hstr. revert start current s.
  induction fuel as [|fuel IH]; intros start current s Hi (Hw & Hlen & Hind) Hf; [lia|].
  cbn [ProcessString_loop]. destruct (string !! current) as [c|] eqn:Hc; [|by apply wp_ret].
  pose proof (lookup_lt_Some _ _ _ Hc) as Hcur.
  pose proof (Forall_lookup_1 _ _ _ _ Hstr Hc) as Hwc.
  unfold loop_measure in *. apply wp_bind, wp_modify, wp_bind, wp_gets.
  set (s1 := set_run _ s). assert (sm_wf s1) as Hw1 by by apply sm_wf_set_run.
  change (_processingIndividually s1) with (_processingIndividually s).
  destruct (_processingIndividually s) eqn:Hpi.
  - apply wp_bind. eapply wp_mono; [by apply ProcessCharacter_wf|]. intros ? s2 Hw2.
    apply wp_bind, wp_gets. case_decide.
    + apply wp_bind, wp_modify, IH; cbn; [lia| |lia].
      split; [by apply sm_wf_set_processingIndividually|]. split; [lia|done].
    + apply IH; [lia| |destruct (_processingIndividually s2); lia].
      split; [done|]. split; [lia|]. intros _. by apply Hind.
  - destruct (_isActionableFromGround c).
    + do 2 (apply wp_bind; try apply wp_gets).
      apply wp_mono with (P := λ _ s2, sm_wf s2).
      { destruct (_run s1); [by apply wp_ret|]. apply wp_bind, wp_call; [eauto with engine|apply Hw1|].
        intros. by apply wp_ret, sm_wf_with_view. }
      intros ? s2 Hw2. apply wp_bind, wp_modify, IH; cbn; [lia| |lia].
      split; [by apply sm_wf_set_processingIndividually|]. split; [lia|]. intros _. left; lia.
    + apply IH; [lia| |change (_processingIndividually s1) with (_processingIndividually s);
                        rewrite Hpi; lia].
      split; [done|]. split; [lia|]. intros Hp. cbn in Hp. congruence.
Qed.

Lemma ProcessString_tail_wf string start s :
  Forall is_wchar string → loop_inv string start s →
  (string = [] → _processingIndividually s = false ∨ FlushAtEndOfString (H:=H) (_engine s) = false) →
  wp (ProcessString_tail string start) (λ _, sm_wf) s.
Proof.
  intros Hstr (Hw & Hlen & Hind) He. unfold ProcessString_tail.
  set (run := if decide _ then _ else _).
  assert (Forall is_wchar run) as Hrun.
  { subst run. case_decide; [by apply Forall_drop|done]. }
  assert (_processingIndividually s = true → run = [] → string = []) as Hne.
  { intros Hp. subst run. destruct (Hind Hp); [|done]. case_decide; [|done].
    intros Hd%(f_equal length). rewrite length_drop in Hd. cbn in Hd. lia. }
  clearbody run. apply wp_bind, wp_modify. do 3 (apply wp_bind, wp_gets).
  set (s1 := set_run _ s). assert (sm_wf s1) as Hw1 by by apply sm_wf_set_run.
  change (_run s1) with run.
  change (_processingIndividually s1) with (_processingIndividually s).
  change (_engine s1) with (_engine s).
  destruct (_processingIndividually s); cbn [negb andb].
  - destruct (FlushAtEndOfString (_engine s)) eqn:Hfl.
    + apply wp_bind, wp_modify. destruct run as [|c run].
      { destruct (He (Hne eq_refl eq_refl)); congruence. }
      apply wp_bind. eapply wp_mono.
      { apply ProcessCharacters_wf; [by apply Forall_removelast|].
        by apply sm_wf_set_cachedSequence, sm_wf_ground. }
      intros ? s2 Hw2. apply wp_bind. eapply wp_mono; [by apply flush_last_wf|].
      intros ? s3 Hw3. apply wp_modify. by apply sm_wf_set_cachedSequence, sm_wf_ground.
    + apply wp_modify. by apply sm_wf_set_cachedSequence.
  - sm_run; by sm_done.
Qed.

Lemma ProcessString_wf string s :
  Forall is_wchar string →
  (string = [] → _processingIndividually s = false ∨ FlushAtEndOfString (H:=H) (_engine s) = false) →
  sm_wf s → wp (ProcessString string) (λ _, sm_wf) s.
Proof.
  intros Hstr He Hw. unfold ProcessString. apply wp_bind.
  destruct (decide (string = [])) as [->|Hne].
  - apply wp_ret, ProcessString_tail_wf; [done| |done].
    split; [done|]. split; [done|]. intros _. by right.
  - assert (0 < length string)%nat by (destruct string; cbn; [done|lia]).
    eapply wp_mono; [apply ProcessString_loop_wf; [done|lia| |]|].
    + split; [done|]. split; [lia|]. intros _. by left.
    + unfold loop_measure. destruct (_processingIndividually s); lia.
    + intros start s' Hl. by apply ProcessString_tail_wf.
Qed.

(** The strings of a list, in turn. *)
Fixpoint ProcessStrings (strings : list wstring) : SM E H unit :=
  match strings with
  | [] => mret tt
  | str :: strings' => ProcessString str;; ProcessStrings strings'
  end.

Lemma init_wf (e : E) : engine_ok e → sm_wf (StateMachine_init (H:=H) e).
Proof. intros He. split; cbn; done || lia || (unfold id_wf; cbn; repeat split; try lia; by exists 0). Qed.

Lemma ProcessStrings_wf strings s :
  Forall (Forall is_wchar) strings →
  Forall (λ str, str ≠ []) strings ∨ (∀ e : E, FlushAtEndOfString (H:=H) e = false) →
  sm_wf s → wp (ProcessStrings strings) (λ _, sm_wf) s.
Proof.
  intros Hw. revert s. induction Hw as [|str strings Hstr _ IH]; intros s He Hs; [done|].
  cbn [ProcessStrings]. apply wp_bind. eapply wp_mono.
  - apply ProcessString_wf; [done| |done]. intros ->.
    destruct He as [He|He]; [by apply Forall_inv in He|by right].
  - intros u s' Hs'. apply IH; [|done]. destruct He as [He|He]; [left; by inversion He|by right].
Qed.

(** Resynchronization. *)
Lemma wp_cancel c s :
  c = CAN ∨ c = SUB → sm_wf s →
  _state s ≠ Escape ∨ DispatchControlCharsFromEscape (H:=H) (_engine s) = false →
  wp (ProcessCharacter c) (λ _ s', _state s' = Ground ∧ _cachedSequence s' = None) s.
Proof.
  intros Hc Hw He. unfold ProcessCharacter. cbn [ProcessCharacter_fuel]. unfold ProcessCharacter_body.
  apply wp_bind, wp_gets, wp_bind, wp_gets.
  assert ((c =? CAN) || (c =? SUB) = true) as -> by (destruct Hc as [-> | ->]; done).
  assert (bool_decide (_state s = Escape) && DispatchControlCharsFromEscape (H:=H) (_engine s) = false)
    as -> by (destruct He as [He|He]; [by rewrite bool_decide_false|rewrite He; apply andb_false_r]).
  cbn. apply wp_bind, wp_ActionInterrupt; [done|]. intros s' Hs'. sm_run. done.
Qed.

Lemma wp_escape s :
  sm_wf s → _state s ≠ OscString →
  wp (ProcessCharacter ESC) (λ _ s', _state s' = Escape ∧ _parameters s' = []
    ∧ _parameterLimitReached s' = false ∧ _identifier s' = VTIDBuilder_Clear ∧ _oscParameter s' = 0
    ∧ _oscString s' = [] ∧ _dcsStringHandler s' = None) s.
Proof.
  intros Hw Ho. unfold ProcessCharacter. cbn [ProcessCharacter_fuel]. unfold ProcessCharacter_body.
  apply wp_bind, wp_gets, wp_bind, wp_gets.
  change ((ESC =? CAN) || (ESC =? SUB)) with false. change (_isC1ControlCharacter ESC) with false.
  change (_isEscape ESC) with true. cbn -[bool_decide].
  rewrite bool_decide_false by done. cbn.
  apply wp_bind, wp_ActionInterrupt; [done|]. intros s' Hs'. unfold _EnterEscape, _ActionClear.
  apply wp_bind, wp_modify, wp_bind, wp_modify, wp_bind, wp_call; [eauto with engine|exact (wf_engine _ Hs')|]. done.
Qed.

(** C39: the parser resynchronizes from every well-formed state.  CAN and SUB return it
    to the ground state; the exception is the state right after an ESC with an engine
    that wants the control characters there ([DispatchControlCharsFromEscape], the input
    engine).  ESC, but inside an OSC string, starts a sequence with nothing left of the
    one before: no parameters and no mark that there were too many, no identifier,
    neither the number nor the text of an OSC string, and no handler of a DCS string. *)
Theorem parser_resynchronizes s :
  sm_wf s →
  (_state s ≠ Escape ∨ DispatchControlCharsFromEscape (H:=H) (_engine s) = false →
   ∃ s1 s2, ProcessCharacter CAN s = Ok tt s1 ∧ ProcessCharacter SUB s = Ok tt s2
     ∧ _state s1 = Ground ∧ _state s2 = Ground)
  ∧ (_state s ≠ OscString →
     ∃ s', ProcessCharacter ESC s = Ok tt s' ∧ _state s' = Escape ∧ _parameters s' = []
       ∧ _parameterLimitReached s' = false ∧ _identifier s' = VTIDBuilder_Clear ∧ _oscParameter s' = 0
       ∧ _oscString s' = [] ∧ _dcsStringHandler s' = None).
Proof.
  intros Hw. split.
  - intros He. destruct (wp_ok _ _ _ (wp_cancel CAN s ltac:(by left) Hw He)) as ([] & s1 & E1 & G1 & _).
    destruct (wp_ok _ _ _ (wp_cancel SUB s ltac:(by right) Hw He)) as ([] & s2 & E2 & G2 & _). eauto 8.
  - intros Ho. destruct (wp_ok _ _ _ (wp_escape s Hw Ho)) as ([] & s' & E1 & G1). eauto.
Qed.

(** C3: the parser never fails.  With an engine whose own actions do not fail, a
    fresh machine processes any list of strings of 16-bit characters that are not empty,
    or any strings at all when the engine never flushes at the end of a string: every
    call returns (the loops end, no empty handler is called, no empty run is
    dereferenced) and the machine is well formed: at most 32 parameters, each at most
    32767 (in the ground state and in the parameters of a VT52 sequence at most 65535),
    an identifier within 64 bits, and the invariant of the engine holds.  An empty
    string for an engine that flushes is left out: there the code takes the last
    character of an empty run. *)
Theorem parser_never_fails (strings : list wstring) (e : E) :
  Forall (Forall is_wchar) strings →
  Forall (λ str, str ≠ []) strings ∨ (∀ e : E, FlushAtEndOfString (H:=H) e = false) →
  engine_ok e →
  ∃ s', ProcessStrings strings (StateMachine_init e) = Ok tt s' ∧ sm_wf s'.
Proof.
  intros Hs He Hok. destruct (wp_ok _ _ _ (ProcessStrings_wf strings (StateMachine_init e) Hs He
    (init_wf e Hok))) as ([] & s' & E1 & E2). eauto.
Qed.
End safety.
