(* ===== verification/ParserParams.v ===== *)
(** The numeric parameters of a control sequence: the parser's incremental
    [_ActionParam] against a reference that splits the whole parameter text. *)

From S2P Require Import Prelude DispatchTypes StateMachine StateMachineFacts.

(** ** Reference definitions *)

(** The fields between the delimiters; one delimiter makes two fields. *)
Definition split_fields (text : wstring) : list wstring := split_on _isParameterDelimiter text.

Definition field_param (f : wstring) : VTParameter :=
  match f with
  | [] => VTParameter_empty
  | _ => VTParameter_of (Z.min MAX_PARAMETER_VALUE (decimal f))
  end.

Definition parse_params (text : wstring) : list VTParameter :=
  match text with
  | [] => []
  | _ => take 32 (field_param <$> split_fields text)
  end.

(** A character that [_ActionParam] is called with. *)
Definition is_param_char (c : wchar) : bool := _isNumericParamValue c || _isParameterDelimiter c.

(** The machine's parameters after it has consumed a text. *)
Definition param_run (text : wstring) (st : list VTParameter * bool) : list VTParameter * bool :=
  fold_left (λ st c, param_step c st.1 st.2) text st.

(** ** Lemmas *)

Lemma decimal_nonneg f : Forall (λ c, _isNumericParamValue c = true) f → 0 <= decimal f.
Proof.
  induction f as [|c f IH] using rev_ind; intros Hf; [done|].
  apply Forall_app in Hf as [Hf Hc%Forall_inv]. rewrite decimal_snoc.
  cbv beta in Hc. unfold _isNumericParamValue in Hc. zify_bool. specialize (IH Hf). lia.
Qed.

(** Accumulating with a limit at each digit is the limit of the number. *)
Lemma AccumulateTo_saturates c n :
  _isNumericParamValue c = true → 0 <= n →
  _AccumulateTo c (Z.min MAX_PARAMETER_VALUE n) = Z.min MAX_PARAMETER_VALUE (10 * n + (c - 48)).
Proof.
  unfold _isNumericParamValue, _AccumulateTo, MAX_PARAMETER_VALUE. intros Hc Hn. zify_bool.
  rewrite (u64_small (c - 48)), (u64_small (_ * 10)) by lia. rewrite u64_small by lia.
  destruct (Z.gtb_spec (Z.min 32767 n * 10 + (c - 48)) 32767); lia.
Qed.

Lemma value_or_field f :
  Forall (λ c, _isNumericParamValue c = true) f →
  value_or (field_param f) 0 = Z.min MAX_PARAMETER_VALUE (decimal f).
Proof.
  intros Hf%decimal_nonneg. destruct f as [|c f]; [done|].
  unfold field_param, VTParameter_of, value_or, has_value, MAX_PARAMETER_VALUE in *. cbn [_value].
  rewrite i64_small by lia. rewrite u64_small by lia.
  destruct (Z.geb_spec (Z.min 32767 (decimal (c :: f))) 0); lia.
Qed.

Lemma field_param_snoc f c :
  Forall (λ c, _isNumericParamValue c = true) f → _isNumericParamValue c = true →
  VTParameter_of (_AccumulateTo c (value_or (field_param f) 0)) = field_param (f ++ [c]).
Proof.
  intros Hf Hc. rewrite value_or_field, AccumulateTo_saturates by eauto using decimal_nonneg.
  unfold field_param at 1. rewrite <-decimal_snoc. by destruct f.
Qed.

Lemma fmap_removelast {A B} (f : A → B) (l : list A) : removelast (f <$> l) = f <$> removelast l.
Proof. induction l as [|x [|y l] IH]; [done|done|]. cbn in *. by rewrite IH. Qed.

Lemma fmap_last {A B} (f : A → B) (l : list A) d : List.last (f <$> l) (f d) = f (List.last l d).
Proof. induction l as [|x [|y l] IH]; [done|done|]. cbn in *. by rewrite IH. Qed.

Lemma split_fields_digits text :
  Forall (λ c, is_param_char c = true) text →
  Forall (Forall (λ c, _isNumericParamValue c = true)) (split_fields text).
Proof.
  unfold split_fields.
  induction 1 as [|c t Hc _ IH]; cbn; [by repeat constructor|].
  unfold is_param_char in Hc. destruct (_isParameterDelimiter c) eqn:Hd; [by constructor|].
  rewrite orb_false_r in Hc. destruct (split_on _ t); [by repeat constructor|].
  inversion IH; subst. by repeat constructor.
Qed.

Lemma last_in {A} (l : list A) d : l ≠ [] → List.last l d ∈ l.
Proof.
  intros Hl. rewrite <-(removelast_last_app l d) at 2 by done.
  set_solver.
Qed.

(** One step on the fields read so far: all of them while they fit, the first
    32 and a raised flag from then on. *)
Definition fields_state (fs : list wstring) : list VTParameter * bool :=
  let ps := field_param <$> fs in (take 32 ps, bool_decide (32 < length ps)%nat).

Lemma fields_state_delim fs c :
  _isParameterDelimiter c = true → fs ≠ [] →
  param_step c (fields_state fs).1 (fields_state fs).2 = fields_state (fs ++ [[]]).
Proof.
  intros Hc Hn. unfold fields_state, param_step. cbn [fst snd]. rewrite Hc, fmap_app, length_app. cbn [length fmap list_fmap].
  assert (length (field_param <$> fs) ≠ 0%nat) as Hl by (rewrite length_fmap; by destruct fs).
  set (F := field_param <$> fs) in *. clearbody F. destruct (decide (32 < length F)%nat) as [Hlt|Hge].
  { rewrite !bool_decide_true by lia. by rewrite take_app_le by lia. }
  rewrite bool_decide_false by done. rewrite (take_ge F) by lia.
  replace (match F with [] => [VTParameter_empty] | _ => F end) with F by by destruct F.
  unfold MAX_PARAMETER_COUNT. destruct (Z.geb_spec (Z.of_nat (length F)) 32).
  - rewrite bool_decide_true by lia. by rewrite take_app_le, take_ge by lia.
  - rewrite bool_decide_false by lia. by rewrite take_ge by (rewrite length_app; cbn; lia).
Qed.

Lemma fields_state_digit fs c :
  _isParameterDelimiter c = false → _isNumericParamValue c = true → fs ≠ [] →
  Forall (Forall (λ c, _isNumericParamValue c = true)) fs →
  param_step c (fields_state fs).1 (fields_state fs).2
  = fields_state (removelast fs ++ [List.last fs [] ++ [c]]).
Proof.
  intros Hc Hn Hne Hd. unfold fields_state, param_step. cbn [fst snd].
  assert (VTParameter_of (_AccumulateTo c (value_or (field_param (List.last fs [])) 0))
    = field_param (List.last fs [] ++ [c])) as Hlast.
  { apply field_param_snoc; [|done]. rewrite Forall_forall in Hd. apply Hd.
    by apply last_in. }
  rewrite Hc, fmap_app, <-fmap_removelast, length_app, length_removelast, !length_fmap.
  assert (length fs ≠ 0%nat) as Hl by by destruct fs.
  replace (length fs - 1 + length [List.last fs [] ++ [c]])%nat with (length fs) by (cbn; lia).
  destruct (decide (32 < length fs)%nat) as [Hlt|Hge].
  { rewrite !bool_decide_true by lia. f_equal. rewrite take_app_le.
    - rewrite removelast_firstn_len, firstn_firstn. f_equal. rewrite length_fmap. lia.
    - rewrite length_removelast, length_fmap. lia. }
  rewrite !bool_decide_false by done. rewrite !(take_ge) by
    (rewrite ?length_app, ?length_removelast, ?length_fmap; cbn; lia).
  replace (match field_param <$> fs with [] => [VTParameter_empty] | _ => field_param <$> fs end)
    with (field_param <$> fs) by by destruct fs.
  change VTParameter_empty with (field_param []). rewrite fmap_last. cbn [fmap list_fmap].
  by rewrite <-Hlast.
Qed.

Lemma param_run_spec text :
  Forall (λ c, is_param_char c = true) text → text ≠ [] →
  param_run text ([], false) = fields_state (split_fields text).
Proof.
  induction text as [|c t IH] using rev_ind; intros Ht Hne; [done|].
  apply Forall_app in Ht as [Ht Hc%Forall_inv].
  unfold param_run. rewrite fold_left_app. fold (param_run t ([], false)). cbn [fold_left].
  assert (param_step c (param_run t ([], false)).1 (param_run t ([], false)).2 =
    param_step c (fields_state (split_fields t)).1 (fields_state (split_fields t)).2) as ->.
  { destruct t as [|d t']; [done|]. by rewrite IH. }
  unfold split_fields in *. unfold is_param_char in Hc. destruct (_isParameterDelimiter c) eqn:Hd.
  - rewrite split_on_snoc_sep by done.
    by apply fields_state_delim, split_on_nonempty.
  - rewrite orb_false_r in Hc. rewrite split_on_snoc by done.
    by apply fields_state_digit; [| |apply split_on_nonempty|apply split_fields_digits].
Qed.

(** Feeding a parameter text through [_ActionParam] is parsing it at once. *)
Lemma param_run_parse text :
  Forall (λ c, is_param_char c = true) text →
  (param_run text ([], false)).1 = parse_params text.
Proof.
  intros Ht. destruct text as [|c t]; [done|]. by rewrite param_run_spec.
Qed.

(** The parameters that the parser accumulates digit by digit are those of
    the whole text: its fields between the semicolons, an empty field as an
    omitted parameter, the others as decimal numbers limited to 32767, and at
    most 32 of them. *)
Theorem parameters_of_text (text : wstring) :
  Forall (λ c, is_param_char c = true) text →
  (fold_left (λ st c, param_step c st.1 st.2) text ([], false)).1 = parse_params text.
Proof. apply param_run_parse. Qed.

Lemma parameters_of_text_witness :
  (fold_left (λ st c, param_step c st.1 st.2) [49; 59; 59; 57; 57; 57; 57; 57] ([], false)).1
  = [mkVTParameter 1; mkVTParameter (-1); mkVTParameter 32767].
Proof.
  apply (parameters_of_text [49; 59; 59; 57; 57; 57; 57; 57]).
  apply forallb_Forall_true. reflexivity.
Defined.
