(* ===== verification/ParserCsi.v ===== *)
(** Control sequences end to end: what the parser does with the text of a whole
    CSI sequence, for every engine that ignores empty prints and clears. *)

From S2P Require Import Prelude DispatchTypes StateMachine StateMachineFacts ParserParams.
Import AsciiChars.

(** ** The text of a control sequence *)

(** [ESC [ marker? parameters intermediates final]. *)
Record CsiSequence := mkCsi {
  csi_marker : option wchar;
  csi_text : wstring;
  csi_intermediates : list wchar;
  csi_final : wchar
}.

Definition csi_body (q : CsiSequence) : wstring :=
  option_list (csi_marker q) ++ csi_text q ++ csi_intermediates q ++ [csi_final q].

Definition csi_string (q : CsiSequence) : wstring := ESC :: 0x5B :: csi_body q.

Definition is_csi_final (c : wchar) : bool := (0x40 <=? c) && (c <=? 0x7E).

Definition csi_valid (q : CsiSequence) : bool :=
  match csi_marker q with Some m => _isCsiPrivateMarker m | None => true end
  && forallb is_param_char (csi_text q)
  && forallb _isIntermediate (csi_intermediates q)
  && is_csi_final (csi_final q).

Definition csi_builder (q : CsiSequence) : VTIDBuilder :=
  fold_left (λ b c, AddIntermediate c b) (option_list (csi_marker q) ++ csi_intermediates q)
    VTIDBuilder_Clear.

Definition csi_id (q : CsiSequence) : Z := Finalize (csi_final q) (csi_builder q).

(** What a character of the sequence but the last one does to the state, the
    identifier, the parameters and the limit flag. *)
Definition csi_acc : Type := VTStates * VTIDBuilder * list VTParameter * bool.

Definition csi_step (c : wchar) (x : csi_acc) : option csi_acc :=
  let '(st, id, ps, lim) := x in
  let next := param_step c ps lim in
  if bool_decide (st = CsiEntry) && _isCsiPrivateMarker c then
    Some (CsiParam, AddIntermediate c id, ps, lim)
  else if (bool_decide (st = CsiEntry) || bool_decide (st = CsiParam)) && is_param_char c then
    Some (CsiParam, id, next.1, next.2)
  else if _isIntermediate c then Some (CsiIntermediate, AddIntermediate c id, ps, lim)
  else None.

Fixpoint csi_steps (l : wstring) (x : csi_acc) : option csi_acc :=
  match l with
  | [] => Some x
  | c :: l' => csi_step c x ≫= csi_steps l'
  end.

Definition csi_start : csi_acc := (CsiEntry, VTIDBuilder_Clear, [], false).

(** Decides a character class test by arithmetic. *)
Ltac char_lia :=
  unfold is_param_char, is_csi_final, _isActionableFromGround, _isIntermediateInvalid,
    _isParameterInvalid in *;
  unfold _isNumericParamValue, _isC0Code, _isC1ControlCharacter, _isIntermediate, _isDelete,
    _isEscape, _isParameterDelimiter, _isCsiIndicator, _isCsiInvalid, _isCsiPrivateMarker, _isOscTerminator, _isOscInvalid,
    _isOscIndicator, _isStringTerminatorIndicator, _isSs3Indicator, _isOscDelimiter,
    _isDcsIndicator, _isDcsPassThroughValid, _isSosIndicator, _isPmIndicator, _isApcIndicator,
    NUL, ETB, EM, FS, US, DEL, ESC, CAN, SUB, BEL, SPC in *; lia.

(** Rewrites the tests [ts] on a character to the value arithmetic gives them. *)
Ltac char_test t :=
  first [ replace t with true by (symmetry; char_lia)
        | replace t with false by (symmetry; char_lia) ].

(** *** The steps of a valid sequence *)

Lemma csi_steps_app l1 l2 x : csi_steps (l1 ++ l2) x = csi_steps l1 x ≫= csi_steps l2.
Proof.
  revert x. induction l1 as [|c l1 IH]; intros x; [done|]. cbn.
  destruct (csi_step c x); [apply IH|done].
Qed.

Lemma csi_steps_text l st id ps lim :
  forallb is_param_char l = true → st = CsiEntry ∨ st = CsiParam →
  ∃ st', (st' = CsiEntry ∨ st' = CsiParam) ∧
    csi_steps l (st, id, ps, lim)
    = Some (st', id, (param_run l (ps, lim)).1, (param_run l (ps, lim)).2).
Proof.
  revert st ps lim. induction l as [|c l IH]; intros st ps lim Hl Hst; [by exists st|].
  cbn in Hl. apply andb_true_iff in Hl as [Hc Hl].
  destruct (IH CsiParam (param_step c ps lim).1 (param_step c ps lim).2 Hl) as (st' & Hst' & Hs);
    [by right|].
  exists st'. split; [done|]. cbn [csi_steps]. unfold csi_step.
  assert (_isCsiPrivateMarker c = false) as -> by char_lia.
  assert (bool_decide (st = CsiEntry) || bool_decide (st = CsiParam) = true) as ->
    by (destruct Hst as [-> | ->]; done).
  rewrite andb_false_r, Hc. cbn [andb mbind option_bind].
  rewrite Hs. unfold param_run. cbn [fold_left fst snd].
  by destruct (param_step c ps lim).
Qed.

Lemma csi_steps_intermediates l st id ps lim :
  forallb _isIntermediate l = true →
  ∃ st', csi_steps l (st, id, ps, lim)
    = Some (st', fold_left (λ b c, AddIntermediate c b) l id, ps, lim).
Proof.
  revert st id. induction l as [|c l IH]; intros st id Hl; [by exists st|].
  cbn in Hl. apply andb_true_iff in Hl as [Hc Hl].
  destruct (IH CsiIntermediate (AddIntermediate c id) Hl) as (st' & Hs).
  exists st'. cbn [csi_steps]. unfold csi_step.
  assert (_isCsiPrivateMarker c = false) as -> by char_lia.
  assert (is_param_char c = false) as -> by char_lia.
  rewrite !andb_false_r, Hc. cbn [mbind option_bind fold_left]. by rewrite Hs.
Qed.

Lemma csi_steps_valid q :
  csi_valid q = true →
  ∃ st lim, csi_steps (option_list (csi_marker q) ++ csi_text q ++ csi_intermediates q) csi_start
    = Some (st, csi_builder q, parse_params (csi_text q), lim).
Proof.
  unfold csi_valid. intros Hv.
  apply andb_true_iff in Hv as [[[Hm Ht]%andb_true_iff Hi]%andb_true_iff _].
  assert (∃ st, (st = CsiEntry ∨ st = CsiParam) ∧
    csi_steps (option_list (csi_marker q)) csi_start
    = Some (st, fold_left (λ b c, AddIntermediate c b) (option_list (csi_marker q)) VTIDBuilder_Clear,
        [], false)) as (st & Hst & Hs1).
  { destruct (csi_marker q) as [m|]; cbn; [|by eauto]. rewrite Hm. by eauto. }
  destruct (csi_steps_text (csi_text q) st
    (fold_left (λ b c, AddIntermediate c b) (option_list (csi_marker q)) VTIDBuilder_Clear)
    [] false Ht Hst) as (st2 & _ & Hs2).
  destruct (csi_steps_intermediates (csi_intermediates q) st2
    (fold_left (λ b c, AddIntermediate c b) (option_list (csi_marker q)) VTIDBuilder_Clear)
    (param_run (csi_text q) ([], false)).1 (param_run (csi_text q) ([], false)).2 Hi)
    as (st3 & Hs3).
  exists st3, (param_run (csi_text q) ([], false)).2.
  rewrite !csi_steps_app, Hs1. cbn [mbind option_bind]. rewrite csi_steps_app, Hs2.
  cbn [mbind option_bind]. rewrite Hs3. unfold csi_builder. rewrite fold_left_app.
  rewrite param_run_parse; [done|]. by apply forallb_Forall_true.
Qed.

(** ** Quiet engines *)

Class EngineQuiet (E H : Type) `{IStateMachineEngine E H} : Prop := {
  quiet_print k v : ActionPrintString (E:=E) (H:=H) [] k v = Ok true v;
  quiet_clear k v : ActionClear (E:=E) (H:=H) k v = Ok true v
}.

Section csi.
Context {E H : Type} `{IStateMachineEngine E H} `{!EngineQuiet E H}.
Implicit Types (s : StateMachine E H) (fuel : nat).

(** A machine inside a sequence: what [_ActionClear] resets is either cleared or
    given. *)
Definition seq_state s (st : VTStates) (id : VTIDBuilder) (ps : list VTParameter) (lim : bool)
    (run : wstring) : StateMachine E H :=
  mkSM (_engine s) st (_isInAnsiMode s) run id ps lim [] 0 None (_cachedSequence s) true.

(** A character that is not handled from anywhere is handed to the event
    function of the state. *)
Lemma ProcessCharacter_plain c s :
  c < 0x80 → ¬ (c = CAN ∨ c = SUB ∨ c = ESC) → ProcessCharacter c s = process_event c s.
Proof.
  intros H1 H2. unfold ProcessCharacter. cbn [ProcessCharacter_fuel]. unfold ProcessCharacter_body.
  char_test ((c =? CAN) || (c =? SUB)). char_test (_isC1ControlCharacter c).
  by char_test (_isEscape c).
Qed.

Lemma ProcessCharacter_graphic c s :
  0x20 <= c < 0x7F → ProcessCharacter c s = process_event c s.
Proof. intros Hc. apply ProcessCharacter_plain; unfold CAN, SUB, ESC; lia. Qed.

Lemma call_quiet_clear s : call ActionClear s = Ok true s.
Proof. unfold call. rewrite quiet_clear. by destruct s. Qed.

Lemma ProcessCharacter_escape s :
  _state s ≠ OscString → _state s ≠ DcsPassThrough → _processingIndividually s = true →
  ProcessCharacter ESC s = Ok tt (seq_state s Escape VTIDBuilder_Clear [] false (_run s)).
Proof.
  intros Ho Hd Hp. unfold ProcessCharacter. cbn [ProcessCharacter_fuel]. unfold ProcessCharacter_body.
  change (_isC1ControlCharacter ESC) with false. change (_isEscape ESC) with true.
  unfold mbind, prog_bind, gets, modify. cbn -[bool_decide].
  rewrite bool_decide_false by done. cbn.
  unfold _ActionInterrupt, _EnterEscape, _ActionClear, mbind, prog_bind, gets, modify. cbn -[decide].
  destruct (decide (_state s = DcsPassThrough)); [done|]. cbn. rewrite call_quiet_clear.
  destruct s; cbn in *. by subst.
Qed.

Lemma ProcessCharacter_csi_indicator s run :
  _isInAnsiMode s = true →
  ProcessCharacter 0x5B (seq_state s Escape VTIDBuilder_Clear [] false run)
  = Ok tt (seq_state s CsiEntry VTIDBuilder_Clear [] false run).
Proof.
  intros Ha. rewrite ProcessCharacter_graphic by lia.
  unfold process_event, _EventEscape, mbind, prog_bind, gets. cbn. rewrite Ha.
  change (_isC0Code 0x5B) with false. change (_isDelete 0x5B) with false.
  change (_isIntermediate 0x5B) with false. change (_isCsiIndicator 0x5B) with true.
  unfold _EnterCsiEntry, _ActionClear, mbind, prog_bind, modify. cbn. by rewrite call_quiet_clear.
Qed.

Definition seq_of s (x : csi_acc) (run : wstring) : StateMachine E H :=
  let '(st, id, ps, lim) := x in seq_state s st id ps lim run.

Definition in_csi (x : csi_acc) : Prop :=
  x.1.1.1 = CsiEntry ∨ x.1.1.1 = CsiParam ∨ x.1.1.1 = CsiIntermediate.

Lemma csi_step_in_csi c x x' : csi_step c x = Some x' → in_csi x'.
Proof.
  destruct x as [[[st id] ps] lim]. unfold csi_step. intros Hs.
  repeat case_match; simplify_eq; unfold in_csi; cbn; auto.
Qed.

Lemma csi_step_sound s c x x' run :
  in_csi x → csi_step c x = Some x' →
  ProcessCharacter c (seq_of s x run) = Ok tt (seq_of s x' run).
Proof.
  destruct x as [[[st id] ps] lim]. unfold in_csi. cbn [fst]. intros Hx Hs.
  unfold csi_step in Hs.
  destruct (bool_decide (st = CsiEntry) && _isCsiPrivateMarker c) eqn:Hm.
  { simplify_eq. apply andb_true_iff in Hm as [->%bool_decide_eq_true Hm].
    rewrite ProcessCharacter_graphic by char_lia. unfold process_event. cbn.
    unfold _EventCsiEntry.
    char_test (_isC0Code c). char_test (_isDelete c). char_test (_isIntermediate c).
    char_test (_isCsiInvalid c). char_test (_isNumericParamValue c || _isParameterDelimiter c).
    by rewrite Hm. }
  destruct ((bool_decide (st = CsiEntry) || bool_decide (st = CsiParam)) && is_param_char c) eqn:Hp.
  { simplify_eq. apply andb_true_iff in Hp as [Hst Hp].
    rewrite ProcessCharacter_graphic by char_lia. unfold process_event.
    assert (st = CsiEntry ∨ st = CsiParam) as [-> | ->]
      by (apply orb_true_iff in Hst as [?%bool_decide_eq_true|?%bool_decide_eq_true]; auto);
    cbn; unfold _EventCsiEntry, _EventCsiParam, _ActionParam, mbind, prog_bind, modify;
    char_test (_isC0Code c); char_test (_isDelete c);
    try (char_test (_isIntermediate c); char_test (_isCsiInvalid c));
    char_test (_isNumericParamValue c || _isParameterDelimiter c); cbn;
    by destruct (param_step c ps lim). }
  destruct (_isIntermediate c) eqn:Hi; [|done]. simplify_eq.
  rewrite ProcessCharacter_graphic by char_lia. unfold process_event.
  destruct Hx as [->|[->| ->]]; cbn;
  unfold _EventCsiEntry, _EventCsiParam, _EventCsiIntermediate;
  char_test (_isC0Code c); try char_test (_isDelete c);
  try char_test (_isNumericParamValue c || _isParameterDelimiter c); by rewrite Hi.
Qed.

(** One round of the loop on a character that does not end the sequence. *)
Lemma loop_step_inside fuel string start current s c s' :
  string !! current = Some c → _processingIndividually s = true →
  ProcessCharacter c (set_run (substr string start (current - start + 1)) s) = Ok tt s' →
  _state s' ≠ Ground →
  ProcessString_loop (S fuel) string start current s
  = ProcessString_loop fuel string start (S current) s'.
Proof.
  intros Hc Hp Hs Hg. cbn [ProcessString_loop]. rewrite Hc.
  unfold mbind, prog_bind, gets, modify. cbn. rewrite Hp, Hs. cbn.
  by destruct (decide (_state s' = Ground)).
Qed.

(** One round on the character that ends it. *)
Lemma loop_step_last fuel string start current s c s' :
  string !! current = Some c → _processingIndividually s = true →
  ProcessCharacter c (set_run (substr string start (current - start + 1)) s) = Ok tt s' →
  _state s' = Ground →
  ProcessString_loop (S fuel) string start current s
  = ProcessString_loop fuel string (S current) (S current) (set_processingIndividually false s').
Proof.
  intros Hc Hp Hs Hg. cbn [ProcessString_loop]. rewrite Hc.
  unfold mbind, prog_bind, gets, modify. cbn. rewrite Hp, Hs. cbn.
  by destruct (decide (_state s' = Ground)).
Qed.

(** The characters of a sequence up to the last one. *)
Lemma loop_csi_steps fuel string start l rest current s x x' run :
  drop current string = l ++ rest → in_csi x → csi_steps l x = Some x' →
  ∃ run', in_csi x' ∧
    ProcessString_loop (length l + fuel) string start current (seq_of s x run)
    = ProcessString_loop fuel string start (current + length l) (seq_of s x' run').
Proof.
  revert current x run. induction l as [|c l IH]; intros current x run Hd Hx Hs.
  - cbn in Hs. simplify_eq. exists run. by rewrite Nat.add_0_r.
  - cbn in Hs. destruct (csi_step c x) as [y|] eqn:Hy; [|done]. cbn in Hs.
    pose proof (csi_step_in_csi _ _ _ Hy) as Hyc.
    destruct (IH (S current) y (substr string start (current - start + 1))) as (run' & Hx' & Hl).
    + rewrite <-Nat.add_1_r, <-drop_drop, Hd. done.
    + done.
    + done.
    + exists run'. split; [done|]. cbn [length Nat.add].
      rewrite (loop_step_inside _ _ _ _ _ c
        (seq_of s y (substr string start (current - start + 1)))).
      * rewrite Hl. f_equal. lia.
      * by rewrite <-(Nat.add_0_r current), <-lookup_drop, Hd.
      * by destruct x as [[[]]].
      * rewrite <-(csi_step_sound s c x y _ Hx Hy). by destruct x as [[[]]].
      * destruct y as [[[]]]. unfold in_csi in Hyc. cbn in *. by destruct Hyc as [->|[->| ->]].
Qed.

(** The final character dispatches and returns to the ground state. *)
Lemma ProcessCharacter_csi_final s c st id ps lim run :
  is_csi_final c = true → st = CsiEntry ∨ st = CsiParam ∨ st = CsiIntermediate →
  ProcessCharacter c (seq_state s st id ps lim run)
  = match ActionCsiDispatch (Finalize c id) ps (FlushToTerminal run) (view_of s) with
    | Ok _ v => Ok tt (set_cachedSequence None (set_state Ground
                  (with_view v (seq_state s st id ps lim run))))
    | Throw x v => Throw x (with_view v (seq_state s st id ps lim run))
    end.
Proof.
  intros Hc Hst. rewrite ProcessCharacter_graphic by char_lia. unfold process_event.
  destruct Hst as [->|[->| ->]]; cbn;
  unfold _EventCsiEntry, _EventCsiParam, _EventCsiIntermediate;
  char_test (_isC0Code c); try char_test (_isDelete c); try char_test (_isIntermediate c);
  try char_test (_isNumericParamValue c || _isParameterDelimiter c);
  try char_test (_isCsiInvalid c); try char_test (_isCsiPrivateMarker c);
  try char_test (_isIntermediateInvalid c); try char_test (_isParameterInvalid c);
  unfold _ActionCsiDispatch, mbind, prog_bind, gets; cbn; unfold call; cbn;
  change (view_of (seq_state s _ id ps lim run)) with (view_of s);
  by destruct (ActionCsiDispatch _ _ _ _).
Qed.

(** The machine after a dispatched control sequence. *)
Definition csi_done (q : CsiSequence) (lim : bool) (v : EngineView E) : StateMachine E H :=
  mkSM (ev_engine v) Ground (ev_isInAnsiMode v) [] (csi_builder q) (parse_params (csi_text q)) lim
    [] 0 None None false.

(** The first character of a sequence ends the (empty) run before it. *)
Lemma loop_start_escape fuel body s :
  _processingIndividually s = false →
  ProcessString_loop (S fuel) (ESC :: body) 0 0 s
  = ProcessString_loop fuel (ESC :: body) 0 0 (set_processingIndividually true (set_run [ESC] s)).
Proof.
  intros Hp. cbn [ProcessString_loop]. change ((ESC :: body) !! 0%nat) with (Some ESC).
  unfold mbind, prog_bind, gets, modify. cbn. rewrite Hp.
  change (_isActionableFromGround ESC) with true. cbn.
  unfold call. rewrite quiet_print. cbn. by destruct s.
Qed.

(** The next rounds enter the control sequence, anywhere in a string. *)
Lemma loop_csi_introducer fuel string current body s :
  drop current string = ESC :: 0x5B :: body →
  _state s = Ground → _processingIndividually s = true → _isInAnsiMode s = true →
  ∃ run, ProcessString_loop (S (S fuel)) string current current s
    = ProcessString_loop fuel string current (2 + current) (seq_of s csi_start run).
Proof.
  intros Hd Hg Hp Ha.
  rewrite (loop_step_inside _ string current current _ ESC
    (seq_state s Escape VTIDBuilder_Clear [] false (substr string current 1))); [| |done| |done].
  2:{ by rewrite <-(Nat.add_0_r current), <-lookup_drop, Hd. }
  2:{ rewrite Nat.sub_diag. rewrite ProcessCharacter_escape; [done|cbn; by rewrite Hg|cbn; by rewrite Hg|done]. }
  rewrite (loop_step_inside _ string current (S current) _ 0x5B
    (seq_state s CsiEntry VTIDBuilder_Clear [] false (substr string current (S current - current + 1)))); [| |done| |done].
  2:{ by rewrite <-Nat.add_1_r, <-lookup_drop, Hd. }
  2:{ exact (ProcessCharacter_csi_indicator s _ Ha). }
  by eexists.
Qed.

(** A whole control sequence in a string, from the ground state: exactly one dispatch, with the
    identifier and the parameters of its text; the loop goes on behind it. *)
Lemma loop_csi fuel string current q rest s r v :
  csi_valid q = true → drop current string = csi_string q ++ rest →
  _state s = Ground → _processingIndividually s = true → _isInAnsiMode s = true →
  ActionCsiDispatch (csi_id q) (parse_params (csi_text q)) (FlushToTerminal (csi_string q))
    (view_of s) = Ok r v →
  ∃ lim, ProcessString_loop (length (csi_string q) + fuel) string current current s
    = let next := (current + length (csi_string q))%nat in
      ProcessString_loop fuel string next next (set_run (csi_string q) (csi_done q lim v)).
Proof.
  intros Hv Hdrop Hg Hp Ha Hd.
  set (l := option_list (csi_marker q) ++ csi_text q ++ csi_intermediates q).
  assert (csi_body q = l ++ [csi_final q]) as Hb.
  { unfold csi_body, l. by rewrite !app_assoc. }
  assert (length (csi_string q) = S (2 + length l)) as Hlen.
  { unfold csi_string. rewrite Hb. cbn. rewrite length_app. cbn. lia. }
  destruct (csi_steps_valid q Hv) as (st & lim & Hsteps). fold l in Hsteps.
  exists lim. cbv zeta.
  replace (length (csi_string q) + fuel)%nat with (S (S (length l + S fuel))) by lia.
  destruct (loop_csi_introducer (length l + S fuel) string current (csi_body q ++ rest) s Hdrop Hg Hp Ha) as [run0 Hl0].
  assert (drop (2 + current) string = l ++ csi_final q :: rest) as Hdrop2.
  { rewrite Nat.add_comm, <-drop_drop, Hdrop. unfold csi_string. rewrite Hb, <-!app_comm_cons, <-app_assoc. done. }
  destruct (loop_csi_steps (S fuel) string current l (csi_final q :: rest) (2 + current) s csi_start
    (st, csi_builder q, parse_params (csi_text q), lim) run0) as (run1 & Hx & Hl1); [done|by left|done|].
  rewrite Hl0, Hl1. assert (string !! (2 + current + length l)%nat = Some (csi_final q)) as Hlast.
  { rewrite <-lookup_drop, Hdrop2. by rewrite list_lookup_middle. }
  rewrite (loop_step_last _ _ _ _ _ (csi_final q) (set_cachedSequence None (set_state Ground
    (with_view v (seq_state s st (csi_builder q) (parse_params (csi_text q)) lim (csi_string q))))));
    [|done|done| |done].
  - replace (S (2 + current + length l)) with (current + length (csi_string q))%nat by lia. done.
  - assert (substr string current (2 + current + length l - current + 1) = csi_string q) as ->.
    { unfold substr. rewrite Hdrop, take_app_le, take_ge by lia. done. }
    change (ProcessCharacter (csi_final q)
      (seq_state s st (csi_builder q) (parse_params (csi_text q)) lim (csi_string q)) =
      Ok tt (set_cachedSequence None (set_state Ground (with_view v
      (seq_state s st (csi_builder q) (parse_params (csi_text q)) lim (csi_string q)))))).
    rewrite ProcessCharacter_csi_final; [|by apply andb_true_iff in Hv as [_ ?]|done].
    fold (csi_id q). by rewrite Hd.
Qed.

Lemma ProcessString_tail_end string s :
  _processingIndividually s = false →
  ProcessString_tail string (length string) s = Ok tt (set_run [] s).
Proof.
  intros Hp. unfold ProcessString_tail. case_decide; [lia|].
  unfold mbind, prog_bind, gets, modify. cbn. by rewrite Hp.
Qed.

(** A whole control sequence, in one call from the ground state: exactly one
    dispatch, with the identifier and the parameters of its text. *)
Lemma ProcessString_csi q s r v :
  csi_valid q = true → _state s = Ground → _processingIndividually s = false →
  _isInAnsiMode s = true → _cachedSequence s = None →
  ActionCsiDispatch (csi_id q) (parse_params (csi_text q)) (FlushToTerminal (csi_string q))
    (view_of s) = Ok r v →
  ∃ lim, ProcessString (csi_string q) s = Ok tt (csi_done q lim v).
Proof.
  intros Hv Hg Hp Ha _ Hd.
  destruct (loop_csi (length (csi_string q) + 1) (csi_string q) 0 q [] (set_processingIndividually true (set_run [ESC] s)) r v)
    as [lim Hl]; [done|by rewrite app_nil_r|done..|].
  exists lim. unfold ProcessString. rewrite (bind_ok _ _ s (length (csi_string q)) (set_run (csi_string q) (csi_done q lim v))).
  - by rewrite ProcessString_tail_end.
  - replace (2 * length (csi_string q) + 2)%nat with (S (length (csi_string q) + (length (csi_string q) + 1))) by lia.
    etrans; [exact (loop_start_escape _ (0x5B :: csi_body q) s Hp)|]. change (ESC :: 0x5B :: csi_body q) with (csi_string q).
    rewrite Hl. cbn -[ProcessString_loop csi_string].
    rewrite Nat.add_1_r. cbn [ProcessString_loop]. by rewrite lookup_ge_None_2.
Qed.

(** Text without control characters is walked over and left to the tail. *)
Lemma loop_text fuel string current s :
  forallb (λ c, negb (_isActionableFromGround c)) (drop current string) = true →
  _processingIndividually s = false → (length string - current < fuel)%nat →
  ∃ run, ProcessString_loop fuel string 0 current s = Ok 0%nat (set_run run s).
Proof.
  revert current s. induction fuel as [|fuel IH]; intros current s Ht Hp Hf; [lia|].
  cbn [ProcessString_loop]. destruct (string !! current) as [c|] eqn:Hc.
  - rewrite (drop_S _ _ _ Hc) in Ht. cbn in Ht. apply andb_true_iff in Ht as [Hn%negb_true_iff Ht].
    pose proof (lookup_lt_Some _ _ _ Hc). unfold mbind, prog_bind, gets, modify. cbn.
    rewrite Hp, Hn.
    destruct (IH (S current) (set_run (substr string 0 (current - 0 + 1)) s) Ht Hp) as [run Hr];
      [lia|]. exists run. rewrite Hr. by destruct s.
  - exists (_run s). by destruct s.
Qed.

(** ... which prints it in one call. *)
Lemma ProcessString_text text s r v :
  text ≠ [] → forallb (λ c, negb (_isActionableFromGround c)) text = true →
  _processingIndividually s = false →
  ActionPrintString text (FlushToTerminal text) (view_of s) = Ok r v →
  ProcessString text s = Ok tt (with_view v (set_run text s)).
Proof.
  intros Hne Ht Hp Ha. unfold ProcessString.
  destruct (loop_text (2 * length text + 2) text 0 s Ht Hp) as [run Hl]; [lia|].
  rewrite (bind_ok _ _ _ _ _ Hl). unfold ProcessString_tail.
  assert (0 < length text)%nat by (destruct text; [done|cbn; lia]).
  rewrite decide_True by done. unfold mbind, prog_bind, gets, modify. cbn -[bool_decide].
  rewrite Hp, bool_decide_false by done. cbn. unfold call. cbn. rewrite drop_0.
  change (view_of _) with (view_of s). by rewrite Ha.
Qed.

(** C1: a control sequence of any marker, parameters, intermediates and final
    character, processed from the ground state, makes exactly one dispatch, with
    the identifier of its characters and the parameters of its text, and leaves
    the machine in the ground state. *)
Theorem csi_sequence_dispatched (q : CsiSequence) s (r : bool) (v : EngineView E) :
  csi_valid q = true → _state s = Ground → _processingIndividually s = false →
  _isInAnsiMode s = true → _cachedSequence s = None →
  ActionCsiDispatch (csi_id q) (parse_params (csi_text q)) (FlushToTerminal (csi_string q))
    (view_of s) = Ok r v →
  ∃ lim, ProcessString (csi_string q) s = Ok tt (csi_done q lim v).
Proof. apply ProcessString_csi. Qed.

(** A control character inside the parameters of a device control string
    is not ignored: it ends the parameters and is dispatched as their final
    character, while before the first parameter the same character is ignored
    and leaves the machine as it was. *)
Theorem dcs_param_control_dispatched s (wch : wchar) :
  _isC0Code wch || _isDelete wch = true →
  (_state s = DcsParam → ProcessCharacter wch s = _ActionDcsDispatch wch s)
  ∧ (_state s = DcsEntry → ProcessCharacter wch s = Ok tt s).
Proof.
  intros Hc. assert (0 <= wch <= 0x17 ∨ wch = 0x19 ∨ 0x1C <= wch <= 0x1F ∨ wch = 0x7F) as Hr.
  { unfold _isC0Code, _isDelete, NUL, ETB, EM, FS, US, DEL in Hc. lia. }
  rewrite !ProcessCharacter_plain by (unfold CAN, SUB, ESC; lia).
  unfold process_event, mbind, prog_bind, gets. split; intros ->; cbn.
  - unfold _EventDcsParam. char_test (_isNumericParamValue wch || _isParameterDelimiter wch).
    char_test (_isIntermediate wch). char_test (_isParameterInvalid wch).
    by destruct (_isC0Code wch), (_isDelete wch).
  - unfold _EventDcsEntry. by destruct (_isC0Code wch), (_isDelete wch).
Qed.
End csi.
