(* ===== verification/ParserInput.v ===== *)
(** The parser as the input side uses it: engines that dispatch what is left at the
    end of a string, and that take parameters after an SS3. *)

From S2P Require Import Prelude DispatchTypes StateMachine StateMachineFacts ParserParams ParserCsi.
Import AsciiChars.

Section flush.
Context {E H : Type} `{IStateMachineEngine E H}.
Implicit Types (s : StateMachine E H).

(** ** The flag of the loop

    Only the loop of [ProcessString] writes [_processingIndividually]. *)

Definition keeps_flag {A} (m : SM E H A) : Prop :=
  ∀ s, match m s with Ok _ s' | Throw _ s' => _processingIndividually s' = _processingIndividually s end.

Lemma keeps_flag_bind {A B} (m : SM E H A) (f : A → SM E H B) :
  keeps_flag m → (∀ x, keeps_flag (f x)) → keeps_flag (m ≫= f).
Proof.
  intros Hm Hf s. specialize (Hm s). unfold mbind, prog_bind. destruct (m s) as [x s'|]; [|done].
  specialize (Hf x s'). destruct (f x s'); congruence.
Qed.

Lemma keeps_flag_call {A} (m : EngM E A) : keeps_flag (call m).
Proof. intros s. unfold call. by destruct (m _ _). Qed.

Ltac flag_run :=
  repeat match goal with
  | |- keeps_flag (if ?b then _ else _) => destruct b
  | |- keeps_flag (match ?x with _ => _ end) => destruct x
  | |- keeps_flag (call _) => apply keeps_flag_call
  | |- keeps_flag (_ ≫= _) => apply keeps_flag_bind; [|intros]
  | |- keeps_flag (mret _) => by intros ?
  | |- keeps_flag (throw _) => by intros ?
  | |- keeps_flag (gets _) => by intros ?
  | |- keeps_flag (modify (λ s, let '(_, _) := _ in _)) => intros ?; cbn; by case_match
  | |- keeps_flag (modify _) => by intros ?
  | |- keeps_flag ?m => let h := get_head m in progress unfold h
  end.

Lemma keeps_flag_event c : keeps_flag (process_event c).
Proof. flag_run. Qed.

Lemma keeps_flag_ProcessCharacter c : keeps_flag (ProcessCharacter c).
Proof.
  unfold ProcessCharacter. generalize 2%nat. intros fuel. revert c. induction fuel as [|fuel IH]; intros c; [by intros s|].
  cbn [ProcessCharacter_fuel]. unfold ProcessCharacter_body.
  repeat (apply keeps_flag_bind; [by intros ?|intros]).
  repeat match goal with |- keeps_flag (if ?b then _ else _) => destruct b end;
    [flag_run|apply keeps_flag_bind; [apply IH|intros; apply IH]|flag_run|apply keeps_flag_event].
Qed.

(** ** The ground state between strings *)

(** Outside of a sequence the machine is in its ground state. *)
Definition in_step s : Prop := _processingIndividually s = false → _state s = Ground.

Lemma in_step_loop fuel string start current s n s' :
  in_step s → ProcessString_loop fuel string start current s = Ok n s' → in_step s'.
Proof.
  revert start current s. induction fuel as [|fuel IH]; intros start current s Hs; [done|].
  cbn [ProcessString_loop]. destruct (string !! current) as [c|]; [|by intros [= -> ->]].
  unfold mbind, prog_bind, gets, modify. cbn. destruct (_processingIndividually s) eqn:Hp.
  - pose proof (keeps_flag_ProcessCharacter c (set_run (substr string start (current - start + 1)) s)) as Hk.
    destruct (ProcessCharacter c _) as [[] s1|]; [|done]. cbn in Hk |- *. case_decide as Hg; apply IH; intros ?; [done|]. congruence.
  - destruct (_isActionableFromGround c); [|apply IH; intros _; by apply Hs].
    destruct (substr string start (current - start + 1)); cbn; [by apply IH|].
    unfold call. destruct (ActionPrintString _ _ _); [|done]. by apply IH.
Qed.

Lemma in_step_init (e : E) : in_step (StateMachine_init (H:=H) e).
Proof. done. Qed.

(** An engine that flushes leaves the machine in the ground state. *)
Lemma ends_in_ground string s s' :
  (∀ e, FlushAtEndOfString (H:=H) (e : E) = true) →
  in_step s → ProcessString string s = Ok tt s' → _state s' = Ground.
Proof.
  intros Hf Hs. unfold ProcessString, mbind at 1, prog_bind at 1. destruct (ProcessString_loop _ _ _ _ s) as [n s1|] eqn:El; [|done].
  pose proof (in_step_loop _ _ _ _ _ _ _ Hs El) as H1. unfold ProcessString_tail.
  set (run := if decide _ then _ else _). clearbody run. unfold mbind, prog_bind, gets, modify. cbn -[bool_decide].
  destruct (_processingIndividually s1) eqn:Hp; cbn -[bool_decide].
  - rewrite Hf. cbn. destruct run as [|c l]; [done|].
    destruct (ProcessCharacters _ _) as [[] s2|]; [|done]. destruct (flush_last _ s2) as [[] s3|]; [|done]. by intros [= <-].
  - destruct (negb _).
    + unfold call. destruct (ActionPrintString _ _ _); [|done]. intros [= <-]. by apply H1.
    + intros [= <-]. by apply H1.
Qed.

(** ... and the machine may go on. *)
Lemma in_step_ProcessString string s s' :
  (∀ e, FlushAtEndOfString (H:=H) (e : E) = true) →
  in_step s → ProcessString string s = Ok tt s' → in_step s'.
Proof. intros Hf Hs E' _. by eapply ends_in_ground. Qed.
End flush.

(** ** A single shift *)

Section ss3.
Context {E H : Type} `{IStateMachineEngine E H} `{!EngineQuiet E H}.
Implicit Types (s : StateMachine E H).

Definition ss3_done (run : wstring) (v : EngineView E) : StateMachine E H :=
  mkSM (ev_engine v) Ground (ev_isInAnsiMode v) run VTIDBuilder_Clear [] false [] 0 None None false.

(** [ESC O] and a final character, in one call from the ground state. *)
Lemma ProcessString_ss3 c s r v :
  0x40 <= c < 0x7F → _state s = Ground → _processingIndividually s = false →
  _isInAnsiMode s = true → _cachedSequence s = None → ParseControlSequenceAfterSs3 (H:=H) (_engine s) = true →
  ActionSs3Dispatch c [] (FlushToTerminal [ESC; 0x4F; c]) (view_of s) = Ok r v →
  ProcessString [ESC; 0x4F; c] s = Ok tt (ss3_done [] v).
Proof.
  intros Hc Hg Hp Ha Hca Hss Hd. unfold ProcessString. cbn [length Nat.mul Nat.add]. set (str := [ESC; 0x4F; c]).
  assert (∀ fuel, ProcessString_loop (S fuel) str 0 0 s
    = ProcessString_loop fuel str 0 0 (set_processingIndividually true (set_run [ESC] s))) as Hfirst.
  { intros f. cbn [ProcessString_loop]. change (str !! 0%nat) with (Some ESC).
    unfold mbind, prog_bind, gets, modify. cbn. rewrite Hp. change (_isActionableFromGround ESC) with true. cbn.
    unfold StateMachine.call. rewrite quiet_print. cbn. by destruct s. }
  rewrite (bind_ok _ _ s 3%nat (ss3_done str v)); [by rewrite (ProcessString_tail_end str) by done|].
  rewrite Hfirst.
  rewrite (loop_step_inside _ str 0 0 _ ESC (seq_state s Escape VTIDBuilder_Clear [] false [ESC])); [|done|done| |done].
  2:{ rewrite ProcessCharacter_escape; [done|cbn; by rewrite Hg|cbn; by rewrite Hg|done]. }
  rewrite (loop_step_inside _ str 0 1 _ 0x4F (seq_state s Ss3Entry VTIDBuilder_Clear [] false [ESC; 0x4F])); [|done|done| |done].
  2:{ rewrite ProcessCharacter_graphic by lia. unfold process_event, _EventEscape, mbind, prog_bind, gets. cbn. rewrite Ha, Hss.
      change (_isC0Code 0x4F) with false. change (_isDelete 0x4F) with false. change (_isIntermediate 0x4F) with false.
      change (_isCsiIndicator 0x4F) with false. change (_isOscIndicator 0x4F) with false. change (_isSs3Indicator 0x4F) with true. cbn.
      unfold _EnterSs3Entry, _ActionClear, mbind, prog_bind, modify. cbn. by rewrite call_quiet_clear. }
  rewrite (loop_step_last _ str 0 2 _ c (set_processingIndividually true (ss3_done str v))); [done|done|done| |done].
  rewrite ProcessCharacter_graphic by lia. unfold process_event, _EventSs3Entry, mbind, prog_bind, gets. cbn.
  char_test (_isC0Code c). char_test (_isDelete c). char_test (_isCsiInvalid c).
  char_test (_isNumericParamValue c || _isParameterDelimiter c).
  unfold _ActionSs3Dispatch, mbind, prog_bind, gets, modify, StateMachine.call. cbn.
  change (view_of _) with (view_of s). by rewrite Hd.
Qed.
End ss3.
