(* ===== verification/ParserEquiv.v ===== *)
(** How the text is cut into strings does not matter: [ProcessString], which
    hands over runs of text and keeps partial sequences between calls, does what
    a machine does that takes one character at a time.

    The lemmas are about engines that do not flush to a terminal and for which
    printing two strings in turn is printing them together ([EngineFlushFree]); the
    theorem about one that writes down what it is told and answers in any way. *)

From S2P Require Import Prelude DispatchTypes StateMachine StateMachineFacts ParserCsi.
Import AsciiChars.

(** ** Relations between runs *)

Definition outcome_rel {W A} (R : W → W → Prop) (x y : outcome W A) : Prop :=
  match x, y with
  | Ok a w, Ok b w' => a = b ∧ R w w'
  | Throw e w, Throw e' w' => e = e' ∧ R w w'
  | _, _ => False
  end.

(** Two programs that do the same from related worlds. *)
Definition same {W A} (R : W → W → Prop) (m n : prog W A) : Prop :=
  ∀ w w', R w w' → outcome_rel R (m w) (n w').

Section same.
Context {W : Type} (R : W → W → Prop).

Lemma same_ret {A} (a : A) : same R (mret a) (mret a).
Proof. by intros w w' Hw. Qed.

Lemma same_throw {A} e : same R (throw (A:=A) e) (throw e).
Proof. by intros w w' Hw. Qed.

Lemma same_bind {A B} (m n : prog W A) (f g : A → prog W B) :
  same R m n → (∀ a, same R (f a) (g a)) → same R (m ≫= f) (n ≫= g).
Proof.
  intros Hm Hf w w' Hw. specialize (Hm w w' Hw). unfold mbind, prog_bind.
  destruct (m w), (n w'); cbn in *; try done.
  destruct Hm as [-> Hm]. by apply Hf.
Qed.

Lemma same_gets {A} (f : W → A) : (∀ w w', R w w' → f w = f w') → same R (gets f) (gets f).
Proof. intros Hf w w' Hw. cbn. auto. Qed.

Lemma same_modify (f g : W → W) : (∀ w w', R w w' → R (f w) (g w')) → same R (modify f) (modify g).
Proof. intros Hf w w' Hw. cbn. auto. Qed.

Lemma same_if {A} (b : bool) (m m' n n' : prog W A) :
  same R m m' → same R n n' → same R (if b then m else n) (if b then m' else n').
Proof. by destruct b. Qed.

(** An equivalence: chains of programs can be compared step by step. *)
Context `{!Transitive R} `{!Symmetric R}.

Lemma outcome_rel_trans {A} (x y z : outcome W A) :
  outcome_rel R x y → outcome_rel R y z → outcome_rel R x z.
Proof.
  destruct x, y, z; cbn; try done; intros [-> ?] [-> ?]; split; try done; by etrans.
Qed.

Lemma outcome_rel_sym {A} (x y : outcome W A) : outcome_rel R x y → outcome_rel R y x.
Proof. destruct x, y; cbn; try done; intros [-> ?]; split; try done; by symmetry. Qed.
End same.

(** Programs that leave a part of the world alone. *)
Definition outcome_world {W A} (x : outcome W A) : W :=
  match x with Ok _ w | Throw _ w => w end.

Definition keeps {W A B} (f : W → B) (m : prog W A) : Prop :=
  ∀ w, f (outcome_world (m w)) = f w.

Lemma keeps_bind {W A A' B} (f : W → B) (m : prog W A) (g : A → prog W A') :
  keeps f m → (∀ a, keeps f (g a)) → keeps f (m ≫= g).
Proof.
  intros Hm Hg w. specialize (Hm w). unfold mbind, prog_bind. destruct (m w); cbn in *; [|done].
  by rewrite Hg.
Qed.

Lemma outcome_rel_bind {W A B} (R : W → W → Prop) (m n : prog W A) (f g : A → prog W B) w w' :
  outcome_rel R (m w) (n w') →
  (∀ a w1 w1', m w = Ok a w1 → n w' = Ok a w1' → R w1 w1' → outcome_rel R (f a w1) (g a w1')) →
  outcome_rel R ((m ≫= f) w) ((n ≫= g) w').
Proof.
  intros Hm Hf. unfold mbind, prog_bind.
  destruct (m w), (n w'); cbn in *; try done. destruct Hm as [-> Hm]. by apply Hf.
Qed.

Create HintDb same.
#[export] Hint Resolve same_ret same_throw same_if same_bind : same.

(** ** Engines that do not flush *)

Section views.
Context {E : Type} (ok : E → Prop).

(** Two views that differ in the cached sequence only. *)
Definition view_rel (v v' : EngineView E) : Prop :=
  ev_isInAnsiMode v = ev_isInAnsiMode v' ∧ ev_engine v = ev_engine v' ∧ ok (ev_engine v).

Definition ignores_flush {A} (m : EngM E A) : Prop := ∀ k k', same view_rel (m k) (m k').
End views.

(** Text that the parser prints without looking at it. *)
Definition is_text (l : wstring) : bool := forallb (λ c, negb (_isActionableFromGround c)) l.

(** [ok] singles out the engines that have no terminal to flush to. *)
Class EngineFlushFree (E H : Type) `{IStateMachineEngine E H} (ok : E → Prop) : Prop := {
  ff_ActionExecute c : ignores_flush ok (ActionExecute (E:=E) (H:=H) c);
  ff_ActionExecuteFromEscape c : ignores_flush ok (ActionExecuteFromEscape (E:=E) (H:=H) c);
  ff_ActionPrint c : ignores_flush ok (ActionPrint (E:=E) (H:=H) c);
  ff_ActionPrintString str : ignores_flush ok (ActionPrintString (E:=E) (H:=H) str);
  ff_ActionEscDispatch id : ignores_flush ok (ActionEscDispatch (E:=E) (H:=H) id);
  ff_ActionVt52EscDispatch id ps :
    ignores_flush ok (ActionVt52EscDispatch (E:=E) (H:=H) id ps);
  ff_ActionCsiDispatch id ps : ignores_flush ok (ActionCsiDispatch (E:=E) (H:=H) id ps);
  ff_ActionDcsDispatch id ps : ignores_flush ok (ActionDcsDispatch (E:=E) (H:=H) id ps);
  ff_ActionClear : ignores_flush ok (ActionClear (E:=E) (H:=H));
  ff_ActionOscDispatch c p o : ignores_flush ok (ActionOscDispatch (E:=E) (H:=H) c p o);
  ff_ActionSs3Dispatch c ps : ignores_flush ok (ActionSs3Dispatch (E:=E) (H:=H) c ps);
  ff_StringHandler_call h c : ignores_flush ok (StringHandler_call (E:=E) (H:=H) h c);
  ff_FlushAtEndOfString e : ok e → FlushAtEndOfString (H:=H) e = false;
  ff_print_nil k v : ok (ev_engine v) →
    outcome_rel (view_rel ok) (ActionPrintString (E:=E) (H:=H) [] k v) (Ok true v);
  ff_print_app a b k v : ok (ev_engine v) → is_text b = true →
    outcome_rel (view_rel ok) (ActionPrintString (E:=E) (H:=H) (a ++ b) k v)
      ((_ ← ActionPrintString (E:=E) (H:=H) a k; ActionPrintString (E:=E) (H:=H) b k) v)
}.
#[export] Hint Resolve ff_ActionExecute ff_ActionExecuteFromEscape ff_ActionPrint
  ff_ActionPrintString ff_ActionEscDispatch ff_ActionVt52EscDispatch ff_ActionCsiDispatch
  ff_ActionDcsDispatch ff_ActionClear ff_ActionOscDispatch ff_ActionSs3Dispatch
  ff_StringHandler_call : same.

(** ** The machine, one character at a time *)

Section chars.
Context {E H : Type} `{IStateMachineEngine E H}.

(** The reference: in the ground state a character of text is printed, every
    other character is processed; [_processingIndividually] tells whether a
    sequence is open. *)
Definition char_step (c : wchar) : SM E H unit :=
  individually ← gets _processingIndividually;
  if negb individually && negb (_isActionableFromGround c) then
    _ ← call (ActionPrintString [c]); mret tt
  else
    modify (set_processingIndividually true);;
    ProcessCharacter c;;
    st ← gets _state;
    if decide (st = Ground) then modify (set_processingIndividually false) else mret tt.

Fixpoint char_steps (l : wstring) : SM E H unit :=
  match l with
  | [] => mret tt
  | c :: l' => char_step c;; char_steps l'
  end.
End chars.

(** ** Machines that differ in the run and the cached sequence *)

Section equiv.
Context {E H : Type} `{IStateMachineEngine E H} (ok : E → Prop) `{!EngineFlushFree E H ok}.
Implicit Types (s : StateMachine E H).

Definition erase s : StateMachine E H := set_run [] (set_cachedSequence None s).

Definition sm_rel s s' : Prop := erase s = erase s' ∧ ok (_engine s).

Lemma sm_rel_engine s s' : sm_rel s s' → _engine s = _engine s'.
Proof. intros [He _]. by apply (f_equal _engine) in He. Qed.

#[local] Instance sm_rel_sym : Symmetric sm_rel.
Proof. intros s s' Hs. pose proof (sm_rel_engine _ _ Hs) as He. destruct Hs. split; [done|by rewrite <-He]. Qed.

#[local] Instance sm_rel_trans : Transitive sm_rel.
Proof. intros s1 s2 s3 [E1 ?] [E2 _]. split; [by rewrite E1|done]. Qed.

Lemma sm_rel_set_run s r : ok (_engine s) → sm_rel (set_run r s) s.
Proof. done. Qed.

(** Reads and writes of the other members. *)
Lemma same_sm_gets {A} (f : StateMachine E H → A) :
  (∀ s, f (erase s) = f s) → same sm_rel (gets f) (gets f).
Proof. intros Hf. apply same_gets. intros s s' [Hs _]. by rewrite <-(Hf s), <-(Hf s'), Hs. Qed.

Lemma same_sm_modify (f : StateMachine E H → StateMachine E H) :
  (∀ s, erase (f s) = erase (f (erase s))) → (∀ s, _engine (f s) = _engine s) →
  same sm_rel (modify f) (modify f).
Proof.
  intros Hf He. apply same_modify. intros s s' [Hs Hok]. split; [|by rewrite He].
  by rewrite (Hf s), (Hf s'), Hs.
Qed.

Lemma same_call {A} (m : EngM E A) : ignores_flush ok m → same sm_rel (call m) (call m).
Proof.
  intros Hm s s' [Hs Hok]. unfold call.
  assert (view_rel ok (view_of s) (view_of s')) as Hv.
  { unfold view_rel, view_of. cbn. pose proof (f_equal _engine Hs). pose proof (f_equal _isInAnsiMode Hs).
    done. }
  specialize (Hm (FlushToTerminal (_run s)) (FlushToTerminal (_run s')) _ _ Hv).
  destruct (m _ (view_of s)) as [a v|e v], (m _ (view_of s')) as [a' v'|e' v']; cbn in *; try done;
    destruct Hm as [-> (Ha & He & Hok')]; split; try done; split; try done;
    unfold erase, with_view, set_run, set_cachedSequence in *; cbn in *; congruence.
Qed.

(** Follows a program of the machine, one operation at a time. *)
Ltac sm_same :=
  repeat match goal with
  | |- same _ (_ ≫= _) _ => apply same_bind; [|intros ?]
  | |- same _ (gets _) _ => by apply same_sm_gets
  | |- same _ (modify _) _ =>
      apply same_sm_modify; intros ?; [first [reflexivity | cbn; by destruct (param_step _ _ _)]
                                      |first [reflexivity | cbn; by destruct (param_step _ _ _)]]
  | |- same _ (mret _) _ => apply same_ret
  | |- same _ (throw _) _ => apply same_throw
  | |- same _ (call _) _ => apply same_call; by auto with same
  | |- same _ (match ?x with _ => _ end) _ => destruct x
  | |- same _ ?m _ => let h := get_head m in progress unfold h
  end.

Lemma process_event_same c : same sm_rel (process_event c) (process_event c).
Proof. sm_same. Qed.

Lemma ProcessCharacter_same c : same sm_rel (ProcessCharacter c) (ProcessCharacter c).
Proof.
  unfold ProcessCharacter. generalize 2%nat. intros n. revert c.
  induction n as [|n IH]; intros c; cbn [ProcessCharacter_fuel]; [apply same_throw|].
  unfold ProcessCharacter_body.
  repeat (apply same_bind; [by apply same_sm_gets|intros ?]).
  destruct (_ && negb (_ && _)); [sm_same|].
  destruct (_isC1ControlCharacter c); [by apply same_bind|].
  destruct (_isEscape c && _); [sm_same|apply process_event_same].
Qed.

Lemma char_step_same c : same sm_rel (char_step c) (char_step c).
Proof.
  unfold char_step. apply same_bind; [by apply same_sm_gets|]. intros b.
  apply same_if; [sm_same|]. apply same_bind; [sm_same|]. intros _.
  apply same_bind; [apply ProcessCharacter_same|]. intros _. sm_same.
Qed.

Lemma char_steps_same l : same sm_rel (char_steps l) (char_steps l).
Proof.
  induction l as [|c l IH]; cbn; [apply same_ret|]. apply same_bind; [apply char_step_same|done].
Qed.

(** The machine's functions leave the loop's flag alone. *)
Ltac sm_keeps :=
  repeat match goal with
  | |- keeps _ (_ ≫= _) => apply keeps_bind; [|intros ?]
  | |- keeps _ (gets _) => intros ?; reflexivity
  | |- keeps _ (mret _) => intros ?; reflexivity
  | |- keeps _ (throw _) => intros ?; reflexivity
  | |- keeps _ (modify _) =>
      intros ?; cbn; first [reflexivity | by destruct (param_step _ _ _)]
  | |- keeps _ (call ?m) => intros ?; unfold call; by destruct (m _ _)
  | |- keeps _ (match ?x with _ => _ end) => destruct x
  | |- keeps _ ?m => let h := get_head m in progress unfold h
  end.

Lemma ProcessCharacter_keeps c :
  keeps _processingIndividually (ProcessCharacter (E:=E) (H:=H) c).
Proof.
  unfold ProcessCharacter. generalize 2%nat. intros n. revert c.
  induction n as [|n IH]; intros c; cbn [ProcessCharacter_fuel]; [done|].
  unfold ProcessCharacter_body. apply keeps_bind; [done|]. intros st. apply keeps_bind; [done|].
  intros e. destruct (_ && negb (_ && _)); [sm_keeps|].
  destruct (_isC1ControlCharacter c); [by apply keeps_bind|].
  destruct (_isEscape c && _); sm_keeps.
Qed.

(** Printing is a homomorphism, also through the machine. *)
Lemma view_of_with_view (v : EngineView E) s : view_of (with_view v s) = v.
Proof. by destruct v. Qed.

Lemma with_view_rel (v v' : EngineView E) s :
  view_rel ok v v' → sm_rel (with_view v s) (with_view v' s).
Proof.
  intros (Ha & He & Hok). split; [|done].
  unfold erase, set_run, set_cachedSequence, with_view. cbn in *. by rewrite Ha, He.
Qed.

Lemma call_print_nil s :
  ok (_engine s) → outcome_rel sm_rel (call (ActionPrintString []) s) (Ok true s).
Proof.
  intros Hok. unfold call. pose proof (ff_print_nil (FlushToTerminal (_run s)) (view_of s) Hok) as Hn.
  destruct (ActionPrintString _ _ _) as [a v|e v]; cbn in *; [|done].
  destruct Hn as [-> Hv]. split; [done|].
  assert (with_view (view_of s) s = s) as E' by by destruct s.
  rewrite <-E' at 2. by apply with_view_rel.
Qed.

Lemma call_print_app a b s :
  ok (_engine s) → is_text b = true →
  outcome_rel sm_rel (call (ActionPrintString (a ++ b)) s)
    ((_ ← call (ActionPrintString a); call (ActionPrintString b)) s).
Proof.
  intros Hok Hb. unfold mbind, prog_bind, call.
  set (k := FlushToTerminal (_run s)).
  pose proof (ff_print_app a b k (view_of s) Hok Hb) as Hn. unfold mbind, prog_bind in Hn.
  destruct (ActionPrintString a k _) as [x' v'|e' v']; [rewrite view_of_with_view|].
  - change (_run (with_view v' s)) with (_run s). fold k.
    destruct (ActionPrintString (a ++ b) k _) as [x v|e v], (ActionPrintString b k v') as [y w|y w];
      cbn in *; try done; destruct Hn as [-> Hv]; (split; [done|]);
      exact (with_view_rel _ _ s Hv).
  - destruct (ActionPrintString (a ++ b) k _) as [x v|e v]; cbn in *; [done|].
    destruct Hn as [-> Hv]. split; [done|]. by apply with_view_rel.
Qed.

(** Printing a pending run, and then the rest. *)
Definition print_then (pending rest : wstring) : SM E H unit :=
  _ ← call (ActionPrintString pending); char_steps rest.

Lemma call_keeps {A} (m : EngM E A) : keeps (B:=bool) (_processingIndividually (E:=E) (H:=H)) (call m).
Proof. intros s. unfold call. by destruct (m _ _). Qed.

Lemma keeps_ok {A B} (f : StateMachine E H → B) (m : SM E H A) s a s' :
  keeps f m → m s = Ok a s' → f s' = f s.
Proof. intros Hk Hm. specialize (Hk s). by rewrite Hm in Hk. Qed.

(** In the ground state a character of text joins the pending run. *)
Lemma print_then_text pending c rest s :
  ok (_engine s) → _processingIndividually s = false → _isActionableFromGround c = false →
  outcome_rel sm_rel (print_then (pending ++ [c]) rest s) (print_then pending (c :: rest) s).
Proof.
  intros Hok Hp Hc. unfold print_then.
  assert ((_ ← call (ActionPrintString pending); char_steps (c :: rest)) s
    = ((_ ← call (ActionPrintString pending); call (ActionPrintString [c])) ≫=
       λ _, char_steps rest) s) as ->.
  { unfold mbind, prog_bind. destruct (call (ActionPrintString pending) s) as [x s1|e s1] eqn:Hx;
      [|done]. cbn [char_steps]. unfold char_step, mbind, prog_bind, gets.
    rewrite (keeps_ok _ _ _ _ _ (call_keeps _) Hx), Hp, Hc. cbn [negb andb].
    by destruct (call (ActionPrintString [c]) s1). }
  apply outcome_rel_bind; [apply call_print_app; [done|cbn; by rewrite Hc]|].
  intros _ s1 s2 _ _ Hs. by apply char_steps_same.
Qed.

(** A character that opens a sequence ends the pending run. *)
Lemma print_then_actionable pending c rest s :
  _processingIndividually s = false → _isActionableFromGround c = true →
  print_then pending (c :: rest) s
  = (_ ← call (ActionPrintString pending); modify (set_processingIndividually true);;
     char_steps (c :: rest)) s.
Proof.
  intros Hp Hc. unfold print_then, mbind, prog_bind, modify.
  destruct (call (ActionPrintString pending) s) as [x s1|e s1] eqn:Hx; [|done].
  cbn [char_steps]. unfold char_step, mbind, prog_bind, gets, modify. cbn.
  by rewrite (keeps_ok _ _ _ _ _ (call_keeps _) Hx), Hp, Hc.
Qed.

Lemma sm_rel_refl s : ok (_engine s) → sm_rel s s.
Proof. done. Qed.

(** What follows the loop prints the pending run, or keeps the open sequence. *)
Lemma tail_char_steps string start s :
  ok (_engine s) → (start <= length string)%nat →
  outcome_rel sm_rel (ProcessString_tail string start s)
    ((if _processingIndividually s then mret tt else print_then (drop start string) []) s).
Proof.
  intros Hok Hlen. unfold ProcessString_tail.
  assert ((if decide (start < length string)%nat then drop start string else []) = drop start string)
    as ->. { case_decide; [done|]. by rewrite drop_ge by lia. }
  unfold mbind, prog_bind at 1 2 3 4, gets, modify.
  cbn -[bool_decide]. destruct (_processingIndividually s) eqn:Hp; cbn -[bool_decide].
  - rewrite ff_FlushAtEndOfString by done. by cbn.
  - case_bool_decide as Hd.
    + rewrite Hd. cbn. unfold print_then. pose proof (call_print_nil s Hok) as Hn.
      unfold mbind, prog_bind. destruct (call _ s) as [x s1|]; cbn in *; [|done].
      destruct Hn as [_ Hs]. split; [done|]. by symmetry.
    + cbn. unfold print_then.
      apply (same_bind sm_rel); [by apply same_call; auto with same| |done].
      intros _. apply same_ret.
Qed.

Definition pending_of (string : wstring) (start current : nat) : wstring :=
  substr string start (current - start).

Lemma pending_snoc string start current c :
  string !! current = Some c → (start <= current)%nat →
  substr string start (current - start + 1) = pending_of string start current ++ [c].
Proof.
  intros Hc Hs. unfold pending_of, substr. rewrite Nat.add_1_r.
  apply take_S_r. rewrite lookup_drop. rewrite <-Hc. f_equal. lia.
Qed.

(** What the machine still has to do at a point of the loop. *)
Definition loop_ref (string : wstring) (start current : nat) s : outcome (StateMachine E H) unit :=
  if _processingIndividually s then char_steps (drop current string) s
  else print_then (pending_of string start current) (drop current string) s.

Definition loop_run (fuel : nat) (string : wstring) (start current : nat) : SM E H unit :=
  start' ← ProcessString_loop fuel string start current; ProcessString_tail string start'.

(** References from related machines are related. *)
Lemma loop_ref_same string start current s s' :
  sm_rel s s' → outcome_rel sm_rel (loop_ref string start current s) (loop_ref string start current s').
Proof.
  intros Hs. unfold loop_ref.
  assert (_processingIndividually s = _processingIndividually s') as ->.
  { destruct Hs as [Hs _]. by apply (f_equal _processingIndividually) in Hs. }
  destruct (_processingIndividually s'); [by apply char_steps_same|].
  unfold print_then. apply (same_bind sm_rel); [by apply same_call; auto with same| |done].
  intros _. apply char_steps_same.
Qed.

(** The rounds of the loop and the steps of the reference, in the same form. *)
Lemma loop_run_open fuel string start current c s :
  string !! current = Some c → _processingIndividually s = true →
  loop_run (S fuel) string start current s
  = (ProcessCharacter c;; st ← gets _state;
     if decide (st = Ground) then
       modify (set_processingIndividually false);; loop_run fuel string (S current) (S current)
     else loop_run fuel string start (S current))
      (set_run (substr string start (current - start + 1)) s).
Proof.
  intros Hc Hp. unfold loop_run. cbn [ProcessString_loop]. rewrite Hc.
  unfold mbind, prog_bind, gets, modify. cbn -[ProcessString_loop]. rewrite Hp.
  destruct (ProcessCharacter c _) as [[] s1|]; [|done]. by case_decide.
Qed.

Lemma loop_run_text fuel string start current c s :
  string !! current = Some c → _processingIndividually s = false →
  _isActionableFromGround c = false →
  loop_run (S fuel) string start current s
  = loop_run fuel string start (S current) (set_run (substr string start (current - start + 1)) s).
Proof.
  intros Hc Hp Ha. unfold loop_run. cbn [ProcessString_loop]. rewrite Hc.
  unfold mbind, prog_bind, gets, modify. cbn -[ProcessString_loop]. by rewrite Hp, Ha.
Qed.

Lemma loop_run_actionable fuel string start current c s :
  string !! current = Some c → (start <= current)%nat → _processingIndividually s = false →
  _isActionableFromGround c = true →
  loop_run (S fuel) string start current s
  = (_ ← call (ActionPrintString (pending_of string start current));
     modify (set_processingIndividually true);; loop_run fuel string current current)
      (set_run (substr string start (current - start + 1)) s).
Proof.
  intros Hc Hst Hp Ha. unfold loop_run. cbn [ProcessString_loop]. rewrite Hc.
  rewrite (pending_snoc _ _ _ _ Hc Hst). set (l := pending_of _ _ _).
  unfold mbind, prog_bind, gets, modify. cbn -[ProcessString_loop]. rewrite Hp, Ha.
  cbn -[ProcessString_loop]. destruct (l ++ [c]) as [|x y] eqn:El; [by destruct l|]. rewrite <-El.
  rewrite length_app. cbn [length].
  replace (length l + 1 - 1)%nat with (length l) by lia. rewrite take_app_length.
  by destruct (call _ _) as [? s1|].
Qed.

Lemma char_steps_open c rest s :
  _processingIndividually s = true →
  char_steps (c :: rest) s
  = (ProcessCharacter c;; st ← gets _state;
     if decide (st = Ground) then
       modify (set_processingIndividually false);; char_steps rest
     else char_steps rest) s.
Proof.
  intros Hp. cbn [char_steps]. unfold char_step, mbind, prog_bind, gets, modify.
  rewrite Hp. cbn. assert (set_processingIndividually true s = s) as -> by (destruct s; cbn in *; by subst).
  destruct (ProcessCharacter c s) as [[] s1|]; [|done]. by case_decide.
Qed.

Lemma print_then_nil rest s :
  ok (_engine s) → outcome_rel sm_rel (print_then [] rest s) (char_steps rest s).
Proof.
  intros Hok. unfold print_then. pose proof (call_print_nil s Hok) as Hn.
  unfold mbind, prog_bind. destruct (call _ s) as [x s1|]; cbn in *; [|done].
  apply char_steps_same, Hn.
Qed.

(** Just after a sequence nothing is pending. *)
Lemma loop_ref_start string current s :
  ok (_engine s) →
  outcome_rel sm_rel (loop_ref string current current s) (char_steps (drop current string) s).
Proof.
  intros Hok. unfold loop_ref, pending_of. rewrite Nat.sub_diag.
  destruct (_processingIndividually s); [by apply char_steps_same|by apply print_then_nil].
Qed.

(** The loop does what the reference does. *)
Lemma loop_run_ref fuel string start current s :
  ok (_engine s) → (start <= current <= length string)%nat →
  (loop_measure string current s < fuel)%nat →
  outcome_rel sm_rel (loop_run fuel string start current s) (loop_ref string start current s).
Proof.
  revert start current s. induction fuel as [|fuel IH]; intros start current s Hok Hst Hf; [lia|].
  destruct (string !! current) as [c|] eqn:Hc.
  2:{ apply lookup_ge_None in Hc. assert (current = length string) as -> by lia.
      unfold loop_run, loop_ref. cbn [ProcessString_loop]. rewrite lookup_ge_None_2, drop_ge by lia.
      pose proof (tail_char_steps string start s Hok) as Ht.
      assert (pending_of string start (length string) = drop start string) as ->.
      { unfold pending_of, substr. rewrite take_ge; [done|]. rewrite length_drop. lia. }
      unfold mbind, prog_bind. cbn. specialize (Ht ltac:(lia)).
      by destruct (_processingIndividually s). }
  pose proof (lookup_lt_Some _ _ _ Hc) as Hcur. unfold loop_measure in *.
  set (s1 := set_run (substr string start (current - start + 1)) s).
  assert (sm_rel s1 s) as Hs1 by done.
  unfold loop_ref. rewrite (drop_S _ _ _ Hc). destruct (_processingIndividually s) eqn:Hp.
  - rewrite (loop_run_open _ _ _ _ _ _ Hc Hp), (char_steps_open _ _ _ Hp). fold s1.
    apply outcome_rel_bind; [by apply ProcessCharacter_same|]. intros [] s2 s2' E1 E2 Hs2.
    assert (_processingIndividually s2 = true) as Hp2.
    { by rewrite (keeps_ok _ _ _ _ _ (ProcessCharacter_keeps c) E1). }
    apply outcome_rel_bind; [by apply same_sm_gets|]. intros st s3 s3' [= <- <-] [= <- <-] _.
    case_decide.
    + apply outcome_rel_bind with (R := sm_rel); [by apply same_sm_modify|].
      intros u s4 s4' E4 E4' Hs4. injection E4 as _ <-. injection E4' as _ <-.
      eapply outcome_rel_trans; [apply _|apply IH; [by apply Hs2|lia|cbn; lia]|].
      eapply outcome_rel_trans; [apply _|apply loop_ref_start; by apply Hs2|].
      by apply char_steps_same.
    + eapply outcome_rel_trans; [apply _|apply IH; [by apply Hs2|lia|rewrite Hp2; lia]|].
      unfold loop_ref. rewrite Hp2. by apply char_steps_same.
  - destruct (_isActionableFromGround c) eqn:Ha.
    + rewrite (loop_run_actionable _ _ _ _ _ _ Hc) by (done || lia).
      rewrite print_then_actionable by done. fold s1.
      apply outcome_rel_bind; [by apply same_call; auto with same|]. intros x s2 s2' E1 E2 Hs2.
      apply outcome_rel_bind with (R := sm_rel); [by apply same_sm_modify|].
      intros u s3 s3' E3 E3' Hs3. injection E3 as _ <-. injection E3' as _ <-.
      eapply outcome_rel_trans; [apply _|apply IH; [by apply Hs2|lia|cbn; lia]|].
      eapply outcome_rel_trans; [apply _|apply loop_ref_start; by apply Hs2|].
      rewrite (drop_S _ _ _ Hc). by apply char_steps_same.
    + rewrite (loop_run_text _ _ _ _ _ _ Hc) by done. fold s1.
      eapply outcome_rel_trans; [apply _|apply IH; [done|lia|cbn; rewrite Hp; lia]|].
      eapply outcome_rel_trans; [apply _|by apply (loop_ref_same _ _ _ s1 s)|].
      unfold loop_ref. rewrite Hp.
      replace (pending_of string start (S current)) with (pending_of string start current ++ [c]).
      * by apply print_then_text.
      * rewrite <-(pending_snoc _ _ _ _ Hc) by lia. unfold pending_of. f_equal. lia.
Qed.

(** [ProcessString] on a string is the reference on its characters. *)
Lemma ProcessString_char_steps string s :
  ok (_engine s) → outcome_rel sm_rel (ProcessString string s) (char_steps string s).
Proof.
  intros Hok. eapply outcome_rel_trans; [apply _| |apply (loop_ref_start string 0 s Hok)].
  apply (loop_run_ref (2 * length string + 2) string 0 0 s Hok); [lia|].
  unfold loop_measure. destruct (_processingIndividually s); lia.
Qed.

Lemma char_steps_app l l' s :
  char_steps (l ++ l') s = (char_steps l;; char_steps (E:=E) (H:=H) l') s.
Proof.
  revert s. induction l as [|c l IH]; intros s; [done|]. cbn [app char_steps].
  unfold mbind, prog_bind. destruct (char_step c s) as [[] s1|]; [|done]. apply IH.
Qed.

Lemma ProcessStrings_char_steps strings s :
  ok (_engine s) →
  outcome_rel sm_rel (ProcessStrings strings s) (char_steps (concat strings) s).
Proof.
  revert s. induction strings as [|str strings IH]; intros s Hok; [done|].
  cbn [ProcessStrings concat]. rewrite char_steps_app.
  apply outcome_rel_bind; [by apply ProcessString_char_steps|]. intros [] s1 s2 _ _ Hs.
  eapply outcome_rel_trans; [apply _|apply IH; by apply Hs|]. by apply char_steps_same.
Qed.

End equiv.

Lemma outcome_rel_mono {W A} (R R' : W → W → Prop) (x y : outcome W A) :
  (∀ w w', R w w' → R' w w') → outcome_rel R x y → outcome_rel R' x y.
Proof. intros HR. destruct x, y; cbn; try done; intros [-> Hw]; by split; [|apply HR]. Qed.

(** ** An engine that writes down what it is told

    The text that it prints is written down as characters, and every other action as
    it comes.  What it answers, the ANSI mode that it sets and the exceptions that it
    throws are any functions of what it was told so far. *)

Module Transcript.
Inductive Action :=
  | Executed (wch : wchar) | ExecutedFromEscape (wch : wchar) | Printed (wch : wchar)
  | PassedThrough (str : wstring) | Cleared
  | EscDispatched (id : Z) | Vt52EscDispatched (id : Z) (ps : VTParameters)
  | CsiDispatched (id : Z) (ps : VTParameters) | DcsDispatched (id : Z) (ps : VTParameters)
  | OscDispatched (wch : wchar) (parameter : Z) (str : wstring)
  | Ss3Dispatched (wch : wchar) (ps : VTParameters) | Handled (wch : wchar).

Definition Log := list (wchar + Action).

(** The answer to the last action of a log, and the ANSI mode after it. *)
Record Answers (H : Type) := mkAnswers {
  answer : Log → bool → exn + bool * bool;
  answer_dcs : Log → bool → exn + option H * bool;
  answer_handler : H → Log → bool → exn + bool * bool;
  after_ss3 : Log → bool;
  controls_from_escape : Log → bool;
  intermediates_from_escape : Log → bool
}.
Arguments answer {H} _ _ _.
Arguments answer_dcs {H} _ _ _.
Arguments answer_handler {H} _ _ _ _.
Arguments after_ss3 {H} _ _.
Arguments controls_from_escape {H} _ _.
Arguments intermediates_from_escape {H} _ _.

Section engine.
Context {H : Type} (answers : Answers H).

Definition act {A} (f : Log → bool → exn + A * bool) (a : Action) : EngM Log A := λ _ v,
  let l := ev_engine v ++ [inr a] in
  match f l (ev_isInAnsiMode v) with
  | inl e => Throw e (mkView (ev_cachedSequence v) (ev_isInAnsiMode v) l)
  | inr (r, ansi) => Ok r (mkView (ev_cachedSequence v) ansi l)
  end.

Definition print_text (str : wstring) : EngM Log bool := λ _ v,
  Ok true (mkView (ev_cachedSequence v) (ev_isInAnsiMode v) (ev_engine v ++ (inl <$> str))).

#[local] Instance transcript_engine : IStateMachineEngine Log H := {|
  ActionExecute c := act (answer answers) (Executed c);
  ActionExecuteFromEscape c := act (answer answers) (ExecutedFromEscape c);
  ActionPrint c := act (answer answers) (Printed c);
  ActionPrintString := print_text;
  ActionPassThroughString str l := Ok true (l ++ [inr (PassedThrough str)]);
  ActionEscDispatch id := act (answer answers) (EscDispatched id);
  ActionVt52EscDispatch id ps := act (answer answers) (Vt52EscDispatched id ps);
  ActionCsiDispatch id ps := act (answer answers) (CsiDispatched id ps);
  ActionDcsDispatch id ps := act (answer_dcs answers) (DcsDispatched id ps);
  ActionClear := act (answer answers) Cleared;
  ActionOscDispatch c p str := act (answer answers) (OscDispatched c p str);
  ActionSs3Dispatch c ps := act (answer answers) (Ss3Dispatched c ps);
  StringHandler_call h c := act (answer_handler answers h) (Handled c);
  ParseControlSequenceAfterSs3 := after_ss3 answers;
  FlushAtEndOfString _ := false;
  DispatchControlCharsFromEscape := controls_from_escape answers;
  DispatchIntermediatesFromEscape := intermediates_from_escape answers
|}.

Definition any_log (l : Log) : Prop := True.

Lemma act_ignores_flush {A} (f : Log → bool → exn + A * bool) a : ignores_flush any_log (act f a).
Proof.
  intros k k' [cs m l] [cs' m' l'] (Hm & Hl & _). cbn in *. subst. unfold act. cbn.
  by destruct (f _ _) as [|[]].
Qed.

#[local] Instance transcript_flush_free : EngineFlushFree Log H any_log.
Proof using.
  split; intros; try apply act_ignores_flush; try done.
  - intros k k' [cs m l] [cs' m' l'] (Hm & Hl & _). cbn in *. by subst.
  - cbn. unfold view_rel. cbn. by rewrite app_nil_r.
  - cbn. unfold view_rel. cbn. by rewrite fmap_app, app_assoc.
Qed.

(** C2: [ProcessString] on any list of strings, one call each, tells the engine the same
    as feeding the characters of all the strings one at a time, from any state of the
    machine: the text that is printed between two other actions and these actions with
    their arguments are the same, whatever the engine answers, throws and sets the ANSI
    mode to, one throws when the other does, and the machine is left with the same
    state and the same parts of an open sequence.  The run and the cached sequence
    are not compared: they are what the strings are for.  The engine keeps what is left
    at the end of a string ([FlushAtEndOfString] is false, as for output), and text is
    compared as characters: the calls that print it are cut differently. *)
Theorem strings_as_characters (strings : list wstring) (s : StateMachine Log H) :
  outcome_rel (λ s1 s2, erase s1 = erase s2) (ProcessStrings strings s) (char_steps (concat strings) s).
Proof.
  apply (outcome_rel_mono (sm_rel any_log)); [by intros ?? []|]. apply (ProcessStrings_char_steps any_log). exact I.
Qed.
End engine.
End Transcript.
