(* ===== verification/Utils.v ===== *)
(** String and colour helpers: [src/src/types/utils.cpp], [inc/utils.hpp] and
    the colour type of [src/src/inc/til/color.h]. *)

From stdpp Require Import strings.
From S2P Require Import Prelude DispatchTypes.

(** ** til::color *)

Record color := mkColor { c_r : Z; c_g : Z; c_b : Z; c_a : Z }.

#[global] Instance color_eq_dec : EqDecision color.
Proof. solve_decision. Defined.

Definition rgb (r g b : Z) : color := mkColor r g b 255.

(** [operator COLORREF]: the pattern 0x00bbggrr of the overlaid bytes. *)
Definition color_COLORREF (c : color) : Z :=
  Z.land (c_r c + Z.shiftl (c_g c) 8 + Z.shiftl (c_b c) 16 + Z.shiftl (c_a c) 24) 0x00FFFFFF.

(** ** HexToUint, StringToUint *)

Definition _isNumber (wch : wchar) : bool := (48 <=? wch) && (wch <=? 57).

Definition HexToUint (wch : wchar) : option Z :=
  if (48 <=? wch) && (wch <=? 57) then Some (wch - 48)
  else if (65 <=? wch) && (wch <=? 70) then Some (wch - 65 + 10)
  else if (97 <=? wch) && (wch <=? 102) then Some (wch - 97 + 10)
  else None.

(** The [while] loop: [result] is an [unsigned int]. *)
Fixpoint StringToUint_loop (wstr : wstring) (result : Z) : option Z :=
  match wstr with
  | [] => Some result
  | wch :: wstr' =>
      if _isNumber wch then StringToUint_loop wstr' (u32 (u32 (result * 10) + (wch - 48)))
      else None
  end.

Definition StringToUint (wstr : wstring) : option Z :=
  if (length wstr <? 1)%nat then None else StringToUint_loop wstr 0.

(** ** SplitString *)

(** [wstr.find(delimiter, current)], relative to [current]. *)
Fixpoint find_char (delimiter : wchar) (l : wstring) : option nat :=
  match l with
  | [] => None
  | c :: l' => if c =? delimiter then Some 0%nat else S <$> find_char delimiter l'
  end.

Fixpoint SplitString_loop (fuel : nat) (wstr : wstring) (delimiter : wchar) (current : nat)
    : list wstring :=
  match fuel with
  | O => []
  | S fuel =>
      if decide (current < length wstr)%nat then
        match find_char delimiter (drop current wstr) with
        | None => [drop current wstr]
        | Some len =>
            let part := take len (drop current wstr) in
            let current := (current + len + 1)%nat in
            part :: (if decide (length wstr <= current)%nat then [[]] else [])
                 ++ SplitString_loop fuel wstr delimiter current
        end
      else []
  end.

Definition SplitString (wstr : wstring) (delimiter : wchar) : list wstring :=
  SplitString_loop (length wstr) wstr delimiter 0.

(** ** FilterStringForPaste *)

Definition CarriageReturnNewline : Z := 1.
Definition ControlCodes : Z := 2.

Definition IsFlagSet (v f : Z) : bool := negb (Z.land v f =? 0).

Definition isControlCode (c : wchar) : bool :=
  if (0x20 <=? c) && (c <? 0x7f) then false
  else if c >? 0x9f then false
  else negb (c =? 0x09) && negb (c =? 0x0a) && negb (c =? 0x0d).

(** The loop: the text between [begin] and [pos] is copied when a character is
    dropped.  It returns [filtered] and [begin]. *)
Fixpoint FilterStringForPaste_loop (fuel : nat) (wstr : wstring) (option : Z)
    (pos begin : nat) (filtered : wstring) : wstring * nat :=
  match fuel with
  | O => (filtered, begin)
  | S fuel =>
      match wstr !! pos with
      | None => (filtered, begin)
      | Some c =>
          if IsFlagSet option CarriageReturnNewline && (c =? 10) then
            let filtered := filtered ++ take (pos - begin) (drop begin wstr) in
            let filtered :=
              if negb ((0 <? pos)%nat && bool_decide (wstr !! (pos - 1)%nat = Some 13))
              then filtered ++ [13] else filtered in
            FilterStringForPaste_loop fuel wstr option (S pos) (S pos) filtered
          else if IsFlagSet option ControlCodes && isControlCode c then
            let filtered := filtered ++ take (pos - begin) (drop begin wstr) in
            FilterStringForPaste_loop fuel wstr option (S pos) (S pos) filtered
          else FilterStringForPaste_loop fuel wstr option (S pos) begin filtered
      end
  end.

Definition FilterStringForPaste (wstr : wstring) (option : Z) : wstring :=
  let '(filtered, begin) := FilterStringForPaste_loop (length wstr) wstr option 0 0 [] in
  if (begin =? 0)%nat then wstr else filtered ++ drop begin wstr.

(** ** Colours as text *)

(** One digit of [std::uppercase << std::hex]. *)
Definition hex_digit (n : Z) : wchar := if n <? 10 then 48 + n else 65 + (n - 10).

(** [std::setw(2) << std::setfill('0') << int], for a byte. *)
Definition hex_byte (b : Z) : wstring := [hex_digit (b / 16); hex_digit (b mod 16)].

Definition ColorToHexString (c : color) : wstring :=
  35 :: hex_byte (c_r c) ++ hex_byte (c_g c) ++ hex_byte (c_b c).

(** [std::stoul(str, nullptr, 16)] on a [char] string: leading white space, a
    sign, a "0x" prefix, then as many digits as follow; [None] is
    [std::invalid_argument].  The result is a 32-bit [unsigned long]. *)
Definition is_space (c : wchar) : bool := (c =? 32) || ((9 <=? c) && (c <=? 13)).

Fixpoint skip_space (s : wstring) : wstring :=
  match s with
  | c :: s' => if is_space c then skip_space s' else s
  | [] => []
  end.

Fixpoint hex_digits (s : wstring) (acc : Z) (any : bool) : option Z :=
  match s with
  | c :: s' =>
      match HexToUint c with
      | Some v => hex_digits s' (acc * 16 + v) true
      | None => if any then Some acc else None
      end
  | [] => if any then Some acc else None
  end.

Definition stoul16 (s : wstring) : option Z :=
  let s := skip_space s in
  let '(neg, s) := match s with
                   | 45 :: s' => (true, s')
                   | 43 :: s' => (false, s')
                   | _ => (false, s)
                   end in
  let s := match s with
           | 48 :: x :: d :: s' =>
               if ((x =? 120) || (x =? 88)) && bool_decide (is_Some (HexToUint d))
               then d :: s' else s
           | _ => s
           end in
  v ← hex_digits s 0 false;
  Some (if (neg : bool) then u32 (- v) else u32 v).

(** [None] stands for the exception the function leaves with. *)
Definition ColorFromHexString (str : wstring) : option color :=
  let size := length str in
  if negb (size =? 7)%nat && negb (size =? 4)%nat then None
  else
    let at_ i := default 0 (str !! i) in
    if negb (at_ 0%nat =? 35) then None
    else
      let '(rStr, gStr, bStr) :=
        if (size =? 4)%nat then
          ([at_ 1%nat; at_ 1%nat], [at_ 2%nat; at_ 2%nat], [at_ 3%nat; at_ 3%nat])
        else ([at_ 1%nat; at_ 2%nat], [at_ 3%nat; at_ 4%nat], [at_ 5%nat; at_ 6%nat]) in
      r ← stoul16 rStr; g ← stoul16 gStr; b ← stoul16 bStr;
      Some (rgb (u8 r) (u8 g) (u8 b)).

(** ** ColorFromXParseColorSpec *)

Definition ascii_tolower (x : wchar) : wchar := if (65 <=? x) && (x <=? 90) then x + 32 else x.

(** The digits of one component.  [curr] is what is left of the string, [i] the
    index in the component and [count] is [rgbHexDigitCount].  [None] is an
    invalid digit; otherwise the rest of the string, the value, the digit count
    and whether the component was found. *)
Fixpoint spec_digits (sharp : bool) (component i iteration : nat) (curr : wstring)
    (parameterValue : Z) (count : nat) (found : bool) : option (wstring * Z * nat * bool) :=
  match iteration with
  | O => Some (curr, parameterValue, count, found)
  | S iteration =>
      match curr with
      | [] => Some (curr, parameterValue, count, found)
      | wch :: curr =>
          let parameterValue := u32 (parameterValue * 16) in
          match HexToUint wch with
          | None => None
          | Some intVal =>
              let parameterValue := u32 (parameterValue + intVal) in
              if sharp then
                if (count <=? i)%nat then Some (curr, parameterValue, count, true)
                else spec_digits sharp component (S i) iteration curr parameterValue count true
              else
                let count := S i in
                match curr with
                | [] => Some (curr, parameterValue, count, true)
                | d :: curr' =>
                    if (component <? 2)%nat && (d =? 47)
                    then Some (curr', parameterValue, count, true)
                    else spec_digits sharp component (S i) iteration curr parameterValue count found
                end
          end
      end
  end.

(** The value of a component scaled to a byte by its digit count. *)
Definition spec_scale (sharp : bool) (count : nat) (parameterValue : Z) : Z :=
  let scaleMultiplier := if sharp then 0x10 else 0x11 in
  let scaleDivisor := Z.shiftr (Z.shiftl scaleMultiplier 8) (4 * (4 - Z.of_nat count)) in
  u32 (parameterValue * scaleMultiplier) / scaleDivisor.

Fixpoint spec_components (sharp : bool) (todo component : nat) (curr : wstring) (count : nat)
    : option (list Z * wstring) :=
  match todo with
  | O => Some ([], curr)
  | S todo =>
      let iteration := if sharp then count else 4%nat in
      '(curr, parameterValue, count, found) ←
        spec_digits sharp component 0 iteration curr 0 count false;
      if (found : bool) then
        '(vs, curr) ← spec_components sharp todo (S component) curr count;
        Some (spec_scale sharp count parameterValue :: vs, curr)
      else None
  end.

Definition ColorFromXParseColorSpec (string : wstring) : option color :=
  let stringSize := length string in
  (* the state after both prefixes were looked for: the kind of the spec, the
     digit count and the rest of the string *)
  start ←
    (if (4 <? stringSize)%nat && bool_decide (ascii_tolower <$> take 4 string = wstr "rgb:") then
       if (stringSize <? 9)%nat || (18 <? stringSize)%nat then None
       else Some (false, 0%nat, drop 4 string)
     else if (1 <? stringSize)%nat && bool_decide (string !! 0%nat = Some 35) then
       if negb ((stringSize =? 4)%nat || (stringSize =? 7)%nat || (stringSize =? 10)%nat
                || (stringSize =? 13)%nat) then None
       else Some (true, ((stringSize - 1) / 3)%nat, drop 1 string)
     else None);
  let '(sharp, count, curr) := start in
  '(vs, curr) ← spec_components sharp 3 0 curr count;
  match curr, vs with
  | [], [r; g; b] => Some (rgb (u8 r) (u8 g) (u8 b))
  | _, _ => None
  end.

(** ** Reference definitions *)

(** What becomes of one pasted character, given the character before it. *)
Definition paste_char (opt : Z) (prev : option wchar) (c : wchar) : wstring :=
  if IsFlagSet opt CarriageReturnNewline && (c =? 10) then
    if bool_decide (prev = Some 13) then [] else [13]
  else if IsFlagSet opt ControlCodes && isControlCode c then []
  else [c].

Fixpoint paste_ref (opt : Z) (prev : option wchar) (l : wstring) : wstring :=
  match l with
  | [] => []
  | c :: l' => paste_char opt prev c ++ paste_ref opt (Some c) l'
  end.

(** ** Lemmas *)

Lemma find_char_Some d l n :
  find_char d l = Some n →
  ∃ l1 l2, l = l1 ++ d :: l2 ∧ length l1 = n ∧ Forall (λ c, (c =? d) = false) l1.
Proof.
  revert n. induction l as [|c l IH]; cbn; [done|]. intros n.
  destruct (Z.eqb_spec c d) as [->|Hc].
  - intros [= <-]. by exists [], l.
  - intros (m & Hm & ->)%fmap_Some. destruct (IH m Hm) as (l1 & l2 & -> & Hl & Hf).
    exists (c :: l1), l2. split; [done|]. split; [cbn; lia|]. constructor; [by apply Z.eqb_neq|done].
Qed.

Lemma find_char_None d l : find_char d l = None → Forall (λ c, (c =? d) = false) l.
Proof.
  induction l as [|c l IH]; cbn; [done|]. destruct (c =? d) eqn:Hc; [done|].
  intros Hn%fmap_None. constructor; auto.
Qed.

Lemma SplitString_loop_ref fuel wstr d current :
  (length wstr - current <= fuel)%nat → (current < length wstr)%nat →
  SplitString_loop fuel wstr d current = split_on (λ c, c =? d) (drop current wstr).
Proof.
  revert current. induction fuel as [|fuel IH]; intros current Hf Hc; [lia|].
  cbn [SplitString_loop]. rewrite decide_True by done.
  destruct (find_char d (drop current wstr)) as [n|] eqn:Hfind.
  - apply find_char_Some in Hfind as (l1 & l2 & Hd & Hl & Hn).
    rewrite Hd, take_app_length' by done. rewrite split_on_app_sep; [|done|apply Z.eqb_refl].
    assert (drop (current + n + 1) wstr = l2) as Hl2.
    { rewrite <-Nat.add_assoc, <-drop_drop, Hd. rewrite drop_app_ge by lia.
      replace (n + 1 - length l1)%nat with 1%nat by lia. done. }
    f_equal. case_decide as Hle.
    + rewrite drop_ge in Hl2 by done. subst l2. destruct fuel; cbn; [done|].
      by rewrite decide_False by lia.
    + cbn. rewrite IH by lia. by rewrite Hl2.
  - by rewrite split_on_no_sep by by apply find_char_None.
Qed.

Lemma SplitString_ref wstr d :
  SplitString wstr d = match wstr with [] => [] | _ => split_on (λ c, c =? d) wstr end.
Proof.
  unfold SplitString. destruct wstr as [|c w]; [done|].
  by rewrite SplitString_loop_ref by (cbn; lia).
Qed.

Lemma StringToUint_loop_spec l acc :
  0 <= acc < 2 ^ 32 → Forall (λ c, _isNumber c = true) l →
  StringToUint_loop l acc = Some (u32 (fold_left (λ n c, 10 * n + (c - 48)) l acc)).
Proof.
  intros Ha Hl. revert acc Ha. induction Hl as [|c l Hc _ IH]; intros acc Ha; cbn [StringToUint_loop fold_left].
  - by rewrite wrapu_small.
  - rewrite Hc, IH by by apply wrapu_range. f_equal. unfold wrapu at 1 3.
    assert (∀ a b, a `mod` 2 ^ 32 = b `mod` 2 ^ 32 →
      fold_left (λ n c, 10 * n + (c - 48)) l a `mod` 2 ^ 32
      = fold_left (λ n c, 10 * n + (c - 48)) l b `mod` 2 ^ 32) as Hcong.
    { clear. induction l as [|c l IH]; intros a b Hab; cbn; [done|]. apply IH.
      rewrite Z.add_mod, Z.mul_mod, Hab, <-Z.mul_mod, <-Z.add_mod by done. done. }
    apply Hcong. unfold wrapu. rewrite Z.mod_mod by done.
    rewrite Z.add_mod_idemp_l by done. f_equal. lia.
Qed.

Lemma StringToUint_loop_bad l acc :
  Exists (λ c, _isNumber c = false) l → StringToUint_loop l acc = None.
Proof.
  intros Hl. revert acc. induction Hl as [c l Hc|c l _ IH]; intros acc; cbn; [by rewrite Hc|].
  destruct (_isNumber c); [apply IH|done].
Qed.

Lemma HexToUint_hex_digit n : 0 <= n < 16 → HexToUint (hex_digit n) = Some n.
Proof.
  intros Hn. unfold hex_digit, HexToUint.
  destruct (Z.ltb_spec n 10).
  - replace ((48 <=? 48 + n) && (48 + n <=? 57)) with true by lia. f_equal. lia.
  - replace ((48 <=? 65 + (n - 10)) && (65 + (n - 10) <=? 57)) with false by lia.
    replace ((65 <=? 65 + (n - 10)) && (65 + (n - 10) <=? 70)) with true by lia. f_equal. lia.
Qed.

Lemma stoul16_hex_byte b : 0 <= b < 256 → stoul16 (hex_byte b) = Some b.
Proof. revert b. by apply (forall_byte (λ b, stoul16 (hex_byte b) = Some b)). Qed.

(** Two digits of the "#" format. *)
Lemma spec_digits_hex_byte component b rest :
  0 <= b < 256 →
  spec_digits true component 0 2 (hex_byte b ++ rest) 0 2 false = Some (rest, b, 2%nat, true).
Proof.
  intros Hb. cbn [hex_byte app spec_digits].
  rewrite !HexToUint_hex_digit by (Z.div_mod_to_equations; lia). cbn -[wrapu Z.div Z.modulo Z.mul].
  assert (0 <= b / 16 < 16) by (Z.div_mod_to_equations; lia).
  assert (0 <= b mod 16 < 16) by (Z.div_mod_to_equations; lia).
  rewrite (wrapu_small 32 (0 * 16)), (wrapu_small 32 (0 * 16 + _)), (wrapu_small 32 (_ * 16)),
    (wrapu_small 32 (_ + _)) by lia.
  repeat f_equal. rewrite (Z.div_mod b 16) at 3 by done. lia.
Qed.

Lemma spec_scale_two b : 0 <= b < 256 → spec_scale true 2 b = b.
Proof. intros Hb. unfold spec_scale. rewrite wrapu_small by lia. cbn. by rewrite Z.div_mul. Qed.

Lemma FilterStringForPaste_loop_ref fuel wstr opt pos begin filtered :
  (length wstr - pos <= fuel)%nat → (begin <= pos <= length wstr)%nat →
  (begin = 0%nat → filtered = []) →
  ∃ f' b', FilterStringForPaste_loop fuel wstr opt pos begin filtered = (f', b') ∧
    (b' = 0%nat → f' = []) ∧
    f' ++ drop b' wstr = filtered ++ take (pos - begin) (drop begin wstr)
      ++ paste_ref opt (if (0 <? pos)%nat then wstr !! (pos - 1)%nat else None) (drop pos wstr).
Proof.
  revert pos begin filtered. induction fuel as [|fuel IH]; intros pos begin filtered Hf Hp Hb.
  - cbn. exists filtered, begin. split; [done|]. split; [done|].
    rewrite (drop_ge wstr pos) by lia. cbn. rewrite app_nil_r. f_equal.
    rewrite take_ge; [done|]. rewrite length_drop. lia.
  - cbn [FilterStringForPaste_loop]. destruct (wstr !! pos) as [c|] eqn:Hc.
    2:{ apply lookup_ge_None in Hc. exists filtered, begin. split; [done|]. split; [done|].
        rewrite (drop_ge wstr pos) by lia. cbn. rewrite app_nil_r. f_equal.
        rewrite take_ge; [done|]. rewrite length_drop. lia. }
    pose proof (lookup_lt_Some _ _ _ Hc) as Hlt.
    rewrite (drop_S wstr c pos) by done. cbn [paste_ref]. unfold paste_char.
    assert (∀ b f, (b <= S pos)%nat → (b = 0%nat → f = []) →
      ∃ f' b', FilterStringForPaste_loop fuel wstr opt (S pos) b f = (f', b') ∧
        (b' = 0%nat → f' = []) ∧
        f' ++ drop b' wstr = f ++ take (S pos - b) (drop b wstr)
          ++ paste_ref opt (Some c) (drop (S pos) wstr)) as Hnext.
    { intros b f Hb1 Hb2. destruct (IH (S pos) b f) as (f' & b' & ? & ? & He); [lia|lia|done|].
      exists f', b'. split; [done|]. split; [done|]. rewrite He. cbn [Nat.ltb Nat.leb].
      replace (S pos - 1)%nat with pos by lia. by rewrite Hc. }
    assert (negb ((0 <? pos)%nat && bool_decide (wstr !! (pos - 1)%nat = Some 13))
      = negb (bool_decide ((if (0 <? pos)%nat then wstr !! (pos - 1)%nat else None) = Some 13))) as ->
      by by destruct (0 <? pos)%nat.
    set (prev := if (0 <? pos)%nat then wstr !! (pos - 1)%nat else None).
    destruct (IsFlagSet opt CarriageReturnNewline && (c =? 10)).
    { edestruct (Hnext (S pos)) as (f' & b' & He & Hz & Heq); [done| |exists f', b'; split; [exact He|]].
      - done.
      - split; [done|]. rewrite Heq, Nat.sub_diag. cbn [take app].
        destruct (bool_decide (prev = Some 13)); cbn; by rewrite <-!app_assoc. }
    destruct (IsFlagSet opt ControlCodes && isControlCode c).
    { edestruct (Hnext (S pos)) as (f' & b' & He & Hz & Heq); [done| |exists f', b'; split; [exact He|]].
      - done.
      - split; [done|]. rewrite Heq, Nat.sub_diag. cbn [take app]. by rewrite <-!app_assoc. }
    destruct (Hnext begin filtered) as (f' & b' & He & Hz & Heq); [lia|done|].
    exists f', b'. split; [done|]. split; [done|]. rewrite Heq. f_equal.
    rewrite app_assoc. f_equal. replace (S pos - begin)%nat with (S (pos - begin)) by lia.
    apply take_S_r. rewrite lookup_drop. by replace (begin + (pos - begin))%nat with pos by lia.
Qed.

Lemma FilterStringForPaste_ref wstr opt : FilterStringForPaste wstr opt = paste_ref opt None wstr.
Proof.
  unfold FilterStringForPaste.
  destruct (FilterStringForPaste_loop_ref (length wstr) wstr opt 0 0 []) as (f & b & -> & Hz & He);
    [lia|lia|done|]. cbn in He.
  destruct (Nat.eqb_spec b 0) as [->|]; [|done]. by rewrite Hz in He.
Qed.

(** ** Properties *)

Lemma split_on_parts {A} (p : A → bool) l : Forall (Forall (λ c, p c = false)) (split_on p l).
Proof.
  induction l as [|c l IH]; cbn; [by repeat constructor|]. destruct (p c) eqn:Hc.
  - by constructor.
  - destruct (split_on p l) as [|f fs]; [by repeat constructor|].
    apply Forall_cons in IH as [Hf Hfs]. constructor; [by constructor|done].
Qed.

(** Splitting a string at a delimiter loses nothing: joining the parts gives
    the string back, and no part has the delimiter in it. *)
Theorem SplitString_correct (wstr : wstring) (delimiter : wchar) :
  join_with delimiter (SplitString wstr delimiter) = wstr
  ∧ Forall (Forall (λ c, (c =? delimiter) = false)) (SplitString wstr delimiter).
Proof.
  rewrite SplitString_ref. destruct wstr as [|c w]; [done|]. split; [|apply split_on_parts].
  etrans; [|apply (join_split_on delimiter)]. f_equal. generalize (c :: w). intros l.
  induction l as [|d l IH]; cbn; [done|]. rewrite IH.
  by destruct (Z.eqb_spec d delimiter); case_bool_decide.
Qed.

(** [StringToUint] accepts exactly the non-empty strings of digits, and gives
    their number modulo 2^32. *)
Theorem StringToUint_correct (wstr : wstring) :
  StringToUint wstr
  = if negb (bool_decide (wstr = [])) && forallb _isNumber wstr then Some (u32 (decimal wstr)) else None.
Proof.
  unfold StringToUint. destruct wstr as [|c w]; [done|]. cbn [length Nat.ltb Nat.leb negb andb].
  rewrite bool_decide_false by done. cbn [negb andb].
  destruct (forallb _isNumber (c :: w)) eqn:Hf.
  - rewrite StringToUint_loop_spec; [done|lia|by apply forallb_Forall_true].
  - apply StringToUint_loop_bad. apply not_true_iff_false in Hf.
    destruct (decide (Exists (λ c, _isNumber c = false) (c :: w))) as [|Hn]; [done|].
    destruct Hf. apply forallb_forall. intros d Hd. apply not_Exists_Forall in Hn; [|solve_decision].
    rewrite Forall_forall in Hn. apply list_elem_of_In in Hd. specialize (Hn d Hd).
    cbn in Hn. destruct (_isNumber d); [done|]. exfalso. by apply Hn.
Qed.

Definition is_byte (b : Z) : Prop := 0 <= b < 256.

Lemma u8_byte b : is_byte b → u8 b = b.
Proof. apply (wrapu_small 8). Qed.

Lemma ColorFromHexString_digits r1 r2 g1 g2 b1 b2 :
  ColorFromHexString [35; r1; r2; g1; g2; b1; b2]
  = (r ← stoul16 [r1; r2]; g ← stoul16 [g1; g2]; b ← stoul16 [b1; b2];
     Some (rgb (u8 r) (u8 g) (u8 b))).
Proof. done. Qed.

(** The text of a colour, in the form #RRGGBB, is read back as the colour, by
    the function that reads that form. *)
Theorem ColorHexString_round_trip (r g b : Z) :
  is_byte r → is_byte g → is_byte b →
  ColorFromHexString (ColorToHexString (rgb r g b)) = Some (rgb r g b).
Proof.
  intros Hr Hg Hb. unfold ColorToHexString, hex_byte. cbn [app c_r c_g c_b rgb].
  rewrite ColorFromHexString_digits. fold (hex_byte r) (hex_byte g) (hex_byte b).
  rewrite !stoul16_hex_byte by done. cbn [mbind option_bind]. by rewrite !u8_byte.
Qed.

Lemma ColorHexString_round_trip_witness :
  ColorFromHexString (ColorToHexString (rgb 18 171 255)) = Some (rgb 18 171 255).
Proof. apply ColorHexString_round_trip; unfold is_byte; lia. Defined.

(** The same text is also read back by the parser of X11 colour
    specifications, which OSC sequences use. *)
Theorem ColorFromXParseColorSpec_hex (r g b : Z) :
  is_byte r → is_byte g → is_byte b →
  ColorFromXParseColorSpec (ColorToHexString (rgb r g b)) = Some (rgb r g b).
Proof.
  intros Hr Hg Hb. unfold ColorFromXParseColorSpec, ColorToHexString. cbn [c_r c_g c_b rgb].
  set (body := hex_byte r ++ hex_byte g ++ hex_byte b).
  assert (length (35 :: body) = 7%nat) as -> by done.
  rewrite bool_decide_false by done. rewrite bool_decide_true by done. cbn [Nat.ltb Nat.leb andb].
  change (negb _) with false. cbn [mbind option_bind drop]. change ((7 - 1) / 3)%nat with 2%nat.
  unfold body. cbn [spec_components]. rewrite drop_0, spec_digits_hex_byte by done.
  cbn [mbind option_bind]. rewrite spec_digits_hex_byte by done.
  cbn [mbind option_bind]. rewrite <-(app_nil_r (hex_byte b)), spec_digits_hex_byte by done.
  cbn [mbind option_bind]. by rewrite !spec_scale_two, !u8_byte.
Qed.

Lemma ColorFromXParseColorSpec_hex_witness :
  ColorFromXParseColorSpec (ColorToHexString (rgb 18 171 255)) = Some (rgb 18 171 255).
Proof. apply ColorFromXParseColorSpec_hex; unfold is_byte; lia. Defined.

Lemma paste_ref_clean opt prev l :
  Forall (λ c, IsFlagSet opt CarriageReturnNewline && (c =? 10) = false
             ∧ IsFlagSet opt ControlCodes && isControlCode c = false) (paste_ref opt prev l).
Proof.
  revert prev. induction l as [|c l IH]; intros prev; cbn; [done|]. apply Forall_app. split; [|apply IH].
  unfold paste_char. destruct (IsFlagSet opt CarriageReturnNewline && (c =? 10)) eqn:H1.
  - case_bool_decide; constructor; [|done]. by rewrite !andb_false_r.
  - destruct (IsFlagSet opt ControlCodes && isControlCode c) eqn:H2; by repeat constructor.
Qed.

Lemma paste_ref_id opt prev l :
  Forall (λ c, IsFlagSet opt CarriageReturnNewline && (c =? 10) = false
             ∧ IsFlagSet opt ControlCodes && isControlCode c = false) l →
  paste_ref opt prev l = l.
Proof.
  intros Hl. revert prev. induction Hl as [|c l [H1 H2] _ IH]; intros prev; cbn; [done|].
  unfold paste_char. by rewrite H1, H2, IH.
Qed.

(** Filtering a pasted text: with the newline option no line feed is left,
    with the control code option no control code is left, a second pass changes
    nothing, and without options the text is unchanged. *)
Theorem FilterStringForPaste_correct (wstr : wstring) (option : Z) :
  Forall (λ c, (IsFlagSet option CarriageReturnNewline && (c =? 10)) = false
             ∧ (IsFlagSet option ControlCodes && isControlCode c) = false)
    (FilterStringForPaste wstr option)
  ∧ FilterStringForPaste (FilterStringForPaste wstr option) option = FilterStringForPaste wstr option
  ∧ FilterStringForPaste wstr 0 = wstr.
Proof.
  rewrite !FilterStringForPaste_ref. split; [apply paste_ref_clean|].
  split; [apply paste_ref_id, paste_ref_clean|]. apply paste_ref_id. apply Forall_true. done.
Qed.
