(* ===== verification/ColorTable.v ===== *)
(** The colour tables and colour names of [src/src/types/colorTable.cpp], the
    sorted map of [src/src/inc/til/static_map.h] they are kept in, and the
    palette index conversions of [src/src/host/conattrs.cpp]. *)

From stdpp Require Import strings.
From S2P Require Import Prelude DispatchTypes Utils.

(** ** Tables *)

Definition campbellColorTable : list color :=
  [
   rgb 12 12 12; rgb 197 15 31; rgb 19 161 14; rgb 193 156 0;
   rgb 0 55 218; rgb 136 23 152; rgb 58 150 221; rgb 204 204 204;
   rgb 118 118 118; rgb 231 72 86; rgb 22 198 12; rgb 249 241 165;
   rgb 59 120 255; rgb 180 0 158; rgb 97 214 214; rgb 242 242 242].

Definition standardXterm256ColorTable : list color :=
  [
   rgb 0 0 0; rgb 128 0 0; rgb 0 128 0; rgb 128 128 0;
   rgb 0 0 128; rgb 128 0 128; rgb 0 128 128; rgb 192 192 192;
   rgb 128 128 128; rgb 255 0 0; rgb 0 255 0; rgb 255 255 0;
   rgb 0 0 255; rgb 255 0 255; rgb 0 255 255; rgb 255 255 255;
   rgb 0 0 0; rgb 0 0 95; rgb 0 0 135; rgb 0 0 175;
   rgb 0 0 215; rgb 0 0 255; rgb 0 95 0; rgb 0 95 95;
   rgb 0 95 135; rgb 0 95 175; rgb 0 95 215; rgb 0 95 255;
   rgb 0 135 0; rgb 0 135 95; rgb 0 135 135; rgb 0 135 175;
   rgb 0 135 215; rgb 0 135 255; rgb 0 175 0; rgb 0 175 95;
   rgb 0 175 135; rgb 0 175 175; rgb 0 175 215; rgb 0 175 255;
   rgb 0 215 0; rgb 0 215 95; rgb 0 215 135; rgb 0 215 175;
   rgb 0 215 215; rgb 0 215 255; rgb 0 255 0; rgb 0 255 95;
   rgb 0 255 135; rgb 0 255 175; rgb 0 255 215; rgb 0 255 255;
   rgb 95 0 0; rgb 95 0 95; rgb 95 0 135; rgb 95 0 175;
   rgb 95 0 215; rgb 95 0 255; rgb 95 95 0; rgb 95 95 95;
   rgb 95 95 135; rgb 95 95 175; rgb 95 95 215; rgb 95 95 255;
   rgb 95 135 0; rgb 95 135 95; rgb 95 135 135; rgb 95 135 175;
   rgb 95 135 215; rgb 95 135 255; rgb 95 175 0; rgb 95 175 95;
   rgb 95 175 135; rgb 95 175 175; rgb 95 175 215; rgb 95 175 255;
   rgb 95 215 0; rgb 95 215 95; rgb 95 215 135; rgb 95 215 175;
   rgb 95 215 215; rgb 95 215 255; rgb 95 255 0; rgb 95 255 95;
   rgb 95 255 135; rgb 95 255 175; rgb 95 255 215; rgb 95 255 255;
   rgb 135 0 0; rgb 135 0 95; rgb 135 0 135; rgb 135 0 175;
   rgb 135 0 215; rgb 135 0 255; rgb 135 95 0; rgb 135 95 95;
   rgb 135 95 135; rgb 135 95 175; rgb 135 95 215; rgb 135 95 255;
   rgb 135 135 0; rgb 135 135 95; rgb 135 135 135; rgb 135 135 175;
   rgb 135 135 215; rgb 135 135 255; rgb 135 175 0; rgb 135 175 95;
   rgb 135 175 135; rgb 135 175 175; rgb 135 175 215; rgb 135 175 255;
   rgb 135 215 0; rgb 135 215 95; rgb 135 215 135; rgb 135 215 175;
   rgb 135 215 215; rgb 135 215 255; rgb 135 255 0; rgb 135 255 95;
   rgb 135 255 135; rgb 135 255 175; rgb 135 255 215; rgb 135 255 255;
   rgb 175 0 0; rgb 175 0 95; rgb 175 0 135; rgb 175 0 175;
   rgb 175 0 215; rgb 175 0 255; rgb 175 95 0; rgb 175 95 95;
   rgb 175 95 135; rgb 175 95 175; rgb 175 95 215; rgb 175 95 255;
   rgb 175 135 0; rgb 175 135 95; rgb 175 135 135; rgb 175 135 175;
   rgb 175 135 215; rgb 175 135 255; rgb 175 175 0; rgb 175 175 95;
   rgb 175 175 135; rgb 175 175 175; rgb 175 175 215; rgb 175 175 255;
   rgb 175 215 0; rgb 175 215 95; rgb 175 215 135; rgb 175 215 175;
   rgb 175 215 215; rgb 175 215 255; rgb 175 255 0; rgb 175 255 95;
   rgb 175 255 135; rgb 175 255 175; rgb 175 255 215; rgb 175 255 255;
   rgb 215 0 0; rgb 215 0 95; rgb 215 0 135; rgb 215 0 175;
   rgb 215 0 215; rgb 215 0 255; rgb 215 95 0; rgb 215 95 95;
   rgb 215 95 135; rgb 215 95 175; rgb 215 95 215; rgb 215 95 255;
   rgb 215 135 0; rgb 215 135 95; rgb 215 135 135; rgb 215 135 175;
   rgb 215 135 215; rgb 215 135 255; rgb 215 175 0; rgb 215 175 95;
   rgb 215 175 135; rgb 215 175 175; rgb 215 175 215; rgb 215 175 255;
   rgb 215 215 0; rgb 215 215 95; rgb 215 215 135; rgb 215 215 175;
   rgb 215 215 215; rgb 215 215 255; rgb 215 255 0; rgb 215 255 95;
   rgb 215 255 135; rgb 215 255 175; rgb 215 255 215; rgb 215 255 255;
   rgb 255 0 0; rgb 255 0 95; rgb 255 0 135; rgb 255 0 175;
   rgb 255 0 215; rgb 255 0 255; rgb 255 95 0; rgb 255 95 95;
   rgb 255 95 135; rgb 255 95 175; rgb 255 95 215; rgb 255 95 255;
   rgb 255 135 0; rgb 255 135 95; rgb 255 135 135; rgb 255 135 175;
   rgb 255 135 215; rgb 255 135 255; rgb 255 175 0; rgb 255 175 95;
   rgb 255 175 135; rgb 255 175 175; rgb 255 175 215; rgb 255 175 255;
   rgb 255 215 0; rgb 255 215 95; rgb 255 215 135; rgb 255 215 175;
   rgb 255 215 215; rgb 255 215 255; rgb 255 255 0; rgb 255 255 95;
   rgb 255 255 135; rgb 255 255 175; rgb 255 255 215; rgb 255 255 255;
   rgb 8 8 8; rgb 18 18 18; rgb 28 28 28; rgb 38 38 38;
   rgb 48 48 48; rgb 58 58 58; rgb 68 68 68; rgb 78 78 78;
   rgb 88 88 88; rgb 98 98 98; rgb 108 108 108; rgb 118 118 118;
   rgb 128 128 128; rgb 138 138 138; rgb 148 148 148; rgb 158 158 158;
   rgb 168 168 168; rgb 178 178 178; rgb 188 188 188; rgb 198 198 198;
   rgb 208 208 208; rgb 218 218 218; rgb 228 228 228; rgb 238 238 238].

Definition xorgAppVariantColorTable : list (wstring * list color) :=
  [
   (wstr "antiquewhite", [rgb 250 235 215; rgb 255 239 219; rgb 238 223 204; rgb 205 192 176; rgb 139 131 120]);
   (wstr "aquamarine", [rgb 127 255 212; rgb 127 255 212; rgb 118 238 198; rgb 102 205 170; rgb 69 139 116]);
   (wstr "azure", [rgb 240 255 255; rgb 240 255 255; rgb 224 238 238; rgb 193 205 205; rgb 131 139 139]);
   (wstr "bisque", [rgb 255 228 196; rgb 255 228 196; rgb 238 213 183; rgb 205 183 158; rgb 139 125 107]);
   (wstr "blue", [rgb 0 0 255; rgb 0 0 255; rgb 0 0 238; rgb 0 0 205; rgb 0 0 139]);
   (wstr "brown", [rgb 165 42 42; rgb 255 64 64; rgb 238 59 59; rgb 205 51 51; rgb 139 35 35]);
   (wstr "burlywood", [rgb 222 184 135; rgb 255 211 155; rgb 238 197 145; rgb 205 170 125; rgb 139 115 85]);
   (wstr "cadetblue", [rgb 95 158 160; rgb 152 245 255; rgb 142 229 238; rgb 122 197 205; rgb 83 134 139]);
   (wstr "chartreuse", [rgb 127 255 0; rgb 127 255 0; rgb 118 238 0; rgb 102 205 0; rgb 69 139 0]);
   (wstr "chocolate", [rgb 210 105 30; rgb 255 127 36; rgb 238 118 33; rgb 205 102 29; rgb 139 69 19]);
   (wstr "coral", [rgb 255 127 80; rgb 255 114 86; rgb 238 106 80; rgb 205 91 69; rgb 139 62 47]);
   (wstr "cornsilk", [rgb 255 248 220; rgb 255 248 220; rgb 238 232 205; rgb 205 200 177; rgb 139 136 120]);
   (wstr "cyan", [rgb 0 255 255; rgb 0 255 255; rgb 0 238 238; rgb 0 205 205; rgb 0 139 139]);
   (wstr "darkgoldenrod", [rgb 184 134 11; rgb 255 185 15; rgb 238 173 14; rgb 205 149 12; rgb 139 101 8]);
   (wstr "darkolivegreen", [rgb 85 107 47; rgb 202 255 112; rgb 188 238 104; rgb 162 205 90; rgb 110 139 61]);
   (wstr "darkorange", [rgb 255 140 0; rgb 255 127 0; rgb 238 118 0; rgb 205 102 0; rgb 139 69 0]);
   (wstr "darkorchid", [rgb 153 50 204; rgb 191 62 255; rgb 178 58 238; rgb 154 50 205; rgb 104 34 139]);
   (wstr "darkseagreen", [rgb 143 188 143; rgb 193 255 193; rgb 180 238 180; rgb 155 205 155; rgb 105 139 105]);
   (wstr "darkslategray", [rgb 47 79 79; rgb 151 255 255; rgb 141 238 238; rgb 121 205 205; rgb 82 139 139]);
   (wstr "deeppink", [rgb 255 20 147; rgb 255 20 147; rgb 238 18 137; rgb 205 16 118; rgb 139 10 80]);
   (wstr "deepskyblue", [rgb 0 191 255; rgb 0 191 255; rgb 0 178 238; rgb 0 154 205; rgb 0 104 139]);
   (wstr "dodgerblue", [rgb 30 144 255; rgb 30 144 255; rgb 28 134 238; rgb 24 116 205; rgb 16 78 139]);
   (wstr "firebrick", [rgb 178 34 34; rgb 255 48 48; rgb 238 44 44; rgb 205 38 38; rgb 139 26 26]);
   (wstr "gold", [rgb 255 215 0; rgb 255 215 0; rgb 238 201 0; rgb 205 173 0; rgb 139 117 0]);
   (wstr "goldenrod", [rgb 218 165 32; rgb 255 193 37; rgb 238 180 34; rgb 205 155 29; rgb 139 105 20]);
   (wstr "green", [rgb 0 255 0; rgb 0 255 0; rgb 0 238 0; rgb 0 205 0; rgb 0 139 0]);
   (wstr "honeydew", [rgb 240 255 240; rgb 240 255 240; rgb 224 238 224; rgb 193 205 193; rgb 131 139 131]);
   (wstr "hotpink", [rgb 255 105 180; rgb 255 110 180; rgb 238 106 167; rgb 205 96 144; rgb 139 58 98]);
   (wstr "indianred", [rgb 205 92 92; rgb 255 106 106; rgb 238 99 99; rgb 205 85 85; rgb 139 58 58]);
   (wstr "ivory", [rgb 255 255 240; rgb 255 255 240; rgb 238 238 224; rgb 205 205 193; rgb 139 139 131]);
   (wstr "khaki", [rgb 240 230 140; rgb 255 246 143; rgb 238 230 133; rgb 205 198 115; rgb 139 134 78]);
   (wstr "lavenderblush", [rgb 255 240 245; rgb 255 240 245; rgb 238 224 229; rgb 205 193 197; rgb 139 131 134]);
   (wstr "lemonchiffon", [rgb 255 250 205; rgb 255 250 205; rgb 238 233 191; rgb 205 201 165; rgb 139 137 112]);
   (wstr "lightblue", [rgb 173 216 230; rgb 191 239 255; rgb 178 223 238; rgb 154 192 205; rgb 104 131 139]);
   (wstr "lightcyan", [rgb 224 255 255; rgb 224 255 255; rgb 209 238 238; rgb 180 205 205; rgb 122 139 139]);
   (wstr "lightgoldenrod", [rgb 238 221 130; rgb 255 236 139; rgb 238 220 130; rgb 205 190 112; rgb 139 129 76]);
   (wstr "lightpink", [rgb 255 182 193; rgb 255 174 185; rgb 238 162 173; rgb 205 140 149; rgb 139 95 101]);
   (wstr "lightsalmon", [rgb 255 160 122; rgb 255 160 122; rgb 238 149 114; rgb 205 129 98; rgb 139 87 66]);
   (wstr "lightskyblue", [rgb 135 206 250; rgb 176 226 255; rgb 164 211 238; rgb 141 182 205; rgb 96 123 139]);
   (wstr "lightsteelblue", [rgb 176 196 222; rgb 202 225 255; rgb 188 210 238; rgb 162 181 205; rgb 110 123 139]);
   (wstr "lightyellow", [rgb 255 255 224; rgb 255 255 224; rgb 238 238 209; rgb 205 205 180; rgb 139 139 122]);
   (wstr "magenta", [rgb 255 0 255; rgb 255 0 255; rgb 238 0 238; rgb 205 0 205; rgb 139 0 139]);
   (wstr "maroon", [rgb 176 48 96; rgb 255 52 179; rgb 238 48 167; rgb 205 41 144; rgb 139 28 98]);
   (wstr "mediumorchid", [rgb 186 85 211; rgb 224 102 255; rgb 209 95 238; rgb 180 82 205; rgb 122 55 139]);
   (wstr "mediumpurple", [rgb 147 112 219; rgb 171 130 255; rgb 159 121 238; rgb 137 104 205; rgb 93 71 139]);
   (wstr "mistyrose", [rgb 255 228 225; rgb 255 228 225; rgb 238 213 210; rgb 205 183 181; rgb 139 125 123]);
   (wstr "navajowhite", [rgb 255 222 173; rgb 255 222 173; rgb 238 207 161; rgb 205 179 139; rgb 139 121 94]);
   (wstr "olivedrab", [rgb 107 142 35; rgb 192 255 62; rgb 179 238 58; rgb 154 205 50; rgb 105 139 34]);
   (wstr "orange", [rgb 255 165 0; rgb 255 165 0; rgb 238 154 0; rgb 205 133 0; rgb 139 90 0]);
   (wstr "orangered", [rgb 255 69 0; rgb 255 69 0; rgb 238 64 0; rgb 205 55 0; rgb 139 37 0]);
   (wstr "orchid", [rgb 218 112 214; rgb 255 131 250; rgb 238 122 233; rgb 205 105 201; rgb 139 71 137]);
   (wstr "palegreen", [rgb 152 251 152; rgb 154 255 154; rgb 144 238 144; rgb 124 205 124; rgb 84 139 84]);
   (wstr "paleturquoise", [rgb 175 238 238; rgb 187 255 255; rgb 174 238 238; rgb 150 205 205; rgb 102 139 139]);
   (wstr "palevioletred", [rgb 219 112 147; rgb 255 130 171; rgb 238 121 159; rgb 205 104 137; rgb 139 71 93]);
   (wstr "peachpuff", [rgb 255 218 185; rgb 255 218 185; rgb 238 203 173; rgb 205 175 149; rgb 139 119 101]);
   (wstr "pink", [rgb 255 192 203; rgb 255 181 197; rgb 238 169 184; rgb 205 145 158; rgb 139 99 108]);
   (wstr "plum", [rgb 221 160 221; rgb 255 187 255; rgb 238 174 238; rgb 205 150 205; rgb 139 102 139]);
   (wstr "purple", [rgb 160 32 240; rgb 155 48 255; rgb 145 44 238; rgb 125 38 205; rgb 85 26 139]);
   (wstr "red", [rgb 255 0 0; rgb 255 0 0; rgb 238 0 0; rgb 205 0 0; rgb 139 0 0]);
   (wstr "rosybrown", [rgb 188 143 143; rgb 255 193 193; rgb 238 180 180; rgb 205 155 155; rgb 139 105 105]);
   (wstr "royalblue", [rgb 65 105 225; rgb 72 118 255; rgb 67 110 238; rgb 58 95 205; rgb 39 64 139]);
   (wstr "salmon", [rgb 250 128 114; rgb 255 140 105; rgb 238 130 98; rgb 205 112 84; rgb 139 76 57]);
   (wstr "seagreen", [rgb 46 139 87; rgb 84 255 159; rgb 78 238 148; rgb 67 205 128; rgb 46 139 87]);
   (wstr "seashell", [rgb 255 245 238; rgb 255 245 238; rgb 238 229 222; rgb 205 197 191; rgb 139 134 130]);
   (wstr "sienna", [rgb 160 82 45; rgb 255 130 71; rgb 238 121 66; rgb 205 104 57; rgb 139 71 38]);
   (wstr "skyblue", [rgb 135 206 235; rgb 135 206 255; rgb 126 192 238; rgb 108 166 205; rgb 74 112 139]);
   (wstr "slateblue", [rgb 106 90 205; rgb 131 111 255; rgb 122 103 238; rgb 105 89 205; rgb 71 60 139]);
   (wstr "slategray", [rgb 112 128 144; rgb 198 226 255; rgb 185 211 238; rgb 159 182 205; rgb 108 123 139]);
   (wstr "snow", [rgb 255 250 250; rgb 255 250 250; rgb 238 233 233; rgb 205 201 201; rgb 139 137 137]);
   (wstr "springgreen", [rgb 0 255 127; rgb 0 255 127; rgb 0 238 118; rgb 0 205 102; rgb 0 139 69]);
   (wstr "steelblue", [rgb 70 130 180; rgb 99 184 255; rgb 92 172 238; rgb 79 148 205; rgb 54 100 139]);
   (wstr "tan", [rgb 210 180 140; rgb 255 165 79; rgb 238 154 73; rgb 205 133 63; rgb 139 90 43]);
   (wstr "thistle", [rgb 216 191 216; rgb 255 225 255; rgb 238 210 238; rgb 205 181 205; rgb 139 123 139]);
   (wstr "tomato", [rgb 255 99 71; rgb 255 99 71; rgb 238 92 66; rgb 205 79 57; rgb 139 54 38]);
   (wstr "turquoise", [rgb 64 224 208; rgb 0 245 255; rgb 0 229 238; rgb 0 197 205; rgb 0 134 139]);
   (wstr "violetred", [rgb 208 32 144; rgb 255 62 150; rgb 238 58 140; rgb 205 50 120; rgb 139 34 82]);
   (wstr "wheat", [rgb 245 222 179; rgb 255 231 186; rgb 238 216 174; rgb 205 186 150; rgb 139 126 102]);
   (wstr "yellow", [rgb 255 255 0; rgb 255 255 0; rgb 238 238 0; rgb 205 205 0; rgb 139 139 0])].

Definition xorgAppColorTable : list (wstring * color) :=
  [
   (wstr "aliceblue", rgb 240 248 255); (wstr "aqua", rgb 0 255 255);
   (wstr "beige", rgb 245 245 220); (wstr "black", rgb 0 0 0);
   (wstr "blanchedalmond", rgb 255 235 205); (wstr "blueviolet", rgb 138 43 226);
   (wstr "cornflowerblue", rgb 100 149 237); (wstr "crimson", rgb 220 20 60);
   (wstr "darkblue", rgb 0 0 139); (wstr "darkcyan", rgb 0 139 139);
   (wstr "darkgray", rgb 169 169 169); (wstr "darkgreen", rgb 0 100 0);
   (wstr "darkgrey", rgb 169 169 169); (wstr "darkkhaki", rgb 189 183 107);
   (wstr "darkmagenta", rgb 139 0 139); (wstr "darkred", rgb 139 0 0);
   (wstr "darksalmon", rgb 233 150 122); (wstr "darkslateblue", rgb 72 61 139);
   (wstr "darkslategrey", rgb 47 79 79); (wstr "darkturquoise", rgb 0 206 209);
   (wstr "darkviolet", rgb 148 0 211); (wstr "dimgray", rgb 105 105 105);
   (wstr "dimgrey", rgb 105 105 105); (wstr "floralwhite", rgb 255 250 240);
   (wstr "forestgreen", rgb 34 139 34); (wstr "fuchsia", rgb 255 0 255);
   (wstr "gainsboro", rgb 220 220 220); (wstr "ghostwhite", rgb 248 248 255);
   (wstr "gray", rgb 190 190 190); (wstr "greenyellow", rgb 173 255 47);
   (wstr "grey", rgb 190 190 190); (wstr "indigo", rgb 75 0 130);
   (wstr "lavender", rgb 230 230 250); (wstr "lawngreen", rgb 124 252 0);
   (wstr "lightcoral", rgb 240 128 128); (wstr "lightgoldenrodyellow", rgb 250 250 210);
   (wstr "lightgray", rgb 211 211 211); (wstr "lightgreen", rgb 144 238 144);
   (wstr "lightgrey", rgb 211 211 211); (wstr "lightseagreen", rgb 32 178 170);
   (wstr "lightslateblue", rgb 132 112 255); (wstr "lightslategray", rgb 119 136 153);
   (wstr "lightslategrey", rgb 119 136 153); (wstr "lime", rgb 0 255 0);
   (wstr "limegreen", rgb 50 205 50); (wstr "linen", rgb 250 240 230);
   (wstr "mediumaquamarine", rgb 102 205 170); (wstr "mediumblue", rgb 0 0 205);
   (wstr "mediumseagreen", rgb 60 179 113); (wstr "mediumslateblue", rgb 123 104 238);
   (wstr "mediumspringgreen", rgb 0 250 154); (wstr "mediumturquoise", rgb 72 209 204);
   (wstr "mediumvioletred", rgb 199 21 133); (wstr "midnightblue", rgb 25 25 112);
   (wstr "mintcream", rgb 245 255 250); (wstr "moccasin", rgb 255 228 181);
   (wstr "navy", rgb 0 0 128); (wstr "navyblue", rgb 0 0 128);
   (wstr "oldlace", rgb 253 245 230); (wstr "olive", rgb 128 128 0);
   (wstr "palegoldenrod", rgb 238 232 170); (wstr "papayawhip", rgb 255 239 213);
   (wstr "peru", rgb 205 133 63); (wstr "powderblue", rgb 176 224 230);
   (wstr "rebeccapurple", rgb 102 51 153); (wstr "saddlebrown", rgb 139 69 19);
   (wstr "sandybrown", rgb 244 164 96); (wstr "silver", rgb 192 192 192);
   (wstr "slategrey", rgb 112 128 144); (wstr "teal", rgb 0 128 128);
   (wstr "violet", rgb 238 130 238); (wstr "webgray", rgb 128 128 128);
   (wstr "webgreen", rgb 0 128 0); (wstr "webgrey", rgb 128 128 128);
   (wstr "webmaroon", rgb 128 0 0); (wstr "webpurple", rgb 128 0 128);
   (wstr "white", rgb 255 255 255); (wstr "whitesmoke", rgb 245 245 245);
   (wstr "x11gray", rgb 190 190 190); (wstr "x11green", rgb 0 255 0);
   (wstr "x11grey", rgb 190 190 190); (wstr "x11maroon", rgb 176 48 96);
   (wstr "x11purple", rgb 160 32 240); (wstr "yellowgreen", rgb 154 205 50)].

(** ** til::presorted_static_map *)

(** [std::less] on the keys: lexicographic order of the characters. *)
Fixpoint str_ltb (a b : wstring) : bool :=
  match a, b with
  | _, [] => false
  | [], _ :: _ => true
  | x :: a', y :: b' => if x <? y then true else if y <? x then false else str_ltb a' b'
  end.

(** [find]: [std::partition_point] is the first pair whose key is not below the
    one looked for; on the sorted array it is found by bisection. *)
Fixpoint partition_point {V} (table : list (wstring * V)) (key : wstring)
    : option (wstring * V) :=
  match table with
  | [] => None
  | p :: table' => if str_ltb p.1 key then partition_point table' key else Some p
  end.

Definition static_map_find {V} (table : list (wstring * V)) (key : wstring) : option V :=
  match partition_point table key with
  | None => None
  | Some p => if str_ltb key p.1 then None else Some p.2
  end.

(** ** Filling tables

    [None] stands for the throw on a table that is too small. *)

Definition InitializeCampbellColorTable (table : list Z) : option (list Z) :=
  if (length table <? 16)%nat then None
  else Some ((color_COLORREF <$> campbellColorTable) ++ drop 16 table).

Definition swap_at (i j : nat) (l : list Z) : list Z :=
  <[i := default 0 (l !! j)]> (<[j := default 0 (l !! i)]> l).

Definition SwapANSIColorOrderForConhost (table : list Z) : option (list Z) :=
  if (length table <? 16)%nat then None
  else Some (swap_at 11 14 (swap_at 9 12 (swap_at 3 6 (swap_at 1 4 table)))).

Definition InitializeCampbellColorTableForConhost (table : list Z) : option (list Z) :=
  if (length table <? 16)%nat then None
  else InitializeCampbellColorTable table ≫= SwapANSIColorOrderForConhost.

Definition Initialize256ColorTable (table : list Z) : option (list Z) :=
  if (length table <? 256)%nat then None
  else Some ((color_COLORREF <$> standardXterm256ColorTable) ++ drop 256 table).

(** ** Colour names *)

(** The scan of the name: the letters, the variant's number and whether a
    variant was seen.  [None] is an early return. *)
Fixpoint scan_color_name (wstr : wstring) (ss : wstring) (variantIndex : Z) (foundVariant : bool)
    : option (wstring * Z * bool) :=
  match wstr with
  | [] => Some (ss, variantIndex, foundVariant)
  | c :: wstr =>
      if c >? 127 then None
      else if (48 <=? c) && (c <=? 57) then
        scan_color_name wstr ss (u64 (u64 (variantIndex * 10) + (c - 48))) true
      else if is_space c then scan_color_name wstr ss variantIndex foundVariant
      else if foundVariant then None
      else scan_color_name wstr (ss ++ [ascii_tolower c]) variantIndex foundVariant
  end.

(** [::base::saturated_cast<uint8_t>]. *)
Definition saturate_u8 (z : Z) : Z := Z.min 255 (Z.max 0 z).

Definition ColorFromXOrgAppColorName (wstr_ : wstring) : option color :=
  '(name, variantIndex, foundVariant) ← scan_color_name wstr_ [] 0 false;
  let fallback :=
    if (bool_decide (name = wstr "gray") || bool_decide (name = wstr "grey")) && foundVariant then
      if variantIndex >? 100 then None
      else
        let component := saturate_u8 (u64 (u64 (variantIndex * 255) + 50) / 100) in
        Some (rgb component component component)
    else static_map_find xorgAppColorTable name in
  match static_map_find xorgAppVariantColorTable name with
  | Some colors =>
      if variantIndex <? Z.of_nat (length colors)
      then Some (default (rgb 0 0 0) (colors !! Z.to_nat variantIndex))
      else fallback
  | None => fallback
  end.

Definition ColorFromXTermColor (string : wstring) : option color :=
  match ColorFromXParseColorSpec string with
  | Some c => Some c
  | None => ColorFromXOrgAppColorName string
  end.

(** ** Palette indices *)

Definition XtermToWindowsIndex (xtermTableEntry : Z) : Z :=
  (if IsFlagSet xtermTableEntry 0x01 then 0x4 else 0x0)
  + (if IsFlagSet xtermTableEntry 0x02 then 0x2 else 0x0)
  + (if IsFlagSet xtermTableEntry 0x04 then 0x1 else 0x0)
  + (if IsFlagSet xtermTableEntry 0x08 then 0x8 else 0x0).

Definition Xterm256ToWindowsIndex (xtermTableEntry : Z) : Z :=
  if xtermTableEntry <? 16 then XtermToWindowsIndex xtermTableEntry else u16 xtermTableEntry.

(** ** Sorted tables *)

Fixpoint keys_sorted {V} (table : list (wstring * V)) : bool :=
  match table with
  | p :: ((q :: _) as table') => str_ltb p.1 q.1 && keys_sorted table'
  | _ => true
  end.

(** The value of a key, by looking at every entry. *)
Fixpoint assoc {V} (table : list (wstring * V)) (key : wstring) : option V :=
  match table with
  | [] => None
  | p :: table' => if bool_decide (p.1 = key) then Some p.2 else assoc table' key
  end.

Lemma str_ltb_trans a b c : str_ltb a b = true → str_ltb b c = true → str_ltb a c = true.
Proof.
  revert b c. induction a as [|x a IH]; intros [|y b] [|z c]; cbn; try done.
  destruct (Z.ltb_spec x y), (Z.ltb_spec y z), (Z.ltb_spec x z); try lia; try done;
    destruct (Z.ltb_spec y x), (Z.ltb_spec z y), (Z.ltb_spec z x); try lia; try done.
  apply IH.
Qed.

Lemma str_ltb_irrefl a : str_ltb a a = false.
Proof. induction a as [|x a IH]; cbn; [done|]. by rewrite Z.ltb_irrefl. Qed.

Lemma str_ltb_total a b : str_ltb a b = false → str_ltb b a = false → a = b.
Proof.
  revert b. induction a as [|x a IH]; intros [|y b]; cbn; try done.
  destruct (Z.ltb_spec x y), (Z.ltb_spec y x); try lia; try done.
  intros Hab Hba. f_equal; [lia|auto].
Qed.

Lemma keys_sorted_below {V} (p : wstring * V) table :
  keys_sorted (p :: table) = true → Forall (λ q, str_ltb p.1 q.1 = true) table.
Proof.
  revert p. induction table as [|q table IH]; intros p; [done|].
  intros [Hpq Hs]%andb_true_iff. constructor; [done|].
  eapply Forall_impl; [by apply IH|]. cbn. intros r Hr. by eapply str_ltb_trans.
Qed.

Lemma assoc_above {V} (table : list (wstring * V)) key :
  Forall (λ q, str_ltb key q.1 = true) table → assoc table key = None.
Proof.
  induction 1 as [|q table Hq _ IH]; cbn; [done|].
  rewrite bool_decide_false; [done|]. intros E. by rewrite E, str_ltb_irrefl in Hq.
Qed.

Lemma static_map_find_assoc {V} (table : list (wstring * V)) key :
  keys_sorted table = true → static_map_find table key = assoc table key.
Proof.
  induction table as [|p table IH]; intros Hs; [done|].
  unfold static_map_find. cbn [partition_point assoc].
  pose proof (keys_sorted_below _ _ Hs) as Hb.
  assert (keys_sorted table = true) as Hs' by (destruct table; [done|by apply andb_true_iff in Hs as [_ ?]]).
  destruct (str_ltb p.1 key) eqn:Hp.
  - rewrite bool_decide_false by (intros E; by rewrite E, str_ltb_irrefl in Hp). by apply IH.
  - destruct (str_ltb key p.1) eqn:Hk.
    + rewrite bool_decide_false by (intros E; by rewrite E, str_ltb_irrefl in Hk). symmetry.
      apply assoc_above. eapply Forall_impl; [exact Hb|]. cbn. intros q Hq. by eapply str_ltb_trans.
    + by rewrite bool_decide_true by by apply str_ltb_total.
Qed.

(** The tables of colour names are sorted by their keys, as the bisection of
    the map needs them, so that every name is found with its own value and no
    other string is found. *)
Theorem color_names_found (key : wstring) :
  keys_sorted xorgAppColorTable = true ∧ keys_sorted xorgAppVariantColorTable = true
  ∧ static_map_find xorgAppColorTable key = assoc xorgAppColorTable key
  ∧ static_map_find xorgAppVariantColorTable key = assoc xorgAppVariantColorTable key.
Proof.
  assert (keys_sorted xorgAppColorTable = true ∧ keys_sorted xorgAppVariantColorTable = true)
    as [H1 H2] by (split; vm_compute; reflexivity).
  split; [done|]. split; [done|]. split; by apply static_map_find_assoc.
Qed.

Lemma ascii_tolower_class c :
  (ascii_tolower c >? 127) = (c >? 127)
  ∧ ((48 <=? ascii_tolower c) && (ascii_tolower c <=? 57)) = ((48 <=? c) && (c <=? 57))
  ∧ is_space (ascii_tolower c) = is_space c
  ∧ ascii_tolower (ascii_tolower c) = ascii_tolower c
  ∧ ((48 <=? c) && (c <=? 57) = true → ascii_tolower c = c).
Proof. unfold ascii_tolower, is_space. repeat split; repeat case_match; lia. Qed.

Lemma scan_color_name_normalized wstr ss i found :
  scan_color_name (ascii_tolower <$> filter (λ c, is_space c = false) wstr) ss i found
  = scan_color_name wstr ss i found.
Proof.
  revert ss i found. induction wstr as [|c w IH]; intros ss i found; [done|].
  rewrite filter_cons. destruct (ascii_tolower_class c) as (H1 & H2 & H3 & H4 & H5).
  case_decide as Hs; cbn [fmap list_fmap scan_color_name].
  - rewrite H1, H2, H3, H4. destruct (c >? 127); [done|].
    destruct ((48 <=? c) && (c <=? 57)) eqn:Hd; [by rewrite H5, IH|].
    rewrite Hs. destruct found; [done|apply IH].
  - apply not_false_is_true in Hs. rewrite Hs.
    assert ((c >? 127) = false) as -> by (unfold is_space in Hs; lia).
    assert ((48 <=? c) && (c <=? 57) = false) as -> by (unfold is_space in Hs; lia). apply IH.
Qed.

(** Colour names are looked up without regard to case and to white space. *)
Theorem color_name_insensitive (name : wstring) :
  ColorFromXOrgAppColorName (ascii_tolower <$> filter (λ c, is_space c = false) name)
  = ColorFromXOrgAppColorName name.
Proof. unfold ColorFromXOrgAppColorName. by rewrite scan_color_name_normalized. Qed.

(** Every name of the plain table that has no digit in it gives its colour,
    and the five that have one ("x11" and a colour) give none: the scan takes
    the digits for a variant. *)
Theorem color_names_with_digits_unreachable :
  forallb (λ p, bool_decide (ColorFromXOrgAppColorName p.1
                             = if existsb _isNumber p.1 then None else Some p.2))
    xorgAppColorTable = true
  ∧ (filter (λ p, existsb _isNumber p.1 = true) xorgAppColorTable).*1
    = [wstr "x11gray"; wstr "x11green"; wstr "x11grey"; wstr "x11maroon"; wstr "x11purple"].
Proof. split; vm_compute; reflexivity. Qed.

(** ** Palette indices *)

Lemma XtermToWindowsIndex_involutive :
  ∀ i, 0 <= i < 256 → Xterm256ToWindowsIndex (Xterm256ToWindowsIndex i) = i.
Proof.
  apply (forall_byte (λ i, Xterm256ToWindowsIndex (Xterm256ToWindowsIndex i) = i)).
  vm_compute. reflexivity.
Qed.

Lemma campbell_conhost table :
  (16 <= length table)%nat →
  ∃ t, InitializeCampbellColorTableForConhost table = Some t
    ∧ ∀ i, 0 <= i < 16 → t !! Z.to_nat (XtermToWindowsIndex i)
                         = (color_COLORREF <$> campbellColorTable) !! Z.to_nat i.
Proof.
  intros Hl. unfold InitializeCampbellColorTableForConhost, InitializeCampbellColorTable.
  destruct (Nat.ltb_spec (length table) 16); [lia|]. cbn [mbind option_bind].
  unfold SwapANSIColorOrderForConhost. rewrite length_app.
  change (length (color_COLORREF <$> campbellColorTable)) with 16%nat.
  cbn [Nat.add Nat.ltb Nat.leb]. eexists. split; [reflexivity|]. intros i Hi.
  assert (i ∈ seqZ 0 16) as Hin by (apply elem_of_seqZ; lia). generalize (drop 16 table). intros d.
  apply list_elem_of_In in Hin. change (seqZ 0 16) with [0;1;2;3;4;5;6;7;8;9;10;11;12;13;14;15] in Hin.
  cbn [In] in Hin. repeat (destruct Hin as [<-|Hin]; [vm_compute; reflexivity|]). done.
Qed.

(** The palette conversions agree: the index conversion between the two
    colour orders undoes itself on all 256 indices, and the console's table
    holds at the converted index the colour that the standard table has at the
    index. *)
Theorem palette_orders_agree (table : list Z) :
  (16 <= length table)%nat →
  (∀ i, 0 <= i < 256 → Xterm256ToWindowsIndex (Xterm256ToWindowsIndex i) = i)
  ∧ ∃ t, InitializeCampbellColorTableForConhost table = Some t
    ∧ ∀ i, 0 <= i < 16 → t !! Z.to_nat (XtermToWindowsIndex i)
                         = (color_COLORREF <$> campbellColorTable) !! Z.to_nat i.
Proof. intros Hl. split; [apply XtermToWindowsIndex_involutive|by apply campbell_conhost]. Qed.

Lemma palette_orders_agree_witness :
  Xterm256ToWindowsIndex (Xterm256ToWindowsIndex 12) = 12.
Proof. refine (proj1 (palette_orders_agree (replicate 16 0) _) 12 _); [cbn; lia|lia]. Defined.
