(* ===== verification/Base64.v ===== *)
(** Base64 as the clipboard sequence (OSC 52) uses it:
    [src/src/terminal/parser/base64.cpp].

    The conversion of the decoded UTF-8 bytes, [til::u8u16], ends in the Windows
    API [MultiByteToWideChar] and is a parameter. *)

From stdpp Require Import strings.
From S2P Require Import Prelude DispatchTypes.

Definition base64Chars : wstring :=
  wstr "ABCDEFGHIJKLMNOPQRSTUVWXYZabcdefghijklmnopqrstuvwxyz0123456789+/".
Definition padChar : wchar := 61.

Definition s_IsSpace (ch : wchar) : bool := (ch =? 13) || (ch =? 10).

(** ** s_Encode *)

(** [base64Chars[i]]: the array ends with a NUL at index 64; an index beyond it
    is undefined behaviour, written as [None]. *)
Definition base64_char (i : Z) : option wchar := (base64Chars ++ [0]) !! Z.to_nat i.

Fixpoint s_Encode (src : wstring) : option wstring :=
  match src with
  | i0 :: i1 :: i2 :: src' =>
      c0 ← base64_char (Z.shiftr i0 2);
      c1 ← base64_char (Z.lor (Z.shiftl (Z.land i0 0x03) 4) (Z.shiftr i1 4));
      c2 ← base64_char (Z.lor (Z.shiftl (Z.land i1 0x0f) 2) (Z.shiftr i2 6));
      c3 ← base64_char (Z.land i2 0x3f);
      dst ← s_Encode src';
      Some (c0 :: c1 :: c2 :: c3 :: dst)
  | [i0; i1] =>
      c0 ← base64_char (Z.shiftr i0 2);
      c1 ← base64_char (Z.lor (Z.shiftl (Z.land i0 0x03) 4) (Z.shiftr i1 4));
      c2 ← base64_char (Z.shiftl (Z.land i1 0x0f) 2);
      Some [c0; c1; c2; padChar]
  | [i0] =>
      c0 ← base64_char (Z.shiftr i0 2);
      c1 ← base64_char (Z.shiftl (Z.land i0 0x03) 4);
      Some [c0; c1; padChar; padChar]
  | [] => Some []
  end.

(** ** s_Decode *)

Fixpoint index_of (c : Z) (l : wstring) (i : Z) : option Z :=
  match l with
  | [] => None
  | d :: l' => if d =? c then Some i else index_of c l' (i + 1)
  end.

(** [strchr(base64Chars, wch)]: the character is converted to [char], and the
    terminating NUL is part of the string. *)
Definition strchr_base64 (wch : wchar) : option Z := index_of (u8 wch) (base64Chars ++ [0]) 0.

(** The main loop: the state, the byte being put together and the bytes so far.
    It stops at the end ([inl]) or at a padding character ([inr] with what
    follows it); [None] is a character that is not base64. *)
Fixpoint s_Decode_loop (src : wstring) (state tmp : Z) (mbStr : list Z)
    : option (Z * list Z * option wstring) :=
  match src with
  | [] => Some (state, mbStr, None)
  | ch :: src' =>
      if s_IsSpace ch then s_Decode_loop src' state tmp mbStr
      else if ch =? padChar then Some (state, mbStr, Some src')
      else
        match strchr_base64 ch with
        | None => None
        | Some pos =>
            if state =? 0 then s_Decode_loop src' 1 (u8 (Z.shiftl pos 2)) mbStr
            else if state =? 1 then
              s_Decode_loop src' 2 (u8 (Z.shiftl (Z.land pos 0x0f) 4))
                (mbStr ++ [u8 (Z.lor tmp (Z.shiftr pos 4))])
            else if state =? 2 then
              s_Decode_loop src' 3 (u8 (Z.shiftl (Z.land pos 0x03) 6))
                (mbStr ++ [u8 (Z.lor tmp (Z.shiftr pos 2))])
            else s_Decode_loop src' 0 tmp (mbStr ++ [u8 (Z.lor tmp pos)])
        end
  end.

Fixpoint skip_spaces (src : wstring) : wstring :=
  match src with
  | ch :: src' => if s_IsSpace ch then skip_spaces src' else src
  | [] => []
  end.

(** What must follow the first padding character. *)
Definition padding_ok (state : Z) (rest : wstring) : bool :=
  if (state =? 0) || (state =? 1) then false
  else if state =? 2 then
    match skip_spaces rest with
    | ch :: rest' => (ch =? padChar) && forallb s_IsSpace rest'
    | [] => false
    end
  else forallb s_IsSpace rest.

(** The bytes of the string, before they are converted to UTF-16. *)
Definition s_Decode_bytes (src : wstring) : option (list Z) :=
  if Z.of_nat (length src) / 4 * 3 =? 0 then None
  else
    '(state, mbStr, rest) ← s_Decode_loop src 0 0 [];
    match rest with
    | Some rest => if padding_ok state rest then Some mbStr else None
    | None => if state =? 0 then Some mbStr else None
    end.

(** [u8u16] is [None] where [til::u8u16] fails. *)
Definition s_Decode (u8u16 : list Z → option wstring) (src : wstring) : option wstring :=
  s_Decode_bytes src ≫= u8u16.

(** ** Lemmas *)

(** An alphabet character decodes to its index. *)
Lemma strchr_base64_char i :
  0 <= i < 64 →
  ∃ c, base64_char i = Some c ∧ strchr_base64 c = Some i ∧ s_IsSpace c = false ∧ (c =? padChar) = false.
Proof.
  intros Hi.
  assert (forallb (λ i, match base64_char i with
    | Some c => bool_decide (strchr_base64 c = Some i) && negb (s_IsSpace c) && negb (c =? padChar)
    | None => false end) (seqZ 0 64) = true) as Hall by by vm_compute.
  rewrite forallb_forall in Hall. specialize (Hall i).
  destruct (base64_char i) as [c|].
  - assert (bool_decide (strchr_base64 c = Some i) && negb (s_IsSpace c) && negb (c =? padChar) = true)
      as Hc by (apply Hall, list_elem_of_In, elem_of_seqZ; lia).
    exists c. apply andb_true_iff in Hc as [[Hs Hsp]%andb_true_iff Hp].
    apply bool_decide_eq_true in Hs. apply negb_true_iff in Hsp, Hp. done.
  - discriminate Hall. apply list_elem_of_In, elem_of_seqZ. lia.
Qed.

(** The six-bit groups of one to three bytes, and the bytes back from them. *)
Definition sextets (b0 b1 b2 : Z) : list Z :=
  [Z.shiftr b0 2; Z.lor (Z.shiftl (Z.land b0 0x03) 4) (Z.shiftr b1 4);
   Z.lor (Z.shiftl (Z.land b1 0x0f) 2) (Z.shiftr b2 6); Z.land b2 0x3f].

(** The groups are six bits wide. *)
Lemma sextets_range b0 b1 b2 :
  0 <= b0 < 256 → 0 <= b1 < 256 → 0 <= b2 < 256 → Forall (λ i, 0 <= i < 64) (sextets b0 b1 b2).
Proof.
  intros H0 H1 H2. unfold sextets.
  change 0x03 with (Z.ones 2). change 0x0f with (Z.ones 4). change 0x3f with (Z.ones 6).
  rewrite !Z.land_ones, !Z.shiftr_div_pow2 by done.
  rewrite !lor_shiftl_add by (try split; Z.div_mod_to_equations; lia).
  repeat constructor; Z.div_mod_to_equations; lia.
Qed.

(** The bytes that the states of the decoder put together. *)
Lemma byte0_of_sextets b0 h :
  0 <= b0 < 256 → 0 <= h < 16 →
  u8 (Z.lor (u8 (Z.shiftl (Z.shiftr b0 2) 2))
    (Z.shiftr (Z.lor (Z.shiftl (Z.land b0 0x03) 4) h) 4)) = b0.
Proof.
  intros H0 H1. change 0x03 with (Z.ones 2).
  rewrite Z.land_ones, (lor_shiftl_add _ 4) by lia. rewrite !Z.shiftr_div_pow2 by done.
  rewrite (wrapu_small 8 (Z.shiftl _ _)) by
    (rewrite Z.shiftl_mul_pow2 by done; split; Z.div_mod_to_equations; lia).
  rewrite lor_shiftl_add by (try split; Z.div_mod_to_equations; lia).
  rewrite wrapu_small; Z.div_mod_to_equations; lia.
Qed.

Lemma byte1_of_sextets g b1 h :
  0 <= b1 < 256 → 0 <= h < 4 →
  u8 (Z.lor (u8 (Z.shiftl (Z.land (Z.lor (Z.shiftl g 4) (Z.shiftr b1 4)) 0x0f) 4))
    (Z.shiftr (Z.lor (Z.shiftl (Z.land b1 0x0f) 2) h) 2)) = b1.
Proof.
  intros H1 H2. change 0x0f with (Z.ones 4).
  rewrite !Z.land_ones by done. rewrite (Z.shiftr_div_pow2 b1) by done.
  rewrite (lor_shiftl_add g 4), (lor_shiftl_add _ 2) by (try split; Z.div_mod_to_equations; lia).
  rewrite !Z.shiftr_div_pow2 by done.
  rewrite (wrapu_small 8 (Z.shiftl _ _)) by
    (rewrite Z.shiftl_mul_pow2 by done; split; Z.div_mod_to_equations; lia).
  rewrite lor_shiftl_add by (try split; Z.div_mod_to_equations; lia).
  rewrite wrapu_small; Z.div_mod_to_equations; lia.
Qed.

Lemma byte2_of_sextets g b2 :
  0 <= b2 < 256 →
  u8 (Z.lor (u8 (Z.shiftl (Z.land (Z.lor (Z.shiftl g 2) (Z.shiftr b2 6)) 0x03) 6))
    (Z.land b2 0x3f)) = b2.
Proof.
  intros H2. change 0x03 with (Z.ones 2). change 0x3f with (Z.ones 6).
  rewrite !Z.land_ones by done. rewrite (Z.shiftr_div_pow2 b2) by done.
  rewrite (lor_shiftl_add g 2) by (try split; Z.div_mod_to_equations; lia).
  rewrite (wrapu_small 8 (Z.shiftl _ _)) by
    (rewrite Z.shiftl_mul_pow2 by done; split; Z.div_mod_to_equations; lia).
  rewrite lor_shiftl_add by (try split; Z.div_mod_to_equations; lia).
  rewrite wrapu_small; Z.div_mod_to_equations; lia.
Qed.

(** What the decoder does with one alphabet character in each state. *)
Lemma s_Decode_step c pos rest state tmp acc :
  strchr_base64 c = Some pos → s_IsSpace c = false → (c =? padChar) = false →
  s_Decode_loop (c :: rest) state tmp acc =
    if state =? 0 then s_Decode_loop rest 1 (u8 (Z.shiftl pos 2)) acc
    else if state =? 1 then
      s_Decode_loop rest 2 (u8 (Z.shiftl (Z.land pos 0x0f) 4)) (acc ++ [u8 (Z.lor tmp (Z.shiftr pos 4))])
    else if state =? 2 then
      s_Decode_loop rest 3 (u8 (Z.shiftl (Z.land pos 0x03) 6)) (acc ++ [u8 (Z.lor tmp (Z.shiftr pos 2))])
    else s_Decode_loop rest 0 tmp (acc ++ [u8 (Z.lor tmp pos)]).
Proof. intros Hs Hsp Hp. cbn [s_Decode_loop]. by rewrite Hsp, Hp, Hs. Qed.

Ltac sextet i c :=
  let Hc := fresh "Hc" in let Hs := fresh "Hs" in let Hsp := fresh "Hsp" in let Hp := fresh "Hp" in
  destruct (strchr_base64_char i) as (c & Hc & Hs & Hsp & Hp); [done|];
  rewrite ?Hc; cbn [mbind option_bind].

(** Encoding the bytes and decoding the text from the initial state gives the
    bytes back, and padding that is accepted. *)
Definition decodes (src : list Z) (tmp : Z) (acc : list Z) : Prop :=
  ∃ e, s_Encode src = Some e ∧ (length src <= length e)%nat ∧ (src ≠ [] → (4 <= length e)%nat) ∧
    ∃ state rest, s_Decode_loop e 0 tmp acc = Some (state, acc ++ src, rest) ∧
      match rest with Some rest => padding_ok state rest = true | None => state = 0 end.

Lemma decodes_nil tmp acc : decodes [] tmp acc.
Proof. exists []. rewrite app_nil_r. repeat (split; [done|]). by exists 0, None. Qed.

Lemma decodes_one b0 tmp acc : 0 <= b0 < 256 → decodes [b0] tmp acc.
Proof.
  intros H0.
  pose proof (sextets_range b0 0 0 H0 ltac:(lia) ltac:(lia)) as Hr. unfold sextets in Hr.
  rewrite !Forall_cons in Hr. destruct Hr as (R0 & R1 & _). cbn [Z.shiftr] in R1.
  change (Z.shiftr 0 4) with 0 in R1. rewrite Z.lor_0_r in R1.
  unfold decodes. cbn [s_Encode]. sextet (Z.shiftr b0 2) c0. sextet (Z.shiftl (Z.land b0 0x03) 4) c1.
  eexists. split; [done|]. split; [cbn; lia|]. split; [cbn; lia|].
  rewrite (s_Decode_step c0 _ _ _ _ _ Hs Hsp Hp). cbn [Z.eqb Pos.eqb].
  rewrite (s_Decode_step c1 _ _ _ _ _ Hs0 Hsp0 Hp0). cbn -[wrapu Z.lor Z.shiftl Z.shiftr Z.land].
  exists 2, (Some [padChar]). split; [|done]. do 4 f_equal.
  pose proof (byte0_of_sextets b0 0 H0 ltac:(lia)) as Hz. rewrite Z.lor_0_r in Hz. by rewrite Hz.
Qed.

Lemma decodes_two b0 b1 tmp acc : 0 <= b0 < 256 → 0 <= b1 < 256 → decodes [b0; b1] tmp acc.
Proof.
  intros H0 H1.
  pose proof (sextets_range b0 b1 0 H0 H1 ltac:(lia)) as Hr. unfold sextets in Hr.
  rewrite !Forall_cons in Hr. destruct Hr as (R0 & R1 & R2 & _).
  change (Z.shiftr 0 6) with 0 in R2. rewrite Z.lor_0_r in R2.
  unfold decodes. cbn [s_Encode]. sextet (Z.shiftr b0 2) c0.
  sextet (Z.lor (Z.shiftl (Z.land b0 0x03) 4) (Z.shiftr b1 4)) c1.
  sextet (Z.shiftl (Z.land b1 0x0f) 2) c2.
  eexists. split; [done|]. split; [cbn; lia|]. split; [cbn; lia|].
  rewrite (s_Decode_step c0 _ _ _ _ _ Hs Hsp Hp). cbn [Z.eqb Pos.eqb].
  rewrite (s_Decode_step c1 _ _ _ _ _ Hs0 Hsp0 Hp0). cbn [Z.eqb Pos.eqb].
  rewrite (s_Decode_step c2 _ _ _ _ _ Hs1 Hsp1 Hp1).
  cbn -[wrapu Z.lor Z.shiftl Z.shiftr Z.land].
  exists 3, (Some []). split; [|done]. rewrite <-app_assoc. do 4 f_equal.
  pose proof (byte1_of_sextets (Z.land b0 0x03) b1 0 H1 ltac:(lia)) as Hz.
  rewrite Z.lor_0_r in Hz. cbn [app]. rewrite Hz, byte0_of_sextets; [done|done|].
  rewrite Z.shiftr_div_pow2 by done. Z.div_mod_to_equations; lia.
Qed.

(** A whole quantum goes before what the rest decodes to. *)
Lemma decodes_three b0 b1 b2 src tmp acc :
  0 <= b0 < 256 → 0 <= b1 < 256 → 0 <= b2 < 256 →
  (∀ tmp acc, decodes src tmp acc) → decodes (b0 :: b1 :: b2 :: src) tmp acc.
Proof.
  intros H0 H1 H2 IH.
  pose proof (sextets_range b0 b1 b2 H0 H1 H2) as Hr. unfold sextets in Hr.
  rewrite !Forall_cons in Hr. destruct Hr as (R0 & R1 & R2 & R3 & _).
  destruct (IH (u8 (Z.shiftl (Z.land (Z.lor (Z.shiftl (Z.land b1 0x0f) 2) (Z.shiftr b2 6)) 0x03) 6))
    (acc ++ [b0; b1; b2])) as (e & He & Hle & _ & st & rest & Hl & Hrest).
  unfold decodes. cbn [s_Encode]. sextet (Z.shiftr b0 2) c0.
  sextet (Z.lor (Z.shiftl (Z.land b0 0x03) 4) (Z.shiftr b1 4)) c1.
  sextet (Z.lor (Z.shiftl (Z.land b1 0x0f) 2) (Z.shiftr b2 6)) c2.
  sextet (Z.land b2 0x3f) c3. rewrite He. cbn [mbind option_bind].
  eexists. split; [done|]. split; [cbn; lia|]. split; [cbn; lia|].
  exists st, rest. split; [|done].
  rewrite (s_Decode_step c0 _ _ _ _ _ Hs Hsp Hp). cbn [Z.eqb Pos.eqb].
  rewrite (s_Decode_step c1 _ _ _ _ _ Hs0 Hsp0 Hp0). cbn [Z.eqb Pos.eqb].
  rewrite (s_Decode_step c2 _ _ _ _ _ Hs1 Hsp1 Hp1). cbn [Z.eqb Pos.eqb].
  rewrite (s_Decode_step c3 _ _ _ _ _ Hs2 Hsp2 Hp2). cbn [Z.eqb Pos.eqb].
  rewrite byte2_of_sextets, byte1_of_sextets, byte0_of_sextets;
    try done; try (rewrite Z.shiftr_div_pow2 by done; Z.div_mod_to_equations; lia).
  rewrite <-!app_assoc. cbn [app]. rewrite Hl. by rewrite <-app_assoc.
Qed.

Lemma s_Decode_loop_Encode n src tmp acc :
  (length src <= n)%nat → Forall (λ b, 0 <= b < 256) src → decodes src tmp acc.
Proof.
  revert src tmp acc. induction n as [|n IH]; intros [|b0 [|b1 [|b2 src]]] tmp acc Hlen Hb;
    rewrite ?Forall_cons in Hb; cbn in Hlen; try lia; try apply decodes_nil.
  - by apply decodes_one; destruct Hb.
  - by apply decodes_two; destruct Hb as (? & ? & _).
  - destruct Hb as (H0 & H1 & H2 & Hb). apply decodes_three; [done..|].
    intros. apply IH; [lia|done].
Qed.

Lemma s_Decode_bytes_Encode src :
  Forall (λ b, 0 <= b < 256) src → src ≠ [] → (s_Encode src ≫= s_Decode_bytes) = Some src.
Proof.
  intros Hb Hne.
  destruct (s_Decode_loop_Encode (length src) src 0 [] ltac:(lia) Hb)
    as (e & -> & _ & H4 & st & rest & Hl & Hrest).
  cbn [mbind option_bind]. unfold s_Decode_bytes. rewrite Hl. specialize (H4 Hne).
  destruct (Z.eqb_spec (Z.of_nat (length e) / 4 * 3) 0).
  { exfalso. Z.div_mod_to_equations. lia. }
  cbn. destruct rest as [rest|]; [by rewrite Hrest|]. by subst.
Qed.

(** The base64 text of any non-empty string of bytes is decoded to those
    bytes, and the whole decoder gives their conversion from UTF-8. *)
Theorem base64_round_trip (u8u16 : list Z → option wstring) (src : list Z) :
  Forall (λ b, 0 <= b < 256) src → src ≠ [] →
  ∃ text, s_Encode src = Some text ∧ s_Decode_bytes text = Some src
    ∧ s_Decode u8u16 text = u8u16 src.
Proof.
  intros Hb Hne. pose proof (s_Decode_bytes_Encode src Hb Hne) as Hr.
  destruct (s_Encode src) as [text|]; [|done]. cbn in Hr. exists text.
  split; [done|]. split; [done|]. unfold s_Decode. by rewrite Hr.
Qed.

Lemma base64_round_trip_witness :
  ∃ text, s_Encode [102; 111; 111] = Some text ∧ s_Decode_bytes text = Some [102; 111; 111]
    ∧ s_Decode Some text = Some [102; 111; 111].
Proof.
  apply (base64_round_trip Some [102; 111; 111]); [|discriminate].
  apply (bool_decide_unpack _). vm_compute. exact I.
Defined.

(** The decoder looks at the low byte of a character only: U+0141 is taken
    for the letter A. *)
Theorem base64_wide_character_accepted :
  s_Decode_bytes [0x141; 0x51; 0x3D; 0x3D] = s_Decode_bytes [0x41; 0x51; 0x3D; 0x3D]
  ∧ s_Decode_bytes [0x41; 0x51; 0x3D; 0x3D] = Some [1].
Proof. split; vm_compute; reflexivity. Qed.
