(* ===== verification/OutputEngine.v ===== *)
(** The output engine: [src/src/terminal/parser/OutputStateMachineEngine.cpp]
    and [.hpp], which turns the parser's actions into calls of the terminal
    dispatch ([src/src/terminal/adapter/ITermDispatch.hpp]).

    The dispatch and the connection to an outer terminal are interfaces
    (classes [ITermDispatch], [ITerminalOutputConnection]). *)

From Stdlib Require Import Ascii.
From stdpp Require Import strings.
From S2P Require Import Prelude DispatchTypes StateMachine Utils ColorTable Base64.
Import AsciiChars.

(** ** ITermDispatch *)

Inductive LineFeedType := WithReturn | WithoutReturn | DependsOnMode.

(** The methods of the interface that the engine calls, with their arguments. *)
Inductive DispatchCall :=
  | Print (c : wchar)
  | PrintString (str : wstring)
  | CursorUp (n : Z) | CursorDown (n : Z) | CursorForward (n : Z) | CursorBackward (n : Z)
  | CursorNextLine (n : Z) | CursorPrevLine (n : Z)
  | CursorHorizontalPositionAbsolute (n : Z) | VerticalLinePositionAbsolute (n : Z)
  | HorizontalPositionRelative (n : Z) | VerticalPositionRelative (n : Z)
  | CursorPosition (line column : Z)
  | CursorSaveState | CursorRestoreState
  | InsertCharacter (n : Z) | DeleteCharacter (n : Z)
  | ScrollUp (n : Z) | ScrollDown (n : Z) | InsertLine (n : Z) | DeleteLine (n : Z)
  | SetKeypadMode (applicationMode : bool)
  | SetTopBottomScrollingMargins (top bottom : Z)
  | WarningBell | CarriageReturn | LineFeed (t : LineFeedType) | ReverseLineFeed
  | SetWindowTitle (title : wstring)
  | HorizontalTabSet | ForwardTab (n : Z) | BackwardsTab (n : Z) | TabClear (t : Z)
  | SetColorTableEntry (tableIndex color : Z)
  | SetDefaultForeground (color : Z) | SetDefaultBackground (color : Z)
  | EraseInDisplay (t : Z) | EraseInLine (t : Z) | EraseCharacters (n : Z)
  | SetGraphicsRendition (options : VTParameters)
  | SetLineRendition (r : LineRendition)
  | PushGraphicsRendition (options : VTParameters) | PopGraphicsRendition
  | SetMode (param : Z) | ResetMode (param : Z)
  | DeviceStatusReport (t : Z) | DeviceAttributes | SecondaryDeviceAttributes
  | TertiaryDeviceAttributes | Vt52DeviceAttributes | RequestTerminalParameters (p : Z)
  | DesignateCodingSystem (id : Z) | Designate94Charset (g id : Z) | Designate96Charset (g id : Z)
  | LockingShift (g : Z) | LockingShiftRight (g : Z) | SingleShift (g : Z)
  | SoftReset | HardReset | ScreenAlignmentPattern
  | SetCursorStyle (s : Z) | SetCursorColor (color : Z)
  | SetClipboard (content : wstring)
  | WindowManipulation (f : Z) (p1 p2 : VTParameter)
  | AddHyperlink (uri params : wstring) | EndHyperlink
  | DoConEmuAction (str : wstring).

(** A dispatch handles a call on its own state and on the parser's ANSI mode,
    which DECANM changes.  It returns whether it handled the call. *)
Class ITermDispatch (D : Type) := {
  dispatch : DispatchCall → D → bool → bool * D * bool
}.

(** [ITerminalOutputConnection::WriteTerminalW] returns an [HRESULT]. *)
Class ITerminalOutputConnection (T : Type) := {
  WriteTerminalW : wstring → T → Z * T
}.

(** [til::u8u16], the conversion of the decoded clipboard text. *)
Class Utf8Converter := u8u16 : list Z → option wstring.

Definition SUCCEEDED (hr : Z) : bool := 0 <=? hr.

(** ** The engine's state *)

Record OutputStateMachineEngine (D T : Type) := mkOutputEngine {
  _dispatch : D;
  _pTtyConnection : option T;
  _pfnFlushToTerminal : bool; (* whether the callback is set *)
  _lastPrintedChar : wchar
}.
Arguments mkOutputEngine {D T} _ _ _ _.
Arguments _dispatch {D T} _.
Arguments _pTtyConnection {D T} _.
Arguments _pfnFlushToTerminal {D T} _.
Arguments _lastPrintedChar {D T} _.

(** A [switch] over codes that are pairwise different. *)
Fixpoint switch {A} (code : Z) (cases : list (Z * A)) (otherwise : A) : A :=
  match cases with
  | [] => otherwise
  | (c, a) :: cases' => if code =? c then a else switch code cases' otherwise
  end.

(** ** Pure helpers for OSC strings *)

Definition _GetOscTitle (string : wstring) : bool * wstring :=
  (negb (bool_decide (string = [])), string).

Fixpoint osc_color_pairs (parts : list wstring) : list (Z * Z) :=
  match parts with
  | i :: c :: parts' =>
      match StringToUint i, ColorFromXTermColor c with
      | Some tableIndex, Some col => (tableIndex, color_COLORREF col) :: osc_color_pairs parts'
      | _, _ => osc_color_pairs parts'
      end
  | _ => []
  end.

(** The indexes and colours are kept as pairs: the two vectors of the source
    always have the same length. *)
Definition _GetOscSetColorTable (string : wstring) : bool * list (Z * Z) :=
  let parts := SplitString string 59 in
  if (length parts <? 2)%nat then (false, [])
  else let pairs := osc_color_pairs parts in (negb (bool_decide (pairs = [])), pairs).

Definition _GetOscSetColor (string : wstring) : bool * list Z :=
  let parts := SplitString string 59 in
  if (length parts <? 1)%nat then (false, [])
  else
    let newRgbs := (λ p, match ColorFromXTermColor p with
                         | Some c => color_COLORREF c
                         | None => INVALID_COLOR
                         end) <$> parts in
    (negb (bool_decide (newRgbs = [])), newRgbs).

(** [find] of a substring: the position of its first occurrence. *)
Fixpoint find_sub (needle l : wstring) : option nat :=
  if bool_decide (take (length needle) l = needle) then Some 0%nat
  else match l with
       | [] => None
       | _ :: l' => S <$> find_sub needle l'
       end.

Definition hyperlinkIDParameter : wstring := wstr "id=".

(** The success, [params] and [uri]. *)
Definition _ParseHyperlink (string : wstring) : bool * wstring * wstring :=
  if bool_decide (string = wstr ";") then (true, [], [])
  else
    match find_char 59 string with
    | Some midPos =>
        let uri := drop (midPos + 1) string in
        let paramParts := SplitString (take midPos string) 58 in
        let params := fold_left (λ params part,
          match find_sub hyperlinkIDParameter part with
          | Some idPos => drop (idPos + length hyperlinkIDParameter) part
          | None => params
          end) paramParts [] in
        (true, params, uri)
    | None => (false, [], [])
    end.

(** ** The engine *)

Section engine.
Context {D T : Type} `{ITermDispatch D} `{ITerminalOutputConnection T} `{Utf8Converter}.

Abbreviation Engine := (OutputStateMachineEngine D T).
Abbreviation View := (EngineView Engine).
Abbreviation M := (prog View).

(** The content to set, or [None] for a query of the clipboard. *)
Definition _GetOscSetClipboard (string : wstring) : option (option wstring) :=
  match find_char 59 string with
  | Some pos =>
      let substr := drop (pos + 1) string in
      if bool_decide (substr = wstr "?") then Some None
      else Some <$> s_Decode u8u16 substr
  | None => None
  end.

(** A call of a method of [_dispatch]. *)
Definition disp (c : DispatchCall) : M bool := λ v,
  let e := ev_engine v in
  let '(r, d, ansi) := dispatch c (_dispatch e) (ev_isInAnsiMode v) in
  Ok r (mkView (ev_cachedSequence v) ansi
    (mkOutputEngine d (_pTtyConnection e) (_pfnFlushToTerminal e) (_lastPrintedChar e))).

Definition set_lastPrintedChar (c : wchar) : M unit :=
  modify (λ v, let e := ev_engine v in
    mkView (ev_cachedSequence v) (ev_isInAnsiMode v)
      (mkOutputEngine (_dispatch e) (_pTtyConnection e) (_pfnFlushToTerminal e) c)).

Definition _ClearLastChar : M unit := set_lastPrintedChar NUL.

(** [if (_pfnFlushToTerminal != nullptr && !success) success = _pfnFlushToTerminal();] *)
Definition flush_if_failed (flush : M bool) (success : bool) : M bool :=
  hasFlush ← gets (λ v, _pfnFlushToTerminal (ev_engine v));
  if hasFlush && negb success then flush else mret success.

Definition SetTerminalConnection (pTtyConnection : option T) (pfnFlushToTerminal : bool)
    (e : Engine) : Engine :=
  mkOutputEngine (_dispatch e) pTtyConnection pfnFlushToTerminal (_lastPrintedChar e).

Definition OutputEngine_ActionExecute (wch : wchar) (flush : M bool) : M bool :=
  (if wch =? NUL then mret tt
   else if wch =? BEL then
     _ ← disp WarningBell;
     hasFlush ← gets (λ v, _pfnFlushToTerminal (ev_engine v));
     if (hasFlush : bool) then _ ← flush; mret tt else mret tt
   else if wch =? BS then _ ← disp (CursorBackward 1); mret tt
   else if wch =? TAB then _ ← disp (ForwardTab 1); mret tt
   else if wch =? CR then _ ← disp CarriageReturn; mret tt
   else if (wch =? LF) || (wch =? FF) || (wch =? VT) then
     _ ← disp (LineFeed DependsOnMode); mret tt
   else if wch =? SI then _ ← disp (LockingShift 0); mret tt
   else if wch =? SO then _ ← disp (LockingShift 1); mret tt
   else _ ← disp (Print wch); mret tt);;
  _ClearLastChar;;
  mret true.

Definition OutputEngine_ActionPrint (wch : wchar) (flush : M bool) : M bool :=
  (if SPC <=? wch then set_lastPrintedChar wch else mret tt);;
  _ ← disp (Print wch);
  mret true.

Definition OutputEngine_ActionPrintString (string : wstring) (flush : M bool) : M bool :=
  match string with
  | [] => mret true
  | _ =>
      let wch := List.last string 0 in
      (if SPC <=? wch then set_lastPrintedChar wch else mret tt);;
      _ ← disp (PrintString string);
      mret true
  end.

Definition OutputEngine_ActionPassThroughString (string : wstring) : prog Engine bool := λ e,
  match _pTtyConnection e with
  | Some t =>
      let '(hr, t') := WriteTerminalW string t in
      Ok (SUCCEEDED hr)
        (mkOutputEngine (_dispatch e) (Some t') (_pfnFlushToTerminal e) (_lastPrintedChar e))
  | None => Ok true e
  end.

(** A method whose result becomes [success], and one whose result is dropped. *)
Definition esc_cases : list (Z * M bool) :=
  [ (VTID "\", mret true);
    (VTID "7", disp CursorSaveState);
    (VTID "8", disp CursorRestoreState);
    (VTID "=", disp (SetKeypadMode true));
    (VTID ">", disp (SetKeypadMode false));
    (VTID "E", disp (LineFeed WithReturn));
    (VTID "D", disp (LineFeed WithoutReturn));
    (VTID "M", disp ReverseLineFeed);
    (VTID "H", disp HorizontalTabSet);
    (VTID "Z", disp DeviceAttributes);
    (VTID "c", disp HardReset);
    (VTID "N", disp (SingleShift 2));
    (VTID "O", disp (SingleShift 3));
    (VTID "n", disp (LockingShift 2));
    (VTID "o", disp (LockingShift 3));
    (VTID "~", disp (LockingShiftRight 1));
    (VTID "}", disp (LockingShiftRight 2));
    (VTID "|", disp (LockingShiftRight 3));
    (VTID "#3", _ ← disp (SetLineRendition DoubleHeightTop); mret false);
    (VTID "#4", _ ← disp (SetLineRendition DoubleHeightBottom); mret false);
    (VTID "#5", _ ← disp (SetLineRendition SingleWidth); mret false);
    (VTID "#6", _ ← disp (SetLineRendition DoubleWidth); mret false);
    (VTID "#8", disp ScreenAlignmentPattern) ].

(** The inner [switch] of the default case, over the first character. *)
Definition esc_charset_cases (commandParameter : Z) : list (Z * M bool) :=
  [ (chr "%"%char, disp (DesignateCodingSystem commandParameter));
    (chr "("%char, disp (Designate94Charset 0 commandParameter));
    (chr ")"%char, disp (Designate94Charset 1 commandParameter));
    (chr "*"%char, disp (Designate94Charset 2 commandParameter));
    (chr "+"%char, disp (Designate94Charset 3 commandParameter));
    (chr "-"%char, disp (Designate96Charset 1 commandParameter));
    (chr "."%char, disp (Designate96Charset 2 commandParameter));
    (chr "/"%char, disp (Designate96Charset 3 commandParameter)) ].

Definition OutputEngine_ActionEscDispatch (id : Z) (flush : M bool) : M bool :=
  success ← switch id esc_cases
    (switch (VTID_at id 0) (esc_charset_cases (VTID_SubSequence id 1)) (mret false));
  success ← flush_if_failed flush success;
  _ClearLastChar;;
  mret success.

Definition DECANM_AnsiMode : Z := DECPrivateMode 2.

Definition vt52_cases (parameters : VTParameters) : list (Z * M bool) :=
  [ (VTID "A", disp (CursorUp 1));
    (VTID "B", disp (CursorDown 1));
    (VTID "C", disp (CursorForward 1));
    (VTID "D", disp (CursorBackward 1));
    (VTID "F", disp (Designate94Charset 0 (VTID "0")));
    (VTID "G", disp (Designate94Charset 0 (VTID "B")));
    (VTID "H", disp (CursorPosition 1 1));
    (VTID "I", disp ReverseLineFeed);
    (VTID "J", disp (EraseInDisplay 0));
    (VTID "K", disp (EraseInLine 0));
    (VTID "Y", disp (CursorPosition
                 (u64 (u64 (value (params_at parameters 0) - 32) + 1))
                 (u64 (u64 (value (params_at parameters 1) - 32) + 1))));
    (VTID "Z", disp Vt52DeviceAttributes);
    (VTID "=", disp (SetKeypadMode true));
    (VTID ">", disp (SetKeypadMode false));
    (VTID "<", disp (SetMode DECANM_AnsiMode)) ].

Definition OutputEngine_ActionVt52EscDispatch (id : Z) (parameters : VTParameters) (flush : M bool)
    : M bool :=
  success ← switch id (vt52_cases parameters) (mret false);
  _ClearLastChar;;
  mret success.

(** [a && b()]: the call is made only if the condition holds. *)
Definition and_then (cond : bool) (m : M bool) : M bool := if cond then m else mret false.

Definition repeat_last_char (parameters : VTParameters) : M bool :=
  last ← gets (λ v, _lastPrintedChar (ev_engine v));
  (if negb (last =? NUL) then
     _ ← disp (PrintString (replicate (Z.to_nat (as_numeric (params_at parameters 0))) last));
     mret tt
   else mret tt);;
  mret true.

Definition csi_cases (parameters : VTParameters) : list (Z * M bool) :=
  let at_ i := params_at parameters i in
  let num i := as_numeric (at_ i) in
  [ (VTID "A", disp (CursorUp (num 0)));
    (VTID "B", disp (CursorDown (num 0)));
    (VTID "C", disp (CursorForward (num 0)));
    (VTID "D", disp (CursorBackward (num 0)));
    (VTID "E", disp (CursorNextLine (num 0)));
    (VTID "F", disp (CursorPrevLine (num 0)));
    (VTID "G", disp (CursorHorizontalPositionAbsolute (num 0)));
    (VTID "`", disp (CursorHorizontalPositionAbsolute (num 0)));
    (VTID "d", disp (VerticalLinePositionAbsolute (num 0)));
    (VTID "a", disp (HorizontalPositionRelative (num 0)));
    (VTID "e", disp (VerticalPositionRelative (num 0)));
    (VTID "H", disp (CursorPosition (num 0) (num 1)));
    (VTID "f", disp (CursorPosition (num 0) (num 1)));
    (VTID "r", disp (SetTopBottomScrollingMargins (value_or (at_ 0) 0) (value_or (at_ 1) 0)));
    (VTID "@", disp (InsertCharacter (num 0)));
    (VTID "P", disp (DeleteCharacter (num 0)));
    (VTID "J", params_for_each (λ p, disp (EraseInDisplay (as_selective p))) parameters);
    (VTID "K", params_for_each (λ p, disp (EraseInLine (as_selective p))) parameters);
    (VTID "?h", params_for_each (λ p, disp (SetMode (DECPrivateMode (as_numeric p)))) parameters);
    (VTID "?l", params_for_each (λ p, disp (ResetMode (DECPrivateMode (as_numeric p)))) parameters);
    (VTID "m", disp (SetGraphicsRendition parameters));
    (VTID "n", disp (DeviceStatusReport (as_selective (at_ 0))));
    (VTID "c", and_then (value_or (at_ 0) 0 =? 0) (disp DeviceAttributes));
    (VTID ">c", and_then (value_or (at_ 0) 0 =? 0) (disp SecondaryDeviceAttributes));
    (VTID "=c", and_then (value_or (at_ 0) 0 =? 0) (disp TertiaryDeviceAttributes));
    (VTID "x", disp (RequestTerminalParameters (as_selective (at_ 0))));
    (VTID "S", disp (ScrollUp (num 0)));
    (VTID "T", disp (ScrollDown (num 0)));
    (VTID "s", and_then (params_empty parameters) (disp CursorSaveState));
    (VTID "u", and_then (params_empty parameters) (disp CursorRestoreState));
    (VTID "L", disp (InsertLine (num 0)));
    (VTID "M", disp (DeleteLine (num 0)));
    (VTID "I", disp (ForwardTab (num 0)));
    (VTID "Z", disp (BackwardsTab (num 0)));
    (VTID "g", params_for_each (λ p, disp (TabClear (as_selective p))) parameters);
    (VTID "X", disp (EraseCharacters (num 0)));
    (VTID "t", disp (WindowManipulation (as_selective (at_ 0)) (at_ 1) (at_ 2)));
    (VTID "b", repeat_last_char parameters);
    (VTID " q", disp (SetCursorStyle (as_selective (at_ 0))));
    (VTID "!p", disp SoftReset);
    (VTID "#{", disp (PushGraphicsRendition parameters));
    (VTID "#p", disp (PushGraphicsRendition parameters));
    (VTID "#}", disp PopGraphicsRendition);
    (VTID "#q", disp PopGraphicsRendition) ].

Definition OutputEngine_ActionCsiDispatch (id : Z) (parameters : VTParameters) (flush : M bool)
    : M bool :=
  success ← switch id (csi_cases parameters) (mret false);
  success ← flush_if_failed flush success;
  _ClearLastChar;;
  mret success.

Definition OutputEngine_ActionDcsDispatch (id : Z) (parameters : VTParameters) (flush : M bool)
    : M (option Empty_set) :=
  _ClearLastChar;;
  mret None.

Definition OutputEngine_ActionClear (flush : M bool) : M bool := mret true.

(** OSC 4: every entry is set until one fails. *)
Fixpoint set_color_entries (pairs : list (Z * Z)) (success : bool) : M bool :=
  match pairs with
  | [] => mret success
  | (i, c) :: pairs' =>
      success ← and_then success (disp (SetColorTableEntry i c));
      set_color_entries pairs' success
  end.

(** One of the three colours of OSC 10, 11 and 12: [cmd] is the code it
    belongs to; a colour that did not parse is skipped. *)
Definition set_osc_color (cmd : Z) (setter : Z → DispatchCall) (st : Z * list Z * bool)
    : M (Z * list Z * bool) :=
  let '(commandIndex, colors, success) := st in
  match colors with
  | col :: colors' =>
      if commandIndex =? cmd then
        success ← (if negb (col =? INVALID_COLOR) then and_then success (disp (setter col))
                   else mret success);
        mret (commandIndex + 1, colors', success)
      else mret st
  | [] => mret st
  end.

Definition osc_set_colors (parameter : Z) (string : wstring) : M bool :=
  let '(success, colors) := _GetOscSetColor string in
  if success then
    st ← set_osc_color 10 SetDefaultForeground (parameter, colors, success);
    st ← set_osc_color 11 SetDefaultBackground st;
    st ← set_osc_color 12 SetCursorColor st;
    mret st.2
  else mret false.

Definition osc_cases (parameter : Z) (string : wstring) : list (Z * M bool) :=
  let title :=
    let '(success, title) := _GetOscTitle string in
    and_then success (disp (SetWindowTitle title)) in
  [ (0, title);
    (1, title);
    (2, title);
    (4, let '(success, pairs) := _GetOscSetColorTable string in set_color_entries pairs success);
    (10, osc_set_colors parameter string);
    (11, osc_set_colors parameter string);
    (12, osc_set_colors parameter string);
    (52, match _GetOscSetClipboard string with
         | Some None => mret true
         | Some (Some content) => disp (SetClipboard content)
         | None => mret false
         end);
    (112, disp (SetCursorColor INVALID_COLOR));
    (8, let '(success, params, uri) := _ParseHyperlink string in
        if bool_decide (uri = []) then and_then success (disp EndHyperlink)
        else and_then success (disp (AddHyperlink uri params)));
    (9, disp (DoConEmuAction string)) ].

Definition OutputEngine_ActionOscDispatch (wch : wchar) (parameter : Z) (string : wstring)
    (flush : M bool) : M bool :=
  success ← switch parameter (osc_cases parameter string) (mret false);
  success ← flush_if_failed flush success;
  _ClearLastChar;;
  mret success.

Definition OutputEngine_ActionSs3Dispatch (wch : wchar) (parameters : VTParameters) (flush : M bool)
    : M bool :=
  _ClearLastChar;;
  mret false.

(** The engine as an implementation of the parser's interface.  It has no
    data-string handlers: the type of its handlers is empty. *)
#[export] Instance OutputEngine_engine : IStateMachineEngine Engine Empty_set := {|
  ActionExecute := OutputEngine_ActionExecute;
  ActionExecuteFromEscape := OutputEngine_ActionExecute;
  ActionPrint := OutputEngine_ActionPrint;
  ActionPrintString := OutputEngine_ActionPrintString;
  ActionPassThroughString := OutputEngine_ActionPassThroughString;
  ActionEscDispatch := OutputEngine_ActionEscDispatch;
  ActionVt52EscDispatch := OutputEngine_ActionVt52EscDispatch;
  ActionCsiDispatch := OutputEngine_ActionCsiDispatch;
  ActionDcsDispatch := OutputEngine_ActionDcsDispatch;
  ActionClear := OutputEngine_ActionClear;
  ActionOscDispatch := OutputEngine_ActionOscDispatch;
  ActionSs3Dispatch := OutputEngine_ActionSs3Dispatch;
  StringHandler_call := λ h, match h with end;
  ParseControlSequenceAfterSs3 := λ _, false;
  FlushAtEndOfString := λ _, false;
  DispatchControlCharsFromEscape := λ _, false;
  DispatchIntermediatesFromEscape := λ _, false
|}.

End engine.
