(* ===== verification/OutputFacts.v ===== *)
(** Facts of the output engine: it meets the interfaces the parser's theorems
    ask for, identifiers select the case of their text, and what whole control
    sequences make the terminal do. *)

From stdpp Require Import strings.
From S2P Require Import Prelude DispatchTypes StateMachine StateMachineFacts ParserParams ParserCsi ParserEquiv Utils ColorTable Base64 OutputEngine.
Import AsciiChars.

(** ** Identifiers of sequences *)

(** A byte that can be part of an identifier. *)
Definition id_byte (c : wchar) : Prop := 0 < c < 256.

(** The number whose base-256 digits are the characters. *)
Fixpoint little_endian (l : wstring) : Z :=
  match l with
  | [] => 0
  | c :: l' => c + 256 * little_endian l'
  end.

(** The characters that identify a sequence: its marker, its intermediates and
    its final character. *)
Definition csi_chars (q : CsiSequence) : wstring :=
  option_list (csi_marker q) ++ csi_intermediates q ++ [csi_final q].

(** A [switch] over the text of the identifiers. *)
Fixpoint text_switch {A} (text : wstring) (names : list string) (actions : list A) (otherwise : A)
    : A :=
  match names, actions with
  | n :: names', a :: actions' =>
      if bool_decide (text = wstr n) then a else text_switch text names' actions' otherwise
  | _, _ => otherwise
  end.

(** The control sequences the engine knows, in the order of [csi_cases]. *)
Definition csi_names : list string :=
  [ "A"; "B"; "C"; "D"; "E"; "F"; "G"; "`"; "d"; "a"; "e"; "H"; "f"; "r"; "@"; "P"; "J"; "K";
    "?h"; "?l"; "m"; "n"; "c"; ">c"; "=c"; "x"; "S"; "T"; "s"; "u"; "L"; "M"; "I"; "Z"; "g";
    "X"; "t"; "b"; " q"; "!p"; "#{"; "#p"; "#}"; "#q" ]%string.

Lemma little_endian_range l : Forall id_byte l → 0 <= little_endian l < 256 ^ Z.of_nat (length l).
Proof.
  unfold id_byte. induction 1 as [|c l Hc _ IH]; cbn [little_endian length]; [done|].
  rewrite Nat2Z.inj_succ, Z.pow_succ_r by lia. lia.
Qed.

Lemma little_endian_inj l l' :
  Forall id_byte l → Forall id_byte l' → little_endian l = little_endian l' → l = l'.
Proof.
  intros Hl. revert l'. induction Hl as [|c l Hc Hl IH]; intros l' Hl' E.
  - destruct Hl' as [|c' l' Hc' Hl']; [done|]. apply little_endian_range in Hl'.
    unfold id_byte in *. cbn in E. lia.
  - destruct Hl' as [|c' l' Hc' Hl'].
    + apply little_endian_range in Hl. unfold id_byte in *. cbn in E. lia.
    + cbn in E. unfold id_byte in *.
      assert (c = c' ∧ little_endian l = little_endian l') as [-> E'] by lia.
      f_equal. auto.
Qed.

Lemma VTID_FromString_little_endian l :
  Forall id_byte l → (length l <= 8)%nat → VTID_FromString l = little_endian l.
Proof.
  intros Hl. induction Hl as [|c l Hc Hl IH]; intros Hn; [done|]. cbn in *.
  pose proof (little_endian_range l Hl) as Hr. rewrite IH by lia.
  assert (256 ^ Z.of_nat (length l) <= 256 ^ 7) by (apply Z.pow_le_mono_r; lia).
  unfold id_byte, CHAR_BIT in *. rewrite Z.shiftl_mul_pow2 by lia. change (2 ^ 8) with 256.
  rewrite (u64_small (_ * 256)) by lia. rewrite u64_small by lia. lia.
Qed.

Lemma little_endian_app l l' :
  little_endian (l ++ l') = little_endian l + 256 ^ Z.of_nat (length l) * little_endian l'.
Proof.
  induction l as [|c l IH]; cbn [little_endian length app]; [lia|].
  rewrite IH, Nat2Z.inj_succ, Z.pow_succ_r by lia. lia.
Qed.

(** The builder after the characters [l]: the eighth one empties it. *)
Definition builder_of (l : wstring) : VTIDBuilder :=
  if (length l <=? 7)%nat then mkVTIDBuilder (little_endian l) (8 * Z.of_nat (length l))
  else mkVTIDBuilder 0 56.

(** A shifted character is a digit in base 256. *)
Lemma shifted_char c n acc :
  id_byte c → (n <= 7)%nat → 0 <= acc < 256 ^ Z.of_nat n →
  u64 (acc + u64 (Z.shiftl c (8 * Z.of_nat n))) = acc + 256 ^ Z.of_nat n * c.
Proof.
  unfold id_byte. intros Hc Hn Ha.
  rewrite Z.shiftl_mul_pow2, Z.pow_mul_r by lia. change (2 ^ 8) with 256.
  assert (256 ^ Z.of_nat n <= 256 ^ 7) by (apply Z.pow_le_mono_r; lia).
  assert (0 < 256 ^ Z.of_nat n) by (apply Z.pow_pos_nonneg; lia).
  rewrite (u64_small (c * _)) by nia. rewrite u64_small by nia. lia.
Qed.

Lemma AddIntermediate_builder l c :
  Forall id_byte l → id_byte c → AddIntermediate c (builder_of l) = builder_of (l ++ [c]).
Proof.
  intros Hl Hc. unfold AddIntermediate, builder_of, CHAR_BIT. rewrite length_app. cbn [length].
  destruct (Nat.leb_spec (length l) 7) as [Hn|Hn]; cbn [_idShift _idAccumulator].
  - destruct (Nat.leb_spec (length l + 1) 7) as [Hn'|Hn'].
    + destruct (Z.geb_spec (8 * Z.of_nat (length l) + 8) (8 * 8)); [lia|].
      rewrite shifted_char by auto using little_endian_range.
      rewrite little_endian_app. cbn [little_endian]. f_equal; [lia|].
      rewrite Nat2Z.inj_add. lia.
    + destruct (Z.geb_spec (8 * Z.of_nat (length l) + 8) (8 * 8)); [|lia]. f_equal. lia.
  - cbn. destruct (Nat.leb_spec (length l + 1) 7); [lia|done].
Qed.

Lemma builder_fold l :
  Forall id_byte l → fold_left (λ b c, AddIntermediate c b) l VTIDBuilder_Clear = builder_of l.
Proof.
  induction l as [|c l IH] using rev_ind; intros Hl; [done|].
  apply Forall_app in Hl as [Hl Hc%Forall_inv]. rewrite fold_left_app. cbn.
  rewrite IH by done. by apply AddIntermediate_builder.
Qed.

Lemma csi_chars_bytes q : csi_valid q = true → Forall id_byte (csi_chars q).
Proof.
  unfold csi_valid, csi_chars. intros [[[Hm _]%andb_true_iff Hi]%andb_true_iff Hf]%andb_true_iff.
  apply Forall_app. split.
  - destruct (csi_marker q) as [m|]; cbn; constructor; [|done].
    unfold _isCsiPrivateMarker in Hm. unfold id_byte. lia.
  - apply Forall_app. split.
    + eapply Forall_impl; [by apply forallb_Forall_true|]. cbn. intros c Hc.
      unfold _isIntermediate in Hc. zify_bool. unfold id_byte. lia.
    + constructor; [|done]. unfold is_csi_final in Hf. unfold id_byte. lia.
Qed.

(** The identifier of a sequence is that of its characters, or none at all. *)
Lemma csi_id_spec q :
  csi_valid q = true →
  csi_id q = if (length (csi_chars q) <=? 8)%nat then little_endian (csi_chars q)
             else Z.shiftl (csi_final q) 56.
Proof.
  intros Hv. pose proof (csi_chars_bytes q Hv) as Hb. unfold csi_id, csi_builder.
  set (l := option_list (csi_marker q) ++ csi_intermediates q).
  assert (csi_chars q = l ++ [csi_final q]) as E by (unfold csi_chars, l; by rewrite app_assoc).
  rewrite E in *. apply Forall_app in Hb as [Hl Hc%Forall_inv]. rewrite builder_fold by done.
  rewrite length_app. cbn [length]. unfold Finalize, builder_of.
  destruct (Nat.leb_spec (length l) 7), (Nat.leb_spec (length l + 1) 8); try lia;
    cbn [_idShift _idAccumulator].
  - rewrite shifted_char by auto using little_endian_range. rewrite little_endian_app. cbn. lia.
  - change 56 with (8 * Z.of_nat 7). rewrite (shifted_char _ 7 0) by (done || lia).
    rewrite Z.shiftl_mul_pow2 by lia. cbn. lia.
Qed.

(** An identifier selects the case of exactly its own text. *)
Lemma csi_id_text q l :
  csi_valid q = true → Forall id_byte l → (0 < length l <= 7)%nat →
  (csi_id q =? VTID_FromString l) = bool_decide (csi_chars q = l).
Proof.
  intros Hv Hl Hn. pose proof (csi_chars_bytes q Hv) as Hb.
  rewrite csi_id_spec, VTID_FromString_little_endian by (done || lia).
  pose proof (little_endian_range l Hl) as Hr.
  destruct (Nat.leb_spec (length (csi_chars q)) 8) as [H8|H8].
  - case_bool_decide as E; [rewrite E; apply Z.eqb_refl|]. apply Z.eqb_neq.
    intros E'%little_endian_inj; done.
  - assert (csi_chars q ≠ l) as Hne by (intros E; rewrite E in *; lia).
    rewrite bool_decide_false by done. apply Z.eqb_neq.
    assert (256 ^ Z.of_nat (length l) <= 256 ^ 7) by (apply Z.pow_le_mono_r; lia).
    assert (0 < csi_final q).
    { unfold csi_chars in Hb. rewrite !Forall_app in Hb. destruct Hb as (_ & _ & Hf%Forall_inv).
      unfold id_byte in Hf. lia. }
    rewrite Z.shiftl_mul_pow2 by lia. change (2 ^ 56) with (256 ^ 7). lia.
Qed.

Definition name_ok (n : string) : bool :=
  forallb (λ c, (0 <? c) && (c <? 256)) (wstr n)
  && (0 <? length (wstr n))%nat && (length (wstr n) <=? 7)%nat.

Lemma switch_text_switch {A} q names (actions : list A) otherwise :
  csi_valid q = true → forallb name_ok names = true → length names = length actions →
  switch (csi_id q) (zip (VTID <$> names) actions) otherwise
  = text_switch (csi_chars q) names actions otherwise.
Proof.
  intros Hv. revert actions. induction names as [|n names IH]; intros actions Hn Hlen;
    destruct actions as [|a actions]; try done.
  cbn in Hn. apply andb_true_iff in Hn as [Hn Hns]. cbn.
  unfold name_ok in Hn. apply andb_true_iff in Hn as [[Hb H1]%andb_true_iff H2].
  unfold VTID. rewrite csi_id_text; [|done| |].
  - rewrite IH by (done || (cbn in Hlen; lia)). by case_bool_decide.
  - eapply Forall_impl; [by apply forallb_Forall_true|]. cbn. unfold id_byte. lia.
  - apply Nat.ltb_lt in H1. apply Nat.leb_le in H2. lia.
Qed.

(** ** Programs that keep an invariant *)

Create HintDb maintains.

Section maintains.
Context {W : Type} (I : W → Prop).

Lemma maintains_ret {A} (a : A) : maintains I (mret a).
Proof. by intros w Hw. Qed.

Lemma maintains_bind {A B} (m : prog W A) (f : A → prog W B) :
  maintains I m → (∀ a, maintains I (f a)) → maintains I (m ≫= f).
Proof.
  intros Hm Hf w Hw. apply wp_bind. eapply wp_mono; [by apply Hm|]. intros a w' Hw'. by apply Hf.
Qed.

Lemma maintains_gets {A} (f : W → A) : maintains I (gets f).
Proof. by intros w Hw. Qed.

Lemma maintains_modify (f : W → W) : (∀ w, I w → I (f w)) → maintains I (modify f).
Proof. intros Hf w Hw. by apply Hf. Qed.

Lemma maintains_if {A} (b : bool) (m n : prog W A) : maintains I m → maintains I n → maintains I (if b then m else n).
Proof. by destruct b. Qed.

Lemma maintains_switch {A} code (cases : list (Z * prog W A)) otherwise :
  Forall (λ ca, maintains I ca.2) cases → maintains I otherwise → maintains I (switch code cases otherwise).
Proof. induction 1 as [|[c a] l Ha _ IH]; cbn; [done|]. intros Ho. case_match; auto. Qed.

Lemma maintains_for_each f ps : (∀ p, maintains I (f p)) → maintains I (params_for_each f ps).
Proof.
  intros Hf. unfold params_for_each. apply maintains_bind; [done|]. intros b.
  revert b. induction (drop 1 ps) as [|p l IH]; intros b; cbn; [apply maintains_ret|].
  apply maintains_bind; auto using maintains_ret.
Qed.
End maintains.
#[export] Hint Resolve maintains_ret maintains_bind maintains_gets maintains_if maintains_for_each maintains_switch : maintains.

(** ** The calls that the engine makes

    Numbers come from parameters; the position of a VT52 cursor address is that of
    a character, less its offset. *)

Definition cursor_arg (n : Z) : Prop := -32 <= i32 n <= 65535.

Definition dispatch_ok (c : DispatchCall) : Prop :=
  match c with
  | CursorUp n | CursorDown n | CursorForward n | CursorBackward n | CursorNextLine n | CursorPrevLine n
  | CursorHorizontalPositionAbsolute n | VerticalLinePositionAbsolute n | HorizontalPositionRelative n
  | VerticalPositionRelative n | InsertLine n | DeleteLine n => 0 <= n <= 32767
  | CursorPosition line column => cursor_arg line ∧ cursor_arg column
  | InsertCharacter n | DeleteCharacter n | BackwardsTab n => 1 <= n <= 32767
  | SetTopBottomScrollingMargins top bottom => 0 <= top <= 32767 ∧ 0 <= bottom <= 32767
  | Designate94Charset g _ | Designate96Charset g _ | LockingShift g | LockingShiftRight g | SingleShift g => 0 <= g < 4
  | _ => True
  end.

(** What the engine asks of a dispatch: an invariant that these calls keep. *)
Class DispatchSafe (D : Type) `{ITermDispatch D} := {
  dispatch_inv : D → Prop;
  dispatch_keeps c d ansi : dispatch_ok c → dispatch_inv d → dispatch_inv (dispatch c d ansi).1.2
}.

Section arguments.
Context (ps : VTParameters).

Lemma param_at_wf m i : -1 <= m → Forall (param_wf m) ps → param_wf m (params_at ps i).
Proof.
  intros Hm Hps. unfold params_at. case_match; [|by apply param_wf_empty].
  destruct (ps !! Z.to_nat i) as [p|] eqn:Hp; [by eapply Forall_lookup_1|]. by apply param_wf_empty.
Qed.

Lemma numeric_range i : Forall (param_wf MAX_PARAMETER_VALUE) ps → 0 <= as_numeric (params_at ps i) <= 32767.
Proof.
  intros Hps. pose proof (param_at_wf MAX_PARAMETER_VALUE i ltac:(done) Hps) as Hp.
  unfold param_wf, MAX_PARAMETER_VALUE in Hp.
  unfold as_numeric, has_value. case_match; [|lia]. zify_bool. rewrite u64_small; lia.
Qed.

Lemma numeric_pos i : Forall (param_wf MAX_PARAMETER_VALUE) ps → 1 <= as_numeric (params_at ps i) <= 32767.
Proof.
  intros Hps. pose proof (numeric_range i Hps). unfold as_numeric in *. case_match; [|lia]. zify_bool.
  pose proof (param_at_wf MAX_PARAMETER_VALUE i ltac:(done) Hps) as Hp. unfold param_wf, MAX_PARAMETER_VALUE, has_value in *.
  zify_bool. rewrite u64_small in *; lia.
Qed.

Lemma value_or_range i : Forall (param_wf MAX_PARAMETER_VALUE) ps → 0 <= value_or (params_at ps i) 0 <= 32767.
Proof.
  intros Hps. pose proof (param_at_wf MAX_PARAMETER_VALUE i ltac:(done) Hps) as Hp.
  unfold param_wf, MAX_PARAMETER_VALUE in Hp.
  unfold value_or, has_value. case_match; [|lia]. zify_bool. rewrite u64_small; lia.
Qed.

Lemma small_cursor_arg n : 0 <= n <= 32767 → cursor_arg n.
Proof. intros Hn. unfold cursor_arg. rewrite wraps_small by (cbn; lia). lia. Qed.
End arguments.

Lemma vt52_cursor_arg ps i : Forall (param_wf 65535) ps →
  cursor_arg (u64 (u64 (value (params_at ps i) - 32) + 1)).
Proof.
  intros Hps. pose proof (param_at_wf ps 65535 i ltac:(done) Hps) as Hp. unfold param_wf in Hp.
  unfold cursor_arg, value, wraps, wrapu. set (v := _value _) in *. clearbody v.
  change (2 ^ 64) with 18446744073709551616. change (2 ^ 32) with 4294967296. change (2 ^ (32 - 1)) with 2147483648.
  Z.to_euclidean_division_equations; lia.
Qed.

(** ** The engine meets the parser's interfaces *)

Section engine_facts.
Context {D T : Type} `{ITermDispatch D} `{ITerminalOutputConnection T} `{Utf8Converter}.

Abbreviation Engine := (OutputStateMachineEngine D T).

Section safe.
Context `{!DispatchSafe D}.

Definition output_engine_ok (e : Engine) : Prop := dispatch_inv (_dispatch e).
#[local] Abbreviation kept := (maintains (view_ok output_engine_ok)).

Lemma maintains_disp c : dispatch_ok c → kept (disp c).
Proof.
  intros Hc v Hv. unfold wp, disp. pose proof (dispatch_keeps c (_dispatch (ev_engine v)) (ev_isInAnsiMode v) Hc Hv) as Hk.
  by destruct (dispatch _ _ _) as [[r d] a].
Qed.

Lemma maintains_flush k b : kept k → kept (flush_if_failed k b).
Proof. intros Hk. unfold flush_if_failed. eauto with maintains. Qed.

Lemma maintains_last c : kept (set_lastPrintedChar c).
Proof. by apply maintains_modify. Qed.

Lemma maintains_clear : kept _ClearLastChar.
Proof. apply maintains_last. Qed.

Lemma maintains_and_then b m : kept m → kept (and_then b m).
Proof. intros Hm. unfold and_then. auto with maintains. Qed.
#[local] Hint Resolve maintains_disp maintains_flush maintains_last maintains_clear maintains_and_then : maintains.

(** The arguments of a call are within their limits. *)
Ltac call_ok :=
  first [exact I|cbn];
  try match goal with |- _ ∧ _ => split end;
  first [lia|by apply vt52_cursor_arg|try apply small_cursor_arg; first [lia|by apply numeric_range|by apply numeric_pos|by apply value_or_range]].
#[local] Hint Extern 1 (dispatch_ok _) => call_ok : maintains.

Lemma maintains_set_entries pairs b : kept (set_color_entries pairs b).
Proof. revert b. induction pairs as [|[i c] l IH]; intros b; cbn; auto with maintains. Qed.

Lemma maintains_osc_color cmd setter st : (∀ c, dispatch_ok (setter c)) → kept (set_osc_color cmd setter st).
Proof. intros Hs. destruct st as [[i [|c l]] b]; cbn; auto 8 with maintains. Qed.

Lemma maintains_osc_colors p str : kept (osc_set_colors p str).
Proof.
  unfold osc_set_colors. destruct (_GetOscSetColor str) as [[] l]; [|auto with maintains].
  repeat (apply maintains_bind; [by apply maintains_osc_color|intros ?]). auto with maintains.
Qed.
#[local] Hint Resolve maintains_set_entries maintains_osc_colors : maintains.

Lemma maintains_execute c k : kept k → kept (OutputEngine_ActionExecute c k).
Proof. intros Hk. unfold OutputEngine_ActionExecute. auto 40 with maintains. Qed.

Lemma maintains_repeat ps : kept (repeat_last_char ps).
Proof. unfold repeat_last_char. auto 8 with maintains. Qed.
#[local] Hint Resolve maintains_repeat : maintains.

(** The actions of the engine keep the invariant of the dispatch. *)
#[export] Instance OutputEngine_safe : EngineSafe Engine Empty_set.
Proof.
  refine {| engine_ok := output_engine_ok |}; intros; try (intros k Hk); cbn -[switch].
  - by apply maintains_execute.
  - by apply maintains_execute.
  - unfold OutputEngine_ActionPrint. auto with maintains.
  - destruct str as [|c l]; unfold OutputEngine_ActionPrintString; auto with maintains.
  - unfold wp, OutputEngine_ActionPassThroughString. destruct (_pTtyConnection k); [|done].
    by destruct (WriteTerminalW _ _).
  - apply maintains_bind; [|auto with maintains]. apply maintains_switch.
    + repeat constructor; cbn [snd]; auto with maintains.
    + apply maintains_switch; [repeat constructor; cbn [snd]|]; auto with maintains.
  - apply maintains_bind; [|auto with maintains].
    apply maintains_switch; [repeat constructor; cbn [snd]|]; auto with maintains.
  - apply maintains_bind; [|auto with maintains].
    apply maintains_switch; [|auto with maintains].
    unfold csi_cases. repeat constructor; cbn [snd]; auto 8 with maintains.
  - unfold OutputEngine_ActionDcsDispatch. auto with maintains.
  - unfold OutputEngine_ActionClear. auto with maintains.
  - apply maintains_bind; [|auto with maintains].
    apply maintains_switch; [|auto with maintains].
    unfold osc_cases. repeat constructor; cbn [snd]; repeat case_match; auto with maintains.
  - unfold OutputEngine_ActionSs3Dispatch. auto with maintains.
  - destruct h.
Defined.
End safe.

#[export] Instance OutputEngine_quiet : EngineQuiet Engine Empty_set.
Proof. done. Qed.

(** ** What the engine does with a control sequence *)

Abbreviation Machine := (StateMachine Engine Empty_set).

Lemma csi_cases_names ps :
  csi_cases (D:=D) (T:=T) ps = zip (VTID <$> csi_names) (snd <$> csi_cases (D:=D) (T:=T) ps).
Proof. reflexivity. Qed.

Lemma csi_switch_text q ps :
  csi_valid q = true →
  switch (csi_id q) (csi_cases (D:=D) (T:=T) ps) (mret false)
  = text_switch (csi_chars q) csi_names (snd <$> csi_cases ps) (mret false).
Proof. intros Hv. rewrite csi_cases_names at 1. by apply switch_text_switch. Qed.

Lemma text_switch_none {A} text names (actions : list A) otherwise :
  Forall (λ n, text ≠ wstr n) names → text_switch text names actions otherwise = otherwise.
Proof.
  intros Hn. revert actions. induction Hn as [|n names Hn _ IH]; intros [|a actions]; try done.
  cbn. by rewrite bool_decide_false.
Qed.

(** The view after the engine has forgotten the last character. *)
Definition forget_last (v : EngineView Engine) : EngineView Engine :=
  mkView (ev_cachedSequence v) (ev_isInAnsiMode v)
    (mkOutputEngine (_dispatch (ev_engine v)) (_pTtyConnection (ev_engine v))
       (_pfnFlushToTerminal (ev_engine v)) NUL).

(** The view after a call that the dispatch was given. *)
Definition after_disp (c : DispatchCall) (v : EngineView Engine) : EngineView Engine :=
  let e := ev_engine v in
  let '(r, d, ansi) := dispatch c (_dispatch e) (ev_isInAnsiMode v) in
  mkView (ev_cachedSequence v) ansi
    (mkOutputEngine d (_pTtyConnection e) (_pfnFlushToTerminal e) (_lastPrintedChar e)).

Definition accepts (c : DispatchCall) (v : EngineView Engine) : bool :=
  (dispatch c (_dispatch (ev_engine v)) (ev_isInAnsiMode v)).1.1.

Lemma disp_eq c v : disp c v = Ok (accepts c v) (after_disp c v).
Proof. unfold disp, accepts, after_disp. by destruct (dispatch _ _ _) as [[r d] a]. Qed.

(** A sequence whose action succeeds. *)
Lemma CsiDispatch_success q ps k v v' :
  csi_valid q = true →
  text_switch (csi_chars q) csi_names (snd <$> csi_cases ps) (mret false) v = Ok true v' →
  OutputEngine_ActionCsiDispatch (csi_id q) ps k v = Ok true (forget_last v').
Proof.
  intros Hv Ha. unfold OutputEngine_ActionCsiDispatch. rewrite csi_switch_text by done.
  rewrite (bind_ok _ _ _ _ _ Ha). unfold flush_if_failed, mbind, prog_bind, gets. cbn.
  by rewrite andb_false_r.
Qed.

(** A sequence whose action fails, with a terminal to flush to. *)
Lemma CsiDispatch_failure q ps run v v' t :
  csi_valid q = true →
  text_switch (csi_chars q) csi_names (snd <$> csi_cases ps) (mret false) v = Ok false v' →
  _pfnFlushToTerminal (ev_engine v') = true → _pTtyConnection (ev_engine v') = Some t →
  ev_cachedSequence v' = None →
  OutputEngine_ActionCsiDispatch (csi_id q) ps (FlushToTerminal run) v
  = Ok (SUCCEEDED (WriteTerminalW run t).1)
      (mkView None (ev_isInAnsiMode v') (mkOutputEngine (_dispatch (ev_engine v'))
         (Some (WriteTerminalW run t).2) true NUL)).
Proof.
  intros Hv Ha Hf Ht Hc. unfold OutputEngine_ActionCsiDispatch. rewrite csi_switch_text by done.
  rewrite (bind_ok _ _ _ _ _ Ha). clear Ha. destruct v' as [c a [d tty fl l]]. cbn in *. subst.
  unfold flush_if_failed, FlushToTerminal, mbind, prog_bind, gets. cbn.
  unfold on_engine, OutputEngine_ActionPassThroughString. cbn.
  by destruct (WriteTerminalW run t) as [hr t'].
Qed.

(** The machine as the parser's callers find it between sequences. *)
Definition at_ground (s : Machine) : Prop :=
  _state s = Ground ∧ _processingIndividually s = false ∧ _isInAnsiMode s = true
  ∧ _cachedSequence s = None.

(** C32: the identifiers that the parser builds for the control sequences select
    the engine's cases by their text: for every control sequence of any
    parameters, with any number of intermediate characters, the case whose
    characters are the marker, the intermediates and the final character is
    run, and the default if there is none. *)
Theorem csi_dispatch_by_text (q : CsiSequence) (ps : VTParameters) (k : prog (EngineView Engine) bool) :
  csi_valid q = true →
  ∀ v, OutputEngine_ActionCsiDispatch (csi_id q) ps k v
  = (success ← text_switch (csi_chars q) csi_names (snd <$> csi_cases ps) (mret false);
     success ← flush_if_failed k success;
     _ClearLastChar;; mret success) v.
Proof. intros Hv v. unfold OutputEngine_ActionCsiDispatch. by rewrite csi_switch_text. Qed.

(** A control sequence that the engine does not know is written to the
    connected terminal exactly as it was received, in one write, and makes no
    call on the dispatch; the parser is back in the ground state. *)
Theorem csi_unknown_passes_through (q : CsiSequence) (s : Machine) (t : T) :
  csi_valid q = true → at_ground s → Forall (λ n, csi_chars q ≠ wstr n) csi_names →
  _pTtyConnection (_engine s) = Some t → _pfnFlushToTerminal (_engine s) = true →
  ∃ s', ProcessString (csi_string q) s = Ok tt s' ∧ at_ground s'
    ∧ _engine s' = mkOutputEngine (_dispatch (_engine s))
                     (Some (WriteTerminalW (csi_string q) t).2) true NUL.
Proof.
  intros Hv (Hg & Hp & Ha & Hc) Hn Ht Hf.
  edestruct (ProcessString_csi q s) as [lim Hr]; [done..| |].
  - apply (CsiDispatch_failure q _ _ (view_of s) (view_of s) t); [done| |done..].
    by rewrite text_switch_none.
  - eexists. split; [exact Hr|]. done.
Qed.

(** The machine after exactly one call on the dispatch. *)
Definition dispatched_once (c : DispatchCall) (s s' : Machine) : Prop :=
  _state s' = Ground ∧ _processingIndividually s' = false
  ∧ view_of s' = forget_last (after_disp c (view_of s)).

Lemma as_numeric_field f :
  Forall (λ c, _isNumericParamValue c = true) f →
  as_numeric (field_param f) = Z.max 1 (Z.min 32767 (decimal f)).
Proof.
  intros Hf%decimal_nonneg. destruct f as [|c f]; [done|].
  unfold field_param, VTParameter_of, as_numeric, has_value, MAX_PARAMETER_VALUE in *.
  cbn [_value]. rewrite i64_small by lia. rewrite u64_small by lia.
  destruct (Z.geb_spec (Z.min 32767 (decimal (c :: f))) 0),
    (Z.eqb_spec (Z.min 32767 (decimal (c :: f))) 0); cbn [andb negb]; lia.
Qed.

Lemma digits_not_delimiter f :
  Forall (λ c, _isNumericParamValue c = true) f → Forall (λ c, _isParameterDelimiter c = false) f.
Proof.
  intros Hf. eapply Forall_impl; [exact Hf|]. cbn. intros c.
  unfold _isNumericParamValue, _isParameterDelimiter. lia.
Qed.

Lemma digits_param_chars f :
  forallb _isNumericParamValue f = true → forallb is_param_char f = true.
Proof.
  intros Hf. apply forallb_forall. intros c Hc. rewrite forallb_forall in Hf.
  unfold is_param_char. by rewrite (Hf c Hc).
Qed.

Lemma parse_params_two f g :
  Forall (λ c, _isNumericParamValue c = true) f → Forall (λ c, _isNumericParamValue c = true) g →
  parse_params (f ++ 0x3B :: g) = [field_param f; field_param g].
Proof.
  intros Hf%digits_not_delimiter Hg%digits_not_delimiter. unfold parse_params.
  destruct (f ++ 0x3B :: g) as [|c l] eqn:E; [by destruct f|]. rewrite <-E.
  unfold split_fields. rewrite split_on_app_sep, split_on_no_sep by done. done.
Qed.

(** The machine after a sequence whose action is one call of the dispatch. *)
Lemma ProcessString_csi_call q c (s : Machine) :
  csi_valid q = true → at_ground s →
  text_switch (csi_chars q) csi_names (snd <$> csi_cases (parse_params (csi_text q))) (mret false)
    (view_of s) = disp c (view_of s) →
  accepts c (view_of s) = true →
  ∃ s', ProcessString (csi_string q) s = Ok tt s' ∧ dispatched_once c s s'.
Proof.
  intros Hv (Hg & Hp & Ha & Hc) Hs Hacc. rewrite disp_eq, Hacc in Hs.
  edestruct (ProcessString_csi q s) as [lim Hr]; [done..| |].
  - by apply CsiDispatch_success.
  - eexists. split; [exact Hr|]. split; [done|]. split; [done|].
    unfold view_of, csi_done, forget_last, after_disp. cbn.
    destruct (dispatch _ _ _) as [[r d] a]. cbn. by rewrite Hc.
Qed.

(** A cursor position sequence, [ESC], [\[], a row, [;], a column and [H] with
    any digits makes exactly one call, [CursorPosition], with the two numbers
    limited to 32767 and with 1 for an omitted number or a zero. *)
Theorem csi_cursor_position (row col : wstring) (s : Machine) :
  forallb _isNumericParamValue row = true → forallb _isNumericParamValue col = true →
  at_ground s →
  let arg f := Z.max 1 (Z.min 32767 (decimal f)) in
  accepts (CursorPosition (arg row) (arg col)) (view_of s) = true →
  ∃ s', ProcessString ([ESC; 0x5B] ++ row ++ [0x3B] ++ col ++ [0x48]) s = Ok tt s'
    ∧ dispatched_once (CursorPosition (arg row) (arg col)) s s'.
Proof.
  cbv zeta. intros Hr Hc Hs Ha.
  pose (q := mkCsi None (row ++ [0x3B] ++ col) [] 0x48).
  assert ([ESC; 0x5B] ++ row ++ [0x3B] ++ col ++ [0x48] = csi_string q) as ->.
  { unfold csi_string, csi_body, q. cbn. by rewrite <-app_assoc. }
  apply ProcessString_csi_call; [|done| |done].
  - unfold csi_valid, q. cbn. rewrite forallb_app. cbn. by rewrite !digits_param_chars.
  - change (csi_chars q) with (wstr "H"). cbn [csi_text q].
    apply forallb_Forall_true in Hr, Hc. cbn [app]. rewrite parse_params_two by done.
    change (disp (CursorPosition (as_numeric (field_param row)) (as_numeric (field_param col)))
      (view_of s) = disp (CursorPosition (Z.max 1 (Z.min 32767 (decimal row)))
      (Z.max 1 (Z.min 32767 (decimal col)))) (view_of s)).
    by rewrite !as_numeric_field.
Qed.

(** [ESC \[ 6 n] asks for the position of the cursor. *)
Lemma csi_status_report (s : Machine) :
  at_ground s → accepts (DeviceStatusReport 6) (view_of s) = true →
  ∃ s', ProcessString [ESC; 0x5B; 0x36; 0x6E] s = Ok tt s' ∧ dispatched_once (DeviceStatusReport 6) s s'.
Proof.
  intros Hs Ha. pose (q := mkCsi None [0x36] [] 0x6E).
  change [ESC; 0x5B; 0x36; 0x6E] with (csi_string q). by apply ProcessString_csi_call.
Qed.

(** One more parameter lemma: a single number. *)
Lemma parse_params_one f :
  Forall (λ c, _isNumericParamValue c = true) f → f ≠ [] → parse_params f = [field_param f].
Proof.
  intros Hf%digits_not_delimiter Hne. unfold parse_params, split_fields.
  rewrite split_on_no_sep by done. by destruct f.
Qed.

(** The view after the engine has remembered a character it prints. *)
Definition remember_last (c : wchar) (v : EngineView Engine) : EngineView Engine :=
  mkView (ev_cachedSequence v) (ev_isInAnsiMode v)
    (mkOutputEngine (_dispatch (ev_engine v)) (_pTtyConnection (ev_engine v))
       (_pfnFlushToTerminal (ev_engine v)) c).

Lemma not_actionable_graphic c : _isActionableFromGround c = false → SPC <= c.
Proof. unfold _isActionableFromGround, US, SPC. intros H'. zify_bool. lia. Qed.

Lemma last_graphic (text : wstring) :
  text ≠ [] → forallb (λ c, negb (_isActionableFromGround c)) text = true →
  SPC <= List.last text 0.
Proof.
  intros Hne Ht. rewrite <-(removelast_last_app text 0 Hne), forallb_app in Ht. cbn in Ht.
  apply andb_true_iff in Ht as [_ [Hl%negb_true_iff _]%andb_true_iff].
  by apply not_actionable_graphic.
Qed.

Lemma ProcessString_print text (s : Machine) :
  text ≠ [] → forallb (λ c, negb (_isActionableFromGround c)) text = true → at_ground s →
  ProcessString text s
  = Ok tt (with_view (after_disp (PrintString text) (remember_last (List.last text 0) (view_of s)))
             (set_run text s)).
Proof.
  intros Hne Ht (Hg & Hp & Ha & Hc).
  apply (ProcessString_text text s true); [done..|].
  pose proof (last_graphic text Hne Ht) as Hl. cbn. unfold OutputEngine_ActionPrintString.
  destruct text as [|c l]; [done|]. destruct (Z.leb_spec SPC (List.last (c :: l) 0)); [|lia].
  unfold mbind, prog_bind, set_lastPrintedChar, modify. by rewrite disp_eq.
Qed.

(** The digits of REP and its sequence. *)
Definition rep_sequence (n : wstring) : CsiSequence := mkCsi None n [] 0x62.

Lemma rep_action n c (s : Machine) :
  forallb _isNumericParamValue n = true → n ≠ [] →
  _lastPrintedChar (_engine s) = c → c ≠ NUL → at_ground s →
  ∃ s', ProcessString (csi_string (rep_sequence n)) s = Ok tt s'
    ∧ dispatched_once
        (PrintString (replicate (Z.to_nat (Z.max 1 (Z.min 32767 (decimal n)))) c)) s s'.
Proof.
  intros Hn Hne Hl Hc (Hg & Hp & Ha & Hca).
  set (call_ := PrintString _).
  edestruct (ProcessString_csi (rep_sequence n) s) as [lim Hr]; [|done..| |].
  - unfold csi_valid, rep_sequence. cbn. by rewrite digits_param_chars.
  - apply (CsiDispatch_success _ _ _ _ (after_disp call_ (view_of s))).
    + unfold csi_valid, rep_sequence. cbn. by rewrite digits_param_chars.
    + change (csi_chars (rep_sequence n)) with (wstr "b"). cbn [csi_text rep_sequence].
      apply forallb_Forall_true in Hn. rewrite parse_params_one by done.
      change (repeat_last_char [field_param n] (view_of s) = Ok true (after_disp call_ (view_of s))).
      unfold repeat_last_char, mbind, prog_bind, gets. cbn [view_of ev_engine]. rewrite Hl.
      rewrite (proj2 (Z.eqb_neq c NUL)) by done. cbn [negb].
      change (params_at [field_param n] 0) with (field_param n). rewrite as_numeric_field by done.
      fold call_. by rewrite disp_eq.
  - eexists. split; [exact Hr|]. split; [done|]. split; [done|].
    unfold view_of, csi_done, forget_last, after_disp. cbn.
    destruct (dispatch _ _ _) as [[r d] a]. cbn. by rewrite Hca.
Qed.

Lemma rep_nothing n (s : Machine) :
  forallb _isNumericParamValue n = true →
  _lastPrintedChar (_engine s) = NUL → at_ground s →
  ∃ s', ProcessString (csi_string (rep_sequence n)) s = Ok tt s'
    ∧ at_ground s' ∧ _engine s' = _engine s.
Proof.
  intros Hn Hl (Hg & Hp & Ha & Hca).
  edestruct (ProcessString_csi (rep_sequence n) s) as [lim Hr]; [|done..| |].
  - unfold csi_valid, rep_sequence. cbn. by rewrite digits_param_chars.
  - apply (CsiDispatch_success _ _ _ _ (view_of s)).
    + unfold csi_valid, rep_sequence. cbn. by rewrite digits_param_chars.
    + change (repeat_last_char (parse_params n) (view_of s) = Ok true (view_of s)).
      unfold repeat_last_char, mbind, prog_bind, gets. cbn [view_of ev_engine]. by rewrite Hl.
  - eexists. split; [exact Hr|]. split; [done|]. unfold csi_done, forget_last. cbn. rewrite <-Hl.
    by destruct s as [[]].
Qed.

(** REP.  After a text is printed, a repeat sequence with any number prints
    the last character of the text that many times (limited to 32767, and once
    for 0), and a second repeat sequence right after it prints nothing. *)
Theorem rep_repeats_last_character (text n m : wstring) (s : Machine) :
  (∀ str d a, (dispatch (PrintString str) d a).2 = a) →
  text ≠ [] → forallb (λ c, negb (_isActionableFromGround c)) text = true →
  n ≠ [] → forallb _isNumericParamValue n = true → forallb _isNumericParamValue m = true →
  at_ground s →
  let count := Z.to_nat (Z.max 1 (Z.min 32767 (decimal n))) in
  let printed := after_disp (PrintString text) (view_of s) in
  ∃ s', (ProcessString text;; ProcessString (csi_string (rep_sequence n));;
         ProcessString (csi_string (rep_sequence m))) s = Ok tt s'
    ∧ at_ground s'
    ∧ _engine s' = ev_engine (forget_last
        (after_disp (PrintString (replicate count (List.last text 0))) printed)).
Proof.
  intros Hansi Hne Ht Hn Hdn Hdm Hs. cbv zeta. set (c := List.last text 0).
  rewrite (bind_ok _ _ _ _ _ (ProcessString_print text s Hne Ht Hs)). fold c.
  set (s1 := with_view _ _). destruct Hs as (Hg & Hp & Ha & Hca).
  pose proof (last_graphic text Hne Ht) as Hc. fold c in Hc.
  assert (at_ground s1 ∧ _lastPrintedChar (_engine s1) = c
    ∧ view_of s1 = remember_last c (after_disp (PrintString text) (view_of s))) as (Hs1 & Hl1 & Hv1).
  { unfold s1, at_ground, after_disp. cbn. pose proof (Hansi text (_dispatch (_engine s))
      (_isInAnsiMode s)) as Hd. destruct (dispatch _ _ _) as [[r d] a]. cbn in *. by subst. }
  destruct (rep_action n c s1) as (s2 & Hr2 & Hg2 & Hp2 & Hv2); [done..| |done|].
  { unfold SPC, NUL in *. lia. }
  rewrite (bind_ok _ _ _ _ _ Hr2).
  set (call_ := PrintString (replicate _ _)) in *.
  assert (at_ground s2 ∧ _lastPrintedChar (_engine s2) = NUL
    ∧ _engine s2 = ev_engine (forget_last (after_disp call_ (after_disp (PrintString text)
        (view_of s))))) as (Hs2 & Hl2 & He2).
  { clear Hr2 Hs1 Hl1. pose proof (f_equal ev_cachedSequence Hv2) as H1'.
    pose proof (f_equal ev_isInAnsiMode Hv2) as H2'. pose proof (f_equal ev_engine Hv2) as H3'.
    rewrite Hv1 in H1', H2', H3'. unfold at_ground. revert H1' H2' H3'.
    unfold after_disp, remember_last, forget_last. cbn.
    pose proof (Hansi text (_dispatch (_engine s)) (_isInAnsiMode s)) as Hd1.
    destruct (dispatch (PrintString text) _ _) as [[r d] a]. cbn in *. subst a.
    pose proof (Hansi (replicate (Z.to_nat (1 `max` (32767 `min` decimal n))) c) d (_isInAnsiMode s))
      as Hd2. fold call_ in Hd2.
    destruct (dispatch call_ _ _) as [[r2 d2] a2]. cbn in *. subst a2.
    intros -> -> ->. done. }
  destruct (rep_nothing m s2) as (s3 & Hr3 & Hg3 & He3); [done..|].
  exists s3. split; [done|]. split; [done|]. by rewrite He3.
Qed.
End engine_facts.

(** ** The engine without a terminal *)

(** A dispatch for which printing two strings in turn is printing both. *)
Class DispatchPrints (D : Type) `{ITermDispatch D} : Prop := {
  dispatch_print_app a b d ansi : a ≠ [] → b ≠ [] →
    let '(_, d1, ansi1) := dispatch (PrintString a) d ansi in
    (dispatch (PrintString b) d1 ansi1).1.2 = (dispatch (PrintString (a ++ b)) d ansi).1.2
    ∧ (dispatch (PrintString b) d1 ansi1).2 = (dispatch (PrintString (a ++ b)) d ansi).2
}.

Section no_terminal.
Context {D T : Type} `{ITermDispatch D} `{ITerminalOutputConnection T} `{Utf8Converter}
  `{!DispatchPrints D}.

Abbreviation Engine := (OutputStateMachineEngine D T).

Definition no_terminal (e : Engine) : Prop := _pfnFlushToTerminal e = false.

Abbreviation R := (view_rel no_terminal).

Lemma same_disp c : same R (disp c) (disp c).
Proof.
  intros [cs a e] [cs' a' e'] (Ha & He & Hok). cbn in *. subst. unfold disp. cbn.
  by destruct (dispatch _ _ _) as [[r d] b].
Qed.

Lemma same_set_last c : same R (set_lastPrintedChar c) (set_lastPrintedChar c).
Proof. intros [cs a e] [cs' a' e'] (Ha & He & Hok). cbn in *. by subst. Qed.

Lemma same_get_last :
  same R (gets (λ v, _lastPrintedChar (ev_engine v))) (gets (λ v, _lastPrintedChar (ev_engine v))).
Proof. apply same_gets. intros v v' (_ & -> & _). done. Qed.

(** Without a terminal the callback is never called. *)
Lemma same_flush_if_failed k k' b : same R (flush_if_failed k b) (flush_if_failed k' b).
Proof.
  intros [cs a e] [cs' a' e'] (Ha & He & Hok). cbn in *. subst.
  unfold flush_if_failed, mbind, prog_bind, gets. cbn. by rewrite Hok.
Qed.

Lemma same_bell (k k' : prog (EngineView Engine) bool) :
  same R (hasFlush ← gets (λ v, _pfnFlushToTerminal (ev_engine v));
          if (hasFlush : bool) then _ ← k; mret tt else mret tt)
         (hasFlush ← gets (λ v, _pfnFlushToTerminal (ev_engine v));
          if (hasFlush : bool) then _ ← k'; mret tt else mret tt).
Proof.
  intros [cs a e] [cs' a' e'] (Ha & He & Hok). cbn in *. subst.
  unfold mbind, prog_bind, gets. cbn. by rewrite Hok.
Qed.

Lemma same_switch {A} code (cases : list (Z * prog (EngineView Engine) A)) otherwise :
  Forall (λ ca, same R ca.2 ca.2) cases → same R otherwise otherwise →
  same R (switch code cases otherwise) (switch code cases otherwise).
Proof. induction 1 as [|[c a] l Ha _ IH]; cbn; [done|]. intros Ho. case_match; auto. Qed.

Lemma same_for_each f ps :
  (∀ p, same R (f p) (f p)) → same R (params_for_each f ps) (params_for_each f ps).
Proof.
  intros Hf. unfold params_for_each. apply same_bind; [done|]. intros b.
  revert b. induction (drop 1 ps) as [|p l IH]; intros b; cbn; auto with same.
Qed.
#[local] Hint Resolve same_disp same_set_last same_get_last same_flush_if_failed same_bell
  same_for_each : same.

Lemma same_set_entries pairs b : same R (set_color_entries pairs b) (set_color_entries pairs b).
Proof.
  revert b. induction pairs as [|[i c] l IH]; intros b; cbn; [apply same_ret|].
  unfold and_then. auto with same.
Qed.

Lemma same_osc_color cmd setter st :
  same R (set_osc_color cmd setter st) (set_osc_color cmd setter st).
Proof.
  destruct st as [[i [|c l]] b]; cbn; [auto with same|]. unfold and_then. auto 8 with same.
Qed.

Lemma same_osc_colors p str : same R (osc_set_colors p str) (osc_set_colors p str).
Proof.
  unfold osc_set_colors. destruct (_GetOscSetColor str) as [[] l]; [|apply same_ret].
  repeat (apply same_bind; [apply same_osc_color|intros ?]). apply same_ret.
Qed.
#[local] Hint Resolve same_set_entries same_osc_colors : same.

Lemma same_ActionExecute c k k' :
  same R (OutputEngine_ActionExecute c k) (OutputEngine_ActionExecute c k').
Proof.
  unfold OutputEngine_ActionExecute, _ClearLastChar.
  apply same_bind; [|auto with same]. apply same_if; [auto with same|].
  apply same_if; [apply same_bind; [auto with same|intros _; apply same_bell]|].
  repeat (apply same_if; [auto with same|]). auto with same.
Qed.

Lemma same_PrintString str k k' :
  same R (OutputEngine_ActionPrintString str k) (OutputEngine_ActionPrintString str k').
Proof. unfold OutputEngine_ActionPrintString. destruct str; auto with same. Qed.

Lemma view_rel_refl v : no_terminal (ev_engine v) → R v v.
Proof. done. Qed.

(** Printing a non-empty string, as one step. *)
Definition note_last (str : wstring) (v : EngineView Engine) : EngineView Engine :=
  if SPC <=? List.last str 0 then remember_last (List.last str 0) v else v.

Lemma PrintString_eq str k v :
  str ≠ [] →
  OutputEngine_ActionPrintString str k v = Ok true (after_disp (PrintString str) (note_last str v)).
Proof.
  intros Hne. unfold OutputEngine_ActionPrintString, note_last. destruct str as [|c l]; [done|].
  unfold mbind, prog_bind. destruct (SPC <=? _); cbn; by rewrite disp_eq.
Qed.

Lemma last_app_ne {A} (l l' : list A) d : l' ≠ [] → List.last (l ++ l') d = List.last l' d.
Proof.
  intros Hne. rewrite <-(removelast_last_app l' d Hne) at 1. rewrite app_assoc. apply last_last.
Qed.

Lemma same_print_app a b k v :
  no_terminal (ev_engine v) → is_text b = true →
  outcome_rel R (OutputEngine_ActionPrintString (a ++ b) k v)
    ((_ ← OutputEngine_ActionPrintString a k; OutputEngine_ActionPrintString b k) v).
Proof.
  intros Hok Hb. destruct (decide (a = [])) as [->|Ha].
  { by apply (same_PrintString b k k v v). }
  unfold mbind, prog_bind. rewrite (PrintString_eq a) by done.
  destruct (decide (b = [])) as [->|Hbne].
  { rewrite app_nil_r, PrintString_eq by done. cbn. split; [done|]. split; [done|]. split; [done|].
    unfold no_terminal, after_disp, note_last in *. repeat case_match; cbn in *; congruence. }
  rewrite !PrintString_eq by (done || by intros [? ?]%app_eq_nil). split; [done|].
  pose proof (last_graphic b Hbne Hb) as Hlb. unfold note_last.
  rewrite last_app_ne by done. rewrite (proj2 (Z.leb_le _ _) Hlb).
  pose proof (dispatch_print_app a b (_dispatch (ev_engine v)) (ev_isInAnsiMode v) Ha Hbne) as Hd.
  destruct v as [cs m [d tty fl l]]. unfold no_terminal, after_disp, R in *. cbn in *. subst fl.
  assert (∀ c : bool, (if c then remember_last (List.last a 0) (mkView cs m (mkOutputEngine d tty false l))
     else mkView cs m (mkOutputEngine d tty false l)) =
     mkView cs m (mkOutputEngine d tty false (if c then List.last a 0 else l))) as E by by intros [].
  rewrite E. cbn. destruct (dispatch (PrintString a) d m) as [[r1 d1] m1]. cbn.
  destruct (dispatch (PrintString (a ++ b)) d m) as [[r2 d2] m2], (dispatch (PrintString b) d1 m1)
    as [[r3 d3] m3]. cbn in *. by destruct Hd as [-> ->].
Qed.

Ltac forall_cases := repeat first [apply Forall_nil_2 | apply Forall_cons_2; [cbn [snd]|]].

#[export] Instance OutputEngine_flush_free : EngineFlushFree Engine Empty_set no_terminal.
Proof.
  split; intros; try (intros k' k''); cbn -[switch].
  - apply same_ActionExecute.
  - apply same_ActionExecute.
  - unfold OutputEngine_ActionPrint. auto with same.
  - apply same_PrintString.
  - unfold OutputEngine_ActionEscDispatch, _ClearLastChar.
    apply same_bind; [|auto with same]. apply same_switch.
    + forall_cases; auto with same.
    + apply same_switch; [forall_cases|]; auto with same.
  - unfold OutputEngine_ActionVt52EscDispatch, _ClearLastChar. apply same_bind; [|auto with same].
    apply same_switch; [forall_cases|]; auto with same.
  - unfold OutputEngine_ActionCsiDispatch, _ClearLastChar.
    apply same_bind; [|auto with same]. apply same_switch; [|auto with same].
    unfold csi_cases, and_then, repeat_last_char. forall_cases; auto 8 with same.
  - unfold OutputEngine_ActionDcsDispatch, _ClearLastChar. auto with same.
  - apply same_ret.
  - unfold OutputEngine_ActionOscDispatch, _ClearLastChar.
    apply same_bind; [|auto with same]. apply same_switch; [|auto with same].
    unfold osc_cases, and_then. forall_cases; repeat case_match; auto with same.
  - unfold OutputEngine_ActionSs3Dispatch, _ClearLastChar. auto with same.
  - destruct h.
  - done.
  - done.
  - by apply same_print_app.
Qed.

Lemma cuttings_related (strings strings' : list wstring) (s : StateMachine Engine Empty_set) :
  concat strings = concat strings' → no_terminal (_engine s) →
  outcome_rel (sm_rel no_terminal) (ProcessStrings strings s) (ProcessStrings strings' s).
Proof.
  intros E Hok. eapply outcome_rel_trans; [exact (sm_rel_trans no_terminal)| |].
  - by apply (ProcessStrings_char_steps no_terminal).
  - rewrite E. apply outcome_rel_sym; [exact (sm_rel_sym no_terminal)|].
    by apply (ProcessStrings_char_steps no_terminal).
Qed.
End no_terminal.

(** ** A dispatch that writes down its calls

    The text of [PrintString] is written down as characters, every other call as it
    comes; what the dispatch answers and the ANSI mode that it sets are any function of
    what it was told so far. *)

Module DispatchTranscript.
Definition Log := list (wchar + DispatchCall).

Section dispatch.
Context (answer : Log → bool → bool * bool) {T : Type} `{ITerminalOutputConnection T} `{Utf8Converter}.

#[local] Instance transcript_dispatch : ITermDispatch Log :=
  {| dispatch c d ansi :=
       match c with
       | PrintString str => (true, d ++ (inl <$> str), ansi)
       | _ => let l := d ++ [inr c] in ((answer l ansi).1, l, (answer l ansi).2)
       end |}.

#[local] Instance transcript_prints : DispatchPrints Log.
Proof using. split. intros a b d ansi _ _. cbn. by rewrite fmap_app, app_assoc. Qed.

(** C37: how the output of a program is cut into writes does not matter to the calls that
    the dispatch of a terminal without an outer terminal gets: two lists of strings with
    the same concatenation, from any state of parser and engine, make the same calls
    with the same arguments and print the same text between them, whatever the dispatch
    answers and sets the ANSI mode to, and leave the same parser and engine, also when
    the cuts fall inside sequences.  Only the cutting of text into calls of
    [PrintString] may differ, and the run and the cached sequence of the parser. *)
Theorem output_cutting_does_not_matter (strings strings' : list wstring)
    (s : StateMachine (OutputStateMachineEngine Log T) Empty_set) :
  concat strings = concat strings' → no_terminal (_engine s) →
  outcome_rel (λ s1 s2, erase s1 = erase s2) (ProcessStrings strings s) (ProcessStrings strings' s).
Proof.
  intros E Hs. apply (outcome_rel_mono (sm_rel no_terminal)); [by intros ?? []|]. by apply cuttings_related.
Qed.
End dispatch.
End DispatchTranscript.

(** ** A dispatch and a connection that record *)

Module Recorder.
Definition Log := list DispatchCall.
Definition Tty := list wstring.

#[export] Instance log_dispatch : ITermDispatch Log :=
  {| dispatch c d ansi := (true, d ++ [c], ansi) |}.
#[export] Instance log_safe : DispatchSafe Log := {| dispatch_inv _ := True; dispatch_keeps _ _ _ _ H := H |}.
#[export] Instance log_connection : ITerminalOutputConnection Tty :=
  {| WriteTerminalW str t := (0, t ++ [str]) |}.
#[export] Instance ascii_converter : Utf8Converter :=
  λ l, if forallb (λ c, c <? 128) l then Some l else None.

Definition engine : OutputStateMachineEngine Log Tty := mkOutputEngine [] (Some []) true NUL.

(** A machine as it is constructed. *)
Definition machine : StateMachine (OutputStateMachineEngine Log Tty) Empty_set :=
  StateMachine_init engine.

(** What a run of the parser has made of the strings it was given. *)
Definition log_of (strings : list wstring) : option (Log * option Tty) :=
  match (fix go l := match l with
                     | [] => mret tt
                     | str :: l' => ProcessString str;; go l'
                     end) strings machine with
  | Ok _ s => Some (_dispatch (_engine s), _pTtyConnection (_engine s))
  | Throw _ _ => None
  end.
End Recorder.
Import Recorder.

Lemma csi_dispatch_by_text_witness :
  csi_valid (mkCsi (Some 0x3F) (wstr "25") [] (0x68)) = true
  ∧ OutputEngine_ActionCsiDispatch (csi_id (mkCsi (Some 0x3F) (wstr "25") [] (0x68)))
      [VTParameter_of 25] (mret true) (mkView None true engine)
    = (success ← disp (SetMode (DECPrivateMode 25)); success ← flush_if_failed (mret true) success;
       _ClearLastChar;; mret success) (mkView None true engine).
Proof.
  split; [reflexivity|].
  rewrite (csi_dispatch_by_text (mkCsi (Some 0x3F) (wstr "25") [] (0x68))); reflexivity.
Defined.

Lemma csi_unknown_passes_through_witness :
  let q := mkCsi None (wstr "1;2") [] 0x79 in
  ∃ s', ProcessString (csi_string q) machine = Ok tt s' ∧ at_ground s'
    ∧ _engine s' = mkOutputEngine [] (Some [csi_string q]) true NUL.
Proof.
  refine (csi_unknown_passes_through (mkCsi None (wstr "1;2") [] 0x79) machine [] _ _ _ _ _);
    [reflexivity|repeat split| |reflexivity|reflexivity].
  apply (bool_decide_unpack _). vm_compute. exact I.
Defined.

Lemma csi_cursor_position_witness :
  ∃ s', ProcessString ([ESC; 0x5B] ++ wstr "12" ++ [0x3B] ++ wstr "99999" ++ [0x48]) machine
        = Ok tt s'
    ∧ dispatched_once (CursorPosition 12 32767) machine s'.
Proof.
  refine (csi_cursor_position (wstr "12") (wstr "99999") machine _ _ _ _);
    [reflexivity|reflexivity|repeat split|reflexivity].
Defined.

Lemma rep_repeats_last_character_witness :
  ∃ s', (ProcessString (wstr "ab");; ProcessString (csi_string (rep_sequence (wstr "3")));;
         ProcessString (csi_string (rep_sequence (wstr "2")))) machine = Ok tt s'
    ∧ at_ground s'
    ∧ _engine s' = mkOutputEngine [PrintString (wstr "ab"); PrintString (wstr "bbb")] (Some [])
                     true NUL.
Proof.
  refine (rep_repeats_last_character (wstr "ab") (wstr "3") (wstr "2") machine _ _ _ _ _ _ _);
    [done|done|reflexivity|done|reflexivity|reflexivity|repeat split].
Defined.

(** The identifier of a sequence is ambiguous when its final character is
    not a byte: [ESC \[ U+7021] performs a soft reset, as [ESC \[ ! p] does. *)
Theorem csi_wide_final_collides :
  log_of [[ESC; 0x5B; 0x7021]] = log_of [[ESC; 0x5B; 0x21; 0x70]]
  ∧ log_of [[ESC; 0x5B; 0x7021]] = Some ([SoftReset], Some []).
Proof. split; vm_compute; reflexivity. Qed.

(** The line-rendition sequences ([ESC # 3] to [ESC # 6]) are executed and
    also written to the connected terminal, unlike [ESC # 8], which is only
    executed. *)
Theorem line_rendition_forwarded :
  log_of [[ESC; 0x23; 0x33]] = Some ([SetLineRendition DoubleHeightTop], Some [[ESC; 0x23; 0x33]])
  ∧ log_of [[ESC; 0x23; 0x38]] = Some ([ScreenAlignmentPattern], Some []).
Proof. split; vm_compute; reflexivity. Qed.

(** The text a terminal is given in two pieces. *)
Definition sample_pieces : list wstring := [wstr "ab" ++ [ESC; 0x5B] ++ wstr "3"; wstr "1mcd"].

(** A dispatch that refuses every other call and then sets the VT52 mode. *)
Definition sample_answer (l : DispatchTranscript.Log) (ansi : bool) : bool * bool :=
  let b := Nat.even (length l) in (b, b && ansi).

Lemma output_cutting_does_not_matter_witness :
  let dispatch := DispatchTranscript.transcript_dispatch sample_answer in
  let s := StateMachine_init (mkOutputEngine [] None false NUL) in
  outcome_rel (λ s1 s2, erase s1 = erase s2)
    (ProcessStrings (E := OutputStateMachineEngine DispatchTranscript.Log Recorder.Tty) (H := Empty_set) sample_pieces s)
    (ProcessStrings [concat sample_pieces] s).
Proof.
  apply (DispatchTranscript.output_cutting_does_not_matter sample_answer (T := Recorder.Tty) sample_pieces); reflexivity.
Defined.

Lemma parser_never_fails_witness :
  ∃ s', ProcessStrings [wstr "ab" ++ [ESC; 0x5B]; []; wstr "31mcd"] Recorder.machine = Ok tt s'
    ∧ sm_wf s'.
Proof.
  apply (parser_never_fails [wstr "ab" ++ [ESC; 0x5B]; []; wstr "31mcd"] Recorder.engine).
  - apply (bool_decide_unpack _). vm_compute. exact I.
  - right. reflexivity.
  - exact I.
Defined.

Lemma parser_resynchronizes_witness :
  ∃ s1 s2, ProcessCharacter CAN Recorder.machine = Ok tt s1
    ∧ ProcessCharacter SUB Recorder.machine = Ok tt s2 ∧ _state s1 = Ground ∧ _state s2 = Ground.
Proof.
  apply (parser_resynchronizes Recorder.machine); [by apply init_wf|]. left. discriminate.
Defined.

Lemma csi_sequence_dispatched_witness :
  let q := mkCsi None (wstr "2") [] 0x4A in
  ∃ lim, ProcessString (csi_string q) Recorder.machine
    = Ok tt (csi_done q lim (mkView None true (mkOutputEngine [EraseInDisplay 2] (Some []) true NUL))).
Proof.
  refine (csi_sequence_dispatched (mkCsi None (wstr "2") [] 0x4A) Recorder.machine true _ _ _ _ _ _ _);
    reflexivity.
Defined.

Lemma dcs_param_control_dispatched_witness :
  ProcessCharacter BEL (set_state DcsParam Recorder.machine)
    = _ActionDcsDispatch BEL (set_state DcsParam Recorder.machine)
  ∧ ProcessCharacter BEL (set_state DcsEntry Recorder.machine)
    = Ok tt (set_state DcsEntry Recorder.machine).
Proof.
  split.
  - apply (dcs_param_control_dispatched (set_state DcsParam Recorder.machine) BEL); reflexivity.
  - apply (dcs_param_control_dispatched (set_state DcsEntry Recorder.machine) BEL); reflexivity.
Defined.
