(* ===== verification/TextColor.v ===== *)
(** Text colours: [src/src/buffer/out/TextColor.h] and [TextColor.cpp]. *)

From S2P Require Import Prelude.

(** ** Data *)

Inductive ColorType := IsIndex256_ | IsIndex16_ | IsDefault_ | IsRgb_.

#[global] Instance ColorType_eq_dec : EqDecision ColorType.
Proof. solve_decision. Defined.

(** [_red] and [_index] are one byte (a union). *)
Record TextColor := mkTextColor {
  _meta : ColorType;
  _red : Z;
  _green : Z;
  _blue : Z
}.

Definition _index (c : TextColor) : Z := _red c.

(** [operator==] compares the four members. *)
#[global] Instance TextColor_eq_dec : EqDecision TextColor.
Proof. solve_decision. Defined.

(** [GetRValue], [GetGValue], [GetBValue] and [RGB]. *)
Definition GetRValue (rgb : Z) : Z := u8 rgb.
Definition GetGValue (rgb : Z) : Z := u8 (Z.shiftr (u16 rgb) 8).
Definition GetBValue (rgb : Z) : Z := u8 (Z.shiftr rgb 16).
Definition RGB (r g b : Z) : Z :=
  Z.lor (Z.lor (u8 r) (Z.shiftl (u8 g) 8)) (Z.shiftl (u8 b) 16).

(** The three constructors. *)
Definition TextColor_default : TextColor := mkTextColor IsDefault_ 0 0 0.
Definition TextColor_index (index : Z) (isIndex256 : bool) : TextColor :=
  mkTextColor (if isIndex256 then IsIndex256_ else IsIndex16_) index 0 0.
Definition TextColor_rgb (rgb : Z) : TextColor :=
  mkTextColor IsRgb_ (GetRValue rgb) (GetGValue rgb) (GetBValue rgb).

(** ** Tables *)

Definition CompressedRgbToIndex16 : list Z :=
  [ 0; 1; 1; 9; 0; 0; 1; 1; 2; 1; 1; 1; 2; 8; 1; 9;
    2; 2; 3; 3; 2; 2; 11; 3; 10; 10; 11; 11; 10; 10; 10; 11;
    0; 5; 1; 1; 0; 0; 1; 1; 8; 1; 1; 1; 2; 8; 1; 9;
    2; 2; 3; 3; 2; 2; 11; 3; 10; 10; 10; 11; 10; 10; 10; 11;
    5; 5; 5; 1; 4; 5; 1; 1; 8; 8; 1; 9; 2; 8; 9; 9;
    2; 2; 3; 3; 2; 2; 11; 3; 10; 10; 11; 11; 10; 10; 10; 11;
    4; 5; 5; 1; 4; 5; 5; 1; 8; 5; 5; 1; 8; 8; 9; 9;
    2; 2; 8; 9; 10; 2; 11; 3; 10; 10; 11; 11; 10; 10; 10; 11;
    4; 13; 5; 5; 4; 13; 5; 5; 4; 13; 13; 13; 6; 8; 13; 9;
    6; 8; 8; 9; 10; 10; 11; 3; 10; 10; 11; 11; 10; 10; 10; 11;
    4; 13; 13; 13; 4; 13; 13; 13; 4; 12; 13; 13; 6; 12; 13; 13;
    6; 6; 8; 9; 6; 6; 7; 7; 10; 14; 14; 7; 10; 10; 14; 11;
    4; 12; 13; 13; 4; 12; 13; 13; 4; 12; 13; 13; 6; 12; 12; 13;
    6; 6; 12; 7; 6; 6; 7; 7; 6; 14; 14; 7; 14; 14; 14; 15;
    12; 12; 13; 13; 12; 12; 13; 13; 12; 12; 12; 13; 12; 12; 12; 13;
    6; 12; 12; 7; 6; 6; 7; 7; 6; 14; 14; 7; 14; 14; 14; 15 ].

Definition Index256ToIndex16 : list Z :=
  [ 0; 1; 2; 3; 4; 5; 6; 7; 8; 9; 10; 11; 12; 13; 14; 15;
    0; 1; 1; 1; 9; 9; 2; 1; 1; 1; 1; 1; 2; 2; 3; 3;
    3; 3; 2; 2; 11; 11; 3; 3; 10; 10; 11; 11; 11; 11; 10; 10;
    10; 10; 11; 11; 5; 5; 5; 5; 1; 1; 8; 8; 1; 1; 9; 9;
    2; 2; 3; 3; 3; 3; 2; 2; 11; 11; 3; 3; 10; 10; 11; 11;
    11; 11; 10; 10; 10; 10; 11; 11; 4; 13; 5; 5; 5; 5; 4; 13;
    13; 13; 13; 13; 6; 8; 8; 8; 9; 9; 10; 10; 11; 11; 3; 3;
    10; 10; 11; 11; 11; 11; 10; 10; 10; 10; 11; 11; 4; 13; 13; 13;
    13; 13; 4; 12; 13; 13; 13; 13; 6; 6; 8; 8; 9; 9; 6; 6;
    7; 7; 7; 7; 10; 14; 14; 14; 7; 7; 10; 10; 14; 14; 11; 11;
    4; 12; 13; 13; 13; 13; 4; 12; 13; 13; 13; 13; 6; 6; 12; 12;
    7; 7; 6; 6; 7; 7; 7; 7; 6; 14; 14; 14; 7; 7; 14; 14;
    14; 14; 15; 15; 12; 12; 13; 13; 13; 13; 12; 12; 12; 12; 13; 13;
    6; 12; 12; 12; 7; 7; 6; 6; 7; 7; 7; 7; 6; 14; 14; 14;
    7; 7; 14; 14; 14; 14; 15; 15; 0; 0; 0; 0; 0; 0; 8; 8;
    8; 8; 8; 8; 8; 8; 8; 8; 7; 7; 7; 7; 7; 7; 15; 15 ].

(** ** Operations *)

Definition IsIndex16 (c : TextColor) : bool := bool_decide (_meta c = IsIndex16_).
Definition IsIndex256 (c : TextColor) : bool := bool_decide (_meta c = IsIndex256_).
Definition IsDefault (c : TextColor) : bool := bool_decide (_meta c = IsDefault_).
Definition IsRgb (c : TextColor) : bool := bool_decide (_meta c = IsRgb_).

Definition CanBeBrightened (c : TextColor) : bool := IsIndex16 c || IsDefault c.

Definition TextColor_IsLegacy (c : TextColor) : bool :=
  IsIndex16 c || (IsIndex256 c && (_index c <? 16)).

Definition TextColor_SetColor (rgbColor : Z) (c : TextColor) : TextColor :=
  mkTextColor IsRgb_ (GetRValue rgbColor) (GetGValue rgbColor) (GetBValue rgbColor).

(** The green and blue bytes keep their old values. *)
Definition TextColor_SetIndex (index : Z) (isIndex256 : bool) (c : TextColor) : TextColor :=
  mkTextColor (if isIndex256 then IsIndex256_ else IsIndex16_) index (_green c) (_blue c).

Definition TextColor_SetDefault (c : TextColor) : TextColor :=
  mkTextColor IsDefault_ (_red c) (_green c) (_blue c).

Definition GetIndex (c : TextColor) : Z := _index c.

Definition GetRGB (c : TextColor) : Z := RGB (_red c) (_green c) (_blue c).

(** [til::at] does not check its index. *)
Definition til_at (l : list Z) (i : Z) : exn + Z :=
  match l !! Z.to_nat i with
  | Some x => inr x
  | None => inl UndefinedBehavior
  end.

(** The loop over the dark half of the table. *)
Fixpoint bright_of_default (i : nat) (todo : nat) (colorTable : list Z) (defaultColor : Z)
    : exn + Z :=
  match todo with
  | O => inr defaultColor
  | S todo =>
      match til_at colorTable (Z.of_nat i) with
      | inl e => inl e
      | inr c =>
          if c =? defaultColor then til_at colorTable (Z.of_nat i + 8)
          else bright_of_default (S i) todo colorTable defaultColor
      end
  end.

Definition GetColor (colorTable : list Z) (defaultColor : Z) (brighten : bool) (c : TextColor)
    : exn + Z :=
  if IsDefault c then
    if brighten then
      if (length colorTable <? 16)%nat then inl FailFast
      else bright_of_default 0 8 colorTable defaultColor
    else inr defaultColor
  else if IsRgb c then inr (GetRGB c)
  else if IsIndex16 c && brighten then til_at colorTable (Z.lor (_index c) 8)
  else til_at colorTable (_index c).

(** The indices of the two [at] are bytes. *)
Definition GetLegacyIndex (defaultIndex : Z) (c : TextColor) : Z :=
  if IsDefault c then defaultIndex
  else if IsIndex16 c then GetIndex c
  else if IsIndex256 c then default 0 (Index256ToIndex16 !! Z.to_nat (GetIndex c))
  else
    let compressedRgb :=
      u8 (Z.land (_red c) 0xE0 + Z.land (Z.shiftr (_green c) 3) 0x1C
          + Z.land (Z.shiftr (_blue c) 6) 0x03) in
    default 0 (CompressedRgbToIndex16 !! Z.to_nat compressedRgb).

(** ** Lemmas *)

(** The members are bytes. *)
Definition TextColor_wf (c : TextColor) : Prop :=
  0 <= _red c < 256 ∧ 0 <= _green c < 256 ∧ 0 <= _blue c < 256.

Lemma u8_range z : 0 <= u8 z < 256.
Proof. by apply (wrapu_range 8). Qed.

Lemma TextColor_rgb_wf z : TextColor_wf (TextColor_rgb z).
Proof. repeat split; apply u8_range. Qed.

(** A colour value taken apart and put together again. *)
Lemma RGB_parts z :
  0 <= z < 2 ^ 24 → RGB (GetRValue z) (GetGValue z) (GetBValue z) = z.
Proof.
  intros Hz. unfold RGB, GetRValue, GetGValue, GetBValue, u8, u16, wrapu.
  rewrite !Z.shiftr_div_pow2 by lia. rewrite !Z.mod_mod by lia.
  rewrite (Z.lor_comm (z mod 2 ^ 8)).
  rewrite lor_shiftl_add by (try lia; apply Z.mod_pos_bound; lia).
  rewrite Z.lor_comm, lor_shiftl_add; [|lia|].
  - change (2 ^ 16) with 65536. change (2 ^ 8) with 256. change (2 ^ 24) with 16777216 in Hz.
    Z.div_mod_to_equations. lia.
  - change (2 ^ 16) with 65536. change (2 ^ 8) with 256. Z.div_mod_to_equations. lia.
Qed.

Lemma legacy_tables_range :
  length CompressedRgbToIndex16 = 256%nat ∧ length Index256ToIndex16 = 256%nat
  ∧ Forall (λ i, 0 <= i < 16) CompressedRgbToIndex16 ∧ Forall (λ i, 0 <= i < 16) Index256ToIndex16.
Proof.
  split; [done|]. split; [done|].
  split; apply (bool_decide_unpack _); vm_compute; exact I.
Qed.

Lemma Forall_lookup_default (P : Z → Prop) (l : list Z) (i : nat) :
  Forall P l → (i < length l)%nat → P (default 0 (l !! i)).
Proof.
  intros Hl Hi. destruct (lookup_lt_is_Some_2 l i Hi) as [x Hx]. rewrite Hx.
  by apply (Forall_lookup_1 _ _ _ _ Hl Hx).
Qed.

Lemma til_at_some l i : 0 <= i < Z.of_nat (length l) → ∃ x, til_at l i = inr x.
Proof.
  intros Hi. unfold til_at. destruct (lookup_lt_is_Some_2 l (Z.to_nat i)) as [x ->]; [lia|]. eauto.
Qed.

Lemma bright_of_default_some i todo l d :
  (i + todo <= 8)%nat → (16 <= length l)%nat → ∃ x, bright_of_default i todo l d = inr x.
Proof.
  revert i. induction todo as [|todo IH]; intros i Hi Hl; cbn; [eauto|].
  destruct (til_at_some l (Z.of_nat i)) as [x ->]; [lia|].
  destruct (x =? d); [apply til_at_some; lia|]. apply IH; lia.
Qed.

Lemma lor_8_byte : ∀ i, 0 <= i < 256 → 0 <= Z.lor i 8 < 256.
Proof. apply (forall_byte (λ i, 0 <= Z.lor i 8 < 256)). vm_compute. reflexivity. Qed.

(** With a full table of 256 colours every colour has a value: no lookup is
    out of range and no check terminates the process, brightened or not. *)
Theorem GetColor_total (colorTable : list Z) (defaultColor : Z) (brighten : bool) (c : TextColor) :
  length colorTable = 256%nat → TextColor_wf c →
  ∃ rgb, GetColor colorTable defaultColor brighten c = inr rgb.
Proof.
  intros Hl (Hr & Hg & Hb). pose proof (lor_8_byte _ Hr). unfold GetColor, _index. rewrite Hl.
  repeat case_match; try (eexists; reflexivity); try done;
    first [apply bright_of_default_some; lia | apply til_at_some; lia].
Qed.

Lemma GetColor_total_witness :
  ∃ rgb, GetColor (replicate 256 7) 1 true (TextColor_index 200 false) = inr rgb.
Proof. apply GetColor_total; [reflexivity|repeat split; cbn; lia]. Defined.

(** An RGB colour keeps its value: the colour that is read back from it is
    the one it was made of, whatever the table, the default and brightening. *)
Theorem GetColor_rgb (colorTable : list Z) (defaultColor : Z) (brighten : bool) (rgb : Z) :
  0 <= rgb < 2 ^ 24 → GetColor colorTable defaultColor brighten (TextColor_rgb rgb) = inr rgb.
Proof.
  intros Hr. unfold GetColor, GetRGB. cbn. f_equal. unfold GetRValue, GetGValue, GetBValue.
  by apply RGB_parts.
Qed.

Lemma GetColor_rgb_witness : GetColor [] 1 true (TextColor_rgb 0x123456) = inr 0x123456.
Proof. apply GetColor_rgb. lia. Defined.

(** The legacy index of every colour is one of the sixteen, given that the
    default index and the 16-colour indices are. *)
Theorem GetLegacyIndex_range (defaultIndex : Z) (c : TextColor) :
  0 <= defaultIndex < 16 → TextColor_wf c → (IsIndex16 c = true → _index c < 16) →
  0 <= GetLegacyIndex defaultIndex c < 16.
Proof.
  intros Hd (Hr & Hg & Hb) Hi. destruct legacy_tables_range as (L1 & L2 & F1 & F2).
  unfold GetLegacyIndex, GetIndex, _index in *.
  destruct (IsDefault c); [done|]. destruct (IsIndex16 c); [by split; [lia|apply Hi]|].
  destruct (IsIndex256 c).
  - apply (Forall_lookup_default _ _ _ F2). lia.
  - apply (Forall_lookup_default _ _ _ F1). rewrite L1. pose proof (u8_range
      (Z.land (_red c) 0xE0 + Z.land (Z.shiftr (_green c) 3) 0x1C
       + Z.land (Z.shiftr (_blue c) 6) 0x03)). lia.
Qed.

Lemma GetLegacyIndex_range_witness : 0 <= GetLegacyIndex 7 (TextColor_rgb 0xFF8040) < 16.
Proof. apply GetLegacyIndex_range; [lia|apply TextColor_rgb_wf|discriminate]. Defined.
