(* ===== verification/TextAttribute.v ===== *)
(** Text attributes: [src/src/buffer/out/TextAttribute.hpp] and
    [TextAttribute.cpp], with the constants of [src/src/inc/conattrs.hpp]. *)

From S2P Require Import Prelude Utils TextColor.

(** ** Constants *)

Definition FOREGROUND_INTENSITY : Z := 0x0008.
Definition FG_ATTRS : Z := 0x000F.
Definition BG_ATTRS : Z := 0x00F0.
Definition COMMON_LVB_LEADING_BYTE : Z := 0x0100.
Definition COMMON_LVB_TRAILING_BYTE : Z := 0x0200.
Definition COMMON_LVB_GRID_HORIZONTAL : Z := 0x0400.
Definition COMMON_LVB_GRID_LVERTICAL : Z := 0x0800.
Definition COMMON_LVB_GRID_RVERTICAL : Z := 0x1000.
Definition COMMON_LVB_REVERSE_VIDEO : Z := 0x4000.
Definition COMMON_LVB_UNDERSCORE : Z := 0x8000.
Definition COMMON_LVB_SBCSDBCS : Z := 0x0300.
Definition META_ATTRS : Z :=
  Z.lor COMMON_LVB_LEADING_BYTE (Z.lor COMMON_LVB_TRAILING_BYTE (Z.lor COMMON_LVB_GRID_HORIZONTAL
    (Z.lor COMMON_LVB_GRID_LVERTICAL (Z.lor COMMON_LVB_GRID_RVERTICAL
    (Z.lor COMMON_LVB_REVERSE_VIDEO COMMON_LVB_UNDERSCORE))))).

Module ExtendedAttributes.
Definition Normal : Z := 0x00.
Definition Bold : Z := 0x01.
Definition Italics : Z := 0x02.
Definition Blinking : Z := 0x04.
Definition Invisible : Z := 0x08.
Definition CrossedOut : Z := 0x10.
Definition Underlined : Z := 0x20.
Definition DoublyUnderlined : Z := 0x40.
Definition Faint : Z := 0x80.
End ExtendedAttributes.

(** The [WI_] macros for flags. *)
Definition WI_IsFlagSet (v f : Z) : bool := negb (Z.land v f =? 0).
Definition WI_IsAnyFlagSet (v f : Z) : bool := negb (Z.land v f =? 0).
Definition WI_AreAllFlagsClear (v f : Z) : bool := Z.land v f =? 0.
Definition WI_ClearAllFlags (v f : Z) : Z := Z.ldiff v f.
Definition WI_UpdateFlag (v f : Z) (b : bool) : Z := if b then Z.lor v f else Z.ldiff v f.
Definition WI_ToggleFlag (v f : Z) : Z := Z.lxor v f.

(** ** Data *)

Record TextAttribute := mkTextAttribute {
  _wAttrLegacy : Z;
  _hyperlinkId : Z;
  _foreground : TextColor;
  _background : TextColor;
  _extendedAttrs : Z
}.

(** [operator==] compares the five members. *)
#[global] Instance TextAttribute_eq_dec : EqDecision TextAttribute.
Proof. solve_decision. Defined.

(** The two static members. *)
Record LegacyDefaults := mkLegacyDefaults {
  s_legacyDefaultForeground : Z;
  s_legacyDefaultBackground : Z
}.

Definition LegacyDefaults_init : LegacyDefaults := mkLegacyDefaults 7 0.

Definition SetLegacyDefaultAttributes (defaultAttributes : Z) : LegacyDefaults :=
  mkLegacyDefaults (Z.land defaultAttributes FG_ATTRS)
    (Z.shiftr (Z.land defaultAttributes BG_ATTRS) 4).

Definition set_wAttrLegacy (w : Z) (a : TextAttribute) : TextAttribute :=
  mkTextAttribute w (_hyperlinkId a) (_foreground a) (_background a) (_extendedAttrs a).
Definition set_extendedAttrs (x : Z) (a : TextAttribute) : TextAttribute :=
  mkTextAttribute (_wAttrLegacy a) (_hyperlinkId a) (_foreground a) (_background a) x.

(** ** Constructors *)

Definition TextAttribute_default : TextAttribute :=
  mkTextAttribute 0 0 TextColor_default TextColor_default ExtendedAttributes.Normal.

Definition s_LegacyIndexOrDefault (requestedIndex defaultIndex : Z) : TextColor :=
  if requestedIndex =? defaultIndex then TextColor_default else TextColor_index requestedIndex true.

Definition TextAttribute_of_legacy (d : LegacyDefaults) (wLegacyAttr : Z) : TextAttribute :=
  mkTextAttribute
    (WI_ClearAllFlags (Z.land wLegacyAttr META_ATTRS) COMMON_LVB_SBCSDBCS)
    0
    (s_LegacyIndexOrDefault (Z.land wLegacyAttr FG_ATTRS) (s_legacyDefaultForeground d))
    (s_LegacyIndexOrDefault (Z.shiftr (Z.land wLegacyAttr BG_ATTRS) 4) (s_legacyDefaultBackground d))
    ExtendedAttributes.Normal.

Definition TextAttribute_of_rgb (rgbForeground rgbBackground : Z) : TextAttribute :=
  mkTextAttribute 0 0 (TextColor_rgb rgbForeground) (TextColor_rgb rgbBackground)
    ExtendedAttributes.Normal.

(** ** Flags *)

Definition IsLeadingByte (a : TextAttribute) : bool :=
  WI_IsFlagSet (_wAttrLegacy a) COMMON_LVB_LEADING_BYTE.
(** The source tests the flag of the leading byte. *)
Definition IsTrailingByte (a : TextAttribute) : bool :=
  WI_IsFlagSet (_wAttrLegacy a) COMMON_LVB_LEADING_BYTE.
Definition IsTopHorizontalDisplayed (a : TextAttribute) : bool :=
  WI_IsFlagSet (_wAttrLegacy a) COMMON_LVB_GRID_HORIZONTAL.
Definition IsBottomHorizontalDisplayed (a : TextAttribute) : bool :=
  WI_IsFlagSet (_wAttrLegacy a) COMMON_LVB_UNDERSCORE.
Definition IsLeftVerticalDisplayed (a : TextAttribute) : bool :=
  WI_IsFlagSet (_wAttrLegacy a) COMMON_LVB_GRID_LVERTICAL.
Definition IsRightVerticalDisplayed (a : TextAttribute) : bool :=
  WI_IsFlagSet (_wAttrLegacy a) COMMON_LVB_GRID_RVERTICAL.
Definition SetLeftVerticalDisplayed (isDisplayed : bool) (a : TextAttribute) : TextAttribute :=
  set_wAttrLegacy (WI_UpdateFlag (_wAttrLegacy a) COMMON_LVB_GRID_LVERTICAL isDisplayed) a.
Definition SetRightVerticalDisplayed (isDisplayed : bool) (a : TextAttribute) : TextAttribute :=
  set_wAttrLegacy (WI_UpdateFlag (_wAttrLegacy a) COMMON_LVB_GRID_RVERTICAL isDisplayed) a.

Definition IsBold (a : TextAttribute) : bool :=
  WI_IsFlagSet (_extendedAttrs a) ExtendedAttributes.Bold.
Definition IsFaint (a : TextAttribute) : bool :=
  WI_IsFlagSet (_extendedAttrs a) ExtendedAttributes.Faint.
Definition IsItalic (a : TextAttribute) : bool :=
  WI_IsFlagSet (_extendedAttrs a) ExtendedAttributes.Italics.
Definition IsBlinking (a : TextAttribute) : bool :=
  WI_IsFlagSet (_extendedAttrs a) ExtendedAttributes.Blinking.
Definition IsInvisible (a : TextAttribute) : bool :=
  WI_IsFlagSet (_extendedAttrs a) ExtendedAttributes.Invisible.
Definition IsCrossedOut (a : TextAttribute) : bool :=
  WI_IsFlagSet (_extendedAttrs a) ExtendedAttributes.CrossedOut.
Definition IsUnderlined (a : TextAttribute) : bool :=
  WI_IsFlagSet (_extendedAttrs a) ExtendedAttributes.Underlined.
Definition IsDoublyUnderlined (a : TextAttribute) : bool :=
  WI_IsFlagSet (_extendedAttrs a) ExtendedAttributes.DoublyUnderlined.
Definition IsOverlined (a : TextAttribute) : bool :=
  WI_IsFlagSet (_wAttrLegacy a) COMMON_LVB_GRID_HORIZONTAL.
Definition IsReverseVideo (a : TextAttribute) : bool :=
  WI_IsFlagSet (_wAttrLegacy a) COMMON_LVB_REVERSE_VIDEO.

Definition SetBold (isBold : bool) (a : TextAttribute) : TextAttribute :=
  set_extendedAttrs (WI_UpdateFlag (_extendedAttrs a) ExtendedAttributes.Bold isBold) a.
Definition SetFaint (isFaint : bool) (a : TextAttribute) : TextAttribute :=
  set_extendedAttrs (WI_UpdateFlag (_extendedAttrs a) ExtendedAttributes.Faint isFaint) a.
Definition SetItalic (isItalic : bool) (a : TextAttribute) : TextAttribute :=
  set_extendedAttrs (WI_UpdateFlag (_extendedAttrs a) ExtendedAttributes.Italics isItalic) a.
Definition SetBlinking (isBlinking : bool) (a : TextAttribute) : TextAttribute :=
  set_extendedAttrs (WI_UpdateFlag (_extendedAttrs a) ExtendedAttributes.Blinking isBlinking) a.
Definition SetInvisible (isInvisible : bool) (a : TextAttribute) : TextAttribute :=
  set_extendedAttrs (WI_UpdateFlag (_extendedAttrs a) ExtendedAttributes.Invisible isInvisible) a.
Definition SetCrossedOut (isCrossedOut : bool) (a : TextAttribute) : TextAttribute :=
  set_extendedAttrs (WI_UpdateFlag (_extendedAttrs a) ExtendedAttributes.CrossedOut isCrossedOut) a.
Definition SetUnderlined (isUnderlined : bool) (a : TextAttribute) : TextAttribute :=
  set_extendedAttrs (WI_UpdateFlag (_extendedAttrs a) ExtendedAttributes.Underlined isUnderlined) a.
Definition SetDoublyUnderlined (isDoublyUnderlined : bool) (a : TextAttribute) : TextAttribute :=
  set_extendedAttrs
    (WI_UpdateFlag (_extendedAttrs a) ExtendedAttributes.DoublyUnderlined isDoublyUnderlined) a.
Definition SetOverlined (isOverlined : bool) (a : TextAttribute) : TextAttribute :=
  set_wAttrLegacy (WI_UpdateFlag (_wAttrLegacy a) COMMON_LVB_GRID_HORIZONTAL isOverlined) a.
Definition SetReverseVideo (isReversed : bool) (a : TextAttribute) : TextAttribute :=
  set_wAttrLegacy (WI_UpdateFlag (_wAttrLegacy a) COMMON_LVB_REVERSE_VIDEO isReversed) a.

Definition GetExtendedAttributes (a : TextAttribute) : Z := _extendedAttrs a.

Definition Invert (a : TextAttribute) : TextAttribute :=
  set_wAttrLegacy (WI_ToggleFlag (_wAttrLegacy a) COMMON_LVB_REVERSE_VIDEO) a.

(** ** Colours, hyperlinks and resets *)

Definition IsHyperlink (a : TextAttribute) : bool := negb (_hyperlinkId a =? 0).
Definition GetForeground (a : TextAttribute) : TextColor := _foreground a.
Definition GetBackground (a : TextAttribute) : TextColor := _background a.
Definition GetHyperlinkId (a : TextAttribute) : Z := _hyperlinkId a.
Definition SetForeground (foreground : TextColor) (a : TextAttribute) : TextAttribute :=
  mkTextAttribute (_wAttrLegacy a) (_hyperlinkId a) foreground (_background a) (_extendedAttrs a).
Definition SetBackground (background : TextColor) (a : TextAttribute) : TextAttribute :=
  mkTextAttribute (_wAttrLegacy a) (_hyperlinkId a) (_foreground a) background (_extendedAttrs a).
Definition SetForegroundRgb (rgbForeground : Z) : TextAttribute → TextAttribute :=
  SetForeground (TextColor_rgb rgbForeground).
Definition SetBackgroundRgb (rgbBackground : Z) : TextAttribute → TextAttribute :=
  SetBackground (TextColor_rgb rgbBackground).
Definition SetIndexedForeground (fgIndex : Z) : TextAttribute → TextAttribute :=
  SetForeground (TextColor_index fgIndex false).
Definition SetIndexedBackground (bgIndex : Z) : TextAttribute → TextAttribute :=
  SetBackground (TextColor_index bgIndex false).
Definition SetIndexedForeground256 (fgIndex : Z) : TextAttribute → TextAttribute :=
  SetForeground (TextColor_index fgIndex true).
Definition SetIndexedBackground256 (bgIndex : Z) : TextAttribute → TextAttribute :=
  SetBackground (TextColor_index bgIndex true).
Definition SetColor (rgbColor : Z) (fIsForeground : bool) : TextAttribute → TextAttribute :=
  if fIsForeground then SetForegroundRgb rgbColor else SetBackgroundRgb rgbColor.
Definition SetHyperlinkId (id : Z) (a : TextAttribute) : TextAttribute :=
  mkTextAttribute (_wAttrLegacy a) id (_foreground a) (_background a) (_extendedAttrs a).
Definition SetDefaultForeground : TextAttribute → TextAttribute := SetForeground TextColor_default.
Definition SetDefaultBackground : TextAttribute → TextAttribute := SetBackground TextColor_default.
Definition SetDefaultMetaAttrs (a : TextAttribute) : TextAttribute :=
  mkTextAttribute 0 (_hyperlinkId a) (_foreground a) (_background a) ExtendedAttributes.Normal.
Definition BackgroundIsDefault (a : TextAttribute) : bool := IsDefault (_background a).
Definition SetStandardErase (a : TextAttribute) : TextAttribute :=
  SetHyperlinkId 0 (SetDefaultMetaAttrs a).

(** ** What an attribute looks like *)

Definition IsLegacy (a : TextAttribute) : bool :=
  TextColor_IsLegacy (_foreground a) && TextColor_IsLegacy (_background a).

Definition GetLegacyAttributes (d : LegacyDefaults) (a : TextAttribute) : Z :=
  let fgIndex := GetLegacyIndex (s_legacyDefaultForeground d) (_foreground a) in
  let bgIndex := GetLegacyIndex (s_legacyDefaultBackground d) (_background a) in
  let metaAttrs := Z.land (_wAttrLegacy a) META_ATTRS in
  let brighten := IsBold a && CanBeBrightened (_foreground a) in
  u16 (Z.lor (Z.lor (Z.lor fgIndex (Z.shiftl bgIndex 4)) metaAttrs)
         (if brighten then FOREGROUND_INTENSITY else 0)).

Definition StripErroneousVT16VersionsOfLegacyDefaults (d : LegacyDefaults) (attribute : TextAttribute)
    : TextAttribute :=
  let fg := GetForeground attribute in
  let bg := GetBackground attribute in
  let copy :=
    if IsIndex16 fg
       && Bool.eqb (IsBold attribute) (WI_IsFlagSet (s_legacyDefaultForeground d) FOREGROUND_INTENSITY)
       && (GetIndex fg =? Z.ldiff (s_legacyDefaultForeground d) FOREGROUND_INTENSITY)
    then SetDefaultForeground attribute else attribute in
  if IsIndex16 bg && (GetIndex bg =? s_legacyDefaultBackground d)
  then SetDefaultBackground copy else copy.

(** The foreground and background to display; the two lookups can fail. *)
Definition CalculateRgbColors (colorTable : list Z) (defaultFgColor defaultBgColor : Z)
    (reverseScreenMode blinkingIsFaint : bool) (a : TextAttribute) : exn + Z * Z :=
  match GetColor colorTable defaultFgColor (IsBold a) (_foreground a),
        GetColor colorTable defaultBgColor false (_background a) with
  | inl e, _ => inl e
  | _, inl e => inl e
  | inr fg, inr bg =>
      let fg := if IsFaint a || (IsBlinking a && blinkingIsFaint)
                then Z.land (Z.shiftr fg 1) 0x7F7F7F else fg in
      let '(fg, bg) := if xorb (IsReverseVideo a) reverseScreenMode then (bg, fg) else (fg, bg) in
      let fg := if IsInvisible a then bg else fg in
      inr (fg, bg)
  end.

Definition IsAnyGridLineEnabled (a : TextAttribute) : bool :=
  WI_IsAnyFlagSet (_wAttrLegacy a)
    (Z.lor COMMON_LVB_GRID_HORIZONTAL (Z.lor COMMON_LVB_GRID_LVERTICAL
      (Z.lor COMMON_LVB_GRID_RVERTICAL COMMON_LVB_UNDERSCORE))).

Definition HasIdenticalVisualRepresentationForBlankSpace (a other : TextAttribute) (inverted : bool)
    : bool :=
  let checkForeground := negb (Bool.eqb inverted (IsReverseVideo a)) in
  negb (IsAnyGridLineEnabled a)
  && WI_AreAllFlagsClear (_extendedAttrs a)
       (Z.lor ExtendedAttributes.CrossedOut
          (Z.lor ExtendedAttributes.DoublyUnderlined ExtendedAttributes.Underlined))
  && negb (IsHyperlink a)
  && (Z.land (_wAttrLegacy a) META_ATTRS =? Z.land (_wAttrLegacy other) META_ATTRS)
  && ((checkForeground && bool_decide (_foreground a = _foreground other))
      || (negb checkForeground && bool_decide (_background a = _background other)))
  && (_extendedAttrs a =? _extendedAttrs other)
  && Bool.eqb (IsHyperlink a) (IsHyperlink other).

(** ** Flags are bits *)

Lemma WI_IsFlagSet_bit v i : 0 <= i → WI_IsFlagSet v (2 ^ i) = Z.testbit v i.
Proof.
  intros Hi. unfold WI_IsFlagSet. destruct (Z.testbit v i) eqn:Hb.
  - apply negb_true_iff, Z.eqb_neq. intros Hz. apply (f_equal (λ z, Z.testbit z i)) in Hz.
    by rewrite Z.land_spec, Z.pow2_bits_true, Hb, Z.bits_0 in Hz.
  - apply negb_false_iff, Z.eqb_eq, Z.bits_inj'. intros j Hj.
    rewrite Z.land_spec, Z.bits_0, Z.pow2_bits_eqb by done.
    destruct (Z.eqb_spec i j) as [->|]; by rewrite ?Hb, ?andb_false_r.
Qed.

Lemma WI_UpdateFlag_bit v i b j :
  0 <= i → 0 <= j →
  Z.testbit (WI_UpdateFlag v (2 ^ i) b) j = if j =? i then b else Z.testbit v j.
Proof.
  intros Hi Hj. unfold WI_UpdateFlag. destruct b; rewrite ?Z.lor_spec, ?Z.ldiff_spec;
    rewrite Z.pow2_bits_eqb, (Z.eqb_sym i j) by done; destruct (j =? i);
    by rewrite ?orb_true_r, ?orb_false_r, ?andb_true_r, ?andb_false_r.
Qed.

(** The ten attributes that SGR switches. *)
Inductive Flag :=
  | FBold | FFaint | FItalic | FBlinking | FInvisible | FCrossedOut | FUnderlined
  | FDoublyUnderlined | FOverlined | FReverseVideo.

#[global] Instance Flag_eq_dec : EqDecision Flag.
Proof. solve_decision. Defined.

Definition get_flag (f : Flag) : TextAttribute → bool :=
  match f with
  | FBold => IsBold | FFaint => IsFaint | FItalic => IsItalic | FBlinking => IsBlinking
  | FInvisible => IsInvisible | FCrossedOut => IsCrossedOut | FUnderlined => IsUnderlined
  | FDoublyUnderlined => IsDoublyUnderlined | FOverlined => IsOverlined
  | FReverseVideo => IsReverseVideo
  end.

Definition set_flag (f : Flag) : bool → TextAttribute → TextAttribute :=
  match f with
  | FBold => SetBold | FFaint => SetFaint | FItalic => SetItalic | FBlinking => SetBlinking
  | FInvisible => SetInvisible | FCrossedOut => SetCrossedOut | FUnderlined => SetUnderlined
  | FDoublyUnderlined => SetDoublyUnderlined | FOverlined => SetOverlined
  | FReverseVideo => SetReverseVideo
  end.

(** Where a flag lives: in the legacy word or in the extended attributes. *)
Definition flag_word (f : Flag) (a : TextAttribute) : Z :=
  match f with FOverlined | FReverseVideo => _wAttrLegacy a | _ => _extendedAttrs a end.

Definition flag_bit (f : Flag) : Z :=
  match f with
  | FBold => 0 | FItalic => 1 | FBlinking => 2 | FInvisible => 3 | FCrossedOut => 4
  | FUnderlined => 5 | FDoublyUnderlined => 6 | FFaint => 7 | FOverlined => 10
  | FReverseVideo => 14
  end.

Lemma get_flag_bit f a : get_flag f a = Z.testbit (flag_word f a) (flag_bit f).
Proof. rewrite <-WI_IsFlagSet_bit by by destruct f. by destruct f. Qed.

Lemma set_flag_bit f b g a :
  Z.testbit (flag_word g (set_flag f b a)) (flag_bit g)
  = if decide (f = g) then b else Z.testbit (flag_word g a) (flag_bit g).
Proof.
  assert (0 <= flag_bit f ∧ 0 <= flag_bit g) as [Hf Hg] by by destruct f, g.
  assert (∀ v, Z.testbit (WI_UpdateFlag v (2 ^ flag_bit f) b) (flag_bit g)
    = if flag_bit g =? flag_bit f then b else Z.testbit v (flag_bit g)) as Hu.
  { intros v. by apply WI_UpdateFlag_bit. }
  destruct f, g; exact (Hu _) || reflexivity.
Qed.

Lemma get_set_flag f g b a :
  get_flag g (set_flag f b a) = if decide (f = g) then b else get_flag g a.
Proof. by rewrite !get_flag_bit, set_flag_bit. Qed.

(** The ten attributes that SGR switches are independent of each other:
    setting one makes it what was asked for and leaves the other nine, the
    colours and the hyperlink as they were. *)
Theorem flags_independent (f g : Flag) (b : bool) (a : TextAttribute) :
  get_flag g (set_flag f b a) = (if decide (f = g) then b else get_flag g a)
  ∧ _foreground (set_flag f b a) = _foreground a ∧ _background (set_flag f b a) = _background a
  ∧ _hyperlinkId (set_flag f b a) = _hyperlinkId a.
Proof. split; [apply get_set_flag|]. by destruct f. Qed.

(** ** Legacy attributes *)

Lemma legacy_index_round_trip d : ∀ r, 0 <= r < 16 → GetLegacyIndex d (s_LegacyIndexOrDefault r d) = r.
Proof.
  intros r Hr. unfold s_LegacyIndexOrDefault. destruct (Z.eqb_spec r d) as [->|]; [done|].
  cbn [GetLegacyIndex TextColor_index IsDefault IsIndex16 IsIndex256].
  change (default 0 (Index256ToIndex16 !! Z.to_nat r) = r).
  assert (r ∈ seqZ 0 16) as Hin by (apply elem_of_seqZ; lia).
  revert r Hr n Hin. cut (forallb (λ r, default 0 (Index256ToIndex16 !! Z.to_nat r) =? r) (seqZ 0 16) = true).
  { rewrite forallb_forall. intros Hf r _ _ Hin. by apply Z.eqb_eq, Hf, list_elem_of_In. }
  reflexivity.
Qed.

(** The bits of a legacy attribute that an attribute keeps. *)
Definition legacy_kept : Z := 0xDCFF.

Lemma legacy_bits w :
  is_wchar w →
  u16 (Z.lor (Z.lor (Z.lor (Z.land w FG_ATTRS) (Z.shiftl (Z.shiftr (Z.land w BG_ATTRS) 4) 4))
    (Z.land (WI_ClearAllFlags (Z.land w META_ATTRS) COMMON_LVB_SBCSDBCS) META_ATTRS)) 0)
  = Z.land w legacy_kept.
Proof.
  intros _. apply Z.bits_inj'. intros j Hj. unfold u16, wrapu, WI_ClearAllFlags.
  destruct (Z.lt_ge_cases j 16) as [Hlt|Hge].
  - rewrite Z.mod_pow2_bits_low by done. rewrite Z.lor_0_r.
    rewrite !Z.lor_spec, !Z.land_spec, Z.ldiff_spec, Z.land_spec.
    assert (Z.testbit (Z.shiftl (Z.shiftr (Z.land w BG_ATTRS) 4) 4) j
      = Z.testbit w j && Z.testbit BG_ATTRS j && (4 <=? j)) as ->.
    { rewrite Z.shiftl_spec by done. destruct (Z.leb_spec 4 j).
      - rewrite Z.shiftr_spec by lia. replace (j - 4 + 4) with j by lia.
        by rewrite Z.land_spec, andb_true_r.
      - rewrite Z.testbit_neg_r by lia. by rewrite andb_false_r. }
    assert (j ∈ seqZ 0 16) as Hin by (apply elem_of_seqZ; lia).
    generalize (Z.testbit w j). intros b. destruct b; [|reflexivity].
    cbn [andb]. apply Bool.eqb_prop. revert j Hj Hlt Hin.
    match goal with |- ∀ j, _ → _ → _ → @?f j = true => cut (forallb f (seqZ 0 16) = true) end.
    + rewrite forallb_forall. intros Hf j _ _ Hin. by apply Hf, list_elem_of_In.
    + vm_compute. reflexivity.
  - rewrite Z.mod_pow2_bits_high by lia. rewrite Z.land_spec.
    rewrite (Z.bits_above_log2 legacy_kept j), andb_false_r; [done|done|].
    change (Z.log2 legacy_kept) with 15. lia.
Qed.

(** A legacy attribute survives the conversion to a text attribute and back,
    with any default colours, except for the lead/trail byte marks and one
    unused bit, which are dropped. *)
Theorem legacy_attributes_round_trip (d : LegacyDefaults) (w : Z) :
  is_wchar w →
  GetLegacyAttributes d (TextAttribute_of_legacy d w) = Z.land w legacy_kept.
Proof.
  intros Hw. rewrite <-legacy_bits by done. unfold GetLegacyAttributes, TextAttribute_of_legacy.
  cbn [_foreground _background _wAttrLegacy IsBold _extendedAttrs].
  rewrite !legacy_index_round_trip; [done| |].
  - unfold BG_ATTRS. rewrite Z.shiftr_land. change (Z.shiftr 0xF0 4) with (Z.ones 4).
    rewrite Z.land_ones by lia. by apply Z.mod_pos_bound.
  - change FG_ATTRS with (Z.ones 4). rewrite Z.land_ones by lia. by apply Z.mod_pos_bound.
Qed.

Lemma legacy_attributes_round_trip_witness :
  GetLegacyAttributes (mkLegacyDefaults 7 0) (TextAttribute_of_legacy (mkLegacyDefaults 7 0) 0xC31E)
  = 0xC01E.
Proof. apply (legacy_attributes_round_trip (mkLegacyDefaults 7 0) 0xC31E). unfold is_wchar. lia. Defined.

Lemma lor_ldiff_bit d i :
  0 <= i →
  Z.lor (Z.ldiff d (2 ^ i)) (if Z.testbit d i then 2 ^ i else 0) = d.
Proof.
  intros Hi. apply Z.bits_inj'. intros j Hj. rewrite Z.lor_spec, Z.ldiff_spec, Z.pow2_bits_eqb by done.
  destruct (Z.eqb_spec i j) as [<-|Hne]; cbn [negb].
  - rewrite andb_false_r. destruct (Z.testbit d i); [by rewrite Z.pow2_bits_true|by rewrite Z.bits_0].
  - rewrite andb_true_r. destruct (Z.testbit d i).
    + rewrite Z.pow2_bits_false by done. by rewrite orb_false_r.
    + by rewrite Z.bits_0, orb_false_r.
Qed.

Lemma lor_bit_idemp d i :
  0 <= i → Z.lor d (if Z.testbit d i then 2 ^ i else 0) = d.
Proof.
  intros Hi. rewrite <-(lor_ldiff_bit d i Hi) at 1.
  rewrite <-Z.lor_assoc, Z.lor_diag. by apply lor_ldiff_bit.
Qed.

(** The foreground's contribution to the legacy attributes. *)
Definition legacy_foreground (d : LegacyDefaults) (a : TextAttribute) : Z :=
  Z.lor (GetLegacyIndex (s_legacyDefaultForeground d) (_foreground a))
    (if IsBold a && CanBeBrightened (_foreground a) then FOREGROUND_INTENSITY else 0).

Lemma GetLegacyAttributes_split d a :
  GetLegacyAttributes d a
  = u16 (Z.lor (legacy_foreground d a)
      (Z.lor (Z.shiftl (GetLegacyIndex (s_legacyDefaultBackground d) (_background a)) 4)
        (Z.land (_wAttrLegacy a) META_ATTRS))).
Proof.
  unfold GetLegacyAttributes, legacy_foreground. cbv zeta. f_equal.
  rewrite <-!Z.lor_assoc. f_equal. rewrite (Z.lor_assoc (Z.shiftl _ _)). apply Z.lor_comm.
Qed.

(** Replacing the 16-colour versions of the default colours by the default
    colours (the VT quirk) does not change the legacy attributes. *)
Theorem strip_keeps_legacy_attributes (d : LegacyDefaults) (a : TextAttribute) :
  GetLegacyAttributes d (StripErroneousVT16VersionsOfLegacyDefaults d a) = GetLegacyAttributes d a.
Proof.
  rewrite !GetLegacyAttributes_split. unfold StripErroneousVT16VersionsOfLegacyDefaults.
  set (b1 := _ && (GetIndex (GetForeground a) =? _)).
  set (b2 := IsIndex16 (GetBackground a) && _).
  assert (legacy_foreground d (if b1 then SetDefaultForeground a else a) = legacy_foreground d a) as Hf.
  { destruct b1 eqn:Hb; [|done]. unfold b1, GetForeground, GetIndex in Hb.
    apply andb_true_iff in Hb as [[H16 Hbold%eqb_prop]%andb_true_iff Hi%Z.eqb_eq].
    unfold legacy_foreground. change (IsBold (SetDefaultForeground a)) with (IsBold a).
    unfold SetDefaultForeground, SetForeground. cbn [_foreground].
    unfold GetLegacyIndex, CanBeBrightened, GetIndex. rewrite H16.
    assert (IsDefault (_foreground a) = false) as ->.
    { unfold IsDefault, IsIndex16 in *. apply bool_decide_eq_true in H16. by rewrite H16. }
    cbn. rewrite Hi, Hbold. change FOREGROUND_INTENSITY with (2 ^ 3).
    rewrite WI_IsFlagSet_bit by lia. rewrite !andb_true_r.
    by rewrite lor_bit_idemp, lor_ldiff_bit by lia. }
  set (a1 := if b1 then _ else _) in *. f_equal. f_equal.
  - rewrite <-Hf. by destruct b2.
  - f_equal.
    + f_equal. destruct b2 eqn:Hb; [|by unfold a1; destruct b1].
      apply andb_true_iff in Hb as [H16 Hi%Z.eqb_eq]. unfold GetBackground, GetIndex in *. cbn.
      unfold GetLegacyIndex, GetIndex. rewrite H16.
      assert (IsDefault (_background a) = false) as ->; [|done].
      unfold IsDefault, IsIndex16 in *. apply bool_decide_eq_true in H16. by rewrite H16.
    + unfold a1. by destruct b1, b2.
Qed.

(** Reversing the screen displays every attribute as its inverse, and an
    invisible text has the colour of its background. *)
Theorem reverse_screen_is_invert (colorTable : list Z) (fg bg : Z) (reverse blink : bool)
    (a : TextAttribute) :
  CalculateRgbColors colorTable fg bg (negb reverse) blink a
  = CalculateRgbColors colorTable fg bg reverse blink (Invert a)
  ∧ match CalculateRgbColors colorTable fg bg reverse blink a with
    | inr (f, b) => IsInvisible a = false ∨ f = b
    | inl _ => True
    end.
Proof.
  split.
  - unfold CalculateRgbColors. change (IsBold (Invert a)) with (IsBold a).
    change (_foreground (Invert a)) with (_foreground a).
    change (_background (Invert a)) with (_background a).
    change (IsFaint (Invert a)) with (IsFaint a). change (IsBlinking (Invert a)) with (IsBlinking a).
    change (IsInvisible (Invert a)) with (IsInvisible a).
    assert (IsReverseVideo (Invert a) = negb (IsReverseVideo a)) as ->.
    { unfold IsReverseVideo, Invert, WI_ToggleFlag, COMMON_LVB_REVERSE_VIDEO. cbn [_wAttrLegacy set_wAttrLegacy].
      change 0x4000 with (2 ^ 14). rewrite !WI_IsFlagSet_bit by lia.
      rewrite Z.lxor_spec, Z.pow2_bits_true by lia. apply xorb_true_r. }
    assert (xorb (IsReverseVideo a) (negb reverse) = xorb (negb (IsReverseVideo a)) reverse) as ->; [|done].
    by destruct (IsReverseVideo a), reverse.
  - unfold CalculateRgbColors. repeat case_match; simplify_eq; auto.
Qed.
