(* ===== verification/SgrStack.v ===== *)
(** The stack of saved text attributes (XTPUSHSGR, XTPOPSGR):
    [src/src/types/sgrStack.cpp] and [src/src/types/inc/sgrStack.hpp], and a
    proof that its ring of ten slots is a stack that forgets its bottom. *)

From S2P Require Import Prelude DispatchTypes StateMachineFacts TextColor TextAttribute.

(** ** Data *)

Module SgrSaveRestoreStackOptions.
Definition All : Z := 0.
Definition Boldness : Z := 1.
Definition Faintness : Z := 2.
Definition Italics : Z := 3.
Definition Underline : Z := 4.
Definition Blink : Z := 5.
Definition Negative : Z := 7.
Definition Invisible : Z := 8.
Definition CrossedOut : Z := 9.
Definition DoublyUnderlined : Z := 21.
Definition SaveForegroundColor : Z := 30.
Definition SaveBackgroundColor : Z := 31.
Definition Max : Z := SaveBackgroundColor.
End SgrSaveRestoreStackOptions.
Import SgrSaveRestoreStackOptions.

(** [std::bitset] as the set of its bits. *)
Definition AttrBitset := Z.
Definition AttrBitset_size : Z := Max + 1.
Definition bitset_set (i : Z) (b : AttrBitset) : AttrBitset := Z.lor b (2 ^ i).
Definition bitset_test (i : Z) (b : AttrBitset) : bool := Z.testbit b i.

Record SavedSgrAttributes := mkSaved {
  TextAttributes : TextAttribute;
  ValidParts : AttrBitset
}.

Definition c_MaxStoredSgrPushes : Z := 10.

Record SgrStack := mkSgrStack {
  _nextPushIndex : Z;
  _numSavedAttrs : Z;
  _storedSgrAttributes : list SavedSgrAttributes
}.

Definition SgrStack_init : SgrStack :=
  mkSgrStack 0 0 (replicate (Z.to_nat c_MaxStoredSgrPushes) (mkSaved TextAttribute_default 0)).

(** ** Operations *)

Definition valid_parts (options : VTParameters) : AttrBitset :=
  if params_empty options then bitset_set All 0
  else
    fold_left (λ validParts i,
      let optionAsIndex := value_or (params_at options (Z.of_nat i)) 0 in
      if optionAsIndex <? AttrBitset_size then bitset_set optionAsIndex validParts else validParts)
      (seq 0 (Z.to_nat (params_size options))) 0.

(** [std::array::at] throws out of range; the functions are [noexcept]. *)
Definition Push (currentAttributes : TextAttribute) (options : VTParameters) : prog SgrStack unit :=
  st ← gets id;
  let size := Z.of_nat (length (_storedSgrAttributes st)) in
  let num := if _numSavedAttrs st <? size then _numSavedAttrs st + 1 else _numSavedAttrs st in
  let next := _nextPushIndex st in
  if (0 <=? next) && (next <? size) then
    modify (λ _, mkSgrStack ((next + 1) mod size) num
      (<[Z.to_nat next := mkSaved currentAttributes (valid_parts options)]> (_storedSgrAttributes st)))
  else throw FailFast.

Definition combine_parts (currentAttributes savedAttribute : TextAttribute)
    (validParts : AttrBitset) : TextAttribute :=
  let upd (o : Z) (f : TextAttribute → TextAttribute) (result : TextAttribute) :=
    if bitset_test o validParts then f result else result in
  let result := currentAttributes in
  let result := upd Boldness (SetBold (IsBold savedAttribute)) result in
  let result := upd Faintness (SetFaint (IsFaint savedAttribute)) result in
  let result := upd Italics (SetItalic (IsItalic savedAttribute)) result in
  let result := upd Underline (SetUnderlined (IsUnderlined savedAttribute)) result in
  let result := upd Blink (SetBlinking (IsBlinking savedAttribute)) result in
  let result := upd Negative (SetReverseVideo (IsReverseVideo savedAttribute)) result in
  let result := upd Invisible (SetInvisible (IsInvisible savedAttribute)) result in
  let result := upd CrossedOut (SetCrossedOut (IsCrossedOut savedAttribute)) result in
  let result := upd DoublyUnderlined (SetDoublyUnderlined (IsDoublyUnderlined savedAttribute)) result in
  let result := upd SaveForegroundColor (SetForeground (GetForeground savedAttribute)) result in
  upd SaveBackgroundColor (SetBackground (GetBackground savedAttribute)) result.

(** The check that opens the function: all parts are never combined. *)
Definition _CombineWithCurrentAttributes (currentAttributes savedAttribute : TextAttribute)
    (validParts : AttrBitset) : exn + TextAttribute :=
  if bitset_test All validParts then inl FailFast
  else inr (combine_parts currentAttributes savedAttribute validParts).

Definition Pop (currentAttributes : TextAttribute) : prog SgrStack TextAttribute :=
  st ← gets id;
  if _numSavedAttrs st >? 0 then
    let size := Z.of_nat (length (_storedSgrAttributes st)) in
    let next := if _nextPushIndex st =? 0 then size - 1 else _nextPushIndex st - 1 in
    modify (λ _, mkSgrStack next (_numSavedAttrs st - 1) (_storedSgrAttributes st));;
    match _storedSgrAttributes st !! Z.to_nat next with
    | Some restoreMe =>
        if bitset_test All (ValidParts restoreMe) then mret (TextAttributes restoreMe)
        else
          match _CombineWithCurrentAttributes currentAttributes (TextAttributes restoreMe)
                  (ValidParts restoreMe) with
          | inr result => mret result
          | inl e => throw e
          end
    | None => throw FailFast
    end
  else mret currentAttributes.

(** ** The specification: a bounded stack *)

(** The attributes a saved entry makes of the current ones. *)
Definition restore (e : SavedSgrAttributes) (currentAttributes : TextAttribute) : TextAttribute :=
  if bitset_test All (ValidParts e) then TextAttributes e
  else combine_parts currentAttributes (TextAttributes e) (ValidParts e).

Definition abs_push (a : TextAttribute) (options : VTParameters) (l : list SavedSgrAttributes)
    : list SavedSgrAttributes :=
  take 10 (mkSaved a (valid_parts options) :: l).

Definition abs_pop (a : TextAttribute) (l : list SavedSgrAttributes)
    : TextAttribute * list SavedSgrAttributes :=
  match l with
  | [] => (a, [])
  | e :: l' => (restore e a, l')
  end.

(** The entry that is the [k]-th from the top of the ring. *)
Definition slot (st : SgrStack) (k : nat) : Z := (_nextPushIndex st - 1 - Z.of_nat k) mod 10.

Definition sgr_wf (st : SgrStack) : Prop :=
  length (_storedSgrAttributes st) = 10%nat ∧ 0 <= _nextPushIndex st < 10
  ∧ 0 <= _numSavedAttrs st <= 10.

(** The ring holds the stack [l], its top just below the next push. *)
Definition holds (st : SgrStack) (l : list SavedSgrAttributes) : Prop :=
  sgr_wf st ∧ Z.of_nat (length l) = _numSavedAttrs st
  ∧ ∀ k, (k < length l)%nat → _storedSgrAttributes st !! Z.to_nat (slot st k) = l !! k.

(** ** Refinement *)

Lemma holds_init : holds SgrStack_init [].
Proof. split; [by repeat split|]. split; [done|]. intros k Hk. cbn in Hk. lia. Qed.

Lemma mod_10_pred i : 0 <= i < 10 → (i - 1) mod 10 = if i =? 0 then 9 else i - 1.
Proof. intros Hi. destruct (Z.eqb_spec i 0); [by subst|]. apply Z.mod_small. lia. Qed.

Lemma slot_range st k : 0 <= slot st k < 10.
Proof. by apply Z.mod_pos_bound. Qed.

Lemma Push_refines a options st l :
  holds st l →
  ∃ st', Push a options st = Ok tt st' ∧ holds st' (abs_push a options l).
Proof.
  intros ((Hlen & Hnext & Hnum) & Hl & Hk). unfold Push, mbind, prog_bind, gets, modify. cbn [id].
  rewrite Hlen. change (Z.of_nat 10) with 10.
  destruct (Z.leb_spec 0 (_nextPushIndex st)); [|lia].
  destruct (Z.ltb_spec (_nextPushIndex st) 10); [|lia]. cbn [andb].
  eexists. split; [reflexivity|]. set (e := mkSaved a (valid_parts options)).
  assert (length (abs_push a options l) = (1 + length l) `min` 10)%nat as Hlen'.
  { unfold abs_push. rewrite length_take. cbn [length]. lia. }
  split; [|split].
  - split; cbn [_storedSgrAttributes _nextPushIndex _numSavedAttrs]; [by rewrite length_insert|].
    split; [by apply Z.mod_pos_bound|]. destruct (Z.ltb_spec (_numSavedAttrs st) 10); lia.
  - rewrite Hlen'. cbn [_numSavedAttrs]. destruct (Z.ltb_spec (_numSavedAttrs st) 10); lia.
  - intros k Hkl. unfold slot. cbn [_nextPushIndex _storedSgrAttributes].
    unfold abs_push. rewrite lookup_take_lt by lia. fold e.
    assert (((_nextPushIndex st + 1) mod 10 - 1 - Z.of_nat k) mod 10
      = (_nextPushIndex st - Z.of_nat k) mod 10) as ->.
    { Z.div_mod_to_equations. lia. }
    destruct k as [|k].
    + rewrite Z.sub_0_r, Z.mod_small by lia. by rewrite list_lookup_insert_eq by lia.
    + assert ((_nextPushIndex st - Z.of_nat (S k)) mod 10 = slot st k) as ->.
      { unfold slot. f_equal. lia. }
      rewrite list_lookup_insert_ne; [by apply Hk; lia|].
      pose proof (slot_range st k). intros Heq. apply Z2Nat.inj in Heq; [|lia..].
      unfold slot in Heq. rewrite Hlen' in Hkl. clear -Heq Hnext Hkl Hl Hnum.
      Z.div_mod_to_equations. lia.
Qed.

Lemma Pop_refines a st l :
  holds st l →
  ∃ st', Pop a st = Ok (abs_pop a l).1 st' ∧ holds st' (abs_pop a l).2.
Proof.
  intros ((Hlen & Hnext & Hnum) & Hl & Hk). unfold Pop, mbind, prog_bind, gets, modify.
  cbn [id]. destruct l as [|e l]; cbn [abs_pop fst snd].
  { destruct (Z.gtb_spec (_numSavedAttrs st) 0); [cbn in Hl; lia|].
    exists st. split; [done|]. by split. }
  cbn [length] in Hl. destruct (Z.gtb_spec (_numSavedAttrs st) 0); [|lia].
  rewrite Hlen. change (Z.of_nat 10 - 1) with 9. rewrite <-mod_10_pred by done.
  pose proof (Hk 0%nat ltac:(cbn; lia)) as He. unfold slot in He. rewrite Z.sub_0_r in He.
  rewrite He. cbn [lookup list_lookup]. eexists. split.
  - unfold _CombineWithCurrentAttributes, restore. by destruct (bitset_test All (ValidParts e)).
  - split; [|split]; cbn [_storedSgrAttributes _nextPushIndex _numSavedAttrs].
    + split; cbn [_storedSgrAttributes _nextPushIndex _numSavedAttrs]; [done|].
      split; [by apply Z.mod_pos_bound|lia].
    + lia.
    + intros k Hkl. specialize (Hk (S k) ltac:(cbn; lia)).
      transitivity ((e :: l) !! S k); [|done]. rewrite <-Hk. f_equal. f_equal. unfold slot. cbn [_nextPushIndex]. Z.div_mod_to_equations. lia.
Qed.

(** ** Any sequence of pushes and pops *)

Inductive SgrOp := OpPush (options : VTParameters) | OpPop | OpSet (a : TextAttribute).

(** Runs operations on the current attributes and the stack; [OpSet] stands for
    whatever changes the current attributes in between. *)
Fixpoint run_ops (ops : list SgrOp) (a : TextAttribute) : prog SgrStack TextAttribute :=
  match ops with
  | [] => mret a
  | OpPush options :: ops' => Push a options;; run_ops ops' a
  | OpPop :: ops' => a' ← Pop a; run_ops ops' a'
  | OpSet a' :: ops' => run_ops ops' a'
  end.

Fixpoint abs_ops (ops : list SgrOp) (a : TextAttribute) (l : list SavedSgrAttributes)
    : TextAttribute * list SavedSgrAttributes :=
  match ops with
  | [] => (a, l)
  | OpPush options :: ops' => abs_ops ops' a (abs_push a options l)
  | OpPop :: ops' => abs_ops ops' (abs_pop a l).1 (abs_pop a l).2
  | OpSet a' :: ops' => abs_ops ops' a' l
  end.

Lemma run_ops_refines ops a st l :
  holds st l →
  ∃ st', run_ops ops a st = Ok (abs_ops ops a l).1 st' ∧ holds st' (abs_ops ops a l).2.
Proof.
  revert a st l. induction ops as [|[options| |a'] ops IH]; intros a st l Hst; cbn.
  - eauto.
  - destruct (Push_refines a options st l Hst) as (st1 & E1 & H1).
    rewrite (bind_ok _ _ _ _ _ E1). by apply IH.
  - destruct (Pop_refines a st l Hst) as (st1 & E1 & H1).
    rewrite (bind_ok _ _ _ _ _ E1). by apply IH.
  - by apply IH.
Qed.

(** The ring of ten slots refines a stack that keeps its ten youngest
    entries: any sequence of pushes, pops and changes of the attributes, from a
    new stack, gives the attributes that the stack gives, and never fails. *)
Theorem SgrStack_refines_stack (ops : list SgrOp) (a : TextAttribute) :
  ∃ st', run_ops ops a SgrStack_init = Ok (abs_ops ops a []).1 st' ∧ holds st' (abs_ops ops a []).2.
Proof. apply run_ops_refines, holds_init. Qed.

(** ** What a pop restores *)

(** The option that saves a flag; overline has none. *)
Definition flag_option (f : Flag) : option Z :=
  match f with
  | FBold => Some Boldness | FFaint => Some Faintness | FItalic => Some Italics
  | FUnderlined => Some Underline | FBlinking => Some Blink | FReverseVideo => Some Negative
  | FInvisible => Some Invisible | FCrossedOut => Some CrossedOut
  | FDoublyUnderlined => Some DoublyUnderlined | FOverlined => None
  end.

Definition option_saved (o : option Z) (validParts : AttrBitset) : bool :=
  match o with Some i => bitset_test i validParts | None => false end.

Lemma get_set_if g f (b x : bool) r :
  get_flag g (if b then set_flag f x r else r)
  = if b && bool_decide (f = g) then x else get_flag g r.
Proof.
  destruct b; [|done]. rewrite get_set_flag. by case_bool_decide; case_decide.
Qed.

Lemma get_set_foreground_if g (b : bool) c r :
  get_flag g (if b then SetForeground c r else r) = get_flag g r.
Proof. by destruct b, g. Qed.

Lemma get_set_background_if g (b : bool) c r :
  get_flag g (if b then SetBackground c r else r) = get_flag g r.
Proof. by destruct b, g. Qed.

(** The colours and the hyperlink, which no flag setter touches. *)
Definition parts (a : TextAttribute) : TextColor * TextColor * Z :=
  (_foreground a, _background a, _hyperlinkId a).

Lemma parts_set_if f (b x : bool) r : parts (if b then set_flag f x r else r) = parts r.
Proof. by destruct b, f. Qed.

Lemma parts_set_foreground_if (b : bool) c r :
  parts (if b then SetForeground c r else r)
  = (if b then c else (parts r).1.1, (parts r).1.2, (parts r).2).
Proof. by destruct b. Qed.

Lemma parts_set_background_if (b : bool) c r :
  parts (if b then SetBackground c r else r)
  = ((parts r).1.1, if b then c else (parts r).1.2, (parts r).2).
Proof. by destruct b. Qed.

(** A pop restores exactly the saved parts: every flag and both colours come
    from the saved attributes if their option was given, and from the current
    ones otherwise; the hyperlink is never restored that way. *)
Theorem combine_restores_saved_parts (cur saved : TextAttribute) (validParts : AttrBitset) :
  let result := combine_parts cur saved validParts in
  (∀ f, get_flag f result
        = get_flag f (if option_saved (flag_option f) validParts then saved else cur))
  ∧ parts result
    = (_foreground (if bitset_test SaveForegroundColor validParts then saved else cur),
       _background (if bitset_test SaveBackgroundColor validParts then saved else cur),
       _hyperlinkId cur).
Proof.
  cbv zeta. split.
  - intros f. unfold combine_parts. rewrite get_set_background_if, get_set_foreground_if.
    rewrite (get_set_if f FDoublyUnderlined), (get_set_if f FCrossedOut), (get_set_if f FInvisible),
      (get_set_if f FReverseVideo), (get_set_if f FBlinking), (get_set_if f FUnderlined),
      (get_set_if f FItalic), (get_set_if f FFaint), (get_set_if f FBold).
    destruct f; cbn [flag_option option_saved];
      repeat match goal with |- context [bool_decide (?a = ?b)] =>
        let v := eval vm_compute in (bool_decide (a = b)) in
        change (bool_decide (a = b)) with v end;
      rewrite ?andb_false_r, ?andb_true_r; by repeat case_match.
  - unfold combine_parts. rewrite parts_set_background_if, parts_set_foreground_if.
    rewrite (parts_set_if FDoublyUnderlined), (parts_set_if FCrossedOut), (parts_set_if FInvisible),
      (parts_set_if FReverseVideo), (parts_set_if FBlinking), (parts_set_if FUnderlined),
      (parts_set_if FItalic), (parts_set_if FFaint), (parts_set_if FBold).
    cbn. by repeat case_match.
Qed.
