(* ===== verification/Sgr.v ===== *)
(** Graphic renditions: [src/src/terminal/adapter/adaptDispatchGraphics.cpp],
    the part of [AdaptDispatch] that handles SGR and the stack of attributes.

    The console API it talks to is the class [ConGetSet]: the two methods of
    [src/src/terminal/adapter/conGetSet.hpp] that are used here. *)

From S2P Require Import Prelude DispatchTypes StateMachineFacts ColorTable TextColor TextAttribute SgrStack.

(** ** Interface and state *)

Class ConGetSet (C : Type) := {
  PrivateGetTextAttributes : C → bool * TextAttribute * C;
  PrivateSetTextAttributes : TextAttribute → C → bool * C
}.

Record AdaptGraphics (C : Type) := mkAdaptGraphics {
  _pConApi : C;
  _sgrStack : SgrStack
}.
Arguments mkAdaptGraphics {C} _ _.
Arguments _pConApi {C} _.
Arguments _sgrStack {C} _.

(** ** Options *)

(** [GraphicsOptions]: the values that name more than one thing or that the
    helper tests. *)
Definition RGBColorOrFaint : Z := 2.
Definition BlinkOrXterm256Index : Z := 5.
Definition ForegroundExtended : Z := 38.
Definition BackgroundExtended : Z := 48.

Definition BLUE_ATTR : Z := 0x01.
Definition GREEN_ATTR : Z := 0x02.
Definition RED_ATTR : Z := 0x04.
Definition BRIGHT_ATTR : Z := 0x08.
Definition DARK_BLACK : Z := 0.
Definition DARK_RED : Z := RED_ATTR.
Definition DARK_GREEN : Z := GREEN_ATTR.
Definition DARK_YELLOW : Z := Z.lor RED_ATTR GREEN_ATTR.
Definition DARK_BLUE : Z := BLUE_ATTR.
Definition DARK_MAGENTA : Z := Z.lor RED_ATTR BLUE_ATTR.
Definition DARK_CYAN : Z := Z.lor GREEN_ATTR BLUE_ATTR.
Definition DARK_WHITE : Z := Z.lor (Z.lor RED_ATTR GREEN_ATTR) BLUE_ATTR.
Definition BRIGHT_BLACK : Z := BRIGHT_ATTR.
Definition BRIGHT_RED : Z := Z.lor BRIGHT_ATTR RED_ATTR.
Definition BRIGHT_GREEN : Z := Z.lor BRIGHT_ATTR GREEN_ATTR.
Definition BRIGHT_YELLOW : Z := Z.lor (Z.lor BRIGHT_ATTR RED_ATTR) GREEN_ATTR.
Definition BRIGHT_BLUE : Z := Z.lor BRIGHT_ATTR BLUE_ATTR.
Definition BRIGHT_MAGENTA : Z := Z.lor (Z.lor BRIGHT_ATTR RED_ATTR) BLUE_ATTR.
Definition BRIGHT_CYAN : Z := Z.lor (Z.lor BRIGHT_ATTR GREEN_ATTR) BLUE_ATTR.
Definition BRIGHT_WHITE : Z := Z.lor (Z.lor (Z.lor BRIGHT_ATTR RED_ATTR) GREEN_ATTR) BLUE_ATTR.

(** The cases of the [switch] that consume one option. *)
Definition apply_option (opt : Z) (attr : TextAttribute) : TextAttribute :=
  match opt with
  | 0 => SetDefaultMetaAttrs (SetDefaultBackground (SetDefaultForeground attr))
  | 39 => SetDefaultForeground attr
  | 49 => SetDefaultBackground attr
  | 1 => SetBold true attr
  | 2 => SetFaint true attr
  | 22 => SetFaint false (SetBold false attr)
  | 3 => SetItalic true attr
  | 23 => SetItalic false attr
  | 5 | 6 => SetBlinking true attr
  | 25 => SetBlinking false attr
  | 8 => SetInvisible true attr
  | 28 => SetInvisible false attr
  | 9 => SetCrossedOut true attr
  | 29 => SetCrossedOut false attr
  | 7 => SetReverseVideo true attr
  | 27 => SetReverseVideo false attr
  | 4 => SetUnderlined true attr
  | 21 => SetDoublyUnderlined true attr
  | 24 => SetDoublyUnderlined false (SetUnderlined false attr)
  | 53 => SetOverlined true attr
  | 55 => SetOverlined false attr
  | 30 => SetIndexedForeground DARK_BLACK attr
  | 34 => SetIndexedForeground DARK_BLUE attr
  | 32 => SetIndexedForeground DARK_GREEN attr
  | 36 => SetIndexedForeground DARK_CYAN attr
  | 31 => SetIndexedForeground DARK_RED attr
  | 35 => SetIndexedForeground DARK_MAGENTA attr
  | 33 => SetIndexedForeground DARK_YELLOW attr
  | 37 => SetIndexedForeground DARK_WHITE attr
  | 40 => SetIndexedBackground DARK_BLACK attr
  | 44 => SetIndexedBackground DARK_BLUE attr
  | 42 => SetIndexedBackground DARK_GREEN attr
  | 46 => SetIndexedBackground DARK_CYAN attr
  | 41 => SetIndexedBackground DARK_RED attr
  | 45 => SetIndexedBackground DARK_MAGENTA attr
  | 43 => SetIndexedBackground DARK_YELLOW attr
  | 47 => SetIndexedBackground DARK_WHITE attr
  | 90 => SetIndexedForeground BRIGHT_BLACK attr
  | 94 => SetIndexedForeground BRIGHT_BLUE attr
  | 92 => SetIndexedForeground BRIGHT_GREEN attr
  | 96 => SetIndexedForeground BRIGHT_CYAN attr
  | 91 => SetIndexedForeground BRIGHT_RED attr
  | 95 => SetIndexedForeground BRIGHT_MAGENTA attr
  | 93 => SetIndexedForeground BRIGHT_YELLOW attr
  | 97 => SetIndexedForeground BRIGHT_WHITE attr
  | 100 => SetIndexedBackground BRIGHT_BLACK attr
  | 104 => SetIndexedBackground BRIGHT_BLUE attr
  | 102 => SetIndexedBackground BRIGHT_GREEN attr
  | 106 => SetIndexedBackground BRIGHT_CYAN attr
  | 101 => SetIndexedBackground BRIGHT_RED attr
  | 105 => SetIndexedBackground BRIGHT_MAGENTA attr
  | 103 => SetIndexedBackground BRIGHT_YELLOW attr
  | 107 => SetIndexedBackground BRIGHT_WHITE attr
  | _ => attr
  end.

(** The options consumed after the 38 or 48, and the new attributes. *)
Definition _SetRgbColorsHelper (options : VTParameters) (attr : TextAttribute) (isForeground : bool)
    : Z * TextAttribute :=
  let typeOpt := as_selective (params_at options 0) in
  if typeOpt =? RGBColorOrFaint then
    let red := value_or (params_at options 1) 0 in
    let green := value_or (params_at options 2) 0 in
    let blue := value_or (params_at options 3) 0 in
    (4, if (red <=? 255) && (green <=? 255) && (blue <=? 255)
        then SetColor (RGB red green blue) isForeground attr else attr)
  else if typeOpt =? BlinkOrXterm256Index then
    let tableIndex := value_or (params_at options 1) 0 in
    (2, if tableIndex <=? 255 then
          let adjustedIndex := u8 (Xterm256ToWindowsIndex tableIndex) in
          if isForeground then SetIndexedForeground256 adjustedIndex attr
          else SetIndexedBackground256 adjustedIndex attr
        else attr)
  else (1, attr).

(** The loop over the options, from index [i]. *)
Fixpoint sgr_loop (fuel : nat) (options : VTParameters) (i : Z) (attr : TextAttribute)
    : exn + TextAttribute :=
  match fuel with
  | O => inl OutOfFuel
  | S fuel =>
      if i <? params_size options then
        let opt := as_selective (params_at options i) in
        if (opt =? ForegroundExtended) || (opt =? BackgroundExtended) then
          match params_subspan options (i + 1) with
          | None => inl FailFast
          | Some rest =>
              let '(consumed, attr) := _SetRgbColorsHelper rest attr (opt =? ForegroundExtended) in
              sgr_loop fuel options (i + consumed + 1) attr
          end
        else sgr_loop fuel options (i + 1) (apply_option opt attr)
      else inr attr
  end.

Definition apply_options (options : VTParameters) (attr : TextAttribute) : exn + TextAttribute :=
  sgr_loop (S (Z.to_nat (params_size options))) options 0 attr.

(** ** The dispatch's methods *)

Section dispatch.
Context {C : Type} `{ConGetSet C}.

Definition get_attributes : prog (AdaptGraphics C) (bool * TextAttribute) := λ w,
  let '(success, attr, c) := PrivateGetTextAttributes (_pConApi w) in
  Ok (success, attr) (mkAdaptGraphics c (_sgrStack w)).

Definition set_attributes (attr : TextAttribute) : prog (AdaptGraphics C) bool := λ w,
  let '(success, c) := PrivateSetTextAttributes attr (_pConApi w) in
  Ok success (mkAdaptGraphics c (_sgrStack w)).

Definition on_stack {A} (m : prog SgrStack A) : prog (AdaptGraphics C) A := λ w,
  match m (_sgrStack w) with
  | Ok a st => Ok a (mkAdaptGraphics (_pConApi w) st)
  | Throw e st => Throw e (mkAdaptGraphics (_pConApi w) st)
  end.

Definition AdaptDispatch_SetGraphicsRendition (options : VTParameters)
    : prog (AdaptGraphics C) bool :=
  '(success, attr) ← get_attributes;
  if (success : bool) then
    match apply_options options attr with
    | inr attr => set_attributes attr
    | inl e => throw e
    end
  else mret false.

Definition AdaptDispatch_PushGraphicsRendition (options : VTParameters)
    : prog (AdaptGraphics C) bool :=
  '(success, currentAttributes) ← get_attributes;
  if (success : bool) then on_stack (Push currentAttributes options);; mret success
  else mret success.

Definition AdaptDispatch_PopGraphicsRendition : prog (AdaptGraphics C) bool :=
  '(success, currentAttributes) ← get_attributes;
  if (success : bool) then
    attr ← on_stack (Pop currentAttributes);
    set_attributes attr
  else mret success.
End dispatch.

(** ** The loop returns *)

Lemma SetRgbColorsHelper_consumes options attr fg :
  1 <= (_SetRgbColorsHelper options attr fg).1.
Proof. unfold _SetRgbColorsHelper. cbv zeta. repeat case_match; cbn; lia. Qed.

Lemma sgr_loop_total fuel options i attr :
  0 <= i → params_size options - i < Z.of_nat fuel → (0 < fuel)%nat →
  ∃ attr', sgr_loop fuel options i attr = inr attr'.
Proof.
  revert i attr. induction fuel as [|fuel IH]; intros i attr Hi Hf H0; [lia|]. cbn [sgr_loop].
  destruct (Z.ltb_spec i (params_size options)) as [Hs|Hs]; [|eauto].
  set (opt := as_selective (params_at options i)). destruct (_ || _) eqn:He.
  - assert (i < Z.of_nat (length options)) as Hlen.
    { unfold params_size in Hs. destruct (Z.ltb_spec i (Z.of_nat (length options))); [done|].
      unfold opt, params_at in He. rewrite (proj2 (Z.ltb_ge _ _)) in He by done. done. }
    unfold params_subspan. destruct (Z.leb_spec (i + 1) (Z.of_nat (length options))); [|lia].
    pose proof (SetRgbColorsHelper_consumes (drop (Z.to_nat (i + 1)) options) attr
      (opt =? ForegroundExtended)) as Hc.
    destruct (_SetRgbColorsHelper _ _ _) as [n a]. cbn in Hc. apply IH; lia.
  - apply IH; lia.
Qed.

(** SGR handles every list of options: the loop ends, and the view of the
    options after a 38 or 48 is never taken out of range, also when the
    sequence ends there. *)
Theorem apply_options_total (options : VTParameters) (attr : TextAttribute) :
  ∃ attr', apply_options options attr = inr attr'.
Proof. apply sgr_loop_total; unfold params_size; lia. Qed.

(** ** What the options mean *)

(** A well-formed list of options is a sequence of items. *)
Inductive SgrItem :=
  | ItemOption (opt : Z)
  | ItemRgb (isForeground : bool) (red green blue : Z)
  | ItemIndexed (isForeground : bool) (tableIndex : Z).

Definition extended (isForeground : bool) : Z :=
  if isForeground then ForegroundExtended else BackgroundExtended.

Definition item_codes (it : SgrItem) : list Z :=
  match it with
  | ItemOption opt => [opt]
  | ItemRgb fg r g b => [extended fg; 2; r; g; b]
  | ItemIndexed fg n => [extended fg; 5; n]
  end.

Definition item_params (it : SgrItem) : list VTParameter := VTParameter_of <$> item_codes it.

Definition item_apply (it : SgrItem) (attr : TextAttribute) : TextAttribute :=
  match it with
  | ItemOption opt => apply_option opt attr
  | ItemRgb fg r g b =>
      if (r <=? 255) && (g <=? 255) && (b <=? 255) then SetColor (RGB r g b) fg attr else attr
  | ItemIndexed fg n =>
      if n <=? 255 then
        (if fg then SetForeground else SetBackground)
          (TextColor_index (u8 (Xterm256ToWindowsIndex n)) true) attr
      else attr
  end.

Definition item_valid (it : SgrItem) : Prop :=
  Forall (λ n, 0 <= n <= 32767) (item_codes it)
  ∧ match it with ItemOption opt => opt ≠ ForegroundExtended ∧ opt ≠ BackgroundExtended | _ => True end.

Lemma value_or_of n : 0 <= n <= 32767 → value_or (VTParameter_of n) 0 = n.
Proof.
  intros Hn. unfold value_or, has_value, VTParameter_of. cbn [_value].
  rewrite i64_small by lia. rewrite u64_small by lia. destruct (Z.geb_spec n 0); lia.
Qed.

Lemma params_at_app pre l k x :
  l !! k = Some x → params_at (pre ++ l) (Z.of_nat (length pre + k)) = x.
Proof.
  intros Hk. pose proof (lookup_lt_Some _ _ _ Hk). unfold params_at.
  rewrite length_app, (proj2 (Z.ltb_lt _ _)) by lia.
  rewrite Nat2Z.id, lookup_app_r by lia.
  replace (length pre + k - length pre)%nat with k by lia. by rewrite Hk.
Qed.

Lemma params_at_lookup l k x : l !! k = Some x → params_at l (Z.of_nat k) = x.
Proof. intros Hk. exact (params_at_app [] l k x Hk). Qed.

(** The helper on the options of an item. *)
Lemma helper_item it post attr :
  item_valid it → (∀ opt, it ≠ ItemOption opt) →
  _SetRgbColorsHelper (drop 1 (item_params it) ++ post) attr
    (match it with ItemRgb fg _ _ _ | ItemIndexed fg _ => fg | _ => true end)
  = (Z.of_nat (length (item_params it)) - 1, item_apply it attr).
Proof.
  intros [Hv _] Hno. destruct it as [opt|fg r g b|fg n]; [by destruct (Hno opt)| |].
  - unfold item_codes in Hv. repeat (apply Forall_cons in Hv as [? Hv]).
    set (l := drop 1 _ ++ post). pose proof (params_at_lookup l) as Hp.
    assert (params_at l 0 = VTParameter_of 2) as P0 by exact (Hp 0%nat _ eq_refl).
    assert (params_at l 1 = VTParameter_of r) as P1 by exact (Hp 1%nat _ eq_refl).
    assert (params_at l 2 = VTParameter_of g) as P2 by exact (Hp 2%nat _ eq_refl).
    assert (params_at l 3 = VTParameter_of b) as P3 by exact (Hp 3%nat _ eq_refl).
    unfold _SetRgbColorsHelper, as_selective. rewrite P0, P1, P2, P3, !value_or_of by done. done.
  - unfold item_codes in Hv. repeat (apply Forall_cons in Hv as [? Hv]).
    set (l := drop 1 _ ++ post). pose proof (params_at_lookup l) as Hp.
    assert (params_at l 0 = VTParameter_of 5) as P0 by exact (Hp 0%nat _ eq_refl).
    assert (params_at l 1 = VTParameter_of n) as P1 by exact (Hp 1%nat _ eq_refl).
    unfold _SetRgbColorsHelper, as_selective. rewrite P0, P1, !value_or_of by done. by destruct fg.
Qed.

(** One item is one round of the loop. *)
Lemma sgr_loop_item fuel pre it post attr :
  item_valid it →
  sgr_loop (S fuel) (pre ++ item_params it ++ post) (Z.of_nat (length pre)) attr
  = sgr_loop fuel (pre ++ item_params it ++ post)
      (Z.of_nat (length (pre ++ item_params it))) (item_apply it attr).
Proof.
  intros Hv. cbn [sgr_loop].
  assert (0 < length (item_params it))%nat as Hpos by by destruct it; cbn; lia.
  rewrite (proj2 (Z.ltb_lt _ _)); [|unfold params_size; rewrite !length_app; lia].
  assert (∀ c rest, item_codes it = c :: rest →
    as_selective (params_at (pre ++ item_params it ++ post) (Z.of_nat (length pre))) = c) as Hc.
  { intros c rest Ec. rewrite <-(Nat.add_0_r (length pre)) at 1.
    rewrite (params_at_app pre _ 0 (VTParameter_of c)).
    - apply value_or_of. destruct Hv as [Hv _]. rewrite Ec in Hv. by apply Forall_inv in Hv.
    - unfold item_params. by rewrite Ec. }
  assert (params_subspan (pre ++ item_params it ++ post) (Z.of_nat (length pre) + 1)
    = Some (drop 1 (item_params it) ++ post)) as Hsub.
  { unfold params_subspan. rewrite (proj2 (Z.leb_le _ _)) by (rewrite !length_app; lia).
    f_equal. replace (Z.to_nat _) with (length pre + 1)%nat by lia.
    rewrite <-drop_drop, drop_app_length. by rewrite drop_app_le by lia. }
  rewrite length_app. destruct it as [opt|fg r g b|fg n].
  - rewrite (Hc _ _ eq_refl). destruct Hv as [_ [H1 H2]].
    rewrite (proj2 (Z.eqb_neq _ _) H1), (proj2 (Z.eqb_neq _ _) H2). cbn. by rewrite Nat2Z.inj_add.
  - rewrite (Hc _ _ eq_refl), Hsub. pose proof (helper_item _ post attr Hv ltac:(done)) as Hh.
    replace (extended fg =? ForegroundExtended) with fg by by destruct fg.
    replace (fg || (extended fg =? BackgroundExtended)) with true by by destruct fg.
    rewrite Hh. f_equal. lia.
  - rewrite (Hc _ _ eq_refl), Hsub. pose proof (helper_item _ post attr Hv ltac:(done)) as Hh.
    replace (extended fg =? ForegroundExtended) with fg by by destruct fg.
    replace (fg || (extended fg =? BackgroundExtended)) with true by by destruct fg.
    rewrite Hh. f_equal. lia.
Qed.

Lemma sgr_loop_items its fuel pre attr :
  Forall item_valid its → (length its < fuel)%nat → pre ++ (its ≫= item_params) ≠ [] →
  sgr_loop fuel (pre ++ (its ≫= item_params)) (Z.of_nat (length pre)) attr
  = inr (fold_left (λ a it, item_apply it a) its attr).
Proof.
  intros Hv. revert fuel pre attr. induction Hv as [|it its Hit _ IH]; intros fuel pre attr Hf Hne.
  - destruct fuel as [|fuel]; [lia|]. cbn [mbind list_bind] in *. rewrite app_nil_r in *.
    cbn [sgr_loop]. unfold params_size. rewrite (proj2 (Z.ltb_ge _ _)); [done|].
    destruct pre; [done|]. cbn. lia.
  - destruct fuel as [|fuel]; [lia|]. cbn [mbind list_bind] in *.
    rewrite sgr_loop_item by done. rewrite (app_assoc pre) in *.
    apply IH; [cbn in Hf; lia|done].
Qed.

(** SGR applies its options from left to right, each with its own meaning:
    for every non-empty sequence of options, RGB colours and palette colours,
    with any values the parser produces, the attributes are those that the
    items make of them one after the other. *)
Theorem apply_options_items (its : list SgrItem) (attr : TextAttribute) :
  its ≠ [] → Forall item_valid its →
  apply_options (its ≫= item_params) attr = inr (fold_left (λ a it, item_apply it a) its attr).
Proof.
  intros Hne Hv. unfold apply_options.
  assert (length its <= length (its ≫= item_params))%nat as Hlen.
  { clear. induction its as [|it its IH]; [done|]. rewrite bind_cons, length_app. cbn [length].
    assert (0 < length (item_params it))%nat by (destruct it; cbn; lia). lia. }
  apply (sgr_loop_items its _ []); [done|unfold params_size; lia|].
  cbn. destruct its as [|it its]; [done|]. by destruct it.
Qed.

Lemma apply_options_items_witness :
  apply_options ([ItemOption 1; ItemRgb true 1 2 3; ItemIndexed false 200] ≫= item_params)
    TextAttribute_default
  = inr (SetIndexedBackground256 200 (SetColor 0x030201 true (SetBold true TextAttribute_default))).
Proof.
  rewrite (apply_options_items [ItemOption 1; ItemRgb true 1 2 3; ItemIndexed false 200]);
    [reflexivity|discriminate|].
  repeat constructor; discriminate || lia.
Defined.

(** ** The dispatch on a console that works *)

(** A console that gives back the attributes it was given. *)
Class ConGetSetOk (C : Type) `{ConGetSet C} : Prop := {
  get_succeeds c : ∃ a, PrivateGetTextAttributes c = (true, a, c);
  get_set a c : ∃ c', PrivateSetTextAttributes a c = (true, c')
    ∧ PrivateGetTextAttributes c' = (true, a, c')
}.

Section dispatch_facts.
Context {C : Type} `{ConGetSetOk C}.

Lemma SetGraphicsRendition_ok options (w : AdaptGraphics C) :
  ∃ a a' c', PrivateGetTextAttributes (_pConApi w) = (true, a, _pConApi w)
    ∧ apply_options options a = inr a'
    ∧ AdaptDispatch_SetGraphicsRendition options w = Ok true (mkAdaptGraphics c' (_sgrStack w))
    ∧ PrivateGetTextAttributes c' = (true, a', c').
Proof.
  destruct (get_succeeds (_pConApi w)) as [a Ha].
  assert (∃ a', apply_options options a = inr a') as [a' Ha'].
  { apply sgr_loop_total; unfold params_size; lia. }
  destruct (get_set a' (_pConApi w)) as (c' & Hs & Hg). exists a, a', c'.
  split; [done|]. split; [done|]. split; [|done].
  unfold AdaptDispatch_SetGraphicsRendition, get_attributes, set_attributes, mbind, prog_bind.
  rewrite Ha, Ha'. cbn. by rewrite Hs.
Qed.

(** Push, change, pop.  On a console that gives back the attributes it was
    given, saving all attributes, applying any SGR options and restoring leaves
    the attributes as they were, for any stack of saved attributes; every call
    reports success. *)
Theorem push_sgr_pop_restores (options : VTParameters) (w : AdaptGraphics C) (a : TextAttribute)
    (l : list SavedSgrAttributes) :
  PrivateGetTextAttributes (_pConApi w) = (true, a, _pConApi w) → holds (_sgrStack w) l →
  ∃ w', (r1 ← AdaptDispatch_PushGraphicsRendition [];
         r2 ← AdaptDispatch_SetGraphicsRendition options;
         r3 ← AdaptDispatch_PopGraphicsRendition;
         mret [r1; r2; r3]) w = Ok [true; true; true] w'
    ∧ PrivateGetTextAttributes (_pConApi w') = (true, a, _pConApi w')
    ∧ holds (_sgrStack w') (take 9 l).
Proof.
  intros Ha Hl. destruct (Push_refines a [] _ _ Hl) as (st1 & Hp1 & Hst1).
  assert (AdaptDispatch_PushGraphicsRendition [] w = Ok true (mkAdaptGraphics (_pConApi w) st1)) as E1.
  { unfold AdaptDispatch_PushGraphicsRendition, get_attributes, on_stack, mbind, prog_bind.
    rewrite Ha. cbn [_sgrStack]. by rewrite Hp1. }
  rewrite (bind_ok _ _ _ _ _ E1).
  destruct (SetGraphicsRendition_ok options (mkAdaptGraphics (_pConApi w) st1))
    as (a0 & a1 & c1 & _ & _ & E2 & Hg1).
  rewrite (bind_ok _ _ _ _ _ E2). cbn [_sgrStack].
  destruct (Pop_refines a1 _ _ Hst1) as (st2 & Hp2 & Hst2).
  change (abs_pop a1 (abs_push a [] l)).1 with a in Hp2.
  change (abs_pop a1 (abs_push a [] l)).2 with (take 9 l) in Hst2.
  destruct (get_set a c1) as (c2 & Hs2 & Hg2).
  exists (mkAdaptGraphics c2 st2). split; [|by split].
  unfold AdaptDispatch_PopGraphicsRendition, get_attributes, set_attributes, on_stack, mbind, prog_bind.
  cbn [_pConApi _sgrStack]. rewrite Hg1. cbn [_sgrStack _pConApi]. rewrite Hp2.
  cbn [_pConApi _sgrStack]. by rewrite Hs2.
Qed.
End dispatch_facts.

(** A console that is just its current attributes. *)
#[global] Instance attribute_console : ConGetSet TextAttribute :=
  {| PrivateGetTextAttributes a := (true, a, a); PrivateSetTextAttributes a _ := (true, a) |}.
#[global] Instance attribute_console_ok : ConGetSetOk TextAttribute.
Proof. split; cbn; eauto. Qed.

Lemma push_sgr_pop_restores_witness :
  ∃ w', (r1 ← AdaptDispatch_PushGraphicsRendition [];
         r2 ← AdaptDispatch_SetGraphicsRendition [VTParameter_of 1; VTParameter_of 38];
         r3 ← AdaptDispatch_PopGraphicsRendition;
         mret [r1; r2; r3]) (mkAdaptGraphics TextAttribute_default SgrStack_init)
    = Ok [true; true; true] w'
    ∧ PrivateGetTextAttributes (_pConApi w') = (true, TextAttribute_default, _pConApi w')
    ∧ holds (_sgrStack w') [].
Proof.
  apply (push_sgr_pop_restores _ (mkAdaptGraphics TextAttribute_default SgrStack_init)
    TextAttribute_default []); [reflexivity|apply holds_init].
Defined.
