(* ===== verification/Rle.v ===== *)
(** Run-length encoded vectors: [src/src/inc/til/rle.h], the class
    [til::basic_rle] that the attribute rows of the text buffer are made of.

    The vector of runs is a list, an iterator into it is an index, and
    dereferencing an iterator that is not inside the vector is undefined
    behaviour.  The arithmetic on lengths wraps at the width of [size_type]. *)

From S2P Require Import Prelude.

Record rle_pair (T : Type) := mkRun {
  rp_value : T;
  rp_length : Z
}.
Arguments mkRun {T} _ _.
Arguments rp_value {T} _.
Arguments rp_length {T} _.

Record basic_rle (T : Type) := mkRle {
  _runs : list (rle_pair T);
  _total_length : Z
}.
Arguments mkRle {T} _ _.
Arguments _runs {T} _.
Arguments _total_length {T} _.

#[global] Instance rle_pair_eq_dec `{EqDecision T} : EqDecision (rle_pair T).
Proof. solve_decision. Defined.
#[global] Instance basic_rle_eq_dec `{EqDecision T} : EqDecision (basic_rle T).
Proof. solve_decision. Defined.

Section rle.
Context {T : Type} `{EqDecision T} `{Inhabited T} (width : Z).

Abbreviation run := (rle_pair T).
Abbreviation size_ := (wrapu width).
Implicit Types (R : list run) (v : basic_rle T).

(** ** Vectors and iterators *)

Definition deref R (it : nat) : exn + run :=
  match R !! it with
  | Some r => inr r
  | None => inl UndefinedBehavior
  end.

Definition set_length (len : Z) (r : run) : run := mkRun (rp_value r) len.

Definition write_length R (it : nat) (f : Z → Z) : exn + list run :=
  r ← deref R it; mret (<[it := set_length (f (rp_length r)) r]> R).

Definition prev_it (it : nat) : exn + nat :=
  match it with
  | O => inl UndefinedBehavior
  | S it => inr it
  end.

Definition vec_erase R (first last : nat) : exn + list run :=
  if decide (first <= last <= length R)%nat then mret (take first R ++ drop last R)
  else inl UndefinedBehavior.

Definition vec_insert R (it : nat) (l : list run) : exn + list run :=
  if decide (it <= length R)%nat then mret (take it R ++ l ++ drop it R)
  else inl UndefinedBehavior.

(** [std::copy] into the vector; the iterator after the copy. *)
Definition vec_copy R (l : list run) (it : nat) : exn + list run * nat :=
  if decide (it + length l <= length R)%nat
  then mret (take it R ++ l ++ drop (it + length l) R, (it + length l)%nat)
  else inl UndefinedBehavior.

(** ** Construction and reading *)

Definition sum_lengths R : Z := fold_left (λ total r, size_ (total + rp_length r)) R 0.

Definition rle_of_runs R : basic_rle T := mkRle R (sum_lengths R).

Definition rle_fill (length_ : Z) (value : T) : basic_rle T :=
  mkRle (if length_ =? 0 then [] else [mkRun value length_]) length_.

Definition rle_size v : Z := _total_length v.

Definition rle_empty v : bool := _total_length v =? 0.

(** [rle_scanner::scan] on the runs from the iterator on: the iterator, the
    position in its run, and the scanner's total for the next scan. *)
Fixpoint scan (runs : list run) (it : nat) (total index : Z) : nat * Z * Z :=
  match runs with
  | [] => (it, 0, total)
  | r :: runs' =>
      let new_total := size_ (total + rp_length r) in
      if new_total >? index then (it, size_ (index - total), total)
      else scan runs' (S it) new_total index
  end.

Definition rle_at v (position : Z) : exn + T :=
  let '(it, _, _) := scan (_runs v) 0 0 position in
  match _runs v !! it with
  | Some r => inr (rp_value r)
  | None => inl OutOfRange
  end.

Definition rle_slice v (start_index end_index : Z) : exn + basic_rle T :=
  let end_index := if end_index >? _total_length v then _total_length v else end_index in
  if start_index >=? end_index then mret (mkRle [] 0)
  else
    let '(begin_run, start_run_pos, total) := scan (_runs v) 0 0 start_index in
    let '(end_run, end_run_pos, _) :=
      scan (drop begin_run (_runs v)) begin_run total (size_ (end_index - 1)) in
    let slice := take (end_run + 1 - begin_run) (drop begin_run (_runs v)) in
    slice ← write_length slice (length slice - 1) (λ _, size_ (end_run_pos + 1));
    slice ← write_length slice 0 (λ len, size_ (len - start_run_pos));
    mret (mkRle slice (size_ (end_index - start_index))).

(** ** Replacing *)

Definition _check_indices v (start_index end_index : Z) : exn + Z :=
  let end_index := if end_index >? _total_length v then _total_length v else end_index in
  if start_index >? end_index then inl OutOfRange else mret end_index.

(** The iterator before an insertion point: the run the point is in, or the
    run that ends there. *)
Definition previous_run (begin : nat) (begin_pos : Z) : exn + nat :=
  if begin_pos =? 0 then prev_it begin else mret begin.

(** Step 3: the lengths of the runs at both ends. *)
Definition trim_runs R (begin : nat) (begin_pos : Z) (end_ : nat) (end_pos : Z)
    : exn + list run * nat :=
  '(R, begin) ←
    (if begin_pos =? 0 then mret (R, begin)
     else R ← write_length R begin (λ _, begin_pos); mret (R, S begin));
  R ← (if end_pos =? 0 then mret R else write_length R end_ (λ len, size_ (len - end_pos)));
  mret (R, begin).

(** The branch for pure removals. *)
Definition remove_runs v (begin : nat) (begin_pos : Z) (end_ : nat) (end_pos start_index end_index : Z)
    : exn + basic_rle T :=
  let R := _runs v in
  let removed := size_ (end_index - start_index) in
  '(R, begin, begin_pos, end_pos) ←
    (if negb (start_index =? 0) && negb (end_index =? _total_length v) then
       previous ← previous_run begin begin_pos;
       p ← deref R previous;
       e ← deref R end_;
       if decide (rp_value p = rp_value e) then
         R ← write_length R end_ (λ len,
               size_ (len - (end_pos - (if begin_pos =? 0 then rp_length p else begin_pos))));
         mret (R, previous, 0, 0)
       else mret (R, begin, begin_pos, end_pos)
     else mret (R, begin, begin_pos, end_pos));
  '(R, begin) ← trim_runs R begin begin_pos end_ end_pos;
  R ← vec_erase R begin end_;
  mret (mkRle R (size_ (_total_length v - removed))).

(** Steps 4 to 6: the runs from [begin] to [end_] make place for the
    replacements and the trailer. *)
Definition place_runs R (begin end_ : nat) (replacements : list run) (trailer : option run)
    : exn + list run :=
  let available_space := if decide (begin < end_)%nat then (end_ - begin)%nat else 0%nat in
  let required_space := (length replacements + length (option_list trailer))%nat in
  let begin_index := begin in
  let direct := Nat.min available_space (length replacements) in
  '(R, begin) ← vec_copy R (take direct replacements) begin;
  if decide (required_space <= available_space)%nat then vec_erase R begin end_
  else
    match trailer with
    | Some t =>
        R ← vec_insert R begin (replicate (required_space - available_space) (mkRun inhabitant 0));
        '(R, begin) ← vec_copy R (drop direct replacements) begin_index;
        _ ← deref R begin;
        mret (<[begin := t]> R)
    | None => vec_insert R begin (drop direct replacements)
    end.

(** Step 1: the replacements join the run before them ... *)
Definition join_begin R (start_index : Z) (begin : nat) (begin_pos : Z) (front : run)
    : exn + nat * Z * Z :=
  if start_index =? 0 then mret (begin, begin_pos, 0)
  else
    previous ← previous_run begin begin_pos;
    p ← deref R previous;
    if decide (rp_value p = rp_value front) then
      mret (previous, 0, if begin_pos =? 0 then rp_length p else begin_pos)
    else mret (begin, begin_pos, 0).

(** ... and the run after them. *)
Definition join_end R (total_length end_index : Z) (end_ : nat) (end_pos : Z) (back : run)
    : exn + nat * Z * Z :=
  if end_index =? total_length then mret (end_, end_pos, 0)
  else
    e ← deref R end_;
    if decide (rp_value e = rp_value back) then mret (S end_, 0, size_ (rp_length e - end_pos))
    else mret (end_, end_pos, 0).

(** Step 2: a run that is split in two leaves a trailer. *)
Definition split_run R (begin : nat) (begin_pos : Z) (end_ : nat) (end_pos : Z)
    : exn + option run * Z :=
  if decide (begin = end_) then
    if begin_pos =? 0 then mret (None, end_pos)
    else
      b ← deref R begin;
      mret (Some (mkRun (rp_value b) (size_ (rp_length b - end_pos))), 0)
  else mret (None, end_pos).

(** Step 7: the lengths of the joined runs. *)
Definition extend_runs R (begin required_space : nat)
    (begin_additional_length end_additional_length : Z) : exn + list run :=
  R ← (if begin_additional_length =? 0 then mret R
       else write_length R begin (λ len, size_ (len + begin_additional_length)));
  if end_additional_length =? 0 then mret R
  else write_length R (begin + required_space - 1) (λ len, size_ (len + end_additional_length)).

Definition _replace_unchecked v (start_index end_index : Z) (replacements : list run)
    : exn + basic_rle T :=
  let R := _runs v in
  let '(begin, begin_pos, total) := scan R 0 0 start_index in
  let '(end_, end_pos, _) := scan (drop begin R) begin total end_index in
  match replacements, last replacements with
  | front :: _, Some back =>
      '(begin, begin_pos, begin_additional_length) ← join_begin R start_index begin begin_pos front;
      '(end_, end_pos, end_additional_length) ←
        join_end R (_total_length v) end_index end_ end_pos back;
      '(mid_insertion_trailer, end_pos) ← split_run R begin begin_pos end_ end_pos;
      '(R, begin) ← trim_runs R begin begin_pos end_ end_pos;
      R ← place_runs R begin end_ replacements mid_insertion_trailer;
      let required_space :=
        (length replacements + length (option_list mid_insertion_trailer))%nat in
      R ← extend_runs R begin required_space begin_additional_length end_additional_length;
      (* Step 8 *)
      mret (mkRle R (fold_left (λ total r, size_ (total + rp_length r)) replacements
                       (size_ (_total_length v - (end_index - start_index)))))
  | _, _ => remove_runs v begin begin_pos end_ end_pos start_index end_index
  end.

Definition rle_replace_runs v (start_index end_index : Z) (replacements : list run)
    : exn + basic_rle T :=
  end_index ← _check_indices v start_index end_index;
  _replace_unchecked v start_index end_index replacements.

Definition rle_replace v (start_index end_index : Z) (value : T) : exn + basic_rle T :=
  end_index ← _check_indices v start_index end_index;
  _replace_unchecked v start_index end_index [mkRun value (size_ (end_index - start_index))].

(** ** Values and sizes *)

(** The inner loop of [_compact]: [ref] collects the runs that follow it. *)
Fixpoint compact_from (ref : run) R : list run :=
  match R with
  | [] => [ref]
  | r :: R' =>
      if decide (rp_value ref = rp_value r)
      then compact_from (set_length (size_ (rp_length ref + rp_length r)) ref) R'
      else ref :: compact_from r R'
  end.

(** The outer loop: it looks for the first two runs of one value. *)
Fixpoint compact_runs (ref : run) R : list run :=
  match R with
  | [] => [ref]
  | r :: R' =>
      if decide (rp_value ref = rp_value r)
      then compact_from (set_length (size_ (rp_length ref + rp_length r)) ref) R'
      else ref :: compact_runs r R'
  end.

Definition _compact v : basic_rle T :=
  match _runs v with
  | [] => v
  | r :: R => mkRle (compact_runs r R) (_total_length v)
  end.

Definition replace_values v (old_value new_value : T) : basic_rle T :=
  _compact (mkRle ((λ r, if decide (rp_value r = old_value) then mkRun new_value (rp_length r) else r)
                     <$> _runs v) (_total_length v)).

Definition resize_trailing_extent v (new_size : Z) : exn + basic_rle T :=
  R ← (if new_size =? 0 then mret []
       else if new_size <? _total_length v then
         let '(it, pos, _) := scan (_runs v) 0 0 (size_ (new_size - 1)) in
         R ← write_length (_runs v) it (λ _, size_ (pos + 1));
         vec_erase R (it + 1) (length R)
       else if new_size >? _total_length v then
         if decide (_runs v = []) then inl FailFast
         else write_length (_runs v) (length (_runs v) - 1)
                (λ len, size_ (len + (new_size - _total_length v)))
       else mret (_runs v));
  mret (mkRle R new_size).

(** ** The abstraction: the values of all positions *)

Definition decode R : list T := R ≫= λ r, replicate (Z.to_nat (rp_length r)) (rp_value r).

Definition total R : Z := fold_right (λ r n, rp_length r + n) 0 R.

(** Lengths are numbers of the type's width, and the total is their sum. *)
Definition rle_wf v : Prop :=
  Forall (λ r, 0 <= rp_length r) (_runs v) ∧ _total_length v = total (_runs v)
  ∧ _total_length v < 2 ^ width.
End rle.
