(* ===== verification/RleFacts.v ===== *)
(** Run-length encoded vectors do what plain vectors do: every operation of
    [Rle.v] against the list of the values of all positions. *)

From S2P Require Import Prelude Rle.

Section facts.
Context {T : Type} `{EqDecision T} `{Inhabited T} (width lo : Z) (Hlo : 0 <= lo <= 1).

Abbreviation run := (rle_pair T).
Implicit Types (R : list run) (v : basic_rle T) (r : run).

Abbreviation nonneg := (Forall (λ r : run, lo <= rp_length r)).

(** The values of [k] positions of a run. *)
Definition rep (k : Z) (x : T) : list T := replicate (Z.to_nat k) x.

Lemma rep_0 x : rep 0 x = [].
Proof. done. Qed.

Lemma rep_add j k x : 0 <= j → 0 <= k → rep (j + k) x = rep j x ++ rep k x.
Proof. intros Hj Hk. unfold rep. by rewrite Z2Nat.inj_add, replicate_add. Qed.

Lemma length_rep k x : 0 <= k → Z.of_nat (length (rep k x)) = k.
Proof. intros Hk. unfold rep. rewrite length_replicate. lia. Qed.

(** Well-formed vectors whose runs have at least [lo] positions: [rle_wf] for 0,
    vectors without empty runs for 1.  All operations keep both. *)
Definition wf v : Prop :=
  nonneg (_runs v) ∧ _total_length v = total (_runs v) ∧ _total_length v < 2 ^ width.

(** ** Decoding *)

Lemma decode_cons r R : decode (r :: R) = rep (rp_length r) (rp_value r) ++ decode R.
Proof. done. Qed.

Lemma decode_app R R' : decode (R ++ R') = decode R ++ decode R'.
Proof. unfold decode. apply bind_app. Qed.

Lemma total_cons r R : total (r :: R) = rp_length r + total R.
Proof. done. Qed.

Lemma total_app R R' : total (R ++ R') = total R + total R'.
Proof. induction R as [|r R IH]; [done|]. cbn [app]. rewrite !total_cons, IH. lia. Qed.

Lemma total_nonneg R : nonneg R → 0 <= total R.
Proof. induction 1; [done|]. rewrite total_cons. lia. Qed.

Lemma length_decode R : nonneg R → Z.of_nat (length (decode R)) = total R.
Proof.
  induction 1 as [|r R Hr _ IH]; [done|]. rewrite decode_cons, length_app, Nat2Z.inj_add, IH.
  rewrite length_rep by lia. done.
Qed.

Lemma nonneg_take_drop k R : nonneg R → nonneg (take k R) ∧ nonneg (drop k R).
Proof. intros Hn. split; [by apply Forall_take|by apply Forall_drop]. Qed.

Lemma take_drop_middle_run R k r : R !! k = Some r → R = take k R ++ r :: drop (S k) R.
Proof. intros Hk. symmetry. by apply take_drop_middle. Qed.

(** ** Scanning *)

(** The values before and after position [pos] of run [it]. *)
Definition head_of R (it : nat) (pos : Z) : list T :=
  match R !! it with Some r => rep pos (rp_value r) | None => [] end.

Definition rest_of R (it : nat) (pos : Z) : list T :=
  match R !! it with
  | Some r => rep (rp_length r - pos) (rp_value r) ++ decode (drop (S it) R)
  | None => []
  end.

(** Position [pos] of run [it] is a place in the vector, or its end. *)
Definition in_run R (it : nat) (pos : Z) : Prop :=
  match R !! it with Some r => 0 <= pos < rp_length r | None => pos = 0 ∧ it = length R end.

(** It is the place of [index]. *)
Definition point R (it : nat) (pos index : Z) : Prop :=
  in_run R it pos ∧ total (take it R) + pos = index.

Lemma decode_point R it pos :
  in_run R it pos → decode R = decode (take it R) ++ head_of R it pos ++ rest_of R it pos.
Proof.
  unfold in_run, head_of, rest_of. destruct (R !! it) as [r|] eqn:Hr; intros Hp.
  - rewrite (take_drop_middle_run _ _ _ Hr) at 1. rewrite decode_app, decode_cons, app_assoc.
    rewrite <-!app_assoc. f_equal. rewrite (app_assoc (rep pos _)), <-rep_add by lia.
    by replace (pos + (rp_length r - pos)) with (rp_length r) by lia.
  - destruct Hp as [_ ->]. by rewrite firstn_all, !app_nil_r.
Qed.

Lemma length_head R it pos : in_run R it pos → Z.of_nat (length (head_of R it pos)) = pos.
Proof.
  unfold in_run, head_of. destruct (R !! it); [intros Hp; apply length_rep; lia|].
  by intros [-> _].
Qed.

(** A point splits the values. *)
Lemma point_split R it pos index :
  nonneg R → point R it pos index →
  take (Z.to_nat index) (decode R) = decode (take it R) ++ head_of R it pos
  ∧ drop (Z.to_nat index) (decode R) = rest_of R it pos.
Proof.
  intros Hn [Hp Hi]. rewrite (decode_point R it pos Hp), app_assoc.
  assert (length (decode (take it R) ++ head_of R it pos) = Z.to_nat index) as <-.
  { rewrite length_app. pose proof (length_head R it pos Hp).
    pose proof (length_decode _ (proj1 (nonneg_take_drop it R Hn))). lia. }
  by rewrite take_app_length, drop_app_length.
Qed.

Lemma scan_point R it tot index :
  nonneg R → (it <= length R)%nat → tot = total (take it R) → tot <= index <= total R →
  total R < 2 ^ width →
  let '(it', pos, tot') := scan width (drop it R) it tot index in
  point R it' pos index ∧ (it <= it' <= length R)%nat ∧ tot' = total (take it' R).
Proof.
  intros Hn Hit Htot Hi Hw. remember (drop it R) as runs eqn:Hr. revert it tot Hit Htot Hi Hr.
  induction runs as [|r runs IH]; intros it tot Hit Htot Hi Hr; cbn [scan].
  - assert (it = length R) as ->.
    { apply (f_equal length) in Hr. rewrite length_drop in Hr. cbn in Hr. lia. }
    rewrite firstn_all in Htot. split; [|by subst; rewrite firstn_all].
    unfold point, in_run. rewrite lookup_ge_None_2, firstn_all by lia. split; [done|]. lia.
  - assert (R !! it = Some r) as Hl.
    { rewrite <-(Nat.add_0_r it), <-lookup_drop, <-Hr. done. }
    assert (drop (S it) R = runs) as Hd by (by rewrite (drop_S _ _ _ Hl) in Hr; inversion Hr).
    pose proof (Forall_lookup_1 _ _ _ _ Hn Hl) as Hlen. cbn in Hlen.
    assert (total (take (S it) R) = tot + rp_length r) as Ht.
    { rewrite (take_S_r _ _ _ Hl), total_app. cbn. lia. }
    assert (tot + rp_length r <= total R) as Hle.
    { rewrite <-(take_drop (S it) R), total_app, Ht.
      pose proof (total_nonneg _ (proj2 (nonneg_take_drop (S it) R Hn))). lia. }
    assert (0 <= tot) by (subst tot; apply total_nonneg; by apply nonneg_take_drop).
    rewrite (wrapu_small width (tot + rp_length r)) by lia.
    destruct (Z.gtb_spec (tot + rp_length r) index).
    + rewrite wrapu_small by lia. split; [|split; [lia|done]].
      unfold point, in_run. rewrite Hl. lia.
    + pose proof (lookup_lt_Some _ _ _ Hl).
      specialize (IH (S it) (tot + rp_length r) ltac:(lia) (eq_sym Ht) ltac:(lia) (eq_sym Hd)).
      destruct (scan width runs (S it) _ index) as [[it' pos] tot'].
      destruct IH as (? & ? & ?). split; [done|]. split; [lia|done].
Qed.

Lemma scan_beyond runs it tot index :
  nonneg runs → 0 <= tot → tot + total runs <= index → tot + total runs < 2 ^ width →
  (scan width runs it tot index).1.1 = (it + length runs)%nat.
Proof.
  intros Hn. revert it tot. induction Hn as [|r runs Hr Hn IH]; intros it tot Ht Hi Hw; cbn [scan].
  - cbn. lia.
  - rewrite total_cons in *. pose proof (total_nonneg _ Hn). rewrite wrapu_small by lia.
    destruct (Z.gtb_spec (tot + rp_length r) index); [lia|]. rewrite IH by lia. cbn. lia.
Qed.

(** ** Reading *)

Lemma rest_of_lookup R it pos r :
  R !! it = Some r → 0 <= pos < rp_length r → rest_of R it pos !! 0%nat = Some (rp_value r).
Proof.
  intros Hr Hp. unfold rest_of. rewrite Hr. unfold rep.
  destruct (Z.to_nat (rp_length r - pos)) eqn:E; [lia|]. done.
Qed.

Lemma rle_at_decode v position :
  wf v → 0 <= position →
  rle_at width v position
  = match decode (_runs v) !! Z.to_nat position with
    | Some x => inr x
    | None => inl OutOfRange
    end.
Proof.
  intros (Hn & Ht & Hw) Hp. unfold rle_at. pose proof (length_decode _ Hn) as Hl.
  destruct (Z.lt_ge_cases position (total (_runs v))) as [Hlt|Hge].
  - pose proof (scan_point (_runs v) 0 0 position Hn ltac:(lia) eq_refl ltac:(lia) ltac:(lia)) as Hs.
    rewrite drop_0 in Hs. destruct (scan width (_runs v) 0 0 position) as [[it pos] tot].
    destruct Hs as (Hpt & Hle & _). destruct (point_split _ _ _ _ Hn Hpt) as [_ Hd].
    destruct Hpt as [Hin _]. unfold in_run in Hin.
    rewrite <-(Nat.add_0_r (Z.to_nat position)), <-lookup_drop, Hd.
    destruct (_runs v !! it) as [r|] eqn:Hr.
    + by rewrite (rest_of_lookup _ _ _ r).
    + destruct Hin as [-> ->]. exfalso.
      apply (f_equal length) in Hd. rewrite length_drop in Hd. unfold rest_of in Hd.
      rewrite Hr in Hd. cbn in Hd. lia.
  - pose proof (scan_beyond (_runs v) 0 0 position Hn ltac:(lia) ltac:(lia) ltac:(lia)) as Hs.
    destruct (scan width (_runs v) 0 0 position) as [[it pos] tot]. cbn in Hs. subst it.
    rewrite !lookup_ge_None_2; [done|lia|lia].
Qed.

(** ** Writing to vectors *)

Lemma write_length_middle (L X : list run) r f :
  write_length (L ++ r :: X) (length L) f = inr (L ++ set_length (f (rp_length r)) r :: X).
Proof.
  unfold write_length, deref. rewrite list_lookup_middle by done. cbn. f_equal.
  rewrite insert_app_r_alt by lia. by rewrite Nat.sub_diag.
Qed.

Lemma write_length_at R it r f :
  R !! it = Some r →
  write_length R it f = inr (take it R ++ set_length (f (rp_length r)) r :: drop (S it) R).
Proof.
  intros Hr. pose proof (write_length_middle (take it R) (drop (S it) R) r f) as Hw.
  rewrite length_take_le in Hw by (apply lookup_lt_Some in Hr; lia).
  by rewrite take_drop_middle in Hw.
Qed.

(** Steps 4 to 6, in closed form. *)
Lemma place_runs_spec R begin end_ replacements trailer :
  (end_ <= length R)%nat → (begin <= length R)%nat →
  (match trailer with Some _ => (end_ <= begin)%nat | None => (begin <= end_)%nat end) →
  place_runs R begin end_ replacements trailer
  = inr (take begin R ++ replacements ++ option_list trailer ++ drop (Nat.max begin end_) R).
Proof.
  intros He Hb Ht. unfold place_runs. set (n := length replacements).
  destruct trailer as [t|].
  - rewrite decide_False by lia. rewrite Nat.min_0_l, take_0, drop_0. unfold vec_copy.
    cbn [length]. rewrite decide_True by lia. cbn [mbind result_bind mret result_ret].
    rewrite decide_False by (cbn; lia). unfold vec_insert. cbn [app].
    rewrite !Nat.add_0_r, take_drop, decide_True by lia. cbn [mbind result_bind mret result_ret].
    rewrite Nat.sub_0_r. change (length (option_list (Some t))) with 1%nat.
    set (m := replicate (n + 1) (mkRun (inhabitant (A:=T)) 0)).
    assert (length m = n + 1)%nat as Hm by (unfold m; by rewrite length_replicate).
    assert (length (take begin R) = begin) as Hlb by (rewrite length_take; lia).
    rewrite decide_True by (rewrite !length_app, length_drop, Hm, Hlb; fold n; lia).
    cbn [mbind result_bind mret result_ret].
    rewrite take_app_length' by lia. rewrite drop_app_ge by lia. rewrite Hlb.
    fold n. replace (begin + n - begin)%nat with n by lia.
    rewrite (drop_app_le m) by lia. unfold m. rewrite drop_replicate.
    replace (n + 1 - n)%nat with 1%nat by lia. cbn [replicate app]. set (d := mkRun inhabitant 0).
    unfold deref. rewrite app_assoc. rewrite list_lookup_middle by (rewrite length_app; fold n; lia).
    cbn [mbind result_bind mret result_ret]. f_equal. rewrite insert_app_r_alt by (rewrite length_app; fold n; lia).
    rewrite length_app, Hlb. fold n. rewrite Nat.sub_diag. cbn. rewrite <-app_assoc.
    by rewrite Nat.max_l by lia.
  - assert ((if decide (begin < end_)%nat then (end_ - begin)%nat else 0%nat) = (end_ - begin)%nat)
      as -> by (case_decide; lia).
    change (length (option_list (None (A:=run)))) with 0%nat. rewrite Nat.add_0_r.
    set (a := (end_ - begin)%nat). set (d := Nat.min a n).
    assert (a = end_ - begin ∧ d = Nat.min a n)%nat as [Ha Hda] by done.
    assert (length (take d replacements) = d) as Hd by (rewrite length_take; fold n; lia).
    assert (length (take begin R) = begin) as Hlb by (rewrite length_take; lia).
    unfold vec_copy. rewrite Hd, decide_True by lia. cbn [mbind result_bind mret result_ret].
    set (R' := take begin R ++ take d replacements ++ drop (begin + d) R).
    assert (length R' = length R) as HR'.
    { unfold R'. rewrite !length_app, Hd, Hlb, length_drop. lia. }
    assert (take (begin + d) R' = take begin R ++ take d replacements) as Htk.
    { unfold R'. rewrite app_assoc. apply take_app_length'. rewrite length_app. lia. }
    rewrite Nat.max_r by lia. change (option_list None) with (@nil run). cbn [app].
    case_decide as Hc.
    + assert (d = n) as Hdn by lia. unfold vec_erase. rewrite decide_True by lia. unfold mret, result_ret.
      f_equal. rewrite Htk, <-app_assoc. rewrite (take_ge replacements) by (fold n; lia). do 2 f_equal.
      unfold R'. rewrite app_assoc, drop_app_ge by (rewrite length_app; lia).
      rewrite drop_drop. f_equal. rewrite length_app. lia.
    + unfold vec_insert. rewrite decide_True by lia. unfold mret, result_ret. f_equal.
      rewrite Htk, <-!app_assoc. f_equal. rewrite app_assoc, take_drop. f_equal.
      unfold R'. rewrite app_assoc, drop_app_length' by (rewrite length_app; lia). f_equal. lia.
Qed.

(** ** Replacing *)

Lemma head_of_0 R it : head_of R it 0 = [].
Proof. unfold head_of. by destruct (R !! it). Qed.

Lemma rest_of_0 R it : (it <= length R)%nat → rest_of R it 0 = decode (drop it R).
Proof.
  intros Hi. unfold rest_of. destruct (R !! it) as [r|] eqn:Hr.
  - by rewrite (drop_S _ _ _ Hr), decode_cons, Z.sub_0_r.
  - apply lookup_ge_None in Hr. by rewrite drop_ge.
Qed.

Lemma in_run_le R it pos : in_run R it pos → (it <= length R)%nat ∧ 0 <= pos.
Proof.
  unfold in_run. destruct (R !! it) eqn:Hr; [apply lookup_lt_Some in Hr|]; lia.
Qed.

Lemma in_run_some R it pos : in_run R it pos → pos ≠ 0 → ∃ r, R !! it = Some r ∧ 0 <= pos < rp_length r.
Proof. unfold in_run. destruct (R !! it) as [r|]; [eauto|]. by intros [? _]. Qed.

Lemma decode_take_S R it r :
  R !! it = Some r → decode (take (S it) R) = decode (take it R) ++ rep (rp_length r) (rp_value r).
Proof. intros Hr. rewrite (take_S_r _ _ _ Hr), decode_app. cbn. by rewrite app_nil_r. Qed.

(** What the first step leaves before the replacements. *)
Definition begin_spec R (start_index : Z) (b : nat) (x : T) (b1 : nat) (bp1 badd : Z) : Prop :=
  (b1 <= b <= length R)%nat ∧ 0 <= badd ∧ (badd ≠ 0 → bp1 = 0)
  ∧ (bp1 ≠ 0 → b1 = b ∧ in_run R b1 bp1)
  ∧ take (Z.to_nat start_index) (decode R) = decode (take b1 R) ++ head_of R b1 bp1 ++ rep badd x.

Lemma join_begin_spec R start_index b bp front :
  nonneg R → point R b bp start_index →
  ∃ b1 bp1 badd, join_begin R start_index b bp front = inr (b1, bp1, badd)
    ∧ begin_spec R start_index b (rp_value front) b1 bp1 badd.
Proof.
  intros Hn Hpt. destruct (point_split _ _ _ _ Hn Hpt) as [Htake _].
  pose proof Hpt as [Hin Hidx]. pose proof (in_run_le _ _ _ Hin) as [Hb Hbp].
  assert (begin_spec R start_index b (rp_value front) b bp 0) as Hsame.
  { split; [lia|]. split; [done|]. split; [done|]. split; [done|]. by rewrite rep_0, app_nil_r. }
  unfold join_begin. destruct (Z.eqb_spec start_index 0) as [->|Hs]; [by eauto 6|].
  unfold previous_run. destruct (Z.eqb_spec bp 0) as [->|Hbp0].
  - destruct b as [|b]; [rewrite take_0 in Hidx; change (total []) with 0 in Hidx; lia|]. cbn [prev_it mbind result_bind].
    destruct (lookup_lt_is_Some_2 R b) as [p Hp]; [lia|]. unfold deref. rewrite Hp.
    cbn [mbind result_bind]. case_decide as Hv; [|by eauto 6].
    exists b, 0, (rp_length p). split; [done|]. split; [lia|].
    split; [pose proof (Forall_lookup_1 _ _ _ _ Hn Hp) as Hlp; cbn in Hlp; lia|]. split; [done|]. split; [done|].
    rewrite Htake, !head_of_0, app_nil_r, (decode_take_S _ _ _ Hp), Hv. done.
  - destruct (in_run_some _ _ _ Hin Hbp0) as (r & Hr & Hlt). unfold deref, mret, result_ret.
    cbn [mbind result_bind]. rewrite Hr. cbn [mbind result_bind]. case_decide as Hv; [|by eauto 6].
    exists b, 0, bp. split; [done|]. split; [lia|]. split; [lia|]. split; [done|]. split; [done|].
    rewrite Htake, head_of_0. unfold head_of. by rewrite Hr, Hv.
Qed.

(** ... and what it leaves after them. *)
Definition end_spec R (end_index : Z) (e : nat) (x : T) (e1 : nat) (ep1 eadd : Z) : Prop :=
  (e <= e1 <= length R)%nat ∧ 0 <= eadd ∧ (eadd ≠ 0 → e1 = S e ∧ ep1 = 0)
  ∧ (e1 = e → in_run R e1 ep1) ∧ (ep1 ≠ 0 → e1 = e)
  ∧ drop (Z.to_nat end_index) (decode R) = rep eadd x ++ rest_of R e1 ep1.

Lemma join_end_spec R end_index e ep back :
  nonneg R → total R < 2 ^ width → point R e ep end_index → end_index <= total R →
  ∃ e1 ep1 eadd, join_end width R (total R) end_index e ep back = inr (e1, ep1, eadd)
    ∧ end_spec R end_index e (rp_value back) e1 ep1 eadd.
Proof.
  intros Hn Hw Hpt Hle. destruct (point_split _ _ _ _ Hn Hpt) as [_ Hdrop].
  pose proof Hpt as [Hin Hidx]. pose proof (in_run_le _ _ _ Hin) as [He Hep].
  assert (end_spec R end_index e (rp_value back) e ep 0) as Hsame.
  { split; [lia|]. split; [done|]. split; [done|]. split; [done|]. split; [done|].
    by rewrite rep_0, Hdrop. }
  unfold join_end. destruct (Z.eqb_spec end_index (total R)) as [|Hne]; [by eauto 6|].
  unfold deref. destruct (R !! e) as [r|] eqn:Hr.
  2:{ exfalso. unfold in_run in Hin. rewrite Hr in Hin. destruct Hin as [-> ->].
      rewrite firstn_all in Hidx. lia. }
  cbn [mbind result_bind]. case_decide as Hv; [|by eauto 6].
  unfold in_run in Hin. rewrite Hr in Hin. pose proof (lookup_lt_Some _ _ _ Hr).
  assert (rp_length r <= total R) as Hrt.
  { rewrite (take_drop_middle_run _ _ _ Hr), total_app, total_cons.
    pose proof (total_nonneg _ (proj1 (nonneg_take_drop e R Hn))).
    pose proof (total_nonneg _ (proj2 (nonneg_take_drop (S e) R Hn))). lia. }
  rewrite wrapu_small by lia. exists (S e), 0, (rp_length r - ep). split; [done|].
  split; [lia|]. split; [lia|]. split; [done|]. split; [lia|]. split; [done|].
  rewrite rest_of_0 by lia. rewrite Hdrop. unfold rest_of. by rewrite Hr, Hv.
Qed.

(** Step 3 at the end of the range. *)
Lemma trim_end_spec R e ep :
  nonneg R → total R < 2 ^ width → (e <= length R)%nat → (ep ≠ 0 → in_run R e ep) →
  ∃ R', (if ep =? 0 then mret R else write_length R e (λ len, wrapu width (len - ep))) = inr R'
    ∧ take e R' = take e R ∧ length R' = length R
    ∧ decode (drop e R') = rest_of R e ep ∧ nonneg (drop e R').
Proof.
  intros Hn Hw He Hin. destruct (Z.eqb_spec ep 0) as [->|Hep].
  { exists R. split; [done|]. split; [done|]. split; [done|].
    split; [by rewrite rest_of_0|]. by apply Forall_drop. }
  destruct (in_run_some _ _ _ (Hin Hep) Hep) as (r & Hr & Hlt).
  rewrite (write_length_at _ _ _ _ Hr). eexists. split; [reflexivity|].
  assert (length (take e R) = e) as Hlt' by (rewrite length_take; lia).
  pose proof (lookup_lt_Some _ _ _ Hr) as Hlr.
  assert (rp_length r <= total R) as Hrt.
  { rewrite (take_drop_middle_run _ _ _ Hr), total_app, total_cons.
    pose proof (total_nonneg _ (proj1 (nonneg_take_drop e R Hn))).
    pose proof (total_nonneg _ (proj2 (nonneg_take_drop (S e) R Hn))). lia. }
  rewrite take_app_length', drop_app_length' by done. split; [done|].
  split; [rewrite length_app; cbn [length]; rewrite length_drop; lia|].
  rewrite wrapu_small by lia. split.
  - unfold rest_of. by rewrite Hr, decode_cons.
  - constructor; [cbn; lia|by apply Forall_drop].
Qed.

(** A run whose length is cut to [bp]: the vector before, at and after it. *)
Lemma trim_begin_spec R b bp r :
  nonneg R → R !! b = Some r → 0 < bp < rp_length r →
  ∃ R1, write_length R b (λ _, bp) = inr R1 ∧ length R1 = length R ∧ nonneg R1 ∧ total R1 <= total R
    ∧ decode (take (S b) R1) = decode (take b R) ++ head_of R b bp
    ∧ (∀ k, (b < k)%nat → drop k R1 = drop k R).
Proof.
  intros Hn Hr Hlt. rewrite (write_length_at _ _ _ _ Hr). eexists. split; [reflexivity|].
  pose proof (lookup_lt_Some _ _ _ Hr) as Hlr.
  assert (length (take b R) = b) as Hltb by (rewrite length_take; lia).
  split; [rewrite length_app; cbn [length]; rewrite length_drop; lia|].
  split; [apply Forall_app; split; [by apply Forall_take|]; constructor;
          [cbn; lia|by apply Forall_drop]|].
  split.
  { rewrite (take_drop_middle_run _ _ _ Hr) at 3. rewrite !total_app, !total_cons. cbn. lia. }
  rewrite (cons_middle _ (take b R)), app_assoc.
  assert (length (take b R ++ [set_length bp r]) = S b) as Hls by (rewrite length_app; cbn; lia).
  split.
  - rewrite take_app_length' by done. rewrite decode_app. unfold head_of. rewrite Hr. cbn.
    by rewrite app_nil_r.
  - intros k Hk. assert (k = S b + (k - S b))%nat as -> by lia.
    rewrite <-!drop_drop. f_equal. by apply drop_app_length'.
Qed.

Lemma rest_of_drop R R1 e ep :
  length R1 = length R → drop e R1 = drop e R → rest_of R1 e ep = rest_of R e ep
  ∧ (in_run R e ep → in_run R1 e ep).
Proof.
  intros Hl Hd. unfold rest_of, in_run.
  assert (R1 !! e = R !! e) as -> by (by rewrite <-(Nat.add_0_r e), <-!lookup_drop, Hd).
  assert (drop (S e) R1 = drop (S e) R) as ->.
  { by rewrite <-(Nat.add_1_r e), <-!drop_drop, Hd. }
  by rewrite Hl.
Qed.

(** Step 3, for a range that is not inside one run. *)
Lemma trim_runs_spec R b bp e ep :
  nonneg R → total R < 2 ^ width → (b <= e <= length R)%nat →
  (bp ≠ 0 → (b < e)%nat ∧ in_run R b bp) → (ep ≠ 0 → in_run R e ep) →
  ∃ R' begin, trim_runs width R b bp e ep = inr (R', begin)
    ∧ (begin <= e)%nat ∧ length R' = length R
    ∧ decode (take begin R') = decode (take b R) ++ head_of R b bp
    ∧ decode (drop e R') = rest_of R e ep
    ∧ nonneg (take begin R') ∧ nonneg (drop e R').
Proof.
  intros Hn Hw Hbe Hb He. unfold trim_runs. destruct (Z.eqb_spec bp 0) as [->|Hbp].
  - destruct (trim_end_spec R e ep Hn Hw ltac:(lia) He) as (R' & E & Htk & Hlen & Hdec & Hnn).
    assert (take b R' = take b R) as Htb.
    { rewrite <-(Nat.min_l b e) by lia. by rewrite <-!take_take, Htk. }
    exists R', b. split; [cbn [mbind result_bind mret result_ret]; by rewrite E|].
    split; [lia|]. split; [done|]. rewrite Htb, head_of_0, app_nil_r.
    split; [done|]. split; [done|]. split; [by apply Forall_take|done].
  - destruct (Hb Hbp) as [Hlt Hin]. destruct (in_run_some _ _ _ Hin Hbp) as (r & Hr & Hbr).
    destruct (trim_begin_spec R b bp r Hn Hr ltac:(lia)) as (R1 & -> & Hl1 & Hn1 & Ht1 & Hd1 & Hk1).
    destruct (rest_of_drop R R1 e ep Hl1 (Hk1 e Hlt)) as [Hre Hin1].
    destruct (trim_end_spec R1 e ep Hn1 ltac:(lia) ltac:(lia)) as (R' & E & Htk & Hlen & Hdec & Hnn).
    { intros Hep. by apply Hin1, He. }
    assert (take (S b) R' = take (S b) R1) as Htb.
    { rewrite <-(Nat.min_l (S b) e) by lia. by rewrite <-!take_take, Htk. }
    exists R', (S b). split; [cbn [mbind result_bind mret result_ret]; by rewrite E|].
    split; [lia|]. split; [congruence|]. rewrite Htb.
    split; [done|]. split; [by rewrite <-Hre|]. split; [by apply Forall_take|done].
Qed.

(** Steps 2 to 6 for a range inside one run. *)
Lemma middle_inside R b bp ep replacements r :
  nonneg R → total R < 2 ^ width → R !! b = Some r → bp ≠ 0 →
  0 <= bp < rp_length r → 0 <= ep < rp_length r →
  ∃ t R' L X,
    split_run width R b bp b ep = inr (Some t, 0)
    ∧ trim_runs width R b bp b 0 = inr (R', S b)
    ∧ place_runs R' (S b) b replacements (Some t) = inr (L ++ replacements ++ [t] ++ X)
    ∧ length L = S b
    ∧ decode L = decode (take b R) ++ head_of R b bp
    ∧ decode ([t] ++ X) = rest_of R b ep
    ∧ nonneg L ∧ nonneg ([t] ++ X).
Proof.
  intros Hn Hw Hr Hbp Hb He. unfold split_run, trim_runs, deref.
  rewrite decide_True by done. rewrite (proj2 (Z.eqb_neq _ _) Hbp), Hr.
  pose proof (lookup_lt_Some _ _ _ Hr) as Hlr.
  assert (rp_length r <= total R) as Hrt.
  { rewrite (take_drop_middle_run _ _ _ Hr), total_app, total_cons.
    pose proof (total_nonneg _ (proj1 (nonneg_take_drop b R Hn))).
    pose proof (total_nonneg _ (proj2 (nonneg_take_drop (S b) R Hn))). lia. }
  destruct (trim_begin_spec R b bp r Hn Hr ltac:(lia)) as (R1 & -> & Hl1 & Hn1 & Ht1 & Hd1 & Hk1).
  cbn [mbind result_bind mret result_ret]. rewrite wrapu_small by lia.
  exists (mkRun (rp_value r) (rp_length r - ep)), R1, (take (S b) R1), (drop (S b) R).
  split; [done|]. split; [done|].
  split; [rewrite place_runs_spec by lia; rewrite Nat.max_l by lia; by rewrite Hk1 by lia|].
  split; [rewrite length_take; lia|]. split; [done|].
  split; [unfold rest_of; by rewrite Hr|]. split; [by apply Forall_take|].
  constructor; [cbn; lia|by apply Forall_drop].
Qed.

(** Steps 2 to 6 together. *)
Lemma middle_spec R b bp e ep replacements :
  nonneg R → total R < 2 ^ width → (b <= e <= length R)%nat →
  (bp ≠ 0 → in_run R b bp) → (ep ≠ 0 → in_run R e ep) → (b = e → bp ≠ 0 → in_run R e ep) →
  ∃ tr ep' R' begin L X,
    split_run width R b bp e ep = inr (tr, ep')
    ∧ trim_runs width R b bp e ep' = inr (R', begin)
    ∧ place_runs R' begin e replacements tr = inr (L ++ replacements ++ option_list tr ++ X)
    ∧ length L = begin
    ∧ decode L = decode (take b R) ++ head_of R b bp
    ∧ decode (option_list tr ++ X) = rest_of R e ep
    ∧ nonneg L ∧ nonneg (option_list tr ++ X) ∧ ((b < e)%nat → tr = None).
Proof.
  intros Hn Hw Hbe Hb He Hbe'.
  destruct (decide (b = e ∧ bp ≠ 0)) as [[<- Hbp]|Hno].
  - destruct (in_run_some _ _ _ (Hb Hbp) Hbp) as (r & Hr & Hbr).
    pose proof (Hbe' eq_refl Hbp) as Hine. unfold in_run in Hine. rewrite Hr in Hine.
    destruct (middle_inside R b bp ep replacements r) as (t & R' & L & X & ? & ? & ? & ? & ? & ? & ? & ?);
      [done..|].
    exists (Some t), 0, R', (S b), L, X. do 8 (split; [done|]). lia.
  - destruct (trim_runs_spec R b bp e ep) as (R' & begin & E & Hle & Hl & Hd1 & Hd2 & Hn1 & Hn2);
      [done|done|done| |done|].
    { intros Hbp. split; [|by apply Hb]. destruct (decide (b = e)); [by destruct Hno|lia]. }
    exists None, ep, R', begin, (take begin R'), (drop e R').
    split. { unfold split_run. case_decide; [|done]. destruct (Z.eqb_spec bp 0); [done|by destruct Hno]. }
    split; [done|]. split; [rewrite place_runs_spec by lia; by rewrite Nat.max_r by lia|].
    split; [rewrite length_take; lia|]. by repeat (split; [done|]).
Qed.

(** Step 7: the first and the last replacement grow. *)
Lemma extend_first (L reps Y : list run) (front : run) badd :
  0 <= badd → 0 <= rp_length front → rp_length front + badd < 2 ^ width →
  (if badd =? 0 then mret (L ++ front :: reps ++ Y)
   else write_length (L ++ front :: reps ++ Y) (length L) (λ len, wrapu width (len + badd)))
  = inr (L ++ set_length (rp_length front + badd) front :: reps ++ Y).
Proof.
  intros Hb Hf Hw. destruct (Z.eqb_spec badd 0) as [->|].
  - rewrite Z.add_0_r. by destruct front.
  - rewrite write_length_middle. by rewrite wrapu_small by lia.
Qed.

Lemma extend_runs_spec (L reps X : list run) (front back : run) tr badd eadd :
  last (front :: reps) = Some back → nonneg (front :: reps) → 0 <= badd → 0 <= eadd →
  (eadd ≠ 0 → tr = None) → total (front :: reps) + badd + eadd < 2 ^ width →
  ∃ reps', extend_runs width (L ++ (front :: reps) ++ option_list tr ++ X) (length L)
      (length (front :: reps) + length (option_list tr)) badd eadd
      = inr (L ++ reps' ++ option_list tr ++ X)
    ∧ decode reps' = rep badd (rp_value front) ++ decode (front :: reps) ++ rep eadd (rp_value back)
    ∧ nonneg reps'.
Proof.
  intros Hlast Hn Hb He Htr Hw. pose proof (Forall_inv Hn) as Hf. cbn in Hf.
  pose proof (Forall_inv_tail Hn) as Hr. pose proof (total_nonneg _ Hr) as Hrt.
  rewrite total_cons in Hw. unfold extend_runs. cbn [app].
  rewrite extend_first by lia. cbn [mbind result_bind].
  set (front' := set_length (rp_length front + badd) front).
  assert (decode (front' :: reps) = rep badd (rp_value front) ++ decode (front :: reps)) as Hdec.
  { rewrite !decode_cons. cbn [front' set_length rp_length rp_value].
    rewrite (Z.add_comm (rp_length front)), rep_add by lia. by rewrite app_assoc. }
  assert (nonneg (front' :: reps)) as Hn' by (constructor; [cbn; lia|done]).
  destruct (Z.eqb_spec eadd 0) as [->|Headd].
  { exists (front' :: reps). split; [done|]. by rewrite rep_0, app_nil_r. }
  rewrite (Htr Headd). change (option_list (None (A:=run))) with (@nil run). cbn [app].
  change (length []) with 0%nat.
  assert (∃ init back', front' :: reps = init ++ [back'] ∧ rp_value back' = rp_value back
    ∧ rp_length back' <= total (front' :: reps)) as (init & back' & Hib & Hval & Hbl).
  { destruct reps as [|r reps].
    - exists [], front'. split; [done|]. split; [cbn in Hlast; by simplify_eq|].
      rewrite total_cons. change (total []) with 0. lia.
    - rewrite last_cons_cons in Hlast. destruct (last_Some (r :: reps) back) as [Hls _].
      destruct (Hls Hlast) as [init Hinit].
      exists (front' :: init), back. rewrite Hinit. split; [done|]. split; [done|].
      rewrite total_cons, total_app, total_cons. change (total []) with 0.
      rewrite Hinit in Hr. apply Forall_app in Hr as [Hi _]. pose proof (total_nonneg _ Hi).
      cbn [front' set_length rp_length]. lia. }
  assert (total (front' :: reps) = rp_length front + total reps + badd) as Htot.
  { rewrite total_cons. cbn [front' set_length rp_length]. lia. }
  pose proof Hn' as Hnib. rewrite Hib in Hnib. apply Forall_app in Hnib as [Hni Hnb].
  apply Forall_inv in Hnb. cbn in Hnb.
  assert (L ++ front' :: reps ++ X = (L ++ init) ++ back' :: X) as ->.
  { change (front' :: reps ++ X) with ((front' :: reps) ++ X). rewrite Hib, <-!app_assoc. done. }
  assert (length L + (length (front :: reps) + 0) - 1 = length (L ++ init))%nat as ->.
  { apply (f_equal length) in Hib. rewrite length_app in Hib. cbn in *. rewrite length_app. lia. }
  rewrite write_length_middle, wrapu_small by lia.
  exists (init ++ [set_length (rp_length back' + eadd) back']). split; [by rewrite <-!app_assoc|].
  split.
  - rewrite app_assoc, <-Hdec, Hib, !decode_app, !decode_cons.
    cbn [set_length rp_length rp_value]. rewrite rep_add by lia.
    rewrite Hval. cbn [decode mbind list_bind]. by rewrite !app_nil_r, app_assoc.
  - apply Forall_app. split; [done|]. constructor; [cbn; lia|done].
Qed.

Lemma fold_lengths l acc :
  nonneg l → 0 <= acc → acc + total l < 2 ^ width →
  fold_left (λ t r, wrapu width (t + rp_length r)) l acc = acc + total l.
Proof.
  intros Hn. revert acc. induction Hn as [|r l Hr Hn IH]; intros acc Ha Hw; [cbn; lia|].
  rewrite total_cons in *. pose proof (total_nonneg _ Hn). cbn [fold_left].
  rewrite wrapu_small by lia. rewrite IH by lia. lia.
Qed.

(** Both ends of a range. *)
Lemma scan_range v start_index end_index :
  wf v → 0 <= start_index <= end_index → end_index <= _total_length v →
  ∃ b bp tot e ep tot', scan width (_runs v) 0 0 start_index = (b, bp, tot)
    ∧ scan width (drop b (_runs v)) b tot end_index = (e, ep, tot')
    ∧ point (_runs v) b bp start_index ∧ point (_runs v) e ep end_index
    ∧ (b <= e <= length (_runs v))%nat.
Proof.
  intros (Hn & Ht & Hw) Hs He. rewrite Ht in *.
  pose proof (scan_point (_runs v) 0 0 start_index Hn ltac:(lia) eq_refl ltac:(lia) Hw) as H1.
  rewrite drop_0 in H1. destruct (scan width (_runs v) 0 0 start_index) as [[b bp] tot].
  destruct H1 as (Hb & Hlb & ->). destruct (in_run_le _ _ _ (proj1 Hb)) as [_ Hbp].
  pose proof (scan_point (_runs v) b _ end_index Hn ltac:(lia) eq_refl) as H2.
  pose proof (proj2 Hb) as Hbi.
  specialize (H2 ltac:(lia) Hw).
  destruct (scan width (drop b (_runs v)) b _ end_index) as [[e ep] tot'] eqn:E.
  destruct H2 as (He' & Hle & _). exists b, bp, (total (take b (_runs v))), e, ep, tot'.
  do 4 (split; [done|]). lia.
Qed.

(** The numbers of values a range leaves before and after it. *)
Lemma range_lengths v start_index end_index (x y : list T) :
  wf v → 0 <= start_index <= end_index → end_index <= _total_length v →
  take (Z.to_nat start_index) (decode (_runs v)) = x →
  drop (Z.to_nat end_index) (decode (_runs v)) = y →
  Z.of_nat (length x) = start_index ∧ Z.of_nat (length y) = _total_length v - end_index.
Proof.
  intros (Hn & Ht & Hw) Hs He <- <-. pose proof (length_decode _ Hn).
  rewrite length_take, length_drop. lia.
Qed.

Lemma replace_nonempty v start_index end_index front reps :
  wf v → 0 <= start_index <= end_index → end_index <= _total_length v →
  nonneg (front :: reps) →
  _total_length v - (end_index - start_index) + total (front :: reps) < 2 ^ width →
  ∃ v', _replace_unchecked width v start_index end_index (front :: reps) = inr v'
    ∧ wf v'
    ∧ decode (_runs v') = take (Z.to_nat start_index) (decode (_runs v)) ++ decode (front :: reps)
                          ++ drop (Z.to_nat end_index) (decode (_runs v)).
Proof.
  intros Hwf Hs He Hnr Hnew.
  destruct (scan_range v start_index end_index Hwf Hs He)
    as (b & bp & tot & e & ep & tot' & E1 & E2 & Hb & He' & Hbe).
  pose proof Hwf as (Hn & Ht & Hw). unfold _replace_unchecked. rewrite E1, E2.
  destruct (last (front :: reps)) as [back|] eqn:Hlast; [|by apply last_None in Hlast].
  destruct (join_begin_spec (_runs v) start_index b bp front Hn Hb)
    as (b1 & bp1 & badd & -> & Hb1 & Hbadd & Hbp0 & Hbin & Htake).
  destruct (join_end_spec (_runs v) end_index e ep back Hn ltac:(lia) He' ltac:(lia))
    as (e1 & ep1 & eadd & Ej & Hle1 & Headd & He1 & Hin1 & Hep1 & Hdrop).
  rewrite Ht, Ej. cbn [mbind result_bind].
  destruct (middle_spec (_runs v) b1 bp1 e1 ep1 (front :: reps))
    as (tr & ep' & R' & begin & L & X & -> & Et & Hpl & HL & HdL & HdX & HnL & HnX & Htr);
    [done|lia|lia| | | |].
  { intros Hbp1. by apply Hbin. }
  { intros Hep. apply Hin1. by apply Hep1. }
  { intros -> Hbp1. apply Hin1. lia. }
  cbn [mbind result_bind]. rewrite Et. cbn [mbind result_bind]. rewrite Hpl. cbn [mbind result_bind].
  destruct (range_lengths v start_index end_index _ _ Hwf Hs He Htake Hdrop) as [Hlen1 Hlen2].
  rewrite !length_app in Hlen1. rewrite !length_app in Hlen2. pose proof (length_rep badd (rp_value front) Hbadd).
  pose proof (length_rep eadd (rp_value back) Headd).
  destruct (extend_runs_spec L reps X front back tr badd eadd) as (reps' & Ee & Hdr & Hnr');
    [done..| |lia|].
  { intros Hea. apply Htr. destruct (He1 Hea) as [-> _]. lia. }
  rewrite HL in Ee. rewrite Ee. cbn [mbind result_bind]. eexists. split; [reflexivity|].
  assert (decode (L ++ reps' ++ option_list tr ++ X)
    = take (Z.to_nat start_index) (decode (_runs v)) ++ decode (front :: reps)
      ++ drop (Z.to_nat end_index) (decode (_runs v))) as Hdec.
  { rewrite Htake, Hdrop, !decode_app, <-decode_app, HdL, HdX, Hdr. by rewrite <-!app_assoc. }
  assert (nonneg (L ++ reps' ++ option_list tr ++ X)) as Hnn by by rewrite !Forall_app in *.
  split; [|done]. split; [done|]. cbn [_runs _total_length].
  pose proof (total_nonneg _ Hnr). rewrite (wrapu_small width (total _ - _)) by lia.
  rewrite fold_lengths by (done || lia).
  rewrite <-(length_decode _ Hnn), Hdec, !length_app, length_take, length_drop.
  pose proof (length_decode _ Hn). pose proof (length_decode _ Hnr). lia.
Qed.

(** *** Pure removals *)

Lemma run_length_total R i r : nonneg R → R !! i = Some r → rp_length r <= total R - total (take i R).
Proof.
  intros Hn Hr. rewrite (take_drop_middle_run _ _ _ Hr) at 1. rewrite total_app, total_cons.
  pose proof (total_nonneg _ (proj2 (nonneg_take_drop (S i) R Hn))). lia.
Qed.

Lemma point_before_end R e ep end_index :
  point R e ep end_index → end_index ≠ total R → ∃ r, R !! e = Some r ∧ 0 <= ep < rp_length r.
Proof.
  intros [Hin Hi] Hne. unfold in_run in Hin. destruct (R !! e) as [r|] eqn:Hr; [eauto|].
  destruct Hin as [-> ->]. rewrite firstn_all in Hi. lia.
Qed.

Lemma point_at_end R e ep : nonneg R → point R e ep (total R) → e = length R.
Proof.
  intros Hn [Hin Hi]. unfold in_run in Hin. destruct (R !! e) as [r|] eqn:Hr; [|lia].
  pose proof (run_length_total _ _ _ Hn Hr). lia.
Qed.

(** Removing between two runs that stay two runs. *)
Lemma trim_erase_spec R b bp e ep :
  nonneg R → total R < 2 ^ width → (b <= e <= length R)%nat →
  in_run R b bp → in_run R e ep → (bp ≠ 0 → (b < e)%nat) →
  ∃ R', ('(R', begin) ← trim_runs width R b bp e ep; vec_erase R' begin e) = inr R'
    ∧ nonneg R' ∧ decode R' = (decode (take b R) ++ head_of R b bp) ++ rest_of R e ep.
Proof.
  intros Hn Hw Hbe Hb He Hlt.
  destruct (trim_runs_spec R b bp e ep) as (R' & begin & -> & Hle & Hl & Hd1 & Hd2 & Hn1 & Hn2);
    [done..|intros Hbp; split; auto|done|].
  cbn [mbind result_bind]. unfold vec_erase. rewrite decide_True by lia. eexists. split; [reflexivity|].
  split; [by apply Forall_app|]. by rewrite decode_app, Hd1, Hd2.
Qed.

(** Removing between two runs of one value, which become one. *)
Lemma join_erase_spec R (p e : nat) x ep (rp re : run) :
  nonneg R → (p <= e)%nat → R !! e = Some re → 0 <= ep < rp_length re → 0 <= x →
  rp_value rp = rp_value re → x + (rp_length re - ep) < 2 ^ width →
  ∃ R', (R' ← write_length R e (λ len, wrapu width (len - (ep - x)));
         '(R', begin) ← trim_runs width R' p 0 e 0; vec_erase R' begin e) = inr R'
    ∧ nonneg R' ∧ decode R' = (decode (take p R) ++ rep x (rp_value rp)) ++ rest_of R e ep.
Proof.
  intros Hn Hpe Hr Hep Hx Hv Hw. pose proof (lookup_lt_Some _ _ _ Hr).
  rewrite (write_length_at _ _ _ _ Hr). cbn [mbind result_bind].
  replace (rp_length re - (ep - x)) with (x + (rp_length re - ep)) by lia.
  rewrite wrapu_small by lia. unfold trim_runs. cbn [Z.eqb mbind result_bind mret result_ret].
  set (r' := set_length _ re).
  assert (length (take e R) = e) as Hle by (rewrite length_take; lia).
  unfold vec_erase. rewrite decide_True.
  2:{ rewrite length_app. cbn [length]. rewrite length_drop. lia. }
  eexists. split; [reflexivity|]. rewrite take_app_le, take_take, Nat.min_l by lia.
  rewrite drop_app_length' by done. split.
  - apply Forall_app. split; [by apply Forall_take|]. constructor; [cbn; lia|by apply Forall_drop].
  - rewrite decode_app, decode_cons. cbn [r' set_length rp_length rp_value].
    rewrite rep_add by lia. unfold rest_of. rewrite Hr, Hv. by rewrite <-!app_assoc.
Qed.

(** The run that ends at, or goes over, a point that is not the beginning. *)
Lemma previous_run_spec R b bp start_index :
  nonneg R → point R b bp start_index → start_index ≠ 0 →
  ∃ p rp, previous_run b bp = inr p ∧ R !! p = Some rp ∧ (p <= b)%nat ∧ (bp ≠ 0 → p = b)
    ∧ decode (take b R) ++ head_of R b bp
      = decode (take p R) ++ rep (if bp =? 0 then rp_length rp else bp) (rp_value rp)
    ∧ 0 <= (if bp =? 0 then rp_length rp else bp) <= start_index.
Proof.
  intros Hn [Hin Hi] Hs. unfold previous_run. pose proof (in_run_le _ _ _ Hin) as [Hb _].
  destruct (Z.eqb_spec bp 0) as [->|Hbp].
  - destruct b as [|b]; [rewrite take_0 in Hi; change (total []) with 0 in Hi; lia|].
    destruct (lookup_lt_is_Some_2 R b) as [p Hp]; [lia|]. exists b, p.
    pose proof (Forall_lookup_1 _ _ _ _ Hn Hp) as Hlp. cbn in Hlp.
    pose proof (total_nonneg _ (proj1 (nonneg_take_drop b R Hn))).
    rewrite (take_S_r _ _ _ Hp), total_app, total_cons in Hi. change (total []) with 0 in Hi.
    split; [done|]. split; [done|]. split; [lia|]. split; [done|]. split; [|lia].
    by rewrite head_of_0, app_nil_r, (decode_take_S _ _ _ Hp).
  - destruct (in_run_some _ _ _ Hin Hbp) as (r & Hr & Hlt). exists b, r.
    pose proof (total_nonneg _ (proj1 (nonneg_take_drop b R Hn))).
    split; [done|]. split; [done|]. split; [done|]. split; [done|]. split; [|lia].
    unfold head_of. by rewrite Hr.
Qed.

(** The new total length is put beside the runs that are left. *)
Lemma removed_total (m : exn + list run) (n : Z) (values : list T) :
  (∃ R', m = inr R' ∧ nonneg R' ∧ decode R' = values) →
  ∃ v', (R ← m; mret (mkRle R n)) = inr v'
    ∧ nonneg (_runs v') ∧ _total_length v' = n ∧ decode (_runs v') = values.
Proof. intros (R' & -> & Hn' & Hd). by eexists. Qed.

Lemma removed_apart R b bp e ep n :
  nonneg R → total R < 2 ^ width → (b <= e <= length R)%nat →
  in_run R b bp → in_run R e ep → (bp ≠ 0 → (b < e)%nat) →
  ∃ v', ('(R', begin) ← trim_runs width R b bp e ep; R' ← vec_erase R' begin e;
         mret (mkRle R' n)) = inr v'
    ∧ nonneg (_runs v') ∧ _total_length v' = n
    ∧ decode (_runs v') = (decode (take b R) ++ head_of R b bp) ++ rest_of R e ep.
Proof.
  intros Hn Hw Hbe Hb He Hlt.
  pose proof (removed_total _ n _ (trim_erase_spec R b bp e ep Hn Hw Hbe Hb He Hlt)) as Hfin.
  by destruct (trim_runs width R b bp e ep) as [|[R1 begin]].
Qed.

Lemma removed_joined R (p e : nat) x ep (rp re : run) n :
  nonneg R → (p <= e)%nat → R !! e = Some re → 0 <= ep < rp_length re → 0 <= x →
  rp_value rp = rp_value re → x + (rp_length re - ep) < 2 ^ width →
  ∃ v', ('(R', begin, begin_pos, end_pos) ←
           (R' ← write_length R e (λ len, wrapu width (len - (ep - x))); mret (R', p, 0, 0));
         '(R', begin) ← trim_runs width R' begin begin_pos e end_pos; R' ← vec_erase R' begin e;
         mret (mkRle R' n)) = inr v'
    ∧ nonneg (_runs v') ∧ _total_length v' = n
    ∧ decode (_runs v') = (decode (take p R) ++ rep x (rp_value rp)) ++ rest_of R e ep.
Proof.
  intros Hn Hpe Hr Hep Hx Hv Hw.
  pose proof (removed_total _ n _ (join_erase_spec R p e x ep rp re Hn Hpe Hr Hep Hx Hv Hw)) as Hfin.
  destruct (write_length _ _ _) as [|R1]; [done|]. cbn [mbind result_bind mret result_ret] in *.
  by destruct (trim_runs width R1 p 0 e 0) as [|[R2 begin]].
Qed.

(** The vector that the branch for removals leaves. *)
Lemma removed_runs_spec v start_index end_index b bp e ep :
  wf v → 0 <= start_index <= end_index → end_index <= _total_length v →
  point (_runs v) b bp start_index → point (_runs v) e ep end_index →
  (b <= e <= length (_runs v))%nat →
  ∃ v', remove_runs width v b bp e ep start_index end_index = inr v'
    ∧ nonneg (_runs v') ∧ _total_length v' = _total_length v - (end_index - start_index)
    ∧ decode (_runs v') = take (Z.to_nat start_index) (decode (_runs v))
                          ++ drop (Z.to_nat end_index) (decode (_runs v)).
Proof.
  intros (Hn & Ht & Hw) Hs He Hb Hep Hbe.
  destruct (point_split _ _ _ _ Hn Hb) as [-> _]. destruct (point_split _ _ _ _ Hn Hep) as [_ ->].
  pose proof Hb as [Hbin Hbi]. pose proof Hep as [Hein Hei].
  unfold remove_runs. cbv zeta. rewrite (wrapu_small width (end_index - start_index)) by lia.
  rewrite (wrapu_small width (_total_length v - _)) by lia. rewrite Ht in *.
  destruct (Z.eqb_spec start_index 0) as [->|Hs0]; cbn [negb andb mbind result_bind mret result_ret].
  { apply removed_apart; [done..|]. intros Hbp. pose proof (in_run_le _ _ _ Hbin).
    pose proof (total_nonneg _ (proj1 (nonneg_take_drop b _ Hn))). lia. }
  destruct (Z.eqb_spec end_index (total (_runs v))) as [->|He0]; cbn [negb andb mbind result_bind mret result_ret].
  { apply removed_apart; [done..|]. intros Hbp. rewrite (point_at_end _ _ _ Hn Hep).
    destruct (in_run_some _ _ _ Hbin Hbp) as (r & Hr & _). by apply lookup_lt_Some in Hr. }
  destruct (point_before_end _ _ _ _ Hep He0) as (re & Hre & Hepr).
  destruct (previous_run_spec (_runs v) b bp start_index) as (p & rp & Epr & Hrp & Hpb & Hpb' & Hdec & Hx);
    [done..|].
  rewrite Epr. cbn [mbind result_bind]. unfold deref. rewrite Hrp, Hre. cbn [mbind result_bind].
  case_decide as Hv.
  - pose proof (run_length_total _ _ _ Hn Hre). rewrite Hdec.
    apply (removed_joined (_runs v) p e _ ep rp re); [done|lia|done|done|lia|done|lia].
  - apply removed_apart; [done..|]. intros Hbp. rewrite (Hpb' Hbp) in Hrp.
    destruct (decide (b = e)) as [->|]; [by simplify_eq|lia].
Qed.

Lemma replace_unchecked_spec v start_index end_index replacements :
  wf v → 0 <= start_index <= end_index → end_index <= _total_length v →
  nonneg replacements →
  _total_length v - (end_index - start_index) + total replacements < 2 ^ width →
  ∃ v', _replace_unchecked width v start_index end_index replacements = inr v'
    ∧ wf v'
    ∧ decode (_runs v') = take (Z.to_nat start_index) (decode (_runs v)) ++ decode replacements
                          ++ drop (Z.to_nat end_index) (decode (_runs v)).
Proof.
  intros Hwf Hs He Hnr Hnew. destruct replacements as [|front reps]; [|by apply replace_nonempty].
  destruct (scan_range v start_index end_index Hwf Hs He)
    as (b & bp & tot & e & ep & tot' & E1 & E2 & Hb & He' & Hbe).
  unfold _replace_unchecked. rewrite E1, E2.
  destruct (removed_runs_spec v start_index end_index b bp e ep) as (v' & -> & Hn' & Ht' & Hd');
    [done..|].
  exists v'. split; [done|]. split; [|done]. split; [done|]. pose proof Hwf as (Hn & Ht & Hw).
  split; [|lia]. rewrite <-(length_decode _ Hn'), Hd', length_app, length_take, length_drop, Ht'.
  pose proof (length_decode _ Hn). lia.
Qed.

(** ** Slices *)

(** The values up to and including a position of a run. *)
Lemma take_through R e ep r index :
  nonneg R → R !! e = Some r → 0 <= ep < rp_length r → total (take e R) + ep = index →
  take (Z.to_nat (index + 1)) (decode R) = decode (take e R) ++ rep (ep + 1) (rp_value r).
Proof.
  intros Hn Hr Hep Hi. pose proof (total_nonneg _ (proj1 (nonneg_take_drop e R Hn))).
  rewrite (take_drop_middle_run _ _ _ Hr) at 1. rewrite decode_app, decode_cons.
  replace (rp_length r) with ((ep + 1) + (rp_length r - ep - 1)) by lia.
  rewrite rep_add by lia. rewrite <-app_assoc, app_assoc. apply take_app_length'.
  rewrite length_app. pose proof (length_decode _ (proj1 (nonneg_take_drop e R Hn))).
  pose proof (length_rep (ep + 1) (rp_value r)). lia.
Qed.

(** The two writes of a slice: its last run ends at [ep], its first starts at
    [bp]. *)
Lemma slice_runs R b bp e ep rb re :
  nonneg R → total R < 2 ^ width → (b <= e)%nat → R !! b = Some rb → R !! e = Some re →
  0 <= bp < rp_length rb → 0 <= ep < rp_length re → (b = e → bp <= ep) →
  ∃ R', (slice ← write_length (take (e + 1 - b) (drop b R))
                   (length (take (e + 1 - b) (drop b R)) - 1) (λ _, wrapu width (ep + 1));
         write_length slice 0 (λ len, wrapu width (len - bp))) = inr R'
    ∧ nonneg R' ∧ rep bp (rp_value rb) ++ decode R'
                  = decode (take (e - b) (drop b R)) ++ rep (ep + 1) (rp_value re).
Proof.
  intros Hn Hw Hbe Hrb Hre Hbp Hep Heq.
  pose proof (lookup_lt_Some _ _ _ Hre) as Hle.
  pose proof (run_length_total _ _ _ Hn Hrb) as Htb. pose proof (run_length_total _ _ _ Hn Hre) as Hte.
  pose proof (total_nonneg _ (proj1 (nonneg_take_drop b R Hn))).
  pose proof (total_nonneg _ (proj1 (nonneg_take_drop e R Hn))).
  rewrite (wrapu_small width (ep + 1)) by lia.
  assert (drop b R !! (e - b)%nat = Some re) as Hl.
  { rewrite lookup_drop. by replace (b + (e - b))%nat with e by lia. }
  replace (e + 1 - b)%nat with (S (e - b)) by lia. rewrite (take_S_r _ _ _ Hl).
  set (M := take (e - b) (drop b R)).
  assert (length (M ++ [re]) - 1 = length M)%nat as -> by (rewrite length_app; cbn; lia).
  rewrite write_length_middle. cbn [mbind result_bind].
  assert (nonneg M) as HnM by (by apply Forall_take, Forall_drop).
  destruct (decide (b = e)) as [<-|Hne].
  - assert (M = []) as -> by (unfold M; by rewrite Nat.sub_diag).
    simplify_eq. specialize (Heq eq_refl). cbn [app].
    rewrite (write_length_middle [] [] _ _ : write_length [_] 0 _ = _). cbn [app].
    cbn [set_length rp_length rp_value]. rewrite wrapu_small by lia. eexists. split; [reflexivity|].
    split; [constructor; [cbn; lia|done]|]. rewrite decode_cons. cbn [rp_length rp_value].
    change (decode []) with (@nil T). rewrite app_nil_r. cbn [set_length rp_length rp_value]. rewrite <-rep_add by lia. cbn [app]. f_equal. lia.
  - assert (M = rb :: take (e - b - 1) (drop (S b) R)) as HM.
    { unfold M. rewrite (drop_S _ _ _ Hrb). replace (e - b)%nat with (S (e - b - 1)) by lia.
      cbn [take]. do 2 f_equal. lia. }
    rewrite HM in *. apply Forall_cons in HnM as [_ HnM]. cbn [app].
    rewrite (write_length_middle [] _ _ _ : write_length (_ :: _) 0 _ = _). cbn [app].
    rewrite wrapu_small by lia. eexists. split; [reflexivity|]. split.
    + constructor; [cbn; lia|]. apply Forall_app. split; [done|]. constructor; [cbn; lia|done].
    + rewrite !decode_cons, decode_app, decode_cons. cbn [set_length rp_length rp_value].
      change (decode []) with (@nil T). rewrite app_nil_r, !app_assoc, <-rep_add by lia.
      by replace (bp + (rp_length rb - bp)) with (rp_length rb) by lia.
Qed.

Lemma rle_slice_spec v start_index end_index :
  wf v → 0 <= start_index → 0 <= end_index → 0 < width →
  ∃ v', rle_slice width v start_index end_index = inr v' ∧ wf v'
    ∧ decode (_runs v')
      = drop (Z.to_nat start_index) (take (Z.to_nat end_index) (decode (_runs v))).
Proof.
  intros Hwf Hs He Hwd. pose proof Hwf as (Hn & Ht & Hw). unfold rle_slice.
  assert (0 < 2 ^ width) as Hpos by (apply Z.pow_pos_nonneg; lia).
  set (e' := if end_index >? _total_length v then _total_length v else end_index).
  pose proof (length_decode _ Hn) as Hld.
  assert (e' = Z.min end_index (_total_length v)) as He'.
  { unfold e'. destruct (Z.gtb_spec end_index (_total_length v)); lia. }
  assert (take (Z.to_nat end_index) (decode (_runs v)) = take (Z.to_nat e') (decode (_runs v))) as ->.
  { destruct (Z.le_gt_cases end_index (_total_length v)); [do 2 f_equal; lia|].
    rewrite !take_ge by lia. done. }
  destruct (Z.geb_spec start_index e') as [Hge|Hlt].
  { eexists. split; [reflexivity|]. split; [split; [constructor|]; split; [done|cbn; lia]|].
    rewrite drop_ge; [done|]. rewrite length_take. lia. }
  rewrite (wrapu_small width (e' - 1)) by lia.
  destruct (scan_range v start_index (e' - 1) Hwf ltac:(lia) ltac:(lia))
    as (b & bp & tot & e & ep & tot' & -> & -> & Hb & Hep & Hbe).
  destruct (point_before_end _ _ _ _ Hb ltac:(lia)) as (rb & Hrb & Hbp).
  destruct (point_before_end _ _ _ _ Hep ltac:(lia)) as (re & Hre & Hepr).
  pose proof Hb as [_ Hbi]. pose proof Hep as [_ Hei].
  destruct (slice_runs (_runs v) b bp e ep rb re) as (R' & ER & HnR & HdR);
    [done|lia|lia|done|done|done|done|intros ->; lia|].
  destruct (write_length _ _ _) as [|R1]; [done|]. cbn [mbind result_bind] in *. rewrite ER.
  cbn [mbind result_bind]. eexists. split; [reflexivity|].
  assert (decode R' = drop (Z.to_nat start_index) (take (Z.to_nat e') (decode (_runs v)))) as Hdec.
  { pose proof (take_through _ _ _ _ _ Hn Hre Hepr Hei) as Htt.
    replace (e' - 1 + 1) with e' in Htt by lia. rewrite Htt.
    replace (take e (_runs v)) with (take b (_runs v) ++ take (e - b) (drop b (_runs v))).
    2:{ rewrite take_take_drop. f_equal. lia. }
    rewrite decode_app, <-app_assoc, <-HdR, app_assoc. symmetry. apply drop_app_length'.
    rewrite length_app. pose proof (length_decode _ (proj1 (nonneg_take_drop b _ Hn))).
    pose proof (length_rep bp (rp_value rb)). lia. }
  split; [|done]. split; [done|]. cbn [_runs _total_length]. rewrite wrapu_small by lia.
  split; [|lia]. rewrite <-(length_decode _ HnR), Hdec, length_drop, length_take. lia.
Qed.

(** ** Compacting *)

(** No two neighbours have one value. *)
Fixpoint compacted R : bool :=
  match R with
  | r :: ((r' :: _) as R') => negb (bool_decide (rp_value r = rp_value r')) && compacted R'
  | _ => true
  end.

Lemma decode_join r r' R :
  0 <= rp_length r → 0 <= rp_length r' → rp_value r = rp_value r' →
  decode (set_length (rp_length r + rp_length r') r :: R) = decode (r :: r' :: R).
Proof.
  intros Hr Hr' Hv. rewrite !decode_cons. cbn [set_length rp_length rp_value].
  by rewrite rep_add, Hv, app_assoc by lia.
Qed.

Lemma compact_from_spec ref R :
  nonneg (ref :: R) → total (ref :: R) < 2 ^ width →
  decode (compact_from width ref R) = decode (ref :: R) ∧ nonneg (compact_from width ref R)
  ∧ compacted (compact_from width ref R) = true
  ∧ rp_value <$> head (compact_from width ref R) = Some (rp_value ref).
Proof.
  revert ref. induction R as [|r R IH]; intros ref Hn Hw; cbn [compact_from]; [done|].
  apply Forall_cons in Hn as [Hf Hn]. pose proof Hn as Hn2. apply Forall_cons in Hn as [Hr Hn].
  pose proof (total_nonneg _ Hn). rewrite !total_cons in Hw. case_decide as Hv.
  - rewrite wrapu_small by lia.
    destruct (IH (set_length (rp_length ref + rp_length r) ref)) as (Hd & Hn' & Hc & Hh).
    + constructor; [cbn; lia|done].
    + rewrite total_cons. cbn. lia.
    + split; [rewrite Hd; apply decode_join; [lia|lia|done]|]. done.
  - destruct (IH r) as (Hd & Hn' & Hc & Hh); [done|rewrite total_cons; lia|].
    split; [by rewrite !decode_cons, Hd, decode_cons|]. split; [by constructor|]. split; [|done].
    destruct (compact_from width r R) as [|x l]; [done|]. cbn in Hh |- *. simplify_eq.
    rewrite bool_decide_false by congruence. done.
Qed.

Lemma compact_runs_from ref R : compact_runs width ref R = compact_from width ref R.
Proof. revert ref. induction R as [|r R IH]; intros ref; cbn; [done|]. case_decide; [done|]. by rewrite IH. Qed.

Lemma compact_spec v :
  wf v →
  wf (_compact width v) ∧ decode (_runs (_compact width v)) = decode (_runs v)
  ∧ compacted (_runs (_compact width v)) = true.
Proof.
  intros (Hn & Ht & Hw). unfold _compact. destruct (_runs v) as [|r R] eqn:Er.
  - unfold wf. rewrite Er. done.
  - cbn [_runs _total_length]. rewrite compact_runs_from.
    destruct (compact_from_spec r R Hn ltac:(lia)) as (Hd & Hn' & Hc & _).
    split; [|done]. split; [done|]. split; [|done]. cbn [_runs _total_length].
    by rewrite Ht, <-(length_decode _ Hn), <-(length_decode _ Hn'), Hd.
Qed.

Lemma decode_fmap_values (f : T → T) R :
  decode ((λ r, mkRun (f (rp_value r)) (rp_length r)) <$> R) = f <$> decode R.
Proof.
  induction R as [|r R IH]; [done|]. rewrite fmap_cons, !decode_cons, IH, fmap_app.
  cbn [rp_length rp_value]. unfold rep. by rewrite fmap_replicate.
Qed.

(** ** Resizing *)

Lemma resize_shrink v new_size :
  wf v → 0 < new_size < _total_length v →
  ∃ v', resize_trailing_extent width v new_size = inr v' ∧ wf v'
    ∧ decode (_runs v') = take (Z.to_nat new_size) (decode (_runs v)).
Proof.
  intros Hwf Hs. pose proof Hwf as (Hn & Ht & Hw). unfold resize_trailing_extent.
  rewrite (proj2 (Z.eqb_neq _ _)), (proj2 (Z.ltb_lt _ _)) by lia.
  rewrite (wrapu_small width (new_size - 1)) by lia.
  destruct (scan_range v (new_size - 1) (new_size - 1) Hwf ltac:(lia) ltac:(lia))
    as (b & bp & tot & _ & _ & _ & -> & _ & Hb & _ & _).
  destruct (point_before_end _ _ _ _ Hb ltac:(lia)) as (r & Hr & Hbp).
  pose proof (lookup_lt_Some _ _ _ Hr) as Hlr. pose proof (run_length_total _ _ _ Hn Hr).
  pose proof (total_nonneg _ (proj1 (nonneg_take_drop b _ Hn))).
  rewrite (write_length_at _ _ _ _ Hr), wrapu_small by lia. cbn [mbind result_bind].
  set (r' := set_length _ _). assert (length (take b (_runs v)) = b) as Hlb by (rewrite length_take; lia).
  unfold vec_erase. rewrite decide_True.
  2:{ rewrite length_app. cbn [length]. lia. }
  cbn [mbind result_bind mret result_ret]. eexists. split; [reflexivity|].
  rewrite drop_all, app_nil_r, (cons_middle _ (take b _)), app_assoc.
  rewrite take_app_length' by (rewrite length_app; cbn; lia).
  assert (decode (take b (_runs v) ++ [r']) = take (Z.to_nat new_size) (decode (_runs v))) as Hd.
  { pose proof (take_through _ _ _ _ _ Hn Hr Hbp (proj2 Hb)) as Htt.
    replace (new_size - 1 + 1) with new_size in Htt by lia. rewrite Htt, decode_app, decode_cons.
    change (decode []) with (@nil T). by rewrite app_nil_r. }
  assert (nonneg (take b (_runs v) ++ [r'])) as Hn'.
  { apply Forall_app. split; [by apply Forall_take|]. constructor; [cbn; lia|done]. }
  split; [|done]. split; [done|]. cbn [_runs _total_length]. split; [|lia].
  rewrite <-(length_decode _ Hn'), Hd, length_take. pose proof (length_decode _ Hn). lia.
Qed.

Lemma resize_grow v new_size r :
  wf v → _total_length v < new_size < 2 ^ width → last (_runs v) = Some r →
  ∃ v', resize_trailing_extent width v new_size = inr v' ∧ wf v'
    ∧ decode (_runs v') = decode (_runs v) ++ rep (new_size - _total_length v) (rp_value r).
Proof.
  intros (Hn & Ht & Hw) Hs Hl. unfold resize_trailing_extent.
  pose proof (total_nonneg _ Hn).
  rewrite (proj2 (Z.eqb_neq _ _)), (proj2 (Z.ltb_ge _ _)) by lia.
  destruct (Z.gtb_spec new_size (_total_length v)); [|lia].
  apply last_Some in Hl as [L HL]. rewrite decide_False by (rewrite HL; by destruct L).
  rewrite HL in *. apply Forall_app in Hn as [HnL Hnr]. apply Forall_inv in Hnr. cbn in Hnr.
  rewrite total_app, total_cons in *. change (total []) with 0 in *. pose proof (total_nonneg _ HnL).
  assert (length (L ++ [r]) - 1 = length L)%nat as -> by (rewrite length_app; cbn; lia).
  rewrite write_length_middle, wrapu_small by lia. cbn [mbind result_bind]. eexists.
  split; [reflexivity|]. split.
  - split; [apply Forall_app; split; [done|]; constructor; [cbn; lia|done]|].
    cbn [_runs _total_length]. rewrite total_app, total_cons. change (total []) with 0. cbn. lia.
  - cbn [_runs]. rewrite !decode_app, !decode_cons. change (decode []) with (@nil T).
    cbn [set_length rp_length rp_value]. rewrite !app_nil_r, <-app_assoc, rep_add by lia. done.
Qed.

(** ** Replacing and resizing *)

Lemma replace_runs_spec v (start_index end_index : Z) (replacements : list run) :
  wf v → 0 <= start_index → 0 <= end_index → nonneg replacements →
  _total_length v + total replacements < 2 ^ width →
  let end_index' := Z.min end_index (_total_length v) in
  if start_index >? end_index' then
    rle_replace_runs width v start_index end_index replacements = inl OutOfRange
  else
    ∃ v', rle_replace_runs width v start_index end_index replacements = inr v'
      ∧ wf v'
      ∧ decode (_runs v') = take (Z.to_nat start_index) (decode (_runs v)) ++ decode replacements
                            ++ drop (Z.to_nat end_index') (decode (_runs v)).
Proof.
  intros Hwf Hs He Hnr Hnew. cbv zeta. unfold rle_replace_runs, _check_indices.
  assert ((if end_index >? _total_length v then _total_length v else end_index)
    = Z.min end_index (_total_length v)) as ->.
  { destruct (Z.gtb_spec end_index (_total_length v)); lia. }
  destruct (Z.gtb_spec start_index (Z.min end_index (_total_length v))); [done|].
  apply replace_unchecked_spec; [done|lia|lia|done|lia].
Qed.

(** Replacing a range by one value. *)
Lemma rle_replace_spec v (start_index end_index : Z) (value : T) :
  wf v → 0 <= start_index → start_index + lo <= end_index <= _total_length v →
  _total_length v + (end_index - start_index) < 2 ^ width →
  ∃ v', rle_replace width v start_index end_index value = inr v' ∧ wf v'
    ∧ decode (_runs v') = take (Z.to_nat start_index) (decode (_runs v))
                          ++ rep (end_index - start_index) value
                          ++ drop (Z.to_nat end_index) (decode (_runs v)).
Proof.
  intros Hwf Hs He Hw. unfold rle_replace, _check_indices.
  destruct (Z.gtb_spec end_index (_total_length v)); [lia|].
  destruct (Z.gtb_spec start_index end_index); [lia|]. cbn [mbind result_bind mret result_ret].
  rewrite wrapu_small by lia.
  destruct (replace_unchecked_spec v start_index end_index [mkRun value (end_index - start_index)])
    as (v' & E & Hwf' & Hd); [done|lia|lia|repeat constructor; cbn; lia|cbn; lia|].
  exists v'. split; [done|]. split; [done|]. rewrite Hd, decode_cons. cbn [rp_length rp_value].
  by rewrite app_nil_r.
Qed.

Lemma replace_values_spec v (old_value new_value : T) :
  wf v →
  wf (replace_values width v old_value new_value)
  ∧ decode (_runs (replace_values width v old_value new_value))
    = (λ x, if decide (x = old_value) then new_value else x) <$> decode (_runs v)
  ∧ compacted (_runs (replace_values width v old_value new_value)) = true.
Proof.
  intros (Hn & Ht & Hw). unfold replace_values.
  set (f := λ x, if decide (x = old_value) then new_value else x).
  assert ((λ r, if decide (rp_value r = old_value) then mkRun new_value (rp_length r) else r)
    <$> _runs v = (λ r, mkRun (f (rp_value r)) (rp_length r)) <$> _runs v) as ->.
  { apply list_fmap_ext. intros _ [x l] _. unfold f. cbn. by case_decide. }
  set (R := _ <$> _). assert (nonneg R ∧ total R = total (_runs v)) as [HnR HtR].
  { unfold R. clear -Hn. induction Hn as [|r l Hr _ [IH1 IH2]]; [done|].
    rewrite fmap_cons, !total_cons. split; [by constructor|]. cbn [rp_length]. lia. }
  destruct (compact_spec (mkRle R (_total_length v))) as (Hwf & Hd & Hc).
  { split; [done|]. cbn [_runs _total_length]. split; [by rewrite HtR|done]. }
  split; [done|]. split; [|done]. rewrite Hd. cbn [_runs]. unfold R. apply decode_fmap_values.
Qed.

Lemma resize_spec v (new_size : Z) :
  wf v → 0 <= new_size < 2 ^ width →
  match last (_runs v) with
  | None => if new_size =? 0 then True else resize_trailing_extent width v new_size = inl FailFast
  | Some r =>
      ∃ v', resize_trailing_extent width v new_size = inr v' ∧ wf v'
        ∧ decode (_runs v') = take (Z.to_nat new_size) (decode (_runs v))
                              ++ rep (new_size - _total_length v) (rp_value r)
  end.
Proof.
  intros Hwf Hs. pose proof Hwf as (Hn & Ht & Hw). pose proof (length_decode _ Hn) as Hld.
  destruct (last (_runs v)) as [r|] eqn:Hl.
  - assert (∀ n, n <= 0 → rep n (rp_value r) = []) as Hrep.
    { intros n Hle. unfold rep. by rewrite (Z2Nat.nonpos n Hle). }
    destruct (Z.lt_trichotomy new_size (_total_length v)) as [Hlt|[->|Hgt]].
    + rewrite Hrep, app_nil_r by lia. destruct (Z.eq_dec new_size 0) as [->|];
        [|by apply resize_shrink; [|lia]].
      eexists. split; [reflexivity|]. split; [|done]. split; [constructor|]. split; [done|cbn; lia].
    + rewrite Hrep, app_nil_r by lia. rewrite take_ge by lia.
      unfold resize_trailing_extent. rewrite Z.ltb_irrefl, Z.gtb_ltb, Z.ltb_irrefl.
      destruct (Z.eqb_spec (_total_length v) 0) as [E|].
      * eexists. split; [reflexivity|]. rewrite E. split; [split; [constructor|]; split; [done|cbn; lia]|].
        cbn [_runs]. symmetry. apply nil_length_inv. lia.
      * exists v. by destruct v.
    + destruct (resize_grow v new_size r Hwf ltac:(lia) Hl) as (v' & -> & Hwf' & Hd').
      exists v'. split; [done|]. split; [done|]. by rewrite take_ge by lia.
  - apply last_None in Hl. rewrite Hl in *. change (total []) with 0 in Ht.
    unfold resize_trailing_extent. destruct (Z.eqb_spec new_size 0); [done|].
    rewrite (proj2 (Z.ltb_ge _ _)) by lia. destruct (Z.gtb_spec new_size (_total_length v)); [|lia].
    by rewrite Hl.
Qed.
End facts.

(** ** The contract of the class *)

Section contract.
Context {T : Type} `{EqDecision T} `{Inhabited T} (width : Z).

Abbreviation run := (rle_pair T).
Implicit Types (v : basic_rle T).

Abbreviation nonneg := (Forall (λ r : run, 0 <= rp_length r)).

(** Reading position [i] of a run-length encoded vector gives the [i]-th of
    its values, and throws [out_of_range] exactly for the positions past its
    end. *)
Theorem rle_at_correct v (position : Z) :
  rle_wf width v → 0 <= position →
  rle_at width v position
  = match decode (_runs v) !! Z.to_nat position with
    | Some x => inr x
    | None => inl OutOfRange
    end.
Proof. apply (rle_at_decode width 0). lia. Qed.

(** A slice has the values of the range, cut to the size of the vector, and
    is well formed; taking it never fails. *)
Theorem rle_slice_correct v (start_index end_index : Z) :
  rle_wf width v → 0 <= start_index → 0 <= end_index → 0 < width →
  ∃ v', rle_slice width v start_index end_index = inr v' ∧ rle_wf width v'
    ∧ decode (_runs v')
      = drop (Z.to_nat start_index) (take (Z.to_nat end_index) (decode (_runs v))).
Proof. apply (rle_slice_spec width 0). lia. Qed.

(** C31: replacing a range by any runs, which may be none, is replacing the
    values of the range in the plain vector: the optimised algorithm, which
    joins the neighbours, splits runs and moves the vector at most once, never
    dereferences an iterator outside the vector and keeps the vector well
    formed.  A range that starts after its (cut) end throws [out_of_range]. *)
Theorem rle_replace_correct v (start_index end_index : Z) (replacements : list run) :
  rle_wf width v → 0 <= start_index → 0 <= end_index → nonneg replacements →
  _total_length v + total replacements < 2 ^ width →
  let end_index' := Z.min end_index (_total_length v) in
  if start_index >? end_index' then
    rle_replace_runs width v start_index end_index replacements = inl OutOfRange
  else
    ∃ v', rle_replace_runs width v start_index end_index replacements = inr v'
      ∧ rle_wf width v'
      ∧ decode (_runs v') = take (Z.to_nat start_index) (decode (_runs v)) ++ decode replacements
                            ++ drop (Z.to_nat end_index') (decode (_runs v)).
Proof. apply (replace_runs_spec width 0). lia. Qed.

(** Replacing a value by another one does so at every position, and leaves
    no two neighbouring runs of one value. *)
Theorem replace_values_correct v (old_value new_value : T) :
  rle_wf width v →
  rle_wf width (replace_values width v old_value new_value)
  ∧ decode (_runs (replace_values width v old_value new_value))
    = (λ x, if decide (x = old_value) then new_value else x) <$> decode (_runs v)
  ∧ compacted (_runs (replace_values width v old_value new_value)) = true.
Proof. apply (replace_values_spec width 0). lia. Qed.

(** Resizing cuts the values or repeats the last one, so that the vector has
    the new size; only an empty vector cannot grow, which terminates the
    process. *)
Theorem resize_correct v (new_size : Z) :
  rle_wf width v → 0 <= new_size < 2 ^ width →
  match last (_runs v) with
  | None => if new_size =? 0 then True else resize_trailing_extent width v new_size = inl FailFast
  | Some r =>
      ∃ v', resize_trailing_extent width v new_size = inr v' ∧ rle_wf width v'
        ∧ decode (_runs v') = take (Z.to_nat new_size) (decode (_runs v))
                              ++ rep (new_size - _total_length v) (rp_value r)
  end.
Proof. apply (resize_spec width 0). lia. Qed.
End contract.

(** ** Witnesses *)

#[local] Instance Z_inhabited : Inhabited Z := populate 0.

Definition sample_rle : basic_rle Z := mkRle [mkRun 1 3; mkRun 2 3; mkRun 3 3] 9.

Lemma sample_rle_wf : rle_wf 16 sample_rle.
Proof. split; [repeat constructor; cbn; lia|]. split; [reflexivity|cbn; lia]. Qed.

Lemma rle_at_correct_witness : rle_at 16 sample_rle 5 = inr 2.
Proof. apply (rle_at_correct 16 sample_rle 5); [apply sample_rle_wf|lia]. Defined.

Lemma rle_slice_correct_witness :
  ∃ v', rle_slice 16 sample_rle 2 4 = inr v' ∧ rle_wf 16 v' ∧ decode (_runs v') = [1; 2].
Proof. apply (rle_slice_correct 16 sample_rle 2 4); [apply sample_rle_wf|lia|lia|lia]. Defined.

Lemma rle_replace_correct_witness :
  ∃ v', rle_replace_runs 16 sample_rle 2 5 [mkRun 1 2; mkRun 4 1; mkRun 2 1] = inr v'
    ∧ rle_wf 16 v' ∧ decode (_runs v') = [1; 1; 1; 1; 4; 2; 2; 3; 3; 3].
Proof.
  apply (rle_replace_correct 16 sample_rle 2 5 [mkRun 1 2; mkRun 4 1; mkRun 2 1]);
    [apply sample_rle_wf|lia|lia|repeat constructor; cbn; lia|reflexivity].
Defined.

Lemma replace_values_correct_witness :
  rle_wf 16 (replace_values 16 sample_rle 2 1)
  ∧ decode (_runs (replace_values 16 sample_rle 2 1))
    = (λ x, if decide (x = 2) then 1 else x) <$> [1; 1; 1; 2; 2; 2; 3; 3; 3]
  ∧ compacted (_runs (replace_values 16 sample_rle 2 1)) = true.
Proof. apply (replace_values_correct 16 sample_rle 2 1), sample_rle_wf. Defined.

Lemma resize_correct_witness :
  ∃ v', resize_trailing_extent 16 sample_rle 11 = inr v' ∧ rle_wf 16 v'
    ∧ decode (_runs v') = [1; 1; 1; 2; 2; 2; 3; 3; 3; 3; 3].
Proof. apply (resize_correct 16 sample_rle 11); [apply sample_rle_wf|lia]. Defined.

(** Replacing an empty range by a value leaves an empty run in the vector;
    the values are unchanged. *)
Theorem replace_empty_range_leaves_run :
  rle_replace 16 sample_rle 1 1 7
  = inr (mkRle [mkRun 1 1; mkRun 7 0; mkRun 1 2; mkRun 2 3; mkRun 3 3] 9)
  ∧ decode [mkRun 1 1; mkRun 7 0; mkRun 1 2; mkRun 2 3; mkRun 3 3] = decode (_runs sample_rle).
Proof. split; vm_compute; reflexivity. Qed.
