(* ===== verification/RleIter.v ===== *)
(** Iterators of run-length encoded vectors: the class [rle_iterator] of
    [src/src/inc/til/rle.h], and its arithmetic against positions in the list of
    all values. *)

From S2P Require Import Prelude Rle RleFacts.

(** An iterator into the vector of runs and a position in the run. *)
Record rle_iterator := mkIt { _it : nat; _pos : Z }.

#[global] Instance rle_iterator_eq_dec : EqDecision rle_iterator.
Proof. solve_decision. Defined.

Section iterator.
Context {T : Type} (width : Z).

Abbreviation run := (rle_pair T).
Abbreviation size_ := (wrapu width).
Implicit Types (R : list run) (i j : rle_iterator).

Definition rle_begin : rle_iterator := mkIt 0 0.

Definition rle_end R : rle_iterator := mkIt (length R) 0.

Definition iter_deref R i : exn + T := r ← deref R (_it i); mret (rp_value r).

Definition iter_incr R i : exn + rle_iterator :=
  let pos := size_ (_pos i + 1) in
  r ← deref R (_it i);
  mret (if pos =? rp_length r then mkIt (S (_it i)) 0 else mkIt (_it i) pos).

(** The postfix operators: the returned iterator and the object afterwards. *)
Definition iter_postincr R i : exn + rle_iterator * rle_iterator :=
  tmp ← iter_incr R i; mret (tmp, i).

Definition iter_decr R i : exn + rle_iterator :=
  if _pos i =? 0 then
    it ← prev_it (_it i);
    r ← deref R it;
    mret (mkIt it (size_ (rp_length r - 1)))
  else mret (mkIt (_it i) (size_ (_pos i - 1))).

Definition iter_postdecr R i : exn + rle_iterator * rle_iterator :=
  tmp ← iter_decr R i; mret (tmp, i).

(** The forward loop of [operator+=], on the runs from the iterator on. *)
Fixpoint move_forward (runs : list run) (it : nat) (pos move : Z) : exn + rle_iterator :=
  if move >? 0 then
    match runs with
    | [] => inl UndefinedBehavior
    | r :: runs' =>
        let space := rp_length r - pos in
        if move <? space then mret (mkIt it (size_ (pos + size_ move)))
        else move_forward runs' (S it) 0 (move - space)
    end
  else mret (mkIt it pos).

(** The backward loop. *)
Fixpoint move_backward R (it : nat) (pos move : Z) : exn + rle_iterator :=
  if move >? 0 then
    if move <=? pos then mret (mkIt it (size_ (pos - size_ move)))
    else
      match it with
      | O => inl UndefinedBehavior
      | S it' =>
          r ← deref R it';
          move_backward R it' (size_ (rp_length r - 1)) (move - (pos + 1))
      end
  else mret (mkIt it pos).

Definition iter_add R (move : Z) i : exn + rle_iterator :=
  if move >=? 0 then move_forward (drop (_it i) R) (_it i) (_pos i) move
  else move_backward R (_it i) (_pos i) (- move).

Definition iter_sub R (offset : Z) i : exn + rle_iterator := iter_add R (- offset) i.

Definition iter_at R i (offset : Z) : exn + T := j ← iter_add R offset i; iter_deref R j.

Definition iter_lt i j : bool :=
  bool_decide (_it i < _it j)%nat || bool_decide (_it i = _it j) && (_pos i <? _pos j).

(** The lengths of [n] runs from an iterator on. *)
Fixpoint run_lengths (runs : list run) (n : nat) : exn + Z :=
  match n, runs with
  | O, _ => mret 0
  | S n, r :: runs => rest ← run_lengths runs n; mret (rp_length r + rest)
  | S _, [] => inl UndefinedBehavior
  end.

Definition iter_distance R i j : exn + Z :=
  let negative := iter_lt i j in
  let lower := if negative then i else j in
  let upper := if negative then j else i in
  lengths ← run_lengths (drop (_it lower) R) (_it upper - _it lower);
  let distance := lengths - _pos lower + _pos upper in
  mret (if negative then - distance else distance).

(** ** The position of an iterator *)

Definition index R i : Z := total (take (_it i) R) + _pos i.

(** An iterator into a run, or the one past the end. *)
Definition iter_ok R i : Prop :=
  match R !! _it i with
  | Some r => 0 <= _pos i < rp_length r
  | None => i = rle_end R
  end.
End iterator.

Section facts.
Context {T : Type} `{Inhabited T} (width : Z).

Abbreviation run := (rle_pair T).
Abbreviation positive := (Forall (λ r : run, 1 <= rp_length r)).
Implicit Types (R : list run) (i j : rle_iterator).

(** Sums of positive lengths. *)
Lemma total_take_le R k : positive R → 0 <= total (take k R) <= total R.
Proof.
  intros Hp. rewrite <-(take_drop k R) at 3. rewrite total_app.
  pose proof (total_nonneg 1 ltac:(lia) _ (proj1 (nonneg_take_drop 1 k R Hp))).
  pose proof (total_nonneg 1 ltac:(lia) _ (proj2 (nonneg_take_drop 1 k R Hp))). lia.
Qed.

Lemma total_take_S R k r : R !! k = Some r → total (take (S k) R) = total (take k R) + rp_length r.
Proof.
  intros Hr. rewrite (take_S_r _ _ _ Hr), total_app, total_cons. change (total []) with 0. lia.
Qed.

Lemma total_take_mono R k l : positive R → (k <= l)%nat → total (take k R) <= total (take l R).
Proof.
  intros Hp Hkl. replace (take k R) with (take k (take l R)) by (rewrite take_take; f_equal; lia).
  apply total_take_le. by apply Forall_take.
Qed.

Lemma iter_ok_end R : iter_ok R (rle_end R).
Proof. unfold iter_ok, rle_end. cbn. by rewrite lookup_ge_None_2. Qed.

Lemma iter_ok_inv R i :
  iter_ok R i →
  (∃ r, R !! _it i = Some r ∧ 0 <= _pos i < rp_length r) ∨ i = rle_end R.
Proof. unfold iter_ok. destruct (R !! _it i) eqn:E; eauto. Qed.

Lemma iter_ok_begin R : positive R → iter_ok R rle_begin.
Proof.
  unfold iter_ok. destruct R as [|r R]; cbn; [done|]. intros [Hr _]%Forall_cons. lia.
Qed.

Lemma iter_ok_le R i : iter_ok R i → (_it i <= length R)%nat ∧ 0 <= _pos i.
Proof.
  intros [(r & Hr & Hp)| ->]%iter_ok_inv; [apply lookup_lt_Some in Hr; lia|cbn; lia].
Qed.

Lemma index_end R : index R (rle_end R) = total R.
Proof. unfold index, rle_end. cbn [_it _pos]. rewrite firstn_all. lia. Qed.

(** The position is in the vector, and before its end exactly in a run. *)
Lemma index_range R i : positive R → iter_ok R i → 0 <= index R i <= total R.
Proof.
  intros Hp [(r & Hr & Hi)| ->]%iter_ok_inv; [|rewrite index_end; pose proof (total_take_le R (length R) Hp); lia].
  pose proof (total_take_le R (_it i) Hp). pose proof (total_take_le R (S (_it i)) Hp).
  rewrite (total_take_S _ _ _ Hr) in *. unfold index. lia.
Qed.

(** Iterators are ordered like their positions. *)
Lemma iter_lt_index R i j :
  positive R → iter_ok R i → iter_ok R j → iter_lt i j = bool_decide (index R i < index R j).
Proof.
  intros Hp Hi Hj. pose proof (iter_ok_le _ _ Hi). pose proof (iter_ok_le _ _ Hj).
  assert (∀ a b, iter_ok R a → iter_ok R b → (_it a < _it b)%nat → index R a < index R b) as Hlt.
  { intros a b Ha Hb Hab. pose proof (iter_ok_le _ _ Hb).
    destruct (iter_ok_inv _ _ Ha) as [(r & Hr & Hpos)| ->]; [|cbn in Hab; lia].
    pose proof (total_take_mono R (S (_it a)) (_it b) Hp Hab) as Hm.
    rewrite (total_take_S _ _ _ Hr) in Hm. unfold index. lia. }
  unfold iter_lt. destruct (Nat.lt_trichotomy (_it i) (_it j)) as [Hc|[Hc|Hc]].
  - rewrite (bool_decide_true (_ < _)%nat) by done. symmetry. by apply bool_decide_eq_true, Hlt.
  - rewrite (bool_decide_false (_ < _)%nat), (bool_decide_true (_ = _)) by lia. cbn.
    unfold index. rewrite Hc. case_bool_decide; lia.
  - rewrite (bool_decide_false (_ < _)%nat), (bool_decide_false (_ = _)) by lia. cbn.
    rewrite bool_decide_false; [done|]. specialize (Hlt j i Hj Hi Hc). lia.
Qed.

(** An iterator is its position. *)
Lemma index_inj R i j : positive R → iter_ok R i → iter_ok R j → index R i = index R j → i = j.
Proof.
  intros Hp Hi Hj E. pose proof (iter_lt_index R i j Hp Hi Hj) as H1.
  pose proof (iter_lt_index R j i Hp Hj Hi) as H2. rewrite bool_decide_false in H1, H2 by lia.
  unfold iter_lt in *. apply orb_false_iff in H1 as [H1 H1'], H2 as [H2 H2'].
  apply bool_decide_eq_false in H1, H2. assert (_it i = _it j) as Eit by lia.
  destruct i as [a p], j as [b q]. cbn in *. subst. rewrite bool_decide_true in H1' by done.
  rewrite bool_decide_true in H2' by done. cbn in *. f_equal. lia.
Qed.

Lemma iter_deref_index R i :
  positive R → iter_ok R i → i ≠ rle_end R →
  ∃ x, iter_deref R i = inr x ∧ decode R !! Z.to_nat (index R i) = Some x.
Proof.
  intros Hp Hi Hne. destruct (iter_ok_inv _ _ Hi) as [(r & Hr & Hpos)|]; [|done].
  unfold iter_deref, deref. rewrite Hr. exists (rp_value r). split; [done|].
  unfold index. rewrite (take_drop_middle_run _ _ _ Hr) at 2. rewrite decode_app, decode_cons.
  pose proof (length_decode 1 ltac:(lia) _ (proj1 (nonneg_take_drop 1 (_it i) R Hp))) as Hl.
  pose proof (total_take_le R (_it i) Hp).
  rewrite lookup_app_r by lia. rewrite lookup_app_l by (unfold rep; rewrite length_replicate; lia).
  unfold rep. apply lookup_replicate. split; [done|]. lia.
Qed.

(** *** Moving *)

Section moves.
Context (R : list run) (Hp : positive R) (Hw : total R < 2 ^ width).

Lemma run_length_fits k r : R !! k = Some r → 1 <= rp_length r < 2 ^ width.
Proof using Hp Hw.
  intros Hr. pose proof (Forall_lookup_1 _ _ _ _ Hp Hr) as H1. cbn in H1.
  pose proof (total_take_le R k Hp). pose proof (total_take_le R (S k) Hp).
  rewrite (total_take_S _ _ _ Hr) in *. lia.
Qed.

Lemma move_forward_index it pos move :
  iter_ok R (mkIt it pos) → 0 <= move → index R (mkIt it pos) + move <= total R →
  ∃ j, move_forward width (drop it R) it pos move = inr j ∧ iter_ok R j
    ∧ index R j = index R (mkIt it pos) + move.
Proof using Hp Hw.
  intros Hi. remember (drop it R) as runs eqn:Er. revert it pos move Hi Er.
  induction runs as [|r runs IH]; intros it pos move Hi Er Hm Hle; cbn [move_forward].
  - destruct (Z.gtb_spec move 0) as [Hpos|]; [|exists (mkIt it pos); split; [done|split; [done|lia]]].
    destruct (iter_ok_inv _ _ Hi) as [(r & Hr & _)|E].
    + cbn in Hr. apply lookup_lt_Some in Hr. apply (f_equal length) in Er.
      rewrite length_drop in Er. cbn in Er. lia.
    + rewrite E, index_end in Hle. lia.
  - destruct (Z.gtb_spec move 0) as [Hpos|]; [|exists (mkIt it pos); split; [done|split; [done|lia]]].
    assert (R !! it = Some r) as Hr.
    { rewrite <-(Nat.add_0_r it), <-lookup_drop, <-Er. done. }
    unfold iter_ok in Hi. cbn in Hi. rewrite Hr in Hi. pose proof (run_length_fits it r Hr) as Hf.
    destruct (Z.ltb_spec move (rp_length r - pos)).
    + rewrite (wrapu_small width move), wrapu_small by lia. eexists; split; [done|].
      split; [unfold iter_ok; cbn; rewrite Hr; lia|unfold index; cbn [_it _pos]; lia].
    + assert (index R (mkIt (S it) 0) = index R (mkIt it pos) + (rp_length r - pos)) as Ei.
      { unfold index. cbn [_it _pos]. rewrite (total_take_S _ _ _ Hr). lia. }
      destruct (IH (S it) 0 (move - (rp_length r - pos))) as (j & -> & Hj & Ej).
      * unfold iter_ok. cbn. destruct (R !! S it) as [r'|] eqn:Hr'.
        { pose proof (run_length_fits _ _ Hr'). lia. }
        unfold rle_end. f_equal. apply lookup_ge_None in Hr'. apply lookup_lt_Some in Hr. lia.
      * rewrite (drop_S _ r) in Er by done. congruence.
      * lia.
      * lia.
      * exists j. split; [done|]. split; [done|]. lia.
Qed.

Lemma move_backward_index it pos move :
  iter_ok R (mkIt it pos) → 0 <= move → 0 <= index R (mkIt it pos) - move →
  ∃ j, move_backward width R it pos move = inr j ∧ iter_ok R j
    ∧ index R j = index R (mkIt it pos) - move.
Proof using Hp Hw.
  revert pos move. induction it as [|it IH]; intros pos move Hi Hm Hle; cbn [move_backward];
    (destruct (Z.gtb_spec move 0) as [Hpos|];
      [|eexists; split; [done|split; [done|lia]]]);
    pose proof (iter_ok_le _ _ Hi) as [Hlen Hnn]; cbn in Hlen, Hnn.
  - change (index R (mkIt 0 pos)) with pos in *. rewrite (proj2 (Z.leb_le _ _)) by lia.
    destruct (iter_ok_inv _ _ Hi) as [(r & Hr & Hr')|E]; [|injection E as _ ->; lia]. cbn in Hr, Hr'.
    pose proof (run_length_fits _ _ Hr). rewrite (wrapu_small width move), wrapu_small by lia.
    eexists. split; [done|]. split; [unfold iter_ok; cbn; rewrite Hr; lia|done].
  - destruct (Z.leb_spec move pos).
    + destruct (iter_ok_inv _ _ Hi) as [(r & Hr & Hr')|E]; [|injection E as _ ->; lia]. cbn in Hr, Hr'.
      pose proof (run_length_fits _ _ Hr). rewrite (wrapu_small width move), wrapu_small by lia.
      eexists. split; [done|]. unfold iter_ok, index. cbn [_it _pos]. rewrite Hr. lia.
    + destruct (lookup_lt_is_Some_2 R it) as [r Hr]; [lia|]. pose proof (run_length_fits _ _ Hr).
      unfold deref. rewrite Hr. cbn [mbind result_bind]. rewrite wrapu_small by lia.
      assert (index R (mkIt it (rp_length r - 1)) = index R (mkIt (S it) pos) - (pos + 1)) as Ei.
      { unfold index. cbn [_it _pos]. rewrite (total_take_S _ _ _ Hr). lia. }
      destruct (IH (rp_length r - 1) (move - (pos + 1))) as (j & -> & Hj & Ej); [|lia|lia|].
      { unfold iter_ok. cbn. rewrite Hr. lia. }
      exists j. split; [done|]. split; [done|]. lia.
Qed.

Lemma iter_add_index i move :
  iter_ok R i → 0 <= index R i + move <= total R →
  ∃ j, iter_add width R move i = inr j ∧ iter_ok R j ∧ index R j = index R i + move.
Proof using Hp Hw.
  destruct i as [it pos]. intros Hi Hr. unfold iter_add. cbn [_it _pos].
  destruct (Z.geb_spec move 0).
  - apply move_forward_index; [done|lia|lia].
  - destruct (move_backward_index it pos (- move) Hi) as (j & -> & ? & ?); [lia|lia|].
    exists j. split; [done|]. split; [done|]. lia.
Qed.

Lemma run_lengths_total (runs : list run) n :
  (n <= length runs)%nat → run_lengths runs n = inr (total (take n runs)).
Proof.
  revert n. induction runs as [|r runs IH]; intros [|n] Hn; try done; [cbn in Hn; lia|].
  cbn [run_lengths]. rewrite IH by (cbn in Hn; lia). done.
Qed.

Lemma iter_distance_index i j :
  iter_ok R i → iter_ok R j → iter_distance R i j = inr (index R i - index R j).
Proof using Hp Hw.
  intros Hi Hj. unfold iter_distance. rewrite (iter_lt_index R i j Hp Hi Hj).
  assert (∀ a b, iter_ok R a → iter_ok R b → index R a <= index R b →
    run_lengths (drop (_it a) R) (_it b - _it a) = inr (total (take (_it b) R) - total (take (_it a) R)))
    as Hl.
  { intros a b Ha Hb Hab. pose proof (iter_ok_le _ _ Ha). pose proof (iter_ok_le _ _ Hb).
    assert (_it a <= _it b)%nat.
    { pose proof (iter_lt_index R b a Hp Hb Ha) as Hlt. rewrite bool_decide_false in Hlt by lia.
      unfold iter_lt in Hlt. apply orb_false_iff in Hlt as [Hlt _]. apply bool_decide_eq_false in Hlt. lia. }
    rewrite run_lengths_total by (rewrite length_drop; lia). f_equal.
    replace (take (_it b) R) with (take (_it a) R ++ take (_it b - _it a) (drop (_it a) R)).
    { rewrite total_app. lia. }
    rewrite take_take_drop. f_equal. lia. }
  case_bool_decide.
  - rewrite (Hl i j) by (done || lia). cbn. unfold index. f_equal. lia.
  - rewrite (Hl j i) by (done || lia). cbn. unfold index. f_equal. lia.
Qed.

(** [++] is a move by one. *)
Lemma iter_incr_add i : iter_ok R i → i ≠ rle_end R → iter_incr width R i = iter_add width R 1 i.
Proof using Hp Hw.
  intros Hi Hne. destruct (iter_ok_inv _ _ Hi) as [(r & Hr & Hpos)|]; [|done].
  pose proof (run_length_fits _ _ Hr). unfold iter_incr, iter_add, deref. rewrite Hr.
  rewrite (drop_S _ r) by done. cbn [mbind result_bind Z.geb Z.compare move_forward Z.gtb].
  rewrite (wrapu_small width 1), wrapu_small by lia.
  destruct (Z.eqb_spec (_pos i + 1) (rp_length r)), (Z.ltb_spec 1 (rp_length r - _pos i)); try lia; [|done].
  replace (1 - (rp_length r - _pos i)) with 0 by lia. by destruct (drop _ R).
Qed.

Lemma iter_decr_add i : iter_ok R i → i ≠ rle_begin → iter_decr width R i = iter_add width R (-1) i.
Proof using Hp Hw.
  intros Hi Hne. pose proof (iter_ok_le _ _ Hi) as [Hlen Hnn]. unfold iter_decr, iter_add.
  destruct i as [it pos]. cbn [_it _pos] in *.
  change (- (-1)) with 1. change (-1 >=? 0) with false. cbv iota.
  destruct (Z.eqb_spec pos 0) as [->|Hpos].
  - destruct it as [|it]; [done|]. cbn [prev_it mbind result_bind move_backward Z.gtb Z.leb Z.compare].
    destruct (lookup_lt_is_Some_2 R it) as [r Hr]; [lia|]. unfold deref. rewrite Hr.
    cbn [mbind result_bind]. by destruct it.
  - destruct (iter_ok_inv _ _ Hi) as [(r & Hr & Hr')|E]; [|injection E as _ ->; lia]. cbn in Hr, Hr'.
    pose proof (run_length_fits _ _ Hr). destruct it; cbn [move_backward Z.gtb Z.compare];
      rewrite (proj2 (Z.leb_le _ _)), (wrapu_small width 1) by lia; done.
Qed.

(** Moving an iterator by any distance within the vector, forwards or
    backwards, leads to the position that many values further, where it reads
    the value of the plain vector and from where the distance back is the move;
    neither loop leaves the vector of runs.  The vector must have no empty
    runs. *)
Theorem rle_iterator_arithmetic (i : rle_iterator) (move : Z) :
  iter_ok R i → 0 <= index R i + move <= total R →
  ∃ j, iter_add width R move i = inr j ∧ iter_ok R j
    ∧ iter_distance R j i = inr move
    ∧ iter_add width R (- move) j = inr i
    ∧ (index R i + move < total R →
       ∃ x, iter_deref R j = inr x ∧ decode R !! Z.to_nat (index R i + move) = Some x).
Proof using Hp Hw.
  intros Hi Hr. destruct (iter_add_index i move Hi Hr) as (j & E & Hj & Ej). exists j.
  pose proof (index_range R i Hp Hi). split; [done|]. split; [done|].
  split; [rewrite iter_distance_index by done; f_equal; lia|]. split.
  - destruct (iter_add_index j (- move) Hj ltac:(lia)) as (i' & -> & Hi' & Ei').
    f_equal. apply (index_inj R); [done..|lia].
  - intros Hlt. rewrite <-Ej. apply iter_deref_index; [done..|]. intros ->.
    rewrite index_end in Ej. lia.
Qed.
End moves.
End facts.

(** ** Examples *)

Lemma rle_iterator_arithmetic_witness :
  ∃ j, iter_add 16 [mkRun 1 3; mkRun 2 3; mkRun 3 3] (-4) (mkIt 2 1) = inr j
    ∧ iter_ok [mkRun 1 3; mkRun 2 3; mkRun 3 3] j
    ∧ iter_distance [mkRun 1 3; mkRun 2 3; mkRun 3 3] j (mkIt 2 1) = inr (-4)
    ∧ iter_add 16 [mkRun 1 3; mkRun 2 3; mkRun 3 3] 4 j = inr (mkIt 2 1)
    ∧ (7 + -4 < 9 → ∃ x, iter_deref [mkRun 1 3; mkRun 2 3; mkRun 3 3] j = inr x
         ∧ [1; 1; 1; 2; 2; 2; 3; 3; 3] !! 3%nat = Some x).
Proof.
  apply (rle_iterator_arithmetic 16 [mkRun 1 3; mkRun 2 3; mkRun 3 3]
    ltac:(repeat constructor; cbn; lia) ltac:(cbn; lia) (mkIt 2 1) (-4)); vm_compute; intuition congruence.
Defined.

(** The postfix operators move a copy and return it, where the operators of an
    iterator move the object and return its old position: [*i++] reads the
    second value, and [i] stays at the first one. *)
Lemma postfix_does_not_move :
  iter_postincr 16 [mkRun 1 1; mkRun 2 1] rle_begin = inr (mkIt 1 0, rle_begin)
  ∧ iter_deref [mkRun 1 1; mkRun 2 1] (mkIt 1 0) = inr 2
  ∧ iter_postdecr 16 [mkRun 1 1; mkRun 2 1] (mkIt 1 0) = inr (rle_begin, mkIt 1 0).
Proof. repeat split; reflexivity. Qed.
