(* ===== verification/Viewport.v ===== *)
(** Rectangles of the screen buffer: [src/src/types/viewport.cpp] and
    [src/src/types/inc/viewport.hpp].

    Coordinates are 16-bit signed integers ([SHORT]); the arithmetic on them is
    done in [int] and wraps when it is stored.  A viewport keeps its rectangle
    with inclusive edges. *)

From S2P Require Import Prelude.

(** ** COORD and SMALL_RECT *)

Record COORD := mkCOORD { X : Z; Y : Z }.

Record SMALL_RECT := mkRect { rLeft : Z; rTop : Z; rRight : Z; rBottom : Z }.

#[global] Instance COORD_eq_dec : EqDecision COORD.
Proof. solve_decision. Defined.
#[global] Instance SMALL_RECT_eq_dec : EqDecision SMALL_RECT.
Proof. solve_decision. Defined.

Record Viewport := mkViewport { _sr : SMALL_RECT }.

(** [operator==] compares the inclusive rectangles. *)
#[global] Instance Viewport_eq_dec : EqDecision Viewport.
Proof. solve_decision. Defined.

(** ** Construction and edges *)

Definition Viewport_Empty : Viewport := mkViewport (mkRect 0 0 (-1) (-1)).

Definition FromInclusive (sr : SMALL_RECT) : Viewport := mkViewport sr.

Definition FromExclusive (sr : SMALL_RECT) : Viewport :=
  FromInclusive (mkRect (rLeft sr) (rTop sr) (i16 (rRight sr - 1)) (i16 (rBottom sr - 1))).

Definition FromDimensions (origin dimensions : COORD) : Viewport :=
  FromExclusive (mkRect (X origin) (Y origin) (i16 (X origin + X dimensions))
    (i16 (Y origin + Y dimensions))).

Definition FromDimensions_at_origin (dimensions : COORD) : Viewport :=
  FromDimensions (mkCOORD 0 0) dimensions.

Definition FromCoord (origin : COORD) : Viewport :=
  FromInclusive (mkRect (X origin) (Y origin) (X origin) (Y origin)).

Definition Left (v : Viewport) : Z := rLeft (_sr v).
Definition RightInclusive (v : Viewport) : Z := rRight (_sr v).
Definition RightExclusive (v : Viewport) : Z := i16 (rRight (_sr v) + 1).
Definition Top (v : Viewport) : Z := rTop (_sr v).
Definition BottomInclusive (v : Viewport) : Z := rBottom (_sr v).
Definition BottomExclusive (v : Viewport) : Z := i16 (rBottom (_sr v) + 1).
Definition Height (v : Viewport) : Z := i16 (BottomExclusive v - Top v).
Definition Width (v : Viewport) : Z := i16 (RightExclusive v - Left v).
Definition Origin (v : Viewport) : COORD := mkCOORD (Left v) (Top v).
Definition BottomRightExclusive (v : Viewport) : COORD :=
  mkCOORD (RightExclusive v) (BottomExclusive v).
Definition EndExclusive (v : Viewport) : COORD := mkCOORD (Left v) (BottomExclusive v).
Definition Dimensions (v : Viewport) : COORD := mkCOORD (Width v) (Height v).

Definition ToExclusive (v : Viewport) : SMALL_RECT :=
  mkRect (Left v) (Top v) (RightExclusive v) (BottomExclusive v).
Definition ToInclusive (v : Viewport) : SMALL_RECT :=
  mkRect (Left v) (Top v) (RightInclusive v) (BottomInclusive v).

Definition IsValid (v : Viewport) : bool := (Height v >? 0) && (Width v >? 0).

(** ** Bounds *)

Definition IsInBounds_viewport (v other : Viewport) : bool :=
  (Left other >=? Left v) && (Left other <=? RightInclusive v)
  && (RightInclusive other >=? Left v) && (RightInclusive other <=? RightInclusive v)
  && (Top other >=? Top v) && (Top other <=? BottomInclusive other)
  && (BottomInclusive other >=? Top v) && (BottomInclusive other <=? BottomInclusive v).

Definition IsInBounds (v : Viewport) (pos : COORD) (allowEndExclusive : bool) : bool :=
  if allowEndExclusive && bool_decide (pos = EndExclusive v) then true
  else (X pos >=? Left v) && (X pos <? RightExclusive v)
       && (Y pos >=? Top v) && (Y pos <? BottomExclusive v).

(** [std::clamp]; its behaviour is undefined when the bounds are crossed. *)
Definition std_clamp (x lo hi : Z) : Z := if x <? lo then lo else if hi <? x then hi else x.

(** [None] is the exception for an invalid viewport. *)
Definition Clamp (v : Viewport) (pos : COORD) : option COORD :=
  if negb (IsValid v) then None
  else Some (mkCOORD (std_clamp (X pos) (Left v) (RightInclusive v))
                     (std_clamp (Y pos) (Top v) (BottomInclusive v))).

Definition Clamp_viewport (v other : Viewport) : Viewport :=
  let clampMe := ToInclusive other in
  FromInclusive (mkRect
    (std_clamp (rLeft clampMe) (Left v) (RightInclusive v))
    (std_clamp (rTop clampMe) (Top v) (BottomInclusive v))
    (std_clamp (rRight clampMe) (Left v) (RightInclusive v))
    (std_clamp (rBottom clampMe) (Top v) (BottomInclusive v))).

(** ** Walking *)

Inductive XWalk := LeftToRight | RightToLeft.
Inductive YWalk := TopToBottom | BottomToTop.

Record WalkDir := mkWalkDir { wx : XWalk; wy : YWalk }.

(** The step of the row when a walk has come to the end of one: the new
    position and whether it did not roll over. *)
Definition walk_row (v : Viewport) (x y : Z) (dir : YWalk) (allowEnd : bool) : bool * COORD :=
  match dir with
  | TopToBottom =>
      let y := i16 (y + 1) in
      if allowEnd && (y =? BottomExclusive v) then (true, mkCOORD x y)
      else if y >? BottomInclusive v then (false, mkCOORD x (Top v))
      else (true, mkCOORD x y)
  | BottomToTop =>
      let y := i16 (y - 1) in
      if y <? Top v then (false, mkCOORD x (BottomInclusive v)) else (true, mkCOORD x y)
  end.

Definition WalkInBoundsCircular (v : Viewport) (pos : COORD) (dir : WalkDir)
    (allowEndExclusive : bool) : exn + bool * COORD :=
  if negb (IsInBounds v pos allowEndExclusive) then inl FailFast
  else inr
    match wx dir with
    | LeftToRight =>
        if allowEndExclusive && (X pos =? Left v) && (Y pos =? BottomExclusive v)
        then (false, mkCOORD (X pos) (Top v))
        else if X pos =? RightInclusive v
        then walk_row v (Left v) (Y pos) (wy dir) allowEndExclusive
        else (true, mkCOORD (i16 (X pos + 1)) (Y pos))
    | RightToLeft =>
        if X pos =? Left v
        then walk_row v (RightInclusive v) (Y pos) (wy dir) false
        else (true, mkCOORD (i16 (X pos - 1)) (Y pos))
    end.

(** The position is changed only when the walk stays inside. *)
Definition WalkInBounds (v : Viewport) (pos : COORD) (dir : WalkDir) (allowEndExclusive : bool)
    : exn + bool * COORD :=
  '(success, copy) ← WalkInBoundsCircular v pos dir allowEndExclusive;
  inr (if (success : bool) then (true, copy) else (false, pos)).

Definition IncrementInBounds (v : Viewport) (pos : COORD) (allowEndExclusive : bool) :=
  WalkInBounds v pos (mkWalkDir LeftToRight TopToBottom) allowEndExclusive.

Definition IncrementInBoundsCircular (v : Viewport) (pos : COORD) :=
  WalkInBoundsCircular v pos (mkWalkDir LeftToRight TopToBottom) false.

Definition DecrementInBounds (v : Viewport) (pos : COORD) (allowEndExclusive : bool) :=
  WalkInBounds v pos (mkWalkDir RightToLeft BottomToTop) allowEndExclusive.

Definition DecrementInBoundsCircular (v : Viewport) (pos : COORD) :=
  WalkInBoundsCircular v pos (mkWalkDir RightToLeft BottomToTop) false.

(** A loop of [n] steps that stops at the first one that fails. *)
Fixpoint move_loop (step : COORD → exn + bool * COORD) (n : nat) (success : bool) (pos : COORD)
    : exn + bool * COORD :=
  match n with
  | O => inr (success, pos)
  | S n =>
      '(success, pos) ← step pos;
      if (success : bool) then move_loop step n true pos else inr (false, pos)
  end.

Definition MoveInBounds (v : Viewport) (move : Z) (pos : COORD) : exn + bool * COORD :=
  let backup := pos in
  '(success, pos) ← move_loop (λ p, IncrementInBounds v p false) (Z.to_nat move) true pos;
  '(success, pos) ← move_loop (λ p, DecrementInBounds v p false) (Z.to_nat (- move)) success pos;
  inr (success, if (success : bool) then pos else backup).

Definition CompareInBounds (v : Viewport) (first second : COORD) (allowEndExclusive : bool)
    : exn + Z :=
  if negb (IsInBounds v first allowEndExclusive) then inl FailFast
  else if negb (IsInBounds v second allowEndExclusive) then inl FailFast
  else inr (i32 (i32 ((Y first - Y second) * Width v) + (X first - X second))).

Definition GetWalkOrigin (v : Viewport) (dir : WalkDir) : COORD :=
  mkCOORD (match wx dir with LeftToRight => Left v | RightToLeft => RightInclusive v end)
          (match wy dir with TopToBottom => Top v | BottomToTop => BottomInclusive v end).

Definition DetermineWalkDirection (source target : Viewport) : WalkDir :=
  let sourceOrigin := Origin source in
  let targetOrigin := Origin target in
  mkWalkDir (if X targetOrigin <? X sourceOrigin then LeftToRight else RightToLeft)
            (if Y targetOrigin <? Y sourceOrigin then TopToBottom else BottomToTop).

(** ** Coordinate spaces *)

(** The clipped rectangle and whether it has an area. *)
Definition TrimToViewport (v : Viewport) (sr : SMALL_RECT) : bool * SMALL_RECT :=
  let sr := mkRect (Z.max (rLeft sr) (Left v)) (Z.max (rTop sr) (Top v))
                   (Z.min (rRight sr) (RightExclusive v)) (Z.min (rBottom sr) (BottomExclusive v)) in
  ((rLeft sr <? rRight sr) && (rTop sr <? rBottom sr), sr).

Definition ConvertToOrigin_rect (v : Viewport) (sr : SMALL_RECT) : SMALL_RECT :=
  mkRect (i16 (rLeft sr - Left v)) (i16 (rTop sr - Top v)) (i16 (rRight sr - Left v))
         (i16 (rBottom sr - Top v)).

Definition ConvertToOrigin_coord (v : Viewport) (c : COORD) : COORD :=
  mkCOORD (i16 (X c - Left v)) (i16 (Y c - Top v)).

Definition ConvertFromOrigin_rect (v : Viewport) (sr : SMALL_RECT) : SMALL_RECT :=
  mkRect (i16 (rLeft sr + Left v)) (i16 (rTop sr + Top v)) (i16 (rRight sr + Left v))
         (i16 (rBottom sr + Top v)).

Definition ConvertFromOrigin_coord (v : Viewport) (c : COORD) : COORD :=
  mkCOORD (i16 (X c + Left v)) (i16 (Y c + Top v)).

Definition ToOrigin (v : Viewport) : Viewport := mkViewport (ConvertToOrigin_rect v (_sr v)).

Definition ConvertToOrigin (v other : Viewport) : Viewport :=
  mkViewport (ConvertToOrigin_rect v (_sr other)).

Definition ConvertFromOrigin (v other : Viewport) : Viewport :=
  mkViewport (ConvertFromOrigin_rect v (_sr other)).

(** [ShortAdd] of intsafe.h: [None] when the sum does not fit. *)
Definition ShortAdd (a b : Z) : option Z :=
  if (-32768 <=? a + b) && (a + b <=? 32767) then Some (a + b) else None.

Definition Offset (original : Viewport) (delta : COORD) : option Viewport :=
  if (X delta =? 0) && (Y delta =? 0) then Some original
  else
    newLeft ← ShortAdd (Left original) (X delta);
    newRight ← ShortAdd (RightInclusive original) (X delta);
    newTop ← ShortAdd (Top original) (Y delta);
    newBottom ← ShortAdd (BottomInclusive original) (Y delta);
    Some (mkViewport (mkRect newLeft newTop newRight newBottom)).

(** ** Set operations *)

Definition Union (lhs rhs : Viewport) : Viewport :=
  let leftValid := IsValid lhs in
  let rightValid := IsValid rhs in
  if negb leftValid && negb rightValid then Viewport_Empty
  else if negb leftValid then rhs
  else if negb rightValid then lhs
  else mkViewport (mkRect (Z.min (Left lhs) (Left rhs)) (Z.min (Top lhs) (Top rhs))
         (Z.max (RightInclusive lhs) (RightInclusive rhs))
         (Z.max (BottomInclusive lhs) (BottomInclusive rhs))).

Definition Intersect (lhs rhs : Viewport) : Viewport :=
  let intersection := mkViewport (mkRect
    (Z.max (Left lhs) (Left rhs)) (Z.max (Top lhs) (Top rhs))
    (Z.min (RightInclusive lhs) (RightInclusive rhs))
    (Z.min (BottomInclusive lhs) (BottomInclusive rhs))) in
  if negb (IsValid intersection) then Viewport_Empty else intersection.

Definition Subtract (original removeMe : Viewport) : list Viewport :=
  let intersection := Intersect original removeMe in
  if negb (IsValid intersection) then [original]
  else if bool_decide (original = intersection) then []
  else
    let top := mkViewport (mkRect (Left original) (Top original) (RightInclusive original)
                 (i16 (Top intersection - 1))) in
    let bottom := mkViewport (mkRect (Left original) (BottomExclusive intersection)
                    (RightInclusive original) (BottomInclusive original)) in
    let left := mkViewport (mkRect (Left original) (Top intersection)
                  (i16 (Left intersection - 1)) (BottomInclusive intersection)) in
    let right := mkViewport (mkRect (RightExclusive intersection) (Top intersection)
                   (RightInclusive original) (BottomInclusive intersection)) in
    filter (λ v, IsValid v = true) [top; bottom; left; right].
