(* ===== verification/ViewportFacts.v ===== *)
(** Facts of viewports: walking visits every position once and in order, moving
    is arithmetic on positions, and the set operations on rectangles are those
    on the sets of their positions. *)

From S2P Require Import Prelude Viewport.

(** ** Well-formed viewports *)

(** A viewport with an area whose edges and dimensions, also the exclusive ones
    and the row and the column before it, fit in a [SHORT]. *)
Definition vp_ok (v : Viewport) : Prop :=
  -32768 < Left v <= RightInclusive v ∧ RightInclusive v < 32767
  ∧ RightInclusive v - Left v < 32767
  ∧ -32768 < Top v <= BottomInclusive v ∧ BottomInclusive v < 32767
  ∧ BottomInclusive v - Top v < 32767.

(** The position lies in the rectangle. *)
Definition inside (v : Viewport) (p : COORD) : Prop :=
  Left v <= X p <= RightInclusive v ∧ Top v <= Y p <= BottomInclusive v.

#[global] Instance inside_dec v p : Decision (inside v p).
Proof. apply _. Defined.

(** The width and height without wrap-around, and the number of positions. *)
Definition columns (v : Viewport) : Z := RightInclusive v - Left v + 1.
Definition rows (v : Viewport) : Z := BottomInclusive v - Top v + 1.
Definition area (v : Viewport) : Z := columns v * rows v.

Lemma i16_small z : -32768 <= z <= 32767 → i16 z = z.
Proof. intros. apply wraps_small; lia. Qed.

Ltac vp_unfold :=
  unfold IsValid, IsInBounds, Height, Width, RightExclusive, BottomExclusive, columns, rows,
    Left, Top, RightInclusive, BottomInclusive in *; cbn [_sr rLeft rTop rRight rBottom] in *.

Section ok.
Context (v : Viewport) (Hv : vp_ok v).

Lemma RightExclusive_ok : RightExclusive v = RightInclusive v + 1.
Proof. destruct Hv as (? & ? & ? & ?). unfold RightExclusive. rewrite i16_small; vp_unfold; lia. Qed.

Lemma BottomExclusive_ok : BottomExclusive v = BottomInclusive v + 1.
Proof. destruct Hv as (? & ? & ? & ? & ? & ?). unfold BottomExclusive. rewrite i16_small; vp_unfold; lia. Qed.

Lemma Width_ok : Width v = columns v.
Proof.
  destruct Hv as (? & ? & ? & ?). unfold Width, columns. rewrite RightExclusive_ok, i16_small; lia.
Qed.

Lemma Height_ok : Height v = rows v.
Proof.
  destruct Hv as (? & ? & ? & ? & ? & ?). unfold Height, rows.
  rewrite BottomExclusive_ok, i16_small; lia.
Qed.

Lemma columns_pos : 0 < columns v.
Proof. destruct Hv as (? & ? & ? & ?). unfold columns. lia. Qed.

Lemma rows_pos : 0 < rows v.
Proof. destruct Hv as (? & ? & ? & ? & ?). unfold rows. lia. Qed.

Lemma area_pos : 0 < area v.
Proof. unfold area. pose proof columns_pos. pose proof rows_pos. nia. Qed.

Lemma IsValid_ok : IsValid v = true.
Proof. unfold IsValid. rewrite Height_ok, Width_ok. pose proof columns_pos. pose proof rows_pos. lia. Qed.

Lemma IsInBounds_ok p : IsInBounds v p false = bool_decide (inside v p).
Proof.
  unfold IsInBounds. cbn [andb]. rewrite RightExclusive_ok, BottomExclusive_ok.
  unfold inside. case_bool_decide; lia.
Qed.
End ok.

(** ** The order of a walk *)

(** The position a walk comes to after [k] steps from its origin. *)
Definition walk_pos (v : Viewport) (dir : WalkDir) (k : Z) : COORD :=
  mkCOORD
    (match wx dir with
     | LeftToRight => Left v + k mod columns v
     | RightToLeft => RightInclusive v - k mod columns v
     end)
    (match wy dir with
     | TopToBottom => Top v + k / columns v
     | BottomToTop => BottomInclusive v - k / columns v
     end).

(** The number of steps that lead to a position. *)
Definition walk_index (v : Viewport) (dir : WalkDir) (p : COORD) : Z :=
  (match wy dir with TopToBottom => Y p - Top v | BottomToTop => BottomInclusive v - Y p end)
    * columns v
  + (match wx dir with LeftToRight => X p - Left v | RightToLeft => RightInclusive v - X p end).

Section walk.
Context (v : Viewport) (Hv : vp_ok v) (dir : WalkDir).

Lemma step_row k : 0 <= k < area v → 0 <= k mod columns v < columns v ∧ 0 <= k / columns v < rows v.
Proof.
  intros Hk. pose proof (columns_pos v Hv). split; [apply Z.mod_pos_bound; lia|].
  unfold area in Hk. split; [apply Z.div_pos; lia|]. apply Z.div_lt_upper_bound; lia.
Qed.

Lemma walk_pos_inside k : 0 <= k < area v → inside v (walk_pos v dir k).
Proof.
  intros Hk. destruct (step_row k Hk) as [Hc Hr]. unfold inside, walk_pos, columns, rows in *. cbn.
  destruct (wx dir), (wy dir); lia.
Qed.

Lemma walk_index_range p : inside v p → 0 <= walk_index v dir p < area v.
Proof.
  intros [Hx Hy]. unfold walk_index, area.
  set (dy := match wy dir with TopToBottom => _ | _ => _ end).
  set (dx := match wx dir with LeftToRight => _ | _ => _ end).
  assert (0 <= dx < columns v ∧ 0 <= dy < rows v) as [? ?].
  { unfold dx, dy, columns, rows. destruct (wx dir), (wy dir); lia. }
  nia.
Qed.

Lemma walk_pos_index p : inside v p → walk_pos v dir (walk_index v dir p) = p.
Proof.
  intros [Hx Hy]. unfold walk_index, walk_pos. pose proof (columns_pos v Hv).
  set (dy := match wy dir with TopToBottom => Y p - _ | _ => _ end).
  set (dx := match wx dir with LeftToRight => X p - _ | _ => _ end).
  assert (0 <= dx < columns v) by (unfold dx, columns; destruct (wx dir); lia).
  rewrite (Z.add_comm (dy * _) dx), Z.mod_add, Z.div_add, Z.mod_small, Z.div_small by lia.
  destruct p as [x y]; unfold dx, dy; cbn in *. destruct (wx dir), (wy dir); f_equal; lia.
Qed.

Lemma walk_index_pos k : 0 <= k < area v → walk_index v dir (walk_pos v dir k) = k.
Proof.
  intros Hk. unfold walk_index, walk_pos. cbn. pose proof (columns_pos v Hv).
  pose proof (Z.div_mod k (columns v) ltac:(lia)). destruct (wx dir), (wy dir); lia.
Qed.

(** Going on within a row, and from the end of a row to the next one. *)
Lemma succ_in_row k c : 0 < c → 0 <= k → k mod c ≠ c - 1 →
  (k + 1) mod c = k mod c + 1 ∧ (k + 1) / c = k / c.
Proof.
  intros Hc Hk Hne. pose proof (Z.div_mod k c ltac:(lia)). pose proof (Z.mod_pos_bound k c Hc).
  replace (k + 1) with (k mod c + 1 + k / c * c) by lia.
  rewrite Z.mod_add, Z.div_add, Z.mod_small, Z.div_small by lia. lia.
Qed.

Lemma succ_next_row k c : 0 < c → 0 <= k → k mod c = c - 1 →
  (k + 1) mod c = 0 ∧ (k + 1) / c = k / c + 1.
Proof.
  intros Hc Hk He. pose proof (Z.div_mod k c ltac:(lia)).
  replace (k + 1) with (0 + (k / c + 1) * c) by lia.
  rewrite Z.mod_add, Z.div_add, Z.mod_0_l, Z.div_0_l by lia. lia.
Qed.

(** A last row is full, and the rows before it are not the last one. *)
Lemma full_row k : 0 <= k → k mod columns v = columns v - 1 →
  (k + 1 < area v ↔ k / columns v + 1 < rows v).
Proof.
  intros Hk He. pose proof (columns_pos v Hv). pose proof (Z.div_mod k (columns v) ltac:(lia)).
  unfold area. replace (k + 1) with (columns v * (k / columns v + 1)) by lia.
  by rewrite <-Z.mul_lt_mono_pos_l by lia.
Qed.

Ltac walk_case :=
  repeat match goal with |- context [if ?b then _ else _] =>
    first [replace b with true by (rewrite ?i16_small by lia; lia)
          |replace b with false by (rewrite ?i16_small by lia; lia)] end;
  cbn; rewrite ?i16_small by lia; f_equal; f_equal; lia.

(** One step of a walk: the next position, or from the last one back to the
    first. *)
Lemma WalkInBoundsCircular_step k :
  0 <= k < area v →
  WalkInBoundsCircular v (walk_pos v dir k) dir false
  = inr (if k + 1 <? area v then (true, walk_pos v dir (k + 1)) else (false, walk_pos v dir 0)).
Proof.
  intros Hk. pose proof (walk_pos_inside k Hk) as Hin. unfold WalkInBoundsCircular.
  rewrite (IsInBounds_ok v Hv), bool_decide_true by done. cbn [negb]. f_equal.
  destruct (step_row k Hk) as [Hc Hr]. pose proof (columns_pos v Hv) as Hcp.
  pose proof Hv as (H1 & H2 & H3 & H4 & H5 & H6).
  pose proof (Z.div_mod k (columns v) ltac:(lia)) as Hdm.
  pose proof (full_row k ltac:(lia)) as Hf.
  destruct (decide (k mod columns v = columns v - 1)) as [E|E].
  - destruct (succ_next_row k (columns v)) as [Em Ed]; [lia..|]. specialize (Hf E).
    destruct (Z.ltb_spec (k + 1) (area v)) as [Hlt|Hge]; unfold walk_pos, walk_row;
      rewrite ?Em, ?Ed, ?Z.mod_0_l, ?Z.div_0_l by lia; cbn [X Y andb];
      clear Hdm Hin Em Ed; generalize dependent (k / columns v);
      generalize dependent (k mod columns v); intros;
      destruct (wx dir), (wy dir); unfold columns, rows in *; walk_case.
  - destruct (succ_in_row k (columns v)) as [Em Ed]; [lia..|].
    replace (k + 1 <? area v) with true by (unfold area in *; symmetry; apply Z.ltb_lt; nia).
    unfold walk_pos. rewrite Em, Ed. cbn [X Y andb].
    clear Hdm Hin Em Ed Hf. generalize dependent (k / columns v).
    generalize dependent (k mod columns v). intros.
    destruct (wx dir), (wy dir); unfold columns, rows in *; walk_case.
Qed.

Lemma WalkInBounds_step k :
  0 <= k < area v →
  WalkInBounds v (walk_pos v dir k) dir false
  = inr (if k + 1 <? area v then (true, walk_pos v dir (k + 1)) else (false, walk_pos v dir k)).
Proof.
  intros Hk. unfold WalkInBounds. rewrite WalkInBoundsCircular_step by done.
  cbn [mbind result_bind]. by destruct (k + 1 <? area v).
Qed.

Lemma GetWalkOrigin_pos : GetWalkOrigin v dir = walk_pos v dir 0.
Proof.
  unfold GetWalkOrigin, walk_pos. pose proof (columns_pos v Hv).
  rewrite Z.mod_0_l, Z.div_0_l by lia. destruct (wx dir), (wy dir); f_equal; lia.
Qed.
End walk.

(** *** A whole walk *)

(** The loop [do { ... } while (v.WalkInBounds(pos, dir))]: the positions its
    body sees. *)
Fixpoint walk_from (fuel : nat) (v : Viewport) (dir : WalkDir) (pos : COORD) : exn + list COORD :=
  match fuel with
  | O => inl OutOfFuel
  | S fuel =>
      '(more, next) ← WalkInBounds v pos dir false;
      if (more : bool) then l ← walk_from fuel v dir next; inr (pos :: l) else inr [pos]
  end.

Section whole.
Context (v : Viewport) (Hv : vp_ok v) (dir : WalkDir).

Lemma walk_from_pos n k :
  0 <= k → k + Z.of_nat n = area v → (0 < n)%nat →
  walk_from n v dir (walk_pos v dir k) = inr (walk_pos v dir <$> seqZ k (Z.of_nat n)).
Proof using Hv.
  revert k. induction n as [|n IH]; intros k Hk Hn Hp; [lia|]. cbn [walk_from].
  rewrite (WalkInBounds_step v Hv dir) by lia. cbn [mbind result_bind].
  replace (Z.of_nat (S n)) with (Z.succ (Z.of_nat n)) by lia. rewrite seqZ_cons by lia.
  rewrite Z.pred_succ. destruct (Z.ltb_spec (k + 1) (area v)).
  - rewrite IH by lia. done.
  - replace n with O by lia. done.
Qed.

(** The loop that starts at the origin of a walk and goes on while
    [WalkInBounds] succeeds ends, sees only positions of the viewport, and sees
    each of them exactly once, in each of the four directions. *)
Theorem walk_visits_once :
  ∃ l, walk_from (Z.to_nat (area v)) v dir (GetWalkOrigin v dir) = inr l
    ∧ NoDup l ∧ (∀ p, p ∈ l ↔ inside v p).
Proof using Hv.
  pose proof (area_pos v Hv). rewrite (GetWalkOrigin_pos v Hv), walk_from_pos by lia.
  eexists; split; [done|]. rewrite Z2Nat.id by lia. split.
  - apply NoDup_fmap_2_strong; [|apply NoDup_seqZ].
    intros i j Hi%elem_of_seqZ Hj%elem_of_seqZ E.
    rewrite <-(walk_index_pos v Hv dir i), <-(walk_index_pos v Hv dir j) by lia. by rewrite E.
  - intros p. rewrite list_elem_of_fmap. split.
    + intros (k & -> & Hk%elem_of_seqZ). apply (walk_pos_inside v Hv). lia.
    + intros Hp. exists (walk_index v dir p). split; [by rewrite (walk_pos_index v Hv)|].
      apply elem_of_seqZ. pose proof (walk_index_range v dir p Hp). lia.
Qed.
End whole.

(** ** Moving *)

Definition forward : WalkDir := mkWalkDir LeftToRight TopToBottom.
Definition backward : WalkDir := mkWalkDir RightToLeft BottomToTop.

(** The number of a position in reading order. *)
Definition position (v : Viewport) (p : COORD) : Z := walk_index v forward p.

Section move.
Context (v : Viewport) (Hv : vp_ok v).

(** A loop of steps in one direction. *)
Lemma move_loop_walk dir n k :
  0 <= k < area v →
  ∃ k', move_loop (λ p, WalkInBounds v p dir false) n true (walk_pos v dir k)
        = inr (bool_decide (k + Z.of_nat n < area v), walk_pos v dir k')
    ∧ (k + Z.of_nat n < area v → k' = k + Z.of_nat n) ∧ 0 <= k' < area v.
Proof.
  revert k. induction n as [|n IH]; intros k Hk; cbn [move_loop].
  - exists k. rewrite bool_decide_true by lia. split; [done|lia].
  - rewrite WalkInBounds_step by done. cbn [mbind result_bind].
    destruct (Z.ltb_spec (k + 1) (area v)).
    + destruct (IH (k + 1)) as (k' & -> & He & Hr); [lia|]. exists k'.
      split; [|split; [intros; rewrite He; lia|done]].
      f_equal. f_equal. apply bool_decide_ext. lia.
    + exists k. rewrite bool_decide_false by lia. split; [done|lia].
Qed.

(** The two directions number the positions from opposite ends. *)
Lemma walk_index_backward p : walk_index v backward p = area v - 1 - walk_index v forward p.
Proof. unfold walk_index, area, columns, rows. cbn. nia. Qed.

Lemma walk_pos_backward k :
  0 <= k < area v → walk_pos v backward k = walk_pos v forward (area v - 1 - k).
Proof.
  intros Hk. pose proof (walk_pos_inside v Hv backward k Hk) as Hin.
  rewrite <-(walk_pos_index v Hv forward _ Hin). f_equal.
  pose proof (walk_index_backward (walk_pos v backward k)) as Hb.
  rewrite walk_index_pos in Hb by done. lia.
Qed.

Lemma MoveInBounds_walk move k :
  0 <= k < area v →
  MoveInBounds v move (walk_pos v forward k)
  = inr (if decide (0 <= k + move < area v) then (true, walk_pos v forward (k + move))
         else (false, walk_pos v forward k)).
Proof.
  intros Hk. unfold MoveInBounds, IncrementInBounds, DecrementInBounds. fold forward backward.
  destruct (decide (0 <= move)) as [Hm|Hm].
  - destruct (move_loop_walk forward (Z.to_nat move) k Hk) as (k' & -> & He & Hr).
    cbn [mbind result_bind]. replace (Z.to_nat (- move)) with O by lia. cbn.
    case_bool_decide; [rewrite He by done|]; (destruct (decide _); [|try lia; done]).
    + repeat f_equal. lia.
    + lia.
  - replace (Z.to_nat move) with O by lia. cbn [move_loop mbind result_bind].
    replace k with (area v - 1 - (area v - 1 - k)) at 1 by lia.
    rewrite <-walk_pos_backward by lia.
    destruct (move_loop_walk backward (Z.to_nat (- move)) (area v - 1 - k)) as (k' & Hl & He & Hr);
      [lia|].
    rewrite Hl. cbn [mbind result_bind]. rewrite walk_pos_backward by lia.
    case_bool_decide; [rewrite He by done|]; (destruct (decide _); [|try lia; done]); [|lia].
    repeat f_equal. lia.
Qed.

Lemma MoveInBounds_position move p :
  inside v p →
  MoveInBounds v move p
  = inr (if decide (0 <= position v p + move < area v)
         then (true, walk_pos v forward (position v p + move)) else (false, p)).
Proof.
  intros Hp. pose proof (MoveInBounds_walk move _ (walk_index_range v forward p Hp)) as HM.
  by rewrite walk_pos_index in HM.
Qed.

Lemma CompareInBounds_ok a b :
  inside v a → inside v b → CompareInBounds v a b false = inr (position v a - position v b).
Proof.
  intros Ha Hb. unfold CompareInBounds. rewrite !(IsInBounds_ok v Hv), !bool_decide_true by done.
  cbn [negb]. rewrite (Width_ok v Hv). f_equal.
  pose proof Hv as (H1 & H2 & H3 & H4 & H5 & H6).
  assert (Z.abs (Y a - Y b) <= 32766) by (unfold inside in *; lia).
  assert (Z.abs (X a - X b) <= 32766) by (unfold inside in *; lia).
  pose proof (columns_pos v Hv). assert (columns v <= 32767) by (unfold columns; lia).
  assert (Z.abs ((Y a - Y b) * columns v) <= 32766 * 32767).
  { rewrite Z.abs_mul. apply Z.mul_le_mono_nonneg; lia. }
  unfold position, walk_index. cbn. rewrite (wraps_small 32 (_ * _)), wraps_small by lia. lia.
Qed.

(** Moving a position by a number of characters is arithmetic on its number
    in reading order: it succeeds exactly when the result is inside, and
    otherwise leaves the position as it was. *)
Theorem MoveInBounds_correct (move : Z) (p : COORD) :
  inside v p →
  MoveInBounds v move p
  = inr (if decide (0 <= position v p + move < area v)
         then (true, walk_pos v forward (position v p + move)) else (false, p)).
Proof. apply MoveInBounds_position. Qed.

(** The comparison of two positions is their distance: moving by it leads
    from the one to the other, and whatever move leads there is the distance. *)
Theorem compare_is_distance (a b : COORD) :
  inside v a → inside v b →
  ∃ d, CompareInBounds v a b false = inr d
    ∧ MoveInBounds v d b = inr (true, a)
    ∧ (∀ move, MoveInBounds v move b = inr (true, a) → move = d).
Proof.
  intros Ha Hb. exists (position v a - position v b). split; [by apply CompareInBounds_ok|].
  pose proof (walk_index_range v forward a Ha) as Ra.
  pose proof (walk_index_range v forward b Hb) as Rb.
  unfold position in *. split.
  - rewrite MoveInBounds_position by done. unfold position. rewrite decide_True by lia.
    replace (walk_index v forward b + _) with (walk_index v forward a) by lia.
    by rewrite walk_pos_index.
  - intros move E. rewrite MoveInBounds_position in E by done. unfold position in E. destruct (decide _) as [Hd|]; [|done]. simplify_eq.
    rewrite walk_index_pos by done. lia.
Qed.
End move.

(** A viewport is its origin and its dimensions. *)
Lemma FromDimensions_ok v : vp_ok v → FromDimensions (Origin v) (mkCOORD (columns v) (rows v)) = v.
Proof.
  intros (H1 & H2 & H3 & H4 & H5 & H6). destruct v as [[l tp r b]].
  unfold FromDimensions, FromExclusive, FromInclusive, columns, rows in *. cbn in *.
  unfold Left, RightInclusive, Top, BottomInclusive in *. cbn in *.
  rewrite !i16_small by (rewrite ?i16_small; lia). do 2 f_equal; lia.
Qed.

Lemma Dimensions_ok v : vp_ok v → Dimensions v = mkCOORD (columns v) (rows v).
Proof. intros Hv. unfold Dimensions. by rewrite (Width_ok v Hv), (Height_ok v Hv). Qed.

(** ** Set operations *)

(** The rectangle between the inner edges of two viewports, which has no area
    when they do not meet. *)
Definition meet (a b : Viewport) : Viewport := mkViewport (mkRect
  (Z.max (Left a) (Left b)) (Z.max (Top a) (Top b))
  (Z.min (RightInclusive a) (RightInclusive b)) (Z.min (BottomInclusive a) (BottomInclusive b))).

(** The exclusive edges and the dimensions, which may be negative, fit in a
    [SHORT]. *)
Definition fits (v : Viewport) : Prop :=
  -32768 <= RightInclusive v + 1 <= 32767 ∧ -32768 <= columns v <= 32767
  ∧ -32768 <= BottomInclusive v + 1 <= 32767 ∧ -32768 <= rows v <= 32767.

#[global] Instance fits_dec v : Decision (fits v).
Proof. apply _. Defined.
#[global] Instance vp_ok_dec v : Decision (vp_ok v).
Proof. apply _. Defined.

Lemma IsValid_fits v : fits v → IsValid v = bool_decide (0 < columns v ∧ 0 < rows v).
Proof.
  intros (H1 & H2 & H3 & H4). unfold IsValid, Height, Width, RightExclusive, BottomExclusive.
  unfold columns, rows, RightInclusive, BottomInclusive in *. rewrite !i16_small by (rewrite ?i16_small; lia).
  case_bool_decide; lia.
Qed.

Lemma vp_ok_fits v : vp_ok v → fits v.
Proof. unfold vp_ok, fits, columns, rows. lia. Qed.

Lemma inside_meet a b p : inside (meet a b) p ↔ inside a p ∧ inside b p.
Proof. unfold inside, meet. vp_unfold. lia. Qed.

Lemma not_inside_empty p : ¬ inside Viewport_Empty p.
Proof. unfold inside, Viewport_Empty. vp_unfold. lia. Qed.

Lemma inside_area v p : inside v p → 0 < columns v ∧ 0 < rows v.
Proof. unfold inside, columns, rows. lia. Qed.

Lemma Intersect_meet a b :
  fits (meet a b) →
  Intersect a b = if decide (0 < columns (meet a b) ∧ 0 < rows (meet a b)) then meet a b
                  else Viewport_Empty.
Proof.
  intros Hf. unfold Intersect. fold (meet a b). rewrite (IsValid_fits _ Hf), bool_decide_decide.
  by destruct (decide _).
Qed.

Lemma Intersect_inside a b p :
  fits (meet a b) → inside (Intersect a b) p ↔ inside a p ∧ inside b p.
Proof.
  intros Hf. rewrite (Intersect_meet _ _ Hf), <-inside_meet. destruct (decide _) as [|Hn]; [done|].
  split; [by intros ?%not_inside_empty|]. by intros ?%inside_area.
Qed.

(** An intersection with an area is a well-formed viewport. *)
Lemma Intersect_ok a b :
  vp_ok a → fits (meet a b) →
  vp_ok (Intersect a b) ∨ Intersect a b = Viewport_Empty ∧ IsValid (Intersect a b) = false.
Proof.
  intros Ha Hf. rewrite (Intersect_meet _ _ Hf). destruct (decide _) as [Hp|]; [left|by right].
  unfold vp_ok, fits, meet, columns, rows in *. vp_unfold. lia.
Qed.

(** *** Subtraction *)

Section subtract.
Context (original removeMe : Viewport) (Ho : vp_ok original) (Hf : fits (meet original removeMe)).

(** The parts above, below, to the left and to the right of a rectangle [m]
    that lies inside the original one. *)
Definition outer_parts (m : Viewport) : list Viewport :=
  [ mkViewport (mkRect (Left original) (Top original) (RightInclusive original) (Top m - 1));
    mkViewport (mkRect (Left original) (BottomInclusive m + 1) (RightInclusive original)
      (BottomInclusive original));
    mkViewport (mkRect (Left original) (Top m) (Left m - 1) (BottomInclusive m));
    mkViewport (mkRect (RightInclusive m + 1) (Top m) (RightInclusive original)
      (BottomInclusive m)) ].

Definition has_area (v : Viewport) : Prop := 0 < columns v ∧ 0 < rows v.

#[local] Instance has_area_dec v : Decision (has_area v).
Proof. apply _. Defined.

Lemma Subtract_parts :
  Subtract original removeMe =
    if decide (has_area (meet original removeMe)) then
      if decide (original = meet original removeMe) then []
      else filter has_area (outer_parts (meet original removeMe))
    else [original].
Proof using Ho Hf.
  unfold Subtract. rewrite (Intersect_meet _ _ Hf). fold (has_area (meet original removeMe)).
  destruct (decide (has_area _)) as [Ha|Ha]; [|done].
  set (m := meet original removeMe) in *. rewrite (IsValid_fits m Hf), bool_decide_true by done.
  cbn [negb]. rewrite bool_decide_decide. destruct (decide (original = m)); [done|].
  assert (vp_ok m) as Hm.
  { unfold has_area, vp_ok, fits, m, meet, columns, rows in *. vp_unfold. lia. }
  rewrite (RightExclusive_ok m Hm), (BottomExclusive_ok m Hm).
  rewrite (i16_small (Top m - 1)), (i16_small (Left m - 1)).
  2:{ unfold has_area, vp_ok, m, meet, columns in *. vp_unfold. lia. }
  2:{ unfold vp_ok in *. lia. }
  apply filter_Forall_iff, Forall_forall. intros w Hw.
  rewrite IsValid_fits; [by rewrite bool_decide_eq_true|].
  unfold outer_parts in Hw. unfold vp_ok, has_area, fits, m, meet, columns, rows in *.
  repeat (apply elem_of_cons in Hw as [->|Hw]); [vp_unfold; lia..|by apply elem_of_nil in Hw].
Qed.

(** A part is told apart from the others by where it lies from [m]. *)
Definition on_side (m : Viewport) (i : nat) (p : COORD) : Prop :=
  match i with
  | 0%nat => Y p < Top m
  | 1%nat => Y p > BottomInclusive m
  | 2%nat => Top m <= Y p <= BottomInclusive m ∧ X p < Left m
  | _ => Top m <= Y p <= BottomInclusive m ∧ X p > RightInclusive m
  end.

Lemma outer_parts_inside m i w p :
  (∀ q, inside m q → inside original q) → has_area m →
  outer_parts m !! i = Some w → inside w p ↔ inside original p ∧ on_side m i p.
Proof.
  intros Hm Ha Hi.
  pose proof (Hm (mkCOORD (Left m) (Top m))) as H1.
  pose proof (Hm (mkCOORD (RightInclusive m) (BottomInclusive m))) as H2.
  unfold has_area, columns, rows, inside in *. cbn [X Y] in *.
  specialize (H1 ltac:(lia)). specialize (H2 ltac:(lia)).
  destruct i as [|[|[|[|i]]]]; cbn in Hi; simplify_eq; cbn [on_side];
    unfold Left, Top, RightInclusive, BottomInclusive in *; cbn; lia.
Qed.

Lemma sides_disjoint m i j p :
  has_area m → (i < 4)%nat → (j < 4)%nat → on_side m i p → on_side m j p → i = j.
Proof.
  unfold has_area, columns, rows. intros Ha Hi Hj. destruct i as [|[|[|[|i]]]], j as [|[|[|[|j]]]]; cbn; lia.
Qed.

Lemma sides_cover m p : inside original p → ¬ inside m p → ∃ i, (i < 4)%nat ∧ on_side m i p.
Proof.
  unfold inside. intros Ho' Hm.
  destruct (decide (Y p < Top m)); [by exists 0%nat; split; [lia|]|].
  destruct (decide (Y p > BottomInclusive m)); [by exists 1%nat; split; [lia|]|].
  destruct (decide (X p < Left m)); [exists 2%nat; cbn; lia|]. exists 3%nat. cbn. lia.
Qed.
End subtract.

Lemma ForallOrdPairs_lookup {A} (R : A → A → Prop) (l : list A) :
  (∀ i j x y, (i < j)%nat → l !! i = Some x → l !! j = Some y → R x y) → ForallOrdPairs R l.
Proof.
  induction l as [|x l IH]; intros HR; constructor.
  - apply List.Forall_forall. intros y [j Hj]%list_elem_of_In%list_elem_of_lookup.
    by apply (HR 0%nat (S j)); [lia|..].
  - apply IH. intros i j a b Hij Hi Hj. by apply (HR (S i) (S j)); [lia|..].
Qed.

(** Lists of viewports as sets of positions. *)
Definition covers (vs : list Viewport) (p : COORD) : Prop := Exists (λ w, inside w p) vs.

(** No position lies in two of the viewports. *)
Definition disjoint_viewports : list Viewport → Prop :=
  ForallOrdPairs (λ w w', ∀ p, inside w p → ¬ inside w' p).

Lemma filter_pairs {A} (R : A → A → Prop) (P : A → Prop) `{∀ x, Decision (P x)} (l : list A) :
  ForallOrdPairs R l → ForallOrdPairs R (filter P l).
Proof.
  induction 1 as [|x l Hx _ IH]; [constructor|]. rewrite filter_cons.
  destruct (decide (P x)); [|done]. constructor; [|done].
  apply Forall_forall. intros y [_ Hy]%list_elem_of_filter. by eapply Forall_forall.
Qed.

Lemma outer_parts_disjoint original m :
  (∀ q, inside m q → inside original q) → has_area m → disjoint_viewports (outer_parts original m).
Proof.
  intros Hm Ha. apply ForallOrdPairs_lookup. intros i j w w' Hij Hi Hj p Hp Hp'.
  apply (outer_parts_inside original m i w p Hm Ha) in Hp as [_ Hp]; [|done].
  apply (outer_parts_inside original m j w' p Hm Ha) in Hp' as [_ Hp']; [|done].
  apply lookup_lt_Some in Hi, Hj. cbn in Hi, Hj.
  pose proof (sides_disjoint m i j p Ha Hi Hj Hp Hp'). lia.
Qed.

Lemma outer_parts_cover original removeMe p :
  has_area (meet original removeMe) →
  covers (filter has_area (outer_parts original (meet original removeMe))) p
  ↔ inside original p ∧ ¬ inside removeMe p.
Proof.
  set (m := meet original removeMe). intros Ha.
  assert (∀ q, inside m q → inside original q) as Hsub by (intros q; unfold m; rewrite inside_meet; tauto).
  unfold covers. rewrite Exists_exists. split.
  - intros (w & [_ [i Hi]%list_elem_of_lookup]%list_elem_of_filter & Hp).
    apply (outer_parts_inside original m i w p Hsub Ha Hi) in Hp as [Hp Hs]. split; [done|].
    intros Hr. assert (inside m p) as Hm by by apply inside_meet.
    unfold inside in Hm. destruct i as [|[|[|i]]]; cbn [on_side] in Hs; lia.
  - intros [Hp Hr]. assert (¬ inside m p) as Hm by (unfold m; rewrite inside_meet; tauto).
    destruct (sides_cover original m p Hp Hm) as (i & Hi & Hs).
    destruct (lookup_lt_is_Some_2 (outer_parts original m) i) as [w Hw]; [done|].
    assert (inside w p) as Hin by by apply (outer_parts_inside original m i w p Hsub Ha Hw).
    exists w. split; [|done]. apply list_elem_of_filter.
    split; [by apply inside_area in Hin|by eapply list_elem_of_lookup_2].
Qed.

Lemma outer_parts_ok original m w :
  vp_ok original → (∀ q, inside m q → inside original q) → has_area m →
  w ∈ outer_parts original m → has_area w → vp_ok w.
Proof.
  intros Ho Hm Ha Hw Hp.
  pose proof (Hm (mkCOORD (Left m) (Top m))) as H1.
  pose proof (Hm (mkCOORD (RightInclusive m) (BottomInclusive m))) as H2.
  unfold has_area, columns, rows, inside, vp_ok in *. cbn [X Y] in *.
  specialize (H1 ltac:(lia)). specialize (H2 ltac:(lia)). unfold outer_parts in Hw.
  repeat (apply elem_of_cons in Hw as [->|Hw]); [vp_unfold; lia..|by apply elem_of_nil in Hw].
Qed.

(** What [Subtract] leaves. *)
Lemma Subtract_ok (original removeMe : Viewport) :
  vp_ok original → fits (meet original removeMe) →
  (∀ p, covers (Subtract original removeMe) p ↔ inside original p ∧ ¬ inside removeMe p)
  ∧ disjoint_viewports (Subtract original removeMe)
  ∧ Forall vp_ok (Subtract original removeMe)
  ∧ (length (Subtract original removeMe) <= 4)%nat.
Proof.
  intros Ho Hf. rewrite (Subtract_parts _ _ Ho Hf). set (m := meet original removeMe).
  assert (∀ q, inside m q → inside original q) as Hsub by (intros q; unfold m; rewrite inside_meet; tauto).
  destruct (decide (has_area m)) as [Ha|Ha].
  2:{ split; [|split; [repeat constructor|split; [by apply Forall_singleton|cbn; lia]]]. intros p. unfold covers.
      rewrite Exists_cons, Exists_nil. split; [|tauto]. intros [Hp|[]]. split; [done|].
      intros Hr. apply Ha. eapply inside_area, inside_meet. by split. }
  destruct (decide (original = m)) as [E|_].
  { split; [|split; [constructor|split; [constructor|cbn; lia]]]. intros p. unfold covers. rewrite Exists_nil.
    split; [done|]. intros [Hp Hr]. apply Hr. rewrite E in Hp. by apply inside_meet in Hp as [_ ?]. }
  split; [|split; [by apply filter_pairs, outer_parts_disjoint|split]].
  - intros p. by apply outer_parts_cover.
  - apply Forall_forall. intros w [Hw Hin]%list_elem_of_filter.
    by apply (outer_parts_ok original m).
  - etrans; [apply length_filter|]. done.
Qed.

(** Subtracting a rectangle from another one leaves at most four rectangles,
    which are well formed, do not overlap, and together have exactly the
    positions of the first one that are not in the second. *)
Theorem Subtract_correct (original removeMe : Viewport) :
  vp_ok original → fits (meet original removeMe) →
  (∀ p, covers (Subtract original removeMe) p ↔ inside original p ∧ ¬ inside removeMe p)
  ∧ disjoint_viewports (Subtract original removeMe)
  ∧ Forall vp_ok (Subtract original removeMe)
  ∧ (length (Subtract original removeMe) <= 4)%nat.
Proof. apply Subtract_ok. Qed.

(** ** Examples *)

Lemma walk_visits_once_witness :
  ∃ l, walk_from 6 (mkViewport (mkRect 2 3 4 4)) (mkWalkDir RightToLeft TopToBottom) (mkCOORD 4 3) = inr l
    ∧ NoDup l ∧ (∀ p, p ∈ l ↔ inside (mkViewport (mkRect 2 3 4 4)) p).
Proof.
  apply (walk_visits_once (mkViewport (mkRect 2 3 4 4)) ltac:(vm_compute; intuition congruence)
    (mkWalkDir RightToLeft TopToBottom)).
Defined.

Lemma MoveInBounds_correct_witness :
  MoveInBounds (mkViewport (mkRect 2 3 4 4)) (-3) (mkCOORD 3 4) = inr (true, mkCOORD 3 3)
  ∧ MoveInBounds (mkViewport (mkRect 2 3 4 4)) 3 (mkCOORD 3 4) = inr (false, mkCOORD 3 4).
Proof.
  pose (v := mkViewport (mkRect 2 3 4 4)). assert (vp_ok v) as Hv by (vm_compute; intuition congruence).
  split; rewrite (MoveInBounds_correct v Hv _ (mkCOORD 3 4)) by (vm_compute; intuition congruence);
    reflexivity.
Defined.

Lemma compare_is_distance_witness :
  ∃ d, CompareInBounds (mkViewport (mkRect 2 3 4 4)) (mkCOORD 2 4) (mkCOORD 4 3) false = inr d
    ∧ MoveInBounds (mkViewport (mkRect 2 3 4 4)) d (mkCOORD 4 3) = inr (true, mkCOORD 2 4)
    ∧ (∀ move, MoveInBounds (mkViewport (mkRect 2 3 4 4)) move (mkCOORD 4 3)
               = inr (true, mkCOORD 2 4) → move = d).
Proof. apply compare_is_distance; vm_compute; intuition congruence. Defined.

Lemma Subtract_correct_witness :
  length (Subtract (mkViewport (mkRect 0 0 9 9)) (mkViewport (mkRect 3 3 5 12))) = 3%nat
  ∧ ∀ p, covers (Subtract (mkViewport (mkRect 0 0 9 9)) (mkViewport (mkRect 3 3 5 12))) p
         ↔ inside (mkViewport (mkRect 0 0 9 9)) p ∧ ¬ inside (mkViewport (mkRect 3 3 5 12)) p.
Proof.
  split; [reflexivity|]. apply Subtract_correct; vm_compute; intuition congruence.
Defined.

(** Viewports that are further apart than a [SHORT] can count appear to meet:
    the negative width of their intersection wraps around. *)
Lemma far_viewports_intersect :
  IsValid (Intersect (mkViewport (mkRect 20000 0 20010 10)) (mkViewport (mkRect (-20010) 0 (-20000) 10)))
  = true
  ∧ ∀ p, ¬ (inside (mkViewport (mkRect 20000 0 20010 10)) p
            ∧ inside (mkViewport (mkRect (-20010) 0 (-20000) 10)) p).
Proof. split; [reflexivity|]. intros p. unfold inside, Left, RightInclusive. cbn. lia. Qed.
