(* ===== verification/Utf16.v ===== *)
(** UTF-16 text: the class [Utf16Parser] of [src/src/types/Utf16Parser.cpp] and
    [src/src/types/inc/Utf16Parser.hpp], which splits it into code points. *)

From S2P Require Import Prelude.

(** ** Surrogates *)

Definition WcharShiftAmount : Z := 16 - 6.

(** [std::bitset<6>] keeps the low bits; [none] tests that no bit is set. *)
Definition bitset6 (bits : Z) : Z := Z.land bits 63.

Definition IsLeadingSurrogate (wch : Z) : bool :=
  Z.lxor (bitset6 (Z.shiftr wch WcharShiftAmount)) 54 =? 0.

Definition IsTrailingSurrogate (wch : Z) : bool :=
  Z.lxor (bitset6 (Z.shiftr wch WcharShiftAmount)) 55 =? 0.

Definition UNICODE_REPLACEMENT : Z := 0xFFFD.

(** ** Parsing *)

Fixpoint ParseNext (wstr : wstring) : wstring :=
  match wstr with
  | [] => [UNICODE_REPLACEMENT]
  | wch :: rest =>
      if IsLeadingSurrogate wch then
        match rest with
        | wchNext :: _ => if IsTrailingSurrogate wchNext then [wch; wchNext] else ParseNext rest
        | [] => ParseNext rest
        end
      else if IsTrailingSurrogate wch then ParseNext rest
      else [wch]
  end.

(** One character of the loop of [Parse]: the result and the pending sequence. *)
Definition parse_step (state : list wstring * wstring) (wch : Z) : list wstring * wstring :=
  let '(result, sequence) := state in
  if IsLeadingSurrogate wch then (result, [wch])
  else if IsTrailingSurrogate wch then
    match sequence with
    | [] => (result, sequence)
    | _ => (result ++ [sequence ++ [wch]], [])
    end
  else (result ++ [[wch]], sequence).

Definition Parse (wstr : wstring) : list wstring := fst (fold_left parse_step wstr ([], [])).

(** [Utf16ToUcs2] of [convert.cpp]; [None] is the exception for empty text. *)
Definition Utf16ToUcs2 (charData : wstring) : option Z :=
  match charData with
  | [] => None
  | [wch] => Some wch
  | _ => Some UNICODE_REPLACEMENT
  end.

(** ** Code points *)

(** A Unicode scalar value: a code point that is not a surrogate. *)
Definition scalar (c : Z) : Prop := 0 <= c < 0xD800 ∨ 0xE000 <= c <= 0x10FFFF.

#[global] Instance scalar_dec c : Decision (scalar c).
Proof. unfold scalar. apply _. Defined.

(** Its UTF-16 code units. *)
Definition utf16_units (c : Z) : wstring :=
  if c <? 0x10000 then [c] else [0xD800 + (c - 0x10000) / 1024; 0xDC00 + (c - 0x10000) mod 1024].

Lemma surrogate_bits w : 0 <= w < 65536 →
  IsLeadingSurrogate w = bool_decide (0xD800 <= w < 0xDC00)
  ∧ IsTrailingSurrogate w = bool_decide (0xDC00 <= w < 0xE000).
Proof.
  intros Hw. unfold IsLeadingSurrogate, IsTrailingSurrogate, bitset6, WcharShiftAmount.
  change 63 with (Z.ones 6). rewrite Z.shiftr_div_pow2, Z.land_ones by lia.
  change (2 ^ (16 - 6)) with 1024. change (2 ^ 6) with 64.
  pose proof (Z.div_mod w 1024 ltac:(lia)). pose proof (Z.mod_pos_bound w 1024 ltac:(lia)).
  rewrite Z.mod_small by lia.
  assert (∀ a b, (Z.lxor a b =? 0) = (a =? b)) as Hx.
  { intros a b. destruct (Z.eqb_spec a b) as [->|Hne]; [by rewrite Z.lxor_nilpotent|].
    apply Z.eqb_neq. by rewrite Z.lxor_eq_0_iff. }
  rewrite !Hx. split; case_bool_decide; lia.
Qed.

Lemma utf16_units_bmp c : scalar c → c < 0x10000 →
  utf16_units c = [c] ∧ IsLeadingSurrogate c = false ∧ IsTrailingSurrogate c = false.
Proof.
  intros Hs Hc. unfold utf16_units. rewrite (proj2 (Z.ltb_lt _ _)) by done. split; [done|].
  unfold scalar in Hs. destruct (surrogate_bits c) as [-> ->]; [lia|].
  rewrite !bool_decide_false by lia. done.
Qed.

Lemma utf16_units_pair c : scalar c → 0x10000 <= c →
  ∃ l t, utf16_units c = [l; t] ∧ is_wchar l ∧ is_wchar t
    ∧ IsLeadingSurrogate l = true ∧ IsTrailingSurrogate l = false
    ∧ IsLeadingSurrogate t = false ∧ IsTrailingSurrogate t = true.
Proof.
  intros Hs Hc. unfold utf16_units. rewrite (proj2 (Z.ltb_ge _ _)) by done.
  pose proof (Z.mod_pos_bound (c - 0x10000) 1024 ltac:(lia)).
  assert (0 <= (c - 0x10000) / 1024 < 1024).
  { unfold scalar in Hs. split; [apply Z.div_pos; lia|apply Z.div_lt_upper_bound; lia]. }
  eexists _, _. split; [done|]. unfold is_wchar. do 2 (split; [lia|]).
  destruct (surrogate_bits (0xD800 + (c - 0x10000) / 1024)) as [-> ->]; [lia|].
  destruct (surrogate_bits (0xDC00 + (c - 0x10000) mod 1024)) as [-> ->]; [lia|].
  rewrite !bool_decide_eq_true, !bool_decide_eq_false. lia.
Qed.

Lemma parse_step_scalar c result :
  scalar c → fold_left parse_step (utf16_units c) (result, []) = (result ++ [utf16_units c], []).
Proof.
  intros Hs. destruct (Z_lt_le_dec c 0x10000) as [Hc|Hc].
  - destruct (utf16_units_bmp c Hs Hc) as (-> & El & Et). cbn. by rewrite El, Et.
  - destruct (utf16_units_pair c Hs Hc) as (l & t & -> & _ & _ & El & Et & El' & Et').
    cbn. rewrite El. cbn. by rewrite El', Et'.
Qed.

Lemma ParseNext_scalar c rest : scalar c → ParseNext (utf16_units c ++ rest) = utf16_units c.
Proof.
  intros Hs. destruct (Z_lt_le_dec c 0x10000) as [Hc|Hc].
  - destruct (utf16_units_bmp c Hs Hc) as (-> & El & Et). cbn. by rewrite El, Et.
  - destruct (utf16_units_pair c Hs Hc) as (l & t & -> & _ & _ & El & Et & El' & Et').
    cbn. by rewrite El, Et'.
Qed.

(** The text of a list of code points. *)
Definition utf16_encode (cs : list Z) : wstring := cs ≫= utf16_units.

Lemma utf16_encode_cons c cs : utf16_encode (c :: cs) = utf16_units c ++ utf16_encode cs.
Proof. done. Qed.

Lemma length_units c : (1 <= length (utf16_units c))%nat.
Proof. unfold utf16_units. destruct (_ <? _); cbn; lia. Qed.

Lemma Parse_encode cs : Forall scalar cs → Parse (utf16_encode cs) = utf16_units <$> cs.
Proof.
  intros Hcs. unfold Parse.
  assert (∀ result, fold_left parse_step (utf16_encode cs) (result, [])
    = (result ++ (utf16_units <$> cs), [])) as ->; [|done].
  induction Hcs as [|c cs Hc _ IH]; intros result; [by rewrite app_nil_r|].
  cbn [utf16_encode mbind list_bind]. rewrite fold_left_app, parse_step_scalar by done.
  unfold utf16_encode in IH. rewrite IH, <-app_assoc. done.
Qed.

(** What [ParseNext] returns: a single unit that is no surrogate, a pair, or the
    replacement character. *)
Lemma ParseNext_length wstr : (1 <= length (ParseNext wstr) <= 2)%nat.
Proof.
  induction wstr as [|w wstr IH]; [cbn; lia|]. cbn [ParseNext].
  destruct (IsLeadingSurrogate w), (IsTrailingSurrogate w); try done; try (cbn; lia);
    destruct wstr as [|w' wstr]; try done; destruct (IsTrailingSurrogate w'); try done; cbn; lia.
Qed.

(** A leading surrogate is kept across other characters: it is put together with
    a trailing one that does not follow it. *)
Lemma Parse_pairs_across :
  Parse [0xD83D; 65; 0xDE00] = [[65]; [0xD83D; 0xDE00]].
Proof. reflexivity. Qed.
