(* ===== verification/CodepointWidth.v ===== *)
(** The width of code points: [CodepointWidthDetector] of
    [src/src/types/CodepointWidthDetector.cpp] with its table, and
    [GetQuickCharWidth] of [src/src/types/convert.cpp].

    The fallback, which asks the font, is a function of the embedding program;
    its answers are cached until the font changes. *)

From S2P Require Import Prelude Utf16.
From stdpp Require Import gmap.

#[local] Open Scope Z_scope.

Inductive CodepointWidth := Narrow | Wide | Ambiguous | Invalid.

#[global] Instance CodepointWidth_eq_dec : EqDecision CodepointWidth.
Proof. solve_decision. Defined.

Record UnicodeRange := mkRange { lowerBound : Z; upperBound : Z; rangeWidth : CodepointWidth }.

Definition s_wideAndAmbiguousTable_low : list UnicodeRange :=
  [ mkRange 0xa1 0xa1 Ambiguous; mkRange 0xa4 0xa4 Ambiguous;
    mkRange 0xa7 0xa8 Ambiguous; mkRange 0xaa 0xaa Ambiguous;
    mkRange 0xad 0xae Ambiguous; mkRange 0xb0 0xb4 Ambiguous;
    mkRange 0xb6 0xba Ambiguous; mkRange 0xbc 0xbf Ambiguous;
    mkRange 0xc6 0xc6 Ambiguous; mkRange 0xd0 0xd0 Ambiguous;
    mkRange 0xd7 0xd8 Ambiguous; mkRange 0xde 0xe1 Ambiguous;
    mkRange 0xe6 0xe6 Ambiguous; mkRange 0xe8 0xea Ambiguous;
    mkRange 0xec 0xed Ambiguous; mkRange 0xf0 0xf0 Ambiguous;
    mkRange 0xf2 0xf3 Ambiguous; mkRange 0xf7 0xfa Ambiguous;
    mkRange 0xfc 0xfc Ambiguous; mkRange 0xfe 0xfe Ambiguous;
    mkRange 0x101 0x101 Ambiguous; mkRange 0x111 0x111 Ambiguous;
    mkRange 0x113 0x113 Ambiguous; mkRange 0x11b 0x11b Ambiguous;
    mkRange 0x126 0x127 Ambiguous; mkRange 0x12b 0x12b Ambiguous;
    mkRange 0x131 0x133 Ambiguous; mkRange 0x138 0x138 Ambiguous;
    mkRange 0x13f 0x142 Ambiguous; mkRange 0x144 0x144 Ambiguous;
    mkRange 0x148 0x14b Ambiguous; mkRange 0x14d 0x14d Ambiguous;
    mkRange 0x152 0x153 Ambiguous; mkRange 0x166 0x167 Ambiguous;
    mkRange 0x16b 0x16b Ambiguous; mkRange 0x1ce 0x1ce Ambiguous;
    mkRange 0x1d0 0x1d0 Ambiguous; mkRange 0x1d2 0x1d2 Ambiguous;
    mkRange 0x1d4 0x1d4 Ambiguous; mkRange 0x1d6 0x1d6 Ambiguous;
    mkRange 0x1d8 0x1d8 Ambiguous; mkRange 0x1da 0x1da Ambiguous;
    mkRange 0x1dc 0x1dc Ambiguous; mkRange 0x251 0x251 Ambiguous;
    mkRange 0x261 0x261 Ambiguous; mkRange 0x2c4 0x2c4 Ambiguous;
    mkRange 0x2c7 0x2c7 Ambiguous; mkRange 0x2c9 0x2cb Ambiguous;
    mkRange 0x2cd 0x2cd Ambiguous; mkRange 0x2d0 0x2d0 Ambiguous;
    mkRange 0x2d8 0x2db Ambiguous; mkRange 0x2dd 0x2dd Ambiguous;
    mkRange 0x2df 0x2df Ambiguous; mkRange 0x300 0x36f Ambiguous;
    mkRange 0x391 0x3a1 Ambiguous; mkRange 0x3a3 0x3a9 Ambiguous;
    mkRange 0x3b1 0x3c1 Ambiguous; mkRange 0x3c3 0x3c9 Ambiguous;
    mkRange 0x401 0x401 Ambiguous; mkRange 0x410 0x44f Ambiguous;
    mkRange 0x451 0x451 Ambiguous; mkRange 0x1100 0x115f Wide;
    mkRange 0x2010 0x2010 Ambiguous; mkRange 0x2013 0x2016 Ambiguous;
    mkRange 0x2018 0x2019 Ambiguous; mkRange 0x201c 0x201d Ambiguous;
    mkRange 0x2020 0x2022 Ambiguous; mkRange 0x2024 0x2027 Ambiguous;
    mkRange 0x2030 0x2030 Ambiguous; mkRange 0x2032 0x2033 Ambiguous;
    mkRange 0x2035 0x2035 Ambiguous; mkRange 0x203b 0x203b Ambiguous;
    mkRange 0x203e 0x203e Ambiguous; mkRange 0x2074 0x2074 Ambiguous;
    mkRange 0x207f 0x207f Ambiguous; mkRange 0x2081 0x2084 Ambiguous;
    mkRange 0x20ac 0x20ac Ambiguous; mkRange 0x2103 0x2103 Ambiguous;
    mkRange 0x2105 0x2105 Ambiguous; mkRange 0x2109 0x2109 Ambiguous;
    mkRange 0x2113 0x2113 Ambiguous; mkRange 0x2116 0x2116 Ambiguous;
    mkRange 0x2121 0x2122 Ambiguous; mkRange 0x2126 0x2126 Ambiguous;
    mkRange 0x212b 0x212b Ambiguous; mkRange 0x2153 0x2154 Ambiguous;
    mkRange 0x215b 0x215e Ambiguous; mkRange 0x2160 0x216b Ambiguous;
    mkRange 0x2170 0x2179 Ambiguous; mkRange 0x2189 0x2189 Ambiguous;
    mkRange 0x2190 0x2199 Ambiguous; mkRange 0x21b8 0x21b9 Ambiguous;
    mkRange 0x21d2 0x21d2 Ambiguous; mkRange 0x21d4 0x21d4 Ambiguous;
    mkRange 0x21e7 0x21e7 Ambiguous; mkRange 0x2200 0x2200 Ambiguous;
    mkRange 0x2202 0x2203 Ambiguous; mkRange 0x2207 0x2208 Ambiguous;
    mkRange 0x220b 0x220b Ambiguous; mkRange 0x220f 0x220f Ambiguous;
    mkRange 0x2211 0x2211 Ambiguous; mkRange 0x2215 0x2215 Ambiguous;
    mkRange 0x221a 0x221a Ambiguous; mkRange 0x221d 0x2220 Ambiguous;
    mkRange 0x2223 0x2223 Ambiguous; mkRange 0x2225 0x2225 Ambiguous;
    mkRange 0x2227 0x222c Ambiguous; mkRange 0x222e 0x222e Ambiguous;
    mkRange 0x2234 0x2237 Ambiguous; mkRange 0x223c 0x223d Ambiguous;
    mkRange 0x2248 0x2248 Ambiguous; mkRange 0x224c 0x224c Ambiguous;
    mkRange 0x2252 0x2252 Ambiguous; mkRange 0x2260 0x2261 Ambiguous;
    mkRange 0x2264 0x2267 Ambiguous; mkRange 0x226a 0x226b Ambiguous;
    mkRange 0x226e 0x226f Ambiguous; mkRange 0x2282 0x2283 Ambiguous;
    mkRange 0x2286 0x2287 Ambiguous; mkRange 0x2295 0x2295 Ambiguous;
    mkRange 0x2299 0x2299 Ambiguous; mkRange 0x22a5 0x22a5 Ambiguous;
    mkRange 0x22bf 0x22bf Ambiguous; mkRange 0x2312 0x2312 Ambiguous;
    mkRange 0x231a 0x231b Wide; mkRange 0x2329 0x232a Wide;
    mkRange 0x23e9 0x23ec Wide; mkRange 0x23f0 0x23f0 Wide;
    mkRange 0x23f3 0x23f3 Wide; mkRange 0x2460 0x24e9 Ambiguous;
    mkRange 0x24eb 0x24ff Ambiguous; mkRange 0x2500 0x259f Narrow;
    mkRange 0x25a0 0x25a1 Ambiguous; mkRange 0x25a3 0x25a9 Ambiguous;
    mkRange 0x25b2 0x25b3 Ambiguous; mkRange 0x25b6 0x25b7 Ambiguous;
    mkRange 0x25bc 0x25bd Ambiguous; mkRange 0x25c0 0x25c1 Ambiguous;
    mkRange 0x25c6 0x25c8 Ambiguous; mkRange 0x25cb 0x25cb Ambiguous;
    mkRange 0x25ce 0x25d1 Ambiguous; mkRange 0x25e2 0x25e5 Ambiguous;
    mkRange 0x25ef 0x25ef Ambiguous; mkRange 0x25fd 0x25fe Wide;
    mkRange 0x2605 0x2606 Ambiguous; mkRange 0x2609 0x2609 Ambiguous;
    mkRange 0x260e 0x260f Ambiguous; mkRange 0x2614 0x2615 Wide;
    mkRange 0x261c 0x261c Ambiguous; mkRange 0x261e 0x261e Ambiguous ].

Definition s_wideAndAmbiguousTable_high : list UnicodeRange :=
  [ mkRange 0x2640 0x2640 Ambiguous; mkRange 0x2642 0x2642 Ambiguous;
    mkRange 0x2648 0x2653 Wide; mkRange 0x2660 0x2661 Ambiguous;
    mkRange 0x2663 0x2665 Ambiguous; mkRange 0x2667 0x266a Ambiguous;
    mkRange 0x266c 0x266d Ambiguous; mkRange 0x266f 0x266f Ambiguous;
    mkRange 0x267f 0x267f Wide; mkRange 0x2693 0x2693 Wide;
    mkRange 0x269e 0x269f Ambiguous; mkRange 0x26a1 0x26a1 Wide;
    mkRange 0x26aa 0x26ab Wide; mkRange 0x26bd 0x26be Wide;
    mkRange 0x26bf 0x26bf Ambiguous; mkRange 0x26c4 0x26c5 Wide;
    mkRange 0x26c6 0x26cd Ambiguous; mkRange 0x26ce 0x26ce Wide;
    mkRange 0x26cf 0x26d3 Ambiguous; mkRange 0x26d4 0x26d4 Wide;
    mkRange 0x26d5 0x26e1 Ambiguous; mkRange 0x26e3 0x26e3 Ambiguous;
    mkRange 0x26e8 0x26e9 Ambiguous; mkRange 0x26ea 0x26ea Wide;
    mkRange 0x26eb 0x26f1 Ambiguous; mkRange 0x26f2 0x26f3 Wide;
    mkRange 0x26f4 0x26f4 Ambiguous; mkRange 0x26f5 0x26f5 Wide;
    mkRange 0x26f6 0x26f9 Ambiguous; mkRange 0x26fa 0x26fa Wide;
    mkRange 0x26fb 0x26fc Ambiguous; mkRange 0x26fd 0x26fd Wide;
    mkRange 0x26fe 0x26ff Ambiguous; mkRange 0x2705 0x2705 Wide;
    mkRange 0x270a 0x270b Wide; mkRange 0x2728 0x2728 Wide;
    mkRange 0x273d 0x273d Ambiguous; mkRange 0x274c 0x274c Wide;
    mkRange 0x274e 0x274e Wide; mkRange 0x2753 0x2755 Wide;
    mkRange 0x2757 0x2757 Wide; mkRange 0x2776 0x277f Ambiguous;
    mkRange 0x2795 0x2797 Wide; mkRange 0x27b0 0x27b0 Wide;
    mkRange 0x27bf 0x27bf Wide; mkRange 0x2b1b 0x2b1c Wide;
    mkRange 0x2b50 0x2b50 Wide; mkRange 0x2b55 0x2b55 Wide;
    mkRange 0x2b56 0x2b59 Ambiguous; mkRange 0x2e80 0x2e99 Wide;
    mkRange 0x2e9b 0x2ef3 Wide; mkRange 0x2f00 0x2fd5 Wide;
    mkRange 0x2ff0 0x2ffb Wide; mkRange 0x3000 0x303e Wide;
    mkRange 0x3041 0x3096 Wide; mkRange 0x3099 0x30ff Wide;
    mkRange 0x3105 0x312f Wide; mkRange 0x3131 0x318e Wide;
    mkRange 0x3190 0x31e3 Wide; mkRange 0x31f0 0x321e Wide;
    mkRange 0x3220 0x3247 Wide; mkRange 0x3248 0x324f Ambiguous;
    mkRange 0x3250 0x4dbf Wide; mkRange 0x4dc0 0x4dff Narrow;
    mkRange 0x4e00 0xa48c Wide; mkRange 0xa490 0xa4c6 Wide;
    mkRange 0xa960 0xa97c Wide; mkRange 0xac00 0xd7a3 Wide;
    mkRange 0xe000 0xf8ff Ambiguous; mkRange 0xf900 0xfaff Wide;
    mkRange 0xfe00 0xfe0f Ambiguous; mkRange 0xfe10 0xfe19 Wide;
    mkRange 0xfe20 0xfe2f Narrow; mkRange 0xfe30 0xfe52 Wide;
    mkRange 0xfe54 0xfe66 Wide; mkRange 0xfe68 0xfe6b Wide;
    mkRange 0xff01 0xff60 Wide; mkRange 0xffe0 0xffe6 Wide;
    mkRange 0xfffd 0xfffd Ambiguous; mkRange 0x16fe0 0x16fe4 Wide;
    mkRange 0x16ff0 0x16ff1 Wide; mkRange 0x17000 0x187f7 Wide;
    mkRange 0x18800 0x18cd5 Wide; mkRange 0x18d00 0x18d08 Wide;
    mkRange 0x1b000 0x1b11e Wide; mkRange 0x1b150 0x1b152 Wide;
    mkRange 0x1b164 0x1b167 Wide; mkRange 0x1b170 0x1b2fb Wide;
    mkRange 0x1f004 0x1f004 Wide; mkRange 0x1f0cf 0x1f0cf Wide;
    mkRange 0x1f100 0x1f10a Ambiguous; mkRange 0x1f110 0x1f12d Ambiguous;
    mkRange 0x1f130 0x1f169 Ambiguous; mkRange 0x1f170 0x1f18d Ambiguous;
    mkRange 0x1f18e 0x1f18e Wide; mkRange 0x1f18f 0x1f190 Ambiguous;
    mkRange 0x1f191 0x1f19a Wide; mkRange 0x1f19b 0x1f1ac Ambiguous;
    mkRange 0x1f1e6 0x1f202 Wide; mkRange 0x1f210 0x1f23b Wide;
    mkRange 0x1f240 0x1f248 Wide; mkRange 0x1f250 0x1f251 Wide;
    mkRange 0x1f260 0x1f265 Wide; mkRange 0x1f300 0x1f320 Wide;
    mkRange 0x1f32d 0x1f335 Wide; mkRange 0x1f337 0x1f37c Wide;
    mkRange 0x1f37e 0x1f393 Wide; mkRange 0x1f3a0 0x1f3ca Wide;
    mkRange 0x1f3cf 0x1f3d3 Wide; mkRange 0x1f3e0 0x1f3f0 Wide;
    mkRange 0x1f3f4 0x1f3f4 Wide; mkRange 0x1f3f8 0x1f43e Wide;
    mkRange 0x1f440 0x1f440 Wide; mkRange 0x1f442 0x1f4fc Wide;
    mkRange 0x1f4ff 0x1f53d Wide; mkRange 0x1f54b 0x1f54e Wide;
    mkRange 0x1f550 0x1f567 Wide; mkRange 0x1f57a 0x1f57a Wide;
    mkRange 0x1f595 0x1f596 Wide; mkRange 0x1f5a4 0x1f5a4 Wide;
    mkRange 0x1f5fb 0x1f64f Wide; mkRange 0x1f680 0x1f6c5 Wide;
    mkRange 0x1f6cc 0x1f6cc Wide; mkRange 0x1f6d0 0x1f6d2 Wide;
    mkRange 0x1f6d5 0x1f6d7 Wide; mkRange 0x1f6eb 0x1f6ec Wide;
    mkRange 0x1f6f4 0x1f6fc Wide; mkRange 0x1f7e0 0x1f7eb Wide;
    mkRange 0x1f90c 0x1f93a Wide; mkRange 0x1f93c 0x1f945 Wide;
    mkRange 0x1f947 0x1f978 Wide; mkRange 0x1f97a 0x1f9cb Wide;
    mkRange 0x1f9cd 0x1f9ff Wide; mkRange 0x1fa70 0x1fa74 Wide;
    mkRange 0x1fa78 0x1fa7a Wide; mkRange 0x1fa80 0x1fa86 Wide;
    mkRange 0x1fa90 0x1faa8 Wide; mkRange 0x1fab0 0x1fab6 Wide;
    mkRange 0x1fac0 0x1fac2 Wide; mkRange 0x1fad0 0x1fad6 Wide;
    mkRange 0x20000 0x2fffd Wide; mkRange 0x30000 0x3fffd Wide;
    mkRange 0xe0100 0xe01ef Ambiguous; mkRange 0xf0000 0xffffd Ambiguous;
    mkRange 0x100000 0x10fffd Ambiguous ].

Definition s_wideAndAmbiguousTable : list UnicodeRange :=
  s_wideAndAmbiguousTable_low ++ s_wideAndAmbiguousTable_high.

(** ** Lookup *)

(** [std::lower_bound]: the interval that may hold the answer is halved until it
    is empty; [before] is [operator<] with the searched value. *)
Fixpoint lower_bound {A} (before : A → bool) (l : list A) (fuel first count : nat) : nat :=
  match fuel with
  | O => first
  | S fuel =>
      if decide (count = 0)%nat then first
      else
        let step := (count / 2)%nat in
        match l !! (first + step)%nat with
        | Some x =>
            if before x then lower_bound before l fuel (first + step + 1) (count - (step + 1))
            else lower_bound before l fuel first step
        | None => first
        end
  end.

Definition GetQuickCharWidth (wch : Z) : CodepointWidth :=
  if (0x20 <=? wch) && (wch <=? 0x7e) then Narrow else Invalid.

(** [glyph.at] throws when there is no such character. *)
Definition _extractCodepoint (glyph : wstring) : exn + Z :=
  match glyph with
  | [wch] => inr wch
  | w0 :: w1 :: _ =>
      inr (u32 (Z.lor (u32 (Z.shiftl (Z.land w0 0x3FF) 10)) (Z.land w1 0x3FF) + 0x10000))
  | [] => inl OutOfRange
  end.

Definition lookup_range (codepoint : Z) : CodepointWidth :=
  let table := s_wideAndAmbiguousTable in
  let it := lower_bound (λ r, upperBound r <? codepoint) table (length table) 0 (length table) in
  match table !! it with
  | Some r =>
      if (codepoint >=? lowerBound r) && (codepoint <=? upperBound r) then rangeWidth r else Narrow
  | None => Narrow
  end.

Definition _lookupGlyphWidth (glyph : wstring) : exn + CodepointWidth :=
  match glyph with
  | [] => inr Invalid
  | _ => codepoint ← _extractCodepoint glyph; inr (lookup_range codepoint)
  end.

(** ** The detector *)

Record CodepointWidthDetector := mkDetector {
  _fallbackCache : gmap (list Z) bool;
  _pfnFallbackMethod : option (list Z → bool)
}.

Definition Detector_init : CodepointWidthDetector := mkDetector ∅ None.

Definition SetFallbackMethod (f : option (list Z → bool)) (d : CodepointWidthDetector)
    : CodepointWidthDetector := mkDetector (_fallbackCache d) f.

Definition NotifyFontChanged (d : CodepointWidthDetector) : CodepointWidthDetector :=
  mkDetector ∅ (_pfnFallbackMethod d).

Definition _checkFallbackViaCache (pfn : list Z → bool) (glyph : wstring)
    : prog CodepointWidthDetector bool :=
  it ← gets (λ d, _fallbackCache d !! glyph);
  match it with
  | None =>
      let result := pfn glyph in
      modify (λ d, mkDetector (<[glyph := result]> (_fallbackCache d)) (_pfnFallbackMethod d));;
      mret result
  | Some result => mret result
  end.

(** An exception of the lookup is logged and makes the glyph wide. *)
Definition _lookupGlyphWidthWithCache (glyph : wstring) : prog CodepointWidthDetector CodepointWidth :=
  match _lookupGlyphWidth glyph with
  | inl _ => mret Wide
  | inr Ambiguous =>
      fallback ← gets _pfnFallbackMethod;
      match fallback with
      | Some pfn => b ← _checkFallbackViaCache pfn glyph; mret (if (b : bool) then Wide else Ambiguous)
      | None => mret Ambiguous
      end
  | inr width => mret width
  end.

(** Empty text is an invalid argument. *)
Definition GetWidth (glyph : wstring) : prog CodepointWidthDetector CodepointWidth :=
  match glyph with
  | [] => throw InvalidArg
  | [wch] =>
      match GetQuickCharWidth wch with
      | Invalid => _lookupGlyphWidthWithCache glyph
      | Ambiguous =>
          fallback ← gets _pfnFallbackMethod;
          match fallback with
          | Some pfn =>
              b ← _checkFallbackViaCache pfn glyph; mret (if (b : bool) then Wide else Ambiguous)
          | None => _lookupGlyphWidthWithCache glyph
          end
      | width => mret width
      end
  | _ => _lookupGlyphWidthWithCache glyph
  end.

Definition IsWide (glyph : wstring) : prog CodepointWidthDetector bool :=
  w ← GetWidth glyph; mret (bool_decide (w = Wide)).

(** ** Facts *)

(** On a list whose elements before the searched value come first, the halving
    search finds the first element that is not before it. *)
Lemma lower_bound_spec {A} (before : A → bool) (l : list A) fuel first count :
  (∀ i j x y, (i <= j)%nat → l !! i = Some x → l !! j = Some y → before y = true → before x = true) →
  (first + count <= length l)%nat → (count <= fuel)%nat →
  (∀ i x, (i < first)%nat → l !! i = Some x → before x = true) →
  (∀ i x, (first + count <= i)%nat → l !! i = Some x → before x = false) →
  let k := lower_bound before l fuel first count in
  (∀ i x, (i < k)%nat → l !! i = Some x → before x = true)
  ∧ (∀ i x, (k <= i)%nat → l !! i = Some x → before x = false).
Proof.
  intros Hpart. revert first count. induction fuel as [|fuel IH]; intros first count Hlen Hfuel Hlo Hhi.
  - cbn. replace (first + count)%nat with first in Hhi by lia. done.
  - cbn [lower_bound]. destruct (decide (count = 0)%nat) as [->|Hc].
    { rewrite Nat.add_0_r in Hhi. done. }
    pose proof (Nat.div_lt count 2 ltac:(lia) ltac:(lia)). set (step := (count / 2)%nat) in *.
    destruct (lookup_lt_is_Some_2 l (first + step)) as [x Hx]; [lia|]. rewrite Hx.
    destruct (before x) eqn:Hb; apply IH; try lia; try done.
    + intros i y Hi Hy. apply (Hpart i (first + step)%nat y x); [lia|done..].
    + intros i y Hi Hy. apply (Hhi i); [lia|done].
    + intros i y Hi Hy. destruct (before y) eqn:Hby; [|done].
      rewrite (Hpart (first + step)%nat i x y) in Hb; [done|lia|done..].
Qed.

(** The ranges are in order and do not overlap. *)
Fixpoint ranges_sorted (after : Z) (l : list UnicodeRange) : bool :=
  match l with
  | [] => true
  | r :: l' => (after <? lowerBound r) && (lowerBound r <=? upperBound r) && ranges_sorted (upperBound r) l'
  end.

Lemma ranges_sorted_at after l i r :
  ranges_sorted after l = true → l !! i = Some r → after < lowerBound r <= upperBound r.
Proof.
  revert after i. induction l as [|r' l IH]; intros after i Hs Hi; [done|]. cbn in Hs. zify_bool.
  destruct i as [|i]; [by simplify_eq/=|]. apply (IH (upperBound r') i) in Hi; [lia|done].
Qed.

Lemma ranges_sorted_lookup after l i j r r' :
  ranges_sorted after l = true → l !! i = Some r → l !! j = Some r' → (i < j)%nat →
  upperBound r < lowerBound r'.
Proof.
  revert after i j. induction l as [|r0 l IH]; intros after i j Hs Hi Hj Hij; [done|].
  cbn in Hs. zify_bool. destruct j as [|j]; [lia|]. destruct i as [|i]; cbn in Hi, Hj; simplify_eq.
  - eapply ranges_sorted_at in Hj; [|done]. lia.
  - eapply (IH _ i j); [done..|lia].
Qed.

Lemma table_sorted : ranges_sorted (-1) s_wideAndAmbiguousTable = true.
Proof. vm_compute. reflexivity. Qed.

(** The search of the table finds the range that holds the code point. *)
Lemma lookup_range_spec c :
  (∀ r, r ∈ s_wideAndAmbiguousTable → lowerBound r <= c <= upperBound r → lookup_range c = rangeWidth r)
  ∧ (Forall (λ r, ¬ lowerBound r <= c <= upperBound r) s_wideAndAmbiguousTable → lookup_range c = Narrow).
Proof.
  unfold lookup_range. pose proof table_sorted as Hs. set (l := s_wideAndAmbiguousTable) in *.
  clearbody l. set (before := λ r, upperBound r <? c).
  destruct (lower_bound_spec before l (length l) 0 (length l)) as [Hlo Hhi]; [|lia|lia|lia| |].
  { intros i j x y Hij Hx Hy Hb. unfold before in *. destruct (decide (i = j)) as [->|]; [by simplify_eq|].
    pose proof (ranges_sorted_lookup _ _ _ _ _ _ Hs Hx Hy ltac:(lia)).
    pose proof (ranges_sorted_at _ _ _ _ Hs Hy). lia. }
  { intros i x Hi Hx%lookup_lt_Some. lia. }
  set (k := lower_bound before l (length l) 0 (length l)) in *. clearbody k. split.
  - intros r [i Hi]%list_elem_of_lookup Hc.
    assert (i = k) as ->; [|rewrite Hi; destruct (_ && _) eqn:Eb; [done|lia]].
    destruct (Nat.lt_trichotomy i k) as [Hlt|[|Hgt]]; [|done|].
    + specialize (Hlo i r Hlt Hi). unfold before in Hlo. lia.
    + destruct (lookup_lt_is_Some_2 l k) as [x Hx]; [apply lookup_lt_Some in Hi; lia|].
      pose proof (ranges_sorted_lookup _ _ _ _ _ _ Hs Hx Hi Hgt).
      pose proof (ranges_sorted_at _ _ _ _ Hs Hx). specialize (Hhi k x ltac:(lia) Hx).
      unfold before in Hhi. lia.
  - intros Hno. destruct (l !! k) as [r|] eqn:Hk; [|done].
    pose proof (Forall_lookup_1 _ _ _ _ Hno Hk) as Hr. cbn in Hr. destruct (_ && _) eqn:Eb; [lia|done].
Qed.

(** The units of a code point give it back. *)
Lemma extract_units c : scalar c → _extractCodepoint (utf16_units c) = inr c.
Proof.
  intros Hs. unfold utf16_units. destruct (Z.ltb_spec c 0x10000) as [|Hc]; [done|].
  cbn [_extractCodepoint]. f_equal. pose proof (Z.div_mod (c - 0x10000) 1024 ltac:(lia)) as Hdm.
  pose proof (Z.mod_pos_bound (c - 0x10000) 1024 ltac:(lia)).
  assert (0 <= (c - 0x10000) / 1024 < 1024).
  { unfold scalar in Hs. split; [apply Z.div_pos; lia|apply Z.div_lt_upper_bound; lia]. }
  generalize dependent ((c - 0x10000) / 1024). generalize dependent ((c - 0x10000) mod 1024).
  intros t Ht l Hdm Hl. change 0x3FF with (Z.ones 10). rewrite !Z.land_ones by lia.
  change (2 ^ 10) with 1024.
  rewrite <-(Z.mod_unique (0xD800 + l) 1024 54 l), <-(Z.mod_unique (0xDC00 + t) 1024 55 t) by lia.
  assert (Z.shiftl l 10 = l * 1024) as Hsh by (rewrite Z.shiftl_mul_pow2; lia).
  rewrite (wrapu_small 32 (Z.shiftl l 10)) by lia. rewrite lor_shiftl_add by lia.
  change (2 ^ 10) with 1024. unfold scalar in Hs. rewrite wrapu_small by lia. lia.
Qed.

(** *** The cache *)

(** The width without a cache, for a given fallback. *)
Definition width_of (f : list Z → bool) (glyph : wstring) : CodepointWidth :=
  let looked_up :=
    match _lookupGlyphWidth glyph with
    | inl _ => Wide
    | inr Ambiguous => if f glyph then Wide else Ambiguous
    | inr width => width
    end in
  match glyph with
  | [wch] => if (0x20 <=? wch) && (wch <=? 0x7e) then Narrow else looked_up
  | _ => looked_up
  end.

(** All answers in the cache are those of the fallback. *)
Definition cache_ok (f : list Z → bool) (d : CodepointWidthDetector) : Prop :=
  _pfnFallbackMethod d = Some f ∧ map_Forall (λ glyph b, b = f glyph) (_fallbackCache d).

Section cache.
Context (f : list Z → bool).

Lemma checkFallback_ok glyph d :
  cache_ok f d → wp (_checkFallbackViaCache f glyph) (λ b d', b = f glyph ∧ cache_ok f d') d.
Proof.
  intros [Hf Hc]. unfold _checkFallbackViaCache. repeat wp_step.
  destruct (_fallbackCache d !! glyph) as [b|] eqn:E.
  - apply wp_ret. split; [by apply (Hc glyph)|done].
  - repeat wp_step. split; [done|]. split; [done|]. cbn. by apply map_Forall_insert_2.
Qed.

Lemma lookupWithCache_ok glyph d :
  cache_ok f d →
  wp (_lookupGlyphWidthWithCache glyph) (λ w d',
    w = match _lookupGlyphWidth glyph with
        | inl _ => Wide
        | inr Ambiguous => if f glyph then Wide else Ambiguous
        | inr width => width
        end ∧ cache_ok f d') d.
Proof.
  intros Hd. unfold _lookupGlyphWidthWithCache.
  destruct (_lookupGlyphWidth glyph) as [e|[| | |]]; try by apply wp_ret.
  repeat wp_step. rewrite (proj1 Hd). wp_step. eapply wp_mono; [by apply checkFallback_ok|].
  intros b d' [-> ?]. by apply wp_ret.
Qed.

Lemma GetWidth_ok glyph d :
  glyph ≠ [] → cache_ok f d → wp (GetWidth glyph) (λ w d', w = width_of f glyph ∧ cache_ok f d') d.
Proof.
  intros Hne Hd. unfold GetWidth, width_of. destruct glyph as [|w [|w' l]]; [done| |].
  - unfold GetQuickCharWidth. destruct (_ && _); [by apply wp_ret|]. by apply lookupWithCache_ok.
  - by apply lookupWithCache_ok.
Qed.
End cache.

(** A list of questions to one detector. *)
Definition widths (glyphs : list wstring) : prog CodepointWidthDetector (list CodepointWidth) :=
  foldr (λ glyph rest, w ← GetWidth glyph; ws ← rest; mret (w :: ws)) (mret []) glyphs.

(** The cache of the fallback does not show: however many widths are asked for
    after a font change, each answer is the one that the table and the fallback
    give, where the binary search finds the one range of the table that holds
    the code point.  Asking never fails for text that is not empty. *)
Theorem width_cache_transparent (f : list Z → bool) (d : CodepointWidthDetector) (glyphs : list wstring) :
  Forall (λ glyph, glyph ≠ []) glyphs →
  wp (widths glyphs) (λ ws _, ws = width_of f <$> glyphs) (NotifyFontChanged (SetFallbackMethod (Some f) d)).
Proof.
  intros Hg. assert (cache_ok f (NotifyFontChanged (SetFallbackMethod (Some f) d))) as Hd.
  { split; [done|]. cbn. apply map_Forall_empty. }
  revert Hd. generalize (NotifyFontChanged (SetFallbackMethod (Some f) d)). clear d.
  induction Hg as [|g gs Hne _ IH]; intros d Hd; cbn [widths foldr]; [by apply wp_ret|].
  wp_step. eapply wp_mono; [by apply (GetWidth_ok f)|]. intros w d' [-> Hd'].
  wp_step. eapply wp_mono; [by apply IH|]. intros ws d'' ->. by apply wp_ret.
Qed.

(** The width of a code point outside ASCII is the one of the only range of the
    table that holds its value, narrow when there is none; for an ambiguous one
    the font decides. *)
Theorem width_of_codepoint (f : list Z → bool) (c : Z) :
  scalar c → ¬ 0x20 <= c <= 0x7e →
  (∀ r, r ∈ s_wideAndAmbiguousTable → lowerBound r <= c <= upperBound r →
     width_of f (utf16_units c)
     = if decide (rangeWidth r = Ambiguous) then if f (utf16_units c) then Wide else Ambiguous
       else rangeWidth r)
  ∧ (Forall (λ r, ¬ lowerBound r <= c <= upperBound r) s_wideAndAmbiguousTable →
     width_of f (utf16_units c) = Narrow).
Proof.
  intros Hs Hna.
  assert (width_of f (utf16_units c)
    = match lookup_range c with Ambiguous => if f (utf16_units c) then Wide else Ambiguous | w => w end) as ->.
  { pose proof (extract_units c Hs) as E. unfold width_of, _lookupGlyphWidth.
    destruct (utf16_units c) as [|w [|w' l]] eqn:Eu; [done| |].
    - cbn in E. simplify_eq. destruct (Z.leb_spec 0x20 c), (Z.leb_spec c 0x7e); try lia; cbn; by destruct (lookup_range c).
    - rewrite E. cbn. by destruct (lookup_range c). }
  destruct (lookup_range_spec c) as [H1 H2]. split.
  - intros r Hr Hc. rewrite (H1 r Hr Hc). by destruct (rangeWidth r).
  - intros Hno. by rewrite (H2 Hno).
Qed.

Lemma width_cache_transparent_witness :
  wp (widths [[0xA1]; [65]; [0x4E00]; [0xA1]; [0xD83D; 0xDE00]])
    (λ ws _, ws = [Wide; Narrow; Wide; Wide; Wide])
    (NotifyFontChanged (SetFallbackMethod (Some (λ _, true)) Detector_init)).
Proof.
  apply (width_cache_transparent (λ _, true) Detector_init
    [[0xA1]; [65]; [0x4E00]; [0xA1]; [0xD83D; 0xDE00]]). repeat constructor; discriminate.
Defined.

Lemma width_of_codepoint_witness :
  width_of (λ _, false) (utf16_units 0x1F600) = Wide.
Proof.
  destruct (width_of_codepoint (λ _, false) 0x1F600) as [H1 _]; [right; lia|lia|].
  refine (eq_trans (H1 (mkRange 0x1f5fb 0x1f64f Wide) _ _) _); [|cbn; lia|reflexivity].
  apply list_elem_of_In. vm_compute. tauto.
Defined.
