(* ===== verification/OutputCell.v ===== *)
(** Cells on their way into the text buffer: [DbcsAttribute.hpp],
    [OutputCellView], [OutputCell] and [OutputCellIterator] of
    [src/src/buffer/out].

    Views of text are the text itself.  The iterator's mode and the variant that
    holds its run are one inductive type, because the constructors fix the
    alternative of the variant together with the mode. *)

From S2P Require Import Prelude DispatchTypes TextColor TextAttribute Utf16.

(** ** Double-byte attributes *)

Inductive DbcsKind := Single | Leading | Trailing.

#[global] Instance DbcsKind_eq_dec : EqDecision DbcsKind.
Proof. solve_decision. Defined.

Record DbcsAttribute := mkDbcs { _attribute : DbcsKind; _glyphStored : bool }.

#[global] Instance DbcsAttribute_eq_dec : EqDecision DbcsAttribute.
Proof. solve_decision. Defined.

Definition Dbcs_default : DbcsAttribute := mkDbcs Single false.

Definition IsSingle (a : DbcsAttribute) : bool := bool_decide (_attribute a = Single).
Definition IsLeading (a : DbcsAttribute) : bool := bool_decide (_attribute a = Leading).
Definition IsTrailing (a : DbcsAttribute) : bool := bool_decide (_attribute a = Trailing).
Definition IsDbcs (a : DbcsAttribute) : bool := IsLeading a || IsTrailing a.
Definition IsGlyphStored (a : DbcsAttribute) : bool := _glyphStored a.

Definition SetGlyphStored (stored : bool) (a : DbcsAttribute) : DbcsAttribute :=
  mkDbcs (_attribute a) stored.
Definition SetSingle (a : DbcsAttribute) : DbcsAttribute := mkDbcs Single (_glyphStored a).
Definition SetLeading (a : DbcsAttribute) : DbcsAttribute := mkDbcs Leading (_glyphStored a).
Definition SetTrailing (a : DbcsAttribute) : DbcsAttribute := mkDbcs Trailing (_glyphStored a).
Definition Dbcs_Reset (a : DbcsAttribute) : DbcsAttribute := SetGlyphStored false (SetSingle a).

(** [operator==] ignores where the glyph is stored. *)
Definition Dbcs_eqb (a b : DbcsAttribute) : bool := bool_decide (_attribute a = _attribute b).

Definition GeneratePublicApiAttributeFormat (a : DbcsAttribute) : Z :=
  let w := if IsLeading a then Z.lor 0 COMMON_LVB_LEADING_BYTE else 0 in
  if IsTrailing a then Z.lor w COMMON_LVB_TRAILING_BYTE else w.

Definition FromPublicApiAttributeFormat (publicAttribute : Z) : exn + DbcsAttribute :=
  let both := Z.lor COMMON_LVB_LEADING_BYTE COMMON_LVB_TRAILING_BYTE in
  if Z.land publicAttribute both =? both then inl InvalidArg
  else inr
    (if WI_IsFlagSet publicAttribute COMMON_LVB_LEADING_BYTE then SetLeading Dbcs_default
     else if WI_IsFlagSet publicAttribute COMMON_LVB_TRAILING_BYTE then SetTrailing Dbcs_default
     else Dbcs_default).

(** ** Views and cells *)

Inductive TextAttributeBehavior := Stored | Current | StoredOnly.

#[global] Instance TextAttributeBehavior_eq_dec : EqDecision TextAttributeBehavior.
Proof. solve_decision. Defined.

Record OutputCellView := mkView {
  Chars : wstring;
  DbcsAttr : DbcsAttribute;
  TextAttr : TextAttribute;
  TextAttrBehavior : TextAttributeBehavior
}.

Definition Columns (v : OutputCellView) : Z :=
  if IsSingle (DbcsAttr v) then 1 else if IsLeading (DbcsAttr v) then 2
  else if IsTrailing (DbcsAttr v) then 1 else 1.

Definition InvalidTextAttribute : TextAttribute := TextAttribute_of_rgb INVALID_COLOR INVALID_COLOR.

Record OutputCell := mkCell {
  _text : wstring;
  _dbcsAttribute : DbcsAttribute;
  _textAttribute : TextAttribute;
  _behavior : TextAttributeBehavior
}.

Definition OutputCell_of_view (v : OutputCellView) : OutputCell :=
  mkCell (Chars v) (DbcsAttr v) (TextAttr v) (TextAttrBehavior v).

Definition OutputCell_behavior (charData : wstring) (a : DbcsAttribute) (b : TextAttributeBehavior)
    : exn + OutputCell :=
  match charData, b with
  | [], _ => inl InvalidArg
  | _, Stored => inl InvalidArg
  | _, _ => inr (mkCell charData a InvalidTextAttribute b)
  end.

Definition OutputCell_stored (charData : wstring) (a : DbcsAttribute) (t : TextAttribute)
    : exn + OutputCell :=
  match charData with
  | [] => inl InvalidArg
  | _ => inr (mkCell charData a t Stored)
  end.

(** [TextAttr] of a cell, which has none of its own in [Current] mode. *)
Definition OutputCell_TextAttr (c : OutputCell) : exn + TextAttribute :=
  match _behavior c with
  | Current => inl InvalidArg
  | _ => inr (_textAttribute c)
  end.

(** A legacy cell. *)
Record CHAR_INFO := mkCharInfo { UnicodeChar : Z; Attributes : Z }.

(** ** What the iterator asks for

    [GlyphWidth.hpp]: whether a glyph takes two columns. *)

Class GlyphWidth := { IsGlyphFullWidth : wstring → bool }.

Section iterator.
Context `{GlyphWidth} (d : LegacyDefaults).

(** ** Generating views *)

Definition lead_if (wide : bool) : DbcsAttribute :=
  if wide then SetLeading Dbcs_default else Dbcs_default.

Definition s_GenerateView_text (view : wstring) (attr : TextAttribute) (behavior : TextAttributeBehavior)
    : OutputCellView :=
  let glyph := ParseNext view in
  mkView glyph (lead_if (IsGlyphFullWidth glyph)) attr behavior.

Definition s_GenerateView_wchar (wch : Z) : OutputCellView :=
  mkView [wch] (lead_if (IsGlyphFullWidth [wch])) InvalidTextAttribute Current.

Definition s_GenerateView_attr (attr : TextAttribute) : OutputCellView :=
  mkView [] Dbcs_default attr StoredOnly.

Definition s_GenerateView_wchar_attr (wch : Z) (attr : TextAttribute) : OutputCellView :=
  mkView [wch] (lead_if (IsGlyphFullWidth [wch])) attr Stored.

Definition s_GenerateViewLegacyAttr (legacyAttr : Z) : OutputCellView :=
  s_GenerateView_attr (TextAttribute_of_legacy d (WI_ClearAllFlags legacyAttr COMMON_LVB_SBCSDBCS)).

Definition s_GenerateView_charinfo (c : CHAR_INFO) : OutputCellView :=
  let dbcsAttr :=
    if WI_IsFlagSet (Attributes c) COMMON_LVB_LEADING_BYTE then SetLeading Dbcs_default
    else if WI_IsFlagSet (Attributes c) COMMON_LVB_TRAILING_BYTE then SetTrailing Dbcs_default
    else Dbcs_default in
  mkView [UnicodeChar c] dbcsAttr (TextAttribute_of_legacy d (Attributes c)) Stored.

Definition s_GenerateView_cell (c : OutputCell) : exn + OutputCellView :=
  attr ← OutputCell_TextAttr c;
  inr (mkView (_text c) (_dbcsAttribute c) attr (_behavior c)).

(** ** The iterator *)

Inductive Mode :=
  | Loose (run : wstring)
  | LooseTextOnly (run : wstring)
  | Fill
  | LegacyAttr (run : list Z)
  | CharInfo (run : list CHAR_INFO)
  | Cell (run : list OutputCell).

Record OutputCellIterator := mkIter {
  _mode : Mode;
  _attr : TextAttribute;
  _currentView : OutputCellView;
  _ipos : Z;
  _distance : Z;
  _fillLimit : Z
}.

Definition Iter_fill_wchar (wch fillLimit : Z) : OutputCellIterator :=
  mkIter Fill InvalidTextAttribute (s_GenerateView_wchar wch) 0 0 fillLimit.

Definition Iter_fill_attr (attr : TextAttribute) (fillLimit : Z) : OutputCellIterator :=
  mkIter Fill InvalidTextAttribute (s_GenerateView_attr attr) 0 0 fillLimit.

Definition Iter_fill (wch : Z) (attr : TextAttribute) (fillLimit : Z) : OutputCellIterator :=
  mkIter Fill InvalidTextAttribute (s_GenerateView_wchar_attr wch attr) 0 0 fillLimit.

Definition Iter_fill_charinfo (c : CHAR_INFO) (fillLimit : Z) : OutputCellIterator :=
  mkIter Fill InvalidTextAttribute (s_GenerateView_charinfo c) 0 0 fillLimit.

Definition Iter_text (utf16Text : wstring) : OutputCellIterator :=
  mkIter (LooseTextOnly utf16Text) InvalidTextAttribute
    (s_GenerateView_text utf16Text InvalidTextAttribute Current) 0 0 0.

Definition Iter_text_attr (utf16Text : wstring) (attribute : TextAttribute) : OutputCellIterator :=
  mkIter (Loose utf16Text) attribute (s_GenerateView_text utf16Text attribute Stored) 0 0 0.

(** The iterators over a span read its first element at once. *)
Definition Iter_legacy (legacyAttrs : list Z) : exn + OutputCellIterator :=
  match legacyAttrs with
  | a :: _ => inr (mkIter (LegacyAttr legacyAttrs) InvalidTextAttribute (s_GenerateViewLegacyAttr a) 0 0 0)
  | [] => inl UndefinedBehavior
  end.

Definition Iter_charinfos (charInfos : list CHAR_INFO) : exn + OutputCellIterator :=
  match charInfos with
  | c :: _ => inr (mkIter (CharInfo charInfos) InvalidTextAttribute (s_GenerateView_charinfo c) 0 0 0)
  | [] => inl UndefinedBehavior
  end.

Definition Iter_cells (cells : list OutputCell) : exn + OutputCellIterator :=
  match cells with
  | c :: _ =>
      view ← s_GenerateView_cell c;
      inr (mkIter (Cell cells) InvalidTextAttribute view 0 0 0)
  | [] => inl UndefinedBehavior
  end.

(** [operator bool] *)
Definition Iter_valid (it : OutputCellIterator) : bool :=
  match _mode it with
  | Loose run | LooseTextOnly run => _ipos it <? Z.of_nat (length run)
  | Fill => if _fillLimit it >? 0 then _ipos it <? _fillLimit it else true
  | LegacyAttr run => _ipos it <? Z.of_nat (length run)
  | CharInfo run => _ipos it <? Z.of_nat (length run)
  | Cell run => _ipos it <? Z.of_nat (length run)
  end.

Definition set_view (v : OutputCellView) (it : OutputCellIterator) : OutputCellIterator :=
  mkIter (_mode it) (_attr it) v (_ipos it) (_distance it) (_fillLimit it).
Definition set_ipos (p : Z) (it : OutputCellIterator) : OutputCellIterator :=
  mkIter (_mode it) (_attr it) (_currentView it) p (_distance it) (_fillLimit it).
Definition set_distance (n : Z) (it : OutputCellIterator) : OutputCellIterator :=
  mkIter (_mode it) (_attr it) (_currentView it) (_ipos it) n (_fillLimit it).

Definition with_dbcs (f : DbcsAttribute → DbcsAttribute) (v : OutputCellView) : OutputCellView :=
  mkView (Chars v) (f (DbcsAttr v)) (TextAttr v) (TextAttrBehavior v).

(** [Some] when a leading half became the trailing one. *)
Definition _TryMoveTrailing (it : OutputCellIterator) : option OutputCellIterator :=
  if IsLeading (DbcsAttr (_currentView it))
  then Some (set_view (with_dbcs SetTrailing (_currentView it)) it) else None.

(** The step of the loose modes. *)
Definition loose_step (run : wstring) (attr : TextAttribute) (behavior : TextAttributeBehavior)
    (it : OutputCellIterator) : OutputCellIterator :=
  match _TryMoveTrailing it with
  | Some it => it
  | None =>
      let it := set_ipos (u64 (_ipos it + Z.of_nat (length (Chars (_currentView it))))) it in
      if Iter_valid it
      then set_view (s_GenerateView_text (drop (Z.to_nat (_ipos it)) run) attr behavior) it else it
  end.

(** The step of the modes over a span. *)
Definition span_step {A} (run : list A) (view : A → exn + OutputCellView) (it : OutputCellIterator)
    : exn + OutputCellIterator :=
  let it := set_ipos (u64 (_ipos it + 1)) it in
  if Iter_valid it then
    match run !! Z.to_nat (_ipos it) with
    | Some x => v ← view x; inr (set_view v it)
    | None => inl UndefinedBehavior
    end
  else inr it.

Definition fill_step (it : OutputCellIterator) : OutputCellIterator :=
  match _TryMoveTrailing it with
  | Some it => it
  | None =>
      let it := if IsTrailing (DbcsAttr (_currentView it))
                then set_view (with_dbcs SetLeading (_currentView it)) it else it in
      if _fillLimit it >? 0 then set_ipos (u64 (_ipos it + 1)) it else it
  end.

(** [operator++] *)
Definition Iter_next (it : OutputCellIterator) : exn + OutputCellIterator :=
  let it := set_distance (u64 (_distance it + 1)) it in
  match _mode it with
  | Loose run => inr (loose_step run (_attr it) Stored it)
  | LooseTextOnly run => inr (loose_step run InvalidTextAttribute Current it)
  | Fill => inr (fill_step it)
  | Cell run => span_step run s_GenerateView_cell it
  | CharInfo run => span_step run (λ c, inr (s_GenerateView_charinfo c)) it
  | LegacyAttr run => span_step run (λ a, inr (s_GenerateViewLegacyAttr a)) it
  end.

(** The differences are [ptrdiff_t]. *)
Definition GetInputDistance (it other : OutputCellIterator) : Z := i64 (_ipos it - _ipos other).
Definition GetCellDistance (it other : OutputCellIterator) : Z := i64 (_distance it - _distance other).

(** ** All cells of an iterator *)

(** The loop [while (it) { ... *it ...; ++it; }]: the views it sees and the
    iterator it ends with. *)
Fixpoint drain (fuel : nat) (it : OutputCellIterator) : exn + list OutputCellView * OutputCellIterator :=
  if Iter_valid it then
    match fuel with
    | O => inl OutOfFuel
    | S fuel =>
        next ← Iter_next it;
        '(views, last) ← drain fuel next;
        inr (_currentView it :: views, last)
    end
  else inr ([], it).

(** ** Text becomes cells *)

(** The cells of one code point: one column, or the two halves of a wide one. *)
Definition cells_of (attr : TextAttribute) (behavior : TextAttributeBehavior) (c : Z)
    : list OutputCellView :=
  let g := utf16_units c in
  if IsGlyphFullWidth g
  then [mkView g (mkDbcs Leading false) attr behavior; mkView g (mkDbcs Trailing false) attr behavior]
  else [mkView g (mkDbcs Single false) attr behavior].

(** The two modes that read text. *)
Definition reads_text (m : Mode) (run : wstring) (attr : TextAttribute)
    (behavior : TextAttributeBehavior) : Prop :=
  m = Loose run ∧ behavior = Stored
  ∨ m = LooseTextOnly run ∧ behavior = Current ∧ attr = InvalidTextAttribute.

Section text.
Context (run : wstring) (attr : TextAttribute) (behavior : TextAttributeBehavior).
Context (Hlen : Z.of_nat (length run) < 2 ^ 63).

(** The iterator stands before a suffix of the text. *)
Definition at_text (pos : nat) (it : OutputCellIterator) : Prop :=
  reads_text (_mode it) run attr behavior ∧ _attr it = attr
  ∧ _ipos it = Z.of_nat pos ∧ 0 <= _distance it.

Lemma next_text pos it :
  at_text pos it →
  Iter_next it = inr (loose_step run attr behavior (set_distance (u64 (_distance it + 1)) it)).
Proof.
  intros (Hm & Ha & Hp & Hd). unfold Iter_next. cbn [set_distance _mode _attr].
  destruct Hm as [[-> ->]|(-> & -> & ->)]; by rewrite ?Ha.
Qed.

Lemma valid_text pos it : at_text pos it → Iter_valid it = bool_decide (pos < length run)%nat.
Proof.
  intros (Hm & Ha & Hp & Hd). unfold Iter_valid. rewrite Hp.
  destruct Hm as [[-> _]|(-> & _)]; case_bool_decide; lia.
Qed.

Lemma at_text_set_view pos v it : at_text pos it → at_text pos (set_view v it).
Proof. done. Qed.

Lemma at_text_move pos n k it :
  at_text pos it → (pos + n <= length run)%nat → 0 <= k < 2 ^ 64 →
  at_text (pos + n) (set_ipos (u64 (_ipos it + Z.of_nat n)) (set_distance k it)).
Proof using Hlen.
  intros (Hm & Ha & Hp & Hd) Hn Hk. split; [done|]. split; [done|]. cbn.
  rewrite Hp, wrapu_small by lia. lia.
Qed.

(** The iterator is before the code points [cs], and shows the first of them. *)
Definition positioned (cs : list Z) (it : OutputCellIterator) : Prop :=
  ∃ pos, at_text pos it ∧ (pos <= length run)%nat ∧ drop pos run = utf16_encode cs
    ∧ (cs ≠ [] → _currentView it = s_GenerateView_text (utf16_encode cs) attr behavior).

Lemma positioned_valid cs it : positioned cs it → Iter_valid it = bool_decide (cs ≠ []).
Proof.
  intros (pos & Hat & Hle & Hd & _). rewrite (valid_text pos it Hat). apply bool_decide_ext.
  apply (f_equal length) in Hd. rewrite length_drop in Hd. destruct cs as [|c cs].
  - cbn in Hd. split; [lia|done].
  - rewrite utf16_encode_cons, length_app in Hd. pose proof (length_units c). split; [done|lia].
Qed.

(** One step over a glyph that is shown whole, or by its trailing half. *)
Lemma advance pos c cs it :
  at_text pos it → (pos <= length run)%nat → drop pos run = utf16_encode (c :: cs) →
  Chars (_currentView it) = utf16_units c → IsLeading (DbcsAttr (_currentView it)) = false →
  _distance it < 2 ^ 63 →
  ∃ it', Iter_next it = inr it' ∧ positioned cs it' ∧ _distance it' = _distance it + 1.
Proof using Hlen.
  intros Hat Hle Hd Hc Hl Hdist. rewrite (next_text pos it Hat). eexists. split; [done|].
  unfold loose_step, _TryMoveTrailing. cbn [set_distance _currentView _ipos]. rewrite Hl, Hc.
  pose proof Hat as (_ & _ & _ & Hdn). rewrite (wrapu_small 64 (_distance it + 1)) by lia.
  assert (pos + length (utf16_units c) <= length run)%nat as Hn.
  { apply (f_equal length) in Hd. rewrite length_drop, utf16_encode_cons, length_app in Hd. lia. }
  assert (drop (pos + length (utf16_units c)) run = utf16_encode cs) as Hd'.
  { rewrite <-drop_drop, Hd, utf16_encode_cons. by rewrite drop_app_length. }
  pose proof (at_text_move pos (length (utf16_units c)) (_distance it + 1) it Hat Hn ltac:(lia)) as Hat'.
  set (it' := set_ipos _ (set_distance _ it)) in *.
  assert (∀ it'', _distance it'' = _distance it + 1 → at_text (pos + length (utf16_units c)) it'' →
    (cs ≠ [] → _currentView it'' = s_GenerateView_text (utf16_encode cs) attr behavior) →
    positioned cs it'' ∧ _distance it'' = _distance it + 1) as Hdone.
  { intros it'' Hd2 Ha2 Hv2. split; [|done]. eexists. split; [exact Ha2|]. done. }
  rewrite (valid_text _ _ Hat'). case_bool_decide as Hlt; apply Hdone; try done.
  - intros _. cbn [set_view _currentView]. destruct Hat' as (_ & _ & -> & _).
    by rewrite Nat2Z.id, Hd'.
  - intros Hne. apply (f_equal length) in Hd'. rewrite length_drop in Hd'.
    destruct cs as [|c' cs]; [done|]. rewrite utf16_encode_cons, length_app in Hd'.
    pose proof (length_units c'). lia.
Qed.

(** From the leading half to the trailing one. *)
Lemma advance_lead pos it :
  at_text pos it → IsLeading (DbcsAttr (_currentView it)) = true → _distance it < 2 ^ 63 →
  Iter_next it = inr (set_view (with_dbcs SetTrailing (_currentView it))
                        (set_distance (_distance it + 1) it)).
Proof.
  intros Hat Hl Hdist. rewrite (next_text pos it Hat). pose proof Hat as (_ & _ & _ & Hdn).
  unfold loose_step, _TryMoveTrailing. cbn [set_distance _currentView]. rewrite Hl.
  by rewrite wrapu_small by lia.
Qed.

Lemma drain_step it it' fuel :
  Iter_valid it = true → Iter_next it = inr it' →
  drain (S fuel) it = ('(views, last) ← drain fuel it'; inr (_currentView it :: views, last)).
Proof. intros Hv E. cbn [drain]. by rewrite Hv, E. Qed.

(** The cells of one code point. *)
Lemma drain_scalar c cs it fuel :
  scalar c → positioned (c :: cs) it → _distance it + 2 < 2 ^ 63 →
  ∃ it', positioned cs it'
    ∧ _distance it' = _distance it + Z.of_nat (length (cells_of attr behavior c))
    ∧ drain (length (cells_of attr behavior c) + fuel) it
      = ('(views, last) ← drain fuel it'; inr (cells_of attr behavior c ++ views, last)).
Proof using Hlen.
  intros Hs Hp Hdist. pose proof (positioned_valid _ _ Hp) as Hv. rewrite bool_decide_true in Hv by done.
  pose proof Hp as (pos & Hat & Hle & Hd & Hview). specialize (Hview ltac:(done)).
  unfold s_GenerateView_text in Hview. rewrite utf16_encode_cons, ParseNext_scalar in Hview by done.
  unfold cells_of. destruct (IsGlyphFullWidth (utf16_units c)).
  - pose proof (advance_lead pos it Hat ltac:(by rewrite Hview) ltac:(lia)) as E1.
    set (it1 := set_view _ _) in E1.
    assert (at_text pos it1) as Hat1 by (destruct Hat as (? & ? & ? & ?); split_and!; try done; cbn; lia).
    destruct (advance pos c cs it1) as (it' & E & Hp' & Hd');
      [done|done|done|cbn; by rewrite Hview|done|cbn; lia|].
    exists it'. split; [done|]. split; [cbn in Hd' |- *; lia|]. cbn [length Nat.add].
    rewrite (drain_step _ _ _ Hv E1), (drain_step it1 it'); [|by rewrite (valid_text pos it1 Hat1), <-(valid_text pos it Hat)|done].
    cbn [it1 set_view set_distance _currentView with_dbcs]. rewrite Hview. by destruct (drain fuel it') as [|[views last]].
  - destruct (advance pos c cs it) as (it' & E & Hp' & Hd'); [done|done|done|by rewrite Hview..|lia|].
    exists it'. split; [done|]. split; [cbn; lia|]. cbn [length Nat.add].
    rewrite (drain_step _ _ _ Hv E), Hview. by destruct (drain fuel it') as [|[views last]].
Qed.

Lemma drain_text cs it fuel :
  Forall scalar cs → positioned cs it → _distance it + 2 * Z.of_nat (length cs) < 2 ^ 63 →
  (length (cs ≫= cells_of attr behavior) <= fuel)%nat →
  ∃ last, drain fuel it = inr (cs ≫= cells_of attr behavior, last)
    ∧ _ipos last = Z.of_nat (length run)
    ∧ _distance last = _distance it + Z.of_nat (length (cs ≫= cells_of attr behavior)).
Proof using Hlen.
  intros Hcs. revert it fuel. induction Hcs as [|c cs Hc _ IH]; intros it fuel Hp Hdist Hfuel.
  - pose proof (positioned_valid _ _ Hp) as Hv. exists it.
    split; [by destruct fuel; cbn [drain]; rewrite Hv|].
    destruct Hp as (pos & (_ & _ & -> & _) & Hle & Hd & _). apply (f_equal length) in Hd.
    rewrite length_drop in Hd. cbn in Hd |- *. lia.
  - rewrite bind_cons, length_app in *.
    assert (length (cells_of attr behavior c) <= 2)%nat as Hl2.
    { unfold cells_of. destruct (IsGlyphFullWidth _); cbn; lia. }
    replace fuel with (length (cells_of attr behavior c) + (fuel - length (cells_of attr behavior c)))%nat by lia.
    cbn [length] in Hdist.
    destruct (drain_scalar c cs it (fuel - length (cells_of attr behavior c)) Hc Hp) as (it' & Hp' & Hd' & ->); [lia|].
    destruct (IH it' (fuel - length (cells_of attr behavior c))%nat Hp') as (last & -> & Hpos & Hdl); [lia|lia|].
    exists last. split; [done|]. split; [done|]. lia.
Qed.
End text.

(** The iterator over well-formed UTF-16 text yields exactly the cells of its
    code points in order: one cell for a narrow glyph, the leading and the
    trailing half for a wide one.  It ends with the whole text consumed, and its
    distance is the number of cells. *)
Theorem text_iterator_cells (cs : list Z) (attr : TextAttribute) (fuel : nat) :
  Forall scalar cs → Z.of_nat (length (utf16_encode cs)) < 2 ^ 61 →
  (length (cs ≫= cells_of attr Stored) <= fuel)%nat →
  ∃ last, drain fuel (Iter_text_attr (utf16_encode cs) attr) = inr (cs ≫= cells_of attr Stored, last)
    ∧ GetInputDistance last (Iter_text_attr (utf16_encode cs) attr) = Z.of_nat (length (utf16_encode cs))
    ∧ GetCellDistance last (Iter_text_attr (utf16_encode cs) attr)
      = Z.of_nat (length (cs ≫= cells_of attr Stored)).
Proof.
  intros Hcs Hlen Hfuel.
  assert (length cs <= length (utf16_encode cs))%nat as Hcl.
  { clear. induction cs as [|c cs IH]; [done|]. rewrite utf16_encode_cons, length_app.
    pose proof (length_units c). cbn [length]. lia. }
  assert (length (cs ≫= cells_of attr Stored) <= 2 * length cs)%nat as Hcells.
  { clear. induction cs as [|c cs IH]; [done|]. rewrite bind_cons, length_app.
    assert (length (cells_of attr Stored c) <= 2)%nat; [|cbn [length]; lia].
    unfold cells_of. destruct (IsGlyphFullWidth _); cbn; lia. }
  destruct (drain_text (utf16_encode cs) attr Stored ltac:(lia) cs
    (Iter_text_attr (utf16_encode cs) attr) fuel) as (last & E & Hp & Hd); [done| |cbn; lia|done|].
  - exists 0%nat. split; [split; [by left|done]|]. split; [lia|]. by split.
  - exists last. split; [done|]. unfold GetInputDistance, GetCellDistance.
    rewrite Hp, Hd. cbn [Iter_text_attr _ipos _distance]. rewrite !wraps_small by lia. lia.
Qed.
End iterator.

(** ** Examples *)

(** Glyphs from U+4E00 on are wide. *)
#[local] Instance sample_width : GlyphWidth := {| IsGlyphFullWidth g := match g with [c] => 0x4E00 <=? c | _ => true end |}.

Lemma text_iterator_cells_witness :
  ∃ last, drain LegacyDefaults_init 4 (Iter_text_attr [65; 0xD83D; 0xDE00; 66] TextAttribute_default)
      = inr ([65; 0x1F600; 66] ≫= cells_of TextAttribute_default Stored, last)
    ∧ GetInputDistance last (Iter_text_attr [65; 0xD83D; 0xDE00; 66] TextAttribute_default) = 4
    ∧ GetCellDistance last (Iter_text_attr [65; 0xD83D; 0xDE00; 66] TextAttribute_default) = 4.
Proof.
  exact (text_iterator_cells LegacyDefaults_init [65; 0x1F600; 66] TextAttribute_default 4
    ltac:(repeat constructor; unfold scalar; lia) ltac:(cbn; lia) ltac:(cbn; lia)).
Defined.

(** The iterator advances by the length of the glyph, but [ParseNext] skips
    surrogates without a partner: the character after such a surrogate is
    written twice. *)
Lemma stray_surrogate_repeats :
  ('(views, _) ← drain LegacyDefaults_init 4 (Iter_text_attr [0xDC00; 65; 66] TextAttribute_default); inr views)
  = inr ([65; 65; 66] ≫= cells_of TextAttribute_default Stored).
Proof. reflexivity. Qed.
