(* ===== verification/CharRow.v ===== *)
(** The characters of a row: [CharRowCell], [CharRow], [CharRowCellReference]
    and [UnicodeStorage] of [src/src/buffer/out].

    A cell holds one code unit.  A longer glyph is kept in the storage of the
    whole text buffer, under the column and the number of the row; the cell
    only says so.  The storage is therefore an argument of every function that
    reads or writes glyphs. *)

From S2P Require Import Prelude Viewport OutputCell.
From stdpp Require Import gmap.

#[local] Open Scope Z_scope.

(** ** UnicodeStorage *)

#[global] Instance COORD_countable : Countable COORD.
Proof.
  refine (inj_countable' (λ c, (X c, Y c)) (λ p, mkCOORD p.1 p.2) _). by intros [].
Defined.

Abbreviation UnicodeStorage := (gmap COORD (list Z)).

(** [std::unordered_map::at] *)
Definition GetText (key : COORD) (s : UnicodeStorage) : exn + wstring :=
  match s !! key with Some t => inr t | None => inl OutOfRange end.

Definition StoreGlyph (key : COORD) (glyph : wstring) (s : UnicodeStorage) : UnicodeStorage :=
  <[key := glyph]> s.

Definition Erase (key : COORD) (s : UnicodeStorage) : UnicodeStorage := delete key s.

(** One item of the loop of [Remap]; [emplace] keeps what is there already. *)
Definition remap_item (rowMap : gmap Z Z) (width : option Z) (key : COORD) (glyph : wstring)
    (newMap : UnicodeStorage) : UnicodeStorage :=
  if match width with Some w => X key >=? w | None => false end then newMap
  else
    match rowMap !! Y key with
    | None => newMap
    | Some newRowId =>
        let newCoord := mkCOORD (X key) newRowId in
        match newMap !! newCoord with
        | Some _ => newMap
        | None => <[newCoord := glyph]> newMap
        end
    end.

Definition Remap (rowMap : gmap Z Z) (width : option Z) (s : UnicodeStorage) : UnicodeStorage :=
  map_fold (remap_item rowMap width) ∅ s.

(** ** CharRowCell *)

Definition UNICODE_SPACE : Z := 0x20.

Record CharRowCell := mkCharCell { _wch : Z; _cattr : DbcsAttribute }.

#[global] Instance CharRowCell_eq_dec : EqDecision CharRowCell.
Proof. solve_decision. Defined.

Definition CharRowCell_default : CharRowCell := mkCharCell UNICODE_SPACE Dbcs_default.

Definition EraseChars (c : CharRowCell) : CharRowCell :=
  mkCharCell UNICODE_SPACE
    (if IsGlyphStored (_cattr c) then SetGlyphStored false (_cattr c) else _cattr c).

Definition Cell_Reset (c : CharRowCell) : CharRowCell :=
  mkCharCell UNICODE_SPACE (Dbcs_Reset (_cattr c)).

Definition IsSpace (c : CharRowCell) : bool :=
  negb (IsGlyphStored (_cattr c)) && (_wch c =? UNICODE_SPACE).

(** ** CharRow *)

Abbreviation CharRow := (list CharRowCell).

Definition CharRow_init (rowWidth : Z) : CharRow := replicate (Z.to_nat rowWidth) CharRowCell_default.

Definition CharRow_size (r : CharRow) : Z := Z.of_nat (length r).

Definition CharRow_Reset (r : CharRow) : CharRow := Cell_Reset <$> r.

Definition CharRow_Resize (newSize : Z) (r : CharRow) : CharRow :=
  take (Z.to_nat newSize) r ++ replicate (Z.to_nat newSize - length r) CharRowCell_default.

(** The number of spaces at the front. *)
Fixpoint leading_spaces (r : CharRow) : nat :=
  match r with
  | c :: r' => if IsSpace c then S (leading_spaces r') else 0
  | [] => 0
  end.

Definition MeasureLeft (r : CharRow) : Z := Z.of_nat (leading_spaces r).

(** The reverse iterator: what is left of the row after the spaces at its end. *)
Definition MeasureRight (r : CharRow) : Z := Z.of_nat (length r - leading_spaces (reverse r)).

Definition ContainsText (r : CharRow) : bool := existsb (λ c, negb (IsSpace c)) r.

(** [_data.at(column)] throws out of range. *)
Definition at_cell (column : Z) (r : CharRow) : exn + CharRowCell :=
  match r !! Z.to_nat column with Some c => inr c | None => inl OutOfRange end.

Definition update_cell (column : Z) (f : CharRowCell → CharRowCell) (r : CharRow) : exn + CharRow :=
  c ← at_cell column r; inr (<[Z.to_nat column := f c]> r).

Definition ClearCell (column : Z) : CharRow → exn + CharRow := update_cell column Cell_Reset.

Definition ClearGlyph (column : Z) : CharRow → exn + CharRow := update_cell column EraseChars.

Definition DbcsAttrAt (column : Z) (r : CharRow) : exn + DbcsAttribute :=
  c ← at_cell column r; inr (_cattr c).

Definition set_DbcsAttrAt (column : Z) (a : DbcsAttribute) : CharRow → exn + CharRow :=
  update_cell column (λ c, mkCharCell (_wch c) a).

(** [GetStorageKey] is [noexcept]: a column that is no [SHORT] ends the process. *)
Definition GetStorageKey (id column : Z) : exn + COORD :=
  if column <=? 32767 then inr (mkCOORD column id) else inl FailFast.

(** [_glyphData] of the reference that [GlyphAt] returns. *)
Definition GlyphAt (id column : Z) (r : CharRow) (s : UnicodeStorage) : exn + wstring :=
  if column >=? CharRow_size r then inl InvalidArg
  else
    c ← at_cell column r;
    if IsGlyphStored (_cattr c) then key ← GetStorageKey id column; GetText key s
    else inr [_wch c].

(** [operator=] of the reference. *)
Definition set_GlyphAt (id column : Z) (chars : wstring) (r : CharRow) (s : UnicodeStorage)
    : exn + CharRow * UnicodeStorage :=
  if column >=? CharRow_size r then inl InvalidArg
  else
    match chars with
    | [] => inl InvalidArg
    | [wch] =>
        r ← update_cell column (λ c, mkCharCell wch (SetGlyphStored false (_cattr c))) r;
        inr (r, s)
    | _ =>
        key ← GetStorageKey id column;
        r ← update_cell column (λ c, mkCharCell (_wch c) (SetGlyphStored true (_cattr c))) r;
        inr (r, StoreGlyph key chars s)
    end.

(** The text of the cells from [column] on, without trailing halves. *)
Fixpoint text_from (id column : Z) (n : nat) (r : CharRow) (s : UnicodeStorage) : exn + wstring :=
  match n with
  | O => inr []
  | S n =>
      glyph ← GlyphAt id column r s;
      a ← DbcsAttrAt column r;
      rest ← text_from id (column + 1) n r s;
      inr (if IsTrailing a then rest else glyph ++ rest)
  end.

Definition CharRow_GetText (id : Z) (r : CharRow) (s : UnicodeStorage) : exn + wstring :=
  text_from id 0 (length r) r s.

Inductive DelimiterClass := ControlChar | DelimiterChar | RegularChar.

#[global] Instance DelimiterClass_eq_dec : EqDecision DelimiterClass.
Proof. solve_decision. Defined.

(** The first code unit of the glyph decides. *)
Definition DelimiterClassAt (id column : Z) (wordDelimiters : wstring) (r : CharRow) (s : UnicodeStorage)
    : exn + DelimiterClass :=
  g ← GlyphAt id column r s;
  match g with
  | [] => inl UndefinedBehavior
  | glyph :: _ =>
      inr (if glyph <=? UNICODE_SPACE then ControlChar
           else if existsb (Z.eqb glyph) wordDelimiters then DelimiterChar else RegularChar)
  end.

(** ** Facts *)

(** A glyph is kept for a cell. *)
Definition stored_at (key : COORD) (s : UnicodeStorage) : Prop := ∃ g, s !! key = Some g ∧ g ≠ [].

(** The glyphs of a row that are kept in the storage are there. *)
Definition glyphs_stored (id : Z) (r : CharRow) (s : UnicodeStorage) : Prop :=
  ∀ (i : nat) c, r !! i = Some c → IsGlyphStored (_cattr c) = true →
    stored_at (mkCOORD (Z.of_nat i) id) s.

(** The glyph that a cell shows. *)
Definition glyph_of (id : Z) (i : nat) (c : CharRowCell) (s : UnicodeStorage) : wstring :=
  if IsGlyphStored (_cattr c) then default [] (s !! mkCOORD (Z.of_nat i) id) else [_wch c].

Lemma at_cell_lookup (i : nat) r c : r !! i = Some c → at_cell (Z.of_nat i) r = inr c.
Proof. intros Hc. unfold at_cell. by rewrite Nat2Z.id, Hc. Qed.

Lemma update_cell_lookup (i : nat) f r c :
  r !! i = Some c → update_cell (Z.of_nat i) f r = inr (<[i := f c]> r).
Proof. intros Hc. unfold update_cell. by rewrite (at_cell_lookup _ _ _ Hc), Nat2Z.id. Qed.

Lemma GlyphAt_ok id (i : nat) r s c :
  Z.of_nat (length r) <= 32768 → glyphs_stored id r s → r !! i = Some c →
  GlyphAt id (Z.of_nat i) r s = inr (glyph_of id i c s).
Proof.
  intros Hl Hs Hc. pose proof (lookup_lt_Some _ _ _ Hc). unfold GlyphAt, CharRow_size, glyph_of.
  destruct (Z.geb_spec (Z.of_nat i) (Z.of_nat (length r))); [lia|].
  rewrite (at_cell_lookup _ _ _ Hc). cbn [mbind result_bind].
  destruct (IsGlyphStored (_cattr c)) eqn:Eg; [|done]. unfold GetStorageKey, GetText.
  rewrite (proj2 (Z.leb_le _ _)) by lia. cbn [mbind result_bind].
  destruct (Hs i c Hc Eg) as (t & -> & _). done.
Qed.

Lemma set_GlyphAt_ok id (i : nat) chars r s c :
  Z.of_nat (length r) <= 32768 → r !! i = Some c → chars ≠ [] →
  ∃ c' s', set_GlyphAt id (Z.of_nat i) chars r s = inr (<[i := c']> r, s')
    ∧ _attribute (_cattr c') = _attribute (_cattr c)
    ∧ glyph_of id i c' s' = chars
    ∧ (IsGlyphStored (_cattr c') = true → stored_at (mkCOORD (Z.of_nat i) id) s')
    ∧ (∀ key, key ≠ mkCOORD (Z.of_nat i) id → s' !! key = s !! key)
    ∧ (∀ key, stored_at key s → stored_at key s').
Proof.
  intros Hl Hc Hne. pose proof (lookup_lt_Some _ _ _ Hc). unfold set_GlyphAt, CharRow_size.
  destruct (Z.geb_spec (Z.of_nat i) (Z.of_nat (length r))); [lia|].
  destruct chars as [|w [|w' chars]]; [done| |].
  - rewrite (update_cell_lookup _ _ _ _ Hc). eexists _, _. split; [done|]. done.
  - unfold GetStorageKey. rewrite (proj2 (Z.leb_le _ _)) by lia. cbn [mbind result_bind].
    rewrite (update_cell_lookup _ _ _ _ Hc). eexists _, _. split; [done|]. split; [done|].
    unfold StoreGlyph, glyph_of. cbn. rewrite lookup_insert_eq. split_and!; [done| | |].
    + intros _. eexists. by rewrite lookup_insert_eq.
    + intros key Hk. by rewrite lookup_insert_ne.
    + intros key (t & Ht & Hne'). unfold stored_at. rewrite lookup_insert. case_decide; eauto.
Qed.

Lemma glyph_of_nonempty id (i : nat) r s c :
  glyphs_stored id r s → r !! i = Some c → glyph_of id i c s ≠ [].
Proof.
  intros Hs Hc. unfold glyph_of. destruct (IsGlyphStored _) eqn:Eg; [|done].
  by destruct (Hs i c Hc Eg) as (g & -> & ?).
Qed.
