(* ===== verification/Row.v ===== *)
(** Rows of the text buffer: [ATTR_ROW] ([src/src/buffer/out/AttrRow.cpp]) and
    [ROW] ([src/src/buffer/out/Row.cpp], [Row.hpp]).

    The pointers to the parent buffer are not part of the row; what a row reaches
    through them is the storage of long glyphs, which is next to the row in the
    world of its programs. *)

From S2P Require Import Prelude DispatchTypes TextColor TextAttribute Rle RleFacts RleIter Viewport OutputCell CharRow.
From stdpp Require Import gmap.

#[local] Open Scope Z_scope.

#[global] Instance TextAttribute_inhabited : Inhabited TextAttribute := populate TextAttribute_default.

(** ** ATTR_ROW: a [til::small_rle] with 16-bit lengths *)

Abbreviation ATTR_ROW := (basic_rle TextAttribute).

Definition AttrRow_init (width : Z) (attr : TextAttribute) : ATTR_ROW := rle_fill width attr.

Definition AttrRow_Reset (attr : TextAttribute) (a : ATTR_ROW) : exn + ATTR_ROW :=
  rle_replace 16 a 0 (rle_size a) attr.

Definition AttrRow_Resize (newWidth : Z) (a : ATTR_ROW) : exn + ATTR_ROW :=
  resize_trailing_extent 16 a newWidth.

Definition GetAttrByColumn (column : Z) (a : ATTR_ROW) : exn + TextAttribute := rle_at 16 a column.

Definition GetHyperlinks (a : ATTR_ROW) : list Z :=
  GetHyperlinkId ∘ rp_value <$> filter (λ r, IsHyperlink (rp_value r) = true) (_runs a).

Definition SetAttrToEnd (beginIndex : Z) (attr : TextAttribute) (a : ATTR_ROW) : exn + ATTR_ROW :=
  rle_replace 16 a beginIndex (rle_size a) attr.

Definition ReplaceAttrs (toBeReplacedAttr replaceWith : TextAttribute) (a : ATTR_ROW) : ATTR_ROW :=
  replace_values 16 a toBeReplacedAttr replaceWith.

Definition AttrRow_Replace (beginIndex endIndex : Z) (newAttr : TextAttribute) (a : ATTR_ROW)
    : exn + ATTR_ROW := rle_replace 16 a beginIndex endIndex newAttr.

(** ** ROW *)

Record ROW := mkROW {
  _charRow : CharRow;
  _attrRow : ATTR_ROW;
  _lineRendition : LineRendition;
  _id : Z;
  _rowWidth : Z;
  _wrapForced : bool;
  _doubleBytePadded : bool
}.

Definition ROW_init (rowId rowWidth : Z) (fillAttribute : TextAttribute) : ROW :=
  mkROW (CharRow_init rowWidth) (AttrRow_init rowWidth fillAttribute) SingleWidth rowId rowWidth
    false false.

Definition set_charRow (c : CharRow) (r : ROW) : ROW :=
  mkROW c (_attrRow r) (_lineRendition r) (_id r) (_rowWidth r) (_wrapForced r) (_doubleBytePadded r).
Definition set_attrRow (a : ATTR_ROW) (r : ROW) : ROW :=
  mkROW (_charRow r) a (_lineRendition r) (_id r) (_rowWidth r) (_wrapForced r) (_doubleBytePadded r).
Definition SetLineRendition (l : LineRendition) (r : ROW) : ROW :=
  mkROW (_charRow r) (_attrRow r) l (_id r) (_rowWidth r) (_wrapForced r) (_doubleBytePadded r).
Definition SetId (i : Z) (r : ROW) : ROW :=
  mkROW (_charRow r) (_attrRow r) (_lineRendition r) i (_rowWidth r) (_wrapForced r) (_doubleBytePadded r).
Definition set_rowWidth (w : Z) (r : ROW) : ROW :=
  mkROW (_charRow r) (_attrRow r) (_lineRendition r) (_id r) w (_wrapForced r) (_doubleBytePadded r).
Definition SetWrapForced (wrap : bool) (r : ROW) : ROW :=
  mkROW (_charRow r) (_attrRow r) (_lineRendition r) (_id r) (_rowWidth r) wrap (_doubleBytePadded r).
Definition SetDoubleBytePadded (padded : bool) (r : ROW) : ROW :=
  mkROW (_charRow r) (_attrRow r) (_lineRendition r) (_id r) (_rowWidth r) (_wrapForced r) padded.

(** A failure to reset the attributes is logged; the rest has been reset. *)
Definition ROW_Reset (attr : TextAttribute) (r : ROW) : bool * ROW :=
  let r := set_charRow (CharRow_Reset (_charRow r))
             (SetDoubleBytePadded false (SetWrapForced false (SetLineRendition SingleWidth r))) in
  match AttrRow_Reset attr (_attrRow r) with
  | inr a => (true, set_attrRow a r)
  | inl _ => (false, r)
  end.

(** [None] is an error code: the characters have been resized then. *)
Definition ROW_Resize (width : Z) (r : ROW) : option exn * ROW :=
  let r := set_charRow (CharRow_Resize width (_charRow r)) r in
  match AttrRow_Resize width (_attrRow r) with
  | inr a => (None, set_rowWidth width (set_attrRow a r))
  | inl e => (Some e, r)
  end.

(** *** Programs on a row and the storage *)

Abbreviation RowWorld := (ROW * UnicodeStorage)%type.

Definition on_chars (f : CharRow → exn + CharRow) : prog RowWorld unit := λ w,
  match f (_charRow w.1) with
  | inr c => Ok tt (set_charRow c w.1, w.2)
  | inl e => Throw e w
  end.

Definition on_attrs (f : ATTR_ROW → exn + ATTR_ROW) : prog RowWorld unit := λ w,
  match f (_attrRow w.1) with
  | inr a => Ok tt (set_attrRow a w.1, w.2)
  | inl e => Throw e w
  end.

Definition on_flags (f : ROW → ROW) : prog RowWorld unit := modify (λ w, (f w.1, w.2)).

Definition assign_glyph (column : Z) (chars : wstring) : prog RowWorld unit := λ w,
  match set_GlyphAt (_id w.1) column chars (_charRow w.1) w.2 with
  | inr (c, s) => Ok tt (set_charRow c w.1, s)
  | inl e => Throw e w
  end.

Definition ClearColumn (column : Z) : prog RowWorld unit :=
  size ← gets (λ w, CharRow_size (_charRow w.1));
  if column >=? size then throw InvalidArg else on_chars (ClearCell column).

(** *** WriteCells *)

Section write.
Context `{GlyphWidth} (d : LegacyDefaults).

(** The variables of the loop. *)
Record WriteState := mkWrite {
  w_it : OutputCellIterator;
  currentColor : TextAttribute;
  colorUses : Z;
  colorStarts : Z;
  currentIndex : Z
}.

(** The colour of a cell is counted, or commits the run before it. *)
Definition write_color (st : WriteState) : prog RowWorld WriteState :=
  let view := _currentView (w_it st) in
  if decide (TextAttrBehavior view = Current) then mret st
  else if decide (currentColor st = TextAttr view) then
    mret (mkWrite (w_it st) (currentColor st) (u16 (colorUses st + 1)) (colorStarts st) (currentIndex st))
  else
    on_attrs (AttrRow_Replace (colorStarts st) (currentIndex st) (currentColor st));;
    mret (mkWrite (w_it st) (TextAttr view) 1 (currentIndex st) (currentIndex st)).

(** The text of a cell, with padding for halves that cannot be here. *)
Definition write_text (finalColumnInRow : Z) (wrap : option bool) (st : WriteState)
    : prog RowWorld OutputCellIterator :=
  let it := w_it st in
  let view := _currentView it in
  let i := currentIndex st in
  if decide (TextAttrBehavior view = StoredOnly) then lift (Iter_next d it)
  else
    let fillingLastColumn := i =? finalColumnInRow in
    it ←
      (if (i =? 0) && IsTrailing (DbcsAttr view) then on_chars (ClearCell i);; mret it
       else if fillingLastColumn && IsLeading (DbcsAttr view) then
         on_chars (ClearCell i);; on_flags (SetDoubleBytePadded true);; mret it
       else
         on_chars (set_DbcsAttrAt i (DbcsAttr view));;
         assign_glyph i (Chars view);;
         lift (Iter_next d it));
    match wrap with
    | Some b => if fillingLastColumn then on_flags (SetWrapForced b);; mret it else mret it
    | None => mret it
    end.

Fixpoint write_loop (fuel : nat) (finalColumnInRow : Z) (wrap : option bool) (st : WriteState)
    : prog RowWorld WriteState :=
  if Iter_valid (w_it st) && (currentIndex st <=? finalColumnInRow) then
    match fuel with
    | O => throw OutOfFuel
    | S fuel =>
        st ← write_color st;
        it ← write_text finalColumnInRow wrap st;
        write_loop fuel finalColumnInRow wrap
          (mkWrite it (currentColor st) (colorUses st) (colorStarts st) (u16 (currentIndex st + 1)))
    end
  else mret st.

Definition WriteCells (it : OutputCellIterator) (index : Z) (wrap : option bool) (limitRight : option Z)
    : prog RowWorld OutputCellIterator :=
  size ← gets (λ w, CharRow_size (_charRow w.1));
  if index >=? size then throw InvalidArg
  else if default 0 limitRight >=? size then throw InvalidArg
  else
    let finalColumnInRow := default (size - 1) limitRight in
    st ← write_loop (Z.to_nat size) finalColumnInRow wrap
           (mkWrite it (TextAttr (_currentView it)) 0 (u16 index) (u16 index));
    (if colorUses st =? 0 then mret tt
     else on_attrs (AttrRow_Replace (colorStarts st) (currentIndex st) (currentColor st)));;
    mret (w_it st).
End write.
