(* ===== verification/RowFacts.v ===== *)
(** Rows: writing cells is replacing a range of what the row shows. *)

From S2P Require Import Prelude DispatchTypes TextColor TextAttribute Rle RleFacts RleIter Viewport OutputCell CharRow Row.
From stdpp Require Import gmap.

#[local] Open Scope Z_scope.

(** ** Overwriting a range of a list *)

Definition splice {A} (n : nat) (xs l : list A) : list A := take n l ++ xs ++ drop (n + length xs) l.

Section splice.
Context {A : Type}.
Implicit Types (l xs ys : list A).

Lemma splice_nil n l : splice n [] l = l.
Proof. unfold splice. rewrite Nat.add_0_r. apply take_drop. Qed.

Lemma length_splice n xs l : (n + length xs <= length l)%nat → length (splice n xs l) = length l.
Proof. intros Hn. unfold splice. rewrite !length_app, length_take, length_drop. lia. Qed.

Lemma splice_app n xs ys l :
  (n + length xs + length ys <= length l)%nat →
  splice (n + length xs) ys (splice n xs l) = splice n (xs ++ ys) l.
Proof.
  intros Hn. unfold splice. rewrite length_app.
  assert (length (take n l) = n) as Hl by (rewrite length_take; lia).
  rewrite (app_assoc (take n l) xs (drop _ l)).
  rewrite take_app_length' by (rewrite length_app; lia).
  rewrite (drop_app_ge (take n l ++ xs)) by (rewrite length_app; lia).
  rewrite length_app, Hl, drop_drop, <-!app_assoc. do 4 f_equal. lia.
Qed.

Lemma splice_insert n x l : (n < length l)%nat → splice n [x] l = <[n := x]> l.
Proof.
  intros Hn. unfold splice. cbn [length app]. rewrite Nat.add_1_r. by rewrite insert_take_drop.
Qed.

Lemma splice_snoc n xs x l :
  (n + length xs < length l)%nat → <[(n + length xs)%nat := x]> (splice n xs l) = splice n (xs ++ [x]) l.
Proof.
  intros Hn. rewrite <-splice_insert by (rewrite length_splice; lia).
  apply splice_app. cbn. lia.
Qed.

Lemma lookup_splice n xs l i :
  (n + length xs <= length l)%nat →
  splice n xs l !! i = if decide (n <= i < n + length xs)%nat then xs !! (i - n)%nat else l !! i.
Proof.
  intros Hn. unfold splice. assert (length (take n l) = n) as Hl by (rewrite length_take; lia).
  destruct (decide (i < n)%nat) as [Hi|Hi].
  - rewrite decide_False by lia. rewrite lookup_app_l by lia. by rewrite lookup_take_lt.
  - rewrite lookup_app_r, Hl by lia. case_decide.
    + by rewrite lookup_app_l by lia.
    + rewrite lookup_app_r, lookup_drop by lia. f_equal. lia.
Qed.
End splice.

(** ** What a row shows *)

(** The glyph and the kind of each cell. *)
Definition shown (r : ROW) (s : UnicodeStorage) : list (wstring * DbcsKind) :=
  imap (λ i c, (glyph_of (_id r) i c s, _attribute (_cattr c))) (_charRow r).

(** The attribute of each cell. *)
Definition attrs (r : ROW) : list TextAttribute := Rle.decode (_runs (_attrRow r)).

(** The members that no write changes. *)
Definition row_fixed (r : ROW) : LineRendition * Z * Z := (_lineRendition r, _id r, _rowWidth r).

Record row_ok (r : ROW) (s : UnicodeStorage) : Prop := {
  ok_width : 0 < _rowWidth r <= 32767;
  ok_chars : length (_charRow r) = Z.to_nat (_rowWidth r);
  ok_attrs : wf 16 1 (_attrRow r);
  ok_attrs_width : _total_length (_attrRow r) = _rowWidth r;
  ok_glyphs : glyphs_stored (_id r) (_charRow r) s
}.

(** The glyphs of other rows. *)
Definition same_elsewhere (id : Z) (s s' : UnicodeStorage) : Prop :=
  ∀ key, Y key ≠ id → s' !! key = s !! key.

Lemma same_elsewhere_refl id s : same_elsewhere id s s.
Proof. done. Qed.

Lemma same_elsewhere_trans id s1 s2 s3 :
  same_elsewhere id s1 s2 → same_elsewhere id s2 s3 → same_elsewhere id s1 s3.
Proof. intros H1 H2 key Hk. by rewrite (H2 key Hk), (H1 key Hk). Qed.

Lemma length_shown r s : length (shown r s) = length (_charRow r).
Proof. apply length_imap. Qed.

Lemma length_attrs r s : row_ok r s → length (attrs r) = Z.to_nat (_rowWidth r).
Proof.
  intros Hr. destruct (ok_attrs r s Hr) as (Hn & Ht & _). pose proof (ok_attrs_width r s Hr).
  unfold attrs. pose proof (length_decode 1 ltac:(lia) _ Hn). lia.
Qed.

(** Changing one cell, and at most its own glyph in the storage. *)
Lemma shown_update r s s' (i : nat) c' :
  (i < length (_charRow r))%nat →
  (∀ key, key ≠ mkCOORD (Z.of_nat i) (_id r) → s' !! key = s !! key) →
  shown (set_charRow (<[i := c']> (_charRow r)) r) s'
  = <[i := (glyph_of (_id r) i c' s', _attribute (_cattr c'))]> (shown r s).
Proof.
  intros Hi Hs. apply list_eq. intros j. unfold shown. cbn [set_charRow _charRow _id].
  rewrite list_lookup_imap. destruct (decide (i = j)) as [<-|Hij].
  - rewrite !list_lookup_insert_eq by (rewrite ?length_imap; done). done.
  - rewrite !list_lookup_insert_ne, list_lookup_imap by done.
    destruct (_charRow r !! j) as [c|]; [|done]. cbn. unfold glyph_of.
    rewrite Hs by (intros [= ?]; lia). done.
Qed.

Lemma glyphs_update r s s' (i : nat) c' :
  glyphs_stored (_id r) (_charRow r) s →
  (IsGlyphStored (_cattr c') = true → stored_at (mkCOORD (Z.of_nat i) (_id r)) s') →
  (∀ key, stored_at key s → stored_at key s') →
  glyphs_stored (_id r) (<[i := c']> (_charRow r)) s'.
Proof.
  intros Hg Hc Hs j c Hj Hst. destruct (decide (i = j)) as [<-|Hij].
  - apply list_lookup_insert_Some in Hj as [(_ & <- & _)|[? _]]; [by apply Hc|done].
  - rewrite list_lookup_insert_ne in Hj by done. by apply Hs, (Hg j c).
Qed.

(** *** One cell *)

(** The two assignments of a cell: its kind, then its glyph. *)
Lemma write_cell_ok {A} r s (i : nat) (a : DbcsAttribute) (chars : wstring) (m : prog RowWorld A)
    (Q : A → RowWorld → Prop) :
  row_ok r s → (i < Z.to_nat (_rowWidth r))%nat → chars ≠ [] →
  (∀ r' s', row_ok r' s' → row_fixed r' = row_fixed r → attrs r' = attrs r →
     _wrapForced r' = _wrapForced r → _doubleBytePadded r' = _doubleBytePadded r →
     same_elsewhere (_id r) s s' → shown r' s' = <[i := (chars, _attribute a)]> (shown r s) → wp m Q (r', s')) →
  wp (on_chars (set_DbcsAttrAt (Z.of_nat i) a);; assign_glyph (Z.of_nat i) chars;; m) Q (r, s).
Proof.
  intros Hr Hi Hne HQ. pose proof (ok_width r s Hr). pose proof (ok_chars r s Hr) as Hl.
  destruct (lookup_lt_is_Some_2 (_charRow r) i) as [c Hc]; [lia|].
  wp_step. unfold wp at 1. unfold on_chars. cbn [fst snd].
  unfold set_DbcsAttrAt. rewrite (update_cell_lookup _ _ _ _ Hc).
  set (c1 := mkCharCell (_wch c) a). set (r1 := set_charRow _ r).
  destruct (set_GlyphAt_ok (_id r) i chars (<[i := c1]> (_charRow r)) s c1)
    as (c' & s' & E & Ha & Hgl & Hst & Hkey & Hmono).
  { rewrite length_insert. lia. }
  { apply list_lookup_insert_eq. lia. }
  { done. }
  wp_step. unfold wp at 1. unfold assign_glyph. cbn [fst snd].
  change (_id r1) with (_id r). change (_charRow r1) with (<[i:=c1]> (_charRow r)). rewrite E.
  rewrite list_insert_insert_eq.
  apply HQ; try done.
  - destruct Hr as [Hw Hch Ha1 Ha2 Hg]. split; try done; cbn [set_charRow _rowWidth _charRow _attrRow _id].
    + by rewrite length_insert.
    + by apply (glyphs_update r s).
  - intros key Hk. apply Hkey. by intros ->.
  - rewrite <-Hgl. change (_attribute a) with (_attribute (_cattr c1)). rewrite <-Ha.
    apply (shown_update r s); [lia|done].
Qed.

(** *** A run of attributes *)

Lemma replace_attrs_ok r s (b e : nat) (a : TextAttribute) :
  row_ok r s → (b < e)%nat → (e <= Z.to_nat (_rowWidth r))%nat →
  ∃ v', AttrRow_Replace (Z.of_nat b) (Z.of_nat e) a (_attrRow r) = inr v'
    ∧ row_ok (set_attrRow v' r) s
    ∧ attrs (set_attrRow v' r) = splice b (replicate (e - b) a) (attrs r).
Proof.
  intros Hr Hbe He. pose proof Hr as [Hw Hch Ha1 Ha2 Hg].
  destruct (rle_replace_spec 16 1 ltac:(lia) (_attrRow r) (Z.of_nat b) (Z.of_nat e) a)
    as (v' & E & Hwf & Hd); [done|lia|lia|lia|].
  exists v'. split; [done|].
  assert (attrs (set_attrRow v' r) = splice b (replicate (e - b) a) (attrs r)) as Hat.
  { unfold attrs at 1. cbn [set_attrRow _attrRow]. rewrite Hd, !Nat2Z.id. unfold splice, rep.
    rewrite length_replicate. replace (Z.to_nat (Z.of_nat e - Z.of_nat b)) with (e - b)%nat by lia.
    replace (b + (e - b))%nat with e by lia. done. }
  split; [|done]. split; try done. cbn [set_attrRow _attrRow _rowWidth].
  destruct Hwf as (Hn & Ht & _). rewrite Ht, <-(length_decode 1 ltac:(lia) _ Hn).
  change (Rle.decode (_runs v')) with (attrs (set_attrRow v' r)). rewrite Hat, length_splice.
  - rewrite (length_attrs r s Hr). lia.
  - rewrite length_replicate, (length_attrs r s Hr). lia.
Qed.

(** ** Writing cells *)

Section write.
Context `{GlyphWidth} (d : LegacyDefaults).

(** The iterator shows these views, one step after the other. *)
Inductive yields : OutputCellIterator → list OutputCellView → OutputCellIterator → Prop :=
  | yields_nil it : yields it [] it
  | yields_cons it it1 vs it' :
      Iter_valid it = true → Iter_next d it = inr it1 → yields it1 vs it' →
      yields it (_currentView it :: vs) it'.

(** A cell that needs no padding at column [k]. *)
Definition plain (b : TextAttributeBehavior) (final : Z) (k : nat) (v : OutputCellView) : Prop :=
  TextAttrBehavior v = b
  ∧ (b ≠ StoredOnly →
     Chars v ≠ [] ∧ (k = 0%nat → IsTrailing (DbcsAttr v) = false)
     ∧ (Z.of_nat k = final → IsLeading (DbcsAttr v) = false)).

(** What is in a column after a write: the glyph with its kind, and the attribute. *)
#[local] Notation placed := (wstring * DbcsKind * TextAttribute)%type.
Definition cell_of_view (v : OutputCellView) : placed := ((Chars v, _attribute (DbcsAttr v)), TextAttr v).
Definition pad_of_view (v : OutputCellView) : placed := (([UNICODE_SPACE], Single), TextAttr v).

(** Characters are written unless the cells are colours only, and colours unless they take those
    of the buffer. *)
Definition placed_cells (b : TextAttributeBehavior) (ps : list placed) : list (wstring * DbcsKind) :=
  if decide (b = StoredOnly) then [] else fst <$> ps.
Definition placed_colors (b : TextAttributeBehavior) (ps : list placed) : list TextAttribute :=
  if decide (b = Current) then [] else snd <$> ps.

Definition written (b : TextAttributeBehavior) (vs : list OutputCellView) : list (wstring * DbcsKind) :=
  if decide (b = StoredOnly) then [] else (λ v, (Chars v, _attribute (DbcsAttr v))) <$> vs.
Definition colored (b : TextAttributeBehavior) (vs : list OutputCellView) : list TextAttribute :=
  if decide (b = Current) then [] else TextAttr <$> vs.

(** What the columns from [k] to [final] get from an iterator whose cells all have the behaviour
    [b], and where it then stands.  The second half of a wide glyph does not go to the first
    column, nor the first half to the last one: a blank is written there, with the colour of the
    half, and the half is still to be written; in the last column this is noted. *)
Inductive fills (b : TextAttributeBehavior) (final : Z) : nat → OutputCellIterator → list placed → OutputCellIterator → bool → Prop :=
  | fills_stop k it :
      Iter_valid it = false ∨ final < Z.of_nat k → fills b final k it [] it false
  | fills_color k it it1 ps it' padded :
      Iter_valid it = true → Z.of_nat k <= final → TextAttrBehavior (_currentView it) = b → b = StoredOnly →
      Iter_next d it = inr it1 → fills b final (S k) it1 ps it' padded →
      fills b final k it (cell_of_view (_currentView it) :: ps) it' padded
  | fills_cell k it it1 ps it' padded :
      let v := _currentView it in
      Iter_valid it = true → Z.of_nat k <= final → TextAttrBehavior v = b → b ≠ StoredOnly → Chars v ≠ [] →
      (k = 0%nat → IsTrailing (DbcsAttr v) = false) → (Z.of_nat k = final → IsLeading (DbcsAttr v) = false) →
      Iter_next d it = inr it1 → fills b final (S k) it1 ps it' padded →
      fills b final k it (cell_of_view v :: ps) it' padded
  | fills_pad_first it ps it' padded :
      let v := _currentView it in
      Iter_valid it = true → 0 <= final → TextAttrBehavior v = b → b ≠ StoredOnly → IsTrailing (DbcsAttr v) = true →
      fills b final 1 it ps it' padded → fills b final 0 it (pad_of_view v :: ps) it' padded
  | fills_pad_last k it :
      let v := _currentView it in
      Iter_valid it = true → Z.of_nat k = final → TextAttrBehavior v = b → b ≠ StoredOnly → IsLeading (DbcsAttr v) = true →
      fills b final k it [pad_of_view v] it true.

(** The wrap flag after a write that ends before column [k]. *)
Definition wrapped (b : TextAttributeBehavior) (wrap : option bool) (final k : Z) (old : bool) : bool :=
  match wrap with
  | Some x => if decide (b ≠ StoredOnly ∧ k = final + 1) then x else old
  | None => old
  end.

Section loop.
Context (b : TextAttributeBehavior) (final : Z) (wrap : option bool) (index : nat).
Context (r0 : ROW) (s0 : UnicodeStorage) (Hr0 : row_ok r0 s0) (Hfinal : final < _rowWidth r0).

(** The colours: committed runs are in the row, the pending one is not yet. *)
Definition color_inv (done : list placed) (r : ROW) (st : WriteState) : Prop :=
  b = Current ∧ attrs r = attrs r0 ∧ colorUses st = 0
  ∨ b ≠ Current ∧ ∃ committed pending, done = committed ++ pending
      ∧ colorStarts st = Z.of_nat (index + length committed)
      ∧ colorUses st = Z.of_nat (length pending)
      ∧ Forall (λ p, p.2 = currentColor st) pending
      ∧ (done ≠ [] → pending ≠ [])
      ∧ attrs r = splice index (snd <$> committed) (attrs r0).

(** The characters and the rest of the row. *)
Definition text_inv (padded : bool) (done : list placed) (w : RowWorld) : Prop :=
  row_ok w.1 w.2 ∧ row_fixed w.1 = row_fixed r0 ∧ _doubleBytePadded w.1 = padded || _doubleBytePadded r0
  ∧ _wrapForced w.1 = wrapped b wrap final (Z.of_nat (index + length done)) (_wrapForced r0)
  ∧ same_elsewhere (_id r0) s0 w.2
  ∧ shown w.1 w.2 = splice index (placed_cells b done) (shown r0 s0).

Lemma row_fixed_id r : row_fixed r = row_fixed r0 → _id r = _id r0 ∧ _rowWidth r = _rowWidth r0.
Proof. unfold row_fixed. by intros [= _ -> ->]. Qed.

Lemma replicate_pending (pending : list placed) (a : TextAttribute) :
  Forall (λ p, p.2 = a) pending → replicate (length pending) a = snd <$> pending.
Proof. induction 1 as [|v l Hv _ IH]; [done|]. cbn. by rewrite IH, Hv. Qed.

(** The pending run is committed. *)
Lemma commit_ok padded done r s committed pending (a : TextAttribute) (Q : unit → RowWorld → Prop) :
  text_inv padded done (r, s) → done = committed ++ pending → pending ≠ [] →
  Forall (λ p, p.2 = a) pending → (index + length done <= Z.to_nat (_rowWidth r0))%nat →
  attrs r = splice index (snd <$> committed) (attrs r0) →
  (∀ r', text_inv padded done (r', s) → attrs r' = splice index (snd <$> done) (attrs r0) → Q tt (r', s)) →
  wp (on_attrs (AttrRow_Replace (Z.of_nat (index + length committed)) (Z.of_nat (index + length done)) a))
    Q (r, s).
Proof using Hr0.
  intros Ht Hd Hp Ha Hle Hat HQ. pose proof Ht as (Hok & Hfix & Hpad & Hwr & Hel & Hsh). cbn in *.
  pose proof (row_fixed_id _ Hfix) as [_ Ew].
  assert (0 < length pending)%nat by (destruct pending; [done|cbn; lia]).
  assert (length done = length committed + length pending)%nat as El by (by rewrite Hd, length_app).
  destruct (replace_attrs_ok r s (index + length committed) (index + length done) a Hok)
    as (v' & E & Hok' & Hat'); [lia|rewrite Ew; lia|].
  unfold wp, on_attrs. cbn [fst snd]. rewrite E. apply HQ.
  - split_and!; done.
  - rewrite Hat', Hat. replace (index + length done - (index + length committed))%nat with (length pending) by lia.
    rewrite replicate_pending by done. rewrite <-(length_fmap (snd : placed → TextAttribute) committed).
    rewrite splice_app by (rewrite !length_fmap, (length_attrs r0 s0 Hr0); lia).
    by rewrite <-fmap_app, Hd.
Qed.

Lemma write_color_ok padded done p st r s (Q : WriteState → RowWorld → Prop) :
  text_inv padded done (r, s) → color_inv done r st →
  TextAttrBehavior (_currentView (w_it st)) = b → p.2 = TextAttr (_currentView (w_it st)) →
  (done = [] → currentColor st = TextAttr (_currentView (w_it st))) →
  currentIndex st = Z.of_nat (index + length done) → (index + length done < Z.to_nat (_rowWidth r0))%nat →
  (∀ st' r', text_inv padded done (r', s) → color_inv (done ++ [p]) r' st' →
     w_it st' = w_it st → currentIndex st' = currentIndex st → Q st' (r', s)) →
  wp (write_color st) Q (r, s).
Proof using Hr0.
  intros Ht Hc Hb Hpv Hfirst Hi Hle HQ. pose proof (ok_width _ _ Hr0). unfold write_color. rewrite Hb.
  destruct Hc as [(Eb & Hat & Hu)|(Eb & committed & pending & Hd & Hst & Hu & Hp & Hne & Hat)].
  - rewrite decide_True by done. apply wp_ret, HQ; try done. by left.
  - rewrite decide_False by done. case_decide as Hcol.
    + apply wp_ret, HQ; try done. right. split; [done|].
      exists committed, (pending ++ [p]). cbn [colorStarts colorUses currentColor].
      split; [by rewrite Hd, app_assoc|]. split; [done|].
      assert (length pending <= length done)%nat by (rewrite Hd, length_app; lia).
      split; [rewrite Hu, length_app, wrapu_small; cbn; lia|].
      split; [apply Forall_app; split; [done|apply Forall_singleton; congruence]|]. split; [by destruct pending|done].
    + destruct (decide (done = [])) as [E|Hdne]; [by destruct Hcol, (Hfirst E)|].
      wp_step. rewrite Hst, Hi. eapply commit_ok; [done|done|by apply Hne|done|lia|done|].
      intros r' Ht' Hat'. apply wp_ret, HQ; try done. right. split; [done|].
      exists done, [p]. cbn [colorStarts colorUses currentColor].
      split; [done|]. split; [done|]. split; [done|]. split; [by apply Forall_singleton|]. done.
Qed.

Lemma color_inv_attrs done r r' st st' :
  color_inv done r st → attrs r' = attrs r → currentColor st' = currentColor st →
  colorUses st' = colorUses st → colorStarts st' = colorStarts st → color_inv done r' st'.
Proof. unfold color_inv. by intros Hc -> -> -> ->. Qed.

(** The wrap flag after a cell has been written at column [k]. *)
Lemma set_wrap_ok (k : nat) it r s (Q : OutputCellIterator → RowWorld → Prop) :
  b ≠ StoredOnly → Z.of_nat k <= final →
  Q it (SetWrapForced (wrapped b wrap final (Z.of_nat (k + 1)) (_wrapForced r)) r, s) →
  wp match wrap with
     | Some x => if Z.of_nat k =? final then on_flags (SetWrapForced x);; mret it else mret it
     | None => mret it
     end Q (r, s).
Proof using.
  intros Hb Hk HQ. unfold wrapped in HQ. destruct wrap as [x|].
  - destruct (Z.eqb_spec (Z.of_nat k) final).
    + rewrite decide_True in HQ by (split; [done|lia]). by repeat wp_step.
    + rewrite decide_False in HQ by (intros [_ ?]; lia). apply wp_ret. by destruct r.
  - apply wp_ret. by destruct r.
Qed.

(** A cell has been put into column [k]. *)
Lemma text_inv_snoc padded padded' done p r s r' s' :
  let k := (index + length done)%nat in
  text_inv padded done (r, s) → b ≠ StoredOnly → Z.of_nat k <= final →
  row_ok r' s' → row_fixed r' = row_fixed r → _wrapForced r' = _wrapForced r →
  _doubleBytePadded r' = padded' || _doubleBytePadded r0 → same_elsewhere (_id r) s s' →
  shown r' s' = <[k := p.1]> (shown r s) →
  text_inv padded' (done ++ [p]) (SetWrapForced (wrapped b wrap final (Z.of_nat (k + 1)) (_wrapForced r')) r', s').
Proof using Hr0 Hfinal.
  intros k (Hok & Hfix & Hpad & Hwr & Hel & Hsh) Hso Hle Hok' Hfix' Hwr' Hpad' Hel' Hsh'. cbn [fst snd] in *.
  pose proof (row_fixed_id _ Hfix) as [Eid Ew].
  assert (index + length (done ++ [p]) = k + 1)%nat as Ek by (rewrite length_app; cbn; lia).
  split_and!; cbn [fst snd]; [by destruct Hok'|by rewrite <-Hfix, <-Hfix'|done|..].
  - rewrite Ek, Hwr', Hwr. fold k. cbn [SetWrapForced _wrapForced]. unfold wrapped. destruct wrap; [|done].
    rewrite (decide_False (P := b ≠ StoredOnly ∧ Z.of_nat k = final + 1)) by (intros [_ ?]; lia). done.
  - eapply same_elsewhere_trans; [done|]. by rewrite <-Eid.
  - change (shown r' s' = splice index (placed_cells b (done ++ [p])) (shown r0 s0)).
    rewrite Hsh', Hsh. unfold placed_cells. rewrite !decide_False by done. rewrite fmap_app.
    unfold k. rewrite <-(length_fmap (fst : placed → wstring * DbcsKind) done).
    apply splice_snoc. rewrite length_fmap, length_shown, (ok_chars r0 s0 Hr0). lia.
Qed.

(** A blank instead of a half. *)
Lemma clear_cell_ok r s (i : nat) (Q : unit → RowWorld → Prop) :
  row_ok r s → (i < Z.to_nat (_rowWidth r))%nat →
  (∀ r', row_ok r' s → row_fixed r' = row_fixed r → attrs r' = attrs r → _wrapForced r' = _wrapForced r →
     _doubleBytePadded r' = _doubleBytePadded r → shown r' s = <[i := ([UNICODE_SPACE], Single)]> (shown r s) → Q tt (r', s)) →
  wp (on_chars (ClearCell (Z.of_nat i))) Q (r, s).
Proof using.
  intros Hr Hi HQ. pose proof (ok_chars r s Hr) as Hl.
  destruct (lookup_lt_is_Some_2 (_charRow r) i) as [c Hc]; [lia|].
  unfold wp, on_chars, ClearCell. cbn [fst snd]. rewrite (update_cell_lookup _ _ _ _ Hc). apply HQ; try done.
  - destruct Hr as [Hw Hch Ha1 Ha2 Hg]. split; try done; cbn [set_charRow _rowWidth _charRow _attrRow _id].
    + by rewrite length_insert.
    + by apply (glyphs_update r s).
  - by apply (shown_update r s); [lia|].
Qed.

(** One round of the loop: the text. *)
Lemma write_text_color done p st r s it1 padded (Q : OutputCellIterator → RowWorld → Prop) :
  text_inv padded done (r, s) → TextAttrBehavior (_currentView (w_it st)) = b → b = StoredOnly →
  Iter_next d (w_it st) = inr it1 →
  (∀ r' s', text_inv padded (done ++ [p]) (r', s') → attrs r' = attrs r → Q it1 (r', s')) →
  wp (write_text d final wrap st) Q (r, s).
Proof using.
  intros (Hok & Hfix & Hpad & Hwr & Hel & Hsh) Hb Hso Hnext HQ. cbn [fst snd] in *. unfold write_text.
  rewrite Hb, decide_True by done. unfold wp, lift. rewrite Hnext. apply HQ; [|done]. split_and!; try done; cbn [fst snd].
  - rewrite Hwr. unfold wrapped. destruct wrap; [|done]. by rewrite !decide_False by tauto.
  - rewrite Hsh. unfold placed_cells. by rewrite !decide_True.
Qed.

Lemma write_text_cell done st r s it1 padded (Q : OutputCellIterator → RowWorld → Prop) :
  let k := (index + length done)%nat in
  let v := _currentView (w_it st) in
  text_inv padded done (r, s) → TextAttrBehavior v = b → b ≠ StoredOnly → Chars v ≠ [] →
  (k = 0%nat → IsTrailing (DbcsAttr v) = false) → (Z.of_nat k = final → IsLeading (DbcsAttr v) = false) →
  currentIndex st = Z.of_nat k → Z.of_nat k <= final → Iter_next d (w_it st) = inr it1 →
  (∀ r' s', text_inv padded (done ++ [cell_of_view v]) (r', s') → attrs r' = attrs r → Q it1 (r', s')) →
  wp (write_text d final wrap st) Q (r, s).
Proof using Hr0 Hfinal.
  intros k v Ht Hb Hso Hne Htr Hld Hi Hle Hnext HQ. pose proof Ht as (Hok & Hfix & Hpad & _).
  pose proof (row_fixed_id _ Hfix) as [Eid Ew]. unfold write_text. fold v. rewrite Hb, decide_False, Hi by done. wp_step.
  assert ((Z.of_nat k =? 0) && IsTrailing (DbcsAttr v) = false) as ->.
  { destruct (Z.eqb_spec (Z.of_nat k) 0); [apply Htr; lia|done]. }
  assert ((Z.of_nat k =? final) && IsLeading (DbcsAttr v) = false) as ->.
  { destruct (Z.eqb_spec (Z.of_nat k) final); [by apply Hld|done]. }
  apply write_cell_ok; [done|cbn in Ew; rewrite Ew; lia|done|].
  intros r' s' Hok' Hfix' Hat' Hwr' Hpad' Hel' Hsh'. unfold wp at 1, lift. rewrite Hnext.
  apply set_wrap_ok; [done|done|]. apply HQ; [|done].
  eapply text_inv_snoc; [exact Ht|done|done|done|done|done|rewrite Hpad'; exact Hpad|done|done].
Qed.

(** A half of a glyph that cannot be at column [k]. *)
Lemma write_text_pad done st r s padded (Q : OutputCellIterator → RowWorld → Prop) :
  let k := (index + length done)%nat in
  let v := _currentView (w_it st) in
  let first := (Z.of_nat k =? 0) && IsTrailing (DbcsAttr v) in
  text_inv padded done (r, s) → TextAttrBehavior v = b → b ≠ StoredOnly →
  first = true ∨ (Z.of_nat k = final ∧ IsLeading (DbcsAttr v) = true) →
  currentIndex st = Z.of_nat k → Z.of_nat k <= final →
  (∀ r' s', text_inv (negb first || padded) (done ++ [pad_of_view v]) (r', s') → attrs r' = attrs r → Q (w_it st) (r', s')) →
  wp (write_text d final wrap st) Q (r, s).
Proof using Hr0 Hfinal.
  intros k v first Ht Hb Hso Hpd Hi Hle HQ. pose proof Ht as (Hok & Hfix & Hpad & _).
  pose proof (row_fixed_id _ Hfix) as [Eid Ew]. unfold write_text. fold v. rewrite Hb, decide_False, Hi by done. wp_step.
  cbn [fst snd] in *. fold first. destruct first; [|
    assert ((Z.of_nat k =? final) && IsLeading (DbcsAttr v) = true) as ->
      by (destruct Hpd as [?|[-> ->]]; [done|by rewrite Z.eqb_refl])]; wp_step.
  - apply clear_cell_ok; [done|rewrite Ew; lia|]. intros r' Hok' Hfix' Hat' Hwr' Hpad' Hsh'. wp_step.
    apply set_wrap_ok; [done|done|]. apply HQ; [|done].
    eapply text_inv_snoc; [exact Ht|done|done|done|done|done|by rewrite Hpad'|apply same_elsewhere_refl|done].
  - apply clear_cell_ok; [done|rewrite Ew; lia|]. intros r' Hok' Hfix' Hat' Hwr' Hpad' Hsh'. repeat wp_step.
    apply set_wrap_ok; [done|done|]. apply HQ; [|done].
    eapply text_inv_snoc; [exact Ht|done|done| |done|done|done|apply same_elsewhere_refl|done]. by destruct Hok'.
Qed.

Lemma fills_length k it ps it' padded : fills b final k it ps it' padded → Z.of_nat k <= final + 1 → Z.of_nat (k + length ps) <= final + 1.
Proof using. induction 1; intros Hk; cbn [length]; lia. Qed.

(** One round of the loop, from what it does to the text. *)
Lemma round_ok done p st r s fuel p0 p1 it1 (Q : WriteState → RowWorld → Prop) :
  Iter_valid (w_it st) = true → Z.of_nat (index + length done) <= final →
  TextAttrBehavior (_currentView (w_it st)) = b → p.2 = TextAttr (_currentView (w_it st)) →
  text_inv p0 done (r, s) → color_inv done r st →
  (done = [] → currentColor st = TextAttr (_currentView (w_it st))) →
  currentIndex st = Z.of_nat (index + length done) →
  (∀ st' r' Q', w_it st' = w_it st → currentIndex st' = Z.of_nat (index + length done) → text_inv p0 done (r', s) →
     (∀ r2 s2, text_inv p1 (done ++ [p]) (r2, s2) → attrs r2 = attrs r' → Q' it1 (r2, s2)) →
     wp (write_text d final wrap st') Q' (r', s)) →
  (∀ st' r' s', w_it st' = it1 → text_inv p1 (done ++ [p]) (r', s') → color_inv (done ++ [p]) r' st' →
     currentIndex st' = Z.of_nat (index + length (done ++ [p])) → wp (write_loop d fuel final wrap st') Q (r', s')) →
  wp (write_loop d (S fuel) final wrap st) Q (r, s).
Proof using Hr0 Hfinal.
  intros Hv Hle Hb Hp Ht Hc Hfirst Hi Htext HQ. pose proof (ok_width _ _ Hr0). cbn [write_loop].
  rewrite Hv, Hi, (proj2 (Z.leb_le _ _)) by done. cbn [andb]. wp_step.
  eapply (write_color_ok p0 done p); [done|done|done|done|done|done|lia|]. intros st' r' Ht' Hc' Hit' Hi'. wp_step.
  apply Htext; [done|by rewrite Hi'|done|]. intros r2 s2 Ht2 Hat2. apply HQ; [done|done|by eapply color_inv_attrs|].
  cbn [currentIndex]. rewrite Hi', Hi, length_app, wrapu_small by lia. cbn [length]. lia.
Qed.

Lemma write_loop_ok k it ps it' padded : fills b final k it ps it' padded →
  ∀ done st r s fuel p0 (Q : WriteState → RowWorld → Prop),
  w_it st = it → k = (index + length done)%nat →
  text_inv p0 done (r, s) → color_inv done r st →
  (done = [] → currentColor st = TextAttr (_currentView (w_it st))) →
  currentIndex st = Z.of_nat k → (Z.to_nat (_rowWidth r0) - k <= fuel)%nat →
  (∀ st' r' s', text_inv (padded || p0) (done ++ ps) (r', s') → color_inv (done ++ ps) r' st' → w_it st' = it' →
     currentIndex st' = Z.of_nat (index + length (done ++ ps)) → Q st' (r', s')) →
  wp (write_loop d fuel final wrap st) Q (r, s).
Proof using Hr0 Hfinal.
  pose proof (ok_width _ _ Hr0) as Hw0.
  induction 1 as [k it Hstop|k it it1 ps it' padded Hv Hle Hb Hso Hn _ IH|k it it1 ps it' padded v Hv Hle Hb Hso Hne Htr Hld Hn _ IH
    |it ps it' padded v Hv Hle Hb Hso Htr _ IH|k it v Hv Hle Hb Hso Hld];
    intros done st r s fuel p0 Q <- Ek Ht Hc Hfirst Hi Hfuel HQ; [|destruct fuel as [|fuel]; [lia|]..]; subst k || idtac.
  - rewrite app_nil_r in HQ. assert (Iter_valid (w_it st) && (currentIndex st <=? final) = false) as E.
    { rewrite Hi. destruct Hstop as [->| ?]; [done|]. apply andb_false_iff. right. apply Z.leb_gt. lia. }
    destruct fuel; cbn [write_loop]; rewrite E; by apply wp_ret, HQ.
  - eapply (round_ok done (cell_of_view (_currentView (w_it st)))); try done.
    { intros st' r' Q' Eit' Hi' Ht' HQ'. eapply write_text_color; [done|by rewrite Eit'|done|by rewrite Eit'|done]. }
    intros st' r' s' Eit' Ht' Hc' Hi'. eapply (IH _ st' r' s' fuel p0); [done| |exact Ht'|done|by destruct done| |lia|by rewrite <-app_assoc].
    + rewrite length_app. cbn [length]. lia.
    + rewrite Hi', length_app. cbn [length]. lia.
  - eapply (round_ok done (cell_of_view v)); try done.
    { intros st' r' Q' Eit' Hi' Ht' HQ'. eapply write_text_cell; rewrite ?Eit'; try done. }
    intros st' r' s' Eit' Ht' Hc' Hi'. eapply (IH _ st' r' s' fuel p0); [done| |exact Ht'|done|by destruct done| |lia|by rewrite <-app_assoc].
    + rewrite length_app. cbn [length]. lia.
    + rewrite Hi', length_app. cbn [length]. lia.
  - assert (Z.of_nat (index + length done) =? 0 = true) as E0 by (apply Z.eqb_eq; lia).
    eapply (round_ok done (pad_of_view v)); try done; [lia|by rewrite <-Ek| |].
    { intros st' r' Q' Eit' Hi' Ht' HQ'. eapply write_text_pad; rewrite ?Eit', ?E0; fold v; rewrite ?Htr; try done; [by left|lia]. }
    intros st' r' s' Eit' Ht' Hc' Hi'. eapply (IH _ st' r' s' fuel p0); [done| |exact Ht'|done|by destruct done| |lia|by rewrite <-app_assoc].
    + rewrite length_app. cbn [length]. lia.
    + rewrite Hi', length_app. cbn [length]. lia.
  - assert (IsTrailing (DbcsAttr v) = false) as Htr by (unfold IsTrailing, IsLeading in *; by destruct (_attribute (DbcsAttr v))).
    eapply (round_ok done (pad_of_view v)); try done; [lia| |].
    { intros st' r' Q' Eit' Hi' Ht' HQ'. eapply write_text_pad; rewrite ?Eit'; fold v; rewrite ?Htr, ?andb_false_r; try done; [by right|lia]. }
    intros st' r' s' Eit' Ht' Hc' Hi'. 
    assert (Iter_valid (w_it st') && (currentIndex st' <=? final) = false) as E.
    { rewrite Hi', length_app. apply andb_false_iff. right. apply Z.leb_gt. cbn [length]. lia. }
    destruct fuel; cbn [write_loop]; rewrite E; by apply wp_ret, HQ.
Qed.
End loop.

(** *** The whole function *)

Lemma WriteCells_fills b it ps it' padded (index : nat) (wrap : option bool) (limitRight : option Z) r s :
  let final := default (_rowWidth r - 1) limitRight in
  row_ok r s → Z.of_nat index <= final < _rowWidth r → fills b final index it ps it' padded →
  wp (WriteCells d it (Z.of_nat index) wrap limitRight)
    (λ res w', res = it' ∧ row_ok w'.1 w'.2 ∧ row_fixed w'.1 = row_fixed r
       ∧ _doubleBytePadded w'.1 = padded || _doubleBytePadded r
       ∧ _wrapForced w'.1 = wrapped b wrap final (Z.of_nat (index + length ps)) (_wrapForced r)
       ∧ same_elsewhere (_id r) s w'.2
       ∧ shown w'.1 w'.2 = splice index (placed_cells b ps) (shown r s)
       ∧ attrs w'.1 = splice index (placed_colors b ps) (attrs r)) (r, s).
Proof.
  intros final Hok Hfin Hf. pose proof (ok_width _ _ Hok) as Hw.
  pose proof (fills_length _ _ _ _ _ _ _ Hf ltac:(lia)) as Hlen.
  unfold WriteCells. repeat wp_step. unfold CharRow_size. cbn [fst snd]. rewrite (ok_chars _ _ Hok).
  replace (Z.of_nat (Z.to_nat (_rowWidth r))) with (_rowWidth r) by lia.
  destruct (Z.geb_spec (Z.of_nat index) (_rowWidth r)); [lia|].
  destruct (Z.geb_spec (default 0 limitRight) (_rowWidth r)); [destruct limitRight; cbn in *; lia|].
  fold final. rewrite (wrapu_small 16) by lia. wp_step.
  eapply (write_loop_ok b final wrap index r s Hok ltac:(lia) _ _ _ _ _ Hf [] _ _ _ _ false); cbn [w_it length];
    rewrite ?Nat.add_0_r; try done; [| |lia|].
  - split_and!; try done; cbn [fst snd].
    + unfold wrapped. destruct wrap; [|done]. destruct (decide _) as [[_ E]|]; [|done]. cbn in E. lia.
    + unfold placed_cells. destruct (decide _); cbn; by rewrite splice_nil.
  - destruct (decide (b = Current)); [by left|right]. split; [done|]. exists [], [].
    cbn. split_and!; try done; [by rewrite Nat.add_0_r|]. by rewrite splice_nil.
  - cbn [app]. rewrite orb_false_r. intros st' r' s' Ht Hc Hit Hi. wp_step.
    match goal with |- wp _ (λ _ _, wp _ ?Q' _) _ =>
      assert (∀ r2, text_inv b final wrap index r s padded ps (r2, s') → attrs r2 = splice index (placed_colors b ps) (attrs r) →
        wp (mret (w_it st')) Q' (r2, s')) as Hend end.
    { intros r2 (? & ? & ? & ? & ? & ?) Hat. apply wp_ret. by split_and!. }
    destruct Hc as [(Eb & Hat & ->)|(Eb & committed & pending & Hd & Hst & Hu & Hp & Hne & Hat)].
    + apply wp_ret, Hend; [done|]. unfold placed_colors. rewrite decide_True by done. by rewrite splice_nil.
    + rewrite Hu. destruct pending as [|v0 pending].
      * destruct (decide (ps = [])) as [->|]; [|by destruct Hne]. cbn [length Z.of_nat Z.eqb].
        apply wp_ret, Hend; [done|]. apply symmetry, app_nil in Hd as [-> _].
        unfold placed_colors. destruct (decide _); done.
      * replace (Z.of_nat (length (v0 :: pending)) =? 0) with false by (symmetry; apply Z.eqb_neq; cbn; lia).
        rewrite Hst, Hi. eapply (commit_ok b final wrap index r s Hok padded ps); [done|done|done|done|lia|done|].
        intros r2 Ht2 Hat2. apply Hend; [done|]. unfold placed_colors. by rewrite decide_False by done.
Qed.

(** Cells that need no padding. *)
Lemma yields_fills b final it vs it' : yields it vs it' → ∀ k,
  (∀ j v, vs !! j = Some v → plain b final (k + j) v) → Z.of_nat (k + length vs) <= final + 1 →
  Iter_valid it' = false ∨ Z.of_nat (k + length vs) = final + 1 →
  fills b final k it (cell_of_view <$> vs) it' false.
Proof.
  induction 1 as [it|it it1 vs it' Hv Hn _ IH]; intros k Hpl Hle Hstop; cbn [length] in *.
  - apply fills_stop. destruct Hstop; [by left|right; lia].
  - assert (fills b final (S k) it1 (cell_of_view <$> vs) it' false) as Hf.
    { apply IH; [|lia|destruct Hstop; [by left|right; lia]]. intros j v Hj.
      replace (S k + j)%nat with (k + S j)%nat by lia. by apply Hpl. }
    destruct (Hpl 0%nat _ eq_refl) as [Hb Hp]. rewrite Nat.add_0_r in Hp. destruct (decide (b = StoredOnly)) as [->|Hso].
    + eapply fills_color; try done. lia.
    + destruct (Hp Hso) as (? & ? & ?). eapply fills_cell; try done. lia.
Qed.

Lemma WriteCells_ok b it vs it' (index : nat) (wrap : option bool) (limitRight : option Z) r s :
  let final := default (_rowWidth r - 1) limitRight in
  row_ok r s → Z.of_nat index <= final < _rowWidth r →
  yields it vs it' → (∀ j v, vs !! j = Some v → plain b final (index + j) v) →
  Z.of_nat (index + length vs) <= final + 1 →
  Iter_valid it' = false ∨ Z.of_nat (index + length vs) = final + 1 →
  wp (WriteCells d it (Z.of_nat index) wrap limitRight)
    (λ res w', res = it' ∧ row_ok w'.1 w'.2 ∧ row_fixed w'.1 = row_fixed r
       ∧ _doubleBytePadded w'.1 = _doubleBytePadded r
       ∧ _wrapForced w'.1 = wrapped b wrap final (Z.of_nat (index + length vs)) (_wrapForced r)
       ∧ same_elsewhere (_id r) s w'.2
       ∧ shown w'.1 w'.2 = splice index (written b vs) (shown r s)
       ∧ attrs w'.1 = splice index (colored b vs) (attrs r)) (r, s).
Proof.
  intros final Hok Hfin Hy Hpl Hle Hstop.
  pose proof (WriteCells_fills b it _ it' false index wrap limitRight r s Hok Hfin (yields_fills _ _ _ _ _ Hy _ Hpl Hle Hstop)) as Hw.
  unfold placed_cells, placed_colors in Hw. rewrite length_fmap, <-!list_fmap_compose in Hw. exact Hw.
Qed.

(** C34: writing cells from column [index] to the last column that may be written puts
    there what [fills] says, until the cells or the columns end: each cell in its column,
    but a blank in the colour of the cell, with the cell still to be written, where a
    second half of a wide glyph comes to the first column of the row or a first half to
    the last one; the latter sets the padding flag.  Cells that take the colours of
    the buffer ([Current]) leave the attributes as they are, cells that are colours only
    ([StoredOnly]) leave the characters, and [Stored] cells write both.  Everything else
    is as it was; the wrap flag changes only when the last column is filled, not for
    colours only, the long glyphs of other rows stay, and the returned iterator stands at
    the first cell that was not written. *)
Theorem WriteCells_correct b it ps it' padded (index : nat) (wrap : option bool) (limitRight : option Z) r s :
  let final := default (_rowWidth r - 1) limitRight in
  row_ok r s → Z.of_nat index <= final < _rowWidth r → fills b final index it ps it' padded →
  wp (WriteCells d it (Z.of_nat index) wrap limitRight)
    (λ res w', res = it' ∧ row_ok w'.1 w'.2 ∧ row_fixed w'.1 = row_fixed r
       ∧ _doubleBytePadded w'.1 = padded || _doubleBytePadded r
       ∧ _wrapForced w'.1 = wrapped b wrap final (Z.of_nat (index + length ps)) (_wrapForced r)
       ∧ same_elsewhere (_id r) s w'.2
       ∧ shown w'.1 w'.2 = splice index (placed_cells b ps) (shown r s)
       ∧ attrs w'.1 = splice index (placed_colors b ps) (attrs r)) (r, s).
Proof. apply WriteCells_fills. Qed.
End write.

(** ** New and cleared rows *)

(** All the cells of a blank row. *)
Definition blank_cells (w : Z) : list (wstring * DbcsKind) := replicate (Z.to_nat w) ([UNICODE_SPACE], Single).

Lemma shown_plain r s w :
  Forall (λ c, c = CharRowCell_default) (_charRow r) → length (_charRow r) = Z.to_nat w →
  shown r s = blank_cells w.
Proof.
  intros Hall Hl. apply list_eq. intros i. unfold shown, blank_cells. rewrite list_lookup_imap.
  destruct (_charRow r !! i) as [c|] eqn:Ei.
  - rewrite lookup_replicate_2 by (rewrite <-Hl; by eapply lookup_lt_Some).
    by rewrite (Forall_lookup_1 _ _ _ _ Hall Ei).
  - symmetry. apply lookup_ge_None in Ei. apply lookup_ge_None. rewrite length_replicate. lia.
Qed.

Lemma glyphs_plain id (c : CharRow) s : Forall (λ c, c = CharRowCell_default) c → glyphs_stored id c s.
Proof. intros Hall i x Hi. by rewrite (Forall_lookup_1 _ _ _ _ Hall Hi). Qed.

Lemma ROW_init_ok id w a s :
  0 < w <= 32767 →
  row_ok (ROW_init id w a) s ∧ shown (ROW_init id w a) s = blank_cells w
  ∧ attrs (ROW_init id w a) = replicate (Z.to_nat w) a.
Proof.
  intros Hw. assert (Forall (λ c, c = CharRowCell_default) (CharRow_init w)) as Hall by by apply Forall_replicate.
  split; [split; try done; cbn|split].
  - unfold CharRow_init. by rewrite length_replicate.
  - unfold AttrRow_init, rle_fill, wf. rewrite (proj2 (Z.eqb_neq _ _)) by lia. cbn.
    split; [constructor; [cbn; lia|constructor]|]. unfold total. cbn. lia.
  - by apply glyphs_plain.
  - apply shown_plain; [done|]. apply length_replicate.
  - unfold attrs, ROW_init, AttrRow_init, rle_fill. cbn. rewrite (proj2 (Z.eqb_neq _ _)) by lia.
    cbn. by rewrite app_nil_r.
Qed.

(** A reset row is a new one, whatever the storage still holds for it. *)
Lemma ROW_Reset_ok a r s :
  row_ok r s →
  ∃ r', ROW_Reset a r = (true, r') ∧ row_ok r' s ∧ _id r' = _id r ∧ _rowWidth r' = _rowWidth r
    ∧ _lineRendition r' = SingleWidth ∧ _wrapForced r' = false ∧ _doubleBytePadded r' = false
    ∧ shown r' s = blank_cells (_rowWidth r) ∧ attrs r' = replicate (Z.to_nat (_rowWidth r)) a.
Proof.
  intros Hr. pose proof Hr as [Hw Hch Ha1 Ha2 Hg]. unfold ROW_Reset, AttrRow_Reset, rle_size.
  cbn [SetDoubleBytePadded SetWrapForced SetLineRendition set_charRow _attrRow _charRow].
  pose proof (replace_attrs_ok r s 0 (Z.to_nat (_rowWidth r)) a Hr ltac:(lia) ltac:(lia)) as (v' & E & Hok' & Hat').
  unfold AttrRow_Replace in E. rewrite Z2Nat.id in E by lia. rewrite Ha2. change (Z.of_nat 0) with 0 in E. rewrite E.
  assert (Forall (λ c, c = CharRowCell_default) (CharRow_Reset (_charRow r))) as Hall.
  { apply Forall_fmap, Forall_true. by intros []. }
  eexists. split; [done|]. split; [|split_and!; try done].
  - destruct Hok'. split; try done; cbn; [unfold CharRow_Reset; by rewrite length_fmap|by apply glyphs_plain].
  - apply shown_plain; [done|]. cbn. unfold CharRow_Reset. by rewrite length_fmap.
  - change (attrs (set_attrRow v' r) = replicate (Z.to_nat (_rowWidth r)) a). rewrite Hat'. unfold splice.
    rewrite length_replicate, Nat.sub_0_r, take_0, drop_ge, app_nil_r; [done|].
    rewrite (length_attrs r s Hr). lia.
Qed.

#[local] Existing Instance sample_width.

(** A wide glyph does not fit into the last column: padding, and the glyph is still to come. *)
Lemma WriteCells_correct_witness :
  wp (WriteCells LegacyDefaults_init (Iter_text_attr [65; 0x4E00] TextAttribute_default) 1 (Some true) None)
    (λ res w', shown w'.1 w'.2 = [([32], Single); ([65], Single); ([32], Single)] ∧ _wrapForced w'.1 = true
       ∧ _doubleBytePadded w'.1 = true ∧ Chars (_currentView res) = [0x4E00])
    (ROW_init 0 3 TextAttribute_default, ∅).
Proof.
  eapply wp_mono; [eapply (WriteCells_correct LegacyDefaults_init Stored _ _ _ true 1 (Some true) None)|].
  - by apply ROW_init_ok.
  - cbn. lia.
  - eapply fills_cell; [reflexivity|cbn; lia|reflexivity|done|done|done|done|reflexivity|].
    apply fills_pad_last; [reflexivity|reflexivity|reflexivity|done|reflexivity].
  - cbv beta. intros res w' (-> & _ & _ & -> & -> & _ & -> & _). repeat split; reflexivity.
Defined.
