(* ===== verification/Cursor.v ===== *)
(** The cursor of a text buffer: [src/src/buffer/out/cursor.cpp], [cursor.h].

    The render target is outside of the program part that is modelled; the
    positions the cursor asks it to redraw are recorded in [redrawn]. *)

From S2P Require Import Prelude DispatchTypes Viewport OutputCell.

Inductive CursorType :=
  | CursorLegacy | VerticalBar | Underscore | EmptyBox | FullBox | DoubleUnderscore.

Record Cursor := mkCursor {
  _cPosition : COORD;
  _fHasMoved : bool;
  _fIsVisible : bool;
  _fIsOn : bool;
  _fIsDouble : bool;
  _fBlinkingAllowed : bool;
  _fDelay : bool;
  _fIsConversionArea : bool;
  _fIsPopupShown : bool;
  _fDelayedEolWrap : bool;
  _coordDelayedAt : COORD;
  _fDeferCursorRedraw : bool;
  _fHaveDeferredCursorRedraw : bool;
  _ulSize : Z;
  _cursorType : CursorType;
  _color : Z;
  redrawn : list COORD
}.

Definition Cursor_init (ulSize : Z) : Cursor :=
  mkCursor (mkCOORD 0 0) false true true false true false false false false (mkCOORD 0 0) false false
    ulSize CursorLegacy INVALID_COLOR [].

(** ** Members *)

Definition set_position (p : COORD) (c : Cursor) : Cursor :=
  mkCursor p (_fHasMoved c) (_fIsVisible c) (_fIsOn c) (_fIsDouble c) (_fBlinkingAllowed c) (_fDelay c)
    (_fIsConversionArea c) (_fIsPopupShown c) (_fDelayedEolWrap c) (_coordDelayedAt c)
    (_fDeferCursorRedraw c) (_fHaveDeferredCursorRedraw c) (_ulSize c) (_cursorType c) (_color c) (redrawn c).

Definition set_delayed (wrap : bool) (at_ : COORD) (c : Cursor) : Cursor :=
  mkCursor (_cPosition c) (_fHasMoved c) (_fIsVisible c) (_fIsOn c) (_fIsDouble c) (_fBlinkingAllowed c)
    (_fDelay c) (_fIsConversionArea c) (_fIsPopupShown c) wrap at_
    (_fDeferCursorRedraw c) (_fHaveDeferredCursorRedraw c) (_ulSize c) (_cursorType c) (_color c) (redrawn c).

Definition set_deferred (defer have : bool) (log : list COORD) (c : Cursor) : Cursor :=
  mkCursor (_cPosition c) (_fHasMoved c) (_fIsVisible c) (_fIsOn c) (_fIsDouble c) (_fBlinkingAllowed c)
    (_fDelay c) (_fIsConversionArea c) (_fIsPopupShown c) (_fDelayedEolWrap c) (_coordDelayedAt c)
    defer have (_ulSize c) (_cursorType c) (_color c) log.

Definition set_looks (moved visible on double blinking delay conversion popup : bool) (c : Cursor) : Cursor :=
  mkCursor (_cPosition c) moved visible on double blinking delay conversion popup (_fDelayedEolWrap c)
    (_coordDelayedAt c) (_fDeferCursorRedraw c) (_fHaveDeferredCursorRedraw c) (_ulSize c) (_cursorType c)
    (_color c) (redrawn c).

Definition set_style (ulSize : Z) (type : CursorType) (color : Z) (c : Cursor) : Cursor :=
  mkCursor (_cPosition c) (_fHasMoved c) (_fIsVisible c) (_fIsOn c) (_fIsDouble c) (_fBlinkingAllowed c)
    (_fDelay c) (_fIsConversionArea c) (_fIsPopupShown c) (_fDelayedEolWrap c) (_coordDelayedAt c)
    (_fDeferCursorRedraw c) (_fHaveDeferredCursorRedraw c) ulSize type color (redrawn c).

(** ** Drawing *)

Definition _RedrawCursorAlways (c : Cursor) : Cursor :=
  set_deferred (_fDeferCursorRedraw c) (_fHaveDeferredCursorRedraw c) (redrawn c ++ [_cPosition c]) c.

Definition _RedrawCursor (c : Cursor) : Cursor :=
  if _fIsOn c && negb (_fIsConversionArea c) then
    if _fDeferCursorRedraw c then set_deferred true true (redrawn c) c else _RedrawCursorAlways c
  else c.

Definition StartDeferDrawing (c : Cursor) : Cursor :=
  set_deferred true (_fHaveDeferredCursorRedraw c) (redrawn c) c.

Definition EndDeferDrawing (c : Cursor) : Cursor :=
  let c := if _fHaveDeferredCursorRedraw c then _RedrawCursorAlways c else c in
  set_deferred false (_fHaveDeferredCursorRedraw c) (redrawn c) c.

(** ** Delayed wrap *)

Definition DelayEOLWrap (coordDelayedAt : COORD) : Cursor → Cursor := set_delayed true coordDelayedAt.

Definition ResetDelayEOLWrap : Cursor → Cursor := set_delayed false (mkCOORD 0 0).

(** ** Moving *)

Definition SetPosition (p : COORD) (c : Cursor) : Cursor :=
  ResetDelayEOLWrap (_RedrawCursor (set_position p (_RedrawCursor c))).

(** [gsl::narrow] in a [noexcept] function: a number that is no [SHORT] ends the
    process. *)
Definition narrow_short (n : Z) : exn + Z :=
  if (-32768 <=? n) && (n <=? 32767) then inr n else inl FailFast.

Definition SetXPosition (NewX : Z) (c : Cursor) : exn + Cursor :=
  x ← narrow_short NewX; inr (SetPosition (mkCOORD x (Y (_cPosition c))) c).

Definition SetYPosition (NewY : Z) (c : Cursor) : exn + Cursor :=
  y ← narrow_short NewY; inr (SetPosition (mkCOORD (X (_cPosition c)) y) c).

Definition IncrementXPosition (DeltaX : Z) (c : Cursor) : exn + Cursor :=
  x ← narrow_short DeltaX;
  inr (SetPosition (mkCOORD (i16 (X (_cPosition c) + x)) (Y (_cPosition c))) c).

Definition IncrementYPosition (DeltaY : Z) (c : Cursor) : exn + Cursor :=
  y ← narrow_short DeltaY;
  inr (SetPosition (mkCOORD (X (_cPosition c)) (i16 (Y (_cPosition c) + y))) c).

Definition DecrementXPosition (DeltaX : Z) (c : Cursor) : exn + Cursor :=
  x ← narrow_short DeltaX;
  inr (SetPosition (mkCOORD (i16 (X (_cPosition c) - x)) (Y (_cPosition c))) c).

Definition DecrementYPosition (DeltaY : Z) (c : Cursor) : exn + Cursor :=
  y ← narrow_short DeltaY;
  inr (SetPosition (mkCOORD (X (_cPosition c)) (i16 (Y (_cPosition c) - y))) c).

(** ** Looks *)

Definition SetHasMoved (b : bool) (c : Cursor) : Cursor :=
  set_looks b (_fIsVisible c) (_fIsOn c) (_fIsDouble c) (_fBlinkingAllowed c) (_fDelay c)
    (_fIsConversionArea c) (_fIsPopupShown c) c.

Definition SetIsVisible (b : bool) (c : Cursor) : Cursor :=
  _RedrawCursor (set_looks (_fHasMoved c) b (_fIsOn c) (_fIsDouble c) (_fBlinkingAllowed c) (_fDelay c)
    (_fIsConversionArea c) (_fIsPopupShown c) c).

Definition SetIsOn (b : bool) (c : Cursor) : Cursor :=
  _RedrawCursorAlways (set_looks (_fHasMoved c) (_fIsVisible c) b (_fIsDouble c) (_fBlinkingAllowed c)
    (_fDelay c) (_fIsConversionArea c) (_fIsPopupShown c) c).

Definition SetBlinkingAllowed (b : bool) (c : Cursor) : Cursor :=
  _RedrawCursorAlways (set_looks (_fHasMoved c) (_fIsVisible c) (_fIsOn c) (_fIsDouble c) b (_fDelay c)
    (_fIsConversionArea c) (_fIsPopupShown c) c).

Definition SetIsDouble (b : bool) (c : Cursor) : Cursor :=
  _RedrawCursor (set_looks (_fHasMoved c) (_fIsVisible c) (_fIsOn c) b (_fBlinkingAllowed c) (_fDelay c)
    (_fIsConversionArea c) (_fIsPopupShown c) c).

Definition SetIsConversionArea (b : bool) (c : Cursor) : Cursor :=
  _RedrawCursorAlways (set_looks (_fHasMoved c) (_fIsVisible c) (_fIsOn c) (_fIsDouble c)
    (_fBlinkingAllowed c) (_fDelay c) b (_fIsPopupShown c) c).

Definition SetIsPopupShown (b : bool) (c : Cursor) : Cursor :=
  _RedrawCursorAlways (set_looks (_fHasMoved c) (_fIsVisible c) (_fIsOn c) (_fIsDouble c)
    (_fBlinkingAllowed c) (_fDelay c) (_fIsConversionArea c) b c).

Definition SetDelay (b : bool) (c : Cursor) : Cursor :=
  set_looks (_fHasMoved c) (_fIsVisible c) (_fIsOn c) (_fIsDouble c) (_fBlinkingAllowed c) b
    (_fIsConversionArea c) (_fIsPopupShown c) c.

Definition SetSize (ulSize : Z) (c : Cursor) : Cursor :=
  _RedrawCursor (set_style ulSize (_cursorType c) (_color c) c).

Definition SetStyle (ulSize color : Z) (type : CursorType) (c : Cursor) : Cursor :=
  _RedrawCursor (set_style ulSize type color c).

Definition Cursor_SetColor (color : Z) (c : Cursor) : Cursor := set_style (_ulSize c) (_cursorType c) color c.

Definition Cursor_SetType (type : CursorType) (c : Cursor) : Cursor := set_style (_ulSize c) type (_color c) c.

Definition IsUsingColor (c : Cursor) : bool := negb (_color c =? INVALID_COLOR).

Definition Cursor_CopyProperties (other c : Cursor) : Cursor :=
  set_deferred (_fDeferCursorRedraw other) (_fHaveDeferredCursorRedraw other) (redrawn c)
    (set_style (_ulSize c) (_cursorType other) (_color other)
      (set_looks (_fHasMoved other) (_fIsVisible other) (_fIsOn other) (_fIsDouble other)
        (_fBlinkingAllowed other) (_fDelay other) (_fIsConversionArea other) (_fIsPopupShown c) c)).

(** ** Facts *)

Lemma RedrawCursor_position c : _cPosition (_RedrawCursor c) = _cPosition c.
Proof. unfold _RedrawCursor. by repeat case_match. Qed.

Lemma SetPosition_ok p c :
  _cPosition (SetPosition p c) = p ∧ _fDelayedEolWrap (SetPosition p c) = false.
Proof. unfold SetPosition. split; [|done]. cbn. by rewrite RedrawCursor_position. Qed.

(** A redraw that was deferred once is made at the end of every later deferral,
    also when nothing has been deferred in between: nothing clears the flag. *)
Lemma deferred_redraw_sticks :
  let c := EndDeferDrawing (SetPosition (mkCOORD 1 1) (StartDeferDrawing (Cursor_init 25))) in
  redrawn c = [mkCOORD 1 1] ∧ redrawn (EndDeferDrawing (StartDeferDrawing c)) = [mkCOORD 1 1; mkCOORD 1 1].
Proof. done. Qed.
