(* ===== verification/TextBuffer.v ===== *)
(** The text buffer: [src/src/buffer/out/textBuffer.cpp] and [textBuffer.hpp], with
    the reading side of [textBufferCellIterator.cpp].

    The rows are kept in a circular vector.  The calls of the render target,
    which only ask for a repaint, are left out. *)

From S2P Require Import Prelude DispatchTypes TextColor TextAttribute Rle RleIter Viewport OutputCell CharRow Row Cursor.
From stdpp Require Import gmap.

#[local] Open Scope Z_scope.

Record TextBuffer := mkTextBuffer {
  _size : Viewport;
  _storage : list ROW;
  _cursor : Cursor;
  _firstRow : Z;
  _currentAttributes : TextAttribute;
  _unicodeStorage : UnicodeStorage;
  _hyperlinkMap : gmap Z (list Z);
  _hyperlinkCustomIdMap : gmap (list Z) Z;
  _currentHyperlinkId : Z
}.

Definition set_size (v : Viewport) (t : TextBuffer) : TextBuffer :=
  mkTextBuffer v (_storage t) (_cursor t) (_firstRow t) (_currentAttributes t) (_unicodeStorage t)
    (_hyperlinkMap t) (_hyperlinkCustomIdMap t) (_currentHyperlinkId t).
Definition set_rows (l : list ROW) (s : UnicodeStorage) (t : TextBuffer) : TextBuffer :=
  mkTextBuffer (_size t) l (_cursor t) (_firstRow t) (_currentAttributes t) s
    (_hyperlinkMap t) (_hyperlinkCustomIdMap t) (_currentHyperlinkId t).
Definition set_cursor (c : Cursor) (t : TextBuffer) : TextBuffer :=
  mkTextBuffer (_size t) (_storage t) c (_firstRow t) (_currentAttributes t) (_unicodeStorage t)
    (_hyperlinkMap t) (_hyperlinkCustomIdMap t) (_currentHyperlinkId t).
Definition _SetFirstRowIndex (f : Z) (t : TextBuffer) : TextBuffer :=
  mkTextBuffer (_size t) (_storage t) (_cursor t) f (_currentAttributes t) (_unicodeStorage t)
    (_hyperlinkMap t) (_hyperlinkCustomIdMap t) (_currentHyperlinkId t).
Definition SetCurrentAttributes (a : TextAttribute) (t : TextBuffer) : TextBuffer :=
  mkTextBuffer (_size t) (_storage t) (_cursor t) (_firstRow t) a (_unicodeStorage t)
    (_hyperlinkMap t) (_hyperlinkCustomIdMap t) (_currentHyperlinkId t).
Definition set_links (m : gmap Z (list Z)) (c : gmap (list Z) Z) (i : Z) (t : TextBuffer) : TextBuffer :=
  mkTextBuffer (_size t) (_storage t) (_cursor t) (_firstRow t) (_currentAttributes t) (_unicodeStorage t)
    m c i.

Definition TotalRowCount (t : TextBuffer) : Z := Z.of_nat (length (_storage t)).

(** [_UpdateSize]: the width is the one of the first row. *)
Definition size_of_rows (l : list ROW) : exn + Viewport :=
  match l with
  | [] => inl OutOfRange
  | r :: _ =>
      let fits z := (z <=? 32767) in
      if fits (_rowWidth r) && fits (Z.of_nat (length l))
      then inr (FromDimensions (mkCOORD 0 0) (mkCOORD (_rowWidth r) (Z.of_nat (length l))))
      else inl NarrowingError
  end.

Definition TextBuffer_init (screenBufferSize : COORD) (defaultAttributes : TextAttribute) (cursorSize : Z)
    : exn + TextBuffer :=
  let rows := (λ i, ROW_init (i16 i) (u16 (X screenBufferSize)) defaultAttributes)
                <$> seqZ 0 (Y screenBufferSize) in
  size ← size_of_rows rows;
  inr (mkTextBuffer size rows (Cursor_init cursorSize) 0 defaultAttributes ∅ ∅ ∅ 1).

(** ** Rows *)

(** The place of a logical row; the index is a [size_t]. *)
Definition offsetIndex (t : TextBuffer) (index : Z) : exn + nat :=
  if TotalRowCount t =? 0 then inl UndefinedBehavior
  else inr (Z.to_nat (u64 (_firstRow t + index) mod TotalRowCount t)).

Definition GetRowByOffset (index : Z) (t : TextBuffer) : exn + ROW :=
  i ← offsetIndex t index;
  match _storage t !! i with Some r => inr r | None => inl OutOfRange end.

(** A program on a logical row. *)
Definition on_row {A} (index : Z) (m : prog RowWorld A) : prog TextBuffer A := λ t,
  match offsetIndex t index with
  | inl e => Throw e t
  | inr i =>
      match _storage t !! i with
      | None => Throw OutOfRange t
      | Some r =>
          match m (r, _unicodeStorage t) with
          | Ok a w => Ok a (set_rows (<[i := w.1]> (_storage t)) w.2 t)
          | Throw e w => Throw e (set_rows (<[i := w.1]> (_storage t)) w.2 t)
          end
      end
  end.

Definition on_cursor (f : Cursor → exn + Cursor) : prog TextBuffer unit := λ t,
  match f (_cursor t) with
  | inr c => Ok tt (set_cursor c t)
  | inl e => Throw e t
  end.

(** ** Line renditions *)

Definition GetLineRendition (row : Z) (t : TextBuffer) : exn + LineRendition :=
  r ← GetRowByOffset row t; inr (_lineRendition r).

Definition IsDoubleWidthLine (row : Z) (t : TextBuffer) : exn + bool :=
  l ← GetLineRendition row t; inr (negb (bool_decide (l = SingleWidth))).

Definition GetLineWidth (row : Z) (t : TextBuffer) : exn + Z :=
  double ← IsDoubleWidthLine row t;
  inr (Z.shiftr (Width (_size t)) (if (double : bool) then 1 else 0)).

Definition ClampPositionWithinLine (position : COORD) (t : TextBuffer) : exn + COORD :=
  w ← GetLineWidth (Y position) t;
  inr (mkCOORD (Z.min (X position) (i16 (w - 1))) (Y position)).

Definition ScreenToBufferPosition (position : COORD) (t : TextBuffer) : exn + COORD :=
  double ← IsDoubleWidthLine (Y position) t;
  inr (mkCOORD (Z.shiftr (X position) (if (double : bool) then 1 else 0)) (Y position)).

Definition BufferToScreenPosition (position : COORD) (t : TextBuffer) : exn + COORD :=
  double ← IsDoubleWidthLine (Y position) t;
  inr (mkCOORD (i16 (Z.shiftl (X position) (if (double : bool) then 1 else 0))) (Y position)).

Fixpoint reset_renditions (n : nat) (row : Z) : prog TextBuffer unit :=
  match n with
  | O => mret tt
  | S n => on_row row (on_flags (SetLineRendition SingleWidth));; reset_renditions n (row + 1)
  end.

Definition ResetLineRenditionRange (startRow endRow : Z) : prog TextBuffer unit :=
  reset_renditions (Z.to_nat (endRow - startRow)) startRow.

(** ** Hyperlinks *)

Definition AddHyperlinkToMap (uri : wstring) (id : Z) (t : TextBuffer) : TextBuffer :=
  set_links (<[id := uri]> (_hyperlinkMap t)) (_hyperlinkCustomIdMap t) (_currentHyperlinkId t) t.

Definition GetHyperlinkUriFromId (id : Z) (t : TextBuffer) : exn + wstring :=
  match _hyperlinkMap t !! id with Some uri => inr uri | None => inl OutOfRange end.

Definition skip_zero (id : Z) : Z := if id =? 0 then 1 else id.

(** [suffix] is the text of the hash of the address, which is appended to an id
    that the application gives. *)
Definition GetHyperlinkId_ (suffix : wstring → wstring) (uri id : wstring) (t : TextBuffer)
    : Z * TextBuffer :=
  let next := u16 (_currentHyperlinkId t + 1) in
  match id with
  | [] =>
      (_currentHyperlinkId t, set_links (_hyperlinkMap t) (_hyperlinkCustomIdMap t) (skip_zero next) t)
  | _ =>
      let newId := id ++ [37] ++ suffix uri in
      match _hyperlinkCustomIdMap t !! newId with
      | Some numericId =>
          (numericId, set_links (_hyperlinkMap t) (_hyperlinkCustomIdMap t)
                        (skip_zero (_currentHyperlinkId t)) t)
      | None =>
          (_currentHyperlinkId t,
           set_links (_hyperlinkMap t) (<[newId := _currentHyperlinkId t]> (_hyperlinkCustomIdMap t))
             (skip_zero next) t)
      end
  end.

(** At most one custom id of the link is removed. *)
Definition RemoveHyperlinkFromMap (id : Z) (t : TextBuffer) : TextBuffer :=
  let custom := _hyperlinkCustomIdMap t in
  set_links (delete id (_hyperlinkMap t))
    (match list_find (λ p, p.2 = id) (map_to_list custom) with
     | Some (_, (key, _)) => delete key custom
     | None => custom
     end) (_currentHyperlinkId t) t.

Definition GetCustomIdFromId (id : Z) (t : TextBuffer) : wstring :=
  match list_find (λ p, p.2 = id) (map_to_list (_hyperlinkCustomIdMap t)) with
  | Some (_, (key, _)) => key
  | None => []
  end.

Definition CopyHyperlinkMaps (other t : TextBuffer) : TextBuffer :=
  set_links (_hyperlinkMap other) (_hyperlinkCustomIdMap other) (_currentHyperlinkId other) t.

(** The loop over the other rows: the references that are left. *)
Fixpoint other_refs (n : nat) (i : Z) (refs : gset Z) (t : TextBuffer) : exn + gset Z :=
  match n with
  | O => inr refs
  | S n =>
      r ← GetRowByOffset i t;
      let refs := refs ∖ list_to_set (GetHyperlinks (_attrRow r)) in
      if decide (refs = ∅) then inr refs else other_refs n (i + 1) refs t
  end.

Definition _PruneHyperlinks : prog TextBuffer unit :=
  first ← (t ← gets id;
           match _storage t !! Z.to_nat (_firstRow t) with
           | Some r => mret r
           | None => throw OutOfRange
           end);
  let hyperlinks := GetHyperlinks (_attrRow (first : ROW)) in
  match hyperlinks with
  | [] => mret tt
  | _ =>
      t ← gets id;
      refs ← lift (other_refs (length (_storage (t : TextBuffer)) - 1) 1 (list_to_set hyperlinks) t);
      modify (λ t, set_fold RemoveHyperlinkFromMap t (refs : gset Z))
  end.

(** ** The circular buffer *)

Definition IncrementCircularBuffer (inVtMode : bool) : prog TextBuffer bool :=
  _PruneHyperlinks;;
  t ← gets id;
  let fillAttributes :=
    if inVtMode then SetStandardErase (_currentAttributes t) else _currentAttributes t in
  match _storage t !! Z.to_nat (_firstRow t) with
  | None => throw OutOfRange
  | Some r =>
      let '(fSuccess, r') := ROW_Reset fillAttributes r in
      modify (λ t, set_rows (<[Z.to_nat (_firstRow t) := r']> (_storage t)) (_unicodeStorage t) t);;
      if (fSuccess : bool) then
        modify (λ t, let f := i16 (_firstRow t + 1) in
                     _SetFirstRowIndex (if f >=? Height (_size t) then 0 else f) t);;
        mret true
      else mret false
  end.

(** ** Cursor movement *)

Definition NewlineCursor : prog TextBuffer bool :=
  iFinalRowIndex ← gets (λ t, BottomInclusive (_size t));
  on_cursor (SetXPosition 0);;
  on_cursor (IncrementYPosition 1);;
  y ← gets (λ t, Y (_cPosition (_cursor t)));
  if y >? iFinalRowIndex then
    on_cursor (SetYPosition iFinalRowIndex);;
    IncrementCircularBuffer false
  else mret true.

Definition _AdjustWrapOnCurrentRow (fSet : bool) : prog TextBuffer unit :=
  y ← gets (λ t, Y (_cPosition (_cursor t)));
  on_row (u32 y) (on_flags (SetWrapForced fSet)).

Definition _SetWrapOnCurrentRow : prog TextBuffer unit := _AdjustWrapOnCurrentRow true.

Definition IncrementCursor : prog TextBuffer bool :=
  t ← gets id;
  width ← lift (GetLineWidth (Y (_cPosition (_cursor t))) t);
  let iFinalColumnIndex := i16 (width - 1) in
  on_cursor (IncrementXPosition 1);;
  x ← gets (λ t, X (_cPosition (_cursor t)));
  if x >? iFinalColumnIndex then
    _SetWrapOnCurrentRow;;
    NewlineCursor
  else mret true.

Definition _GetPreviousFromCursor (t : TextBuffer) : exn + COORD :=
  let p := _cPosition (_cursor t) in
  if X p >? 0 then inr (mkCOORD (i16 (X p - 1)) (Y p))
  else if Y p >? 0 then
    let y := i16 (Y p - 1) in
    w ← GetLineWidth y t; inr (mkCOORD (i16 (w - 1)) y)
  else inr p.

(** ** Writing *)

Section write.
Context `{GlyphWidth} (d : LegacyDefaults).

Definition WriteLine (givenIt : OutputCellIterator) (target : COORD) (wrap : option bool)
    (limitRight : option Z) : prog TextBuffer OutputCellIterator :=
  size ← gets _size;
  if negb (IsInBounds size target false) then mret givenIt
  else
    newIt ← on_row (Y target) (WriteCells d givenIt (X target) wrap limitRight);
    let written := GetCellDistance newIt givenIt in
    if (-32768 <=? written) && (written <=? 32767) then mret newIt else throw NarrowingError.

Fixpoint write_lines (fuel : nat) (size : Viewport) (wrap : option bool) (it : OutputCellIterator)
    (lineTarget : COORD) : prog TextBuffer OutputCellIterator :=
  if Iter_valid it && IsInBounds size lineTarget false then
    match fuel with
    | O => throw OutOfFuel
    | S fuel =>
        it ← WriteLine it lineTarget wrap None;
        write_lines fuel size wrap it (mkCOORD 0 (i16 (Y lineTarget + 1)))
    end
  else mret it.

Definition Write (givenIt : OutputCellIterator) (target : COORD) (wrap : option bool)
    : prog TextBuffer OutputCellIterator :=
  size ← gets _size;
  write_lines (Z.to_nat (Height size)) size wrap givenIt target.

Definition Write_at_cursor (givenIt : OutputCellIterator) : prog TextBuffer OutputCellIterator :=
  target ← gets (λ t, _cPosition (_cursor t));
  Write givenIt target (Some true).

(** The right half of a line that gets double width is erased. *)
Definition SetCurrentLineRendition (lineRendition : LineRendition) : prog TextBuffer unit :=
  cursorPosition ← gets (λ t, _cPosition (_cursor t));
  let rowIndex := Y cursorPosition in
  t ← gets id;
  old ← lift (GetLineRendition rowIndex t);
  if decide (old = lineRendition) then mret tt
  else
    on_row rowIndex (on_flags (SetLineRendition lineRendition);; on_flags (SetWrapForced false));;
    if decide (lineRendition = SingleWidth) then mret tt
    else
      t ← gets id;
      let fillAttrs := SetStandardErase (_currentAttributes t) in
      fillOffset ← lift (GetLineWidth rowIndex t);
      let fillLength := Width (_size t) - fillOffset in
      on_row rowIndex (WriteCells d (Iter_fill UNICODE_SPACE fillAttrs fillLength) fillOffset (Some false) None);;
      t ← gets id;
      p ← lift (ClampPositionWithinLine cursorPosition t);
      on_cursor (λ c, inr (SetPosition p c)).
End write.

(** [Throw] in a [try] block that logs and goes on. *)
Definition or_else {W A} (m : prog W A) (k : prog W A) : prog W A := λ w,
  match m w with
  | Ok a w => Ok a w
  | Throw _ w => k w
  end.

Definition _AssertValidDoubleByteSequence (dbcsAttribute : DbcsAttribute) : prog TextBuffer bool :=
  t ← gets id;
  coordPrevPosition ← lift (_GetPreviousFromCursor t);
  prevRow ← lift (GetRowByOffset (Y coordPrevPosition) t);
  match DbcsAttrAt (u64 (X coordPrevPosition)) (_charRow prevRow) with
  | inl _ => mret false
  | inr prevDbcsAttr =>
      if IsSingle prevDbcsAttr && IsTrailing dbcsAttribute then mret false
      else if IsLeading prevDbcsAttr then
        if IsSingle dbcsAttribute || IsLeading dbcsAttribute then
          or_else (on_row (Y coordPrevPosition) (ClearColumn (u64 (X coordPrevPosition)));; mret true)
            (mret false)
        else mret true
      else if IsTrailing prevDbcsAttr && IsTrailing dbcsAttribute then mret false
      else mret true
  end.

Definition _PrepareForDoubleByteSequence (dbcsAttribute : DbcsAttribute) : prog TextBuffer bool :=
  _ ← _AssertValidDoubleByteSequence dbcsAttribute;
  if IsLeading dbcsAttribute then
    t ← gets id;
    let cursorPosition := _cPosition (_cursor t) in
    lineWidth ← lift (GetLineWidth (Y cursorPosition) t);
    if X cursorPosition =? lineWidth - 1 then
      on_row (Y cursorPosition) (on_flags (SetDoubleBytePadded true));;
      IncrementCursor
    else mret true
  else mret true.

(** The glyph is stored before the attribute of the cell is replaced. *)
Definition InsertCharacter (chars : wstring) (dbcsAttribute : DbcsAttribute) (attr : TextAttribute)
    : prog TextBuffer bool :=
  fSuccess ← _PrepareForDoubleByteSequence dbcsAttribute;
  if (fSuccess : bool) then
    p ← gets (λ t, _cPosition (_cursor t));
    stored ← or_else
      (on_row (Y p) (assign_glyph (u64 (X p)) chars;; on_chars (set_DbcsAttrAt (u64 (X p)) dbcsAttribute));; mret true)
      (mret false);
    if (stored : bool) then
      on_row (Y p) (on_attrs (SetAttrToEnd (u16 (X p)) attr));;
      IncrementCursor
    else mret false
  else mret false.

Definition TextBuffer_Reset (t : TextBuffer) : TextBuffer :=
  set_rows ((λ r, (ROW_Reset (_currentAttributes t) r).2) <$> _storage t) (_unicodeStorage t) t.

(** ** Moving rows *)

(** [std::rotate(first, n_first, last)] on positions; it needs
    [first <= n_first <= last] inside the vector. *)
Definition std_rotate {A} (l : list A) (first n_first last : Z) : exn + list A :=
  if (0 <=? first) && (first <=? n_first) && (n_first <=? last) && (last <=? Z.of_nat (length l)) then
    inr (take (Z.to_nat first) l
         ++ take (Z.to_nat (last - n_first)) (drop (Z.to_nat n_first) l)
         ++ take (Z.to_nat (n_first - first)) (drop (Z.to_nat first) l)
         ++ drop (Z.to_nat last) l)
  else inl UndefinedBehavior.

(** The loop of [_RefreshRowIDs]: the rows with new ids and, if asked for, a new
    width, and the map from old ids to new ones. *)
Fixpoint refresh_rows (newRowWidth : option Z) (i : Z) (rowMap : gmap Z Z) (l : list ROW)
    : option exn * list ROW * gmap Z Z :=
  match l with
  | [] => (None, [], rowMap)
  | r :: l' =>
      let rowMap := match rowMap !! _id r with Some _ => rowMap | None => <[_id r := i]> rowMap end in
      let r := SetId i r in
      match newRowWidth with
      | None =>
          let '(e, rows, rowMap) := refresh_rows newRowWidth (i16 (i + 1)) rowMap l' in
          (e, r :: rows, rowMap)
      | Some w =>
          match ROW_Resize (u16 w) r with
          | (Some e, r) => (Some e, r :: l', rowMap)
          | (None, r) =>
              let '(e, rows, rowMap) := refresh_rows newRowWidth (i16 (i + 1)) rowMap l' in
              (e, r :: rows, rowMap)
          end
      end
  end.

Definition _RefreshRowIDs (newRowWidth : option Z) : prog TextBuffer unit := λ t,
  match refresh_rows newRowWidth 0 ∅ (_storage t) with
  | (Some e, rows, _) => Throw e (set_rows rows (_unicodeStorage t) t)
  | (None, rows, rowMap) => Ok tt (set_rows rows (Remap rowMap newRowWidth (_unicodeStorage t)) t)
  end.

Definition on_storage (f : list ROW → exn + list ROW) : prog TextBuffer unit := λ t,
  match f (_storage t) with
  | inr l => Ok tt (set_rows l (_unicodeStorage t) t)
  | inl e => Throw e t
  end.

Definition ScrollRows (firstRow size delta : Z) : prog TextBuffer unit :=
  if delta =? 0 then mret tt
  else
    f ← gets _firstRow;
    (if f =? 0 then mret tt
     else
       on_storage (λ l, std_rotate l 0 f (Z.of_nat (length l)));;
       modify (_SetFirstRowIndex 0));;
    (if delta <? 0
     then on_storage (λ l, std_rotate l (firstRow + delta) firstRow (firstRow + size))
     else on_storage (λ l, std_rotate l firstRow (firstRow + size) (firstRow + size + delta)));;
    _RefreshRowIDs None.

(** ** Resizing *)

(** [None] is success.  An exception becomes an error code; what was done before
    it stays. *)
Definition ResizeTraditional (newSize : COORD) (t : TextBuffer) : option exn * TextBuffer :=
  if (X newSize <? 0) || (Y newSize <? 0) then (Some InvalidArg, t)
  else
    let m : prog TextBuffer unit :=
      let currentSize := Dimensions (_size t) in
      let y := Y (_cPosition (_cursor t)) in
      let TopRow := if Y newSize <=? y then i16 (y - Y newSize + 1) else 0 in
      (if Y currentSize =? 0 then throw UndefinedBehavior else mret tt);;
      let TopRowIndex := i16 (Z.rem (_firstRow t + TopRow) (Y currentSize)) in
      on_storage (λ l, match l with
                       | [] => if TopRowIndex >? 0 then inl UndefinedBehavior else inr l
                       | _ => inr (rotate (Z.to_nat TopRowIndex) l)
                       end);;
      modify (_SetFirstRowIndex 0);;
      on_storage (λ l, inr (take (Z.to_nat (Y newSize)) l));;
      on_storage (λ l, inr (l ++ ((λ i, ROW_init (i16 i) (u16 (X newSize)) (_currentAttributes t))
                                    <$> seqZ (Z.of_nat (length l)) (Y newSize - Z.of_nat (length l)))));;
      _RefreshRowIDs (Some (X newSize));;
      rows ← gets _storage;
      size ← lift (size_of_rows rows);
      modify (set_size size)
    in
    match m t with
    | Ok _ t' => (None, t')
    | Throw e t' => (Some e, t')
    end.

(** ** Reading *)

(** The loop of [GetLastNonSpaceCharacter]: rows from the bottom up. *)
Fixpoint last_text_row (n : nat) (y : Z) (t : TextBuffer) : exn + COORD :=
  r ← GetRowByOffset y t;
  let x := i16 (MeasureRight (_charRow r) - 1) in
  match n with
  | O => inr (mkCOORD x y)
  | S n => if x <? 0 then last_text_row n (i16 (y - 1)) t else inr (mkCOORD x y)
  end.

Definition GetLastNonSpaceCharacter (viewOptional : option Viewport) (t : TextBuffer) : exn + COORD :=
  let viewport := default (_size t) viewOptional in
  p ← last_text_row (Z.to_nat (BottomInclusive viewport - Viewport.Top viewport)) (BottomInclusive viewport) t;
  inr (mkCOORD (Z.max (X p) 0) (Z.max (Y p) 0)).

(** [GetCellDataAt] with limits: the view that the new iterator shows. *)
Definition GetCellDataAt_limits (at_ : COORD) (limits : Viewport) (t : TextBuffer) : exn + OutputCellView :=
  r ← GetRowByOffset (Y at_) t;
  if negb (IsInBounds_viewport (_size t) limits) then inl InvalidArg
  else if negb (IsInBounds limits at_ false) then inl InvalidArg
  else
    attrIter ← iter_add 16 (_runs (_attrRow r)) (X at_) rle_begin;
    glyph ← GlyphAt (_id r) (X at_) (_charRow r) (_unicodeStorage t);
    dbcs ← DbcsAttrAt (X at_) (_charRow r);
    attr ← iter_deref (_runs (_attrRow r)) attrIter;
    inr (mkView glyph dbcs attr Stored).

Definition GetCellDataAt (at_ : COORD) (t : TextBuffer) : exn + OutputCellView :=
  GetCellDataAt_limits at_ (_size t) t.
