(* ===== verification/TextNav.v ===== *)
(** Reading the text buffer: the cell iterator of
    [src/src/buffer/out/textBufferCellIterator.cpp], and the navigation by words and
    glyphs, the rectangles of a selection and its text of [textBuffer.cpp]. *)

From S2P Require Import Prelude DispatchTypes TextColor TextAttribute Rle RleIter Viewport OutputCell CharRow Row Cursor TextBuffer.
From stdpp Require Import gmap.

#[local] Open Scope Z_scope.

(** ** TextBufferCellIterator *)

Record TextBufferCellIterator := mkCellIter {
  c_pos : COORD;
  c_bounds : Viewport;
  c_exceeded : bool;
  c_row : ROW;
  c_attrIter : rle_iterator;
  c_view : OutputCellView
}.

Definition _GenerateView (t : TextBuffer) (pos : COORD) (r : ROW) (attrIter : rle_iterator)
    : exn + OutputCellView :=
  glyph ← GlyphAt (_id r) (u64 (X pos)) (_charRow r) (_unicodeStorage t);
  dbcs ← DbcsAttrAt (u64 (X pos)) (_charRow r);
  attr ← iter_deref (_runs (_attrRow r)) attrIter;
  inr (mkView glyph dbcs attr Stored).

Definition CellIter_init (t : TextBuffer) (pos : COORD) (limits : Viewport) : exn + TextBufferCellIterator :=
  r ← GetRowByOffset (Y pos) t;
  if negb (IsInBounds_viewport (_size t) limits) then inl InvalidArg
  else if negb (IsInBounds limits pos false) then inl InvalidArg
  else
    attrIter ← iter_add 16 (_runs (_attrRow r)) (X pos) rle_begin;
    view ← _GenerateView t pos r attrIter;
    inr (mkCellIter pos limits false r attrIter view).

Definition CellIter_valid (it : TextBufferCellIterator) : bool :=
  negb (c_exceeded it) && IsInBounds (c_bounds it) (c_pos it) false.

Definition _SetPos (t : TextBuffer) (newPos : COORD) (it : TextBufferCellIterator)
    : exn + TextBufferCellIterator :=
  '(r, attrIter, x) ←
    (if Y newPos =? Y (c_pos it) then inr (c_row it, c_attrIter it, X (c_pos it))
     else r ← GetRowByOffset (Y newPos) t; inr (r, rle_begin, 0));
  attrIter ←
    (if X newPos =? x then inr attrIter
     else iter_add 16 (_runs (_attrRow (r : ROW))) (X newPos - x) attrIter);
  view ← _GenerateView t newPos r attrIter;
  inr (mkCellIter newPos (c_bounds it) (c_exceeded it) r attrIter view).

(** The loops of [operator+=]. *)
Fixpoint cell_moves (step : COORD → exn + bool * COORD) (n : nat) (exceeded : bool) (pos : COORD)
    : exn + bool * COORD :=
  match n with
  | O => inr (exceeded, pos)
  | S n =>
      if exceeded then inr (exceeded, pos)
      else '(ok, pos) ← step pos; cell_moves step n (negb ok) pos
  end.

Definition CellIter_add (t : TextBuffer) (movement : Z) (it : TextBufferCellIterator)
    : exn + TextBufferCellIterator :=
  '(exceeded, newPos) ← cell_moves (λ p, IncrementInBounds (c_bounds it) p false) (Z.to_nat movement)
                          (c_exceeded it) (c_pos it);
  '(exceeded, newPos) ← cell_moves (λ p, DecrementInBounds (c_bounds it) p false) (Z.to_nat (- movement))
                          exceeded newPos;
  _SetPos t newPos (mkCellIter (c_pos it) (c_bounds it) exceeded (c_row it) (c_attrIter it) (c_view it)).

Definition CellIter_distance (a b : TextBufferCellIterator) : exn + Z :=
  CompareInBounds (c_bounds a) (c_pos a) (c_pos b) false.

(** ** Words *)

Definition _GetDelimiterClassAt (pos : COORD) (wordDelimiters : wstring) (t : TextBuffer)
    : exn + DelimiterClass :=
  r ← GetRowByOffset (Y pos) t;
  DelimiterClassAt (_id r) (u64 (X pos)) wordDelimiters (_charRow r) (_unicodeStorage t).

Section words.
Context (t : TextBuffer) (wordDelimiters : wstring).

Definition cell_fuel : nat := S (S (Z.to_nat (Width (_size t) * Height (_size t)))).

(** A loop that moves while the class of the cell satisfies a condition; the
    result says whether it ended because it could not move. *)
Fixpoint seek (fuel : nat) (step : COORD → exn + bool * COORD) (cond : DelimiterClass → bool)
    (pos : COORD) : exn + bool * COORD :=
  match fuel with
  | O => inl OutOfFuel
  | S fuel =>
      c ← _GetDelimiterClassAt pos wordDelimiters t;
      if cond c then
        '(ok, pos) ← step pos;
        if (ok : bool) then seek fuel step cond pos else inr (true, pos)
      else inr (false, pos)
  end.

Definition regular (c : DelimiterClass) : bool := bool_decide (c = RegularChar).

Definition _GetWordStartForAccessibility (target : COORD) : exn + COORD :=
  let back p := DecrementInBounds (_size t) p false in
  '(stayAtOrigin, result) ← seek cell_fuel back (λ c, negb (regular c)) target;
  '(_, result) ← seek cell_fuel back regular result;
  c ← (if (stayAtOrigin : bool) then inr RegularChar else _GetDelimiterClassAt result wordDelimiters t);
  if negb (regular c) then '(_, result) ← IncrementInBounds (_size t) result false; inr result
  else inr result.

(** The loop of the selection: to the left margin at most. *)
Fixpoint expand_left (fuel : nat) (initial : DelimiterClass) (pos : COORD) : exn + COORD :=
  match fuel with
  | O => inl OutOfFuel
  | S fuel =>
      if X pos >? Left (_size t) then
        c ← _GetDelimiterClassAt pos wordDelimiters t;
        if decide (c = initial) then
          '(_, pos) ← DecrementInBounds (_size t) pos false; expand_left fuel initial pos
        else inr pos
      else inr pos
  end.

Definition _GetWordStartForSelection (target : COORD) : exn + COORD :=
  initialDelimiter ← _GetDelimiterClassAt target wordDelimiters t;
  result ← expand_left cell_fuel initialDelimiter target;
  c ← _GetDelimiterClassAt result wordDelimiters t;
  if decide (c = initialDelimiter) then inr result
  else '(_, result) ← IncrementInBounds (_size t) result false; inr result.

Definition GetWordStart (target : COORD) (accessibilityMode : bool) : exn + COORD :=
  let bufferSize := _size t in
  if decide (target = Origin bufferSize) then inr target
  else
    let copy := if decide (target = EndExclusive bufferSize)
                then mkCOORD (RightInclusive bufferSize) (BottomInclusive bufferSize) else target in
    if accessibilityMode then _GetWordStartForAccessibility copy else _GetWordStartForSelection copy.

Definition _GetWordEndForAccessibility (target lastCharPos : COORD) : exn + COORD :=
  let bufferSize := _size t in
  let on p := IncrementInBounds bufferSize p true in
  d ← CompareInBounds bufferSize target lastCharPos true;
  if d >=? 0 then inr (EndExclusive bufferSize)
  else
    '(_, result) ← seek cell_fuel on regular target;
    d ← CompareInBounds bufferSize result lastCharPos true;
    if d >=? 0 then inr (EndExclusive bufferSize)
    else '(_, result) ← seek cell_fuel on (λ c, negb (regular c)) result; inr result.

Fixpoint expand_right (fuel : nat) (initial : DelimiterClass) (pos : COORD) : exn + COORD :=
  match fuel with
  | O => inl OutOfFuel
  | S fuel =>
      if X pos <? RightInclusive (_size t) then
        c ← _GetDelimiterClassAt pos wordDelimiters t;
        if decide (c = initial) then
          '(_, pos) ← IncrementInBounds (_size t) pos false; expand_right fuel initial pos
        else inr pos
      else inr pos
  end.

Definition _GetWordEndForSelection (target : COORD) : exn + COORD :=
  if X target =? RightInclusive (_size t) then inr target
  else
    initialDelimiter ← _GetDelimiterClassAt target wordDelimiters t;
    result ← expand_right cell_fuel initialDelimiter target;
    c ← _GetDelimiterClassAt result wordDelimiters t;
    if decide (c = initialDelimiter) then inr result
    else '(_, result) ← DecrementInBounds (_size t) result false; inr result.

Definition GetWordEnd (target : COORD) (accessibilityMode : bool) : exn + COORD :=
  if decide (target = EndExclusive (_size t)) then inr target
  else if accessibilityMode then
    lastCharPos ← GetLastNonSpaceCharacter None t;
    _GetWordEndForAccessibility target lastCharPos
  else _GetWordEndForSelection target.

Definition MoveToNextWord (pos lastCharPos : COORD) : exn + bool * COORD :=
  copy ← _GetWordEndForAccessibility pos lastCharPos;
  inr (if decide (copy = EndExclusive (_size t)) then (false, pos) else (true, copy)).

Definition MoveToPreviousWord (pos : COORD) : exn + bool * COORD :=
  copy ← GetWordStart pos true;
  '(ok, copy) ← DecrementInBounds (_size t) copy true;
  if (ok : bool) then result ← GetWordStart copy true; inr (true, result) else inr (false, pos).
End words.

(** ** Glyphs and selections *)

(** The text of a row with the two colours of each code unit, when they are
    asked for. *)
Abbreviation RowText := (wstring * list Z * list Z)%type.

Section glyphs.
Context (t : TextBuffer).

(** The kind of the cell, which is not looked at behind the end of the buffer. *)
Definition kind_is (test : DbcsAttribute → bool) (pos : COORD) : exn + bool :=
  if decide (pos = EndExclusive (_size t)) then inr false
  else view ← GetCellDataAt pos t; inr (test (DbcsAttr view)).

Definition GetGlyphStart (pos : COORD) : exn + COORD :=
  resultPos ← (if decide (pos = EndExclusive (_size t))
               then '(_, p) ← DecrementInBounds (_size t) pos true; inr p else inr pos);
  trailing ← kind_is IsTrailing resultPos;
  if (trailing : bool) then '(_, p) ← DecrementInBounds (_size t) resultPos true; inr p
  else inr resultPos.

Definition GetGlyphEnd (pos : COORD) : exn + COORD :=
  leading ← kind_is IsLeading pos;
  resultPos ← (if (leading : bool) then '(_, p) ← IncrementInBounds (_size t) pos true; inr p else inr pos);
  '(_, resultPos) ← IncrementInBounds (_size t) resultPos true;
  inr resultPos.

Definition MoveToNextGlyph (pos : COORD) (allowBottomExclusive : bool) : exn + bool * COORD :=
  if decide (pos = EndExclusive (_size t)) then inr (false, pos)
  else
    '(success, resultPos) ← IncrementInBounds (_size t) pos allowBottomExclusive;
    trailing ← kind_is IsTrailing resultPos;
    resultPos ← (if (trailing : bool)
                 then '(_, p) ← IncrementInBounds (_size t) resultPos allowBottomExclusive; inr p
                 else inr resultPos);
    inr (success, resultPos).

Definition MoveToPreviousGlyph (pos : COORD) : exn + bool * COORD :=
  '(success, resultPos) ← DecrementInBounds (_size t) pos true;
  leading ← kind_is IsLeading resultPos;
  resultPos ← (if (leading : bool) then '(_, p) ← DecrementInBounds (_size t) resultPos true; inr p
               else inr resultPos);
  inr (success, resultPos).

(** ** Selections *)

Definition ScreenToBufferLine (line : SMALL_RECT) (lineRendition : LineRendition) : SMALL_RECT :=
  let scale := if decide (lineRendition = SingleWidth) then 0 else 1 in
  mkRect (Z.shiftr (rLeft line) scale) (rTop line) (Z.shiftr (rRight line) scale) (rBottom line).

Definition BufferToScreenLine (line : SMALL_RECT) (lineRendition : LineRendition) : SMALL_RECT :=
  let scale := if decide (lineRendition = SingleWidth) then 0 else 1 in
  mkRect (i16 (Z.shiftl (rLeft line) scale)) (rTop line) (i16 (Z.shiftl (rRight line) scale + scale))
    (rBottom line).

Definition _ExpandTextRow (textRow : SMALL_RECT) : exn + SMALL_RECT :=
  let bufferSize := _size t in
  let targetPoint := mkCOORD (rLeft textRow) (rTop textRow) in
  view ← GetCellDataAt targetPoint t;
  left_ ← (if IsTrailing (DbcsAttr view) then
             '(_, p) ← (if X targetPoint =? Left bufferSize then IncrementInBounds bufferSize targetPoint false
                        else DecrementInBounds bufferSize targetPoint false);
             inr (X p)
           else inr (rLeft textRow));
  let targetPoint := mkCOORD (rRight textRow) (rBottom textRow) in
  view ← GetCellDataAt targetPoint t;
  right_ ← (if IsLeading (DbcsAttr view) then
              '(_, p) ← (if X targetPoint =? RightInclusive bufferSize
                         then DecrementInBounds bufferSize targetPoint false
                         else IncrementInBounds bufferSize targetPoint false);
              inr (X p)
            else inr (rRight textRow));
  inr (mkRect left_ (rTop textRow) right_ (rBottom textRow)).

Definition text_row (higherCoord lowerCoord : COORD) (blockSelection : bool) (row : Z) : SMALL_RECT :=
  let bufferSize := _size t in
  if blockSelection || (Y higherCoord =? Y lowerCoord) then
    mkRect (Z.min (X higherCoord) (X lowerCoord)) row (Z.max (X higherCoord) (X lowerCoord)) row
  else
    mkRect (if row =? Y higherCoord then X higherCoord else Left bufferSize) row
      (if row =? Y lowerCoord then X lowerCoord else RightInclusive bufferSize) row.

Fixpoint text_rects (n : nat) (row : Z) (higherCoord lowerCoord : COORD)
    (blockSelection bufferCoordinates : bool) : exn + list SMALL_RECT :=
  match n with
  | O => inr []
  | S n =>
      let textRow := text_row higherCoord lowerCoord blockSelection row in
      textRow ← (if bufferCoordinates then inr textRow
                 else r ← GetLineRendition row t; inr (ScreenToBufferLine textRow r));
      textRow ← _ExpandTextRow textRow;
      rects ← text_rects n (row + 1) higherCoord lowerCoord blockSelection bufferCoordinates;
      inr (textRow :: rects)
  end.

Definition GetTextRects (start end_ : COORD) (blockSelection bufferCoordinates : bool)
    : exn + list SMALL_RECT :=
  d ← CompareInBounds (_size t) start end_ false;
  let '(higherCoord, lowerCoord) := if d <=? 0 then (start, end_) else (end_, start) in
  text_rects (Z.to_nat (Y lowerCoord - Y higherCoord + 1)) (Y higherCoord) higherCoord lowerCoord
    blockSelection bufferCoordinates.

(** *** Text *)

Context (GetAttributeColors : option (TextAttribute → Z * Z)).

Definition cell_text (view : OutputCellView) : RowText :=
  if IsTrailing (DbcsAttr view) then ([], [], [])
  else
    match GetAttributeColors with
    | None => (Chars view, [], [])
    | Some colors =>
        let '(fg, bk) := colors (TextAttr view) in
        (Chars view, (λ _, fg) <$> Chars view, (λ _, bk) <$> Chars view)
    end.

Definition append_text (a b : RowText) : RowText := (a.1.1 ++ b.1.1, a.1.2 ++ b.1.2, a.2 ++ b.2).

(** The loop over the cells of a rectangle. *)
Fixpoint collect (fuel : nat) (it : TextBufferCellIterator) (acc : RowText) : exn + RowText :=
  if CellIter_valid it then
    match fuel with
    | O => inl OutOfFuel
    | S fuel =>
        it' ← CellIter_add t 1 it;
        collect fuel it' (append_text acc (cell_text (c_view it)))
    end
  else inr acc.

Fixpoint trim_count (reversed : wstring) : nat :=
  match reversed with
  | c :: reversed => if c =? UNICODE_SPACE then S (trim_count reversed) else 0
  | [] => 0
  end.

(** [pop_back] on all three for each trailing space. *)
Definition trim_text (r : RowText) : RowText :=
  let n := trim_count (reverse r.1.1) in
  let pop {A} (l : list A) := take (length l - n) l in
  (pop r.1.1, pop r.1.2, pop r.2).

Definition crlf : RowText :=
  ([0x0D; 0x0A],
   match GetAttributeColors with Some _ => [0; 0] | None => [] end,
   match GetAttributeColors with Some _ => [0; 0] | None => [] end).

Definition row_text_of (includeCRLF trimTrailingWhitespace formatWrappedRows last : bool)
    (rect : SMALL_RECT) : exn + RowText :=
  let highlight := FromInclusive rect in
  it ← CellIter_init t (Origin highlight) highlight;
  text ← collect (Z.to_nat (Width highlight * Height highlight)) it ([], [], []);
  r ← GetRowByOffset (u32 (rTop rect)) t;
  let shouldFormatRow := formatWrappedRows || negb (_wrapForced r) in
  let text := if trimTrailingWhitespace && shouldFormatRow then trim_text text else text in
  inr (if includeCRLF && negb last && shouldFormatRow then append_text text crlf else text).

Fixpoint TextBuffer_GetText (includeCRLF trimTrailingWhitespace : bool) (selectionRects : list SMALL_RECT)
    (formatWrappedRows : bool) : exn + list RowText :=
  match selectionRects with
  | [] => inr []
  | rect :: rects =>
      row ← row_text_of includeCRLF trimTrailingWhitespace formatWrappedRows
              (bool_decide (rects = [])) rect;
      rows ← TextBuffer_GetText includeCRLF trimTrailingWhitespace rects formatWrappedRows;
      inr (row :: rows)
  end.
End glyphs.
