(* ===== verification/TextBufferFacts.v ===== *)
(** The text buffer shows a screen of lines: its invariant, and what the
    operations do to the screen. *)

From S2P Require Import Prelude DispatchTypes TextColor TextAttribute Rle RleFacts RleIter Viewport ViewportFacts OutputCell CharRow Row RowFacts Cursor TextBuffer.
From stdpp Require Import gmap.

#[local] Open Scope Z_scope.

(** ** The screen *)

Record Line := mkLine {
  l_cells : list (wstring * DbcsKind);
  l_attrs : list TextAttribute;
  l_rendition : LineRendition;
  l_wrap : bool;
  l_padded : bool
}.

Definition line_of (s : UnicodeStorage) (r : ROW) : Line :=
  mkLine (shown r s) (attrs r) (_lineRendition r) (_wrapForced r) (_doubleBytePadded r).

(** The rows in the order of the screen. *)
Definition logical (t : TextBuffer) : list ROW :=
  drop (Z.to_nat (_firstRow t)) (_storage t) ++ take (Z.to_nat (_firstRow t)) (_storage t).

Definition screen (t : TextBuffer) : list Line := line_of (_unicodeStorage t) <$> logical t.

(** ** The invariant *)

Definition t_width (t : TextBuffer) : Z := columns (_size t).

Record buffer_ok (t : TextBuffer) : Prop := {
  b_width : 0 < t_width t <= 32767;
  b_height : 0 < TotalRowCount t <= 32767;
  b_size : _size t = mkViewport (mkRect 0 0 (t_width t - 1) (TotalRowCount t - 1));
  b_first : 0 <= _firstRow t < TotalRowCount t;
  b_rows : ∀ (i : nat) r, _storage t !! i = Some r →
    _id r = Z.of_nat i ∧ _rowWidth r = t_width t ∧ row_ok r (_unicodeStorage t)
}.

(** A row does not depend on the long glyphs of others. *)
Lemma glyph_of_elsewhere id s s' i c :
  (∀ key, Y key = id → s' !! key = s !! key) → glyph_of id i c s' = glyph_of id i c s.
Proof. intros Hs. unfold glyph_of. by rewrite Hs. Qed.

Lemma line_of_frame s s' r :
  (∀ key, Y key = _id r → s' !! key = s !! key) → line_of s' r = line_of s r.
Proof.
  intros Hs. unfold line_of. f_equal. unfold shown. apply imap_ext. intros i c _.
  by rewrite (glyph_of_elsewhere _ s s').
Qed.

Lemma row_ok_frame s s' r :
  (∀ key, Y key = _id r → s' !! key = s !! key) → row_ok r s → row_ok r s'.
Proof.
  intros Hs [Hw Hc Ha Hw' Hg]. split; try done. intros i c Hi Hst. unfold stored_at. rewrite Hs by done. by apply (Hg i c).
Qed.

Section ok.
Context (t : TextBuffer) (Hok : buffer_ok t).

Lemma size_ok : vp_ok (_size t).
Proof using Hok.
  destruct Hok as [Hw Hh Hs _ _]. rewrite Hs. unfold vp_ok. vp_unfold. lia.
Qed.

Lemma Height_size : Height (_size t) = TotalRowCount t.
Proof using Hok.
  rewrite (Height_ok _ size_ok). pose proof (b_size t Hok) as Hs. rewrite Hs at 1. unfold rows. vp_unfold. lia.
Qed.

Lemma Width_size : Width (_size t) = t_width t.
Proof using Hok. apply (Width_ok _ size_ok). Qed.

Lemma inside_size p : inside (_size t) p ↔ 0 <= X p < t_width t ∧ 0 <= Y p < TotalRowCount t.
Proof using Hok.
  rewrite (b_size t Hok) at 1. unfold inside, Left, RightInclusive, BottomInclusive. cbn. lia.
Qed.

(** The place of logical row [y]. *)
Definition place (y : Z) : nat := Z.to_nat ((_firstRow t + y) mod TotalRowCount t).

Lemma place_lt y : (place y < length (_storage t))%nat.
Proof using Hok.
  unfold place. pose proof (b_height t Hok). pose proof (Z.mod_pos_bound (_firstRow t + y) (TotalRowCount t) ltac:(lia)).
  unfold TotalRowCount in *. lia.
Qed.

Lemma offsetIndex_ok y : 0 <= y < TotalRowCount t → offsetIndex t y = inr (place y).
Proof using Hok.
  intros Hy. pose proof (b_height t Hok). pose proof (b_first t Hok). unfold offsetIndex.
  rewrite (proj2 (Z.eqb_neq _ _)) by lia. by rewrite wrapu_small by lia.
Qed.

Lemma place_cases y : 0 <= y < TotalRowCount t →
  place y = (if decide (_firstRow t + y < TotalRowCount t) then Z.to_nat (_firstRow t + y)
             else Z.to_nat (_firstRow t + y - TotalRowCount t)).
Proof using Hok.
  intros Hy. pose proof (b_first t Hok). unfold place. case_decide.
  - by rewrite Z.mod_small by lia.
  - f_equal. symmetry. apply (Z.mod_unique _ _ 1); lia.
Qed.

Lemma logical_lookup y : 0 <= y < TotalRowCount t → logical t !! Z.to_nat y = _storage t !! place y.
Proof using Hok.
  intros Hy. rewrite (place_cases y Hy). pose proof (b_first t Hok). unfold logical, TotalRowCount in *.
  case_decide.
  - rewrite lookup_app_l by (rewrite length_drop; lia). rewrite lookup_drop. f_equal. lia.
  - rewrite lookup_app_r by (rewrite length_drop; lia). rewrite length_drop, lookup_take_lt by lia. f_equal. lia.
Qed.

Lemma length_logical : length (logical t) = length (_storage t).
Proof. unfold logical. rewrite length_app, length_drop, length_take. lia. Qed.

Lemma length_screen : length (screen t) = length (_storage t).
Proof. unfold screen. by rewrite length_fmap, length_logical. Qed.

(** The row of a line. *)
Lemma row_at y : 0 <= y < TotalRowCount t →
  ∃ r, GetRowByOffset y t = inr r ∧ _storage t !! place y = Some r
    ∧ screen t !! Z.to_nat y = Some (line_of (_unicodeStorage t) r)
    ∧ _id r = Z.of_nat (place y) ∧ _rowWidth r = t_width t ∧ row_ok r (_unicodeStorage t).
Proof using Hok.
  intros Hy. destruct (lookup_lt_is_Some_2 (_storage t) (place y)) as [r Hr]; [apply place_lt|].
  exists r. unfold GetRowByOffset. rewrite (offsetIndex_ok y Hy). cbn [mbind result_bind]. rewrite Hr.
  unfold screen. rewrite list_lookup_fmap, (logical_lookup y Hy), Hr.
  split; [done|]. split; [done|]. split; [done|]. by apply (b_rows t Hok).
Qed.

Lemma place_inj y y' : 0 <= y < TotalRowCount t → 0 <= y' < TotalRowCount t → place y = place y' → y = y'.
Proof using Hok.
  intros Hy Hy' E. rewrite !place_cases in E by done. pose proof (b_first t Hok).
  repeat case_decide; lia.
Qed.

End ok.

(** Two buffers with the same lines in all places show the same screen. *)
Lemma screen_lookup t y : buffer_ok t → 0 <= y < TotalRowCount t →
  screen t !! Z.to_nat y = line_of (_unicodeStorage t) <$> (_storage t !! place t y).
Proof. intros Hok Hy. unfold screen. by rewrite list_lookup_fmap, (logical_lookup t Hok y Hy). Qed.

Section update.
Context (t : TextBuffer) (Hok : buffer_ok t).

(** Replacing a row, with changes of the storage for this row only. *)
Lemma set_row_ok y r r' s' :
  0 <= y < TotalRowCount t → _storage t !! place t y = Some r →
  row_ok r' s' → _id r' = _id r → _rowWidth r' = _rowWidth r → same_elsewhere (_id r) (_unicodeStorage t) s' →
  let t' := set_rows (<[place t y := r']> (_storage t)) s' t in
  buffer_ok t' ∧ screen t' = <[Z.to_nat y := line_of s' r']> (screen t).
Proof using Hok.
  intros Hy Hr Hok' Hid Hw Hel t'. pose proof (place_lt t Hok y) as Hpl.
  destruct (b_rows t Hok _ _ Hr) as (Ei & Ew & _).
  assert (TotalRowCount t' = TotalRowCount t) as Et by (unfold TotalRowCount; cbn; by rewrite length_insert).
  assert (∀ i ri, i ≠ place t y → _storage t !! i = Some ri → ∀ key, Y key = _id ri →
    s' !! key = _unicodeStorage t !! key) as Hother.
  { intros i ri Hne Hi key Hk. destruct (b_rows t Hok i ri Hi) as (E1 & _). apply Hel. rewrite Hk, E1, Ei. lia. }
  assert (buffer_ok t') as Hbt.
  { destruct Hok as [H1 H2 H3 H4 H5]. split; rewrite ?Et; try done. intros i ri Hi.
    cbn [t' set_rows _storage _unicodeStorage] in *.
    destruct (decide (i = place t y)) as [->|Hne].
    - rewrite list_lookup_insert_eq in Hi by done. simplify_eq. rewrite Hid, Ei, Hw, Ew. done.
    - rewrite list_lookup_insert_ne in Hi by done. destruct (H5 i ri Hi) as (E1 & E2 & E3).
      split; [done|]. split; [done|]. apply (row_ok_frame (_unicodeStorage t)); [|done].
      by apply (Hother i). }
  split; [done|]. apply list_eq. intros k.
  destruct (decide (k < length (_storage t))%nat) as [Hk|Hk].
  2:{ rewrite !lookup_ge_None_2; [done|rewrite length_insert, length_screen; lia|].
      rewrite length_screen. cbn. rewrite length_insert. lia. }
  assert (0 <= Z.of_nat k < TotalRowCount t) as Hkr by (unfold TotalRowCount; lia).
  rewrite <-(Nat2Z.id k). rewrite (screen_lookup t' _ Hbt) by (by rewrite Et).
  replace (place t' (Z.of_nat k)) with (place t (Z.of_nat k)) by (unfold place; by rewrite Et).
  cbn [t' set_rows _storage _unicodeStorage]. destruct (decide (Z.of_nat k = y)) as [<-|Hne].
  - rewrite !list_lookup_insert_eq by (rewrite ?length_screen; lia || done). done.
  - assert (place t y ≠ place t (Z.of_nat k)) as Hpn by (intros E; by apply Hne, symmetry, (place_inj t Hok)).
    rewrite !list_lookup_insert_ne by lia || done. rewrite (screen_lookup t _ Hok) by done.
    destruct (_storage t !! place t (Z.of_nat k)) as [rk|] eqn:Erk; [|done]. cbn. f_equal.
    apply line_of_frame. by apply (Hother (place t (Z.of_nat k))).
Qed.
End update.

(** The members that changes of rows leave alone. *)
Definition rest (t : TextBuffer) :=
  (_size t, _cursor t, _firstRow t, _currentAttributes t, _hyperlinkMap t, _hyperlinkCustomIdMap t,
   _currentHyperlinkId t).

Lemma on_row_ok {A} t y (m : prog RowWorld A) (Q : A → TextBuffer → Prop) r :
  buffer_ok t → 0 <= y < TotalRowCount t → _storage t !! place t y = Some r →
  wp m (λ a w', row_ok w'.1 w'.2 ∧ _id w'.1 = _id r ∧ _rowWidth w'.1 = _rowWidth r
         ∧ same_elsewhere (_id r) (_unicodeStorage t) w'.2
         ∧ (∀ t', buffer_ok t' → screen t' = <[Z.to_nat y := line_of w'.2 w'.1]> (screen t) →
              rest t' = rest t → Q a t')) (r, _unicodeStorage t) →
  wp (on_row y m) Q t.
Proof.
  intros Hok Hy Hr Hm. unfold wp, on_row in *. rewrite (offsetIndex_ok t Hok y Hy), Hr.
  destruct (m (r, _unicodeStorage t)) as [a w'|]; [|done].
  destruct Hm as (H1 & H2 & H3 & H4 & H5).
  destruct (set_row_ok t Hok y r w'.1 w'.2 Hy Hr H1 H2 H3 H4) as [Hb Hs]. by apply H5.
Qed.

Section write.
Context `{GlyphWidth} (d : LegacyDefaults).

(** Every step of an iterator counts one cell. *)
Lemma Iter_next_distance it it1 : Iter_next d it = inr it1 → _distance it1 = u64 (_distance it + 1).
Proof.
  unfold Iter_next. set (it0 := set_distance _ it). change (u64 (_distance it + 1)) with (_distance it0).
  cbn [it0 set_distance _mode].
  assert (∀ run a b, _distance (loose_step run a b it0) = _distance it0) as Hl.
  { intros. unfold loose_step, _TryMoveTrailing. repeat case_match; simplify_eq; done. }
  assert (∀ A (run : list A) f, span_step run f it0 = inr it1 → _distance it1 = _distance it0) as Hsp.
  { intros A run f. unfold span_step. case_match; [|by intros [= <-]]. case_match; [|done].
    destruct (f _); cbn; [done|]. by intros [= <-]. }
  destruct (_mode it) eqn:Em; try (intros E; by eapply Hsp); intros [= <-]; try apply Hl.
  unfold fill_step, _TryMoveTrailing. repeat case_match; simplify_eq; done.
Qed.

Lemma yields_distance it vs it' :
  yields d it vs it' → 0 <= _distance it → _distance it + Z.of_nat (length vs) < 2 ^ 63 →
  _distance it' = _distance it + Z.of_nat (length vs).
Proof.
  induction 1 as [it|it it1 vs it' Hv Hn Hy IH]; intros H0 H1; [cbn; lia|].
  apply Iter_next_distance in Hn. rewrite wrapu_small in Hn by (cbn in H1; lia).
  cbn [length] in *. rewrite IH by lia. lia.
Qed.

(** The line after a write of cells at column [x]. *)
Definition write_line (b : TextAttributeBehavior) (wrap : option bool) (final : Z) (x : nat)
    (vs : list OutputCellView) (l : Line) : Line :=
  mkLine (splice x (written b vs) (l_cells l)) (splice x (colored b vs) (l_attrs l)) (l_rendition l)
    (wrapped b wrap final (Z.of_nat (x + length vs)) (l_wrap l)) (l_padded l).

Lemma WriteLine_ok t b it vs it' p wrap limitRight (Q : OutputCellIterator → TextBuffer → Prop) :
  let final := default (t_width t - 1) limitRight in
  buffer_ok t → inside (_size t) p → X p <= final < t_width t →
  yields d it vs it' → (∀ j v, vs !! j = Some v → plain b final (Z.to_nat (X p) + j) v) →
  X p + Z.of_nat (length vs) <= final + 1 →
  Iter_valid it' = false ∨ X p + Z.of_nat (length vs) = final + 1 →
  0 <= _distance it < 2 ^ 62 →
  (∀ t' l, buffer_ok t' → screen t !! Z.to_nat (Y p) = Some l →
     screen t' = <[Z.to_nat (Y p) := write_line b wrap final (Z.to_nat (X p)) vs l]> (screen t) →
     rest t' = rest t → Q it' t') →
  wp (WriteLine d it p wrap limitRight) Q t.
Proof.
  intros final Hok Hp Hfin Hy Hpl Hle Hstop Hdist HQ. unfold WriteLine. repeat wp_step.
  rewrite (IsInBounds_ok _ (size_ok t Hok)), bool_decide_true by done. cbn [negb].
  apply (inside_size t Hok) in Hp as [HX HY]. pose proof (b_width t Hok).
  destruct (row_at t Hok (Y p) HY) as (r & _ & Hr & Hs & Hid & Hw & Hrow).
  wp_step. eapply on_row_ok; [done|done|done|].
  pose proof (WriteCells_ok d b it vs it' (Z.to_nat (X p)) wrap limitRight r (_unicodeStorage t)) as HW.
  cbv zeta in HW. rewrite Hw in HW. fold final in HW. rewrite (Z2Nat.id (X p)) in HW by lia.
  eapply wp_mono; [apply HW; [done|lia|done|done|lia|destruct Hstop; [by left|right; lia]]|].
  cbv beta.
  intros res w' (-> & Hok' & Hfix & Hpad & Hwr & Hel & Hsh & Hat).
  injection Hfix as Elr Eid Eww. split; [done|]. split; [done|]. split; [done|]. split; [done|].
  intros t' Hbt' Hst' Hrest.
  pose proof (yields_distance _ _ _ Hy ltac:(lia) ltac:(lia)) as Hd'.
  unfold GetCellDistance. rewrite Hd', wraps_small by lia.
  replace (_distance it + Z.of_nat (length vs) - _distance it) with (Z.of_nat (length vs)) by lia.
  rewrite (proj2 (Z.leb_le _ _)), (proj2 (Z.leb_le _ _)) by lia. cbn [andb].
  apply wp_ret, (HQ t' _ Hbt' Hs); [|done]. rewrite Hst'. f_equal.
  unfold line_of, write_line. cbn [l_cells l_attrs l_rendition l_wrap l_padded].
  by rewrite Hsh, Hat, Hwr, Hpad, Elr.
Qed.
End write.

(** ** Single cells *)

(** The glyph, the kind and the attribute at a position. *)
Definition cell_at (t : TextBuffer) (p : COORD) : option (wstring * DbcsKind * TextAttribute) :=
  l ← screen t !! Z.to_nat (Y p);
  c ← l_cells l !! Z.to_nat (X p);
  a ← l_attrs l !! Z.to_nat (X p);
  Some (c, a).

Definition view_cell (v : OutputCellView) : wstring * DbcsKind * TextAttribute :=
  (Chars v, _attribute (DbcsAttr v), TextAttr v).

Lemma IsInBounds_viewport_self t : buffer_ok t → IsInBounds_viewport (_size t) (_size t) = true.
Proof.
  intros Hok. pose proof (b_width t Hok). pose proof (b_height t Hok). rewrite (b_size t Hok) at 1 2.
  unfold IsInBounds_viewport, Left, RightInclusive, Viewport.Top, BottomInclusive. cbn.
  rewrite !andb_true_iff. lia.
Qed.

Lemma GetCellDataAt_ok t p :
  buffer_ok t → inside (_size t) p →
  ∃ v, GetCellDataAt p t = inr v ∧ cell_at t p = Some (view_cell v) ∧ Chars v ≠ []
    ∧ TextAttrBehavior v = Stored.
Proof.
  intros Hok Hp. pose proof Hp as [HX HY]%(inside_size t Hok). pose proof (b_width t Hok).
  destruct (row_at t Hok (Y p) HY) as (r & Eg & Hr & Hs & Hid & Hw & Hrow).
  unfold GetCellDataAt, GetCellDataAt_limits. rewrite Eg. cbn [mbind result_bind].
  rewrite (IsInBounds_viewport_self t Hok), (IsInBounds_ok _ (size_ok t Hok)), bool_decide_true by done.
  cbn [negb]. pose proof Hrow as [_ Hch Hat Hat2 Hg]. destruct Hat as (Hpos & Htot & Hlt).
  assert (index (_runs (_attrRow r)) rle_begin = 0) as Eb by done.
  destruct (iter_add_index 16 (_runs (_attrRow r)) Hpos ltac:(lia) rle_begin (X p)) as (j & -> & Hj & Ej);
    [by apply iter_ok_begin|rewrite Eb; lia|].
  rewrite Eb in Ej.
  destruct (iter_deref_index (_runs (_attrRow r)) j Hpos Hj) as (a & Ea & Hla).
  { intros ->. rewrite index_end in Ej. lia. }
  destruct (lookup_lt_is_Some_2 (_charRow r) (Z.to_nat (X p))) as [c Hc]; [lia|].
  pose proof (GlyphAt_ok (_id r) (Z.to_nat (X p)) (_charRow r) (_unicodeStorage t) c ltac:(lia) Hg Hc) as EG.
  rewrite Z2Nat.id in EG by lia. cbn [mbind result_bind]. rewrite EG. unfold DbcsAttrAt, at_cell. rewrite Hc.
  cbn [mbind result_bind]. rewrite Ea. cbn [mbind result_bind]. eexists. split; [done|].
  split; [|split; [by eapply glyph_of_nonempty|done]].
  unfold cell_at. rewrite Hs. cbn [mbind option_bind line_of l_cells l_attrs]. unfold shown.
  rewrite list_lookup_imap, Hc. cbn [fmap option_fmap option_map mbind option_bind].
  unfold attrs. rewrite Ej, Z.add_0_l in Hla. by rewrite Hla.
Qed.

(** The cell can be written at the column without padding. *)
Definition fits_at (t : TextBuffer) (x : Z) (k : DbcsKind) : Prop :=
  (x = 0 → k ≠ Trailing) ∧ (x = t_width t - 1 → k ≠ Leading).

Section single.
Context `{GlyphWidth} (d : LegacyDefaults).

Definition cell_of (v : OutputCellView) : OutputCell := OutputCell_of_view v.

Lemma yields_single v :
  TextAttrBehavior v = Stored →
  ∃ it it', Iter_cells [cell_of v] = inr it ∧ yields d it [v] it' ∧ Iter_valid it' = false
    ∧ _distance it = 0 ∧ Iter_valid it = true.
Proof.
  intros Hb. destruct v as [chars a attr b]. cbn in Hb. subst b.
  eexists _, _. split; [reflexivity|]. split.
  - eapply (yields_cons d (mkIter _ _ (mkView chars a attr Stored) _ _ _)); [done|reflexivity|].
    apply yields_nil.
  - done.
Qed.

Lemma Write_cell_ok t v p wrap (Q : OutputCellIterator → TextBuffer → Prop) :
  buffer_ok t → inside (_size t) p → TextAttrBehavior v = Stored → Chars v ≠ [] →
  fits_at t (X p) (_attribute (DbcsAttr v)) →
  (∀ it t' l, buffer_ok t' → screen t !! Z.to_nat (Y p) = Some l →
     screen t' = <[Z.to_nat (Y p) := write_line Stored wrap (t_width t - 1) (Z.to_nat (X p)) [v] l]> (screen t) →
     rest t' = rest t → Q it t') →
  ∃ it, Iter_cells [cell_of v] = inr it ∧ wp (Write d it p wrap) Q t.
Proof.
  intros Hok Hp Hb Hne [Hf1 Hf2] HQ. destruct (yields_single v Hb) as (it & it' & E & Hy & Hinv & Hd & Hval).
  exists it. split; [done|]. unfold Write. repeat wp_step.
  pose proof Hp as [HX HY]%(inside_size t Hok). pose proof (b_height t Hok). pose proof (b_width t Hok).
  rewrite (Height_size t Hok). destruct (Z.to_nat (TotalRowCount t)) as [|n] eqn:En; [lia|].
  cbn [write_lines]. rewrite Hval, (IsInBounds_ok _ (size_ok t Hok)), bool_decide_true by done. cbn [andb].
  wp_step. eapply (WriteLine_ok d t Stored it [v] it' p wrap None); cbn [default length]; [done|done|lia|done| |lia|by left|lia|].
  - intros [|j] w; [|done]. intros [= <-]. split; [done|]. intros _. split; [done|].
    unfold IsTrailing, IsLeading. split; intros; apply bool_decide_eq_false; [apply Hf1|apply Hf2]; lia.
  - intros t' l Hok' Hl Hs Hrest. destruct n; cbn [write_lines]; rewrite Hinv; cbn [andb]; by eapply wp_ret, HQ.
Qed.

(** What the write of one cell changes. *)
Lemma cell_at_write t t' v p l wrap :
  buffer_ok t → inside (_size t) p → screen t !! Z.to_nat (Y p) = Some l →
  screen t' = <[Z.to_nat (Y p) := write_line Stored wrap (t_width t - 1) (Z.to_nat (X p)) [v] l]> (screen t) →
  ∀ q, inside (_size t) q → cell_at t' q = if decide (q = p) then Some (view_cell v) else cell_at t q.
Proof.
  intros Hok Hp Hl Hs q Hq. apply (inside_size t Hok) in Hp as [HX HY], Hq as [HX' HY'].
  destruct (row_at t Hok (Y p) HY) as (r & _ & Hr & Hs' & Hid & Hw & Hrow).
  rewrite Hl in Hs'. simplify_eq. pose proof (length_attrs _ _ Hrow) as Hla.
  pose proof (length_shown r (_unicodeStorage t)) as Hls. rewrite (ok_chars _ _ Hrow) in Hls. rewrite Hw in *.
  unfold cell_at. rewrite Hs. destruct (decide (Y q = Y p)) as [EY|EY].
  - rewrite EY, list_lookup_insert_eq by (rewrite length_screen; unfold TotalRowCount in *; lia).
    cbn [mbind option_bind write_line l_cells l_attrs line_of]. unfold written, colored.
    rewrite !decide_False by done. cbn [fmap list_fmap].
    rewrite !lookup_splice by (rewrite ?Hls, ?Hla; cbn; lia). cbn [length].
    rewrite Hl. cbn [mbind option_bind line_of l_cells l_attrs].
    destruct (decide (q = p)) as [->|Hne].
    + rewrite !decide_True by lia. by rewrite Nat.sub_diag.
    + rewrite !decide_False; [done|..]; intros Hc; apply Hne; destruct q, p; cbn in *; f_equal; lia.
  - rewrite list_lookup_insert_ne by lia. rewrite decide_False; [done|]. intros ->. done.
Qed.
End single.

(** ** New buffers *)

Definition blank_line (w : Z) (a : TextAttribute) : Line :=
  mkLine (blank_cells w) (replicate (Z.to_nat w) a) SingleWidth false false.

Lemma TextBuffer_init_ok w h a cursorSize :
  0 < w <= 32767 → 0 < h <= 32767 →
  ∃ t, TextBuffer_init (mkCOORD w h) a cursorSize = inr t ∧ buffer_ok t
    ∧ _size t = mkViewport (mkRect 0 0 (w - 1) (h - 1))
    ∧ screen t = replicate (Z.to_nat h) (blank_line w a).
Proof.
  intros Hw Hh. unfold TextBuffer_init. cbn [X Y]. rewrite (wrapu_small 16) by lia.
  set (rows := _ <$> seqZ 0 h).
  assert (length rows = Z.to_nat h) as Hl by (unfold rows; by rewrite length_fmap, length_seqZ).
  assert (∀ i : nat, rows !! i = if decide (i < Z.to_nat h)%nat then Some (ROW_init (Z.of_nat i) w a) else None) as Hrow.
  { intros i. unfold rows. rewrite list_lookup_fmap. case_decide.
    - rewrite lookup_seqZ_lt by lia. cbn. by rewrite i16_small by lia.
    - by rewrite lookup_seqZ_ge by lia. }
  assert (size_of_rows rows = inr (mkViewport (mkRect 0 0 (w - 1) (h - 1)))) as ->.
  { pose proof (Hrow 0%nat) as H0. rewrite decide_True in H0 by lia. unfold size_of_rows.
    destruct rows as [|r rows']; [done|]. injection H0 as ->. cbn [ROW_init _rowWidth]. rewrite Hl, Z2Nat.id by lia.
    rewrite !(proj2 (Z.leb_le _ _)) by lia. cbn [andb]. f_equal.
    rewrite <-(FromDimensions_ok (mkViewport (mkRect 0 0 (w - 1) (h - 1)))) by (unfold vp_ok; vp_unfold; lia).
    unfold Origin. vp_unfold. do 2 f_equal; lia. }
  eexists. split; [done|]. split; [|split; [done|]].
  - split; unfold t_width, TotalRowCount; cbn [_size _storage _firstRow]; rewrite ?Hl; vp_unfold; try lia.
    { do 2 f_equal; lia. }
    intros i r Hi. rewrite Hrow in Hi. case_decide; simplify_eq. split; [done|].
    split; [cbn; lia|]. by apply ROW_init_ok.
  - apply list_eq. intros i. unfold screen, logical. cbn [_firstRow _storage _unicodeStorage Z.to_nat].
    rewrite drop_0, take_0, app_nil_r, list_lookup_fmap, Hrow. case_decide.
    + rewrite lookup_replicate_2 by lia. cbn. f_equal. unfold line_of, blank_line.
      destruct (ROW_init_ok (Z.of_nat i) w a ∅ Hw) as (_ & -> & ->). done.
    + symmetry. apply lookup_ge_None. rewrite length_replicate. lia.
Qed.

(** ** Checking the invariant *)

#[global] Instance stored_at_dec key s : Decision (stored_at key s).
Proof.
  refine (match s !! key as o return Decision (∃ g, o = Some g ∧ g ≠ []) with
          | Some g => cast_if_not (decide (g = []))
          | None => right _
          end); naive_solver.
Defined.

#[global] Instance glyphs_stored_dec id (r : CharRow) s : Decision (glyphs_stored id r s).
Proof.
  refine (cast_if (decide (Forall (λ p, IsGlyphStored (_cattr p.2) = true → stored_at (mkCOORD (Z.of_nat p.1) id) s)
                             (imap pair r)))).
  - intros i c Hc. by apply (Forall_lookup_1 _ _ i (i, c) ltac:(eassumption)); rewrite list_lookup_imap, Hc.
  - intros Hg. apply n, Forall_lookup. intros i [j c] Hi. rewrite list_lookup_imap in Hi.
    destruct (r !! i) as [c'|] eqn:Ec; simplify_eq/=. by apply Hg.
Defined.

#[global] Instance row_ok_dec r s : Decision (row_ok r s).
Proof.
  refine (cast_if (decide ((0 < _rowWidth r <= 32767 ∧ length (_charRow r) = Z.to_nat (_rowWidth r))
    ∧ wf 16 1 (_attrRow r) ∧ _total_length (_attrRow r) = _rowWidth r
    ∧ glyphs_stored (_id r) (_charRow r) s)));
  [by destruct a as ([] & ? & ? & ?)|intros []; by apply n].
Defined.

#[global] Instance buffer_ok_dec t : Decision (buffer_ok t).
Proof.
  refine (cast_if (decide ((0 < t_width t <= 32767 ∧ 0 < TotalRowCount t <= 32767)
    ∧ _size t = mkViewport (mkRect 0 0 (t_width t - 1) (TotalRowCount t - 1))
    ∧ 0 <= _firstRow t < TotalRowCount t
    ∧ Forall (λ p, _id p.2 = Z.of_nat p.1 ∧ _rowWidth p.2 = t_width t ∧ row_ok p.2 (_unicodeStorage t))
        (imap pair (_storage t))))).
  - destruct a as ([] & ? & ? & Hf). split; try done. intros i r Hr.
    by apply (Forall_lookup_1 _ _ i (i, r) Hf); rewrite list_lookup_imap, Hr.
  - intros [? ? ? ? Hr]. apply n. do 3 (split; [done|]). apply Forall_lookup. intros i [j r] Hi.
    rewrite list_lookup_imap in Hi. destruct (_storage t !! i) as [r'|] eqn:Er; simplify_eq/=. by apply Hr.
Defined.

(** A decidable statement, by evaluating its decision. *)
Ltac by_computation := apply (bool_decide_unpack _); vm_compute; exact I.

(** Buffers for the examples: the letters of the alphabet, a row each. *)
Fixpoint label_rows `{GlyphWidth} (n : nat) (y w : Z) : prog TextBuffer unit :=
  match n with
  | O => mret tt
  | S n =>
      WriteLine LegacyDefaults_init (Iter_fill (65 + y) TextAttribute_default w) (mkCOORD 0 y) None None;;
      label_rows n (y + 1) w
  end.

Definition run_prog {W A} (m : prog W A) (w : W) : W := match m w with Ok _ w' => w' | Throw _ w' => w' end.

Definition sample_buffer (w h : Z) : TextBuffer :=
  let _ := sample_width in
  match TextBuffer_init (mkCOORD w h) TextAttribute_default 25 with
  | inr t => run_prog (label_rows (Z.to_nat h) 0 w) t
  | inl _ => mkTextBuffer Viewport_Empty [] (Cursor_init 0) 0 TextAttribute_default ∅ ∅ ∅ 0
  end.

(** The first code unit of each cell. *)
Definition letters (t : TextBuffer) : list (list Z) := (λ l, (λ c, default 0 (head c.1)) <$> l_cells l) <$> screen t.
