(* ===== verification/TextNavFacts.v ===== *)
(** Navigation in the text buffer: the cells are numbered in reading order, and
    words, glyphs and selections are ranges of these numbers. *)

From S2P Require Import Prelude DispatchTypes TextColor TextAttribute Rle RleFacts RleIter Viewport ViewportFacts OutputCell CharRow Row RowFacts Cursor TextBuffer TextNav TextBufferFacts.
From stdpp Require Import gmap.

#[local] Open Scope Z_scope.

(** ** Positions in reading order, with the one behind the end *)

Section linear.
Context (v : Viewport) (Hv : vp_ok v).

Abbreviation pos k := (walk_pos v forward k).

Lemma index_pos k : walk_index v forward (pos k) = k.
Proof using Hv.
  unfold walk_index, walk_pos. cbn. pose proof (columns_pos v Hv).
  pose proof (Z.div_mod k (columns v) ltac:(lia)). lia.
Qed.

Lemma pos_inj j k : pos j = pos k → j = k.
Proof using Hv. intros E. by rewrite <-(index_pos j), <-(index_pos k), E. Qed.

Lemma pos_end : pos (area v) = EndExclusive v.
Proof using Hv.
  pose proof (columns_pos v Hv). unfold walk_pos, EndExclusive, area. cbn [wx wy forward].
  rewrite Z.mul_comm, Z.mod_mul, Z.div_mul by lia. rewrite (BottomExclusive_ok v Hv). unfold rows. f_equal; lia.
Qed.

Lemma pos_inside k : 0 <= k < area v → inside v (pos k).
Proof using Hv. by apply walk_pos_inside. Qed.

Lemma pos_is_end k : 0 <= k <= area v → pos k = EndExclusive v ↔ k = area v.
Proof using Hv. intros Hk. rewrite <-pos_end. split; [apply pos_inj|by intros ->]. Qed.

Lemma inside_end_bounds k : 0 <= k <= area v → IsInBounds v (pos k) true = true.
Proof using Hv.
  intros Hk. unfold IsInBounds. cbn [andb]. case_bool_decide as E; [done|].
  assert (inside v (pos k)) as Hin by (apply pos_inside; rewrite pos_is_end in E by done; lia).
  pose proof (IsInBounds_ok v Hv (pos k)) as Hb. unfold IsInBounds in Hb. cbn [andb] in Hb.
  by rewrite Hb, bool_decide_true.
Qed.

Lemma dec_pos k : 0 <= k < area v →
  DecrementInBounds v (pos k) false = inr (if 0 <? k then (true, pos (k - 1)) else (false, pos k)).
Proof using Hv.
  intros Hk. unfold DecrementInBounds. fold backward.
  replace (pos k) with (walk_pos v backward (area v - 1 - k)).
  2:{ rewrite walk_pos_backward by (done || lia). f_equal. lia. }
  rewrite (WalkInBounds_step v Hv backward) by lia. f_equal.
  destruct (Z.ltb_spec 0 k), (Z.ltb_spec (area v - 1 - k + 1) (area v)); try lia; [|done].
  rewrite walk_pos_backward by (done || lia). f_equal. f_equal. lia.
Qed.

Lemma inc_pos k : 0 <= k < area v →
  IncrementInBounds v (pos k) false = inr (if k + 1 <? area v then (true, pos (k + 1)) else (false, pos k)).
Proof using Hv. apply WalkInBounds_step; done. Qed.

(** The step that may leave the viewport through its end. *)
Lemma dec_pos_end k : 0 <= k <= area v →
  DecrementInBounds v (pos k) true = inr (if 0 <? k then (true, pos (k - 1)) else (false, pos k)).
Proof using Hv.
  intros Hk. pose proof (area_pos v Hv). destruct (decide (k = area v)) as [->|Hne].
  - rewrite (proj2 (Z.ltb_lt _ _)) by lia. unfold DecrementInBounds, WalkInBounds, WalkInBoundsCircular.
    rewrite inside_end_bounds by lia. cbn [negb wx wy mbind result_bind]. rewrite pos_end.
    pose proof Hv as (H1 & H2 & H3 & H4 & H5 & H6).
    unfold EndExclusive at 1 2. cbn [X Y]. rewrite Z.eqb_refl. unfold walk_row.
    cbn [EndExclusive Y]. rewrite (BottomExclusive_ok v Hv), i16_small by lia.
    destruct (Z.ltb_spec (BottomInclusive v + 1 - 1) (Viewport.Top v)); [lia|]. f_equal. f_equal.
    rewrite <-(walk_pos_index v Hv forward (mkCOORD _ _)); [|unfold inside; cbn; lia]. f_equal.
    unfold walk_index, area, columns, rows. cbn. lia.
  - rewrite <-dec_pos by lia. unfold DecrementInBounds, WalkInBounds, WalkInBoundsCircular.
    rewrite inside_end_bounds by lia. rewrite (IsInBounds_ok v Hv), bool_decide_true by (apply pos_inside; lia).
    done.
Qed.

Lemma inc_pos_end k : 0 <= k <= area v →
  IncrementInBounds v (pos k) true = inr (if k <? area v then (true, pos (k + 1)) else (false, pos k)).
Proof using Hv.
  intros Hk. pose proof Hv as (H1 & H2 & H3 & H4 & H5 & H6).
  destruct (decide (k = area v)) as [->|Hne].
  - rewrite Z.ltb_irrefl. unfold IncrementInBounds, WalkInBounds, WalkInBoundsCircular.
    rewrite inside_end_bounds by lia. rewrite pos_end. cbn [negb wx wy mbind result_bind EndExclusive X Y andb].
    by rewrite !Z.eqb_refl.
  - rewrite (proj2 (Z.ltb_lt _ _)) by lia. pose proof (pos_inside k ltac:(lia)) as Hin.
    pose proof (inc_pos k ltac:(lia)) as Hinc. revert Hinc.
    unfold IncrementInBounds, WalkInBounds, WalkInBoundsCircular.
    rewrite inside_end_bounds by lia. rewrite (IsInBounds_ok v Hv), bool_decide_true by done.
    cbn [negb wx wy mbind result_bind andb]. destruct Hin as [Hx Hy].
    rewrite (BottomExclusive_ok v Hv), (proj2 (Z.eqb_neq (Y (pos k)) _)), andb_false_r by lia.
    destruct (Z.eqb_spec (X (pos k)) (RightInclusive v)) as [E|E].
    + unfold walk_row. cbn [andb]. rewrite i16_small by lia. rewrite (BottomExclusive_ok v Hv).
      destruct (Z.eqb_spec (Y (pos k) + 1) (BottomInclusive v + 1)) as [E2|E2]; cbn [andb].
      * intros _. f_equal. f_equal. assert (k = area v - 1) as ->.
        { pose proof (index_pos k) as Ei. unfold walk_index in Ei. cbn [wx wy forward] in Ei.
          unfold area, columns, rows in *. nia. }
        replace (area v - 1 + 1) with (area v) by lia. rewrite pos_end. unfold EndExclusive.
        rewrite (BottomExclusive_ok v Hv). f_equal; lia.
      * destruct (Z.gtb_spec (Y (pos k) + 1) (BottomInclusive v)); [lia|].
        destruct (Z.ltb_spec (k + 1) (area v)); [done|]. by intros [= ?].
    + destruct (Z.ltb_spec (k + 1) (area v)); [done|]. by intros [= ?].
Qed.

Lemma compare_pos j k : 0 <= j <= area v → 0 <= k <= area v → CompareInBounds v (pos j) (pos k) true = inr (j - k).
Proof using Hv.
  intros Hj Hk. unfold CompareInBounds. rewrite !inside_end_bounds by done. cbn [negb].
  rewrite (Width_ok v Hv). f_equal. rewrite <-(index_pos j), <-(index_pos k) at 3.
  pose proof Hv as (H1 & H2 & H3 & H4 & H5 & H6). pose proof (columns_pos v Hv) as Hc.
  assert (columns v <= 32767) by (unfold columns; lia).
  assert (∀ i, 0 <= i <= area v → Viewport.Top v <= Y (pos i) <= BottomInclusive v + 1 ∧ Left v <= X (pos i) <= RightInclusive v) as Hr.
  { intros i Hi. destruct (decide (i = area v)) as [->|]; [rewrite pos_end; unfold EndExclusive; cbn; rewrite (BottomExclusive_ok v Hv); lia|].
    destruct (pos_inside i ltac:(lia)). lia. }
  pose proof (Hr j Hj). pose proof (Hr k Hk). unfold walk_index. cbn [wx wy forward].
  assert (Z.abs ((Y (pos j) - Y (pos k)) * columns v) <= 32767 * 32767).
  { rewrite Z.abs_mul. apply Z.mul_le_mono_nonneg; lia. }
  rewrite (wraps_small 32 (_ * _)), wraps_small by lia. lia.
Qed.
End linear.

(** ** Words *)

Section words.
Context (t : TextBuffer) (Hok : buffer_ok t) (wordDelimiters : wstring).

Abbreviation pos k := (walk_pos (_size t) forward k).
Abbreviation cells := (area (_size t)).

Definition glyph_class (g : wstring) : DelimiterClass :=
  match g with
  | [] => ControlChar
  | c :: _ => if c <=? UNICODE_SPACE then ControlChar
              else if existsb (Z.eqb c) wordDelimiters then DelimiterChar else RegularChar
  end.

(** The class of the [k]th cell of the screen. *)
Definition class_at (k : Z) : DelimiterClass :=
  match cell_at t (pos k) with Some (g, _, _) => glyph_class g | None => ControlChar end.

Lemma size_vp : vp_ok (_size t).
Proof using Hok. by apply size_ok. Qed.

Lemma row_class p r :
  GetRowByOffset (Y p) t = inr r → 0 <= X p < t_width t → row_ok r (_unicodeStorage t) →
  _rowWidth r = t_width t →
  ∃ g k, shown r (_unicodeStorage t) !! Z.to_nat (X p) = Some (g, k)
    ∧ _GetDelimiterClassAt p wordDelimiters t = inr (glyph_class g).
Proof using Hok.
  intros Er HX Hrow Hw. pose proof (b_width t Hok). pose proof Hrow as [_ Hch _ _ Hg].
  destruct (lookup_lt_is_Some_2 (_charRow r) (Z.to_nat (X p))) as [c Hc]; [lia|].
  exists (glyph_of (_id r) (Z.to_nat (X p)) c (_unicodeStorage t)), (_attribute (_cattr c)).
  unfold shown. rewrite list_lookup_imap, Hc. split; [done|].
  unfold _GetDelimiterClassAt, DelimiterClassAt. rewrite Er. cbn [mbind result_bind].
  rewrite wrapu_small by lia.
  pose proof (GlyphAt_ok (_id r) (Z.to_nat (X p)) (_charRow r) (_unicodeStorage t) c ltac:(lia) Hg Hc) as EG.
  rewrite Z2Nat.id in EG by lia. rewrite EG. cbn [mbind result_bind].
  pose proof (glyph_of_nonempty _ _ _ _ _ Hg Hc). by destruct (glyph_of _ _ _ _).
Qed.

Lemma class_at_row p r g k :
  inside (_size t) p → GetRowByOffset (Y p) t = inr r →
  shown r (_unicodeStorage t) !! Z.to_nat (X p) = Some (g, k) →
  ∃ a, cell_at t p = Some (g, k, a).
Proof using Hok.
  intros Hp Er Hs. apply (inside_size t Hok) in Hp as [HX HY].
  destruct (row_at t Hok (Y p) HY) as (r' & Er' & _ & Hsc & _ & Hw & Hrow). rewrite Er in Er'. injection Er' as <-.
  unfold cell_at. rewrite Hsc. cbn [mbind option_bind line_of l_cells l_attrs]. rewrite Hs.
  cbn [mbind option_bind]. pose proof (length_attrs _ _ Hrow) as Hl.
  destruct (lookup_lt_is_Some_2 (attrs r) (Z.to_nat (X p))) as [a Ha]; [lia|]. rewrite Ha. by exists a.
Qed.

Lemma class_ok k : 0 <= k < cells → _GetDelimiterClassAt (pos k) wordDelimiters t = inr (class_at k).
Proof using Hok.
  intros Hk. pose proof (pos_inside _ size_vp k Hk) as Hin. pose proof Hin as [HX HY]%(inside_size t Hok).
  destruct (row_at t Hok _ HY) as (r & Er & _ & _ & _ & Hw & Hrow).
  destruct (row_class (pos k) r Er HX Hrow Hw) as (g & kd & Hs & ->).
  destruct (class_at_row (pos k) r g kd Hin Er Hs) as [a Ha]. unfold class_at. by rewrite Ha.
Qed.

(** Behind the end the circular buffer is at its first row again. *)
Lemma class_end : _GetDelimiterClassAt (pos cells) wordDelimiters t = inr (class_at 0).
Proof using Hok.
  pose proof (area_pos _ size_vp) as Ha. pose proof (b_height t Hok) as Hh. pose proof (b_first t Hok).
  assert (pos 0 = mkCOORD 0 0) as E0.
  { rewrite <-(GetWalkOrigin_pos _ size_vp). unfold GetWalkOrigin. cbn. rewrite (b_size t Hok). done. }
  assert (EndExclusive (_size t) = mkCOORD 0 (TotalRowCount t)) as Ee.
  { unfold EndExclusive. rewrite (BottomExclusive_ok _ size_vp), (b_size t Hok). unfold Left, BottomInclusive. cbn. f_equal. lia. }
  rewrite (pos_end _ size_vp), Ee, <-class_ok, E0 by lia. unfold _GetDelimiterClassAt, GetRowByOffset, offsetIndex. cbn [X Y].
  rewrite (proj2 (Z.eqb_neq _ _)) by lia. cbn [mbind result_bind]. rewrite !wrapu_small by lia.
  replace (_firstRow t + TotalRowCount t) with (_firstRow t + 0 + 1 * TotalRowCount t) by lia.
  rewrite Z.mod_add by lia. done.
Qed.

Lemma fuel_cells : (Z.to_nat cells + 2 <= cell_fuel t)%nat.
Proof using Hok.
  unfold cell_fuel. rewrite (Width_ok _ size_vp), (Height_ok _ size_vp). unfold area. lia.
Qed.

Lemma seek_back_ok cond fuel k :
  0 <= k < cells → (Z.to_nat k < fuel)%nat →
  ∃ b j, seek t wordDelimiters fuel (λ p, DecrementInBounds (_size t) p false) cond (pos k) = inr (b, pos j)
    ∧ 0 <= j <= k ∧ (∀ i, j < i <= k → cond (class_at i) = true)
    ∧ (if b then j = 0 ∧ cond (class_at 0) = true else cond (class_at j) = false).
Proof using Hok.
  revert k. induction fuel as [|fuel IH]; intros k Hk Hf; [lia|]. cbn [seek].
  rewrite class_ok by done. cbn [mbind result_bind]. destruct (cond (class_at k)) eqn:Ec.
  2:{ exists false, k. split; [done|]. split; [lia|]. split; [lia|done]. }
  rewrite (dec_pos _ size_vp) by done. cbn [mbind result_bind]. destruct (Z.ltb_spec 0 k).
  - destruct (IH (k - 1)) as (b & j & -> & Hj & Hall & Hend); [lia|lia|]. exists b, j. split; [done|].
    split; [lia|]. split; [|done]. intros i Hi. destruct (decide (i = k)) as [->|]; [done|]. apply Hall. lia.
  - assert (k = 0) as -> by lia. exists true, 0. split; [done|]. split; [lia|]. split; [lia|done].
Qed.

Lemma seek_on_ok cond fuel k :
  0 <= k <= cells → (Z.to_nat (cells - k) < fuel)%nat →
  ∃ b j, seek t wordDelimiters fuel (λ p, IncrementInBounds (_size t) p true) cond (pos k) = inr (b, pos j)
    ∧ k <= j <= cells ∧ (∀ i, k <= i < j → cond (class_at i) = true)
    ∧ (j < cells → cond (class_at j) = false).
Proof using Hok.
  revert k. induction fuel as [|fuel IH]; intros k Hk Hf; [lia|]. cbn [seek].
  destruct (decide (k = cells)) as [->|Hne].
  - rewrite class_end. cbn [mbind result_bind]. rewrite (inc_pos_end _ size_vp), Z.ltb_irrefl by lia.
    cbn [mbind result_bind]. destruct (cond _); eexists _, _; (split; [done|]); split_and!; intros; lia.
  - rewrite class_ok by lia. cbn [mbind result_bind]. destruct (cond (class_at k)) eqn:Ec.
    2:{ exists false, k. split; [done|]. split; [lia|]. split; [lia|done]. }
    rewrite (inc_pos_end _ size_vp), (proj2 (Z.ltb_lt _ _)) by lia. cbn [mbind result_bind].
    destruct (IH (k + 1)) as (b & j & -> & Hj & Hall & Hend); [lia|lia|]. exists b, j. split; [done|].
    split; [lia|]. split; [|done]. intros i Hi. destruct (decide (i = k)) as [->|]; [done|]. apply Hall. lia.
Qed.

(** *** Accessibility words *)

Definition readable (k : Z) : bool := regular (class_at k).

(** The first cell of a run of readable cells. *)
Definition word_start (k : Z) : Prop := readable k = true ∧ (k = 0 ∨ readable (k - 1) = false).

Lemma word_start_accessibility k :
  0 <= k < cells →
  ∃ r, _GetWordStartForAccessibility t wordDelimiters (pos k) = inr (pos r) ∧ 0 <= r <= k
    ∧ (word_start r ∧ (∀ i, r < i <= k → ¬ word_start i)
       ∨ r = 0 ∧ ∀ i, 0 <= i <= k → readable i = false).
Proof using Hok.
  intros Hk. unfold _GetWordStartForAccessibility. pose proof fuel_cells as Hfuel.
  destruct (seek_back_ok (λ c, negb (regular c)) (cell_fuel t) k) as (b & w & -> & Hw & Hgap & Hb); [done|lia|].
  cbn [mbind result_bind].
  assert (∀ i, w < i <= k → readable i = false) as Hgap'.
  { intros i Hi. apply negb_true_iff. unfold readable. by apply Hgap. }
  destruct (seek_back_ok regular (cell_fuel t) w) as (b2 & j & -> & Hj & Hrun & Hb2); [lia|lia|].
  cbn [mbind result_bind]. destruct b.
  - destruct Hb as [-> Hb]. exists 0. assert (j = 0) as -> by lia. split; [done|]. split; [lia|]. right. split; [done|].
    intros i Hi. destruct (decide (i = 0)) as [->|]; [by apply negb_true_iff|]. apply Hgap'. lia.
  - apply negb_false_iff in Hb. rewrite class_ok by lia. cbn [mbind result_bind].
    destruct b2.
    + destruct Hb2 as [-> Hb2]. rewrite Hb2. cbn [negb]. exists 0. split; [done|]. split; [lia|]. left.
      split; [split; [done|by left]|]. intros i Hi [Hi1 [->|Hi2]]; [lia|].
      destruct (decide (i <= w)); [|by rewrite Hgap' in Hi1 by lia].
      destruct (decide (i = 1)) as [->|]; [change (regular (class_at 0) = false) in Hi2; congruence|].
      unfold readable in Hi2. rewrite Hrun in Hi2 by lia. done.
    + rewrite Hb2. cbn [negb]. destruct (decide (j = w)) as [->|Hjw]; [congruence|].
      rewrite (inc_pos _ size_vp), (proj2 (Z.ltb_lt _ _)) by lia. cbn [mbind result_bind].
      exists (j + 1). split; [done|]. split; [lia|]. left. split.
      * split; [apply Hrun; lia|]. right. by replace (j + 1 - 1) with j by lia.
      * intros i Hi [Hi1 [->|Hi2]]; [lia|].
        destruct (decide (i <= w)); [|by rewrite Hgap' in Hi1 by lia].
        unfold readable in Hi2. rewrite Hrun in Hi2 by lia. done.
Qed.

(** When nothing readable is behind [last], the cell behind the end of the buffer
    says that there is no word start any more. *)
Lemma word_end_accessibility k last :
  0 <= k < cells → 0 <= last <= cells →
  ∃ r, _GetWordEndForAccessibility t wordDelimiters (pos k) (pos last) = inr (pos r) ∧ k < r <= cells
    ∧ (r < cells → word_start r)
    ∧ (r < cells ∨ (∀ i, last < i < cells → readable i = false) → ∀ i, k < i < r → ¬ word_start i).
Proof using Hok.
  intros Hk Hl. unfold _GetWordEndForAccessibility. pose proof fuel_cells as Hfuel.
  rewrite (compare_pos _ size_vp) by lia. cbn [mbind result_bind]. rewrite <-(pos_end _ size_vp).
  destruct (Z.geb_spec (k - last) 0).
  { exists cells. split; [done|]. split; [lia|]. split; [lia|]. intros [|Hno]; [lia|].
    intros i Hi [Hi1 _]. by rewrite Hno in Hi1 by lia. }
  destruct (seek_on_ok regular (cell_fuel t) k) as (b & e & -> & He & Hrun & Hend); [lia|lia|].
  cbn [mbind result_bind]. rewrite (compare_pos _ size_vp) by lia. cbn [mbind result_bind].
  assert (∀ i, k < i < e → ¬ word_start i) as Hinner.
  { intros i Hi [_ [->|Hi2]]; [lia|]. unfold readable in Hi2. rewrite Hrun in Hi2 by lia. done. }
  destruct (Z.geb_spec (e - last) 0).
  { exists cells. split; [done|]. split; [lia|]. split; [lia|]. intros [|Hno]; [lia|].
    intros i Hi [Hi1 Hi2]. destruct (decide (i < e)); [by apply (Hinner i ltac:(lia))|].
    destruct (decide (i = e)) as [->|]; [|by rewrite Hno in Hi1 by lia].
    unfold readable in Hi1. by rewrite Hend in Hi1 by lia. }
  destruct (seek_on_ok (λ c, negb (regular c)) (cell_fuel t) e) as (b2 & r & -> & Hr & Hgap & Hend2); [lia|lia|].
  cbn [mbind result_bind]. specialize (Hend ltac:(lia)).
  assert (e < r) as Her.
  { destruct (decide (e = r)) as [<-|]; [|lia]. specialize (Hend2 ltac:(lia)). by rewrite Hend in Hend2. }
  assert (∀ i, e <= i < r → readable i = false) as Hgap' by (intros i Hi; by apply negb_true_iff, Hgap).
  exists r. split; [done|]. split; [lia|]. split.
  - intros Hrc. specialize (Hend2 Hrc). apply negb_false_iff in Hend2. split; [done|]. right. apply Hgap'. lia.
  - intros _ i Hi Hw. destruct (decide (i < e)); [by apply (Hinner i ltac:(lia))|].
    destruct Hw as [Hi1 _]. by rewrite Hgap' in Hi1 by lia.
Qed.

(** From a word start back to the word start before it. *)
Lemma MoveToPreviousWord_ok k p :
  0 <= k < p → p < cells → word_start k → word_start p → (∀ i, k < i < p → ¬ word_start i) →
  MoveToPreviousWord t wordDelimiters (pos p) = inr (true, pos k).
Proof using Hok.
  intros Hk Hp Hwk Hwp Hno. pose proof size_vp as Hv.
  assert (Origin (_size t) = pos 0) as Eo by by rewrite <-(GetWalkOrigin_pos _ Hv).
  assert (∀ j, 0 <= j < cells → 0 < j → GetWordStart t wordDelimiters (pos j) true
    = _GetWordStartForAccessibility t wordDelimiters (pos j)) as Hstart.
  { intros j Hj Hj0. unfold GetWordStart. rewrite decide_False.
    2:{ rewrite Eo. intros E%(pos_inj _ Hv). lia. }
    rewrite decide_False; [done|]. rewrite (pos_is_end _ Hv) by lia. lia. }
  assert (readable (p - 1) = false) as Hgap by (destruct Hwp as [_ [->|]]; [lia|done]).
  assert (k ≠ p - 1) as Hkp by (intros ->; destruct Hwk as [Hr _]; congruence).
  unfold MoveToPreviousWord. rewrite Hstart by lia.
  destruct (word_start_accessibility p ltac:(lia)) as (r & -> & Hr & Hres). cbn [mbind result_bind].
  assert (r = p) as ->.
  { destruct Hres as [[_ Hmax]|[_ Hnone]].
    - destruct (decide (r = p)); [done|]. exfalso. by apply (Hmax p ltac:(lia)).
    - exfalso. destruct Hwp as [Hrp _]. by rewrite (Hnone p) in Hrp by lia. }
  rewrite (dec_pos_end _ Hv), (proj2 (Z.ltb_lt _ _)) by lia. cbn [mbind result_bind]. rewrite Hstart by lia.
  destruct (word_start_accessibility (p - 1) ltac:(lia)) as (r & -> & Hr2 & Hres2). cbn [mbind result_bind].
  do 3 f_equal. destruct Hres2 as [[Hw Hmax]|[_ Hnone]].
  - destruct (decide (r < k)); [exfalso; by apply (Hmax k ltac:(lia))|].
    destruct (decide (k < r)); [exfalso; by apply (Hno r ltac:(lia))|]. lia.
  - exfalso. destruct Hwk as [Hrk _]. by rewrite (Hnone k) in Hrk by lia.
Qed.
End words.

(** ** The last character *)

Lemma leading_spaces_all (r : CharRow) (i : nat) c : r !! i = Some c → (i < leading_spaces r)%nat → IsSpace c = true.
Proof.
  revert i. induction r as [|c0 r IH]; intros i Hi Hl; [done|]. cbn in Hl. destruct (IsSpace c0) eqn:E; [|lia].
  destruct i as [|i]; [cbn in Hi; by simplify_eq|]. apply (IH i); [done|lia].
Qed.

(** The cells from the measured end of a row on are spaces. *)
Lemma MeasureRight_spaces (r : CharRow) (i : nat) c :
  r !! i = Some c → MeasureRight r <= Z.of_nat i → IsSpace c = true.
Proof.
  intros Hi Hm. unfold MeasureRight in Hm. pose proof (lookup_lt_Some _ _ _ Hi) as Hl.
  apply (leading_spaces_all (reverse r) (length r - 1 - i)); [|lia].
  rewrite reverse_lookup by lia. rewrite <-Hi. f_equal. lia.
Qed.

Section last.
Context (t : TextBuffer) (Hok : buffer_ok t).

Definition blank_cell (q : COORD) : Prop := ∃ k a, cell_at t q = Some ([UNICODE_SPACE], k, a).

Lemma blank_after_measure y r q :
  inside (_size t) q → Y q = y → GetRowByOffset y t = inr r → MeasureRight (_charRow r) <= X q → blank_cell q.
Proof using Hok.
  intros Hq <- Er Hm. pose proof Hq as [HX HY]%(inside_size t Hok).
  destruct (row_at t Hok (Y q) HY) as (r' & Er' & _ & _ & _ & Hw & Hrow). rewrite Er in Er'. injection Er' as <-.
  pose proof Hrow as [_ Hch _ _ _]. destruct (lookup_lt_is_Some_2 (_charRow r) (Z.to_nat (X q))) as [c Hc]; [lia|].
  pose proof (MeasureRight_spaces _ _ _ Hc ltac:(lia)) as Hsp. unfold IsSpace in Hsp.
  apply andb_true_iff in Hsp as [Hg Hw2]. apply negb_true_iff in Hg. apply Z.eqb_eq in Hw2.
  assert (shown r (_unicodeStorage t) !! Z.to_nat (X q) = Some ([UNICODE_SPACE], _attribute (_cattr c))) as Hs.
  { unfold shown. rewrite list_lookup_imap, Hc. cbn. unfold glyph_of. by rewrite Hg, Hw2. }
  destruct (class_at_row t Hok q r _ _ Hq Er Hs) as [a Ha]. eexists _, _. exact Ha.
Qed.

Lemma last_text_row_ok n y :
  0 <= y < TotalRowCount t → Z.of_nat n <= y →
  ∃ x y', last_text_row n y t = inr (mkCOORD x y') ∧ y - Z.of_nat n <= y' <= y ∧ -1 <= x < t_width t
    ∧ (∀ q, inside (_size t) q → Y q <= y → y' < Y q ∨ Y q = y' ∧ x < X q → blank_cell q)
    ∧ (0 <= x ∨ y' = y - Z.of_nat n).
Proof using Hok.
  revert y. induction n as [|n IH]; intros y Hy Hn;
    destruct (row_at t Hok y Hy) as (r & Er & _ & _ & _ & Hw & Hrow); pose proof (b_width t Hok);
    pose proof (ok_chars _ _ Hrow) as Hch;
    (assert (0 <= MeasureRight (_charRow r) <= t_width t) as Hm by (unfold MeasureRight; lia));
    cbn [last_text_row]; rewrite Er; cbn [mbind result_bind]; rewrite (i16_small (MeasureRight _ - 1)) by lia.
  - exists (MeasureRight (_charRow r) - 1), y. split; [done|]. split; [lia|]. split; [lia|]. split; [|lia].
    intros q Hq Hqy Hafter. eapply (blank_after_measure y r); [done|lia|done|lia].
  - destruct (Z.ltb_spec (MeasureRight (_charRow r) - 1) 0).
    + pose proof (b_height t Hok). rewrite i16_small by lia.
      destruct (IH (y - 1)) as (x & y' & E & Hy' & Hx & Hbl & Hend); [lia|lia|]. exists x, y'.
      split; [done|]. split; [lia|]. split; [done|]. split; [|lia].
      intros q Hq Hqy Hafter. destruct (decide (Y q = y)) as [Eq|]; [|apply Hbl; [done|lia|done]].
      eapply (blank_after_measure y r); [done|done|done|]. pose proof (proj1 (inside_size t Hok q) Hq). lia.
    + exists (MeasureRight (_charRow r) - 1), y. split; [done|]. split; [lia|]. split; [lia|]. split; [|lia].
      intros q Hq Hqy Hafter. eapply (blank_after_measure y r); [done|lia|done|lia].
Qed.

Lemma GetLastNonSpaceCharacter_ok :
  ∃ last, GetLastNonSpaceCharacter None t = inr (walk_pos (_size t) forward last) ∧ 0 <= last < area (_size t)
    ∧ ∀ i, last < i < area (_size t) → blank_cell (walk_pos (_size t) forward i).
Proof using Hok.
  pose proof (size_ok t Hok) as Hv. pose proof (b_height t Hok) as Hh. pose proof (b_width t Hok) as Hw.
  assert (Viewport.Top (_size t) = 0 ∧ BottomInclusive (_size t) = TotalRowCount t - 1 ∧ Left (_size t) = 0) as (E1 & E2 & E3)
    by by rewrite (b_size t Hok).
  unfold GetLastNonSpaceCharacter. cbn [default]. rewrite E1, E2.
  destruct (last_text_row_ok (Z.to_nat (TotalRowCount t - 1 - 0)) (TotalRowCount t - 1))
    as (x & y & -> & Hy & Hx & Hbl & Hend); [lia|lia|].
  cbn [mbind result_bind X Y]. set (p := mkCOORD (Z.max x 0) (Z.max y 0)).
  assert (inside (_size t) p) as Hp by (apply (inside_size t Hok); cbn; lia).
  exists (walk_index (_size t) forward p). rewrite (walk_pos_index _ Hv) by done. split; [done|].
  split; [by apply walk_index_range|]. intros i Hi.
  pose proof (walk_index_range (_size t) forward p Hp).
  pose proof (pos_inside _ Hv i ltac:(lia)) as Hq. apply Hbl; [done| |].
  - apply (inside_size t Hok) in Hq. lia.
  - pose proof (index_pos _ Hv i) as Ei. apply (inside_size t Hok) in Hq as [HqX HqY].
    set (q := walk_pos (_size t) forward i) in *. unfold walk_index in Ei, Hi. cbn [wx wy forward] in Ei, Hi.
    cbn [p X Y] in Hi. rewrite E1, E3 in *. fold (t_width t) in *. nia.
Qed.
End last.

(** A space is not readable. *)
Lemma blank_not_readable t d k : blank_cell t (walk_pos (_size t) forward k) → readable t d k = false.
Proof. intros (kd & a & E). unfold readable, class_at. by rewrite E. Qed.

(** Moving to the next word goes to the first word start behind the position,
    a readable cell behind one that is not readable; it says that it cannot move
    exactly when there is none.  When the position was a word start, moving to the
    previous word leads back to it. *)
Theorem word_navigation_correct (t : TextBuffer) (d : wstring) (k : Z) :
  let pos i := walk_pos (_size t) forward i in
  let starts i := word_start t d i in
  buffer_ok t → 0 <= k < area (_size t) →
  ∃ last, GetLastNonSpaceCharacter None t = inr last
    ∧ ((MoveToNextWord t d (pos k) last = inr (false, pos k) ∧ ∀ i, k < i < area (_size t) → ¬ starts i)
       ∨ ∃ r, MoveToNextWord t d (pos k) last = inr (true, pos r) ∧ k < r < area (_size t) ∧ starts r
           ∧ (∀ i, k < i < r → ¬ starts i)
           ∧ (starts k → MoveToPreviousWord t d (pos r) = inr (true, pos k))).
Proof.
  intros pos starts Hok Hk. unfold pos, starts. clear pos starts.
  destruct (GetLastNonSpaceCharacter_ok t Hok) as (l & El & Hl & Hblank).
  eexists. split; [exact El|]. pose proof (size_ok t Hok) as Hv. unfold MoveToNextWord.
  destruct (word_end_accessibility t Hok d k l Hk ltac:(lia)) as (r & -> & Hr & Hw & Hno). cbn [mbind result_bind].
  assert (∀ i, k < i < r → ¬ word_start t d i) as Hno'.
  { apply Hno. right. intros i Hi. by apply blank_not_readable, Hblank. }
  case_decide as E.
  - left. split; [done|]. apply (pos_is_end _ Hv) in E; [|lia]. by subst r.
  - right. exists r. rewrite (pos_is_end _ Hv) in E by lia. specialize (Hw ltac:(lia)).
    split; [done|]. split; [lia|]. split; [done|]. split; [done|]. intros Hs.
    apply (MoveToPreviousWord_ok t Hok d k r); [lia|lia|done..].
Qed.
