(* ===== verification/SelectionFacts.v ===== *)
(** Selections: the words that a double click selects, the rectangles of a
    selection, and the text that is copied from them. *)

From S2P Require Import Prelude DispatchTypes TextColor TextAttribute Rle RleFacts RleIter Viewport ViewportFacts OutputCell CharRow Row RowFacts Cursor TextBuffer TextNav TextBufferFacts TextNavFacts.
From stdpp Require Import gmap.

#[local] Open Scope Z_scope.

(** ** Words of a selection *)

Section selection.
Context (t : TextBuffer) (Hok : buffer_ok t) (wordDelimiters : wstring).

Definition class_of (p : COORD) : DelimiterClass :=
  match cell_at t p with Some (g, _, _) => glyph_class wordDelimiters g | None => ControlChar end.

Lemma class_of_ok p : inside (_size t) p → _GetDelimiterClassAt p wordDelimiters t = inr (class_of p).
Proof using Hok.
  intros Hp. pose proof (size_ok t Hok) as Hv. pose proof (walk_index_range (_size t) forward p Hp).
  pose proof (class_ok t Hok wordDelimiters (walk_index (_size t) forward p)) as E. unfold class_at in E.
  rewrite (walk_pos_index _ Hv) in E by done. by apply E.
Qed.

Lemma inside_xy x y : inside (_size t) (mkCOORD x y) ↔ 0 <= x < t_width t ∧ 0 <= y < TotalRowCount t.
Proof using Hok. by rewrite (inside_size t Hok). Qed.

(** Steps within a row. *)
Lemma dec_row x y : inside (_size t) (mkCOORD x y) → 0 < x →
  DecrementInBounds (_size t) (mkCOORD x y) false = inr (true, mkCOORD (x - 1) y).
Proof using Hok.
  intros Hp Hx. pose proof (size_ok t Hok) as Hv. unfold DecrementInBounds, WalkInBounds, WalkInBoundsCircular.
  rewrite (IsInBounds_ok _ Hv), bool_decide_true by done. cbn [negb wx wy X Y mbind result_bind].
  apply inside_xy in Hp. pose proof (b_width t Hok).
  assert (Left (_size t) = 0) as -> by by rewrite (b_size t Hok).
  rewrite (proj2 (Z.eqb_neq _ _)), i16_small by lia. done.
Qed.

Lemma inc_row x y : inside (_size t) (mkCOORD x y) → x < t_width t - 1 →
  IncrementInBounds (_size t) (mkCOORD x y) false = inr (true, mkCOORD (x + 1) y).
Proof using Hok.
  intros Hp Hx. pose proof (size_ok t Hok) as Hv. unfold IncrementInBounds, WalkInBounds, WalkInBoundsCircular.
  rewrite (IsInBounds_ok _ Hv), bool_decide_true by done. cbn [negb wx wy X Y mbind result_bind andb].
  apply inside_xy in Hp. pose proof (b_width t Hok).
  assert (RightInclusive (_size t) = t_width t - 1) as -> by by rewrite (b_size t Hok).
  rewrite (proj2 (Z.eqb_neq _ _)), i16_small by lia. done.
Qed.

Lemma expand_left_ok fuel c x y :
  inside (_size t) (mkCOORD x y) → (Z.to_nat x < fuel)%nat →
  ∃ a, expand_left t wordDelimiters fuel c (mkCOORD x y) = inr (mkCOORD a y) ∧ 0 <= a <= x
    ∧ (∀ i, a < i <= x → class_of (mkCOORD i y) = c) ∧ (a = 0 ∨ class_of (mkCOORD a y) ≠ c).
Proof using Hok.
  revert x. induction fuel as [|fuel IH]; intros x Hp Hf; [lia|]. cbn [expand_left X].
  assert (Left (_size t) = 0) as -> by by rewrite (b_size t Hok). pose proof (proj1 (inside_xy x y) Hp) as Hxy.
  destruct (Z.gtb_spec x 0).
  - rewrite class_of_ok by done. cbn [mbind result_bind]. case_decide as E.
    + rewrite dec_row by done. cbn [mbind result_bind].
      destruct (IH (x - 1)) as (a & -> & Ha & Hall & Hend); [apply inside_xy; lia|lia|].
      exists a. split; [done|]. split; [lia|]. split; [|done]. intros i Hi.
      destruct (decide (i = x)) as [->|]; [done|]. apply Hall. lia.
    + exists x. split; [done|]. split; [lia|]. split; [lia|by right].
  - exists x. split; [done|]. split; [lia|]. split; [lia|]. left. lia.
Qed.

Lemma expand_right_ok fuel c x y :
  inside (_size t) (mkCOORD x y) → (Z.to_nat (t_width t - x) < fuel)%nat →
  ∃ b, expand_right t wordDelimiters fuel c (mkCOORD x y) = inr (mkCOORD b y) ∧ x <= b < t_width t
    ∧ (∀ i, x <= i < b → class_of (mkCOORD i y) = c) ∧ (b = t_width t - 1 ∨ class_of (mkCOORD b y) ≠ c).
Proof using Hok.
  revert x. induction fuel as [|fuel IH]; intros x Hp Hf; [lia|]. cbn [expand_right X].
  assert (RightInclusive (_size t) = t_width t - 1) as -> by by rewrite (b_size t Hok).
  pose proof (proj1 (inside_xy x y) Hp) as Hxy. destruct (Z.ltb_spec x (t_width t - 1)).
  - rewrite class_of_ok by done. cbn [mbind result_bind]. case_decide as E.
    + rewrite inc_row by done. cbn [mbind result_bind].
      destruct (IH (x + 1)) as (b & -> & Hb & Hall & Hend); [apply inside_xy; lia|lia|].
      exists b. split; [done|]. split; [lia|]. split; [|done]. intros i Hi.
      destruct (decide (i = x)) as [->|]; [done|]. apply Hall. lia.
    + exists x. split; [done|]. split; [lia|]. split; [lia|by right].
  - exists x. split; [done|]. split; [lia|]. split; [lia|]. left. lia.
Qed.

Lemma width_fuel : (Z.to_nat (t_width t) < cell_fuel t)%nat.
Proof using Hok.
  pose proof (fuel_cells t Hok). pose proof (rows_pos _ (size_ok t Hok)). pose proof (b_width t Hok).
  unfold area, t_width in *. nia.
Qed.

Lemma word_left x y :
  inside (_size t) (mkCOORD x y) →
  ∃ a, GetWordStart t wordDelimiters (mkCOORD x y) false = inr (mkCOORD a y) ∧ 0 <= a <= x
    ∧ (∀ i, a <= i <= x → class_of (mkCOORD i y) = class_of (mkCOORD x y))
    ∧ (a = 0 ∨ class_of (mkCOORD (a - 1) y) ≠ class_of (mkCOORD x y)).
Proof using Hok.
  intros Hp. pose proof (proj1 (inside_xy x y) Hp) as Hxy. pose proof width_fuel. unfold GetWordStart.
  assert (Origin (_size t) = mkCOORD 0 0) as -> by by rewrite (b_size t Hok). case_decide as E0.
  { injection E0 as -> ->. exists 0. split; [done|]. split; [lia|]. split; [|by left]. intros i Hi. by assert (i = 0) as -> by lia. }
  rewrite decide_False.
  2:{ unfold EndExclusive. rewrite (BottomExclusive_ok _ (size_ok t Hok)). intros [= _ E].
      rewrite (b_size t Hok) in E. unfold BottomInclusive in E. cbn in E. lia. }
  unfold _GetWordStartForSelection. rewrite class_of_ok by done. cbn [mbind result_bind].
  destruct (expand_left_ok (cell_fuel t) (class_of (mkCOORD x y)) x y Hp ltac:(lia)) as (a & -> & Ha & Hall & Hend).
  cbn [mbind result_bind]. rewrite class_of_ok by (apply inside_xy; lia). cbn [mbind result_bind].
  case_decide as E.
  - exists a. split; [done|]. split; [lia|]. split; [|by destruct Hend; [left|]]. intros i Hi.
    destruct (decide (i = a)) as [->|]; [done|]. apply Hall. lia.
  - assert (a ≠ x) by by intros ->. rewrite inc_row by (try apply inside_xy; lia). cbn [mbind result_bind].
    exists (a + 1). split; [done|]. split; [lia|]. split; [intros i Hi; apply Hall; lia|].
    right. by replace (a + 1 - 1) with a by lia.
Qed.

Lemma word_right x y :
  inside (_size t) (mkCOORD x y) →
  ∃ b, GetWordEnd t wordDelimiters (mkCOORD x y) false = inr (mkCOORD b y) ∧ x <= b < t_width t
    ∧ (∀ i, x <= i <= b → class_of (mkCOORD i y) = class_of (mkCOORD x y))
    ∧ (b = t_width t - 1 ∨ class_of (mkCOORD (b + 1) y) ≠ class_of (mkCOORD x y)).
Proof using Hok.
  intros Hp. pose proof (proj1 (inside_xy x y) Hp) as Hxy. pose proof width_fuel. unfold GetWordEnd.
  rewrite decide_False.
  2:{ unfold EndExclusive. rewrite (BottomExclusive_ok _ (size_ok t Hok)). intros [= _ E].
      rewrite (b_size t Hok) in E. unfold BottomInclusive in E. cbn in E. lia. }
  unfold _GetWordEndForSelection. cbn [X].
  assert (RightInclusive (_size t) = t_width t - 1) as -> by by rewrite (b_size t Hok).
  destruct (Z.eqb_spec x (t_width t - 1)).
  { exists x. split; [done|]. split; [lia|]. split; [|by left]. intros i Hi. by assert (i = x) as -> by lia. }
  rewrite class_of_ok by done. cbn [mbind result_bind].
  destruct (expand_right_ok (cell_fuel t) (class_of (mkCOORD x y)) x y Hp ltac:(lia)) as (b & -> & Hb & Hall & Hend).
  cbn [mbind result_bind]. rewrite class_of_ok by (apply inside_xy; lia). cbn [mbind result_bind].
  case_decide as E.
  - exists b. split; [done|]. split; [lia|]. split; [|by destruct Hend; [left|]]. intros i Hi.
    destruct (decide (i = b)) as [->|]; [done|]. apply Hall. lia.
  - assert (b ≠ x) by by intros ->. rewrite dec_row by (try apply inside_xy; lia). cbn [mbind result_bind].
    exists (b - 1). split; [done|]. split; [lia|]. split; [intros i Hi; apply Hall; lia|].
    right. by replace (b - 1 + 1) with b by lia.
Qed.
End selection.

(** The word that a double click selects is the largest range of cells around
    the position, within its row, whose cells are all of the same class: readable,
    delimiter or blank. *)
Theorem selected_word_correct (t : TextBuffer) (d : wstring) (x y : Z) :
  let class i := class_of t d (mkCOORD i y) in
  buffer_ok t → inside (_size t) (mkCOORD x y) →
  ∃ a b, GetWordStart t d (mkCOORD x y) false = inr (mkCOORD a y)
    ∧ GetWordEnd t d (mkCOORD x y) false = inr (mkCOORD b y)
    ∧ 0 <= a <= x ∧ x <= b < t_width t
    ∧ (∀ i, a <= i <= b → class i = class x)
    ∧ (a = 0 ∨ class (a - 1) ≠ class x) ∧ (b = t_width t - 1 ∨ class (b + 1) ≠ class x).
Proof.
  intros class Hok Hp. destruct (word_left t Hok d x y Hp) as (a & Ea & Ha & Hla & Hma).
  destruct (word_right t Hok d x y Hp) as (b & Eb & Hb & Hlb & Hmb). exists a, b.
  split_and!; try done; try lia. intros i Hi. destruct (decide (i <= x)); [apply Hla|apply Hlb]; lia.
Qed.

(** ** The cell iterator *)

Section iterator.
Context (t : TextBuffer) (Hok : buffer_ok t).

(** The iterator shows the cell at its position. *)
Record iter_shows (it : TextBufferCellIterator) : Prop := {
  sh_inside : inside (_size t) (c_pos it);
  sh_row : GetRowByOffset (Y (c_pos it)) t = inr (c_row it);
  sh_iter : iter_ok (_runs (_attrRow (c_row it))) (c_attrIter it);
  sh_index : index (_runs (_attrRow (c_row it))) (c_attrIter it) = X (c_pos it);
  sh_view : cell_at t (c_pos it) = Some (view_cell (c_view it))
}.

(** The iterator over the attributes of a row reaches every column. *)
Lemma attr_move p r i move :
  inside (_size t) p → GetRowByOffset (Y p) t = inr r → iter_ok (_runs (_attrRow r)) i →
  0 <= index (_runs (_attrRow r)) i + move < t_width t →
  ∃ j, iter_add 16 (_runs (_attrRow r)) move i = inr j ∧ iter_ok (_runs (_attrRow r)) j
    ∧ index (_runs (_attrRow r)) j = index (_runs (_attrRow r)) i + move.
Proof using Hok.
  intros Hp Er Hi Hm. apply (inside_size t Hok) in Hp as [HX HY].
  destruct (row_at t Hok (Y p) HY) as (r' & Er' & _ & _ & _ & Hw & Hrow). rewrite Er in Er'. injection Er' as <-.
  pose proof Hrow as [_ _ (Hpos & Htot & Hlt) Hat2 _]. pose proof (b_width t Hok).
  apply iter_add_index; [done|lia|done|lia].
Qed.

Lemma GenerateView_ok p r j :
  inside (_size t) p → GetRowByOffset (Y p) t = inr r → iter_ok (_runs (_attrRow r)) j →
  index (_runs (_attrRow r)) j = X p →
  ∃ v, _GenerateView t p r j = inr v ∧ cell_at t p = Some (view_cell v).
Proof using Hok.
  intros Hp Er Hj Ej. pose proof Hp as [HX HY]%(inside_size t Hok). pose proof (b_width t Hok).
  destruct (row_at t Hok (Y p) HY) as (r' & Er' & _ & Hs & _ & Hw & Hrow). rewrite Er in Er'. injection Er' as <-.
  pose proof Hrow as [_ Hch (Hpos & Htot & Hlt) Hat2 Hg].
  destruct (iter_deref_index (_runs (_attrRow r)) j Hpos Hj) as (a & Ea & Hla).
  { intros ->. rewrite index_end in Ej. lia. }
  destruct (lookup_lt_is_Some_2 (_charRow r) (Z.to_nat (X p))) as [c Hc]; [lia|].
  pose proof (GlyphAt_ok (_id r) (Z.to_nat (X p)) (_charRow r) (_unicodeStorage t) c ltac:(lia) Hg Hc) as EG.
  rewrite Z2Nat.id in EG by lia. unfold _GenerateView. rewrite wrapu_small by lia. rewrite EG.
  unfold DbcsAttrAt, at_cell. rewrite Hc. cbn [mbind result_bind]. rewrite Ea. cbn [mbind result_bind].
  eexists. split; [done|]. unfold cell_at. rewrite Hs. cbn [mbind option_bind line_of l_cells l_attrs]. unfold shown.
  rewrite list_lookup_imap, Hc. cbn [fmap option_fmap option_map mbind option_bind].
  unfold attrs. rewrite Ej in Hla. by rewrite Hla.
Qed.

Section limits.
Context (lim : Viewport) (Hlim : vp_ok lim) (Hsub : ∀ p, inside lim p → inside (_size t) p).

Lemma limits_in_bounds : IsInBounds_viewport (_size t) lim = true.
Proof using Hok Hlim Hsub.
  pose proof (Hsub (mkCOORD (Left lim) (Viewport.Top lim))) as H1.
  pose proof (Hsub (mkCOORD (RightInclusive lim) (BottomInclusive lim))) as H2.
  unfold vp_ok, inside in *. cbn [X Y] in *. specialize (H1 ltac:(lia)). specialize (H2 ltac:(lia)).
  unfold IsInBounds_viewport. rewrite !andb_true_iff. lia.
Qed.

Lemma CellIter_init_ok p :
  inside lim p →
  ∃ it, CellIter_init t p lim = inr it ∧ iter_shows it ∧ c_pos it = p ∧ c_bounds it = lim ∧ c_exceeded it = false.
Proof using Hok Hlim Hsub.
  intros Hp. pose proof (Hsub p Hp) as Hps. pose proof Hps as [HX HY]%(inside_size t Hok).
  destruct (row_at t Hok (Y p) HY) as (r & Er & _ & _ & _ & Hw & Hrow). unfold CellIter_init. rewrite Er.
  cbn [mbind result_bind]. rewrite limits_in_bounds, (IsInBounds_ok lim Hlim), bool_decide_true by done. cbn [negb].
  pose proof Hrow as [_ _ (Hpos & Htot & Hlt) Hat2 _].
  destruct (attr_move p r rle_begin (X p) Hps Er (iter_ok_begin _ Hpos)) as (j & -> & Hj & Ej).
  { change (index _ rle_begin) with 0. lia. }
  change (index _ rle_begin) with 0 in Ej. cbn [mbind result_bind].
  destruct (GenerateView_ok p r j Hps Er Hj ltac:(lia)) as (v & -> & Hv). cbn [mbind result_bind].
  eexists. split; [done|]. split; [by split|done].
Qed.

Lemma SetPos_ok p it :
  iter_shows it → inside lim p →
  ∃ it', _SetPos t p it = inr it' ∧ iter_shows it' ∧ c_pos it' = p ∧ c_bounds it' = c_bounds it
    ∧ c_exceeded it' = c_exceeded it.
Proof using Hok Hsub.
  intros [Hin Hrw Hio Hix _] Hp. pose proof (Hsub p Hp) as Hps. pose proof Hps as [HX HY]%(inside_size t Hok).
  destruct (row_at t Hok (Y p) HY) as (r & Er & _ & _ & _ & Hw & Hrow). unfold _SetPos.
  pose proof Hrow as [_ _ (Hpos & Htot & Hlt) Hat2 _].
  assert (∃ i x, (if Y p =? Y (c_pos it) then inr (c_row it, c_attrIter it, X (c_pos it))
      else r ← GetRowByOffset (Y p) t; inr (r, rle_begin, 0)) = inr (A := exn) (r, i, x)
    ∧ iter_ok (_runs (_attrRow r)) i ∧ index (_runs (_attrRow r)) i = x) as (i & x & -> & Hi & Ei).
  { destruct (Z.eqb_spec (Y p) (Y (c_pos it))) as [E|E].
    - rewrite <-E, Er in Hrw. injection Hrw as Hrw. rewrite <-Hrw in *. exists (c_attrIter it), (X (c_pos it)). done.
    - rewrite Er. cbn. eexists _, _. split; [done|]. split; [by apply iter_ok_begin|done]. }
  cbn [mbind result_bind].
  assert (∃ j, (if X p =? x then inr i else iter_add 16 (_runs (_attrRow r)) (X p - x) i) = inr j
    ∧ iter_ok (_runs (_attrRow r)) j ∧ index (_runs (_attrRow r)) j = X p) as (j & -> & Hj & Ej).
  { destruct (Z.eqb_spec (X p) x) as [E|E]; [exists i; split; [done|]; split; [done|lia]|].
    destruct (attr_move p r i (X p - x) Hps Er Hi) as (j & -> & Hj & Ej); [lia|].
    exists j. split; [done|]. split; [done|lia]. }
  cbn [mbind result_bind]. destruct (GenerateView_ok p r j Hps Er Hj Ej) as (v & -> & Hv). cbn [mbind result_bind].
  eexists. split; [done|]. split; [by split|done].
Qed.

(** Stepping through the limits. *)
Lemma CellIter_add_ok k it :
  iter_shows it → c_pos it = walk_pos lim forward k → c_bounds it = lim → c_exceeded it = false → 0 <= k < area lim →
  ∃ it', CellIter_add t 1 it = inr it' ∧ iter_shows it' ∧ c_bounds it' = lim
    ∧ (if k + 1 <? area lim then c_pos it' = walk_pos lim forward (k + 1) ∧ c_exceeded it' = false
       else c_exceeded it' = true).
Proof using Hok Hlim Hsub.
  intros Hs Ep Eb Ee Hk. unfold CellIter_add. change (Z.to_nat 1) with 1%nat. change (Z.to_nat (- (1))) with 0%nat.
  cbn [cell_moves]. rewrite Ee, Eb, Ep, (inc_pos lim Hlim) by done. cbn [mbind result_bind cell_moves].
  assert (∀ b, iter_shows (mkCellIter (walk_pos lim forward k) lim b (c_row it) (c_attrIter it) (c_view it))) as Hs1.
  { intros b. destruct Hs. rewrite Ep in *. by split. }
  destruct (Z.ltb_spec (k + 1) (area lim)); cbn [cell_moves mbind result_bind negb].
  - destruct (SetPos_ok (walk_pos lim forward (k + 1)) _ (Hs1 false)) as (it' & -> & Hs' & Ep' & Eb' & Ee');
      [apply pos_inside; (done || lia)|]. exists it'. done.
  - destruct (SetPos_ok (walk_pos lim forward k) _ (Hs1 true)) as (it' & -> & Hs' & Ep' & Eb' & Ee');
      [by apply pos_inside|]. exists it'. done.
Qed.
End limits.
End iterator.

(** ** Copied text *)

Section text.
Context (t : TextBuffer) (Hok : buffer_ok t) (colors : option (TextAttribute → Z * Z)).

(** A copied code unit, with the attribute that gives its colours; a line end has none. *)
Definition unit_of : Type := Z * option TextAttribute.

(** What one cell contributes: its glyph in the colours of the cell, and nothing
    for the second half of a wide glyph. *)
Definition cell_units (p : COORD) : list unit_of :=
  match cell_at t p with
  | Some (g, Trailing, _) => []
  | Some (g, _, a) => (λ c, (c, Some a)) <$> g
  | None => []
  end.

(** The text and, when they are asked for, the two colours of each code unit; line
    ends are black on black. *)
Definition render (us : list unit_of) : RowText :=
  (fst <$> us,
   match colors with Some f => (λ u, from_option (λ a, (f a).1) 0 u.2) <$> us | None => [] end,
   match colors with Some f => (λ u, from_option (λ a, (f a).2) 0 u.2) <$> us | None => [] end).

(** Without the spaces at the end. *)
Fixpoint without_spaces (us : list unit_of) : list unit_of :=
  match us with
  | [] => []
  | u :: us =>
      match without_spaces us with
      | [] => if u.1 =? UNICODE_SPACE then [] else [u]
      | us' => u :: us'
      end
  end.

(** The positions of a rectangle in reading order. *)
Definition reading (v : Viewport) : list COORD := walk_pos v forward <$> seqZ 0 (area v).

Lemma append_assoc a b c : append_text (append_text a b) c = append_text a (append_text b c).
Proof. unfold append_text. cbn. by rewrite <-!app_assoc. Qed.

Lemma append_nil_l a : append_text ([], [], []) a = a.
Proof. by destruct a as [[]]. Qed.

Lemma append_nil_r a : append_text a ([], [], []) = a.
Proof. destruct a as [[]]. unfold append_text. cbn. by rewrite !app_nil_r. Qed.

Lemma render_app us vs : render (us ++ vs) = append_text (render us) (render vs).
Proof. unfold render, append_text. cbn [fst snd]. destruct colors; by rewrite !fmap_app. Qed.

Lemma units_shown it : iter_shows t it → cell_text colors (c_view it) = render (cell_units (c_pos it)).
Proof.
  intros [_ _ _ _ Hv]. unfold cell_units. rewrite Hv. unfold cell_text, view_cell, render, IsTrailing.
  destruct (c_view it) as [g [k st] a b]. cbn [Chars DbcsAttr TextAttr _attribute].
  assert (fst <$> ((λ c, (c, Some a)) <$> g) = g) as Eg by (rewrite <-list_fmap_compose; exact (list_fmap_id g)).
  destruct k; cbn [bool_decide]; [| |by destruct colors]; rewrite Eg; (destruct colors as [f|]; [|done]);
    destruct (f a) as [fg bk] eqn:E; rewrite <-!list_fmap_compose; (f_equal; [f_equal|]);
    apply list_fmap_ext; intros; cbn; by rewrite E.
Qed.

Lemma without_spaces_snoc us u :
  without_spaces (us ++ [u]) = if u.1 =? UNICODE_SPACE then without_spaces us else us ++ [u].
Proof.
  induction us as [|v us IH]; cbn; [by destruct (u.1 =? _)|]. rewrite IH. destruct (u.1 =? _); [done|].
  by destruct us.
Qed.

(** Trimming takes exactly the spaces at the end away. *)
Lemma without_spaces_spec us :
  ∃ vs, us = without_spaces us ++ vs ∧ Forall (λ u, u.1 = UNICODE_SPACE) vs ∧ last (fst <$> without_spaces us) ≠ Some UNICODE_SPACE.
Proof.
  induction us as [|u us (vs & E & Hvs & Hl)] using rev_ind; [by exists []|]. rewrite without_spaces_snoc.
  destruct (Z.eqb_spec u.1 UNICODE_SPACE) as [Hu|Hu].
  - exists (vs ++ [u]). rewrite app_assoc, <-E. split; [done|]. split; [|done].
    apply Forall_app. split; [done|by apply Forall_singleton].
  - exists []. rewrite app_nil_r. split; [done|]. split; [done|]. rewrite fmap_app, last_app. cbn. congruence.
Qed.

Lemma without_spaces_take us :
  without_spaces us = take (length us - trim_count (reverse (fst <$> us))) us.
Proof.
  induction us as [|u us IH] using rev_ind; [done|]. rewrite without_spaces_snoc, fmap_app, reverse_app, length_app.
  cbn. destruct (Z.eqb_spec u.1 UNICODE_SPACE).
  - rewrite IH. rewrite take_app_le by lia. f_equal. lia.
  - by rewrite take_ge by (rewrite length_app; cbn; lia).
Qed.

Lemma trim_render us : trim_text (render us) = render (without_spaces us).
Proof.
  rewrite without_spaces_take. unfold trim_text, render. cbn [fst snd].
  destruct colors; by rewrite ?length_fmap, ?fmap_take, ?take_nil.
Qed.

Lemma collect_ok lim n k it acc :
  vp_ok lim → (∀ p, inside lim p → inside (_size t) p) →
  iter_shows t it → c_pos it = walk_pos lim forward k → c_bounds it = lim → c_exceeded it = false →
  0 <= k → k + Z.of_nat n = area lim → (0 < n)%nat →
  collect t colors n it acc = inr (append_text acc (render ((walk_pos lim forward <$> seqZ k (Z.of_nat n)) ≫= cell_units))).
Proof using Hok.
  intros Hlim Hsub. revert k it acc. induction n as [|n IH]; intros k it acc Hs Ep Eb Ee Hk Hn Hpos; [lia|].
  cbn [collect]. unfold CellIter_valid. rewrite Ee, Eb, Ep, (IsInBounds_ok lim Hlim), bool_decide_true by (apply pos_inside; (done || lia)).
  cbn [negb andb].
  destruct (CellIter_add_ok t Hok lim Hlim Hsub k it Hs Ep Eb Ee) as (it' & -> & Hs' & Eb' & Hend); [lia|].
  cbn [mbind result_bind]. rewrite (units_shown it Hs), Ep.
  replace (seqZ k (Z.of_nat (S n))) with (k :: seqZ (k + 1) (Z.of_nat n)).
  2:{ rewrite (seqZ_cons k (Z.of_nat (S n))) by lia. f_equal. f_equal; lia. }
  rewrite fmap_cons, bind_cons, render_app, <-append_assoc. destruct (Z.ltb_spec (k + 1) (area lim)).
  - destruct Hend as [Ep' Ee']. apply IH; (done || lia).
  - assert (n = 0%nat) as -> by lia. cbn [collect]. unfold CellIter_valid. rewrite Hend. cbn [negb andb].
    change (seqZ (k + 1) (Z.of_nat 0)) with (@nil Z). unfold render. cbn. by destruct colors; rewrite append_nil_r.
Qed.

(** A row of the selection: the units of its cells, trimmed and ended as asked for
    unless the line goes on in the next one. *)
Definition selection_row (includeCRLF trim formatWrappedRows last : bool) (rect : SMALL_RECT) : list unit_of :=
  let us := reading (FromInclusive rect) ≫= cell_units in
  let wrapped := match screen t !! Z.to_nat (rTop rect) with Some l => l_wrap l | None => false end in
  if formatWrappedRows || negb wrapped then
    (if trim then without_spaces us else us) ++ (if includeCRLF && negb last then [(0x0D, None); (0x0A, None)] else [])
  else us.

Definition rect_ok (rect : SMALL_RECT) : Prop :=
  vp_ok (FromInclusive rect) ∧ ∀ p, inside (FromInclusive rect) p → inside (_size t) p.

Lemma row_text_ok includeCRLF trim formatWrappedRows last rect :
  rect_ok rect →
  row_text_of t colors includeCRLF trim formatWrappedRows last rect
  = inr (render (selection_row includeCRLF trim formatWrappedRows last rect)).
Proof using Hok.
  intros [Hv Hsub]. unfold row_text_of, selection_row. set (v := FromInclusive rect) in *.
  pose proof (area_pos v Hv) as Ha.
  assert (Origin v = walk_pos v forward 0) as Eo by by rewrite <-(GetWalkOrigin_pos v Hv).
  assert (inside v (Origin v)) as Ho by (rewrite Eo; apply pos_inside; (done || lia)).
  destruct (CellIter_init_ok t Hok v Hv Hsub (Origin v) Ho) as (it & -> & Hs & Ep & Eb & Ee). cbn [mbind result_bind].
  rewrite (Width_ok v Hv), (Height_ok v Hv). fold (area v).
  rewrite (collect_ok v (Z.to_nat (area v)) 0 it) by (done || lia || (by rewrite Ep)).
  rewrite Z2Nat.id by lia. cbn [mbind result_bind]. rewrite append_nil_l.
  pose proof (Hsub _ Ho) as [_ HY]%(inside_size t Hok). change (Y (Origin v)) with (rTop rect) in HY.
  pose proof (b_height t Hok). rewrite (wrapu_small 32) by lia.
  destruct (row_at t Hok (rTop rect) HY) as (r & -> & _ & Hsc & _). cbn [mbind result_bind]. rewrite Hsc. f_equal.
  change (l_wrap (line_of (_unicodeStorage t) r)) with (_wrapForced r).
  rewrite trim_render. destruct trim, includeCRLF, last, (formatWrappedRows || negb (_wrapForced r)); cbn [andb negb];
    rewrite ?app_nil_r, ?render_app; unfold crlf, render; cbn; by destruct colors.
Qed.

(** All the rows; only the last one has no line end. *)
Definition selection_text (includeCRLF trim formatWrappedRows : bool) (rects : list SMALL_RECT) : list RowText :=
  imap (λ i rect, render (selection_row includeCRLF trim formatWrappedRows (bool_decide (S i = length rects)) rect)) rects.

Lemma GetText_ok includeCRLF trim formatWrappedRows rects :
  Forall rect_ok rects →
  TextBuffer_GetText t colors includeCRLF trim rects formatWrappedRows
  = inr (selection_text includeCRLF trim formatWrappedRows rects).
Proof using Hok.
  induction 1 as [|rect rects Hr Hall IH]; [done|]. cbn [TextBuffer_GetText].
  rewrite row_text_ok by done. cbn [mbind result_bind]. rewrite IH. cbn [mbind result_bind].
  unfold selection_text. cbn [imap length]. f_equal. f_equal.
  - do 2 f_equal. apply bool_decide_ext. destruct rects; cbn; [done|]. split; [done|lia].
  - apply imap_ext. intros i r _. cbn. do 2 f_equal. apply bool_decide_ext. lia.
Qed.
End text.

(** C40: copying the rectangles of a selection gives, for each of them, the glyphs of
    its cells in reading order, with the glyph of a wide character taken from its first
    half only, and for each code unit the colours of the attribute of its cell when they
    are asked for.  Rows that are not continued on the next line, or all rows when
    asked for, lose exactly the spaces at their end, with their colours, and, but for the
    last one, end in a carriage return and a line feed, black on black. *)
Theorem GetText_correct (t : TextBuffer) (colors : option (TextAttribute → Z * Z))
    (includeCRLF trim formatWrappedRows : bool) (rects : list SMALL_RECT) :
  buffer_ok t → Forall (rect_ok t) rects →
  TextBuffer_GetText t colors includeCRLF trim rects formatWrappedRows
    = inr (selection_text t colors includeCRLF trim formatWrappedRows rects)
  ∧ ∀ us, ∃ vs, us = without_spaces us ++ vs ∧ Forall (λ u, u.1 = UNICODE_SPACE) vs
      ∧ last (fst <$> without_spaces us) ≠ Some UNICODE_SPACE.
Proof. intros Hok Hall. split; [by apply GetText_ok|apply without_spaces_spec]. Qed.

(** ** Selection rectangles *)

Section rects.
Context (t : TextBuffer) (Hok : buffer_ok t).

Definition kind_at (p : COORD) : DbcsKind := match cell_at t p with Some (_, k, _) => k | None => Single end.

(** No wide glyph is cut by an edge of the buffer. *)
Definition uncut : Prop :=
  ∀ y, 0 <= y < TotalRowCount t →
    kind_at (mkCOORD 0 y) ≠ Trailing ∧ kind_at (mkCOORD (t_width t - 1) y) ≠ Leading.

(** A row of a selection with the other halves of the wide glyphs at its ends. *)
Definition whole_glyphs (r : SMALL_RECT) : SMALL_RECT :=
  mkRect (if decide (kind_at (mkCOORD (rLeft r) (rTop r)) = Trailing) then rLeft r - 1 else rLeft r) (rTop r)
    (if decide (kind_at (mkCOORD (rRight r) (rBottom r)) = Leading) then rRight r + 1 else rRight r) (rBottom r).

Lemma GetCellDataAt_kind p : inside (_size t) p → ∃ v, GetCellDataAt p t = inr v ∧ _attribute (DbcsAttr v) = kind_at p.
Proof using Hok.
  intros Hp. destruct (GetCellDataAt_ok t p Hok Hp) as (v & E & Hc & _). exists v. split; [done|].
  unfold kind_at. by rewrite Hc.
Qed.

Lemma ExpandTextRow_ok r :
  uncut → inside (_size t) (mkCOORD (rLeft r) (rTop r)) → inside (_size t) (mkCOORD (rRight r) (rBottom r)) →
  _ExpandTextRow t r = inr (whole_glyphs r).
Proof using Hok.
  intros Hun Hl Hr. unfold _ExpandTextRow, whole_glyphs.
  pose proof (proj1 (inside_xy t Hok _ _) Hl) as Hl'. pose proof (proj1 (inside_xy t Hok _ _) Hr) as Hr'.
  destruct (GetCellDataAt_kind _ Hl) as (v & -> & Kv). cbn [mbind result_bind]. unfold IsTrailing at 1.
  rewrite Kv, bool_decide_decide. cbn [X].
  assert (Left (_size t) = 0) as -> by by rewrite (b_size t Hok).
  assert (RightInclusive (_size t) = t_width t - 1) as -> by by rewrite (b_size t Hok).
  assert ((if (if decide (kind_at (mkCOORD (rLeft r) (rTop r)) = Trailing) then true else false)
    then '(_, p) ← (if rLeft r =? 0 then IncrementInBounds (_size t) (mkCOORD (rLeft r) (rTop r)) false
                    else DecrementInBounds (_size t) (mkCOORD (rLeft r) (rTop r)) false); inr (X p)
    else inr (rLeft r)) = inr (A := exn)
      (if decide (kind_at (mkCOORD (rLeft r) (rTop r)) = Trailing) then rLeft r - 1 else rLeft r)) as ->.
  { case_decide as E; [|done]. destruct (Z.eqb_spec (rLeft r) 0) as [E0|E0].
    - rewrite E0 in E. by destruct (proj1 (Hun (rTop r) ltac:(lia))).
    - rewrite (dec_row t Hok) by (done || lia). done. }
  cbn [mbind result_bind]. destruct (GetCellDataAt_kind _ Hr) as (v2 & -> & Kv2). cbn [mbind result_bind].
  unfold IsLeading at 1. rewrite Kv2, bool_decide_decide.
  destruct (decide (kind_at (mkCOORD (rRight r) (rBottom r)) = Leading)) as [E|E]; [|done]. destruct (Z.eqb_spec (rRight r) (t_width t - 1)) as [E0|E0].
  - rewrite E0 in E. by destruct (proj2 (Hun (rBottom r) ltac:(lia))).
  - rewrite (inc_row t Hok) by (done || lia). done.
Qed.

Section rows.
Context (hi lo : COORD) (block : bool).
Context (Hhi : inside (_size t) hi) (Hlo : inside (_size t) lo) (Hun : uncut).

Lemma text_row_inside row : Y hi <= row <= Y lo →
  let r := text_row t hi lo block row in
  inside (_size t) (mkCOORD (rLeft r) (rTop r)) ∧ inside (_size t) (mkCOORD (rRight r) (rBottom r))
  ∧ rTop r = row ∧ rBottom r = row.
Proof using Hok Hhi Hlo.
  intros Hr r. pose proof (proj1 (inside_size t Hok _) Hhi). pose proof (proj1 (inside_size t Hok _) Hlo).
  unfold r, text_row. rewrite !(inside_xy t Hok).
  assert (Left (_size t) = 0) as -> by by rewrite (b_size t Hok).
  assert (RightInclusive (_size t) = t_width t - 1) as -> by by rewrite (b_size t Hok).
  destruct (block || (Y hi =? Y lo)); cbn [rLeft rTop rRight rBottom]; [lia|].
  destruct (row =? Y hi), (row =? Y lo); lia.
Qed.

Lemma text_rects_ok n row :
  Y hi <= row → row + Z.of_nat n = Y lo + 1 →
  text_rects t n row hi lo block true = inr ((λ y, whole_glyphs (text_row t hi lo block y)) <$> seqZ row (Z.of_nat n)).
Proof using Hok Hhi Hlo Hun.
  revert row. induction n as [|n IH]; intros row Hr Hn; [done|]. cbn [text_rects].
  destruct (text_row_inside row ltac:(lia)) as (H1 & H2 & _). cbn [mbind result_bind].
  rewrite ExpandTextRow_ok by done. cbn [mbind result_bind]. rewrite IH by lia. cbn [mbind result_bind].
  rewrite (seqZ_cons row (Z.of_nat (S n))) by lia. replace (Z.pred (Z.of_nat (S n))) with (Z.of_nat n) by lia.
  done.
Qed.

Lemma whole_glyphs_ok row : Y hi <= row <= Y lo → (Y hi = Y lo → ¬ block = true → X hi <= X lo) →
  rect_ok t (whole_glyphs (text_row t hi lo block row)).
Proof using Hok Hhi Hlo Hun.
  intros Hr Hord. destruct (text_row_inside row Hr) as (H1 & H2 & H3 & H4). set (r := text_row t hi lo block row) in *.
  pose proof (b_width t Hok). pose proof (b_height t Hok).
  pose proof (proj1 (inside_xy t Hok _ _) H1) as Hl'. pose proof (proj1 (inside_xy t Hok _ _) H2) as Hr'.
  assert (rLeft r <= rRight r) as Hle.
  { pose proof (proj1 (inside_size t Hok _) Hhi). pose proof (proj1 (inside_size t Hok _) Hlo). unfold r, text_row.
    assert (Left (_size t) = 0) as -> by by rewrite (b_size t Hok).
    assert (RightInclusive (_size t) = t_width t - 1) as -> by by rewrite (b_size t Hok).
    destruct block; cbn [orb rLeft rRight]; [lia|]. destruct (Z.eqb_spec (Y hi) (Y lo)); cbn [rLeft rRight]; [lia|].
    destruct (Z.eqb_spec row (Y hi)), (Z.eqb_spec row (Y lo)); lia. }
  assert (0 <= rLeft (whole_glyphs r) ∧ rLeft (whole_glyphs r) <= rLeft r
    ∧ rRight r <= rRight (whole_glyphs r) < t_width t) as (B1 & B2 & B3).
  { unfold whole_glyphs. cbn [rLeft rRight]. destruct (Hun (rTop r) ltac:(lia)) as [U1 _].
    destruct (Hun (rBottom r) ltac:(lia)) as [_ U2]. split_and!; repeat case_decide; try lia.
    - destruct (decide (rLeft r = 0)) as [E|]; [by rewrite E in *|lia].
    - destruct (decide (rRight r = t_width t - 1)) as [E|]; [by rewrite E in *|lia]. }
  split.
  - unfold vp_ok, FromInclusive, Left, RightInclusive, Viewport.Top, BottomInclusive. cbn [_sr].
    change (rTop (whole_glyphs r)) with (rTop r). change (rBottom (whole_glyphs r)) with (rBottom r). lia.
  - intros p Hp. apply (inside_size t Hok). unfold inside, FromInclusive, Left, RightInclusive, Viewport.Top, BottomInclusive in Hp.
    cbn [_sr] in Hp. change (rTop (whole_glyphs r)) with (rTop r) in Hp. change (rBottom (whole_glyphs r)) with (rBottom r) in Hp. lia.
Qed.

(** Every cell between the ends of a selection by lines is in the row's rectangle. *)
Lemma text_row_covers q : block = false → inside (_size t) q → Y hi <= Y lo →
  position (_size t) hi <= position (_size t) q <= position (_size t) lo →
  Y hi <= Y q <= Y lo ∧ inside (FromInclusive (whole_glyphs (text_row t hi lo block (Y q)))) q.
Proof using Hok Hhi Hlo.
  intros -> Hq Hle Hpos. pose proof (proj1 (inside_size t Hok _) Hhi). pose proof (proj1 (inside_size t Hok _) Hlo).
  pose proof (proj1 (inside_size t Hok _) Hq). unfold position, walk_index in Hpos. cbn [wx wy forward] in Hpos.
  assert (Left (_size t) = 0 ∧ Viewport.Top (_size t) = 0) as [E1 E2] by by rewrite (b_size t Hok).
  assert (RightInclusive (_size t) = t_width t - 1) as E3 by by rewrite (b_size t Hok).
  rewrite E1, E2 in Hpos. fold (t_width t) in Hpos.
  assert (Y hi <= Y q <= Y lo) as Hy by nia. split; [done|].
  unfold inside, FromInclusive, Left, RightInclusive, Viewport.Top, BottomInclusive. cbn [_sr].
  unfold whole_glyphs, text_row. cbn [orb rLeft rRight rTop rBottom]. rewrite E1, E3.
  destruct (Z.eqb_spec (Y hi) (Y lo)); cbn [rLeft rRight rTop rBottom]; [repeat case_decide; nia|].
  destruct (Z.eqb_spec (Y q) (Y hi)), (Z.eqb_spec (Y q) (Y lo)); cbn [rLeft rRight rTop rBottom]; repeat case_decide; nia.
Qed.
End rows.

Lemma GetTextRects_ok start end_ block :
  inside (_size t) start → inside (_size t) end_ → uncut →
  ∃ hi lo, (position (_size t) start <= position (_size t) end_ ∧ hi = start ∧ lo = end_
            ∨ position (_size t) end_ < position (_size t) start ∧ hi = end_ ∧ lo = start)
    ∧ GetTextRects t start end_ block true
      = inr ((λ y, whole_glyphs (text_row t hi lo block y)) <$> seqZ (Y hi) (Y lo - Y hi + 1))
    ∧ Y hi <= Y lo ∧ (Y hi = Y lo → X hi <= X lo).
Proof using Hok.
  intros Hs He Hun. pose proof (size_ok t Hok) as Hv. unfold GetTextRects.
  rewrite (CompareInBounds_ok _ Hv) by done. cbn [mbind result_bind].
  pose proof (proj1 (inside_size t Hok _) Hs). pose proof (proj1 (inside_size t Hok _) He).
  assert (∀ p, position (_size t) p = Y p * t_width t + X p) as Ep.
  { intros p. unfold position, walk_index. cbn [wx wy forward].
    assert (Left (_size t) = 0 ∧ Viewport.Top (_size t) = 0) as [-> ->] by by rewrite (b_size t Hok).
    rewrite !Z.sub_0_r. done. }
  destruct (Z.leb_spec (position (_size t) start - position (_size t) end_) 0).
  - assert (Y start <= Y end_) by (rewrite !Ep in *; nia).
    exists start, end_. split; [left; split; [lia|done]|]. rewrite (text_rects_ok _ _ _ Hs He Hun) by lia.
    rewrite Z2Nat.id by lia. split; [done|]. rewrite !Ep in *. split; [lia|]. intros E. rewrite E in *. lia.
  - assert (Y end_ <= Y start) by (rewrite !Ep in *; nia).
    exists end_, start. split; [right; split; [lia|done]|]. rewrite (text_rects_ok _ _ _ He Hs Hun) by lia.
    rewrite Z2Nat.id by lia. split; [done|]. rewrite !Ep in *. split; [lia|]. intros E. rewrite E in *. lia.
Qed.
End rects.

(** A selection by lines gives one rectangle per row, inside the buffer, that
    together have every cell between its two ends in whichever order they are
    given, and the other halves of the wide glyphs at the ends of each row; the
    text of these rectangles can be copied. *)
Theorem GetTextRects_correct (t : TextBuffer) (start end_ : COORD) :
  buffer_ok t → inside (_size t) start → inside (_size t) end_ → uncut t →
  ∃ rects, GetTextRects t start end_ false true = inr rects
    ∧ Forall (rect_ok t) rects
    ∧ Z.of_nat (length rects) = Z.abs (Y end_ - Y start) + 1
    ∧ (∀ q, inside (_size t) q →
         Z.min (position (_size t) start) (position (_size t) end_) <= position (_size t) q
           <= Z.max (position (_size t) start) (position (_size t) end_) →
         Exists (λ r, inside (FromInclusive r) q) rects)
    ∧ ∀ colors, TextBuffer_GetText t colors true true rects false
        = inr (selection_text t colors true true false rects).
Proof.
  intros Hok Hs He Hun. destruct (GetTextRects_ok t Hok start end_ false Hs He Hun) as (hi & lo & Hcase & -> & Hle & Hx).
  eexists. split; [done|].
  assert (inside (_size t) hi ∧ inside (_size t) lo) as [Hhi Hlo] by by destruct Hcase as [(_ & -> & ->)|(_ & -> & ->)].
  assert (Forall (rect_ok t) ((λ y, whole_glyphs t (text_row t hi lo false y)) <$> seqZ (Y hi) (Y lo - Y hi + 1))) as Hall.
  { apply Forall_fmap, Forall_seqZ. intros y Hy. apply whole_glyphs_ok; try done; [lia|]. intros E _. by apply Hx. }
  split; [done|]. split; [|split; [|intros colors; by apply GetText_ok]].
  - rewrite length_fmap, length_seqZ. destruct Hcase as [(_ & -> & ->)|(_ & -> & ->)]; lia.
  - intros q Hq Hpos. apply Exists_exists.
    assert (position (_size t) hi <= position (_size t) q <= position (_size t) lo) as Hp
      by (destruct Hcase as [(? & -> & ->)|(? & -> & ->)]; lia).
    destruct (text_row_covers t Hok hi lo false Hhi Hlo q eq_refl Hq Hle Hp) as [Hy Hin].
    eexists. split; [|exact Hin]. apply list_elem_of_fmap. exists (Y q). split; [done|]. apply elem_of_seqZ. lia.
Qed.

(** ** Examples *)

(** Two words, the second one with a wide glyph, and a line with one letter. *)
Definition words_buffer : TextBuffer :=
  let text s y := WriteLine (H := sample_width) LegacyDefaults_init
                    (Iter_text_attr (H := sample_width) s TextAttribute_default) (mkCOORD 0 y) None None in
  run_prog (text [97; 98; 32; 0x4E2D; 100] 0;; text [120] 1) (sample_buffer 6 2).

Definition blank_rest : TextBuffer :=
  run_prog (WriteLine (H := sample_width) LegacyDefaults_init (Iter_fill (H := sample_width) 32 TextAttribute_default 5)
              (mkCOORD 1 1) None None) words_buffer.

Lemma blank_rest_ok : buffer_ok blank_rest.
Proof. by_computation. Qed.

Lemma word_navigation_correct_witness :
  word_start blank_rest [] 0 ∧ word_start blank_rest [] 3
  ∧ ∃ last, GetLastNonSpaceCharacter None blank_rest = inr last
      ∧ ((MoveToNextWord blank_rest [] (mkCOORD 0 0) last = inr (false, mkCOORD 0 0)
          ∧ ∀ i, 0 < i < 12 → ¬ word_start blank_rest [] i)
         ∨ ∃ r, MoveToNextWord blank_rest [] (mkCOORD 0 0) last = inr (true, walk_pos (_size blank_rest) forward r)
             ∧ 0 < r < 12 ∧ word_start blank_rest [] r ∧ (∀ i, 0 < i < r → ¬ word_start blank_rest [] i)
             ∧ (word_start blank_rest [] 0 →
                MoveToPreviousWord blank_rest [] (walk_pos (_size blank_rest) forward r) = inr (true, mkCOORD 0 0))).
Proof.
  split; [split; [vm_compute; reflexivity|by left]|].
  split; [split; [vm_compute; reflexivity|right; vm_compute; reflexivity]|].
  apply (word_navigation_correct blank_rest [] 0 blank_rest_ok). vm_compute. split; [discriminate|reflexivity].
Defined.

Lemma selected_word_correct_witness :
  ∃ a b, GetWordStart blank_rest [] (mkCOORD 1 0) false = inr (mkCOORD a 0)
    ∧ GetWordEnd blank_rest [] (mkCOORD 1 0) false = inr (mkCOORD b 0) ∧ 0 <= a <= 1 ∧ 1 <= b < 6.
Proof.
  destruct (selected_word_correct blank_rest [] 1 0 blank_rest_ok) as (a & b & Ea & Eb & Ha & Hb & _);
    [by_computation|].
  exists a, b. split; [exact Ea|]. split; [exact Eb|]. split; [exact Ha|exact Hb].
Defined.

(** A rectangle is in the buffer when its corners are. *)
Lemma rect_ok_corners t r :
  buffer_ok t → vp_ok (FromInclusive r) → inside (_size t) (mkCOORD (rLeft r) (rTop r)) →
  inside (_size t) (mkCOORD (rRight r) (rBottom r)) → rect_ok t r.
Proof.
  intros Hok Hv H1 H2. split; [done|]. intros p Hp. apply (inside_xy t Hok) in H1, H2. apply (inside_size t Hok).
  unfold inside, FromInclusive, Left, RightInclusive, Viewport.Top, BottomInclusive in Hp. cbn in Hp. lia.
Qed.

Lemma GetText_correct_witness :
  TextBuffer_GetText blank_rest None true true [mkRect 1 0 5 0; mkRect 0 1 5 1] false
  = inr [([98; 32; 0x4E2D; 100; 0x0D; 0x0A], [], []); ([120], [], [])].
Proof.
  assert (Forall (rect_ok blank_rest) [mkRect 1 0 5 0; mkRect 0 1 5 1]) as Hr.
  { apply Forall_cons; split; [|apply Forall_cons; split; [|apply Forall_nil_2]];
      (apply rect_ok_corners; [exact blank_rest_ok|by_computation..]). }
  rewrite (proj1 (GetText_correct blank_rest None true true false _ blank_rest_ok Hr)). vm_compute. reflexivity.
Defined.

Lemma GetTextRects_correct_witness :
  ∃ rects, GetTextRects blank_rest (mkCOORD 0 1) (mkCOORD 4 0) false true = inr rects
    ∧ Forall (rect_ok blank_rest) rects ∧ Z.of_nat (length rects) = 2.
Proof.
  destruct (GetTextRects_correct blank_rest (mkCOORD 0 1) (mkCOORD 4 0) blank_rest_ok) as (rects & E & Hall & Hl & _).
  - by_computation.
  - by_computation.
  - intros y Hy. assert (y = 0 ∨ y = 1) as [->| ->] by (change (TotalRowCount blank_rest) with 2 in Hy; lia);
      (split; vm_compute; discriminate).
  - exists rects. split; [exact E|]. split; [exact Hall|exact Hl].
Defined.

(** Moving to the previous glyph looks for a leading half where it would have to
    look for a trailing one: from the cell behind a wide glyph it stops inside of
    the glyph, and from its second half it goes past its first one. *)
Lemma previous_glyph_stops_inside :
  MoveToPreviousGlyph blank_rest (mkCOORD 5 0) = inr (true, mkCOORD 4 0)
  ∧ kind_at blank_rest (mkCOORD 4 0) = Trailing
  ∧ MoveToPreviousGlyph blank_rest (mkCOORD 4 0) = inr (true, mkCOORD 2 0).
Proof. vm_compute. done. Qed.
