(* ===== verification/CircularFacts.v ===== *)
(** The circular buffer: a new line at the bottom of the screen drops the first
    line, adds a blank one, and forgets exactly the hyperlinks that only the
    dropped line refers to. *)

From S2P Require Import Prelude DispatchTypes TextColor TextAttribute Rle RleFacts RleIter Viewport ViewportFacts OutputCell CharRow Row RowFacts Cursor TextBuffer TextBufferFacts.
From stdpp Require Import gmap.

#[local] Open Scope Z_scope.

(** ** Hyperlinks of lines *)

(** A line refers to a hyperlink. *)
Definition refers (l : Line) (id : Z) : Prop :=
  ∃ a, a ∈ l_attrs l ∧ IsHyperlink a = true ∧ GetHyperlinkId a = id.

#[global] Instance refers_dec l id : Decision (refers l id).
Proof.
  refine (cast_if (decide (Exists (λ a, IsHyperlink a = true ∧ GetHyperlinkId a = id) (l_attrs l))));
    unfold refers; rewrite <-Exists_exists; done.
Defined.

Lemma elem_of_decode {T} (R : list (rle_pair T)) x :
  Forall (λ r, 1 <= rp_length r) R → x ∈ Rle.decode R ↔ ∃ r, r ∈ R ∧ rp_value r = x.
Proof.
  intros HR. unfold Rle.decode. rewrite list_elem_of_bind. split.
  - intros (r & [-> _]%elem_of_replicate & Hr). eauto.
  - intros (r & Hr & <-). exists r. split; [|done]. apply elem_of_replicate. split; [done|].
    rewrite Forall_forall in HR. specialize (HR r Hr). lia.
Qed.

Lemma GetHyperlinks_ok r s id : row_ok r s → id ∈ GetHyperlinks (_attrRow r) ↔ refers (line_of s r) id.
Proof.
  intros Hr. destruct (ok_attrs _ _ Hr) as (Hn & _). unfold GetHyperlinks, refers. cbn [line_of l_attrs].
  rewrite list_elem_of_fmap. setoid_rewrite list_elem_of_filter. unfold attrs.
  setoid_rewrite (elem_of_decode (_runs (_attrRow r)) _ Hn). naive_solver.
Qed.

Section prune.
Context (t : TextBuffer) (Hok : buffer_ok t).

(** Some line from [i] on, [n] lines, refers to the link. *)
Definition refers_in (i : Z) (n : nat) (id : Z) : Prop :=
  Exists (λ l, refers l id) (take n (drop (Z.to_nat i) (screen t))).

Lemma other_refs_ok n i (refs : gset Z) :
  0 <= i → i + Z.of_nat n <= TotalRowCount t →
  ∃ refs', other_refs n i refs t = inr refs' ∧ ∀ x, x ∈ refs' ↔ x ∈ refs ∧ ¬ refers_in i n x.
Proof using Hok.
  revert i refs. induction n as [|n IH]; intros i refs Hi Hn; cbn [other_refs].
  { exists refs. split; [done|]. intros x. unfold refers_in. rewrite take_0, Exists_nil. tauto. }
  destruct (row_at t Hok i ltac:(lia)) as (r & -> & _ & Hs & _ & _ & Hrow). cbn [mbind result_bind].
  set (refs1 := refs ∖ _).
  assert (∀ x, x ∈ refs ∧ ¬ refers_in i (S n) x ↔ x ∈ refs1 ∧ ¬ refers_in (i + 1) n x) as Hstep.
  { intros x. unfold refers_in, refs1. rewrite (drop_S _ _ _ Hs). cbn [take].
    rewrite Exists_cons, elem_of_difference, elem_of_list_to_set, (GetHyperlinks_ok r _ x Hrow).
    replace (Z.to_nat (i + 1)) with (S (Z.to_nat i)) by lia. tauto. }
  case_decide as E.
  - exists refs1. split; [done|]. intros x. rewrite Hstep, E. set_solver.
  - destruct (IH (i + 1) refs1 ltac:(lia) ltac:(lia)) as (refs' & -> & Hr'). exists refs'. split; [done|].
    intros x. by rewrite Hr', Hstep.
Qed.

(** The link is referred to by the first line and by no other. *)
Definition only_first (id : Z) : Prop :=
  Exists (λ l, refers l id) (take 1 (screen t)) ∧ ¬ Exists (λ l, refers l id) (drop 1 (screen t)).

#[global] Instance only_first_dec id : Decision (only_first id).
Proof. unfold only_first. apply _. Defined.

(** The maps after some links have been removed. *)
Definition forgotten (P : Z → Prop) (t' : TextBuffer) : Prop :=
  (∃ m c, t' = set_links m c (_currentHyperlinkId t) t)
  ∧ (∀ id, P id → _hyperlinkMap t' !! id = None)
  ∧ (∀ id, ¬ P id → _hyperlinkMap t' !! id = _hyperlinkMap t !! id)
  ∧ (∀ key id, _hyperlinkCustomIdMap t' !! key = Some id → _hyperlinkCustomIdMap t !! key = Some id)
  ∧ (∀ key id, ¬ P id → _hyperlinkCustomIdMap t !! key = Some id → _hyperlinkCustomIdMap t' !! key = Some id).

Lemma forgotten_ext (P Q : Z → Prop) t' : (∀ x, P x ↔ Q x) → forgotten P t' → forgotten Q t'.
Proof. intros HPQ. unfold forgotten. setoid_rewrite HPQ. done. Qed.

Lemma forget_one (P : Z → Prop) x t' :
  forgotten P t' → forgotten (λ id, id = x ∨ P id) (RemoveHyperlinkFromMap x t').
Proof.
  intros ((m & c & ->) & H1 & H2 & H3 & H4). unfold RemoveHyperlinkFromMap.
  cbn [set_links _hyperlinkMap _hyperlinkCustomIdMap _currentHyperlinkId] in *.
  split_and!; cbn [set_links _hyperlinkMap _hyperlinkCustomIdMap].
  - eexists _, _. done.
  - intros id [->|HP]; [by rewrite lookup_delete_eq|]. rewrite lookup_delete. case_decide; [done|by apply H1].
  - intros id HP. rewrite lookup_delete_ne by naive_solver. apply H2. naive_solver.
  - intros key id. destruct (list_find _ _) as [[? [k ?]]|]; [|by apply H3].
    rewrite lookup_delete_Some. intros [_ ?]. by apply H3.
  - intros key id HP Hk. apply (H4 _ _ ltac:(naive_solver)) in Hk as Hc.
    destruct (list_find _ _) as [[i [k v]]|] eqn:Ef; [|done].
    apply list_find_Some in Ef as (Hl & Hv & _). cbn in Hv. subst v.
    apply lookup_delete_Some. split; [|done]. intros <-.
    apply list_elem_of_lookup_2, elem_of_map_to_list in Hl. naive_solver.
Qed.

Lemma forget_all (refs : gset Z) : forgotten (.∈ refs) (set_fold RemoveHyperlinkFromMap t refs).
Proof.
  apply (set_fold_ind_L (λ t' refs, forgotten (.∈ refs) t')).
  - unfold forgotten. split_and!; [exists (_hyperlinkMap t), (_hyperlinkCustomIdMap t); by destruct t|set_solver|done..].
  - intros x refs' t' Hx Hf. apply (forget_one _ x) in Hf.
    eapply forgotten_ext; [|exact Hf]. set_solver.
Qed.

Lemma PruneHyperlinks_ok : wp _PruneHyperlinks (λ _ t', forgotten only_first t') t.
Proof using Hok.
  pose proof (b_height t Hok) as Hh. pose proof (b_first t Hok) as Hf. unfold _PruneHyperlinks. repeat wp_step.
  destruct (row_at t Hok 0 ltac:(lia)) as (r & _ & Hr & Hs & _ & _ & Hrow).
  assert (place t 0 = Z.to_nat (_firstRow t)) as E0.
  { unfold place. by rewrite Z.add_0_r, Z.mod_small by lia. }
  cbn [id]. rewrite <-E0, Hr. wp_step.
  assert (take 1 (screen t) = [line_of (_unicodeStorage t) r]) as Ht1.
  { clear -Hs. destruct (screen t) as [|l ls]; [done|]. change (Some l = Some (line_of (_unicodeStorage t) r)) in Hs. by injection Hs as ->. }
  assert (∀ x, x ∈ GetHyperlinks (_attrRow r) ↔ Exists (λ l, refers l x) (take 1 (screen t))) as Hlinks.
  { intros x. rewrite Ht1, Exists_cons, Exists_nil, (GetHyperlinks_ok r _ x Hrow). tauto. }
  destruct (other_refs_ok (length (_storage t) - 1) 1 (list_to_set (GetHyperlinks (_attrRow r)))) as (refs & E & Hrefs).
  { lia. } { unfold TotalRowCount in *. lia. }
  assert (∀ x, x ∈ refs ↔ only_first x) as Hiff.
  { intros x. rewrite Hrefs, elem_of_list_to_set, Hlinks. unfold only_first, refers_in.
    change (Z.to_nat 1) with 1%nat. rewrite (take_ge (drop 1 (screen t))); [done|]. rewrite length_drop, length_screen. lia. }
  pose proof (forgotten_ext _ _ _ Hiff (forget_all refs)) as Hall.
  destruct (GetHyperlinks (_attrRow r)) eqn:El.
  - wp_step. assert (refs = ∅) as -> by (apply set_eq; intros x; rewrite Hrefs; set_solver). done.
  - repeat wp_step. unfold wp at 1, lift. cbn [id]. rewrite E. by wp_step.
Qed.
End prune.

(** ** Advancing the buffer *)

(** The invariant and the screen do not depend on the links or the cursor. *)
Definition buffer_part (t : TextBuffer) := (_size t, _storage t, _firstRow t, _unicodeStorage t).

Lemma buffer_part_ok t t' : buffer_part t' = buffer_part t → buffer_ok t → buffer_ok t' ∧ screen t' = screen t.
Proof.
  destruct t, t'. unfold buffer_part. cbn. intros [= -> -> -> ->] [H1 H2 H3 H4 H5]. split; [by split|done].
Qed.

Definition next_first (t : TextBuffer) : TextBuffer :=
  let f := i16 (_firstRow t + 1) in _SetFirstRowIndex (if f >=? Height (_size t) then 0 else f) t.

Lemma next_first_ok t :
  buffer_ok t → buffer_ok (next_first t) ∧ screen (next_first t) = drop 1 (screen t) ++ take 1 (screen t).
Proof.
  intros Hok. pose proof (b_height t Hok) as Hh. pose proof (b_first t Hok) as Hf.
  unfold next_first. rewrite (Height_size t Hok), i16_small by lia. set (f := _firstRow t) in *.
  assert (length (_storage t) = Z.to_nat (TotalRowCount t)) as Hl by (unfold TotalRowCount; lia).
  destruct (lookup_lt_is_Some_2 (_storage t) (Z.to_nat f)) as [r Hr]; [lia|].
  assert (drop 1 (screen t) ++ take 1 (screen t)
          = line_of (_unicodeStorage t) <$> drop (S (Z.to_nat f)) (_storage t) ++ take (S (Z.to_nat f)) (_storage t)) as ->.
  { unfold screen. rewrite <-fmap_drop, <-fmap_take, <-fmap_app. f_equal. unfold logical. fold f.
    rewrite (drop_S _ _ _ Hr), (take_S_r _ _ _ Hr). cbn [app drop take]. by rewrite take_0, drop_0, <-app_assoc. }
  destruct (Z.geb_spec (f + 1) (TotalRowCount t)) as [Hge|Hlt].
  - split; [by destruct Hok; split; try done; change (0 <= 0 < TotalRowCount t); lia|].
    unfold screen, logical. cbn [_SetFirstRowIndex _firstRow _storage _unicodeStorage Z.to_nat].
    rewrite drop_0, take_0, app_nil_r, drop_ge, take_ge by lia. done.
  - split; [by destruct Hok; split; try done; change (0 <= f + 1 < TotalRowCount t); lia|].
    unfold screen, logical. cbn [_SetFirstRowIndex _firstRow _storage _unicodeStorage].
    by replace (Z.to_nat (f + 1)) with (S (Z.to_nat f)) by lia.
Qed.

(** What the buffer shows after its first line has made way for a new one. *)
Definition advanced (a : TextAttribute) (t t' : TextBuffer) : Prop :=
  buffer_ok t' ∧ _size t' = _size t ∧ _cursor t' = _cursor t ∧ _currentAttributes t' = _currentAttributes t
  ∧ screen t' = drop 1 (screen t) ++ [blank_line (t_width t) a]
  ∧ ∀ id, _hyperlinkMap t' !! id = if decide (only_first t id) then None else _hyperlinkMap t !! id.

Definition erase_attributes (inVtMode : bool) (t : TextBuffer) : TextAttribute :=
  if inVtMode then SetStandardErase (_currentAttributes t) else _currentAttributes t.

Lemma IncrementCircularBuffer_ok t inVtMode (Q : bool → TextBuffer → Prop) :
  buffer_ok t → (∀ t', advanced (erase_attributes inVtMode t) t t' → Q true t') →
  wp (IncrementCircularBuffer inVtMode) Q t.
Proof.
  intros Hok HQ. unfold IncrementCircularBuffer. repeat wp_step.
  eapply wp_mono; [by apply PruneHyperlinks_ok|]. cbv beta.
  intros [] t1 ((m & c & ->) & Hm1 & Hm2 & _). set (t1 := set_links m c _ t) in *.
  repeat wp_step. cbn [id]. destruct (buffer_part_ok t t1 eq_refl Hok) as [Hok1 Hs1].
  pose proof (b_height t1 Hok1) as Hh. pose proof (b_first t1 Hok1) as Hf.
  destruct (row_at t1 Hok1 0 ltac:(lia)) as (r & _ & Hr & Hs & _ & Hw & Hrow).
  assert (place t1 0 = Z.to_nat (_firstRow t1)) as E0 by (unfold place; by rewrite Z.add_0_r, Z.mod_small by lia).
  rewrite <-E0, Hr.
  destruct (ROW_Reset_ok (erase_attributes inVtMode t) r (_unicodeStorage t1) Hrow)
    as (r' & Er & Hok' & Hid & Hw' & Hlr & Hwr & Hpad & Hsh & Hat).
  change (if inVtMode then _ else _) with (erase_attributes inVtMode t). rewrite Er. repeat wp_step.
  rewrite <-E0. destruct (set_row_ok t1 Hok1 0 r r' (_unicodeStorage t1)) as [Hok2 Hs2]; [lia|done..|].
  set (t2 := set_rows _ _ t1) in *. fold (next_first t2). destruct (next_first_ok t2 Hok2) as [Hok3 Hs3].
  apply HQ. split; [done|]. do 3 (split; [done|]). split.
  - assert (line_of (_unicodeStorage t1) r' = blank_line (t_width t) (erase_attributes inVtMode t)) as Eb.
    { unfold line_of, blank_line. rewrite Hsh, Hat, Hlr, Hwr, Hpad, Hw. done. }
    rewrite Hs3, Hs2, Eb, Hs1. rewrite Hs1 in Hs. by destruct (screen t).
  - intros id. change (m !! id = if decide (only_first t id) then None else _hyperlinkMap t !! id).
    case_decide; [by apply Hm1|by apply Hm2].
Qed.

(** C35: advancing the circular buffer drops the first line of the screen and adds a
    blank line in the erase attributes at its end; all other lines, the size and
    the cursor stay.  A hyperlink is forgotten exactly when the dropped line
    refers to it and no line that stays does, so no line that stays loses the
    target of a link. *)
Theorem IncrementCircularBuffer_correct (t : TextBuffer) (inVtMode : bool) :
  buffer_ok t →
  wp (IncrementCircularBuffer inVtMode) (λ ok t', ok = true ∧ advanced (erase_attributes inVtMode t) t t'
    ∧ ∀ l id uri, l ∈ drop 1 (screen t) → refers l id →
        GetHyperlinkUriFromId id t = inr uri → GetHyperlinkUriFromId id t' = inr uri) t.
Proof.
  intros Hok. apply IncrementCircularBuffer_ok; [done|]. intros t' Ha. split; [done|]. split; [done|].
  intros l id uri Hl Hr. destruct Ha as (_ & _ & _ & _ & _ & Hm). unfold GetHyperlinkUriFromId. rewrite Hm.
  rewrite decide_False; [done|]. intros [_ Hno]. apply Hno, Exists_exists. eauto.
Qed.

(** ** New lines *)

Lemma wp_cursor (f : Cursor → exn + Cursor) c t (Q : unit → TextBuffer → Prop) :
  f (_cursor t) = inr c → Q tt (set_cursor c t) → wp (on_cursor f) Q t.
Proof. unfold wp, on_cursor. by intros ->. Qed.

Lemma position_set p c : _cPosition (SetPosition p c) = p.
Proof. apply SetPosition_ok. Qed.

(** The screen and the cursor after a new line. *)
Definition after_newline (t t' : TextBuffer) : Prop :=
  let y := Y (_cPosition (_cursor t)) in
  buffer_ok t' ∧ _size t' = _size t
  ∧ _cPosition (_cursor t') = mkCOORD 0 (Z.min (y + 1) (TotalRowCount t - 1))
  ∧ screen t' = (if decide (y + 1 < TotalRowCount t) then screen t
                 else drop 1 (screen t) ++ [blank_line (t_width t) (_currentAttributes t)]).

Lemma NewlineCursor_ok t (Q : bool → TextBuffer → Prop) :
  buffer_ok t → inside (_size t) (mkCOORD 0 (Y (_cPosition (_cursor t)))) →
  (∀ t', after_newline t t' → Q true t') → wp NewlineCursor Q t.
Proof.
  intros Hok Hp HQ. apply (inside_size t Hok) in Hp as [_ Hy]. cbn [Y] in Hy. pose proof (b_height t Hok).
  unfold NewlineCursor. repeat wp_step.
  assert (BottomInclusive (_size t) = TotalRowCount t - 1) as Eb by by rewrite (b_size t Hok).
  eapply wp_cursor; [done|]. repeat wp_step.
  eapply wp_cursor; [done|]. repeat wp_step. cbn [set_cursor _cursor _size].
  rewrite !position_set. cbn [X Y]. rewrite i16_small by lia. rewrite Eb.
  set (c := SetPosition _ (SetPosition _ _)). set (t1 := set_cursor c _).
  destruct (buffer_part_ok t t1 eq_refl Hok) as [Hok1 Hs1].
  destruct (Z.gtb_spec (Y (_cPosition (_cursor t)) + 1) (TotalRowCount t - 1)).
  - assert (narrow_short (TotalRowCount t - 1) = inr (TotalRowCount t - 1)) as En.
    { unfold narrow_short. rewrite !(proj2 (Z.leb_le _ _)) by lia. done. }
    wp_step. eapply wp_cursor; [unfold SetYPosition; rewrite En; reflexivity|].
    set (c2 := SetPosition _ _). set (t2 := set_cursor c2 t1).
    destruct (buffer_part_ok t t2 eq_refl Hok) as [Hok2 Hs2].
    apply IncrementCircularBuffer_ok; [done|]. intros t' (Ha & Hsz & Hc & _ & Hsc & _). apply HQ.
    split; [done|]. split; [done|]. split.
    + rewrite Hc. cbn [t2 set_cursor _cursor]. unfold c2. rewrite position_set. unfold t1. cbn [set_cursor _cursor].
      unfold c. rewrite position_set. cbn [X]. f_equal. lia.
    + rewrite Hsc, Hs2. by rewrite decide_False by lia.
  - wp_step. apply HQ. split; [done|]. split; [done|]. split.
    + cbn [t1 set_cursor _cursor]. unfold c. rewrite position_set. f_equal. lia.
    + by rewrite decide_True by lia.
Qed.

(** A new line puts the cursor at the start of the next line; on the last line
    it stays there, and the screen scrolls by one line instead. *)
Theorem NewlineCursor_correct (t : TextBuffer) :
  buffer_ok t → inside (_size t) (mkCOORD 0 (Y (_cPosition (_cursor t)))) →
  wp NewlineCursor (λ ok t', ok = true ∧ after_newline t t') t.
Proof. intros Hok Hp. apply NewlineCursor_ok; [done..|]. by intros. Qed.

Definition set_wrap (l : Line) : Line := mkLine (l_cells l) (l_attrs l) (l_rendition l) true (l_padded l).

(** Double-width lines have half of the columns. *)
Definition line_width (t : TextBuffer) (l : Line) : Z :=
  if decide (l_rendition l = SingleWidth) then t_width t else t_width t / 2.

Lemma GetLineWidth_ok t y l :
  buffer_ok t → 0 <= y < TotalRowCount t → screen t !! Z.to_nat y = Some l →
  GetLineWidth y t = inr (line_width t l).
Proof.
  intros Hok Hy Hl. destruct (row_at t Hok y Hy) as (r & Eg & _ & Hs & _).
  rewrite Hl in Hs. simplify_eq. unfold GetLineWidth, IsDoubleWidthLine, GetLineRendition. rewrite Eg.
  cbn [mbind result_bind]. rewrite (Width_size t Hok). unfold line_width. cbn [line_of l_rendition].
  rewrite bool_decide_decide. destruct (decide _); cbn [negb]; f_equal; by apply (Z.shiftr_div_pow2 _ 1).
Qed.

(** The screen and the cursor after the cursor has advanced by a character. *)
Definition after_increment (t : TextBuffer) (l : Line) (t' : TextBuffer) : Prop :=
  let p := _cPosition (_cursor t) in
  buffer_ok t' ∧ _size t' = _size t
  ∧ if decide (X p + 1 < line_width t l) then
      _cPosition (_cursor t') = mkCOORD (X p + 1) (Y p) ∧ screen t' = screen t
    else
      let s := <[Z.to_nat (Y p) := set_wrap l]> (screen t) in
      _cPosition (_cursor t') = mkCOORD 0 (Z.min (Y p + 1) (TotalRowCount t - 1))
      ∧ screen t' = if decide (Y p + 1 < TotalRowCount t) then s
                    else drop 1 s ++ [blank_line (t_width t) (_currentAttributes t)].

Lemma IncrementCursor_ok t l (Q : bool → TextBuffer → Prop) :
  let p := _cPosition (_cursor t) in
  buffer_ok t → inside (_size t) p → screen t !! Z.to_nat (Y p) = Some l →
  (∀ t', after_increment t l t' → Q true t') → wp IncrementCursor Q t.
Proof.
  intros p Hok Hp Hl HQ. pose proof Hp as [HX HY]%(inside_size t Hok). pose proof (b_width t Hok) as Hw.
  unfold IncrementCursor. repeat wp_step. cbn [id]. fold p. rewrite (GetLineWidth_ok t (Y p) l Hok HY Hl).
  unfold wp at 1, lift. repeat wp_step. eapply wp_cursor; [done|]. repeat wp_step.
  cbn [set_cursor _cursor]. rewrite position_set. cbn [X]. fold p.
  assert (-1 <= line_width t l - 1 <= 32766) as Hlw.
  { unfold line_width. case_decide; [lia|]. pose proof (Z.div_pos (t_width t) 2 ltac:(lia) ltac:(lia)).
    pose proof (Z.div_le_upper_bound (t_width t) 2 32767 ltac:(lia) ltac:(lia)). lia. }
  rewrite !i16_small by lia. set (t1 := set_cursor _ t).
  assert (_cPosition (_cursor t1) = mkCOORD (X p + 1) (Y p)) as Ep by apply position_set.
  destruct (buffer_part_ok t t1 eq_refl Hok) as [Hok1 Hs1].
  destruct (Z.gtb_spec (X p + 1) (line_width t l - 1)).
  - unfold _SetWrapOnCurrentRow, _AdjustWrapOnCurrentRow. repeat wp_step. rewrite Ep. cbn [Y].
    pose proof (b_height t Hok). rewrite wrapu_small by lia.
    destruct (row_at t1 Hok1 (Y p) HY) as (r & _ & Hr & Hs & Hid & Hrw & Hrow).
    eapply on_row_ok; [done|done|done|]. apply wp_modify. cbn [fst snd].
    split; [by destruct Hrow|]. do 3 (split; [done|]). intros t2 Hok2 Hsc2 Hrest.
    assert (_size t2 = _size t) as Hsz2 by by injection Hrest.
    assert (_cursor t2 = _cursor t1) as Hc2 by by injection Hrest.
    assert (_currentAttributes t2 = _currentAttributes t) as Ha2 by by injection Hrest.
    assert (TotalRowCount t2 = TotalRowCount t) as Et by (rewrite <-(Height_size t2 Hok2), <-(Height_size t Hok); by rewrite Hsz2).
    assert (screen t2 = <[Z.to_nat (Y p) := set_wrap l]> (screen t)) as Es2.
    { rewrite Hsc2. rewrite Hs1 in *. rewrite Hl in Hs. simplify_eq. done. }
    apply NewlineCursor_ok; [done| |].
    { rewrite Hc2, Ep, Hsz2. apply (inside_size t Hok). cbn. lia. }
    intros t3 (Hok3 & Hsz3 & Hc3 & Hsc3). rewrite Hc2, Ep, Et in *. cbn [Y] in *.
    apply HQ. split; [done|]. split; [congruence|]. fold p. rewrite decide_False by lia. split; [done|].
    rewrite Hsc3, Es2, Ha2. unfold t_width. by rewrite Hsz2.
  - wp_step. apply HQ. split; [done|]. split; [done|]. fold p. rewrite decide_True by lia. done.
Qed.

(** Advancing the cursor moves it one column to the right as long as the line
    has a column there (half as many on a double-width line); at the end of the
    line the line is marked as wrapped and a new line is started. *)
Theorem IncrementCursor_correct (t : TextBuffer) (l : Line) :
  let p := _cPosition (_cursor t) in
  buffer_ok t → inside (_size t) p → screen t !! Z.to_nat (Y p) = Some l →
  wp IncrementCursor (λ ok t', ok = true ∧ after_increment t l t') t.
Proof. intros p Hok Hp Hl. eapply IncrementCursor_ok; [done..|]. by intros. Qed.

(** A new buffer is well formed and shows blank lines of the given width. *)
Theorem new_buffer_blank (w h : Z) (a : TextAttribute) (cursorSize : Z) :
  0 < w <= 32767 → 0 < h <= 32767 →
  ∃ t, TextBuffer_init (mkCOORD w h) a cursorSize = inr t ∧ buffer_ok t
    ∧ _size t = mkViewport (mkRect 0 0 (w - 1) (h - 1))
    ∧ screen t = replicate (Z.to_nat h) (blank_line w a).
Proof. apply TextBuffer_init_ok. Qed.

(** ** Examples *)

(** A buffer whose first line has a link, with the cursor at the end of the last
    line and the link still being the current attribute. *)
Definition linked (a : TextAttribute) : TextBuffer :=
  let t := AddHyperlinkToMap [104; 105] 1 (sample_buffer 2 2) in
  let t := run_prog (WriteLine (H := sample_width) LegacyDefaults_init (Iter_fill (H := sample_width) 76 a 1) (mkCOORD 0 0) None None) t in
  SetCurrentAttributes a (set_cursor (SetPosition (mkCOORD 1 1) (_cursor t)) t).

Definition link_attribute : TextAttribute := SetHyperlinkId 1 TextAttribute_default.

Lemma new_buffer_blank_witness :
  ∃ t, TextBuffer_init (mkCOORD 80 25) TextAttribute_default 25 = inr t ∧ buffer_ok t
    ∧ _size t = mkViewport (mkRect 0 0 79 24) ∧ screen t = replicate 25 (blank_line 80 TextAttribute_default).
Proof. apply (new_buffer_blank 80 25 TextAttribute_default 25); lia. Defined.

Lemma IncrementCircularBuffer_correct_witness :
  only_first (linked link_attribute) 1
  ∧ wp (IncrementCircularBuffer true) (λ _ t', _hyperlinkMap t' !! 1 = None
      ∧ screen t' = drop 1 (screen (linked link_attribute)) ++ [blank_line 2 TextAttribute_default])
      (linked link_attribute).
Proof.
  split; [by_computation|].
  eapply wp_mono; [apply (IncrementCircularBuffer_correct (linked link_attribute) true); by_computation|].
  cbv beta. intros ok t' (_ & (_ & _ & _ & _ & Hs & Hm) & _). split.
  - rewrite (Hm 1). vm_compute. reflexivity.
  - rewrite Hs. vm_compute. reflexivity.
Defined.

Lemma NewlineCursor_correct_witness :
  wp NewlineCursor (λ ok t', ok = true ∧ _cPosition (_cursor t') = mkCOORD 0 1) (sample_buffer 2 2).
Proof.
  eapply wp_mono; [apply (NewlineCursor_correct (sample_buffer 2 2)); by_computation|].
  cbv beta. intros ok t' (-> & _ & _ & -> & _). split; vm_compute; reflexivity.
Defined.

Lemma IncrementCursor_correct_witness :
  wp IncrementCursor (λ ok t', ok = true ∧ _cPosition (_cursor t') = mkCOORD 0 1) (linked link_attribute).
Proof.
  eapply wp_mono; [eapply (IncrementCursor_correct (linked link_attribute)); [by_computation..|vm_compute; reflexivity]|].
  cbv beta. intros ok t' (-> & _ & _ & Hd). split; [reflexivity|]. revert Hd. unfold after_increment.
  vm_compute. by intros [? _].
Defined.

(** The link that is the current attribute is forgotten with the first line, and
    text that is written afterwards refers to a link without a target. *)
Lemma current_link_pruned :
  wp (IncrementCircularBuffer true) (λ _ t', GetHyperlinkId (_currentAttributes t') = 1
    ∧ GetHyperlinkUriFromId 1 t' = inl OutOfRange) (linked link_attribute).
Proof. vm_compute. split; reflexivity. Qed.
