(* ===== verification/ScrollRowsFacts.v ===== *)
(** Moving whole rows: [TextBuffer::ScrollRows] rotates the vector of rows and
    renumbers them.  The long glyphs follow their rows into the new numbers. *)

From S2P Require Import Prelude DispatchTypes TextColor TextAttribute Rle RleFacts RleIter Viewport ViewportFacts OutputCell CharRow Row RowFacts Cursor TextBuffer TextBufferFacts.
From stdpp Require Import gmap.

#[local] Open Scope Z_scope.

(** ** Remapping the storage *)

Section remap.
Context (rowMap : gmap Z Z) (width : option Z).
Context (Hinj : ∀ o o' n, rowMap !! o = Some n → rowMap !! o' = Some n → o = o').

Definition keeps (key : COORD) : Prop :=
  match width with Some w => X key < w | None => True end.

#[local] Instance keeps_dec key : Decision (keeps key).
Proof. unfold keeps. destruct width; apply _. Defined.

Lemma Remap_lookup (s : UnicodeStorage) x n g :
  Remap rowMap width s !! mkCOORD x n = Some g
  ↔ ∃ o, rowMap !! o = Some n ∧ s !! mkCOORD x o = Some g ∧ keeps (mkCOORD x o).
Proof using Hinj.
  revert x n g. unfold Remap.
  apply (map_fold_weak_ind (λ (new s : UnicodeStorage), ∀ x n g,
    new !! mkCOORD x n = Some g
    ↔ ∃ o, rowMap !! o = Some n ∧ s !! mkCOORD x o = Some g ∧ keeps (mkCOORD x o))).
  - intros x n g. rewrite lookup_empty. split; [done|]. intros (o & _ & Ho & _).
    by rewrite lookup_empty in Ho.
  - intros key glyph m new Hkey IH x n g. unfold remap_item.
    assert ((∃ o, rowMap !! o = Some n ∧ <[key:=glyph]> m !! mkCOORD x o = Some g ∧ keeps (mkCOORD x o))
      ↔ (rowMap !! Y key = Some n ∧ x = X key ∧ g = glyph ∧ keeps key) ∨ new !! mkCOORD x n = Some g) as ->.
    { rewrite IH. split.
      - intros (o & Ho & Hg & Hk). apply lookup_insert_Some in Hg as [[-> <-]|[Hne Hg]]; [by left|].
        right. by exists o.
      - intros [(Ho & -> & -> & Hk)|(o & Ho & Hg & Hk)].
        + exists (Y key). destruct key. cbn in *. split; [done|]. by rewrite lookup_insert_eq.
        + exists o. split; [done|]. rewrite lookup_insert_ne; [done|]. intros ->. by rewrite Hkey in Hg. }
    assert (match width with Some w => X key >=? w | None => false end = bool_decide (¬ keeps key)) as ->.
    { case_bool_decide as Hk; unfold keeps in Hk; clear -Hk; destruct width; try lia; tauto. }
    case_bool_decide as Hkeep; [tauto|].
    destruct (rowMap !! Y key) as [n'|] eqn:En; [|split; [by right|by intros [[? _]|?]]].
    destruct (new !! mkCOORD (X key) n') as [g'|] eqn:Eg.
    { exfalso. apply IH in Eg as (o & Ho & Hg & _). assert (o = Y key) as -> by by eapply Hinj.
      destruct key. cbn in *. by rewrite Hkey in Hg. }
    rewrite lookup_insert_Some. split.
    + intros [[[= <- <-] <-]|[_ ?]]; [by left|by right].
    + intros [(E1 & -> & -> & _)|Hg]; [by left; simplify_eq|]. right. split; [|done].
      intros [= <- <-]. by rewrite Eg in Hg.
Qed.
End remap.

(** ** Renumbering the rows *)

Section refresh.
Context (newRowWidth : option Z) (f : ROW → ROW).

(** Each row can be resized to [f] of it; nothing to do without a width. *)
Definition resizes (r : ROW) : Prop :=
  match newRowWidth with
  | None => f r = r
  | Some w => ROW_Resize (u16 w) r = (None, f r)
  end.

Lemma refresh_rows_spec l i rowMap :
  (∀ r j, r ∈ l → resizes (SetId j r)) → 0 <= i → i + Z.of_nat (length l) <= 32767 →
  NoDup (_id <$> l) → (∀ r, r ∈ l → rowMap !! _id r = None) →
  ∃ rowMap', refresh_rows newRowWidth i rowMap l
      = (None, imap (λ k r, f (SetId (i + Z.of_nat k) r)) l, rowMap')
    ∧ ∀ o n, rowMap' !! o = Some n
        ↔ rowMap !! o = Some n ∨ ∃ k r, l !! k = Some r ∧ _id r = o ∧ n = i + Z.of_nat k.
Proof.
  revert i rowMap. induction l as [|r l IH]; intros i rowMap Hres Hi Hle Hnd Hnew.
  { exists rowMap. split; [done|]. intros o n. split; [by left|]. intros [|(k & r & Hk & _)]; done. }
  cbn [refresh_rows length fmap list_fmap] in *. apply NoDup_cons in Hnd as [Hn Hnd].
  rewrite (Hnew r) by set_solver.
  destruct (IH (i + 1) (<[_id r := i]> rowMap)) as (rowMap' & E & Hmap); [|lia|lia|done| |].
  { intros r' j Hr'. apply Hres. set_solver. }
  { intros r' Hr'. rewrite lookup_insert_ne; [apply Hnew; set_solver|]. intros Eid. apply Hn.
    rewrite Eid. by apply list_elem_of_fmap_2. }
  rewrite i16_small by lia.
  assert (imap (λ k r0, f (SetId (i + Z.of_nat k) r0)) (r :: l)
    = f (SetId i r) :: imap (λ k r0, f (SetId (i + 1 + Z.of_nat k) r0)) l) as Eim.
  { cbn [imap]. rewrite Z.add_0_r. f_equal. apply imap_ext. intros k r' _. cbn. do 2 f_equal. lia. }
  exists rowMap'. split.
  - pose proof (Hres r i ltac:(set_solver)) as Hr. unfold resizes in Hr. rewrite Eim.
    destruct newRowWidth as [w|]; [rewrite Hr; by rewrite E|]. by rewrite E, Hr.
  - intros o n. rewrite Hmap, lookup_insert_Some. split.
    + intros [[[<- <-]|[_ ?]]|(k & r' & Hk & <- & ->)]; [right|by left|right].
      * exists 0%nat, r. cbn. split; [done|]. split; [done|lia].
      * exists (S k), r'. split; [done|]. split; [done|lia].
    + intros [Ho|([|k] & r' & Hk & <- & ->)].
      * left. right. split; [|done]. intros <-. by rewrite Hnew in Ho by set_solver.
      * cbn in Hk. simplify_eq. left. left. split; [done|lia].
      * right. exists k, r'. split; [done|]. split; [done|lia].
Qed.
End refresh.

(** The rows of a buffer, in any order, get new numbers; what they show goes
    with them. *)
Section reorder.
Context (t : TextBuffer) (Hok : buffer_ok t).

Lemma ids_nodup : NoDup (_id <$> _storage t).
Proof using Hok.
  apply NoDup_alt. intros i j x Hi Hj. rewrite list_lookup_fmap in Hi, Hj.
  destruct (_storage t !! i) as [ri|] eqn:Ei, (_storage t !! j) as [rj|] eqn:Ej; simplify_eq/=.
  destruct (b_rows t Hok _ _ Ei) as (E1 & _), (b_rows t Hok _ _ Ej) as (E2 & _). lia.
Qed.

Lemma refresh_ok l (Q : unit → TextBuffer → Prop) :
  l ≡ₚ _storage t →
  (∀ t', buffer_ok t' → screen t' = line_of (_unicodeStorage t) <$> l →
     rest t' = rest (_SetFirstRowIndex 0 t) → Q tt t') →
  wp (_RefreshRowIDs None) Q (set_rows l (_unicodeStorage t) (_SetFirstRowIndex 0 t)).
Proof using Hok.
  intros Hperm HQ. pose proof (b_height t Hok) as Hh. unfold TotalRowCount in Hh.
  assert (length l = length (_storage t)) as Hlen by by rewrite Hperm.
  assert (NoDup (_id <$> l)) as Hnd by (rewrite Hperm; apply ids_nodup).
  destruct (refresh_rows_spec None id l 0 ∅) as (rowMap & E & Hmap); [done|lia|lia|done| |].
  { intros r _. apply lookup_empty. }
  unfold wp, _RefreshRowIDs. cbn [set_rows _storage _unicodeStorage _SetFirstRowIndex]. rewrite E.
  set (rows := imap _ l). set (s' := Remap rowMap None (_unicodeStorage t)).
  assert (∀ o n, rowMap !! o = Some n ↔ ∃ k r, l !! k = Some r ∧ _id r = o ∧ n = Z.of_nat k) as Hmap'.
  { intros o n. rewrite Hmap, lookup_empty. split; [by intros [|(k & r & ? & ? & ?)]; [|eauto]|]. eauto. }
  assert (∀ k r x, l !! k = Some r →
    s' !! mkCOORD x (Z.of_nat k) = _unicodeStorage t !! mkCOORD x (_id r)) as Hs'.
  { intros k r x Hk. apply option_eq. intros g. unfold s'. rewrite Remap_lookup.
    - split.
      + intros (o & Ho & Hg & _). apply Hmap' in Ho as (k' & r' & Hk' & <- & ?).
        assert (k' = k) as -> by lia. by simplify_eq.
      + intros Hg. exists (_id r). split; [|done]. apply Hmap'. eauto.
    - intros o o' n Ho Ho'. apply Hmap' in Ho as (k1 & r1 & Hk1 & <- & ->), Ho' as (k2 & r2 & Hk2 & <- & ?).
      assert (k1 = k2) as -> by lia. by simplify_eq. }
  assert (∀ k r, l !! k = Some r → line_of s' (SetId (Z.of_nat k) r) = line_of (_unicodeStorage t) r) as Hline.
  { intros k r Hk. unfold line_of. f_equal. unfold shown. cbn [SetId _charRow _id]. apply imap_ext.
    intros i c _. unfold glyph_of. by rewrite (Hs' k r). }
  assert (∀ k, rows !! k = (λ r, SetId (Z.of_nat k) r) <$> (l !! k)) as Hrows.
  { intros k. unfold rows. by rewrite list_lookup_imap. }
  assert (TotalRowCount (set_rows rows s' (_SetFirstRowIndex 0 t)) = TotalRowCount t) as Et.
  { unfold TotalRowCount. cbn. unfold rows. by rewrite length_imap, Hlen. }
  change (set_rows rows s' (set_rows l _ _)) with (set_rows rows s' (_SetFirstRowIndex 0 t)).
  apply HQ; [|apply list_eq; intros k|done].
  - pose proof Hok as [H1 H2 H3 H4 H5]. split; rewrite ?Et; try done; [change (0 <= 0 < TotalRowCount t); lia|].
    cbn [set_rows _SetFirstRowIndex _storage _unicodeStorage].
    intros i r Hi. rewrite Hrows in Hi. destruct (l !! i) as [r0|] eqn:El; [|done]. simplify_eq/=.
    assert (r0 ∈ _storage t) as [j Hj]%list_elem_of_lookup by (rewrite <-Hperm; by eapply list_elem_of_lookup_2).
    destruct (H5 j r0 Hj) as (_ & Ew & [Ho1 Ho2 Ho3 Ho4 Ho5]). split; [done|]. split; [done|].
    split; try done. intros x c Hc Hst. cbn [SetId _id]. unfold stored_at. rewrite (Hs' i r0) by done.
    by apply (Ho5 x c).
  - unfold screen, logical. cbn [set_rows _SetFirstRowIndex _storage _unicodeStorage _firstRow Z.to_nat].
    rewrite drop_0, take_0, app_nil_r, !list_lookup_fmap, Hrows. destruct (l !! k) as [r|] eqn:El; [|done].
    cbn. f_equal. by apply Hline.
Qed.
End reorder.

(** ** Rotating *)

Section rotate.
Context {A : Type}.
Implicit Types (l : list A).

Lemma std_rotate_split l a b c :
  0 <= a <= b → b <= c <= Z.of_nat (length l) →
  ∃ l1 l2 l3 l4, l = l1 ++ l2 ++ l3 ++ l4 ∧ Z.of_nat (length l1) = a ∧ Z.of_nat (length l2) = b - a
    ∧ Z.of_nat (length l3) = c - b ∧ std_rotate l a b c = inr (l1 ++ l3 ++ l2 ++ l4).
Proof.
  intros Ha Hb. unfold std_rotate.
  rewrite (proj2 (Z.leb_le _ _)), (proj2 (Z.leb_le _ _)), (proj2 (Z.leb_le _ _)), (proj2 (Z.leb_le _ _)) by lia.
  cbn [andb].
  exists (take (Z.to_nat a) l), (take (Z.to_nat (b - a)) (drop (Z.to_nat a) l)),
    (take (Z.to_nat (c - b)) (drop (Z.to_nat b) l)), (drop (Z.to_nat c) l).
  split; [|by rewrite !length_take, !length_drop; split_and!; lia || done].
  rewrite <-(take_drop (Z.to_nat a) l) at 1. f_equal.
  rewrite <-(take_drop (Z.to_nat (b - a)) (drop (Z.to_nat a) l)) at 1. f_equal. rewrite drop_drop.
  replace (Z.to_nat a + Z.to_nat (b - a))%nat with (Z.to_nat b) by lia.
  rewrite <-(take_drop (Z.to_nat (c - b)) (drop (Z.to_nat b) l)) at 1. f_equal. rewrite drop_drop.
  f_equal. lia.
Qed.

(** Where the rotated list takes its elements from. *)
Definition rotate_source (a b c i : Z) : Z :=
  if decide (a <= i < a + (c - b)) then i - a + b
  else if decide (a + (c - b) <= i < c) then i - (c - b)
  else i.

Lemma std_rotate_lookup l a b c :
  0 <= a <= b → b <= c <= Z.of_nat (length l) →
  ∃ l', std_rotate l a b c = inr l' ∧ l' ≡ₚ l
    ∧ ∀ i, 0 <= i → l' !! Z.to_nat i = l !! Z.to_nat (rotate_source a b c i).
Proof.
  intros Ha Hb. destruct (std_rotate_split l a b c Ha Hb) as (l1 & l2 & l3 & l4 & -> & E1 & E2 & E3 & ->).
  eexists. split; [done|]. split.
  { apply Permutation_app_head. rewrite !app_assoc. apply Permutation_app_tail, Permutation_app_comm. }
  intros i Hi. unfold rotate_source. destruct (decide (i < a)).
  { rewrite !decide_False by lia. by rewrite !lookup_app_l by lia. }
  rewrite (lookup_app_r l1) by lia. case_decide.
  { rewrite (lookup_app_l l3), (lookup_app_r l1), (lookup_app_r l2), (lookup_app_l l3) by lia. f_equal. lia. }
  rewrite (lookup_app_r l3) by lia. case_decide.
  { rewrite (lookup_app_l l2), (lookup_app_r l1), (lookup_app_l l2) by lia. f_equal. lia. }
  rewrite (lookup_app_r l2), (lookup_app_r l1), (lookup_app_r l2), (lookup_app_r l3) by lia. f_equal. lia.
Qed.
End rotate.

(** ** ScrollRows *)

(** The line that line [y] shows after [size] lines from [first] on have moved by
    [delta]: the moved block, or the lines it changes places with. *)
Definition scroll_source (first size delta y : Z) : Z :=
  if decide (first + delta <= y < first + delta + size) then y - delta
  else if decide (delta < 0 ∧ first + delta + size <= y < first + size) then y - size
  else if decide (0 < delta ∧ first <= y < first + delta) then y + size
  else y.

Lemma wp_storage (f : list ROW → exn + list ROW) l t (Q : unit → TextBuffer → Prop) :
  f (_storage t) = inr l → Q tt (set_rows l (_unicodeStorage t) t) → wp (on_storage f) Q t.
Proof. unfold wp, on_storage. by intros ->. Qed.

Lemma ScrollRows_ok t first size delta (Q : unit → TextBuffer → Prop) :
  buffer_ok t → delta ≠ 0 → 0 <= size → 0 <= first → 0 <= first + delta →
  first + size <= TotalRowCount t → first + size + delta <= TotalRowCount t →
  (∀ t', buffer_ok t' → rest t' = rest (_SetFirstRowIndex 0 t) →
     (∀ y, 0 <= y < TotalRowCount t →
        screen t' !! Z.to_nat y = screen t !! Z.to_nat (scroll_source first size delta y)) → Q tt t') →
  wp (ScrollRows first size delta) Q t.
Proof.
  intros Hok Hd Hs Hf1 Hf2 Hf3 Hf4 HQ. unfold ScrollRows. rewrite (proj2 (Z.eqb_neq _ _) Hd).
  repeat wp_step. pose proof (b_first t Hok) as Hfr. pose proof (b_height t Hok) as Hh.
  assert (wp (if _firstRow t =? 0 then mret tt
    else on_storage (λ l, std_rotate l 0 (_firstRow t) (Z.of_nat (length l)));; modify (_SetFirstRowIndex 0))
    (λ _ t1, t1 = set_rows (logical t) (_unicodeStorage t) (_SetFirstRowIndex 0 t)) t) as Hfirst.
  { unfold logical. destruct (Z.eqb_spec (_firstRow t) 0) as [E|E].
    - apply wp_ret. replace (Z.to_nat (_firstRow t)) with 0%nat by lia.
      rewrite drop_0, take_0, app_nil_r, <-E. clear. by destruct t.
    - wp_step. eapply wp_storage; [|by apply wp_modify].
      unfold std_rotate, TotalRowCount in *.
      rewrite (proj2 (Z.leb_le 0 (_firstRow t))), (proj2 (Z.leb_le (_firstRow t) _)), Z.leb_refl by lia.
      cbn [andb Z.leb Z.compare Z.to_nat]. rewrite take_0, drop_0, Z.sub_0_r, Nat2Z.id, drop_all.
      rewrite app_nil_r. cbn [app]. rewrite (take_ge (drop _ _)) by (rewrite length_drop; lia).
      by rewrite Z.leb_refl. }
  eapply wp_mono; [exact Hfirst|]. intros [] ? ->. wp_step.
  assert (∀ a b c, 0 <= a <= b → b <= c <= TotalRowCount t →
    (∀ y, 0 <= y < TotalRowCount t → rotate_source a b c y = scroll_source first size delta y) →
    wp (on_storage (λ l, std_rotate l a b c)) (λ _, wp (_RefreshRowIDs None) Q)
      (set_rows (logical t) (_unicodeStorage t) (_SetFirstRowIndex 0 t))) as Hrot.
  { intros a b c Ha Hb Hsrc.
    assert (Z.of_nat (length (logical t)) = TotalRowCount t) as El by by rewrite (length_logical t).
    destruct (std_rotate_lookup (logical t) a b c Ha) as (l' & E & Hp & Hl); [by rewrite El|].
    eapply wp_storage; [exact E|]. apply (refresh_ok t Hok).
    - rewrite Hp. unfold logical. rewrite Permutation_app_comm. by rewrite take_drop.
    - intros t' Hok' Hsc Hrest. apply HQ; [done|done|]. intros y Hy. rewrite Hsc. unfold screen.
      rewrite !list_lookup_fmap, <-(Hsrc y Hy), Hl by lia. done. }
  destruct (Z.ltb_spec delta 0); apply Hrot; try lia; intros y Hy; unfold rotate_source, scroll_source;
    repeat case_decide; lia.
Qed.

(** Scrolling rows moves a block of lines up or down and puts the lines it
    passes over behind it; every line keeps its glyphs, also the long ones that
    are stored by row number, its attributes and its flags; the buffer stays
    well formed. *)
Theorem ScrollRows_correct (t : TextBuffer) (first size delta : Z) :
  buffer_ok t → delta ≠ 0 → 0 <= size → 0 <= first → 0 <= first + delta →
  first + size <= TotalRowCount t → first + size + delta <= TotalRowCount t →
  wp (ScrollRows first size delta) (λ _ t', buffer_ok t'
    ∧ ∀ y, 0 <= y < TotalRowCount t →
        screen t' !! Z.to_nat y = screen t !! Z.to_nat (scroll_source first size delta y)) t.
Proof. intros. apply ScrollRows_ok; [done..|]. by intros. Qed.

Lemma ScrollRows_correct_witness :
  letters (sample_buffer 2 4) = [[65; 65]; [66; 66]; [67; 67]; [68; 68]]
  ∧ wp (ScrollRows 0 2 1) (λ _ t', buffer_ok t'
      ∧ ∀ y, 0 <= y < 4 → screen t' !! Z.to_nat y = screen (sample_buffer 2 4) !! Z.to_nat (scroll_source 0 2 1 y))
      (sample_buffer 2 4).
Proof.
  split; [vm_compute; reflexivity|].
  apply (ScrollRows_correct (sample_buffer 2 4) 0 2 1); [|lia|lia|lia|lia|vm_compute; discriminate..].
  by_computation.
Defined.
