(* ===== verification/ResizeFacts.v ===== *)
(** Resizing without reflow: [TextBuffer::ResizeTraditional] keeps the lines that
    fit, with the cursor's line among them, cuts or extends them, and adds blank
    lines. *)

From S2P Require Import Prelude DispatchTypes TextColor TextAttribute Rle RleFacts RleIter Viewport ViewportFacts OutputCell CharRow Row RowFacts Cursor TextBuffer TextBufferFacts ScrollRowsFacts.
From stdpp Require Import gmap.

#[local] Open Scope Z_scope.

(** ** Rows *)

(** Cut to a width, or filled up. *)
Definition fit {A} (w : Z) (x : A) (l : list A) : list A :=
  take (Z.to_nat w) l ++ replicate (Z.to_nat w - length l) x.

Definition fit_attrs (w : Z) (l : list TextAttribute) : list TextAttribute :=
  fit w (default TextAttribute_default (last l)) l.

Definition resize_line (w : Z) (l : Line) : Line :=
  mkLine (fit w ([UNICODE_SPACE], Single) (l_cells l)) (fit_attrs w (l_attrs l)) (l_rendition l) (l_wrap l) (l_padded l).

Lemma length_fit {A} w (x : A) l : length (fit w x l) = Z.to_nat w.
Proof. unfold fit. rewrite length_app, length_take, length_replicate. lia. Qed.

Lemma last_decode {T} (R : list (rle_pair T)) :
  Forall (λ r, 1 <= rp_length r) R → last (Rle.decode R) = rp_value <$> last R.
Proof.
  induction R as [|r R IH] using rev_ind; [done|]. intros [_ Hr]%Forall_app. apply Forall_cons in Hr as [Hr _]. cbv beta in Hr.
  rewrite decode_app, last_app, last_snoc. cbn [Rle.decode mbind list_bind]. rewrite app_nil_r.
  destruct (Z.to_nat (rp_length r)) eqn:E; [lia|]. by rewrite replicate_S_end, last_snoc.
Qed.

(** The part of [row_ok] without the glyphs. *)
Definition row_shape (r : ROW) : Prop :=
  0 < _rowWidth r <= 32767 ∧ wf 16 1 (_attrRow r) ∧ _total_length (_attrRow r) = _rowWidth r.

Lemma AttrRow_Resize_ok w r :
  0 < w <= 32767 → row_shape r →
  ∃ a, AttrRow_Resize w (_attrRow r) = inr a ∧ wf 16 1 a ∧ _total_length a = w
    ∧ Rle.decode (_runs a) = fit_attrs w (attrs r).
Proof.
  intros Hw (Hrw & Hwf & Ht). pose proof Hwf as (Hn & Htot & _).
  pose proof (RleFacts.resize_spec 16 1 ltac:(lia) (_attrRow r) w Hwf ltac:(lia)) as Hspec.
  pose proof (last_decode (_runs (_attrRow r)) Hn) as Hlast.
  assert (length (attrs r) = Z.to_nat (_rowWidth r)) as Hla.
  { pose proof (length_decode 1 ltac:(lia) _ Hn). unfold attrs. lia. }
  destruct (last (_runs (_attrRow r))) as [x|] eqn:El.
  2:{ apply last_None in El. unfold attrs in Hla. rewrite El in Hla. cbn in Hla. lia. }
  destruct Hspec as (a & E & Hwf' & Hd). exists a. split; [done|]. split; [done|].
  assert (Rle.decode (_runs a) = fit_attrs w (attrs r)) as Hd'.
  { rewrite Hd. unfold fit_attrs, fit. fold (attrs r) in *. rewrite Hlast. cbn. f_equal. unfold rep. f_equal. lia. }
  split; [|done]. destruct Hwf' as (Hn' & Ht' & _). rewrite Ht', <-(length_decode 1 ltac:(lia) _ Hn'), Hd'.
  unfold fit_attrs. rewrite length_fit. lia.
Qed.

(** The row after a resize, apart from its number. *)
Definition resized (w : Z) (r : ROW) : ROW := (ROW_Resize w r).2.

Lemma ROW_Resize_ok w r :
  0 < w <= 32767 → row_shape r →
  ROW_Resize w r = (None, resized w r) ∧ _charRow (resized w r) = CharRow_Resize w (_charRow r)
  ∧ _id (resized w r) = _id r ∧ _rowWidth (resized w r) = w
  ∧ wf 16 1 (_attrRow (resized w r)) ∧ _total_length (_attrRow (resized w r)) = w
  ∧ attrs (resized w r) = fit_attrs w (attrs r)
  ∧ _lineRendition (resized w r) = _lineRendition r ∧ _wrapForced (resized w r) = _wrapForced r
  ∧ _doubleBytePadded (resized w r) = _doubleBytePadded r.
Proof.
  intros Hw Hr. destruct (AttrRow_Resize_ok w r Hw Hr) as (a & E & Hwf & Ht & Hd).
  unfold resized, ROW_Resize. cbn [set_charRow _attrRow]. rewrite E. cbn [snd]. by split_and!.
Qed.

(** What the resized row shows, once the long glyphs have followed it. *)
Lemma resized_line w r s s' k :
  0 < w <= 32767 → row_ok r s →
  (∀ x, x < w → s' !! mkCOORD x k = s !! mkCOORD x (_id r)) →
  let r' := resized w (SetId k r) in
  row_ok r' s' ∧ line_of s' r' = resize_line w (line_of s r).
Proof.
  intros Hw Hr Hs r'. pose proof Hr as [Hrw0 Hch0 Hwf0 Ht0 Hg0].
  destruct (ROW_Resize_ok w (SetId k r) Hw (conj Hrw0 (conj Hwf0 Ht0))) as (_ & Hc & Hid & Hrw & Hwf & Ht & Hat & Hl & Hwr & Hpad).
  fold r' in Hc, Hid, Hrw, Hwf, Ht, Hat, Hl, Hwr, Hpad. cbn [SetId _charRow _id _lineRendition _wrapForced _doubleBytePadded] in *.
  assert (∀ i c, CharRow_Resize w (_charRow r) !! i = Some c →
    (_charRow r !! i = Some c ∧ Z.of_nat i < w) ∨ c = CharRowCell_default) as Hcases.
  { intros i c. unfold CharRow_Resize. rewrite lookup_app_Some. intros [Hi|[_ Hi]].
    - apply lookup_take_Some in Hi as [Hi Hlt]. left. split; [done|lia].
    - apply lookup_replicate in Hi as [-> _]. by right. }
  split.
  - split; rewrite ?Hrw, ?Hc, ?Hid; try done.
    + unfold CharRow_Resize. rewrite length_app, length_take, length_replicate. lia.
    + intros i c Hi Hst. destruct (Hcases i c Hi) as [[Hi' Hlt]| ->]; [|done].
      destruct (Hg0 i c Hi' Hst) as (g & Eg & Hne). exists g. rewrite Hs by done. done.
  - unfold line_of, resize_line. cbn [l_cells l_attrs l_rendition l_wrap l_padded]. rewrite Hat, Hl, Hwr, Hpad.
    f_equal. apply list_eq. intros i. unfold shown. rewrite Hc, Hid, list_lookup_imap. unfold fit. rewrite length_imap.
    unfold CharRow_Resize. destruct (decide (i < length (take (Z.to_nat w) (_charRow r)))%nat) as [Hlt|Hge].
    + rewrite length_take in Hlt. rewrite !lookup_app_l by (rewrite length_take, ?length_imap; lia).
      rewrite !lookup_take_lt by lia. rewrite list_lookup_imap.
      destruct (_charRow r !! i) as [c|]; [|done]. cbn. unfold glyph_of. by rewrite Hs by lia.
    + rewrite length_take in Hge. rewrite !lookup_app_r by (rewrite length_take, ?length_imap; lia).
      rewrite !length_take, length_imap.
      set (j := (i - _)%nat). set (m := (_ - _)%nat).
      destruct (decide (j < m)%nat).
      * by rewrite !lookup_replicate_2 by done.
      * rewrite !lookup_ge_None_2 by (rewrite length_replicate; lia). done.
Qed.

(** ** Renumbering and resizing all rows *)

Lemma resize_blank w a : 0 < w <= 32767 → resize_line w (blank_line w a) = blank_line w a.
Proof.
  intros Hw. unfold resize_line, blank_line, fit_attrs, fit, blank_cells. cbn [l_cells l_attrs l_rendition l_wrap l_padded].
  rewrite !take_ge by (rewrite length_replicate; lia). rewrite !length_replicate, Nat.sub_diag. cbn [replicate].
  by rewrite !app_nil_r.
Qed.

Lemma refresh_resize_ok l s w :
  0 < w <= 32767 → Z.of_nat (length l) <= 32767 → NoDup (_id <$> l) → Forall (λ r, row_ok r s) l →
  ∃ rowMap, refresh_rows (Some w) 0 ∅ l = (None, imap (λ k r, resized w (SetId (Z.of_nat k) r)) l, rowMap)
    ∧ ∀ k r, l !! k = Some r →
        let r' := resized w (SetId (Z.of_nat k) r) in
        let s' := Remap rowMap (Some w) s in
        row_ok r' s' ∧ _id r' = Z.of_nat k ∧ _rowWidth r' = w ∧ line_of s' r' = resize_line w (line_of s r).
Proof.
  intros Hw Hlen Hnd Hall. rewrite Forall_forall in Hall.
  assert (∀ r j, r ∈ l → row_shape (SetId j r)) as Hshape by (intros r j Hr; by destruct (Hall r Hr)).
  destruct (refresh_rows_spec (Some w) (resized w) l 0 ∅) as (rowMap & E & Hmap); [|lia|lia|done| |].
  { intros r j Hr. unfold resizes. rewrite wrapu_small by lia. by apply ROW_Resize_ok; [|apply Hshape]. }
  { intros r _. apply lookup_empty. }
  exists rowMap. split; [exact E|]. intros k r Hk r' s'.
  assert (∀ o n, rowMap !! o = Some n ↔ ∃ k r, l !! k = Some r ∧ _id r = o ∧ n = Z.of_nat k) as Hmap'.
  { intros o n. rewrite Hmap, lookup_empty. split; [by intros [|(j & x & ? & ? & ?)]; [|eauto]|]. eauto. }
  assert (∀ x, x < w → s' !! mkCOORD x (Z.of_nat k) = s !! mkCOORD x (_id r)) as Hs'.
  { intros x Hx. apply option_eq. intros g. unfold s'. rewrite Remap_lookup.
    - split.
      + intros (o & Ho & Hg & _). apply Hmap' in Ho as (k' & r2 & Hk' & <- & ?).
        assert (k' = k) as -> by lia. by simplify_eq.
      + intros Hg. exists (_id r). split; [|done]. apply Hmap'. eauto.
    - intros o o' n Ho Ho'. apply Hmap' in Ho as (k1 & r1 & Hk1 & <- & ->), Ho' as (k2 & r2 & Hk2 & <- & ?).
      assert (k1 = k2) as -> by lia. by simplify_eq. }
  destruct (resized_line w r s s' (Z.of_nat k) Hw (Hall r ltac:(by eapply list_elem_of_lookup_2)) Hs') as [Hrow Hline].
  destruct (ROW_Resize_ok w (SetId (Z.of_nat k) r) Hw (Hshape _ _ ltac:(by eapply list_elem_of_lookup_2))) as (_ & _ & Hid & Hrw & _).
  done.
Qed.

(** ** ResizeTraditional *)

(** The first line that is kept: the one that keeps the cursor in the buffer. *)
Definition top_row (newHeight : Z) (t : TextBuffer) : Z :=
  let y := Y (_cPosition (_cursor t)) in if newHeight <=? y then y - newHeight + 1 else 0.

Section resize.
Context (t : TextBuffer) (Hok : buffer_ok t) (w h : Z) (Hw : 0 < w <= 32767) (Hh : 0 < h <= 32767).
Context (Hcur : 0 <= Y (_cPosition (_cursor t)) < TotalRowCount t).

Let top := top_row h t.
Let n := Z.to_nat ((_firstRow t + top) mod TotalRowCount t).
Let kept := take (Z.to_nat h) (rotate n (_storage t)).
Let fresh := (λ i, ROW_init (i16 i) w (_currentAttributes t)) <$> seqZ (Z.of_nat (length kept)) (h - Z.of_nat (length kept)).

Lemma top_range : 0 <= top < TotalRowCount t ∧ (top + h <= TotalRowCount t ∨ top = 0).
Proof using Hok Hw Hh Hcur. unfold top, top_row. destruct (Z.leb_spec h (Y (_cPosition (_cursor t)))); lia. Qed.

Lemma length_kept : Z.of_nat (length kept) = Z.min h (TotalRowCount t).
Proof using Hh. unfold kept. rewrite length_take, length_rotate. unfold TotalRowCount. lia. Qed.

Lemma kept_lookup (i : nat) : (i < length kept)%nat → kept !! i = _storage t !! place t (top + Z.of_nat i).
Proof using Hok Hw Hh Hcur.
  intros Hi. pose proof length_kept. pose proof (b_height t Hok) as Hb. pose proof (b_first t Hok). pose proof top_range.
  unfold kept. rewrite lookup_take_lt by lia. rewrite lookup_rotate_r by (unfold TotalRowCount in *; lia).
  unfold rotate_nat_add, place, n. fold (TotalRowCount t). f_equal. f_equal.
  pose proof (Z.mod_pos_bound (_firstRow t + top) (TotalRowCount t) ltac:(lia)).
  rewrite Z2Nat.id by lia. rewrite Zplus_mod_idemp_l. f_equal. lia.
Qed.

Lemma kept_screen : line_of (_unicodeStorage t) <$> kept = take (Z.to_nat h) (drop (Z.to_nat top) (screen t)).
Proof using Hok Hw Hh Hcur.
  pose proof length_kept as Hl. pose proof top_range as [Ht1 Ht2]. apply list_eq. intros i. rewrite list_lookup_fmap.
  destruct (decide (i < length kept)%nat) as [Hi|Hi].
  - rewrite kept_lookup, lookup_take_lt, lookup_drop by lia.
    replace (Z.to_nat top + i)%nat with (Z.to_nat (top + Z.of_nat i)) by lia. symmetry. apply screen_lookup; [done|lia].
  - rewrite lookup_ge_None_2 by lia. symmetry. cbn. apply lookup_ge_None. rewrite length_take, length_drop, length_screen.
    unfold TotalRowCount in *. lia.
Qed.

Lemma fresh_lookup (i : nat) r : fresh !! i = Some r →
  r = ROW_init (Z.of_nat (length kept + i)) w (_currentAttributes t) ∧ Z.of_nat (length kept) = TotalRowCount t.
Proof using Hok Hw Hh Hcur.
  unfold fresh. rewrite list_lookup_fmap. intros Hi. pose proof length_kept.
  destruct (decide (Z.of_nat i < h - Z.of_nat (length kept))) as [Hlt|Hge].
  - rewrite lookup_seqZ_lt in Hi by lia. cbn in Hi. injection Hi as <-. rewrite i16_small by lia. split; [f_equal; lia|lia].
  - rewrite lookup_seqZ_ge in Hi by lia. done.
Qed.

Lemma all_ids : NoDup (_id <$> kept ++ fresh).
Proof using Hok Hw Hh Hcur.
  pose proof top_range. pose proof length_kept as Hlk.
  assert (∀ i r, kept !! i = Some r → _id r = Z.of_nat (place t (top + Z.of_nat i))) as Hk.
  { intros i r Hi. pose proof (lookup_lt_Some _ _ _ Hi) as Hl. rewrite kept_lookup in Hi by done.
    by destruct (b_rows t Hok _ _ Hi). }
  assert (∀ i r, fresh !! i = Some r → _id r = Z.of_nat (length kept + i)) as Hf.
  { intros i r Hi. by destruct (fresh_lookup i r Hi) as [-> _]. }
  rewrite fmap_app. apply NoDup_app. split_and!.
  - apply NoDup_alt. intros i j x Hi Hj. rewrite list_lookup_fmap in Hi, Hj.
    destruct (kept !! i) as [ri|] eqn:Ei, (kept !! j) as [rj|] eqn:Ej; simplify_eq/=.
    rewrite (Hk _ _ Ei), (Hk _ _ Ej) in *. pose proof (lookup_lt_Some _ _ _ Ei). pose proof (lookup_lt_Some _ _ _ Ej).
    assert (place t (top + Z.of_nat i) = place t (top + Z.of_nat j)) as E by lia.
    apply (place_inj t Hok) in E; lia.
  - intros x Hx Hx2. apply list_elem_of_fmap in Hx as (r & -> & Hr), Hx2 as (r2 & E & Hr2).
    apply list_elem_of_lookup in Hr as [i Hi], Hr2 as [j Hj]. rewrite (Hk _ _ Hi), (Hf _ _ Hj) in E.
    destruct (fresh_lookup _ _ Hj) as [_ El]. pose proof (place_lt t Hok (top + Z.of_nat i)).
    unfold TotalRowCount in El. lia.
  - apply NoDup_alt. intros i j x Hi Hj. rewrite list_lookup_fmap in Hi, Hj.
    destruct (fresh !! i) as [ri|] eqn:Ei, (fresh !! j) as [rj|] eqn:Ej; simplify_eq/=.
    rewrite (Hf _ _ Ei), (Hf _ _ Ej) in *. lia.
Qed.

Lemma all_rows_ok : Forall (λ r, row_ok r (_unicodeStorage t)) (kept ++ fresh).
Proof using Hok Hw Hh Hcur.
  apply Forall_app. split; apply Forall_lookup; intros i r Hi.
  - pose proof (lookup_lt_Some _ _ _ Hi) as Hl. rewrite kept_lookup in Hi by done. by destruct (b_rows t Hok _ _ Hi) as (_ & _ & ?).
  - destruct (fresh_lookup i r Hi) as [-> _]. by apply ROW_init_ok.
Qed.

Lemma length_all : length (kept ++ fresh) = Z.to_nat h.
Proof using Hok Hw Hh Hcur.
  pose proof length_kept. rewrite length_app. unfold fresh. rewrite length_fmap, length_seqZ. lia.
Qed.

(** The screen after the resize. *)
Definition resized_screen : list Line :=
  (resize_line w <$> take (Z.to_nat h) (drop (Z.to_nat top) (screen t)))
  ++ replicate (Z.to_nat (h - TotalRowCount t)) (blank_line w (_currentAttributes t)).

Lemma all_lines : (resize_line w ∘ line_of (_unicodeStorage t)) <$> kept ++ fresh = resized_screen.
Proof using Hok Hw Hh Hcur.
  rewrite list_fmap_compose, !fmap_app, kept_screen. unfold resized_screen. f_equal.
  pose proof length_kept as Hl. apply list_eq. intros i. rewrite !list_lookup_fmap. destruct (fresh !! i) as [r|] eqn:Ei.
  - destruct (fresh_lookup i r Ei) as [-> El]. apply lookup_lt_Some in Ei. unfold fresh in Ei.
    rewrite length_fmap, length_seqZ in Ei. rewrite lookup_replicate_2 by lia. cbn. f_equal.
    destruct (ROW_init_ok (Z.of_nat (length kept + i)) w (_currentAttributes t) (_unicodeStorage t) Hw) as (_ & Hs & Ha).
    unfold line_of. rewrite Hs, Ha. by apply resize_blank.
  - apply lookup_ge_None in Ei. unfold fresh in Ei. rewrite length_fmap, length_seqZ in Ei. cbn. symmetry.
    apply lookup_ge_None. rewrite length_replicate. lia.
Qed.

Lemma ResizeTraditional_ok :
  ∃ t', ResizeTraditional (mkCOORD w h) t = (None, t') ∧ buffer_ok t'
    ∧ _size t' = mkViewport (mkRect 0 0 (w - 1) (h - 1)) ∧ screen t' = resized_screen ∧ _cursor t' = _cursor t.
Proof using Hok Hw Hh Hcur.
  pose proof (b_height t Hok) as Hb. pose proof (b_first t Hok) as Hf. pose proof top_range as [Ht _].
  destruct (refresh_resize_ok (kept ++ fresh) (_unicodeStorage t) w Hw) as (rowMap & E & Hrows);
    [rewrite length_all; lia|apply all_ids|apply all_rows_ok|].
  set (rows := imap _ (kept ++ fresh)) in E. set (s' := Remap rowMap (Some w) (_unicodeStorage t)) in *.
  assert (length rows = Z.to_nat h) as Hlr by (unfold rows; by rewrite length_imap, length_all).
  assert (∀ k r', rows !! k = Some r' → ∃ r, (kept ++ fresh) !! k = Some r ∧ r' = resized w (SetId (Z.of_nat k) r)) as Hlk.
  { intros k r'. unfold rows. rewrite list_lookup_imap. destruct ((kept ++ fresh) !! k) as [r|]; [|done].
    intros [= <-]. eauto. }
  set (size := mkViewport (mkRect 0 0 (w - 1) (h - 1))).
  assert (size_of_rows rows = inr size) as Esz.
  { assert (∃ r rs, rows = r :: rs) as (r & rs & Er) by (destruct rows; [cbn in Hlr; lia|eauto]).
    destruct (Hlk 0%nat r ltac:(by rewrite Er)) as (r0 & Hr0 & ->). destruct (Hrows _ _ Hr0) as (_ & _ & Erw & _).
    unfold size_of_rows. rewrite Er, <-Er, Hlr, Erw, Z2Nat.id by lia.
    rewrite !(proj2 (Z.leb_le _ _)) by lia. cbn [andb]. f_equal. unfold size.
    rewrite <-(FromDimensions_ok (mkViewport (mkRect 0 0 (w - 1) (h - 1)))) by (unfold vp_ok; vp_unfold; lia).
    unfold Origin. vp_unfold. do 2 f_equal; lia. }
  set (t' := TextBuffer.set_size size (set_rows rows s' (_SetFirstRowIndex 0 t))).
  assert (TotalRowCount t' = h) as Et by (unfold TotalRowCount; cbn; lia).
  assert (t_width t' = w) as Ew by (unfold t_width, columns; cbn; lia).
  exists t'. split; [|split; [|split; [done|split; [|done]]]].
  - assert (i16 (Z.rem (_firstRow t + top) (TotalRowCount t)) = Z.of_nat n) as En.
    { pose proof (Z.mod_pos_bound (_firstRow t + top) (TotalRowCount t) ltac:(lia)).
      rewrite Z.rem_mod_nonneg by lia. unfold n. rewrite i16_small by lia. lia. }
    unfold ResizeTraditional. cbn [X Y]. rewrite !(proj2 (Z.ltb_ge _ _)) by lia. cbn [orb].
    rewrite (Dimensions_ok _ (size_ok t Hok)). cbn [Y].
    rewrite <-(Height_ok _ (size_ok t Hok)), (Height_size t Hok), (proj2 (Z.eqb_neq (TotalRowCount t) 0)) by lia.
    assert ((if h <=? Y (_cPosition (_cursor t)) then i16 (Y (_cPosition (_cursor t)) - h + 1) else 0) = top) as ->.
    { unfold top, top_row. destruct (Z.leb_spec h (Y (_cPosition (_cursor t)))); [|done]. apply i16_small. lia. }
    rewrite En.
    match goal with |- match ?m t with _ => _ end = _ => assert (wp m (λ _ x, x = t') t) as Hm end.
    { wp_step. wp_step. wp_step. eapply (wp_storage _ (rotate n (_storage t))).
      { rewrite Nat2Z.id. clear -Hb. unfold TotalRowCount in Hb. destruct (_storage t); [cbn in Hb; lia|done]. }
      repeat wp_step. eapply wp_storage; [reflexivity|]. repeat wp_step. eapply wp_storage; [reflexivity|].
      repeat wp_step. cbn [set_rows _SetFirstRowIndex _storage _unicodeStorage _currentAttributes].
      rewrite (wrapu_small 16) by lia. fold kept. fold fresh.
      unfold wp at 1, _RefreshRowIDs. cbn [set_rows _SetFirstRowIndex _storage _unicodeStorage]. rewrite E.
      repeat wp_step. cbn [set_rows _storage]. unfold wp at 1, lift. rewrite Esz. wp_step. done. }
    unfold wp in Hm. match goal with |- match ?m t with _ => _ end = _ => destruct (m t) end; [by f_equal|done].
  - split; rewrite ?Et, ?Ew; try done; [change (0 <= 0 < h); lia|].
    intros i r' Hi. destruct (Hlk i r' Hi) as (r & Hr & ->). destruct (Hrows i r Hr) as (H1 & H2 & H3 & _). done.
  - rewrite <-all_lines. apply list_eq. intros i. unfold screen, logical.
    cbn [t' TextBuffer.set_size set_rows _SetFirstRowIndex _firstRow _storage _unicodeStorage Z.to_nat].
    rewrite drop_0, take_0, app_nil_r, !list_lookup_fmap. unfold rows. rewrite list_lookup_imap.
    destruct ((kept ++ fresh) !! i) as [r|] eqn:Ei; [|done]. cbn. f_equal. by destruct (Hrows i r Ei) as (_ & _ & _ & ?).
Qed.
End resize.

(** C36: resizing a buffer without reflow succeeds for every size that is not empty,
    keeps the buffer well formed, and shows the lines that were there, from the one
    that keeps the cursor's line in the buffer, cut or filled up with blanks to the
    new width, followed by blank lines; long glyphs stay with their cells. *)
Theorem ResizeTraditional_correct (t : TextBuffer) (w h : Z) :
  let top := top_row h t in
  buffer_ok t → 0 < w <= 32767 → 0 < h <= 32767 → 0 <= Y (_cPosition (_cursor t)) < TotalRowCount t →
  ∃ t', ResizeTraditional (mkCOORD w h) t = (None, t') ∧ buffer_ok t'
    ∧ _size t' = mkViewport (mkRect 0 0 (w - 1) (h - 1)) ∧ _cursor t' = _cursor t
    ∧ screen t' = (resize_line w <$> take (Z.to_nat h) (drop (Z.to_nat top) (screen t)))
                  ++ replicate (Z.to_nat (h - TotalRowCount t)) (blank_line w (_currentAttributes t)).
Proof.
  intros top Hok Hw Hh Hc. destruct (ResizeTraditional_ok t Hok w h Hw Hh Hc) as (t' & E & H1 & H2 & H3 & H4). eauto 10.
Qed.

Lemma ResizeTraditional_correct_witness :
  letters (ResizeTraditional (mkCOORD 3 3) (sample_buffer 2 2)).2 = [[65; 65; 32]; [66; 66; 32]; [32; 32; 32]]
  ∧ ∃ t', ResizeTraditional (mkCOORD 3 3) (sample_buffer 2 2) = (None, t') ∧ buffer_ok t'
      ∧ _size t' = mkViewport (mkRect 0 0 2 2) ∧ _cursor t' = _cursor (sample_buffer 2 2)
      ∧ screen t' = (resize_line 3 <$> take 3 (drop 0 (screen (sample_buffer 2 2))))
                    ++ replicate 1 (blank_line 3 (_currentAttributes (sample_buffer 2 2))).
Proof.
  split; [vm_compute; reflexivity|].
  apply (ResizeTraditional_correct (sample_buffer 2 2) 3 3); [by_computation|lia|lia|].
  vm_compute. split; [discriminate|reflexivity].
Defined.
