(* ===== verification/Scroll.v ===== *)
(** Scrolling a region of the screen: [_CopyRectangle], [_ScrollScreen] and
    [ScrollRegion] of [src/src/host/output.cpp], with [WriteRect] of
    [src/src/host/screenInfo.cpp].

    A screen buffer is its text buffer here: the functions use nothing else of
    it, apart from notifications. *)

From S2P Require Import Prelude DispatchTypes TextColor TextAttribute Viewport OutputCell CharRow Row TextBuffer.

Section scroll.
Context `{GlyphWidth} (d : LegacyDefaults).

(** ** Copying *)

(** The [do] loop: source and target are walked in step. *)
Fixpoint copy_loop (fuel : nat) (source target : Viewport) (dir : WalkDir) (sourcePos targetPos : COORD)
    : prog TextBuffer unit :=
  match fuel with
  | O => throw OutOfFuel
  | S fuel =>
      t ← gets id;
      view ← lift (GetCellDataAt sourcePos t);
      it ← lift (Iter_cells [OutputCell_of_view view]);
      Write d it targetPos (Some true);;
      '(_, sourcePos) ← lift (WalkInBounds source sourcePos dir false);
      '(more, targetPos) ← lift (WalkInBounds target targetPos dir false);
      if (more : bool) then copy_loop fuel source target dir sourcePos targetPos else mret tt
  end.

Definition _CopyRectangle (source : Viewport) (targetOrigin : COORD) : prog TextBuffer unit :=
  let sourceOrigin := Origin source in
  if decide (sourceOrigin = targetOrigin) then mret tt
  else
    bufferSize ← gets (λ t, Dimensions (_size t));
    let sourceFullRows := Width source =? X bufferSize in
    let verticalCopyOnly := (Left source =? 0) && (X targetOrigin =? 0) in
    if sourceFullRows && verticalCopyOnly then
      let delta := Y targetOrigin - Top source in
      if (-32768 <=? delta) && (delta <=? 32767)
      then ScrollRows (Top source) (Height source) delta else throw NarrowingError
    else
      let target := FromDimensions targetOrigin (Dimensions source) in
      let dir := DetermineWalkDirection source target in
      copy_loop (Z.to_nat (Width source * Height source)) source target dir
        (GetWalkOrigin source dir) (GetWalkOrigin target dir).

(** What the accessibility notifier is told: by how much the text has moved. *)
Definition scroll_event (source target : Viewport) : Z * Z :=
  (X (Origin target) - Left source, Y (Origin target) - RightInclusive source).

(** ** Filling *)

Fixpoint write_rect_rows (n : nat) (viewport : Viewport) (iter : OutputCellIterator) (i : Z)
    : prog TextBuffer OutputCellIterator :=
  match n with
  | O => mret iter
  | S n =>
      iter ← WriteLine d iter (mkCOORD (Left viewport) i) (Some false) (Some (RightInclusive viewport));
      write_rect_rows n viewport iter (i + 1)
  end.

Definition WriteRect (it : OutputCellIterator) (viewport : Viewport) : prog TextBuffer OutputCellIterator :=
  if Height viewport <=? 0 then throw InvalidArg
  else if Width viewport <=? 0 then throw InvalidArg
  else write_rect_rows (Z.to_nat (BottomExclusive viewport - Top viewport)) viewport it (Top viewport).

(** ** ScrollRegion *)

Definition fill_one (fillData : OutputCellIterator) (buffer : Viewport) (destinationOriginGiven : COORD)
    (view : Viewport) : prog TextBuffer unit :=
  WriteRect fillData view;;
  if (Width view =? Width buffer) && (X destinationOriginGiven =? 0)
  then ResetLineRenditionRange (Top view) (BottomExclusive view) else mret tt.

Fixpoint fill_all (fillData : OutputCellIterator) (buffer : Viewport) (destinationOriginGiven : COORD)
    (remaining : list Viewport) : prog TextBuffer unit :=
  match remaining with
  | [] => mret tt
  | view :: remaining =>
      fill_one fillData buffer destinationOriginGiven view;;
      fill_all fillData buffer destinationOriginGiven remaining
  end.

Definition moved (origin from to_ : COORD) : COORD :=
  mkCOORD (i16 (X origin + (X to_ - X from))) (i16 (Y origin + (Y to_ - Y from))).

Definition ScrollRegion (scrollRectGiven : SMALL_RECT) (clipRectGiven : option SMALL_RECT)
    (destinationOriginGiven : COORD) (fillCharGiven : Z) (fillAttrsGiven : TextAttribute)
    : prog TextBuffer unit :=
  let source := FromInclusive scrollRectGiven in
  let originalSourceOrigin := Origin source in
  buffer ← gets _size;
  let source := Intersect source buffer in
  if negb (IsValid source) then mret tt
  else
    let clip := FromInclusive (default (ToInclusive buffer) clipRectGiven) in
    let clip := Intersect buffer clip in
    let fill := Intersect clip source in
    if negb (IsValid fill) then mret tt
    else
      attributes ← gets _currentAttributes;
      let fillData :=
        if (fillCharGiven =? 0) && bool_decide (fillAttrsGiven = TextAttribute_of_legacy d 0)
        then Iter_fill UNICODE_SPACE attributes 0
        else Iter_fill fillCharGiven fillAttrsGiven 0 in
      let targetOrigin := moved destinationOriginGiven originalSourceOrigin (Origin source) in
      let target := FromDimensions targetOrigin (Dimensions source) in
      let originalTargetOrigin := Origin target in
      let target := Intersect clip target in
      let source := FromDimensions (moved (Origin source) originalTargetOrigin (Origin target))
                      (Dimensions target) in
      (if IsValid target then _CopyRectangle source (Origin target) else mret tt);;
      fill_all fillData buffer destinationOriginGiven (Subtract fill target).
End scroll.
