(* ===== verification/ScrollFacts.v ===== *)
(** Scrolling a region: the copy that walks through overlapping rectangles, the
    fill, and the whole of [ScrollRegion] on the cells of the screen. *)

From S2P Require Import Prelude DispatchTypes TextColor TextAttribute Rle RleFacts RleIter Viewport ViewportFacts OutputCell CharRow Row RowFacts Cursor TextBuffer TextBufferFacts ScrollRowsFacts Scroll.


Definition shift (off p : COORD) : COORD := mkCOORD (X p + X off) (Y p + Y off).
Definition unshift (off p : COORD) : COORD := mkCOORD (X p - X off) (Y p - Y off).

Lemma shift_unshift off p : shift off (unshift off p) = p.
Proof. destruct p. unfold shift, unshift. cbn. f_equal; lia. Qed.

Lemma unshift_shift off p : unshift off (shift off p) = p.
Proof. destruct p. unfold shift, unshift. cbn. f_equal; lia. Qed.

(** [target] is [source] moved by [off]. *)
Definition moved_by (off : COORD) (source target : Viewport) : Prop :=
  Left target = Left source + X off ∧ RightInclusive target = RightInclusive source + X off
  ∧ Top target = Top source + Y off ∧ BottomInclusive target = BottomInclusive source + Y off.

Section walks.
Context (source target : Viewport) (off : COORD) (Hs : vp_ok source) (Ht : vp_ok target).
Context (Hoff : moved_by off source target).

Lemma moved_columns : columns target = columns source.
Proof using Hoff. destruct Hoff as (H1 & H2 & _). unfold columns. lia. Qed.

Lemma moved_area : area target = area source.
Proof using Hoff. destruct Hoff as (H1 & H2 & H3 & H4). unfold area, rows, columns. rewrite H1, H2, H3, H4. f_equal; lia. Qed.

Lemma inside_moved p : inside target p ↔ inside source (unshift off p).
Proof using Hoff. destruct Hoff as (H1 & H2 & H3 & H4). unfold inside, unshift. cbn. lia. Qed.

Lemma walk_pos_moved dir k : walk_pos target dir k = shift off (walk_pos source dir k).
Proof using Hoff.
  destruct Hoff as (H1 & H2 & H3 & H4). unfold walk_pos, shift. rewrite moved_columns. cbn.
  destruct (wx dir), (wy dir); f_equal; lia.
Qed.

(** In the chosen direction a position is read before it is written. *)
Lemma read_before_write p :
  off ≠ mkCOORD 0 0 → inside source p → inside target p →
  walk_index source (DetermineWalkDirection source target) p
  < walk_index target (DetermineWalkDirection source target) p.
Proof using Hoff.
  intros Hne [Hx Hy] [Hx' Hy']. pose proof moved_columns as Hc. destruct Hoff as (H1 & H2 & H3 & H4).
  assert (X off ≠ 0 ∨ Y off ≠ 0) as Hxy.
  { destruct (decide (X off = 0)), (decide (Y off = 0)); [|by right|by left..].
    destruct Hne. destruct off. cbn in *. by subst. }
  unfold walk_index. rewrite Hc. unfold DetermineWalkDirection, Origin. cbn [X Y wx wy].
  unfold columns in *.
  destruct (Z.ltb_spec (Left target) (Left source)), (Z.ltb_spec (Top target) (Top source)); nia.
Qed.
End walks.

(** ** Copying *)

Section copy.
Context `{GlyphWidth} (d : LegacyDefaults).
Context (t0 : TextBuffer) (source target : Viewport) (off : COORD).
Context (Hs : vp_ok source) (Ht : vp_ok target) (Hoff : moved_by off source target).
Context (Hne : off ≠ mkCOORD 0 0).
Context (Hsin : ∀ p, inside source p → inside (_size t0) p).
Context (Htin : ∀ p, inside target p → inside (_size t0) p).
Context (Hfit : ∀ p g k a, inside source p → cell_at t0 p = Some (g, k, a) → fits_at t0 (X p + X off) k).

Abbreviation dir := (DetermineWalkDirection source target).

(** After [k] steps. *)
Definition copied (k : Z) (t : TextBuffer) : Prop :=
  buffer_ok t ∧ _size t = _size t0
  ∧ ∀ q, inside (_size t0) q →
      cell_at t q = if decide (inside target q ∧ walk_index target dir q < k)
                    then cell_at t0 (unshift off q) else cell_at t0 q.

Lemma copy_loop_ok n k t :
  0 <= k → k + Z.of_nat n = area source → (0 < n)%nat → copied k t →
  wp (copy_loop d n source target dir (walk_pos source dir k) (walk_pos target dir k))
    (λ _ t', copied (area source) t') t.
Proof using Hs Ht Hoff Hne Hsin Htin Hfit.
  revert k t. induction n as [|n IH]; intros k t Hk Hn Hpos (Hok & Hsz & Hcells); [lia|].
  pose proof (moved_area source target off Hoff) as Har.
  pose proof (walk_pos_inside source Hs dir k ltac:(lia)) as Hip.
  pose proof (walk_pos_inside target Ht dir k ltac:(lia)) as Hit.
  set (p := walk_pos source dir k) in *. set (q := walk_pos target dir k) in *.
  assert (unshift off q = p) as Eun.
  { unfold q, p. by rewrite (walk_pos_moved source target off Hoff), unshift_shift. }
  assert (walk_index source dir p = k) as Ekp by (apply (walk_index_pos source Hs); lia).
  assert (walk_index target dir q = k) as Ekq by (apply (walk_index_pos target Ht); lia).
  cbn [copy_loop]. repeat wp_step.
  destruct (GetCellDataAt_ok t p Hok ltac:(rewrite Hsz; by apply Hsin)) as (v & Ev & Hv & Hch & Hb).
  assert (cell_at t0 p = Some (view_cell v)) as Hv0.
  { rewrite <-Hv, (Hcells p) by by apply Hsin. rewrite decide_False; [done|]. intros [Hin Hlt].
    pose proof (read_before_write source target off Hoff p Hne Hip Hin) as Hrw.
    lia. }
  unfold wp at 1, lift. cbn [id]. rewrite Ev. wp_step.
  destruct (Write_cell_ok d t v q (Some true)
    (λ _ t', copied (k + 1) t')) as (it & Eit & Hwp); [done|rewrite Hsz; by apply Htin|done|done| | |].
  { destruct v as [ch a at_ b]. pose proof (Hfit p _ _ _ Hip Hv0) as [Hf1 Hf2].
    assert (X q = X p + X off) as EX by (rewrite <-Eun; cbn; lia). rewrite <-EX in *.
    unfold fits_at, t_width in *. by rewrite Hsz. }
  { intros _ t' l Hok' Hl Hsc Hrest. assert (_size t' = _size t) as Hsz' by by injection Hrest.
    split; [done|]. split; [by rewrite Hsz'|]. intros x Hx.
    rewrite (cell_at_write t t' v q l (Some true) Hok) by (rewrite ?Hsz; by auto).
    rewrite (Hcells x Hx). destruct (decide (x = q)) as [->|Hxq].
    - rewrite Ekq, decide_True by (split; [done|lia]).
      by rewrite Eun, Hv0.
    - assert (inside target x → walk_index target dir x ≠ k) as Hxk.
      { intros Hix <-. apply Hxq. unfold q. by rewrite walk_pos_index. }
      apply decide_ext. intuition lia. }
  unfold wp at 1. unfold OutputCell_of_view in *. unfold cell_of, OutputCell_of_view in Eit. rewrite Eit.
  wp_step. eapply wp_mono; [exact Hwp|]. intros it2 t' Hcp. unfold p, q.
  rewrite !WalkInBounds_step by (done || lia). rewrite Har.
  unfold lift. repeat (wp_step; unfold wp at 1).
  destruct (Z.ltb_spec (k + 1) (area source)).
  - apply (IH (k + 1)); [lia|lia|lia|done].
  - apply wp_ret. replace (area source) with (k + 1) by lia. done.
Qed.
End copy.

(** Whole rows that move up or down. *)
Definition full_rows (t : TextBuffer) (source : Viewport) (off : COORD) : Prop :=
  columns source = t_width t ∧ X off = 0.

#[global] Instance full_rows_dec t source off : Decision (full_rows t source off).
Proof. unfold full_rows. apply _. Defined.

(** The rows that moving rows pass over. *)
Definition passed (t : TextBuffer) (source : Viewport) (off q : COORD) : Prop :=
  full_rows t source off
  ∧ (0 < Y off ∧ Top source <= Y q < Top source + Y off
     ∨ Y off < 0 ∧ BottomInclusive source + Y off < Y q <= BottomInclusive source).

Section copy_rectangle.
Context `{GlyphWidth} (d : LegacyDefaults).
Context (t : TextBuffer) (Hok : buffer_ok t) (source target : Viewport) (off : COORD).
Context (Hs : vp_ok source) (Ht : vp_ok target) (Hoff : moved_by off source target).
Context (Hsin : ∀ p, inside source p → inside (_size t) p).
Context (Htin : ∀ p, inside target p → inside (_size t) p).

(** The corners of a viewport are inside. *)
Lemma edges v : vp_ok v → (∀ p, inside v p → inside (_size t) p) →
  0 <= Left v ∧ RightInclusive v < t_width t ∧ 0 <= Top v ∧ BottomInclusive v < TotalRowCount t.
Proof using Hok.
  intros Hv Hin. pose proof (Hin (mkCOORD (Left v) (Top v))) as H1.
  pose proof (Hin (mkCOORD (RightInclusive v) (BottomInclusive v))) as H2.
  rewrite (inside_size t Hok) in H1, H2. unfold vp_ok, inside in *. cbn [X Y] in *.
  specialize (H1 ltac:(lia)). specialize (H2 ltac:(lia)). lia.
Qed.

Definition copy_post (t' : TextBuffer) : Prop :=
  buffer_ok t' ∧ _size t' = _size t
  ∧ ∀ q, inside (_size t) q →
      (inside target q → cell_at t' q = cell_at t (unshift off q))
      ∧ (¬ inside target q → ¬ passed t source off q → cell_at t' q = cell_at t q).

Lemma rotate_rows_ok :
  off ≠ mkCOORD 0 0 → full_rows t source off →
  wp (ScrollRows (Top source) (rows source) (Y off)) (λ _ t', copy_post t') t.
Proof using Hok Hs Ht Hoff Hsin Htin.
  intros Hne [Hw HX0]. pose proof Hoff as (H1 & H2 & H3 & H4).
  pose proof (edges source Hs Hsin) as (E1 & E2 & E3 & E4).
  pose proof (edges target Ht Htin) as (F1 & F2 & F3 & F4).
  assert (Y off ≠ 0) by (intros ?; apply Hne; destruct off; cbn in *; by subst).
  apply ScrollRows_ok; unfold rows in *; try (done || lia).
  { unfold vp_ok in Hs. lia. }
  intros t' Hok' Hrest Hsc. split; [done|]. split; [by injection Hrest|]. intros q Hq.
  pose proof Hq as [HqX HqY]%(inside_size t Hok).
  assert (∀ y, 0 <= y < TotalRowCount t → scroll_source (Top source) (BottomInclusive source - Top source + 1) (Y off) (Y q) = y →
    cell_at t' q = cell_at t (mkCOORD (X q) y)) as Hcell.
  { intros y Hy E. unfold cell_at. cbn [X Y]. by rewrite Hsc, E by lia. }
  unfold columns, vp_ok in *. split.
  - intros Hin. unfold unshift. rewrite HX0, Z.sub_0_r. unfold inside in Hin. apply Hcell; [lia|].
    unfold scroll_source. repeat case_decide; lia.
  - intros Hin Hp. destruct q as [x y]. cbn [X Y] in *. apply Hcell; [done|].
    unfold passed, full_rows, columns, inside in *. cbn [X Y] in *. unfold scroll_source.
    repeat case_decide; lia.
Qed.

Lemma CopyRectangle_ok :
  full_rows t source off
    ∨ (∀ p g k a, inside source p → cell_at t p = Some (g, k, a) → fits_at t (X p + X off) k) →
  wp (_CopyRectangle d source (Origin target)) (λ _ t', copy_post t') t.
Proof using Hok Hs Ht Hoff Hsin Htin.
  intros Hfit. pose proof Hoff as (H1 & H2 & H3 & H4). unfold _CopyRectangle.
  pose proof (edges source Hs Hsin) as (E1 & E2 & E3 & E4).
  pose proof (edges target Ht Htin) as (F1 & F2 & F3 & F4). pose proof (b_height t Hok).
  case_decide as Eo.
  { apply wp_ret. split; [done|]. split; [done|]. intros q Hq. split; [|done]. intros _.
    injection Eo as Ex Ey. f_equal. destruct q. unfold unshift. cbn. f_equal; lia. }
  assert (off ≠ mkCOORD 0 0) as Hne.
  { intros ->. apply Eo. cbn in *. unfold Origin. f_equal; lia. }
  wp_step. apply wp_gets. rewrite (Dimensions_ok _ (size_ok t Hok)), (Dimensions_ok _ Hs).
  rewrite (Width_ok _ Hs), (Height_ok _ Hs). cbn [X Y Origin]. fold (t_width t).
  destruct (decide (full_rows t source off)) as [Hf|Hf].
  - pose proof Hf as [Hw HX0]. assert (Left source = 0) by (unfold columns in Hw; lia).
    rewrite Hw, Z.eqb_refl, (proj2 (Z.eqb_eq (Left source) 0)), (proj2 (Z.eqb_eq (Left target) 0)) by lia.
    cbn [andb]. replace (Top target - Top source) with (Y off) by lia.
    rewrite (proj2 (Z.leb_le _ _)), (proj2 (Z.leb_le _ _)) by (unfold vp_ok in *; lia). cbn [andb].
    by apply rotate_rows_ok.
  - destruct Hfit as [|Hfit]; [done|].
    replace ((columns source =? t_width t) && ((Left source =? 0) && (Left target =? 0))) with false.
    2:{ symmetry. rewrite !andb_false_iff, !Z.eqb_neq. unfold full_rows in Hf. lia. }
    replace (mkCOORD (columns source) (rows source)) with (mkCOORD (columns target) (rows target)).
    2:{ unfold columns, rows. f_equal; lia. }
    change (mkCOORD (Left target) (Top target)) with (Origin target). rewrite (FromDimensions_ok _ Ht).
    rewrite (GetWalkOrigin_pos source Hs), (GetWalkOrigin_pos target Ht). pose proof (area_pos source Hs).
    eapply wp_mono; [apply (copy_loop_ok d t source target off); try done; unfold area in *; try lia|].
    + split; [done|]. split; [done|]. intros q Hq. rewrite decide_False; [done|]. intros [Hin Hlt].
      pose proof (walk_index_range target (DetermineWalkDirection source target) q Hin). lia.
    + intros [] t' (Hok' & Hsz & Hc). split; [done|]. split; [done|]. intros q Hq. rewrite (Hc q Hq).
      split; intros Hin; [|intros _]; [|by rewrite decide_False by tauto].
      rewrite decide_True; [done|]. split; [done|].
      pose proof (walk_index_range target (DetermineWalkDirection source target) q Hin).
      rewrite (moved_area source target off Hoff) in *. lia.
Qed.
End copy_rectangle.

(** ** Filling *)

(** What the write of a line changes. *)
Lemma cell_at_line t t' b wrap final p vs l :
  buffer_ok t → inside (_size t) p → screen t !! Z.to_nat (Y p) = Some l → b = Stored →
  X p + Z.of_nat (length vs) <= t_width t →
  screen t' = <[Z.to_nat (Y p) := write_line b wrap final (Z.to_nat (X p)) vs l]> (screen t) →
  ∀ q, inside (_size t) q →
    cell_at t' q = if decide (Y q = Y p ∧ X p <= X q < X p + Z.of_nat (length vs))
                   then view_cell <$> (vs !! Z.to_nat (X q - X p)) else cell_at t q.
Proof.
  intros Hok Hp Hl -> Hle Hs q Hq. apply (inside_size t Hok) in Hp as [HX HY], Hq as [HX' HY'].
  destruct (row_at t Hok (Y p) HY) as (r & _ & Hr & Hs' & Hid & Hw & Hrow).
  rewrite Hl in Hs'. simplify_eq. pose proof (length_attrs _ _ Hrow) as Hla.
  pose proof (length_shown r (_unicodeStorage t)) as Hls. rewrite (ok_chars _ _ Hrow) in Hls. rewrite Hw in *.
  unfold cell_at. rewrite Hs. destruct (decide (Y q = Y p)) as [EY|EY].
  - rewrite EY, list_lookup_insert_eq by (rewrite length_screen; unfold TotalRowCount in *; lia).
    cbn [mbind option_bind write_line l_cells l_attrs line_of]. unfold written, colored.
    rewrite !decide_False by done.
    rewrite !lookup_splice by (rewrite length_fmap, ?Hls, ?Hla; lia). rewrite !length_fmap.
    rewrite Hl. cbn [mbind option_bind line_of l_cells l_attrs].
    destruct (decide (X p <= X q < X p + Z.of_nat (length vs))) as [Hin|Hout].
    + rewrite !decide_True by lia.
      rewrite !list_lookup_fmap. replace (Z.to_nat (X q) - Z.to_nat (X p))%nat with (Z.to_nat (X q - X p)) by lia.
      by destruct (vs !! _).
    + rewrite !decide_False by lia. done.
  - rewrite list_lookup_insert_ne by lia. rewrite decide_False; [done|]. by intros [? _].
Qed.

Section fill.
Context `{GlyphWidth} (d : LegacyDefaults).
Context (c : Z) (attr : TextAttribute) (Hnarrow : IsGlyphFullWidth [c] = false).

Definition fill_view : OutputCellView := mkView [c] (mkDbcs Single false) attr Stored.

(** The endless iterator over one narrow cell. *)
Definition fill_at (n : Z) : OutputCellIterator := mkIter Fill InvalidTextAttribute fill_view 0 n 0.

Lemma Iter_fill_at : Iter_fill c attr 0 = fill_at 0.
Proof using Hnarrow. unfold Iter_fill, s_GenerateView_wchar_attr. by rewrite Hnarrow. Qed.

Lemma yields_fill n k :
  0 <= k → k + Z.of_nat n < 2 ^ 63 →
  yields d (fill_at k) (replicate n fill_view) (fill_at (k + Z.of_nat n)).
Proof.
  revert k. induction n as [|n IH]; intros k Hk Hn; cbn [replicate].
  { rewrite Z.add_0_r. apply yields_nil. }
  eapply (yields_cons d (fill_at k) (fill_at (k + 1))); [done| |].
  - unfold Iter_next. cbn. by rewrite wrapu_small by lia.
  - replace (k + Z.of_nat (S n)) with (k + 1 + Z.of_nat n) by lia. apply IH; lia.
Qed.

(** The cells of a set show the fill, the others what they did. *)
Definition filled (P : COORD → Prop) (t0 t : TextBuffer) : Prop :=
  buffer_ok t ∧ _size t = _size t0
  ∧ ∀ q, inside (_size t0) q →
      (P q → cell_at t q = Some (view_cell fill_view)) ∧ (¬ P q → cell_at t q = cell_at t0 q).

Lemma filled_trans P Q t0 t1 t2 :
  (∀ q, Decision (Q q)) → filled P t0 t1 → filled Q t1 t2 → filled (λ q, P q ∨ Q q) t0 t2.
Proof.
  intros HD (_ & Hz1 & H1) (Hb2 & Hz2 & H2). split; [done|]. split; [congruence|]. intros q Hq.
  destruct (H1 q Hq) as [H1a H1b]. destruct (H2 q) as [H2a H2b]; [by rewrite Hz1|].
  split; [intros [HP|HQ]|intros Hn]; [destruct (decide (Q q)) as [|Hno]| |].
  - by apply H2a.
  - rewrite (H2b Hno). by apply H1a.
  - by apply H2a.
  - rewrite H2b, H1b; [done|tauto..].
Qed.

Lemma filled_ext P Q t0 t : (∀ q, P q ↔ Q q) → filled P t0 t → filled Q t0 t.
Proof. intros HPQ (Hb & Hz & Hc). split; [done|]. split; [done|]. intros q Hq. rewrite <-!HPQ. by apply Hc. Qed.

Section rect.
Context (view : Viewport) (Hv : vp_ok view).

Lemma write_rect_rows_ok n i k t :
  buffer_ok t → (∀ p, inside view p → inside (_size t) p) →
  Top view <= i → i + Z.of_nat n = BottomInclusive view + 1 → 0 <= k →
  k + columns view * Z.of_nat n < 2 ^ 62 →
  wp (write_rect_rows d n view (fill_at k) i)
    (λ _ t', filled (λ q, inside view q ∧ i <= Y q) t t') t.
Proof using Hv.
  revert i k t. induction n as [|n IH]; intros i k t Hok Hin Hi Hn Hk Hdist; cbn [write_rect_rows].
  - apply wp_ret. split; [done|]. split; [done|]. intros q _. split; [|done]. unfold inside. lia.
  - pose proof (edges t Hok view Hv Hin) as (E1 & E2 & E3 & E4). pose proof Hv as (V1 & V2 & V3 & V4 & V5 & V6).
    set (m := Z.to_nat (columns view)). assert (Z.of_nat m = columns view) as Em by (unfold m, columns; lia).
    pose proof (columns_pos view Hv).
    wp_step. eapply (WriteLine_ok d t Stored (fill_at k) (replicate m fill_view) (fill_at (k + Z.of_nat m))
      (mkCOORD (Left view) i) (Some false) (Some (RightInclusive view))); cbn [X Y default id]; rewrite ?length_replicate, ?Em; [done| | |..].
    + apply Hin. unfold inside. cbn. lia.
    + unfold columns in *. lia.
    + rewrite <-Em. apply yields_fill; [done|]. nia.
    + intros j v Hj. apply lookup_replicate in Hj as [-> _]. split; [done|]. intros _. done.
    + unfold columns in *. lia.
    + right. unfold columns. lia.
    + cbn. nia.
    + intros t' l Hok' Hl Hsc Hrest. assert (_size t' = _size t) as Hsz by by injection Hrest.
      assert (filled (λ q, inside view q ∧ Y q = i) t t') as Hrow.
      { split; [done|]. split; [done|]. intros q Hq.
        pose proof (cell_at_line t t' Stored (Some false) (RightInclusive view) (mkCOORD (Left view) i)
          (replicate m fill_view) l Hok) as Hcl. cbn [X Y] in Hcl. rewrite !length_replicate, Em in Hcl.
        rewrite Hcl; [|apply Hin; unfold inside; cbn; lia|done|done|unfold columns in *; lia|done|done].
        unfold inside, columns in *. split; intros HP.
        - rewrite decide_True by lia. rewrite lookup_replicate_2 by lia. done.
        - rewrite decide_False by lia. done. }
      eapply wp_mono; [apply (IH (i + 1)); [done|by rewrite Hsz|lia|lia|lia|nia]|].
      intros it2 t2 Ht2. eapply filled_ext; [|eapply filled_trans; [|exact Hrow|exact Ht2]]; cbv beta; [|intros; apply _].
      intros q. unfold inside. lia.
Qed.

Lemma WriteRect_ok t :
  buffer_ok t → (∀ p, inside view p → inside (_size t) p) →
  wp (WriteRect d (Iter_fill c attr 0) view) (λ _ t', filled (inside view) t t') t.
Proof using Hv Hnarrow.
  intros Hok Hin. unfold WriteRect. rewrite Iter_fill_at, (Height_ok _ Hv), (Width_ok _ Hv).
  pose proof (rows_pos view Hv). pose proof (columns_pos view Hv).
  rewrite !(proj2 (Z.leb_gt _ _)) by lia. rewrite (BottomExclusive_ok view Hv).
  pose proof Hv as (V1 & V2 & V3 & V4 & V5 & V6).
  eapply wp_mono; [apply write_rect_rows_ok; try done; try lia|].
  - unfold columns. rewrite Z2Nat.id by lia. nia.
  - intros it' t' Hf. eapply filled_ext; [|exact Hf]. intros q. unfold inside. lia.
Qed.
End rect.
End fill.

(** ** Resetting renditions and filling several rectangles *)

Section fill_all.
Context `{GlyphWidth} (d : LegacyDefaults).
Context (c : Z) (attr : TextAttribute) (Hnarrow : IsGlyphFullWidth [c] = false).

Lemma reset_renditions_ok n row t :
  buffer_ok t → 0 <= row → row + Z.of_nat n <= TotalRowCount t →
  wp (reset_renditions n row) (λ _ t', filled c attr (λ _, False) t t') t.
Proof.
  revert row t. induction n as [|n IH]; intros row t Hok Hr Hn; cbn [reset_renditions].
  { apply wp_ret. split; [done|]. split; [done|]. by intros q _. }
  destruct (row_at t Hok row ltac:(lia)) as (r & _ & Er & Hs & Hid & Hw & Hrow).
  wp_step. eapply on_row_ok; [done|lia|done|]. apply wp_modify. cbn [fst snd].
  split; [by destruct Hrow|]. do 3 (split; [done|]). intros t' Hok' Hsc Hrest.
  assert (_size t' = _size t) as Hsz by by injection Hrest.
  assert (filled c attr (λ _, False) t t') as H1.
  { split; [done|]. split; [done|]. intros q Hq. split; [done|]. intros _. unfold cell_at. rewrite Hsc.
    apply (inside_size t Hok) in Hq as [_ HY]. destruct (decide (Y q = row)) as [<-|Hne].
    - rewrite list_lookup_insert_eq by (rewrite length_screen; unfold TotalRowCount in *; lia). by rewrite Hs.
    - by rewrite list_lookup_insert_ne by lia. }
  assert (TotalRowCount t' = TotalRowCount t) as Et.
  { rewrite <-(Height_size t' Hok'), <-(Height_size t Hok). by rewrite Hsz. }
  eapply wp_mono; [apply IH; [done|lia|lia]|]. intros [] t2 H2.
  eapply filled_ext; [|eapply filled_trans; [|exact H1|exact H2]]; cbv beta; [tauto|intros; apply _].
Qed.

Lemma fill_one_ok view buffer dest t :
  buffer_ok t → vp_ok view → (∀ p, inside view p → inside (_size t) p) →
  wp (fill_one d (Iter_fill c attr 0) buffer dest view) (λ _ t', filled c attr (inside view) t t') t.
Proof using Hnarrow.
  intros Hok Hv Hin. unfold fill_one. wp_step.
  eapply wp_mono; [by apply WriteRect_ok|]. intros it t1 H1. destruct (_ && _); [|by apply wp_ret].
  pose proof H1 as (Hok1 & Hsz1 & _).
  assert (∀ p, inside view p → inside (_size t1) p) as Hin1 by by rewrite Hsz1.
  pose proof (edges t1 Hok1 view Hv Hin1) as (E1 & E2 & E3 & E4). pose proof Hv as (V1 & V2 & V3 & V4 & V5 & V6).
  unfold ResetLineRenditionRange. rewrite (BottomExclusive_ok view Hv).
  eapply wp_mono; [apply reset_renditions_ok; [done|lia|lia]|]. intros [] t2 H2.
  eapply filled_ext; [|eapply filled_trans; [|exact H1|exact H2]]; cbv beta; [tauto|intros; apply _].
Qed.

Lemma fill_all_ok views buffer dest t :
  buffer_ok t → Forall vp_ok views → (∀ p, covers views p → inside (_size t) p) →
  wp (fill_all d (Iter_fill c attr 0) buffer dest views) (λ _ t', filled c attr (covers views) t t') t.
Proof using Hnarrow.
  intros Hok Hvs. revert t Hok. induction Hvs as [|v vs Hv _ IH]; intros t Hok Hin; cbn [fill_all].
  { apply wp_ret. split; [done|]. split; [done|]. intros q _. split; [|done]. unfold covers.
    by rewrite Exists_nil. }
  wp_step. eapply wp_mono; [apply fill_one_ok; [done|done|]|].
  { intros p Hp. apply Hin. by left. }
  intros [] t1 H1. pose proof H1 as (Hok1 & Hsz1 & _).
  eapply wp_mono; [apply IH; [done|]|].
  { intros p Hp. rewrite Hsz1. apply Hin. by right. }
  intros [] t2 H2. eapply filled_ext; [|eapply filled_trans; [|exact H1|exact H2]]; cbv beta.
  - intros q. unfold covers. by rewrite Exists_cons.
  - intros q. unfold covers. apply _.
Qed.
End fill_all.

(** ** ScrollRegion *)

(** The rectangle moved by an offset. *)
Definition shift_viewport (off : COORD) (v : Viewport) : Viewport :=
  mkViewport (mkRect (Left v + X off) (Top v + Y off) (RightInclusive v + X off) (BottomInclusive v + Y off)).

Lemma shift_viewport_moved off v : moved_by off v (shift_viewport off v).
Proof. done. Qed.

(** The character and the attribute that the vacated cells get. *)
Definition fill_of (d : LegacyDefaults) (t : TextBuffer) (c : Z) (a : TextAttribute) : Z * TextAttribute :=
  if (c =? 0) && bool_decide (a = TextAttribute_of_legacy d 0) then (UNICODE_SPACE, _currentAttributes t)
  else (c, a).

Section region.
Context `{GlyphWidth} (d : LegacyDefaults).
Context (t : TextBuffer) (Hok : buffer_ok t) (rect : SMALL_RECT) (dest : COORD) (c : Z) (a : TextAttribute).

(** The part of the region that is in the buffer, and where it goes. *)
Let region : Viewport := meet (FromInclusive rect) (_size t).
Let off : COORD := unshift (mkCOORD (rLeft rect) (rTop rect)) dest.
Let goal : Viewport := shift_viewport off region.

Context (Hreg : fits region) (Harea : has_area region) (Hgoal : vp_ok goal) (Hmeet : fits (meet (_size t) goal)).
Context (Hnarrow : IsGlyphFullWidth [(fill_of d t c a).1] = false).
Context (Hcut : ∀ p g k b, inside region p → inside (_size t) (shift off p) →
                cell_at t p = Some (g, k, b) → fits_at t (X p + X off) k).
Context (Hrows : full_rows t region off → Z.abs (Y off) <= rows region).

Lemma region_ok : vp_ok region.
Proof using Hok Hreg Harea Hgoal.
  pose proof (size_ok t Hok) as Hs. pose proof (b_size t Hok) as Eb. unfold region, meet, has_area, columns, rows, fits, vp_ok in *.
  vp_unfold. lia.
Qed.

Lemma region_inside p : inside region p → inside (_size t) p.
Proof. unfold region. rewrite inside_meet. tauto. Qed.

Lemma goal_origin : moved dest (mkCOORD (rLeft rect) (rTop rect)) (Origin region) = Origin goal.
Proof using Hgoal.
  unfold moved, goal, shift_viewport, off, unshift, Origin, Left, Top in *. cbn [X Y _sr rLeft rTop].
  unfold vp_ok, goal, shift_viewport, off, unshift, Left, Top in Hgoal. cbn [X Y _sr rLeft rTop rRight rBottom] in Hgoal.
  rewrite !i16_small; [|unfold Left, Top in *; lia..]. f_equal; lia.
Qed.

(** The part of the goal that is in the buffer. *)
Let target : Viewport := meet (_size t) goal.
Let source : Viewport := shift_viewport (mkCOORD (- X off) (- Y off)) target.

Lemma target_ok : has_area target → vp_ok target ∧ vp_ok source ∧ moved_by off source target
  ∧ (∀ p, inside target p → inside (_size t) p) ∧ (∀ p, inside source p → inside region p)
  ∧ (∀ q, inside target q ↔ inside (_size t) q ∧ inside region (unshift off q)).
Proof using Hok Hreg Harea Hgoal.
  intros Ha. pose proof region_ok as Hr. pose proof (size_ok t Hok) as Hs. split_and!.
  - unfold target, meet, has_area, columns, rows, vp_ok in *. vp_unfold. lia.
  - unfold source, shift_viewport, target, goal, shift_viewport, meet, has_area, columns, rows, vp_ok in *.
    cbn [X Y] in *. vp_unfold. lia.
  - unfold source, shift_viewport, moved_by. cbn [X Y]. vp_unfold. lia.
  - intros p. unfold target. rewrite inside_meet. tauto.
  - intros p. unfold source, target, goal, shift_viewport, meet, inside. cbn [X Y]. vp_unfold. lia.
  - intros q. unfold target. rewrite inside_meet. unfold goal, shift_viewport, unshift, inside. cbn [X Y].
    vp_unfold. lia.
Qed.

Lemma source_part : has_area target →
  FromDimensions (moved (Origin region) (Origin goal) (Origin target)) (Dimensions target) = source.
Proof using Hok Hreg Harea Hgoal.
  intros Ha. destruct (target_ok Ha) as (Ht & Hs & (H1 & H2 & H3 & H4) & _).
  rewrite (Dimensions_ok _ Ht), <-(FromDimensions_ok _ Hs). unfold vp_ok in Hs.
  assert (Left goal = Left region + X off ∧ Top goal = Top region + Y off) as [E1 E2] by done.
  f_equal; unfold moved, Origin, columns, rows; cbn [X Y]; f_equal; rewrite ?i16_small; lia.
Qed.

Lemma Intersect_sub v w :
  vp_ok v → vp_ok w → Left v <= Left w → RightInclusive w <= RightInclusive v → Top v <= Top w →
  BottomInclusive w <= BottomInclusive v → Intersect v w = w.
Proof.
  intros Hv Hw H1 H2 H3 H4.
  assert (meet v w = w) as E.
  { destruct w as [[l tp r b]]. unfold meet. vp_unfold. do 2 f_equal; lia. }
  rewrite Intersect_meet; rewrite E; [|by apply vp_ok_fits].
  rewrite decide_True; [done|]. split; [by apply columns_pos|by apply rows_pos].
Qed.

(** Passed-over rows belong to the region, and are filled. *)
Lemma passed_region q : has_area target → inside (_size t) q → passed t source off q → inside region q.
Proof using Hok Hreg Harea Hgoal Hrows Hmeet Hcut.
  intros Ha Hq [[Hw HX] Hp]. destruct (target_ok Ha) as (Ht & Hs & (H1 & H2 & H3 & H4) & _).
  pose proof (b_size t Hok) as Eb.
  assert (full_rows t region off) as Hfull.
  { split; [|done]. pose proof region_ok as Hr. unfold source, target, goal, shift_viewport, meet, columns, vp_ok, t_width in *.
    cbn [X Y] in *. unfold region, meet in *. vp_unfold. lia. }
  specialize (Hrows Hfull). destruct Hfull as [Hw2 _].
  apply (inside_size t Hok) in Hq as [Hq1 Hq2].
  unfold source, target, goal, shift_viewport, meet, region, rows, columns, inside, t_width in *.
  cbn [X Y] in *. unfold meet in *. rewrite Eb in *. vp_unfold. lia.
Qed.

(** What is filled: the region, apart from what the moved cells cover. *)
Lemma vacated target' :
  (target' = target ∧ has_area target ∨ target' = Viewport_Empty ∧ ¬ has_area target) →
  (∀ p, covers (Subtract region target') p ↔ inside region p ∧ ¬ inside target p)
  ∧ Forall vp_ok (Subtract region target').
Proof using Hok Hreg Harea Hgoal.
  intros Ht. pose proof region_ok as Hr.
  assert (fits (meet region target')) as Hf.
  { pose proof (edges t Hok region Hr region_inside) as (E1 & E2 & E3 & E4).
    pose proof (b_width t Hok). pose proof (b_height t Hok).
    destruct Ht as [[-> Ha]|[-> _]].
    - destruct (target_ok Ha) as (Ht & _ & _ & Hin & _). pose proof (edges t Hok target Ht Hin) as (F1 & F2 & F3 & F4).
      clear Hgoal Hreg Hok. unfold fits, vp_ok, columns, rows in *. revert E1 E2 E3 E4 F1 F2 F3 F4 Hr Ht.
      generalize region target. intros v w. unfold meet. vp_unfold. lia.
    - clear Hgoal Hreg Hok. unfold fits, vp_ok, columns, rows in *. revert E1 E2 E3 E4 Hr.
      generalize region. intros v. unfold meet, Viewport_Empty. vp_unfold. lia. }
  destruct (Subtract_ok region target' Hr Hf) as (Hc & _ & Hv & _). split; [|done].
  intros p. rewrite Hc. destruct Ht as [[-> _]|[-> Ha]]; [done|].
  split; intros [Hp _]; (split; [done|]).
  - intros Hin. apply Ha. by eapply inside_area.
  - apply not_inside_empty.
Qed.

(** The screen after the scroll. *)
Definition scrolled_cell (q : COORD) : option (wstring * DbcsKind * TextAttribute) :=
  if decide (inside region (unshift off q)) then cell_at t (unshift off q)
  else if decide (inside region q) then Some ([(fill_of d t c a).1], Single, (fill_of d t c a).2)
  else cell_at t q.

Definition scrolled (t' : TextBuffer) : Prop :=
  buffer_ok t' ∧ _size t' = _size t ∧ ∀ q, inside (_size t) q → cell_at t' q = scrolled_cell q.

(** Moving and filling compose. *)
Lemma move_and_fill target' t1 t2 :
  (target' = target ∧ has_area target ∧ copy_post t source target off t1
   ∨ target' = Viewport_Empty ∧ ¬ has_area target ∧ t1 = t) →
  filled (fill_of d t c a).1 (fill_of d t c a).2 (covers (Subtract region target')) t1 t2 → scrolled t2.
Proof using Hok Hreg Harea Hgoal Hrows Hmeet Hcut.
  intros Ht (Hok2 & Hsz2 & Hc2).
  destruct (vacated target') as [Hcov _]; [naive_solver|].
  assert (_size t1 = _size t) as Hsz1 by (destruct Ht as [(_ & _ & _ & ? & _)|(_ & _ & ->)]; done).
  split; [done|]. split; [congruence|]. intros q Hq. rewrite Hsz1 in Hc2.
  destruct (Hc2 q Hq) as [Hin Hout]. rewrite Hcov in Hin, Hout. unfold scrolled_cell.
  destruct Ht as [(-> & Ha & _ & _ & Hc1)|(-> & Ha & ->)].
  - destruct (target_ok Ha) as (_ & _ & _ & _ & _ & Hiff). specialize (Hiff q). destruct (Hc1 q Hq) as [Hmv Hst].
    case_decide as E1; [rewrite Hout by tauto; apply Hmv; tauto|].
    case_decide as E2; [apply Hin; tauto|].
    rewrite Hout by tauto. apply Hst; [tauto|]. intros Hp. by apply E2, passed_region.
  - assert (∀ p, ¬ inside target p) as Hno by (intros p Hp; apply Ha; by eapply inside_area).
    rewrite decide_False.
    2:{ intros Hu. apply (Hno q). unfold target, goal, shift_viewport. rewrite inside_meet. split; [done|].
        unfold inside, unshift in *. cbn [X Y] in *. vp_unfold. lia. }
    case_decide; [apply Hin|apply Hout]; naive_solver.
Qed.

Lemma ScrollRegion_ok :
  wp (ScrollRegion d rect None dest c a) (λ _ t', scrolled t') t.
Proof using Hok Hreg Harea Hgoal Hrows Hmeet Hcut Hnarrow.
  unfold ScrollRegion. pose proof region_ok as Hr. pose proof (size_ok t Hok) as Hs.
  wp_step. apply wp_gets. rewrite (Intersect_meet _ _ Hreg). rewrite (decide_True (P := _ ∧ _)) by done. fold region.
  rewrite (IsValid_ok _ Hr). cbn [negb default].
  replace (FromInclusive (ToInclusive (_size t))) with (_size t) by by destruct (_size t) as [[]].
  rewrite (Intersect_sub (_size t) (_size t)) by (done || lia).
  rewrite (Intersect_sub (_size t) region) by
    (done || (unfold region, meet; vp_unfold; lia)).
  rewrite (IsValid_ok _ Hr). cbn [negb]. wp_step. apply wp_gets.
  replace (if _ && _ then _ else _) with (Iter_fill (fill_of d t c a).1 (fill_of d t c a).2 0).
  2:{ unfold fill_of. by destruct (_ && _). }
  change (Origin (FromInclusive rect)) with (mkCOORD (rLeft rect) (rTop rect)). rewrite goal_origin.
  rewrite (Dimensions_ok _ Hr). replace (mkCOORD (columns region) (rows region)) with (mkCOORD (columns goal) (rows goal)).
  2:{ unfold goal, shift_viewport, columns, rows. vp_unfold. f_equal; lia. }
  rewrite (FromDimensions_ok _ Hgoal), (Intersect_meet _ _ Hmeet). fold target.
  destruct (decide (0 < columns target ∧ 0 < rows target)) as [Ha|Ha].
  - change (has_area target) in Ha. destruct (target_ok Ha) as (Ht & Hso & Hmv & Hti & Hsi & Hiff).
    rewrite (IsValid_ok _ Ht), (source_part Ha). wp_step.
    eapply wp_mono; [eapply (CopyRectangle_ok d t Hok source target off); try done|].
    { intros p Hp. by apply region_inside, Hsi. }
    { right. intros p g k b Hp. apply Hcut; [by apply Hsi|]. apply Hti.
      apply (inside_moved source target off Hmv). by rewrite unshift_shift. }
    intros [] t1 H1. pose proof H1 as (Hok1 & Hsz1 & _).
    destruct (vacated target) as [Hcov Hvp]; [by left|].
    eapply wp_mono; [apply fill_all_ok; [done|done|done|]|].
    { intros p [Hp _]%Hcov. rewrite Hsz1. by apply region_inside. }
    intros [] t2 H2. eapply move_and_fill; [|exact H2]. by left.
  - change (¬ has_area target) in Ha. wp_step. change (IsValid Viewport_Empty) with false. apply wp_ret.
    destruct (vacated Viewport_Empty) as [Hcov Hvp]; [by right|].
    eapply wp_mono; [apply fill_all_ok; [done|done|done|]|].
    { intros p [Hp _]%Hcov. by apply region_inside. }
    intros [] t2 H2. eapply move_and_fill; [|exact H2]. by right.
Qed.
End region.


#[local] Existing Instance sample_width.

(** Every cell of a sample buffer fits everywhere. *)
Definition narrow_buffer (t : TextBuffer) : bool :=
  forallb (λ l, forallb (λ c, bool_decide (c.2 = Single)) (l_cells l)) (screen t).

Lemma narrow_fits t p g k b x : narrow_buffer t = true → cell_at t p = Some (g, k, b) → fits_at t x k.
Proof.
  unfold narrow_buffer, cell_at. rewrite forallb_forall. intros Hall Hc.
  destruct (screen t !! _) as [l|] eqn:El; [|done]. cbn in Hc.
  destruct (l_cells l !! _) as [[g' k']|] eqn:Ec; [|done]. cbn in Hc.
  destruct (l_attrs l !! _); [|done]. cbn in Hc. simplify_eq.
  specialize (Hall l). rewrite forallb_forall in Hall.
  assert (k = Single) as ->.
  { apply (bool_decide_unpack _), Is_true_true, (Hall ltac:(apply list_elem_of_In; by eapply list_elem_of_lookup_2) (g, k)).
    apply list_elem_of_In. by eapply list_elem_of_lookup_2. }
  by split.
Qed.


(** Full rows are moved by rotating the vector of rows.  When they move by more
    than their height, the rows between the source and the target, which are in
    neither of them, change places as well. *)
Lemma far_scroll_moves_rows_between :
  letters (sample_buffer 1 8) = [[65]; [66]; [67]; [68]; [69]; [70]; [71]; [72]]
  ∧ wp (ScrollRegion LegacyDefaults_init (mkRect 0 0 0 1) None (mkCOORD 0 5) 46 TextAttribute_default)
      (λ _ t', letters t' = [[46]; [46]; [69]; [70]; [71]; [65]; [66]; [72]]) (sample_buffer 1 8).
Proof. split; vm_compute; reflexivity. Qed.

(** The same rotation changes rows outside of the clip rectangle. *)
Lemma clipped_scroll_leaves_clip :
  wp (ScrollRegion LegacyDefaults_init (mkRect 0 0 0 5) (Some (mkRect 0 5 0 9)) (mkCOORD 0 5) 46
        TextAttribute_default)
    (λ _ t', take 5 (letters t') ≠ take 5 (letters (sample_buffer 1 10))) (sample_buffer 1 10).
Proof. vm_compute. discriminate. Qed.
