(* ===== verification/Utf8.v ===== *)
(** The conversion between UTF-8 and UTF-16 of [src/src/inc/til/u8u16convert.h], through which the
    terminal reads what an application writes.

    Bytes and code units are numbers.  [u8state] and [u16state] keep the code units of a code
    point that was cut at the end of a string; the buffer of the class is rebuilt in every call
    and is a local variable here.  The system's [MultiByteToWideChar] and [WideCharToMultiByte]
    are parameters: [None] is a failure, for which they return 0.  That memory runs out is not
    modelled. *)

From S2P Require Import Prelude.

Module Utf8.

Inductive HRESULT := S_OK | S_FALSE | E_ABORT | E_UNEXPECTED.

Definition FAILED (hr : HRESULT) : bool := match hr with E_ABORT | E_UNEXPECTED => true | _ => false end.

Definition IsAsciiByte : Z := 0x00.
Definition MaskAsciiByte : Z := 0x80.
Definition IsContinuationByte : Z := 0x80.
Definition MaskContinuationByte : Z := 0xC0.
Definition IsLeadByteTwoByteSequence : Z := 0xC0.
Definition MaskLeadByteTwoByteSequence : Z := 0xE0.
Definition IsLeadByteThreeByteSequence : Z := 0xE0.
Definition MaskLeadByteThreeByteSequence : Z := 0xF0.

Definition _cmpMasks (i : nat) : Z :=
  nth i [0; MaskContinuationByte; MaskLeadByteTwoByteSequence; MaskLeadByteThreeByteSequence] 0.
Definition _cmpOperands (i : nat) : Z :=
  nth i [0; IsAsciiByte; IsLeadByteTwoByteSequence; IsLeadByteThreeByteSequence] 0.

(** The members that last: [_utfPartials] and [_partialsLen]. *)
Record u8u16state := mkState { _utfPartials : list Z; _partialsLen : nat }.

Definition u8u16state_init : u8u16state := mkState [0; 0; 0; 0] 0.
Definition cached (st : u8u16state) : list Z := take (_partialsLen st) (_utfPartials st).

(** [std::move(backIter, _buffer.end(), _utfPartials.begin())]. *)
Definition store_partials (units : list Z) (st : u8u16state) : u8u16state :=
  mkState (units ++ drop (length units) (_utfPartials st)) (length units).

Definition reset (st : u8u16state) : u8u16state := mkState (_utfPartials st) 0.

(** The loop over the last bytes: how many of them are a partial code point. *)
Fixpoint partial_loop (buffer : list Z) (stopLen sequenceLen : nat) (fuel : nat) : nat :=
  match fuel with
  | O => 0
  | S fuel =>
      if (sequenceLen <=? stopLen)%nat then
        let b := nth (length buffer - sequenceLen) buffer 0 in
        if IsContinuationByte <? Z.land b MaskContinuationByte then
          if negb (Z.land b (_cmpMasks sequenceLen) =? _cmpOperands sequenceLen) then sequenceLen else 0
        else partial_loop buffer stopLen (S sequenceLen) fuel
      else 0
  end.

Definition partial_length (buffer : list Z) : nat :=
  if IsAsciiByte <? Z.land (List.last buffer 0) MaskAsciiByte then
    partial_loop buffer (Nat.min (length buffer) 3) 1 3
  else 0.

(** [u8state::operator()]. *)
Definition u8state_call (str : list Z) (st : u8u16state) : HRESULT * list Z * u8u16state :=
  if 2 ^ 64 <=? Z.of_nat (length str + _partialsLen st) then (E_ABORT, [], st) else
  let buffer := cached st in
  let st := reset st in
  if (length str =? 0)%nat then
    (if (length buffer =? 0)%nat then S_OK else S_FALSE, buffer, st)
  else
    let buffer := buffer ++ str in
    let n := partial_length buffer in
    let remainingLength := (length buffer - n)%nat in
    (S_OK, take remainingLength buffer,
     if (n =? 0)%nat then st else store_partials (drop remainingLength buffer) st).

(** [u16state::operator()]. *)
Definition is_high_surrogate (c : Z) : bool := (0xD800 <=? c) && (c <=? 0xDBFF).

Definition u16state_call (str : list Z) (st : u8u16state) : HRESULT * list Z * u8u16state :=
  if 2 ^ 64 <=? Z.of_nat (length str + _partialsLen st) then (E_ABORT, [], st) else
  let buffer := if negb (_partialsLen st =? 0)%nat then take 1 (_utfPartials st) else [] in
  let st := reset st in
  if (length str =? 0)%nat then
    (if (length buffer =? 0)%nat then S_OK else S_FALSE, buffer, st)
  else if is_high_surrogate (List.last str 0) then
    (S_OK, buffer ++ take (length str - 1) str, store_partials [List.last str 0] st)
  else (S_OK, buffer ++ str, st).

Section Convert.
Context (MultiByteToWideChar WideCharToMultiByte : list Z → option (list Z)).

Definition INT_MAX : Z := 2 ^ 31 - 1.

(** [u8u16]: the result and the string written. *)
Definition u8u16 (str : list Z) : HRESULT * list Z :=
  if (length str =? 0)%nat then (S_OK, [])
  else if INT_MAX <? Z.of_nat (length str) then (E_ABORT, [])
  else let out := default [] (MultiByteToWideChar str) in
       (if (length out =? 0)%nat then E_UNEXPECTED else S_OK, out).

Definition u8u16_with_state (str : list Z) (st : u8u16state) : HRESULT * list Z * u8u16state :=
  let '(hr, sv, st) := u8state_call str st in
  if FAILED hr then (hr, [], st) else (u8u16 sv, st).

(** [u16u8]: room for three bytes for each code unit must be an [int]. *)
Definition u16u8 (str : list Z) : HRESULT * list Z :=
  if (length str =? 0)%nat then (S_OK, [])
  else if INT_MAX <? Z.of_nat (length str) * 3 then (E_ABORT, [])
  else let out := default [] (WideCharToMultiByte str) in
       (if (length out =? 0)%nat then E_UNEXPECTED else S_OK, out).

Definition u16u8_with_state (str : list Z) (st : u8u16state) : HRESULT * list Z * u8u16state :=
  let '(hr, sv, st) := u16state_call str st in
  if FAILED hr then (hr, [], st) else (u16u8 sv, st).

(** A stream read string by string: the text that comes out, if no call fails. *)
Fixpoint u8u16_stream (strs : list (list Z)) (st : u8u16state) : option (list Z * u8u16state) :=
  match strs with
  | [] => Some ([], st)
  | s :: strs =>
      let '(hr, out, st) := u8u16_with_state s st in
      if FAILED hr then None
      else '(rest, st) ← u8u16_stream strs st; Some (out ++ rest, st)
  end.

Fixpoint u16u8_stream (strs : list (list Z)) (st : u8u16state) : option (list Z * u8u16state) :=
  match strs with
  | [] => Some ([], st)
  | s :: strs =>
      let '(hr, out, st) := u16u8_with_state s st in
      if FAILED hr then None
      else '(rest, st) ← u16u8_stream strs st; Some (out ++ rest, st)
  end.
End Convert.
End Utf8.
