(* ===== verification/Utf8Facts.v ===== *)
(** The conversion of a stream does not depend on where it is cut: what comes out is the
    conversion of the code points that have arrived whole, and the state holds the code units of
    the one that has begun. *)

From S2P Require Import Prelude Utf8.
Import Utf8.

(** ** Well-formed text *)

(** The byte sequences of UTF-8 (Unicode, table 3-7). *)
Definition cont (c : Z) : bool := (0x80 <=? c) && (c <=? 0xBF).

Definition valid_utf8 (s : list Z) : bool :=
  match s with
  | [a] => (0 <=? a) && (a <=? 0x7F)
  | [a; b] => (0xC2 <=? a) && (a <=? 0xDF) && cont b
  | [a; b; c] =>
      cont b && cont c && (0xE0 <=? a) && (a <=? 0xEF)
      && (if a =? 0xE0 then 0xA0 <=? b else if a =? 0xED then b <=? 0x9F else true)
  | [a; b; c; d] =>
      cont b && cont c && cont d && (0xF0 <=? a) && (a <=? 0xF4)
      && (if a =? 0xF0 then 0x90 <=? b else if a =? 0xF4 then b <=? 0x8F else true)
  | _ => false
  end.

(** The code unit sequences of UTF-16. *)
Definition is_low_surrogate (c : Z) : bool := (0xDC00 <=? c) && (c <=? 0xDFFF).

Definition valid_utf16 (s : list Z) : bool :=
  match s with
  | [a] => (0 <=? a) && (a <=? 0xFFFF) && negb (is_high_surrogate a) && negb (is_low_surrogate a)
  | [a; b] => is_high_surrogate a && is_low_surrogate b
  | _ => false
  end.

(** ** Cutting a list of sequences *)

(** [part] is a proper beginning of [s]. *)
Definition begins (part s : list Z) : Prop := ∃ r, r ≠ [] ∧ s = part ++ r.

Lemma cut_sequences (seqs : list (list Z)) : Forall (λ s, s ≠ []) seqs → ∀ buffer rest,
  buffer ++ rest = concat seqs →
  ∃ full todo part, seqs = full ++ todo ∧ buffer = concat full ++ part ∧ part ++ rest = concat todo
    ∧ (part = [] ∨ ∃ s t, todo = s :: t ∧ begins part s).
Proof.
  induction 1 as [|s seqs Hs _ IH]; intros buffer rest E; cbn in E.
  - apply app_nil in E as [-> ->]. exists [], [], []. by split_and!; [..|left].
  - destruct (decide (length buffer < length s)%nat) as [Hl|Hl].
    + exists [], (s :: seqs), buffer. split_and!; [done..|]. destruct buffer as [|c buffer]; [by left|right].
      exists s, seqs. split; [done|]. exists (drop (length (c :: buffer)) s). split.
      * intros E0. apply (f_equal length) in E0. rewrite length_drop in E0. cbn in *. lia.
      * rewrite <- (take_drop (length (c :: buffer)) s) at 1. f_equal.
        apply (f_equal (take (length (c :: buffer)))) in E. rewrite take_app_length in E.
        symmetry. etrans; [exact E|]. apply take_app_le. lia.
    + assert (buffer = s ++ drop (length s) buffer) as Eb.
      { rewrite <- (take_drop (length s) buffer) at 1. f_equal.
        apply (f_equal (take (length s))) in E. rewrite take_app_le, take_app_length in E by lia. done. }
      destruct (IH (drop (length s) buffer) rest) as (full & todo & part & -> & Eb' & Er & Hp).
      { rewrite Eb in E. rewrite <- app_assoc in E. by apply app_inv_head in E. }
      exists (s :: full), todo, part. split_and!; [done| |done|done]. cbn. by rewrite <- app_assoc, <- Eb'.
Qed.

(** ** UTF-8 *)

Lemma byte_facts b : 0 <= b < 256 →
  (IsAsciiByte <? Z.land b MaskAsciiByte) = (0x80 <=? b)
  ∧ (IsContinuationByte <? Z.land b MaskContinuationByte) = (0xC0 <=? b)
  ∧ (Z.land b MaskLeadByteTwoByteSequence =? IsLeadByteTwoByteSequence) = ((0xC0 <=? b) && (b <=? 0xDF))
  ∧ (Z.land b MaskLeadByteThreeByteSequence =? IsLeadByteThreeByteSequence) = ((0xE0 <=? b) && (b <=? 0xEF))
  ∧ ((0xC0 <=? b) = true → (Z.land b MaskContinuationByte =? IsAsciiByte) = false).
Proof.
  revert b. match goal with |- ∀ b, 0 <= b < 256 → @?P b => apply (forall_byte P) end. vm_compute. reflexivity.
Qed.

Lemma nth_tail (pre tail : list Z) k : (k <= length tail)%nat → (0 < k)%nat →
  nth (length (pre ++ tail) - k) (pre ++ tail) 0 = nth (length tail - k) tail 0.
Proof. intros. rewrite length_app, app_nth2 by lia. f_equal. lia. Qed.

(** One round of the loop. *)
Lemma partial_loop_S pre tail k fuel b : (0 < k <= length tail)%nat → (k <= 3)%nat →
  nth (length tail - k) tail 0 = b →
  partial_loop (pre ++ tail) (Nat.min (length (pre ++ tail)) 3) k (S fuel)
  = if IsContinuationByte <? Z.land b MaskContinuationByte then
      if negb (Z.land b (_cmpMasks k) =? _cmpOperands k) then k else 0%nat
    else partial_loop (pre ++ tail) (Nat.min (length (pre ++ tail)) 3) (S k) fuel.
Proof.
  intros Hk H3 Hb. cbn [partial_loop]. rewrite nth_tail, Hb by lia.
  destruct (Nat.leb_spec k (Nat.min (length (pre ++ tail)) 3)) as [|Hx]; [done|]. rewrite length_app in Hx. lia.
Qed.

Ltac byte_bounds :=
  repeat match goal with
  | H : (_ && _)%bool = true |- _ => apply andb_true_iff in H as [? ?]
  | H : cont _ = true |- _ => unfold cont in H
  | H : (_ <=? _) = true |- _ => apply Z.leb_le in H
  end.

Ltac byte_cases :=
  repeat match goal with
  | |- context [?a <=? ?b] => destruct (Z.leb_spec a b); [|try lia]; try lia
  end; cbn [andb negb].

Ltac conts :=
  repeat match goal with
  | |- Forall _ [] => apply Forall_nil_2
  | |- Forall _ (_ :: _) => apply Forall_cons_2
  end; unfold cont; byte_cases; done.

Lemma last_snoc (l : list Z) a d : List.last (l ++ [a]) d = a.
Proof. apply last_last. Qed.

Lemma partial_length_ascii pre a : 0 <= a <= 0x7F → partial_length (pre ++ [a]) = 0%nat.
Proof.
  intros Ha. unfold partial_length. rewrite last_snoc. destruct (byte_facts a ltac:(lia)) as [-> _].
  by destruct (Z.leb_spec 0x80 a); [lia|].
Qed.

(** The loop looks back over continuation bytes to a lead byte. *)
Lemma partial_length_lead pre a cs : 0xC0 <= a < 256 → Forall (λ c, cont c = true) cs → (length cs <= 2)%nat →
  partial_length (pre ++ a :: cs)
  = if negb (Z.land a (_cmpMasks (S (length cs))) =? _cmpOperands (S (length cs))) then S (length cs) else 0%nat.
Proof.
  intros Ha Hcs Hl. unfold partial_length.
  assert (∀ c, cont c = true → (IsAsciiByte <? Z.land c MaskAsciiByte) = true
    ∧ (IsContinuationByte <? Z.land c MaskContinuationByte) = false) as Hcont.
  { intros c Hc. byte_bounds. destruct (byte_facts c ltac:(lia)) as (-> & -> & _).
    by destruct (Z.leb_spec 0x80 c), (Z.leb_spec 0xC0 c); try lia. }
  destruct (byte_facts a ltac:(lia)) as (Ha1 & Ha2 & _).
  destruct (Z.leb_spec 0x80 a), (Z.leb_spec 0xC0 a); try lia.
  destruct cs as [|c1 [|c2 [|]]]; cbn in Hl; try lia.
  - rewrite last_snoc, Ha1. rewrite (partial_loop_S pre [a] 1 2 a) by (cbn; lia || done). by rewrite Ha2.
  - inversion_clear Hcs as [|? ? H1 _]. destruct (Hcont c1 H1) as [Hx Hy].
    change (pre ++ [a; c1]) with (pre ++ [a] ++ [c1]) at 1. rewrite app_assoc, last_snoc, Hx.
    rewrite (partial_loop_S pre [a; c1] 1 2 c1), Hy by (cbn; lia || done).
    rewrite (partial_loop_S pre [a; c1] 2 1 a), Ha2 by (cbn; lia || done). done.
  - inversion_clear Hcs as [|? ? H1 Hcs']. inversion_clear Hcs' as [|? ? H2 _].
    destruct (Hcont c1 H1) as [_ Hy1], (Hcont c2 H2) as [Hx Hy].
    change (pre ++ [a; c1; c2]) with (pre ++ [a; c1] ++ [c2]) at 1. rewrite app_assoc, last_snoc, Hx.
    rewrite (partial_loop_S pre [a; c1; c2] 1 2 c2), Hy by (cbn; lia || done).
    rewrite (partial_loop_S pre [a; c1; c2] 2 1 c1), Hy1 by (cbn; lia || done).
    rewrite (partial_loop_S pre [a; c1; c2] 3 0 a), Ha2 by (cbn; lia || done). done.
Qed.

(** Three continuation bytes end the search. *)
Lemma partial_length_four pre a b c d : cont b = true → cont c = true → cont d = true →
  partial_length (pre ++ [a; b; c; d]) = 0%nat.
Proof.
  intros Hb Hc Hd. unfold partial_length.
  assert (∀ c, cont c = true → (IsAsciiByte <? Z.land c MaskAsciiByte) = true
    ∧ (IsContinuationByte <? Z.land c MaskContinuationByte) = false) as Hcont.
  { intros e He. byte_bounds. destruct (byte_facts e ltac:(lia)) as (-> & -> & _).
    by destruct (Z.leb_spec 0x80 e), (Z.leb_spec 0xC0 e); try lia. }
  destruct (Hcont b Hb) as [_ Hy1], (Hcont c Hc) as [_ Hy2], (Hcont d Hd) as [Hx Hy].
  change (pre ++ [a; b; c; d]) with (pre ++ [a; b; c] ++ [d]) at 1. rewrite app_assoc, last_snoc, Hx.
  rewrite (partial_loop_S pre [a; b; c; d] 1 2 d), Hy by (cbn; lia || done).
  rewrite (partial_loop_S pre [a; b; c; d] 2 1 c), Hy2 by (cbn; lia || done).
  rewrite (partial_loop_S pre [a; b; c; d] 3 0 b), Hy1 by (cbn; lia || done). done.
Qed.

Lemma partial_length_whole pre s : valid_utf8 s = true → partial_length (pre ++ s) = 0%nat.
Proof.
  intros Hv. destruct s as [|a [|b [|c [|d [|]]]]]; cbn in Hv; try done; byte_bounds.
  - by apply partial_length_ascii.
  - rewrite partial_length_lead; [|lia|conts|cbn; lia].
    cbn [length]. destruct (byte_facts a ltac:(lia)) as (_ & _ & Hx & _).
    change (_cmpMasks 2) with MaskLeadByteTwoByteSequence. change (_cmpOperands 2) with IsLeadByteTwoByteSequence.
    rewrite Hx. by byte_cases.
  - rewrite partial_length_lead; [|lia|conts|cbn; lia].
    cbn [length]. destruct (byte_facts a ltac:(lia)) as (_ & _ & _ & Hx & _).
    change (_cmpMasks 3) with MaskLeadByteThreeByteSequence. change (_cmpOperands 3) with IsLeadByteThreeByteSequence.
    rewrite Hx. by byte_cases.
  - apply partial_length_four; unfold cont; by byte_cases.
Qed.

Lemma partial_length_part pre part s : valid_utf8 s = true → part ≠ [] → begins part s →
  partial_length (pre ++ part) = length part.
Proof.
  intros Hv Hne (r & Hr & ->).
  assert (∃ a cs, part = a :: cs ∧ 0xC0 <= a < 256 ∧ Forall (λ c, cont c = true) cs ∧ (length cs <= 2)%nat
    ∧ (length cs = 1%nat → 0xE0 <= a) ∧ (length cs = 2%nat → 0xF0 <= a)) as (a & cs & -> & Ha & Hcs & Hl & H1 & H2).
  { destruct part as [|a [|b [|c [|d [|]]]]], r as [|r0 [|r1 [|r2 [|]]]]; cbn in Hv; try done; byte_bounds;
      (eexists a, _; split; [reflexivity|]); (split; [lia|]);
      (split; [conts|]); cbn; lia. }
  rewrite partial_length_lead by done. destruct (byte_facts a ltac:(lia)) as (_ & _ & Hx2 & Hx3 & Hx1).
  destruct cs as [|c1 [|c2 [|]]]; cbn in Hl, H1, H2; try lia; cbn [length].
  - change (_cmpMasks 1) with MaskContinuationByte. change (_cmpOperands 1) with IsAsciiByte. rewrite Hx1; [done|]. apply Z.leb_le. lia.
  - change (_cmpMasks 2) with MaskLeadByteTwoByteSequence. change (_cmpOperands 2) with IsLeadByteTwoByteSequence.
    rewrite Hx2. by destruct (Z.leb_spec 0xC0 a), (Z.leb_spec a 0xDF); try lia.
  - change (_cmpMasks 3) with MaskLeadByteThreeByteSequence. change (_cmpOperands 3) with IsLeadByteThreeByteSequence.
    rewrite Hx3. by destruct (Z.leb_spec 0xE0 a), (Z.leb_spec a 0xEF); try lia.
Qed.

(** What a call of the state does to a buffer that ends in a partial sequence. *)
Lemma u8state_call_ok st str full part todo rest : Forall (λ s, valid_utf8 s = true) (full ++ todo) →
  str ≠ [] → Z.of_nat (length (cached st ++ str)) < 2 ^ 64 → (_partialsLen st <= length (_utfPartials st))%nat →
  cached st ++ str = concat full ++ part → part ++ rest = concat todo →
  (part = [] ∨ ∃ s t, todo = s :: t ∧ begins part s) →
  ∃ st', u8state_call str st = (S_OK, concat full, st') ∧ cached st' = part
    ∧ (_partialsLen st' <= length (_utfPartials st'))%nat.
Proof.
  intros Hv Hne Hlen Hcap Hb Hr Hp. unfold u8state_call. rewrite length_app in Hlen.
  assert (length (cached st) = _partialsLen st) as Hc by (unfold cached; rewrite length_take; lia).
  destruct (Z.leb_spec (2 ^ 64) (Z.of_nat (length str + _partialsLen st))); [lia|].
  destruct (Nat.eqb_spec (length str) 0) as [E|_]; [by destruct str|]. rewrite Hb.
  assert (partial_length (concat full ++ part) = length part) as ->.
  { destruct Hp as [->|(s & t & -> & Hbeg)].
    - rewrite app_nil_r. destruct full as [|s full] using rev_ind.
      + exfalso. cbn in Hb. apply app_nil in Hb as [_ ?]. done.
      + rewrite concat_app. cbn. rewrite app_nil_r. apply partial_length_whole.
        rewrite <- app_assoc in Hv. apply Forall_app in Hv as [_ [Hs _]%Forall_cons]. done.
    - destruct part as [|c part]; [|eapply partial_length_part; [|done|exact Hbeg]; by apply Forall_app in Hv as [_ [? _]%Forall_cons]].
      cbn [length]. rewrite app_nil_r. destruct full as [|s' full] using rev_ind.
      + exfalso. cbn in Hb. apply app_nil in Hb as [_ ?]. done.
      + rewrite concat_app. cbn. rewrite app_nil_r. apply partial_length_whole.
        rewrite <- app_assoc in Hv. apply Forall_app in Hv as [_ [Hs _]%Forall_cons]. done. }
  rewrite length_app. replace (length (concat full) + length part - length part)%nat with (length (concat full)) by lia.
  rewrite take_app_length, drop_app_length. eexists. split; [done|].
  destruct (Nat.eqb_spec (length part) 0) as [E|E].
  - destruct part; [|done]. unfold cached, reset. cbn. split; [done|lia].
  - unfold cached, store_partials, reset. cbn [_utfPartials _partialsLen]. rewrite take_app_length, length_app. split; [done|lia].
Qed.

(** ** UTF-16 *)

Lemma u16state_call_ok st str full part todo rest : Forall (λ s, valid_utf16 s = true) (full ++ todo) →
  str ≠ [] → Z.of_nat (length (cached st ++ str)) < 2 ^ 64 → (_partialsLen st <= 1 ∧ 1 <= length (_utfPartials st))%nat →
  cached st ++ str = concat full ++ part → part ++ rest = concat todo →
  (part = [] ∨ ∃ s t, todo = s :: t ∧ begins part s) →
  ∃ st', u16state_call str st = (S_OK, concat full, st') ∧ cached st' = part
    ∧ (_partialsLen st' <= 1 ∧ 1 <= length (_utfPartials st'))%nat.
Proof.
  intros Hv Hne Hlen [Hcap Hcap1] Hb Hr Hp. unfold u16state_call. rewrite length_app in Hlen.
  assert ((if negb (_partialsLen st =? 0)%nat then take 1 (_utfPartials st) else []) = cached st) as ->.
  { unfold cached. destruct (Nat.eqb_spec (_partialsLen st) 0) as [->|]; cbn [negb]; [done|].
    by replace (_partialsLen st) with 1%nat by lia. }
  assert (length (cached st) = _partialsLen st) as Hc by (unfold cached; rewrite length_take; lia).
  destruct (Z.leb_spec (2 ^ 64) (Z.of_nat (length str + _partialsLen st))); [lia|].
  destruct (Nat.eqb_spec (length str) 0) as [E|_]; [by destruct str|].
  assert (List.last str 0 = List.last (concat full ++ part) 0) as Hlast.
  { rewrite <- Hb. destruct str as [|c str _] using rev_ind; [done|]. by rewrite app_assoc, !last_snoc. }
  assert (∀ l, part = [] → concat full ++ part = l → is_high_surrogate (List.last l 0) = false) as Hwhole.
  { intros l -> <-. rewrite app_nil_r. destruct full as [|s full] using rev_ind; [done|].
    rewrite concat_app. cbn. rewrite app_nil_r. rewrite <- app_assoc in Hv.
    apply Forall_app in Hv as [_ [Hs _]%Forall_cons]. destruct s as [|a [|b [|]]]; cbn in Hs; try done.
    - rewrite last_snoc. zify_bool. done.
    - change (concat full ++ [a; b]) with (concat full ++ [a] ++ [b]). rewrite app_assoc, last_snoc.
      unfold is_high_surrogate, is_low_surrogate in *. zify_bool. destruct (Z.leb_spec b 0xDBFF); [lia|apply andb_false_r]. }
  destruct (decide (part = [])) as [Ep|Ep].
  - rewrite Hlast, (Hwhole _ Ep eq_refl). subst part. rewrite Hb, app_nil_r. eexists. split; [done|].
    unfold cached, reset. cbn. split; [done|lia].
  - destruct Hp as [?|(s & t & -> & r & Hrne & ->)]; [done|].
    apply Forall_app in Hv as [_ [Hs _]%Forall_cons].
    assert (∃ a, part = [a] ∧ is_high_surrogate a = true) as (a & -> & Ha).
    { destruct part as [|a [|b [|]]], r as [|r0 [|]]; cbn in Hs; try done; zify_bool; by exists a. }
    rewrite Hlast, last_snoc, Ha. destruct str as [|c str _] using rev_ind; [done|].
    rewrite app_assoc in Hb. apply app_inj_2 in Hb as [Hb [= ->]]; [|done].
    rewrite length_app. cbn [length]. replace (length str + 1 - 1)%nat with (length str) by lia. rewrite take_app_length, Hb.
    eexists. split; [done|]. unfold cached, store_partials, reset. cbn. split; [done|]. lia.
Qed.

(** ** Streams *)

(** A conversion that goes code point by code point, as the system's does on well-formed text. *)
Class PerCodePoint (conv : list Z → option (list Z)) (valid : list Z → bool) (f : list Z → list Z) : Prop := {
  per_code_point seqs : Forall (λ s, valid s = true) seqs → seqs ≠ [] → conv (concat seqs) = Some (concat (map f seqs));
  code_point_nonempty s : valid s = true → f s ≠ [] }.

Section Streams.
Context (conv : list Z → option (list Z)) (f : list Z → list Z).

Lemma u8u16_whole `{!PerCodePoint conv valid_utf8 f} full : Forall (λ s, valid_utf8 s = true) full →
  Z.of_nat (length (concat full)) <= INT_MAX → u8u16 conv (concat full) = (S_OK, concat (map f full)).
Proof.
  intros Hv Hl. destruct full as [|s full]; [done|]. unfold u8u16.
  destruct (Nat.eqb_spec (length (concat (s :: full))) 0) as [E|_].
  { inversion_clear Hv as [|? ? Hs _]. cbn in E. rewrite length_app in E. destruct s; [done|cbn in E; lia]. }
  destruct (Z.ltb_spec INT_MAX (Z.of_nat (length (concat (s :: full))))); [lia|].
  rewrite per_code_point by done. cbn [default from_option].
  inversion_clear Hv as [|? ? Hs _]. pose proof (code_point_nonempty s Hs) as Hf. cbn. destruct (f s); done.
Qed.

Lemma u16u8_whole `{!PerCodePoint conv valid_utf16 f} full : Forall (λ s, valid_utf16 s = true) full →
  Z.of_nat (length (concat full)) * 3 <= INT_MAX → u16u8 conv (concat full) = (S_OK, concat (map f full)).
Proof.
  intros Hv Hl. destruct full as [|s full]; [done|]. unfold u16u8.
  destruct (Nat.eqb_spec (length (concat (s :: full))) 0) as [E|_].
  { inversion_clear Hv as [|? ? Hs _]. cbn in E. rewrite length_app in E. destruct s; [done|cbn in E; lia]. }
  destruct (Z.ltb_spec INT_MAX (Z.of_nat (length (concat (s :: full))) * 3)); [lia|].
  rewrite per_code_point by done. cbn [default from_option].
  inversion_clear Hv as [|? ? Hs _]. pose proof (code_point_nonempty s Hs) as Hf. cbn. destruct (f s); done.
Qed.

Lemma valid_nonempty (valid : list Z → bool) seqs : valid [] = false → Forall (λ s, valid s = true) seqs → Forall (λ s, s ≠ []) seqs.
Proof. intros H0 HF. eapply Forall_impl; [exact HF|]. by intros s Hs ->; rewrite H0 in Hs. Qed.

Lemma u8u16_stream_from `{!PerCodePoint conv valid_utf8 f} strs : Forall (λ s, s ≠ []) strs → ∀ st seqs rest,
  (_partialsLen st <= length (_utfPartials st))%nat →
  Forall (λ s, valid_utf8 s = true) seqs → cached st ++ concat strs ++ rest = concat seqs →
  (cached st = [] ∨ ∃ s t, seqs = s :: t ∧ begins (cached st) s) →
  Z.of_nat (length (concat seqs)) <= INT_MAX →
  ∃ full todo st', seqs = full ++ todo ∧ u8u16_stream conv strs st = Some (concat (map f full), st')
    ∧ cached st' ++ rest = concat todo ∧ (cached st' = [] ∨ ∃ s t, todo = s :: t ∧ begins (cached st') s).
Proof.
  induction 1 as [|str strs Hs _ IH]; intros st seqs rest Hcap Hv Ht Hbeg Hl; cbn [u8u16_stream concat] in *.
  { by exists [], seqs, st. }
  assert ((cached st ++ str) ++ concat strs ++ rest = concat seqs) as E by (rewrite <- Ht, <- !app_assoc; done).
  destruct (cut_sequences seqs (valid_nonempty _ _ eq_refl Hv) (cached st ++ str) (concat strs ++ rest) E)
    as (full & todo & part & -> & Hb & Hr & Hp).
  assert (INT_MAX < 2 ^ 64) by (unfold INT_MAX; lia).
  assert (length (cached st ++ str) <= length (concat (full ++ todo)))%nat by (rewrite <- E, !length_app; lia).
  destruct (u8state_call_ok st str full part todo (concat strs ++ rest)) as (st1 & Hcall & Hc1 & Hcap1); try done; [lia|].
  unfold u8u16_with_state. rewrite Hcall. cbn [FAILED]. apply Forall_app in Hv as [Hv1 Hv2].
  rewrite concat_app, length_app in Hl. rewrite u8u16_whole by (done || lia). cbn [FAILED].
  destruct (IH st1 todo rest Hcap1 Hv2) as (full2 & todo2 & st2 & -> & Hst & Hc2 & Hb2); [by rewrite Hc1|by rewrite Hc1|lia|].
  rewrite Hst. exists (full ++ full2), todo2, st2. cbn. rewrite map_app, concat_app, app_assoc. by split_and!.
Qed.

Lemma u16u8_stream_from `{!PerCodePoint conv valid_utf16 f} strs : Forall (λ s, s ≠ []) strs → ∀ st seqs rest,
  (_partialsLen st <= 1 ∧ 1 <= length (_utfPartials st))%nat →
  Forall (λ s, valid_utf16 s = true) seqs → cached st ++ concat strs ++ rest = concat seqs →
  (cached st = [] ∨ ∃ s t, seqs = s :: t ∧ begins (cached st) s) →
  Z.of_nat (length (concat seqs)) * 3 <= INT_MAX →
  ∃ full todo st', seqs = full ++ todo ∧ u16u8_stream conv strs st = Some (concat (map f full), st')
    ∧ cached st' ++ rest = concat todo ∧ (cached st' = [] ∨ ∃ s t, todo = s :: t ∧ begins (cached st') s).
Proof.
  induction 1 as [|str strs Hs _ IH]; intros st seqs rest Hcap Hv Ht Hbeg Hl; cbn [u16u8_stream concat] in *.
  { by exists [], seqs, st. }
  assert ((cached st ++ str) ++ concat strs ++ rest = concat seqs) as E by (rewrite <- Ht, <- !app_assoc; done).
  destruct (cut_sequences seqs (valid_nonempty _ _ eq_refl Hv) (cached st ++ str) (concat strs ++ rest) E)
    as (full & todo & part & -> & Hb & Hr & Hp).
  assert (INT_MAX < 2 ^ 64) by (unfold INT_MAX; lia).
  assert (length (cached st ++ str) <= length (concat (full ++ todo)))%nat by (rewrite <- E, !length_app; lia).
  destruct (u16state_call_ok st str full part todo (concat strs ++ rest)) as (st1 & Hcall & Hc1 & Hcap1); try done; [lia|].
  unfold u16u8_with_state. rewrite Hcall. cbn [FAILED]. apply Forall_app in Hv as [Hv1 Hv2].
  rewrite concat_app, length_app in Hl. rewrite u16u8_whole by (done || lia). cbn [FAILED].
  destruct (IH st1 todo rest Hcap1 Hv2) as (full2 & todo2 & st2 & -> & Hst & Hc2 & Hb2); [by rewrite Hc1|by rewrite Hc1|lia|].
  rewrite Hst. exists (full ++ full2), todo2, st2. cbn. rewrite map_app, concat_app, app_assoc. by split_and!.
Qed.

(** C27: A stream of UTF-8 text can be cut anywhere: read in non-empty strings, whatever their
    ends, every call succeeds, what has come out is the conversion of the code points that have
    arrived whole, and the state holds the bytes of at most one code point that has begun. *)
Theorem utf8_cutting_does_not_matter `{!PerCodePoint conv valid_utf8 f} strs rest seqs :
  Forall (λ s, s ≠ []) strs → Forall (λ s, valid_utf8 s = true) seqs →
  concat strs ++ rest = concat seqs → Z.of_nat (length (concat seqs)) <= INT_MAX →
  ∃ full todo st', seqs = full ++ todo
    ∧ u8u16_stream conv strs u8u16state_init = Some (concat (map f full), st')
    ∧ cached st' ++ rest = concat todo ∧ (cached st' = [] ∨ ∃ s t, todo = s :: t ∧ begins (cached st') s).
Proof. intros Hs Hv He Hl. apply u8u16_stream_from; try done; [cbn; lia|by left]. Qed.

(** A stream of UTF-16 text can be cut anywhere, also between the surrogates of a pair. *)
Lemma utf16_cutting_does_not_matter `{!PerCodePoint conv valid_utf16 f} strs rest seqs :
  Forall (λ s, s ≠ []) strs → Forall (λ s, valid_utf16 s = true) seqs →
  concat strs ++ rest = concat seqs → Z.of_nat (length (concat seqs)) * 3 <= INT_MAX →
  ∃ full todo st', seqs = full ++ todo
    ∧ u16u8_stream conv strs u8u16state_init = Some (concat (map f full), st')
    ∧ cached st' ++ rest = concat todo ∧ (cached st' = [] ∨ ∃ s t, todo = s :: t ∧ begins (cached st') s).
Proof. intros Hs Hv He Hl. apply u16u8_stream_from; try done; [cbn; lia|by left]. Qed.
End Streams.

(** ** A conversion *)

(** UTF-8 to UTF-16 on well-formed text: sequences by their lead bytes, each as one or two units. *)
Definition sequence_length (a : Z) : nat := if a <? 0x80 then 1 else if a <? 0xE0 then 2 else if a <? 0xF0 then 3 else 4.

Fixpoint sequences (fuel : nat) (l : list Z) : list (list Z) :=
  match fuel, l with
  | S fuel, a :: _ => take (sequence_length a) l :: sequences fuel (drop (sequence_length a) l)
  | _, _ => []
  end.

Definition code_point (s : list Z) : Z :=
  match s with
  | [a] => a
  | [a; b] => (a - 0xC0) * 64 + (b - 0x80)
  | [a; b; c] => (a - 0xE0) * 4096 + (b - 0x80) * 64 + (c - 0x80)
  | [a; b; c; d] => (a - 0xF0) * 262144 + (b - 0x80) * 4096 + (c - 0x80) * 64 + (d - 0x80)
  | _ => 0xFFFD
  end.

Definition utf16_of (s : list Z) : list Z :=
  let c := code_point s in
  if c <? 0x10000 then [c] else [0xD800 + (c - 0x10000) / 1024; 0xDC00 + (c - 0x10000) `mod` 1024].

Definition utf16_of_utf8 (l : list Z) : option (list Z) := Some (concat (map utf16_of (sequences (length l) l))).

Lemma sequence_length_ok a s : valid_utf8 (a :: s) = true → sequence_length a = length (a :: s).
Proof.
  intros Hv. unfold sequence_length. destruct s as [|b [|c [|d [|]]]]; cbn in Hv; try done; byte_bounds;
    destruct (Z.ltb_spec a 0x80), (Z.ltb_spec a 0xE0), (Z.ltb_spec a 0xF0); done || lia.
Qed.

Lemma sequences_ok seqs : Forall (λ s, valid_utf8 s = true) seqs → ∀ fuel,
  (length (concat seqs) <= fuel)%nat → sequences fuel (concat seqs) = seqs.
Proof.
  induction 1 as [|s seqs Hs _ IH]; intros fuel Hf; [by destruct fuel|].
  destruct s as [|a s]; [done|]. cbn [concat] in *. rewrite length_app in Hf. destruct fuel as [|fuel]; [cbn in Hf; lia|].
  cbn [app sequences]. rewrite (sequence_length_ok a s Hs).
  change (a :: s ++ concat seqs) with ((a :: s) ++ concat seqs). rewrite take_app_length, drop_app_length.
  rewrite IH; [done|cbn in Hf; lia].
Qed.

#[export] Instance utf16_of_utf8_converts : PerCodePoint utf16_of_utf8 valid_utf8 utf16_of.
Proof.
  split.
  - intros seqs Hv _. unfold utf16_of_utf8. by rewrite sequences_ok.
  - intros s _. unfold utf16_of. by destruct (_ <? _).
Qed.

(** e with acute accent, the euro sign, and a face of four bytes of which two have arrived. *)
Lemma utf8_cutting_does_not_matter_witness :
  ∃ full todo st', [[0xC3; 0xA9]; [0xE2; 0x82; 0xAC]; [0xF0; 0x9F; 0x98; 0x80]] = full ++ todo
    ∧ u8u16_stream utf16_of_utf8 [[0xC3]; [0xA9; 0xE2; 0x82]; [0xAC; 0xF0]; [0x9F]] u8u16state_init
      = Some (concat (map utf16_of full), st')
    ∧ cached st' ++ [0x98; 0x80] = concat todo
    ∧ (cached st' = [] ∨ ∃ s t, todo = s :: t ∧ begins (cached st') s).
Proof.
  apply (utf8_cutting_does_not_matter utf16_of_utf8 utf16_of); [repeat constructor; discriminate|repeat constructor|reflexivity|vm_compute; discriminate].
Defined.
