(* ===== verification/Til.v ===== *)
(** The geometry of the template library, [src/src/inc/til]: [point.h], [size.h],
    [rectangle.h] and [operators.h].

    Coordinates are [ptrdiff_t]; the checked arithmetic of [base::CheckAdd] and the like throws
    [E_ABORT] where the result has no place in 64 bits.  A [til::some] of rectangles is a list:
    subtraction makes at most four, the capacity of the array. *)

From S2P Require Import Prelude.

Module Til.

(** [base::Check...(...).AssignIfValid] on a [ptrdiff_t]. *)
Definition in_ptrdiff (z : Z) : bool := (- 2 ^ 63 <=? z) && (z <? 2 ^ 63).
Definition chk (z : Z) : exn + Z := if in_ptrdiff z then inr z else inl EAbort.
Definition CheckAdd (a b : Z) : exn + Z := chk (a + b).
Definition CheckSub (a b : Z) : exn + Z := chk (a - b).
Definition CheckMul (a b : Z) : exn + Z := chk (a * b).
Definition CheckDiv (a b : Z) : exn + Z := if b =? 0 then inl EAbort else chk (Z.quot a b).

(** ** Points *)

Record point := mkPoint { x : Z; y : Z }.

#[global] Instance point_eq_dec : EqDecision point.
Proof. solve_decision. Defined.

Definition point_eqb (p q : point) : bool := (x p =? x q) && (y p =? y q).

Definition point_ltb (p q : point) : bool :=
  if y p <? y q then true else if y q <? y p then false else x p <? x q.
Definition point_gtb (p q : point) : bool :=
  if y q <? y p then true else if y p <? y q then false else x q <? x p.
Definition point_leb (p q : point) : bool :=
  if y p <? y q then true else if y q <? y p then false else x p <=? x q.
Definition point_geb (p q : point) : bool :=
  if y q <? y p then true else if y p <? y q then false else x q <=? x p.

Definition point_op (f : Z → Z → exn + Z) (p q : point) : exn + point :=
  x' ← f (x p) (x q); y' ← f (y p) (y q); mret (mkPoint x' y').
Definition point_add : point → point → exn + point := point_op CheckAdd.
Definition point_sub : point → point → exn + point := point_op CheckSub.
Definition point_mul : point → point → exn + point := point_op CheckMul.
Definition point_div : point → point → exn + point := point_op CheckDiv.

(** ** Sizes *)

Record size := mkSize { width : Z; height : Z }.

#[global] Instance size_eq_dec : EqDecision size.
Proof. solve_decision. Defined.

Definition size_eqb (s t : size) : bool := (width s =? width t) && (height s =? height t).
Definition size_bool (s : size) : bool := (0 <? width s) && (0 <? height s).

Definition size_op (f : Z → Z → exn + Z) (s t : size) : exn + size :=
  w ← f (width s) (width t); h ← f (height s) (height t); mret (mkSize w h).
Definition size_add : size → size → exn + size := size_op CheckAdd.
Definition size_sub : size → size → exn + size := size_op CheckSub.
Definition size_mul : size → size → exn + size := size_op CheckMul.
Definition size_div : size → size → exn + size := size_op CheckDiv.

Definition divide_ceil (s other : size) : exn + size :=
  floor ← size_div s other;
  let adjWidth :=
    if negb (width other * width floor =? width s) then (if 0 <=? width floor then 1 else -1) else 0 in
  let adjHeight :=
    if negb (height other * height floor =? height s) then (if 0 <=? height s then 1 else -1) else 0 in
  size_add floor (mkSize adjWidth adjHeight).

Definition area (s : size) : exn + Z := CheckMul (width s) (height s).

(** [operators.h]: a point and a size go component by component. *)
Definition point_of_size (s : size) : point := mkPoint (width s) (height s).
Definition size_of_point (p : point) : size := mkSize (x p) (y p).
Definition point_add_size (p : point) (s : size) : exn + point := point_add p (point_of_size s).
Definition point_sub_size (p : point) (s : size) : exn + point := point_sub p (point_of_size s).
Definition point_mul_size (p : point) (s : size) : exn + point := point_mul p (point_of_size s).
Definition point_div_size (p : point) (s : size) : exn + point := point_div p (point_of_size s).
Definition size_add_point (s : size) (p : point) : exn + size := size_add s (size_of_point p).
Definition size_sub_point (s : size) (p : point) : exn + size := size_sub s (size_of_point p).
Definition size_mul_point (s : size) (p : point) : exn + size := size_mul s (size_of_point p).
Definition size_div_point (s : size) (p : point) : exn + size := size_div s (size_of_point p).

(** ** Rectangles *)

Record rectangle := mkRectangle { _topLeft : point; _bottomRight : point }.

#[global] Instance rectangle_eq_dec : EqDecision rectangle.
Proof. solve_decision. Defined.

Definition left (r : rectangle) : Z := x (_topLeft r).
Definition top (r : rectangle) : Z := y (_topLeft r).
Definition right (r : rectangle) : Z := x (_bottomRight r).
Definition bottom (r : rectangle) : Z := y (_bottomRight r).

Definition rect_ltrb (l t r b : Z) : rectangle := mkRectangle (mkPoint l t) (mkPoint r b).
Definition rect_empty : rectangle := rect_ltrb 0 0 0 0.
Definition rect_of_size (s : size) : rectangle := rect_ltrb 0 0 (width s) (height s).
Definition rect_of_point (p : point) : exn + rectangle :=
  br ← point_add p (mkPoint 1 1); mret (mkRectangle p br).
Definition rect_of_point_size (p : point) (s : size) : exn + rectangle :=
  br ← point_add p (point_of_size s); mret (mkRectangle p br).

Definition rect_eqb (r s : rectangle) : bool :=
  point_eqb (_topLeft r) (_topLeft s) && point_eqb (_bottomRight r) (_bottomRight s).
Definition rect_bool (r : rectangle) : bool := (left r <? right r) && (top r <? bottom r).
Definition empty (r : rectangle) : bool := negb (rect_bool r).

Definition rect_width (r : rectangle) : exn + Z := CheckSub (right r) (left r).
Definition rect_height (r : rectangle) : exn + Z := CheckSub (bottom r) (top r).
Definition rect_size (r : rectangle) : exn + size :=
  w ← rect_width r; h ← rect_height r; mret (mkSize w h).

(** [operator|]: the hull. *)
Definition rect_or (r s : rectangle) : rectangle :=
  if empty r && empty s then rect_empty
  else if empty r then s
  else if empty s then r
  else rect_ltrb (Z.min (left r) (left s)) (Z.min (top r) (top s))
                 (Z.max (right r) (right s)) (Z.max (bottom r) (bottom s)).

(** [operator&]: the intersection. *)
Definition rect_and (r s : rectangle) : rectangle :=
  let l := Z.max (left r) (left s) in
  let r' := Z.min (right r) (right s) in
  if r' <=? l then rect_empty else
  let t := Z.max (top r) (top s) in
  let b := Z.min (bottom r) (bottom s) in
  if b <=? t then rect_empty else rect_ltrb l t r' b.

(** [operator-]: what is left of a rectangle, in at most four pieces. *)
Definition rect_minus (this other : rectangle) : list rectangle :=
  let intersect := rect_and this other in
  if empty intersect then [this]
  else if negb (rect_eqb this intersect) then
    let t := rect_ltrb (left this) (top this) (right this) (top intersect) in
    let b := rect_ltrb (left this) (bottom intersect) (right this) (bottom this) in
    let l := rect_ltrb (left this) (top intersect) (left intersect) (bottom intersect) in
    let r := rect_ltrb (right intersect) (top intersect) (right this) (bottom intersect) in
    (if negb (empty t) then [t] else []) ++ (if negb (empty b) then [b] else [])
    ++ (if negb (empty l) then [l] else []) ++ (if negb (empty r) then [r] else [])
  else [].

Definition rect_point_op (f : Z → Z → exn + Z) (rc : rectangle) (p : point) : exn + rectangle :=
  l ← f (left rc) (x p); t ← f (top rc) (y p);
  r ← f (right rc) (x p); b ← f (bottom rc) (y p);
  mret (rect_ltrb l t r b).
Definition rect_add_point : rectangle → point → exn + rectangle := rect_point_op CheckAdd.
Definition rect_sub_point : rectangle → point → exn + rectangle := rect_point_op CheckSub.

(** A size moves one edge of each direction, by its sign. *)
Definition rect_add_size (rc : rectangle) (s : size) : exn + rectangle :=
  '(l, r) ← (if 0 <? width s then r ← CheckAdd (right rc) (width s); mret (left rc, r)
             else l ← CheckAdd (left rc) (width s); mret (l, right rc));
  '(t, b) ← (if 0 <? height s then b ← CheckAdd (bottom rc) (height s); mret (top rc, b)
             else t ← CheckAdd (top rc) (height s); mret (t, bottom rc));
  mret (rect_ltrb l t r b).

Definition rect_sub_size (rc : rectangle) (s : size) : exn + rectangle :=
  '(l, r) ← (if 0 <? width s then r ← CheckSub (right rc) (width s); mret (left rc, r)
             else l ← CheckSub (left rc) (width s); mret (l, right rc));
  '(t, b) ← (if 0 <? height s then b ← CheckSub (bottom rc) (height s); mret (top rc, b)
             else t ← CheckSub (top rc) (height s); mret (t, bottom rc));
  mret (rect_ltrb l t r b).

Definition scale_up (rc : rectangle) (s : size) : exn + rectangle :=
  tl ← point_mul_size (_topLeft rc) s; br ← point_mul_size (_bottomRight rc) s;
  mret (mkRectangle tl br).

Definition scale_down (rc : rectangle) (s : size) : exn + rectangle :=
  tl ← point_div_size (_topLeft rc) s;
  sz ← divide_ceil (mkSize (right rc) (bottom rc)) s;
  br ← point_add_size (mkPoint 0 0) sz;
  mret (mkRectangle tl br).

Definition contains (rc : rectangle) (pt : point) : bool :=
  (left rc <=? x pt) && (x pt <? right rc) && (top rc <=? y pt) && (y pt <? bottom rc).

Definition contains_index (rc : rectangle) (index : Z) : exn + bool :=
  if 0 <=? index then s ← rect_size rc; a ← area s; mret (index <? a) else mret false.

Definition contains_rect (rc other : rectangle) : bool := rect_eqb (rect_or rc other) rc.

Definition index_of (rc : rectangle) (pt : point) : exn + Z :=
  if negb (contains rc pt) then inl InvalidArg else
  check ← CheckSub (y pt) (top rc);
  w ← rect_width rc;
  check ← CheckMul check w;
  check ← CheckAdd check (x pt);
  CheckSub check (left rc).

(** The additions behind [std::div] are not checked. *)
Definition point_at (rc : rectangle) (index : Z) : exn + point :=
  c ← contains_index rc index;
  if negb c then inl InvalidArg else
  w ← rect_width rc;
  mret (mkPoint (wraps 64 (Z.rem index w + left rc)) (wraps 64 (Z.quot index w + top rc))).

(** [_rectangle_const_iterator::operator++] on the current point. *)
Definition rect_iter_next (topLeft bottomRight current : point) : exn + point :=
  nextX ← CheckAdd (x current) 1;
  if x bottomRight <=? nextX then
    nextY ← CheckAdd (y current) 1; mret (mkPoint (x topLeft) nextY)
  else mret (mkPoint nextX (y current)).

End Til.
