(* ===== verification/Bitmap.v ===== *)
(** [til::bitmap] of [src/src/inc/til/bitmap.h], with which the renderers remember what has to be
    painted again.

    The vendored [dynamic_bitset] (under [src/oss]) is the list of its bits, the bit at position
    0 first: [set], [reset], the shifts, [find_next] and the counts are those of the list.  Its
    constructor with an initial value fills the first block of 64 bits only.  The run iterator is
    a record of its mutable fields; [runs] goes with it from [begin] to [end]. *)

From S2P Require Import Prelude Til.
Import Til.

Module Bitmap.

(** ** Bits *)

(** [dynamic_bitset(nbits, init_val)]: the initial value is the first block, the rest is zero. *)
Definition bitset_init (nbits init_val : Z) : list bool :=
  map (λ i, if i <? 64 then Z.testbit init_val i else false) (seqZ 0 nbits).

(** [set(pos, len, value)]. *)
Definition bitset_set (pos len : Z) (value : bool) (bits : list bool) : list bool :=
  take (Z.to_nat pos) bits ++ replicate (Z.to_nat len) value ++ drop (Z.to_nat (pos + len)) bits.

(** [operator<<=] moves bits to higher positions, [operator>>=] to lower ones. *)
Definition bitset_shl (n : Z) (bits : list bool) : list bool :=
  take (length bits) (replicate (Z.to_nat n) false ++ bits).
Definition bitset_shr (n : Z) (bits : list bool) : list bool :=
  drop (Z.to_nat n) bits ++ replicate (Z.to_nat n `min` length bits) false.

(** The first set bit at or behind a position. *)
Fixpoint find_from (i : Z) (bits : list bool) : option Z :=
  match bits with
  | [] => None
  | b :: bits => if b then Some i else find_from (i + 1) bits
  end.
Definition find_first (bits : list bool) : option Z := find_from 0 bits.
Definition find_next (prev : Z) (bits : list bool) : option Z :=
  find_from (prev + 1) (drop (Z.to_nat (prev + 1)) bits).

Definition bit_at (bits : list bool) (i : Z) : bool := default false (bits !! Z.to_nat i).

(** ** The iterator over runs *)

Record iterator := mkIterator { _pos : Z; _nextPos : Z; _end : Z; _run : rectangle }.

(** The do/while loop: the first position behind [next] that is at the end of the row or off. *)
Fixpoint run_end (fuel : nat) (bits : list bool) (rowEndIndex next : Z) : Z :=
  match fuel with
  | O => next
  | S fuel =>
      let next := next + 1 in
      if (next <? rowEndIndex) && bit_at bits next then run_end fuel bits rowEndIndex next else next
  end.

Definition PTRDIFF_MAX : Z := 2 ^ 63 - 1.

Definition _calculateArea (bits : list bool) (rc : rectangle) (pos end_ : Z) : exn + iterator :=
  let found := if pos =? 0 then find_first bits else find_next (pos - 1) bits in
  let nextPos := default PTRDIFF_MAX found in
  if nextPos <? end_ then
    runStart ← point_at rc nextPos;
    i ← index_of rc (mkPoint (wraps 64 (right rc - 1)) (y runStart));
    let rowEndIndex := wraps 64 (i + 1) in
    let next := run_end (Z.to_nat (rowEndIndex - nextPos)) bits rowEndIndex nextPos in
    run ← rect_of_point_size runStart (mkSize (next - nextPos) 1);
    mret (mkIterator pos next end_ run)
  else mret (mkIterator end_ end_ end_ rect_empty).

(** The constructor and [operator++]. *)
Definition iterator_init (bits : list bool) (rc : rectangle) (pos : Z) : exn + iterator :=
  s ← rect_size rc; e ← area s; _calculateArea bits rc pos e.
Definition iterator_next (bits : list bool) (rc : rectangle) (it : iterator) : exn + iterator :=
  _calculateArea bits rc (_nextPos it) (_end it).

(** ** The bitmap *)

Record bitmap := mkBitmap {
  _sz : size;
  _rc : rectangle;
  _bits : list bool;
  _runs : option (list rectangle) }.

(** The default constructor. *)
Definition bitmap_default : bitmap := mkBitmap (mkSize 0 0) rect_empty [] (Some []).

(** [bitmap(sz, fill)]: the bits are built from [area()] and an initial block.  The braces of
    [_runs{ _alloc }] make a vector with the allocator: the cache is there, and empty. *)
Definition bitmap_init (sz : size) (fill : bool) : exn + bitmap :=
  a ← area sz;
  mret (mkBitmap sz (rect_of_size sz) (bitset_init a (if fill then 2 ^ 64 - 1 else 0)) (Some [])).

Definition bitmap_eqb (b c : bitmap) : bool :=
  size_eqb (_sz b) (_sz c) && rect_eqb (_rc b) (_rc c) && bool_decide (_bits b = _bits c).

Definition begin (b : bitmap) : exn + iterator := iterator_init (_bits b) (rect_of_size (_sz b)) 0.
Definition end_ (b : bitmap) : exn + iterator :=
  a ← area (_sz b); iterator_init (_bits b) (rect_of_size (_sz b)) a.

(** [for (auto run : *this)]: from [begin] to [end], with fuel for every bit. *)
Fixpoint runs_loop (fuel : nat) (bits : list bool) (rc : rectangle) (stop : Z) (it : iterator)
    : exn + list rectangle :=
  if _pos it =? stop then mret []
  else match fuel with
       | O => inl OutOfFuel
       | S fuel =>
           it' ← iterator_next bits rc it;
           rest ← runs_loop fuel bits rc stop it';
           mret (_run it :: rest)
       end.

Definition iterate (b : bitmap) : exn + list rectangle :=
  it ← begin b; e ← end_ b;
  runs_loop (S (length (_bits b))) (_bits b) (rect_of_size (_sz b)) (_pos e) it.

(** [runs]: the cache is rebuilt if it is not there. *)
Definition runs (b : bitmap) : exn + (list rectangle * bitmap) :=
  match _runs b with
  | Some rs => mret (rs, b)
  | None => rs ← iterate b; mret (rs, mkBitmap (_sz b) (_rc b) (_bits b) (Some rs))
  end.

Definition with_bits (bits : list bool) (b : bitmap) : bitmap := mkBitmap (_sz b) (_rc b) bits None.

Definition set_point (pt : point) (b : bitmap) : exn + bitmap :=
  if negb (contains (_rc b) pt) then inl InvalidArg else
  i ← index_of (_rc b) pt;
  mret (with_bits (bitset_set i 1 true (_bits b)) b).

(** The rows of a rectangle, from [row] on. *)
Fixpoint set_rows (n : nat) (rc r : rectangle) (row : Z) (bits : list bool) : exn + list bool :=
  match n with
  | O => mret bits
  | S n =>
      i ← index_of rc (mkPoint (left r) row);
      w ← rect_width r;
      set_rows n rc r (row + 1) (bitset_set i w true bits)
  end.

Definition set (r : rectangle) (b : bitmap) : exn + bitmap :=
  if negb (contains_rect (_rc b) r) then inl InvalidArg else
  bits ← set_rows (Z.to_nat (bottom r - top r)) (_rc b) r (top r) (_bits b);
  mret (with_bits bits b).

Fixpoint set_list (rs : list rectangle) (b : bitmap) : exn + bitmap :=
  match rs with
  | [] => mret b
  | r :: rs => b ← set r b; set_list rs b
  end.

Definition set_all (b : bitmap) : bitmap := with_bits (replicate (length (_bits b)) true) b.
Definition reset_all (b : bitmap) : bitmap := with_bits (replicate (length (_bits b)) false) b.

Definition translate_y (delta_y : Z) (fill : bool) (b : bitmap) : bitmap :=
  if delta_y =? 0 then b else
  let bitShift := wraps 64 (delta_y * width (_sz b)) in
  let newBits := Z.abs bitShift in
  let isLeftShift := 0 <? bitShift in
  let n := Z.of_nat (length (_bits b)) in
  if n <=? newBits then (if fill then set_all b else reset_all b)
  else
    let bits := if isLeftShift then bitset_shl newBits (_bits b) else bitset_shr newBits (_bits b) in
    let bits := if fill then
                  if isLeftShift then bitset_set 0 newBits true bits
                  else bitset_set (n - newBits) newBits true bits
                else bits in
    with_bits bits b.

(** The loop of [translate]: each run is moved, cut to the bounds and set. *)
Fixpoint translate_runs (delta : point) (rc : rectangle) (rs : list rectangle) (other : bitmap)
    : exn + bitmap :=
  match rs with
  | [] => mret other
  | r :: rs =>
      r ← rect_add_point r delta;
      other ← set (rect_and r rc) other;
      translate_runs delta rc rs other
  end.

Definition translate (delta : point) (fill : bool) (b : bitmap) : exn + bitmap :=
  if x delta =? 0 then mret (translate_y (y delta) fill b) else
  other ← bitmap_init (_sz b) false;
  rs ← iterate b;
  other ← translate_runs delta (_rc b) rs other;
  if fill then
    translatedRect ← rect_add_point (_rc b) delta;
    set_list (rect_minus (_rc b) translatedRect) other
  else mret other.

(** The loop of [resize]. *)
Fixpoint resize_runs (rs : list rectangle) (newMap : bitmap) : exn + bitmap :=
  match rs with
  | [] => mret newMap
  | r :: rs =>
      let intersect := rect_and r (_rc newMap) in
      newMap ← (if negb (empty intersect) then set intersect newMap else mret newMap);
      resize_runs rs newMap
  end.

Definition resize (sz : size) (fill : bool) (b : bitmap) : exn + (bool * bitmap) :=
  if negb (size_eqb (_sz b) sz) then
    newMap ← bitmap_init sz false;
    rs ← iterate b;
    newMap ← resize_runs rs newMap;
    newMap ← (if fill then set_list (rect_minus (_rc newMap) (_rc b)) newMap else mret newMap);
    mret (true, newMap)
  else mret (false, mkBitmap (_sz b) (_rc b) (_bits b) None).

Definition one (b : bitmap) : bool := (length (filter (λ x, x = true) (_bits b)) =? 1)%nat.
Definition none (b : bitmap) : bool := forallb negb (_bits b).
Definition any (b : bitmap) : bool := negb (none b).
Definition all (b : bitmap) : bool := forallb (λ x, x) (_bits b).

End Bitmap.
