(* ===== verification/BitmapFacts.v ===== *)
(** The bitmap as a set of cells: its runs are the maximal horizontal runs of set cells, each
    cell in one of them; setting, moving and resizing do to the set what their names say. *)

From Stdlib Require Import Sorted.
From S2P Require Import Prelude Til Bitmap.
Import Til Bitmap.

(** ** Bits *)

Lemma bit_at_lookup bits i : 0 <= i < Z.of_nat (length bits) → bits !! Z.to_nat i = Some (bit_at bits i).
Proof.
  intros Hi. unfold bit_at. destruct (lookup_lt_is_Some_2 bits (Z.to_nat i)) as [v ->]; [lia|done].
Qed.

Lemma bit_at_true bits i : 0 <= i → bit_at bits i = true → i < Z.of_nat (length bits).
Proof.
  unfold bit_at. intros Hi. destruct (bits !! Z.to_nat i) eqn:E; [|done]. apply lookup_lt_Some in E. lia.
Qed.

Lemma length_bitset_set pos len v bits : 0 <= pos → 0 <= len → pos + len <= Z.of_nat (length bits) →
  length (bitset_set pos len v bits) = length bits.
Proof. intros. unfold bitset_set. rewrite !length_app, length_take, length_replicate, length_drop. lia. Qed.

Lemma bit_at_set pos len v bits i : 0 <= pos → 0 <= len → pos + len <= Z.of_nat (length bits) → 0 <= i →
  bit_at (bitset_set pos len v bits) i = if (pos <=? i) && (i <? pos + len) then v else bit_at bits i.
Proof.
  intros. unfold bit_at, bitset_set.
  destruct (Z.leb_spec pos i); cbn [andb].
  - rewrite lookup_app_r by (rewrite length_take; lia). rewrite length_take.
    destruct (Z.ltb_spec i (pos + len)).
    + rewrite lookup_app_l by (rewrite length_replicate; lia). by rewrite lookup_replicate_2 by lia.
    + rewrite lookup_app_r by (rewrite length_replicate; lia). rewrite length_replicate, lookup_drop.
      do 2 f_equal. lia.
  - rewrite lookup_app_l by (rewrite length_take; lia). by rewrite lookup_take_lt by lia.
Qed.

Lemma bit_at_shl n bits i : 0 <= n → 0 <= i < Z.of_nat (length bits) →
  bit_at (bitset_shl n bits) i = if i <? n then false else bit_at bits (i - n).
Proof.
  intros. unfold bit_at, bitset_shl. rewrite lookup_take_lt by lia. destruct (Z.ltb_spec i n).
  - rewrite lookup_app_l by (rewrite length_replicate; lia). by rewrite lookup_replicate_2 by lia.
  - rewrite lookup_app_r by (rewrite length_replicate; lia). rewrite length_replicate. do 2 f_equal. lia.
Qed.

Lemma bit_at_shr n bits i : 0 <= n <= Z.of_nat (length bits) → 0 <= i < Z.of_nat (length bits) →
  bit_at (bitset_shr n bits) i = if i <? Z.of_nat (length bits) - n then bit_at bits (i + n) else false.
Proof.
  intros. unfold bit_at, bitset_shr. destruct (Z.ltb_spec i (Z.of_nat (length bits) - n)).
  - rewrite lookup_app_l by (rewrite length_drop; lia). rewrite lookup_drop. do 2 f_equal. lia.
  - rewrite lookup_app_r by (rewrite length_drop; lia). rewrite length_drop.
    destruct (replicate _ false !! _) eqn:E; [|done]. by apply lookup_replicate in E as [-> _].
Qed.

Lemma length_shl n bits : length (bitset_shl n bits) = length bits.
Proof. unfold bitset_shl. rewrite length_take, length_app. lia. Qed.
Lemma length_shr n bits : length (bitset_shr n bits) = length bits.
Proof. unfold bitset_shr. rewrite length_app, length_drop, length_replicate. lia. Qed.

(** The search finds the first set bit. *)
Lemma find_from_spec bits : ∀ i, match find_from i bits with
  | Some j => i <= j < i + Z.of_nat (length bits) ∧ bit_at bits (j - i) = true
      ∧ ∀ k, 0 <= k < j - i → bit_at bits k = false
  | None => ∀ k, 0 <= k → bit_at bits k = false
  end.
Proof.
  induction bits as [|b bits IH]; intros i; cbn [find_from].
  - intros k _. unfold bit_at. by rewrite lookup_nil.
  - destruct b.
    + rewrite Z.sub_diag. split_and!; [cbn; lia|cbn; lia|done|lia].
    + specialize (IH (i + 1)). assert (∀ k, 0 < k → bit_at (false :: bits) k = bit_at bits (k - 1)) as Hs.
      { intros k Hk. unfold bit_at. replace (Z.to_nat k) with (S (Z.to_nat (k - 1))) by lia. done. }
      destruct (find_from (i + 1) bits) as [j|].
      * destruct IH as (Hj & Hb & Hn). split_and!; [lia|cbn [length]; lia|rewrite Hs by lia; rewrite <- Hb; f_equal; lia|].
        intros k Hk. destruct (Z.eq_dec k 0) as [->|]; [done|]. rewrite Hs by lia. apply Hn. lia.
      * intros k Hk. destruct (Z.eq_dec k 0) as [->|]; [done|]. rewrite Hs by lia. apply IH. lia.
Qed.

Lemma bit_at_drop n bits k : 0 <= n → 0 <= k → bit_at (drop (Z.to_nat n) bits) k = bit_at bits (n + k).
Proof. intros. unfold bit_at. rewrite lookup_drop. do 2 f_equal. lia. Qed.

(** The first set bit at or behind a position, as the iterator looks for it. *)
Lemma found_spec bits pos : 0 <= pos <= Z.of_nat (length bits) →
  match (if pos =? 0 then find_first bits else find_next (pos - 1) bits) with
  | Some s => pos <= s < Z.of_nat (length bits) ∧ bit_at bits s = true ∧ ∀ k, pos <= k < s → bit_at bits k = false
  | None => ∀ k, pos <= k → bit_at bits k = false
  end.
Proof.
  intros Hp. assert ((if pos =? 0 then find_first bits else find_next (pos - 1) bits)
    = find_from pos (drop (Z.to_nat pos) bits)) as ->.
  { destruct (Z.eqb_spec pos 0) as [->|]; [done|]. unfold find_next. by replace (pos - 1 + 1) with pos by lia. }
  pose proof (find_from_spec (drop (Z.to_nat pos) bits) pos) as Hf. rewrite length_drop in Hf.
  destruct (find_from pos _) as [s|].
  - destruct Hf as (Hs & Hb & Hn). rewrite bit_at_drop in Hb by lia. split_and!; [lia|lia| |].
    + rewrite <- Hb. f_equal. lia.
    + intros k Hk. specialize (Hn (k - pos) ltac:(lia)). rewrite bit_at_drop in Hn by lia. rewrite <- Hn. f_equal. lia.
  - intros k Hk. specialize (Hf (k - pos) ltac:(lia)). rewrite bit_at_drop in Hf by lia. rewrite <- Hf. f_equal. lia.
Qed.

(** The do/while loop ends behind the set bits of the row. *)
Lemma run_end_spec fuel bits row : ∀ next, next < row → row - next <= Z.of_nat fuel → bit_at bits next = true →
  let e := run_end fuel bits row next in
  next < e <= row ∧ (∀ k, next <= k < e → bit_at bits k = true) ∧ (e = row ∨ bit_at bits e = false).
Proof.
  induction fuel as [|fuel IH]; intros next Hn Hf Hb; cbn [run_end]; [lia|].
  destruct (Z.ltb_spec (next + 1) row); cbn [andb].
  - destruct (bit_at bits (next + 1)) eqn:Eb.
    + destruct (IH (next + 1)) as (He & Hall & Hend); [lia..|done|]. split_and!; [lia|lia| |done].
      intros k Hk. destruct (Z.eq_dec k next) as [->|]; [done|]. apply Hall. lia.
    + split_and!; [lia|lia| |by right]. intros k Hk. by replace k with next by lia.
  - split_and!; [lia|lia| |left; lia]. intros k Hk. by replace k with next by lia.
Qed.

(** ** Cells *)

Lemma chk_ok z : - 2 ^ 63 <= z < 2 ^ 63 → chk z = inr z.
Proof. intros. unfold chk, in_ptrdiff. destruct (Z.leb_spec (- 2 ^ 63) z), (Z.ltb_spec z (2 ^ 63)); done || lia. Qed.

Lemma contains_spec rc p : contains rc p = true ↔ left rc <= x p < right rc ∧ top rc <= y p < bottom rc.
Proof. unfold contains. rewrite !andb_true_iff, !Z.leb_le, !Z.ltb_lt. tauto. Qed.

Section Map.
Context (w h : Z) (Hw : 0 <= w < 2 ^ 63) (Hh : 0 <= h < 2 ^ 63) (Ha : w * h < 2 ^ 63).
#[local] Notation rc := (rect_ltrb 0 0 w h).

Lemma contains_rc p : contains rc p = true ↔ 0 <= x p < w ∧ 0 <= y p < h.
Proof. apply contains_spec. Qed.

Lemma bit_index_range i j : 0 <= i < w → 0 <= j < h → 0 <= j * w + i < w * h.
Proof. clear. nia. Qed.

Lemma index_of_ok i j : 0 <= i < w → 0 <= j < h → index_of rc (mkPoint i j) = inr (j * w + i).
Proof.
  intros Hi Hj. pose proof (bit_index_range i j Hi Hj). unfold index_of.
  rewrite (proj2 (contains_rc (mkPoint i j))) by done. unfold rect_width, CheckAdd, CheckSub, CheckMul.
  cbn [negb x y left top right _topLeft _bottomRight rect_ltrb]. rewrite !Z.sub_0_r.
  rewrite (chk_ok j) by lia. cbn [mbind result_bind]. rewrite (chk_ok w) by lia. cbn [mbind result_bind].
  rewrite (chk_ok (j * w)) by nia. cbn [mbind result_bind]. rewrite (chk_ok (j * w + i)) by lia. cbn [mbind result_bind].
  rewrite Z.sub_0_r. apply chk_ok. lia.
Qed.

Lemma point_at_ok i : 0 <= i < w * h → point_at rc i = inr (mkPoint (i `mod` w) (i / w)).
Proof.
  intros Hi. assert (0 < w) by nia. unfold point_at, contains_index, rect_size, rect_width, rect_height, area, CheckSub, CheckMul.
  cbn [x y left top right bottom _topLeft _bottomRight rect_ltrb]. rewrite !Z.sub_0_r.
  destruct (Z.leb_spec 0 i); [|lia]. rewrite (chk_ok w), (chk_ok h) by lia. cbn [mbind result_bind mret result_ret width height].
  rewrite chk_ok by nia. cbn [mbind result_bind mret result_ret]. destruct (Z.ltb_spec i (w * h)); [|lia]. cbn [negb].
  rewrite !Z.add_0_r. rewrite Z.rem_mod_nonneg, Z.quot_div_nonneg by lia.
  pose proof (Z.mod_pos_bound i w ltac:(lia)). assert (0 <= i / w < h) by (split; [apply Z.div_pos; lia|apply Z.div_lt_upper_bound; lia]).
  rewrite !wraps_small by lia. done.
Qed.

(** The cell of a point; nothing is set outside. *)
Definition cell_of (bits : list bool) (p : point) : bool := contains rc p && bit_at bits (y p * w + x p).

Lemma cell_of_index bits i : 0 <= i < w * h → cell_of bits (mkPoint (i `mod` w) (i / w)) = bit_at bits i.
Proof.
  intros Hi. assert (0 < w) by nia. unfold cell_of. rewrite (proj2 (contains_rc _)).
  - cbn [andb x y]. f_equal. pose proof (Z.div_mod i w). lia.
  - cbn [x y]. split; [apply Z.mod_pos_bound; lia|]. split; [apply Z.div_pos; lia|apply Z.div_lt_upper_bound; lia].
Qed.

Lemma cell_of_in bits i j : 0 <= i < w → 0 <= j < h → cell_of bits (mkPoint i j) = bit_at bits (j * w + i).
Proof. intros. unfold cell_of. by rewrite (proj2 (contains_rc _)). Qed.

Lemma cell_of_out bits p : ¬ (0 <= x p < w ∧ 0 <= y p < h) → cell_of bits p = false.
Proof. intros Hn. unfold cell_of. destruct (contains rc p) eqn:E; [|done]. by apply contains_rc in E. Qed.

Lemma index_row i : 0 < w → 0 <= i → i / w * w <= i < i / w * w + w.
Proof. intros. pose proof (Z.div_mod i w). pose proof (Z.mod_pos_bound i w). lia. Qed.

(** ** Setting *)

Lemma index_in_row l r row i j : 0 <= i < w → 0 <= l → r <= w →
  (row * w + l <=? j * w + i) && (j * w + i <? row * w + l + (r - l))
  = (row =? j) && (l <=? i) && (i <? r).
Proof.
  intros. destruct (Z.eqb_spec row j) as [->|]; cbn [andb].
  - destruct (Z.leb_spec l i), (Z.ltb_spec i r), (Z.leb_spec (j * w + l) (j * w + i)), (Z.ltb_spec (j * w + i) (j * w + l + (r - l))); done || lia.
  - destruct (Z.leb_spec (row * w + l) (j * w + i)), (Z.ltb_spec (j * w + i) (row * w + l + (r - l))); try done. nia.
Qed.

Definition inside (r : rectangle) : Prop := 0 <= left r < right r ∧ right r <= w ∧ 0 <= top r < bottom r ∧ bottom r <= h.

Lemma rect_width_inside r : inside r → rect_width r = inr (right r - left r).
Proof. unfold inside. intros. apply chk_ok. lia. Qed.

Lemma set_rows_ok r n : inside r → ∀ row bits, 0 <= row → row + Z.of_nat n <= h → Z.of_nat (length bits) = w * h →
  ∃ bits', set_rows n rc r row bits = inr bits' ∧ Z.of_nat (length bits') = w * h
    ∧ ∀ i j, 0 <= i < w → 0 <= j < h →
      bit_at bits' (j * w + i)
      = (left r <=? i) && (i <? right r) && (row <=? j) && (j <? row + Z.of_nat n) || bit_at bits (j * w + i).
Proof.
  intros Hr. pose proof Hr as (Hr1 & Hr2 & Hr3 & Hr4). induction n as [|n IH]; intros row bits Hrow Hn Hl; cbn [set_rows].
  - exists bits. split_and!; [done..|]. intros i j _ _.
    destruct (Z.leb_spec row j), (Z.ltb_spec j (row + Z.of_nat 0)); rewrite ?andb_false_r; done || lia.
  - rewrite index_of_ok by lia. cbn [mbind result_bind]. rewrite (rect_width_inside r Hr). cbn [mbind result_bind].
    assert (row * w + left r + (right r - left r) <= Z.of_nat (length bits)) by nia.
    destruct (IH (row + 1) (bitset_set (row * w + left r) (right r - left r) true bits)) as (bits' & -> & Hl' & Hb); [lia|lia| |].
    { rewrite length_bitset_set; [lia|nia|lia|lia]. }
    exists bits'. split_and!; [done..|]. intros i j Hi Hj. rewrite Hb, bit_at_set, index_in_row by nia.
    destruct (Z.eqb_spec row j) as [->|]; cbn [andb].
    + destruct (Z.leb_spec (left r) i), (Z.ltb_spec i (right r)), (Z.leb_spec (j + 1) j), (Z.leb_spec j j),
        (Z.ltb_spec j (j + Z.of_nat (S n))); cbn; done || lia.
    + f_equal. destruct (Z.leb_spec (row + 1) j), (Z.leb_spec row j), (Z.ltb_spec j (row + 1 + Z.of_nat n)),
        (Z.ltb_spec j (row + Z.of_nat (S n))); cbn; rewrite ?andb_false_r; done || lia.
Qed.

Lemma inside_nonempty r : inside r → empty r = false.
Proof. unfold inside, empty, rect_bool. intros. destruct (Z.ltb_spec (left r) (right r)), (Z.ltb_spec (top r) (bottom r)); done || lia. Qed.

Lemma rc_nonempty : 0 < w → 0 < h → empty rc = false.
Proof. intros. apply inside_nonempty. unfold inside, left, right, top, bottom. cbn. lia. Qed.

Lemma rect_eqb_spec r s : rect_eqb r s = true ↔ r = s.
Proof.
  unfold rect_eqb, point_eqb. rewrite !andb_true_iff, !Z.eqb_eq. destruct r as [[] []], s as [[] []]; cbn.
  split; [by intros [[-> ->] [-> ->]]|by intros [= -> -> -> ->]].
Qed.

(** A rectangle with cells is contained where its sides are. *)
Lemma contains_rect_spec r : empty r = false → 0 < w → 0 < h → contains_rect rc r = true ↔ inside r.
Proof.
  intros He H0 H1. unfold contains_rect, rect_or. rewrite rc_nonempty, He, rect_eqb_spec by done. cbn [andb].
  unfold empty, rect_bool in He. apply negb_false_iff, andb_true_iff in He as [H2%Z.ltb_lt H3%Z.ltb_lt].
  unfold inside, rect_ltrb, left, right, top, bottom in *. cbn. split.
  - intros [= ? ? ? ?]. lia.
  - intros. f_equal; f_equal; lia.
Qed.

Record bm_ok (b : bitmap) : Prop := mkOk {
  ok_sz : _sz b = mkSize w h;
  ok_rc : _rc b = rc;
  ok_len : Z.of_nat (length (_bits b)) = w * h;
  ok_runs : ∀ rs, _runs b = Some rs → iterate b = inr rs }.

Lemma with_bits_ok b bits : bm_ok b → Z.of_nat (length bits) = w * h → bm_ok (with_bits bits b).
Proof. intros [? ? ? ?] ?. by split. Qed.

Lemma set_ok b r : bm_ok b → inside r →
  ∃ b', set r b = inr b' ∧ bm_ok b' ∧ ∀ p, cell_of (_bits b') p = contains r p || cell_of (_bits b) p.
Proof.
  intros Hb Hr. pose proof Hr as (Hr1 & Hr2 & Hr3 & Hr4). pose proof Hb as [Hs Hrc Hl _]. unfold set. rewrite Hrc.
  rewrite (proj2 (contains_rect_spec r (inside_nonempty r Hr) ltac:(lia) ltac:(lia))) by done. cbn [negb].
  destruct (set_rows_ok r (Z.to_nat (bottom r - top r)) Hr (top r) (_bits b)) as (bits & -> & Hl' & Hbits); [lia..|].
  exists (with_bits bits b). split_and!; [done|by apply with_bits_ok|]. intros [i j].
  unfold cell_of. destruct (contains rc (mkPoint i j)) eqn:E.
  - apply contains_rc in E as [Hi Hj]; cbn in *. rewrite Hbits by done. f_equal. unfold contains. cbn [x y].
    replace (top r + Z.of_nat (Z.to_nat (bottom r - top r))) with (bottom r) by lia. done.
  - cbn [andb]. rewrite orb_false_r. symmetry. apply not_true_iff_false. intros Hc%contains_spec.
    apply not_true_iff_false in E. apply E, contains_rc. cbn in *. lia.
Qed.

Lemma set_nothing b : bm_ok b → 0 < w → 0 < h → set rect_empty b = inr (with_bits (_bits b) b).
Proof.
  intros [Hs Hrc Hl _] ? ?. unfold set. rewrite Hrc. unfold contains_rect, rect_or.
  rewrite rc_nonempty by done. change (empty rect_empty) with true. cbn [andb].
  by rewrite (proj2 (rect_eqb_spec rc rc)).
Qed.

(** A piece of the map that may be empty. *)
Lemma set_piece b r : bm_ok b → 0 < w → 0 < h → inside r ∨ r = rect_empty →
  ∃ b', set r b = inr b' ∧ bm_ok b' ∧ ∀ p, cell_of (_bits b') p = contains r p || cell_of (_bits b) p.
Proof.
  intros Hb H0 H1 [Hr| ->]; [by apply set_ok|]. exists (with_bits (_bits b) b). split_and!.
  - by apply set_nothing.
  - apply with_bits_ok; [done|apply Hb].
  - intros p. replace (contains rect_empty p) with false; [done|]. symmetry. apply not_true_iff_false.
    intros Hc%contains_spec. cbn in Hc. lia.
Qed.

Lemma set_list_ok rs : ∀ b, bm_ok b → Forall inside rs →
  ∃ b', set_list rs b = inr b' ∧ bm_ok b'
    ∧ ∀ p, cell_of (_bits b') p = existsb (λ r, contains r p) rs || cell_of (_bits b) p.
Proof.
  induction rs as [|r rs IH]; intros b Hb Hrs; cbn [set_list existsb]; [by exists b|].
  inversion_clear Hrs as [|? ? Hr Hrs']. destruct (set_ok b r Hb Hr) as (b1 & -> & Hb1 & Hc1). cbn [mbind result_bind].
  destruct (IH b1 Hb1 Hrs') as (b2 & -> & Hb2 & Hc2). exists b2. split_and!; [done..|].
  intros p. rewrite Hc2, Hc1. destruct (contains r p), (existsb _ rs); done.
Qed.

(** ** Runs *)

(** A maximal run: a piece of one row whose cells are set and whose neighbours are not. *)
Definition maximal_run (bits : list bool) (r : rectangle) : Prop :=
  inside r ∧ bottom r = top r + 1
  ∧ (∀ i, left r <= i < right r → cell_of bits (mkPoint i (top r)) = true)
  ∧ cell_of bits (mkPoint (left r - 1) (top r)) = false
  ∧ cell_of bits (mkPoint (right r) (top r)) = false.

(** The positions of a run in the bits. *)
Definition first_of (r : rectangle) : Z := top r * w + left r.

(** A place where a run may end: the start of a row, or a cell that is off. *)
Definition boundary (bits : list bool) (pos : Z) : Prop := pos `mod` w = 0 ∨ bit_at bits pos = false.

Lemma calculateArea_ok bits pos : 0 < w → Z.of_nat (length bits) = w * h → 0 <= pos <= w * h → boundary bits pos →
  ∃ it, _calculateArea bits rc pos (w * h) = inr it ∧ _end it = w * h
    ∧ ((_pos it = w * h ∧ ∀ k, pos <= k < w * h → bit_at bits k = false)
       ∨ _pos it = pos ∧ pos < _nextPos it <= w * h ∧ boundary bits (_nextPos it)
         ∧ maximal_run bits (_run it)
         ∧ pos <= first_of (_run it) ∧ first_of (_run it) + (right (_run it) - left (_run it)) = _nextPos it
         ∧ ∀ k, pos <= k < _nextPos it → bit_at bits k = (first_of (_run it) <=? k)).
Proof.
  intros H0 Hl Hp Hbd. unfold _calculateArea. pose proof (found_spec bits pos ltac:(lia)) as Hf.
  destruct (if pos =? 0 then _ else _) as [s|]; cbn [default from_option].
  2: { destruct (Z.ltb_spec PTRDIFF_MAX (w * h)); [unfold PTRDIFF_MAX in *; lia|].
       eexists. split; [done|]. split; [done|]. left. cbn. split; [done|]. intros k Hk. apply Hf. lia. }
  destruct Hf as (Hs & Hbs & Hbefore). change (id s) with s. rewrite Hl in Hs.
  destruct (Z.ltb_spec s (w * h)); [|lia]. rewrite point_at_ok by lia. cbn [mbind result_bind y right _bottomRight rect_ltrb x].
  pose proof (index_row s H0 ltac:(lia)) as Hrow. pose proof (Z.mod_pos_bound s w H0). pose proof (Z.div_mod s w ltac:(lia)).
  assert (0 <= s / w < h) as Hy by (split; [apply Z.div_pos; lia|apply Z.div_lt_upper_bound; lia]).
  rewrite (wraps_small 64) by lia. rewrite index_of_ok by lia. cbn [mbind result_bind].
  assert (s / w * w + (w - 1) + 1 <= w * h) by nia. rewrite (wraps_small 64) by lia.
  set (row := s / w * w + (w - 1) + 1) in *.
  destruct (run_end_spec (Z.to_nat (row - s)) bits row s) as (He & Hall & Hend); [unfold row; lia|lia|done|].
  set (e := run_end _ bits row s) in *. unfold rect_of_point_size, point_add, point_op, CheckAdd, point_of_size.
  cbn [x y width height]. rewrite chk_ok by lia. cbn [mbind result_bind]. rewrite chk_ok by lia. cbn [mbind result_bind mret result_ret].
  eexists. split; [done|]. split; [done|]. right. cbn [_pos _nextPos _run]. unfold first_of, left, right, top, bottom. cbn [_topLeft _bottomRight x y].
  replace (s / w * w + s `mod` w) with s by lia. split_and!; try lia.
  - unfold boundary. destruct Hend as [->|?]; [|by right]. left. unfold row.
    replace (s / w * w + (w - 1) + 1) with ((s / w + 1) * w) by lia. apply Z.mod_mul. lia.
  - unfold maximal_run, inside, left, right, top, bottom. cbn [_topLeft _bottomRight x y]. split_and!; try lia.
    + intros i Hi. rewrite cell_of_in by (unfold row in *; lia). apply Hall. lia.
    + destruct (Z.eq_dec (s `mod` w) 0) as [E|E].
      * apply cell_of_out. cbn. lia.
      * rewrite cell_of_in by lia. replace (s / w * w + (s `mod` w - 1)) with (s - 1) by lia.
        destruct (Z.eq_dec s pos) as [->|]; [|apply Hbefore; lia]. destruct Hbd as [?|Hb]; [done|congruence].
    + destruct Hend as [Ee|Ee].
      * apply cell_of_out. cbn. unfold row in *. lia.
      * destruct (Z.eq_dec e row); [apply cell_of_out; cbn; unfold row in *; lia|].
        rewrite cell_of_in by (unfold row in *; lia). rewrite <- Ee. f_equal. lia.
  - intros k Hk. destruct (Z.leb_spec s k); [apply Hall; lia|apply Hbefore; lia].
Qed.

(** The positions that a run covers. *)
Definition covers (r : rectangle) (k : Z) : bool := (first_of r <=? k) && (k <? first_of r + (right r - left r)).

Lemma contains_covers bits r i j : maximal_run bits r → 0 <= i < w → contains r (mkPoint i j) = covers r (j * w + i).
Proof.
  intros ((? & ? & _) & Hb & _) Hi. unfold contains, covers, first_of. rewrite index_in_row by lia. cbn [x y]. rewrite Hb.
  destruct (Z.eqb_spec (top r) j), (Z.leb_spec (top r) j), (Z.ltb_spec j (top r + 1)); rewrite ?andb_true_r, ?andb_false_r; done || lia.
Qed.

Definition before (r s : rectangle) : Prop := first_of r + (right r - left r) <= first_of s.

(** The loop from a position on. *)
Lemma runs_loop_ok bits fuel : 0 < w → Z.of_nat (length bits) = w * h →
  ∀ pos it, 0 <= pos <= w * h → boundary bits pos → _calculateArea bits rc pos (w * h) = inr it →
  w * h - pos < Z.of_nat fuel →
  ∃ rs, runs_loop fuel bits rc (w * h) it = inr rs ∧ Forall (maximal_run bits) rs
    ∧ StronglySorted before rs ∧ Forall (λ r, pos <= first_of r) rs
    ∧ ∀ k, pos <= k < w * h → bit_at bits k = existsb (λ r, covers r k) rs.
Proof.
  intros H0 Hl. induction fuel as [|fuel IH]; intros pos it Hp Hbd Hit Hfuel; [lia|].
  destruct (calculateArea_ok bits pos H0 Hl Hp Hbd) as (it0 & Hit0 & Hend & Hcase). rewrite Hit in Hit0. injection Hit0 as <-.
  cbn [runs_loop]. destruct Hcase as [[-> Hoff]|(-> & Hnx & Hbd' & Hmax & Hfst & Hlst & Hbits)].
  - rewrite Z.eqb_refl. exists []. split_and!; done || constructor.
  - destruct (Z.eqb_spec pos (w * h)); [lia|]. unfold iterator_next. rewrite Hend.
    destruct (calculateArea_ok bits (_nextPos it) H0 Hl ltac:(lia) Hbd') as (it' & Hit' & _). rewrite Hit'. cbn [mbind result_bind].
    destruct (IH (_nextPos it) it' ltac:(lia) Hbd' Hit' ltac:(lia)) as (rs & -> & HF & HS & Hge & Hk). cbn [mbind result_bind].
    exists (_run it :: rs). split_and!; [done|by constructor| | |].
    + constructor; [done|]. eapply Forall_impl; [exact Hge|]. intros r Hr. cbn in Hr. unfold before. lia.
    + constructor; [done|]. eapply Forall_impl; [exact Hge|]. intros r Hr. cbn in *. lia.
    + intros k Hkr. cbn [existsb]. destruct (Z.lt_ge_cases k (_nextPos it)).
      * rewrite Hbits by lia. unfold covers at 1. destruct (Z.leb_spec (first_of (_run it)) k); cbn [andb].
        -- destruct (Z.ltb_spec k (first_of (_run it) + (right (_run it) - left (_run it)))); [done|lia].
        -- symmetry. apply not_true_iff_false. intros (r & Hin & Hc)%existsb_exists.
           rewrite Forall_forall in Hge. specialize (Hge r ltac:(by apply list_elem_of_In)). unfold covers in Hc. zify_bool. lia.
      * rewrite Hk by lia. replace (covers (_run it) k) with false; [done|]. symmetry. unfold covers. apply andb_false_iff. right.
        apply Z.ltb_ge. lia.
Qed.

(** What the iteration over a bitmap gives. *)
Definition runs_of (bits : list bool) (rs : list rectangle) : Prop :=
  Forall (maximal_run bits) rs ∧ StronglySorted before rs
  ∧ ∀ p, cell_of bits p = existsb (λ r, contains r p) rs.

Lemma iterator_init_eq bits pos : iterator_init bits rc pos = _calculateArea bits rc pos (w * h).
Proof.
  unfold iterator_init, rect_size, rect_width, rect_height, CheckSub, area, CheckMul.
  cbn [right left top bottom _topLeft _bottomRight rect_ltrb x y]. rewrite !Z.sub_0_r.
  rewrite (chk_ok w), (chk_ok h) by lia. cbn [mbind result_bind mret result_ret width height]. by rewrite chk_ok by nia.
Qed.

Lemma existsb_contains bits rs i j : Forall (maximal_run bits) rs → 0 <= i < w →
  existsb (λ r, contains r (mkPoint i j)) rs = existsb (λ r, covers r (j * w + i)) rs.
Proof.
  intros HF Hi. induction HF as [|r rs Hr _ IH]; cbn [existsb]; [done|]. by rewrite IH, (contains_covers bits).
Qed.

Lemma contains_outside bits rs p : Forall (maximal_run bits) rs → ¬ (0 <= x p < w ∧ 0 <= y p < h) →
  existsb (λ r, contains r p) rs = false.
Proof.
  intros HF Hp. apply not_true_iff_false. intros (r & Hin & Hc%contains_spec)%existsb_exists.
  rewrite Forall_forall in HF. destruct (HF r ltac:(by apply list_elem_of_In)) as ((? & ? & ? & ?) & _). lia.
Qed.

Lemma iterate_ok b : bm_ok b → ∃ rs, iterate b = inr rs ∧ runs_of (_bits b) rs.
Proof.
  intros [Hs Hrc Hl _]. unfold iterate, begin, end_, rect_of_size. rewrite Hs. cbn [width height].
  unfold area, CheckMul. cbn [width height]. rewrite (chk_ok (w * h)) by nia. cbn [mbind result_bind]. rewrite !iterator_init_eq.
  destruct (Z.eq_dec w 0) as [Ew|Ew].
  - destruct (_bits b) as [|? ?] eqn:Eb; [|cbn in Hl; nia]. exists []. split.
    + assert (w * h = 0) as -> by nia. unfold _calculateArea. cbn. done.
    + split_and!; [done|constructor|]. intros p. unfold cell_of. cbn. apply andb_false_iff. right. unfold bit_at. by rewrite lookup_nil.
  - assert (0 < w) as H0 by lia. assert (boundary (_bits b) 0) as Hbd by (by left).
    assert (boundary (_bits b) (w * h)) as Hbd' by (left; rewrite Z.mul_comm; apply Z.mod_mul; lia).
    destruct (calculateArea_ok (_bits b) 0 H0 Hl ltac:(nia) Hbd) as (it & Hit & _).
    destruct (calculateArea_ok (_bits b) (w * h) H0 Hl ltac:(nia) Hbd') as (e & He & _ & [[Hpe _]|(_ & ? & _)]); [|lia].
    rewrite Hit, He. cbn [mbind result_bind]. rewrite Hpe.
    destruct (runs_loop_ok (_bits b) (S (length (_bits b))) H0 Hl 0 it ltac:(nia) Hbd Hit ltac:(lia)) as (rs & -> & HF & HS & _ & Hk).
    exists rs. split; [done|]. split_and!; [done..|]. intros [i j].
    destruct (decide (0 <= i < w ∧ 0 <= j < h)) as [[Hi Hj]|Hn].
    + rewrite cell_of_in by done. rewrite (existsb_contains (_bits b)), Hk by (done || by apply bit_index_range). done.
    + rewrite cell_of_out by done. symmetry. by eapply contains_outside.
Qed.

(** A cell is in at most one run. *)
Lemma runs_disjoint bits rs a c r s p : runs_of bits rs → rs !! a = Some r → rs !! c = Some s →
  contains r p = true → contains s p = true → a = c.
Proof.
  intros (HF & HS & _). assert (∀ a c r s, (a < c)%nat → rs !! a = Some r → rs !! c = Some s →
    contains r p = true → contains s p = true → False) as Hlt.
  { clear a c r s. intros a c r s Hac Hr Hs Hcr Hcs. destruct p as [i j].
    pose proof (proj1 (Forall_lookup _ _) HF _ _ Hr) as Hmr. pose proof (proj1 (Forall_lookup _ _) HF _ _ Hs) as Hms.
    assert (before r s) as Hb.
    { revert a c Hac Hr Hs. clear HF Hmr Hms. induction HS as [|q qs HS IH HF]; intros a c Hac Hr Hs; [done|].
      destruct a as [|a], c as [|c]; cbn in *; try lia.
      - injection Hr as ->. by apply (proj1 (Forall_lookup _ _) HF c).
      - apply (IH a c); [lia|done..]. }
    assert (0 <= i < w) as Hi by (pose proof (proj1 (contains_spec _ _) Hcr); destruct Hmr as ((? & ? & _) & _); cbn in *; lia).
    rewrite (contains_covers bits) in Hcr, Hcs by done. unfold covers, before in *. zify_bool. lia. }
  intros Hr Hs Hcr Hcs. destruct (Nat.lt_trichotomy a c) as [?|[?|?]]; [|done|]; exfalso; eauto.
Qed.

(** ** New maps and pieces of rectangles *)

(** Without a set cell there is no run: the empty cache of a new map is right. *)
Lemma iterate_blank b : bm_ok (with_bits (_bits b) b) → (∀ p, cell_of (_bits b) p = false) → iterate b = inr [].
Proof.
  intros Hb Hc. destruct (iterate_ok _ Hb) as (rs & Hit & HF & _). cbn [_bits with_bits] in HF.
  change (iterate b = inr rs) in Hit. rewrite Hit. destruct HF as [|r rs ((? & _) & _ & Hr & _)]; [done|].
  specialize (Hr (left r) ltac:(lia)). by rewrite Hc in Hr.
Qed.

Lemma bitmap_init_ok : ∃ b, bitmap_init (mkSize w h) false = inr b ∧ bm_ok b ∧ ∀ p, cell_of (_bits b) p = false.
Proof.
  unfold bitmap_init, area, CheckMul. cbn [width height]. rewrite chk_ok by nia. cbn [mbind result_bind].
  eexists. split; [done|]. set (b := mkBitmap _ _ _ _).
  assert (Z.of_nat (length (_bits b)) = w * h) as Hl.
  { cbn. unfold bitset_init. rewrite length_map, length_seqZ. nia. }
  assert (∀ p, cell_of (_bits b) p = false) as Hc.
  { intros p. unfold cell_of. apply andb_false_iff. right. cbn. unfold bit_at, bitset_init.
    rewrite list_lookup_fmap. destruct (seqZ 0 (w * h) !! _); [|done]. cbn. rewrite Z.testbit_0_l. by destruct (_ <? _). }
  split; [|done]. split; try done. intros rs E. cbn [_runs b] in E. injection E as <-. by apply iterate_blank.
Qed.

End Map.

Lemma rect_and_contains r s p : contains (rect_and r s) p = contains r p && contains s p.
Proof.
  assert (contains (rect_and r s) p = true ↔ contains r p && contains s p = true) as Hi.
  { rewrite andb_true_iff, !contains_spec. unfold rect_and.
    destruct (Z.leb_spec (Z.min (right r) (right s)) (Z.max (left r) (left s))); [cbn; lia|].
    destruct (Z.leb_spec (Z.min (bottom r) (bottom s)) (Z.max (top r) (top s))); [cbn; lia|].
    cbn. lia. }
  destruct (contains (rect_and r s) p), (contains r p && contains s p); intuition congruence.
Qed.

Lemma rect_and_piece w h r : 0 < w → 0 < h → inside w h (rect_and r (rect_ltrb 0 0 w h)) ∨ rect_and r (rect_ltrb 0 0 w h) = rect_empty.
Proof.
  intros. unfold rect_and. cbn [left right top bottom _topLeft _bottomRight rect_ltrb x y].
  destruct (Z.leb_spec (Z.min (right r) w) (Z.max (left r) 0)); [by right|].
  destruct (Z.leb_spec (Z.min (bottom r) h) (Z.max (top r) 0)); [by right|].
  left. unfold inside, left, right, top, bottom. cbn. unfold right, left, top, bottom in *. lia.
Qed.

Lemma empty_spec r : empty r = false ↔ left r < right r ∧ top r < bottom r.
Proof. unfold empty, rect_bool. rewrite negb_false_iff, andb_true_iff, !Z.ltb_lt. done. Qed.

Lemma rect_and_sub r s : empty (rect_and r s) = false →
  left r <= left (rect_and r s) ∧ right (rect_and r s) <= right r ∧ top r <= top (rect_and r s)
  ∧ bottom (rect_and r s) <= bottom r ∧ left (rect_and r s) < right (rect_and r s) ∧ top (rect_and r s) < bottom (rect_and r s).
Proof.
  intros [? ?]%empty_spec. unfold rect_and in *. destruct (_ <=? _); [cbn in *; lia|]. destruct (_ <=? _); cbn in *; lia.
Qed.

(** The pieces that a subtraction keeps: none is empty, all are in the rectangle. *)
Definition part_of (this r : rectangle) : Prop :=
  left this <= left r < right r ∧ right r <= right this ∧ top this <= top r < bottom r ∧ bottom r <= bottom this.

Lemma keep_piece (this r : rectangle) : left this <= left r → right r <= right this → top this <= top r → bottom r <= bottom this →
  Forall (part_of this) (if negb (empty r) then [r] else []).
Proof.
  intros. destruct (empty r) eqn:E; cbn; [constructor|]. apply empty_spec in E. repeat constructor; lia.
Qed.

Lemma keep_contains r p : existsb (λ r, contains r p) (if negb (empty r) then [r] else []) = contains r p.
Proof.
  destruct (empty r) eqn:E; cbn; [|apply orb_false_r]. symmetry. apply not_true_iff_false. intros Hc%contains_spec.
  assert (empty r = false) by (apply empty_spec; lia). congruence.
Qed.

Lemma rect_minus_spec this other : empty this = false →
  Forall (part_of this) (rect_minus this other)
  ∧ ∀ p, existsb (λ r, contains r p) (rect_minus this other) = contains this p && negb (contains other p).
Proof.
  intros He. pose proof (proj1 (empty_spec this) He) as [H0 H1]. unfold rect_minus.
  destruct (empty (rect_and this other)) eqn:Ei.
  - split; [repeat constructor; lia|]. intros p. cbn. rewrite orb_false_r.
    assert (contains (rect_and this other) p = false) as Hn.
    { apply not_true_iff_false. intros Hc%contains_spec. assert (empty (rect_and this other) = false) by (apply empty_spec; lia). congruence. }
    rewrite rect_and_contains in Hn. destruct (contains this p), (contains other p); done.
  - pose proof (rect_and_sub _ _ Ei) as Hs. assert (∀ p, contains this p && negb (contains other p)
      = contains this p && negb (contains (rect_and this other) p)) as Hc.
    { intros p. rewrite rect_and_contains. by destruct (contains this p), (contains other p). }
    set (m := rect_and this other) in *. destruct (rect_eqb this m) eqn:Eq; cbn [negb].
    + split; [constructor|]. intros p. rewrite Hc. apply rect_eqb_spec in Eq as <-. by destruct (contains this p).
    + split.
      * repeat apply Forall_app_2; apply keep_piece; cbn; unfold left, right, top, bottom in *; lia.
      * intros p. rewrite Hc, !existsb_app, !keep_contains.
        assert (∀ b c : bool, (b = true ↔ c = true) → b = c) as Hb by (intros [] []; intuition congruence).
        apply Hb. rewrite !orb_true_iff, andb_true_iff, negb_true_iff, <- not_true_iff_false, !contains_spec.
        unfold left, right, top, bottom in *. cbn. lia.
Qed.

Lemma rect_add_point_ok rc p : - 2 ^ 63 <= left rc + x p < 2 ^ 63 → - 2 ^ 63 <= top rc + y p < 2 ^ 63 →
  - 2 ^ 63 <= right rc + x p < 2 ^ 63 → - 2 ^ 63 <= bottom rc + y p < 2 ^ 63 →
  rect_add_point rc p = inr (rect_ltrb (left rc + x p) (top rc + y p) (right rc + x p) (bottom rc + y p)).
Proof. intros. unfold rect_add_point, rect_point_op, CheckAdd. by rewrite !chk_ok by done. Qed.

Definition shifted (delta p : point) : point := mkPoint (x p - x delta) (y p - y delta).

Lemma contains_shift rc d p :
  contains (rect_ltrb (left rc + x d) (top rc + y d) (right rc + x d) (bottom rc + y d)) p = contains rc (shifted d p).
Proof.
  unfold contains, shifted, left, right, top, bottom. cbn.
  destruct rc as [[l t] [r b]], d as [dx dy], p as [i j]; cbn.
  destruct (Z.leb_spec (l + dx) i), (Z.leb_spec l (i - dx)), (Z.ltb_spec i (r + dx)), (Z.ltb_spec (i - dx) r),
    (Z.leb_spec (t + dy) j), (Z.leb_spec t (j - dy)), (Z.ltb_spec j (b + dy)), (Z.ltb_spec (j - dy) b); done || lia.
Qed.

(** ** Moving *)

Section Move.
Context (w h : Z) (Hw : 0 < w < 2 ^ 63) (Hh : 0 < h < 2 ^ 63) (Ha : w * h < 2 ^ 63).
#[local] Notation rc := (rect_ltrb 0 0 w h).

(** A distance over which the map can be moved without overflow. *)
Definition movable (d : point) : Prop :=
  - 2 ^ 63 <= x d ∧ x d + w < 2 ^ 63 ∧ - 2 ^ 63 <= y d ∧ y d + h < 2 ^ 63 ∧ - 2 ^ 63 < y d * w < 2 ^ 63.

Lemma translate_runs_ok d rs : movable d → Forall (inside w h) rs → ∀ other, bm_ok w h other →
  ∃ other', translate_runs d rc rs other = inr other' ∧ bm_ok w h other'
    ∧ ∀ p, cell_of w h (_bits other') p
           = contains rc p && existsb (λ r, contains r (shifted d p)) rs || cell_of w h (_bits other) p.
Proof.
  intros Hd HF. induction HF as [|r rs (? & ? & ? & ?) _ IH]; intros other Ho; cbn [translate_runs existsb].
  - exists other. split_and!; [done..|]. intros p. by rewrite andb_false_r.
  - destruct Hd as (? & ? & ? & ? & _). rewrite rect_add_point_ok by lia. cbn [mbind result_bind].
    destruct (set_piece w h ltac:(lia) ltac:(lia) ltac:(lia) other _ Ho ltac:(lia) ltac:(lia)
      (rect_and_piece w h (rect_ltrb (left r + x d) (top r + y d) (right r + x d) (bottom r + y d)) ltac:(lia) ltac:(lia)))
      as (o1 & -> & Ho1 & Hc1). cbn [mbind result_bind].
    destruct (IH o1 Ho1) as (o2 & -> & Ho2 & Hc2). exists o2. split_and!; [done..|]. intros p.
    rewrite Hc2, Hc1, rect_and_contains, contains_shift.
    destruct (contains rc p), (contains r (shifted d p)), (existsb _ rs); cbn; rewrite ?orb_true_r; done.
Qed.

Lemma translate_y_ok b dy fill : bm_ok w h b → movable (mkPoint 0 dy) →
  bm_ok w h (translate_y dy fill b) ∧ ∀ p, contains rc p = true →
    cell_of w h (_bits (translate_y dy fill b)) p
    = if contains rc (shifted (mkPoint 0 dy) p) then cell_of w h (_bits b) (shifted (mkPoint 0 dy) p) else fill.
Proof.
  intros Hb (_ & _ & _ & _ & Hm). cbn [x y] in Hm. pose proof Hb as [Hs Hrc Hl _]. unfold translate_y. rewrite Hs. cbn [width].
  destruct (Z.eqb_spec dy 0) as [->|Hdy].
  { split; [done|]. intros [i j] Hp. unfold shifted. cbn [x y]. rewrite !Z.sub_0_r, Hp. done. }
  rewrite (wraps_small 64) by lia.
  assert (∀ i j, 0 <= i < w → 0 <= j < h → contains rc (shifted (mkPoint 0 dy) (mkPoint i j)) = (0 <=? j - dy) && (j - dy <? h)) as Hcs.
  { intros i j Hi Hj. unfold shifted, contains. cbn. rewrite Z.sub_0_r.
    destruct (Z.leb_spec 0 i), (Z.ltb_spec i w); done || lia. }
  assert (∀ bits, Z.of_nat (length bits) = w * h →
    (∀ i j, 0 <= i < w → 0 <= j < h → bit_at bits (j * w + i)
       = if (0 <=? j - dy) && (j - dy <? h) then bit_at (_bits b) ((j - dy) * w + i) else fill) →
    bm_ok w h (with_bits bits b) ∧ ∀ p, contains rc p = true → cell_of w h (_bits (with_bits bits b)) p
    = if contains rc (shifted (mkPoint 0 dy) p) then cell_of w h (_bits b) (shifted (mkPoint 0 dy) p) else fill) as Hgo.
  { intros bits Hlb Hbits. split; [by apply with_bits_ok|]. intros [i j] [Hi Hj]%contains_rc. cbn [x y] in *.
    rewrite cell_of_in by done. cbn [_bits with_bits]. rewrite Hbits, Hcs by done.
    destruct (Z.leb_spec 0 (j - dy)), (Z.ltb_spec (j - dy) h); cbn [andb]; try done.
    unfold shifted. cbn [x y]. rewrite Z.sub_0_r, cell_of_in by lia. done. }
  destruct (Z.leb_spec (Z.of_nat (length (_bits b))) (Z.abs (dy * w))) as [Hbig|Hsmall].
  { assert (h <= Z.abs dy) by (rewrite Z.abs_mul in Hbig; rewrite Hl, (Z.abs_eq w) in Hbig by lia; nia).
    unfold set_all, reset_all. destruct fill; apply Hgo; rewrite ?length_replicate; try done; intros i j Hi Hj;
      pose proof (bit_index_range w h i j Hi Hj); unfold bit_at at 1; rewrite lookup_replicate_2 by lia;
      destruct (Z.leb_spec 0 (j - dy)), (Z.ltb_spec (j - dy) h); done || lia. }
  apply Hgo.
  { destruct fill; destruct (0 <? dy * w); rewrite ?length_bitset_set, ?length_shl, ?length_shr; rewrite ?length_shl, ?length_shr; lia. }
  intros i j Hi Hj. pose proof (bit_index_range w h i j Hi Hj).
  destruct (Z.ltb_spec 0 (dy * w)).
  - assert (Z.abs (dy * w) = dy * w) as -> by lia. assert (0 < dy) by nia.
    replace ((j - dy) * w + i) with (j * w + i - dy * w) by lia.
    assert (j < dy → j * w + i < dy * w) by nia. assert (dy <= j → dy * w <= j * w + i) by nia.
    generalize dependent (j * w + i). intros k **. generalize dependent (dy * w). intros m **.
    destruct (Z.ltb_spec (j - dy) h); [|lia]. rewrite andb_true_r.
    destruct fill; rewrite ?bit_at_set by (rewrite ?length_shl; lia); rewrite bit_at_shl by lia;
      destruct (Z.leb_spec 0 (j - dy)), (Z.ltb_spec k m), (Z.leb_spec 0 k), (Z.ltb_spec k (0 + m)); cbn [andb]; done || lia.
  - assert (Z.abs (dy * w) = - (dy * w)) as -> by lia. assert (dy < 0) by nia. rewrite Hl.
    replace ((j - dy) * w + i) with (j * w + i + - (dy * w)) by lia.
    assert (h <= j - dy → w * h - - (dy * w) <= j * w + i) by nia. assert (j - dy < h → j * w + i < w * h - - (dy * w)) by nia.
    generalize dependent (j * w + i). intros k **. generalize dependent (dy * w). intros m **.
    destruct (Z.leb_spec 0 (j - dy)); [|lia]. cbn [andb].
    destruct fill; rewrite ?bit_at_set by (rewrite ?length_shr; lia); rewrite bit_at_shr by lia; rewrite ?Hl;
      destruct (Z.ltb_spec (j - dy) h), (Z.ltb_spec k (w * h - - m)), (Z.leb_spec (w * h - - m) k),
        (Z.ltb_spec k (w * h - - m + - m)); cbn [andb]; done || lia.
Qed.

End Move.

(** ** Theorems *)

(** A bitmap whose parts fit together, and what it says of a cell. *)
Definition bitmap_ok (b : bitmap) : Prop :=
  0 <= width (_sz b) < 2 ^ 63 ∧ 0 <= height (_sz b) < 2 ^ 63 ∧ width (_sz b) * height (_sz b) < 2 ^ 63
  ∧ bm_ok (width (_sz b)) (height (_sz b)) b.

Definition cell (b : bitmap) (p : point) : bool := cell_of (width (_sz b)) (height (_sz b)) (_bits b) p.
Definition bounds (b : bitmap) : rectangle := rect_of_size (_sz b).

Lemma bitmap_ok_of w h b : 0 <= w < 2 ^ 63 → 0 <= h < 2 ^ 63 → w * h < 2 ^ 63 → bm_ok w h b →
  bitmap_ok b ∧ _sz b = mkSize w h ∧ ∀ p, cell b p = cell_of w h (_bits b) p.
Proof. intros ? ? ? Hb. pose proof (ok_sz _ _ _ Hb) as Hs. unfold bitmap_ok, cell. rewrite Hs. cbn [width height]. split_and!; done || lia. Qed.

Lemma maximal_inside w h bits rs : Forall (maximal_run w h bits) rs → Forall (inside w h) rs.
Proof. intros HF. eapply Forall_impl; [exact HF|]. by intros r (? & _). Qed.

(** C24: The runs of a bitmap are computed without an error, from the cache or anew, and are the
    maximal horizontal runs of set cells: each lies in one row with its cells set and its two
    neighbours not set, every set cell is in a run and no cell is in two.
    A cache is trusted by the invariant [bitmap_ok], which the constructor with a fill breaks. *)
Theorem bitmap_runs_correct b : bitmap_ok b →
  ∃ rs b', runs b = inr (rs, b') ∧ bitmap_ok b' ∧ bitmap_eqb b b' = true
    ∧ Forall (maximal_run (width (_sz b)) (height (_sz b)) (_bits b)) rs
    ∧ (∀ p, cell b p = true ↔ ∃ r, r ∈ rs ∧ contains r p = true)
    ∧ ∀ i j r s p, rs !! i = Some r → rs !! j = Some s → contains r p = true → contains s p = true → i = j.
Proof.
  intros (Hw & Hh & Ha & Hb). destruct (iterate_ok _ _ Hw Hh Ha b Hb) as (rs & Hit & Hrs).
  exists rs, (mkBitmap (_sz b) (_rc b) (_bits b) (Some rs)). split_and!.
  - unfold runs. destruct (_runs b) as [rs'|] eqn:E; [|by rewrite Hit].
    rewrite (ok_runs _ _ _ Hb rs' E) in Hit. injection Hit as ->. destruct b; cbn in *. by subst.
  - unfold bitmap_ok. cbn [_sz]. repeat (split; [done|]). destruct Hb as [? ? ? ?]. split; try done.
    intros rs0 E. cbn [_runs] in E. injection E as <-. exact Hit.
  - unfold bitmap_eqb, size_eqb. cbn. rewrite !Z.eqb_refl, bool_decide_eq_true_2, andb_true_r by done.
    cbn. by apply rect_eqb_spec.
  - apply Hrs.
  - intros p. unfold cell. destruct Hrs as (_ & _ & ->). rewrite existsb_exists.
    split; intros (r & Hr & ?); exists r; (split; [by apply list_elem_of_In|done]).
  - intros i j r s p ? ? ? ?. by eapply (runs_disjoint _ _ Hw _ _ i j r s p Hrs).
Qed.

(** C25: Moving a bitmap shows each cell where its content was before the move, and [fill] where
    nothing was: the fast path that shifts the bits and the general one that moves the runs do
    the same. *)
Theorem bitmap_translate_correct b delta fill : bitmap_ok b → size_bool (_sz b) = true →
  movable (width (_sz b)) (height (_sz b)) delta →
  ∃ b', translate delta fill b = inr b' ∧ bitmap_ok b' ∧ _sz b' = _sz b
    ∧ ∀ p, contains (bounds b) p = true →
        cell b' p = if contains (bounds b) (shifted delta p) then cell b (shifted delta p) else fill.
Proof.
  intros (Hw & Hh & Ha & Hb) Hne Hd. unfold size_bool in Hne. zify_bool. unfold cell, bounds, rect_of_size.
  pose proof Hb as [Hs Hrc Hl _]. destruct (_sz b) as [w h] eqn:Esz. cbn [width height] in *.
  assert (∀ b', bm_ok w h b' → bitmap_ok b' ∧ _sz b' = mkSize w h) as Hok.
  { intros b' Hb'. destruct (bitmap_ok_of w h b' Hw Hh Ha Hb') as (? & ? & _). done. }
  unfold translate. destruct (Z.eqb_spec (x delta) 0) as [Ex|Ex].
  - destruct delta as [dx dy]. cbn in Ex. subst dx. cbn [y].
    destruct (translate_y_ok w h ltac:(lia) ltac:(lia) Ha b dy fill Hb Hd) as [Hb' Hc].
    eexists. split; [done|]. destruct (Hok _ Hb') as [? Es]. rewrite Es. by split_and!.
  - destruct (bitmap_init_ok w h Hw Hh Ha) as (o & Ho & Hbo & Hco). rewrite Esz, Ho, Hrc. cbn [mbind result_bind].
    destruct (iterate_ok w h Hw Hh Ha b Hb) as (rs & -> & HF & _ & Hrs). cbn [mbind result_bind].
    destruct (translate_runs_ok w h ltac:(lia) ltac:(lia) Ha delta rs Hd (maximal_inside _ _ _ _ HF) o Hbo) as (o1 & -> & Hb1 & Hc1).
    cbn [mbind result_bind]. assert (∀ p, contains (rect_ltrb 0 0 w h) (shifted delta p) = false →
      cell_of w h (_bits b) (shifted delta p) = false) as Hout.
    { intros p Hp. unfold cell_of. by rewrite Hp. }
    destruct fill.
    + destruct Hd as (? & ? & ? & ? & _). rewrite rect_add_point_ok by (cbn; lia). cbn [mbind result_bind].
      destruct (rect_minus_spec (rect_ltrb 0 0 w h) (rect_ltrb (0 + x delta) (0 + y delta) (w + x delta) (h + y delta))
                  (rc_nonempty w h ltac:(lia) ltac:(lia))) as [HP HM].
      destruct (set_list_ok w h ltac:(lia) ltac:(lia) ltac:(lia) (rect_minus (rect_ltrb 0 0 w h) (rect_ltrb (0 + x delta) (0 + y delta) (w + x delta) (h + y delta))) o1 Hb1 HP)
        as (o2 & Ho2 & Hb2 & Hc2).
      exists o2. destruct (Hok _ Hb2) as [? Es]. rewrite Es. split_and!; [done..|]. intros p Hp. cbn [width height].
      rewrite Hc2, Hc1, Hco, HM, Hp, <- Hrs, orb_false_r.
      change (rect_ltrb (0 + x delta) (0 + y delta) (w + x delta) (h + y delta)) with
        (rect_ltrb (left (rect_ltrb 0 0 w h) + x delta) (top (rect_ltrb 0 0 w h) + y delta)
           (right (rect_ltrb 0 0 w h) + x delta) (bottom (rect_ltrb 0 0 w h) + y delta)).
      rewrite contains_shift. cbn [andb]. by destruct (contains _ (shifted delta p)).
    + exists o1. destruct (Hok _ Hb1) as [? Es]. rewrite Es. split_and!; [done..|]. intros p Hp. cbn [width height].
      rewrite Hc1, Hco, Hp, <- Hrs, orb_false_r. cbn [andb].
      destruct (contains _ (shifted delta p)) eqn:E; [done|by apply Hout].
Qed.

Lemma resize_runs_ok w h rs : 0 < w < 2 ^ 63 → 0 < h < 2 ^ 63 → w * h < 2 ^ 63 → ∀ m, bm_ok w h m →
  ∃ m', resize_runs rs m = inr m' ∧ bm_ok w h m'
    ∧ ∀ p, cell_of w h (_bits m') p
           = contains (rect_ltrb 0 0 w h) p && existsb (λ r, contains r p) rs || cell_of w h (_bits m) p.
Proof.
  intros Hw Hh Ha. induction rs as [|r rs IH]; intros m Hm; cbn [resize_runs existsb].
  - exists m. split_and!; [done..|]. intros p. by rewrite andb_false_r.
  - rewrite (ok_rc _ _ _ Hm). assert (∃ m1, (if negb (empty (rect_and r (rect_ltrb 0 0 w h)))
      then set (rect_and r (rect_ltrb 0 0 w h)) m else mret m) = inr m1 ∧ bm_ok w h m1
      ∧ ∀ p, cell_of w h (_bits m1) p = contains (rect_and r (rect_ltrb 0 0 w h)) p || cell_of w h (_bits m) p) as (m1 & -> & Hm1 & Hc1).
    { destruct (empty (rect_and r (rect_ltrb 0 0 w h))) eqn:E; cbn [negb].
      - exists m. split_and!; [done..|]. intros p.
        assert (contains (rect_and r (rect_ltrb 0 0 w h)) p = false) as ->; [|done].
        apply not_true_iff_false. intros Hc%contains_spec.
        assert (empty (rect_and r (rect_ltrb 0 0 w h)) = false) by (apply empty_spec; lia). congruence.
      - apply set_piece; try lia; [done|]. apply rect_and_piece; lia. }
    cbn [mbind result_bind]. destruct (IH m1 Hm1) as (m2 & -> & Hm2 & Hc2). exists m2. split_and!; [done..|]. intros p.
    rewrite Hc2, Hc1, rect_and_contains.
    destruct (contains (rect_ltrb 0 0 w h) p), (contains r p), (existsb _ rs); cbn; rewrite ?orb_true_r; done.
Qed.

(** Into a map without cells nothing is copied. *)
Lemma resize_runs_empty w h rs m : 0 <= w → 0 <= h → w * h = 0 → _rc m = rect_ltrb 0 0 w h → resize_runs rs m = inr m.
Proof.
  intros ? ? Ha Hm. induction rs as [|r rs IH]; cbn [resize_runs]; [done|].
  assert (empty (rect_and r (_rc m)) = true) as ->; [|done].
  rewrite Hm. destruct (empty _) eqn:He; [done|].
  assert (contains (rect_and r (rect_ltrb 0 0 w h)) (_topLeft (rect_and r (rect_ltrb 0 0 w h))) = true) as Hc.
  { apply contains_spec. apply empty_spec in He. unfold left, right, top, bottom in *. lia. }
  rewrite rect_and_contains in Hc. apply andb_true_iff in Hc as [_ [? ?]%contains_spec]. cbn in *. nia.
Qed.

(** C26: Resizing keeps the cells that both sizes have and gives the new ones the value of [fill];
    it says whether the size changed.  It fails exactly when it is to fill a new size without
    cells that is not zero in both directions. *)
Theorem bitmap_resize_correct b sz fill : bitmap_ok b →
  0 <= width sz < 2 ^ 63 → 0 <= height sz < 2 ^ 63 → width sz * height sz < 2 ^ 63 →
  if fill && negb (size_eqb (_sz b) sz) && negb (size_bool sz) && negb (size_eqb sz (mkSize 0 0))
  then resize sz fill b = inl InvalidArg
  else ∃ b', resize sz fill b = inr (negb (size_eqb (_sz b) sz), b') ∧ bitmap_ok b' ∧ _sz b' = sz
    ∧ ∀ p, contains (rect_of_size sz) p = true →
        cell b' p = if contains (bounds b) p then cell b p else fill.
Proof.
  intros (Hw & Hh & Ha & Hb) Hnw Hnh Hna. pose proof Hb as [Hs Hrc _ _]. unfold resize.
  destruct (size_eqb (_sz b) sz) eqn:Es; cbn [negb]; rewrite ?andb_false_r, ?andb_true_r.
  { unfold size_eqb in Es. zify_bool. assert (sz = _sz b) as -> by (destruct sz, (_sz b); cbn in *; congruence).
    eexists. split; [done|]. split_and!; [|done|].
    - unfold bitmap_ok. cbn [_sz]. repeat (split; [done|]). destruct Hb. by split.
    - intros p Hp. unfold bounds. by rewrite Hp. }
  destruct sz as [w h]. cbn [width height] in *. unfold rect_of_size, size_bool, size_eqb. cbn [width height].
  destruct (bitmap_init_ok w h Hnw Hnh Hna) as (m & -> & Hm & Hcm). cbn [mbind result_bind].
  destruct (iterate_ok _ _ Hw Hh Ha b Hb) as (rs & -> & HF & _ & Hrs). cbn [mbind result_bind].
  destruct (Z.ltb_spec 0 w) as [H0|H0]; [destruct (Z.ltb_spec 0 h) as [H1|H1]|]; cbn [andb negb].
  - rewrite andb_false_r. cbn [andb].
    destruct (resize_runs_ok w h rs ltac:(lia) ltac:(lia) Hna m Hm) as (m1 & -> & Hm1 & Hc1). cbn [mbind result_bind].
    rewrite (ok_rc _ _ _ Hm1), Hrc.
    assert (∃ m2, (if fill then set_list (rect_minus (rect_ltrb 0 0 w h) (rect_ltrb 0 0 (width (_sz b)) (height (_sz b)))) m1 else mret m1) = inr m2
      ∧ bm_ok w h m2 ∧ ∀ p, cell_of w h (_bits m2) p
        = fill && contains (rect_ltrb 0 0 w h) p && negb (contains (rect_ltrb 0 0 (width (_sz b)) (height (_sz b))) p) || cell_of w h (_bits m1) p) as (m2 & -> & Hm2 & Hc2).
    { destruct fill; [|by exists m1].
      destruct (rect_minus_spec (rect_ltrb 0 0 w h) (rect_ltrb 0 0 (width (_sz b)) (height (_sz b))) (rc_nonempty w h H0 H1)) as [HP HM].
      destruct (set_list_ok w h ltac:(lia) ltac:(lia) ltac:(lia) _ m1 Hm1 HP) as (m2 & -> & Hm2 & Hc2).
      exists m2. split_and!; [done..|]. intros p. by rewrite Hc2, HM. }
    cbn [mbind result_bind]. destruct (bitmap_ok_of w h m2 Hnw Hnh Hna Hm2) as (? & ? & Hcell).
    exists m2. split_and!; [done..|]. intros p Hp. rewrite Hcell, Hc2, Hc1, Hcm, Hp, <- Hrs, orb_false_r, andb_true_r.
    unfold bounds, rect_of_size, cell. cbn [andb]. clear Hp. destruct (contains _ p) eqn:E; [by destruct fill|].
    assert (cell_of (width (_sz b)) (height (_sz b)) (_bits b) p = false) as -> by (unfold cell_of; by rewrite E). by destruct fill.
  - assert (h = 0) as -> by lia. rewrite (resize_runs_empty w 0) by (lia || apply Hm). cbn [mbind result_bind].
    destruct (Z.eqb_spec w 0); [lia|]. cbn [andb negb]. destruct fill; cbn [andb].
    + rewrite (ok_rc _ _ _ Hm). unfold rect_minus.
      assert (empty (rect_and (rect_ltrb 0 0 w 0) (_rc b)) = true) as ->.
      { apply not_false_iff_true. intros He. pose proof (rect_and_sub _ _ He) as Hx. cbn in Hx. lia. }
      cbn [set_list]. unfold set, contains_rect, rect_or. rewrite (ok_rc _ _ _ Hm).
      replace (empty (rect_ltrb 0 0 w 0)) with true by (unfold empty, rect_bool; cbn; by rewrite andb_false_r).
      cbn [andb]. destruct (rect_eqb rect_empty (rect_ltrb 0 0 w 0)) eqn:E; [|done].
      apply rect_eqb_spec in E. unfold rect_empty, rect_ltrb in E. injection E as ?. lia.
    + destruct (bitmap_ok_of w 0 m Hnw Hnh Hna Hm) as (? & ? & _). exists m. split_and!; [done..|].
      intros p Hp%contains_spec. cbn in Hp. lia.
  - assert (w = 0) as -> by lia. rewrite (resize_runs_empty 0 h) by (lia || apply Hm). cbn [mbind result_bind].
    change (0 =? 0) with true. cbn [andb]. destruct fill; cbn [andb].
    + rewrite (ok_rc _ _ _ Hm). unfold rect_minus.
      assert (empty (rect_and (rect_ltrb 0 0 0 h) (_rc b)) = true) as ->.
      { apply not_false_iff_true. intros He. pose proof (rect_and_sub _ _ He) as Hx. cbn in Hx. lia. }
      cbn [set_list]. unfold set, contains_rect, rect_or. rewrite (ok_rc _ _ _ Hm).
      change (empty (rect_ltrb 0 0 0 h)) with true. cbn [andb].
      destruct (Z.eqb_spec h 0) as [->|Hne]; cbn [negb].
      * destruct (bitmap_ok_of 0 0 (with_bits (_bits m) m) ltac:(lia) ltac:(lia) ltac:(lia) ltac:(apply with_bits_ok; [done|apply Hm])) as (? & ? & _).
        exists (with_bits (_bits m) m). split_and!; [done..|]. intros p Hp%contains_spec. cbn in Hp. lia.
      * destruct (rect_eqb rect_empty (rect_ltrb 0 0 0 h)) eqn:E; [|done].
        apply rect_eqb_spec in E. unfold rect_empty, rect_ltrb in E. injection E as ?. lia.
    + destruct (bitmap_ok_of 0 h m Hnw Hnh Hna Hm) as (? & ? & _). exists m. split_and!; [done..|].
      intros p Hp%contains_spec. cbn in Hp. lia.
Qed.

(** ** Examples *)

Definition small_map : bitmap :=
  match bitmap_init (mkSize 5 3) false with
  | inr b => match set (rect_ltrb 1 1 4 3) b with inr b => b | _ => b end
  | _ => bitmap_default
  end.

Lemma small_map_ok : bitmap_ok small_map.
Proof.
  destruct (bitmap_init_ok 5 3 ltac:(lia) ltac:(lia) ltac:(lia)) as (b & Hb & Hok & _).
  destruct (set_ok 5 3 ltac:(lia) ltac:(lia) ltac:(lia) b (rect_ltrb 1 1 4 3) Hok) as (b' & Hb' & Hok' & _).
  { unfold inside. cbn. lia. }
  assert (small_map = b') as ->.
  { unfold small_map. by rewrite Hb, Hb'. }
  by apply (bitmap_ok_of 5 3); [lia..|].
Qed.

Lemma bitmap_runs_correct_witness :
  ∃ rs b', runs small_map = inr (rs, b') ∧ bitmap_ok b' ∧ bitmap_eqb small_map b' = true
    ∧ Forall (maximal_run 5 3 (_bits small_map)) rs
    ∧ (∀ p, cell small_map p = true ↔ ∃ r, r ∈ rs ∧ contains r p = true)
    ∧ ∀ i j r s p, rs !! i = Some r → rs !! j = Some s → contains r p = true → contains s p = true → i = j.
Proof. exact (bitmap_runs_correct small_map small_map_ok). Defined.

Lemma bitmap_translate_correct_witness :
  ∃ b', translate (mkPoint (-1) 1) true small_map = inr b' ∧ bitmap_ok b' ∧ _sz b' = _sz small_map
    ∧ ∀ p, contains (bounds small_map) p = true →
        cell b' p = if contains (bounds small_map) (shifted (mkPoint (-1) 1) p)
                    then cell small_map (shifted (mkPoint (-1) 1) p) else true.
Proof.
  apply (bitmap_translate_correct small_map (mkPoint (-1) 1) true small_map_ok); [reflexivity|].
  unfold movable. vm_compute. repeat split; discriminate.
Defined.

(** A row of a window that is not one cell high. *)
Lemma bitmap_resize_correct_witness : resize (mkSize 4 0) true small_map = inl InvalidArg.
Proof. apply (bitmap_resize_correct small_map (mkSize 4 0) true small_map_ok); cbn; lia. Defined.

(** [bitmap(size, true)] fills the first 64 cells only, and has no runs. *)
Example filled_map_is_not_full :
  (b ← bitmap_init (mkSize 13 5) true; rs ← runs b; mret (all b, any b, rs.1)) = inr (false, true, []).
Proof. vm_compute. reflexivity. Qed.

(** [divide_ceil] rounds a small negative width up and a small negative height down. *)
Example divide_ceil_of_negative : divide_ceil (mkSize (-1) (-1)) (mkSize 5 5) = inr (mkSize 1 (-1)).
Proof. vm_compute. reflexivity. Qed.
