(* ===== verification/Spsc.v ===== *)
(** The channel of [src/src/inc/til/spsc.h]: a bounded queue between one producer and one
    consumer on a ring of slots, without locks.

    [acquisition], [arc] and the loop body of [acquire] are translated as functions on 32-bit
    words.  The methods of the two sides are programs of a thread each, cut where another
    thread can come between: [thread_step] does one access of shared memory and goes on to the
    next program point [pc], and [step] interleaves the two threads, the calls of their clients
    and wake-ups without a reason, which [WaitOnAddress] and [futex] allow.  The memory is
    sequentially consistent: the orders that the code passes to its atomic accesses are not
    part of the model.

    A slot is [None] while it is raw memory and [Some] while it holds an object.  What C++ does
    not define is a [Fault]: an object constructed over another, a read or a destruction of raw
    memory, a slot that does not exist, and any access once the channel is deleted. *)

From S2P Require Import Prelude.

Module Spsc.

Definition size_type_max : Z := 2 ^ 32 - 1.
Definition position_mask : Z := Z.shiftr size_type_max 2.
Definition revolution_flag : Z := Z.shiftl 1 (32 - 2).
Definition drop_flag : Z := Z.shiftl 1 (32 - 1).

Inductive WaitPolicy := block_initially | block_forever.

Definition _block_forever (p : WaitPolicy) : bool :=
  match p with block_initially => false | block_forever => true end.

Record acquisition := mkAcquisition { begin : Z; end_ : Z; next : Z; alive : bool }.

(** [validate_size]: [false] where it throws [std::overflow_error]. *)
Definition validate_size (v : Z) : bool := v <=? position_mask.

(** The two sides; an access to [mine] or [theirs] is to one of the two positions. *)
Inductive side := Producer | Consumer.

#[global] Instance side_eq_dec : EqDecision side.
Proof. solve_decision. Defined.

Definition other (s : side) : side := match s with Producer => Consumer | Consumer => Producer end.

(** The argument [waitMask] of [acquire] in [producer_acquire] and [consumer_acquire]. *)
Definition waitMask (s : side) : Z := match s with Producer => revolution_flag | Consumer => 0 end.

(** The loop of [acquire] is left when the positions differ in more than the mask. *)
Definition available (waitMask myPos theirPos : Z) : bool := negb (Z.lxor myPos theirPos =? waitMask).

(** What [acquire] returns where it would have to wait and must not. *)
Definition acquire_nothing : acquisition := mkAcquisition 0 0 0 true.

(** [acquire] behind its loop. *)
Definition acquire_range (capacity waitMask slots myPos theirPos : Z) : acquisition :=
  if negb (Z.land theirPos drop_flag =? 0)
     && (negb (waitMask =? 0) || (Z.lxor myPos theirPos =? drop_flag))
  then mkAcquisition 0 0 0 false
  else
    let begin := Z.land myPos position_mask in
    let end_ := Z.land theirPos position_mask in
    let end_ := if begin <? end_ then end_ else capacity in
    let end_ := Z.min end_ (wrapu 32 (begin + slots)) in
    let revolution := Z.land myPos revolution_flag in
    let next := if negb (end_ =? capacity) then Z.lor end_ revolution
                else Z.lxor revolution revolution_flag in
    mkAcquisition begin end_ next true.

Section Channel.
Context {T : Type}.

(** [arc]; [deleted] says that [delete this] has been done. *)
Record arc := mkArc {
  _data : list (option T);
  _capacity : Z;
  _eitherSideDropped : bool;
  _producer : Z;
  _consumer : Z;
  deleted : bool }.

Definition arc_init (capacity : Z) : arc :=
  mkArc (replicate (Z.to_nat capacity) None) capacity false 0 0 false.

Definition mine (s : side) (a : arc) : Z :=
  match s with Producer => _producer a | Consumer => _consumer a end.
Definition theirs (s : side) (a : arc) : Z := mine (other s) a.

Definition store (s : side) (v : Z) (a : arc) : arc :=
  match s with
  | Producer => mkArc (_data a) (_capacity a) (_eitherSideDropped a) v (_consumer a) (deleted a)
  | Consumer => mkArc (_data a) (_capacity a) (_eitherSideDropped a) (_producer a) v (deleted a)
  end.

Definition set_data (d : list (option T)) (a : arc) : arc :=
  mkArc d (_capacity a) (_eitherSideDropped a) (_producer a) (_consumer a) (deleted a).

(** Placement new on a slot, a move out of one and a destruction; [None] is undefined. *)
Definition construct (i : Z) (v : T) (d : list (option T)) : option (list (option T)) :=
  match d !! Z.to_nat i with Some None => Some (<[Z.to_nat i := Some v]> d) | _ => None end.

Definition move_out (i : Z) (d : list (option T)) : option T :=
  match d !! Z.to_nat i with Some (Some v) => Some v | _ => None end.

Definition destroy_at (i : Z) (d : list (option T)) : option (list (option T)) :=
  match d !! Z.to_nat i with Some (Some _) => Some (<[Z.to_nat i := None]> d) | _ => None end.

(** [std::destroy] on [n] slots from [beg] on. *)
Fixpoint destroy (beg : Z) (n : nat) (d : list (option T)) : option (list (option T)) :=
  match n with
  | O => Some d
  | S n => d' ← destroy_at beg d; destroy (beg + 1) n d'
  end.

(** [~arc]. *)
Definition arc_destructor (a : arc) : option arc :=
  let beg := _consumer a in
  let end_ := _producer a in
  let differentRevolution := negb (Z.land (Z.lxor beg end_) revolution_flag =? 0) in
  let beg := Z.land beg position_mask in
  let end_ := Z.land end_ position_mask in
  d ← (if beg <? end_ then destroy beg (Z.to_nat (end_ - beg)) (_data a)
       else if differentRevolution then
         d ← destroy 0 (Z.to_nat end_) (_data a);
         destroy beg (Z.to_nat (_capacity a - beg)) d
       else Some (_data a));
  Some (mkArc d (_capacity a) (_eitherSideDropped a) (_producer a) (_consumer a) true).

(** A call in progress: [emplace] and [pop] are [single], [push_n] and [pop_n] have a policy.
    [items] is what the producer has still to send and what the consumer has written to its
    output, [count] the argument. *)
Record call := mkCall {
  single : bool;
  policy : WaitPolicy;
  count : Z;
  remaining : Z;
  blocking : bool;
  items : list T }.

Definition with_items (l : list T) (c : call) : call :=
  mkCall (single c) (policy c) (count c) (remaining c) (blocking c) l.
Definition with_remaining (n : Z) (c : call) : call :=
  mkCall (single c) (policy c) (count c) n (blocking c) (items c).
Definition with_blocking (b : bool) (c : call) : call :=
  mkCall (single c) (policy c) (count c) (remaining c) b (items c).

(** What a call returns: [emplace] a flag, [pop] an item or nothing, the others a pair, with
    the items that [pop_n] has written out. *)
Inductive result :=
| Emplaced (ok : bool)
| Popped (item : option T)
| Pushed_n (n : Z) (ok : bool)
| Popped_n (n : Z) (ok : bool) (out : list T).

(** Where a thread is: [Loop] is at the head of the loop of [push_n] and [pop_n], [Acquire] is before the load of the other position, [Wait] before the
    call of [wait], [Sleep] suspended in it, [Copy] before the [k]-th object is constructed or
    moved out, [Destroy] before the [k]-th object is destroyed, [Release] before the store of
    [release] and [Notify] before its wake-up; the rest is [drop]. *)
Inductive pc :=
| Idle
| Loop (c : call)
| Acquire (c : call) (myPos : Z)
| Wait (c : call) (myPos theirPos : Z)
| Sleep (c : call) (myPos theirPos : Z)
| Copy (c : call) (a : acquisition) (k : Z)
| Destroy (c : call) (a : acquisition) (k : Z)
| Release (c : call) (a : acquisition)
| Notify (c : call)
| DropStore
| DropNotify
| DropExchange
| Gone.

Record state := mkState { shared : arc; ppc : pc; cpc : pc }.

Definition pc_of (s : side) (st : state) : pc := match s with Producer => ppc st | Consumer => cpc st end.

Definition set_pc (s : side) (p : pc) (st : state) : state :=
  match s with
  | Producer => mkState (shared st) p (cpc st)
  | Consumer => mkState (shared st) (ppc st) p
  end.

Definition set_arc (a : arc) (st : state) : state := mkState a (ppc st) (cpc st).

Inductive label :=
| Tau
| Called (s : side) (c : call)
| Threw (s : side)
| Sent (vs : list T)
| Received (vs : list T)
| Returned (s : side) (r : result)
| Dropped (s : side).

Inductive outcome :=
| Next (l : label) (st : state)
| Blocked
| Fault.

Definition emplace (v : T) : call := mkCall true block_forever 1 1 true [v].
Definition push_n (p : WaitPolicy) (first : list T) : call :=
  let n := Z.of_nat (length first) in mkCall false p n n true first.
Definition push : list T → call := push_n block_forever.
Definition pop : call := mkCall true block_forever 1 1 true [].
Definition pop_n (p : WaitPolicy) (count : Z) : call := mkCall false p count count true [].

(** The result of a call that ends with the flag [ok]. *)
Definition call_result (s : side) (c : call) (ok : bool) : result :=
  match s, single c with
  | Producer, true => Emplaced ok
  | Producer, false => Pushed_n (count c - remaining c) ok
  | Consumer, true => Popped (if ok then head (items c) else None)
  | Consumer, false => Popped_n (count c - remaining c) ok (items c)
  end.

(** The head of the loop of [push_n] and [pop_n]: with nothing left it ends, otherwise the next
    acquisition begins with the load of the side's own position. *)
Definition loop_head (s : side) (c : call) (st : state) : outcome :=
  if remaining c =? 0 then Next (Returned s (call_result s c true)) (set_pc s Idle st)
  else Next Tau (set_pc s (Acquire c (mine s (shared st))) st).

(** The body behind a call of [acquire]: an empty range ends the call, for [emplace] and [pop]
    in failure. *)
Definition acquired (s : side) (c : call) (a : acquisition) (st : state) : outcome :=
  if end_ a =? 0 then
    Next (Returned s (call_result s c (if single c then false else alive a))) (set_pc s Idle st)
  else Next Tau (set_pc s (Copy c a 0) st).

(** The objects of an acquisition are there: the range is done. *)
Definition copied (s : side) (c : call) (a : acquisition) (st : state) : outcome :=
  match s with
  | Producer => Next Tau (set_pc s (Release c a) st)
  | Consumer => Next Tau (set_pc s (Destroy c a 0) st)
  end.

(** One object: [uninitialized_copy_n] constructs it from the next of the input, [std::move]
    writes it to the output. *)
Definition copy_one (s : side) (c : call) (a : acquisition) (k : Z) (st : state) : outcome :=
  match s with
  | Producer =>
      match items c !! Z.to_nat k with
      | Some v =>
          match construct (begin a + k) v (_data (shared st)) with
          | Some d => Next Tau (set_pc s (Copy c a (k + 1)) (set_arc (set_data d (shared st)) st))
          | None => Fault
          end
      | None => Fault
      end
  | Consumer =>
      match move_out (begin a + k) (_data (shared st)) with
      | Some v => Next Tau (set_pc s (Copy (with_items (items c ++ [v]) c) a (k + 1)) st)
      | None => Fault
      end
  end.

(** [release]: the store, which hands the range over; the producer has advanced its input. *)
Definition release_store (s : side) (c : call) (a : acquisition) (st : state) : outcome :=
  let got := end_ a - begin a in
  let vs := match s with
            | Producer => take (Z.to_nat got) (items c)
            | Consumer => drop (length (items c) - Z.to_nat got) (items c)
            end in
  let rest := match s with Producer => drop (Z.to_nat got) (items c) | Consumer => items c end in
  let c' := with_remaining (wrapu 32 (remaining c - got)) (with_items rest c) in
  Next (match s with Producer => Sent vs | Consumer => Received vs end)
    (set_pc s (Notify c') (set_arc (store s (next a) (shared st)) st)).

(** [notify_one] on the position of a side: a thread of the other side that sleeps on it goes
    back to the head of the loop of [acquire]. *)
Definition notify_one (s : side) (st : state) : state :=
  match pc_of (other s) st with
  | Sleep c myPos _ => set_pc (other s) (Acquire c myPos) st
  | _ => st
  end.

(** Behind [release]: [emplace] and [pop] return, the others clear [blocking] and loop. *)
Definition released (s : side) (c : call) (st : state) : outcome :=
  if single c then Next (Returned s (call_result s c true)) (set_pc s Idle st)
  else Next Tau (set_pc s (Loop (if _block_forever (policy c) then c else with_blocking false c)) st).

(** One step of the thread of a side. *)
Definition thread_step (s : side) (st : state) : outcome :=
  let a := shared st in
  match pc_of s st with
  | Idle | Gone | Sleep _ _ _ => Blocked
  | p =>
      if deleted a then Fault else
      match p with
      | Acquire c myPos =>
          let theirPos := theirs s a in
          if available (waitMask s) myPos theirPos then
            acquired s c (acquire_range (_capacity a) (waitMask s) (remaining c) myPos theirPos) st
          else if negb (blocking c) then acquired s c acquire_nothing st
          else Next Tau (set_pc s (Wait c myPos theirPos) st)
      | Wait c myPos theirPos =>
          if theirs s a =? theirPos then Next Tau (set_pc s (Sleep c myPos theirPos) st)
          else Next Tau (set_pc s (Acquire c myPos) st)
      | Copy c q k =>
          if k <? end_ q - begin q then copy_one s c q k st else copied s c q st
      | Destroy c q k =>
          if k <? end_ q - begin q then
            match destroy_at (begin q + k) (_data a) with
            | Some d => Next Tau (set_pc s (Destroy c q (k + 1)) (set_arc (set_data d a) st))
            | None => Fault
            end
          else Next Tau (set_pc s (Release c q) st)
      | Release c q => release_store s c q st
      | Notify c => released s c (notify_one s st)
      | Loop c => loop_head s c st
      | DropStore =>
          Next (Dropped s) (set_pc s DropNotify (set_arc (store s (Z.lor (mine s a) drop_flag) a) st))
      | DropNotify => Next Tau (set_pc s DropExchange (notify_one s st))
      | DropExchange =>
          let a' := mkArc (_data a) (_capacity a) true (_producer a) (_consumer a) (deleted a) in
          if _eitherSideDropped a then
            match arc_destructor a' with
            | Some a'' => Next Tau (set_pc s Gone (set_arc a'' st))
            | None => Fault
            end
          else Next Tau (set_pc s Gone (set_arc a' st))
      | Idle | Gone | Sleep _ _ _ => Blocked
      end
  end.

(** A client calls a method: [push_n] and [pop_n] check their count first. *)
Definition client_call (s : side) (c : call) (st : state) : outcome :=
  match pc_of s st with
  | Idle =>
      if deleted (shared st) then Fault
      else if single c then Next (Called s c) (set_pc s (Acquire c (mine s (shared st))) st)
      else if validate_size (count c) then
        Next (Called s c) (set_pc s (Loop c) st)
      else Next (Threw s) st
  | _ => Blocked
  end.

(** The destructor of a handle, [drop]. *)
Definition client_drop (s : side) (st : state) : outcome :=
  match pc_of s st with
  | Idle => Next Tau (set_pc s DropStore st)
  | _ => Blocked
  end.

(** The calls that a side has. *)
Definition side_call (s : side) (c : call) : Prop :=
  match s with
  | Producer => (∃ v, c = emplace v) ∨ (∃ p first, c = push_n p first)
  | Consumer => c = pop ∨ (∃ p n, 0 <= n < 2 ^ 64 ∧ c = pop_n p n)
  end.

(** [channel]: [None] where it throws. *)
Definition channel (capacity : Z) : option state :=
  if capacity =? 0 then None else Some (mkState (arc_init capacity) Idle Idle).

Inductive step : state → label → state → Prop :=
| step_thread s st l st' : thread_step s st = Next l st' → step st l st'
| step_call s c st l st' : side_call s c → client_call s c st = Next l st' → step st l st'
| step_drop s st l st' : client_drop s st = Next l st' → step st l st'
| step_spurious s st c myPos theirPos :
    pc_of s st = Sleep c myPos theirPos →
    step st Tau (set_pc s (Acquire c myPos) st).

(** The labels of a run from a new channel, in their order. *)
Inductive run (st0 : state) : list label → state → Prop :=
| run_nil : run st0 [] st0
| run_snoc tr st l st' : run st0 tr st → step st l st' → run st0 (tr ++ [l]) st'.

End Channel.
End Spsc.
