(* ===== verification/SpscRing.v ===== *)
(** The arithmetic of the channel's ring: positions that count all objects ever sent or
    received, the words that stand for them, and the slots of the window between the two. *)

From S2P Require Import Prelude Spsc.
Import Spsc.

(** ** Words *)

(** A position with its revolution bit and its drop bit. *)
Definition word (d r : bool) (p : Z) : Z := p + Z.b2z r * 2 ^ 30 + Z.b2z d * 2 ^ 31.

Lemma land_bit w k : 0 <= k → Z.land w (2 ^ k) = Z.b2z (Z.testbit w k) * 2 ^ k.
Proof.
  intros Hk. apply Z.bits_inj'. intros i Hi. rewrite Z.land_spec, Z.pow2_bits_eqb by lia.
  rewrite <- Z.shiftl_mul_pow2, Z.shiftl_spec by lia.
  destruct (Z.eqb_spec k i) as [<-|Hn].
  - rewrite Z.sub_diag, Z.b2z_bit0. by destruct (Z.testbit w k).
  - rewrite andb_false_r. destruct (Z.lt_ge_cases i k).
    + by rewrite Z.testbit_neg_r by lia.
    + replace (i - k) with (Z.succ (i - k - 1)) by lia.
      by destruct (Z.testbit w k); cbn; rewrite ?Z.testbit_0_l, ?Z.bits_above_log2 by (cbn; lia).
Qed.

Lemma lxor_bit_off w k : 0 <= k → Z.testbit w k = false → Z.lxor w (2 ^ k) = w + 2 ^ k.
Proof. intros ? E. rewrite Z.add_nocarry_lxor; [done|]. by rewrite land_bit, E. Qed.

Lemma lxor_bit_on w k : 0 <= k → Z.testbit w k = true → Z.lxor w (2 ^ k) = w - 2 ^ k.
Proof.
  intros ? E. assert (Z.lxor (Z.lxor w (2 ^ k)) (2 ^ k) = w) as Hw.
  { by rewrite Z.lxor_assoc, Z.lxor_nilpotent, Z.lxor_0_r. }
  rewrite lxor_bit_off in Hw; [lia..|].
  by rewrite Z.lxor_spec, E, Z.pow2_bits_true by lia.
Qed.

Section Words.
Context (d r : bool) (p : Z) (Hp : 0 <= p < 2 ^ 30).

Lemma word_bit30 : Z.testbit (word d r p) 30 = r.
Proof.
  apply Z.b2z_inj. rewrite Z.testbit_spec' by lia. unfold word.
  destruct d, r; cbn [Z.b2z]; Z.div_mod_to_equations; lia.
Qed.

Lemma word_bit31 : Z.testbit (word d r p) 31 = d.
Proof.
  apply Z.b2z_inj. rewrite Z.testbit_spec' by lia. unfold word.
  destruct d, r; cbn [Z.b2z]; Z.div_mod_to_equations; lia.
Qed.

Lemma word_position : Z.land (word d r p) position_mask = p.
Proof.
  change position_mask with (Z.ones 30). rewrite Z.land_ones by lia. unfold word.
  destruct d, r; cbn [Z.b2z]; Z.div_mod_to_equations; lia.
Qed.

Lemma word_revolution : Z.land (word d r p) revolution_flag = word false r 0.
Proof.
  change revolution_flag with (2 ^ 30). rewrite land_bit, word_bit30 by lia.
  unfold word. cbn [Z.b2z]. lia.
Qed.

Lemma word_dropped : (Z.land (word d r p) drop_flag =? 0) = negb d.
Proof.
  change drop_flag with (2 ^ 31). rewrite land_bit, word_bit31 by lia. by destruct d.
Qed.

Lemma word_flip : Z.lxor (word d r p) revolution_flag = word d (negb r) p.
Proof.
  change revolution_flag with (2 ^ 30). pose proof word_bit30 as E. destruct r.
  - rewrite lxor_bit_on by done. unfold word. cbn [Z.b2z negb]. lia.
  - rewrite lxor_bit_off by done. unfold word. cbn [Z.b2z negb]. lia.
Qed.

Lemma word_flip_drop : Z.lxor (word d r p) drop_flag = word (negb d) r p.
Proof.
  change drop_flag with (2 ^ 31). pose proof word_bit31 as E. destruct d.
  - rewrite lxor_bit_on by done. unfold word. cbn [Z.b2z negb]. lia.
  - rewrite lxor_bit_off by done. unfold word. cbn [Z.b2z negb]. lia.
Qed.

Lemma word_inj d' r' p' : 0 <= p' < 2 ^ 30 → word d r p = word d' r' p' → d = d' ∧ r = r' ∧ p = p'.
Proof. unfold word. intros ?. destruct d, d', r, r'; cbn [Z.b2z]; repeat split; lia. Qed.
End Words.

Lemma word_drop r p : 0 <= p < 2 ^ 30 → Z.lor (word false r p) drop_flag = word true r p.
Proof.
  intros ?. change drop_flag with (2 ^ 31).
  assert (Z.land (word false r p) (2 ^ 31) = 0) as E by (by rewrite land_bit, word_bit31 by lia).
  rewrite <- Z.lxor_lor by done. rewrite <- Z.add_nocarry_lxor by done.
  unfold word. cbn [Z.b2z]. lia.
Qed.

Lemma word_splice r p : 0 <= p < 2 ^ 30 → Z.lor p (word false r 0) = word false r p.
Proof.
  intros ?. replace (word false r 0) with (Z.b2z r * 2 ^ 30) by (unfold word; cbn [Z.b2z]; lia).
  rewrite Z.lor_comm, <- Z.shiftl_mul_pow2, lor_shiftl_add by lia. unfold word. cbn [Z.b2z]. lia.
Qed.

(** ** Positions *)

(** The word of a side that has handed over [n] objects. *)
Definition posword (cap : Z) (d : bool) (n : Z) : Z := word d (Z.odd (n / cap)) (n `mod` cap).

(** [acquire] leaves its loop when the other word is not the own one with the mask. *)
Lemma available_spec m x y : available m x y = false ↔ y = Z.lxor x m.
Proof.
  unfold available. rewrite negb_false_iff, Z.eqb_eq. split.
  - intros <-. by rewrite <- Z.lxor_assoc, Z.lxor_nilpotent, Z.lxor_0_l.
  - intros ->. by rewrite <- Z.lxor_assoc, Z.lxor_nilpotent, Z.lxor_0_l.
Qed.

Section Ring.
Context (cap : Z) (Hcap : 0 < cap <= 2 ^ 30).

Lemma pos_range n : 0 <= n `mod` cap < 2 ^ 30.
Proof. pose proof (Z.mod_pos_bound n cap). lia. Qed.

(** The two positions are in the same revolution, or the producer is in the next. *)
Lemma ring_cases C P : C <= P <= C + cap →
  (P / cap = C / cap ∧ C `mod` cap <= P `mod` cap ∧ P - C = P `mod` cap - C `mod` cap)
  ∨ (P / cap = C / cap + 1 ∧ P `mod` cap <= C `mod` cap ∧ P - C = cap + P `mod` cap - C `mod` cap).
Proof.
  intros HP. pose proof (Z.div_mod P cap). pose proof (Z.div_mod C cap).
  pose proof (Z.mod_pos_bound P cap). pose proof (Z.mod_pos_bound C cap).
  assert (P / cap = C / cap ∨ P / cap = C / cap + 1) as [E|E] by nia; [left|right]; nia.
Qed.

(** Only at the same or the opposite end of the window do the words meet. *)
Lemma posword_empty C P : C <= P <= C + cap → posword cap false P = posword cap false C ↔ P = C.
Proof.
  intros HP. split; [|by intros ->]. intros (_ & E1 & E2)%word_inj; [|apply pos_range..].
  destruct (ring_cases C P HP) as [(E & ? & ?)|(E & ? & ?)]; [lia|].
  rewrite E, Z.odd_add in E1. by destruct (Z.odd (C / cap)).
Qed.

Lemma posword_full C P : C <= P <= C + cap →
  posword cap false C = Z.lxor (posword cap false P) revolution_flag ↔ P = C + cap.
Proof.
  intros HP. unfold posword. rewrite word_flip by apply pos_range. split.
  - intros (_ & E1 & E2)%word_inj; [|apply pos_range..].
    destruct (ring_cases C P HP) as [(E & ? & ?)|(E & ? & ?)]; [|lia].
    rewrite E in E1. by destruct (Z.odd (C / cap)).
  - intros ->. replace (C + cap) with (C + 1 * cap) by lia.
    rewrite Z.div_add, Z.mod_add, Z.odd_add by lia. by destruct (Z.odd (C / cap)).
Qed.

Lemma posword_dropped d n : (Z.land (posword cap d n) drop_flag =? 0) = negb d.
Proof. apply word_dropped, pos_range. Qed.

Lemma posword_position d n : Z.land (posword cap d n) position_mask = n `mod` cap.
Proof. apply word_position, pos_range. Qed.

Lemma posword_drop n : Z.lor (posword cap false n) drop_flag = posword cap true n.
Proof. apply word_drop, pos_range. Qed.

(** The word behind a range that does not go beyond the ring. *)
Lemma posword_next n got : 0 < got → n `mod` cap + got <= cap →
  (if negb (n `mod` cap + got =? cap)
   then Z.lor (n `mod` cap + got) (Z.land (posword cap false n) revolution_flag)
   else Z.lxor (Z.land (posword cap false n) revolution_flag) revolution_flag)
  = posword cap false (n + got).
Proof.
  intros Hg Hle. unfold posword. rewrite word_revolution by apply pos_range.
  pose proof (Z.div_mod n cap). pose proof (Z.mod_pos_bound n cap).
  destruct (Z.eqb_spec (n `mod` cap + got) cap) as [E|E]; cbn [negb].
  - rewrite word_flip by lia. assert (n + got = (n / cap + 1) * cap) as -> by lia.
    rewrite Z.div_mul, Z.mod_mul, Z.odd_add by lia. by destruct (Z.odd (n / cap)).
  - rewrite word_splice by lia.
    assert ((n + got) / cap = n / cap) as -> by (symmetry; apply Z.div_unique with (n `mod` cap + got); lia).
    assert ((n + got) `mod` cap = n `mod` cap + got) as -> by (symmetry; apply Z.mod_unique with (n / cap); lia).
    done.
Qed.

(** The range that [acquire] hands out: at least one slot, none behind the other side. *)
Definition range_ok (room n slots : Z) (a : acquisition) : Prop :=
  begin a = n `mod` cap ∧ begin a < end_ a <= cap
  ∧ end_ a - begin a <= slots ∧ end_ a - begin a <= room
  ∧ next a = posword cap false (n + (end_ a - begin a)) ∧ alive a = true.

Lemma range_of n m slots room : 0 < slots <= 2 ^ 30 →
  (n `mod` cap < m `mod` cap → m `mod` cap - n `mod` cap <= room) →
  (m `mod` cap <= n `mod` cap → cap - n `mod` cap <= room) →
  range_ok room n slots
    (let b := Z.land (posword cap false n) position_mask in
     let e := m `mod` cap in
     let e := if b <? e then e else cap in
     let e := Z.min e (wrapu 32 (b + slots)) in
     let revolution := Z.land (posword cap false n) revolution_flag in
     mkAcquisition b e (if negb (e =? cap) then Z.lor e revolution else Z.lxor revolution revolution_flag) true).
Proof.
  intros Hs H1 H2. cbv zeta. pose proof (pos_range n). pose proof (Z.mod_pos_bound n cap).
  pose proof (Z.mod_pos_bound m cap).
  assert (Z.land (posword cap false n) position_mask = n `mod` cap) as -> by by apply word_position.
  rewrite (wrapu_small 32) by lia.
  set (e := Z.min _ _). assert (n `mod` cap < e <= cap ∧ e - n `mod` cap <= slots ∧ e - n `mod` cap <= room) as He.
  { unfold e. destruct (Z.ltb_spec (n `mod` cap) (m `mod` cap)); lia. }
  assert (e = n `mod` cap + (e - n `mod` cap)) as Ee by lia.
  unfold range_ok; cbn [begin end_ next alive]. repeat split; try lia.
  rewrite <- (posword_next n (e - n `mod` cap)) by lia. by rewrite <- Ee.
Qed.

(** ** [acquire] on the two sides *)

Definition room (s : side) (C P : Z) : Z := match s with Producer => C + cap - P | Consumer => P - C end.
Definition own (s : side) (C P : Z) : Z := match s with Producer => P | Consumer => C end.

(** With room the range is a part of it; without, the loop is not left, unless the other side is
    gone: then a producer is told so at once and a consumer when nothing is left. *)
Lemma acquire_spec s C P d slots : C <= P <= C + cap → 0 < slots <= 2 ^ 30 →
  let my := posword cap false (own s C P) in
  let their := posword cap d (own (other s) C P) in
  if available (waitMask s) my their then
    let a := acquire_range cap (waitMask s) slots my their in
    (range_ok (room s C P) (own s C P) slots a ∧ 0 < room s C P)
    ∨ (a = mkAcquisition 0 0 0 false ∧ d = true ∧ (s = Consumer → room s C P = 0))
  else d = false ∧ room s C P = 0.
Proof.
  intros HP Hs my their. pose proof (ring_cases C P HP) as HR.
  pose proof (Z.mod_pos_bound C cap). pose proof (Z.mod_pos_bound P cap).
  destruct (available (waitMask s) my their) eqn:Ea.
  - cbv zeta. unfold acquire_range. subst their. rewrite posword_dropped, negb_involutive, posword_position.
    destruct d; cbn [andb].
    + destruct s; cbn [waitMask].
      * change (negb (revolution_flag =? 0)) with true. right. by repeat split.
      * change (negb (0 =? 0)) with false. cbn [orb own other room].
        destruct (Z.eqb_spec (Z.lxor my (posword cap true P)) drop_flag) as [E|E].
        -- right. repeat split. intros _.
           assert (posword cap true P = Z.lxor my drop_flag) as E'.
           { rewrite <- E. by rewrite <- Z.lxor_assoc, Z.lxor_nilpotent, Z.lxor_0_l. }
           unfold my, posword in E'. cbn [own] in E'. rewrite word_flip_drop in E' by apply pos_range.
           apply word_inj in E' as (_ & E1 & E2); [|apply pos_range..].
           assert (P = C); [|lia]. apply posword_empty; [done|]. unfold posword. by rewrite E1, E2.
        -- left. assert (P ≠ C).
           { intros ->. apply E. unfold my. cbn [own]. unfold posword. rewrite <- (word_flip_drop false) by apply pos_range.
             by rewrite <- Z.lxor_assoc, Z.lxor_nilpotent. }
           split; [|lia]. apply range_of; lia.
    + left. assert (room s C P ≠ 0) as Hr.
      { intros E0. apply not_false_iff_true in Ea. apply Ea, available_spec. destruct s; cbn [room own other waitMask] in *.
        - apply posword_full; lia.
        - rewrite Z.lxor_0_r. by replace P with C by lia. }
      destruct s; cbn [room own other waitMask] in *; (split; [|lia]); apply range_of; lia.
  - apply available_spec in Ea. subst my their. destruct d.
    + exfalso. unfold posword in Ea. destruct s; cbn [waitMask] in Ea;
        rewrite ?word_flip, ?Z.lxor_0_r in Ea by apply pos_range;
        apply word_inj in Ea as (? & _); try apply pos_range; done.
    + split; [done|]. destruct s; cbn [room own other waitMask] in *.
      * apply posword_full in Ea; lia.
      * rewrite Z.lxor_0_r in Ea. apply (posword_empty C P HP) in Ea; lia.
Qed.

End Ring.
