(* ===== verification/SpscFacts.v ===== *)
(** The channel is a bounded queue: every run of the two threads is a run of a machine whose
    state is the list of the objects on their way, whatever the interleaving.  No run does what
    C++ does not define, nothing is leaked when both sides are gone, and a sleeping thread is
    woken. *)

From S2P Require Import Prelude Spsc SpscRing.
Import Spsc.

Section Queue.
Context {T : Type}.

(** ** The specification *)

(** A call in progress is kept with the objects that it has sent or received so far. *)
Record spec := mkSpec {
  queue : list T;
  pbusy : option (@call T * list T);
  cbusy : option (@call T * list T);
  pgone : bool;
  cgone : bool }.

Definition busy (s : side) (sp : spec) := match s with Producer => pbusy sp | Consumer => cbusy sp end.
Definition gone (s : side) (sp : spec) := match s with Producer => pgone sp | Consumer => cgone sp end.

Definition set_busy (s : side) b (sp : spec) : spec :=
  match s with
  | Producer => mkSpec (queue sp) b (cbusy sp) (pgone sp) (cgone sp)
  | Consumer => mkSpec (queue sp) (pbusy sp) b (pgone sp) (cgone sp)
  end.
Definition set_gone (s : side) (sp : spec) : spec :=
  match s with
  | Producer => mkSpec (queue sp) (pbusy sp) (cbusy sp) true (cgone sp)
  | Consumer => mkSpec (queue sp) (pbusy sp) (cbusy sp) (pgone sp) true
  end.
Definition set_queue (q : list T) (sp : spec) : spec :=
  mkSpec q (pbusy sp) (cbusy sp) (pgone sp) (cgone sp).

(** A call may end well with all its objects, or with some if it blocks only initially. *)
Definition finished (c : @call T) (done : list T) : Prop :=
  Z.of_nat (length done) = count c ∨ policy c = block_initially ∧ done ≠ [].

(** The answers: a producer fails only when the consumer is gone, a consumer only when the
    producer is gone and nothing is left. *)
Definition answer_ok (s : side) (c : @call T) (done : list T) (sp : spec) (r : result) : Prop :=
  match s, r with
  | Producer, Emplaced true => single c = true ∧ done = items c
  | Producer, Emplaced false => single c = true ∧ done = [] ∧ cgone sp = true
  | Producer, Pushed_n n ok =>
      single c = false ∧ n = Z.of_nat (length done) ∧ if ok then finished c done else cgone sp = true
  | Consumer, Popped (Some v) => single c = true ∧ done = [v]
  | Consumer, Popped None => single c = true ∧ done = [] ∧ pgone sp = true ∧ queue sp = []
  | Consumer, Popped_n n ok out =>
      single c = false ∧ n = Z.of_nat (length out) ∧ out = done
      ∧ if ok then finished c done else pgone sp = true ∧ queue sp = []
  | _, _ => False
  end.

Inductive spec_step (cap : Z) : spec → label → spec → Prop :=
| spec_tau sp : spec_step cap sp Tau sp
| spec_call s c sp :
    busy s sp = None → gone s sp = false →
    spec_step cap sp (Called s c) (set_busy s (Some (c, [])) sp)
| spec_throw s sp : busy s sp = None → gone s sp = false → spec_step cap sp (Threw s) sp
| spec_send c done vs rest sp :
    busy Producer sp = Some (c, done) → vs ≠ [] → items c = done ++ vs ++ rest →
    Z.of_nat (length (queue sp) + length vs) <= cap →
    spec_step cap sp (Sent vs) (set_busy Producer (Some (c, done ++ vs)) (set_queue (queue sp ++ vs) sp))
| spec_receive c done vs q sp :
    busy Consumer sp = Some (c, done) → vs ≠ [] → queue sp = vs ++ q →
    Z.of_nat (length (done ++ vs)) <= count c →
    spec_step cap sp (Received vs) (set_busy Consumer (Some (c, done ++ vs)) (set_queue q sp))
| spec_return s c done r sp :
    busy s sp = Some (c, done) → answer_ok s c done sp r →
    spec_step cap sp (Returned s r) (set_busy s None sp)
| spec_drop s sp :
    busy s sp = None → gone s sp = false →
    spec_step cap sp (Dropped s) (set_gone s sp).

Definition spec_init : spec := mkSpec [] None None false false.

Inductive spec_run (cap : Z) : list label → spec → Prop :=
| spec_run_nil : spec_run cap [] spec_init
| spec_run_snoc tr sp l sp' : spec_run cap tr sp → spec_step cap sp l sp' → spec_run cap (tr ++ [l]) sp'.

(** What a run sends and what it receives. *)
Definition sent_of (l : @label T) : list T := match l with Sent vs => vs | _ => [] end.
Definition received_of (l : @label T) : list T := match l with Received vs => vs | _ => [] end.

(** Runs of the specification are first in, first out. *)
Lemma spec_fifo cap tr sp : spec_run cap tr sp →
  concat (map sent_of tr) = concat (map received_of tr) ++ queue sp.
Proof.
  induction 1 as [|tr sp l sp' Hr IH Hs]; [done|].
  rewrite !map_app, !concat_app. cbn. rewrite !app_nil_r, IH.
  destruct Hs as [| | |? ? ? ? ? ? ? Hi|? ? ? ? ? ? ? Hq| |]; cbn; rewrite ?app_nil_r; try done;
    try (by destruct s).
  - by rewrite app_assoc.
  - by rewrite Hq, app_assoc.
Qed.

(** ** Slots *)

(** The slots of a ring hold the objects [f n] of the window that begins at [C]. *)
Definition window (cap C : Z) (f : Z → option T) (d : list (option T)) : Prop :=
  Z.of_nat (length d) = cap
  ∧ ∀ n, C <= n < C + cap → d !! Z.to_nat (n `mod` cap) = Some (f n).

Lemma mod_window_inj cap C n m : 0 < cap → C <= n < C + cap → C <= m < C + cap →
  n `mod` cap = m `mod` cap → n = m.
Proof.
  intros Hc Hn Hm E. pose proof (Z.div_mod n cap ltac:(lia)). pose proof (Z.div_mod m cap ltac:(lia)).
  assert (n / cap = m / cap) by nia. congruence.
Qed.

Lemma window_update cap C f f' d m x : 0 < cap → window cap C f d → C <= m < C + cap →
  f' m = x → (∀ n, C <= n < C + cap → n ≠ m → f' n = f n) →
  window cap C f' (<[Z.to_nat (m `mod` cap) := x]> d).
Proof.
  intros ? [Hl Hw] Hm Hx Hf. split; [by rewrite length_insert|]. intros n Hn.
  pose proof (Z.mod_pos_bound n cap). pose proof (Z.mod_pos_bound m cap).
  destruct (decide (n = m)) as [->|Hne].
  - rewrite list_lookup_insert_eq by lia. by rewrite Hx.
  - rewrite list_lookup_insert_ne, Hw, Hf; try done.
    intros E. apply Hne, (mod_window_inj cap C); lia.
Qed.

Lemma window_advance cap C f f' d g : 0 < cap → window cap C f d → 0 <= g <= cap →
  (∀ n, C <= n < C + g → f n = None) →
  (∀ n, C + g <= n < C + cap → f' n = f n) →
  (∀ n, C + cap <= n < C + g + cap → f' n = None) →
  window cap (C + g) f' d.
Proof.
  intros ? [Hl Hw] Hg H0 H1 H2. split; [done|]. intros n Hn.
  destruct (Z.lt_ge_cases n (C + cap)).
  - rewrite Hw, H1 by lia. done.
  - rewrite H2 by lia. replace (n `mod` cap) with ((n - cap) `mod` cap).
    + rewrite Hw, H0 by lia. done.
    + replace (n - cap) with (n + (-1) * cap) by lia. apply Z.mod_add. lia.
Qed.

Lemma window_ext cap C f f' d : window cap C f d → (∀ n, C <= n < C + cap → f' n = f n) → window cap C f' d.
Proof. intros [Hl Hw] Hf. split; [done|]. intros n Hn. by rewrite Hw, Hf. Qed.

(** The objects in the window: the consumer has destroyed the first [gone], the producer has
    constructed [pend] behind the queue. *)
Definition contents (C : Z) (q : list T) (gone : Z) (pend : list T) (n : Z) : option T :=
  if n <? C + gone then None else (q ++ pend) !! Z.to_nat (n - C).

(** Slots from [beg] on that hold objects can be destroyed, and nothing else changes. *)
Lemma destroy_ok n : ∀ beg (d : list (option T)), 0 <= beg →
  (∀ i, beg <= i < beg + Z.of_nat n → ∃ v, d !! Z.to_nat i = Some (Some v)) →
  ∃ d', destroy beg n d = Some d' ∧ length d' = length d
    ∧ ∀ i, 0 <= i → d' !! Z.to_nat i = if (beg <=? i) && (i <? beg + Z.of_nat n) then Some None else d !! Z.to_nat i.
Proof.
  induction n as [|n IH]; intros beg d Hb Hd; cbn [destroy].
  - exists d. split_and!; [done..|]. intros i Hi. destruct (Z.leb_spec beg i), (Z.ltb_spec i (beg + Z.of_nat 0)); cbn; done || lia.
  - destruct (Hd beg ltac:(lia)) as [v Hv].
    unfold destroy_at. rewrite Hv. cbn [mbind option_bind].
    assert (Z.to_nat beg < length d)%nat by (apply lookup_lt_Some in Hv; lia).
    destruct (IH (beg + 1) (<[Z.to_nat beg := None]> d)) as (d' & Hd' & Hl & Hi); [lia| |].
    { intros i Hi. rewrite list_lookup_insert_ne by lia. apply Hd. lia. }
    exists d'. rewrite length_insert in Hl. split_and!; [done..|]. intros i Hi0. rewrite Hi by done.
    destruct (decide (i = beg)) as [->|].
    + rewrite list_lookup_insert_eq by lia.
      by destruct (Z.leb_spec (beg + 1) beg), (Z.leb_spec beg beg), (Z.ltb_spec beg (beg + Z.of_nat (S n))); try lia.
    + rewrite list_lookup_insert_ne by lia.
      by destruct (Z.leb_spec (beg + 1) i), (Z.leb_spec beg i), (Z.ltb_spec i (beg + 1 + Z.of_nat n)),
        (Z.ltb_spec i (beg + Z.of_nat (S n))); try lia.
Qed.
End Queue.
