(* ===== verification/SpscSim.v ===== *)
(** The simulation between the threads of the channel and the queue of [SpscFacts]. *)

From S2P Require Import Prelude Spsc SpscRing SpscFacts.
Import Spsc.

Section Sim.
Context {T : Type} (cap : Z) (Hcap : 0 < cap <= 2 ^ 30).
#[local] Notation state := (@state T).
#[local] Notation call := (@call T).
#[local] Notation pc := (@pc T).
#[local] Notation spec := (@spec T).

(** ** What a program point says *)

Definition got (a : acquisition) : Z := end_ a - begin a.

(** Objects constructed behind the queue, and objects of the queue already destroyed. *)
Definition pend (p : pc) : list T :=
  match p with
  | Copy c _ k => take (Z.to_nat k) (items c)
  | Release c a => take (Z.to_nat (got a)) (items c)
  | _ => []
  end.
Definition cdone (p : pc) : Z :=
  match p with Destroy _ _ k => k | Release _ a => got a | _ => 0 end.

(** Objects that a consumer has moved out and not yet accounted for. *)
Definition extra (p : pc) (q : list T) : list T :=
  match p with
  | Copy _ _ k => take (Z.to_nat k) q
  | Destroy _ a _ | Release _ a => take (Z.to_nat (got a)) q
  | _ => []
  end.

Definition dropped (p : pc) : bool :=
  match p with DropNotify | DropExchange | Gone => true | _ => false end.
Definition is_gone (p : pc) : bool := match p with Gone => true | _ => false end.

(** A thread about to wake the other one. *)
Definition waking (p : pc) : Prop := match p with Notify _ | DropNotify => True | _ => False end.

Definition call_ok (s : side) (c0 : call) (done ex : list T) (c : call) : Prop :=
  single c = single c0 ∧ policy c = policy c0 ∧ count c = count c0
  ∧ remaining c = count c0 - Z.of_nat (length done) ∧ 0 <= remaining c ∧ count c0 <= 2 ^ 30
  ∧ (blocking c = true ∨ policy c0 = block_initially ∧ done ≠ [])
  ∧ (single c0 = true → count c0 = 1 ∧ policy c0 = block_forever)
  ∧ match s with
    | Producer => items c0 = done ++ items c ∧ count c0 = Z.of_nat (length (items c0))
    | Consumer => items c = done ++ ex
    end.

Definition in_call (s : side) (b : option (call * list T)) (ex : list T) (c : call) : Prop :=
  ∃ c0 done, b = Some (c0, done) ∧ call_ok s c0 done ex c.

(** The state of a thread: its word is that of [n] objects handed over, it has room for [rm]. *)
Definition thread_ok (s : side) (n rm : Z) (q : list T) (b : option (call * list T)) (p : pc) : Prop :=
  match p with
  | Idle | DropStore | DropNotify | DropExchange | Gone => b = None
  | Loop c => in_call s b [] c ∧ single c = false
  | Acquire c my => in_call s b [] c ∧ my = posword cap false n ∧ 0 < remaining c
  | Wait c my th | Sleep c my th =>
      in_call s b [] c ∧ my = posword cap false n ∧ 0 < remaining c
      ∧ blocking c = true ∧ th = Z.lxor my (waitMask s)
  | Copy c a k => in_call s b (extra p q) c ∧ range_ok cap rm n (remaining c) a ∧ 0 <= k <= got a
  | Destroy c a k =>
      s = Consumer ∧ in_call s b (extra p q) c ∧ range_ok cap rm n (remaining c) a ∧ 0 <= k <= got a
  | Release c a => in_call s b (extra p q) c ∧ range_ok cap rm n (remaining c) a
  | Notify c =>
      (∃ c0 done, b = Some (c0, done) ∧ call_ok s c0 done [] c ∧ done ≠ [])
      ∧ (single c = true → remaining c = 0)
  end.

(** A sleeping thread has seen the present position of the other one, or is about to be woken. *)
Definition sleep_ok (s : side) (st : state) : Prop :=
  ∀ c my th, pc_of s st = Sleep c my th → th = theirs s (shared st) ∨ waking (pc_of (other s) st).

Record inv (st : state) (sp : spec) (C P : Z) : Prop := mkInv {
  inv_cap : _capacity (shared st) = cap;
  inv_pos : C <= P <= C + cap;
  inv_len : Z.of_nat (length (queue sp)) = P - C;
  inv_mine : ∀ s, mine s (shared st) = posword cap (dropped (pc_of s st)) (own s C P);
  inv_thread : ∀ s, thread_ok s (own s C P) (room cap s C P) (queue sp) (busy s sp) (pc_of s st);
  inv_gone : ∀ s, gone s sp = dropped (pc_of s st);
  inv_sleep : ∀ s, sleep_ok s st;
  inv_flag : _eitherSideDropped (shared st) = is_gone (ppc st) || is_gone (cpc st);
  inv_del : deleted (shared st) = is_gone (ppc st) && is_gone (cpc st);
  inv_data : if deleted (shared st) then Forall (λ x, x = None) (_data (shared st))
             else window cap C (contents C (queue sp) (cdone (cpc st)) (pend (ppc st))) (_data (shared st)) }.

(** ** Changes of one thread *)

Lemma pc_of_set s p (st : state) : pc_of s (set_pc s p st) = p.
Proof. by destruct s. Qed.
Lemma pc_of_set_other s p (st : state) : pc_of (other s) (set_pc s p st) = pc_of (other s) st.
Proof. by destruct s. Qed.
Lemma shared_set s p (st : state) : shared (set_pc s p st) = shared st.
Proof. by destruct s. Qed.
Lemma busy_set s b (sp : spec) : busy s (set_busy s b sp) = b.
Proof. by destruct s. Qed.
Lemma busy_set_other s b (sp : spec) : busy (other s) (set_busy s b sp) = busy (other s) sp.
Proof. by destruct s. Qed.
Lemma gone_set_busy s s' b (sp : spec) : gone s (set_busy s' b sp) = gone s sp.
Proof. by destruct s, s'. Qed.
Lemma queue_set_busy s b (sp : spec) : queue (set_busy s b sp) = queue sp.
Proof. by destruct s. Qed.

Lemma side_cases (Q : side → Prop) s : Q s → Q (other s) → ∀ s', Q s'.
Proof. destruct s; intros ?? []; done. Qed.

(** A thread that leaves the positions alone. *)
Lemma inv_change s p' b d st sp C P : inv st sp C P →
  let st' := set_pc s p' (set_arc (set_data d (shared st)) st) in
  thread_ok s (own s C P) (room cap s C P) (queue sp) b p' →
  dropped p' = dropped (pc_of s st) → is_gone p' = is_gone (pc_of s st) →
  (if deleted (shared st) then Forall (λ x, x = None) d
   else window cap C (contents C (queue sp) (cdone (cpc st')) (pend (ppc st'))) d) →
  (∀ c my th, p' = Sleep c my th → th = theirs s (shared st)) →
  (waking (pc_of s st) → ∀ c my th, pc_of (other s) st ≠ Sleep c my th) →
  inv st' (set_busy s b sp) C P.
Proof.
  intros [H1 H2 H3 H4 H5 H6 H7 H8 H9 H10] st' Ht Hd Hg Hdata Hs Hw.
  assert (∀ s', mine s' (shared st') = mine s' (shared st)) as Hm by (by intros []; destruct s).
  constructor; rewrite ?queue_set_busy; try done.
  - by destruct s.
  - apply (side_cases _ s); rewrite Hm; unfold st'.
    + by rewrite H4, pc_of_set, Hd.
    + rewrite H4, pc_of_set_other. by destruct s.
  - apply (side_cases _ s); unfold st'.
    + by rewrite pc_of_set, busy_set.
    + rewrite pc_of_set_other, busy_set_other. specialize (H5 (other s)). by destruct s.
  - apply (side_cases _ s); rewrite gone_set_busy, H6; unfold st'.
    + by rewrite pc_of_set, Hd.
    + rewrite pc_of_set_other. by destruct s.
  - apply (side_cases _ s); intros c my th; unfold theirs; rewrite Hm; unfold st'; rewrite ?pc_of_set, ?pc_of_set_other.
    + intros E. left. eauto.
    + intros E. destruct (H7 (other s) c my th) as [?|Hwk]; [by destruct s|by left|].
      replace (other (other s)) with s in Hwk by by destruct s. exfalso. apply (Hw Hwk c my th). by destruct s.
  - unfold st'. destruct s; cbn in *; by rewrite H8, Hg.
  - unfold st'. destruct s; cbn in *; by rewrite H9, Hg.
  - replace (deleted (shared st')) with (deleted (shared st)) by by destruct s.
    by replace (_data (shared st')) with d by by destruct s.
Qed.

(** A thread that leaves the ring and the positions alone. *)
Lemma inv_local s p' b st sp C P : inv st sp C P →
  thread_ok s (own s C P) (room cap s C P) (queue sp) b p' →
  dropped p' = dropped (pc_of s st) → is_gone p' = is_gone (pc_of s st) →
  (s = Producer → pend p' = pend (pc_of s st)) → (s = Consumer → cdone p' = cdone (pc_of s st)) →
  (∀ c my th, p' = Sleep c my th → th = theirs s (shared st)) →
  (waking (pc_of s st) → ∀ c my th, pc_of (other s) st ≠ Sleep c my th) →
  inv (set_pc s p' st) (set_busy s b sp) C P.
Proof.
  intros Hi Ht Hd Hg Hp Hc Hs Hw.
  replace st with (set_arc (set_data (_data (shared st)) (shared st)) st) at 1 by by destruct st as [[]].
  apply inv_change; try done. pose proof (inv_data _ _ _ _ Hi) as Hdata.
  destruct (deleted (shared st)); [done|]. destruct s; cbn in *; by rewrite ?Hp, ?Hc.
Qed.

(** Waking a thread, by the other one or without a reason. *)
Lemma set_busy_id s (sp : spec) : set_busy s (busy s sp) sp = sp.
Proof. by destruct s, sp. Qed.

Lemma inv_wake s c my th st sp C P : inv st sp C P → pc_of s st = Sleep c my th →
  inv (set_pc s (Acquire c my) st) sp C P.
Proof.
  intros Hi E. rewrite <- (set_busy_id s sp). apply inv_local; rewrite ?E; try done.
  pose proof (inv_thread _ _ _ _ Hi s) as Ht. rewrite E in Ht. destruct Ht as (? & ? & ? & _). by repeat split.
Qed.

Lemma inv_notify s st sp C P : inv st sp C P →
  inv (notify_one s st) sp C P ∧ pc_of s (notify_one s st) = pc_of s st
  ∧ (∀ c my th, pc_of (other s) (notify_one s st) ≠ Sleep c my th).
Proof.
  intros Hi. unfold notify_one. destruct (pc_of (other s) st) eqn:E.
  5: { split_and!; [by eapply inv_wake| |by rewrite pc_of_set]. destruct s; done. }
  all: split_and!; [done..|by rewrite E].
Qed.

(** ** The other thread's objects *)

Lemma range_room rm rm' n slots a : rm <= rm' → range_ok cap rm n slots a → range_ok cap rm' n slots a.
Proof. clear Hcap. unfold range_ok. intros ? (? & ? & ? & ? & ? & ?). repeat split; (done || lia). Qed.

(** Room that grows and a queue that is longer do not disturb a thread. *)
Lemma thread_ok_mono s n rm rm' q q' b p : rm <= rm' →
  (s = Consumer → rm = Z.of_nat (length q) ∧ ∃ r, q' = q ++ r) →
  thread_ok s n rm q b p → thread_ok s n rm' q' b p.
Proof.
  intros Hr Hq. assert (∀ c a m k, range_ok cap rm n m a → 0 <= k <= got a →
    in_call s b (take (Z.to_nat k) q) c → in_call s b (take (Z.to_nat k) q') c) as Hc.
  { intros c a m k (_ & _ & _ & Hle & _) Hk (c0 & done & -> & H). exists c0, done. split; [done|].
    destruct s; [done|]. destruct (Hq eq_refl) as (-> & r & ->). rewrite take_app_le; [done|unfold got in *; lia]. }
  assert (∀ a m, range_ok cap rm n m a → 0 <= got a <= got a).
  { intros a m (? & ? & ?). unfold got. lia. }
  destruct p; cbn [thread_ok extra]; naive_solver eauto using range_room.
Qed.

(** ** The steps *)

Definition good (o : @outcome T) (sp : spec) : Prop :=
  match o with
  | Next l st' => ∃ sp' C' P', spec_step cap sp l sp' ∧ inv st' sp' C' P'
  | Blocked => True
  | Fault => False
  end.

(** Local steps, silent and with an answer. *)
Lemma good_tau s p' st sp C P : inv st sp C P →
  thread_ok s (own s C P) (room cap s C P) (queue sp) (busy s sp) p' →
  dropped p' = dropped (pc_of s st) → is_gone p' = is_gone (pc_of s st) →
  (s = Producer → pend p' = pend (pc_of s st)) → (s = Consumer → cdone p' = cdone (pc_of s st)) →
  (∀ c my th, p' = Sleep c my th → th = theirs s (shared st)) →
  (waking (pc_of s st) → ∀ c my th, pc_of (other s) st ≠ Sleep c my th) →
  good (Next Tau (set_pc s p' st)) sp.
Proof.
  intros Hi Ht ? ? ? ? ? ?. exists sp, C, P. split; [constructor|].
  rewrite <- (set_busy_id s sp). by apply inv_local.
Qed.

Lemma good_return s r c0 done st sp C P : inv st sp C P →
  busy s sp = Some (c0, done) → answer_ok s c0 done sp r →
  dropped (pc_of s st) = false → is_gone (pc_of s st) = false →
  pend (pc_of s st) = [] → cdone (pc_of s st) = 0 →
  (waking (pc_of s st) → ∀ c my th, pc_of (other s) st ≠ Sleep c my th) →
  good (Next (Returned s r) (set_pc s Idle st)) sp.
Proof.
  intros Hi Hb Ha Hd Hg Hp Hc Hw. exists (set_busy s None sp), C, P. split; [by econstructor|].
  apply inv_local; rewrite ?Hd, ?Hg, ?Hp, ?Hc; done.
Qed.

Lemma not_deleted s st sp C P : inv st sp C P → is_gone (pc_of s st) = false → deleted (shared st) = false.
Proof. intros Hi Hg. rewrite (inv_del _ _ _ _ Hi). destruct s; cbn in Hg; rewrite Hg; [done|apply andb_false_r]. Qed.

(** The answer of a call that ends well. *)
Lemma answer_done s c0 done c (sp : spec) : call_ok s c0 done [] c →
  (single c = true → remaining c = 0) →
  (remaining c = 0 ∨ policy c0 = block_initially ∧ done ≠ []) →
  answer_ok s c0 done sp (call_result s c true).
Proof.
  intros (Hs & Hp & Hc & Hr & Hr0 & _ & _ & H1 & Hit) H0 Hfin. unfold call_result.
  rewrite Hs in *. assert (finished c0 done) as Hf by (unfold finished; destruct Hfin; [left; lia|by right]).
  destruct s, (single c0) eqn:Es; cbn.
  - destruct (H1 eq_refl) as [E1 _]. split; [done|]. destruct Hit as [Hit Hl].
    rewrite Hit in *. rewrite length_app in Hl. assert (length (items c) = 0%nat) as El%length_zero_iff_nil by (specialize (H0 eq_refl); lia).
    by rewrite El, app_nil_r.
  - split_and!; [done|lia|done].
  - destruct (H1 eq_refl) as [E1 _]. specialize (H0 eq_refl). rewrite Hit, app_nil_r.
    destruct done as [|v [|]]; cbn in *; try lia. done.
  - rewrite Hit, app_nil_r. split_and!; [done|lia|done|done].
Qed.

Lemma loop_good s c st sp C P : inv st sp C P → pc_of s st = Loop c → good (loop_head s c st) sp.
Proof.
  intros Hi E. pose proof (inv_thread _ _ _ _ Hi s) as Ht. rewrite E in Ht.
  destruct Ht as ((c0 & done & Hb & Hok) & Hsg). unfold loop_head. destruct (Z.eqb_spec (remaining c) 0) as [E0|E0].
  - eapply good_return; rewrite ?E; try done. eapply answer_done; [done|congruence|by left].
  - eapply good_tau; rewrite ?E; try done. cbn. split_and!.
    + by exists c0, done.
    + by rewrite (inv_mine _ _ _ _ Hi), E.
    + destruct Hok as (_ & _ & _ & _ & ? & _). lia.
Qed.

(** The answer of a call that is told that the other side is gone. *)
Lemma answer_gone s c0 done c (sp : spec) : call_ok s c0 done [] c → 0 < remaining c →
  gone (other s) sp = true → (s = Consumer → queue sp = []) →
  answer_ok s c0 done sp (call_result s c false).
Proof.
  intros (Hs & Hp & Hc & Hr & Hr0 & _ & _ & H1 & Hit) H0 Hg Hq. unfold call_result. rewrite Hs.
  destruct s, (single c0) eqn:Es; cbn in *.
  - destruct (H1 eq_refl) as [E1 _]. split_and!; [done|destruct done; cbn in *; [done|lia]|done].
  - split_and!; [done|lia|done].
  - destruct (H1 eq_refl) as [E1 _]. split_and!; [done|destruct done; cbn in *; [done|lia]|done|auto].
  - rewrite Hit, app_nil_r. split_and!; [done|lia|done|done|auto].
Qed.

Lemma acquire_good s c my st sp C P : inv st sp C P → pc_of s st = Acquire c my → good (thread_step s st) sp.
Proof.
  intros Hi E. pose proof (inv_thread _ _ _ _ Hi s) as Ht. rewrite E in Ht.
  destruct Ht as ((c0 & done & Hb & Hok) & -> & Hr). unfold thread_step. rewrite E, (not_deleted s _ _ _ _ Hi) by by rewrite E.
  assert (theirs s (shared st) = posword cap (gone (other s) sp) (own (other s) C P)) as Hth.
  { unfold theirs. by rewrite (inv_mine _ _ _ _ Hi), (inv_gone _ _ _ _ Hi). }
  rewrite (inv_cap _ _ _ _ Hi), Hth.
  assert (0 < remaining c <= 2 ^ 30) as Hrem by (destruct Hok as (_ & _ & _ & ? & ? & ? & _); lia).
  pose proof (acquire_spec cap Hcap s C P (gone (other s) sp) (remaining c) (inv_pos _ _ _ _ Hi) Hrem) as Ha.
  cbv zeta in Ha. destruct (available _ _ _) eqn:Eav.
  - destruct Ha as [[Ha Hroom]|(-> & Hg & Hc)].
    + unfold acquired. pose proof Ha as (Hb0 & Hbe & _ & _).
      pose proof (Z.mod_pos_bound (own s C P) cap ltac:(lia)).
      destruct (Z.eqb_spec (end_ (acquire_range cap (waitMask s) (remaining c) (posword cap false (own s C P))
                 (posword cap (gone (other s) sp) (own (other s) C P)))) 0); [lia|].
      eapply good_tau; rewrite ?E; try done. cbn [thread_ok extra].
      change (take (Z.to_nat 0) (queue sp)) with (@nil T).
      split_and!; [by exists c0, done|done|lia|unfold got; lia].
    + unfold acquired. cbn [end_ alive]. change (0 =? 0) with true. cbv iota.
      replace (if single c then false else false) with false by by destruct (single c).
      eapply good_return; rewrite ?E; try done. apply answer_gone; try done.
      intros Es. specialize (Hc Es). subst s. pose proof (inv_len _ _ _ _ Hi). cbn in Hc.
      destruct (queue sp); [done|cbn in *; lia].
  - destruct Ha as [Hg Hroom]. destruct (blocking c) eqn:Ebl; cbn [negb].
    + eapply good_tau; rewrite ?E; try done. cbn. split_and!; try done.
      * by exists c0, done.
      * by apply available_spec in Eav.
    + unfold acquired. cbn [end_ alive acquire_nothing]. change (0 =? 0) with true. cbv iota.
      pose proof Hok as (Hs & Hp & _ & _ & _ & _ & [?|[Hpol Hne]] & H1 & _); [congruence|].
      assert (single c = false) as Esg.
      { rewrite Hs. destruct (single c0); [|done]. destruct (H1 eq_refl). congruence. }
      rewrite Esg. eapply good_return; rewrite ?E; try done. eapply answer_done; [done|congruence|by right].
Qed.

Lemma wait_good s c my th st sp C P : inv st sp C P → pc_of s st = Wait c my th → good (thread_step s st) sp.
Proof.
  intros Hi E. pose proof (inv_thread _ _ _ _ Hi s) as Ht. rewrite E in Ht.
  unfold thread_step. rewrite E, (not_deleted s _ _ _ _ Hi) by by rewrite E.
  destruct (Z.eqb_spec (theirs s (shared st)) th) as [Et|Et].
  - eapply good_tau; rewrite ?E; try done. intros ? ? ? [= <- <- <-]. done.
  - eapply good_tau; rewrite ?E; try done. destruct Ht as (? & ? & ? & _). by split_and!.
Qed.

(** ** The ring *)

(** The slot of the [k]-th object of a range. *)
Lemma slot_of_range rm n slots a k : range_ok cap rm n slots a → 0 <= k < got a →
  begin a + k = (n + k) `mod` cap.
Proof.
  intros (Hb & ? & _) Hk. unfold got in *. pose proof (Z.mod_pos_bound n cap ltac:(lia)).
  pose proof (Z.div_mod n cap ltac:(lia)). apply Z.mod_unique with (n / cap); lia.
Qed.

(** Neither side works beyond its room. *)
Lemma cdone_bound st sp C P : inv st sp C P → 0 <= cdone (cpc st) <= P - C.
Proof.
  intros Hi. pose proof (inv_thread _ _ _ _ Hi Consumer) as Ht. pose proof (inv_pos _ _ _ _ Hi).
  cbn [pc_of] in Ht. destruct (cpc st); cbn in *; try lia.
  - destruct Ht as (_ & _ & (_ & _ & _ & ? & _) & ?). unfold got in *; lia.
  - destruct Ht as (_ & (_ & ? & _ & ? & _)). unfold got in *; lia.
Qed.

Lemma pend_bound st sp C P : inv st sp C P → Z.of_nat (length (pend (ppc st))) <= C + cap - P.
Proof.
  intros Hi. pose proof (inv_thread _ _ _ _ Hi Producer) as Ht. pose proof (inv_pos _ _ _ _ Hi).
  cbn [pc_of] in Ht. destruct (ppc st); cbn in *; try lia; rewrite length_take.
  - destruct Ht as (_ & (_ & _ & _ & ? & _) & ?). unfold got in *; lia.
  - destruct Ht as (_ & (_ & ? & _ & ? & _)). unfold got in *; lia.
Qed.

Lemma copy_good s c a k st sp C P : inv st sp C P → pc_of s st = Copy c a k → good (thread_step s st) sp.
Proof.
  intros Hi E. pose proof (inv_thread _ _ _ _ Hi s) as Ht. rewrite E in Ht.
  destruct Ht as ((c0 & done & Hb & Hok) & Hrg & Hk). unfold thread_step.
  pose proof (not_deleted s _ _ _ _ Hi ltac:(by rewrite E)) as Hdel. rewrite E, Hdel.
  pose proof (inv_data _ _ _ _ Hi) as Hdata. rewrite Hdel in Hdata.
  pose proof (inv_pos _ _ _ _ Hi) as Hpos. pose proof (cdone_bound _ _ _ _ Hi) as Hcd. pose proof (inv_len _ _ _ _ Hi) as Hl.
  fold (got a). destruct (Z.ltb_spec k (got a)) as [Hlt|Hge].
  - pose proof (slot_of_range _ _ _ _ k Hrg ltac:(lia)) as Hslot. pose proof Hrg as (_ & _ & Hsl & Hrm & _).
    fold (got a) in Hsl, Hrm. unfold copy_one. destruct s; cbn [own room pc_of] in *.
    + pose proof Hok as (_ & _ & _ & Hrem & _ & _ & _ & _ & Hit & Hcnt). rewrite Hit, length_app in Hcnt.
      destruct (lookup_lt_is_Some_2 (items c) (Z.to_nat k)) as [v Hv]; [lia|]. rewrite Hv.
      unfold construct. rewrite Hslot, (proj2 Hdata) by lia.
      assert (contents C (queue sp) (cdone (cpc st)) (pend (ppc st)) (P + k) = None) as ->.
      { unfold contents. rewrite E. cbn [pend]. destruct (P + k <? _); [done|].
        apply lookup_ge_None_2. rewrite length_app, length_take. lia. }
      exists sp, C, P. split; [constructor|]. rewrite <- (set_busy_id Producer sp).
      apply (inv_change Producer); rewrite ?set_busy_id; cbn [pc_of] in *; rewrite ?E; try done.
      * cbn [thread_ok extra]. split_and!; [by exists c0, done|done|lia|lia].
      * rewrite Hdel. cbn [cpc set_pc set_arc ppc pend].
        replace (Z.to_nat (k + 1)) with (S (Z.to_nat k)) by lia. rewrite (take_S_r _ _ v) by done.
        eapply window_update; [lia|exact Hdata|lia| |].
        -- unfold contents. destruct (Z.ltb_spec (P + k) (C + cdone (cpc st))); [lia|].
           rewrite app_assoc, lookup_app_r; rewrite length_app, length_take; [|lia].
           by replace (Z.to_nat (P + k - C) - _)%nat with 0%nat by lia.
        -- intros n Hn Hne. unfold contents. rewrite E. cbn [pend]. destruct (n <? _); [done|].
           rewrite app_assoc. destruct (Z.lt_ge_cases n (P + k)).
           ++ apply lookup_app_l. rewrite length_app, length_take. lia.
           ++ rewrite !lookup_ge_None_2; [done|..]; rewrite ?length_app, ?length_take; cbn; lia.
    + unfold move_out. rewrite Hslot, (proj2 Hdata) by lia.
      destruct (lookup_lt_is_Some_2 (queue sp) (Z.to_nat k)) as [v Hv]; [lia|].
      assert (contents C (queue sp) (cdone (cpc st)) (pend (ppc st)) (C + k) = Some v) as ->.
      { unfold contents. rewrite E. cbn [cdone]. destruct (Z.ltb_spec (C + k) (C + 0)); [lia|].
        replace (C + k - C) with k by lia. by apply lookup_app_l_Some. }
      eapply (good_tau Consumer); cbn [pc_of] in *; rewrite ?E; try done. cbn [thread_ok extra with_items remaining].
      split_and!; [|done|lia|lia]. exists c0, done. split; [done|].
      replace (Z.to_nat (k + 1)) with (S (Z.to_nat k)) by lia. rewrite (take_S_r _ _ v) by done.
      destruct Hok as (? & ? & ? & ? & ? & ? & ? & ? & ->). cbn [extra]. split_and!; try done.
      by rewrite app_assoc.
  - assert (k = got a) as -> by lia. unfold copied. destruct s.
    + eapply (good_tau Producer); cbn [pc_of] in *; rewrite ?E; try done. cbn [thread_ok extra]. split; [by exists c0, done|done].
    + eapply (good_tau Consumer); cbn [pc_of] in *; rewrite ?E; try done. cbn [thread_ok extra].
      split_and!; [done|by exists c0, done|done|lia|lia].
Qed.

Lemma destroy_good s c a k st sp C P : inv st sp C P → pc_of s st = Destroy c a k → good (thread_step s st) sp.
Proof.
  intros Hi E. pose proof (inv_thread _ _ _ _ Hi s) as Ht. rewrite E in Ht.
  destruct Ht as (-> & (c0 & done & Hb & Hok) & Hrg & Hk). unfold thread_step.
  pose proof (not_deleted Consumer _ _ _ _ Hi ltac:(by rewrite E)) as Hdel. rewrite E, Hdel.
  pose proof (inv_data _ _ _ _ Hi) as Hdata. rewrite Hdel in Hdata. pose proof (inv_len _ _ _ _ Hi) as Hl.
  fold (got a). cbn [pc_of own room] in *. pose proof (inv_pos _ _ _ _ Hi). destruct (Z.ltb_spec k (got a)) as [Hlt|Hge].
  - pose proof (slot_of_range _ _ _ _ k Hrg ltac:(lia)) as Hslot. pose proof Hrg as (_ & _ & _ & Hrm & _).
    fold (got a) in Hrm. unfold destroy_at. rewrite Hslot, (proj2 Hdata) by lia.
    destruct (lookup_lt_is_Some_2 (queue sp) (Z.to_nat k)) as [v Hv]; [lia|].
    assert (contents C (queue sp) (cdone (cpc st)) (pend (ppc st)) (C + k) = Some v) as ->.
    { unfold contents. rewrite E. cbn [cdone]. destruct (Z.ltb_spec (C + k) (C + k)); [lia|].
      replace (C + k - C) with k by lia. by apply lookup_app_l_Some. }
    exists sp, C, P. split; [constructor|]. rewrite <- (set_busy_id Consumer sp).
    apply (inv_change Consumer); rewrite ?set_busy_id; cbn [pc_of] in *; rewrite ?E; try done.
    + cbn [thread_ok extra]. split_and!; [done|by exists c0, done|done|lia|lia].
    + rewrite Hdel. cbn [cpc set_pc set_arc ppc cdone]. eapply window_update; [lia|exact Hdata|lia| |].
      * unfold contents. by destruct (Z.ltb_spec (C + k) (C + (k + 1))); [|lia].
      * intros n Hn Hne. unfold contents. rewrite E. cbn [cdone].
        destruct (Z.ltb_spec n (C + (k + 1))), (Z.ltb_spec n (C + k)); done || lia.
  - assert (k = got a) as -> by lia. eapply (good_tau Consumer); cbn [pc_of] in *; rewrite ?E; try done.
    cbn [thread_ok extra]. split; [by exists c0, done|done].
Qed.

(** ** Handing over *)

Lemma call_ok_sent c0 done c g : call_ok Producer c0 done [] c → 0 < g <= remaining c →
  call_ok Producer c0 (done ++ take (Z.to_nat g) (items c)) []
    (with_remaining (wrapu 32 (remaining c - g)) (with_items (drop (Z.to_nat g) (items c)) c))
  ∧ take (Z.to_nat g) (items c) ≠ [] ∧ length (take (Z.to_nat g) (items c)) = Z.to_nat g.
Proof.
  intros (Hs & Hp & Hc & Hr & Hr0 & Hm & Hbl & H1 & Hit & Hl) Hg.
  rewrite Hit, length_app in Hl. assert (length (take (Z.to_nat g) (items c)) = Z.to_nat g) as Ht.
  { rewrite length_take. lia. }
  split_and!; try done.
  - unfold call_ok. cbn [single policy count remaining blocking items with_remaining with_items].
    rewrite (wrapu_small 32) by lia. rewrite length_app, Ht.
    split_and!; try done; try lia.
    + destruct Hbl as [?|[? ?]]; [by left|right]. split; [done|]. by intros [-> ?]%app_nil.
    + by rewrite <- app_assoc, take_drop.
    + by rewrite Hit, length_app.
  - intros E. rewrite E in Ht. cbn in Ht. lia.
Qed.

Lemma call_ok_received c0 done q c g : call_ok Consumer c0 done (take (Z.to_nat g) q) c →
  0 < g <= remaining c → g <= Z.of_nat (length q) →
  drop (length (items c) - Z.to_nat g) (items c) = take (Z.to_nat g) q
  ∧ call_ok Consumer c0 (done ++ take (Z.to_nat g) q) []
      (with_remaining (wrapu 32 (remaining c - g)) (with_items (items c) c))
  ∧ take (Z.to_nat g) q ≠ [] ∧ length (take (Z.to_nat g) q) = Z.to_nat g
  ∧ Z.of_nat (length (done ++ take (Z.to_nat g) q)) <= count c0.
Proof.
  intros (Hs & Hp & Hc & Hr & Hr0 & Hm & Hbl & H1 & Hit) Hg Hq.
  assert (length (take (Z.to_nat g) q) = Z.to_nat g) as Ht by (rewrite length_take; lia).
  rewrite Hit, !length_app, Ht. split_and!; try lia.
  - replace (_ + _ - _)%nat with (length done) by lia. by rewrite drop_app_length.
  - unfold call_ok. cbn [single policy count remaining blocking items with_remaining with_items].
    rewrite (wrapu_small 32) by lia. rewrite length_app, Ht, app_nil_r. split_and!; try done; try lia.
    destruct Hbl as [?|[? ?]]; [by left|right]. split; [done|]. by intros [-> ?]%app_nil.
  - intros E. rewrite E in Ht. cbn in Ht. lia.
Qed.

Lemma single_done s c0 done c : call_ok s c0 done [] c → done ≠ [] → single c = true → remaining c = 0.
Proof.
  intros (Hs & _ & _ & Hr & Hr0 & _ & _ & H1 & _) Hne E. rewrite Hs in E. destruct (H1 E) as [E1 _].
  destruct done; [done|]. cbn in *. lia.
Qed.

Lemma producer_release_good c a st sp C P : inv st sp C P → ppc st = Release c a →
  good (release_store Producer c a st) sp.
Proof.
  intros Hi E. pose proof Hi as [H1 H2 H3 H4 H5 H6 H7 H8 H9 H10].
  pose proof (H5 Producer) as Ht. pose proof (H5 Consumer) as Htc. cbn [pc_of own room busy] in Ht, Htc.
  rewrite E in *. destruct Ht as ((c0 & done & Hb & Hok) & Hrg).
  pose proof Hrg as (_ & Hbe & Hsl & Hrm & Hnx & _). fold (got a) in Hsl, Hrm, Hnx.
  assert (0 < got a) by (unfold got; lia).
  destruct (call_ok_sent c0 done c (got a) Hok ltac:(lia)) as (Hok' & Hne & Hlen).
  unfold release_store. fold (got a). set (vs := take (Z.to_nat (got a)) (items c)) in *.
  exists (set_busy Producer (Some (c0, done ++ vs)) (set_queue (queue sp ++ vs) sp)), C, (P + got a).
  split.
  { apply (spec_send _ c0 done vs (drop (Z.to_nat (got a)) (items c))); try done.
    - unfold vs. rewrite take_drop. apply Hok.
    - rewrite Hlen. lia. }
  cbn [is_gone orb andb] in H8, H9. rewrite H9 in H10.
  constructor; cbn [shared set_pc set_arc store _capacity queue set_busy set_queue _eitherSideDropped deleted ppc cpc _data is_gone]; try done.
  - lia.
  - rewrite length_app, Hlen. lia.
  - intros []; cbn [mine pc_of ppc cpc own _producer _consumer dropped]; [done|apply (H4 Consumer)].
  - intros []; cbn [pc_of ppc cpc own room busy pbusy cbusy].
    + split; [by exists c0, (done ++ vs); split_and!; [..|by intros [? ->]%app_nil]|].
      eapply single_done; [done|by intros [? ->]%app_nil].
    + eapply thread_ok_mono; [|intros _; split|exact Htc]; [lia|lia|by exists vs].
  - intros []; [pose proof (H6 Producer) as Hx; cbn in Hx; by rewrite E in Hx|apply (H6 Consumer)].
  - intros []; [by intros ? ? ? ?|]. intros ? ? ? _. by right.
  - rewrite H9. cbn [pend] in *. fold vs in H10.
    eapply window_ext; [exact H10|]. intros n _. unfold contents. by rewrite app_nil_r.
Qed.

Lemma consumer_release_good c a st sp C P : inv st sp C P → cpc st = Release c a →
  good (release_store Consumer c a st) sp.
Proof.
  intros Hi E. pose proof Hi as [H1 H2 H3 H4 H5 H6 H7 H8 H9 H10]. pose proof (pend_bound _ _ _ _ Hi) as Hpb.
  pose proof (H5 Consumer) as Ht. pose proof (H5 Producer) as Htp. cbn [pc_of own room busy] in Ht, Htp.
  rewrite E in *. destruct Ht as ((c0 & done & Hb & Hok) & Hrg).
  pose proof Hrg as (_ & Hbe & Hsl & Hrm & Hnx & _). fold (got a) in Hsl, Hrm, Hnx.
  assert (0 < got a) by (unfold got; lia). cbn [extra] in Hok.
  destruct (call_ok_received c0 done (queue sp) c (got a) Hok ltac:(lia) ltac:(lia)) as (Hvs & Hok' & Hne & Hlen & Hcnt).
  unfold release_store. fold (got a). rewrite Hvs. set (vs := take (Z.to_nat (got a)) (queue sp)) in *.
  exists (set_busy Consumer (Some (c0, done ++ vs)) (set_queue (drop (Z.to_nat (got a)) (queue sp)) sp)), (C + got a), P.
  split.
  { apply (spec_receive _ c0 done vs (drop (Z.to_nat (got a)) (queue sp))); try done.
    unfold vs. by rewrite take_drop. }
  cbn [is_gone orb andb] in H8, H9. rewrite andb_false_r in H9. rewrite H9 in H10.
  constructor; cbn [shared set_pc set_arc store _capacity queue set_busy set_queue _eitherSideDropped deleted ppc cpc _data is_gone]; rewrite ?andb_false_r; try done.
  - lia.
  - rewrite length_drop. lia.
  - intros []; cbn [mine pc_of ppc cpc own _producer _consumer dropped]; [apply (H4 Producer)|done].
  - intros []; cbn [pc_of ppc cpc own room busy pbusy cbusy].
    + eapply thread_ok_mono; [|done|exact Htp]. lia.
    + split; [by exists c0, (done ++ vs); split_and!; [..|by intros [? ->]%app_nil]|].
      eapply single_done; [done|by intros [? ->]%app_nil].
  - intros []; [apply (H6 Producer)|pose proof (H6 Consumer) as Hx; cbn in Hx; by rewrite E in Hx].
  - intros []; [|by intros ? ? ? ?]. intros ? ? ? _. by right.
  - rewrite H9. cbn [cdone] in *. eapply window_advance; [lia|exact H10|lia| | |]; unfold contents; intros n Hn.
    + by destruct (Z.ltb_spec n (C + got a)); [|lia].
    + destruct (Z.ltb_spec n (C + got a + 0)), (Z.ltb_spec n (C + got a)); try lia.
      rewrite <- (drop_app_le (queue sp)) by lia. rewrite lookup_drop. f_equal. lia.
    + destruct (Z.ltb_spec n (C + got a + 0)); [done|]. apply lookup_ge_None_2.
      rewrite length_app, length_drop. lia.
Qed.

(** ** Waking and leaving *)

Lemma notify_good s c st sp C P : inv st sp C P → pc_of s st = Notify c → good (thread_step s st) sp.
Proof.
  intros Hi E. pose proof (inv_thread _ _ _ _ Hi s) as Ht. rewrite E in Ht.
  destruct Ht as ((c0 & done & Hb & Hok & Hne) & Hsg). unfold thread_step.
  rewrite E, (not_deleted s _ _ _ _ Hi) by by rewrite E.
  destruct (inv_notify s st sp C P Hi) as (Hi' & E' & Hns). rewrite E in E'.
  unfold released. destruct (single c) eqn:Es.
  - eapply good_return; rewrite ?E'; try done. eapply answer_done; [done|auto|left; auto].
  - eapply good_tau; rewrite ?E'; try done. cbn [thread_ok].
    pose proof Hok as (? & Hp & ? & ? & ? & ? & ? & ? & ?). destruct (policy c) eqn:Ep; cbn [_block_forever].
    + split; [|done]. exists c0, done. split; [done|]. unfold call_ok. cbn [single policy count remaining blocking items with_blocking].
      split_and!; try congruence; try done. right. by split; [congruence|].
    + split; [by exists c0, done|done].
Qed.

Lemma drop_store_good s st sp C P : inv st sp C P → pc_of s st = DropStore → good (thread_step s st) sp.
Proof.
  intros Hi E. pose proof Hi as [H1 H2 H3 H4 H5 H6 H7 H8 H9 H10]. unfold thread_step.
  pose proof (not_deleted s _ _ _ _ Hi ltac:(by rewrite E)) as Hdel. rewrite E, Hdel.
  pose proof (H5 s) as Ht. pose proof (H6 s) as Hg. pose proof (H4 s) as Hm. rewrite E in *. cbn in Ht, Hg, Hm.
  exists (set_gone s sp), C, P. split; [by constructor|]. rewrite Hm, posword_drop by done. rewrite Hdel in H10.
  assert (queue (set_gone s sp) = queue sp) as Hq by by destruct s.
  constructor; rewrite ?Hq; try done.
  - by destruct s.
  - apply (side_cases _ s); [by destruct s|]. specialize (H4 (other s)). by destruct s.
  - apply (side_cases _ s); [by destruct s|]. specialize (H5 (other s)). by destruct s.
  - apply (side_cases _ s); [by destruct s|]. specialize (H6 (other s)). by destruct s.
  - apply (side_cases _ s); [by destruct s|]. intros ? ? ? _. right. by destruct s.
  - destruct s; cbn in *; rewrite H8, E; done.
  - destruct s; cbn in *; rewrite H9, E; done.
  - destruct s; cbn in *; rewrite Hdel; rewrite E in H10; done.
Qed.

Lemma drop_notify_good s st sp C P : inv st sp C P → pc_of s st = DropNotify → good (thread_step s st) sp.
Proof.
  intros Hi E. pose proof (inv_thread _ _ _ _ Hi s) as Ht. rewrite E in Ht. unfold thread_step.
  rewrite E, (not_deleted s _ _ _ _ Hi) by by rewrite E.
  destruct (inv_notify s st sp C P Hi) as (Hi' & E' & Hns). rewrite E in E'.
  by eapply good_tau; rewrite ?E'.
Qed.

(** ** Deleting *)

(** The slot [i] holds the object of the window whose number is [i] modulo the capacity. *)
Lemma window_slot C f (d : list (option T)) i : window cap C f d → 0 <= i < cap →
  d !! Z.to_nat i = Some (f (C + if C `mod` cap <=? i then i - C `mod` cap else i - C `mod` cap + cap)).
Proof.
  intros [_ Hw] Hi. pose proof (Z.div_mod C cap ltac:(lia)). pose proof (Z.mod_pos_bound C cap ltac:(lia)).
  destruct (Z.leb_spec (C `mod` cap) i); rewrite <- Hw by lia; do 2 f_equal.
  - apply Z.mod_unique with (C / cap); lia.
  - apply Z.mod_unique with (C / cap + 1); lia.
Qed.

(** The destructor destroys the objects of the queue, and these only. *)
Lemma arc_destructor_ok (a : @arc T) C P q d1 d2 : C <= P <= C + cap → Z.of_nat (length q) = P - C →
  _capacity a = cap → _producer a = posword cap d1 P → _consumer a = posword cap d2 C →
  window cap C (contents C q 0 []) (_data a) →
  ∃ d, arc_destructor a = Some (mkArc d (_capacity a) (_eitherSideDropped a) (_producer a) (_consumer a) true)
    ∧ Forall (λ x, x = None) d.
Proof.
  intros HP Hq Hc Hp Hcn Hw. pose proof (Z.mod_pos_bound C cap ltac:(lia)). pose proof (Z.mod_pos_bound P cap ltac:(lia)).
  assert (∀ i, 0 <= i < cap → let j := if C `mod` cap <=? i then i - C `mod` cap else i - C `mod` cap + cap in
    (j < P - C → ∃ v, _data a !! Z.to_nat i = Some (Some v)) ∧ (P - C <= j → _data a !! Z.to_nat i = Some None)) as Hs.
  { intros i Hi j. rewrite (window_slot C _ _ i Hw Hi). fold j. unfold contents. rewrite app_nil_r.
    assert (0 <= j) by (unfold j; destruct (Z.leb_spec (C `mod` cap) i); lia).
    destruct (Z.ltb_spec (C + j) (C + 0)); [lia|]. split; intros Hj.
    - destruct (lookup_lt_is_Some_2 q (Z.to_nat (C + j - C))) as [v ->]; [lia|]. by exists v.
    - by rewrite lookup_ge_None_2 by lia. }
  assert (∀ d : list (option T), length d = length (_data a) → (∀ i, 0 <= i < cap → d !! Z.to_nat i = Some None) → Forall (λ x, x = None) d) as Hall.
  { intros d Hl Hd. apply Forall_lookup. intros i x Hx. destruct Hw as [Hlen _].
    pose proof (lookup_lt_Some _ _ _ Hx). specialize (Hd (Z.of_nat i) ltac:(lia)). rewrite Nat2Z.id in Hd. congruence. }
  assert (negb (Z.land (Z.lxor (_consumer a) (_producer a)) revolution_flag =? 0)
          = xorb (Z.odd (C / cap)) (Z.odd (P / cap))) as Hrev.
  { change revolution_flag with (2 ^ 30). rewrite land_bit, Z.lxor_spec, Hp, Hcn by lia. unfold posword.
    rewrite !word_bit30 by (apply pos_range; lia). by destruct (xorb _ _). }
  unfold arc_destructor. rewrite Hrev, Hp, Hcn, !posword_position, Hc by done.
  destruct (ring_cases cap Hcap C P HP) as [(E & Hle & Hd)|(E & Hle & Hd)].
  - rewrite E, xorb_nilpotent. destruct (Z.ltb_spec (C `mod` cap) (P `mod` cap)).
    + destruct (destroy_ok (Z.to_nat (P `mod` cap - C `mod` cap)) (C `mod` cap) (_data a)) as (d & -> & Hl & Hdi); [lia| |].
      { intros i Hi. apply Hs; [lia|]. destruct (Z.leb_spec (C `mod` cap) i); lia. }
      cbn [mbind option_bind]. eexists. split; [done|]. apply Hall; [done|]. intros i Hi. rewrite Hdi by lia.
      specialize (Hs i Hi) as [_ Hn]. destruct (Z.leb_spec (C `mod` cap) i), (Z.ltb_spec i (C `mod` cap + Z.of_nat (Z.to_nat (P `mod` cap - C `mod` cap))));
        cbn [andb]; try done; apply Hn; lia.
    + cbn [mbind option_bind]. eexists. split; [done|]. apply Hall; [done|]. intros i Hi.
      apply Hs; [done|]. destruct (Z.leb_spec (C `mod` cap) i); lia.
  - destruct (Z.ltb_spec (C `mod` cap) (P `mod` cap)); [lia|].
    replace (xorb _ _) with true by (rewrite E, Z.odd_add; by destruct (Z.odd (C / cap))).
    destruct (destroy_ok (Z.to_nat (P `mod` cap)) 0 (_data a)) as (d & -> & Hl & Hdi); [lia| |].
    { intros i Hi. apply Hs; [lia|]. destruct (Z.leb_spec (C `mod` cap) i); lia. }
    cbn [mbind option_bind].
    destruct (destroy_ok (Z.to_nat (cap - C `mod` cap)) (C `mod` cap) d) as (d' & -> & Hl' & Hdi'); [lia| |].
    { intros i Hi. rewrite Hdi by lia. destruct (Z.leb_spec 0 i), (Z.ltb_spec i (0 + Z.of_nat (Z.to_nat (P `mod` cap)))); cbn [andb]; try lia;
        apply Hs; [lia|]; destruct (Z.leb_spec (C `mod` cap) i); lia. }
    cbn [mbind option_bind]. eexists. split; [done|]. apply Hall; [lia|]. intros i Hi. rewrite Hdi', Hdi by lia.
    specialize (Hs i Hi) as [_ Hn].
    destruct (Z.leb_spec (C `mod` cap) i), (Z.ltb_spec i (C `mod` cap + Z.of_nat (Z.to_nat (cap - C `mod` cap)))), (Z.leb_spec 0 i), (Z.ltb_spec i (0 + Z.of_nat (Z.to_nat (P `mod` cap))));
      cbn [andb]; try done; try lia; apply Hn; lia.
Qed.

Lemma drop_exchange_good s st sp C P : inv st sp C P → pc_of s st = DropExchange → good (thread_step s st) sp.
Proof.
  intros Hi E. pose proof Hi as [H1 H2 H3 H4 H5 H6 H7 H8 H9 H10]. unfold thread_step.
  pose proof (not_deleted s _ _ _ _ Hi ltac:(by rewrite E)) as Hdel. rewrite E, Hdel. rewrite Hdel in H10.
  assert (_eitherSideDropped (shared st) = is_gone (pc_of (other s) st)) as Hf.
  { rewrite H8. destruct s; cbn in *; rewrite E; [done|apply orb_false_r]. }
  pose proof (H5 s) as Ht. pose proof (H6 s) as Hg. rewrite E in Ht, Hg. rewrite Hf. destruct (is_gone (pc_of (other s) st)) eqn:Eo.
  - assert (pc_of (other s) st = Gone) as Eg by by destruct (pc_of (other s) st).
    match goal with |- good match arc_destructor ?a with _ => _ end _ =>
      destruct (arc_destructor_ok a C P (queue sp) true true) as (d & -> & Hd); cbn; try done end.
    { rewrite (H4 Producer : _producer (shared st) = _). destruct s; cbn in *; by rewrite ?E, ?Eg. }
    { rewrite (H4 Consumer : _consumer (shared st) = _). destruct s; cbn in *; by rewrite ?E, ?Eg. }
    { destruct s; cbn in *; rewrite E, Eg in H10; done. }
    exists sp, C, P. split; [constructor|]. constructor; try done.
    + by destruct s.
    + apply (side_cases _ s); [specialize (H4 s); rewrite E in H4|specialize (H4 (other s))]; by destruct s.
    + apply (side_cases _ s); [by destruct s|]. specialize (H5 (other s)). by destruct s.
    + apply (side_cases _ s); [by destruct s|]. specialize (H6 (other s)). by destruct s.
    + apply (side_cases _ s); [by destruct s|]. intros ? ? ? Hx. exfalso. destruct s; cbn in *; congruence.
    + destruct s; cbn in *; rewrite ?Eo; done.
    + destruct s; cbn in *; rewrite ?Eo; done.
    + by destruct s.
  - exists sp, C, P. split; [constructor|]. constructor; try done.
    + by destruct s.
    + apply (side_cases _ s); [specialize (H4 s); rewrite E in H4|specialize (H4 (other s))]; by destruct s.
    + apply (side_cases _ s); [by destruct s|]. specialize (H5 (other s)). by destruct s.
    + apply (side_cases _ s); [by destruct s|]. specialize (H6 (other s)). by destruct s.
    + apply (side_cases _ s); [by destruct s|]. intros c my th Hx.
      destruct (H7 (other s) c my th) as [?|Hwk]; [by destruct s|left; by destruct s|].
      exfalso. destruct s; cbn in *; by rewrite E in Hwk.
    + destruct s; cbn in *; rewrite ?Eo; done.
    + destruct s; cbn in *; rewrite ?Eo, ?Hdel; done.
    + destruct s; cbn in *; rewrite E in H10; done.
Qed.

(** ** Clients and runs *)

Lemma thread_good s st sp C P : inv st sp C P → good (thread_step s st) sp.
Proof.
  intros Hi. destruct (pc_of s st) eqn:E.
  2: { unfold thread_step. rewrite E, (not_deleted s _ _ _ _ Hi) by by rewrite E. by eapply loop_good. }
  all: try (by unfold thread_step; rewrite E);
    eauto using acquire_good, wait_good, copy_good, destroy_good, notify_good, drop_store_good, drop_notify_good, drop_exchange_good.
  unfold thread_step. rewrite E, (not_deleted s _ _ _ _ Hi) by by rewrite E.
  destruct s; [by eapply producer_release_good|by eapply consumer_release_good].
Qed.

Lemma side_call_ok s (c : call) : side_call s c → single c = true ∨ validate_size (count c) = true →
  call_ok s c [] [] c ∧ (single c = true → 0 < remaining c).
Proof.
  assert (position_mask = 2 ^ 30 - 1) as Hm by done.
  intros Hs Hv. assert (∀ c : call, validate_size (count c) = true → count c <= 2 ^ 30) as Hb.
  { intros ?. unfold validate_size. rewrite Z.leb_le. lia. }
  destruct s; cbn in Hs; [destruct Hs as [[v ->]|(p & l & ->)]|destruct Hs as [->|(p & n & Hn & ->)]];
    (destruct Hv as [Hv|Hv%Hb]; [try done|]); unfold call_ok; cbn in *; split_and!; try done; try lia; by left.
Qed.

Lemma client_good s c st sp C P : inv st sp C P → side_call s c → good (client_call s c st) sp.
Proof.
  intros Hi Hc. unfold client_call. pose proof (inv_thread _ _ _ _ Hi s) as Ht. destruct (pc_of s st) eqn:E; try done.
  pose proof (inv_gone _ _ _ _ Hi s) as Hg. rewrite E in Hg. cbn in Ht, Hg.
  rewrite (not_deleted s _ _ _ _ Hi) by by rewrite E.
  assert (∀ p', thread_ok s (own s C P) (room cap s C P) (queue sp) (Some (c, [])) p' →
    dropped p' = false → is_gone p' = false → pend p' = [] → cdone p' = 0 → (∀ c my th, p' ≠ Sleep c my th) →
    good (Next (Called s c) (set_pc s p' st)) sp) as Hgo.
  { intros p' Hp ? ? ? ? Hns. exists (set_busy s (Some (c, [])) sp), C, P. split; [by constructor|].
    apply inv_local; rewrite ?E; try done. by intros ? ? ? ?%Hns. }
  destruct (single c) eqn:Es; [|destruct (validate_size (count c)) eqn:Ev].
  - destruct (side_call_ok s c Hc ltac:(by left)) as [Hok Hr]. apply Hgo; try done. cbn. split_and!.
    + by exists c, [].
    + by rewrite (inv_mine _ _ _ _ Hi), E.
    + auto.
  - destruct (side_call_ok s c Hc ltac:(by right)) as [Hok _]. apply Hgo; try done. cbn. split; [by exists c, []|done].
  - exists sp, C, P. split; [by constructor|done].
Qed.

Lemma client_drop_good s st sp C P : inv st sp C P → good (client_drop s st) sp.
Proof.
  intros Hi. unfold client_drop. pose proof (inv_thread _ _ _ _ Hi s) as Ht. destruct (pc_of s st) eqn:E; try done.
  by eapply good_tau; rewrite ?E.
Qed.

Lemma inv_init st0 : channel cap = Some st0 → inv st0 spec_init 0 0.
Proof.
  unfold channel. destruct (Z.eqb_spec cap 0) as [?|_]; [lia|]. intros [= <-]. constructor; cbn; try done; try lia.
  - intros []; cbn; unfold posword; rewrite Z.div_0_l, Z.mod_0_l by lia; done.
  - by intros [].
  - by intros [].
  - by intros [] ? ? ? ?.
  - split; [rewrite length_replicate; lia|]. intros n Hn. pose proof (Z.mod_pos_bound n cap ltac:(lia)).
    rewrite lookup_replicate_2 by lia. unfold contents. by destruct (n <? _).
Qed.

Lemma step_good (st : state) l st' sp C P : inv st sp C P → step st l st' →
  ∃ sp' C' P', spec_step cap sp l sp' ∧ inv st' sp' C' P'.
Proof.
  intros Hi Hs. destruct Hs as [s st l st' E|s c st l st' Hc E|s st l st' E|s st c my th E].
  - pose proof (thread_good s st sp C P Hi) as Hg. by rewrite E in Hg.
  - pose proof (client_good s c st sp C P Hi Hc) as Hg. by rewrite E in Hg.
  - pose proof (client_drop_good s st sp C P Hi) as Hg. by rewrite E in Hg.
  - exists sp, C, P. split; [constructor|]. by eapply inv_wake.
Qed.

Lemma run_good st0 tr st : channel cap = Some st0 → run st0 tr st →
  ∃ sp C P, spec_run cap tr sp ∧ inv st sp C P.
Proof.
  intros H0 Hr. induction Hr as [|tr st l st' _ IH Hs].
  - exists spec_init, 0, 0. split; [constructor|by apply inv_init].
  - destruct IH as (sp & C & P & Hsp & Hi). destruct (step_good _ _ _ _ _ _ Hi Hs) as (sp' & C' & P' & Hss & Hi').
    exists sp', C', P'. split; [by econstructor|done].
Qed.

(** A sleeping thread is woken by the next step of the other one, or has to wait. *)
Lemma sleeper_cases s c my th st sp C P : inv st sp C P → pc_of s st = Sleep c my th →
  (∃ l st', thread_step (other s) st = Next l st' ∧ pc_of s st' = Acquire c my)
  ∨ gone (other s) sp = false ∧ room cap s C P = 0.
Proof.
  intros Hi E. pose proof (inv_thread _ _ _ _ Hi s) as Ht. rewrite E in Ht.
  destruct Ht as ((c0 & done & _ & Hok) & -> & Hr & _ & Hth).
  destruct (inv_sleep _ _ _ _ Hi s _ _ _ E) as [Ht|Hw].
  - right. assert (0 < remaining c <= 2 ^ 30) as Hrem by (destruct Hok as (_ & _ & _ & ? & ? & ? & _); lia).
    pose proof (acquire_spec cap Hcap s C P (gone (other s) sp) (remaining c) (inv_pos _ _ _ _ Hi) Hrem) as Ha.
    cbv zeta in Ha. rewrite (inv_gone _ _ _ _ Hi (other s)) in *. rewrite <- (inv_mine _ _ _ _ Hi (other s)) in Ha.
    by rewrite (proj2 (available_spec _ _ _)) in Ha by (unfold theirs in Ht; congruence).
  - left. unfold thread_step. destruct (pc_of (other s) st) eqn:Eo; try done;
      rewrite (not_deleted (other s) _ _ _ _ Hi) by by rewrite Eo.
    + unfold released, notify_one. replace (other (other s)) with s by by destruct s. rewrite E.
      destruct (single c1); eexists _, _; (split; [done|]); by destruct s.
    + unfold notify_one. replace (other (other s)) with s by by destruct s. rewrite E.
      eexists _, _; split; [done|]; by destruct s.
Qed.

End Sim.

(** ** Theorems *)

Section Theorems.
Context {T : Type} (cap : Z) (st0 st : @state T) (tr : list (@label T)).

(** C11: The channel, of a capacity of at most 2^30 and in sequentially consistent memory, is a
    bounded first-in first-out queue: whatever the two threads call, however
    their steps interleave and whichever wake-ups come without a reason, the calls, hand-overs and
    answers of a run are those of a queue of at most [capacity] objects.  A call that ends well has
    sent or received all its objects, or at least one if it blocks only initially; a producer is
    told that the other side is gone only when the consumer has left, a consumer only when the
    producer has left and every object has been received.  All that was sent is what was received
    and what is still on its way, in this order. *)
Theorem channel_refines_queue :
  0 < cap <= 2 ^ 30 → channel cap = Some st0 → run st0 tr st →
  ∃ sp, spec_run cap tr sp
    ∧ concat (map sent_of tr) = concat (map received_of tr) ++ queue sp
    ∧ Z.of_nat (length (queue sp)) <= cap.
Proof.
  intros Hcap H0 Hr. destruct (run_good cap Hcap st0 tr st H0 Hr) as (sp & C & P & Hsp & Hi).
  exists sp. split_and!; [done|by eapply spec_fifo|]. rewrite (inv_len _ _ _ _ _ Hi).
  pose proof (inv_pos _ _ _ _ _ Hi). lia.
Qed.

(** C12: For a capacity of at most 2^30 no interleaving of the accesses does what C++ leaves undefined: no object is constructed over another,
    read or destroyed where there is none, no slot outside of the ring is touched, and neither
    side touches the channel after it was deleted.  It is deleted exactly when both sides have
    left, and then every object that was not received has been destroyed. *)
Theorem channel_never_faults :
  0 < cap <= 2 ^ 30 → channel cap = Some st0 → run st0 tr st →
  (∀ s, thread_step s st ≠ Fault ∧ ∀ c, side_call s c → client_call s c st ≠ Fault)
  ∧ (deleted (shared st) = true ↔ ppc st = Gone ∧ cpc st = Gone)
  ∧ (deleted (shared st) = true → Forall (λ x, x = None) (_data (shared st))).
Proof.
  intros Hcap H0 Hr. destruct (run_good cap Hcap st0 tr st H0 Hr) as (sp & C & P & Hsp & Hi). split_and!.
  - intros s. split.
    + pose proof (thread_good cap Hcap s st sp C P Hi) as Hg. by intros E; rewrite E in Hg.
    + intros c Hc. pose proof (client_good cap s c st sp C P Hi Hc) as Hg. by intros E; rewrite E in Hg.
  - rewrite (inv_del _ _ _ _ _ Hi), andb_true_iff.
    by destruct (ppc st), (cpc st); cbn; split; intros []; try done.
  - intros Hd. pose proof (inv_data _ _ _ _ _ Hi) as Hdata. by rewrite Hd in Hdata.
Qed.

(** C13: For a capacity of at most 2^30 no wake-up is lost: a thread in a call can always take its next step, unless it sleeps;
    then the next step of the other thread wakes it, or the other side has not left and there is
    nothing to do, the queue being full for the producer and empty for the consumer. *)
Theorem channel_no_lost_wakeup :
  0 < cap <= 2 ^ 30 → channel cap = Some st0 → run st0 tr st →
  ∃ sp, spec_run cap tr sp ∧ ∀ s,
    match thread_step s st with
    | Next _ _ => True
    | Fault => False
    | Blocked =>
        pc_of s st = Idle ∨ pc_of s st = Gone
        ∨ ∃ c my th, pc_of s st = Sleep c my th
            ∧ ((∃ l st', thread_step (other s) st = Next l st' ∧ pc_of s st' = Acquire c my)
               ∨ gone (other s) sp = false
                 ∧ match s with Producer => Z.of_nat (length (queue sp)) = cap | Consumer => queue sp = [] end)
    end.
Proof.
  intros Hcap H0 Hr. destruct (run_good cap Hcap st0 tr st H0 Hr) as (sp & C & P & Hsp & Hi).
  exists sp. split; [done|]. intros s. pose proof (thread_good cap Hcap s st sp C P Hi) as Hg.
  destruct (thread_step s st) as [l st'| |] eqn:E; [done| |done].
  destruct (pc_of s st) eqn:Ep; try by eauto.
  all: try (exfalso; unfold thread_step in E; rewrite Ep, (not_deleted cap s _ _ _ _ Hi) in E by (by rewrite Ep);
    by repeat (case_match || unfold loop_head, acquired, copy_one, copied, release_store, released in E)).
  right; right. exists c, myPos, theirPos. split; [done|].
  pose proof (sleeper_cases cap Hcap s c myPos theirPos st sp C P Hi Ep) as [?|(Hg' & Hroom)]; [by left|right].
  split; [done|]. pose proof (inv_len _ _ _ _ _ Hi). destruct s; cbn [room] in Hroom; [lia|].
  destruct (queue sp); [done|cbn in *; lia].
Qed.
End Theorems.

(** ** Schedules *)

(** A schedule names who moves next; a move that is not possible is passed over. *)
Inductive action {T : Type} :=
| Run (s : side)
| Make (s : side) (c : @call T) (Hc : side_call s c)
| Leave (s : side).

Section Schedules.
Context {T : Type}.

Definition act (x : @action T) (st : state) : outcome :=
  match x with
  | Run s => thread_step s st
  | Make s c _ => client_call s c st
  | Leave s => client_drop s st
  end.

Fixpoint exec (xs : list (@action T)) (st : state) : list label * state :=
  match xs with
  | [] => ([], st)
  | x :: xs =>
      match act x st with
      | Next l st' => let '(tr, st'') := exec xs st' in (l :: tr, st'')
      | _ => exec xs st
      end
  end.

Lemma run_app st0 tr (st : @state T) xs : run st0 tr st → run st0 (tr ++ (exec xs st).1) (exec xs st).2.
Proof.
  revert tr st. induction xs as [|x xs IH]; intros tr st Hr; cbn; [by rewrite app_nil_r|].
  destruct (act x st) as [l st'| |] eqn:E; [|by apply IH..].
  specialize (IH (tr ++ [l]) st'). rewrite <- app_assoc in IH. destruct (exec xs st') as [tr' st'']. apply IH.
  eapply run_snoc; [done|]. destruct x as [s|s c Hc|s]; cbn in E; by econstructor.
Qed.

Lemma exec_run xs (st0 : @state T) : run st0 (exec xs st0).1 (exec xs st0).2.
Proof. exact (run_app st0 [] st0 xs (run_nil st0)). Qed.
End Schedules.

(** Five numbers through a channel of two slots: the producer fills it and sleeps, the consumer
    takes what is there, and both leave while two numbers are still on their way. *)
Definition send_five : @action Z := Make Producer (push_n block_forever [1; 2; 3; 4; 5]) ltac:(right; eauto).
Definition take_three : @action Z := Make Consumer (pop_n block_forever 3) ltac:(right; exists block_forever, 3; split; [lia|done]).

Definition filled : list (@action Z) := send_five :: replicate 10 (Run Producer).
Definition left_alone : list (@action Z) :=
  filled ++ take_three :: replicate 30 (Run Consumer) ++ replicate 30 (Run Producer)
  ++ replicate 30 (Run Consumer) ++ replicate 30 (Run Producer) ++ [Leave Consumer]
  ++ replicate 3 (Run Consumer) ++ replicate 3 (Run Producer) ++ [Leave Producer] ++ replicate 3 (Run Producer).

Definition ring2 : @state Z := mkState (arc_init 2) Idle Idle.

Lemma channel_refines_queue_witness :
  ∃ sp, spec_run 2 (exec left_alone ring2).1 sp
    ∧ [1; 2; 3; 4; 5] = [1; 2; 3] ++ queue sp ∧ Z.of_nat (length (queue sp)) <= 2.
Proof.
  apply (channel_refines_queue 2 ring2 (exec left_alone ring2).2 (exec left_alone ring2).1);
    [lia|reflexivity|apply exec_run].
Defined.

Lemma channel_never_faults_witness :
  deleted (shared (exec left_alone ring2).2) = true
  ∧ Forall (λ x, x = None) (_data (shared (exec left_alone ring2).2)).
Proof.
  split; [vm_compute; reflexivity|].
  apply (channel_never_faults 2 ring2 (exec left_alone ring2).2 (exec left_alone ring2).1);
    [lia|reflexivity|apply exec_run|vm_compute; reflexivity].
Defined.

Lemma channel_no_lost_wakeup_witness :
  (∃ c my th, ppc (exec filled ring2).2 = Sleep c my th)
  ∧ ∃ sp, spec_run 2 (exec filled ring2).1 sp ∧ ∀ s,
    match thread_step s (exec filled ring2).2 with
    | Next _ _ => True
    | Fault => False
    | Blocked =>
        pc_of s (exec filled ring2).2 = Idle ∨ pc_of s (exec filled ring2).2 = Gone
        ∨ ∃ c my th, pc_of s (exec filled ring2).2 = Sleep c my th
            ∧ ((∃ l st', thread_step (other s) (exec filled ring2).2 = Next l st' ∧ pc_of s st' = Acquire c my)
               ∨ gone (other s) sp = false
                 ∧ match s with Producer => Z.of_nat (length (queue sp)) = 2 | Consumer => queue sp = [] end)
    end.
Proof.
  split; [vm_compute; eauto|].
  apply (channel_no_lost_wakeup 2 ring2 (exec filled ring2).2 (exec filled ring2).1);
    [lia|reflexivity|apply exec_run].
Defined.
