(* ===== verification/InputEvent.v ===== *)
(** Input events: [src/src/types/inc/IInputEvent.hpp], [KeyEvent.cpp],
    [MouseEvent.cpp], [ModifierKeyState.cpp], and the key presses that are made up
    for characters, [src/src/interactivity/base/EventSynthesis.cpp]. *)

From S2P Require Import Prelude Viewport.

(** ** Constants of the Windows headers *)

Definition VK_BACK : Z := 0x08.
Definition VK_TAB : Z := 0x09.
Definition VK_SHIFT : Z := 0x10.
Definition VK_CONTROL : Z := 0x11.
Definition VK_MENU : Z := 0x12.
Definition VK_PAUSE : Z := 0x13.
Definition VK_ESCAPE : Z := 0x1B.
Definition VK_PRIOR : Z := 0x21.
Definition VK_NEXT : Z := 0x22.
Definition VK_END : Z := 0x23.
Definition VK_HOME : Z := 0x24.
Definition VK_LEFT : Z := 0x25.
Definition VK_UP : Z := 0x26.
Definition VK_RIGHT : Z := 0x27.
Definition VK_DOWN : Z := 0x28.
Definition VK_INSERT : Z := 0x2D.
Definition VK_DELETE : Z := 0x2E.
Definition VK_LWIN : Z := 0x5B.
Definition VK_RWIN : Z := 0x5C.
Definition VK_NUMPAD0 : Z := 0x60.
Definition VK_DIVIDE : Z := 0x6F.
Definition VK_F1 : Z := 0x70.
Definition VK_F2 : Z := 0x71.
Definition VK_F3 : Z := 0x72.
Definition VK_F4 : Z := 0x73.
Definition VK_F5 : Z := 0x74.
Definition VK_F6 : Z := 0x75.
Definition VK_F7 : Z := 0x76.
Definition VK_F8 : Z := 0x77.
Definition VK_F9 : Z := 0x78.
Definition VK_F10 : Z := 0x79.
Definition VK_F11 : Z := 0x7A.
Definition VK_F12 : Z := 0x7B.
Definition VK_LSHIFT : Z := 0xA0.
Definition VK_RSHIFT : Z := 0xA1.
Definition VK_LCONTROL : Z := 0xA2.
Definition VK_RCONTROL : Z := 0xA3.
Definition VK_LMENU : Z := 0xA4.
Definition VK_RMENU : Z := 0xA5.

Definition RIGHT_ALT_PRESSED : Z := 0x0001.
Definition LEFT_ALT_PRESSED : Z := 0x0002.
Definition RIGHT_CTRL_PRESSED : Z := 0x0004.
Definition LEFT_CTRL_PRESSED : Z := 0x0008.
Definition SHIFT_PRESSED : Z := 0x0010.
Definition NUMLOCK_ON : Z := 0x0020.
Definition SCROLLLOCK_ON : Z := 0x0040.
Definition CAPSLOCK_ON : Z := 0x0080.
Definition ENHANCED_KEY : Z := 0x0100.
Definition NLS_DBCSCHAR : Z := 0x00010000.
Definition NLS_ALPHANUMERIC : Z := 0.
Definition NLS_KATAKANA : Z := 0x00020000.
Definition NLS_HIRAGANA : Z := 0x00040000.
Definition NLS_ROMAN : Z := 0x00400000.
Definition NLS_IME_CONVERSION : Z := 0x00800000.
Definition ALTNUMPAD_BIT : Z := 0x04000000.
Definition NLS_IME_DISABLE : Z := 0x20000000.

Definition FROM_LEFT_1ST_BUTTON_PRESSED : Z := 0x0001.
Definition RIGHTMOST_BUTTON_PRESSED : Z := 0x0002.
Definition FROM_LEFT_2ND_BUTTON_PRESSED : Z := 0x0004.
Definition MOUSE_MOVED : Z := 0x0001.
Definition DOUBLE_CLICK : Z := 0x0002.
Definition MOUSE_WHEELED : Z := 0x0004.

(** The flag macros of WIL. *)
Definition IsFlagSet (flags flag : Z) : bool := Z.land flags flag =? flag.
Definition IsAnyFlagSet (flags mask : Z) : bool := negb (Z.land flags mask =? 0).
Definition SetFlag (flags flag : Z) : Z := Z.lor flags flag.
Definition ClearFlag (flags flag : Z) : Z := Z.ldiff flags flag.
Definition SetFlagIf (flags flag : Z) (b : bool) : Z := if b then SetFlag flags flag else flags.
Definition UpdateFlag (flags flag : Z) (b : bool) : Z := if b then SetFlag flags flag else ClearFlag flags flag.

Definition LOBYTE (w : Z) : Z := Z.land w 0xFF.
Definition HIBYTE (w : Z) : Z := Z.land (Z.shiftr w 8) 0xFF.
Definition LOWORD (w : Z) : Z := Z.land w 0xFFFF.

Definition ALT_PRESSED : Z := Z.lor RIGHT_ALT_PRESSED LEFT_ALT_PRESSED.
Definition CTRL_PRESSED : Z := Z.lor RIGHT_CTRL_PRESSED LEFT_CTRL_PRESSED.
Definition MOD_PRESSED : Z := Z.lor SHIFT_PRESSED (Z.lor ALT_PRESSED CTRL_PRESSED).

(** The keyboard layout: [VkKeyScanW], and [MapVirtualKey] to a scan code and to a
    character. *)
Class Keyboard := {
  VkKeyScanW : wchar → Z;
  MapVirtualKey_VSC : Z → Z;
  MapVirtualKey_CHAR : Z → Z
}.

(** ** Modifier keys *)

Inductive ModifierKeyState :=
  | RightAlt | LeftAlt | RightCtrl | LeftCtrl | Shift | NumLock | ScrollLock | CapsLock | EnhancedKey
  | NlsDbcsChar | NlsAlphanumeric | NlsKatakana | NlsHiragana | NlsRoman | NlsImeConversion | AltNumpad
  | NlsImeDisable.

#[global] Instance ModifierKeyState_dec : EqDecision ModifierKeyState.
Proof. solve_decision. Defined.

Definition ModifierKeyStateTranslationTable : list (ModifierKeyState * Z) :=
  [(RightAlt, RIGHT_ALT_PRESSED); (LeftAlt, LEFT_ALT_PRESSED); (RightCtrl, RIGHT_CTRL_PRESSED);
   (LeftCtrl, LEFT_CTRL_PRESSED); (Shift, SHIFT_PRESSED); (NumLock, NUMLOCK_ON); (ScrollLock, SCROLLLOCK_ON);
   (CapsLock, CAPSLOCK_ON); (EnhancedKey, ENHANCED_KEY); (NlsDbcsChar, NLS_DBCSCHAR);
   (NlsAlphanumeric, NLS_ALPHANUMERIC); (NlsKatakana, NLS_KATAKANA); (NlsHiragana, NLS_HIRAGANA);
   (NlsRoman, NLS_ROMAN); (NlsImeConversion, NLS_IME_CONVERSION); (AltNumpad, ALTNUMPAD_BIT);
   (NlsImeDisable, NLS_IME_DISABLE)].

Definition RuntimeIsFlagSet (flags flag : Z) : bool := negb (Z.land flags flag =? 0).

(** The sets are lists in the order of insertion. *)
Definition FromConsoleControlKeyFlags (flags : Z) : list ModifierKeyState :=
  fst <$> filter (λ m, RuntimeIsFlagSet flags m.2 = true) ModifierKeyStateTranslationTable.

Definition ToConsoleControlKeyFlag (modifierKey : ModifierKeyState) : Z :=
  match list_find (λ m, m.1 = modifierKey) ModifierKeyStateTranslationTable with
  | Some (_, (_, flag)) => flag
  | None => 0
  end.

(** [VkKeyScanModState] *)
Definition ModState_ShiftPressed : Z := 1.
Definition ModState_CtrlPressed : Z := 2.
Definition ModState_AltPressed : Z := 4.
Definition ModState_CtrlAndAltPressed : Z := Z.lor ModState_CtrlPressed ModState_AltPressed.

Definition FromVkKeyScan (vkKeyScanFlags : Z) : exn + list ModifierKeyState :=
  if vkKeyScanFlags =? 0 then inr []
  else if vkKeyScanFlags =? 1 then inr [Shift]
  else if vkKeyScanFlags =? 2 then inr [LeftCtrl; RightCtrl]
  else if vkKeyScanFlags =? 3 then inr [Shift; LeftCtrl; RightCtrl]
  else if vkKeyScanFlags =? 4 then inr [LeftAlt; RightAlt]
  else if vkKeyScanFlags =? 5 then inr [Shift; LeftAlt; RightAlt]
  else if vkKeyScanFlags =? 6 then inr [LeftCtrl; RightCtrl; LeftAlt; RightAlt]
  else if vkKeyScanFlags =? 7 then inr [Shift; LeftCtrl; RightCtrl; LeftAlt; RightAlt]
  else inl InvalidArg.

(** ** Key events *)

Record KeyEvent := mkKeyEvent {
  _keyDown : bool;
  _repeatCount : Z;
  _virtualKeyCode : Z;
  _virtualScanCode : Z;
  _charData : wchar;
  _activeModifierKeys : Z
}.

#[global] Instance KeyEvent_dec : EqDecision KeyEvent.
Proof. solve_decision. Defined.

Definition KeyEvent_default : KeyEvent := mkKeyEvent false 0 0 0 0 0.

Definition MakePair (repeatCount virtualKeyCode virtualScanCode : Z) (charData : wchar) (activeModifierKeys : Z)
    : KeyEvent * KeyEvent :=
  (mkKeyEvent true repeatCount virtualKeyCode virtualScanCode charData activeModifierKeys,
   mkKeyEvent false repeatCount virtualKeyCode virtualScanCode charData activeModifierKeys).

Definition IsShiftPressed (e : KeyEvent) : bool := IsFlagSet (_activeModifierKeys e) SHIFT_PRESSED.
Definition IsAltPressed (e : KeyEvent) : bool := IsAnyFlagSet (_activeModifierKeys e) ALT_PRESSED.
Definition IsCtrlPressed (e : KeyEvent) : bool := IsAnyFlagSet (_activeModifierKeys e) CTRL_PRESSED.
Definition IsAltGrPressed (e : KeyEvent) : bool :=
  IsFlagSet (_activeModifierKeys e) LEFT_CTRL_PRESSED && IsFlagSet (_activeModifierKeys e) RIGHT_ALT_PRESSED.
Definition IsModifierPressed (e : KeyEvent) : bool := IsAnyFlagSet (_activeModifierKeys e) MOD_PRESSED.
Definition IsCursorKey (e : KeyEvent) : bool := (VK_END <=? _virtualKeyCode e) && (_virtualKeyCode e <=? VK_DOWN).
Definition IsAltNumpadSet (e : KeyEvent) : bool := IsFlagSet (_activeModifierKeys e) ALTNUMPAD_BIT.
Definition IsPauseKey (e : KeyEvent) : bool := _virtualKeyCode e =? VK_PAUSE.

Definition IsModifierKey (vkey : Z) : bool :=
  bool_decide (vkey ∈ [VK_CONTROL; VK_LCONTROL; VK_RCONTROL; VK_MENU; VK_LMENU; VK_RMENU; VK_SHIFT; VK_LSHIFT;
                       VK_RSHIFT; VK_LWIN; VK_RWIN]).

Definition SetKeyDown (b : bool) (e : KeyEvent) : KeyEvent :=
  mkKeyEvent b (_repeatCount e) (_virtualKeyCode e) (_virtualScanCode e) (_charData e) (_activeModifierKeys e).
Definition SetRepeatCount (n : Z) (e : KeyEvent) : KeyEvent :=
  mkKeyEvent (_keyDown e) n (_virtualKeyCode e) (_virtualScanCode e) (_charData e) (_activeModifierKeys e).
Definition SetVirtualKeyCode (n : Z) (e : KeyEvent) : KeyEvent :=
  mkKeyEvent (_keyDown e) (_repeatCount e) n (_virtualScanCode e) (_charData e) (_activeModifierKeys e).
Definition SetVirtualScanCode (n : Z) (e : KeyEvent) : KeyEvent :=
  mkKeyEvent (_keyDown e) (_repeatCount e) (_virtualKeyCode e) n (_charData e) (_activeModifierKeys e).
Definition SetCharData (c : wchar) (e : KeyEvent) : KeyEvent :=
  mkKeyEvent (_keyDown e) (_repeatCount e) (_virtualKeyCode e) (_virtualScanCode e) c (_activeModifierKeys e).
Definition SetActiveModifierKeys (keys : Z) (e : KeyEvent) : KeyEvent :=
  mkKeyEvent (_keyDown e) (_repeatCount e) (_virtualKeyCode e) (_virtualScanCode e) (_charData e) keys.

Definition DeactivateModifierKey (k : ModifierKeyState) (e : KeyEvent) : KeyEvent :=
  SetActiveModifierKeys (ClearFlag (_activeModifierKeys e) (ToConsoleControlKeyFlag k)) e.
Definition ActivateModifierKey (k : ModifierKeyState) (e : KeyEvent) : KeyEvent :=
  SetActiveModifierKeys (SetFlag (_activeModifierKeys e) (ToConsoleControlKeyFlag k)) e.

Definition DoActiveModifierKeysMatch (consoleModifiers : list ModifierKeyState) (e : KeyEvent) : bool :=
  fold_left (λ bits m, SetFlag bits (ToConsoleControlKeyFlag m)) consoleModifiers 0 =? _activeModifierKeys e.

Definition IsCommandLineEditingKey (e : KeyEvent) : bool :=
  let among keys := bool_decide (_virtualKeyCode e ∈ keys) in
  (negb (IsAltPressed e) && negb (IsCtrlPressed e)
   && among [VK_ESCAPE; VK_PRIOR; VK_NEXT; VK_END; VK_HOME; VK_LEFT; VK_UP; VK_RIGHT; VK_DOWN; VK_INSERT; VK_DELETE;
          VK_F1; VK_F2; VK_F3; VK_F4; VK_F5; VK_F6; VK_F7; VK_F8; VK_F9])
  || (IsCtrlPressed e && among [VK_END; VK_HOME; VK_LEFT; VK_RIGHT])
  || (IsAltPressed e && among [VK_F7; VK_F10]).

Definition IsPopupKey (e : KeyEvent) : bool :=
  negb (IsAltPressed e) && negb (IsCtrlPressed e)
  && bool_decide (_virtualKeyCode e ∈ [VK_ESCAPE; VK_PRIOR; VK_NEXT; VK_END; VK_HOME; VK_LEFT; VK_UP; VK_RIGHT; VK_DOWN;
                                       VK_F2; VK_F4; VK_F7; VK_F9; VK_DELETE]).

(** ** Other events *)

Record MouseEvent := mkMouseEvent {
  m_position : COORD;
  m_buttonState : Z;
  m_activeModifierKeys : Z;
  m_eventFlags : Z
}.

Definition IsMouseMoveEvent (e : MouseEvent) : bool := m_eventFlags e =? MOUSE_MOVED.

Inductive IInputEvent :=
  | Key (e : KeyEvent)
  | Mouse (e : MouseEvent)
  | WindowBufferSize (size : COORD)
  | Menu (commandId : Z)
  | Focus (focus : bool).

(** ** Key presses for characters *)

Definition altScanCode : Z := 0x38.
Definition leftShiftScanCode : Z := 0x2A.

Section synthesis.
Context `{Keyboard}.

(** [gsl::narrow<WORD>] *)
Definition narrow_WORD (z : Z) : exn + Z := if (0 <=? z) && (z <=? 65535) then inr z else inl NarrowingError.

Definition SynthesizeKeyboardEvents (wch : wchar) (keyState : Z) : exn + list KeyEvent :=
  let modifierState := HIBYTE keyState in
  let altGrSet := IsFlagSet modifierState ModState_CtrlAndAltPressed in
  let shiftSet := negb altGrSet && IsFlagSet modifierState ModState_ShiftPressed in
  let modifierDown :=
    if altGrSet then [mkKeyEvent true 1 VK_MENU altScanCode 0 (Z.lor ENHANCED_KEY (Z.lor LEFT_CTRL_PRESSED RIGHT_ALT_PRESSED))]
    else if shiftSet then [mkKeyEvent true 1 VK_SHIFT leftShiftScanCode 0 SHIFT_PRESSED]
    else [] in
  virtualScanCode ← narrow_WORD (MapVirtualKey_VSC (LOBYTE keyState));
  let keyEvent := mkKeyEvent true 1 (LOBYTE keyState) virtualScanCode wch 0 in
  let keyEvent := if IsFlagSet modifierState ModState_ShiftPressed then ActivateModifierKey Shift keyEvent else keyEvent in
  let keyEvent := if IsFlagSet modifierState ModState_CtrlPressed then ActivateModifierKey LeftCtrl keyEvent else keyEvent in
  let keyEvent := if IsFlagSet modifierState ModState_CtrlAndAltPressed then ActivateModifierKey RightAlt keyEvent else keyEvent in
  let modifierUp :=
    if altGrSet then [mkKeyEvent false 1 VK_MENU altScanCode 0 ENHANCED_KEY]
    else if shiftSet then [mkKeyEvent false 1 VK_SHIFT leftShiftScanCode 0 0]
    else [] in
  mret (modifierDown ++ [keyEvent; SetKeyDown false keyEvent] ++ modifierUp).

(** The build of the terminal does not use the number pad. *)
Definition CharToKeyEvents (wch : wchar) (codepage : Z) : exn + list KeyEvent :=
  let keyState := VkKeyScanW wch in
  SynthesizeKeyboardEvents wch (if keyState =? -1 then 0 else keyState).

(** [ConvertToA] of the code page is an argument. *)
Definition SynthesizeNumpadEvents (ConvertToA : Z → wstring → exn + list Z) (wch : wchar) (codepage : Z)
    : exn + list KeyEvent :=
  convertedChars ← ConvertToA codepage [wch];
  digits ← match convertedChars with
           | [ch] =>
               foldr (λ ch (rest : exn + list (list KeyEvent)),
                 let virtualKey := ch - 48 + VK_NUMPAD0 in
                 virtualScanCode ← narrow_WORD (MapVirtualKey_VSC virtualKey);
                 rest ← rest;
                 mret ([mkKeyEvent true 1 virtualKey virtualScanCode 0 LEFT_ALT_PRESSED;
                        mkKeyEvent false 1 virtualKey virtualScanCode 0 LEFT_ALT_PRESSED] :: rest))
                 (inr []) (print_int (u8 ch))
           | _ => inr []
           end;
  mret ([mkKeyEvent true 1 VK_MENU altScanCode 0 LEFT_ALT_PRESSED] ++ concat digits
        ++ [mkKeyEvent false 1 VK_MENU altScanCode wch 0]).
End synthesis.
