(* ===== verification/TerminalOutput.v ===== *)
(** Character set translation: [TerminalOutput] of
    [src/src/terminal/adapter/terminalOutput.cpp].

    Four sets G0 to G3 can be designated; GL and GR select two of them for the
    lower and the upper half of the codes, a single shift selects one for the
    next character only.  The code keeps the selected tables in members of their
    own, empty when nothing has to be translated; the reference at the end of the
    file has no such caches. *)

From stdpp Require Import strings.
From S2P Require Import Prelude DispatchTypes OutputEngine Charsets.

(** A [std::wstring_view] of a table.  The code compares views by their address,
    here by the name of the table; [None] is the empty view. *)
Inductive Table :=
  | tAscii | tLatin1 | tLatin2 | tLatinCyrillic | tLatinGreek | tLatinHebrew | tLatin5
  | tDecSupplemental | tDecSpecialGraphics | tDecCyrillic | tDecGreek | tDecHebrew | tDecTurkish
  | tBritishNrcs | tDutchNrcs | tFinnishNrcs | tFrenchNrcs | tFrenchNrcsIso | tFrenchCanadianNrcs
  | tGermanNrcs | tGreekNrcs | tHebrewNrcs | tItalianNrcs | tNorwegianDanishNrcs
  | tNorwegianDanishNrcsIso | tPortugueseNrcs | tRussianNrcs | tSpanishNrcs | tSwedishNrcs
  | tSwissNrcs | tTurkishNrcs.

#[global] Instance Table_eq_dec : EqDecision Table.
Proof. solve_decision. Defined.

Definition data (t : Table) : list wchar :=
  match t with
  | tAscii => Ascii | tLatin1 => Latin1 | tLatin2 => Latin2 | tLatinCyrillic => LatinCyrillic
  | tLatinGreek => LatinGreek | tLatinHebrew => LatinHebrew | tLatin5 => Latin5
  | tDecSupplemental => DecSupplemental | tDecSpecialGraphics => DecSpecialGraphics
  | tDecCyrillic => DecCyrillic | tDecGreek => DecGreek | tDecHebrew => DecHebrew
  | tDecTurkish => DecTurkish | tBritishNrcs => BritishNrcs | tDutchNrcs => DutchNrcs
  | tFinnishNrcs => FinnishNrcs | tFrenchNrcs => FrenchNrcs | tFrenchNrcsIso => FrenchNrcsIso
  | tFrenchCanadianNrcs => FrenchCanadianNrcs | tGermanNrcs => GermanNrcs | tGreekNrcs => GreekNrcs
  | tHebrewNrcs => HebrewNrcs | tItalianNrcs => ItalianNrcs
  | tNorwegianDanishNrcs => NorwegianDanishNrcs | tNorwegianDanishNrcsIso => NorwegianDanishNrcsIso
  | tPortugueseNrcs => PortugueseNrcs | tRussianNrcs => RussianNrcs | tSpanishNrcs => SpanishNrcs
  | tSwedishNrcs => SwedishNrcs | tSwissNrcs => SwissNrcs | tTurkishNrcs => TurkishNrcs
  end.

Abbreviation View := (option Table).

Definition view_size (v : View) : Z := match v with Some t => Z.of_nat (length (data t)) | None => 0 end.

Definition view_empty (v : View) : bool := bool_decide (v = None).

Record TerminalOutput := mkTermOutput {
  _gsetTranslationTables : list View;
  _glSetNumber : Z;
  _grSetNumber : Z;
  _glTranslationTable : View;
  _grTranslationTable : View;
  _ssTranslationTable : View;
  _grTranslationEnabled : bool
}.

#[global] Instance TerminalOutput_eq_dec : EqDecision TerminalOutput.
Proof. solve_decision. Defined.

Definition TerminalOutput_init : TerminalOutput :=
  mkTermOutput [Some tAscii; Some tAscii; Some tLatin1; Some tLatin1] 0 2 None None None false.

Definition set_gsets g o := mkTermOutput g (_glSetNumber o) (_grSetNumber o) (_glTranslationTable o)
  (_grTranslationTable o) (_ssTranslationTable o) (_grTranslationEnabled o).
Definition set_glSetNumber n o := mkTermOutput (_gsetTranslationTables o) n (_grSetNumber o)
  (_glTranslationTable o) (_grTranslationTable o) (_ssTranslationTable o) (_grTranslationEnabled o).
Definition set_grSetNumber n o := mkTermOutput (_gsetTranslationTables o) (_glSetNumber o) n
  (_glTranslationTable o) (_grTranslationTable o) (_ssTranslationTable o) (_grTranslationEnabled o).
Definition set_gl v o := mkTermOutput (_gsetTranslationTables o) (_glSetNumber o) (_grSetNumber o) v
  (_grTranslationTable o) (_ssTranslationTable o) (_grTranslationEnabled o).
Definition set_gr v o := mkTermOutput (_gsetTranslationTables o) (_glSetNumber o) (_grSetNumber o)
  (_glTranslationTable o) v (_ssTranslationTable o) (_grTranslationEnabled o).
Definition set_ss v o := mkTermOutput (_gsetTranslationTables o) (_glSetNumber o) (_grSetNumber o)
  (_glTranslationTable o) (_grTranslationTable o) v (_grTranslationEnabled o).
Definition set_grEnabled b o := mkTermOutput (_gsetTranslationTables o) (_glSetNumber o) (_grSetNumber o)
  (_glTranslationTable o) (_grTranslationTable o) (_ssTranslationTable o) b.

(** [_gsetTranslationTables.at(n)]; [n] is a [size_t]. *)
Definition gset_at (n : Z) : prog TerminalOutput View := λ o,
  match _gsetTranslationTables o !! Z.to_nat n with
  | Some v => Ok v o
  | None => Throw OutOfRange o
  end.

(** ** Operations *)

Definition Output_LockingShift (gsetNumber : Z) : prog TerminalOutput bool :=
  modify (set_glSetNumber gsetNumber);;
  v ← gset_at gsetNumber;
  modify (set_gl v);;
  (if bool_decide (v = Some tAscii) then modify (set_gl None) else mret tt);;
  mret true.

Definition Output_LockingShiftRight (gsetNumber : Z) : prog TerminalOutput bool :=
  modify (set_grSetNumber gsetNumber);;
  v ← gset_at gsetNumber;
  modify (set_gr v);;
  enabled ← gets _grTranslationEnabled;
  (if bool_decide (v = Some tLatin1) || negb enabled then modify (set_gr None) else mret tt);;
  mret true.

Definition Output_SingleShift (gsetNumber : Z) : prog TerminalOutput bool :=
  v ← gset_at gsetNumber;
  modify (set_ss v);;
  mret true.

Definition _SetTranslationTable (gsetNumber : Z) (t : Table) : prog TerminalOutput bool :=
  gset_at gsetNumber;;
  modify (λ o, set_gsets (<[Z.to_nat gsetNumber := Some t]> (_gsetTranslationTables o)) o);;
  gl ← gets _glSetNumber;
  ok ← Output_LockingShift gl;
  if (ok : bool) then gr ← gets _grSetNumber; Output_LockingShiftRight gr else mret false.

(** The cases of the two [switch] statements. *)
Definition charsets94 : list (Z * Table) :=
  [(VTID "B", tAscii); (VTID "1", tAscii); (VTID "0", tDecSpecialGraphics); (VTID "2", tDecSpecialGraphics);
   (VTID "<", tDecSupplemental); (VTID "A", tBritishNrcs); (VTID "4", tDutchNrcs);
   (VTID "5", tFinnishNrcs); (VTID "C", tFinnishNrcs); (VTID "R", tFrenchNrcs); (VTID "f", tFrenchNrcsIso);
   (VTID "9", tFrenchCanadianNrcs); (VTID "Q", tFrenchCanadianNrcs); (VTID "K", tGermanNrcs);
   (VTID "Y", tItalianNrcs); (VTID "6", tNorwegianDanishNrcs); (VTID "E", tNorwegianDanishNrcs);
   (VTID "`", tNorwegianDanishNrcsIso); (VTID "Z", tSpanishNrcs); (VTID "7", tSwedishNrcs);
   (VTID "H", tSwedishNrcs); (VTID "=", tSwissNrcs); (VTID "&4", tDecCyrillic); (VTID "&5", tRussianNrcs);
   (VTID_FromString [34; 63], tDecGreek); (VTID_FromString [34; 62], tGreekNrcs);
   (VTID_FromString [34; 52], tDecHebrew); (VTID "%=", tHebrewNrcs); (VTID "%0", tDecTurkish);
   (VTID "%2", tTurkishNrcs); (VTID "%5", tDecSupplemental); (VTID "%6", tPortugueseNrcs)].

Definition charsets96 : list (Z * Table) :=
  [(VTID "A", tLatin1); (VTID "<", tLatin1); (VTID "B", tLatin2); (VTID "L", tLatinCyrillic);
   (VTID "F", tLatinGreek); (VTID "H", tLatinHebrew); (VTID "M", tLatin5)].

Definition Output_Designate94Charset (gsetNumber charset : Z) : prog TerminalOutput bool :=
  switch charset ((λ '(id, t), (id, _SetTranslationTable gsetNumber t)) <$> charsets94) (mret false).

Definition Output_Designate96Charset (gsetNumber charset : Z) : prog TerminalOutput bool :=
  switch charset ((λ '(id, t), (id, _SetTranslationTable gsetNumber t)) <$> charsets96) (mret false).

Definition NeedToTranslate (o : TerminalOutput) : bool :=
  negb (view_empty (_glTranslationTable o)) || negb (view_empty (_grTranslationTable o))
  || negb (view_empty (_ssTranslationTable o)).

Definition EnableGrTranslation (enabled : bool) : prog TerminalOutput unit :=
  modify (set_grEnabled enabled);;
  gr ← gets _grSetNumber;
  Output_LockingShiftRight gr;;
  mret tt.

(** Both tests compare an [unsigned int] that wraps around below the offset. *)
Definition view_translate (v : View) (offset wch : Z) : option wchar :=
  match v with
  | Some t => if u32 (wch - offset) <? Z.of_nat (length (data t)) then data t !! Z.to_nat (u32 (wch - offset)) else None
  | None => None
  end.

(** A [const] member function that changes a [mutable] member. *)
Definition TranslateKey (wch : wchar) (o : TerminalOutput) : wchar * TerminalOutput :=
  if negb (view_empty (_ssTranslationTable o)) then
    (default wch (view_translate (_ssTranslationTable o) 0x20 wch
                  ∪ view_translate (_ssTranslationTable o) 0xA0 wch), set_ss None o)
  else
    (default wch (view_translate (_glTranslationTable o) 0x20 wch
                  ∪ view_translate (_grTranslationTable o) 0xA0 wch), o).

(** ** A reference without caches

    The state of ISO 2022: four sets, the two that are in use, and the set of a
    pending single shift.  A character is looked up in the set that its half of
    the codes has at that moment. *)

Record Iso2022 := mkIso {
  i_sets : list Table;
  i_gl : Z;
  i_gr : Z;
  i_single : option Table;
  i_upper : bool
}.

Definition iso_init : Iso2022 := mkIso [tAscii; tAscii; tLatin1; tLatin1] 0 2 None false.

Definition iso_set (a : Iso2022) (n : Z) : Table := default tAscii (i_sets a !! Z.to_nat n).

(** The character that a set has for a code, with its first code at [offset]. *)
Definition member (t : Table) (offset c : Z) : option wchar :=
  if decide (offset <= c < offset + Z.of_nat (length (data t))) then data t !! Z.to_nat (c - offset) else None.

Definition iso_translate (a : Iso2022) (c : wchar) : wchar :=
  default c
    match i_single a with
    | Some t => member t 0x20 c ∪ member t 0xA0 c
    | None => member (iso_set a (i_gl a)) 0x20 c
              ∪ (if i_upper a then member (iso_set a (i_gr a)) 0xA0 c else None)
    end.

Inductive OutputOp :=
  | ODesignate94 (g id : Z) | ODesignate96 (g id : Z)
  | OLockingShift (g : Z) | OLockingShiftRight (g : Z) | OSingleShift (g : Z)
  | OEnableGr (enabled : bool)
  | OTranslate (c : wchar).

Definition op_ok (op : OutputOp) : Prop :=
  match op with
  | ODesignate94 g _ | ODesignate96 g _ | OLockingShift g | OLockingShiftRight g | OSingleShift g => 0 <= g < 4
  | OEnableGr _ => True
  | OTranslate c => is_wchar c
  end.

Definition designate (sets : list (Z * Table)) (g id : Z) (a : Iso2022) : (bool + wchar) * Iso2022 :=
  match snd ∘ snd <$> list_find (λ s, s.1 = id) sets with
  | Some t => (inl true, mkIso (<[Z.to_nat g := t]> (i_sets a)) (i_gl a) (i_gr a) (i_single a) (i_upper a))
  | None => (inl false, a)
  end.

Definition iso_step (op : OutputOp) (a : Iso2022) : (bool + wchar) * Iso2022 :=
  match op with
  | ODesignate94 g id => designate charsets94 g id a
  | ODesignate96 g id => designate charsets96 g id a
  | OLockingShift g => (inl true, mkIso (i_sets a) g (i_gr a) (i_single a) (i_upper a))
  | OLockingShiftRight g => (inl true, mkIso (i_sets a) (i_gl a) g (i_single a) (i_upper a))
  | OSingleShift g => (inl true, mkIso (i_sets a) (i_gl a) (i_gr a) (Some (iso_set a g)) (i_upper a))
  | OEnableGr enabled => (inl true, mkIso (i_sets a) (i_gl a) (i_gr a) (i_single a) enabled)
  | OTranslate c => (inr (iso_translate a c), mkIso (i_sets a) (i_gl a) (i_gr a) None (i_upper a))
  end.

Fixpoint iso_run (ops : list OutputOp) (a : Iso2022) : list (bool + wchar) :=
  match ops with
  | [] => []
  | op :: ops => (iso_step op a).1 :: iso_run ops (iso_step op a).2
  end.

Definition output_step (op : OutputOp) : prog TerminalOutput (bool + wchar) :=
  match op with
  | ODesignate94 g id => r ← Output_Designate94Charset g id; mret (inl r)
  | ODesignate96 g id => r ← Output_Designate96Charset g id; mret (inl r)
  | OLockingShift g => r ← Output_LockingShift g; mret (inl r)
  | OLockingShiftRight g => r ← Output_LockingShiftRight g; mret (inl r)
  | OSingleShift g => r ← Output_SingleShift g; mret (inl r)
  | OEnableGr enabled => EnableGrTranslation enabled;; mret (inl true)
  | OTranslate c => λ o, let '(r, o') := TranslateKey c o in Ok (inr r) o'
  end.

Fixpoint output_run (ops : list OutputOp) : prog TerminalOutput (list (bool + wchar)) :=
  match ops with
  | [] => mret []
  | op :: ops => r ← output_step op; rs ← output_run ops; mret (r :: rs)
  end.

(** ** The caches are in step with the sets *)

Record represents (o : TerminalOutput) (a : Iso2022) : Prop := {
  r_sets : _gsetTranslationTables o = Some <$> i_sets a;
  r_four : length (i_sets a) = 4%nat;
  r_gl : _glSetNumber o = i_gl a ∧ 0 <= i_gl a < 4;
  r_gr : _grSetNumber o = i_gr a ∧ 0 <= i_gr a < 4;
  r_upper : _grTranslationEnabled o = i_upper a;
  r_single : _ssTranslationTable o = i_single a;
  r_gl_table : _glTranslationTable o = (if decide (iso_set a (i_gl a) = tAscii) then None else Some (iso_set a (i_gl a)));
  r_gr_table : _grTranslationTable o
    = (if decide (iso_set a (i_gr a) = tLatin1 ∨ i_upper a = false) then None else Some (iso_set a (i_gr a)))
}.

Lemma data_length t : 95 <= Z.of_nat (length (data t)) <= 96.
Proof. by destruct t; vm_compute; split. Qed.

Lemma represents_init : represents TerminalOutput_init iso_init.
Proof. by split. Qed.

(** The four tables are there. *)
Definition has_sets (o : TerminalOutput) (a : Iso2022) : Prop :=
  _gsetTranslationTables o = Some <$> i_sets a ∧ length (i_sets a) = 4%nat.

Lemma gset_at_ok n o a : has_sets o a → 0 <= n < 4 → gset_at n o = Ok (Some (iso_set a n)) o.
Proof.
  intros [Hs Hl] Hn. unfold gset_at, iso_set. rewrite Hs, list_lookup_fmap.
  destruct (lookup_lt_is_Some_2 (i_sets a) (Z.to_nat n)) as [t ->]; [lia|done].
Qed.

Lemma view_translate_member t offset c :
  is_wchar c → 0 <= offset <= 0xA0 → view_translate (Some t) offset c = member t offset c.
Proof.
  intros Hc Ho. unfold view_translate, member, is_wchar in *. pose proof (data_length t).
  destruct (Z.le_gt_cases offset c).
  - rewrite wrapu_small by lia. destruct (Z.ltb_spec (c - offset) (Z.of_nat (length (data t)))).
    + by rewrite decide_True by lia.
    + by rewrite decide_False by lia.
  - assert (u32 (c - offset) = c - offset + 2 ^ 32) as ->.
    { unfold wrapu. symmetry. apply (Z.mod_unique _ _ (-1)); lia. }
    rewrite decide_False by lia. destruct (Z.ltb_spec (c - offset + 2 ^ 32) (Z.of_nat (length (data t)))); [lia|done].
Qed.

(** ASCII in the lower half and Latin-1 in the upper half need no table. *)
Lemma plain_sets c :
  default c (member tAscii 0x20 c) = c ∧ default c (member tLatin1 0xA0 c) = c.
Proof.
  unfold member. change (data tAscii) with (seqZ 0x20 95). change (data tLatin1) with (seqZ 0xA0 96).
  rewrite !length_seqZ. split; case_decide; try done; rewrite lookup_seqZ_lt by lia; cbn; lia.
Qed.

Definition lower (a : Iso2022) (g : Z) : View :=
  if decide (iso_set a g = tAscii) then None else Some (iso_set a g).

Definition upper (a : Iso2022) (g : Z) (enabled : bool) : View :=
  if decide (iso_set a g = tLatin1 ∨ enabled = false) then None else Some (iso_set a g).

Lemma LockingShift_ok g o a : has_sets o a → 0 <= g < 4 →
  Output_LockingShift g o = Ok true (set_gl (lower a g) (set_glSetNumber g o)).
Proof.
  intros Hs Hg. unfold Output_LockingShift, modify, mbind, prog_bind. cbv beta.
  rewrite (gset_at_ok g (set_glSetNumber g o) a) by done. unfold lower.
  destruct (decide (iso_set a g = tAscii)) as [E|E]; [by rewrite E|]. by rewrite bool_decide_eq_false_2 by congruence.
Qed.

Lemma LockingShiftRight_ok g o a : has_sets o a → 0 <= g < 4 →
  Output_LockingShiftRight g o
  = Ok true (set_gr (upper a g (_grTranslationEnabled o)) (set_grSetNumber g o)).
Proof.
  intros Hs Hg. unfold Output_LockingShiftRight, modify, gets, mbind, prog_bind. cbv beta.
  rewrite (gset_at_ok g (set_grSetNumber g o) a) by done. unfold upper. cbn.
  destruct (_grTranslationEnabled o); cbn; [|by rewrite orb_true_r, decide_True by auto].
  rewrite orb_false_r. destruct (decide (iso_set a g = tLatin1)) as [E|E].
  - by rewrite E.
  - rewrite bool_decide_eq_false_2 by congruence. by rewrite decide_False by naive_solver.
Qed.

Lemma iso_set_insert (a a' : Iso2022) (g : Z) (t : Table) :
  i_sets a' = <[Z.to_nat g := t]> (i_sets a) → length (i_sets a) = 4%nat → length (i_sets a') = 4%nat.
Proof. intros -> H. by rewrite length_insert. Qed.

Lemma SetTranslationTable_ok g t o a : represents o a → 0 <= g < 4 →
  wp (_SetTranslationTable g t)
    (λ r o', r = true
       ∧ represents o' (mkIso (<[Z.to_nat g := t]> (i_sets a)) (i_gl a) (i_gr a) (i_single a) (i_upper a))) o.
Proof.
  intros Hr Hg. destruct Hr as [Hs H4 [Hgl Hgl4] [Hgr Hgr4] Hu H1 Hglt Hgrt].
  set (a' := mkIso _ _ _ _ _). unfold _SetTranslationTable. wp_step.
  apply (wp_of_ok _ _ _ _ _ (gset_at_ok g o a (conj Hs H4) Hg)). repeat (wp_step; cbv beta).
  assert (∀ o', _gsetTranslationTables o' = <[Z.to_nat g := Some t]> (_gsetTranslationTables o) → has_sets o' a') as Hsets.
  { intros o' E. split; cbn; [|by rewrite length_insert]. by rewrite E, Hs, list_fmap_insert. }
  cbn [_glSetNumber set_gsets]. rewrite Hgl.
  eapply wp_of_ok; [apply (LockingShift_ok (i_gl a) _ a'); [by apply Hsets|done]|]. cbv beta iota. repeat (wp_step; cbv beta).
  cbn [_grSetNumber set_gl set_glSetNumber set_gsets]. rewrite Hgr.
  eapply wp_of_ok; [apply (LockingShiftRight_ok (i_gr a) _ a'); [by apply Hsets|done]|]. cbv beta.
  split; [done|]. split; cbn; try done; [|by rewrite length_insert|].
  - by rewrite Hs, list_fmap_insert.
  - unfold upper. by rewrite Hu.
Qed.

Lemma designate_ok sets g id o a : represents o a → 0 <= g < 4 →
  wp (r ← switch id ((λ '(id, t), (id, _SetTranslationTable g t)) <$> sets) (mret false); mret (inl r : bool + wchar))
    (λ r o', r = (designate sets g id a).1 ∧ represents o' (designate sets g id a).2) o.
Proof.
  intros Hr Hg. wp_step. unfold designate.
  induction sets as [|[id' t] sets IH]; [split; [done|exact Hr]|]. cbn [fmap list_fmap switch list_find].
  destruct (Z.eqb_spec id id') as [->|Hne].
  - rewrite decide_True by done. cbn.
    eapply wp_mono; [by apply SetTranslationTable_ok|]. intros r o' [-> Ho]. by split.
  - rewrite decide_False by (cbn; congruence).
    destruct (list_find _ sets) as [[n [id'' t']]|]; exact IH.
Qed.

Lemma member_lower t c : 0xA0 <= c → member t 0x20 c = None.
Proof. intros. unfold member. pose proof (data_length t). by rewrite decide_False by lia. Qed.

Lemma member_upper t c : c < 0xA0 → member t 0xA0 c = None.
Proof. intros. unfold member. by rewrite decide_False by lia. Qed.

(** The cached tables translate as the sets do. *)
Lemma halves_ok a c : is_wchar c →
  default c (view_translate (lower a (i_gl a)) 0x20 c ∪ view_translate (upper a (i_gr a) (i_upper a)) 0xA0 c)
  = default c (member (iso_set a (i_gl a)) 0x20 c ∪ (if i_upper a then member (iso_set a (i_gr a)) 0xA0 c else None)).
Proof.
  intros Hc. destruct (plain_sets c) as [Pa Pl].
  assert (view_translate (lower a (i_gl a)) 0x20 c
          = if decide (iso_set a (i_gl a) = tAscii) then None else member (iso_set a (i_gl a)) 0x20 c) as ->.
  { unfold lower. case_decide; [done|]. by apply view_translate_member. }
  assert (view_translate (upper a (i_gr a) (i_upper a)) 0xA0 c
          = if decide (iso_set a (i_gr a) = tLatin1 ∨ i_upper a = false) then None
            else member (iso_set a (i_gr a)) 0xA0 c) as ->.
  { unfold upper. case_decide; [done|]. by apply view_translate_member. }
  destruct (Z.lt_ge_cases c 0xA0).
  - rewrite !member_upper by done.
    transitivity (default c (member (iso_set a (i_gl a)) 0x20 c)).
    + case_decide as E; [rewrite E, Pa; by case_decide|]. destruct (member (iso_set a (i_gl a)) _ _); by case_decide.
    + by destruct (i_upper a), (member (iso_set a (i_gl a)) _ _).
  - rewrite !member_lower by done. case_decide; (destruct (i_upper a); [|by rewrite decide_True by auto]);
      (case_decide as E; [destruct E as [E|E]; [rewrite E|done]|done]); destruct (member tLatin1 0xA0 c); done.
Qed.

Lemma output_step_ok op o a : represents o a → op_ok op →
  wp (output_step op) (λ r o', r = (iso_step op a).1 ∧ represents o' (iso_step op a).2) o.
Proof.
  intros Hr Hop. pose proof (conj (r_sets _ _ Hr) (r_four _ _ Hr) : has_sets o a) as Hsets.
  destruct op as [g id|g id|g|g|g|enabled|c]; cbn [output_step iso_step op_ok] in *.
  - by apply designate_ok.
  - by apply designate_ok.
  - wp_step. eapply wp_of_ok; [by apply LockingShift_ok|]. split; [done|].
    destruct Hr as [? ? [? ?] [? ?] ? ? ? ?]. by split.
  - wp_step. eapply wp_of_ok; [by apply LockingShiftRight_ok|]. split; [done|].
    destruct Hr as [? ? [? ?] [? ?] Hu ? ? ?]. rewrite Hu. by split.
  - wp_step. eapply (wp_of_ok _ _ _ true (set_ss (Some (iso_set a g)) o)).
    { unfold Output_SingleShift, mbind, prog_bind. by rewrite (gset_at_ok g o a). }
    split; [done|]. destruct Hr as [? ? [? ?] [? ?] ? ? ? ?]. by split.
  - unfold EnableGrTranslation. repeat (wp_step; cbv beta). destruct Hr as [? ? [? ?] [Hgr ?] ? ? ? ?].
    cbn [_grSetNumber set_grEnabled]. rewrite Hgr.
    eapply wp_of_ok; [by apply (LockingShiftRight_ok (i_gr a) _ a)|]. split; [done|]. by split.
  - unfold wp, TranslateKey. destruct Hr as [? ? [? ?] [? ?] Hu Hs Hgl Hgr]. rewrite Hs. unfold iso_translate.
    destruct (i_single a) as [t|] eqn:E.
    + change (view_empty (Some t)) with false. cbn [negb fst snd]. rewrite !(view_translate_member t) by (done || lia). split; [done|]. by split.
    + change (view_empty None) with true. cbn [negb fst snd]. split; [|by split]. rewrite Hgl, Hgr. f_equal.
      apply halves_ok. exact Hop.
Qed.

(** Text that needs no translation is not changed by it. *)
Lemma no_translation o c : NeedToTranslate o = false → TranslateKey c o = (c, o).
Proof.
  unfold NeedToTranslate, view_empty, TranslateKey. intros H.
  destruct (_glTranslationTable o), (_grTranslationTable o), (_ssTranslationTable o); done.
Qed.

(** C23: the translation of characters refines ISO 2022: for every sequence of
    designations, shifts and characters, each character comes out as the set that
    is selected for its half of the codes has it, and each designation reports
    whether the set is known; the tables that the code keeps are never out of
    step with the sets, and no set number is out of range. *)
Theorem translation_refines_iso2022 (ops : list OutputOp) :
  Forall op_ok ops → wp (output_run ops) (λ rs _, rs = iso_run ops iso_init) TerminalOutput_init.
Proof.
  intros Hops. pose proof represents_init as Hr. revert Hr. generalize TerminalOutput_init, iso_init.
  induction Hops as [|op ops Hop _ IH]; intros o a Hr; cbn [output_run iso_run]; [done|].
  wp_step. eapply wp_mono; [by apply output_step_ok|]. intros r o' [-> Ho']. wp_step.
  eapply wp_mono; [by apply IH|]. by intros rs o'' ->.
Qed.

(** Line drawing characters with G1 and SO, then one character of a Greek set by a
    single shift, and ASCII again. *)
Lemma translation_refines_iso2022_witness :
  let ops := [ODesignate94 1 (VTID "0"); OLockingShift 1; OTranslate 0x71; ODesignate96 2 (VTID "F");
              OSingleShift 2; OTranslate 0x61; OTranslate 0x71; OLockingShift 0; OTranslate 0x71] in
  wp (output_run ops) (λ rs _, rs = iso_run ops iso_init) TerminalOutput_init
  ∧ iso_run ops iso_init = [inl true; inl true; inr 0x2500; inl true; inl true; inr 0x03b1; inr 0x2500; inl true; inr 0x71].
Proof.
  split; [|by vm_compute].
  apply translation_refines_iso2022. repeat constructor; unfold is_wchar; cbn; lia.
Defined.
