(* ===== verification/AdaptDispatch.v ===== *)
(** The terminal adapter: [src/src/terminal/adapter/adaptDispatch.cpp].

    [AdaptDispatch] carries out the calls of the output engine on a console.  The
    console is the interface of [conGetSet.hpp]: methods that return a value are
    methods of the class [ConsoleApi], those that only act and report success are
    the calls [ConCall].  Plain characters go to the interface of
    [adaptDefaults.hpp], which works on the same console. *)

From stdpp Require Import strings.
From S2P Require Import Prelude DispatchTypes OutputEngine TextColor TextAttribute SgrStack Sgr Viewport OutputCell CharRow Row Cursor InputEvent TerminalOutput.

(** ** The console *)

Record CONSOLE_SCREEN_BUFFER_INFOEX := mkInfo {
  dwSize : COORD;
  dwCursorPosition : COORD;
  wAttributes : Z;
  srWindow : SMALL_RECT; (* exclusive *)
  dwMaximumWindowSize : COORD;
  wPopupAttributes : Z;
  bFullscreenSupported : bool;
  infoColorTable : list Z
}.

Inductive ConCall :=
  | SetConsoleScreenBufferInfoEx (info : CONSOLE_SCREEN_BUFFER_INFOEX)
  | SetConsoleCursorPosition (position : COORD)
  | PrivateSetCurrentLineRendition (r : LineRendition)
  | PrivateResetLineRenditionRange (startRow endRow : Z)
  | PrivateWriteConsoleInputW (events : list IInputEvent)
  | SetConsoleWindowInfo (absolute : bool) (window : SMALL_RECT)
  | PrivateSetCursorKeysMode (applicationMode : bool)
  | PrivateSetKeypadMode (applicationMode : bool)
  | PrivateEnableWin32InputMode (win32InputMode : bool)
  | PrivateSetAnsiMode (ansiMode : bool)
  | PrivateSetScreenMode (reverseMode : bool)
  | PrivateSetAutoWrapMode (wrapAtEOL : bool)
  | PrivateShowCursor (show : bool)
  | PrivateAllowCursorBlinking (enable : bool)
  | PrivateSetScrollingRegion (scrollMargins : SMALL_RECT)
  | PrivateWarningBell
  | PrivateLineFeed (withReturn : bool)
  | PrivateReverseLineFeed
  | SetConsoleTitleW (title : wstring)
  | PrivateUseAlternateScreenBuffer
  | PrivateUseMainScreenBuffer
  | PrivateEnableVT200MouseMode (enabled : bool)
  | PrivateEnableUTF8ExtendedMouseMode (enabled : bool)
  | PrivateEnableSGRExtendedMouseMode (enabled : bool)
  | PrivateEnableButtonEventMouseMode (enabled : bool)
  | PrivateEnableAnyEventMouseMode (enabled : bool)
  | PrivateEnableAlternateScroll (enabled : bool)
  | PrivateEraseAll
  | Con_SetCursorStyle (style : CursorType)
  | Con_SetCursorColor (color : Z)
  | PrivateRefreshWindow
  | SetConsoleOutputCP (codepage : Z)
  | DeleteLines (count : Z)
  | InsertLines (count : Z)
  | MoveToBottom
  | PrivateSetColorTableEntry (index value : Z)
  | PrivateSetDefaultForeground (value : Z)
  | PrivateSetDefaultBackground (value : Z)
  | PrivateFillRegion (startPosition : COORD) (fillLength : Z) (fillChar : wchar) (standardFillAttrs : bool)
  | PrivateScrollRegion (scrollRect : SMALL_RECT) (clipRect : option SMALL_RECT) (destinationOrigin : COORD)
      (standardFillAttrs : bool)
  | PrivateAddHyperlink (uri params : wstring)
  | PrivateEndHyperlink
  | PrivateWriteConsoleControlInput (key : KeyEvent)
  | PrivateSuppressResizeRepaint.

Class ConsoleApi (C : Type) := {
  GetConsoleScreenBufferInfoEx : prog C (bool * CONSOLE_SCREEN_BUFFER_INFOEX);
  PrivateIsVtInputEnabled : prog C bool;
  PrivateGetLineWidth : Z → prog C Z;
  PrivateGetLineFeedMode : prog C bool;
  GetUserDefaultCursorStyle : prog C (bool * CursorType);
  GetConsoleOutputCP : prog C (bool * Z);
  IsConsolePty : prog C bool;
  con_call : ConCall → prog C bool
}.

Class AdaptDefaults (C : Type) := {
  Defaults_Print : wchar → prog C unit;
  Defaults_PrintString : wstring → prog C unit;
  Defaults_Execute : wchar → prog C unit
}.

(** ** The state *)

Record CursorState := mkCursorState {
  cs_Row : Z;
  cs_Column : Z;
  cs_IsOriginModeRelative : bool;
  cs_Attributes : TextAttribute;
  cs_TermOutput : TerminalOutput;
  cs_CodePage : Z
}.

Definition CursorState_init : CursorState :=
  mkCursorState 1 1 false TextAttribute_default TerminalOutput_init 0.

(** The console and the stack of attributes are the record of the graphics
    operations; the array of saved states has one for the main and one for the
    alternate buffer. *)
Record AdaptDispatch (C : Type) := mkAdapt {
  _graphics : AdaptGraphics C;
  _tabStopColumns : list bool;
  _initDefaultTabStops : bool;
  _termOutput : TerminalOutput;
  _initialCodePage : option Z;
  _savedCursorState : CursorState * CursorState;
  _usingAltBuffer : bool;
  _scrollMargins : SMALL_RECT;
  _isOriginModeRelative : bool;
  _isDECCOLMAllowed : bool
}.
Arguments mkAdapt {C} _ _ _ _ _ _ _ _ _ _.
Arguments _graphics {C} _.
Arguments _tabStopColumns {C} _.
Arguments _initDefaultTabStops {C} _.
Arguments _termOutput {C} _.
Arguments _initialCodePage {C} _.
Arguments _savedCursorState {C} _.
Arguments _usingAltBuffer {C} _.
Arguments _scrollMargins {C} _.
Arguments _isOriginModeRelative {C} _.
Arguments _isDECCOLMAllowed {C} _.

Definition AdaptDispatch_init {C} (console : C) : AdaptDispatch C :=
  mkAdapt (mkAdaptGraphics console SgrStack_init) [] true TerminalOutput_init None
    (CursorState_init, CursorState_init) false (mkRect 0 0 0 0) false false.

Section setters.
Context {C : Type}.

Definition set_graphics g (a : AdaptDispatch C) : AdaptDispatch C := mkAdapt g (_tabStopColumns a) (_initDefaultTabStops a) (_termOutput a)
  (_initialCodePage a) (_savedCursorState a) (_usingAltBuffer a) (_scrollMargins a) (_isOriginModeRelative a)
  (_isDECCOLMAllowed a).
Definition set_tabs tabs init (a : AdaptDispatch C) : AdaptDispatch C := mkAdapt (_graphics a) tabs init (_termOutput a)
  (_initialCodePage a) (_savedCursorState a) (_usingAltBuffer a) (_scrollMargins a) (_isOriginModeRelative a)
  (_isDECCOLMAllowed a).
Definition set_termOutput o (a : AdaptDispatch C) : AdaptDispatch C := mkAdapt (_graphics a) (_tabStopColumns a) (_initDefaultTabStops a) o
  (_initialCodePage a) (_savedCursorState a) (_usingAltBuffer a) (_scrollMargins a) (_isOriginModeRelative a)
  (_isDECCOLMAllowed a).
Definition set_initialCodePage cp (a : AdaptDispatch C) : AdaptDispatch C := mkAdapt (_graphics a) (_tabStopColumns a) (_initDefaultTabStops a)
  (_termOutput a) cp (_savedCursorState a) (_usingAltBuffer a) (_scrollMargins a) (_isOriginModeRelative a)
  (_isDECCOLMAllowed a).
Definition set_saved s (a : AdaptDispatch C) : AdaptDispatch C := mkAdapt (_graphics a) (_tabStopColumns a) (_initDefaultTabStops a)
  (_termOutput a) (_initialCodePage a) s (_usingAltBuffer a) (_scrollMargins a) (_isOriginModeRelative a)
  (_isDECCOLMAllowed a).
Definition set_alt b (a : AdaptDispatch C) : AdaptDispatch C := mkAdapt (_graphics a) (_tabStopColumns a) (_initDefaultTabStops a)
  (_termOutput a) (_initialCodePage a) (_savedCursorState a) b (_scrollMargins a) (_isOriginModeRelative a)
  (_isDECCOLMAllowed a).
Definition set_margins m (a : AdaptDispatch C) : AdaptDispatch C := mkAdapt (_graphics a) (_tabStopColumns a) (_initDefaultTabStops a)
  (_termOutput a) (_initialCodePage a) (_savedCursorState a) (_usingAltBuffer a) m (_isOriginModeRelative a)
  (_isDECCOLMAllowed a).
Definition set_origin b (a : AdaptDispatch C) : AdaptDispatch C := mkAdapt (_graphics a) (_tabStopColumns a) (_initDefaultTabStops a)
  (_termOutput a) (_initialCodePage a) (_savedCursorState a) (_usingAltBuffer a) (_scrollMargins a) b
  (_isDECCOLMAllowed a).
Definition set_deccolm b (a : AdaptDispatch C) : AdaptDispatch C := mkAdapt (_graphics a) (_tabStopColumns a) (_initDefaultTabStops a)
  (_termOutput a) (_initialCodePage a) (_savedCursorState a) (_usingAltBuffer a) (_scrollMargins a)
  (_isOriginModeRelative a) b.

(** [_savedCursorState.at(_usingAltBuffer)] *)
Definition current_saved (a : AdaptDispatch C) : CursorState :=
  if _usingAltBuffer a then (_savedCursorState a).2 else (_savedCursorState a).1.
Definition set_current_saved s (a : AdaptDispatch C) : AdaptDispatch C :=
  set_saved (if _usingAltBuffer a then ((_savedCursorState a).1, s) else (s, (_savedCursorState a).2)) a.
End setters.

(** Functions on a part of the state. *)
Definition on_part {W V A} (get : W → V) (set : V → W → W) (m : prog V A) : prog W A := λ w,
  match m (get w) with
  | Ok a v => Ok a (set v w)
  | Throw e v => Throw e (set v w)
  end.

(** [m1 && m2] runs the second one only if the first one succeeds. *)
Definition and_also {W} (m1 m2 : prog W bool) : prog W bool :=
  ok ← m1; if (ok : bool) then m2 else mret false.

(** [success = m && success] runs [m] in any case. *)
Definition also {W} (m : prog W bool) (success : bool) : prog W bool := ok ← m; mret (ok && success).

(** ** Integers *)

(** [SizeTToShort] and [ShortSub] of intsafe.h. *)
Definition SizeTToShort (n : Z) : option Z := if n <=? 32767 then Some n else None.
Definition ShortSub (a b : Z) : option Z :=
  if (-32768 <=? a - b) && (a - b <=? 32767) then Some (a - b) else None.

(** Overflow of an [int] and [std::clamp] with crossed bounds have no meaning. *)
Definition int_of {W} (z : Z) : prog W Z :=
  if (- 2 ^ 31 <=? z) && (z <? 2 ^ 31) then mret z else throw UndefinedBehavior.
Definition checked_clamp {W} (x lo hi : Z) : prog W Z :=
  if hi <? lo then throw UndefinedBehavior else mret (std_clamp x lo hi).

Record Offset := mkOffset { oValue : Z; IsAbsolute : bool }.

(** The values are [int]s; their range is checked where they are used. *)
Definition Offset_Absolute (n : Z) : Offset := mkOffset (i32 n - 1) true.
Definition Offset_Forward (n : Z) : Offset := mkOffset (i32 n) false.
Definition Offset_Backward (n : Z) : Offset := mkOffset (- i32 n) false.
Definition Offset_Unchanged : Offset := Offset_Forward 0.

(** ** The functions of [DispatchCommon.cpp] *)

Definition set_dwSize (size : COORD) (i : CONSOLE_SCREEN_BUFFER_INFOEX) : CONSOLE_SCREEN_BUFFER_INFOEX :=
  mkInfo size (dwCursorPosition i) (wAttributes i) (srWindow i) (dwMaximumWindowSize i) (wPopupAttributes i)
    (bFullscreenSupported i) (infoColorTable i).
Definition set_srWindow (window : SMALL_RECT) (i : CONSOLE_SCREEN_BUFFER_INFOEX) : CONSOLE_SCREEN_BUFFER_INFOEX :=
  mkInfo (dwSize i) (dwCursorPosition i) (wAttributes i) window (dwMaximumWindowSize i) (wPopupAttributes i)
    (bFullscreenSupported i) (infoColorTable i).

Section common.
Context {C : Type} `{ConsoleApi C}.

Definition s_ResizeWindow (width height : Z) : prog C bool :=
  match SizeTToShort width, SizeTToShort height with
  | Some sColumns, Some sRows =>
      if (width >? 0) && (height >? 0) then
        '(success, csbiex) ← GetConsoleScreenBufferInfoEx;
        if (success : bool) then
          let newViewport := FromDimensions (Origin (FromInclusive (srWindow csbiex))) (mkCOORD sColumns sRows) in
          let y := if sRows >? Y (dwSize csbiex) then sRows else Y (dwSize csbiex) in
          let csbiex := set_srWindow (ToExclusive newViewport) (set_dwSize (mkCOORD sColumns y) csbiex) in
          and_also (con_call (SetConsoleScreenBufferInfoEx csbiex))
            (con_call (SetConsoleWindowInfo true (ToInclusive newViewport)))
        else mret false
      else mret false
  | _, _ => mret false
  end.

Definition s_RefreshWindow : prog C bool := con_call PrivateRefreshWindow.
Definition s_SuppressResizeRepaint : prog C bool := con_call PrivateSuppressResizeRepaint.
End common.

(** ** Operations *)

Section dispatch.
Context {C : Type} `{ConGetSet C} `{ConsoleApi C} `{AdaptDefaults C}.

#[local] Abbreviation M := (prog (AdaptDispatch C)).

Definition on_console {A} (m : prog C A) : M A :=
  on_part (λ a, _pConApi (_graphics a)) (λ c a, set_graphics (mkAdaptGraphics c (_sgrStack (_graphics a))) a) m.
Definition on_graphics {A} (m : prog (AdaptGraphics C) A) : M A := on_part _graphics set_graphics m.
Definition on_output {A} (m : prog TerminalOutput A) : M A := on_part _termOutput set_termOutput m.

Definition call (c : ConCall) : M bool := on_console (con_call c).
Definition get_info : M (bool * CONSOLE_SCREEN_BUFFER_INFOEX) := on_console GetConsoleScreenBufferInfoEx.
Definition get_attrs : M (bool * TextAttribute) := on_graphics get_attributes.
Definition set_attrs (attr : TextAttribute) : M bool := on_graphics (set_attributes attr).

Definition csbiex_zero : CONSOLE_SCREEN_BUFFER_INFOEX :=
  mkInfo (mkCOORD 0 0) (mkCOORD 0 0) 0 (mkRect 0 0 0 0) (mkCOORD 0 0) 0 false [].

(** [MoveToBottom() && GetConsoleScreenBufferInfoEx(csbiex)] *)
Definition bottom_info : M (bool * CONSOLE_SCREEN_BUFFER_INFOEX) :=
  ok ← call MoveToBottom;
  if (ok : bool) then get_info else mret (false, csbiex_zero).

(** *** Text *)

Definition AdaptDispatch_Print (wchPrintable : wchar) : M bool :=
  o ← gets _termOutput;
  let '(wchTranslated, o') := TranslateKey wchPrintable o in
  modify (set_termOutput o');;
  (if wchTranslated =? AsciiChars.DEL then mret tt else on_console (Defaults_Print wchTranslated));;
  mret true.

Fixpoint translate_all (string : wstring) (o : TerminalOutput) : wstring * TerminalOutput :=
  match string with
  | [] => ([], o)
  | wch :: string =>
      let '(c, o) := TranslateKey wch o in
      let '(buffer, o) := translate_all string o in (c :: buffer, o)
  end.

Definition AdaptDispatch_PrintString (string : wstring) : M bool :=
  o ← gets _termOutput;
  (if NeedToTranslate o then
     let '(buffer, o') := translate_all string o in
     modify (set_termOutput o');; on_console (Defaults_PrintString buffer)
   else on_console (Defaults_PrintString string));;
  mret true.

(** *** Cursor movement *)

Definition _CursorMovePosition (rowOffset colOffset : Offset) (clampInMargins : bool) : M bool :=
  '(success, csbiex) ← bottom_info;
  if (success : bool) then
    m ← gets _scrollMargins;
    originRelative ← gets _isOriginModeRelative;
    let viewportTop := rTop (srWindow csbiex) in
    let viewportBottom := rBottom (srWindow csbiex) - 1 in
    let topMargin := viewportTop + rTop m in
    let bottomMargin := viewportTop + rBottom m in
    let marginsSet := topMargin <? bottomMargin in
    let row := if IsAbsolute rowOffset then if (originRelative : bool) then topMargin else viewportTop
               else Y (dwCursorPosition csbiex) in
    let col := if IsAbsolute colOffset then 0 else X (dwCursorPosition csbiex) in
    row ← int_of (row + oValue rowOffset);
    row ← checked_clamp row viewportTop viewportBottom;
    col ← int_of (col + oValue colOffset);
    col ← checked_clamp col 0 (X (dwSize csbiex) - 1);
    let row :=
      if marginsSet && (clampInMargins || originRelative) then
        let row := if Y (dwCursorPosition csbiex) >=? topMargin then Z.max row topMargin else row in
        if Y (dwCursorPosition csbiex) <=? bottomMargin then Z.min row bottomMargin else row
      else row in
    call (SetConsoleCursorPosition (mkCOORD (i16 col) (i16 row)))
  else mret false.

Definition AdaptDispatch_CursorUp (distance : Z) : M bool :=
  _CursorMovePosition (Offset_Backward distance) Offset_Unchanged true.
Definition AdaptDispatch_CursorDown (distance : Z) : M bool :=
  _CursorMovePosition (Offset_Forward distance) Offset_Unchanged true.
Definition AdaptDispatch_CursorForward (distance : Z) : M bool :=
  _CursorMovePosition Offset_Unchanged (Offset_Forward distance) true.
Definition AdaptDispatch_CursorBackward (distance : Z) : M bool :=
  _CursorMovePosition Offset_Unchanged (Offset_Backward distance) true.
Definition AdaptDispatch_CursorNextLine (distance : Z) : M bool :=
  _CursorMovePosition (Offset_Forward distance) (Offset_Absolute 1) true.
Definition AdaptDispatch_CursorPrevLine (distance : Z) : M bool :=
  _CursorMovePosition (Offset_Backward distance) (Offset_Absolute 1) true.
Definition AdaptDispatch_CursorHorizontalPositionAbsolute (column : Z) : M bool :=
  _CursorMovePosition Offset_Unchanged (Offset_Absolute column) false.
Definition AdaptDispatch_VerticalLinePositionAbsolute (line : Z) : M bool :=
  _CursorMovePosition (Offset_Absolute line) Offset_Unchanged false.
Definition AdaptDispatch_HorizontalPositionRelative (distance : Z) : M bool :=
  _CursorMovePosition Offset_Unchanged (Offset_Forward distance) false.
Definition AdaptDispatch_VerticalPositionRelative (distance : Z) : M bool :=
  _CursorMovePosition (Offset_Forward distance) Offset_Unchanged false.
Definition AdaptDispatch_CursorPosition (line column : Z) : M bool :=
  _CursorMovePosition (Offset_Absolute line) (Offset_Absolute column) false.
Definition AdaptDispatch_CarriageReturn : M bool :=
  _CursorMovePosition Offset_Unchanged (Offset_Absolute 1) true.

(** *** Saved cursors *)

Definition AdaptDispatch_CursorSaveState : M bool :=
  '(success, csbiex) ← bottom_info;
  '(success, attributes) ← (if (success : bool) then get_attrs else mret (false, TextAttribute_default));
  if (success : bool) then
    let column := X (dwCursorPosition csbiex) in
    let line := i16 (Y (dwCursorPosition csbiex) - rTop (srWindow csbiex)) in
    origin ← gets _isOriginModeRelative;
    o ← gets _termOutput;
    '(_, codePage) ← on_console GetConsoleOutputCP;
    modify (set_current_saved (mkCursorState (u32 (line + 1)) (u32 (column + 1)) origin attributes o codePage));;
    mret true
  else mret false.

(** The part of [CursorRestoreState] behind the clamping of the row. *)
Definition restore_state (saved : CursorState) (row : Z) : M bool :=
  modify (set_origin false);;
  success ← AdaptDispatch_CursorPosition row (cs_Column saved);
  modify (set_origin (cs_IsOriginModeRelative saved));;
  set ← set_attrs (cs_Attributes saved);
  modify (set_termOutput (cs_TermOutput saved));;
  if negb (cs_CodePage saved =? 0) then call (SetConsoleOutputCP (cs_CodePage saved))
  else mret (set && success).

Definition AdaptDispatch_CursorRestoreState : M bool :=
  saved ← gets current_saved;
  m ← gets _scrollMargins;
  row ← (if cs_IsOriginModeRelative saved && negb (rBottom m =? 0)
         then checked_clamp (cs_Row saved) (u32 (rTop m + 1)) (u32 (rBottom m + 1))
         else mret (cs_Row saved));
  restore_state saved row.

Definition AdaptDispatch_CursorVisibility (fIsVisible : bool) : M bool := call (PrivateShowCursor fIsVisible).

(** *** Inserting and erasing *)

Definition _InsertDeleteHelper (count : Z) (isInsert : bool) : M bool :=
  match SizeTToShort count with
  | None => mret false
  | Some distance =>
      '(success, csbiex) ← bottom_info;
      if (success : bool) then
        let cursor := dwCursorPosition csbiex in
        width ← on_console (PrivateGetLineWidth (u64 (Y cursor)));
        let srScroll := mkRect (X cursor) (Y cursor) (i16 (width - 1)) (Y cursor) in
        match (if isInsert then ShortAdd (X cursor) distance else ShortSub (X cursor) distance) with
        | Some x => call (PrivateScrollRegion srScroll (Some srScroll) (mkCOORD x (Y cursor)) true)
        | None => mret false
        end
      else mret false
  end.

Definition AdaptDispatch_InsertCharacter (count : Z) : M bool := _InsertDeleteHelper count true.
Definition AdaptDispatch_DeleteCharacter (count : Z) : M bool := _InsertDeleteHelper count false.

(** [EraseType] *)
Definition ToEnd : Z := 0.
Definition FromBeginning : Z := 1.
Definition EraseAll : Z := 2.
Definition Scrollback : Z := 3.

Definition _EraseSingleLineHelper (csbiex : CONSOLE_SCREEN_BUFFER_INFOEX) (eraseType lineId : Z) : M bool :=
  match SizeTToShort lineId with
  | None => mret false
  | Some y =>
      let x := if eraseType =? ToEnd then X (dwCursorPosition csbiex) else 0 in
      nLength ← (if eraseType =? FromBeginning then mret (u32 (X (dwCursorPosition csbiex) + 1))
                 else if (eraseType =? ToEnd) || (eraseType =? EraseAll) then
                   width ← on_console (PrivateGetLineWidth lineId); mret (u32 (width - x))
                 else mret 0);
      call (PrivateFillRegion (mkCOORD x y) nLength 32 true)
  end.

Definition AdaptDispatch_EraseCharacters (numChars : Z) : M bool :=
  '(success, csbiex) ← get_info;
  if (success : bool) then
    let startPosition := dwCursorPosition csbiex in
    let remainingSpaces := i16 (X (dwSize csbiex) - X startPosition) in
    let actualRemaining := if remainingSpaces <? 0 then 0 else remainingSpaces in
    let eraseLength := if numChars <=? actualRemaining then numChars else actualRemaining in
    call (PrivateFillRegion startPosition eraseLength 32 true)
  else mret false.

(** The loops stop at the first line that fails. *)
Fixpoint erase_lines (csbiex : CONSOLE_SCREEN_BUFFER_INFOEX) (lines : list Z) : M bool :=
  match lines with
  | [] => mret true
  | line :: lines =>
      and_also (_EraseSingleLineHelper csbiex EraseAll (u64 line)) (erase_lines csbiex lines)
  end.

Definition _EraseScrollback : M bool :=
  '(got, csbiex) ← get_info;
  success ← (if (got : bool) then call MoveToBottom else mret false);
  if (success : bool) then
    let screen := srWindow csbiex in
    let height := i16 (rBottom screen - rTop screen) in
    (if height >? 0 then mret tt else throw FailFast);;
    let cursor := dwCursorPosition csbiex in
    let scroll := mkRect 0 (rTop screen) 32767 (rBottom screen) in
    and_also (call (PrivateScrollRegion scroll None (mkCOORD 0 0) false))
    (let totalAreaBelow := u32 (X (dwSize csbiex) * (Y (dwSize csbiex) - height)) in
     and_also (call (PrivateFillRegion (mkCOORD 0 height) totalAreaBelow 32 false))
     (and_also (call (PrivateResetLineRenditionRange (u64 height) (u64 (Y (dwSize csbiex)))))
     (let newViewport := mkRect (rLeft screen) 0 (i16 (rRight screen - 1)) (i16 (height - 1)) in
      and_also (call (SetConsoleWindowInfo true newViewport))
      (call (SetConsoleCursorPosition (mkCOORD (X cursor) (i16 (Y cursor - rTop screen))))))))
  else mret false.

Definition _EraseAll : M bool := call PrivateEraseAll.

Definition AdaptDispatch_EraseInDisplay (eraseType : Z) : M bool :=
  if eraseType >? Scrollback then mret false
  else if eraseType =? Scrollback then
    result ← _EraseScrollback; isPty ← on_console IsConsolePty; mret (result && negb isPty)
  else if eraseType =? EraseAll then
    result ← _EraseAll; isPty ← on_console IsConsolePty; mret (result && negb isPty)
  else
    '(success, csbiex) ← bottom_info;
    if (success : bool) then
      let cursor := dwCursorPosition csbiex in
      (if eraseType =? FromBeginning then
         call (PrivateResetLineRenditionRange (u64 (rTop (srWindow csbiex))) (u64 (Y cursor)))
       else mret true);;
      (if eraseType =? ToEnd then
         call (PrivateResetLineRenditionRange (u64 (Y cursor + (if X cursor >? 0 then 1 else 0)))
                 (u64 (rBottom (srWindow csbiex))))
       else mret true);;
      and_also
        (if eraseType =? FromBeginning
         then erase_lines csbiex (seqZ (rTop (srWindow csbiex)) (Y cursor - rTop (srWindow csbiex)))
         else mret true)
      (and_also (_EraseSingleLineHelper csbiex eraseType (u64 (Y cursor)))
        (if eraseType =? ToEnd
         then let first := i16 (Y cursor + 1) in
              erase_lines csbiex (seqZ first (rBottom (srWindow csbiex) - first))
         else mret true))
    else mret false.

Definition AdaptDispatch_EraseInLine (eraseType : Z) : M bool :=
  if eraseType >? EraseAll then mret false
  else
    '(success, csbiex) ← get_info;
    if (success : bool) then _EraseSingleLineHelper csbiex eraseType (u64 (Y (dwCursorPosition csbiex)))
    else mret false.

Definition AdaptDispatch_SetLineRendition (r : LineRendition) : M bool := call (PrivateSetCurrentLineRendition r).

(** *** Reports *)

(** Every character of a reply is a key that is pressed and released. *)
Definition response_events (reply : wstring) : list IInputEvent :=
  reply ≫= λ wch, let keyEvent := mkKeyEvent true 1 0 0 wch 0 in [Key keyEvent; Key (SetKeyDown false keyEvent)].

Definition _WriteResponse (reply : wstring) : M bool := call (PrivateWriteConsoleInputW (response_events reply)).

Definition _OperatingStatus : M bool := _WriteResponse (AsciiChars.ESC :: wstr "[0n").

Definition _CursorPositionReport : M bool :=
  '(success, csbiex) ← bottom_info;
  if (success : bool) then
    origin ← gets _isOriginModeRelative;
    m ← gets _scrollMargins;
    let y := i16 (i16 (Y (dwCursorPosition csbiex) - rTop (srWindow csbiex)) + 1) in
    let x := i16 (X (dwCursorPosition csbiex) + 1) in
    let y := if (origin : bool) then i16 (y - rTop m) else y in
    _WriteResponse (AsciiChars.ESC :: 91 :: print_int y ++ 59 :: print_int x ++ [82])
  else mret false.

Definition AdaptDispatch_DeviceStatusReport (statusType : Z) : M bool :=
  switch statusType [(5, _OperatingStatus); (6, _CursorPositionReport)] (mret false).
Definition AdaptDispatch_DeviceAttributes : M bool := _WriteResponse (AsciiChars.ESC :: wstr "[?1;0c").
Definition AdaptDispatch_SecondaryDeviceAttributes : M bool :=
  _WriteResponse (AsciiChars.ESC :: wstr "[>0;10;1c").
Definition AdaptDispatch_TertiaryDeviceAttributes : M bool :=
  _WriteResponse (AsciiChars.ESC :: wstr "P!|00000000" ++ AsciiChars.ESC :: wstr "\").
Definition AdaptDispatch_Vt52DeviceAttributes : M bool := _WriteResponse (AsciiChars.ESC :: wstr "/Z").
Definition AdaptDispatch_RequestTerminalParameters (permission : Z) : M bool :=
  switch permission
    [(0, _WriteResponse (AsciiChars.ESC :: wstr "[2;1;1;128;128;1;0x"));
     (1, _WriteResponse (AsciiChars.ESC :: wstr "[3;1;1;128;128;1;0x"))]
    (mret false).

(** *** Scrolling and size *)

Inductive ScrollDirection := ScrollDirection_Up | ScrollDirection_Down.

Definition _ScrollMovement (scrollDirection : ScrollDirection) (distance : Z) : M bool :=
  match SizeTToShort distance with
  | None => mret false
  | Some dist =>
      '(success, csbiex) ← bottom_info;
      if (success : bool) then
        m ← gets _scrollMargins;
        let top := rTop (srWindow csbiex) in
        let '(t, b) :=
          if rTop m <? rBottom m then (i16 (top + rTop m), i16 (top + rBottom m))
          else (top, i16 (rBottom (srWindow csbiex) - 1)) in
        let srScreen := mkRect 0 t 32767 b in
        let sign := match scrollDirection with ScrollDirection_Up => -1 | ScrollDirection_Down => 1 end in
        call (PrivateScrollRegion srScreen (Some srScreen) (mkCOORD 0 (i16 (t + dist * sign))) true)
      else mret false
  end.

Definition AdaptDispatch_ScrollUp (uiDistance : Z) : M bool := _ScrollMovement ScrollDirection_Up uiDistance.
Definition AdaptDispatch_ScrollDown (uiDistance : Z) : M bool := _ScrollMovement ScrollDirection_Down uiDistance.

Definition AdaptDispatch_SetColumns (columns : Z) : M bool :=
  match SizeTToShort columns with
  | None => mret false
  | Some col =>
      '(success, csbiex) ← get_info;
      if (success : bool) then
        call (SetConsoleScreenBufferInfoEx (set_dwSize (mkCOORD col (Y (dwSize csbiex))) csbiex))
      else mret false
  end.

(** *** Margins *)

Definition _DoSetTopBottomScrollingMargins (topMargin bottomMargin : Z) : M bool :=
  '(success, csbiex) ← bottom_info;
  if (success : bool) then
    match SizeTToShort topMargin, SizeTToShort bottomMargin with
    | Some actualTop, Some actualBottom =>
        let screenHeight := i16 (rBottom (srWindow csbiex) - rTop (srWindow csbiex)) in
        let actualTop := if actualTop =? 0 then 1 else actualTop in
        let actualBottom := if actualBottom =? 0 then screenHeight else actualBottom in
        if (actualTop <? actualBottom) && (actualBottom <=? screenHeight) then
          let '(t, b) :=
            if (actualTop =? 1) && (actualBottom =? screenHeight) then (0, 0)
            else (actualTop - 1, actualBottom - 1) in
          m ← gets _scrollMargins;
          let m' := mkRect (rLeft m) t (rRight m) b in
          modify (set_margins m');;
          call (PrivateSetScrollingRegion m')
        else mret false
    | _, _ => mret false
    end
  else mret false.

Definition AdaptDispatch_SetTopBottomScrollingMargins (topMargin bottomMargin : Z) : M bool :=
  and_also (_DoSetTopBottomScrollingMargins topMargin bottomMargin) (AdaptDispatch_CursorPosition 1 1).

(** *** Modes *)

Definition _ShouldPassThroughInputModeChange : M bool :=
  and_also (on_console IsConsolePty) (on_console PrivateIsVtInputEnabled).

(** An input mode is changed here and, under a pseudo console, passed through. *)
Definition input_mode (c : ConCall) : M bool :=
  success ← call c;
  pass ← _ShouldPassThroughInputModeChange;
  mret (if (pass : bool) then false else success).

Definition AdaptDispatch_SetKeypadMode (b : bool) : M bool := input_mode (PrivateSetKeypadMode b).
Definition AdaptDispatch_EnableWin32InputMode (b : bool) : M bool := input_mode (PrivateEnableWin32InputMode b).
Definition AdaptDispatch_SetCursorKeysMode (b : bool) : M bool := input_mode (PrivateSetCursorKeysMode b).
Definition AdaptDispatch_EnableVT200MouseMode (b : bool) : M bool := input_mode (PrivateEnableVT200MouseMode b).
Definition AdaptDispatch_EnableUTF8ExtendedMouseMode (b : bool) : M bool :=
  input_mode (PrivateEnableUTF8ExtendedMouseMode b).
Definition AdaptDispatch_EnableSGRExtendedMouseMode (b : bool) : M bool :=
  input_mode (PrivateEnableSGRExtendedMouseMode b).
Definition AdaptDispatch_EnableButtonEventMouseMode (b : bool) : M bool :=
  input_mode (PrivateEnableButtonEventMouseMode b).
Definition AdaptDispatch_EnableAnyEventMouseMode (b : bool) : M bool :=
  input_mode (PrivateEnableAnyEventMouseMode b).
Definition AdaptDispatch_EnableAlternateScroll (b : bool) : M bool := input_mode (PrivateEnableAlternateScroll b).
Definition AdaptDispatch_EnableCursorBlinking (b : bool) : M bool := call (PrivateAllowCursorBlinking b).
Definition AdaptDispatch_SetAutoWrapMode (b : bool) : M bool := call (PrivateSetAutoWrapMode b).

Definition AdaptDispatch_SetAnsiMode (ansiMode : bool) : M bool :=
  modify (set_termOutput TerminalOutput_init);; call (PrivateSetAnsiMode ansiMode).

Definition AdaptDispatch_SetScreenMode (reverseMode : bool) : M bool :=
  pty ← on_console IsConsolePty;
  if (pty : bool) then mret false else call (PrivateSetScreenMode reverseMode).

Definition AdaptDispatch_SetOriginMode (relativeMode : bool) : M bool :=
  modify (set_origin relativeMode);; mret true.

Definition AdaptDispatch_EnableDECCOLMSupport (enabled : bool) : M bool :=
  modify (set_deccolm enabled);; mret true.

Definition _DoDECCOLMHelper (columns : Z) : M bool :=
  allowed ← gets _isDECCOLMAllowed;
  if negb allowed then mret true
  else
    and_also (AdaptDispatch_SetColumns columns)
    (and_also (AdaptDispatch_SetOriginMode false)
    (and_also (AdaptDispatch_CursorPosition 1 1)
    (and_also (AdaptDispatch_EraseInDisplay EraseAll)
      (_DoSetTopBottomScrollingMargins 0 0)))).

(** *** The alternate screen *)

Definition AdaptDispatch_UseAlternateScreenBuffer : M bool :=
  and_also AdaptDispatch_CursorSaveState
  (success ← call PrivateUseAlternateScreenBuffer;
   (if (success : bool) then modify (set_alt true) else mret tt);;
   mret success).

Definition AdaptDispatch_UseMainScreenBuffer : M bool :=
  success ← call PrivateUseMainScreenBuffer;
  if (success : bool) then modify (set_alt false);; AdaptDispatch_CursorRestoreState else mret false.

Definition s_sDECCOLMSetColumns : Z := 132.
Definition s_sDECCOLMResetColumns : Z := 80.

Definition _ModeParamsHelper (param : Z) (enable : bool) : M bool :=
  switch param
    [(DECPrivateMode 1, AdaptDispatch_SetCursorKeysMode enable);
     (DECPrivateMode 2, AdaptDispatch_SetAnsiMode enable);
     (DECPrivateMode 3, _DoDECCOLMHelper (if enable then s_sDECCOLMSetColumns else s_sDECCOLMResetColumns));
     (DECPrivateMode 5, AdaptDispatch_SetScreenMode enable);
     (DECPrivateMode 6, and_also (AdaptDispatch_SetOriginMode enable) (AdaptDispatch_CursorPosition 1 1));
     (DECPrivateMode 7, AdaptDispatch_SetAutoWrapMode enable);
     (DECPrivateMode 12, AdaptDispatch_EnableCursorBlinking enable);
     (DECPrivateMode 25, AdaptDispatch_CursorVisibility enable);
     (DECPrivateMode 40, AdaptDispatch_EnableDECCOLMSupport enable);
     (DECPrivateMode 1000, AdaptDispatch_EnableVT200MouseMode enable);
     (DECPrivateMode 1002, AdaptDispatch_EnableButtonEventMouseMode enable);
     (DECPrivateMode 1003, AdaptDispatch_EnableAnyEventMouseMode enable);
     (DECPrivateMode 1005, AdaptDispatch_EnableUTF8ExtendedMouseMode enable);
     (DECPrivateMode 1006, AdaptDispatch_EnableSGRExtendedMouseMode enable);
     (DECPrivateMode 1007, AdaptDispatch_EnableAlternateScroll enable);
     (DECPrivateMode 1049, if enable then AdaptDispatch_UseAlternateScreenBuffer else AdaptDispatch_UseMainScreenBuffer);
     (DECPrivateMode 9001, AdaptDispatch_EnableWin32InputMode enable)]
    (mret false).

Definition AdaptDispatch_SetMode (param : Z) : M bool := _ModeParamsHelper param true.
Definition AdaptDispatch_ResetMode (param : Z) : M bool := _ModeParamsHelper param false.

(** *** Lines *)

Definition AdaptDispatch_LineFeed (t : LineFeedType) : M bool :=
  match t with
  | DependsOnMode => mode ← on_console PrivateGetLineFeedMode; call (PrivateLineFeed mode)
  | WithoutReturn => call (PrivateLineFeed false)
  | WithReturn => call (PrivateLineFeed true)
  end.

Definition AdaptDispatch_ReverseLineFeed : M bool := call PrivateReverseLineFeed.
Definition AdaptDispatch_InsertLine (distance : Z) : M bool := call (InsertLines distance).
Definition AdaptDispatch_DeleteLine (distance : Z) : M bool := call (DeleteLines distance).
Definition AdaptDispatch_WarningBell : M bool := call PrivateWarningBell.
Definition AdaptDispatch_SetWindowTitle (title : wstring) : M bool := call (SetConsoleTitleW title).

(** *** Tab stops *)

(** The columns 8, 16, ... below the size. *)
Definition default_stops (size : Z) : list Z := (λ k, 8 * (k + 1)) <$> seqZ 0 ((size - 1) `div` 8).

Definition _InitTabStopsForWidth (width : Z) : M unit :=
  tabs ← gets _tabStopColumns;
  init ← gets _initDefaultTabStops;
  let initialWidth := Z.of_nat (length tabs) in
  if width >? initialWidth then
    if width >? 2 ^ 63 - 1 then throw LengthError
    else
      let tabs := tabs ++ replicate (Z.to_nat (width - initialWidth)) false in
      let tabs :=
        if (init : bool) then
          fold_left (λ tabs column, if column >=? initialWidth then <[Z.to_nat column := true]> tabs else tabs)
            (default_stops (Z.of_nat (length tabs))) tabs
        else tabs in
      modify (set_tabs tabs init)
  else mret tt.

(** [_tabStopColumns.at(column) = b] *)
Definition set_stop (column : Z) (b : bool) : M unit :=
  tabs ← gets _tabStopColumns;
  init ← gets _initDefaultTabStops;
  if (0 <=? column) && (column <? Z.of_nat (length tabs))
  then modify (set_tabs (<[Z.to_nat column := b]> tabs) init) else throw OutOfRange.

(** [til::at] does not check its index. *)
Definition stop_at (column : Z) (tabs : list bool) : M bool :=
  if column <? 0 then throw UndefinedBehavior
  else match tabs !! Z.to_nat column with
       | Some b => mret b
       | None => throw UndefinedBehavior
       end.

Definition AdaptDispatch_HorizontalTabSet : M bool :=
  '(success, csbiex) ← get_info;
  if (success : bool) then
    _InitTabStopsForWidth (u64 (X (dwSize csbiex)));;
    set_stop (X (dwCursorPosition csbiex)) true;;
    mret true
  else mret false.

Fixpoint forward_tabs (fuel : nat) (width numTabs column tabsPerformed : Z) (tabs : list bool) : M Z :=
  if (column + 1 <? width) && (tabsPerformed <? numTabs) then
    match fuel with
    | O => throw OutOfFuel
    | S fuel =>
        let column := i16 (column + 1) in
        stop ← stop_at column tabs;
        forward_tabs fuel width numTabs column (if (stop : bool) then u32 (tabsPerformed + 1) else tabsPerformed) tabs
    end
  else mret column.

Definition AdaptDispatch_ForwardTab (numTabs : Z) : M bool :=
  '(success, csbiex) ← get_info;
  if (success : bool) then
    let width := X (dwSize csbiex) in
    let column := X (dwCursorPosition csbiex) in
    _InitTabStopsForWidth (u64 width);;
    tabs ← gets _tabStopColumns;
    column ← forward_tabs (Z.to_nat (width - column)) width numTabs column 0 tabs;
    call (SetConsoleCursorPosition (mkCOORD column (Y (dwCursorPosition csbiex))))
  else mret false.

Fixpoint backward_tabs (fuel : nat) (numTabs column tabsPerformed : Z) (tabs : list bool) : M Z :=
  if (column >? 0) && (tabsPerformed <? numTabs) then
    match fuel with
    | O => throw OutOfFuel
    | S fuel =>
        let column := i16 (column - 1) in
        stop ← stop_at column tabs;
        backward_tabs fuel numTabs column (if (stop : bool) then u32 (tabsPerformed + 1) else tabsPerformed) tabs
    end
  else mret column.

Definition AdaptDispatch_BackwardsTab (numTabs : Z) : M bool :=
  '(success, csbiex) ← get_info;
  if (success : bool) then
    let column := X (dwCursorPosition csbiex) in
    _InitTabStopsForWidth (u64 (X (dwSize csbiex)));;
    tabs ← gets _tabStopColumns;
    column ← backward_tabs (Z.to_nat column) numTabs column 0 tabs;
    call (SetConsoleCursorPosition (mkCOORD column (Y (dwCursorPosition csbiex))))
  else mret false.

Definition _ClearSingleTabStop : M bool :=
  '(success, csbiex) ← get_info;
  if (success : bool) then
    _InitTabStopsForWidth (u64 (X (dwSize csbiex)));;
    set_stop (X (dwCursorPosition csbiex)) false;;
    mret true
  else mret false.

Definition _ClearAllTabStops : M bool := modify (set_tabs [] false);; mret true.
Definition _ResetTabStops : M unit := modify (set_tabs [] true).

Definition AdaptDispatch_TabClear (clearType : Z) : M bool :=
  switch clearType [(0, _ClearSingleTabStop); (3, _ClearAllTabStops)] (mret false).

(** *** Character sets *)

Definition CP_UTF8 : Z := 65001.

Definition AdaptDispatch_DesignateCodingSystem (codingSystem : Z) : M bool :=
  initial ← gets _initialCodePage;
  (match initial with
   | Some _ => mret tt
   | None => '(_, currentCodePage) ← on_console GetConsoleOutputCP;
             modify (set_initialCodePage (Some currentCodePage))
   end);;
  switch codingSystem
    [(VTID "@", success ← call (SetConsoleOutputCP 28591);
                (if (success : bool) then on_output (EnableGrTranslation true) else mret tt);; mret success);
     (VTID "G", success ← call (SetConsoleOutputCP CP_UTF8);
                (if (success : bool) then on_output (EnableGrTranslation false) else mret tt);; mret success)]
    (mret false).

Definition AdaptDispatch_Designate94Charset (gsetNumber charset : Z) : M bool :=
  on_output (Output_Designate94Charset gsetNumber charset).
Definition AdaptDispatch_Designate96Charset (gsetNumber charset : Z) : M bool :=
  on_output (Output_Designate96Charset gsetNumber charset).
Definition AdaptDispatch_LockingShift (gsetNumber : Z) : M bool := on_output (Output_LockingShift gsetNumber).
Definition AdaptDispatch_LockingShiftRight (gsetNumber : Z) : M bool := on_output (Output_LockingShiftRight gsetNumber).
Definition AdaptDispatch_SingleShift (gsetNumber : Z) : M bool := on_output (Output_SingleShift gsetNumber).

(** *** Resets *)

Definition AdaptDispatch_SoftReset : M bool :=
  success ← AdaptDispatch_CursorVisibility true;
  success ← also (AdaptDispatch_SetOriginMode false) success;
  success ← also (AdaptDispatch_SetAutoWrapMode true) success;
  success ← also (AdaptDispatch_SetCursorKeysMode false) success;
  success ← also (AdaptDispatch_SetKeypadMode false) success;
  success ← also (_DoSetTopBottomScrollingMargins 0 0) success;
  modify (set_termOutput TerminalOutput_init);;
  initial ← gets _initialCodePage;
  success ← (match initial with
             | Some codePage => also (call (SetConsoleOutputCP codePage)) success
             | None => mret success
             end);
  success ← also (on_graphics (AdaptDispatch_SetGraphicsRendition [])) success;
  modify (set_saved (CursorState_init, CursorState_init));;
  mret success.

Definition AdaptDispatch_HardReset : M bool :=
  alt ← gets _usingAltBuffer;
  success ← (if (alt : bool) then
               success ← call PrivateUseMainScreenBuffer;
               modify (set_alt (negb success));; mret success
             else mret true);
  success ← also AdaptDispatch_SoftReset success;
  success ← also (AdaptDispatch_EraseInDisplay EraseAll) success;
  success ← also (AdaptDispatch_EraseInDisplay Scrollback) success;
  success ← also (AdaptDispatch_SetScreenMode false) success;
  success ← also (AdaptDispatch_CursorPosition 1 1) success;
  _ResetTabStops;;
  pty ← on_console IsConsolePty;
  mret (if (pty : bool) then false else success).

Definition AdaptDispatch_ScreenAlignmentPattern : M bool :=
  '(success, csbiex) ← bottom_info;
  if (success : bool) then
    let window := srWindow csbiex in
    fillLength ← int_of ((rBottom window - rTop window) * X (dwSize csbiex));
    success ← call (PrivateFillRegion (mkCOORD 0 (rTop window)) (u64 fillLength) 69 false);
    success ← (if (success : bool)
               then call (PrivateResetLineRenditionRange (u64 (rTop window)) (u64 (rBottom window))) else mret false);
    '(got, attr) ← get_attrs;
    success ← (if (got : bool)
               then if (success : bool) then set_attrs (SetStandardErase attr) else mret false
               else mret success);
    and_also (mret success)
    (and_also (AdaptDispatch_SetOriginMode false)
    (and_also (_DoSetTopBottomScrollingMargins 0 0) (AdaptDispatch_CursorPosition 1 1)))
  else mret false.

(** *** Appearance *)

(** [CursorStyle] *)
Definition AdaptDispatch_SetCursorStyle (cursorStyle : Z) : M bool :=
  style ←
    match cursorStyle with
    | 0 => '(_, actualType) ← on_console GetUserDefaultCursorStyle; mret (Some (actualType, true))
    | 1 => mret (Some (FullBox, true))
    | 2 => mret (Some (FullBox, false))
    | 3 => mret (Some (Underscore, true))
    | 4 => mret (Some (Underscore, false))
    | 5 => mret (Some (VerticalBar, true))
    | 6 => mret (Some (VerticalBar, false))
    | _ => mret None
    end;
  match style with
  | None => mret false
  | Some (actualType, fEnableBlinking) =>
      success ← and_also (call (Con_SetCursorStyle actualType)) (call (PrivateAllowCursorBlinking fEnableBlinking));
      pty ← on_console IsConsolePty;
      mret (if (pty : bool) then false else success)
  end.

Definition AdaptDispatch_SetCursorColor (cursorColor : Z) : M bool :=
  pty ← on_console IsConsolePty;
  if (pty : bool) then mret false else call (Con_SetCursorColor cursorColor).

(** A colour is changed here and, under a pseudo console, passed through. *)
Definition color_change (c : ConCall) : M bool :=
  success ← call c;
  pty ← on_console IsConsolePty;
  mret (if (pty : bool) then false else success).

Definition AdaptDispatch_SetColorTableEntry (tableIndex dwColor : Z) : M bool :=
  color_change (PrivateSetColorTableEntry tableIndex dwColor).
Definition AdaptDispatch_SetDefaultForeground (dwColor : Z) : M bool :=
  color_change (PrivateSetDefaultForeground dwColor).
Definition AdaptDispatch_SetDefaultBackground (dwColor : Z) : M bool :=
  color_change (PrivateSetDefaultBackground dwColor).

Definition AdaptDispatch_WindowManipulation (function : Z) (parameter1 parameter2 : VTParameter) : M bool :=
  switch function
    [(7, on_console s_RefreshWindow); (8, on_console (s_ResizeWindow (value_or parameter2 0) (value_or parameter1 0)))]
    (mret false).

Definition AdaptDispatch_AddHyperlink (uri params : wstring) : M bool := call (PrivateAddHyperlink uri params).
Definition AdaptDispatch_EndHyperlink : M bool := call PrivateEndHyperlink.
Definition AdaptDispatch_SetClipboard (content : wstring) : M bool := mret false.
Definition AdaptDispatch_DoConEmuAction (str : wstring) : M bool := mret false.

(** *** The interface of the engine *)

Definition dispatch_call (c : DispatchCall) : M bool :=
  match c with
  | Print c => AdaptDispatch_Print c
  | PrintString str => AdaptDispatch_PrintString str
  | CursorUp n => AdaptDispatch_CursorUp n
  | CursorDown n => AdaptDispatch_CursorDown n
  | CursorForward n => AdaptDispatch_CursorForward n
  | CursorBackward n => AdaptDispatch_CursorBackward n
  | CursorNextLine n => AdaptDispatch_CursorNextLine n
  | CursorPrevLine n => AdaptDispatch_CursorPrevLine n
  | CursorHorizontalPositionAbsolute n => AdaptDispatch_CursorHorizontalPositionAbsolute n
  | VerticalLinePositionAbsolute n => AdaptDispatch_VerticalLinePositionAbsolute n
  | HorizontalPositionRelative n => AdaptDispatch_HorizontalPositionRelative n
  | VerticalPositionRelative n => AdaptDispatch_VerticalPositionRelative n
  | CursorPosition line column => AdaptDispatch_CursorPosition line column
  | CursorSaveState => AdaptDispatch_CursorSaveState
  | CursorRestoreState => AdaptDispatch_CursorRestoreState
  | InsertCharacter n => AdaptDispatch_InsertCharacter n
  | DeleteCharacter n => AdaptDispatch_DeleteCharacter n
  | ScrollUp n => AdaptDispatch_ScrollUp n
  | ScrollDown n => AdaptDispatch_ScrollDown n
  | InsertLine n => AdaptDispatch_InsertLine n
  | DeleteLine n => AdaptDispatch_DeleteLine n
  | SetKeypadMode b => AdaptDispatch_SetKeypadMode b
  | SetTopBottomScrollingMargins top bottom => AdaptDispatch_SetTopBottomScrollingMargins top bottom
  | WarningBell => AdaptDispatch_WarningBell
  | CarriageReturn => AdaptDispatch_CarriageReturn
  | LineFeed t => AdaptDispatch_LineFeed t
  | ReverseLineFeed => AdaptDispatch_ReverseLineFeed
  | SetWindowTitle title => AdaptDispatch_SetWindowTitle title
  | HorizontalTabSet => AdaptDispatch_HorizontalTabSet
  | ForwardTab n => AdaptDispatch_ForwardTab n
  | BackwardsTab n => AdaptDispatch_BackwardsTab n
  | TabClear t => AdaptDispatch_TabClear t
  | SetColorTableEntry tableIndex color => AdaptDispatch_SetColorTableEntry tableIndex color
  | OutputEngine.SetDefaultForeground color => AdaptDispatch_SetDefaultForeground color
  | OutputEngine.SetDefaultBackground color => AdaptDispatch_SetDefaultBackground color
  | EraseInDisplay t => AdaptDispatch_EraseInDisplay t
  | EraseInLine t => AdaptDispatch_EraseInLine t
  | EraseCharacters n => AdaptDispatch_EraseCharacters n
  | SetGraphicsRendition options => on_graphics (AdaptDispatch_SetGraphicsRendition options)
  | OutputEngine.SetLineRendition r => AdaptDispatch_SetLineRendition r
  | PushGraphicsRendition options => on_graphics (AdaptDispatch_PushGraphicsRendition options)
  | PopGraphicsRendition => on_graphics AdaptDispatch_PopGraphicsRendition
  | SetMode param => AdaptDispatch_SetMode param
  | ResetMode param => AdaptDispatch_ResetMode param
  | DeviceStatusReport t => AdaptDispatch_DeviceStatusReport t
  | DeviceAttributes => AdaptDispatch_DeviceAttributes
  | SecondaryDeviceAttributes => AdaptDispatch_SecondaryDeviceAttributes
  | TertiaryDeviceAttributes => AdaptDispatch_TertiaryDeviceAttributes
  | Vt52DeviceAttributes => AdaptDispatch_Vt52DeviceAttributes
  | RequestTerminalParameters p => AdaptDispatch_RequestTerminalParameters p
  | DesignateCodingSystem id => AdaptDispatch_DesignateCodingSystem id
  | Designate94Charset g id => AdaptDispatch_Designate94Charset g id
  | Designate96Charset g id => AdaptDispatch_Designate96Charset g id
  | LockingShift g => AdaptDispatch_LockingShift g
  | LockingShiftRight g => AdaptDispatch_LockingShiftRight g
  | SingleShift g => AdaptDispatch_SingleShift g
  | SoftReset => AdaptDispatch_SoftReset
  | HardReset => AdaptDispatch_HardReset
  | ScreenAlignmentPattern => AdaptDispatch_ScreenAlignmentPattern
  | SetCursorStyle s => AdaptDispatch_SetCursorStyle s
  | SetCursorColor color => AdaptDispatch_SetCursorColor color
  | SetClipboard content => AdaptDispatch_SetClipboard content
  | WindowManipulation f p1 p2 => AdaptDispatch_WindowManipulation f p1 p2
  | AddHyperlink uri params => AdaptDispatch_AddHyperlink uri params
  | EndHyperlink => AdaptDispatch_EndHyperlink
  | DoConEmuAction str => AdaptDispatch_DoConEmuAction str
  end.
End dispatch.
