(* ===== verification/AdaptFacts.v ===== *)
(** What the adapter promises, for every console that keeps the laws of
    [ConsoleLaws]. *)

From stdpp Require Import strings.
From S2P Require Import Prelude DispatchTypes OutputEngine TextColor TextAttribute SgrStack Sgr Viewport OutputCell CharRow Row Cursor InputEvent TerminalOutput AdaptDispatch.

(** ** The console

    The console has a size, a cursor in it, and a window of rows; [MoveToBottom]
    brings the window back to where the output is ([con_vtop], [con_vbot]) when
    the user has scrolled it.  Windows end before their bottom row.  A line of
    double width has fewer columns than the console. *)

(** Arguments that every implementation accepts. *)
Definition con_call_ok (k : ConCall) : Prop :=
  match k with
  | InsertLines count | DeleteLines count => 0 <= count <= 32767
  | _ => True
  end.

(** Calls that can change the size of the buffer. *)
Definition resizes (k : ConCall) : bool :=
  match k with
  | SetConsoleScreenBufferInfoEx _ | PrivateUseAlternateScreenBuffer | PrivateUseMainScreenBuffer => true
  | _ => false
  end.

Class ConsoleLaws (C : Type) `{ConGetSet C} `{ConsoleApi C} `{AdaptDefaults C} := {
  con_ok : C → Prop;
  con_size : C → COORD;
  con_cursor : C → COORD;
  con_top : C → Z;
  con_bot : C → Z;
  con_vtop : C → Z;
  con_vbot : C → Z;
  con_attrs : C → TextAttribute;
  con_codepage : C → Z;
  con_width : Z → C → Z;
  con_replies : C → list IInputEvent;

  law_geometry c : con_ok c →
    0 < X (con_size c) <= 32767 ∧ 0 < Y (con_size c) <= 32767
    ∧ 0 <= X (con_cursor c) < X (con_size c) ∧ 0 <= Y (con_cursor c) < Y (con_size c)
    ∧ 0 <= con_top c < con_bot c ∧ con_bot c <= Y (con_size c)
    ∧ 0 <= con_vtop c < con_vbot c ∧ con_vbot c <= Y (con_size c);
  law_width c y : con_ok c → 0 <= y < Y (con_size c) → 1 <= con_width y c <= X (con_size c);

  law_info c : con_ok c →
    wp GetConsoleScreenBufferInfoEx (λ r c', r.1 = true ∧ c' = c ∧ dwSize r.2 = con_size c
      ∧ dwCursorPosition r.2 = con_cursor c ∧ rTop (srWindow r.2) = con_top c ∧ rBottom (srWindow r.2) = con_bot c) c;
  law_get_width c y : con_ok c → 0 <= y < Y (con_size c) →
    PrivateGetLineWidth y c = Ok (con_width y c) c;
  law_vt_input c : con_ok c → wp PrivateIsVtInputEnabled (λ _ c', c' = c) c;
  law_feed_mode c : con_ok c → wp PrivateGetLineFeedMode (λ _ c', c' = c) c;
  law_style c : con_ok c → wp GetUserDefaultCursorStyle (λ _ c', c' = c) c;
  law_codepage c : con_ok c → wp GetConsoleOutputCP (λ r c', c' = c ∧ r.2 = con_codepage c) c;
  law_pty c : con_ok c → wp IsConsolePty (λ _ c', c' = c) c;

  law_get_attrs c : con_ok c → PrivateGetTextAttributes c = (true, con_attrs c, c);
  law_set_attrs c a : con_ok c → ∃ c', PrivateSetTextAttributes a c = (true, c') ∧ con_ok c'
    ∧ con_attrs c' = a ∧ con_size c' = con_size c ∧ con_cursor c' = con_cursor c
    ∧ con_vtop c' = con_vtop c ∧ con_vbot c' = con_vbot c ∧ con_codepage c' = con_codepage c
    ∧ con_replies c' = con_replies c;

  law_call c k : con_ok c → con_call_ok k →
    wp (con_call k) (λ _ c', con_ok c' ∧ (resizes k = false → con_size c' = con_size c)) c;
  law_print c w : con_ok c → wp (Defaults_Print w) (λ _ c', con_ok c') c;
  law_print_string c s : con_ok c → wp (Defaults_PrintString s) (λ _ c', con_ok c') c;

  law_bottom c : con_ok c →
    wp (con_call MoveToBottom) (λ ok c', ok = true ∧ con_ok c'
      ∧ con_top c' = con_vtop c ∧ con_bot c' = con_vbot c
      ∧ con_vtop c' = con_vtop c ∧ con_vbot c' = con_vbot c
      ∧ con_size c' = con_size c ∧ con_cursor c' = con_cursor c ∧ con_attrs c' = con_attrs c
      ∧ con_codepage c' = con_codepage c ∧ con_replies c' = con_replies c ∧ ∀ y, con_width y c' = con_width y c) c;
  law_cursor c p : con_ok c →
    0 <= X p < X (con_size c) → con_vtop c <= Y p < con_vbot c →
    wp (con_call (SetConsoleCursorPosition p)) (λ ok c', ok = true ∧ con_ok c'
      ∧ con_cursor c' = mkCOORD (Z.min (X p) (con_width (Y p) c - 1)) (Y p)
      ∧ con_vtop c' = con_vtop c ∧ con_vbot c' = con_vbot c
      ∧ con_size c' = con_size c ∧ con_attrs c' = con_attrs c
      ∧ con_codepage c' = con_codepage c ∧ con_replies c' = con_replies c ∧ ∀ y, con_width y c' = con_width y c) c;
  law_codepage_set c cp : con_ok c →
    wp (con_call (SetConsoleOutputCP cp)) (λ ok c', ok = true ∧ con_ok c' ∧ con_codepage c' = cp
      ∧ con_cursor c' = con_cursor c ∧ con_attrs c' = con_attrs c ∧ con_size c' = con_size c
      ∧ con_vtop c' = con_vtop c ∧ con_vbot c' = con_vbot c ∧ con_replies c' = con_replies c) c;
  law_reply c events : con_ok c →
    wp (con_call (PrivateWriteConsoleInputW events)) (λ ok c', ok = true ∧ con_ok c'
      ∧ con_replies c' = con_replies c ++ events
      ∧ con_cursor c' = con_cursor c ∧ con_attrs c' = con_attrs c ∧ con_size c' = con_size c
      ∧ con_vtop c' = con_vtop c ∧ con_vbot c' = con_vbot c) c;
  law_columns c : con_ok c →
    wp GetConsoleScreenBufferInfoEx (λ r _, 0 <= rLeft (srWindow r.2) < rRight (srWindow r.2)
      ∧ rRight (srWindow r.2) <= X (con_size c)) c
}.

(** ** The invariant *)

Definition output_ok (o : TerminalOutput) : Prop := ∃ i, represents o i.

Definition margins_ok (m : SMALL_RECT) : Prop :=
  (rTop m = 0 ∧ rBottom m = 0) ∨ 0 <= rTop m < rBottom m ∧ rBottom m < 32767.

(** A saved position fits an [int], also when the row is above the window. *)
Definition saved_ok (s : CursorState) : Prop :=
  -32768 <= i32 (cs_Row s) <= 32768 ∧ -32768 <= i32 (cs_Column s) <= 32768 ∧ output_ok (cs_TermOutput s).

Section facts.
Context {C : Type} `{ConsoleLaws C}.

#[local] Abbreviation console a := (_pConApi (_graphics a)).
#[local] Abbreviation M := (prog (AdaptDispatch C)).

Record adapt_ok (a : AdaptDispatch C) : Prop := {
  ok_console : con_ok (console a);
  ok_stack : ∃ l, holds (_sgrStack (_graphics a)) l;
  ok_tabs : Z.of_nat (length (_tabStopColumns a)) <= 32767;
  ok_output : output_ok (_termOutput a);
  ok_saved : saved_ok (_savedCursorState a).1 ∧ saved_ok (_savedCursorState a).2;
  ok_margins : margins_ok (_scrollMargins a)
}.

Lemma init_output_ok : output_ok TerminalOutput_init.
Proof. exists iso_init. apply represents_init. Qed.

Lemma init_saved_ok : saved_ok CursorState_init.
Proof. split; [vm_compute; split; discriminate|]. split; [vm_compute; split; discriminate|]. apply init_output_ok. Qed.

Lemma adapt_ok_init (c : C) : con_ok c → adapt_ok (AdaptDispatch_init c).
Proof.
  intros Hc. split; cbn; try done.
  - exists []. split; [done|]. split; [done|]. cbn. lia.
  - apply init_output_ok.
  - split; apply init_saved_ok.
  - by left.
Qed.

Section keeps.
Context (a : AdaptDispatch C) (Ha : adapt_ok a).

Lemma keep_console c s : con_ok c → (∃ l, holds s l) → adapt_ok (set_graphics (mkAdaptGraphics c s) a).
Proof using Ha. destruct Ha. by split. Qed.
Lemma keep_tabs tabs init : Z.of_nat (length tabs) <= 32767 → adapt_ok (set_tabs tabs init a).
Proof using Ha. destruct Ha. by split. Qed.
Lemma keep_output o : output_ok o → adapt_ok (set_termOutput o a).
Proof using Ha. destruct Ha. by split. Qed.
Lemma keep_codepage cp : adapt_ok (set_initialCodePage cp a).
Proof using Ha. destruct Ha. by split. Qed.
Lemma keep_saved s : saved_ok s.1 → saved_ok s.2 → adapt_ok (set_saved s a).
Proof using Ha. destruct Ha. by split. Qed.
Lemma keep_current_saved s : saved_ok s → adapt_ok (set_current_saved s a).
Proof using Ha. destruct Ha as [? ? ? ? [? ?] ?]. intros. unfold set_current_saved. by case_match; split. Qed.
Lemma keep_alt b : adapt_ok (set_alt b a).
Proof using Ha. destruct Ha. by split. Qed.
Lemma keep_origin b : adapt_ok (set_origin b a).
Proof using Ha. destruct Ha. by split. Qed.
Lemma keep_deccolm b : adapt_ok (set_deccolm b a).
Proof using Ha. destruct Ha. by split. Qed.
Lemma keep_margins m : margins_ok m → adapt_ok (set_margins m a).
Proof using Ha. destruct Ha. by split. Qed.
End keeps.

(** ** Rules *)

Lemma wp_part {W V A} (get : W → V) (set : V → W → W) (m : prog V A) (Q : A → W → Prop) w :
  wp m (λ x v, Q x (set v w)) (get w) → wp (on_part get set m) Q w.
Proof. unfold wp, on_part. by destruct (m (get w)). Qed.

Lemma wp_console {A} (m : prog C A) (Q : A → AdaptDispatch C → Prop) a :
  wp m (λ x c, Q x (set_graphics (mkAdaptGraphics c (_sgrStack (_graphics a))) a)) (console a) →
  wp (on_console m) Q a.
Proof. intros Hm. unfold on_console. by apply wp_part. Qed.

Lemma wp_con_call k (Q : bool → AdaptDispatch C → Prop) a :
  adapt_ok a → con_call_ok k →
  (∀ ok a', adapt_ok a' → (resizes k = false → con_size (console a') = con_size (console a)) → Q ok a') →
  wp (call k) Q a.
Proof.
  intros Ha Hk HQ. apply wp_console. eapply wp_mono; [by apply law_call; [apply Ha|]|].
  intros ok c [Hc Hs]. apply HQ; [|done]. apply keep_console; [done|done|apply Ha].
Qed.

Lemma set_graphics_same (a : AdaptDispatch C) : set_graphics (mkAdaptGraphics (console a) (_sgrStack (_graphics a))) a = a.
Proof. by destruct a as [[] ? ? ? ? ? ? ? ? ?]. Qed.

(** What the adapter can rely on in the information of the console. *)
Definition info_ok (c : C) (i : CONSOLE_SCREEN_BUFFER_INFOEX) : Prop :=
  dwSize i = con_size c ∧ dwCursorPosition i = con_cursor c
  ∧ rTop (srWindow i) = con_top c ∧ rBottom (srWindow i) = con_bot c.

Lemma wp_info (Q : bool * CONSOLE_SCREEN_BUFFER_INFOEX → AdaptDispatch C → Prop) a :
  adapt_ok a → (∀ i, info_ok (console a) i → Q (true, i) a) → wp get_info Q a.
Proof.
  intros Ha HQ. apply wp_console. eapply wp_mono; [apply law_info, Ha|].
  intros [ok i] c (E & -> & Hi). cbn in E. subst ok. rewrite set_graphics_same. by apply HQ.
Qed.

(** A getter of the console changes nothing. *)
Lemma wp_get {A} (m : prog C A) (P : A → Prop) (Q : A → AdaptDispatch C → Prop) a :
  wp m (λ r c', c' = console a ∧ P r) (console a) → (∀ r, P r → Q r a) → wp (on_console m) Q a.
Proof.
  intros Hm HQ. apply wp_console. eapply wp_mono; [exact Hm|]. intros r c [-> Hr]. rewrite set_graphics_same. by apply HQ.
Qed.

(** After [MoveToBottom] nothing but the window may be different. *)
Definition moved_to_bottom (a a' : AdaptDispatch C) : Prop :=
  (∃ c, a' = set_graphics (mkAdaptGraphics c (_sgrStack (_graphics a))) a)
  ∧ con_top (console a') = con_vtop (console a) ∧ con_bot (console a') = con_vbot (console a)
  ∧ con_vtop (console a') = con_vtop (console a) ∧ con_vbot (console a') = con_vbot (console a)
  ∧ con_size (console a') = con_size (console a) ∧ con_cursor (console a') = con_cursor (console a)
  ∧ con_attrs (console a') = con_attrs (console a) ∧ con_codepage (console a') = con_codepage (console a)
  ∧ con_replies (console a') = con_replies (console a)
  ∧ ∀ y, con_width y (console a') = con_width y (console a).

Lemma wp_bottom_info (Q : bool * CONSOLE_SCREEN_BUFFER_INFOEX → AdaptDispatch C → Prop) a :
  adapt_ok a →
  (∀ i a', adapt_ok a' → info_ok (console a') i → moved_to_bottom a a' → Q (true, i) a') →
  wp bottom_info Q a.
Proof.
  intros Ha HQ. unfold bottom_info. apply wp_bind, wp_console. eapply wp_mono; [apply law_bottom, Ha|].
  cbv beta. intros ok c (-> & Hc & Hrest). set (a' := set_graphics _ _).
  assert (adapt_ok a') as Ha' by (apply keep_console; [done|done|apply Ha]).
  apply wp_info; [done|]. intros i Hi. apply HQ; [done|done|]. split; [by eexists|exact Hrest].
Qed.

(** ** Moving the cursor *)

(** The first and the last row that the cursor can reach from where it is: the
    margins bound it if they are set, are to be respected, and do not lie behind
    it. *)
Definition first_row (a : AdaptDispatch C) (inMargins : bool) : Z :=
  let c := console a in let m := _scrollMargins a in
  if (rTop m <? rBottom m) && (inMargins || _isOriginModeRelative a) && (con_vtop c + rTop m <=? Y (con_cursor c))
  then con_vtop c + rTop m else con_vtop c.

Definition last_row (a : AdaptDispatch C) (inMargins : bool) : Z :=
  let c := console a in let m := _scrollMargins a in
  if (rTop m <? rBottom m) && (inMargins || _isOriginModeRelative a) && (Y (con_cursor c) <=? con_vtop c + rBottom m)
  then con_vtop c + rBottom m else con_vbot c - 1.

(** The position a movement asks for. *)
Definition asked_row (a : AdaptDispatch C) (o : Offset) : Z :=
  oValue o + (if IsAbsolute o
              then if _isOriginModeRelative a then con_vtop (console a) + rTop (_scrollMargins a) else con_vtop (console a)
              else Y (con_cursor (console a))).

Definition asked_column (a : AdaptDispatch C) (o : Offset) : Z :=
  oValue o + (if IsAbsolute o then 0 else X (con_cursor (console a))).

(** The margins are inside the page. *)
Definition margins_fit (a : AdaptDispatch C) : Prop :=
  con_vtop (console a) + rBottom (_scrollMargins a) < con_vbot (console a).

(** Only the cursor is different. *)
Definition only_cursor (a a' : AdaptDispatch C) : Prop :=
  (∃ c, a' = set_graphics (mkAdaptGraphics c (_sgrStack (_graphics a))) a)
  ∧ con_vtop (console a') = con_vtop (console a) ∧ con_vbot (console a') = con_vbot (console a)
  ∧ con_size (console a') = con_size (console a)
  ∧ con_attrs (console a') = con_attrs (console a) ∧ con_codepage (console a') = con_codepage (console a)
  ∧ con_replies (console a') = con_replies (console a)
  ∧ ∀ y, con_width y (console a') = con_width y (console a).

Definition small_offset (o : Offset) : Prop := -65536 <= oValue o <= 65536.

Lemma std_clamp_ok x lo hi : lo <= hi → std_clamp x lo hi = Z.max lo (Z.min x hi).
Proof. intros. unfold std_clamp. destruct (Z.ltb_spec x lo); [lia|]. destruct (Z.ltb_spec hi x); lia. Qed.

Lemma wp_int {W} z (Q : Z → W → Prop) w : - 2 ^ 31 <= z < 2 ^ 31 → Q z w → wp (int_of z) Q w.
Proof.
  intros Hz HQ. unfold int_of. rewrite (proj2 (Z.leb_le _ _)), (proj2 (Z.ltb_lt _ _)) by lia. exact HQ.
Qed.

Lemma wp_clamp {W} x lo hi (Q : Z → W → Prop) w : lo <= hi → Q (Z.max lo (Z.min x hi)) w → wp (checked_clamp x lo hi) Q w.
Proof.
  intros Hl HQ. unfold checked_clamp. rewrite (proj2 (Z.ltb_ge _ _)) by lia. by rewrite std_clamp_ok.
Qed.

(** The row after the movement: the one asked for, as far as it is in the page and
    the margins that bind the cursor allow it. *)
Definition target_row (a : AdaptDispatch C) (ro : Offset) (inMargins : bool) : Z :=
  let c := console a in let m := _scrollMargins a in
  let row := Z.max (con_vtop c) (Z.min (asked_row a ro) (con_vbot c - 1)) in
  if (rTop m <? rBottom m) && (inMargins || _isOriginModeRelative a) then
    let row := if con_vtop c + rTop m <=? Y (con_cursor c) then Z.max row (con_vtop c + rTop m) else row in
    if Y (con_cursor c) <=? con_vtop c + rBottom m then Z.min row (con_vtop c + rBottom m) else row
  else row.

(** The movement up to the call that sets the cursor. *)
Lemma move_to ro co inMargins a (Q : bool → AdaptDispatch C → Prop) :
  adapt_ok a → small_offset ro → small_offset co →
  (∀ a' p, adapt_ok a' → moved_to_bottom a a' →
     X p = Z.max 0 (Z.min (asked_column a co) (X (con_size (console a)) - 1)) →
     Y p = i16 (target_row a ro inMargins) →
     wp (call (SetConsoleCursorPosition p)) Q a') →
  wp (_CursorMovePosition ro co inMargins) Q a.
Proof.
  intros Ha Hro Hco HQ. unfold _CursorMovePosition. wp_step. apply wp_bottom_info; [done|].
  intros i a' Ha' (Hsz & Hcur & Ht & Hb) Hm. cbv beta iota. pose proof Hm as Hm'.
  destruct Hm' as ((c & Ec) & Ht' & Hb' & Hvt & Hvb & Hs & Hc & _).
  destruct (law_geometry _ (ok_console a' Ha')) as (Gx & Gy & Gcx & Gcy & Gw & Gw' & Gv & Gv').
  assert (_scrollMargins a' = _scrollMargins a ∧ _isOriginModeRelative a' = _isOriginModeRelative a) as [Em Eo]
    by (by subst a').
  assert (0 <= rTop (_scrollMargins a) < 32767 ∧ 0 <= rBottom (_scrollMargins a) < 32767) as Hmr.
  { destruct (ok_margins a Ha) as [[? ?]|?]; lia. }
  unfold small_offset in *. rewrite Ht' in *. rewrite Hb', Hvt, Hvb, Hs, Hc in *.
  repeat (wp_step; cbv beta). rewrite Em, Eo, Hsz, Hcur, Ht, Hb.
  apply wp_int. { repeat case_match; lia. }
  wp_step. apply wp_clamp; [lia|]. wp_step. apply wp_int. { repeat case_match; lia. }
  wp_step. apply wp_clamp; [lia|].
  assert ((con_vtop (console a) + rTop (_scrollMargins a) <? con_vtop (console a) + rBottom (_scrollMargins a))
          = (rTop (_scrollMargins a) <? rBottom (_scrollMargins a))) as -> by (apply eq_true_iff_eq; lia).
  rewrite !Z.geb_leb. apply HQ; [done|done|cbn|cbn].
  - unfold asked_column. rewrite wraps_small by (repeat case_match; lia). rewrite Z.add_comm. done.
  - unfold target_row, asked_row. cbv zeta. by rewrite (Z.add_comm (oValue ro)).
Qed.

(** A position on its line: lines of double width have fewer columns. *)
Definition at_line (a : AdaptDispatch C) (p : COORD) : COORD :=
  mkCOORD (Z.min (X p) (con_width (Y p) (console a) - 1)) (Y p).

Lemma margins_range (a : AdaptDispatch C) : adapt_ok a →
  0 <= rTop (_scrollMargins a) <= rBottom (_scrollMargins a) ∧ rBottom (_scrollMargins a) < 32767.
Proof. intros Ha. destruct (ok_margins a Ha) as [[? ?]|?]; lia. Qed.

Lemma rows_range (a : AdaptDispatch C) b : adapt_ok a → margins_fit a →
  con_vtop (console a) <= first_row a b <= last_row a b ∧ last_row a b < con_vbot (console a).
Proof.
  intros Ha Hf. pose proof (margins_range a Ha). destruct (law_geometry _ (ok_console a Ha)) as (_ & _ & _ & _ & _ & _ & Gv & _).
  unfold margins_fit, first_row, last_row in *. repeat case_match; zify_bool; lia.
Qed.

Lemma target_row_between (a : AdaptDispatch C) ro b : adapt_ok a → margins_fit a →
  target_row a ro b = Z.max (first_row a b) (Z.min (asked_row a ro) (last_row a b)).
Proof.
  intros Ha Hf. pose proof (margins_range a Ha). pose proof (rows_range a b Ha Hf) as Hr.
  destruct (law_geometry _ (ok_console a Ha)) as (_ & _ & _ & _ & _ & _ & Gv & _).
  unfold margins_fit, first_row, last_row, target_row in *. cbv zeta in *.
  generalize dependent (asked_row a ro). intros asked.
  destruct ((rTop (_scrollMargins a) <? rBottom (_scrollMargins a)) && (b || _isOriginModeRelative a));
    cbn [andb] in *; [|lia]. repeat case_match; zify_bool; lia.
Qed.

(** What a movement does to the cursor, and that it does nothing else. *)
Lemma move_exact ro co inMargins a : adapt_ok a → margins_fit a → small_offset ro → small_offset co →
  wp (_CursorMovePosition ro co inMargins)
    (λ ok a', ok = true ∧ adapt_ok a' ∧ only_cursor a a'
       ∧ con_cursor (console a') = at_line a (mkCOORD
           (Z.max 0 (Z.min (asked_column a co) (X (con_size (console a)) - 1)))
           (Z.max (first_row a inMargins) (Z.min (asked_row a ro) (last_row a inMargins))))) a.
Proof.
  intros Ha Hf Hro Hco. apply move_to; [done..|]. intros a' [x y] Ha' Hm Hx Hy. cbn in Hx, Hy.
  pose proof (rows_range a inMargins Ha Hf) as Hr. rewrite target_row_between in Hy by done.
  destruct (law_geometry _ (ok_console a Ha)) as (Gx & Gy & _ & _ & _ & _ & Gv & Gv').
  rewrite wraps_small in Hy by lia. subst x y.
  destruct Hm as ((c & Ec) & _ & _ & Hvt & Hvb & Hs & _ & Hat & Hcp & Hrep & Hw).
  apply wp_console. eapply wp_mono; [apply law_cursor; [apply Ha'|cbn; rewrite ?Hs, ?Hvt, ?Hvb; lia..]|]. cbv beta.
  intros ok c' (-> & Hc' & Hcur & Hvt' & Hvb' & Hs' & Hat' & Hcp' & Hrep' & Hw').
  split; [done|]. split; [apply keep_console; [done|done|apply Ha']|]. split.
  - split; [by eexists; rewrite Ec|]. cbn. split; [congruence|]. split; [congruence|]. split; [congruence|].
    split; [congruence|]. split; [congruence|]. split; [congruence|]. intros y. by rewrite Hw', Hw.
  - cbn. rewrite Hcur. unfold at_line. cbn. by rewrite Hw.
Qed.

Lemma move_safe ro co inMargins a : adapt_ok a → small_offset ro → small_offset co →
  wp (_CursorMovePosition ro co inMargins) (λ _ a', adapt_ok a') a.
Proof. intros Ha Hro Hco. apply move_to; [done..|]. intros a' p Ha' _ _ _. by apply wp_con_call. Qed.

Lemma offsets_small n : 0 <= n <= 65535 →
  oValue (Offset_Absolute n) = n - 1 ∧ oValue (Offset_Forward n) = n ∧ oValue (Offset_Backward n) = - n.
Proof. intros Hn. cbn. rewrite wraps_small by lia. lia. Qed.
End facts.
