(* ===== verification/AdaptSafe.v ===== *)
(** The adapter handles every call of the output engine: no exception leaves it,
    and its invariant is kept. *)

From stdpp Require Import strings.
From S2P Require Import Prelude DispatchTypes OutputEngine OutputFacts TextColor TextAttribute SgrStack Sgr Viewport OutputCell CharRow Row Cursor InputEvent TerminalOutput AdaptDispatch AdaptFacts.

Section safe.
Context {C : Type} `{ConsoleLaws C}.

#[local] Abbreviation console a := (_pConApi (_graphics a)).
#[local] Abbreviation M := (prog (AdaptDispatch C)).

(** A program that returns and keeps the invariant. *)
Definition safe {A} (m : M A) : Prop := ∀ a, adapt_ok a → wp m (λ _ a', adapt_ok a') a.

Lemma safe_ret {A} (x : A) : safe (mret x).
Proof. by intros a Ha. Qed.

Lemma safe_bind {A B} (m : M A) (f : A → M B) : safe m → (∀ x, safe (f x)) → safe (m ≫= f).
Proof. intros Hm Hf a Ha. apply wp_bind. eapply wp_mono; [by apply Hm|]. intros x a' Ha'. by apply Hf. Qed.

Lemma safe_gets {A B} (f : AdaptDispatch C → A) (k : A → M B) :
  (∀ a, adapt_ok a → wp (k (f a)) (λ _ a', adapt_ok a') a) → safe (gets f ≫= k).
Proof. intros Hk a Ha. apply wp_bind, wp_gets. by apply Hk. Qed.

Lemma safe_modify (f : AdaptDispatch C → AdaptDispatch C) : (∀ a, adapt_ok a → adapt_ok (f a)) → safe (modify f).
Proof. intros Hf a Ha. by apply Hf. Qed.

Lemma safe_call k : con_call_ok k → safe (call k).
Proof. intros Hk a Ha. by apply wp_con_call. Qed.

Lemma safe_and_also (m1 m2 : M bool) : safe m1 → safe m2 → safe (and_also m1 m2).
Proof. intros Hm1 Hm2. apply safe_bind; [done|]. intros []; [done|apply safe_ret]. Qed.

Lemma safe_also (m : M bool) b : safe m → safe (also m b).
Proof. intros Hm. apply safe_bind; [done|]. intros x. apply safe_ret. Qed.

Lemma safe_if {A} (b : bool) (m1 m2 : M A) : safe m1 → safe m2 → safe (if b then m1 else m2).
Proof. by destruct b. Qed.

Lemma safe_getter {A} (m : prog C A) : (∀ c, con_ok c → wp m (λ _ c', c' = c) c) → safe (on_console m).
Proof.
  intros Hm a Ha. apply (wp_get m (λ _, True)); [|done].
  eapply wp_mono; [apply Hm, Ha|]. by intros r c ->.
Qed.

Lemma safe_pty : safe (on_console IsConsolePty).
Proof. apply safe_getter. intros c Hc. by apply law_pty. Qed.
Lemma safe_vt_input : safe (on_console PrivateIsVtInputEnabled).
Proof. apply safe_getter. intros c Hc. by apply law_vt_input. Qed.
Lemma safe_feed_mode : safe (on_console PrivateGetLineFeedMode).
Proof. apply safe_getter. intros c Hc. by apply law_feed_mode. Qed.
Lemma safe_style : safe (on_console GetUserDefaultCursorStyle).
Proof. apply safe_getter. intros c Hc. by apply law_style. Qed.
Lemma safe_codepage : safe (on_console GetConsoleOutputCP).
Proof. apply safe_getter. intros c Hc. eapply wp_mono; [by apply law_codepage|]. by intros r c' [-> _]. Qed.

(** What is known of the information of the console. *)
Definition info_range (i : CONSOLE_SCREEN_BUFFER_INFOEX) : Prop :=
  0 < X (dwSize i) <= 32767 ∧ 0 < Y (dwSize i) <= 32767
  ∧ 0 <= X (dwCursorPosition i) < X (dwSize i) ∧ 0 <= Y (dwCursorPosition i) < Y (dwSize i)
  ∧ 0 <= rTop (srWindow i) < rBottom (srWindow i) ∧ rBottom (srWindow i) <= Y (dwSize i).

Lemma info_ok_range a i : adapt_ok a → info_ok (console a) i → info_range i.
Proof.
  intros Ha (Hs & Hc & Ht & Hb). destruct (law_geometry _ (ok_console a Ha)) as (? & ? & ? & ? & ? & ? & _).
  unfold info_range. rewrite Hs, Hc, Ht, Hb. done.
Qed.

(** After asking, the rest has to be safe where the information holds. *)
Definition safe_with {A} (i : CONSOLE_SCREEN_BUFFER_INFOEX) (m : M A) : Prop :=
  info_range i → ∀ a, adapt_ok a → dwSize i = con_size (console a) → wp m (λ _ a', adapt_ok a') a.

Lemma safe_info {A} (f : bool * CONSOLE_SCREEN_BUFFER_INFOEX → M A) :
  (∀ i, safe_with i (f (true, i))) → safe (get_info ≫= f).
Proof.
  intros Hf a Ha. apply wp_bind, wp_info; [done|]. intros i Hi.
  apply Hf; [by eapply info_ok_range|done|apply Hi].
Qed.

Lemma safe_bottom_info {A} (f : bool * CONSOLE_SCREEN_BUFFER_INFOEX → M A) :
  (∀ i, safe_with i (f (true, i))) → safe (bottom_info ≫= f).
Proof.
  intros Hf a Ha. apply wp_bind, wp_bottom_info; [done|]. intros i a' Ha' Hi _.
  apply Hf; [by eapply info_ok_range|done|apply Hi].
Qed.

Lemma safe_weaken {A} i (m : M A) : (info_range i → safe m) → safe_with i m.
Proof. intros Hm Hi a Ha _. by apply Hm. Qed.
End safe.

Create HintDb safe.
#[export] Hint Resolve safe_ret safe_call safe_and_also safe_also safe_if safe_pty safe_vt_input safe_feed_mode
  safe_style safe_codepage keep_origin keep_deccolm keep_alt keep_codepage : safe.
#[export] Hint Extern 1 (con_call_ok _) => exact I : safe.
#[export] Hint Extern 2 (safe (_ ≫= _)) => (apply safe_bind; [|intros ?]) : safe.
#[export] Hint Extern 2 (safe (modify _)) => (apply safe_modify; intros ? ?) : safe.

Section operations.
Context {C : Type} `{ConsoleLaws C}.

#[local] Abbreviation console a := (_pConApi (_graphics a)).
#[local] Abbreviation M := (prog (AdaptDispatch C)).

(** *** Attributes *)

Lemma get_attributes_ok (g : AdaptGraphics C) : con_ok (_pConApi g) →
  get_attributes g = Ok (true, con_attrs (_pConApi g)) g.
Proof. intros Hc. unfold get_attributes. rewrite law_get_attrs by done. by destruct g. Qed.

Lemma set_attributes_ok attr (g : AdaptGraphics C) : con_ok (_pConApi g) →
  ∃ c, set_attributes attr g = Ok true (mkAdaptGraphics c (_sgrStack g)) ∧ con_ok c ∧ con_attrs c = attr
    ∧ con_size c = con_size (_pConApi g) ∧ con_cursor c = con_cursor (_pConApi g)
    ∧ con_vtop c = con_vtop (_pConApi g) ∧ con_vbot c = con_vbot (_pConApi g)
    ∧ con_codepage c = con_codepage (_pConApi g) ∧ con_replies c = con_replies (_pConApi g).
Proof.
  intros Hc. destruct (law_set_attrs _ attr Hc) as (c & E & Hrest). exists c. split; [|done].
  unfold set_attributes. by rewrite E.
Qed.

Lemma get_attrs_ok (a : AdaptDispatch C) : adapt_ok a → get_attrs a = Ok (true, con_attrs (console a)) a.
Proof.
  intros Ha. unfold get_attrs, on_graphics, on_part. rewrite get_attributes_ok by apply Ha. f_equal.
  by destruct a.
Qed.

Lemma safe_get_attrs : safe (get_attrs (C := C)).
Proof. intros a Ha. unfold wp. by rewrite get_attrs_ok. Qed.

Lemma safe_set_attrs attr : safe (set_attrs (C := C) attr).
Proof.
  intros a Ha. apply wp_part. destruct (set_attributes_ok attr (_graphics a) (ok_console a Ha)) as (c & E & Hc & _).
  eapply wp_of_ok; [exact E|]. apply keep_console; [done|done|apply Ha].
Qed.

Lemma safe_sgr options : safe (on_graphics (C := C) (AdaptDispatch_SetGraphicsRendition options)).
Proof.
  intros a Ha. apply wp_part. unfold AdaptDispatch_SetGraphicsRendition. wp_step.
  eapply wp_of_ok; [apply get_attributes_ok, Ha|]. cbv beta iota.
  assert (∃ x, apply_options options (con_attrs (console a)) = inr x) as [x ->]
    by (apply sgr_loop_total; unfold params_size; lia).
  destruct (set_attributes_ok x (_graphics a) (ok_console a Ha)) as (c & E & Hc & _).
  eapply wp_of_ok; [exact E|]. apply keep_console; [done|done|apply Ha].
Qed.

Lemma safe_push options : safe (on_graphics (C := C) (AdaptDispatch_PushGraphicsRendition options)).
Proof.
  intros a Ha. apply wp_part. unfold AdaptDispatch_PushGraphicsRendition. wp_step.
  eapply wp_of_ok; [apply get_attributes_ok, Ha|]. cbv beta iota. wp_step.
  destruct (ok_stack a Ha) as [l Hl]. destruct (Push_refines (con_attrs (console a)) options _ _ Hl) as (st & E & Hst).
  eapply (wp_of_ok _ _ _ tt (mkAdaptGraphics (console a) st)); [unfold on_stack; by rewrite E|].
  apply keep_console; [done|apply Ha|by eexists].
Qed.

Lemma safe_pop : safe (on_graphics (C := C) AdaptDispatch_PopGraphicsRendition).
Proof.
  intros a Ha. apply wp_part. unfold AdaptDispatch_PopGraphicsRendition. wp_step.
  eapply wp_of_ok; [apply get_attributes_ok, Ha|]. cbv beta iota. wp_step.
  destruct (ok_stack a Ha) as [l Hl]. destruct (Pop_refines (con_attrs (console a)) _ _ Hl) as (st & E & Hst).
  eapply (wp_of_ok _ _ _ _ (mkAdaptGraphics (console a) st)); [unfold on_stack; by rewrite E|]. cbv beta.
  destruct (set_attributes_ok (abs_pop (con_attrs (console a)) l).1 (mkAdaptGraphics (console a) st) (ok_console a Ha))
    as (c & Es & Hc & _).
  eapply wp_of_ok; [exact Es|]. apply keep_console; [done|done|by eexists].
Qed.

(** *** Character sets *)

Lemma safe_output {A} (m : prog TerminalOutput A) :
  (∀ o, output_ok o → wp m (λ _ o', output_ok o') o) → safe (on_output (C := C) m).
Proof.
  intros Hm a Ha. apply wp_part. eapply wp_mono; [apply Hm, Ha|]. intros x o Ho. by apply keep_output.
Qed.

Lemma output_safe op : op_ok op → ∀ o, output_ok o → wp (output_step op) (λ _ o', output_ok o') o.
Proof.
  intros Hop o [i Hi]. eapply wp_mono; [by apply output_step_ok|]. intros r o' [_ Ho]. by eexists.
Qed.

(** The result of an operation does not matter for its safety. *)
Lemma wp_result {W A B} (m : prog W A) (f : A → B) (Q : W → Prop) w :
  wp (r ← m; mret (f r)) (λ _, Q) w → wp m (λ _, Q) w.
Proof. unfold wp, mbind, prog_bind. by destruct (m w). Qed.

Lemma translate_ok c o : output_ok o → output_ok (TranslateKey c o).2.
Proof.
  intros [i Hi]. exists (mkIso (i_sets i) (i_gl i) (i_gr i) None (i_upper i)).
  destruct Hi as [? ? [? ?] [? ?] ? Hs ? ?]. unfold TranslateKey.
  destruct (_ssTranslationTable o) as [t|] eqn:Et.
  - change (view_empty (Some t)) with false. by split.
  - change (view_empty None) with true. by split.
Qed.

Lemma translate_all_ok s o : output_ok o → output_ok (translate_all s o).2.
Proof.
  revert o. induction s as [|c s IH]; intros o Ho; cbn [translate_all]; [done|].
  pose proof (translate_ok c o Ho). destruct (TranslateKey c o) as [c' o']. cbn in *.
  specialize (IH o' ltac:(done)). by destruct (translate_all s o').
Qed.

Lemma safe_print c : safe (AdaptDispatch_Print (C := C) c).
Proof.
  apply safe_gets. intros a Ha. pose proof (translate_ok c _ (ok_output a Ha)) as Ho.
  destruct (TranslateKey c (_termOutput a)) as [c' o]. cbn in Ho. repeat wp_step.
  pose proof (keep_output a Ha o Ho) as Ha'. case_match; [by repeat wp_step|].
  apply wp_console. eapply wp_mono; [apply law_print, Ha|]. intros u w Hw. repeat wp_step.
  apply keep_console; [done|done|apply Ha].
Qed.

Lemma safe_print_string s : safe (AdaptDispatch_PrintString (C := C) s).
Proof.
  apply safe_gets. intros a Ha. pose proof (translate_all_ok s _ (ok_output a Ha)) as Ho.
  destruct (translate_all s (_termOutput a)) as [s' o]. cbn in Ho. repeat wp_step. destruct (NeedToTranslate _).
  - pose proof (keep_output a Ha o Ho) as Ha'. repeat wp_step. cbv beta.
    apply wp_console. eapply wp_mono; [apply law_print_string, Ha|]. intros u w Hw. repeat wp_step.
    apply keep_console; [done|done|apply Ha].
  - apply wp_console. eapply wp_mono; [apply law_print_string, Ha|]. intros u w Hw. repeat wp_step.
    apply keep_console; [done|done|apply Ha].
Qed.
End operations.

#[export] Hint Resolve safe_get_attrs safe_set_attrs safe_sgr safe_push safe_pop safe_print safe_print_string : safe.

Section operations.
Context {C : Type} `{ConsoleLaws C}.

#[local] Abbreviation console a := (_pConApi (_graphics a)).
#[local] Abbreviation M := (prog (AdaptDispatch C)).

(** *** The cursor *)

Lemma small_int n : 0 <= n <= 32767 → -32768 <= i32 n <= 65536.
Proof. intros. rewrite wraps_small by lia. lia. Qed.

Lemma small_absolute n : -32768 <= i32 n <= 65536 → small_offset (Offset_Absolute n).
Proof. unfold small_offset. cbn. lia. Qed.
Lemma small_forward n : 0 <= n <= 32767 → small_offset (Offset_Forward n).
Proof. intros ?%small_int. unfold small_offset. cbn. lia. Qed.
Lemma small_backward n : 0 <= n <= 32767 → small_offset (Offset_Backward n).
Proof. intros ?%small_int. unfold small_offset. cbn. lia. Qed.
Lemma small_unchanged : small_offset Offset_Unchanged.
Proof. by apply small_forward. Qed.

Lemma safe_move ro co b : small_offset ro → small_offset co → safe (_CursorMovePosition (C := C) ro co b).
Proof. intros Hro Hco a Ha. by apply move_safe. Qed.

Lemma safe_home : safe (AdaptDispatch_CursorPosition (C := C) 1 1).
Proof. apply safe_move; by apply small_absolute, small_int. Qed.

Lemma safe_save : safe (AdaptDispatch_CursorSaveState (C := C)).
Proof.
  apply safe_bottom_info. intros i Hi a Ha _. cbv beta iota. wp_step.
  eapply wp_of_ok; [by apply get_attrs_ok|]. cbv beta iota zeta. repeat (wp_step; cbv beta).
  apply (wp_get _ (λ _, True)); [eapply wp_mono; [apply law_codepage, Ha|]; by intros r c [-> _]|].
  intros [ok cp] _. cbv beta iota. repeat (wp_step; cbv beta).
  destruct Hi as (? & ? & Hx & Hy & Hw & Hb). apply keep_current_saved; [done|].
  set (x := X (dwCursorPosition i)) in *. set (y := Y (dwCursorPosition i)) in *. set (t := rTop (srWindow i)) in *.
  rewrite (wraps_small 16 (y - t)) by lia. unfold saved_ok. cbn.
  assert (∀ z, -32768 <= z <= 32768 → i32 (u32 z) = z) as E.
  { intros z Hz. unfold wraps, wrapu. rewrite Zplus_mod_idemp_l, Z.mod_small by lia. lia. }
  rewrite !E by lia. split; [lia|]. split; [lia|]. apply Ha.
Qed.

Lemma safe_restore_state s row : saved_ok s → -32768 <= i32 row <= 32768 → safe (restore_state (C := C) s row).
Proof.
  intros (Hr & Hc & Ho) Hrow. unfold restore_state.
  assert (safe (AdaptDispatch_CursorPosition (C := C) row (cs_Column s))).
  { apply safe_move; apply small_absolute; lia. }
  eauto 20 using keep_output with safe.
Qed.

Lemma safe_restore : safe (AdaptDispatch_CursorRestoreState (C := C)).
Proof.
  intros a Ha. unfold AdaptDispatch_CursorRestoreState. repeat (wp_step; cbv beta).
  assert (saved_ok (current_saved a)) as Hs.
  { unfold current_saved. destruct (_usingAltBuffer a); apply Ha. }
  pose proof (margins_range a Ha) as Hm. pose proof Hs as (Hr & Hc & _).
  case_match; [apply wp_clamp; [rewrite !wrapu_small by lia; lia|]|]; apply safe_restore_state; try done.
  rewrite !wrapu_small by lia. rewrite wraps_small; lia.
Qed.
End operations.
#[export] Hint Resolve safe_home safe_save safe_restore : safe.

Section operations.
Context {C : Type} `{ConsoleLaws C}.

#[local] Abbreviation console a := (_pConApi (_graphics a)).
#[local] Abbreviation M := (prog (AdaptDispatch C)).

(** *** Erasing *)

(** The width of a line of the buffer. *)
Lemma safe_width {A} i y (f : Z → M A) : 0 <= y < Y (dwSize i) → (∀ w, safe (f w)) →
  safe_with i (on_console (PrivateGetLineWidth y) ≫= f).
Proof.
  intros Hy Hf Hi a Ha Hs. wp_step. apply (wp_get _ (λ _, True)).
  { eapply wp_of_ok; [apply law_get_width; [apply Ha|by rewrite <-Hs]|done]. }
  intros w _. by apply Hf.
Qed.

Lemma safe_insert_delete n b : safe (_InsertDeleteHelper (C := C) n b).
Proof.
  unfold _InsertDeleteHelper. destruct (SizeTToShort n); [|apply safe_ret]. apply safe_bottom_info. intros i Hi.
  pose proof Hi as (_ & ? & _ & ? & _). eapply safe_width; [|intros w|exact Hi].
  - rewrite wrapu_small; lia.
  - destruct (if b then _ else _); auto with safe.
Qed.

Lemma erase_line_safe i t y (Q : bool → AdaptDispatch C → Prop) a :
  info_range i → adapt_ok a → dwSize i = con_size (console a) → 0 <= y < Y (dwSize i) →
  (∀ ok a', adapt_ok a' → dwSize i = con_size (console a') → Q ok a') → wp (_EraseSingleLineHelper i t y) Q a.
Proof.
  intros Hi Ha Hs Hy HQ. pose proof Hi as (? & ? & _). unfold _EraseSingleLineHelper, SizeTToShort.
  rewrite (proj2 (Z.leb_le y 32767)) by lia. cbv zeta. wp_step.
  assert (∀ n, wp (call (PrivateFillRegion (mkCOORD (if t =? ToEnd then X (dwCursorPosition i) else 0) y) n 32 true)) Q a)
    as Hcall
    by (intros n; apply wp_con_call; [done|done|]; intros ok a' Ha' Hs'; apply HQ; [done|]; by rewrite Hs').
  destruct (t =? FromBeginning); [by wp_step|].
  destruct ((t =? ToEnd) || (t =? EraseAll)); [|by wp_step]. wp_step. apply (wp_get _ (λ _, True)).
  { eapply wp_of_ok; [apply law_get_width; [apply Ha|by rewrite <-Hs]|done]. }
  intros w _. by wp_step.
Qed.

Lemma safe_erase_characters n : safe (AdaptDispatch_EraseCharacters (C := C) n).
Proof. apply safe_info. intros i. apply safe_weaken. intros Hi. cbv beta iota zeta. auto with safe. Qed.

Lemma safe_erase_in_line t : safe (AdaptDispatch_EraseInLine (C := C) t).
Proof.
  unfold AdaptDispatch_EraseInLine. apply safe_if; [apply safe_ret|]. apply safe_info. intros i Hi a Ha Hs.
  cbv beta iota. pose proof Hi as (_ & ? & _ & ? & _). rewrite wrapu_small by lia. by apply erase_line_safe.
Qed.

Lemma erase_lines_safe i lines : info_range i → Forall (λ y, 0 <= y < Y (dwSize i)) lines →
  ∀ a, adapt_ok a → dwSize i = con_size (console a) →
  wp (erase_lines i lines) (λ _ a', adapt_ok a' ∧ dwSize i = con_size (console a')) a.
Proof.
  intros Hi. induction 1 as [|y lines Hy _ IH]; intros a Ha Hs; cbn [erase_lines]; [done|].
  pose proof Hi as (_ & ? & _). unfold and_also. wp_step. rewrite wrapu_small by lia.
  apply erase_line_safe; [done..|]. intros [] a' Ha' Hs'; [by apply IH|done].
Qed.

Lemma seqZ_rows i s n : 0 <= s → s + n <= Y (dwSize i) → Forall (λ y, 0 <= y < Y (dwSize i)) (seqZ s n).
Proof. intros. apply Forall_forall. intros y Hy%elem_of_seqZ. lia. Qed.

Lemma safe_erase_scrollback : safe (_EraseScrollback (C := C)).
Proof.
  apply safe_info. intros i. apply safe_weaken. intros Hi. cbv beta iota. apply safe_bind; [auto with safe|].
  intros []; [|apply safe_ret]. cbv zeta. pose proof Hi as (_ & _ & _ & _ & ? & ?).
  rewrite (wraps_small 16 (rBottom _ - _)) by (unfold info_range in Hi; lia).
  rewrite Z.gtb_ltb, (proj2 (Z.ltb_lt _ _)) by lia. apply safe_bind; [apply safe_ret|]. intros _. auto 10 with safe.
Qed.

Lemma safe_erase_in_display t : safe (AdaptDispatch_EraseInDisplay (C := C) t).
Proof.
  unfold AdaptDispatch_EraseInDisplay, _EraseAll. pose proof safe_erase_scrollback.
  apply safe_if; [apply safe_ret|]. apply safe_if; [auto with safe|]. apply safe_if; [auto with safe|].
  apply safe_bottom_info. intros i Hi a Ha Hs. cbv beta iota zeta. pose proof Hi as (? & ? & ? & ? & ? & ?).
  set (P := λ (_ : bool) (a' : AdaptDispatch C), adapt_ok a' ∧ dwSize i = con_size (console a')).
  assert (∀ k a, con_call_ok k → resizes k = false → adapt_ok a → dwSize i = con_size (console a) →
    wp (call k) P a) as Hcall.
  { intros k b Hk Hr Hb Hsb. apply wp_con_call; [done..|]. intros ok b' Hb' Hs'. split; [done|]. by rewrite Hs'. }
  wp_step. eapply (wp_mono _ P); [destruct (t =? FromBeginning); [by apply Hcall|done]|]. intros _ a1 [Ha1 Hs1].
  wp_step. eapply (wp_mono _ P); [destruct (t =? ToEnd); [by apply Hcall|done]|]. intros _ a2 [Ha2 Hs2].
  unfold and_also at 1. wp_step.
  eapply (wp_mono _ P); [destruct (t =? FromBeginning); [apply erase_lines_safe; [done|apply seqZ_rows; lia|done..]|done]|].
  intros [] a3 [Ha3 Hs3]; [|done]. unfold and_also. wp_step. rewrite (wrapu_small 64) by lia.
  apply erase_line_safe; [done..|]. intros [] a4 Ha4 Hs4; [|done]. destruct (t =? ToEnd); [|done].
  rewrite wraps_small by lia.
  eapply wp_mono; [apply erase_lines_safe; [done|apply seqZ_rows; lia|done..]|]. by intros ? ? [].
Qed.

(** *** Margins, scrolling, modes *)

Lemma safe_margins t b : 0 <= t <= 32767 → 0 <= b <= 32767 → safe (_DoSetTopBottomScrollingMargins (C := C) t b).
Proof.
  intros Ht Hb. apply safe_bottom_info. intros i. apply safe_weaken. intros Hi. cbv beta iota.
  unfold SizeTToShort. rewrite !(proj2 (Z.leb_le _ _)) by lia. cbv zeta. pose proof Hi as (_ & ? & _ & _ & ? & ?).
  rewrite wraps_small by lia. set (t' := if t =? 0 then 1 else t). set (b' := if b =? 0 then _ else b).
  assert (1 <= t') by (unfold t'; case_match; zify_bool; lia).
  assert (b' <= 32767) by (unfold b'; case_match; zify_bool; lia).
  destruct ((t' <? b') && _) eqn:E; [|apply safe_ret]. zify_bool.
  assert (∀ u v m, margins_ok (mkRect (rLeft m) u (rRight m) v) →
    safe (modify (set_margins (mkRect (rLeft m) u (rRight m) v));;
          call (C := C) (PrivateSetScrollingRegion (mkRect (rLeft m) u (rRight m) v)))) as Hset.
  { intros u v m Hm. apply safe_bind; [|auto with safe]. apply safe_modify. intros a Ha. by apply keep_margins. }
  destruct ((t' =? 1) && _); apply safe_gets; intros a Ha; apply Hset; try done; [by left|right; cbn; lia].
Qed.

Lemma safe_scroll d n : safe (_ScrollMovement (C := C) d n).
Proof.
  unfold _ScrollMovement. destruct (SizeTToShort n); [|apply safe_ret]. apply safe_bottom_info.
  intros i. apply safe_weaken. intros Hi. cbv beta iota. apply safe_gets. intros a Ha. cbv zeta.
  case_match; by apply safe_call.
Qed.

Lemma safe_input_mode k : con_call_ok k → safe (input_mode (C := C) k).
Proof. intros. unfold input_mode, _ShouldPassThroughInputModeChange. auto 10 with safe. Qed.

Lemma safe_color_change k : con_call_ok k → safe (color_change (C := C) k).
Proof. intros. unfold color_change. auto with safe. Qed.

Lemma safe_screen_mode b : safe (AdaptDispatch_SetScreenMode (C := C) b).
Proof. unfold AdaptDispatch_SetScreenMode. auto with safe. Qed.

Lemma safe_origin b : safe (AdaptDispatch_SetOriginMode (C := C) b).
Proof. unfold AdaptDispatch_SetOriginMode. auto with safe. Qed.

Lemma safe_columns n : safe (AdaptDispatch_SetColumns (C := C) n).
Proof.
  unfold AdaptDispatch_SetColumns. destruct (SizeTToShort n); [|apply safe_ret]. apply safe_info.
  intros i. apply safe_weaken. intros _. by apply safe_call.
Qed.

Lemma safe_report : safe (_CursorPositionReport (C := C)).
Proof.
  apply safe_bottom_info. intros i. apply safe_weaken. intros _. cbv beta iota. unfold _WriteResponse.
  apply safe_gets. intros a Ha. revert a Ha. apply safe_gets. intros a Ha. by apply safe_call.
Qed.
End operations.
#[export] Hint Resolve safe_erase_scrollback safe_erase_in_display safe_erase_in_line safe_erase_characters
  safe_insert_delete safe_scroll safe_input_mode safe_color_change safe_screen_mode safe_origin safe_columns
  safe_report : safe.
#[export] Hint Extern 1 (safe (_DoSetTopBottomScrollingMargins _ _)) => (apply safe_margins; lia) : safe.

Section tabs.
Context {C : Type} `{ConsoleLaws C}.

#[local] Abbreviation console a := (_pConApi (_graphics a)).

(** *** Tab stops *)

Lemma length_stops (l : list Z) (n : Z) (tabs : list bool) :
  length (fold_left (λ tabs column, if column >=? n then <[Z.to_nat column := true]> tabs else tabs) l tabs)
  = length tabs.
Proof.
  revert tabs. induction l as [|c l IH]; intros tabs; cbn [fold_left]; [done|]. rewrite IH.
  case_match; [by rewrite length_insert|done].
Qed.

(** The stops reach as far as the console is wide. *)
Lemma init_tabs_ok (width : Z) (Q : unit → AdaptDispatch C → Prop) a :
  adapt_ok a → 0 <= width <= 32767 →
  (∀ tabs, Z.of_nat (length tabs) = Z.max width (Z.of_nat (length (_tabStopColumns a))) →
     adapt_ok (set_tabs tabs (_initDefaultTabStops a) a) →
     Q tt (set_tabs tabs (_initDefaultTabStops a) a)) →
  wp (_InitTabStopsForWidth (u64 width)) Q a.
Proof.
  intros Ha Hw HQ. pose proof (ok_tabs a Ha) as Hl. unfold _InitTabStopsForWidth. repeat (wp_step; cbv beta).
  rewrite wrapu_small by lia. rewrite Z.gtb_ltb. destruct (Z.ltb_spec (Z.of_nat (length (_tabStopColumns a))) width).
  - rewrite Z.gtb_ltb, (proj2 (Z.ltb_ge _ _)) by lia. cbv iota zeta. wp_step.
    set (tabs := if _initDefaultTabStops a then _ else _).
    assert (Z.of_nat (length tabs) = width) as E.
    { unfold tabs. case_match; rewrite ?length_stops, length_app, length_replicate; lia. }
    apply HQ; [lia|]. apply keep_tabs; [done|lia].
  - wp_step. pose proof (HQ (_tabStopColumns a)) as HQ'. assert (set_tabs (_tabStopColumns a) (_initDefaultTabStops a) a = a) as E
      by (by destruct a). rewrite E in HQ'. apply HQ'; [lia|done].
Qed.

Lemma set_stop_ok x b (Q : unit → AdaptDispatch C → Prop) a :
  0 <= x < Z.of_nat (length (_tabStopColumns a)) →
  Q tt (set_tabs (<[Z.to_nat x := b]> (_tabStopColumns a)) (_initDefaultTabStops a) a) → wp (set_stop x b) Q a.
Proof.
  intros Hx HQ. unfold set_stop. repeat (wp_step; cbv beta).
  rewrite (proj2 (Z.leb_le 0 x)), (proj2 (Z.ltb_lt x _)) by lia. exact HQ.
Qed.

Lemma stop_at_ok x tabs (Q : bool → AdaptDispatch C → Prop) a :
  0 <= x < Z.of_nat (length tabs) → (∀ b, tabs !! Z.to_nat x = Some b → Q b a) → wp (stop_at x tabs) Q a.
Proof.
  intros Hx HQ. unfold stop_at. rewrite (proj2 (Z.ltb_ge x 0)) by lia.
  destruct (lookup_lt_is_Some_2 tabs (Z.to_nat x)) as [b Hb]; [lia|]. rewrite Hb. wp_step. by apply HQ.
Qed.

Lemma safe_set_stop b : safe (
  '(success, csbiex) ← get_info (C := C);
  if (success : bool) then
    _InitTabStopsForWidth (u64 (X (dwSize csbiex)));;
    set_stop (X (dwCursorPosition csbiex)) b;;
    mret true
  else mret false).
Proof.
  apply safe_info. intros i (Hx & _ & Hc & _) a Ha _. cbv beta iota. wp_step. apply init_tabs_ok; [done|lia|].
  intros tabs Hl Ha'. wp_step. apply set_stop_ok; [cbn; lia|]. wp_step. apply keep_tabs; [done|].
  rewrite length_insert. apply Ha'.
Qed.

(** The loops over the columns end, and what they return is a column. *)
Lemma forward_tabs_ok fuel width n column done_ tabs (Q : Z → AdaptDispatch C → Prop) a :
  0 <= column → width <= Z.of_nat (length tabs) → width <= 32767 → width - column <= Z.of_nat fuel →
  (∀ c, 0 <= c < Z.max width (column + 1) → Q c a) → wp (forward_tabs fuel width n column done_ tabs) Q a.
Proof.
  revert column done_. induction fuel as [|fuel IH]; intros column done_ Hc Hl Hw Hf HQ; cbn [forward_tabs].
  - rewrite (proj2 (Z.ltb_ge (column + 1) width)) by lia. cbn. apply HQ. lia.
  - destruct (Z.ltb_spec (column + 1) width); [|cbn; apply HQ; lia]. case_match; [|cbn; apply HQ; lia].
    cbv zeta. wp_step. rewrite wraps_small by lia. apply stop_at_ok; [lia|]. intros b _.
    apply IH; try lia. intros c Hcc. apply HQ. lia.
Qed.

Lemma backward_tabs_ok fuel n column done_ tabs (Q : Z → AdaptDispatch C → Prop) a :
  0 <= column <= 32767 → column <= Z.of_nat (length tabs) → column <= Z.of_nat fuel →
  (∀ c, 0 <= c <= column → Q c a) → wp (backward_tabs fuel n column done_ tabs) Q a.
Proof.
  revert column done_. induction fuel as [|fuel IH]; intros column done_ Hc Hl Hf HQ; cbn [backward_tabs].
  - rewrite Z.gtb_ltb, (proj2 (Z.ltb_ge 0 column)) by lia. cbn. apply HQ. lia.
  - rewrite Z.gtb_ltb. destruct (Z.ltb_spec 0 column); [|cbn; apply HQ; lia]. case_match; [|cbn; apply HQ; lia].
    cbv zeta. wp_step. rewrite wraps_small by lia. apply stop_at_ok; [lia|]. intros b _.
    apply IH; try lia. intros c Hcc. apply HQ. lia.
Qed.

Lemma safe_forward_tab n : safe (AdaptDispatch_ForwardTab (C := C) n).
Proof.
  apply safe_info. intros i (Hx & _ & Hc & _) a Ha _. cbv beta iota zeta. wp_step. apply init_tabs_ok; [done|lia|].
  intros tabs Hl Ha'. repeat (wp_step; cbv beta). apply forward_tabs_ok; [lia|cbn; lia|lia|lia|].
  intros c Hcc. by apply safe_call.
Qed.

Lemma safe_backward_tab n : safe (AdaptDispatch_BackwardsTab (C := C) n).
Proof.
  apply safe_info. intros i (Hx & _ & Hc & _) a Ha _. cbv beta iota zeta. wp_step. apply init_tabs_ok; [done|lia|].
  intros tabs Hl Ha'. repeat (wp_step; cbv beta). apply backward_tabs_ok; [lia|cbn; lia|lia|].
  intros c Hcc. by apply safe_call.
Qed.
End tabs.
#[export] Hint Resolve safe_set_stop safe_forward_tab safe_backward_tab : safe.

Section dispatch.
Context {C : Type} `{ConsoleLaws C}.

#[local] Abbreviation console a := (_pConApi (_graphics a)).

Ltac each_case := repeat first [apply Forall_nil_2 | apply Forall_cons_2]; cbn [snd].

Lemma safe_switch {A} (code : Z) (cases : list (Z * prog (AdaptDispatch C) A)) (otherwise : prog (AdaptDispatch C) A) :
  Forall (λ c, safe c.2) cases → safe otherwise → safe (switch code cases otherwise).
Proof. intros Hc Ho. induction Hc as [|[k m] cases Hm _ IH]; cbn [switch]; [done|]. by case_match. Qed.


(** The value that is read does not matter. *)
Lemma safe_gets_any {A B} (f : AdaptDispatch C → A) (k : A → prog (AdaptDispatch C) B) :
  (∀ x, safe (k x)) → safe (gets f ≫= k).
Proof. intros Hk. apply safe_gets. intros a Ha. by apply Hk. Qed.

Lemma safe_reset_output : safe (modify (set_termOutput (C := C) TerminalOutput_init)).
Proof. apply safe_modify. intros a Ha. apply keep_output; [done|apply init_output_ok]. Qed.

Lemma safe_reset_saved : safe (modify (set_saved (C := C) (CursorState_init, CursorState_init))).
Proof. apply safe_modify. intros a Ha. apply keep_saved; [done|apply init_saved_ok..]. Qed.

Lemma safe_set_tabs init : safe (modify (set_tabs (C := C) [] init)).
Proof. apply safe_modify. intros a Ha. by apply keep_tabs. Qed.

Hint Resolve safe_reset_output safe_reset_saved safe_set_tabs : safe.
Hint Extern 1 (safe (gets _ ≫= _)) => (apply safe_gets_any; intros ?) : safe.

Lemma safe_soft_reset : safe (AdaptDispatch_SoftReset (C := C)).
Proof.
  unfold AdaptDispatch_SoftReset, AdaptDispatch_CursorVisibility, AdaptDispatch_SetAutoWrapMode,
    AdaptDispatch_SetCursorKeysMode, AdaptDispatch_SetKeypadMode.
  do 6 (apply safe_bind; [by auto 10 with safe|intros ?]). apply safe_bind; [auto with safe|intros _].
  apply safe_gets_any. intros [cp|]; auto 10 with safe.
Qed.

Lemma safe_hard_reset : safe (AdaptDispatch_HardReset (C := C)).
Proof.
  unfold AdaptDispatch_HardReset, _ResetTabStops. pose proof safe_soft_reset. apply safe_gets_any. intros alt.
  do 6 (apply safe_bind; [by auto 10 with safe|intros ?]). auto with safe.
Qed.

Lemma safe_alignment : safe (AdaptDispatch_ScreenAlignmentPattern (C := C)).
Proof.
  apply safe_bottom_info. intros i. apply safe_weaken. intros (? & ? & _ & _ & ? & ?). cbv beta iota zeta.
  apply safe_bind.
  { intros a Ha. apply wp_int; [nia|done]. }
  intros n. do 2 (apply safe_bind; [by auto 10 with safe|intros ?]). apply safe_bind; [auto with safe|].
  intros [got attr]. apply safe_bind; [auto with safe|]. intros ?. auto 10 with safe.
Qed.

Lemma safe_designate op (f : bool → bool + wchar) (m : prog TerminalOutput bool) :
  op_ok op → output_step op = (r ← m; mret (f r)) → safe (on_output (C := C) m).
Proof.
  intros Hop E. apply safe_output. intros o Ho. apply (wp_result m f). rewrite <-E. by apply output_safe.
Qed.

Lemma safe_enable_gr b : safe (on_output (C := C) (EnableGrTranslation b)).
Proof.
  apply safe_output. intros o Ho. apply (wp_result _ (λ _, inl true : bool + wchar)). by apply (output_safe (OEnableGr b)).
Qed.

Lemma safe_coding id : safe (AdaptDispatch_DesignateCodingSystem (C := C) id).
Proof.
  pose proof safe_enable_gr. apply safe_gets_any. intros initial. apply safe_bind.
  { destruct initial; [auto with safe|]. apply safe_bind; [auto with safe|]. intros [? cp]. auto with safe. }
  intros _. apply safe_switch; [|auto with safe]. each_case; auto 10 with safe.
Qed.

Lemma safe_cursor_style n : safe (AdaptDispatch_SetCursorStyle (C := C) n).
Proof.
  apply safe_bind.
  - repeat case_match; auto with safe. apply safe_bind; [auto with safe|]. intros []. auto with safe.
  - intros [[ty bl]|]; auto 10 with safe.
Qed.

Lemma resize_keeps w h c : con_ok c → wp (s_ResizeWindow w h) (λ _ c', con_ok c') c.
Proof.
  intros Hc. unfold s_ResizeWindow. destruct (SizeTToShort w), (SizeTToShort h); try done. destruct (_ && _); [|done].
  wp_step. eapply wp_mono; [by apply law_info|]. intros [ok i] c' (Ho & -> & _). cbn in Ho. subst ok. cbv beta iota zeta.
  unfold and_also. wp_step. eapply wp_mono; [by apply law_call|]. cbv beta. intros [] c' [Hc' _]; [|done].
  eapply wp_mono; [by apply law_call|]. by intros ? ? [].
Qed.

Lemma safe_resize w h : safe (on_console (s_ResizeWindow (C := C) w h)).
Proof.
  intros a Ha. apply wp_console. eapply wp_mono; [apply resize_keeps, Ha|]. cbv beta. intros ok c Hc.
  apply keep_console; [done|done|apply Ha].
Qed.

Lemma safe_alternate : safe (AdaptDispatch_UseAlternateScreenBuffer (C := C)).
Proof. unfold AdaptDispatch_UseAlternateScreenBuffer. auto 10 with safe. Qed.

Lemma safe_main : safe (AdaptDispatch_UseMainScreenBuffer (C := C)).
Proof. unfold AdaptDispatch_UseMainScreenBuffer. auto 10 with safe. Qed.

Lemma safe_deccolm n : safe (_DoDECCOLMHelper (C := C) n).
Proof. unfold _DoDECCOLMHelper. auto 20 with safe. Qed.

Lemma safe_ansi b : safe (AdaptDispatch_SetAnsiMode (C := C) b).
Proof. unfold AdaptDispatch_SetAnsiMode. auto with safe. Qed.

Lemma safe_deccolm_support b : safe (AdaptDispatch_EnableDECCOLMSupport (C := C) b).
Proof. unfold AdaptDispatch_EnableDECCOLMSupport. auto with safe. Qed.

Lemma safe_tab_clear n : safe (AdaptDispatch_TabClear (C := C) n).
Proof.
  apply safe_switch; [|apply safe_ret]. each_case.
  - apply safe_set_stop.
  - unfold _ClearAllTabStops. auto with safe.
Qed.

Lemma safe_mode param b : safe (_ModeParamsHelper (C := C) param b).
Proof.
  pose proof safe_deccolm. pose proof safe_ansi. pose proof safe_alternate. pose proof safe_main.
  pose proof safe_deccolm_support. apply safe_switch; [|apply safe_ret].
  each_case; try by apply safe_input_mode.
  all: try by apply safe_call.
  all: auto with safe.
Qed.

Lemma safe_set_margins t b : 0 <= t <= 32767 → 0 <= b <= 32767 →
  safe (AdaptDispatch_SetTopBottomScrollingMargins (C := C) t b).
Proof. intros. unfold AdaptDispatch_SetTopBottomScrollingMargins. auto using safe_margins with safe. Qed.

Lemma safe_dispatch (c : DispatchCall) : dispatch_ok c → safe (dispatch_call (C := C) c).
Proof.
  intros Hc. pose proof small_unchanged.
  destruct c; cbn [dispatch_call dispatch_ok] in *; try (by apply safe_call);
    try (by apply safe_move; auto using small_forward, small_backward, small_absolute, small_int);
    eauto using safe_coding, safe_soft_reset, safe_hard_reset, safe_alignment, safe_cursor_style, safe_tab_clear,
      safe_mode with safe.
  - unfold cursor_arg in Hc. apply safe_move; apply small_absolute; lia.
  - unfold AdaptDispatch_LineFeed. destruct t; auto with safe.
  - by apply (safe_designate (ODesignate94 g id) inl).
  - by apply (safe_designate (ODesignate96 g id) inl).
  - by apply (safe_designate (OLockingShift g) inl).
  - by apply (safe_designate (OLockingShiftRight g) inl).
  - by apply (safe_designate (OSingleShift g) inl).
  - unfold AdaptDispatch_SetCursorColor. auto with safe.
  - apply safe_switch; [|apply safe_ret]. each_case; [by apply safe_call|apply safe_resize].
Qed.
(** C21: the adapter handles every call that the engine makes, on every console
    that keeps its laws: each call returns, nothing is indexed out of range, no
    arithmetic overflows, no check ends the process, and the invariant of the
    adapter (margins that are in order, tab stops and saved cursors in range, the
    stack and the character sets well formed) is kept. *)
Theorem adapter_never_fails (c : DispatchCall) (a : AdaptDispatch C) :
  adapt_ok a → dispatch_ok c → wp (dispatch_call c) (λ _ a', adapt_ok a') a.
Proof. intros Ha Hc. by apply safe_dispatch. Qed.
End dispatch.
