(* ===== verification/AdaptCursor.v ===== *)
(** Cursor movements, the cursor report and saved cursors of the adapter. *)

From stdpp Require Import strings.
From S2P Require Import Prelude DispatchTypes OutputEngine TextColor TextAttribute SgrStack Sgr Viewport OutputCell CharRow Row Cursor InputEvent TerminalOutput AdaptDispatch AdaptFacts AdaptSafe.

Section cursor.
Context {C : Type} `{ConsoleLaws C}.

#[local] Abbreviation console a := (_pConApi (_graphics a)).
#[local] Abbreviation cursor a := (con_cursor (console a)).

(** The call succeeds, puts the cursor on [p], as far as its line reaches, and
    changes nothing else. *)
Definition lands (a : AdaptDispatch C) (k : DispatchCall) (p : COORD) : Prop :=
  wp (dispatch_call k) (λ ok a', ok = true ∧ adapt_ok a' ∧ only_cursor a a' ∧ cursor a' = at_line a p) a.

Lemma lands_move a k ro co b p :
  adapt_ok a → margins_fit a → small_offset ro → small_offset co →
  dispatch_call k = _CursorMovePosition ro co b →
  X p = Z.max 0 (Z.min (asked_column a co) (X (con_size (console a)) - 1)) →
  Y p = Z.max (first_row a b) (Z.min (asked_row a ro) (last_row a b)) → lands a k p.
Proof.
  intros Ha Hf Hro Hco E Hx Hy. unfold lands. rewrite E. eapply wp_mono; [by apply move_exact|].
  intros ok a' (-> & Ha' & Ho & Hc). split; [done|]. split; [done|]. split; [done|].
  rewrite Hc. destruct p. cbn in *. by subst.
Qed.

(** The cursor is between the rows that bound it. *)
Lemma cursor_between a b : adapt_ok a → margins_fit a →
  con_vtop (console a) <= Y (cursor a) < con_vbot (console a) →
  first_row a b <= Y (cursor a) <= last_row a b.
Proof.
  intros Ha Hf Hc. unfold first_row, last_row. repeat case_match; zify_bool; lia.
Qed.


(** The first and the last row of the page that positions count from: the margins
    in origin mode. *)
Definition page_rows (a : AdaptDispatch C) : Z * Z :=
  let m := _scrollMargins a in
  let top := con_vtop (console a) in
  if _isOriginModeRelative a && (rTop m <? rBottom m) then (top + rTop m, top + rBottom m)
  else (top, con_vbot (console a) - 1).

Definition in_page (a : AdaptDispatch C) : Prop :=
  (page_rows a).1 <= Y (cursor a) <= (page_rows a).2.

Lemma page_rows_range a : adapt_ok a → margins_fit a →
  con_vtop (console a) <= (page_rows a).1 <= (page_rows a).2 ∧ (page_rows a).2 < con_vbot (console a).
Proof.
  intros Ha Hf. pose proof (margins_range a Ha). destruct (law_geometry _ (ok_console a Ha)) as (_ & _ & _ & _ & _ & _ & Gv & _).
  unfold page_rows, margins_fit in *. case_match; zify_bool; cbn; lia.
Qed.

(** Where the margins bind, they are the page. *)
Lemma page_rows_bound a : adapt_ok a → margins_fit a → (_isOriginModeRelative a = true → in_page a) →
  first_row a false = (page_rows a).1 ∧ last_row a false = (page_rows a).2
  ∧ asked_row a (Offset_Absolute 1) = (page_rows a).1.
Proof.
  intros Ha Hf. pose proof (margins_range a Ha) as Hr. unfold in_page, page_rows, first_row, last_row, asked_row. cbn [orb].
  change (oValue (Offset_Absolute 1)) with 0. cbn [IsAbsolute Offset_Absolute].
  destruct (_isOriginModeRelative a); cbn [andb];
    [|rewrite !andb_false_r; cbn; intros _; split; [done|split; [done|lia]]].
  rewrite andb_true_r. destruct (Z.ltb_spec (rTop (_scrollMargins a)) (rBottom (_scrollMargins a))); cbn.
  - intros Hp. specialize (Hp eq_refl). rewrite !(proj2 (Z.leb_le _ _)) by lia. split; [done|split; [done|lia]].
  - intros _. destruct (ok_margins a Ha) as [[? ?]|?]; (split; [done|split; [done|lia]]).
Qed.

(** Absolute positions count from the first row of the page. *)
Lemma position_exact a line column : adapt_ok a → margins_fit a → (_isOriginModeRelative a = true → in_page a) →
  1 <= line <= 65535 → 1 <= column <= 65535 →
  wp (AdaptDispatch_CursorPosition line column)
    (λ ok a', ok = true ∧ adapt_ok a' ∧ only_cursor a a'
       ∧ cursor a' = at_line a (mkCOORD (Z.min (column - 1) (X (con_size (console a)) - 1))
                                        (Z.min ((page_rows a).1 + line - 1) (page_rows a).2))) a.
Proof.
  intros Ha Hf Hp Hl Hc. pose proof (page_rows_range a Ha Hf). destruct (page_rows_bound a Ha Hf Hp) as (E1 & E2 & E3).
  destruct (offsets_small line ltac:(lia)) as (El & _). destruct (offsets_small column ltac:(lia)) as (Ec & _).
  destruct (law_geometry _ (ok_console a Ha)) as (Gx & _).
  eapply wp_mono; [apply move_exact; [done|done|unfold small_offset; lia..]|]. cbv beta.
  rewrite E1, E2. intros ok a' (-> & Ha' & Ho & ->). split; [done|]. split; [done|]. split; [done|].
  f_equal. f_equal; [unfold asked_column; rewrite Ec; cbn; lia|].
  unfold asked_row in *. change (oValue (Offset_Absolute 1)) with 0 in E3. rewrite El.
  cbn [IsAbsolute Offset_Absolute] in *. lia.
Qed.

(** ** Reports *)

Lemma only_cursor_same a a' : only_cursor a a' →
  page_rows a' = page_rows a ∧ _scrollMargins a' = _scrollMargins a ∧ _isOriginModeRelative a' = _isOriginModeRelative a.
Proof. intros ((c & ->) & Ht & Hb & _). unfold page_rows. cbn in *. by rewrite Ht, Hb. Qed.

(** The report gives the position in the page, counted from 1. *)
Lemma report_exact a : adapt_ok a → margins_fit a → in_page a →
  wp _CursorPositionReport (λ ok a', ok = true ∧ adapt_ok a'
    ∧ con_replies (console a') = con_replies (console a)
        ++ response_events (AsciiChars.ESC :: 91 :: print_int (Y (cursor a) - (page_rows a).1 + 1)
                            ++ 59 :: print_int (X (cursor a) + 1) ++ [82])) a.
Proof.
  intros Ha Hf Hp. unfold _CursorPositionReport. wp_step. apply wp_bottom_info; [done|].
  intros i a' Ha' (_ & Hc & Ht & _) ((c & Ea) & Ht' & _ & _ & _ & _ & Hc' & _ & _ & Hr & _).
  cbv beta iota. repeat (wp_step; cbv beta). cbv zeta. rewrite Hc, Ht, Ht', Hc'.
  assert (_scrollMargins a' = _scrollMargins a ∧ _isOriginModeRelative a' = _isOriginModeRelative a) as [-> ->] by (by subst a').
  destruct (law_geometry _ (ok_console a Ha)) as (Gx & Gy & Gcx & Gcy & _ & _ & Gv & Gv').
  pose proof (page_rows_range a Ha Hf). pose proof (margins_range a Ha). unfold in_page in Hp.
  rewrite (wraps_small 16 (X _ + 1)), (wraps_small 16 (Y _ - _)), (wraps_small 16 (_ + 1)) by lia.
  assert ((if _isOriginModeRelative a
           then i16 (Y (cursor a) - con_vtop (console a) + 1 - rTop (_scrollMargins a))
           else Y (cursor a) - con_vtop (console a) + 1) = Y (cursor a) - (page_rows a).1 + 1) as ->.
  { destruct (page_rows_bound a Ha Hf (λ _, Hp)) as (_ & _ & E). unfold asked_row in E.
    change (oValue (Offset_Absolute 1)) with 0 in E. cbn [IsAbsolute Offset_Absolute] in E.
    destruct (_isOriginModeRelative a); [rewrite wraps_small by lia|]; lia. }
  unfold _WriteResponse. apply wp_console. eapply wp_mono; [apply law_reply, Ha'|]. cbv beta.
  intros ok c' (-> & Hok & E & _). split; [done|]. split; [apply keep_console; [done|done|apply Ha']|].
  cbn. by rewrite E, Hr.
Qed.

(** What the cursor position report says is what a cursor position sequence
    takes: after moving the cursor to a line and a column of the page, the report
    that is sent to the application has these two numbers in decimal digits, in
    origin mode too, and nothing else is sent. *)
Theorem cursor_report_round_trip (a : AdaptDispatch C) (line column : Z) :
  let row := (page_rows a).1 + line - 1 in
  adapt_ok a → margins_fit a → in_page a →
  1 <= line → row <= (page_rows a).2 → 1 <= column <= con_width row (console a) →
  wp (moved ← dispatch_call (CursorPosition line column);
      sent ← dispatch_call (DeviceStatusReport 6);
      mret (moved && sent))
    (λ ok a', ok = true ∧ adapt_ok a' ∧ ∃ l c,
       decimal l = line ∧ decimal c = column ∧ Forall (λ d, 48 <= d <= 57) (l ++ c)
       ∧ con_replies (console a') = con_replies (console a)
           ++ response_events (AsciiChars.ESC :: 91 :: l ++ 59 :: c ++ [82])) a.
Proof.
  cbv zeta. intros Ha Hf Hp Hl Hr Hc. pose proof (page_rows_range a Ha Hf) as Hrange.
  destruct (law_geometry _ (ok_console a Ha)) as (Gx & Gy & _ & _ & _ & _ & Gv & Gv').
  destruct (law_width _ ((page_rows a).1 + line - 1) (ok_console a Ha)) as [_ Hw]; [lia|].
  wp_step. eapply wp_mono; [apply (position_exact a line column); (done || lia)|].
  cbv beta. intros ok a1 (-> & Ha1 & Ho & Hcur). destruct (only_cursor_same a a1 Ho) as (Epage & Em & Eo).
  assert (cursor a1 = mkCOORD (column - 1) ((page_rows a).1 + line - 1)) as Ecur.
  { rewrite Hcur. unfold at_line. cbn. rewrite !Z.min_l by (rewrite ?Z.min_l; lia). done. }
  destruct Ho as (_ & Hvt & Hvb & _ & _ & _ & Hrep & _).
  wp_step. eapply wp_mono; [apply (report_exact a1); [done|unfold margins_fit in *; by rewrite Hvt, Hvb, Em|]|].
  { unfold in_page. rewrite Epage, Ecur. cbn. lia. }
  cbv beta. rewrite Epage, Ecur, Hrep. cbn [X Y]. intros ok a2 (-> & Ha2 & E). split; [done|]. split; [done|].
  destruct (print_int_ok line) as [E1 F1]; [lia|]. destruct (print_int_ok column) as [E2 F2]; [lia|].
  exists (print_int line), (print_int column). split; [done|]. split; [done|]. split; [by apply Forall_app|].
  rewrite E. by replace ((page_rows a).1 + line - 1 - (page_rows a).1 + 1) with line by lia;
    replace (column - 1 + 1) with column by lia.
Qed.

(** ** Saved cursors *)

(** What is saved: the position in the page, counted from 1. *)
Lemma save_exact a : adapt_ok a → con_vtop (console a) <= Y (cursor a) →
  wp AdaptDispatch_CursorSaveState (λ ok a', ok = true ∧ adapt_ok a'
    ∧ current_saved a' = mkCursorState (Y (cursor a) - con_vtop (console a) + 1) (X (cursor a) + 1)
        (_isOriginModeRelative a) (con_attrs (console a)) (_termOutput a) (con_codepage (console a))) a.
Proof.
  intros Ha Hy. pose proof (safe_save a Ha) as Hs. unfold wp in *. revert Hs.
  destruct (AdaptDispatch_CursorSaveState a) as [ok a'|] eqn:E; [|done]. intros Ha'.
  enough (wp AdaptDispatch_CursorSaveState (λ ok a', ok = true
    ∧ current_saved a' = mkCursorState (Y (cursor a) - con_vtop (console a) + 1) (X (cursor a) + 1)
        (_isOriginModeRelative a) (con_attrs (console a)) (_termOutput a) (con_codepage (console a))) a) as Hw.
  { unfold wp in Hw. rewrite E in Hw. tauto. }
  clear E Ha' ok a'. unfold AdaptDispatch_CursorSaveState. wp_step. apply wp_bottom_info; [done|].
  intros i a1 Ha1 (_ & Hc & Ht & _) ((c & Ea) & Ht' & _ & _ & _ & _ & Hc' & Hat & Hcp & _ & _).
  destruct (law_geometry _ (ok_console a Ha)) as (Gx & Gy & Gcx & Gcy & _ & _ & Gv & Gv').
  cbv beta iota. wp_step. eapply wp_of_ok; [by apply get_attrs_ok|]. cbv beta iota zeta. repeat (wp_step; cbv beta).
  apply (wp_get _ (λ r, r.2 = con_codepage (console a1))).
  { eapply wp_mono; [apply law_codepage, Ha1|]. by intros r c1 [-> E]. }
  intros [ok cp] Ecp. cbn in Ecp. subst cp. cbv beta iota. repeat (wp_step; cbv beta). split; [done|].
  rewrite Hc, Ht, Ht', Hc', Hat, Hcp. rewrite wraps_small, !wrapu_small by lia.
  unfold set_current_saved, current_saved. subst a1. cbn. by destruct (_usingAltBuffer a).
Qed.

(** The page of [b] is the one of [a], and its margins hold the cursor of [a] if
    they are what its position counts from. *)
Definition same_page (a b : AdaptDispatch C) : Prop :=
  con_size (console b) = con_size (console a) ∧ con_vtop (console b) = con_vtop (console a)
  ∧ con_vbot (console b) = con_vbot (console a)
  ∧ con_width (Y (cursor a)) (console b) = con_width (Y (cursor a)) (console a)
  ∧ (_isOriginModeRelative a = true → rBottom (_scrollMargins b) ≠ 0 →
     rTop (_scrollMargins b) <= Y (cursor a) - con_vtop (console a) <= rBottom (_scrollMargins b)).

Lemma restore_state_exact s b row : adapt_ok b → margins_fit b →
  1 <= row → con_vtop (console b) + row - 1 < con_vbot (console b) →
  1 <= cs_Column s <= con_width (con_vtop (console b) + row - 1) (console b) → output_ok (cs_TermOutput s) →
  wp (restore_state s row) (λ ok b', ok = true ∧ adapt_ok b'
    ∧ cursor b' = mkCOORD (cs_Column s - 1) (con_vtop (console b) + row - 1)
    ∧ con_attrs (console b') = cs_Attributes s ∧ _termOutput b' = cs_TermOutput s
    ∧ _isOriginModeRelative b' = cs_IsOriginModeRelative s
    ∧ (cs_CodePage s ≠ 0 → con_codepage (console b') = cs_CodePage s)) b.
Proof.
  intros Hb Hf Hr Hr' Hc Ho. destruct (law_geometry _ (ok_console b Hb)) as (Gx & Gy & _ & _ & _ & _ & Gv & Gv').
  destruct (law_width _ (con_vtop (console b) + row - 1) (ok_console b Hb)) as [_ Hw]; [lia|].
  unfold restore_state. repeat (wp_step; cbv beta).
  eapply wp_mono; [apply (position_exact (set_origin false b) row (cs_Column s)); [by apply keep_origin|done|done|lia..]|].
  cbv beta. intros ok b1 (-> & Hb1 & ((c1 & E1) & Hvt & Hvb & Hsz & _) & Hcur).
  assert (cursor b1 = mkCOORD (cs_Column s - 1) (con_vtop (console b) + row - 1)) as Ecur.
  { rewrite Hcur. unfold at_line, page_rows. cbn in *. rewrite !Z.min_l by (rewrite ?Z.min_l; lia). done. }
  repeat (wp_step; cbv beta). set (b2 := set_origin (cs_IsOriginModeRelative s) b1).
  assert (adapt_ok b2) as Hb2 by (by apply keep_origin).
  unfold set_attrs, on_graphics. apply wp_part.
  destruct (set_attributes_ok (cs_Attributes s) (_graphics b2) (ok_console b2 Hb2))
    as (c2 & E2 & Hc2 & Hat & Hs2 & Hcur2 & Hvt2 & Hvb2 & Hcp2 & _).
  eapply wp_of_ok; [exact E2|]. cbv beta. repeat (wp_step; cbv beta).
  set (b3 := set_termOutput (cs_TermOutput s) (set_graphics (mkAdaptGraphics c2 (_sgrStack (_graphics b2))) b2)).
  assert (adapt_ok b3) as Hb3 by (apply keep_output; [apply keep_console; [done|done|apply Hb2]|done]).
  assert (cursor b3 = mkCOORD (cs_Column s - 1) (con_vtop (console b) + row - 1)) as Ecur3 by (cbn; by rewrite Hcur2).
  destruct (Z.eqb_spec (cs_CodePage s) 0) as [E0|E0]; cbn [negb].
  - wp_step. split; [done|]. split; [done|]. split; [done|]. split; [done|]. by split.
  - apply wp_console. eapply wp_mono; [apply law_codepage_set, Hb3|]. cbv beta.
    intros ok c4 (-> & Hc4 & Hcp4 & Hcur4 & Hat4 & _). split; [done|].
    split; [apply keep_console; [done|done|apply Hb3]|]. cbn. rewrite Hcur4, Hat4. by repeat split.
Qed.

(** Restoring the cursor undoes whatever happened since it was saved: for every
    later state on the same page, the position, the attributes, the character
    sets, the origin mode and the code page are those of the moment of saving. *)
Theorem saved_cursor_restored (a : AdaptDispatch C) :
  adapt_ok a → con_vtop (console a) <= Y (cursor a) < con_vbot (console a) →
  X (cursor a) < con_width (Y (cursor a)) (console a) →
  wp (dispatch_call CursorSaveState) (λ ok a1, ok = true ∧ adapt_ok a1 ∧
    ∀ b, adapt_ok b → margins_fit b → same_page a b → current_saved b = current_saved a1 →
      wp (dispatch_call CursorRestoreState) (λ ok b', ok = true ∧ adapt_ok b'
        ∧ cursor b' = cursor a ∧ con_attrs (console b') = con_attrs (console a)
        ∧ _termOutput b' = _termOutput a ∧ _isOriginModeRelative b' = _isOriginModeRelative a
        ∧ (con_codepage (console a) ≠ 0 → con_codepage (console b') = con_codepage (console a))) b) a.
Proof.
  intros Ha Hy Hx. destruct (law_geometry _ (ok_console a Ha)) as (Gx & Gy & Gcx & Gcy & _ & _ & Gv & Gv').
  eapply wp_mono; [apply save_exact; [done|lia]|]. cbv beta. intros ok a1 (-> & Ha1 & Es). split; [done|]. split; [done|].
  intros b Hb Hf (Esz & Evt & Evb & Ew & Hm) Esaved. rewrite Es in Esaved. cbn [dispatch_call].
  set (row := Y (cursor a) - con_vtop (console a) + 1) in *.
  assert (wp (restore_state (current_saved b) row) (λ ok b', ok = true ∧ adapt_ok b'
        ∧ cursor b' = cursor a ∧ con_attrs (console b') = con_attrs (console a)
        ∧ _termOutput b' = _termOutput a ∧ _isOriginModeRelative b' = _isOriginModeRelative a
        ∧ (con_codepage (console a) ≠ 0 → con_codepage (console b') = con_codepage (console a))) b) as Hrest.
  { rewrite Esaved. assert (con_vtop (console b) + row - 1 = Y (cursor a)) as Erow by lia.
    eapply wp_mono; [apply restore_state_exact; cbn; rewrite ?Erow; [done|done|lia|lia|lia|apply Ha]|].
    cbn. rewrite Erow. intros ok b' (-> & Hb' & Ec & Hrest). split; [done|]. split; [done|].
    split; [rewrite Ec; destruct (cursor a); cbn; f_equal; lia|exact Hrest]. }
  unfold AdaptDispatch_CursorRestoreState. repeat (wp_step; cbv beta). rewrite Esaved. cbn [cs_IsOriginModeRelative cs_Row].
  pose proof (margins_range b Hb). rewrite <-Esaved. case_match eqn:E; [|exact Hrest]. zify_bool.
  apply wp_clamp; rewrite !wrapu_small by lia; [lia|].
  specialize (Hm ltac:(done) ltac:(done)). by replace (Z.max _ _) with row by lia.
Qed.
End cursor.
