(* ===== verification/AdaptTabs.v ===== *)
(** Tab stops: where tabs take the cursor, and how stops are set and cleared. *)

From stdpp Require Import strings.
From S2P Require Import Prelude DispatchTypes OutputEngine TextColor TextAttribute SgrStack Sgr Viewport OutputCell CharRow Row Cursor InputEvent TerminalOutput AdaptDispatch AdaptFacts AdaptSafe.

(** The columns 8, 16, ... *)
Definition default_stop (i : Z) : bool := (0 <? i) && (i mod 8 =? 0).

Lemma elem_of_default_stops size i : 0 <= size → i ∈ default_stops size ↔ default_stop i = true ∧ i < size.
Proof.
  intros Hs. unfold default_stops, default_stop. rewrite list_elem_of_fmap. setoid_rewrite elem_of_seqZ.
  rewrite andb_true_iff, Z.ltb_lt, Z.eqb_eq. split.
  - intros (k & -> & Hk). pose proof (Z.mul_div_le (size - 1) 8 ltac:(lia)). split; [split; [lia|]|lia].
    rewrite Z.mul_comm. apply Z.mod_mul. lia.
  - intros [[Hi Hm] Hlt]. apply Z.mod_divide in Hm as [k Hk]; [|lia]. exists (k - 1). split; [lia|].
    assert (k <= (size - 1) `div` 8) by (apply Z.div_le_lower_bound; lia). lia.
Qed.

(** Setting the stops of a list of columns. *)
Lemma fold_stops (l : list Z) (n : Z) (tabs : list bool) (i : nat) b :
  Forall (λ c, 0 <= c) l → tabs !! i = Some b →
  fold_left (λ tabs column, if column >=? n then <[Z.to_nat column := true]> tabs else tabs) l tabs !! i
  = Some (b || bool_decide (Z.of_nat i ∈ l ∧ n <= Z.of_nat i)).
Proof.
  intros Hl. revert tabs b. induction Hl as [|c l Hc _ IH]; intros tabs b Hb; cbn [fold_left].
  - rewrite bool_decide_eq_false_2, orb_false_r; [done|]. by intros [[]%not_elem_of_nil _].
  - rewrite Z.geb_leb. destruct (Z.leb_spec n c).
    + destruct (decide (Z.to_nat c = i)) as [E|E].
      * rewrite (IH _ true); [|subst i; apply list_lookup_insert_eq; by apply lookup_lt_Some in Hb]. f_equal.
        symmetry. apply orb_true_iff. right. apply bool_decide_eq_true_2. split; [|lia].
        replace (Z.of_nat i) with c by lia. apply list_elem_of_here.
      * rewrite (IH _ b) by (by rewrite list_lookup_insert_ne). f_equal. f_equal.
        apply bool_decide_ext. rewrite elem_of_cons. intuition lia.
    + rewrite (IH _ b) by done. f_equal. f_equal. apply bool_decide_ext. rewrite elem_of_cons. intuition lia.
Qed.

Section tabs.
Context {C : Type} `{ConsoleLaws C}.

#[local] Abbreviation console a := (_pConApi (_graphics a)).
#[local] Abbreviation cursor a := (con_cursor (console a)).

(** Whether a column is a tab stop: the ones that the adapter has no entry for yet
    are the default ones, unless all stops have been cleared. *)
Definition is_stop (a : AdaptDispatch C) (i : Z) : bool :=
  match _tabStopColumns a !! Z.to_nat i with
  | Some b => b
  | None => _initDefaultTabStops a && default_stop i
  end.

Definition stops (a : AdaptDispatch C) (from upto : Z) : list Z :=
  filter (λ i, is_stop a i = true) (seqZ from (upto - from + 1)).

(** Making room for more columns changes no stop. *)
Lemma init_tabs_stops width (Q : unit → AdaptDispatch C → Prop) a :
  adapt_ok a → 0 <= width <= 32767 →
  (∀ tabs, width <= Z.of_nat (length tabs) →
     (∀ i, 0 <= i → i < Z.of_nat (length tabs) → tabs !! Z.to_nat i = Some (is_stop a i)) →
     adapt_ok (set_tabs tabs (_initDefaultTabStops a) a) →
     (∀ i, Z.of_nat (length tabs) <= i → is_stop (set_tabs tabs (_initDefaultTabStops a) a) i = is_stop a i) →
     Q tt (set_tabs tabs (_initDefaultTabStops a) a)) →
  wp (_InitTabStopsForWidth (u64 width)) Q a.
Proof.
  intros Ha Hw HQ. pose proof (ok_tabs a Ha) as Hl. unfold _InitTabStopsForWidth. repeat (wp_step; cbv beta).
  rewrite wrapu_small by lia. rewrite Z.gtb_ltb.
  destruct (Z.ltb_spec (Z.of_nat (length (_tabStopColumns a))) width) as [Hlt|Hge].
  - rewrite Z.gtb_ltb, (proj2 (Z.ltb_ge _ _)) by lia. cbv iota zeta. wp_step.
    set (base := _tabStopColumns a ++ _). set (tabs := if _initDefaultTabStops a then _ else _).
    assert (Z.of_nat (length base) = width) as Ebase by (unfold base; rewrite length_app, length_replicate; lia).
    assert (Z.of_nat (length tabs) = width) as E.
    { unfold tabs. case_match; rewrite ?length_stops; lia. }
    assert (∀ i, 0 <= i → i < width → base !! Z.to_nat i = Some (default false (_tabStopColumns a !! Z.to_nat i))) as Hbase.
    { intros i Hi Hi'. unfold base. destruct (_tabStopColumns a !! Z.to_nat i) as [b|] eqn:Eb.
      - by rewrite (lookup_app_l_Some _ _ _ b).
      - rewrite lookup_app_r by (by apply lookup_ge_None in Eb). apply lookup_replicate_2.
        apply lookup_ge_None in Eb. lia. }
    apply HQ; [lia| |apply keep_tabs; [done|lia]|].
    + intros i Hi Hi'. unfold tabs, is_stop. destruct (_initDefaultTabStops a) eqn:Einit.
      * erewrite fold_stops; [|apply Forall_forall; intros c Hc; apply elem_of_default_stops in Hc as [Hc _];
          [unfold default_stop in Hc; zify_bool; lia|lia]|apply Hbase; lia].
        f_equal. destruct (_tabStopColumns a !! Z.to_nat i) as [b|] eqn:Eb; cbn.
        -- rewrite bool_decide_eq_false_2, orb_false_r; [done|]. intros [_ Hge]. apply lookup_lt_Some in Eb. lia.
        -- apply lookup_ge_None in Eb. rewrite Z2Nat.id by lia. apply eq_bool_prop_intro. rewrite bool_decide_spec.
           rewrite elem_of_default_stops by lia. destruct (default_stop i); cbn; intuition (lia || done).
      * rewrite Hbase by lia. by destruct (_tabStopColumns a !! Z.to_nat i).
    + intros i Hi. unfold is_stop. cbn. rewrite !lookup_ge_None_2 by lia. done.
  - wp_step. assert (set_tabs (_tabStopColumns a) (_initDefaultTabStops a) a = a) as Es by (by destruct a).
    rewrite <-Es. apply HQ; rewrite ?Es; try done. intros i Hi Hi'. unfold is_stop.
    destruct (lookup_lt_is_Some_2 (_tabStopColumns a) (Z.to_nat i)) as [b ->]; [lia|done].
Qed.

Lemma stops_none a x : stops a (x + 1) x = [].
Proof. unfold stops. by replace (x - (x + 1) + 1) with 0 by lia. Qed.

Lemma stops_cons a from upto : from <= upto →
  stops a from upto = (if is_stop a from then [from] else []) ++ stops a (from + 1) upto.
Proof.
  intros Hle. unfold stops. rewrite seqZ_cons by lia. rewrite filter_cons. unfold Z.succ.
  replace (Z.pred (upto - from + 1)) with (upto - (from + 1) + 1) by lia. by destruct (is_stop a from).
Qed.

Lemma stops_snoc a from upto : from <= upto →
  stops a from upto = stops a from (upto - 1) ++ (if is_stop a upto then [upto] else []).
Proof.
  intros Hle. unfold stops. replace (upto - from + 1) with ((upto - 1 - from + 1) + 1) by lia.
  rewrite seqZ_app by lia. rewrite filter_app. f_equal. replace (from + (upto - 1 - from + 1)) with upto by lia.
  rewrite (seqZ_cons upto 1), filter_cons by lia. by destruct (is_stop a upto).
Qed.

(** The column that [n] tabs lead to: the [n]th stop behind [x], or the last column
    when there are fewer. *)
Definition tab_target (a : AdaptDispatch C) (width n x x' : Z) : Prop :=
  x <= x' ∧
  ((x < x' < width ∧ is_stop a x' = true ∧ Z.of_nat (length (stops a (x + 1) x')) = n)
   ∨ (x' = Z.max x (width - 1) ∧ Z.of_nat (length (stops a (x + 1) x')) < n)).

(** The column that [n] tabs lead back to: the [n]th stop before [x], or the first
    column when there are fewer. *)
Definition back_target (a : AdaptDispatch C) (n x x' : Z) : Prop :=
  (0 <= x' < x ∧ is_stop a x' = true ∧ Z.of_nat (length (stops a x' (x - 1))) = n)
  ∨ (x' = 0 ∧ Z.of_nat (length (stops a 0 (x - 1))) < n).

Lemma forward_tabs_stops fuel width n x column k tabs (Q : Z → AdaptDispatch C → Prop) a b :
  0 <= x <= column → width <= Z.of_nat (length tabs) → width <= 32767 → n <= 32767 → width - column <= Z.of_nat fuel →
  column < Z.max width (x + 1) →
  (∀ i, 0 <= i → i < width → tabs !! Z.to_nat i = Some (is_stop a i)) →
  k = Z.of_nat (length (stops a (x + 1) column)) → (k < n ∨ x < column ∧ is_stop a column = true ∧ k = n) →
  (∀ x', tab_target a width n x x' → 0 <= x' < Z.max width (x + 1) → Q x' b) →
  wp (forward_tabs fuel width n column k tabs) Q b.
Proof.
  intros Hx Hlen Hw Hn. revert Hx. revert column k.
  induction fuel as [|fuel IH]; intros column k Hx Hf Hm Ht Hk Hd HQ;
    cbn [forward_tabs].
  - rewrite (proj2 (Z.ltb_ge (column + 1) width)) by lia. cbn. apply HQ; [|lia]. split; [lia|].
    destruct Hd as [Hd|(Hlt & Hs & Hd)]; [right; split; lia|].
    left. rewrite <-Hk. split; [lia|done].
  - destruct (Z.ltb_spec (column + 1) width), (Z.ltb_spec k n); cbn [andb].
    2-4: apply HQ; [|lia]; split; [lia|]; destruct Hd as [Hd|(Hlt & Hs & Hd)];
         try lia; (left; rewrite <-Hk; split; [lia|done]) || (right; split; lia).
    cbv zeta. wp_step. rewrite wraps_small by lia. apply stop_at_ok; [lia|]. intros s Hs.
    rewrite Ht in Hs by lia. injection Hs as <-. pose proof (stops_snoc a (x + 1) (column + 1) ltac:(lia)) as Es.
    replace (column + 1 - 1) with column in Es by lia.
    apply IH; try lia; [done| | |done].
    + rewrite Es, length_app, Nat2Z.inj_add, <-Hk.
      destruct (is_stop a (column + 1)); cbn [length]; rewrite ?wrapu_small; lia.
    + destruct (is_stop a (column + 1)) eqn:Estop; [rewrite wrapu_small by lia|by left].
      destruct (Z.eq_dec (k + 1) n); [right; split; [lia|split; [done|lia]]|left; lia].
Qed.

Lemma backward_tabs_stops fuel n x column k tabs (Q : Z → AdaptDispatch C → Prop) a b :
  0 <= column <= x → x <= 32767 → x <= Z.of_nat (length tabs) → n <= 32767 → column <= Z.of_nat fuel →
  (∀ i, 0 <= i → i < x → tabs !! Z.to_nat i = Some (is_stop a i)) →
  k = Z.of_nat (length (stops a column (x - 1))) → (k < n ∨ column < x ∧ is_stop a column = true ∧ k = n) →
  (∀ x', back_target a n x x' → 0 <= x' <= x → Q x' b) →
  wp (backward_tabs fuel n column k tabs) Q b.
Proof.
  intros Hx Hx' Hlen Hn. revert Hx. revert column k.
  induction fuel as [|fuel IH]; intros column k Hx Hf Ht Hk Hd HQ; cbn [backward_tabs]; rewrite Z.gtb_ltb.
  - rewrite (proj2 (Z.ltb_ge 0 column)) by lia. cbn. apply HQ; [|lia].
    assert (column = 0) as -> by lia.
    destruct Hd as [Hd|(Hlt & Hs & Hd)]; [right; split; [done|lia]|left; split; [lia|split; [done|lia]]].
  - destruct (Z.ltb_spec 0 column), (Z.ltb_spec k n); cbn [andb].
    2-4: apply HQ; [|lia]; destruct Hd as [Hd|(Hlt & Hs & Hd)]; try lia;
         (left; split; [lia|split; [done|lia]]) || (right; assert (column = 0) as -> by lia; split; [done|lia]).
    cbv zeta. wp_step. rewrite wraps_small by lia. apply stop_at_ok; [lia|]. intros s Hs.
    rewrite Ht in Hs by lia. injection Hs as <-. pose proof (stops_cons a (column - 1) (x - 1) ltac:(lia)) as Es.
    replace (column - 1 + 1) with column in Es by lia.
    apply IH; try lia; [done| | |done].
    + rewrite Es, length_app, Nat2Z.inj_add, <-Hk.
      destruct (is_stop a (column - 1)); cbn [length]; rewrite ?wrapu_small; lia.
    + destruct (is_stop a (column - 1)) eqn:Estop; [rewrite wrapu_small by lia|by left].
      destruct (Z.eq_dec (k + 1) n); [right; split; [lia|split; [done|lia]]|left; lia].
Qed.

(** Setting the cursor on its own row. *)
Lemma set_column a x (Q : bool → AdaptDispatch C → Prop) :
  adapt_ok a → con_vtop (console a) <= Y (cursor a) < con_vbot (console a) → 0 <= x < X (con_size (console a)) →
  (∀ a', adapt_ok a' → cursor a' = at_line a (mkCOORD x (Y (cursor a))) → Q true a') →
  wp (call (SetConsoleCursorPosition (mkCOORD x (Y (cursor a))))) Q a.
Proof.
  intros Ha Hy Hx HQ. apply wp_console. eapply wp_mono; [apply law_cursor; [apply Ha|done|done]|]. cbv beta.
  intros ok c (-> & Hc & Hcur & _). apply HQ; [apply keep_console; [done|done|apply Ha]|done].
Qed.

(** A tab takes the cursor to the next tab stop and [n] tabs to the [n]th one, or
    to the last column when there are fewer, and a backward tab to the stops before
    it or to the first column; setting a stop adds the column of the cursor to the
    stops and clearing it takes it away, and both leave all others as they are,
    the default ones every eight columns included. *)
Theorem tab_stops_correct (a : AdaptDispatch C) (n : Z) :
  let x := X (cursor a) in
  let width := X (con_size (console a)) in
  adapt_ok a → 1 <= n <= 32767 → con_vtop (console a) <= Y (cursor a) < con_vbot (console a) →
  wp (dispatch_call (ForwardTab n)) (λ ok a', ok = true ∧ ∃ x', tab_target a width n x x'
       ∧ cursor a' = at_line a (mkCOORD x' (Y (cursor a)))) a
  ∧ wp (dispatch_call (BackwardsTab n)) (λ ok a', ok = true ∧ ∃ x', back_target a n x x'
       ∧ cursor a' = at_line a (mkCOORD x' (Y (cursor a)))) a
  ∧ wp (dispatch_call HorizontalTabSet) (λ ok a', ok = true
       ∧ ∀ i, 0 <= i → is_stop a' i = (i =? x) || is_stop a i) a
  ∧ wp (dispatch_call (TabClear 0)) (λ ok a', ok = true
       ∧ ∀ i, 0 <= i → is_stop a' i = negb (i =? x) && is_stop a i) a.
Proof.
  cbv zeta. intros Ha Hn Hy. destruct (law_geometry _ (ok_console a Ha)) as (Gx & _ & Gcx & _).
  assert (∀ b, wp ('(success, csbiex) ← get_info (C := C);
    if (success : bool) then
      _InitTabStopsForWidth (u64 (X (dwSize csbiex)));;
      set_stop (X (dwCursorPosition csbiex)) b;;
      mret true
    else mret false)
    (λ ok a', ok = true ∧ ∀ i, 0 <= i → is_stop a' i = if i =? X (cursor a) then b else is_stop a i) a) as Hset.
  { intros b. wp_step. apply wp_info; [done|]. intros i (Es & Ec & _). cbv beta iota. rewrite Es, Ec. wp_step.
    apply init_tabs_stops; [done|lia|]. intros tabs Hl Ht _ Hout. wp_step. apply set_stop_ok; [cbn; lia|]. wp_step.
    split; [done|]. intros j Hj. destruct (Z.eqb_spec j (X (cursor a))) as [->|Hne].
    - unfold is_stop. cbn. by rewrite list_lookup_insert_eq by lia.
    - destruct (Z.lt_ge_cases j (Z.of_nat (length tabs))) as [Hlt|Hge].
      + unfold is_stop at 1. cbn. by rewrite list_lookup_insert_ne, Ht by lia.
      + rewrite <-Hout by done. unfold is_stop. cbn. by rewrite !lookup_ge_None_2 by (rewrite ?length_insert; lia). }
  split; [|split; [|split]].
  - cbn [dispatch_call]. unfold AdaptDispatch_ForwardTab. wp_step. apply wp_info; [done|]. intros i (Es & Ec & _).
    cbv beta iota zeta. rewrite Es, Ec. wp_step. apply init_tabs_stops; [done|lia|]. intros tabs Hl Ht Ha' _.
    repeat (wp_step; cbv beta). apply (forward_tabs_stops _ _ _ (X (cursor a)) _ _ _ _ a); try (done || lia).
    + intros j Hj Hj'. apply Ht; lia.
    + by rewrite stops_none.
    + intros x' Hx' Hr. by apply (set_column (set_tabs _ _ a)); [done|done|cbn; lia|]; eauto.
  - cbn [dispatch_call]. unfold AdaptDispatch_BackwardsTab. wp_step. apply wp_info; [done|]. intros i (Es & Ec & _).
    cbv beta iota zeta. rewrite Es, Ec. wp_step. apply init_tabs_stops; [done|lia|]. intros tabs Hl Ht Ha' _.
    repeat (wp_step; cbv beta). apply (backward_tabs_stops _ _ (X (cursor a)) _ _ _ _ a); try (done || lia); [cbn; lia|..].
    + intros j Hj Hj'. apply Ht; lia.
    + pose proof (stops_none a (X (cursor a) - 1)) as E. replace (X (cursor a) - 1 + 1) with (X (cursor a)) in E by lia.
      cbn [_graphics set_tabs]. by rewrite E.
    + intros x' Hx' Hr. by apply (set_column (set_tabs _ _ a)); [done|done|cbn; lia|]; eauto.
  - eapply wp_mono; [apply (Hset true)|]. intros ok a' [-> Hs]. split; [done|]. intros j Hj. rewrite Hs by done. by case_match.
  - eapply wp_mono; [apply (Hset false)|]. intros ok a' [-> Hs]. split; [done|]. intros j Hj. rewrite Hs by done. by case_match.
Qed.
End tabs.
