(* ===== verification/AdaptConsole.v ===== *)
(** A console that is just a page with a cursor, as the one the adapter's unit tests
    use: it keeps the laws, and the theorems on the adapter are evaluated on it. *)

From stdpp Require Import strings.
From S2P Require Import Prelude DispatchTypes OutputEngine TextColor TextAttribute SgrStack Sgr Viewport OutputCell CharRow Row Cursor InputEvent TerminalOutput AdaptDispatch AdaptFacts AdaptSafe AdaptCursor AdaptTabs.

Module PlainConsole.

Record Page := mkPage {
  p_size : COORD;
  p_cursor : COORD;
  p_top : Z;
  p_bottom : Z;
  p_attrs : TextAttribute;
  p_codepage : Z;
  p_input : list IInputEvent;
  p_text : wstring
}.

Definition set_cursor p c := mkPage (p_size c) p (p_top c) (p_bottom c) (p_attrs c) (p_codepage c) (p_input c) (p_text c).
Definition set_page_attrs a c := mkPage (p_size c) (p_cursor c) (p_top c) (p_bottom c) a (p_codepage c) (p_input c) (p_text c).
Definition set_codepage cp c := mkPage (p_size c) (p_cursor c) (p_top c) (p_bottom c) (p_attrs c) cp (p_input c) (p_text c).
Definition set_input i c := mkPage (p_size c) (p_cursor c) (p_top c) (p_bottom c) (p_attrs c) (p_codepage c) i (p_text c).
Definition set_text t c := mkPage (p_size c) (p_cursor c) (p_top c) (p_bottom c) (p_attrs c) (p_codepage c) (p_input c) t.

#[export] Instance page_attributes : ConGetSet Page :=
  {| PrivateGetTextAttributes c := (true, p_attrs c, c);
     PrivateSetTextAttributes a c := (true, set_page_attrs a c) |}.

Definition page_call (k : ConCall) : prog Page bool := λ c,
  match k with
  | SetConsoleCursorPosition p =>
      if (0 <=? X p) && (X p <? X (p_size c)) && (0 <=? Y p) && (Y p <? Y (p_size c))
      then Ok true (set_cursor p c) else Ok false c
  | PrivateWriteConsoleInputW events => Ok true (set_input (p_input c ++ events) c)
  | SetConsoleOutputCP cp => Ok true (set_codepage cp c)
  | _ => Ok true c
  end.

#[export] Instance page_api : ConsoleApi Page :=
  {| GetConsoleScreenBufferInfoEx c :=
       Ok (true, mkInfo (p_size c) (p_cursor c) 0 (mkRect 0 (p_top c) (X (p_size c)) (p_bottom c)) (p_size c) 0 false []) c;
     PrivateIsVtInputEnabled c := Ok false c;
     PrivateGetLineWidth _ c := Ok (X (p_size c)) c;
     PrivateGetLineFeedMode c := Ok true c;
     GetUserDefaultCursorStyle c := Ok (true, CursorLegacy) c;
     GetConsoleOutputCP c := Ok (true, p_codepage c) c;
     IsConsolePty c := Ok false c;
     con_call := page_call |}.

#[export] Instance page_defaults : AdaptDefaults Page :=
  {| Defaults_Print w c := Ok tt (set_text (p_text c ++ [w]) c);
     Defaults_PrintString s c := Ok tt (set_text (p_text c ++ s) c);
     Defaults_Execute w c := Ok tt (set_text (p_text c ++ [w]) c) |}.

Definition page_ok (c : Page) : Prop :=
  0 < X (p_size c) <= 32767 ∧ 0 < Y (p_size c) <= 32767
  ∧ 0 <= X (p_cursor c) < X (p_size c) ∧ 0 <= Y (p_cursor c) < Y (p_size c)
  ∧ 0 <= p_top c < p_bottom c ∧ p_bottom c <= Y (p_size c).

#[export, refine] Instance page_laws : ConsoleLaws Page :=
  {| con_ok := page_ok; con_size := p_size; con_cursor := p_cursor; con_top := p_top; con_bot := p_bottom;
     con_vtop := p_top; con_vbot := p_bottom; con_attrs := p_attrs; con_codepage := p_codepage;
     con_width := λ _ c, X (p_size c); con_replies := p_input |}.
Proof.
  all: try done.
  - intros c (? & ? & ? & ? & ? & ?). lia.
  - intros c y (? & _) _. lia.
  - intros c a Hc. by exists (set_page_attrs a c).
  - intros c k Hc _. destruct k; try done. unfold wp. cbn.
    destruct (_ && _) eqn:E; [|done]. zify_bool. split; [|done].
    destruct Hc as (? & ? & ? & ? & ? & ?). unfold page_ok. cbn. lia.
  - intros c p Hc Hx Hy. destruct Hc as (? & ? & ? & ? & ? & ?). unfold wp. cbn.
    rewrite !(proj2 (Z.leb_le _ _)), !(proj2 (Z.ltb_lt _ _)) by lia. cbn. split; [done|].
    split; [unfold page_ok; cbn; lia|]. split; [rewrite Z.min_l by lia; by destruct p|]. done.
  - intros c (? & _). unfold wp. cbn. lia.
Defined.

(** A page of 80 columns and 25 rows at row 100 of a buffer. *)
Definition page (x y : Z) : Page :=
  mkPage (mkCOORD 80 9001) (mkCOORD x y) 100 125 TextAttribute_default 437 [] [].

Lemma page_is_ok x y : 0 <= x < 80 → 0 <= y < 9001 → page_ok (page x y).
Proof. intros. unfold page_ok. cbn. lia. Qed.

End PlainConsole.
Import PlainConsole.

(** ** The theorems on this console *)

(** Margins at the lines 5 to 20 of the page, the cursor on line 7. *)
Definition with_margins : AdaptDispatch Page := set_margins (mkRect 0 4 0 19) (AdaptDispatch_init (page 10 106)).

Lemma with_margins_ok : adapt_ok with_margins ∧ margins_fit with_margins.
Proof.
  split; [|vm_compute; done]. apply keep_margins; [apply adapt_ok_init, page_is_ok; lia|]. right. cbn. lia.
Qed.

Lemma adapter_never_fails_witness : wp (dispatch_call HardReset) (λ _ a', adapt_ok a') with_margins.
Proof. apply adapter_never_fails; [apply with_margins_ok|exact I]. Defined.


Lemma cursor_report_round_trip_witness :
  wp (moved ← dispatch_call (CursorPosition 3 77);
      sent ← dispatch_call (DeviceStatusReport 6);
      mret (moved && sent))
    (λ ok a', ok = true ∧ adapt_ok a' ∧ ∃ l c,
       decimal l = 3 ∧ decimal c = 77 ∧ Forall (λ d, 48 <= d <= 57) (l ++ c)
       ∧ con_replies (_pConApi (_graphics a')) = con_replies (_pConApi (_graphics (set_origin true with_margins)))
           ++ response_events (AsciiChars.ESC :: 91 :: l ++ 59 :: c ++ [82])) (set_origin true with_margins).
Proof.
  destruct with_margins_ok as [Ha Hf].
  apply (cursor_report_round_trip (set_origin true with_margins) 3 77); [by apply keep_origin|done|..];
    vm_compute; try split; discriminate.
Defined.

Lemma saved_cursor_restored_witness :
  wp (dispatch_call CursorSaveState) (λ ok a1, ok = true ∧ adapt_ok a1 ∧
    ∀ b, adapt_ok b → margins_fit b → same_page with_margins b → current_saved b = current_saved a1 →
      wp (dispatch_call CursorRestoreState) (λ ok b', ok = true ∧ adapt_ok b'
        ∧ con_cursor (_pConApi (_graphics b')) = con_cursor (_pConApi (_graphics with_margins))
        ∧ con_attrs (_pConApi (_graphics b')) = con_attrs (_pConApi (_graphics with_margins))
        ∧ _termOutput b' = _termOutput with_margins ∧ _isOriginModeRelative b' = _isOriginModeRelative with_margins
        ∧ (con_codepage (_pConApi (_graphics with_margins)) ≠ 0 →
           con_codepage (_pConApi (_graphics b')) = con_codepage (_pConApi (_graphics with_margins)))) b) with_margins.
Proof.
  destruct with_margins_ok as [Ha Hf].
  apply (saved_cursor_restored with_margins Ha); [vm_compute; split; [discriminate|reflexivity]|reflexivity].
Defined.

(** Two tabs from column 10 lead to column 24. *)
Lemma tab_stops_correct_witness :
  wp (dispatch_call (ForwardTab 2)) (λ ok a', ok = true ∧ ∃ x', tab_target with_margins 80 2 10 x'
       ∧ con_cursor (_pConApi (_graphics a')) = at_line with_margins (mkCOORD x' 106)) with_margins
  ∧ wp (dispatch_call (ForwardTab 2)) (λ _ a', X (con_cursor (_pConApi (_graphics a'))) = 24) with_margins.
Proof.
  destruct with_margins_ok as [Ha Hf]. split; [|vm_compute; reflexivity].
  destruct (tab_stops_correct with_margins 2 Ha) as [Hforward _];
    [lia|vm_compute; split; [discriminate|reflexivity]|exact Hforward].
Defined.
