(* ===== verification/Terminal.v ===== *)
(** The parser, the output engine and the adapter over a console: the terminal as
    one program, from the characters that an application writes to the calls of the
    console. *)

From stdpp Require Import strings.
From S2P Require Import Prelude DispatchTypes StateMachine StateMachineFacts ParserParams ParserCsi OutputEngine OutputFacts TextColor TextAttribute SgrStack Sgr Viewport OutputCell CharRow Row Cursor InputEvent TerminalOutput AdaptDispatch AdaptFacts AdaptSafe AdaptCursor AdaptConsole.

Import AsciiChars.

(** ** A console that reaches the parser

    [ConhostInternalGetSet::PrivateSetAnsiMode] sets the mode of the state machine of
    the active buffer; every other call leaves the parser alone. *)

Record Linked (C : Type) := mkLinked { l_console : C; l_ansi : bool }.
Arguments mkLinked {C} _ _.
Arguments l_console {C} _.
Arguments l_ansi {C} _.

Section linked.
Context {C : Type}.

Definition lifted {A} (m : prog C A) : prog (Linked C) A :=
  on_part l_console (λ c l, mkLinked c (l_ansi l)) m.

Lemma wp_lifted {A} (m : prog C A) Q l :
  wp m (λ x c, Q x (mkLinked c (l_ansi l))) (l_console l) → wp (lifted m) Q l.
Proof. unfold wp, lifted, on_part. by destruct (m (l_console l)). Qed.

Context `{ConsoleLaws C}.

#[export] Instance linked_attributes : ConGetSet (Linked C) :=
  {| PrivateGetTextAttributes l :=
       let '(ok, a, c) := PrivateGetTextAttributes (l_console l) in (ok, a, mkLinked c (l_ansi l));
     PrivateSetTextAttributes a l :=
       let '(ok, c) := PrivateSetTextAttributes a (l_console l) in (ok, mkLinked c (l_ansi l)) |}.

Definition linked_call (k : ConCall) : prog (Linked C) bool :=
  ok ← lifted (con_call k);
  match k with
  | PrivateSetAnsiMode b => modify (λ l, mkLinked (l_console l) b);; mret ok
  | _ => mret ok
  end.

#[export] Instance linked_api : ConsoleApi (Linked C) :=
  {| GetConsoleScreenBufferInfoEx := lifted GetConsoleScreenBufferInfoEx;
     PrivateIsVtInputEnabled := lifted PrivateIsVtInputEnabled;
     PrivateGetLineWidth y := lifted (PrivateGetLineWidth y);
     PrivateGetLineFeedMode := lifted PrivateGetLineFeedMode;
     GetUserDefaultCursorStyle := lifted GetUserDefaultCursorStyle;
     GetConsoleOutputCP := lifted GetConsoleOutputCP;
     IsConsolePty := lifted IsConsolePty;
     con_call := linked_call |}.

#[export] Instance linked_defaults : AdaptDefaults (Linked C) :=
  {| Defaults_Print w := lifted (Defaults_Print w);
     Defaults_PrintString s := lifted (Defaults_PrintString s);
     Defaults_Execute w := lifted (Defaults_Execute w) |}.

(** A call of which the law says nothing about the parser. *)
Lemma wp_linked_call k Q l :
  wp (con_call k) (λ ok c, ∀ b, Q ok (mkLinked c b)) (l_console l) → wp (linked_call k) Q l.
Proof.
  intros Hk. unfold linked_call. wp_step. apply wp_lifted. eapply wp_mono; [exact Hk|].
  intros ok c HQ. destruct k; repeat wp_step; apply HQ.
Qed.

#[export, refine] Instance linked_laws : ConsoleLaws (Linked C) :=
  {| con_ok l := con_ok (l_console l); con_size l := con_size (l_console l); con_cursor l := con_cursor (l_console l);
     con_top l := con_top (l_console l); con_bot l := con_bot (l_console l);
     con_vtop l := con_vtop (l_console l); con_vbot l := con_vbot (l_console l);
     con_attrs l := con_attrs (l_console l); con_codepage l := con_codepage (l_console l);
     con_width y l := con_width y (l_console l); con_replies l := con_replies (l_console l) |}.
Proof.
  - intros l. apply law_geometry.
  - intros l y. apply law_width.
  - intros l Hl. apply wp_lifted. eapply wp_mono; [by apply law_info|]. destruct l. naive_solver.
  - intros l y Hl Hy. cbn. unfold lifted, on_part. rewrite law_get_width by done. by destruct l.
  - intros l Hl. apply wp_lifted. eapply wp_mono; [by apply law_vt_input|]. destruct l. naive_solver.
  - intros l Hl. apply wp_lifted. eapply wp_mono; [by apply law_feed_mode|]. destruct l. naive_solver.
  - intros l Hl. apply wp_lifted. eapply wp_mono; [by apply law_style|]. destruct l. naive_solver.
  - intros l Hl. apply wp_lifted. eapply wp_mono; [by apply law_codepage|]. destruct l. naive_solver.
  - intros l Hl. apply wp_lifted. eapply wp_mono; [by apply law_pty|]. destruct l. naive_solver.
  - intros l Hl. cbn. rewrite law_get_attrs by done. by destruct l.
  - intros l a Hl. destruct (law_set_attrs (l_console l) a Hl) as (c & Hs & Hc). cbn. rewrite Hs. eauto.
  - intros l k Hl Hk. apply wp_linked_call. eapply wp_mono; [by apply law_call|]. cbv beta. by intros ok c Hc b.
  - intros l w Hl. apply wp_lifted. by apply law_print.
  - intros l s Hl. apply wp_lifted. by apply law_print_string.
  - intros l Hl. apply wp_linked_call. eapply wp_mono; [by apply law_bottom|]. cbv beta. by intros ok c Hc b.
  - intros l p Hl Hx Hy. apply wp_linked_call. eapply wp_mono; [by apply law_cursor|]. cbv beta. by intros ok c Hc b.
  - intros l cp Hl. apply wp_linked_call. eapply wp_mono; [by apply law_codepage_set|]. cbv beta. by intros ok c Hc b.
  - intros l events Hl. apply wp_linked_call. eapply wp_mono; [by apply law_reply|]. cbv beta. by intros ok c Hc b.
  - intros l Hl. by apply wp_lifted, law_columns.
Defined.
End linked.

(** ** The terminal

    The dispatch that the engine holds.  An exception that leaves a method of the
    adapter would leave the parser as well; here it is recorded and ends all further
    work. *)

Record Terminal (C : Type) := mkTerminal { t_adapter : AdaptDispatch (Linked C); t_exception : option exn }.
Arguments mkTerminal {C} _ _.
Arguments t_adapter {C} _.
Arguments t_exception {C} _.

Section terminal.
Context {C : Type} `{ConsoleLaws C}.

#[local] Abbreviation console a := (_pConApi (_graphics a)).

Definition with_ansi (b : bool) (a : AdaptDispatch (Linked C)) : AdaptDispatch (Linked C) :=
  set_graphics (mkAdaptGraphics (mkLinked (l_console (console a)) b) (_sgrStack (_graphics a))) a.

#[export] Instance terminal_dispatch : ITermDispatch (Terminal C) :=
  {| dispatch c t ansi :=
       match t_exception t with
       | Some _ => (false, t, ansi)
       | None =>
           match dispatch_call c (with_ansi ansi (t_adapter t)) with
           | Ok r a => (r, mkTerminal a None, l_ansi (console a))
           | Throw e a => (false, mkTerminal a (Some e), l_ansi (console a))
           end
       end |}.

Definition terminal_ok (t : Terminal C) : Prop := t_exception t = None ∧ adapt_ok (t_adapter t).

Lemma with_ansi_ok b a : adapt_ok a → adapt_ok (with_ansi b a).
Proof. intros Ha. apply keep_console; [done|apply Ha|apply Ha]. Qed.

Lemma terminal_call c t ansi (Q : bool → AdaptDispatch (Linked C) → Prop) :
  t_exception t = None → wp (dispatch_call c) Q (with_ansi ansi (t_adapter t)) →
  ∃ r a, dispatch c t ansi = (r, mkTerminal a None, l_ansi (console a)) ∧ Q r a.
Proof. intros Ht Hw. cbn. rewrite Ht. unfold wp in Hw. destruct (dispatch_call _ _) as [r a|]; [|done]. eauto. Qed.

#[export] Instance terminal_safe : DispatchSafe (Terminal C).
Proof.
  refine {| dispatch_inv := terminal_ok |}. intros c t ansi Hc [Ht Ha].
  destruct (terminal_call c t ansi (λ _, adapt_ok) Ht) as (r & a & -> & Ha'); [|by split].
  by apply safe_dispatch, with_ansi_ok.
Defined.

(** *** The parser's mode *)

(** A program of the adapter that does not touch the parser. *)
Definition leaves_mode {A} (m : prog (AdaptDispatch (Linked C)) A) : Prop :=
  ∀ a, match m a with Ok _ a' | Throw _ a' => l_ansi (console a') = l_ansi (console a) end.

Lemma leaves_mode_bind {A B} (m : prog (AdaptDispatch (Linked C)) A) (f : A → prog _ B) :
  leaves_mode m → (∀ x, leaves_mode (f x)) → leaves_mode (m ≫= f).
Proof.
  intros Hm Hf a. specialize (Hm a). unfold mbind, prog_bind. destruct (m a) as [x a'|e a']; [|done].
  specialize (Hf x a'). destruct (f x a'); congruence.
Qed.

Lemma leaves_mode_lifted {A} (m : prog C A) : leaves_mode (on_console (lifted m)).
Proof. intros a. unfold on_console, lifted, on_part. by destruct (m _). Qed.

Lemma leaves_mode_call k : (∀ b, k ≠ PrivateSetAnsiMode b) → leaves_mode (AdaptDispatch.call k).
Proof.
  intros Hk a. unfold AdaptDispatch.call, on_console, on_part. cbn. unfold linked_call, lifted, on_part, mbind, prog_bind.
  destruct (con_call k _); [|done]. destruct k; try done. by destruct (Hk ansiMode).
Qed.

Ltac mode_run :=
  repeat first
    [ apply leaves_mode_call; by intros
    | apply leaves_mode_lifted
    | apply leaves_mode_bind; [|intros]
    | (intros ?; exact eq_refl)
    | match goal with |- leaves_mode (if ?x then _ else _) => destruct x end
    | match goal with |- leaves_mode (let '(_, _) := ?x in _) => destruct x end ].

Lemma leaves_mode_move ro co b : leaves_mode (_CursorMovePosition ro co b).
Proof. unfold _CursorMovePosition, bottom_info, int_of, checked_clamp. mode_run. Qed.

Lemma leaves_mode_report : leaves_mode _CursorPositionReport.
Proof. unfold _CursorPositionReport, bottom_info, _WriteResponse. mode_run. Qed.

(** *** From characters to the console *)

Context {T : Type} `{ITerminalOutputConnection T} `{Utf8Converter}.

#[local] Abbreviation Machine := (StateMachine (OutputStateMachineEngine (Terminal C) T) Empty_set).

Definition terminal_of (s : Machine) : Terminal C := _dispatch (_engine s).
Definition adapter_of (s : Machine) : AdaptDispatch (Linked C) := t_adapter (terminal_of s).

(** The objects as [VtIo] and the screen buffer make them. *)
Definition new_terminal (c : C) (tty : option T) (hasFlush : bool) : Machine :=
  StateMachine_init (mkOutputEngine (mkTerminal (AdaptDispatch_init (mkLinked c true)) None) tty hasFlush AsciiChars.NUL).

Lemma new_terminal_wf c tty hasFlush : con_ok c → sm_wf (new_terminal c tty hasFlush).
Proof. intros Hc. apply init_wf. split; [done|]. by apply adapt_ok_init. Qed.

(** C4: no text brings the terminal down.  A new parser with the output engine and
    the adapter, over any console that keeps its laws, processes every list of
    strings of 16-bit characters to the end: the parser, the engine and the adapter
    return from every call, no exception is raised in any of them, and the
    invariants of the parser and of the adapter hold. *)
Theorem terminal_never_fails (strings : list wstring) (c : C) (tty : option T) (hasFlush : bool) :
  Forall (Forall is_wchar) strings → con_ok c →
  ∃ s', ProcessStrings strings (new_terminal c tty hasFlush) = Ok tt s' ∧ sm_wf s'
    ∧ t_exception (terminal_of s') = None ∧ adapt_ok (adapter_of s').
Proof.
  intros Hs Hc. destruct (wp_ok (ProcessStrings strings) (λ _, sm_wf) (new_terminal c tty hasFlush)) as ([] & s' & E & Hw).
  { apply ProcessStrings_wf; [done|by right|by apply new_terminal_wf]. }
  exists s'. split; [done|]. split; [done|]. apply (wf_engine _ Hw).
Qed.

(** A control sequence that makes one call of the dispatch runs the method of the
    adapter. *)
Lemma sequence_runs (text : wstring) k (s : Machine) (Q : AdaptDispatch (Linked C) → Prop) :
  (accepts k (view_of s) = true → ∃ s', ProcessString text s = Ok tt s' ∧ dispatched_once k s s') →
  at_ground s → t_exception (terminal_of s) = None → leaves_mode (dispatch_call k) →
  wp (dispatch_call k) (λ ok a', ok = true ∧ Q a') (with_ansi true (adapter_of s)) →
  ∃ s', ProcessString text s = Ok tt s' ∧ at_ground s' ∧ t_exception (terminal_of s') = None ∧ Q (adapter_of s').
Proof.
  intros Hrun (Hg & Hp & Ha & Hc) Ht Hm Hw.
  destruct (wp_ok _ _ _ Hw) as (r & a & E & -> & HQ).
  pose proof (Hm (with_ansi true (adapter_of s))) as Hl. rewrite E in Hl. cbn in Hl.
  assert (dispatch k (_dispatch (ev_engine (view_of s))) (ev_isInAnsiMode (view_of s)) = (true, mkTerminal a None, true)) as Hd.
  { cbn. unfold terminal_of in Ht. rewrite Ht, Ha. unfold adapter_of, terminal_of in E. rewrite E. by rewrite Hl. }
  destruct Hrun as (s' & Es & Hg' & Hp' & Hv); [unfold accepts; by rewrite Hd|].
  unfold after_disp in Hv. rewrite Hd in Hv. cbn in Hv. rewrite Hc in Hv.
  assert (_cachedSequence s' = None ∧ _isInAnsiMode s' = true ∧ terminal_of s' = mkTerminal a None) as (E1 & E2 & E3).
  { unfold view_of, terminal_of in *. injection Hv as -> -> ->. done. }
  exists s'. split; [done|]. split; [done|]. unfold adapter_of. by rewrite E3.
Qed.

(** A cursor position sequence moves the cursor of the console. *)
Lemma position_sequence (row col : wstring) (s : Machine) :
  let a := adapter_of s in
  let y := (page_rows a).1 + decimal row - 1 in
  forallb _isNumericParamValue row = true → forallb _isNumericParamValue col = true →
  at_ground s → terminal_ok (terminal_of s) → margins_fit a → in_page a →
  1 <= decimal row → y <= (page_rows a).2 → 1 <= decimal col <= con_width y (console a) → con_width y (console a) <= 32767 →
  con_width y (console a) <= X (con_size (console a)) → decimal row <= 32767 →
  ∃ s', ProcessString ([ESC; 0x5B] ++ row ++ [0x3B] ++ col ++ [0x48]) s = Ok tt s'
    ∧ at_ground s' ∧ terminal_ok (terminal_of s') ∧ only_cursor a (adapter_of s')
    ∧ con_cursor (console (adapter_of s')) = mkCOORD (decimal col - 1) y.
Proof.
  cbv zeta. intros Hr Hc Hs [Ht Ha] Hf Hp Hl Hy Hw Hmax Hwx Hrow. set (a := adapter_of s) in *.
  destruct (sequence_runs ([ESC; 0x5B] ++ row ++ [0x3B] ++ col ++ [0x48]) (CursorPosition (decimal row) (decimal col)) s
    (λ a1, adapt_ok a1 ∧ only_cursor a a1 ∧ con_cursor (console a1) = mkCOORD (decimal col - 1) ((page_rows a).1 + decimal row - 1)))
    as (s1 & E1 & Hs1 & Ht1 & Ha1 & Ho & Hcur); [|done|done|apply leaves_mode_move| |].
  - intros Hacc. pose proof (csi_cursor_position row col s Hr Hc Hs) as Hcsi. cbv beta zeta in Hcsi.
    rewrite !Z.min_r, !Z.max_r in Hcsi by lia. by apply Hcsi.
  - eapply wp_mono; [apply (position_exact (with_ansi true a) (decimal row) (decimal col)); [by apply with_ansi_ok|done|done|lia|lia]|].
    cbv beta. intros ok a1 (-> & Ha1 & Ho & ->). split; [done|]. split; [done|]. split; [exact Ho|].
    unfold at_line. change (page_rows (with_ansi true a)) with (page_rows a). cbn in Hw, Hwx |- *.
    rewrite !Z.min_l by (rewrite ?Z.min_l; lia). done.
  - by exists s1.
Qed.

(** A status report sends the position of the cursor. *)
Lemma report_sequence (s : Machine) :
  let a := adapter_of s in
  at_ground s → terminal_ok (terminal_of s) → margins_fit a → in_page a →
  ∃ s', ProcessString [ESC; 0x5B; 0x36; 0x6E] s = Ok tt s' ∧ at_ground s' ∧ t_exception (terminal_of s') = None
    ∧ con_replies (console (adapter_of s')) = con_replies (console a)
        ++ response_events (ESC :: 91 :: print_int (Y (con_cursor (console a)) - (page_rows a).1 + 1)
             ++ 59 :: print_int (X (con_cursor (console a)) + 1) ++ [82]).
Proof.
  cbv zeta. intros Hs [Ht Ha] Hf Hp. apply (sequence_runs _ (DeviceStatusReport 6) s (λ a', con_replies (console a') = _));
    [intros; by apply csi_status_report|done|done|apply leaves_mode_report|].
  eapply wp_mono; [apply (report_exact (with_ansi true (adapter_of s))); [by apply with_ansi_ok|exact Hf|exact Hp]|].
  cbv beta. intros ok a2 (-> & _ & E). split; [done|exact E].
Qed.

(** C5: an application that puts the cursor somewhere and asks where it is gets its
    own numbers back: the text of a cursor position sequence with any digits that
    name a place of the page, followed by a status report, makes the terminal send
    one report whose decimal numbers are those of the text, with margins and in
    origin mode too. *)
Theorem position_query_answered (row col : wstring) (s : Machine) :
  let a := adapter_of s in
  let y := (page_rows a).1 + decimal row - 1 in
  forallb _isNumericParamValue row = true → forallb _isNumericParamValue col = true →
  at_ground s → terminal_ok (terminal_of s) → margins_fit a → in_page a →
  1 <= decimal row → y <= (page_rows a).2 → 1 <= decimal col <= con_width y (console a) →
  ∃ s', ProcessStrings [[ESC; 0x5B] ++ row ++ [0x3B] ++ col ++ [0x48]; [ESC; 0x5B; 0x36; 0x6E]] s = Ok tt s'
    ∧ at_ground s' ∧ t_exception (terminal_of s') = None
    ∧ ∃ l c, decimal l = decimal row ∧ decimal c = decimal col ∧ Forall (λ d, 48 <= d <= 57) (l ++ c)
    ∧ con_replies (console (adapter_of s')) = con_replies (console a)
        ++ response_events (ESC :: 91 :: l ++ 59 :: c ++ [82]).
Proof.
  cbv zeta. intros Hr Hc Hs Hok Hf Hp Hl Hy Hw. set (a := adapter_of s) in *. destruct (Hok) as [_ Ha].
  pose proof (page_rows_range a Ha Hf) as Hrange.
  destruct (law_geometry _ (ok_console a Ha)) as (Gx & Gy & _ & _ & _ & _ & Gv & Gv').
  destruct (law_width _ ((page_rows a).1 + decimal row - 1) (ok_console a Ha)) as [_ Hwx]; [lia|].
  destruct (position_sequence row col s) as (s1 & E1 & Hs1 & Ht1 & Ho & Hcur); [done..|fold a; lia|done|lia|].
  fold a in Ho, Hcur. destruct (only_cursor_same a (adapter_of s1) Ho) as (Epage & Em & Eo).
  destruct Ho as (_ & Hvt & Hvb & _ & _ & _ & Hrep & _).
  destruct (report_sequence s1) as (s2 & E2 & Hs2 & Ht2 & HQ); [done|done|..].
  { unfold margins_fit in *. by rewrite Hvt, Hvb, Em. }
  { unfold in_page. rewrite Epage, Hcur. cbn. lia. }
  rewrite Epage, Hcur, Hrep in HQ. cbn [X Y] in HQ.
  replace ((page_rows a).1 + decimal row - 1 - (page_rows a).1 + 1) with (decimal row) in HQ by lia.
  replace (decimal col - 1 + 1) with (decimal col) in HQ by lia.
  destruct (print_int_ok (decimal row)) as [D1 F1]; [lia|]. destruct (print_int_ok (decimal col)) as [D2 F2]; [lia|].
  exists s2. split; [|split; [done|split; [done|]]].
  - cbn [ProcessStrings]. unfold mbind, prog_bind. rewrite E1. by rewrite E2.
  - exists (print_int (decimal row)), (print_int (decimal col)). rewrite HQ. by rewrite Forall_app.
Qed.

End terminal.

(** ** The theorems on the plain console *)

Import PlainConsole Recorder.

Definition page_terminal : StateMachine (OutputStateMachineEngine (Terminal PlainConsole.Page) Recorder.Tty) Empty_set :=
  new_terminal (PlainConsole.page 10 106) None false.

(** Text with colours, margins, a VT52 address that is off the page and a reset. *)
Lemma terminal_never_fails_witness :
  ∃ s', ProcessStrings [wstr "ab" ++ [ESC; 0x5B] ++ wstr "31m"; [ESC; 0x5B] ++ wstr "5;20r" ++ [ESC; 0x5B] ++ wstr "?2l";
                        [ESC; 0x59; 0; 0xFFFF; ESC; 0x3C; ESC; 0x63]] page_terminal = Ok tt s' ∧ sm_wf s'
    ∧ t_exception (terminal_of s') = None ∧ adapt_ok (adapter_of s').
Proof.
  apply (terminal_never_fails _ (PlainConsole.page 10 106) None false).
  - apply (bool_decide_unpack _). vm_compute. exact I.
  - apply PlainConsole.page_is_ok; lia.
Defined.

Lemma position_query_answered_witness :
  ∃ s', ProcessStrings [[ESC; 0x5B] ++ wstr "07" ++ [0x3B] ++ wstr "80" ++ [0x48]; [ESC; 0x5B; 0x36; 0x6E]] page_terminal = Ok tt s'
    ∧ at_ground s' ∧ t_exception (terminal_of s') = None
    ∧ ∃ l c, decimal l = decimal (wstr "07") ∧ decimal c = decimal (wstr "80") ∧ Forall (λ d, 48 <= d <= 57) (l ++ c)
    ∧ con_replies (_pConApi (_graphics (adapter_of s'))) = con_replies (_pConApi (_graphics (adapter_of page_terminal)))
        ++ response_events (ESC :: 91 :: l ++ 59 :: c ++ [82]).
Proof.
  apply (position_query_answered (wstr "07") (wstr "80") page_terminal);
    [reflexivity|reflexivity|by repeat split| |vm_compute; reflexivity|vm_compute; split; discriminate|..];
    [|vm_compute; discriminate|vm_compute; discriminate|vm_compute; split; discriminate].
  split; [done|]. apply adapt_ok_init, PlainConsole.page_is_ok; lia.
Defined.
