(* ===== verification/InputEngine.v ===== *)
(** The input engine: [src/src/terminal/parser/InputStateMachineEngine.cpp], which
    turns the text that a terminal sends back into key presses and mouse events,
    and [InteractDispatch] ([src/src/terminal/adapter/InteractDispatch.cpp]), which
    writes them into the console. *)

From Stdlib Require Import Ascii.
From stdpp Require Import strings.
From S2P Require Import Prelude DispatchTypes StateMachine OutputEngine TextColor TextAttribute SgrStack Sgr Viewport OutputCell CharRow Row Cursor InputEvent TerminalOutput AdaptDispatch.
Import AsciiChars.

(** ** The dispatch *)

Inductive InteractCall :=
  | WriteInput (inputEvents : list IInputEvent)
  | WriteCtrlKey (event : KeyEvent)
  | WriteString (string : wstring)
  | Interact_WindowManipulation (function : Z) (parameter1 parameter2 : VTParameter)
  | MoveCursor (row col : Z).

Class IInteractDispatch (D : Type) := {
  interact : InteractCall → prog D bool;
  IsVtInputEnabled : prog D bool
}.

(** [std::chrono::steady_clock], part of what the dispatch belongs to. *)
Class SteadyClock (D : Type) := steady_clock_now : D → Z.

(** ** The state *)

Record InputStateMachineEngine (D : Type) := mkInputEngine {
  _pDispatch : D;
  _pfnFlushToInputQueue : bool; (* whether the callback is set *)
  _lookingForDSR : bool;
  _mouseButtonState : Z;
  _doubleClickTime : Z;
  _lastMouseClickPos : option (Z * Z);
  _lastMouseClickTime : option Z;
  _lastMouseClickButton : option Z
}.
Arguments mkInputEngine {D} _ _ _ _ _ _ _ _.
Arguments _pDispatch {D} _.
Arguments _pfnFlushToInputQueue {D} _.
Arguments _lookingForDSR {D} _.
Arguments _mouseButtonState {D} _.
Arguments _doubleClickTime {D} _.
Arguments _lastMouseClickPos {D} _.
Arguments _lastMouseClickTime {D} _.
Arguments _lastMouseClickButton {D} _.

Definition InputEngine_init {D} (pDispatch : D) (lookingForDSR : bool) (doubleClickTime : Z) : InputStateMachineEngine D :=
  mkInputEngine pDispatch false lookingForDSR 0 doubleClickTime None None None.

(** ** Tables *)

Definition KEYSCAN_SHIFT : Z := 1.
Definition KEYSCAN_CTRL : Z := 2.
Definition KEYSCAN_ALT : Z := 4.
Definition VT_SHIFT : Z := 1.
Definition VT_ALT : Z := 2.
Definition VT_CTRL : Z := 4.
Definition SCROLL_DELTA_BACKWARD : Z := 0xFF800000.
Definition SCROLL_DELTA_FORWARD : Z := 0x00800000.

(** [CsiActionCodes] *)
Definition Code_ArrowUp : Z := VTID "A".
Definition Code_ArrowDown : Z := VTID "B".
Definition Code_ArrowRight : Z := VTID "C".
Definition Code_ArrowLeft : Z := VTID "D".
Definition Code_Home : Z := VTID "H".
Definition Code_End : Z := VTID "F".
Definition Code_MouseDown : Z := VTID "<M".
Definition Code_MouseUp : Z := VTID "<m".
Definition Code_Generic : Z := VTID "~".
Definition CSI_F1 : Z := VTID "P".
Definition CSI_F2 : Z := VTID "Q".
Definition CSI_F3 : Z := VTID "R".
Definition CSI_F4 : Z := VTID "S".
Definition DTTERM_WindowManipulation : Z := VTID "t".
Definition CursorBackTab : Z := VTID "Z".
Definition Win32KeyboardInput : Z := VTID "_".

(** [CsiMouseButtonCodes] and [CsiMouseModifierCodes] *)
Definition Button_Left : Z := 0.
Definition Button_Middle : Z := 1.
Definition Button_Right : Z := 2.
Definition Button_Released : Z := 3.
Definition Button_ScrollForward : Z := 4.
Definition Button_ScrollBack : Z := 5.
Definition MouseModifier_Shift : Z := 4.
Definition MouseModifier_Meta : Z := 8.
Definition MouseModifier_Ctrl : Z := 16.
Definition MouseModifier_Drag : Z := 32.

Definition s_csiMap : list (Z * Z) :=
  [(Code_ArrowUp, VK_UP); (Code_ArrowDown, VK_DOWN); (Code_ArrowRight, VK_RIGHT); (Code_ArrowLeft, VK_LEFT);
   (Code_Home, VK_HOME); (Code_End, VK_END); (CSI_F1, VK_F1); (CSI_F2, VK_F2); (CSI_F3, VK_F3); (CSI_F4, VK_F4)].

(** The identifiers of [GenericKeyIdentifiers]. *)
Definition s_genericMap : list (Z * Z) :=
  [(1, VK_HOME); (2, VK_INSERT); (3, VK_DELETE); (4, VK_END); (5, VK_PRIOR); (6, VK_NEXT); (15, VK_F5); (17, VK_F6);
   (18, VK_F7); (19, VK_F8); (20, VK_F9); (21, VK_F10); (23, VK_F11); (24, VK_F12)].

(** The characters of [Ss3ActionCodes]. *)
Definition s_ss3Map : list (Z * Z) :=
  [(chr "A"%char, VK_UP); (chr "B"%char, VK_DOWN); (chr "C"%char, VK_RIGHT); (chr "D"%char, VK_LEFT);
   (chr "F"%char, VK_END); (chr "H"%char, VK_HOME); (chr "P"%char, VK_F1); (chr "Q"%char, VK_F2);
   (chr "R"%char, VK_F3); (chr "S"%char, VK_F4)].

(** [std::find] in a table; the key that is found. *)
Definition find_vkey (table : list (Z * Z)) (code : Z) : option Z :=
  snd <$> (snd <$> list_find (λ p, p.1 = code) table).

Definition _GetGenericVkey (identifier : Z) : option Z := find_vkey s_genericMap identifier.
Definition _GetCursorKeysVkey (id : Z) : option Z := find_vkey s_csiMap id.
Definition _GetSs3KeysVkey (wch : wchar) : option Z := find_vkey s_ss3Map wch.

(** ** Modifiers *)

Definition _GetModifier (modifierParam : Z) : Z :=
  let vtParam := u64 (modifierParam - 1) in
  let modifierState := SetFlagIf 0 ENHANCED_KEY (modifierParam >? 0) in
  let modifierState := SetFlagIf modifierState SHIFT_PRESSED (IsFlagSet vtParam VT_SHIFT) in
  let modifierState := SetFlagIf modifierState LEFT_ALT_PRESSED (IsFlagSet vtParam VT_ALT) in
  SetFlagIf modifierState LEFT_CTRL_PRESSED (IsFlagSet vtParam VT_CTRL).

Definition _GetCursorKeysModifierState (parameters : VTParameters) (id : Z) : Z :=
  let modifiers := _GetModifier (as_numeric (params_at parameters 1)) in
  if (id <? CSI_F1) || (id >? CSI_F4) then SetFlag modifiers ENHANCED_KEY else modifiers.

Definition _GetGenericKeysModifierState (parameters : VTParameters) : Z :=
  let modifiers := _GetModifier (as_numeric (params_at parameters 1)) in
  let identifier := as_selective (params_at parameters 0) in
  if identifier <=? 6 then SetFlag modifiers ENHANCED_KEY else modifiers.

Definition _GetSGRMouseModifierState (modifierParam : Z) : Z :=
  let modifiers := SetFlagIf 0 SHIFT_PRESSED (IsFlagSet modifierParam MouseModifier_Shift) in
  let modifiers := SetFlagIf modifiers LEFT_ALT_PRESSED (IsFlagSet modifierParam MouseModifier_Meta) in
  SetFlagIf modifiers LEFT_CTRL_PRESSED (IsFlagSet modifierParam MouseModifier_Ctrl).

(** [saturated_cast] of an unsigned number. *)
Definition saturated (max n : Z) : Z := if n >? max then max else n.

Definition _GenerateWin32Key (parameters : VTParameters) : KeyEvent :=
  let param i := value_or (params_at parameters i) 0 in
  SetRepeatCount (saturated 65535 (value_or (params_at parameters 5) 1))
    (SetActiveModifierKeys (saturated 4294967295 (param 4))
      (SetKeyDown (negb (param 3 =? 0))
        (SetCharData (saturated 65535 (param 2))
          (SetVirtualScanCode (saturated 65535 (param 1))
            (SetVirtualKeyCode (saturated 65535 (param 0)) KeyEvent_default))))).

Section keys.
Context `{Keyboard}.

(** ** Key presses *)

(** The test for a failed scan never holds: the parts are bytes, not -1. *)
Definition _GenerateKeyFromChar (wch : wchar) : option (Z * Z) :=
  let keyscan := VkKeyScanW wch in
  let key := LOBYTE keyscan in
  let keyscanModifiers := HIBYTE keyscan in
  if (key =? -1) && (keyscanModifiers =? -1) then None
  else
    let modifierFlags :=
      Z.lor (if IsFlagSet keyscanModifiers KEYSCAN_SHIFT then SHIFT_PRESSED else 0)
        (Z.lor (if IsFlagSet keyscanModifiers KEYSCAN_CTRL then LEFT_CTRL_PRESSED else 0)
          (if IsFlagSet keyscanModifiers KEYSCAN_ALT then LEFT_ALT_PRESSED else 0)) in
    Some (key, modifierFlags).

Definition scan_code (vkey : Z) : Z := u16 (MapVirtualKey_VSC vkey).

Definition _GetSingleKeypress (wch : wchar) (vkey modifierState : Z) (input : list KeyEvent) : list KeyEvent :=
  let rec := mkKeyEvent true 1 vkey (scan_code vkey) wch modifierState in
  input ++ [rec; SetKeyDown false rec].

Definition _GenerateWrappedSequence (wch : wchar) (vkey modifierState : Z) (input : list KeyEvent) : list KeyEvent :=
  let shift := IsFlagSet modifierState SHIFT_PRESSED in
  let ctrl := IsFlagSet modifierState LEFT_CTRL_PRESSED in
  let alt := IsFlagSet modifierState LEFT_ALT_PRESSED in
  let press (b down : bool) (vk : Z) (mods : Z) (input : list KeyEvent) :=
    if b then input ++ [mkKeyEvent down 1 vk (scan_code vk) 0 mods] else input in
  let m0 := 0 in
  let m1 := if shift then SetFlag m0 SHIFT_PRESSED else m0 in
  let input := press shift true VK_SHIFT m1 input in
  let m2 := if alt then SetFlag m1 LEFT_ALT_PRESSED else m1 in
  let input := press alt true VK_MENU m2 input in
  let m3 := if ctrl then SetFlag m2 LEFT_CTRL_PRESSED else m2 in
  let input := press ctrl true VK_CONTROL m3 input in
  let input := _GetSingleKeypress wch vkey modifierState input in
  let m4 := if ctrl then ClearFlag m3 LEFT_CTRL_PRESSED else m3 in
  let input := press ctrl false VK_CONTROL m4 input in
  let m5 := if alt then ClearFlag m4 LEFT_ALT_PRESSED else m4 in
  let input := press alt false VK_MENU m5 input in
  let m6 := if shift then ClearFlag m5 SHIFT_PRESSED else m5 in
  press shift false VK_SHIFT m6 input.

(** ** The engine *)

Section engine.
Context {D : Type} `{IInteractDispatch D} `{SteadyClock D}.

#[local] Abbreviation Engine := (InputStateMachineEngine D).
#[local] Abbreviation M := (prog (EngineView Engine)).

Definition set_dispatch (d : D) (e : Engine) : Engine :=
  mkInputEngine d (_pfnFlushToInputQueue e) (_lookingForDSR e) (_mouseButtonState e) (_doubleClickTime e)
    (_lastMouseClickPos e) (_lastMouseClickTime e) (_lastMouseClickButton e).
Definition set_looking (b : bool) (e : Engine) : Engine :=
  mkInputEngine (_pDispatch e) (_pfnFlushToInputQueue e) b (_mouseButtonState e) (_doubleClickTime e)
    (_lastMouseClickPos e) (_lastMouseClickTime e) (_lastMouseClickButton e).
Definition set_buttons (s : Z) (e : Engine) : Engine :=
  mkInputEngine (_pDispatch e) (_pfnFlushToInputQueue e) (_lookingForDSR e) s (_doubleClickTime e)
    (_lastMouseClickPos e) (_lastMouseClickTime e) (_lastMouseClickButton e).
Definition set_last_click (c : option (Z * Z) * option Z * option Z) (e : Engine) : Engine :=
  mkInputEngine (_pDispatch e) (_pfnFlushToInputQueue e) (_lookingForDSR e) (_mouseButtonState e) (_doubleClickTime e)
    c.1.1 c.1.2 c.2.

Definition SetFlushToInputQueueCallback (pfn : bool) (e : Engine) : Engine :=
  mkInputEngine (_pDispatch e) pfn (_lookingForDSR e) (_mouseButtonState e) (_doubleClickTime e)
    (_lastMouseClickPos e) (_lastMouseClickTime e) (_lastMouseClickButton e).

Definition on_dispatch {A} (m : prog D A) : prog Engine A := on_part _pDispatch set_dispatch m.
Definition in_engine {A} (m : prog Engine A) : M A := on_engine m.
Definition write (c : InteractCall) : M bool := in_engine (on_dispatch (interact c)).

(** [IsVtInputEnabled() && _pfnFlushToInputQueue] *)
Definition passes_through : M bool :=
  vt ← in_engine (on_dispatch IsVtInputEnabled);
  hasFlush ← gets (λ v, _pfnFlushToInputQueue (ev_engine v));
  mret (vt && hasFlush).

Definition _WriteSingleKey (wch : wchar) (vkey modifierState : Z) : M bool :=
  write (WriteInput (Key <$> _GenerateWrappedSequence wch vkey modifierState [])).

Definition _WriteSingleKey_vkey (vkey modifierState : Z) : M bool :=
  _WriteSingleKey (u16 (MapVirtualKey_CHAR vkey)) vkey modifierState.

(** [til::point] to [COORD] *)
Definition point_COORD {W} (p : Z * Z) : prog W COORD :=
  if (-32768 <=? p.1) && (p.1 <=? 32767) && (-32768 <=? p.2) && (p.2 <=? 32767)
  then mret (mkCOORD p.1 p.2) else throw EAbort.

(** [til::point] of two numbers of type [size_t] *)
Definition make_point {W} (x y : Z) : prog W (Z * Z) :=
  if (x <? 2 ^ 63) && (y <? 2 ^ 63) then mret (x, y) else throw EAbort.

Definition _WriteMouseEvent (uiPos : Z * Z) (buttonState controlKeyState eventFlags : Z) : M bool :=
  position ← point_COORD uiPos;
  write (WriteInput [Mouse (mkMouseEvent position buttonState controlKeyState eventFlags)]).

(** *** Text *)

Definition InputEngine_ActionPrint (wch : wchar) (flush : M bool) : M bool :=
  match _GenerateKeyFromChar wch with
  | Some (vkey, modifierState) => _WriteSingleKey wch vkey modifierState
  | None => mret false
  end.

(** The character that is written, whether Ctrl is added, and the key. *)
Definition control_key (wch : wchar) : option (wchar * bool * Z * Z) :=
  if wch =? BS then '(vkey, _) ← _GenerateKeyFromChar DEL; Some (DEL, true, vkey, 0)
  else if wch =? CR then '(vkey, _) ← _GenerateKeyFromChar wch; Some (wch, false, vkey, 0)
  else if wch =? ESC then Some (wch, false, VK_ESCAPE, 0)
  else if wch =? TAB then '(vkey, modifierState) ← _GenerateKeyFromChar wch; Some (wch, false, vkey, modifierState)
  else '(vkey, modifierState) ← _GenerateKeyFromChar wch; Some (wch, true, vkey, modifierState).

Definition _DoControlCharacter (wch : wchar) (writeAlt : bool) (flush : M bool) : M bool :=
  if (wch =? 0x03) && negb writeAlt then
    let '(keyDown, keyUp) := MakePair 1 0x43 0 0x03 LEFT_CTRL_PRESSED in
    and_also (write (WriteCtrlKey keyDown)) (write (WriteCtrlKey keyUp))
  else if (0 <=? wch) && (wch <? 0x20) then
    match control_key wch with
    | Some (actualChar, writeCtrl, vkey, modifierState) =>
        let modifierState := SetFlagIf modifierState LEFT_CTRL_PRESSED writeCtrl in
        let modifierState := SetFlagIf modifierState LEFT_ALT_PRESSED writeAlt in
        _WriteSingleKey actualChar vkey modifierState
    | None => mret false
    end
  else if wch =? DEL then _WriteSingleKey BS VK_BACK (if writeAlt then LEFT_ALT_PRESSED else 0)
  else InputEngine_ActionPrint wch flush.

Definition InputEngine_ActionExecute (wch : wchar) (flush : M bool) : M bool := _DoControlCharacter wch false flush.

Definition InputEngine_ActionExecuteFromEscape (wch : wchar) (flush : M bool) : M bool :=
  pass ← passes_through;
  if (pass : bool) then flush else _DoControlCharacter wch true flush.

Definition InputEngine_ActionPrintString (string : wstring) (flush : M bool) : M bool :=
  match string with
  | [] => mret true
  | _ => write (WriteString string)
  end.

(** The characters as key events without a key. *)
Definition char_events (string : wstring) : list IInputEvent :=
  (λ wch, Key (mkKeyEvent true 1 0 0 wch 0)) <$> string.

(** [try { return m; } catch (...) { }] and what follows. *)
Definition try_or {W A} (m rest : prog W A) : prog W A := λ w,
  match m w with Ok a w' => Ok a w' | Throw _ w' => rest w' end.

Definition InputEngine_ActionPassThroughString (string : wstring) : prog Engine bool :=
  vt ← on_dispatch IsVtInputEnabled;
  match string with
  | [] => mret true
  | _ =>
      let print := on_dispatch (interact (WriteString string)) in
      if (vt : bool) then try_or (on_dispatch (interact (WriteInput (char_events string)))) print else print
  end.

Definition InputEngine_ActionEscDispatch (id : Z) (flush : M bool) : M bool :=
  pass ← passes_through;
  if (pass : bool) then flush
  else
    let wch := u16 id in
    if wch =? 0x7f then _DoControlCharacter wch true flush
    else
      match _GenerateKeyFromChar wch with
      | Some (vk, modifierState) => _WriteSingleKey wch vk (SetFlag modifierState LEFT_ALT_PRESSED)
      | None => mret false
      end.

Definition InputEngine_ActionVt52EscDispatch (id : Z) (parameters : VTParameters) (flush : M bool) : M bool := mret false.

(** *** The mouse *)

(** Step 1: the flag of the button, the state and the flags of the event. *)
Definition button_of (buttonID buttonState : Z) : option (Z * Z * Z) :=
  if buttonID =? Button_Left then Some (FROM_LEFT_1ST_BUTTON_PRESSED, buttonState, 0)
  else if buttonID =? Button_Right then Some (RIGHTMOST_BUTTON_PRESSED, buttonState, 0)
  else if buttonID =? Button_Middle then Some (FROM_LEFT_2ND_BUTTON_PRESSED, buttonState, 0)
  else if buttonID =? Button_ScrollBack then Some (0, SetFlag buttonState SCROLL_DELTA_BACKWARD, MOUSE_WHEELED)
  else if buttonID =? Button_ScrollForward then Some (0, SetFlag buttonState SCROLL_DELTA_FORWARD, MOUSE_WHEELED)
  else if buttonID =? Button_Released then Some (0, buttonState, 0)
  else None.

(** Whether a press is the second one of a double click. *)
Definition is_double_click (uiPos : Z * Z) (currentTime buttonID : Z) (e : Engine) : bool :=
  match _lastMouseClickPos e, _lastMouseClickTime e, _lastMouseClickButton e with
  | Some pos, Some time, Some button =>
      bool_decide (uiPos = pos) && (currentTime - time <? _doubleClickTime e) && (buttonID =? button)
  | _, _, _ => false
  end.

(** The result is the state of the buttons and the flags of the event. *)
Definition _UpdateSGRMouseButtonState (id sgrEncoding : Z) (uiPos : Z * Z) : prog Engine (option (Z * Z)) :=
  buttonState ← gets _mouseButtonState;
  let buttonID := Z.lor (Z.land sgrEncoding 0x3) (Z.shiftr (Z.land sgrEncoding 0xC0) 4) in
  currentTime ← gets (λ e, steady_clock_now (_pDispatch e));
  match button_of buttonID buttonState with
  | None => mret None
  | Some (buttonFlag, buttonState, eventFlags) =>
      state ← (if id =? Code_MouseDown then
                 double ← gets (is_double_click uiPos currentTime buttonID);
                 (if (double : bool) then modify (set_last_click (None, None, None))
                  else if (buttonID =? Button_Left) || (buttonID =? Button_Right) || (buttonID =? Button_Middle)
                       then modify (set_last_click (Some uiPos, Some currentTime, Some buttonID))
                       else mret tt);;
                 mret (Some (SetFlag buttonState buttonFlag, if (double : bool) then SetFlag eventFlags DOUBLE_CLICK else eventFlags))
               else if id =? Code_MouseUp then mret (Some (ClearFlag buttonState buttonFlag, eventFlags))
               else mret None);
      match state with
      | None => mret None
      | Some (buttonState, eventFlags) =>
          let eventFlags := if IsFlagSet sgrEncoding MouseModifier_Drag then SetFlag eventFlags MOUSE_MOVED else eventFlags in
          modify (set_buttons (LOWORD buttonState));;
          mret (Some (buttonState, eventFlags))
      end
  end.

Definition mouse_sequence (id : Z) (parameters : VTParameters) : M bool :=
  let firstParameter := value_or (params_at parameters 0) 0 in
  uiPos ← make_point (u64 (as_numeric (params_at parameters 1) - 1)) (u64 (as_numeric (params_at parameters 2) - 1));
  let modifierState := _GetSGRMouseModifierState firstParameter in
  state ← in_engine (_UpdateSGRMouseButtonState id firstParameter uiPos);
  match state with
  | Some (buttonState, eventFlags) => _WriteMouseEvent uiPos buttonState modifierState eventFlags
  | None => mret false
  end.

(** *** Control sequences *)

Definition cursor_key (id : Z) (parameters : VTParameters) : M bool :=
  match _GetCursorKeysVkey id with
  | Some vkey => _WriteSingleKey_vkey vkey (_GetCursorKeysModifierState parameters id)
  | None => mret false
  end.

(** The answer to a question for the cursor, or F3. *)
Definition cursor_report_or_key (id : Z) (parameters : VTParameters) : M bool :=
  looking ← gets (λ v, _lookingForDSR (ev_engine v));
  if (looking : bool) then
    success ← write (MoveCursor (as_numeric (params_at parameters 0)) (as_numeric (params_at parameters 1)));
    in_engine (modify (set_looking false));;
    mret success
  else cursor_key id parameters.

Definition generic_key (parameters : VTParameters) : M bool :=
  match _GetGenericVkey (as_selective (params_at parameters 0)) with
  | Some vkey => _WriteSingleKey_vkey vkey (_GetGenericKeysModifierState parameters)
  | None => mret false
  end.

Definition input_csi_cases (id : Z) (parameters : VTParameters) : list (Z * M bool) :=
  let at_ i := params_at parameters i in
  [ (Code_MouseDown, mouse_sequence id parameters);
    (Code_MouseUp, mouse_sequence id parameters);
    (CSI_F3, cursor_report_or_key id parameters);
    (Code_ArrowUp, cursor_key id parameters);
    (Code_ArrowDown, cursor_key id parameters);
    (Code_ArrowRight, cursor_key id parameters);
    (Code_ArrowLeft, cursor_key id parameters);
    (Code_Home, cursor_key id parameters);
    (Code_End, cursor_key id parameters);
    (CSI_F1, cursor_key id parameters);
    (CSI_F2, cursor_key id parameters);
    (CSI_F4, cursor_key id parameters);
    (Code_Generic, generic_key parameters);
    (CursorBackTab, _WriteSingleKey_vkey VK_TAB SHIFT_PRESSED);
    (DTTERM_WindowManipulation, write (Interact_WindowManipulation (as_selective (at_ 0)) (at_ 1) (at_ 2)));
    (Win32KeyboardInput, write (WriteCtrlKey (_GenerateWin32Key parameters))) ].

Definition InputEngine_ActionCsiDispatch (id : Z) (parameters : VTParameters) (flush : M bool) : M bool :=
  pass ← passes_through;
  if pass && negb (id =? Win32KeyboardInput) then flush
  else switch id (input_csi_cases id parameters) (mret false).

Definition InputEngine_ActionDcsDispatch (id : Z) (parameters : VTParameters) (flush : M bool) : M (option Empty_set) :=
  mret None.

Definition InputEngine_ActionClear (flush : M bool) : M bool := mret true.

Definition InputEngine_ActionOscDispatch (wch : wchar) (parameter : Z) (string : wstring) (flush : M bool) : M bool :=
  mret false.

Definition InputEngine_ActionSs3Dispatch (wch : wchar) (parameters : VTParameters) (flush : M bool) : M bool :=
  pass ← passes_through;
  if (pass : bool) then flush
  else match _GetSs3KeysVkey wch with
       | Some vkey => _WriteSingleKey_vkey vkey 0
       | None => mret false
       end.

#[export] Instance InputEngine_engine : IStateMachineEngine Engine Empty_set := {|
  ActionExecute := InputEngine_ActionExecute;
  ActionExecuteFromEscape := InputEngine_ActionExecuteFromEscape;
  ActionPrint := InputEngine_ActionPrint;
  ActionPrintString := InputEngine_ActionPrintString;
  ActionPassThroughString := InputEngine_ActionPassThroughString;
  ActionEscDispatch := InputEngine_ActionEscDispatch;
  ActionVt52EscDispatch := InputEngine_ActionVt52EscDispatch;
  ActionCsiDispatch := InputEngine_ActionCsiDispatch;
  ActionDcsDispatch := InputEngine_ActionDcsDispatch;
  ActionClear := InputEngine_ActionClear;
  ActionOscDispatch := InputEngine_ActionOscDispatch;
  ActionSs3Dispatch := InputEngine_ActionSs3Dispatch;
  StringHandler_call := λ h, match h with end;
  ParseControlSequenceAfterSs3 := λ _, true;
  FlushAtEndOfString := λ _, true;
  DispatchControlCharsFromEscape := λ _, true;
  DispatchIntermediatesFromEscape := λ _, true
|}.
End engine.

(** ** The dispatch on a console *)

Section console.
Context {C : Type} `{ConsoleApi C}.

Definition Interact_WriteInput (inputEvents : list IInputEvent) : prog C bool := con_call (PrivateWriteConsoleInputW inputEvents).

Definition Interact_WriteCtrlKey (event : KeyEvent) : prog C bool := con_call (PrivateWriteConsoleControlInput event).

(** The events of the characters of a string, in order. *)
Fixpoint string_events (string : wstring) (codepage : Z) : prog C (list KeyEvent) :=
  match string with
  | [] => mret []
  | wch :: string =>
      match CharToKeyEvents wch codepage with
      | inr events => rest ← string_events string codepage; mret (events ++ rest)
      | inl e => throw e
      end
  end.

Definition Interact_WriteString (string : wstring) : prog C bool :=
  match string with
  | [] => mret true
  | _ =>
      '(success, codepage) ← GetConsoleOutputCP;
      if (success : bool) then
        keyEvents ← string_events string codepage;
        Interact_WriteInput (Key <$> keyEvents)
      else mret false
  end.

Definition Interact_Window (function : Z) (parameter1 parameter2 : VTParameter) : prog C bool :=
  switch function
    [(7, s_RefreshWindow);
     (8, success ← s_ResizeWindow (value_or parameter2 0) (value_or parameter1 0);
         if (success : bool) then _ ← s_SuppressResizeRepaint; mret true else mret false)]
    (mret false).

(** [gsl::narrow<SHORT>] *)
Definition narrow_SHORT {W} (z : Z) : prog W Z :=
  if (-32768 <=? z) && (z <=? 32767) then mret z else throw NarrowingError.

Definition Interact_MoveCursor (row col : Z) : prog C bool :=
  if negb (row =? 0) && negb (col =? 0) then
    '(success, csbiex) ← GetConsoleScreenBufferInfoEx;
    if (success : bool) then
      match SizeTToShort (row - 1), SizeTToShort (col - 1) with
      | Some y, Some x =>
          match ShortAdd y (rTop (srWindow csbiex)), ShortAdd x (rLeft (srWindow csbiex)) with
          | Some y, Some x =>
              bottom ← narrow_SHORT (rBottom (srWindow csbiex) - 1);
              y ← checked_clamp y (rTop (srWindow csbiex)) bottom;
              right ← narrow_SHORT (rRight (srWindow csbiex) - 1);
              x ← checked_clamp x (rLeft (srWindow csbiex)) right;
              con_call (SetConsoleCursorPosition (mkCOORD x y))
          | _, _ => mret false
          end
      | _, _ => mret false
      end
    else mret false
  else mret false.

#[export] Instance console_interact : IInteractDispatch C :=
  {| interact c :=
       match c with
       | WriteInput events => Interact_WriteInput events
       | WriteCtrlKey event => Interact_WriteCtrlKey event
       | WriteString string => Interact_WriteString string
       | Interact_WindowManipulation f p1 p2 => Interact_Window f p1 p2
       | MoveCursor row col => Interact_MoveCursor row col
       end;
     IsVtInputEnabled := PrivateIsVtInputEnabled |}.
End console.
End keys.
