(* ===== verification/TerminalInput.v ===== *)
(** Keys and mouse as text: [src/src/terminal/input/terminalInput.cpp] and [.hpp],
    [mouseInput.cpp], [mouseInputState.cpp]. *)

From Stdlib Require Import Ascii.
From stdpp Require Import strings.
From S2P Require Import Prelude DispatchTypes Utf16 Viewport InputEvent.

(** ** The state *)

Inductive ExtendedMode := Extended_None | Extended_Utf8 | Extended_Sgr | Extended_Urxvt.
Inductive TrackingMode := Tracking_None | Tracking_Default | Tracking_ButtonEvent | Tracking_AnyEvent.

#[global] Instance TrackingMode_dec : EqDecision TrackingMode.
Proof. solve_decision. Defined.

Record MouseInputState := mkMouseInputState {
  extendedMode : ExtendedMode;
  trackingMode : TrackingMode;
  alternateScroll : bool;
  inAlternateBuffer : bool;
  lastPos : COORD;
  lastButton : Z;
  accumulatedDelta : Z
}.

Definition MouseInputState_init : MouseInputState :=
  mkMouseInputState Extended_None Tracking_None false false (mkCOORD (-1) (-1)) 0 0.

(** [_written]: what the callback [_pfnWriteEvents] was given, call by call. *)
Record TerminalInput := mkTerminalInput {
  _written : list (list IInputEvent);
  _leadingSurrogate : option wchar;
  _ansiMode : bool;
  _keypadApplicationMode : bool;
  _cursorApplicationMode : bool;
  _win32InputMode : bool;
  _forceDisableWin32InputMode : bool;
  _mouseInputState : MouseInputState
}.

Definition TerminalInput_init : TerminalInput :=
  mkTerminalInput [] None true false false false false MouseInputState_init.

Definition _pfnWriteEvents (events : list IInputEvent) (t : TerminalInput) : TerminalInput :=
  mkTerminalInput (_written t ++ [events]) (_leadingSurrogate t) (_ansiMode t) (_keypadApplicationMode t)
    (_cursorApplicationMode t) (_win32InputMode t) (_forceDisableWin32InputMode t) (_mouseInputState t).

Definition set_surrogate (s : option wchar) (t : TerminalInput) : TerminalInput :=
  mkTerminalInput (_written t) s (_ansiMode t) (_keypadApplicationMode t)
    (_cursorApplicationMode t) (_win32InputMode t) (_forceDisableWin32InputMode t) (_mouseInputState t).

Definition ChangeAnsiMode (ansiMode : bool) (t : TerminalInput) : TerminalInput :=
  mkTerminalInput (_written t) (_leadingSurrogate t) ansiMode (_keypadApplicationMode t)
    (_cursorApplicationMode t) (_win32InputMode t) (_forceDisableWin32InputMode t) (_mouseInputState t).

Definition ChangeKeypadMode (applicationMode : bool) (t : TerminalInput) : TerminalInput :=
  mkTerminalInput (_written t) (_leadingSurrogate t) (_ansiMode t) applicationMode
    (_cursorApplicationMode t) (_win32InputMode t) (_forceDisableWin32InputMode t) (_mouseInputState t).

Definition ChangeCursorKeysMode (applicationMode : bool) (t : TerminalInput) : TerminalInput :=
  mkTerminalInput (_written t) (_leadingSurrogate t) (_ansiMode t) (_keypadApplicationMode t)
    applicationMode (_win32InputMode t) (_forceDisableWin32InputMode t) (_mouseInputState t).

Definition ChangeWin32InputMode (win32InputMode : bool) (t : TerminalInput) : TerminalInput :=
  mkTerminalInput (_written t) (_leadingSurrogate t) (_ansiMode t) (_keypadApplicationMode t)
    (_cursorApplicationMode t) win32InputMode (_forceDisableWin32InputMode t) (_mouseInputState t).

Definition ForceDisableWin32InputMode (win32InputMode : bool) (t : TerminalInput) : TerminalInput :=
  mkTerminalInput (_written t) (_leadingSurrogate t) (_ansiMode t) (_keypadApplicationMode t)
    (_cursorApplicationMode t) (_win32InputMode t) win32InputMode (_mouseInputState t).

Definition set_mouse (m : MouseInputState) (t : TerminalInput) : TerminalInput :=
  mkTerminalInput (_written t) (_leadingSurrogate t) (_ansiMode t) (_keypadApplicationMode t)
    (_cursorApplicationMode t) (_win32InputMode t) (_forceDisableWin32InputMode t) m.

(** ** The tables of keys *)

Record TermKeyMap := mkTermKeyMap { km_vkey : Z; km_modifiers : Z; km_sequence : wstring }.

Definition key_map (vkey : Z) (sequence : wstring) : TermKeyMap := mkTermKeyMap vkey 0 sequence.

Definition esc (s : string) : wstring := 0x1B :: wstr s.

Definition s_cursorKeysNormalMapping : list TermKeyMap :=
  [key_map VK_UP (esc "[A"); key_map VK_DOWN (esc "[B"); key_map VK_RIGHT (esc "[C"); key_map VK_LEFT (esc "[D");
   key_map VK_HOME (esc "[H"); key_map VK_END (esc "[F")].

Definition s_cursorKeysApplicationMapping : list TermKeyMap :=
  [key_map VK_UP (esc "OA"); key_map VK_DOWN (esc "OB"); key_map VK_RIGHT (esc "OC"); key_map VK_LEFT (esc "OD");
   key_map VK_HOME (esc "OH"); key_map VK_END (esc "OF")].

Definition s_cursorKeysVt52Mapping : list TermKeyMap :=
  [key_map VK_UP (esc "A"); key_map VK_DOWN (esc "B"); key_map VK_RIGHT (esc "C"); key_map VK_LEFT (esc "D");
   key_map VK_HOME (esc "H"); key_map VK_END (esc "F")].

Definition s_keypadNumericMapping : list TermKeyMap :=
  [key_map VK_TAB [0x09]; key_map VK_BACK [0x7f]; key_map VK_PAUSE [0x1a]; key_map VK_ESCAPE [0x1b];
   key_map VK_INSERT (esc "[2~"); key_map VK_DELETE (esc "[3~"); key_map VK_PRIOR (esc "[5~"); key_map VK_NEXT (esc "[6~");
   key_map VK_F1 (esc "OP"); key_map VK_F2 (esc "OQ"); key_map VK_F3 (esc "OR"); key_map VK_F4 (esc "OS");
   key_map VK_F5 (esc "[15~"); key_map VK_F6 (esc "[17~"); key_map VK_F7 (esc "[18~"); key_map VK_F8 (esc "[19~");
   key_map VK_F9 (esc "[20~"); key_map VK_F10 (esc "[21~"); key_map VK_F11 (esc "[23~"); key_map VK_F12 (esc "[24~")].

Definition s_keypadApplicationMapping : list TermKeyMap :=
  [key_map VK_TAB [0x09]; key_map VK_BACK [0x7f]; key_map VK_PAUSE [0x1a]; key_map VK_ESCAPE [0x1b];
   key_map VK_INSERT (esc "[2~"); key_map VK_DELETE (esc "[3~"); key_map VK_PRIOR (esc "[5~"); key_map VK_NEXT (esc "[6~");
   key_map VK_F1 (esc "OP"); key_map VK_F2 (esc "OQ"); key_map VK_F3 (esc "OR"); key_map VK_F4 (esc "OS");
   key_map VK_F5 (esc "[15~"); key_map VK_F6 (esc "[17~"); key_map VK_F7 (esc "[18~"); key_map VK_F8 (esc "[19~");
   key_map VK_F9 (esc "[20~"); key_map VK_F10 (esc "[21~"); key_map VK_F11 (esc "[23~"); key_map VK_F12 (esc "[24~")].

Definition s_keypadVt52Mapping : list TermKeyMap :=
  [key_map VK_TAB [0x09]; key_map VK_BACK [0x7f]; key_map VK_PAUSE [0x1a]; key_map VK_ESCAPE [0x1b];
   key_map VK_INSERT (esc "[2~"); key_map VK_DELETE (esc "[3~"); key_map VK_PRIOR (esc "[5~"); key_map VK_NEXT (esc "[6~");
   key_map VK_F1 (esc "P"); key_map VK_F2 (esc "Q"); key_map VK_F3 (esc "R"); key_map VK_F4 (esc "S");
   key_map VK_F5 (esc "[15~"); key_map VK_F6 (esc "[17~"); key_map VK_F7 (esc "[18~"); key_map VK_F8 (esc "[19~");
   key_map VK_F9 (esc "[20~"); key_map VK_F10 (esc "[21~"); key_map VK_F11 (esc "[23~"); key_map VK_F12 (esc "[24~")].

Definition s_modifierKeyMapping : list TermKeyMap :=
  [key_map VK_UP (esc "[1;mA"); key_map VK_DOWN (esc "[1;mB"); key_map VK_RIGHT (esc "[1;mC");
   key_map VK_LEFT (esc "[1;mD"); key_map VK_HOME (esc "[1;mH"); key_map VK_END (esc "[1;mF");
   key_map VK_F1 (esc "[1;mP"); key_map VK_F2 (esc "[1;mQ"); key_map VK_F3 (esc "[1;mR"); key_map VK_F4 (esc "[1;mS");
   key_map VK_INSERT (esc "[2;m~"); key_map VK_DELETE (esc "[3;m~"); key_map VK_PRIOR (esc "[5;m~");
   key_map VK_NEXT (esc "[6;m~"); key_map VK_F5 (esc "[15;m~"); key_map VK_F6 (esc "[17;m~");
   key_map VK_F7 (esc "[18;m~"); key_map VK_F8 (esc "[19;m~"); key_map VK_F9 (esc "[20;m~");
   key_map VK_F10 (esc "[21;m~"); key_map VK_F11 (esc "[23;m~"); key_map VK_F12 (esc "[24;m~")].

Definition s_simpleModifiedKeyMapping : list TermKeyMap :=
  [mkTermKeyMap VK_BACK CTRL_PRESSED [0x8]; mkTermKeyMap VK_BACK ALT_PRESSED [0x1b; 0x7f];
   mkTermKeyMap VK_BACK (Z.lor CTRL_PRESSED ALT_PRESSED) [0x1b; 0x8]; mkTermKeyMap VK_TAB CTRL_PRESSED [0x9];
   mkTermKeyMap VK_TAB SHIFT_PRESSED (esc "[Z"); mkTermKeyMap VK_DIVIDE CTRL_PRESSED [0x1F];
   mkTermKeyMap 0x31 CTRL_PRESSED [0x31]; mkTermKeyMap 0x33 CTRL_PRESSED [0x1B]; mkTermKeyMap 0x34 CTRL_PRESSED [0x1C];
   mkTermKeyMap 0x35 CTRL_PRESSED [0x1D]; mkTermKeyMap 0x36 CTRL_PRESSED [0x1E]; mkTermKeyMap 0x37 CTRL_PRESSED [0x1F];
   mkTermKeyMap 0x38 CTRL_PRESSED [0x7F]; mkTermKeyMap 0x39 CTRL_PRESSED [0x39]].

Definition CTRL_SLASH_SEQUENCE : wstring := [0x1f].
Definition CTRL_QUESTIONMARK_SEQUENCE : wstring := [0x7F].
Definition CTRL_ALT_SLASH_SEQUENCE : wstring := [0x1b; 0x1f].
Definition CTRL_ALT_QUESTIONMARK_SEQUENCE : wstring := [0x1b; 0x7F].

Definition _getKeyMapping (keyEvent : KeyEvent) (ansiMode cursorApplicationMode keypadApplicationMode : bool)
    : list TermKeyMap :=
  if ansiMode then
    if IsCursorKey keyEvent then
      if cursorApplicationMode then s_cursorKeysApplicationMapping else s_cursorKeysNormalMapping
    else if keypadApplicationMode then s_keypadApplicationMapping else s_keypadNumericMapping
  else if IsCursorKey keyEvent then s_cursorKeysVt52Mapping else s_keypadVt52Mapping.

Definition modifiersMatch (keyEvent : KeyEvent) (map : TermKeyMap) : bool :=
  negb (IsAnyFlagSet (km_modifiers map) MOD_PRESSED)
  || (Bool.eqb (IsFlagSet (km_modifiers map) SHIFT_PRESSED) (IsShiftPressed keyEvent)
      && Bool.eqb (IsAnyFlagSet (km_modifiers map) ALT_PRESSED) (IsAltPressed keyEvent)
      && Bool.eqb (IsAnyFlagSet (km_modifiers map) CTRL_PRESSED) (IsCtrlPressed keyEvent)).

Fixpoint _searchKeyMapping (keyEvent : KeyEvent) (keyMapping : list TermKeyMap) : option TermKeyMap :=
  match keyMapping with
  | [] => None
  | map :: rest =>
      if (km_vkey map =? _virtualKeyCode keyEvent) && modifiersMatch keyEvent map then Some map
      else _searchKeyMapping keyEvent rest
  end.

(** ** What is sent *)

(** The events of characters that no key produced. *)
Definition char_key (wch : wchar) : IInputEvent := Key (mkKeyEvent true 1 0 0 wch 0).

Definition _SendInputSequence (sequence : wstring) (t : TerminalInput) : TerminalInput :=
  match sequence with
  | [] => t
  | _ => _pfnWriteEvents (char_key <$> sequence) t
  end.

Definition _SendEscapedInputSequence (wch : wchar) (t : TerminalInput) : TerminalInput :=
  _pfnWriteEvents [char_key 0x1b; char_key wch] t.

Definition _SendChar (ch : wchar) (t : TerminalInput) : TerminalInput :=
  if IsLeadingSurrogate ch then
    set_surrogate (Some ch)
      (match _leadingSurrogate t with
       | Some lead => _SendInputSequence (print_int lead) t
       | None => t
       end)
  else
    match _leadingSurrogate t with
    | Some lead => _SendInputSequence [lead; ch] (set_surrogate None t)
    | None => _SendInputSequence [ch] t
    end.

Definition _GenerateWin32KeySequence (key : KeyEvent) : wstring :=
  [0x1b; 0x5b] ++ print_int (_virtualKeyCode key) ++ [0x3b] ++ print_int (_virtualScanCode key) ++ [0x3b]
    ++ print_int (_charData key) ++ [0x3b] ++ print_int (if _keyDown key then 1 else 0) ++ [0x3b]
    ++ print_int (_activeModifierKeys key) ++ [0x3b] ++ print_int (_repeatCount key) ++ [0x5f].

Section keyboard.
Context `{Keyboard}.

Definition _SendNullInputSequence (controlKeyState : Z) (t : TerminalInput) : TerminalInput :=
  _pfnWriteEvents [Key (mkKeyEvent true 1 (LOBYTE (VkKeyScanW 0)) 0 0 controlKeyState)] t.

(** ** Keys *)

(** The searches return what they hand to the sender, which they call at most once.

    [modified.at(modified.size() - 2) = ...]; the sequences have at least two
    characters. *)
Definition encode_modifiers (keyEvent : KeyEvent) (sequence : wstring) : wstring :=
  <[(length sequence - 2)%nat :=
      0x31 + (if IsShiftPressed keyEvent then 1 else 0) + (if IsAltPressed keyEvent then 2 else 0)
        + (if IsCtrlPressed keyEvent then 4 else 0)]> sequence.

(** The modified '/' and '?', wherever the layout has them. *)
Definition slash_sequence (keyEvent : KeyEvent) : option wstring :=
  let slashKeyScan := VkKeyScanW 0x2F in
  let questionMarkKeyScan := VkKeyScanW 0x3F in
  let ctrl := IsCtrlPressed keyEvent in
  let alt := IsAltPressed keyEvent in
  let shift := IsShiftPressed keyEvent in
  let vkey := _virtualKeyCode keyEvent in
  let keyScanFromEvent :=
    i16 (Z.lor vkey (Z.lor (if shift then 0x100 else 0) (Z.lor (if ctrl then 0x200 else 0) (if alt then 0x400 else 0)))) in
  let wasQuestionMark := (vkey =? LOBYTE questionMarkKeyScan) && IsFlagSet keyScanFromEvent questionMarkKeyScan in
  let wasSlash := (vkey =? LOBYTE slashKeyScan) && IsFlagSet keyScanFromEvent slashKeyScan in
  if ctrl && alt && wasQuestionMark then Some CTRL_ALT_QUESTIONMARK_SEQUENCE
  else if ctrl && wasQuestionMark then Some CTRL_QUESTIONMARK_SEQUENCE
  else if ctrl && alt && wasSlash then Some CTRL_ALT_SLASH_SEQUENCE
  else if ctrl && wasSlash then Some CTRL_SLASH_SEQUENCE
  else None.

Definition _searchWithModifier (keyEvent : KeyEvent) : option wstring :=
  match _searchKeyMapping keyEvent s_modifierKeyMapping with
  | Some v => match km_sequence v with [] => None | sequence => Some (encode_modifiers keyEvent sequence) end
  | None =>
      match _searchKeyMapping keyEvent s_simpleModifiedKeyMapping with
      | Some v => Some (km_sequence v)
      | None => slash_sequence keyEvent
      end
  end.

Definition _translateDefaultMapping (keyEvent : KeyEvent) (keyMapping : list TermKeyMap) : option wstring :=
  km_sequence <$> _searchKeyMapping keyEvent keyMapping.

(** Alt and Ctrl with a letter, space or '@': the character after the escape. *)
Definition alt_ctrl_char (keyEvent : KeyEvent) : option wchar :=
  let ch := _charData keyEvent in
  let vkey := _virtualKeyCode keyEvent in
  let ctrlAltChar := if ch =? 0 then vkey else ch in
  if (ctrlAltChar =? 0x20) || ((ctrlAltChar >? 0x40) && (ctrlAltChar <=? 0x5A)) then Some (Z.land ctrlAltChar 31)
  else if (ch =? 0) && (vkey =? LOBYTE (VkKeyScanW 0)) then Some 0
  else None.

(** Ctrl alone: a null character, or the control character of the key. *)
Definition ctrl_key (keyEvent : KeyEvent) (t : TerminalInput) : option TerminalInput :=
  let ch := _charData keyEvent in
  let vkey := _virtualKeyCode keyEvent in
  if (ch =? 0x20) || ((ch =? 0) && (vkey =? LOBYTE (VkKeyScanW 0)))
  then Some (_SendNullInputSequence (_activeModifierKeys keyEvent) t)
  else if ch =? 0 then
    let mappedChar := LOWORD (MapVirtualKey_CHAR vkey) in
    if mappedChar =? 0 then None else Some (_SendChar (Z.land mappedChar 31) t)
  else None.

(** From the tables on: keys that no combination above has taken. *)
Definition plain_key (keyEvent : KeyEvent) (t : TerminalInput) : TerminalInput * bool :=
  let mapping := _getKeyMapping keyEvent (_ansiMode t) (_cursorApplicationMode t) (_keypadApplicationMode t) in
  match _translateDefaultMapping keyEvent mapping with
  | Some seq => (_SendInputSequence seq t, true)
  | None => if _charData keyEvent =? 0 then (t, false) else (_SendChar (_charData keyEvent) t, true)
  end.

(** A key that is pressed, with the flags of AltGr removed. *)
Definition modified_key (keyEvent : KeyEvent) (t : TerminalInput) : TerminalInput * bool :=
  let alt := IsAltPressed keyEvent in
  let ctrl := IsCtrlPressed keyEvent in
  match (if alt && ctrl then alt_ctrl_char keyEvent else None) with
  | Some wch => (_SendEscapedInputSequence wch t, true)
  | None =>
      match (if IsModifierPressed keyEvent then _searchWithModifier keyEvent else None) with
      | Some seq => (_SendInputSequence seq t, true)
      | None =>
          if alt && negb ctrl && negb (_charData keyEvent =? 0)
          then (_SendEscapedInputSequence (_charData keyEvent) t, true)
          else
            match (if negb alt && ctrl then ctrl_key keyEvent t else None) with
            | Some t' => (t', true)
            | None => plain_key keyEvent t
            end
      end
  end.

Definition HandleKey (pInEvent : option IInputEvent) (t : TerminalInput) : TerminalInput * bool :=
  match pInEvent with
  | Some (Key keyEvent) =>
      if _win32InputMode t && negb (_forceDisableWin32InputMode t)
      then (_SendInputSequence (_GenerateWin32KeySequence keyEvent) t, true)
      else if negb (_keyDown keyEvent) then (t, false)
      else
        modified_key
          (if IsAltGrPressed keyEvent
           then DeactivateModifierKey RightAlt (DeactivateModifierKey LeftCtrl keyEvent) else keyEvent) t
  | _ => (t, false)
  end.
End keyboard.

(** ** The mouse: modes *)

Definition SetUtf8ExtendedMode (enable : bool) (m : MouseInputState) : MouseInputState :=
  mkMouseInputState (if enable then Extended_Utf8 else Extended_None) (trackingMode m) (alternateScroll m)
    (inAlternateBuffer m) (lastPos m) (lastButton m) (accumulatedDelta m).

Definition SetSGRExtendedMode (enable : bool) (m : MouseInputState) : MouseInputState :=
  mkMouseInputState (if enable then Extended_Sgr else Extended_None) (trackingMode m) (alternateScroll m)
    (inAlternateBuffer m) (lastPos m) (lastButton m) (accumulatedDelta m).

(** A tracking mode; the last position and button are forgotten. *)
Definition set_tracking (mode : TrackingMode) (m : MouseInputState) : MouseInputState :=
  mkMouseInputState (extendedMode m) mode (alternateScroll m) (inAlternateBuffer m) (mkCOORD (-1) (-1)) 0
    (accumulatedDelta m).

Definition EnableDefaultTracking (enable : bool) : MouseInputState → MouseInputState :=
  set_tracking (if enable then Tracking_Default else Tracking_None).
Definition EnableButtonEventTracking (enable : bool) : MouseInputState → MouseInputState :=
  set_tracking (if enable then Tracking_ButtonEvent else Tracking_None).
Definition EnableAnyEventTracking (enable : bool) : MouseInputState → MouseInputState :=
  set_tracking (if enable then Tracking_AnyEvent else Tracking_None).

Definition EnableAlternateScroll (enable : bool) (m : MouseInputState) : MouseInputState :=
  mkMouseInputState (extendedMode m) (trackingMode m) enable (inAlternateBuffer m) (lastPos m) (lastButton m)
    (accumulatedDelta m).

Definition set_alternate_buffer (b : bool) (m : MouseInputState) : MouseInputState :=
  mkMouseInputState (extendedMode m) (trackingMode m) (alternateScroll m) b (lastPos m) (lastButton m)
    (accumulatedDelta m).
Definition UseAlternateScreenBuffer : MouseInputState → MouseInputState := set_alternate_buffer true.
Definition UseMainScreenBuffer : MouseInputState → MouseInputState := set_alternate_buffer false.

Definition set_delta (d : Z) (m : MouseInputState) : MouseInputState :=
  mkMouseInputState (extendedMode m) (trackingMode m) (alternateScroll m) (inAlternateBuffer m) (lastPos m)
    (lastButton m) d.
Definition set_last (p : COORD) (button : Z) (m : MouseInputState) : MouseInputState :=
  mkMouseInputState (extendedMode m) (trackingMode m) (alternateScroll m) (inAlternateBuffer m) p button
    (accumulatedDelta m).

(** ** The mouse: messages *)

Definition WM_MOUSEMOVE : Z := 0x200.
Definition WM_LBUTTONDOWN : Z := 0x201.
Definition WM_LBUTTONUP : Z := 0x202.
Definition WM_LBUTTONDBLCLK : Z := 0x203.
Definition WM_RBUTTONDOWN : Z := 0x204.
Definition WM_RBUTTONUP : Z := 0x205.
Definition WM_RBUTTONDBLCLK : Z := 0x206.
Definition WM_MBUTTONDOWN : Z := 0x207.
Definition WM_MBUTTONUP : Z := 0x208.
Definition WM_MBUTTONDBLCLK : Z := 0x209.
Definition WM_MOUSEWHEEL : Z := 0x20A.
Definition WM_MOUSEHWHEEL : Z := 0x20E.
Definition WHEEL_DELTA : Z := 120.
Definition s_MaxDefaultCoordinate : Z := 94.

Definition CursorUpSequence : wstring := esc "[A".
Definition CursorDownSequence : wstring := esc "[B".
Definition ApplicationUpSequence : wstring := esc "OA".
Definition ApplicationDownSequence : wstring := esc "OB".

Definition one_of (b : Z) (l : list Z) : bool := existsb (Z.eqb b) l.

Definition _isButtonMsg (button : Z) : bool :=
  one_of button [WM_LBUTTONDBLCLK; WM_LBUTTONDOWN; WM_LBUTTONUP; WM_MBUTTONUP; WM_RBUTTONUP; WM_RBUTTONDOWN;
                 WM_RBUTTONDBLCLK; WM_MBUTTONDOWN; WM_MBUTTONDBLCLK; WM_MOUSEWHEEL; WM_MOUSEHWHEEL].
Definition _isHoverMsg (buttonCode : Z) : bool := buttonCode =? WM_MOUSEMOVE.
Definition _isWheelMsg (buttonCode : Z) : bool := (buttonCode =? WM_MOUSEWHEEL) || (buttonCode =? WM_MOUSEHWHEEL).
Definition _isButtonDown (button : Z) : bool :=
  one_of button [WM_LBUTTONDBLCLK; WM_LBUTTONDOWN; WM_RBUTTONDOWN; WM_RBUTTONDBLCLK; WM_MBUTTONDOWN;
                 WM_MBUTTONDBLCLK; WM_MOUSEWHEEL; WM_MOUSEHWHEEL].

Record MouseButtonState := mkMouseButtonState {
  isLeftButtonDown : bool;
  isMiddleButtonDown : bool;
  isRightButtonDown : bool
}.

Definition s_GetPressedButton (state : MouseButtonState) : Z :=
  if isLeftButtonDown state then WM_LBUTTONDOWN
  else if isMiddleButtonDown state then WM_MBUTTONDOWN
  else if isRightButtonDown state then WM_RBUTTONDOWN
  else WM_LBUTTONUP.

(** The modifiers, which both encodings share. *)
Definition encode_mouse_modifiers (xvalue : Z) (isHover : bool) (modifierKeyState : Z) : Z :=
  let xvalue := if isHover then xvalue + 0x20 else xvalue in
  let xvalue := UpdateFlag xvalue 0x04 (IsAnyFlagSet modifierKeyState SHIFT_PRESSED) in
  let xvalue := UpdateFlag xvalue 0x08 (IsAnyFlagSet modifierKeyState ALT_PRESSED) in
  UpdateFlag xvalue 0x10 (IsAnyFlagSet modifierKeyState CTRL_PRESSED).

Definition _windowsButtonToXEncoding (button : Z) (isHover : bool) (modifierKeyState delta : Z) : Z :=
  encode_mouse_modifiers
    (if one_of button [WM_LBUTTONDBLCLK; WM_LBUTTONDOWN] then 0
     else if one_of button [WM_LBUTTONUP; WM_MBUTTONUP; WM_RBUTTONUP] then 3
     else if one_of button [WM_RBUTTONDOWN; WM_RBUTTONDBLCLK] then 2
     else if one_of button [WM_MBUTTONDOWN; WM_MBUTTONDBLCLK] then 1
     else if one_of button [WM_MOUSEWHEEL; WM_MOUSEHWHEEL] then (if delta >? 0 then 0x40 else 0x41)
     else 0) isHover modifierKeyState.

Definition _windowsButtonToSGREncoding (button : Z) (isHover : bool) (modifierKeyState delta : Z) : Z :=
  encode_mouse_modifiers
    (if one_of button [WM_LBUTTONDBLCLK; WM_LBUTTONDOWN; WM_LBUTTONUP] then 0
     else if one_of button [WM_RBUTTONUP; WM_RBUTTONDOWN; WM_RBUTTONDBLCLK] then 2
     else if one_of button [WM_MBUTTONUP; WM_MBUTTONDOWN; WM_MBUTTONDBLCLK] then 1
     else if button =? WM_MOUSEMOVE then 3
     else if one_of button [WM_MOUSEWHEEL; WM_MOUSEHWHEEL] then (if delta >? 0 then 0x40 else 0x41)
     else 0) isHover modifierKeyState.

Definition _winToVTCoord (p : COORD) : COORD := mkCOORD (i16 (X p + 1)) (i16 (Y p + 1)).
Definition _encodeDefaultCoordinate (sCoordinateValue : Z) : Z := i16 (sCoordinateValue + 32).

(** The sequence of the default scheme and of the UTF-8 scheme. *)
Definition bxy_sequence (position : COORD) (button : Z) (isHover : bool) (modifierKeyState delta : Z) : wstring :=
  let vtCoords := _winToVTCoord position in
  [0x1b; 0x5b; 0x4d; u16 (0x20 + i16 (_windowsButtonToXEncoding button isHover modifierKeyState delta));
   u16 (_encodeDefaultCoordinate (X vtCoords)); u16 (_encodeDefaultCoordinate (Y vtCoords))].

Definition _GenerateDefaultSequence (position : COORD) (button : Z) (isHover : bool) (modifierKeyState delta : Z) : wstring :=
  if (X position <=? s_MaxDefaultCoordinate) && (Y position <=? s_MaxDefaultCoordinate)
  then bxy_sequence position button isHover modifierKeyState delta else [].

Definition _GenerateUtf8Sequence (position : COORD) (button : Z) (isHover : bool) (modifierKeyState delta : Z) : wstring :=
  if (X position <=? 32767 - 33) && (Y position <=? 32767 - 33)
  then bxy_sequence position button isHover modifierKeyState delta else [].

Definition _GenerateSGRSequence (position : COORD) (button : Z) (isDown isHover : bool) (modifierKeyState delta : Z) : wstring :=
  let xbutton := _windowsButtonToSGREncoding button isHover modifierKeyState delta in
  [0x1b; 0x5b; 0x3c] ++ print_int xbutton ++ [0x3b] ++ print_int (X position + 1) ++ [0x3b]
    ++ print_int (Y position + 1) ++ [if isDown then 0x4d else 0x6d].

Definition _ShouldSendAlternateScroll (button delta : Z) (m : MouseInputState) : bool :=
  inAlternateBuffer m && alternateScroll m && ((button =? WM_MOUSEWHEEL) || (button =? WM_MOUSEHWHEEL))
  && negb (delta =? 0).

Definition _SendAlternateScroll (delta : Z) (t : TerminalInput) : TerminalInput * bool :=
  (_SendInputSequence
     (if delta >? 0 then (if _cursorApplicationMode t then ApplicationUpSequence else CursorUpSequence)
      else if _cursorApplicationMode t then ApplicationDownSequence else CursorDownSequence) t, true).

Definition IsTrackingMouseInput (t : TerminalInput) : bool :=
  negb (bool_decide (trackingMode (_mouseInputState t) = Tracking_None)).

(** ** The mouse: events *)

Definition tracks_all (m : MouseInputState) : bool :=
  bool_decide (trackingMode m = Tracking_ButtonEvent) || bool_decide (trackingMode m = Tracking_AnyEvent).

(** Whether the mode reports the event. *)
Definition reports (position : COORD) (button realButton : Z) (m : MouseInputState) : bool :=
  let isHover := _isHoverMsg button in
  let sameCoord := (X position =? X (lastPos m)) && (Y position =? Y (lastPos m)) && (lastButton m =? button) in
  (_isButtonMsg button && negb (bool_decide (trackingMode m = Tracking_None)))
  || (isHover && bool_decide (trackingMode m = Tracking_ButtonEvent) && (negb sameCoord && negb (realButton =? WM_LBUTTONUP)))
  || (isHover && bool_decide (trackingMode m = Tracking_AnyEvent) && negb sameCoord).

(** The sequence of the event in the selected scheme. *)
Definition mouse_text (position : COORD) (button realButton modifierKeyState delta : Z) (m : MouseInputState) : wstring :=
  let isHover := _isHoverMsg button in
  match extendedMode m with
  | Extended_None => _GenerateDefaultSequence position realButton isHover modifierKeyState delta
  | Extended_Utf8 => _GenerateUtf8Sequence position realButton isHover modifierKeyState delta
  | Extended_Sgr =>
      _GenerateSGRSequence position (if negb (realButton =? WM_LBUTTONUP) then realButton else button)
        (_isButtonDown realButton) isHover modifierKeyState delta
  | Extended_Urxvt => []
  end.

Definition tracked_mouse (position : COORD) (button modifierKeyState delta : Z) (state : MouseButtonState)
    (t : TerminalInput) : TerminalInput * bool :=
  let m := _mouseInputState t in
  let realButton := if _isHoverMsg button then s_GetPressedButton state else button in
  if reports position button realButton m then
    let sequence := mouse_text position button realButton modifierKeyState delta m in
    let success := match sequence with [] => false | _ => true end in
    let t := if success then _SendInputSequence sequence t else t in
    (if tracks_all m then set_mouse (set_last position button (_mouseInputState t)) t else t, success)
  else (t, false).

(** From the alternate scroll on: an event that is not held back. *)
Definition mouse_event (position : COORD) (button modifierKeyState delta : Z) (state : MouseButtonState)
    (t : TerminalInput) : TerminalInput * bool :=
  if _ShouldSendAlternateScroll button delta (_mouseInputState t) then _SendAlternateScroll delta t
  else if bool_decide (trackingMode (_mouseInputState t) = Tracking_None) then (t, false)
  else tracked_mouse position button modifierKeyState delta state t.

Definition HandleMouse (position : COORD) (button modifierKeyState delta : Z) (state : MouseButtonState)
    (t : TerminalInput) : TerminalInput * bool :=
  let delta0 := accumulatedDelta (_mouseInputState t) in
  let acc := if negb (Z.sgn delta =? Z.sgn delta0) then 0 else delta0 in
  let t := set_mouse (set_delta acc (_mouseInputState t)) t in
  if _isWheelMsg button then
    let acc := i32 (acc + delta) in
    if Z.abs acc <? WHEEL_DELTA then
      (set_mouse (set_delta acc (_mouseInputState t)) t,
       IsTrackingMouseInput t || _ShouldSendAlternateScroll button delta (_mouseInputState t))
    else
      mouse_event position button modifierKeyState delta state (set_mouse (set_delta 0 (_mouseInputState t)) t)
  else mouse_event position button modifierKeyState delta state t.
