(* ===== verification/InputFacts.v ===== *)
(** What the input side promises: no text that a terminal sends brings the input
    engine down, and keys and mouse events that were turned into text arrive as
    they were. *)

From Stdlib Require Import Ascii.
From stdpp Require Import strings.
From S2P Require Import Prelude DispatchTypes StateMachine StateMachineFacts ParserParams ParserCsi ParserInput OutputEngine OutputFacts TextColor TextAttribute SgrStack Sgr Viewport OutputCell CharRow Row Cursor InputEvent TerminalOutput AdaptDispatch AdaptFacts AdaptSafe InputEngine TerminalInput.
Import AsciiChars.

(** ** Safety

    What the input engine asks of its dispatch: an invariant that its calls keep,
    and a question that changes nothing. *)

Definition interact_ok (c : InteractCall) : Prop :=
  match c with
  | MoveCursor row col => 0 <= row <= 32767 ∧ 0 <= col <= 32767
  | _ => True
  end.

Class InteractSafe (D : Type) `{IInteractDispatch D} := {
  interact_inv : D → Prop;
  interact_keeps c : interact_ok c → maintains interact_inv (interact c);
  vt_input_query d : interact_inv d → wp IsVtInputEnabled (λ _ d', d' = d) d
}.

Section engine.
Context `{Keyboard} {D : Type} `{InteractSafe D} `{SteadyClock D}.

#[local] Abbreviation Engine := (InputStateMachineEngine D).

Definition input_engine_ok (e : Engine) : Prop := interact_inv (_pDispatch e).
#[local] Abbreviation kept := (maintains (view_ok input_engine_ok)).

Lemma maintains_in_engine {A} (m : prog Engine A) : maintains input_engine_ok m → kept (in_engine m).
Proof. intros Hm v Hv. unfold in_engine, on_engine, on_part, wp. specialize (Hm _ Hv). unfold wp in Hm. by destruct (m _). Qed.

Lemma maintains_on_dispatch {A} (m : prog D A) : maintains interact_inv m → maintains input_engine_ok (on_dispatch m).
Proof. intros Hm e He. unfold on_dispatch, on_part, wp. specialize (Hm _ He). unfold wp in Hm. by destruct (m _). Qed.

Lemma maintains_try {A} (m rest : prog Engine A) : maintains input_engine_ok m → maintains input_engine_ok (try_or m rest).
Proof. intros Hm e He. specialize (Hm e He). unfold wp, try_or in *. by destruct (m e). Qed.

Lemma maintains_vt_query : maintains interact_inv IsVtInputEnabled.
Proof. intros d Hd. eapply wp_mono; [by apply vt_input_query|]. by intros ? ? ->. Qed.

Lemma maintains_write c : interact_ok c → kept (write c).
Proof. intros Hc. by apply maintains_in_engine, maintains_on_dispatch, interact_keeps. Qed.

Lemma maintains_passes : kept passes_through.
Proof.
  apply maintains_bind; [apply maintains_in_engine, maintains_on_dispatch, maintains_vt_query|]. auto with maintains.
Qed.
#[local] Hint Resolve maintains_write maintains_passes : maintains.
#[local] Hint Extern 1 (interact_ok _) => exact I : maintains.

Lemma maintains_key w k m : kept (_WriteSingleKey w k m).
Proof. unfold _WriteSingleKey. auto with maintains. Qed.

Lemma maintains_vkey k m : kept (_WriteSingleKey_vkey k m).
Proof. apply maintains_key. Qed.
#[local] Hint Resolve maintains_key maintains_vkey : maintains.

Lemma maintains_print w k : kept (InputEngine_ActionPrint w k).
Proof. unfold InputEngine_ActionPrint. repeat case_match; auto with maintains. Qed.
#[local] Hint Resolve maintains_print : maintains.

Lemma maintains_control w b k : kept (_DoControlCharacter w b k).
Proof.
  unfold _DoControlCharacter, and_also. destruct (MakePair _ _ _ _ _).
  repeat case_match; auto with maintains.
Qed.
#[local] Hint Resolve maintains_control : maintains.

Lemma maintains_cursor_key id ps : kept (cursor_key id ps).
Proof. unfold cursor_key. case_match; auto with maintains. Qed.

Lemma maintains_generic_key ps : kept (generic_key ps).
Proof. unfold generic_key. case_match; auto with maintains. Qed.
#[local] Hint Resolve maintains_cursor_key maintains_generic_key : maintains.

Lemma maintains_buttons id x p : maintains input_engine_ok (_UpdateSGRMouseButtonState id x p).
Proof.
  unfold _UpdateSGRMouseButtonState. apply maintains_bind; [apply maintains_gets|]. intros bs.
  apply maintains_bind; [apply maintains_gets|]. intros now.
  destruct (button_of _ bs) as [[[f b] fl]|]; [|apply maintains_ret].
  apply maintains_bind; [|intros [[]|]; auto using maintains_ret, maintains_bind, maintains_modify].
  repeat case_match; auto 10 using maintains_ret, maintains_bind, maintains_modify, maintains_gets, maintains_if.
Qed.

(** The numbers of a parameter are one less than a position of the screen. *)
Lemma numeric_positive ps i : Forall (param_wf MAX_PARAMETER_VALUE) ps → 1 <= as_numeric (params_at ps i) <= 32767.
Proof.
  intros Hps. pose proof (param_at_wf ps MAX_PARAMETER_VALUE i ltac:(done) Hps) as Hp.
  unfold param_wf, MAX_PARAMETER_VALUE in Hp.
  unfold as_numeric, has_value. case_match; [|lia]. zify_bool. rewrite u64_small; lia.
Qed.

Lemma position_fits ps i : Forall (param_wf MAX_PARAMETER_VALUE) ps → 0 <= u64 (as_numeric (params_at ps i) - 1) <= 32766.
Proof. intros Hps. pose proof (numeric_positive ps i Hps). rewrite u64_small; lia. Qed.

Lemma maintains_mouse id ps : Forall (param_wf MAX_PARAMETER_VALUE) ps → kept (mouse_sequence id ps).
Proof.
  intros Hps v Hv. unfold mouse_sequence, make_point. pose proof (position_fits ps 1 Hps) as Hx. pose proof (position_fits ps 2 Hps) as Hy.
  set (x := u64 (as_numeric (params_at ps 1) - 1)) in *. set (y := u64 (as_numeric (params_at ps 2) - 1)) in *.
  replace ((x <? 2 ^ 63) && (y <? 2 ^ 63)) with true by lia. apply wp_bind, wp_ret, wp_bind.
  eapply wp_mono; [by apply maintains_in_engine; [apply maintains_buttons|]|]. intros [[bs fl]|] v' Hv'; [|done].
  unfold _WriteMouseEvent, point_COORD. cbn [fst snd].
  replace ((-32768 <=? x) && (x <=? 32767) && (-32768 <=? y) && (y <=? 32767)) with true by lia.
  apply wp_bind, wp_ret. by apply maintains_write.
Qed.
#[local] Hint Resolve maintains_mouse : maintains.

Lemma maintains_csi_cases id ps : Forall (param_wf MAX_PARAMETER_VALUE) ps → Forall (λ ca, kept ca.2) (input_csi_cases id ps).
Proof.
  intros Hps. unfold input_csi_cases. repeat constructor; cbn [snd]; auto with maintains.
  unfold cursor_report_or_key. apply maintains_bind; [auto with maintains|]. intros []; [|auto with maintains].
  apply maintains_bind; [apply maintains_write; split; by apply numeric_range|]. intros b.
  apply maintains_bind; [by apply maintains_in_engine, maintains_modify|]. auto with maintains.
Qed.

(** The actions of the engine keep the invariant of the dispatch. *)
#[export] Instance InputEngine_safe : EngineSafe Engine Empty_set.
Proof.
  refine {| engine_ok := input_engine_ok |}; intros; try (intros k Hk); cbn -[switch].
  - apply maintains_control.
  - unfold InputEngine_ActionExecuteFromEscape. auto with maintains.
  - apply maintains_print.
  - destruct str; unfold InputEngine_ActionPrintString; auto with maintains.
  - unfold InputEngine_ActionPassThroughString. revert k Hk. apply maintains_bind.
    { apply maintains_on_dispatch, maintains_vt_query. }
    intros b. destruct str; [apply maintains_ret|].
    apply maintains_if; [apply maintains_try|]; by apply maintains_on_dispatch, interact_keeps.
  - unfold InputEngine_ActionEscDispatch. repeat case_match; auto with maintains.
  - unfold InputEngine_ActionVt52EscDispatch. auto with maintains.
  - apply maintains_bind; [auto with maintains|]. intros b. apply maintains_if; [done|].
    apply maintains_switch; [by apply maintains_csi_cases|auto with maintains].
  - unfold InputEngine_ActionDcsDispatch. auto with maintains.
  - unfold InputEngine_ActionClear. auto with maintains.
  - unfold InputEngine_ActionOscDispatch. auto with maintains.
  - unfold InputEngine_ActionSs3Dispatch. case_match; auto with maintains.
  - destruct h.
Defined.

#[export] Instance InputEngine_quiet : EngineQuiet Engine Empty_set.
Proof. done. Qed.
End engine.

(** ** On a console *)

(** [MapVirtualKey] to a scan code: two bytes. *)
Class KeyboardLaws `{Keyboard} : Prop := { scan_code_word k : 0 <= MapVirtualKey_VSC k <= 65535 }.

Section console.
Context `{KeyboardLaws} {C : Type} `{ConsoleLaws C}.

Lemma synthesized wch keyState : ∃ events, SynthesizeKeyboardEvents wch keyState = inr events.
Proof.
  unfold SynthesizeKeyboardEvents, narrow_WORD. pose proof (scan_code_word (LOBYTE keyState)).
  replace ((0 <=? _) && (_ <=? 65535)) with true by lia. cbn. eauto.
Qed.

Lemma string_events_ok string cp (c : C) : ∃ events, string_events string cp c = Ok events c.
Proof.
  induction string as [|w l [events IH]]; cbn; [by eexists|]. unfold CharToKeyEvents.
  destruct (synthesized w (if VkKeyScanW w =? -1 then 0 else VkKeyScanW w)) as [ev ->].
  unfold mbind, prog_bind. rewrite IH. by eexists.
Qed.

Lemma con_keeps k (c : C) : con_ok c → con_call_ok k → wp (con_call k) (λ _, con_ok) c.
Proof. intros Hc Hk. eapply wp_mono; [by apply law_call|]. by intros ? ? []. Qed.

Lemma write_string_keeps string (c : C) : con_ok c → wp (Interact_WriteString string) (λ _, con_ok) c.
Proof.
  intros Hc. unfold Interact_WriteString. destruct string as [|w l]; [done|]. set (str := w :: l). clearbody str.
  wp_step. eapply wp_mono; [by apply law_codepage|]. intros [[] cp] c' [-> _]; [|done]. cbv beta iota.
  destruct (string_events_ok str cp c) as [events He]. wp_step. unfold wp at 1. rewrite He. by apply con_keeps.
Qed.

Lemma window_keeps f p1 p2 (c : C) : con_ok c → wp (Interact_Window f p1 p2) (λ _, con_ok) c.
Proof.
  intros Hc. unfold Interact_Window. cbn [switch]. case_match; [by apply con_keeps|]. case_match; [|done].
  wp_step. eapply wp_mono; [by apply resize_keeps|]. intros [] c' Hc'; [|done].
  wp_step. eapply wp_mono; [by apply con_keeps|]. done.
Qed.

Lemma move_cursor_keeps row col (c : C) :
  0 <= row <= 32767 → 0 <= col <= 32767 → con_ok c → wp (Interact_MoveCursor row col) (λ _, con_ok) c.
Proof.
  intros Hr Hl Hc. unfold Interact_MoveCursor. destruct (_ && _) eqn:Ez; [|done].
  pose proof (law_geometry c Hc) as (? & ? & _ & _ & ? & ? & _).
  destruct (wp_ok _ _ _ (law_info c Hc)) as ([ok i] & c' & E & Ho & -> & _ & _ & Ht & Hb).
  pose proof (law_columns c Hc) as Hcols. unfold wp in Hcols. rewrite E in Hcols. cbn in Ho, Ht, Hb, Hcols. subst ok.
  wp_step. unfold wp at 1. rewrite E. cbv beta iota.
  destruct (SizeTToShort (row - 1)) as [y|], (SizeTToShort (col - 1)) as [x|]; try done.
  destruct (ShortAdd y _); [|done]. destruct (ShortAdd x _); [|done]. unfold narrow_SHORT, checked_clamp.
  repeat first [ progress wp_step
               | match goal with |- wp (if ?b then _ else _) _ _ =>
                   first [replace b with true by lia|replace b with false by lia] end ].
  by apply con_keeps.
Qed.

#[export] Instance console_interact_safe : InteractSafe C.
Proof.
  refine {| interact_inv := con_ok |}.
  - intros [events|event|string|f p1 p2|row col] Hk c Hc; cbn.
    + by apply con_keeps.
    + by apply con_keeps.
    + by apply write_string_keeps.
    + by apply window_keeps.
    + by apply move_cursor_keeps; [apply Hk..|].
  - intros c Hc. by apply law_vt_input.
Defined.
End console.

(** ** No text brings the input side down *)

Section never_fails.
Context `{KeyboardLaws} {C : Type} `{ConsoleLaws C} `{SteadyClock C}.

Lemma input_ends_in_ground strings (s s' : StateMachine (InputStateMachineEngine C) Empty_set) :
  in_step s → strings ≠ [] → ProcessStrings strings s = Ok tt s' → _state s' = Ground.
Proof.
  intros Hs Hne. revert s Hs. induction strings as [|str strings IH]; intros s Hs; [done|].
  cbn [ProcessStrings]. unfold mbind, prog_bind. destruct (ProcessString str s) as [[] s1|] eqn:E1; [|done].
  destruct strings as [|str' strings]; [intros [= <-]; by eapply ends_in_ground|].
  apply IH; [done|]. by eapply in_step_ProcessString.
Qed.

(** C20: no text that a terminal sends brings the input side down.  A new parser with
    the input engine over any console that keeps its laws, and any keyboard, processes
    every list of strings of 16-bit characters to the end: every call returns, no
    exception is raised, the invariants of the parser and of the console hold, and
    after each string the parser is in its ground state, with nothing of an unfinished
    sequence left. *)
Theorem input_never_fails (strings : list wstring) (e : InputStateMachineEngine C) :
  Forall (Forall is_wchar) strings → Forall (λ str, str ≠ []) strings → con_ok (_pDispatch e) →
  ∃ s', ProcessStrings strings (StateMachine_init e) = Ok tt s' ∧ sm_wf s' ∧ con_ok (_pDispatch (_engine s'))
    ∧ _state s' = Ground.
Proof.
  intros Hs Hne Hc. destruct (wp_ok (ProcessStrings strings) (λ _, sm_wf) (StateMachine_init e)) as ([] & s' & E & Hw).
  { apply ProcessStrings_wf; [done|by left|by apply init_wf]. }
  exists s'. split; [done|]. split; [done|]. split; [exact (wf_engine _ Hw)|].
  destruct strings as [|str strings]; [by injection E as <-|]. exact (input_ends_in_ground (str :: strings) _ s' (in_step_init e) ltac:(done) E).
Qed.
End never_fails.

(** ** Numbers in a sequence *)

Definition numbers (ns : list Z) : wstring := join_with 0x3B (print_int <$> ns).

Lemma print_int_digits n : 0 <= n < 2 ^ 64 → Forall (λ c, _isNumericParamValue c = true) (print_int n).
Proof.
  intros Hn. eapply Forall_impl; [apply print_int_ok, Hn|]. cbn. unfold _isNumericParamValue. intros c Hc. lia.
Qed.

Lemma print_int_params n : 0 <= n < 2 ^ 64 → forallb is_param_char (print_int n) = true.
Proof. intros Hn. apply digits_param_chars. induction (print_int_digits n Hn) as [|c l Hc _ IH]; cbn; by rewrite ?Hc. Qed.

Lemma field_param_number n : 0 <= n < 2 ^ 64 → field_param (print_int n) = VTParameter_of (Z.min 32767 n).
Proof.
  intros Hn. destruct (print_int_ok n Hn) as [Hd _]. pose proof (print_int_nonempty n).
  unfold field_param, MAX_PARAMETER_VALUE. rewrite Hd. by destruct (print_int n).
Qed.

Lemma split_numbers ns : ns ≠ [] → Forall (λ n, 0 <= n < 2 ^ 64) ns →
  split_fields (numbers ns) = print_int <$> ns ∧ forallb is_param_char (numbers ns) = true ∧ numbers ns ≠ [].
Proof.
  intros Hne Hns. induction Hns as [|n ns Hn Hns IH]; [done|].
  pose proof (print_int_digits n Hn) as Hd. pose proof (digits_not_delimiter _ Hd) as Hnd.
  pose proof (print_int_nonempty n) as Hp. unfold split_fields, numbers in *. destruct ns as [|n' ns].
  - cbn. rewrite split_on_no_sep by done. split; [done|]. split; [by apply print_int_params|done].
  - destruct IH as (IH1 & IH2 & _); [done|]. cbn [fmap list_fmap join_with] in *.
    rewrite split_on_app_sep by done. rewrite IH1. split; [done|]. rewrite forallb_app. cbn [forallb]. rewrite IH2.
    rewrite print_int_params by done. split; [done|]. by destruct (print_int n).
Qed.

Lemma parse_numbers ns : ns ≠ [] → (length ns <= 32)%nat → Forall (λ n, 0 <= n < 2 ^ 64) ns →
  forallb is_param_char (numbers ns) = true
  ∧ parse_params (numbers ns) = (λ n, VTParameter_of (Z.min 32767 n)) <$> ns.
Proof.
  intros Hne Hl Hns. destruct (split_numbers ns Hne Hns) as (Hs & Hc & Hn). split; [done|].
  unfold parse_params. rewrite Hs. destruct (numbers ns); [done|].
  rewrite <-list_fmap_compose, take_ge by by rewrite length_fmap.
  apply list_fmap_ext. intros i n Hi. apply field_param_number. by apply (Forall_lookup_1 _ _ _ _ Hns Hi).
Qed.

Lemma value_or_number n d : 0 <= n <= 32767 → value_or (VTParameter_of (Z.min 32767 n)) d = n.
Proof.
  intros Hn. rewrite Z.min_r by lia. unfold value_or, has_value, VTParameter_of. cbn [_value].
  rewrite i64_small, u64_small by lia. by rewrite (proj2 (Z.geb_le n 0)) by lia.
Qed.

Lemma as_numeric_number n : 1 <= n <= 32767 → as_numeric (VTParameter_of (Z.min 32767 n)) = n.
Proof.
  intros Hn. rewrite Z.min_r by lia. unfold as_numeric, has_value, VTParameter_of. cbn [_value].
  rewrite i64_small, u64_small by lia. replace ((n >=? 0) && negb (n =? 0)) with true by lia. done.
Qed.
