(* ===== verification/InputRoundTrip.v ===== *)
(** Keys and mouse events on their way through text: what [TerminalInput] writes, the
    parser and the input engine turn back into the event it came from. *)

From Stdlib Require Import Ascii.
From stdpp Require Import strings.
From S2P Require Import Prelude DispatchTypes StateMachine StateMachineFacts ParserParams ParserCsi ParserInput OutputEngine OutputFacts TextColor TextAttribute SgrStack Sgr Viewport InputEvent AdaptDispatch InputEngine InputFacts TerminalInput.
Import AsciiChars.

Section arrival.
Context `{Keyboard} {D : Type} `{IInteractDispatch D} `{SteadyClock D}.

#[local] Abbreviation Engine := (InputStateMachineEngine D).
#[local] Abbreviation Machine := (StateMachine Engine Empty_set).

(** A parser between two sequences. *)
Definition at_rest (s : Machine) : Prop :=
  _state s = Ground ∧ _processingIndividually s = false ∧ _isInAnsiMode s = true ∧ _cachedSequence s = None.

(** Whether the application wants the text itself; the question changes nothing. *)
Definition wants_text (e : Engine) (b : bool) : Prop :=
  ∃ vt, IsVtInputEnabled (_pDispatch e) = Ok vt (_pDispatch e) ∧ b = vt && _pfnFlushToInputQueue e.

Lemma passes_through_eq e b : wants_text e b → passes_through (mkView None true e) = Ok b (mkView None true e).
Proof.
  intros (vt & Hvt & ->). unfold passes_through, mbind, prog_bind, in_engine, on_engine, on_dispatch, on_part. cbn. rewrite Hvt.
  cbn. by destruct e.
Qed.

Lemma write_eq c e r d : interact c (_pDispatch e) = Ok r d →
  write c (mkView None true e) = Ok r (mkView None true (set_dispatch d e)).
Proof. intros Hc. unfold write, in_engine, on_engine, on_dispatch, on_part. cbn. by rewrite Hc. Qed.

(** A control sequence that is not handed on. *)
Lemma csi_arrives q (s : Machine) b r e' :
  csi_valid q = true → at_rest s → wants_text (_engine s) b →
  b && negb (csi_id q =? Win32KeyboardInput) = false →
  switch (csi_id q) (input_csi_cases (csi_id q) (parse_params (csi_text q))) (mret false)
    (mkView None true (_engine s)) = Ok r (mkView None true e') →
  ∃ s', ProcessString (csi_string q) s = Ok tt s' ∧ at_rest s' ∧ _engine s' = e'.
Proof.
  intros Hq (Hg & Hp & Ha & Hc) Hv Hb Hs.
  assert (view_of s = mkView None true (_engine s)) as Hview by (unfold view_of; by rewrite Ha, Hc).
  destruct (ProcessString_csi q s r (mkView None true e') Hq Hg Hp Ha Hc) as [lim Hr].
  - rewrite Hview. cbn [ActionCsiDispatch InputEngine_engine]. unfold InputEngine_ActionCsiDispatch, mbind at 1, prog_bind at 1.
    rewrite (passes_through_eq _ _ Hv), Hb. exact Hs.
  - eexists. by split; [exact Hr|].
Qed.

Lemma ss3_arrives c (s : Machine) vkey r d :
  0x40 <= c < 0x7F → at_rest s → wants_text (_engine s) false → _GetSs3KeysVkey c = Some vkey →
  _WriteSingleKey_vkey vkey 0 (mkView None true (_engine s)) = Ok r (mkView None true (set_dispatch d (_engine s))) →
  ∃ s', ProcessString [ESC; 0x4F; c] s = Ok tt s' ∧ at_rest s' ∧ _engine s' = set_dispatch d (_engine s).
Proof.
  intros Hc (Hg & Hp & Ha & Hca) Hv Hk Hw.
  assert (view_of s = mkView None true (_engine s)) as Hview by (unfold view_of; by rewrite Ha, Hca).
  eexists. split; [eapply ProcessString_ss3; [done..|]|].
  - rewrite Hview. cbn [ActionSs3Dispatch InputEngine_engine]. unfold InputEngine_ActionSs3Dispatch, mbind at 1, prog_bind at 1.
    rewrite (passes_through_eq _ _ Hv), Hk. exact Hw.
  - done.
Qed.

(** *** Win32 input mode *)

(** The numbers of a sequence are at most 32767. *)
Definition key_fits (k : KeyEvent) : Prop :=
  Forall (λ n, 0 <= n <= 32767) [_virtualKeyCode k; _virtualScanCode k; _charData k; _activeModifierKeys k; _repeatCount k].

Definition key_numbers (k : KeyEvent) : list Z :=
  [_virtualKeyCode k; _virtualScanCode k; _charData k; if _keyDown k then 1 else 0; _activeModifierKeys k; _repeatCount k].

Definition win32_sequence (k : KeyEvent) : CsiSequence := mkCsi None (numbers (key_numbers k)) [] 0x5F.

Lemma win32_text k : _GenerateWin32KeySequence k = csi_string (win32_sequence k).
Proof.
  unfold _GenerateWin32KeySequence, csi_string, csi_body, win32_sequence, key_numbers, numbers. cbn [csi_marker csi_text csi_intermediates csi_final option_list fmap list_fmap join_with app].
  by rewrite <-?app_assoc; cbn [app]; rewrite <-?app_assoc; cbn [app]; rewrite <-?app_assoc; cbn [app]; rewrite <-?app_assoc; cbn [app]; rewrite <-?app_assoc; cbn [app]; rewrite <-?app_assoc.
Qed.

Lemma win32_key_of vk sc ch kd cs rc :
  _GenerateWin32Key [vk; sc; ch; kd; cs; rc]
  = mkKeyEvent (negb (value_or kd 0 =? 0)) (saturated 65535 (value_or rc 1)) (saturated 65535 (value_or vk 0))
      (saturated 65535 (value_or sc 0)) (saturated 65535 (value_or ch 0)) (saturated 4294967295 (value_or cs 0)).
Proof. reflexivity. Qed.

Lemma win32_decoded k : key_fits k → _GenerateWin32Key ((λ n, VTParameter_of (Z.min 32767 n)) <$> key_numbers k) = k.
Proof.
  unfold key_fits. rewrite !Forall_cons. intros (Hvk & Hsc & Hch & Hcs & Hrc & _).
  unfold key_numbers. cbn [fmap list_fmap]. rewrite win32_key_of.
  assert (∀ max n d, 32767 <= max → 0 <= n <= 32767 → saturated max (value_or (VTParameter_of (Z.min 32767 n)) d) = n) as Hsat.
  { intros max n d Hm Hn. rewrite value_or_number by done. unfold saturated. case_match; lia. }
  rewrite !Hsat, value_or_number by (done || case_match; lia). destruct k as [[] ? ? ? ? ?]; done.
Qed.

(** C17: in win32 input mode a key event arrives as it was.  For every key event, press
    or release, whose numbers are at most 32767, the terminal writes one sequence; the
    parser and the input engine at the other end turn its text into exactly one call,
    [WriteCtrlKey] with the same event, whether or not the application reads text. *)
Theorem win32_key_round_trip (k : KeyEvent) (t : TerminalInput) (s : Machine) (r : bool) (d : D) (b : bool) :
  key_fits k → _win32InputMode t = true → _forceDisableWin32InputMode t = false →
  at_rest s → wants_text (_engine s) b → interact (WriteCtrlKey k) (_pDispatch (_engine s)) = Ok r d →
  ∃ text t' s', HandleKey (Some (Key k)) t = (t', true) ∧ _written t' = _written t ++ [char_key <$> text]
    ∧ ProcessString text s = Ok tt s' ∧ at_rest s' ∧ _engine s' = set_dispatch d (_engine s).
Proof.
  intros Hk Hw Hf Hs Hb Hd. exists (_GenerateWin32KeySequence k).
  destruct (parse_numbers (key_numbers k)) as [Hchars Hparse]; [done|cbn; lia| |].
  { unfold key_fits in Hk. rewrite !Forall_cons in Hk. destruct Hk as (? & ? & ? & ? & ? & _).
    unfold key_numbers. repeat (apply Forall_cons; split; [destruct (_keyDown k); lia|]). done. }
  destruct (csi_arrives (win32_sequence k) s b r (set_dispatch d (_engine s))) as (s' & E & Hrest & He);
    [|done|done|apply andb_false_r| |].
  - unfold csi_valid, win32_sequence. cbn [csi_marker csi_text csi_intermediates csi_final]. by rewrite Hchars.
  - transitivity (write (WriteCtrlKey (_GenerateWin32Key (parse_params (numbers (key_numbers k))))) (mkView None true (_engine s)));
      [reflexivity|]. rewrite Hparse, win32_decoded by done. by apply write_eq.
  - exists (_pfnWriteEvents (char_key <$> _GenerateWin32KeySequence k) t), s'. rewrite <-win32_text in E. split; [|done].
    unfold HandleKey. by rewrite Hw, Hf.
Qed.

(** *** Function keys *)

(** The key and the modifiers that the input engine reads in the text of a key. *)
Definition decode_key (text : wstring) : option (Z * Z) :=
  match text with
  | esc :: kind :: body =>
      let q := mkCsi None (removelast body) [] (List.last body 0) in
      let ps := parse_params (csi_text q) in
      if negb (esc =? 0x1B) || bool_decide (body = []) then None
      else if kind =? 0x5B then
        if negb (csi_valid q) then None
        else if csi_id q =? Code_Generic then
          vkey ← _GetGenericVkey (as_selective (params_at ps 0)); Some (vkey, _GetGenericKeysModifierState ps)
        else vkey ← _GetCursorKeysVkey (csi_id q); Some (vkey, _GetCursorKeysModifierState ps (csi_id q))
      else if (kind =? 0x4F) && bool_decide (removelast body = []) && (0x40 <=? csi_final q) && (csi_final q <? 0x7F) then
        vkey ← _GetSs3KeysVkey (csi_final q); Some (vkey, 0)
      else None
  | _ => None
  end.

Lemma cursor_case id vkey ps (e : Engine) :
  _GetCursorKeysVkey id = Some vkey → _lookingForDSR e = false →
  switch id (input_csi_cases id ps) (mret false) (mkView None true e) = cursor_key id ps (mkView None true e).
Proof.
  unfold _GetCursorKeysVkey, find_vkey. intros Hid Hl.
  destruct (list_find _ s_csiMap) as [[i [c k]]|] eqn:E; [|done]. apply list_find_Some in E as (E & Hc & _). cbn in Hc. subst c.
  apply list_elem_of_lookup_2 in E. unfold s_csiMap in E. rewrite !elem_of_cons in E.
  destruct_or! E; try (by apply elem_of_nil in E); injection E as -> _; try reflexivity.
  transitivity (cursor_report_or_key CSI_F3 ps (mkView None true e)); [reflexivity|].
  unfold cursor_report_or_key, mbind, prog_bind, gets. cbn [ev_engine]. by rewrite Hl.
Qed.

Lemma decoded_key_arrives text vkey m (s : Machine) r d :
  decode_key text = Some (vkey, m) → at_rest s → wants_text (_engine s) false → _lookingForDSR (_engine s) = false →
  interact (WriteInput (Key <$> _GenerateWrappedSequence (u16 (MapVirtualKey_CHAR vkey)) vkey m [])) (_pDispatch (_engine s)) = Ok r d →
  ∃ s', ProcessString text s = Ok tt s' ∧ at_rest s' ∧ _engine s' = set_dispatch d (_engine s).
Proof.
  intros Hd Hs Hw Hl Hi. apply write_eq in Hi.
  destruct text as [|e [|kind body]]; [done..|]. unfold decode_key in Hd.
  destruct (Z.eqb_spec e 0x1B) as [->|]; [|done]. cbn [negb orb] in Hd. case_bool_decide as Hb; [done|].
  pose proof (app_removelast_last 0 Hb) as Hsplit. cbn [csi_text csi_final] in Hd.
  set (q := mkCsi None (removelast body) [] (List.last body 0)) in *.
  destruct (Z.eqb_spec kind 0x5B) as [->|].
  - destruct (csi_valid q) eqn:Hq; [|done]. cbn [negb] in Hd.
    assert (0x1B :: 0x5B :: body = csi_string q) as -> by (unfold csi_string, csi_body; cbn; by rewrite <-Hsplit).
    eapply (csi_arrives q s false r); [done|done|done|done|].
    destruct (Z.eqb_spec (csi_id q) Code_Generic) as [->|].
    + destruct (_GetGenericVkey _) as [vk|] eqn:Ek; [|done]. cbn in Hd. injection Hd as -> <-.
      transitivity (generic_key (parse_params (csi_text q)) (mkView None true (_engine s))); [reflexivity|].
      unfold generic_key. cbn [csi_text q]. rewrite Ek. exact Hi.
    + destruct (_GetCursorKeysVkey _) as [vk|] eqn:Ek; [|done]. cbn in Hd. injection Hd as -> <-.
      rewrite (cursor_case _ vkey) by done. unfold cursor_key. rewrite Ek. exact Hi.
  - destruct (Z.eqb_spec kind 0x4F) as [->|]; [|done]. case_bool_decide as Hr; [|done]. cbn [andb] in Hd.
    destruct (_ && _) eqn:Hc; [|done]. cbn [csi_final q] in Hd, Hc.
    destruct (_GetSs3KeysVkey _) as [vk|] eqn:Ek; [|done]. cbn [mbind option_bind] in Hd. injection Hd as -> <-.
    rewrite Hsplit, Hr. eapply ss3_arrives; [lia|done|done|done|exact Hi].
Qed.

(** The text of a key with the given modifiers. *)
Definition find_key (vkey : Z) (table : list TermKeyMap) : option wstring :=
  km_sequence ∘ snd <$> list_find (λ m, km_vkey m = vkey) table.

Definition modifier_digit (shift alt ctrl : bool) : Z :=
  0x31 + (if shift then 1 else 0) + (if alt then 2 else 0) + (if ctrl then 4 else 0).

Definition key_text (vkey : Z) (shift alt ctrl application : bool) : option wstring :=
  if shift || alt || ctrl then
    (λ seq, <[(length seq - 2)%nat := modifier_digit shift alt ctrl]> seq) <$> find_key vkey s_modifierKeyMapping
  else
    find_key vkey (if (VK_END <=? vkey) && (vkey <=? VK_DOWN)
                   then if application then s_cursorKeysApplicationMapping else s_cursorKeysNormalMapping
                   else s_keypadNumericMapping).

Definition function_keys : list Z := km_vkey <$> s_modifierKeyMapping.

(** The modifiers as the input engine names them. *)
Definition left_modifiers (shift alt ctrl : bool) : Z :=
  Z.lor (if shift then SHIFT_PRESSED else 0) (Z.lor (if alt then LEFT_ALT_PRESSED else 0) (if ctrl then LEFT_CTRL_PRESSED else 0)).

(** Every function key, with every combination, is read back. *)
Definition key_read_back (vkey : Z) (shift alt ctrl application : bool) : bool :=
  match key_text vkey shift alt ctrl application ≫= decode_key with
  | Some (v, m) => (v =? vkey) && (ClearFlag m ENHANCED_KEY =? left_modifiers shift alt ctrl)
  | None => false
  end.

Lemma function_keys_read_back :
  forallb (λ vkey, forallb (λ shift, forallb (λ alt, forallb (λ ctrl, forallb (key_read_back vkey shift alt ctrl)
    [true; false]) [true; false]) [true; false]) [true; false]) function_keys = true.
Proof. vm_compute. reflexivity. Qed.

Lemma key_is_read_back vkey shift alt ctrl application :
  vkey ∈ function_keys →
  ∃ text m, key_text vkey shift alt ctrl application = Some text ∧ decode_key text = Some (vkey, m)
    ∧ ClearFlag m ENHANCED_KEY = left_modifiers shift alt ctrl.
Proof.
  intros Hk%list_elem_of_In.
  assert (key_read_back vkey shift alt ctrl application = true) as Hr.
  { assert (∀ b, In b [true; false]) as Hin by (intros []; cbn; auto).
    pose proof (proj1 (forallb_forall _ _) function_keys_read_back vkey Hk) as Hall. cbv beta in Hall.
    pose proof (proj1 (forallb_forall _ _) Hall shift (Hin _)) as Hs. cbv beta in Hs.
    pose proof (proj1 (forallb_forall _ _) Hs alt (Hin _)) as Ha. cbv beta in Ha.
    pose proof (proj1 (forallb_forall _ _) Ha ctrl (Hin _)) as Hc. cbv beta in Hc.
    exact (proj1 (forallb_forall _ _) Hc application (Hin _)). }
  unfold key_read_back in Hr. destruct (key_text _ _ _ _ _) as [text|]; [|done]. cbn [mbind option_bind] in Hr.
  destruct (decode_key text) as [[v m]|] eqn:Hd; [|done]. exists text, m. split; [done|].
  apply andb_true_iff in Hr as [->%Z.eqb_eq ?%Z.eqb_eq]. done.
Qed.

(** Tables whose entries do not ask for modifiers. *)
Lemma search_plain k table : forallb (λ m, km_modifiers m =? 0) table = true →
  km_sequence <$> _searchKeyMapping k table = find_key (_virtualKeyCode k) table.
Proof.
  induction table as [|m table IH]; [done|]. cbn. intros [Hm%Z.eqb_eq Ht]%andb_true_iff. unfold modifiersMatch. rewrite Hm.
  change (IsAnyFlagSet 0 MOD_PRESSED) with false. cbn [negb orb]. rewrite andb_true_r. unfold find_key. cbn.
  destruct (Z.eqb_spec (km_vkey m) (_virtualKeyCode k)) as [E|E]; [by rewrite decide_True|]. rewrite decide_False by done.
  rewrite (IH Ht). unfold find_key. by destruct (list_find _ table) as [[]|].
Qed.

Lemma single_flag m n : 0 <= n → IsFlagSet m (2 ^ n) = IsAnyFlagSet m (2 ^ n).
Proof.
  intros Hn. assert (Z.land m (2 ^ n) = if Z.testbit m n then 2 ^ n else 0) as E.
  { apply Z.bits_inj'. intros i Hi. rewrite Z.land_spec, Z.pow2_bits_eqb by done.
    destruct (Z.eqb_spec n i) as [->|Hne].
    - rewrite andb_true_r. destruct (Z.testbit m i) eqn:?; [by rewrite Z.pow2_bits_true|by rewrite Z.bits_0].
    - rewrite andb_false_r. destruct (Z.testbit m n); [by rewrite Z.pow2_bits_false by lia|by rewrite Z.bits_0]. }
  unfold IsFlagSet, IsAnyFlagSet. rewrite E. pose proof (Z.pow_pos_nonneg 2 n). destruct (Z.testbit m n); lia.
Qed.

Lemma any_flag_or m a b : IsAnyFlagSet m (Z.lor a b) = IsAnyFlagSet m a || IsAnyFlagSet m b.
Proof.
  unfold IsAnyFlagSet. rewrite Z.land_lor_distr_r. rewrite <-negb_andb. f_equal.
  destruct (Z.eqb_spec (Z.land m a) 0) as [->|Ha], (Z.eqb_spec (Z.land m b) 0) as [->|Hb]; cbn [andb]; [done|..];
    apply Z.eqb_neq; intros [? ?]%Z.lor_eq_0_iff; done.
Qed.

Lemma modifier_pressed k : IsModifierPressed k = IsShiftPressed k || IsAltPressed k || IsCtrlPressed k.
Proof.
  unfold IsModifierPressed, MOD_PRESSED. rewrite !any_flag_or, orb_assoc. unfold IsShiftPressed.
  by rewrite (single_flag _ 4).
Qed.

(** Function keys are not characters. *)
Lemma function_key_codes vkey : vkey ∈ function_keys →
  (vkey =? 0x20) || ((vkey >? 0x40) && (vkey <=? 0x5A)) = false.
Proof.
  intros Hk. assert (forallb (λ v, negb ((v =? 0x20) || ((v >? 0x40) && (v <=? 0x5A)))) function_keys = true) as Hall by reflexivity.
  rewrite forallb_forall in Hall. apply negb_true_iff, Hall. by apply list_elem_of_In.
Qed.

Lemma modified_key_text k t text :
  _virtualKeyCode k ∈ function_keys → _charData k = 0 → LOBYTE (VkKeyScanW 0) ≠ _virtualKeyCode k → _ansiMode t = true →
  key_text (_virtualKeyCode k) (IsShiftPressed k) (IsAltPressed k) (IsCtrlPressed k) (_cursorApplicationMode t) = Some text →
  text ≠ [] → modified_key k t = (_SendInputSequence text t, true).
Proof.
  intros Hk Hc Hv Ha Ht Hne. unfold modified_key.
  assert (alt_ctrl_char k = None) as Hno.
  { unfold alt_ctrl_char. rewrite Hc, function_key_codes by done. cbn [Z.eqb andb]. by destruct (Z.eqb_spec (_virtualKeyCode k) (LOBYTE (VkKeyScanW 0))). }
  rewrite Hno. replace (if IsAltPressed k && IsCtrlPressed k then None else None) with (@None wchar) by by case_match.
  rewrite modifier_pressed. unfold key_text in Ht. destruct (_ || _) eqn:Hm.
  - unfold _searchWithModifier. pose proof (search_plain k s_modifierKeyMapping eq_refl) as Hs.
    destruct (find_key _ _) as [seq|] eqn:Ef; [|done]. cbn in Ht. injection Ht as <-.
    destruct (_searchKeyMapping k s_modifierKeyMapping) as [v|]; [|done]. cbn in Hs. injection Hs as Hs. rewrite Hs.
    destruct seq as [|c seq]; [done|done].
  - assert (IsAltPressed k = false ∧ IsCtrlPressed k = false) as [-> ->] by (destruct (IsShiftPressed k), (IsAltPressed k), (IsCtrlPressed k); done).
    cbn [andb negb]. unfold plain_key, _translateDefaultMapping, _getKeyMapping, IsCursorKey. rewrite Ha.
    change s_keypadApplicationMapping with s_keypadNumericMapping.
    rewrite search_plain by (repeat case_match; reflexivity).
    replace (if _keypadApplicationMode t then s_keypadNumericMapping else s_keypadNumericMapping) with s_keypadNumericMapping by (destruct (_keypadApplicationMode t); reflexivity).
    by rewrite Ht.
Qed.

(** C18: a function key arrives as it was.  Each of the 22 keys of the cursor block and
    of the function row, with every combination of Shift, Alt and Ctrl (but AltGr), in normal and
    in application mode, is written as one sequence; the parser and the input engine at
    the other end turn its text into exactly one call, which writes the presses of the
    same key with the same modifiers held around it. *)
Theorem function_key_round_trip (k : KeyEvent) (t : TerminalInput) (s : Machine) :
  _virtualKeyCode k ∈ function_keys → _keyDown k = true → _charData k = 0 → IsAltGrPressed k = false →
  LOBYTE (VkKeyScanW 0) ≠ _virtualKeyCode k → _win32InputMode t = false → _ansiMode t = true →
  at_rest s → wants_text (_engine s) false → _lookingForDSR (_engine s) = false →
  ∃ text m t', HandleKey (Some (Key k)) t = (t', true) ∧ _written t' = _written t ++ [char_key <$> text]
    ∧ ClearFlag m ENHANCED_KEY = left_modifiers (IsShiftPressed k) (IsAltPressed k) (IsCtrlPressed k)
    ∧ ∀ r d, interact (WriteInput (Key <$> _GenerateWrappedSequence (u16 (MapVirtualKey_CHAR (_virtualKeyCode k)))
                                      (_virtualKeyCode k) m [])) (_pDispatch (_engine s)) = Ok r d →
      ∃ s', ProcessString text s = Ok tt s' ∧ at_rest s' ∧ _engine s' = set_dispatch d (_engine s).
Proof.
  intros Hk Hd Hc Hg Hv Hw Ha Hs Ht Hl.
  destruct (key_is_read_back (_virtualKeyCode k) (IsShiftPressed k) (IsAltPressed k) (IsCtrlPressed k) (_cursorApplicationMode t) Hk)
    as (text & m & Htext & Hdec & Hm).
  assert (text ≠ []) as Hne by by intros ->.
  exists text, m, (_SendInputSequence text t). split; [|split; [|split; [done|]]].
  - unfold HandleKey. rewrite Hw, Hd, Hg. cbn [andb negb]. by apply modified_key_text.
  - by destruct text.
  - intros r d Hi. by eapply decoded_key_arrives.
Qed.
End arrival.

(** ** Typing

    A keyboard on which keys are pressed and let go: a key that is down cannot be
    pressed, one that is up cannot be let go, and every event shows the modifiers
    that are down after it. *)

Record Held := mkHeld { h_shift : bool; h_alt : bool; h_ctrl : bool; h_other : bool }.

#[global] Instance Held_dec : EqDecision Held.
Proof. solve_decision. Defined.

Definition no_key : Held := mkHeld false false false false.

Definition hold (e : KeyEvent) (h : Held) : option Held :=
  let down := _keyDown e in
  let vk := _virtualKeyCode e in
  let turn (was : bool) (h' : Held) := if Bool.eqb was down then None else Some h' in
  if vk =? VK_SHIFT then turn (h_shift h) (mkHeld down (h_alt h) (h_ctrl h) (h_other h))
  else if vk =? VK_MENU then turn (h_alt h) (mkHeld (h_shift h) down (h_ctrl h) (h_other h))
  else if vk =? VK_CONTROL then turn (h_ctrl h) (mkHeld (h_shift h) (h_alt h) down (h_other h))
  else turn (h_other h) (mkHeld (h_shift h) (h_alt h) (h_ctrl h) down).

Definition shows (e : KeyEvent) (h : Held) : bool :=
  Z.land (_activeModifierKeys e) (left_modifiers true true true) =? left_modifiers (h_shift h) (h_alt h) (h_ctrl h).

Fixpoint typed (events : list KeyEvent) (h : Held) : option Held :=
  match events with
  | [] => Some h
  | e :: events => h' ← hold e h; if shows e h' then typed events h' else None
  end.

Lemma typed_cons e es h h' : hold e h = Some h' → shows e h' = true → typed (e :: es) h = typed es h'.
Proof. intros Hh Hs. cbn. rewrite Hh. cbn. by rewrite Hs. Qed.

Lemma land_flags m :
  Z.land m (left_modifiers true true true)
  = left_modifiers (IsFlagSet m SHIFT_PRESSED) (IsFlagSet m LEFT_ALT_PRESSED) (IsFlagSet m LEFT_CTRL_PRESSED).
Proof.
  unfold left_modifiers. rewrite !Z.land_lor_distr_r.
  assert (∀ n, 0 <= n → Z.land m (2 ^ n) = if IsFlagSet m (2 ^ n) then 2 ^ n else 0) as Hn.
  { intros n Hn. pose proof (single_flag m n Hn) as Hs. unfold IsFlagSet, IsAnyFlagSet in *.
    destruct (Z.eqb_spec (Z.land m (2 ^ n)) (2 ^ n)); [done|]. destruct (Z.eqb_spec (Z.land m (2 ^ n)) 0); done. }
  change SHIFT_PRESSED with (2 ^ 4). change LEFT_ALT_PRESSED with (2 ^ 1). change LEFT_CTRL_PRESSED with (2 ^ 3).
  by rewrite !Hn.
Qed.

(** C38: the presses that the input engine makes up for a character or a key can be typed.
    For every character, key and modifier state, each key that is pressed was up, each
    one that is let go was down, every event carries the flags of exactly the modifiers
    that are down after it, and at the end every key is up again. *)
Theorem wrapped_keys_can_be_typed `{Keyboard} (wch : wchar) (vkey m : Z) :
  vkey ∉ [VK_SHIFT; VK_MENU; VK_CONTROL] →
  typed (_GenerateWrappedSequence wch vkey m []) no_key = Some no_key.
Proof.
  rewrite !not_elem_of_cons. intros (H1 & H2 & H3 & _). pose proof (land_flags m) as Hm.
  assert (∀ h d sc, hold (mkKeyEvent d 1 vkey sc wch m) h
    = if Bool.eqb (h_other h) d then None else Some (mkHeld (h_shift h) (h_alt h) (h_ctrl h) d)) as Hkey.
  { intros h d sc. unfold hold. cbn [_virtualKeyCode _keyDown]. by rewrite !(proj2 (Z.eqb_neq _ _)) by done. }
  assert (∀ d sc h, shows (mkKeyEvent d 1 vkey sc wch m) h = (left_modifiers (IsFlagSet m SHIFT_PRESSED)
    (IsFlagSet m LEFT_ALT_PRESSED) (IsFlagSet m LEFT_CTRL_PRESSED) =? left_modifiers (h_shift h) (h_alt h) (h_ctrl h))) as Hshow.
  { intros. unfold shows. cbn [_activeModifierKeys]. by rewrite Hm. }
  unfold _GenerateWrappedSequence, _GetSingleKeypress, SetKeyDown.
  destruct (IsFlagSet m SHIFT_PRESSED), (IsFlagSet m LEFT_ALT_PRESSED), (IsFlagSet m LEFT_CTRL_PRESSED);
    cbn [app _keyDown _repeatCount _virtualKeyCode _virtualScanCode _charData _activeModifierKeys];
    repeat (erewrite typed_cons;
      [|first [rewrite Hkey; reflexivity|reflexivity]|first [rewrite Hshow; reflexivity|reflexivity]]); done.
Qed.
