(* ===== verification/MouseRoundTrip.v ===== *)
(** Mouse events on their way through text, in the SGR encoding. *)

From stdpp Require Import strings.
From S2P Require Import Prelude DispatchTypes StateMachine StateMachineFacts ParserParams ParserCsi ParserInput OutputEngine OutputFacts TextColor TextAttribute SgrStack Sgr Viewport InputEvent AdaptDispatch InputEngine InputFacts TerminalInput InputRoundTrip.
Import AsciiChars.

(** ** What a message says *)

(** The button of a message, in the numbering of the encoding and as a flag. *)
Definition message_button (button delta : Z) : Z :=
  if one_of button [WM_LBUTTONDBLCLK; WM_LBUTTONDOWN; WM_LBUTTONUP] then Button_Left
  else if one_of button [WM_RBUTTONUP; WM_RBUTTONDOWN; WM_RBUTTONDBLCLK] then Button_Right
  else if one_of button [WM_MBUTTONUP; WM_MBUTTONDOWN; WM_MBUTTONDBLCLK] then Button_Middle
  else if button =? WM_MOUSEMOVE then Button_Released
  else if _isWheelMsg button then (if delta >? 0 then Button_ScrollForward else Button_ScrollBack)
  else Button_Left.

Definition message_flag (b : Z) : Z :=
  if b =? Button_Left then FROM_LEFT_1ST_BUTTON_PRESSED
  else if b =? Button_Right then RIGHTMOST_BUTTON_PRESSED
  else if b =? Button_Middle then FROM_LEFT_2ND_BUTTON_PRESSED
  else 0.

(** The buttons that are down after it. *)
Definition message_buttons (b : Z) (down : bool) (before : Z) : Z :=
  if b =? Button_ScrollForward then SetFlag before SCROLL_DELTA_FORWARD
  else if b =? Button_ScrollBack then SetFlag before SCROLL_DELTA_BACKWARD
  else if down then SetFlag before (message_flag b)
  else ClearFlag before (message_flag b).

Definition message_flags (b : Z) (hover double : bool) : Z :=
  let flags := if (b =? Button_ScrollForward) || (b =? Button_ScrollBack) then MOUSE_WHEELED else 0 in
  let flags := if double then SetFlag flags DOUBLE_CLICK else flags in
  if hover then SetFlag flags MOUSE_MOVED else flags.

Lemma message_button_range button delta : 0 <= message_button button delta <= 5.
Proof. unfold message_button. repeat case_match; done. Qed.

(** ** The code of a message *)

Definition code_button (x : Z) : Z := Z.lor (Z.land x 0x3) (Z.shiftr (Z.land x 0xC0) 4).

Lemma sgr_code button (hover : bool) mods delta :
  let x := _windowsButtonToSGREncoding button hover mods delta in
  0 <= x < 128 ∧ code_button x = message_button button delta ∧ IsFlagSet x MouseModifier_Drag = hover
  ∧ _GetSGRMouseModifierState x
    = left_modifiers (IsAnyFlagSet mods SHIFT_PRESSED) (IsAnyFlagSet mods ALT_PRESSED) (IsAnyFlagSet mods CTRL_PRESSED).
Proof.
  cbv zeta. unfold _windowsButtonToSGREncoding, encode_mouse_modifiers, message_button, _isWheelMsg.
  replace (one_of button [WM_MOUSEWHEEL; WM_MOUSEHWHEEL]) with ((button =? WM_MOUSEWHEEL) || (button =? WM_MOUSEHWHEEL))
    by (cbn; by rewrite orb_false_r).
  destruct (IsAnyFlagSet mods SHIFT_PRESSED), (IsAnyFlagSet mods ALT_PRESSED), (IsAnyFlagSet mods CTRL_PRESSED), hover;
    repeat case_match; vm_compute; intuition congruence.
Qed.

Section arrival.
Context `{Keyboard} {D : Type} `{IInteractDispatch D} `{SteadyClock D}.

#[local] Abbreviation Engine := (InputStateMachineEngine D).
#[local] Abbreviation Machine := (StateMachine Engine Empty_set).

(** A press that the engine takes for the second one of a double click. *)
Definition doubled (position : Z * Z) (b : Z) (down : bool) (e : Engine) : bool :=
  down && is_double_click position (steady_clock_now (_pDispatch e)) b e.

(** The engine's memory of the mouse. *)
Lemma buttons_updated x (down : bool) position (e : Engine) :
  0 <= code_button x <= 5 →
  let b := code_button x in
  let buttons := message_buttons b down (_mouseButtonState e) in
  ∃ e', _UpdateSGRMouseButtonState (if down then Code_MouseDown else Code_MouseUp) x position e
      = Ok (Some (buttons, message_flags b (IsFlagSet x MouseModifier_Drag) (doubled position b down e))) e'
    ∧ _pDispatch e' = _pDispatch e ∧ _mouseButtonState e' = LOWORD buttons.
Proof.
  cbv zeta. intros Hb. unfold _UpdateSGRMouseButtonState. fold (code_button x). set (b := code_button x) in *. clearbody b.
  unfold message_buttons, message_flags, doubled, mbind, prog_bind, gets, modify.
  assert (∀ z, SetFlag z 0 = z) as Hset by apply Z.lor_0_r.
  assert (∀ z, ClearFlag z 0 = z) as Hclear by apply Z.ldiff_0_r.
  assert (b ∈ [0; 1; 2; 3; 4; 5]) as Hin by (rewrite !elem_of_cons; lia).
  rewrite !elem_of_cons in Hin.
  destruct down; [change (Code_MouseDown =? Code_MouseDown) with true|
    change (Code_MouseUp =? Code_MouseDown) with false; change (Code_MouseUp =? Code_MouseUp) with true];
  (destruct_or! Hin; [..|by apply elem_of_nil in Hin]); subst b;
    cbn -[is_double_click SetFlag ClearFlag IsFlagSet LOWORD SCROLL_DELTA_FORWARD SCROLL_DELTA_BACKWARD];
    try destruct (is_double_click _ _ _ _); rewrite ?Hset, ?Hclear; eexists; repeat split.
Qed.

Definition sgr_sequence (x : Z) (position : COORD) (down : bool) : CsiSequence :=
  mkCsi (Some 0x3C) (numbers [x; X position + 1; Y position + 1]) [] (if down then 0x4D else 0x6D).

Lemma sgr_text position button down hover mods delta :
  _GenerateSGRSequence position button down hover mods delta
  = csi_string (sgr_sequence (_windowsButtonToSGREncoding button hover mods delta) position down).
Proof.
  unfold _GenerateSGRSequence, csi_string, csi_body, sgr_sequence, numbers.
  cbn [csi_marker csi_text csi_intermediates csi_final option_list fmap list_fmap join_with app].
  repeat (rewrite <-app_assoc; cbn [app]). done.
Qed.

Lemma mouse_sequence_eq x (down : bool) position (e : Engine) r d :
  0 <= x < 128 → 0 <= code_button x <= 5 → 0 <= X position <= 32766 → 0 <= Y position <= 32766 →
  let b := code_button x in
  let buttons := message_buttons b down (_mouseButtonState e) in
  interact (WriteInput [Mouse (mkMouseEvent position buttons (_GetSGRMouseModifierState x)
    (message_flags b (IsFlagSet x MouseModifier_Drag) (doubled (X position, Y position) b down e)))]) (_pDispatch e) = Ok r d →
  ∃ e', mouse_sequence (if down then Code_MouseDown else Code_MouseUp)
          ((λ n, VTParameter_of (Z.min 32767 n)) <$> [x; X position + 1; Y position + 1]) (mkView None true e)
        = Ok r (mkView None true e')
    ∧ _pDispatch e' = d ∧ _mouseButtonState e' = LOWORD buttons.
Proof.
  cbv zeta. intros Hx Hb HX HY Hi. destruct (buttons_updated x down (X position, Y position) e Hb) as (e1 & E1 & Ed & Em).
  exists (set_dispatch d e1). split; [|split; [done|exact Em]].
  unfold mouse_sequence. cbn [fmap list_fmap].
  change (params_at [?a; ?b; ?c] 0) with a. change (params_at [?a; ?b; ?c] 1) with b. change (params_at [?a; ?b; ?c] 2) with c.
  rewrite value_or_number, !as_numeric_number by lia. rewrite !u64_small by lia.
  replace (X position + 1 - 1) with (X position) by lia. replace (Y position + 1 - 1) with (Y position) by lia.
  unfold make_point. replace ((X position <? 2 ^ 63) && (Y position <? 2 ^ 63)) with true by lia.
  unfold mbind at 1, prog_bind at 1. cbn [mret prog_ret].
  unfold mbind at 1, prog_bind at 1, in_engine, on_engine. cbn [ev_engine ev_cachedSequence ev_isInAnsiMode]. rewrite E1.
  unfold _WriteMouseEvent, point_COORD. cbn [fst snd].
  replace ((-32768 <=? X position) && (X position <=? 32767) && (-32768 <=? Y position) && (Y position <=? 32767)) with true by lia.
  unfold mbind, prog_bind. cbn [mret prog_ret]. apply write_eq. rewrite Ed. by destruct position.
Qed.

Lemma sgr_arrives button hover mods delta (down : bool) position (s : Machine) r d :
  let e := _engine s in
  let b := message_button button delta in
  let buttons := message_buttons b down (_mouseButtonState e) in
  0 <= X position <= 32766 → 0 <= Y position <= 32766 → at_rest s → wants_text e false →
  interact (WriteInput [Mouse (mkMouseEvent position buttons
      (left_modifiers (IsAnyFlagSet mods SHIFT_PRESSED) (IsAnyFlagSet mods ALT_PRESSED) (IsAnyFlagSet mods CTRL_PRESSED))
      (message_flags b hover (doubled (X position, Y position) b down e)))]) (_pDispatch e) = Ok r d →
  ∃ s', ProcessString (_GenerateSGRSequence position button down hover mods delta) s = Ok tt s' ∧ at_rest s'
    ∧ _pDispatch (_engine s') = d ∧ _mouseButtonState (_engine s') = LOWORD buttons.
Proof.
  cbv zeta. intros HX HY Hs Hw Hi. destruct (sgr_code button hover mods delta) as (Hx & Hb & Hh & Hm).
  pose proof (message_button_range button delta) as Hr. rewrite sgr_text.
  set (x := _windowsButtonToSGREncoding button hover mods delta) in *.
  rewrite <-Hm, <-Hb in Hi. rewrite <-Hh in Hi at 1. rewrite <-Hb in Hr |- *. clear Hb Hh Hm.
  destruct (mouse_sequence_eq x down position (_engine s) r d) as (e' & E & Ed & Em); [done..|].
  destruct (parse_numbers [x; X position + 1; Y position + 1]) as [Hchars Hparse]; [done|cbn; lia| |].
  { repeat (apply Forall_cons; split; [lia|]). done. }
  destruct (csi_arrives (sgr_sequence x position down) s false r e') as (s' & Es & Hs' & <-); [|done|done|done| |].
  - unfold csi_valid, sgr_sequence. cbn [csi_marker csi_text csi_intermediates csi_final]. rewrite Hchars. by destruct down.
  - rewrite <-E, <-Hparse. by destruct down.
  - by exists s'.
Qed.

(** The message whose button is written: a move without a button stays a move. *)
Definition shown_button (button real : Z) : Z := if negb (real =? WM_LBUTTONUP) then real else button.

(** C19: a mouse event arrives as it was.  Every event that the tracking mode reports in
    the SGR encoding, a press, a release, a drag, a move or a turn of the wheel by at least a notch, is
    written as one sequence; the parser and the input engine at the other end turn its
    text into exactly one call, with a mouse event at the same place, with the same
    modifiers, and with the buttons that are then down; a second press within the
    double click time is marked as a double click. *)
Theorem sgr_mouse_round_trip (position : COORD) (button mods delta : Z) (state : MouseButtonState) (t : TerminalInput) (s : Machine) :
  let m := _mouseInputState t in
  let e := _engine s in
  let real := if _isHoverMsg button then s_GetPressedButton state else button in
  let b := message_button (shown_button button real) delta in
  let down := _isButtonDown real in
  let buttons := message_buttons b down (_mouseButtonState e) in
  extendedMode m = Extended_Sgr → trackingMode m ≠ Tracking_None → reports position button real m = true →
  _ShouldSendAlternateScroll button delta m = false →
  Z.abs (accumulatedDelta m) < 120 → -32768 <= delta <= 32767 → (_isWheelMsg button = true → 120 <= Z.abs delta) →
  0 <= X position <= 32766 → 0 <= Y position <= 32766 → at_rest s → wants_text e false →
  ∃ text t', HandleMouse position button mods delta state t = (t', true) ∧ _written t' = _written t ++ [char_key <$> text]
    ∧ ∀ r d, interact (WriteInput [Mouse (mkMouseEvent position buttons
               (left_modifiers (IsAnyFlagSet mods SHIFT_PRESSED) (IsAnyFlagSet mods ALT_PRESSED) (IsAnyFlagSet mods CTRL_PRESSED))
               (message_flags b (_isHoverMsg button) (doubled (X position, Y position) b down e)))]) (_pDispatch e) = Ok r d →
      ∃ s', ProcessString text s = Ok tt s' ∧ at_rest s'
        ∧ _pDispatch (_engine s') = d ∧ _mouseButtonState (_engine s') = LOWORD buttons.
Proof.
  cbv zeta. intros He Ht Hrep Halt Hacc Hdelta Hwheel HX HY Hs Hw.
  set (real := if _isHoverMsg button then s_GetPressedButton state else button) in *.
  set (text := _GenerateSGRSequence position (shown_button button real) (_isButtonDown real) (_isHoverMsg button) mods delta).
  assert (∀ acc, ∃ t', mouse_event position button mods delta state (set_mouse (set_delta acc (_mouseInputState t)) t) = (t', true)
    ∧ _written t' = _written t ++ [char_key <$> text]) as Hevent.
  { intros acc. unfold mouse_event, tracked_mouse. cbn [_mouseInputState set_mouse].
    change (_ShouldSendAlternateScroll button delta (set_delta acc (_mouseInputState t)))
      with (_ShouldSendAlternateScroll button delta (_mouseInputState t)). rewrite Halt.
    cbn [trackingMode set_delta]. rewrite bool_decide_false by done. fold real.
    change (reports position button real (set_delta acc (_mouseInputState t))) with (reports position button real (_mouseInputState t)).
    rewrite Hrep. unfold mouse_text. cbn [extendedMode set_delta]. rewrite He. fold (shown_button button real). fold text.
    destruct text eqn:Etext; [by unfold text, _GenerateSGRSequence in Etext|]. eexists. split; [reflexivity|]. by case_match. }
  assert (∃ t', HandleMouse position button mods delta state t = (t', true) ∧ _written t' = _written t ++ [char_key <$> text])
    as (t' & Et & Hwr).
  { unfold HandleMouse. set (acc := if negb _ then _ else _).
    assert (acc = 0 ∨ acc = accumulatedDelta (_mouseInputState t) ∧ Z.sgn delta = Z.sgn acc) as Hsign.
    { subst acc. destruct (Z.eqb_spec (Z.sgn delta) (Z.sgn (accumulatedDelta (_mouseInputState t)))); cbn; auto. }
    clearbody acc. destruct (_isWheelMsg button) eqn:Ew; [|apply Hevent]. specialize (Hwheel eq_refl).
    rewrite wraps_small by (cbn; lia). rewrite (proj2 (Z.ltb_ge _ _)) by (unfold WHEEL_DELTA; lia). apply (Hevent 0). }
  exists text, t'. split; [done|]. split; [done|]. intros r d Hi. by apply (sgr_arrives _ _ _ _ _ _ s r d).
Qed.
End arrival.
