(* ===== verification/InputRecorder.v ===== *)
(** A keyboard and a dispatch that writes down its calls: the theorems on the input side
    are evaluated on them. *)

From stdpp Require Import strings.
From S2P Require Import Prelude DispatchTypes StateMachine StateMachineFacts ParserCsi ParserInput OutputEngine TextColor TextAttribute SgrStack Sgr Viewport InputEvent AdaptDispatch AdaptFacts AdaptConsole InputEngine InputFacts TerminalInput InputRoundTrip MouseRoundTrip.
Import AsciiChars.

Module InputRecorder.

(** Letters, digits, [/], [?] and [Ctrl+@] of the US layout. *)
#[export] Instance us_keyboard : Keyboard :=
  {| VkKeyScanW c :=
       if (0x61 <=? c) && (c <=? 0x7A) then c - 0x20
       else if (0x41 <=? c) && (c <=? 0x5A) then c + 0x100
       else if (0x30 <=? c) && (c <=? 0x39) then c
       else if c =? 0x2F then 0xBF
       else if c =? 0x3F then 0x1BF
       else if c =? 0 then 0x332
       else -1;
     MapVirtualKey_VSC k := Z.land k 0xFF;
     MapVirtualKey_CHAR k := if (0x30 <=? k) && (k <=? 0x5A) then k else 0 |}.

#[export] Instance us_keyboard_laws : KeyboardLaws.
Proof.
  constructor. intros k. cbn. change 255 with (Z.ones 8). rewrite Z.land_ones by lia.
  pose proof (Z.mod_pos_bound k (2 ^ 8)). lia.
Qed.

Definition Calls := list InteractCall.

#[export] Instance calls_dispatch : IInteractDispatch Calls :=
  {| interact c d := Ok true (d ++ [c]); IsVtInputEnabled d := Ok false d |}.
#[export] Instance calls_clock : SteadyClock Calls := λ d, Z.of_nat (length d).

Definition machine : StateMachine (InputStateMachineEngine Calls) Empty_set :=
  StateMachine_init (InputEngine_init [] false 500).

(** The calls that a list of strings leads to. *)
Definition calls_of (strings : list wstring) : option Calls :=
  match ProcessStrings strings machine with
  | Ok _ s => Some (_pDispatch (_engine s))
  | Throw _ _ => None
  end.
End InputRecorder.

Import InputRecorder PlainConsole.

#[local] Instance page_clock : SteadyClock Page := λ _, 0.

Lemma input_never_fails_witness :
  ∃ s', ProcessStrings [[ESC; 0x5B]; wstr "ab"; [ESC; 0x5B] ++ wstr "<0;99999;1M"; [0x9B]]
          (StateMachine_init (InputEngine_init (page 10 106) true 500)) = Ok tt s'
    ∧ sm_wf s' ∧ con_ok (_pDispatch (_engine s')) ∧ _state s' = Ground.
Proof.
  apply input_never_fails; [apply (bool_decide_unpack _); vm_compute; exact I..|apply page_is_ok; lia].
Defined.

(** Ctrl+Shift+A, as the terminal of an application in win32 input mode sends it. *)
Definition some_key : KeyEvent := mkKeyEvent true 1 0x41 30 1 0x18.

Lemma win32_key_round_trip_witness :
  ∃ text t' s', HandleKey (Some (Key some_key)) (ChangeWin32InputMode true TerminalInput_init) = (t', true)
    ∧ _written t' = [char_key <$> text] ∧ ProcessString text machine = Ok tt s' ∧ at_rest s'
    ∧ _engine s' = set_dispatch [WriteCtrlKey some_key] (_engine machine).
Proof.
  apply (win32_key_round_trip some_key (ChangeWin32InputMode true TerminalInput_init) machine true [WriteCtrlKey some_key] false);
    [|reflexivity|reflexivity|by repeat split|by exists false|reflexivity].
  apply (bool_decide_unpack _). vm_compute. exact I.
Defined.

(** Ctrl+F5. *)
Lemma function_key_round_trip_witness :
  let k := mkKeyEvent true 1 VK_F5 63 0 RIGHT_CTRL_PRESSED in
  ∃ text m t', HandleKey (Some (Key k)) TerminalInput_init = (t', true) ∧ _written t' = [char_key <$> text]
    ∧ ClearFlag m ENHANCED_KEY = left_modifiers (IsShiftPressed k) (IsAltPressed k) (IsCtrlPressed k)
    ∧ ∀ r d, interact (WriteInput (Key <$> _GenerateWrappedSequence (u16 (MapVirtualKey_CHAR (_virtualKeyCode k)))
                                      (_virtualKeyCode k) m [])) (_pDispatch (_engine machine)) = Ok r d →
      ∃ s', ProcessString text machine = Ok tt s' ∧ at_rest s' ∧ _engine s' = set_dispatch d (_engine machine).
Proof.
  apply (function_key_round_trip (mkKeyEvent true 1 VK_F5 63 0 RIGHT_CTRL_PRESSED) TerminalInput_init machine);
    [|reflexivity|reflexivity|reflexivity|discriminate|reflexivity|reflexivity|by repeat split|by exists false|reflexivity].
  apply (bool_decide_unpack _). vm_compute. exact I.
Defined.

Lemma wrapped_keys_can_be_typed_witness :
  typed (_GenerateWrappedSequence 0x41 0x41 (Z.lor SHIFT_PRESSED LEFT_CTRL_PRESSED) []) no_key = Some no_key.
Proof.
  apply (wrapped_keys_can_be_typed 0x41 0x41 (Z.lor SHIFT_PRESSED LEFT_CTRL_PRESSED)).
  apply (bool_decide_unpack _). vm_compute. exact I.
Defined.

(** A drag with the right button and Alt. *)
Definition sgr_tracking : TerminalInput :=
  set_mouse (SetSGRExtendedMode true (EnableButtonEventTracking true MouseInputState_init)) TerminalInput_init.

Lemma sgr_mouse_round_trip_witness :
  ∃ text t', HandleMouse (mkCOORD 79 24) WM_MOUSEMOVE LEFT_ALT_PRESSED 0 (mkMouseButtonState false false true) sgr_tracking = (t', true)
    ∧ _written t' = [char_key <$> text]
    ∧ ∀ r d, interact (WriteInput [Mouse (mkMouseEvent (mkCOORD 79 24) RIGHTMOST_BUTTON_PRESSED LEFT_ALT_PRESSED MOUSE_MOVED)])
               (_pDispatch (_engine machine)) = Ok r d →
      ∃ s', ProcessString text machine = Ok tt s' ∧ at_rest s'
        ∧ _pDispatch (_engine s') = d ∧ _mouseButtonState (_engine s') = RIGHTMOST_BUTTON_PRESSED.
Proof.
  apply (sgr_mouse_round_trip (mkCOORD 79 24) WM_MOUSEMOVE LEFT_ALT_PRESSED 0 (mkMouseButtonState false false true) sgr_tracking machine);
    [reflexivity|discriminate|reflexivity|reflexivity|cbn; lia|lia|discriminate|cbn; lia|cbn; lia|by repeat split|by exists false].
Defined.

(** ** What does not arrive *)

(** A number above 32767 is cut off: in win32 input mode a Hangul syllable arrives as
    another character. *)
Lemma win32_large_character_lost :
  let k := mkKeyEvent true 1 0 0 0xAC00 0 in
  calls_of [_GenerateWin32KeySequence k] = Some [WriteCtrlKey (SetCharData 0x7FFF k)].
Proof. vm_compute. reflexivity. Qed.

(** A second leading surrogate makes the first one go out as a decimal number. *)
Lemma leading_surrogate_printed_as_number :
  let key c := Some (Key (mkKeyEvent true 1 0 0 c 0)) in
  let t := (HandleKey (key 0xD83D) TerminalInput_init).1 in
  _written (HandleKey (key 0xD83D) t).1 = [char_key <$> wstr "55357"].
Proof. vm_compute. reflexivity. Qed.

(** F1 without modifiers, as a control sequence, is marked as an enhanced key. *)
Lemma function_key_marked_enhanced :
  _GetCursorKeysModifierState [VTParameter_of 1; VTParameter_of 1] CSI_F1 = ENHANCED_KEY.
Proof. vm_compute. reflexivity. Qed.

(** A character that the layout does not have still makes a key press. *)
Lemma missing_character_makes_key : _GenerateKeyFromChar 0x4E2D = Some (0xFF, Z.lor SHIFT_PRESSED (Z.lor LEFT_CTRL_PRESSED LEFT_ALT_PRESSED)).
Proof. vm_compute. reflexivity. Qed.
