(* ===== verification/WriteFacts.v ===== *)
(** Writing any cells keeps the buffer well formed, also when halves of wide glyphs
    do not fit: the rows are padded and the text goes on in the next line. *)

From S2P Require Import Prelude DispatchTypes TextColor TextAttribute Utf16 Rle RleFacts RleIter Viewport ViewportFacts OutputCell CharRow Row RowFacts Cursor TextBuffer TextBufferFacts.
From stdpp Require Import gmap.

#[local] Open Scope Z_scope.

(** ** Programs that may throw *)

(** The program returns with [Q], or throws an exception of the kind [ok] and leaves a
    world with [E]. *)
Definition wpx {W A} (ok : exn → bool) (m : prog W A) (Q : A → W → Prop) (E : W → Prop) (w : W) : Prop :=
  match m w with
  | Ok a w' => Q a w'
  | Throw e w' => ok e = true ∧ E w'
  end.

Section wpx_rules.
Context {W A B : Type} (ok : exn → bool).
Implicit Types (w : W) (E : W → Prop).

Lemma wpx_wp (m : prog W A) Q E w : wp m Q w → wpx ok m Q E w.
Proof. unfold wp, wpx. by destruct (m w). Qed.

Lemma wpx_bind (m : prog W A) (f : A → prog W B) Q E w :
  wpx ok m (λ a w', wpx ok (f a) Q E w') E w → wpx ok (m ≫= f) Q E w.
Proof. unfold wpx, mbind, prog_bind. by destruct (m w). Qed.

Lemma wpx_mono (m : prog W A) (P Q : A → W → Prop) (E E' : W → Prop) w :
  wpx ok m P E w → (∀ a w', P a w' → Q a w') → (∀ w', E w' → E' w') → wpx ok m Q E' w.
Proof. unfold wpx. destruct (m w); naive_solver. Qed.

Lemma wpx_throw e (Q : A → W → Prop) E w : ok e = true → E w → wpx ok (throw e) Q E w.
Proof. done. Qed.
End wpx_rules.

(** One step of the proof of a [wpx]. *)
Ltac wpx_step :=
  match goal with
  | |- wpx _ (_ ≫= _) _ _ _ => apply wpx_bind
  | |- wpx _ (mret _) _ _ _ => apply wpx_wp, wp_ret
  | |- wpx _ (gets _) _ _ _ => apply wpx_wp, wp_gets
  | |- wpx _ (modify _) _ _ _ => apply wpx_wp, wp_modify
  end.

(** ** Rows *)

Section rows.
Context `{GlyphWidth} (d : LegacyDefaults).

(** [G k it] holds before column [k] is written from [it].  The iterator either
    advances or stays where it is because half a glyph does not fit. *)
Definition padded_at (final : Z) (k : nat) (v : OutputCellView) : Prop :=
  k = 0%nat ∧ IsTrailing (DbcsAttr v) = true ∨ Z.of_nat k = final ∧ IsLeading (DbcsAttr v) = true.

Definition writes (final : Z) (G : nat → OutputCellIterator → Prop) : Prop :=
  ∀ k it, G k it → Iter_valid it = true →
    Chars (_currentView it) ≠ [] ∧ TextAttrBehavior (_currentView it) = Stored
    ∧ (padded_at final k (_currentView it) → G (S k) it)
    ∧ (¬ padded_at final k (_currentView it) → ∃ it1, Iter_next d it = inr it1 ∧ G (S k) it1).

Section row.
Context (r0 : ROW) (s0 : UnicodeStorage) (Hr0 : row_ok r0 s0).

(** A row of the same place. *)
Definition same_row (w : RowWorld) : Prop :=
  row_ok w.1 w.2 ∧ row_fixed w.1 = row_fixed r0 ∧ same_elsewhere (_id r0) s0 w.2.

Lemma same_row_width w : same_row w → _rowWidth w.1 = _rowWidth r0 ∧ _id w.1 = _id r0.
Proof. unfold same_row, row_fixed. by intros (_ & [= _ -> ->] & _). Qed.

Lemma same_row_flags f w :
  (∀ r, row_fixed (f r) = row_fixed r) → (∀ r s, row_ok r s → row_ok (f r) s) → same_row w → same_row (f w.1, w.2).
Proof. intros Hf Ho (H1 & H2 & H3). split; [by apply Ho|]. cbn. by rewrite Hf. Qed.

Lemma same_row_padded b w : same_row w → same_row (SetDoubleBytePadded b w.1, w.2).
Proof. apply (same_row_flags (SetDoubleBytePadded b)); [done|]. intros r s []. by split. Qed.

Lemma same_row_wrap b w : same_row w → same_row (SetWrapForced b w.1, w.2).
Proof. apply (same_row_flags (SetWrapForced b)); [done|]. intros r s []. by split. Qed.

Lemma clear_cell_same (i : nat) w (Q : unit → RowWorld → Prop) :
  same_row w → (i < Z.to_nat (_rowWidth r0))%nat → (∀ w', same_row w' → Q tt w') →
  wp (on_chars (ClearCell (Z.of_nat i))) Q w.
Proof.
  intros Hs Hi HQ. destruct (same_row_width w Hs) as [Ew Ei]. pose proof Hs as (Hr & Hf & Hel).
  pose proof (ok_chars _ _ Hr) as Hl. destruct (lookup_lt_is_Some_2 (_charRow w.1) i) as [c Hc]; [lia|].
  unfold wp, on_chars, ClearCell. rewrite (update_cell_lookup _ _ _ _ Hc). apply HQ.
  split; [|done]. destruct Hr as [Hw Hch Ha1 Ha2 Hg]. split; try done; cbn [fst snd set_charRow _charRow _rowWidth].
  - by rewrite length_insert.
  - apply (glyphs_update w.1 w.2 w.2); [done|done|done].
Qed.

Lemma replace_attrs_same (b e : nat) a w (Q : unit → RowWorld → Prop) :
  same_row w → (b < e)%nat → (e <= Z.to_nat (_rowWidth r0))%nat → (∀ w', same_row w' → Q tt w') →
  wp (on_attrs (AttrRow_Replace (Z.of_nat b) (Z.of_nat e) a)) Q w.
Proof.
  intros Hs Hb He HQ. destruct (same_row_width w Hs) as [Ew _]. destruct Hs as (Hr & Hf & Hel).
  destruct (replace_attrs_ok w.1 w.2 b e a Hr Hb ltac:(by rewrite Ew)) as (v & E & Hok & _).
  unfold wp, on_attrs. rewrite E. apply HQ. by split.
Qed.

(** The colour that is counted covers the columns since it started. *)
Definition counting (k : nat) (st : WriteState) : Prop :=
  currentIndex st = Z.of_nat k
  ∧ (colorUses st = 0 ∧ currentColor st = TextAttr (_currentView (w_it st))
     ∨ 0 < colorUses st <= Z.of_nat k ∧ ∃ c : nat, colorStarts st = Z.of_nat c ∧ (c < k)%nat).

Lemma write_color_same k st w (Q : WriteState → RowWorld → Prop) :
  same_row w → counting k st → (k < Z.to_nat (_rowWidth r0))%nat →
  TextAttrBehavior (_currentView (w_it st)) = Stored →
  (colorUses st = 0 → colorStarts st = Z.of_nat k) →
  (∀ st' w', same_row w' → w_it st' = w_it st → currentIndex st' = Z.of_nat k →
     (0 < colorUses st' <= Z.of_nat (S k) ∧ ∃ c : nat, colorStarts st' = Z.of_nat c ∧ (c < S k)%nat) → Q st' w') →
  wp (write_color st) Q w.
Proof.
  intros Hs [Hi Hc] Hk Hb H0 HQ. pose proof (ok_width _ _ Hr0). unfold write_color. rewrite Hb.
  rewrite decide_False by done. case_decide as Ecol.
  - wp_step. apply HQ; [done..|]. cbn [colorUses colorStarts]. rewrite wrapu_small by lia.
    split; [lia|]. destruct Hc as [[Hu _]|(_ & c & -> & ?)]; [exists k; split; [by rewrite H0|lia]|exists c; split; [done|lia]].
  - destruct Hc as [[_ ?]|(_ & c & Es & Hck)]; [done|]. wp_step. rewrite Es, Hi.
    apply replace_attrs_same; [done|lia|lia|]. intros w' Hw'. wp_step. apply HQ; [done..|]. cbn.
    split; [lia|]. exists k. split; [done|lia].
Qed.

Lemma write_text_same final wrap G k st w (Q : OutputCellIterator → RowWorld → Prop) :
  writes final G → same_row w → G k (w_it st) → Iter_valid (w_it st) = true →
  currentIndex st = Z.of_nat k → (k < Z.to_nat (_rowWidth r0))%nat →
  (∀ it w', same_row w' → G (S k) it → Q it w') → wp (write_text d final wrap st) Q w.
Proof.
  intros HG Hs Hk Hv Hi Hle HQ. destruct (HG k _ Hk Hv) as (Hne & Hb & Hpad & Hnext).
  unfold write_text. rewrite Hb, decide_False by done. rewrite Hi. unfold padded_at in *.
  set (v := _currentView (w_it st)) in *.
  assert (Hf : (Z.of_nat k =? final) = true ↔ Z.of_nat k = final) by apply Z.eqb_eq.
  set (fill := Z.of_nat k =? final) in *. clearbody fill.
  assert (Hend : ∀ it w', same_row w' → G (S k) it →
    wp (match wrap with
        | Some b => if fill then on_flags (SetWrapForced b);; mret it else mret it
        | None => mret it
        end) Q w').
  { intros it w' Hw' Hit. destruct wrap as [b|], fill; repeat wp_step; apply HQ; try done; by apply same_row_wrap. }
  destruct ((Z.of_nat k =? 0) && IsTrailing (DbcsAttr v)) eqn:E0.
  { apply andb_true_iff in E0 as [E0 Et]. wp_step. wp_step. apply clear_cell_same; [done|done|]. intros w' Hw'. wp_step.
    apply Hend; [done|]. apply Hpad. left. split; [lia|done]. }
  destruct (fill && IsLeading (DbcsAttr v)) eqn:E1.
  { apply andb_true_iff in E1 as [E1 El]. wp_step. wp_step. apply clear_cell_same; [done|done|]. intros w' Hw'. repeat wp_step.
    apply Hend; [by apply same_row_padded|]. apply Hpad. right. split; [by apply Hf|done]. }
  destruct Hnext as (it1 & En & HG1).
  { intros [[-> Ht]|[E El]]; [by rewrite Ht in E0|]. apply Hf in E. rewrite E, El in E1. done. }
  destruct w as [r s]. destruct (same_row_width _ Hs) as [Ew Eid]. destruct Hs as (Hr & Hfx & Hel). cbn in Ew, Eid.
  wp_step. apply write_cell_ok; [done|by rewrite Ew|done|]. intros r' s' Hr' Hf' _ _ _ Hel' _.
  rewrite En. apply Hend; [|done]. split; [done|]. split; [cbn in *; congruence|].
  eapply same_elsewhere_trans; [done|]. by rewrite <-Eid.
Qed.

Lemma write_loop_same final wrap G fuel : ∀ k st w (Q : WriteState → RowWorld → Prop),
  writes final G → final < _rowWidth r0 → same_row w → counting k st → G k (w_it st) →
  (colorUses st = 0 → colorStarts st = Z.of_nat k) →
  Z.of_nat k <= final + 1 → (Z.to_nat (final + 1) - k <= fuel)%nat →
  (∀ st' k' w', same_row w' → G k' (w_it st') → Z.of_nat k' <= final + 1 → (k <= k')%nat →
     Iter_valid (w_it st') = false ∨ Z.of_nat k' = final + 1 →
     (colorUses st' = 0 ∨ currentIndex st' = Z.of_nat k' ∧ ∃ c : nat, colorStarts st' = Z.of_nat c ∧ (c < k')%nat) → Q st' w') →
  wp (write_loop d fuel final wrap st) Q w.
Proof.
  pose proof (ok_width _ _ Hr0) as Hw0.
  induction fuel as [|fuel IH]; intros k st w Q HG Hfin Hs Hc Hk H0 Hle Hfuel HQ; pose proof Hc as [Hi Hcol];
    cbn [write_loop]; (destruct (Iter_valid (w_it st)) eqn:Hv; cbn [andb];
      [|wp_step; apply (HQ _ k); [done|done|done|lia|by left|destruct Hcol as [[? _]|[_ ?]]; [by left|by right]]]);
    rewrite Hi; destruct (Z.leb_spec (Z.of_nat k) final); try lia;
    try (wp_step; apply (HQ _ k); [done|done|done|lia|right; lia|destruct Hcol as [[? _]|[_ ?]]; [by left|by right]]).
  destruct (HG k _ Hk Hv) as (_ & Hb & _).
  wp_step. apply (write_color_same k); [done|done|lia|done|done|]. intros st' w' Hw' Hit Hi' Hcol'.
  wp_step. eapply (write_text_same final wrap G k); [done|done|by rewrite Hit|by rewrite Hit|done|lia|].
  intros it w2 Hw2 HG2. rewrite Hi'. eapply (IH (S k)); cbn [w_it colorUses colorStarts]; try done.
  - split; cbn [currentIndex]; [rewrite wrapu_small by lia; lia|right]. by destruct Hcol' as [Hu [c [Hc1 Hc2]]]; eauto.
  - lia.
  - lia.
  - lia.
  - intros st2 k2 w3 Ha Hb2 Hc2 Hd2. apply (HQ st2 k2); [done..|lia].
Qed.

Lemma WriteCells_same G it (index : nat) wrap (Q : OutputCellIterator → RowWorld → Prop) :
  let final := _rowWidth r0 - 1 in
  writes final G → Z.of_nat index <= final → G index it →
  (∀ it' k' w', same_row w' → G k' it' → (index <= k')%nat → Z.of_nat k' <= final + 1 →
     Iter_valid it' = false ∨ Z.of_nat k' = final + 1 → Q it' w') →
  wp (WriteCells d it (Z.of_nat index) wrap None) Q (r0, s0).
Proof.
  intros final HG Hidx Hit HQ. pose proof (ok_width _ _ Hr0) as Hw0.
  unfold WriteCells. repeat wp_step. unfold CharRow_size. cbn [fst snd]. rewrite (ok_chars _ _ Hr0), Z2Nat.id by lia.
  destruct (Z.geb_spec (Z.of_nat index) (_rowWidth r0)); [lia|]. cbn [default].
  destruct (Z.geb_spec 0 (_rowWidth r0)); [lia|]. rewrite (wrapu_small 16) by lia. wp_step.
  apply (write_loop_same _ _ G _ index); try done; try lia.
  - split; [done|]. by left.
  - intros st' k' w' Hw' HG' Hle Hge Hstop Hcol. wp_step.
    assert (∀ w2, same_row w2 → wp (mret (w_it st')) Q w2) as Hend by (intros; wp_step; by apply (HQ _ k')).
    destruct (Z.eqb_spec (colorUses st') 0) as [|Hne]; [wp_step; by apply Hend|].
    destruct Hcol as [|(Hi & c & Hc & Hck)]; [done|]. rewrite Hi, Hc.
    apply replace_attrs_same; [done|lia|lia|]. intros w2 Hw2. by apply Hend.
Qed.
End row.

(** ** Lines of the buffer *)

(** What a write of cells leaves as it is. *)
Definition rows_only (t t' : TextBuffer) : Prop := buffer_ok t' ∧ rest t' = rest t.

Lemma rows_only_refl t : buffer_ok t → rows_only t t.
Proof. done. Qed.

Lemma rows_only_trans t1 t2 t3 : rows_only t1 t2 → rows_only t2 t3 → rows_only t1 t3.
Proof. intros [_ E1] [H2 E2]. split; [done|congruence]. Qed.

Lemma rows_only_rows t t' : buffer_ok t → rows_only t t' → TotalRowCount t' = TotalRowCount t ∧ t_width t' = t_width t.
Proof.
  intros Ht [Ht' E]. assert (_size t' = _size t) as Es by by injection E. unfold t_width. rewrite Es. split; [|done].
  by rewrite <-(Height_size t' Ht'), <-(Height_size t Ht), Es.
Qed.

(** Narrowing the length that was written is the only exception. *)
Definition narrowing (e : exn) : bool := match e with NarrowingError => true | _ => false end.

Lemma WriteLine_keeps G t it p wrap (Q : OutputCellIterator → TextBuffer → Prop) :
  writes (t_width t - 1) G → buffer_ok t → inside (_size t) p → G (Z.to_nat (X p)) it →
  (∀ it' k' t', rows_only t t' → G k' it' → X p <= Z.of_nat k' <= t_width t →
     Iter_valid it' = false ∨ Z.of_nat k' = t_width t → Q it' t') →
  wpx narrowing (WriteLine d it p wrap None) Q (rows_only t) t.
Proof.
  intros HG Hok Hp Hit HQ. unfold WriteLine. repeat wpx_step.
  rewrite (IsInBounds_ok _ (size_ok t Hok)), bool_decide_true by done. cbn [negb].
  apply (inside_size t Hok) in Hp as [HX HY]. pose proof (b_width t Hok).
  destruct (row_at t Hok (Y p) HY) as (r & _ & Hr & Hs & Hid & Hw & Hrow). wpx_step. apply wpx_wp.
  eapply on_row_ok; [done|done|done|].
  replace (X p) with (Z.of_nat (Z.to_nat (X p))) at 1 by lia.
  eapply (WriteCells_same r (_unicodeStorage t) Hrow G); rewrite ?Hw; [done|lia|done|].
  intros it' k' w' Hw' HG' Hge Hle Hstop. destruct (same_row_width _ _ _ Hw') as [Ew Ei].
  destruct Hw' as (Hok' & Hfix & Hel). do 2 (split; [done|]). split; [congruence|]. split; [done|]. intros t' Hbt' _ Hrest.
  case_match; [|by apply wpx_throw]. wpx_step. apply (HQ it' k'); [done|done|lia|]. destruct Hstop; [by left|right; lia].
Qed.

(** The loop over the lines. *)
Lemma write_lines_keeps (G : OutputCellIterator → Prop) wrap fuel : ∀ t it p (Q : OutputCellIterator → TextBuffer → Prop),
  buffer_ok t → writes (t_width t - 1) (λ _, G) → G it →
  0 <= Y p <= TotalRowCount t → TotalRowCount t - Y p <= Z.of_nat fuel →
  (∀ it' t', rows_only t t' → G it' → Q it' t') →
  wpx narrowing (write_lines d fuel (_size t) wrap it p) Q (rows_only t) t.
Proof.
  induction fuel as [|fuel IH]; intros t it p Q Hok HG Hit Hy Hfuel HQ; cbn [write_lines];
    rewrite (IsInBounds_ok _ (size_ok t Hok)); pose proof (b_height t Hok);
    (destruct (Iter_valid it && _) eqn:E; [|wpx_step; by apply HQ]);
    apply andb_true_iff in E as [_ Hp]; apply bool_decide_eq_true in Hp; pose proof (proj1 (inside_size t Hok p) Hp); [lia|].
  wpx_step. eapply (WriteLine_keeps (λ _, G)); [done|done|done|done|].
  intros it' _ t' Ht' HG' _ _. destruct (rows_only_rows t t' Hok Ht') as [Er Ew].
  assert (_size t' = _size t) as Es by (destruct Ht' as [_ E]; by injection E). rewrite <-Es, i16_small by lia.
  eapply wpx_mono; [apply (IH t' it' _ Q)| |].
  - apply Ht'.
  - by rewrite Ew.
  - done.
  - cbn. lia.
  - cbn. lia.
  - intros it2 t2 Ht2 HG2. apply HQ; [|done]. by eapply rows_only_trans.
  - done.
  - intros t2 Ht2. by eapply rows_only_trans.
Qed.

Lemma Write_keeps (G : OutputCellIterator → Prop) t it p wrap (Q : OutputCellIterator → TextBuffer → Prop) :
  buffer_ok t → writes (t_width t - 1) (λ _, G) → G it → 0 <= Y p < TotalRowCount t →
  (∀ it' t', rows_only t t' → G it' → Q it' t') →
  wpx narrowing (Write d it p wrap) Q (rows_only t) t.
Proof.
  intros Hok HG Hit Hy HQ. unfold Write. repeat wpx_step. rewrite (Height_size t Hok).
  eapply write_lines_keeps; [done|done|done|lia|lia|done].
Qed.

(** *** Fills and single cells *)

Definition filling (it : OutputCellIterator) : Prop :=
  _mode it = Fill ∧ Chars (_currentView it) ≠ [] ∧ TextAttrBehavior (_currentView it) = Stored.

Lemma fill_writes final : writes final (λ _, filling).
Proof.
  intros k it (Hm & Hc & Hb) _. do 2 (split; [done|]). split; [done|]. intros _. unfold Iter_next. cbn [set_distance _mode].
  rewrite Hm. eexists. split; [done|]. unfold filling, fill_step, _TryMoveTrailing.
  repeat case_match; simplify_eq; cbn; done.
Qed.

Lemma filling_fill wch attr limit : filling (Iter_fill wch attr limit).
Proof. done. Qed.

(** The iterator over one cell. *)
Definition one_cell (c : OutputCell) (it : OutputCellIterator) : Prop :=
  _mode it = Cell [c] ∧ 0 <= _ipos it <= 1 ∧ Chars (_currentView it) ≠ [] ∧ TextAttrBehavior (_currentView it) = Stored.

Lemma one_cell_writes final c : writes final (λ _, one_cell c).
Proof.
  intros k it (Hm & Hp & Hc & Hb) Hv. do 2 (split; [done|]). split; [done|]. intros _.
  unfold Iter_valid in Hv. rewrite Hm in Hv. apply Z.ltb_lt in Hv. change (Z.of_nat (length [c])) with 1 in Hv. assert (_ipos it = 0) as E0 by lia.
  unfold Iter_next. cbn [set_distance _mode]. rewrite Hm. unfold span_step. cbn [set_distance set_ipos _ipos]. rewrite E0.
  unfold Iter_valid. cbn [set_ipos set_distance _mode _ipos]. rewrite Hm. cbn. eexists. split; [done|].
  split; [done|]. split; [done|]. done.
Qed.

Lemma Iter_cells_one v :
  Chars v ≠ [] → TextAttrBehavior v = Stored →
  ∃ it, Iter_cells [OutputCell_of_view v] = inr it ∧ one_cell (OutputCell_of_view v) it.
Proof.
  intros Hc Hb. unfold Iter_cells, s_GenerateView_cell, OutputCell_TextAttr. cbn. rewrite Hb. eexists. split; [done|].
  by rewrite <-?Hb.
Qed.

(** *** Short text *)

(** The iterator over at most two code units. *)
Definition short_text (run : wstring) (it : OutputCellIterator) : Prop :=
  _mode it = Loose run ∧ (1 <= length run <= 2)%nat
  ∧ 0 <= _ipos it <= 3 ∧ 0 <= _distance it <= 2 * _ipos it + (if IsTrailing (DbcsAttr (_currentView it)) then 1 else 0)
  ∧ (1 <= length (Chars (_currentView it)) <= 2)%nat ∧ TextAttrBehavior (_currentView it) = Stored.

Lemma length_ParseNext l : (1 <= length (ParseNext l) <= 2)%nat.
Proof.
  induction l as [|c l IH]; cbn [ParseNext]; [cbn; lia|]. repeat case_match; simplify_eq; cbn [length] in *; try lia.
Qed.

Lemma short_text_start run attr : (1 <= length run <= 2)%nat → short_text run (Iter_text_attr run attr).
Proof.
  intros Hl. unfold short_text, Iter_text_attr, s_GenerateView_text. cbn.
  pose proof (length_ParseNext run). repeat split; try lia. case_match; lia.
Qed.

(** One step: the other half of a wide glyph, or on to the next glyph. *)
Lemma short_text_next run it :
  short_text run it → Iter_valid it = true →
  ∃ it1, Iter_next d it = inr it1 ∧ short_text run it1 ∧ _ipos it <= _ipos it1
    ∧ (if IsLeading (DbcsAttr (_currentView it)) then IsTrailing (DbcsAttr (_currentView it1)) = true else 0 < _ipos it1).
Proof.
  intros (Hm & Hl & Hp & Hd & Hc & Hb) Hv. unfold Iter_next. cbn [set_distance _mode]. rewrite Hm.
  unfold Iter_valid in Hv. rewrite Hm in Hv. assert (_ipos it < Z.of_nat (length run)) as Hlt by lia.
  assert (_distance it <= 7) as Hd7 by (case_match; lia). rewrite wrapu_small by lia.
  eexists. split; [done|]. unfold loose_step, _TryMoveTrailing. cbn [set_distance _currentView _ipos _attr].
  destruct (IsLeading (DbcsAttr (_currentView it))) eqn:El.
  - assert (IsTrailing (DbcsAttr (_currentView it)) = false) as Et.
    { unfold IsLeading, IsTrailing in *. destruct (_attribute (DbcsAttr (_currentView it))); done. }
    rewrite Et in Hd. unfold short_text. cbn [set_view set_distance _mode _ipos _distance _currentView with_dbcs DbcsAttr Chars TextAttrBehavior].
    split; [|split; [lia|done]]. split_and!; try done; try lia. change (IsTrailing (SetTrailing _)) with true. cbn match. lia.
  - assert (u64 (_ipos it + Z.of_nat (length (Chars (_currentView it)))) = _ipos it + Z.of_nat (length (Chars (_currentView it)))) as Eu
      by (apply wrapu_small; lia).
    assert (0 <= _distance it <= 2 * _ipos it + 1) as Hd1 by (destruct (IsTrailing _); lia).
    rewrite Eu. unfold short_text. match goal with |- context [Iter_valid ?x] => destruct (Iter_valid x) end;
      cbn [set_view set_ipos set_distance _mode _ipos _distance _currentView s_GenerateView_text DbcsAttr Chars TextAttrBehavior].
    + pose proof (length_ParseNext (drop (Z.to_nat (_ipos it + Z.of_nat (length (Chars (_currentView it))))) run)).
      split_and!; try done; try lia. clear Hd. case_match; lia.
    + split_and!; try done; try lia.
Qed.

Lemma short_text_writes final run : writes final (λ _, short_text run).
Proof.
  intros k it Hs Hv. pose proof Hs as (_ & _ & _ & _ & Hc & Hb). split; [by intros E; rewrite E in Hc; cbn in Hc; lia|].
  split; [done|]. split; [done|]. intros _. destruct (short_text_next run it Hs Hv) as (it1 & E & Hs1 & _). eauto.
Qed.

(** Text that is written from the first column on gets further, if there are two
    columns. *)
Definition moving (run : wstring) (k : nat) (it : OutputCellIterator) : Prop :=
  short_text run it
  ∧ match k with
    | O => IsTrailing (DbcsAttr (_currentView it)) = false
    | S O => 0 < _ipos it ∨ IsTrailing (DbcsAttr (_currentView it)) = true
    | _ => 0 < _ipos it
    end.

Lemma moving_writes final run : 1 <= final → writes final (moving run).
Proof.
  intros Hf k it [Hs Hk] Hv. destruct (short_text_writes final run k it Hs Hv) as (H1 & H2 & _ & _).
  do 2 (split; [done|]). destruct (short_text_next run it Hs Hv) as (it1 & E & Hs1 & Hle & Hstep). split.
  - intros [[-> Ht]|[Ek Hl]]; [congruence|]. split; [done|].
    assert (IsTrailing (DbcsAttr (_currentView it)) = false) as Et.
    { unfold IsLeading, IsTrailing in *. destruct (_attribute (DbcsAttr (_currentView it))); done. }
    destruct k as [|[|k]]; [lia| |lia]. destruct Hk; [lia|congruence].
  - intros _. exists it1. split; [done|]. split; [done|].
    destruct (IsLeading (DbcsAttr (_currentView it))) eqn:El, k as [|[|k]]; auto; try lia.
    destruct Hk as [?|Ht]; [lia|]. unfold IsLeading, IsTrailing in *. by destruct (_attribute (DbcsAttr (_currentView it))).
Qed.
End rows.
