(* ===== verification/TerminalCore.v ===== *)
(** The terminal of the Windows Terminal: the class [Terminal] of
    [src/src/cascadia/TerminalCore] ([Terminal.cpp], [TerminalApi.cpp],
    [TerminalSelection.cpp] and the state of [terminalrenderdata.cpp]).

    It keeps a text buffer with scrollback, the part of it that applications write
    to (the mutable viewport), what the user has scrolled to, the selection and the
    modes of the keyboard.  The callbacks into the control are recorded in the order
    in which they are made.  The calls of the render target, which only ask for a
    repaint, and the tree of the patterns that are underlined are left out. *)

From stdpp Require Import strings.
From S2P Require Import Prelude DispatchTypes Utils ColorTable OutputEngine TextColor TextAttribute SgrStack Viewport OutputCell CharRow Row Cursor TextBuffer TextNav InputEvent TerminalInput AdaptDispatch.

#[local] Open Scope Z_scope.

(** ** State *)

Inductive SelectionExpansionMode := ExpandCell | ExpandWord | ExpandLine.

Record SelectionAnchors := mkAnchors { sel_start : COORD; sel_end : COORD; sel_pivot : COORD }.

Record KeyEventCodes := mkCodes { VirtualKey : Z; ScanCode : Z }.

(** The settings that the operations read. *)
Record CoreSettings := mkSettings {
  _snapOnInput : bool;
  _altGrAliasing : bool;
  _suppressApplicationTitle : bool;
  _trimBlockSelection : bool;
  _startingTitle : wstring;
  _wordDelimiters : wstring;
  _defaultCursorShape : CursorType
}.

(** The [std::function] members; one that is not set throws when it is called. *)
Inductive Callback :=
  | pfnWriteInput | pfnWarningBell | pfnTitleChanged | pfnCopyToClipboard | pfnScrollPositionChanged
  | pfnBackgroundColorChanged | pfnCursorPositionChanged | pfnTaskbarProgressChanged.

Inductive Notification :=
  | WriteInput (text : wstring)
  | BellRang
  | TitleChanged (title : wstring)
  | CopiedToClipboard (content : wstring)
  | ScrollPositionChanged (top height bottom : Z)
  | BackgroundColorChanged (color : Z)
  | CursorPositionChanged
  | TaskbarProgressChanged.

Record TerminalCore := mkCore {
  _buffer : TextBuffer;
  _mutableViewport : Viewport;
  _scrollOffset : Z;
  _selection : option SelectionAnchors;
  _blockSelection : bool;
  _multiClickSelectionMode : SelectionExpansionMode;
  _terminalInput : TerminalInput;
  _sgrStack : SgrStack;
  _colorTable : list Z;
  _defaultFg : Z;
  _defaultBg : Z;
  _screenReversed : bool;
  _title : option wstring;
  _bracketedPasteMode : bool;
  _taskbarState : Z;
  _taskbarProgress : Z;
  _workingDirectory : wstring;
  _lastKeyEventCodes : option KeyEventCodes;
  _settings : CoreSettings;
  _callbacks : Callback → bool;
  notified : list Notification
}.

Definition with_buffer (v : TextBuffer) (c : TerminalCore) : TerminalCore :=
  mkCore v (_mutableViewport c) (_scrollOffset c) (_selection c) (_blockSelection c) (_multiClickSelectionMode c)
    (_terminalInput c) (_sgrStack c) (_colorTable c) (_defaultFg c) (_defaultBg c) (_screenReversed c) (_title c)
    (_bracketedPasteMode c) (_taskbarState c) (_taskbarProgress c) (_workingDirectory c) (_lastKeyEventCodes c)
    (_settings c) (_callbacks c) (notified c).
Definition with_viewport (v : Viewport) (c : TerminalCore) : TerminalCore :=
  mkCore (_buffer c) v (_scrollOffset c) (_selection c) (_blockSelection c) (_multiClickSelectionMode c)
    (_terminalInput c) (_sgrStack c) (_colorTable c) (_defaultFg c) (_defaultBg c) (_screenReversed c) (_title c)
    (_bracketedPasteMode c) (_taskbarState c) (_taskbarProgress c) (_workingDirectory c) (_lastKeyEventCodes c)
    (_settings c) (_callbacks c) (notified c).
Definition with_scrollOffset (v : Z) (c : TerminalCore) : TerminalCore :=
  mkCore (_buffer c) (_mutableViewport c) v (_selection c) (_blockSelection c) (_multiClickSelectionMode c)
    (_terminalInput c) (_sgrStack c) (_colorTable c) (_defaultFg c) (_defaultBg c) (_screenReversed c) (_title c)
    (_bracketedPasteMode c) (_taskbarState c) (_taskbarProgress c) (_workingDirectory c) (_lastKeyEventCodes c)
    (_settings c) (_callbacks c) (notified c).
Definition with_selection (v : option SelectionAnchors) (c : TerminalCore) : TerminalCore :=
  mkCore (_buffer c) (_mutableViewport c) (_scrollOffset c) v (_blockSelection c) (_multiClickSelectionMode c)
    (_terminalInput c) (_sgrStack c) (_colorTable c) (_defaultFg c) (_defaultBg c) (_screenReversed c) (_title c)
    (_bracketedPasteMode c) (_taskbarState c) (_taskbarProgress c) (_workingDirectory c) (_lastKeyEventCodes c)
    (_settings c) (_callbacks c) (notified c).
Definition with_blockSelection (v : bool) (c : TerminalCore) : TerminalCore :=
  mkCore (_buffer c) (_mutableViewport c) (_scrollOffset c) (_selection c) v (_multiClickSelectionMode c)
    (_terminalInput c) (_sgrStack c) (_colorTable c) (_defaultFg c) (_defaultBg c) (_screenReversed c) (_title c)
    (_bracketedPasteMode c) (_taskbarState c) (_taskbarProgress c) (_workingDirectory c) (_lastKeyEventCodes c)
    (_settings c) (_callbacks c) (notified c).
Definition with_mode (v : SelectionExpansionMode) (c : TerminalCore) : TerminalCore :=
  mkCore (_buffer c) (_mutableViewport c) (_scrollOffset c) (_selection c) (_blockSelection c) v (_terminalInput c)
    (_sgrStack c) (_colorTable c) (_defaultFg c) (_defaultBg c) (_screenReversed c) (_title c) (_bracketedPasteMode
    c) (_taskbarState c) (_taskbarProgress c) (_workingDirectory c) (_lastKeyEventCodes c) (_settings c) (_callbacks
    c) (notified c).
Definition with_input (v : TerminalInput) (c : TerminalCore) : TerminalCore :=
  mkCore (_buffer c) (_mutableViewport c) (_scrollOffset c) (_selection c) (_blockSelection c)
    (_multiClickSelectionMode c) v (_sgrStack c) (_colorTable c) (_defaultFg c) (_defaultBg c) (_screenReversed c)
    (_title c) (_bracketedPasteMode c) (_taskbarState c) (_taskbarProgress c) (_workingDirectory c)
    (_lastKeyEventCodes c) (_settings c) (_callbacks c) (notified c).
Definition with_sgrStack (v : SgrStack) (c : TerminalCore) : TerminalCore :=
  mkCore (_buffer c) (_mutableViewport c) (_scrollOffset c) (_selection c) (_blockSelection c)
    (_multiClickSelectionMode c) (_terminalInput c) v (_colorTable c) (_defaultFg c) (_defaultBg c) (_screenReversed
    c) (_title c) (_bracketedPasteMode c) (_taskbarState c) (_taskbarProgress c) (_workingDirectory c)
    (_lastKeyEventCodes c) (_settings c) (_callbacks c) (notified c).
Definition with_colorTable (v : list Z) (c : TerminalCore) : TerminalCore :=
  mkCore (_buffer c) (_mutableViewport c) (_scrollOffset c) (_selection c) (_blockSelection c)
    (_multiClickSelectionMode c) (_terminalInput c) (_sgrStack c) v (_defaultFg c) (_defaultBg c) (_screenReversed
    c) (_title c) (_bracketedPasteMode c) (_taskbarState c) (_taskbarProgress c) (_workingDirectory c)
    (_lastKeyEventCodes c) (_settings c) (_callbacks c) (notified c).
Definition with_defaultFg (v : Z) (c : TerminalCore) : TerminalCore :=
  mkCore (_buffer c) (_mutableViewport c) (_scrollOffset c) (_selection c) (_blockSelection c)
    (_multiClickSelectionMode c) (_terminalInput c) (_sgrStack c) (_colorTable c) v (_defaultBg c) (_screenReversed
    c) (_title c) (_bracketedPasteMode c) (_taskbarState c) (_taskbarProgress c) (_workingDirectory c)
    (_lastKeyEventCodes c) (_settings c) (_callbacks c) (notified c).
Definition with_defaultBg (v : Z) (c : TerminalCore) : TerminalCore :=
  mkCore (_buffer c) (_mutableViewport c) (_scrollOffset c) (_selection c) (_blockSelection c)
    (_multiClickSelectionMode c) (_terminalInput c) (_sgrStack c) (_colorTable c) (_defaultFg c) v (_screenReversed
    c) (_title c) (_bracketedPasteMode c) (_taskbarState c) (_taskbarProgress c) (_workingDirectory c)
    (_lastKeyEventCodes c) (_settings c) (_callbacks c) (notified c).
Definition with_reversed (v : bool) (c : TerminalCore) : TerminalCore :=
  mkCore (_buffer c) (_mutableViewport c) (_scrollOffset c) (_selection c) (_blockSelection c)
    (_multiClickSelectionMode c) (_terminalInput c) (_sgrStack c) (_colorTable c) (_defaultFg c) (_defaultBg c) v
    (_title c) (_bracketedPasteMode c) (_taskbarState c) (_taskbarProgress c) (_workingDirectory c)
    (_lastKeyEventCodes c) (_settings c) (_callbacks c) (notified c).
Definition with_title (v : option wstring) (c : TerminalCore) : TerminalCore :=
  mkCore (_buffer c) (_mutableViewport c) (_scrollOffset c) (_selection c) (_blockSelection c)
    (_multiClickSelectionMode c) (_terminalInput c) (_sgrStack c) (_colorTable c) (_defaultFg c) (_defaultBg c)
    (_screenReversed c) v (_bracketedPasteMode c) (_taskbarState c) (_taskbarProgress c) (_workingDirectory c)
    (_lastKeyEventCodes c) (_settings c) (_callbacks c) (notified c).
Definition with_paste (v : bool) (c : TerminalCore) : TerminalCore :=
  mkCore (_buffer c) (_mutableViewport c) (_scrollOffset c) (_selection c) (_blockSelection c)
    (_multiClickSelectionMode c) (_terminalInput c) (_sgrStack c) (_colorTable c) (_defaultFg c) (_defaultBg c)
    (_screenReversed c) (_title c) v (_taskbarState c) (_taskbarProgress c) (_workingDirectory c)
    (_lastKeyEventCodes c) (_settings c) (_callbacks c) (notified c).
Definition with_directory (v : wstring) (c : TerminalCore) : TerminalCore :=
  mkCore (_buffer c) (_mutableViewport c) (_scrollOffset c) (_selection c) (_blockSelection c)
    (_multiClickSelectionMode c) (_terminalInput c) (_sgrStack c) (_colorTable c) (_defaultFg c) (_defaultBg c)
    (_screenReversed c) (_title c) (_bracketedPasteMode c) (_taskbarState c) (_taskbarProgress c) v
    (_lastKeyEventCodes c) (_settings c) (_callbacks c) (notified c).
Definition with_lastKey (v : option KeyEventCodes) (c : TerminalCore) : TerminalCore :=
  mkCore (_buffer c) (_mutableViewport c) (_scrollOffset c) (_selection c) (_blockSelection c)
    (_multiClickSelectionMode c) (_terminalInput c) (_sgrStack c) (_colorTable c) (_defaultFg c) (_defaultBg c)
    (_screenReversed c) (_title c) (_bracketedPasteMode c) (_taskbarState c) (_taskbarProgress c) (_workingDirectory
    c) v (_settings c) (_callbacks c) (notified c).
Definition with_notified (v : list Notification) (c : TerminalCore) : TerminalCore :=
  mkCore (_buffer c) (_mutableViewport c) (_scrollOffset c) (_selection c) (_blockSelection c)
    (_multiClickSelectionMode c) (_terminalInput c) (_sgrStack c) (_colorTable c) (_defaultFg c) (_defaultBg c)
    (_screenReversed c) (_title c) (_bracketedPasteMode c) (_taskbarState c) (_taskbarProgress c) (_workingDirectory
    c) (_lastKeyEventCodes c) (_settings c) (_callbacks c) v.
Definition with_taskbar (s : Z) (p : Z) (c : TerminalCore) : TerminalCore :=
  mkCore (_buffer c) (_mutableViewport c) (_scrollOffset c) (_selection c) (_blockSelection c)
    (_multiClickSelectionMode c) (_terminalInput c) (_sgrStack c) (_colorTable c) (_defaultFg c) (_defaultBg c)
    (_screenReversed c) (_title c) (_bracketedPasteMode c) s p (_workingDirectory c) (_lastKeyEventCodes c)
    (_settings c) (_callbacks c) (notified c).

#[local] Abbreviation M := (prog TerminalCore).

(** ** Checks *)

(** [gsl::narrow<short>] *)
Definition gsl_narrow (n : Z) : exn + Z := if (-32768 <=? n) && (n <=? 32767) then inr n else inl NarrowingError.

(** [Viewport::Clamp], which throws for a viewport without cells. *)
Definition clamped (v : Viewport) (pos : COORD) : exn + COORD :=
  match Clamp v pos with Some p => inr p | None => inl InvalidArg end.

(** ** Parts of the state *)

Definition on_buffer {A} (m : prog TextBuffer A) : M A := on_part _buffer with_buffer m.
Definition on_buffer_cursor (f : Cursor → Cursor) : M unit := on_buffer (on_cursor (λ c, inr (f c))).
Definition cursor_position (c : TerminalCore) : COORD := _cPosition (_cursor (_buffer c)).

(** A callback that is made in any case, and one that is made if it is set. *)
Definition call_back (k : Callback) (n : Notification) : M unit :=
  cb ← gets _callbacks;
  if (cb k : bool) then modify (λ c, with_notified (notified c ++ [n]) c) else throw BadFunctionCall.
Definition call_back_if_set (k : Callback) (n : Notification) : M unit :=
  cb ← gets _callbacks;
  if (cb k : bool) then modify (λ c, with_notified (notified c ++ [n]) c) else mret tt.

(** ** Construction *)

Definition SetColorTableAlpha (table : list Z) (newAlpha : Z) : list Z :=
  (λ color, Z.lor (Z.land color 0x00ffffff) (Z.shiftl newAlpha 24)) <$> table.

Definition XTERM_COLOR_TABLE_SIZE : Z := 256.

(** The exceptions of the table functions are logged: the table stays as it is. *)
Definition _InitializeColorTable : list Z :=
  let table := replicate (Z.to_nat XTERM_COLOR_TABLE_SIZE) 0 in
  match Initialize256ColorTable table with
  | None => table
  | Some table =>
      match InitializeCampbellColorTable table with
      | None => table
      | Some table => SetColorTableAlpha table 0xff
      end
  end.

Definition ClampToShortMax (value min : Z) : Z := i16 (std_clamp value min 32767).

(** A [til::color] made of a [COLORREF], as the word of its four bytes, and back. *)
Definition til_color (c : Z) : Z := Z.lor c 0xff000000.
Definition til_COLORREF (abgr : Z) : Z := Z.land abgr 0x00ffffff.

(** The constructor and [Create].  The constructor does not initialise
    [_bracketedPasteMode]; the callbacks are set afterwards. *)
Definition Terminal_Create (viewportSize : COORD) (scrollbackLines : Z) (settings : CoreSettings)
    (callbacks : Callback → bool) (bracketedPasteMode : bool) : exn + TerminalCore :=
  let bufferSize := mkCOORD (X viewportSize) (ClampToShortMax (Y viewportSize + scrollbackLines) 1) in
  buffer ← TextBuffer_init bufferSize TextAttribute_default 12;
  inr (mkCore buffer (FromDimensions (mkCOORD 0 0) viewportSize) 0 None false ExpandCell TerminalInput_init SgrStack_init
         _InitializeColorTable (til_color (RGB 255 255 255)) (til_color 0) false None bracketedPasteMode 0 0 [] None settings callbacks []).

(** ** The view *)

Definition GetBufferHeight (c : TerminalCore) : Z := BottomExclusive (_mutableViewport c).
Definition ViewStartIndex (c : TerminalCore) : Z := Top (_mutableViewport c).
Definition ViewEndIndex (c : TerminalCore) : Z := BottomInclusive (_mutableViewport c).
Definition _VisibleStartIndex (c : TerminalCore) : Z := Z.max 0 (ViewStartIndex c - _scrollOffset c).
Definition _VisibleEndIndex (c : TerminalCore) : Z := Z.max 0 (ViewEndIndex c - _scrollOffset c).

(** [gsl::narrow] in a [noexcept] function. *)
Definition _GetVisibleViewport (c : TerminalCore) : exn + Viewport :=
  y ← narrow_short (_VisibleStartIndex c);
  inr (FromDimensions (mkCOORD 0 y) (Dimensions (_mutableViewport c))).

Definition GetTextBufferEndPosition (c : TerminalCore) : exn + COORD :=
  y ← narrow_short (ViewEndIndex c);
  inr (mkCOORD (i16 (Width (_mutableViewport c) - 1)) y).

Definition _NotifyScrollEvent : M unit :=
  cb ← gets _callbacks;
  if (cb pfnScrollPositionChanged : bool) then
    c ← gets id;
    visible ← lift (_GetVisibleViewport c);
    call_back pfnScrollPositionChanged (ScrollPositionChanged (Top visible) (Height visible) (GetBufferHeight c))
  else mret tt.

Definition _NotifyTerminalCursorPositionChanged : M unit :=
  call_back_if_set pfnCursorPositionChanged CursorPositionChanged.

Definition IsSelectionActive (c : TerminalCore) : bool := bool_decide (is_Some (_selection c)).

Definition UserScrollViewport (viewTop : Z) : M unit :=
  c ← gets id;
  newDelta ← int_of (ViewStartIndex c - Z.max 0 viewTop);
  modify (with_scrollOffset (Z.max 0 newDelta)).

Definition TrySnapOnInput : M unit :=
  c ← gets id;
  if _snapOnInput (_settings c) && negb (_scrollOffset c =? 0) then
    modify (with_scrollOffset 0);; _NotifyScrollEvent
  else mret tt.

(** ** Writing *)

(** The loop that makes room at the bottom of the buffer. *)
Fixpoint cycle_buffer (newRows : nat) : M unit :=
  match newRows with
  | O => mret tt
  | S n => _ ← on_buffer (IncrementCircularBuffer false); cycle_buffer n
  end.

Definition _AdjustCursorPosition (proposedPosition : COORD) : M unit :=
  bufferSize ← gets (λ c, _size (_buffer c));
  let newRows := Z.max 0 (Y proposedPosition - Height bufferSize + 1) in
  cycle_buffer (Z.to_nat newRows);;
  let p := mkCOORD (X proposedPosition) (i16 (Y proposedPosition - newRows)) in
  on_buffer_cursor (SetPosition p);;
  c ← gets id;
  let v := _mutableViewport c in
  let scrollAmount := Z.max 0 (Y p - BottomInclusive v) in
  let newViewTop := Z.max 0 (Y p - (Height v - 1)) in
  let updatedViewport := (scrollAmount >? 0) && negb (newViewTop =? Top v) in
  (if updatedViewport then
     top ← lift (gsl_narrow newViewTop);
     modify (with_viewport (FromDimensions (mkCOORD 0 top) (Dimensions v)))
   else mret tt);;
  updatedViewport ←
    (if updatedViewport || negb (newRows =? 0) then
       c ← gets id;
       let scrollToOutput := negb (IsSelectionActive c) && (_scrollOffset c =? 0) in
       offset ← (if scrollToOutput then mret 0 else int_of (_scrollOffset c + scrollAmount + newRows));
       offset ← checked_clamp offset 0 (Height (_size (_buffer c)) - Height (_mutableViewport c));
       modify (with_scrollOffset offset);;
       mret (updatedViewport || negb (_scrollOffset c =? offset))
     else mret updatedViewport);
  (if (updatedViewport : bool) then _NotifyScrollEvent else mret tt);;
  _NotifyTerminalCursorPositionChanged.

Section write.
Context `{GlyphWidth} (d : LegacyDefaults).

(** The code units that are written at once: two after a surrogate. *)
Definition next_view (rest : wstring) : wstring :=
  match rest with
  | wch :: _ => take (if (0xD800 <=? wch) && (wch <=? 0xDFFF) then 2 else 1) rest
  | [] => []
  end.

(** The loop; [rest] is the text from index [i] on.  Every round either writes or
    starts a new line, and after a new line it writes unless the buffer has only one
    column. *)
Fixpoint write_chars (fuel : nat) (rest : wstring) : M unit :=
  match rest with
  | [] => mret tt
  | _ =>
      match fuel with
      | O => throw OutOfFuel
      | S fuel =>
          p ← gets cursor_position;
          attr ← gets (λ c, _currentAttributes (_buffer c));
          let it := Iter_text_attr (next_view rest) attr in
          end_ ← on_buffer (Write_at_cursor d it);
          let cellDistance := GetCellDistance end_ it in
          let inputDistance := GetInputDistance end_ it in
          if inputDistance >? 0 then
            n ← lift (gsl_narrow cellDistance);
            _AdjustCursorPosition (mkCOORD (i16 (X p + n)) (Y p));;
            write_chars fuel (drop (Z.to_nat inputDistance) rest)
          else
            _AdjustCursorPosition (mkCOORD 0 (i16 (Y p + 1)));;
            write_chars fuel rest
      end
  end.

Definition _WriteBuffer (stringView : wstring) : M unit :=
  on_buffer_cursor StartDeferDrawing;;
  write_chars (2 * length stringView) stringView;;
  on_buffer_cursor EndDeferDrawing.

(** ** The interface of the dispatch *)

Definition Terminal_PrintString (stringView : wstring) : M bool := try_log (_WriteBuffer stringView;; mret true).
Definition Terminal_ExecuteChar (wch : wchar) : M bool := try_log (_WriteBuffer [wch];; mret true).

Definition Terminal_SetCursorPosition (x y : Z) : M bool := try_log (
  viewport ← gets _mutableViewport;
  newPos ← lift (clamped viewport (mkCOORD (i16 (Left viewport + x)) (i16 (Top viewport + y))));
  on_buffer_cursor (SetPosition newPos);;
  mret true).

Definition Terminal_GetCursorPosition (c : TerminalCore) : COORD :=
  let p := cursor_position c in
  mkCOORD (i16 (X p - Left (_mutableViewport c))) (i16 (Y p - Top (_mutableViewport c))).

Definition Terminal_SetCursorColor (color : Z) : M bool :=
  on_buffer_cursor (Cursor_SetColor color);; mret true.

Definition Terminal_CursorLineFeed (withReturn : bool) : M bool := try_log (
  p ← gets cursor_position;
  on_buffer (on_row (Y p) (on_flags (SetWrapForced false)));;
  _AdjustCursorPosition (mkCOORD (if withReturn then 0 else X p) (i16 (Y p + 1)));;
  mret true).

(** [UIntToShort] of an [int]. *)
Definition UIntToShort (n : Z) : option Z := if u32 n <=? 32767 then Some (u32 n) else None.

(** The [do] loop that copies a line of cells. *)
Fixpoint copy_cells (fuel : nat) (source target : Viewport) (walkDirection : WalkDir) (sourcePos targetPos : COORD)
    : M unit :=
  match fuel with
  | O => throw OutOfFuel
  | S fuel =>
      t ← gets _buffer;
      view ← lift (GetCellDataAt sourcePos t);
      it ← lift (Iter_cells [OutputCell_of_view view]);
      _ ← on_buffer (Write d it targetPos (Some true));
      '(more, sourcePos) ← lift (WalkInBounds source sourcePos walkDirection false);
      if (more : bool) then
        '(more, targetPos) ← lift (WalkInBounds target targetPos walkDirection false);
        if (more : bool) then copy_cells fuel source target walkDirection sourcePos targetPos else mret tt
      else mret tt
  end.

(** The source and the target of a move of the rest of a line; [None] when the
    function returns false before it. *)
Definition move_line (copyFromPos copyToPos : COORD) : M bool :=
  viewport ← gets _mutableViewport;
  match UIntToShort (RightExclusive viewport - X copyFromPos) with
  | None => mret false
  | Some width =>
      let source := FromDimensions copyFromPos (mkCOORD width 1) in
      let target := FromDimensions copyToPos (Dimensions source) in
      let walkDirection := DetermineWalkDirection source target in
      copy_cells (S (Z.to_nat width)) source target walkDirection (GetWalkOrigin source walkDirection)
        (GetWalkOrigin target walkDirection);;
      mret true
  end.

Definition Terminal_DeleteCharacter (count : Z) : M bool := try_log (
  match SizeTToShort count with
  | None => mret false
  | Some dist =>
      cursorPos ← gets cursor_position;
      move_line (mkCOORD (i16 (X cursorPos + dist)) (Y cursorPos)) cursorPos
  end).

Definition Terminal_InsertCharacter (count : Z) : M bool := try_log (
  match SizeTToShort count with
  | None => mret false
  | Some dist =>
      cursorPos ← gets cursor_position;
      moved ← move_line cursorPos (mkCOORD (i16 (X cursorPos + dist)) (Y cursorPos));
      if (moved : bool) then
        attr ← gets (λ c, _currentAttributes (_buffer c));
        _ ← on_buffer (Write d (Iter_fill UNICODE_SPACE attr (u64 dist)) cursorPos (Some true));
        mret true
      else mret false
  end).

Definition Terminal_EraseCharacters (numChars : Z) : M bool := try_log (
  cursorPos ← gets cursor_position;
  viewport ← gets _mutableViewport;
  let distanceToRight := i16 (RightExclusive viewport - X cursorPos) in
  let fillLimit := Z.min (i16 numChars) distanceToRight in
  attr ← gets (λ c, _currentAttributes (_buffer c));
  _ ← on_buffer (Write d (Iter_fill UNICODE_SPACE attr (u64 fillLimit)) cursorPos (Some true));
  mret true).

(** [EraseType] *)
Definition EraseToEnd : Z := 0.
Definition EraseFromBeginning : Z := 1.
Definition EraseAll : Z := 2.
Definition EraseScrollback : Z := 3.

Definition Terminal_EraseInLine (eraseType : Z) : M bool := try_log (
  cursorPos ← gets cursor_position;
  viewport ← gets _mutableViewport;
  match
    switch eraseType
      [(EraseFromBeginning, Some (0, u32 (X cursorPos - Left viewport + 1)));
       (EraseToEnd, Some (X cursorPos, u32 (RightExclusive viewport - X cursorPos)));
       (EraseAll, Some (Left viewport, u32 (RightExclusive viewport - Left viewport)))] None
  with
  | None => mret false
  | Some (startX, nlength) =>
      attr ← gets (λ c, _currentAttributes (_buffer c));
      _ ← on_buffer (Write d (Iter_fill UNICODE_SPACE attr nlength) (mkCOORD startX (Y cursorPos)) (Some false));
      mret true
  end).
End write.

(** The last part of [EraseInDisplay]. *)
Definition move_viewport (newTop newBottom : Z) (relativeCursor : COORD) : M bool :=
  modify (λ c, let v := _mutableViewport c in
               with_viewport (FromExclusive (mkRect (Left v) newTop (RightExclusive v) newBottom)) c);;
  _NotifyScrollEvent;;
  _ ← Terminal_SetCursorPosition (X relativeCursor) (Y relativeCursor);
  mret true.

(** The loop that resets the rows below the screen. *)
Fixpoint reset_rows (n : nat) (row : Z) : prog TextBuffer unit :=
  match n with
  | O => mret tt
  | S n =>
      attr ← gets _currentAttributes;
      on_row row (on_flags (λ r, (ROW_Reset attr r).2));;
      reset_rows n (i16 (row + 1))
  end.

Definition Terminal_EraseInDisplay (eraseType : Z) : M bool := try_log (
  c ← gets id;
  let v := _mutableViewport c in
  let relativeCursor := ConvertToOrigin_coord v (cursor_position c) in
  if eraseType =? EraseAll then
    coordLastChar ← lift (GetLastNonSpaceCharacter (Some v) (_buffer c));
    if (X coordLastChar =? 0) && (Y coordLastChar =? 0) then mret true
    else
      let sNewTop := i16 (Y coordLastChar + 1) in
      let delta := i16 (sNewTop + Height v - Height (_size (_buffer c))) in
      cycle_buffer (Z.to_nat delta);;
      let sNewTop := i16 (sNewTop - Z.max 0 delta) in
      move_viewport sNewTop (i16 (sNewTop + Height v)) relativeCursor
  else if eraseType =? EraseScrollback then
    let scrollFromPos := ConvertFromOrigin_coord v (mkCOORD 0 0) in
    on_buffer (ScrollRows (Y scrollFromPos) (Height v) (- Y scrollFromPos));;
    t ← gets _buffer;
    eraseEnd ← lift (GetLastNonSpaceCharacter (Some v) t);
    on_buffer (reset_rows (Z.to_nat (Y eraseEnd - Height v + 1)) (Height v));;
    modify (with_scrollOffset 0);;
    move_viewport 0 (Height v) relativeCursor
  else mret false).

Definition Terminal_WarningBell : M bool := try_log (call_back pfnWarningBell BellRang;; mret true).

Definition Terminal_SetWindowTitle (title : wstring) : M bool := try_log (
  s ← gets _settings;
  if _suppressApplicationTitle s then mret true
  else modify (with_title (Some title));; call_back pfnTitleChanged (TitleChanged title);; mret true).

Definition GetConsoleTitle (c : TerminalCore) : wstring := default (_startingTitle (_settings c)) (_title c).

Definition Terminal_SetColorTableEntry (tableIndex color : Z) : M bool := try_log (
  table ← gets _colorTable;
  if (0 <=? tableIndex) && (tableIndex <? Z.of_nat (length table))
  then modify (with_colorTable (<[Z.to_nat tableIndex := color]> table));; mret true
  else throw OutOfRange).

Definition Terminal_SetCursorStyle (cursorStyle : Z) : M bool :=
  s ← gets _settings;
  match
    switch cursorStyle
      [(0, Some (_defaultCursorShape s, true)); (1, Some (FullBox, true)); (2, Some (FullBox, false));
       (3, Some (Underscore, true)); (4, Some (Underscore, false)); (5, Some (VerticalBar, true));
       (6, Some (VerticalBar, false))] None
  with
  | None => mret true
  | Some (finalCursorType, shouldBlink) =>
      on_buffer_cursor (Cursor_SetType finalCursorType);;
      on_buffer_cursor (SetBlinkingAllowed shouldBlink);;
      mret true
  end.

Definition Terminal_SetDefaultForeground (color : Z) : M bool := modify (with_defaultFg (til_color color));; mret true.

Definition Terminal_SetDefaultBackground (color : Z) : M bool := try_log (
  modify (with_defaultBg (til_color color));;
  call_back pfnBackgroundColorChanged (BackgroundColorChanged (til_color color));;
  mret true).

(** The colours of a cell; [blinkingIsFaint] is the phase of the blinking.  An exception
    of the lookups ends the process. *)
Definition GetAttributeColors (blinkingIsFaint : bool) (attr : TextAttribute) (c : TerminalCore) : exn + Z * Z :=
  match CalculateRgbColors (_colorTable c) (til_COLORREF (_defaultFg c)) (til_COLORREF (_defaultBg c)) (_screenReversed c)
          blinkingIsFaint attr with
  | inl e => inl (if catchable e then FailFast else e)
  | inr (fg, bg) =>
      inr (Z.lor fg 0xff000000,
           if negb (BackgroundIsDefault attr) || xorb (IsReverseVideo attr) (_screenReversed c)
           then Z.lor bg 0xff000000 else bg)
  end.

(** *** Modes *)

Definition input_modes (f : TerminalInput → TerminalInput) : M bool :=
  modify (λ c, with_input (f (_terminalInput c)) c);; mret true.
Definition mouse_modes (f : MouseInputState → MouseInputState) : M bool :=
  input_modes (λ t, set_mouse (f (_mouseInputState t)) t).

Definition Terminal_EnableWin32InputMode (b : bool) : M bool := input_modes (ChangeWin32InputMode b).
Definition Terminal_SetCursorKeysMode (b : bool) : M bool := input_modes (ChangeCursorKeysMode b).
Definition Terminal_SetKeypadMode (b : bool) : M bool := input_modes (ChangeKeypadMode b).
Definition Terminal_SetScreenMode (b : bool) : M bool := modify (with_reversed b);; mret true.
Definition Terminal_EnableVT200MouseMode (b : bool) : M bool := mouse_modes (EnableDefaultTracking b).
Definition Terminal_EnableUTF8ExtendedMouseMode (b : bool) : M bool := mouse_modes (SetUtf8ExtendedMode b).
Definition Terminal_EnableSGRExtendedMouseMode (b : bool) : M bool := mouse_modes (SetSGRExtendedMode b).
Definition Terminal_EnableButtonEventMouseMode (b : bool) : M bool := mouse_modes (EnableButtonEventTracking b).
Definition Terminal_EnableAnyEventMouseMode (b : bool) : M bool := mouse_modes (EnableAnyEventTracking b).
Definition Terminal_EnableAlternateScrollMode (b : bool) : M bool := mouse_modes (EnableAlternateScroll b).
Definition Terminal_EnableXtermBracketedPasteMode (b : bool) : M bool := modify (with_paste b);; mret true.

Definition Terminal_SetCursorVisibility (visible : bool) : M bool := on_buffer_cursor (SetIsVisible visible);; mret true.

Definition Terminal_EnableCursorBlinking (enable : bool) : M bool :=
  on_buffer_cursor (SetBlinkingAllowed enable);;
  on_buffer_cursor (SetIsOn true);;
  mret true.

Definition Terminal_CopyToClipboard (content : wstring) : M bool := try_log (
  call_back pfnCopyToClipboard (CopiedToClipboard content);; mret true).

(** *** Links, progress and attributes *)

(** [suffix] is the hash of the address as text. *)
Definition Terminal_AddHyperlink (suffix : wstring → wstring) (uri params : wstring) : M bool :=
  attr ← gets (λ c, _currentAttributes (_buffer c));
  t ← gets _buffer;
  let '(id, t) := GetHyperlinkId_ suffix uri params t in
  let t := SetCurrentAttributes (SetHyperlinkId id attr) t in
  modify (with_buffer (AddHyperlinkToMap uri id t));;
  mret true.

Definition Terminal_EndHyperlink : M bool :=
  on_buffer (modify (λ t, SetCurrentAttributes (SetHyperlinkId 0 (_currentAttributes t)) t));; mret true.

Definition TaskbarMinProgress : Z := 10.

(** [TaskbarState]: Clear, Set, Error, Indeterminate and Paused. *)
Definition Terminal_SetTaskbarProgress (state progress : Z) : M bool :=
  old ← gets _taskbarProgress;
  let kept := if progress =? 0 then if old =? 0 then TaskbarMinProgress else old else progress in
  let progress := switch state [(0, 0); (1, progress); (3, old); (2, kept); (4, kept)] old in
  modify (with_taskbar state progress);;
  call_back_if_set pfnTaskbarProgressChanged TaskbarProgressChanged;;
  mret true.

Definition Terminal_SetWorkingDirectory (uri : wstring) : M bool := modify (with_directory uri);; mret true.

Definition Terminal_GetTextAttributes (c : TerminalCore) : TextAttribute := _currentAttributes (_buffer c).
Definition Terminal_SetTextAttributes (attrs : TextAttribute) : M unit := on_buffer (modify (SetCurrentAttributes attrs)).

Definition on_sgrStack {A} (m : prog SgrStack A) : M A := on_part _sgrStack with_sgrStack m.

Definition Terminal_PushGraphicsRendition (options : VTParameters) : M bool :=
  attr ← gets Terminal_GetTextAttributes;
  on_sgrStack (Push attr options);;
  mret true.

Definition Terminal_PopGraphicsRendition : M bool :=
  current ← gets Terminal_GetTextAttributes;
  attr ← on_sgrStack (Pop current);
  Terminal_SetTextAttributes attr;;
  mret true.
