(* ===== verification/TerminalDispatch.v ===== *)
(** The dispatch of the Windows Terminal: [src/src/cascadia/TerminalCore/TerminalDispatch.cpp],
    [TerminalDispatch.hpp] and [TerminalDispatchGraphics.cpp].

    It carries out the calls of the output engine on a [TerminalCore].  The calls that
    it does not override are those of [TermDispatch], which return false. *)

From stdpp Require Import strings.
From S2P Require Import Prelude DispatchTypes Utils OutputEngine TextColor TextAttribute SgrStack Sgr Viewport OutputCell CharRow Row Cursor TextBuffer AdaptDispatch TerminalCore.

#[local] Open Scope Z_scope.

Record TerminalDispatch := mkTD {
  _terminalApi : TerminalCore;
  td_tabStopColumns : list bool;
  td_initDefaultTabStops : bool
}.

Definition TerminalDispatch_init (terminalApi : TerminalCore) : TerminalDispatch := mkTD terminalApi [] true.

Definition set_api (c : TerminalCore) (d : TerminalDispatch) : TerminalDispatch :=
  mkTD c (td_tabStopColumns d) (td_initDefaultTabStops d).
Definition set_stops (tabs : list bool) (init : bool) (d : TerminalDispatch) : TerminalDispatch :=
  mkTD (_terminalApi d) tabs init.

(** ** Graphics *)

(** The constants of this file: red is bit 0 and blue bit 2, the reverse of the
    adapter's. *)
Module Vt.
Definition RED_ATTR : Z := 0x01.
Definition GREEN_ATTR : Z := 0x02.
Definition BLUE_ATTR : Z := 0x04.
Definition BRIGHT_ATTR : Z := 0x08.
Definition DARK_BLACK : Z := 0.
Definition DARK_RED : Z := RED_ATTR.
Definition DARK_GREEN : Z := GREEN_ATTR.
Definition DARK_YELLOW : Z := Z.lor RED_ATTR GREEN_ATTR.
Definition DARK_BLUE : Z := BLUE_ATTR.
Definition DARK_MAGENTA : Z := Z.lor RED_ATTR BLUE_ATTR.
Definition DARK_CYAN : Z := Z.lor GREEN_ATTR BLUE_ATTR.
Definition DARK_WHITE : Z := Z.lor (Z.lor RED_ATTR GREEN_ATTR) BLUE_ATTR.
Definition BRIGHT_BLACK : Z := BRIGHT_ATTR.
Definition BRIGHT_RED : Z := Z.lor BRIGHT_ATTR RED_ATTR.
Definition BRIGHT_GREEN : Z := Z.lor BRIGHT_ATTR GREEN_ATTR.
Definition BRIGHT_YELLOW : Z := Z.lor (Z.lor BRIGHT_ATTR RED_ATTR) GREEN_ATTR.
Definition BRIGHT_BLUE : Z := Z.lor BRIGHT_ATTR BLUE_ATTR.
Definition BRIGHT_MAGENTA : Z := Z.lor (Z.lor BRIGHT_ATTR RED_ATTR) BLUE_ATTR.
Definition BRIGHT_CYAN : Z := Z.lor (Z.lor BRIGHT_ATTR GREEN_ATTR) BLUE_ATTR.
Definition BRIGHT_WHITE : Z := Z.lor (Z.lor (Z.lor BRIGHT_ATTR RED_ATTR) GREEN_ATTR) BLUE_ATTR.

(** The cases of the [switch] that consume one option. *)
Definition apply_option (opt : Z) (attr : TextAttribute) : TextAttribute :=
  match opt with
  | 0 => SetDefaultMetaAttrs (SetDefaultBackground (SetDefaultForeground attr))
  | 39 => SetDefaultForeground attr
  | 49 => SetDefaultBackground attr
  | 1 => SetBold true attr
  | 2 => SetFaint true attr
  | 22 => SetFaint false (SetBold false attr)
  | 3 => SetItalic true attr
  | 23 => SetItalic false attr
  | 5 | 6 => SetBlinking true attr
  | 25 => SetBlinking false attr
  | 8 => SetInvisible true attr
  | 28 => SetInvisible false attr
  | 9 => SetCrossedOut true attr
  | 29 => SetCrossedOut false attr
  | 7 => SetReverseVideo true attr
  | 27 => SetReverseVideo false attr
  | 4 => SetUnderlined true attr
  | 21 => SetDoublyUnderlined true attr
  | 24 => SetDoublyUnderlined false (SetUnderlined false attr)
  | 53 => SetOverlined true attr
  | 55 => SetOverlined false attr
  | 30 => SetIndexedForeground DARK_BLACK attr
  | 34 => SetIndexedForeground DARK_BLUE attr
  | 32 => SetIndexedForeground DARK_GREEN attr
  | 36 => SetIndexedForeground DARK_CYAN attr
  | 31 => SetIndexedForeground DARK_RED attr
  | 35 => SetIndexedForeground DARK_MAGENTA attr
  | 33 => SetIndexedForeground DARK_YELLOW attr
  | 37 => SetIndexedForeground DARK_WHITE attr
  | 40 => SetIndexedBackground DARK_BLACK attr
  | 44 => SetIndexedBackground DARK_BLUE attr
  | 42 => SetIndexedBackground DARK_GREEN attr
  | 46 => SetIndexedBackground DARK_CYAN attr
  | 41 => SetIndexedBackground DARK_RED attr
  | 45 => SetIndexedBackground DARK_MAGENTA attr
  | 43 => SetIndexedBackground DARK_YELLOW attr
  | 47 => SetIndexedBackground DARK_WHITE attr
  | 90 => SetIndexedForeground BRIGHT_BLACK attr
  | 94 => SetIndexedForeground BRIGHT_BLUE attr
  | 92 => SetIndexedForeground BRIGHT_GREEN attr
  | 96 => SetIndexedForeground BRIGHT_CYAN attr
  | 91 => SetIndexedForeground BRIGHT_RED attr
  | 95 => SetIndexedForeground BRIGHT_MAGENTA attr
  | 93 => SetIndexedForeground BRIGHT_YELLOW attr
  | 97 => SetIndexedForeground BRIGHT_WHITE attr
  | 100 => SetIndexedBackground BRIGHT_BLACK attr
  | 104 => SetIndexedBackground BRIGHT_BLUE attr
  | 102 => SetIndexedBackground BRIGHT_GREEN attr
  | 106 => SetIndexedBackground BRIGHT_CYAN attr
  | 101 => SetIndexedBackground BRIGHT_RED attr
  | 105 => SetIndexedBackground BRIGHT_MAGENTA attr
  | 103 => SetIndexedBackground BRIGHT_YELLOW attr
  | 107 => SetIndexedBackground BRIGHT_WHITE attr
  | _ => attr
  end.

(** The indexes of the 256 colours are used as they are. *)
Definition _SetRgbColorsHelper (options : VTParameters) (attr : TextAttribute) (isForeground : bool)
    : Z * TextAttribute :=
  let typeOpt := as_selective (params_at options 0) in
  if typeOpt =? RGBColorOrFaint then
    let red := value_or (params_at options 1) 0 in
    let green := value_or (params_at options 2) 0 in
    let blue := value_or (params_at options 3) 0 in
    (4, if (red <=? 255) && (green <=? 255) && (blue <=? 255)
        then SetColor (RGB red green blue) isForeground attr else attr)
  else if typeOpt =? BlinkOrXterm256Index then
    let tableIndex := value_or (params_at options 1) 0 in
    (2, if tableIndex <=? 255 then
          let adjustedIndex := u8 tableIndex in
          if isForeground then SetIndexedForeground256 adjustedIndex attr
          else SetIndexedBackground256 adjustedIndex attr
        else attr)
  else (1, attr).

Fixpoint sgr_loop (fuel : nat) (options : VTParameters) (i : Z) (attr : TextAttribute)
    : exn + TextAttribute :=
  match fuel with
  | O => inl OutOfFuel
  | S fuel =>
      if i <? params_size options then
        let opt := as_selective (params_at options i) in
        if (opt =? ForegroundExtended) || (opt =? BackgroundExtended) then
          match params_subspan options (i + 1) with
          | None => inl FailFast
          | Some rest =>
              let '(consumed, attr) := _SetRgbColorsHelper rest attr (opt =? ForegroundExtended) in
              sgr_loop fuel options (i + consumed + 1) attr
          end
        else sgr_loop fuel options (i + 1) (apply_option opt attr)
      else inr attr
  end.
End Vt.

(** ** Operations *)

Section dispatch.
Context `{GlyphWidth} (defaults : LegacyDefaults) (suffix : wstring → wstring).

#[local] Abbreviation M := (prog TerminalDispatch).

Definition on_api {A} (m : prog TerminalCore A) : M A := on_part _terminalApi set_api m.
Definition api_cursor : M COORD := gets (λ d, Terminal_GetCursorPosition (_terminalApi d)).
Definition api_width : M Z := gets (λ d, Width (_size (_buffer (_terminalApi d)))).

Definition TD_Execute (wchControl : wchar) : M bool := on_api (Terminal_ExecuteChar defaults wchControl);; mret true.
Definition TD_Print (wchPrintable : wchar) : M bool := on_api (Terminal_PrintString defaults [wchPrintable]);; mret true.
Definition TD_PrintString (string : wstring) : M bool := on_api (Terminal_PrintString defaults string);; mret true.

(** *** The cursor *)

Definition TD_CursorPosition (line column : Z) : M bool :=
  match SizeTToShort column, SizeTToShort line with
  | Some x, Some y =>
      match ShortSub x 1, ShortSub y 1 with
      | Some x, Some y => on_api (Terminal_SetCursorPosition x y)
      | _, _ => mret false
      end
  | _, _ => mret false
  end.

Definition TD_CursorVisibility (isVisible : bool) : M bool := on_api (Terminal_SetCursorVisibility isVisible).
Definition TD_EnableCursorBlinking (enable : bool) : M bool := on_api (Terminal_EnableCursorBlinking enable).

Definition TD_CursorForward (distance : Z) : M bool := try_log (
  p ← api_cursor;
  n ← lift (gsl_narrow distance);
  on_api (Terminal_SetCursorPosition (i16 (X p + n)) (Y p))).

Definition TD_CursorBackward (distance : Z) : M bool := try_log (
  p ← api_cursor;
  n ← lift (gsl_narrow distance);
  on_api (Terminal_SetCursorPosition (i16 (X p - n)) (Y p))).

(** The distance is added. *)
Definition TD_CursorUp (distance : Z) : M bool := try_log (
  p ← api_cursor;
  n ← lift (gsl_narrow distance);
  on_api (Terminal_SetCursorPosition (X p) (i16 (Y p + n)))).

Definition TD_LineFeed (lineFeedType : LineFeedType) : M bool :=
  match lineFeedType with
  | DependsOnMode | WithoutReturn => on_api (Terminal_CursorLineFeed false)
  | WithReturn => on_api (Terminal_CursorLineFeed true)
  end.

Definition TD_CarriageReturn : M bool := p ← api_cursor; on_api (Terminal_SetCursorPosition 0 (Y p)).

(** *** Tab stops *)

Definition TD_InitTabStopsForWidth (width : Z) : M unit :=
  tabs ← gets td_tabStopColumns;
  init ← gets td_initDefaultTabStops;
  let initialWidth := Z.of_nat (length tabs) in
  if width >? initialWidth then
    if width >? 2 ^ 63 - 1 then throw LengthError
    else
      let tabs := tabs ++ replicate (Z.to_nat (width - initialWidth)) false in
      let tabs :=
        if (init : bool) then
          fold_left (λ tabs column, if column >=? initialWidth then <[Z.to_nat column := true]> tabs else tabs)
            (default_stops (Z.of_nat (length tabs))) tabs
        else tabs in
      modify (set_stops tabs init)
  else mret tt.

(** [_tabStopColumns.at(column) = b]; the column becomes a [size_t]. *)
Definition TD_set_stop (column : Z) (b : bool) : M unit :=
  tabs ← gets td_tabStopColumns;
  init ← gets td_initDefaultTabStops;
  if (0 <=? column) && (column <? Z.of_nat (length tabs))
  then modify (set_stops (<[Z.to_nat column := b]> tabs) init) else throw OutOfRange.

(** [til::at] does not check its index. *)
Definition unchecked_stop (column : Z) (tabs : list bool) : exn + bool :=
  if column <? 0 then inl UndefinedBehavior
  else match tabs !! Z.to_nat column with Some b => inr b | None => inl UndefinedBehavior end.

Definition TD_HorizontalTabSet : M bool := noexcept (
  width ← api_width;
  p ← api_cursor;
  TD_InitTabStopsForWidth (u64 width);;
  TD_set_stop (X p) true;;
  mret true).

Fixpoint forward_stops (fuel : nat) (width numTabs column tabsPerformed : Z) (tabs : list bool) : exn + Z :=
  if (column + 1 <? width) && (tabsPerformed <? numTabs) then
    match fuel with
    | O => inl OutOfFuel
    | S fuel =>
        let column := i16 (column + 1) in
        stop ← unchecked_stop column tabs;
        forward_stops fuel width numTabs column (if (stop : bool) then u32 (tabsPerformed + 1) else tabsPerformed) tabs
    end
  else inr column.

Definition TD_ForwardTab (numTabs : Z) : M bool := noexcept (
  width ← api_width;
  p ← api_cursor;
  TD_InitTabStopsForWidth (u64 width);;
  tabs ← gets td_tabStopColumns;
  column ← lift (forward_stops (Z.to_nat (width - X p)) width numTabs (X p) 0 tabs);
  on_api (Terminal_SetCursorPosition column (Y p))).

Fixpoint backward_stops (fuel : nat) (numTabs column tabsPerformed : Z) (tabs : list bool) : exn + Z :=
  if (column >? 0) && (tabsPerformed <? numTabs) then
    match fuel with
    | O => inl OutOfFuel
    | S fuel =>
        let column := i16 (column - 1) in
        stop ← unchecked_stop column tabs;
        backward_stops fuel numTabs column (if (stop : bool) then u32 (tabsPerformed + 1) else tabsPerformed) tabs
    end
  else inr column.

Definition TD_BackwardsTab (numTabs : Z) : M bool := noexcept (
  width ← api_width;
  p ← api_cursor;
  TD_InitTabStopsForWidth (u64 width);;
  tabs ← gets td_tabStopColumns;
  column ← lift (backward_stops (Z.to_nat (X p)) numTabs (X p) 0 tabs);
  on_api (Terminal_SetCursorPosition column (Y p))).

Definition TD_ClearSingleTabStop : M bool := noexcept (
  width ← api_width;
  p ← api_cursor;
  TD_InitTabStopsForWidth (u64 width);;
  TD_set_stop (X p) false;;
  mret true).

Definition TD_ClearAllTabStops : M bool := modify (set_stops [] false);; mret true.
Definition TD_ResetTabStops : M unit := modify (set_stops [] true).

Definition TD_TabClear (clearType : Z) : M bool :=
  switch clearType [(0, TD_ClearSingleTabStop); (3, TD_ClearAllTabStops)] (mret false).

(** *** Graphics *)

Definition TD_SetGraphicsRendition (options : VTParameters) : M bool :=
  attr ← gets (λ d, Terminal_GetTextAttributes (_terminalApi d));
  attr ← lift (Vt.sgr_loop (S (Z.to_nat (params_size options))) options 0 attr);
  on_api (Terminal_SetTextAttributes attr);;
  mret true.

(** *** Modes *)

Definition TD_SetKeypadMode (b : bool) : M bool := _ ← on_api (Terminal_SetKeypadMode b); mret true.
Definition TD_SetCursorKeysMode (b : bool) : M bool := _ ← on_api (Terminal_SetCursorKeysMode b); mret true.
Definition TD_SetScreenMode (b : bool) : M bool := on_api (Terminal_SetScreenMode b).
Definition TD_EnableWin32InputMode (b : bool) : M bool := _ ← on_api (Terminal_EnableWin32InputMode b); mret true.
Definition TD_EnableVT200MouseMode (b : bool) : M bool := _ ← on_api (Terminal_EnableVT200MouseMode b); mret true.
Definition TD_EnableUTF8ExtendedMouseMode (b : bool) : M bool :=
  _ ← on_api (Terminal_EnableUTF8ExtendedMouseMode b); mret true.
Definition TD_EnableSGRExtendedMouseMode (b : bool) : M bool :=
  _ ← on_api (Terminal_EnableSGRExtendedMouseMode b); mret true.
Definition TD_EnableButtonEventMouseMode (b : bool) : M bool :=
  _ ← on_api (Terminal_EnableButtonEventMouseMode b); mret true.
Definition TD_EnableAnyEventMouseMode (b : bool) : M bool := _ ← on_api (Terminal_EnableAnyEventMouseMode b); mret true.
Definition TD_EnableAlternateScroll (b : bool) : M bool := _ ← on_api (Terminal_EnableAlternateScrollMode b); mret true.
Definition TD_EnableXtermBracketedPasteMode (b : bool) : M bool :=
  _ ← on_api (Terminal_EnableXtermBracketedPasteMode b); mret true.

Definition TD_ModeParamsHelper (param : Z) (enable : bool) : M bool :=
  switch param
    [(DECPrivateMode 1, TD_SetCursorKeysMode enable);
     (DECPrivateMode 5, TD_SetScreenMode enable);
     (DECPrivateMode 1000, TD_EnableVT200MouseMode enable);
     (DECPrivateMode 1002, TD_EnableButtonEventMouseMode enable);
     (DECPrivateMode 1003, TD_EnableAnyEventMouseMode enable);
     (DECPrivateMode 1005, TD_EnableUTF8ExtendedMouseMode enable);
     (DECPrivateMode 1006, TD_EnableSGRExtendedMouseMode enable);
     (DECPrivateMode 1007, TD_EnableAlternateScroll enable);
     (DECPrivateMode 25, TD_CursorVisibility enable);
     (DECPrivateMode 12, TD_EnableCursorBlinking enable);
     (DECPrivateMode 2004, TD_EnableXtermBracketedPasteMode enable);
     (DECPrivateMode 9001, TD_EnableWin32InputMode enable)]
    (mret false).

Definition TD_SetMode (param : Z) : M bool := TD_ModeParamsHelper param true.
Definition TD_ResetMode (param : Z) : M bool := TD_ModeParamsHelper param false.

(** *** ConEmu *)

Definition TaskbarMaxState : Z := 4.
Definition TaskbarMaxProgress : Z := 100.

(** A number that may be left out; [None] is a text that is no number. *)
Definition optional_uint (parts : list wstring) (i : nat) : option Z :=
  match parts !! i with
  | None | Some [] => Some 0
  | Some text => StringToUint text
  end.

(** [path.at(0)] of an empty path throws. *)
Definition TD_set_directory (path : wstring) : M bool :=
  match path with
  | [] => throw OutOfRange
  | c :: _ =>
      if (c =? 34) && (List.last path 0 =? 34) && (3 <=? length path)%nat
      then on_api (Terminal_SetWorkingDirectory (take (length path - 2) (drop 1 path)))
      else on_api (Terminal_SetWorkingDirectory path)
  end.

Definition TD_DoConEmuAction (string : wstring) : M bool := noexcept (
  let parts := SplitString string 59 in
  match parts with
  | [] => mret false
  | part0 :: _ =>
      match StringToUint part0 with
      | None => mret false
      | Some subParam =>
          if subParam =? 4 then
            match optional_uint parts 1 with
            | None => mret false
            | Some state =>
                match optional_uint parts 2 with
                | None => mret false
                | Some progress =>
                    if state >? TaskbarMaxState then mret false
                    else on_api (Terminal_SetTaskbarProgress state (Z.min progress TaskbarMaxProgress))
                end
            end
          else if subParam =? 9 then
            match parts !! 1%nat with Some path => TD_set_directory path | None => mret false end
          else mret false
      end
  end).

(** *** Resets *)

Definition TD_SoftReset : M bool :=
  success ← TD_CursorVisibility true;
  success ← also (TD_SetCursorKeysMode false) success;
  success ← also (TD_SetKeypadMode false) success;
  also (TD_SetGraphicsRendition []) success.

Definition TD_EraseInDisplay (eraseType : Z) : M bool := on_api (Terminal_EraseInDisplay eraseType).

Definition TD_HardReset : M bool :=
  success ← also TD_SoftReset true;
  success ← also (TD_EraseInDisplay EraseAll) success;
  success ← also (TD_EraseInDisplay EraseScrollback) success;
  success ← also (TD_SetScreenMode false) success;
  success ← also (TD_CursorPosition 1 1) success;
  TD_ResetTabStops;;
  mret success.

(** ** Calls *)

Definition td_call (c : DispatchCall) : M bool :=
  match c with
  | Print c => TD_Print c
  | PrintString str => TD_PrintString str
  | CursorUp n => TD_CursorUp n
  | CursorForward n => TD_CursorForward n
  | CursorBackward n => TD_CursorBackward n
  | CursorPosition line column => TD_CursorPosition line column
  | OutputEngine.InsertCharacter n => on_api (Terminal_InsertCharacter defaults n)
  | DeleteCharacter n => on_api (Terminal_DeleteCharacter defaults n)
  | SetKeypadMode b => TD_SetKeypadMode b
  | WarningBell => on_api Terminal_WarningBell
  | CarriageReturn => TD_CarriageReturn
  | LineFeed t => TD_LineFeed t
  | SetWindowTitle title => on_api (Terminal_SetWindowTitle title)
  | HorizontalTabSet => TD_HorizontalTabSet
  | ForwardTab n => TD_ForwardTab n
  | BackwardsTab n => TD_BackwardsTab n
  | TabClear t => TD_TabClear t
  | SetColorTableEntry tableIndex color => on_api (Terminal_SetColorTableEntry tableIndex color)
  | OutputEngine.SetDefaultForeground color => on_api (Terminal_SetDefaultForeground color)
  | OutputEngine.SetDefaultBackground color => on_api (Terminal_SetDefaultBackground color)
  | EraseInDisplay t => TD_EraseInDisplay t
  | EraseInLine t => on_api (Terminal_EraseInLine defaults t)
  | EraseCharacters n => on_api (Terminal_EraseCharacters defaults n)
  | SetGraphicsRendition options => TD_SetGraphicsRendition options
  | PushGraphicsRendition options => on_api (Terminal_PushGraphicsRendition options)
  | PopGraphicsRendition => on_api Terminal_PopGraphicsRendition
  | SetMode param => TD_SetMode param
  | ResetMode param => TD_ResetMode param
  | SoftReset => TD_SoftReset
  | HardReset => TD_HardReset
  | SetCursorStyle s => on_api (Terminal_SetCursorStyle s)
  | SetCursorColor color => on_api (Terminal_SetCursorColor color)
  | SetClipboard content => on_api (Terminal_CopyToClipboard content)
  | AddHyperlink uri params => on_api (Terminal_AddHyperlink suffix uri params)
  | EndHyperlink => on_api Terminal_EndHyperlink
  | DoConEmuAction str => TD_DoConEmuAction str
  | _ => mret false
  end.
End dispatch.
