(* ===== verification/TerminalCoreFacts.v ===== *)
(** The invariant of the terminal core, and how its view follows the cursor. *)

From stdpp Require Import strings.
From S2P Require Import Prelude DispatchTypes TextColor TextAttribute SgrStack Utf16 Viewport ViewportFacts OutputCell CharRow Row RowFacts Cursor TextBuffer TextBufferFacts CircularFacts WriteFacts AdaptDispatch TerminalCore.

#[local] Open Scope Z_scope.

(** ** The invariant *)

Definition v_top (c : TerminalCore) : Z := Top (_mutableViewport c).
Definition v_bot (c : TerminalCore) : Z := BottomInclusive (_mutableViewport c).
Definition v_height (c : TerminalCore) : Z := v_bot c - v_top c + 1.
Definition width (c : TerminalCore) : Z := t_width (_buffer c).
Definition row_count (c : TerminalCore) : Z := TotalRowCount (_buffer c).

(** A window of two columns or more in the buffer. *)
Record view_ok (c : TerminalCore) : Prop := {
  co_buffer : buffer_ok (_buffer c);
  co_width : 2 <= width c <= 32000;
  co_view : _mutableViewport c = mkViewport (mkRect 0 (v_top c) (width c - 1) (v_bot c));
  co_top : 0 <= v_top c <= v_bot c;
  co_bot : v_bot c < row_count c;
  co_scroll : 0 <= _scrollOffset c <= row_count c - v_height c;
  co_sgr : ∃ l, holds (_sgrStack c) l
}.

(** The cursor is on one of its lines, and may be right of the last column after it
    has been filled. *)
Record core_ok (c : TerminalCore) : Prop := {
  co_v :> view_ok c;
  co_line : v_top c <= Y (cursor_position c) <= v_bot c;
  co_column : 0 <= X (cursor_position c) <= width c + 8
}.

(** Changes outside of what the invariant speaks about. *)
Definition same_geometry (c c' : TerminalCore) : Prop :=
  _size (_buffer c') = _size (_buffer c) ∧ _mutableViewport c' = _mutableViewport c
  ∧ _scrollOffset c' = _scrollOffset c ∧ cursor_position c' = cursor_position c ∧ _sgrStack c' = _sgrStack c.

Lemma core_ok_same c c' : core_ok c → buffer_ok (_buffer c') → same_geometry c c' → core_ok c'.
Proof.
  intros [[H1 H2 H3 H4 H5 H6 H7] H8 H9] Hb (Es & Ev & Eo & Ec & Eg).
  assert (width c' = width c) as Ew by (unfold width, t_width; by rewrite Es).
  assert (row_count c' = row_count c) as Er.
  { unfold row_count. by rewrite <-(Height_size _ Hb), <-(Height_size _ H1), Es. }
  assert (v_top c' = v_top c) as Et by (unfold v_top; by rewrite Ev).
  assert (v_bot c' = v_bot c) as Ebo by (unfold v_bot; by rewrite Ev).
  assert (v_height c' = v_height c) as Eh by (unfold v_height; by rewrite Et, Ebo).
  split; [split|..]; rewrite ?Ew, ?Er, ?Et, ?Ebo, ?Eh, ?Ev, ?Eo, ?Ec, ?Eg; done.
Qed.

Section geometry.
Context (c : TerminalCore) (Hc : view_ok c).

Lemma core_rows_range : 0 < row_count c <= 32767.
Proof using Hc. apply (b_height _ (co_buffer c Hc)). Qed.

Lemma Height_buffer : Height (_size (_buffer c)) = row_count c.
Proof using Hc. apply (Height_size _ (co_buffer c Hc)). Qed.

Lemma Width_buffer : Width (_size (_buffer c)) = width c.
Proof using Hc. apply (Width_size _ (co_buffer c Hc)). Qed.

Lemma Height_view : Height (_mutableViewport c) = v_height c.
Proof using Hc.
  pose proof (co_view c Hc) as E. pose proof (co_top c Hc). pose proof (co_bot c Hc). pose proof core_rows_range.
  unfold v_height. rewrite E at 1. unfold Height, BottomExclusive, Top. cbn. rewrite !i16_small by (rewrite ?i16_small; lia). lia.
Qed.

Lemma Width_view : Width (_mutableViewport c) = width c.
Proof using Hc.
  pose proof (co_view c Hc) as E. pose proof (co_width c Hc). rewrite E. unfold Width, RightExclusive, Left. cbn.
  rewrite !i16_small by (rewrite ?i16_small; lia). lia.
Qed.

Lemma Right_view : RightExclusive (_mutableViewport c) = width c.
Proof using Hc.
  pose proof (co_view c Hc) as E. pose proof (co_width c Hc). rewrite E. unfold RightExclusive. cbn. rewrite i16_small; lia.
Qed.

Lemma Left_view : Left (_mutableViewport c) = 0.
Proof using Hc. by rewrite (co_view c Hc). Qed.

(** A window of the same size at another line. *)
Lemma view_at top : 0 <= top → top + v_height c <= row_count c →
  FromDimensions (mkCOORD 0 top) (Dimensions (_mutableViewport c))
  = mkViewport (mkRect 0 top (width c - 1) (top + v_height c - 1)).
Proof using Hc.
  intros Ht Hb. pose proof core_rows_range. pose proof (co_width c Hc). pose proof (co_top c Hc).
  unfold Dimensions. rewrite Width_view, Height_view. unfold v_height in *. unfold FromDimensions, FromExclusive. cbn.
  rewrite !i16_small by (rewrite ?i16_small; lia). done.
Qed.
End geometry.

Lemma lift_ok {W A} (r : exn + A) a (Q : A → W → Prop) w : r = inr a → Q a w → wp (lift r) Q w.
Proof. unfold wp, lift. by intros ->. Qed.

(** Programs on the buffer. *)
Lemma wp_on_buffer {A} (m : prog TextBuffer A) (Q : A → TerminalCore → Prop) c :
  wp m (λ a t, Q a (with_buffer t c)) (_buffer c) → wp (on_buffer m) Q c.
Proof. unfold wp, on_buffer, on_part. by destruct (m _). Qed.

Lemma wpx_on_buffer {A} ok (m : prog TextBuffer A) (Q : A → TerminalCore → Prop) E c :
  wpx ok m (λ a t, Q a (with_buffer t c)) (λ t, E (with_buffer t c)) (_buffer c) → wpx ok (on_buffer m) Q E c.
Proof. unfold wpx, on_buffer, on_part. by destruct (m _). Qed.

Lemma wp_on_cursor f (Q : unit → TerminalCore → Prop) c :
  Q tt (with_buffer (set_cursor (f (_cursor (_buffer c))) (_buffer c)) c) → wp (on_buffer_cursor f) Q c.
Proof. intros HQ. apply wp_on_buffer. by eapply wp_cursor. Qed.

(** ** Notifications *)

Definition scroll_note (n : Notification) : Prop :=
  match n with ScrollPositionChanged _ _ _ => True | _ => False end.

Lemma wp_notify_scroll_notes Q c :
  view_ok c → (∀ l, Forall scroll_note l → Q tt (with_notified (notified c ++ l) c)) → wp _NotifyScrollEvent Q c.
Proof.
  intros Hc HQ. unfold _NotifyScrollEvent. repeat wp_step.
  destruct (_callbacks c pfnScrollPositionChanged) eqn:Ecb.
  - repeat wp_step. pose proof (co_scroll c Hc). pose proof (co_top c Hc). pose proof (co_bot c Hc). pose proof (core_rows_range c Hc).
    eapply lift_ok; [unfold _GetVisibleViewport, narrow_short; cbn [id]|].
    { replace (-32768 <=? _VisibleStartIndex c) with true; [replace (_VisibleStartIndex c <=? 32767) with true; [done|]|];
        symmetry; apply Z.leb_le; unfold _VisibleStartIndex, ViewStartIndex; fold (v_top c); lia. }
    unfold call_back. repeat wp_step. rewrite Ecb. wp_step. apply HQ. by repeat constructor.
  - wp_step. replace c with (with_notified (notified c ++ []) c) by (rewrite app_nil_r; by destruct c). by apply HQ.
Qed.

Lemma wp_notify_scroll Q c :
  view_ok c → (∀ l, Q tt (with_notified l c)) → wp _NotifyScrollEvent Q c.
Proof. intros Hc HQ. by apply wp_notify_scroll_notes. Qed.

Lemma wp_call_back_if k n Q c : (∀ l, Q tt (with_notified l c)) → wp (call_back_if_set k n) Q c.
Proof.
  intros HQ. unfold call_back_if_set. repeat wp_step. case_match; wp_step; [apply HQ|].
  replace c with (with_notified (notified c) c) by by destruct c. apply HQ.
Qed.

Lemma wpx_call_back k n (Q : unit → TerminalCore → Prop) E c :
  (∀ l, Q tt (with_notified l c)) → E c → wpx catchable (call_back k n) Q E c.
Proof. intros HQ HE. unfold call_back. repeat wpx_step. case_match; [wpx_step; apply HQ|by apply wpx_throw]. Qed.

(** ** Making room *)

(** The lines after [n] new ones at the bottom. *)
Definition scrolled_up (n : nat) (blank : Line) (lines : list Line) : list Line := drop n lines ++ replicate n blank.

Lemma cycle_buffer_ok n : ∀ c (Q : unit → TerminalCore → Prop),
  buffer_ok (_buffer c) → (n <= length (_storage (_buffer c)))%nat →
  (∀ t', buffer_ok t' → _size t' = _size (_buffer c) → _cursor t' = _cursor (_buffer c) →
     _currentAttributes t' = _currentAttributes (_buffer c) →
     screen t' = scrolled_up n (blank_line (t_width (_buffer c)) (_currentAttributes (_buffer c))) (screen (_buffer c)) →
     Q tt (with_buffer t' c)) →
  wp (cycle_buffer n) Q c.
Proof.
  induction n as [|n IH]; intros c Q Hb Hn HQ; cbn [cycle_buffer].
  - wp_step. replace c with (with_buffer (_buffer c) c) by by destruct c. apply HQ; try done.
    unfold scrolled_up. by rewrite drop_0, app_nil_r.
  - wp_step. apply wp_on_buffer. apply IncrementCircularBuffer_ok; [done|]. intros t1 (Hb1 & Es1 & Ec1 & Ea1 & Hs1 & _).
    cbn [erase_attributes] in Hs1.
    assert (length (_storage t1) = length (_storage (_buffer c))) as El.
    { rewrite <-!length_screen, Hs1, length_app, length_drop, !length_screen. cbn. lia. }
    apply IH; cbn [_buffer with_buffer]; [done|lia|].
    intros t2 Hb2 Es2 Ec2 Ea2 Hs2.
    change (with_buffer t2 (with_buffer t1 c)) with (with_buffer t2 c).
    apply HQ; [done|congruence|congruence|congruence|]. rewrite Hs2, Hs1. unfold scrolled_up.
    assert (t_width t1 = t_width (_buffer c)) as Ew by (unfold t_width; by rewrite Es1). rewrite Ew, Ea1.
    rewrite drop_app_le by (rewrite length_drop, length_screen; lia). rewrite drop_drop.
    change (1 + n)%nat with (S n). rewrite <-app_assoc. done.
Qed.

(** ** The view follows the cursor *)

(** What the user sees. *)
Definition visible_lines (c : TerminalCore) : list Line :=
  take (Z.to_nat (v_height c)) (drop (Z.to_nat (_VisibleStartIndex c)) (screen (_buffer c))).

(** The user has scrolled back, or selects text. *)
Definition holds_view (c : TerminalCore) : bool := IsSelectionActive c || negb (_scrollOffset c =? 0).

(** The new lines and the lines by which the window moves when the cursor goes to line [y]. *)
Definition new_lines (c : TerminalCore) (y : Z) : Z := Z.max 0 (y - row_count c + 1).
Definition window_moves (c : TerminalCore) (y : Z) : Z := Z.max 0 (y - new_lines c y - v_bot c).

Definition new_offset (c : TerminalCore) (y : Z) : Z :=
  if (window_moves c y =? 0) && (new_lines c y =? 0) then _scrollOffset c
  else if holds_view c then Z.min (_scrollOffset c + window_moves c y + new_lines c y) (row_count c - v_height c)
  else 0.

(** The terminal after the cursor has been put at [p]. *)
Record adjusted (p : COORD) (c c' : TerminalCore) : Prop := {
  aj_ok : core_ok c';
  aj_size : _size (_buffer c') = _size (_buffer c);
  aj_attrs : _currentAttributes (_buffer c') = _currentAttributes (_buffer c);
  aj_screen : screen (_buffer c')
    = scrolled_up (Z.to_nat (new_lines c (Y p))) (blank_line (width c) (_currentAttributes (_buffer c))) (screen (_buffer c));
  aj_cursor : cursor_position c' = mkCOORD (X p) (Y p - new_lines c (Y p));
  aj_top : v_top c' = v_top c + window_moves c (Y p);
  aj_bot : v_bot c' = v_bot c + window_moves c (Y p);
  aj_offset : _scrollOffset c' = new_offset c (Y p);
  aj_selection : _selection c' = _selection c
}.

Lemma length_scrolled n b l : (n <= length l)%nat → length (scrolled_up n b l) = length l.
Proof. intros Hn. unfold scrolled_up. rewrite length_app, length_drop, length_replicate. lia. Qed.

(** The part of the invariant that the loops over the text need. *)
Definition target_ok (c : TerminalCore) (p : COORD) : Prop :=
  v_top c <= Y p <= row_count c ∧ 0 <= X p <= width c + 8.

(** The state after the last assignment, up to notifications. *)
Lemma adjusted_ok p c t' v l :
  core_ok c → target_ok c p →
  buffer_ok t' → _size t' = _size (_buffer c) → _currentAttributes t' = _currentAttributes (_buffer c) →
  screen t' = scrolled_up (Z.to_nat (new_lines c (Y p))) (blank_line (width c) (_currentAttributes (_buffer c))) (screen (_buffer c)) →
  _cPosition (_cursor t') = mkCOORD (X p) (Y p - new_lines c (Y p)) →
  v = mkViewport (mkRect 0 (v_top c + window_moves c (Y p)) (width c - 1) (v_bot c + window_moves c (Y p))) →
  adjusted p c (with_notified l (with_scrollOffset (new_offset c (Y p)) (with_viewport v (with_buffer t' c)))).
Proof.
  intros Hc [Hy Hx] Hb Es Ea Hscr Hp ->. pose proof (core_rows_range c Hc). pose proof (co_top c Hc). pose proof (co_bot c Hc).
  pose proof (co_scroll c Hc). pose proof (co_line c Hc).
  set (c' := with_notified _ _).
  assert (width c' = width c) as Ew by (unfold width, t_width; cbn; by rewrite Es).
  assert (row_count c' = row_count c) as Er.
  { unfold row_count. cbn. by rewrite <-(Height_size _ Hb), <-(Height_size _ (co_buffer c Hc)), Es. }
  unfold v_height in *. split; try done. split; [split|..]; rewrite ?Ew, ?Er; try done.
  - apply (co_width c Hc).
  - change (v_top c') with (v_top c + window_moves c (Y p)). change (v_bot c') with (v_bot c + window_moves c (Y p)).
    unfold window_moves. lia.
  - change (v_bot c') with (v_bot c + window_moves c (Y p)). unfold window_moves, new_lines. lia.
  - change (_scrollOffset c') with (new_offset c (Y p)). unfold v_height.
    change (v_top c') with (v_top c + window_moves c (Y p)). change (v_bot c') with (v_bot c + window_moves c (Y p)).
    unfold new_offset, v_height. repeat case_match; unfold window_moves, new_lines; lia.
  - cbn. apply (co_sgr c Hc).
  - unfold cursor_position. cbn. rewrite Hp. cbn.
    change (v_top c') with (v_top c + window_moves c (Y p)). change (v_bot c') with (v_bot c + window_moves c (Y p)).
    unfold window_moves, new_lines. lia.
  - unfold cursor_position. cbn. rewrite Hp. cbn. lia.
Qed.

(** The new scroll offset. *)
Lemma offset_ok c c1 moves n (Q : bool → TerminalCore → Prop) (r : TerminalCore → Z → bool) :
  core_ok c → 0 <= moves <= 32767 → 0 <= n <= 32767 →
  _selection c1 = _selection c → _scrollOffset c1 = _scrollOffset c →
  Height (_size (_buffer c1)) = row_count c → Height (_mutableViewport c1) = v_height c →
  (∀ b, Q b (with_scrollOffset (if holds_view c then Z.min (_scrollOffset c + moves + n) (row_count c - v_height c) else 0) c1)) →
  wp (c ← gets id;
      offset ← (if negb (IsSelectionActive c) && (_scrollOffset c =? 0) then mret 0
                else int_of (_scrollOffset c + moves + n));
      offset ← checked_clamp offset 0 (Height (_size (_buffer c)) - Height (_mutableViewport c));
      modify (with_scrollOffset offset);;
      mret (r c offset)) Q c1.
Proof.
  intros Hc Hm Hn Es Eo Er Eh HQ. pose proof (co_scroll c Hc). pose proof (core_rows_range c Hc).
  pose proof (co_top c Hc). pose proof (co_bot c Hc). unfold v_height in *. repeat wp_step. cbn [id].
  assert (∀ o, 0 <= o → wp (offset ← checked_clamp o 0 (Height (_size (_buffer c1)) - Height (_mutableViewport c1));
      modify (with_scrollOffset offset);; mret (r c1 offset))
      (λ _ c2, c2 = with_scrollOffset (Z.min o (row_count c - (v_bot c - v_top c + 1))) c1) c1) as Hcl.
  { intros o Ho. unfold checked_clamp, std_clamp. rewrite Er, Eh. wp_step.
    rewrite (proj2 (Z.ltb_ge _ _)) by lia. wp_step. wp_step. wp_step. wp_step. f_equal. repeat case_match; zify_bool; lia. }
  unfold IsSelectionActive in *. rewrite Es, Eo. unfold holds_view, IsSelectionActive in HQ.
  destruct (bool_decide _ || negb (_scrollOffset c =? 0)) eqn:Ehold.
  - assert (negb (bool_decide (is_Some (_selection c))) && (_scrollOffset c =? 0) = false) as ->
      by by destruct (bool_decide _), (_scrollOffset c =? 0).
    unfold int_of. rewrite (proj2 (Z.leb_le _ _)), (proj2 (Z.ltb_lt _ _)) by lia. cbn [andb]. wp_step.
    rewrite <-Eo. eapply wp_mono; [apply Hcl; lia|]. cbv beta. intros b' c2 ->. rewrite Eo. apply HQ.
  - assert (negb (bool_decide (is_Some (_selection c))) && (_scrollOffset c =? 0) = true) as ->
      by by destruct (bool_decide _), (_scrollOffset c =? 0).
    wp_step. eapply wp_mono; [apply Hcl; lia|]. cbv beta. intros b' c2 ->.
    rewrite Z.min_l by lia. apply HQ.
Qed.

Lemma AdjustCursorPosition_ok p c (Q : unit → TerminalCore → Prop) :
  core_ok c → target_ok c p → (∀ c', adjusted p c c' → Q tt c') → wp (_AdjustCursorPosition p) Q c.
Proof.
  intros Hc Ht HQ. pose proof Ht as [Hy Hx]. pose proof (core_rows_range c Hc). pose proof (co_top c Hc). pose proof (co_bot c Hc).
  pose proof (co_scroll c Hc). pose proof (co_width c Hc). unfold _AdjustCursorPosition. repeat wp_step.
  rewrite (Height_buffer c Hc). fold (new_lines c (Y p)).
  assert (0 <= new_lines c (Y p) <= 1) as Hn by (unfold new_lines; lia).
  apply cycle_buffer_ok; [apply (co_buffer c Hc)|unfold row_count, TotalRowCount in *; lia|].
  intros t1 Hb1 Es1 Ec1 Ea1 Hs1. repeat wp_step. apply wp_on_cursor. repeat wp_step. cbn [id].
  rewrite i16_small by (unfold new_lines in *; lia).
  set (pos := mkCOORD (X p) _). set (t2 := set_cursor _ _).
  change (with_buffer t2 (with_buffer t1 c)) with (with_buffer t2 c). set (c2 := with_buffer t2 c).
  change (_mutableViewport c2) with (_mutableViewport c). rewrite (Height_view c Hc).
  fold (v_bot c). fold (v_top c). change (Y pos) with (Y p - new_lines c (Y p)). fold (window_moves c (Y p)).
  destruct (buffer_part_ok t1 t2 eq_refl Hb1) as [Hb2 Hs2].
  set (v' := mkViewport (mkRect 0 (v_top c + window_moves c (Y p)) (width c - 1) (v_bot c + window_moves c (Y p)))).
  assert (∀ l, adjusted p c (with_notified l (with_scrollOffset (new_offset c (Y p)) (with_viewport v' c2)))) as Hdone.
  { intros l. apply adjusted_ok; try done; first [by rewrite Hs2, Hs1|apply position_set]. }
  assert (∀ b : bool, wp ((if b then _NotifyScrollEvent else mret tt);; _NotifyTerminalCursorPositionChanged) Q
    (with_scrollOffset (new_offset c (Y p)) (with_viewport v' c2))) as Hend.
  { intros b. set (c3 := with_scrollOffset _ _). replace c3 with (with_notified (notified c) c3) by done.
    wp_step. destruct b; [apply wp_notify_scroll; [apply (aj_ok _ _ _ (Hdone _))|intros l]|wp_step]; apply wp_call_back_if; intros l'; apply HQ;
      apply (Hdone l'). }
  assert (0 <= window_moves c (Y p) <= 32767) as Hm by (unfold window_moves, new_lines; lia).
  assert (Height v' = v_height c) as Ehv.
  { assert (v_bot c + window_moves c (Y p) < row_count c) by (unfold window_moves, new_lines; lia).
    unfold v', Height, BottomExclusive, Top, v_height. cbn. rewrite !i16_small by (rewrite ?i16_small; lia). lia. }
  destruct (Z.gtb_spec (window_moves c (Y p)) 0) as [Hpos|Hzero]; cbn [andb].
  - assert (Z.max 0 (Y p - new_lines c (Y p) - (v_height c - 1)) = v_top c + window_moves c (Y p)) as ->
      by (unfold window_moves, v_height in *; lia).
    rewrite (proj2 (Z.eqb_neq _ _)) by lia. cbn [negb orb]. wp_step.
    eapply lift_ok; [unfold gsl_narrow; by rewrite (proj2 (Z.leb_le _ _)), (proj2 (Z.leb_le _ _)) by (unfold window_moves, new_lines in *; lia)|].
    rewrite (view_at c Hc) by (unfold window_moves, new_lines, v_height in *; lia).
    wp_step. wp_step. replace (mkViewport _) with v' by (unfold v', v_height; do 2 f_equal; lia).
    eapply (offset_ok c _ _ _ _ (λ _ _, true)); [done|lia|lia|done|done|cbn; by rewrite Es1, (Height_buffer c Hc)|done|]. intros b.
    assert (new_offset c (Y p) = if holds_view c then Z.min (_scrollOffset c + window_moves c (Y p) + new_lines c (Y p)) (row_count c - v_height c) else 0) as <-.
    { unfold new_offset. by rewrite (proj2 (Z.eqb_neq (window_moves _ _) _)) by lia. }
    apply Hend.
  - assert (window_moves c (Y p) = 0) as Em by lia. wp_step. wp_step.
    assert (with_viewport v' c2 = c2) as Ev.
    { unfold c2, v'. rewrite Em, !Z.add_0_r, <-(co_view c Hc). by destruct c. }
    cbn [orb]. destruct (Z.eqb_spec (new_lines c (Y p)) 0) as [En|En]; cbn [negb].
    + wp_step. rewrite <-Ev. replace (with_viewport v' c2) with (with_scrollOffset (new_offset c (Y p)) (with_viewport v' c2)).
      * apply (Hend false).
      * unfold new_offset. rewrite Em, En. by destruct c.
    + rewrite <-Ev. eapply (offset_ok c _ _ _ _ (λ c o, negb (_scrollOffset c =? o))); [done|lia|lia|done|done|cbn; by rewrite Es1, (Height_buffer c Hc)|done|]. intros b.
      assert (new_offset c (Y p) = if holds_view c then Z.min (_scrollOffset c + window_moves c (Y p) + new_lines c (Y p)) (row_count c - v_height c) else 0) as <-.
      { unfold new_offset. rewrite (proj2 (Z.eqb_neq (new_lines _ _) _)) by lia. by rewrite andb_false_r. }
      apply Hend.
Qed.

(** Adjusting the cursor keeps what the user looks at: lines that were scrolled into
    view stay there unless they leave the buffer, and otherwise the view is at the
    bottom. *)
Lemma adjusted_view p c c' :
  core_ok c → target_ok c p → adjusted p c c' →
  if holds_view c then new_lines c (Y p) <= _VisibleStartIndex c → visible_lines c' = visible_lines c
  else _VisibleStartIndex c' = v_top c'.
Proof.
  intros Hc [Hy Hx] Ha. pose proof (co_scroll c Hc). pose proof (co_top c Hc). pose proof (co_bot c Hc).
  unfold _VisibleStartIndex, ViewStartIndex. fold (v_top c) (v_top c').
  pose proof (aj_offset _ _ _ Ha) as Eo. pose proof (aj_top _ _ _ Ha) as Et. pose proof (aj_bot _ _ _ Ha) as Eb.
  unfold new_offset in Eo. unfold holds_view in *. destruct (IsSelectionActive c || negb (_scrollOffset c =? 0)) eqn:Eh.
  - intros Hn. unfold visible_lines, _VisibleStartIndex, ViewStartIndex. fold (v_top c) (v_top c').
    rewrite (aj_screen _ _ _ Ha). unfold scrolled_up.
    assert (length (screen (_buffer c)) = Z.to_nat (row_count c)) as El by (rewrite length_screen; unfold row_count, TotalRowCount; lia).
    assert (v_height c' = v_height c) as -> by (unfold v_height; lia).
    set (s := v_top c' - _scrollOffset c'). set (n := new_lines c (Y p)) in *.
    assert (0 <= n) by (unfold n, new_lines; lia).
    assert (Z.max 0 s + n = Z.max 0 (v_top c - _scrollOffset c)) as Es.
    { unfold s. rewrite Eo, Et. assert (0 <= window_moves c (Y p)) by (unfold window_moves; lia).
      assert (v_bot c + window_moves c (Y p) < row_count c) by (unfold window_moves, new_lines; lia). unfold v_height in *.
      destruct (_ && _) eqn:E0; [apply andb_true_iff in E0|apply andb_false_iff in E0]; lia. }
    rewrite drop_app_le by (rewrite length_drop; unfold v_height in *; lia). rewrite drop_drop.
    replace (Z.to_nat n + Z.to_nat (Z.max 0 s))%nat with (Z.to_nat (Z.max 0 (v_top c - _scrollOffset c))) by lia.
    apply take_app_le. rewrite length_drop. unfold v_height in *. lia.
  - apply orb_false_iff in Eh as [_ Eh]. assert (_scrollOffset c = 0) as E0 by (apply negb_false_iff, Z.eqb_eq in Eh; lia).
    assert (_scrollOffset c' = 0) as -> by (rewrite Eo, E0; by case_match).
    rewrite Et. assert (0 <= window_moves c (Y p)) by (unfold window_moves; lia). lia.
Qed.

(** C14: a movement of the cursor does not move the view of a user who has scrolled back or
    selects text.  When [_AdjustCursorPosition], which every line feed and every wrapped
    line of text goes through, puts the cursor on a line of the buffer from the top of the
    window on, or on the one below the buffer, the lines that are visible stay the same
    lines with the same cells, until they leave the buffer at its top; the view of other
    users is then the window.  The terminal stays well formed, with the cursor in the
    window.  This is about the movement alone: the text that is written changes its
    line also when it is visible, and erasing the display or the scrollback moves the view. *)
Theorem scrolled_view_stays (p : COORD) (c : TerminalCore) :
  core_ok c → target_ok c p →
  wp (_AdjustCursorPosition p) (λ _ c', core_ok c'
    ∧ if holds_view c then new_lines c (Y p) <= _VisibleStartIndex c → visible_lines c' = visible_lines c
      else _VisibleStartIndex c' = v_top c') c.
Proof.
  intros Hc Ht. apply AdjustCursorPosition_ok; [done|done|]. intros c' Ha. split; [apply Ha|]. by eapply adjusted_view.
Qed.

(** ** Writing text *)

(** A write of cells leaves the geometry alone. *)
Lemma core_ok_rows c t : core_ok c → rows_only (_buffer c) t → core_ok (with_buffer t c).
Proof.
  intros Hc [Hb Hr]. assert (_size t = _size (_buffer c)) as Es by by injection Hr.
  assert (_cursor t = _cursor (_buffer c)) as Ec by by injection Hr.
  apply (core_ok_same c); [done|done|]. unfold same_geometry, cursor_position. cbn. by rewrite Es, Ec.
Qed.

Lemma narrowing_catchable {W A} (m : prog W A) Q E w : wpx narrowing m Q E w → wpx catchable m Q E w.
Proof. unfold wpx. destruct (m w) as [|e w']; [done|]. intros [He HE]. by destruct e. Qed.

Section write.
Context `{GlyphWidth} (d : LegacyDefaults).

Definition read_on (run : wstring) (it : OutputCellIterator) : Prop := short_text run it ∧ 0 < _ipos it.

Lemma read_on_writes final run : writes d final (λ _, read_on run).
Proof.
  intros k it [Hs Hp] Hv. destruct (short_text_writes d final run k it Hs Hv) as (H1 & H2 & _ & _).
  do 2 (split; [done|]). split; [done|]. intros _.
  destruct (short_text_next d run it Hs Hv) as (it1 & E & Hs1 & Hle & _). exists it1. split; [done|]. split; [done|lia].
Qed.

(** One glyph at the cursor: nothing happens right of the last column, and the text
    gets on at the first one. *)
Lemma write_view_ok run attr c (Q : OutputCellIterator → TextBuffer → Prop) :
  let it := Iter_text_attr run attr in
  core_ok c → (1 <= length run <= 2)%nat →
  (∀ it' t', rows_only (_buffer c) t' → short_text run it' →
     (width c <= X (cursor_position c) → it' = it ∧ t' = _buffer c) → (X (cursor_position c) = 0 → 0 < _ipos it') → Q it' t') →
  wpx narrowing (Write_at_cursor d it) Q (rows_only (_buffer c)) (_buffer c).
Proof.
  intros it Hc Hl HQ. pose proof (co_buffer c Hc) as Hb. pose proof (co_line c Hc) as Hy. pose proof (co_width c Hc) as Hw.
  pose proof (co_top c Hc). pose proof (co_bot c Hc). pose proof (core_rows_range c Hc). pose proof (co_column c Hc) as Hx.
  assert (short_text run it) as Hs by by apply short_text_start.
  unfold Write_at_cursor. repeat wpx_step. change (_cPosition (_cursor (_buffer c))) with (cursor_position c).
  set (p := cursor_position c) in *. unfold Write. repeat wpx_step. rewrite (Height_buffer c Hc).
  destruct (Z.to_nat (row_count c)) as [|fuel] eqn:Ef; [lia|]. 
  destruct (decide (width c <= X p)) as [Hout|Hin].
  { cbn [write_lines]. rewrite (IsInBounds_ok _ (size_ok _ Hb)), bool_decide_false, andb_false_r.
    - wpx_step. apply HQ; [done|done|done|lia].
    - rewrite (inside_size _ Hb). unfold width in *. lia. }
  assert (inside (_size (_buffer c)) p) as Hp by (rewrite (inside_size _ Hb); unfold width, row_count in *; lia).
  destruct (decide (X p = 0)) as [E0|E0].
  - cbn [write_lines]. rewrite (IsInBounds_ok _ (size_ok _ Hb)), bool_decide_true by done.
    assert (Iter_valid it = true) as -> by (unfold Iter_valid; cbn; lia). cbn [andb]. wpx_step.
    eapply (WriteLine_keeps d (moving run)); [apply moving_writes; unfold width in *; lia|done|done| |].
    { rewrite E0. cbn. split; [done|]. change (IsTrailing (lead_if (IsGlyphFullWidth (ParseNext run))) = false).
      unfold lead_if. by destruct (IsGlyphFullWidth _). }
    intros it1 k1 t1 Ht1 [Hs1 Hm1] Hk1 Hstop.
    assert (read_on run it1) as Hr1.
    { split; [done|]. destruct Hstop as [Hv|Hv].
      - destruct Hs1 as (Em & Hl1 & Hp1 & _). unfold Iter_valid in Hv. rewrite Em in Hv. lia.
      - unfold width in *. destruct k1 as [|[|k1]]; lia || done. }
    destruct (rows_only_rows _ t1 Hb Ht1) as [Er Ew].
    assert (_size t1 = _size (_buffer c)) as Es by (destruct Ht1 as [_ E]; by injection E).
    rewrite <-Es, i16_small by lia.
    eapply wpx_mono; [eapply (write_lines_keeps d (read_on run))| |].
    + apply Ht1.
    + apply read_on_writes.
    + done.
    + cbn. unfold row_count in *. lia.
    + cbn. unfold row_count in *. lia.
    + intros it2 t2 Ht2 Hr2. exact (conj (rows_only_trans _ _ _ Ht1 Ht2) Hr2).
    + cbv beta. intros it2 t2 [Ht2 [Hs2 Hp2]]. apply HQ; [done|done|lia|done].
    + intros t2 Ht2. by eapply rows_only_trans.
  - eapply (write_lines_keeps d (short_text run)); [done|apply short_text_writes|done|unfold row_count in *; lia|unfold row_count in *; lia|].
    intros it2 t2 Ht2 Hs2. apply HQ; [done|done|lia|lia].
Qed.

Lemma next_view_length rest : rest ≠ [] → (1 <= length (next_view rest) <= 2)%nat ∧ (length (next_view rest) <= length rest)%nat.
Proof. destruct rest as [|c l]; [done|]. intros _. cbn [next_view]. rewrite length_take. case_match; cbn [length]; lia. Qed.

Lemma adjust_safe p c : core_ok c → target_ok c p → wp (_AdjustCursorPosition p) (λ _ c', core_ok c' ∧ X (cursor_position c') = X p) c.
Proof. intros Hc Ht. apply AdjustCursorPosition_ok; [done|done|]. intros c' Ha. split; [apply Ha|]. by rewrite (aj_cursor _ _ _ Ha). Qed.

(** The text is written to the end within two rounds for each character. *)
Lemma write_chars_safe fuel : ∀ rest c,
  core_ok c → (2 * length rest <= fuel + (if decide (X (cursor_position c) = 0%Z) then 1 else 0))%nat →
  wpx catchable (write_chars d fuel rest) (λ _, core_ok) core_ok c.
Proof.
  induction fuel as [|fuel IH]; intros rest c Hc Hf.
  { destruct rest as [|w rest]; [by apply wpx_wp, wp_ret|]. cbn in Hf. case_decide; lia. }
  destruct rest as [|w rest0]; [by apply wpx_wp, wp_ret|]. set (rest := w :: rest0) in *.
  destruct (next_view_length rest) as [Hl Hl']; [done|].
  change (write_chars d (S fuel) rest) with
    (p ← gets cursor_position; attr ← gets (λ c, _currentAttributes (_buffer c));
     let it := Iter_text_attr (next_view rest) attr in
     end_ ← on_buffer (Write_at_cursor d it);
     if GetInputDistance end_ it >? 0 then
       n ← lift (gsl_narrow (GetCellDistance end_ it));
       _AdjustCursorPosition (mkCOORD (i16 (X p + n)) (Y p));;
       write_chars d fuel (drop (Z.to_nat (GetInputDistance end_ it)) rest)
     else _AdjustCursorPosition (mkCOORD 0 (i16 (Y p + 1)));; write_chars d fuel rest).
  repeat wpx_step. cbv zeta. repeat wpx_step. apply wpx_on_buffer, narrowing_catchable.
  eapply wpx_mono; [apply (write_view_ok (next_view rest) _ c (λ it' t', rows_only (_buffer c) t' ∧ short_text (next_view rest) it'
     ∧ (width c <= X (cursor_position c) → it' = Iter_text_attr (next_view rest) (_currentAttributes (_buffer c)))
     ∧ (X (cursor_position c) = 0 → 0 < _ipos it'))); [done|done|naive_solver]| |].
  2:{ intros t Ht. by apply core_ok_rows. }
  cbv beta. intros it' t' (Ht & Hs & Hout & Hzero). pose proof (core_ok_rows c t' Hc Ht) as Hc1. set (c1 := with_buffer t' c) in *.
  pose proof (co_line c Hc). pose proof (co_top c Hc). pose proof (co_bot c Hc). pose proof (core_rows_range c Hc).
  pose proof (co_column c Hc). pose proof (co_width c Hc).
  assert (row_count c1 = row_count c ∧ width c1 = width c) as [Er Ew] by (apply rows_only_rows; [apply (co_buffer c Hc)|done]).
  destruct Hs as (_ & _ & Hp & Hd & _). assert (0 <= _distance it' <= 7) as Hd7 by (case_match; lia).
  unfold GetInputDistance, GetCellDistance. cbn [_ipos _distance Iter_text_attr]. rewrite !Z.sub_0_r, !(wraps_small 64) by lia.
  destruct (Z.gtb_spec (_ipos it') 0) as [Hadv|Hstay].
  - assert (X (cursor_position c) < width c).
    { destruct (decide (width c <= X (cursor_position c))) as [E|]; [|lia]. rewrite (Hout E) in Hadv. cbn in Hadv. lia. }
    unfold gsl_narrow. rewrite (proj2 (Z.leb_le _ _)), (proj2 (Z.leb_le _ _)) by lia. cbn [andb]. wpx_step. apply wpx_wp, wp_ret.
    rewrite i16_small by lia. wpx_step. apply wpx_wp.
    eapply wp_mono; [apply adjust_safe; [done|]|cbv beta; intros _ c2 [Hc2 _]].
    + unfold target_ok. rewrite Er, Ew. cbn. change (v_top c1) with (v_top c). lia.
    + apply IH; [done|]. rewrite length_drop. repeat case_decide; lia.
  - rewrite i16_small by lia. wpx_step. apply wpx_wp.
    eapply wp_mono; [apply adjust_safe; [done|]|cbv beta; intros _ c2 [Hc2 Ex]].
    + unfold target_ok. rewrite Er, Ew. cbn. change (v_top c1) with (v_top c). lia.
    + apply IH; [done|]. rewrite Ex. cbn [X]. rewrite decide_True by done. case_decide as E; [specialize (Hzero E); lia|lia].
Qed.

Lemma core_ok_cursor f c :
  (∀ k, _cPosition (f k) = _cPosition k) → core_ok c → core_ok (with_buffer (set_cursor (f (_cursor (_buffer c))) (_buffer c)) c).
Proof.
  intros Hf Hc. apply (core_ok_same c); [done| |].
  { by apply (buffer_part_ok (_buffer c)), (co_buffer c Hc). }
  unfold same_geometry, cursor_position. cbn. by rewrite Hf.
Qed.

Lemma EndDefer_position k : _cPosition (EndDeferDrawing k) = _cPosition k.
Proof. unfold EndDeferDrawing. by case_match. Qed.

Lemma WriteBuffer_safe text c : core_ok c → wpx catchable (_WriteBuffer d text) (λ _, core_ok) core_ok c.
Proof.
  intros Hc. unfold _WriteBuffer. wpx_step. apply wpx_wp, wp_on_cursor. set (c1 := with_buffer _ c).
  assert (core_ok c1) as Hc1 by by apply (core_ok_cursor StartDeferDrawing).
  wpx_step. eapply wpx_mono; [apply write_chars_safe; [done|lia]| |done].
  cbv beta. intros _ c2 Hc2. apply wpx_wp, wp_on_cursor. apply (core_ok_cursor EndDeferDrawing); [apply EndDefer_position|done].
Qed.
End write.
