(* ===== verification/TerminalCoreSafe.v ===== *)
(** Every operation of the terminal core keeps its invariant, unless it ends the
    process. *)

From stdpp Require Import strings.
From S2P Require Import Prelude DispatchTypes Utils OutputEngine TextColor TextAttribute SgrStack Viewport ViewportFacts OutputCell CharRow Row RowFacts Cursor TextBuffer TextBufferFacts TextNavFacts CircularFacts ScrollRowsFacts WriteFacts TerminalInput AdaptDispatch TerminalCore TerminalCoreFacts.

#[local] Open Scope Z_scope.

(** A program that keeps the invariant, and one that may also throw. *)
Definition safe {A} (m : prog TerminalCore A) : Prop := ∀ c, core_ok c → wp m (λ _, core_ok) c.
Definition safe_or_throws {A} (m : prog TerminalCore A) : Prop :=
  ∀ c, core_ok c → wpx catchable m (λ _, core_ok) core_ok c.

Lemma wp_try_log {W} (m : prog W bool) (Q : bool → W → Prop) w :
  wpx catchable m Q (Q false) w → wp (try_log m) Q w.
Proof. unfold wpx, wp, try_log. destruct (m w) as [|e w']; [done|]. by intros [-> ?]. Qed.

Lemma safe_try m : safe_or_throws m → safe (try_log m).
Proof. intros Hm c Hc. by apply wp_try_log, Hm. Qed.

Lemma safe_throws {A} (m : prog TerminalCore A) : safe m → safe_or_throws m.
Proof. intros Hm c Hc. by apply wpx_wp, Hm. Qed.

Lemma core_safe_bind {A B} (m : prog TerminalCore A) (f : A → prog TerminalCore B) :
  safe m → (∀ a, safe (f a)) → safe (m ≫= f).
Proof. intros Hm Hf c Hc. apply wp_bind. eapply wp_mono; [by apply Hm|]. intros a c' Hc'. by apply Hf. Qed.

Lemma safe_throws_bind {A B} (m : prog TerminalCore A) (f : A → prog TerminalCore B) :
  safe_or_throws m → (∀ a, safe_or_throws (f a)) → safe_or_throws (m ≫= f).
Proof.
  intros Hm Hf c Hc. apply wpx_bind. eapply wpx_mono; [by apply Hm| |done]. intros a c' Hc'. by apply Hf.
Qed.

Lemma core_safe_ret {A} (a : A) : safe (mret a).
Proof. by intros c Hc. Qed.

Lemma core_safe_gets {A} (f : TerminalCore → A) : safe (gets f).
Proof. by intros c Hc. Qed.

(** A change that the invariant does not see. *)
Lemma core_safe_modify f :
  (∀ c, core_ok c → buffer_ok (_buffer (f c)) ∧ same_geometry c (f c)) → safe (modify f).
Proof. intros Hf c Hc. apply wp_modify. destruct (Hf c Hc). by apply (core_ok_same c). Qed.

Lemma safe_notify k n : safe (call_back_if_set k n).
Proof.
  intros c Hc. apply wp_call_back_if. intros l. by apply (core_ok_same c); [|apply (co_buffer c Hc)|].
Qed.

Lemma safe_call_back k n : safe_or_throws (call_back k n).
Proof.
  intros c Hc. apply wpx_call_back; [|done]. intros l. by apply (core_ok_same c); [|apply (co_buffer c Hc)|].
Qed.

Lemma safe_cursor f : (∀ k, _cPosition (f k) = _cPosition k) → safe (on_buffer_cursor f).
Proof. intros Hf c Hc. apply wp_on_cursor. by apply core_ok_cursor. Qed.

Create HintDb core.
#[export] Hint Resolve core_safe_ret core_safe_gets safe_notify safe_throws safe_call_back : core.
#[export] Hint Resolve safe_try core_safe_bind safe_throws_bind | 5 : core.

(** Members that no part of the invariant mentions. *)
Ltac plain_change := apply core_safe_modify; let c := fresh "c" in let Hc := fresh "Hc" in intros c Hc; split; [apply (co_buffer c Hc)|done].

Section operations.
Context `{GlyphWidth} (d : LegacyDefaults).

(** *** Text and the cursor *)

Lemma core_safe_print text : safe (Terminal_PrintString d text).
Proof.
  apply safe_try, safe_throws_bind; [|auto with core]. intros c Hc. by apply WriteBuffer_safe.
Qed.

(** The cursor is put on a cell of the window. *)
Lemma SetCursorPosition_ok x y c (Q : bool → TerminalCore → Prop) :
  view_ok c →
  (∀ c' p, core_ok c' → cursor_position c' = p → 
     p = mkCOORD (std_clamp (i16 x) 0 (width c - 1)) (std_clamp (i16 (v_top c + y)) (v_top c) (v_bot c)) →
     c' = with_buffer (set_cursor (SetPosition p (_cursor (_buffer c))) (_buffer c)) c → Q true c') →
  wp (Terminal_SetCursorPosition x y) Q c.
Proof.
  intros Hc HQ. pose proof (co_width c Hc). pose proof (co_top c Hc). pose proof (co_bot c Hc). pose proof (core_rows_range c Hc).
  set (p := mkCOORD (std_clamp (i16 x) 0 (width c - 1)) (std_clamp (i16 (v_top c + y)) (v_top c) (v_bot c))).
  unfold Terminal_SetCursorPosition. apply wp_try_log, wpx_wp. repeat wp_step. eapply lift_ok.
  { unfold clamped, Clamp, IsValid. rewrite (Height_view c Hc), (Width_view c Hc), (Left_view c Hc).
    unfold v_height. rewrite (proj2 (Z.gtb_lt _ _)), (proj2 (Z.gtb_lt _ _)) by lia. cbn [negb andb X Y].
    change (Top (_mutableViewport c)) with (v_top c). change (BottomInclusive (_mutableViewport c)) with (v_bot c).
    assert (RightInclusive (_mutableViewport c) = width c - 1) as -> by by rewrite (co_view c Hc).
    rewrite Z.add_0_l. fold p. done. }
  wp_step. apply wp_on_cursor. wp_step. set (t' := set_cursor _ _).
  assert (cursor_position (with_buffer t' c) = p) as Ep by apply position_set.
  apply (HQ _ p); [|done|done|done]. split.
  - destruct Hc as [Ha1 Ha2 Ha3 Ha4 Ha5 Ha6 Ha7]. split; try done. by apply (buffer_part_ok (_buffer c)).
  - rewrite Ep. change (v_top c <= Y p <= v_bot c). unfold p, std_clamp. cbn [Y]. repeat case_match; zify_bool; lia.
  - rewrite Ep. change (0 <= X p <= width c + 8). unfold p, std_clamp. cbn [X]. repeat case_match; zify_bool; lia.
Qed.

Lemma safe_position x y : safe (Terminal_SetCursorPosition x y).
Proof. intros c Hc. apply SetCursorPosition_ok; [apply Hc|]. by intros. Qed.

(** A row whose flags change. *)
Lemma wrap_row_ok y b t (Q : unit → TextBuffer → Prop) :
  buffer_ok t → 0 <= y < TotalRowCount t →
  (∀ t' l, rows_only t t' → screen t !! Z.to_nat y = Some l →
     screen t' = <[Z.to_nat y := mkLine (l_cells l) (l_attrs l) (l_rendition l) b (l_padded l)]> (screen t) → Q tt t') →
  wp (on_row y (on_flags (SetWrapForced b))) Q t.
Proof.
  intros Hb Hy HQ. destruct (row_at t Hb y Hy) as (r & _ & Hr & Hs & _ & _ & Hrow).
  eapply on_row_ok; [done|done|done|]. apply wp_modify. cbn [fst snd].
  split; [by destruct Hrow|]. do 3 (split; [done|]). intros t' Hb' Hs' Hrest. by apply (HQ t' _ (conj Hb' Hrest) Hs).
Qed.

Lemma safe_line_feed b : safe (Terminal_CursorLineFeed b).
Proof.
  apply safe_try. intros c Hc. pose proof (co_line c Hc). pose proof (co_top c Hc). pose proof (co_bot c Hc). pose proof (core_rows_range c Hc).
  pose proof (co_width c Hc). pose proof (co_column c Hc).
  apply wpx_wp. repeat wp_step. apply wp_on_buffer. apply wrap_row_ok; [apply (co_buffer c Hc)|unfold row_count in *; lia|].
  intros t' l Ht _ _. pose proof (core_ok_rows c t' Hc Ht) as Hc1. wp_step. rewrite i16_small by lia.
  destruct (rows_only_rows _ t' (co_buffer c Hc) Ht) as [Er Ew].
  eapply wp_mono; [apply adjust_safe; [done|]|cbv beta; intros _ c2 [Hc2 _]; by wp_step].
  unfold target_ok, row_count, width in *. cbn [_buffer with_buffer X Y]. rewrite Er, Ew.
  change (v_top (with_buffer t' c)) with (v_top c). destruct b; lia.
Qed.

(** *** Erasing *)

Lemma fill_safe attr limit p wrap (Q : OutputCellIterator → TerminalCore → Prop) c :
  core_ok c → Y p = Y (cursor_position c) →
  (∀ it t, rows_only (_buffer c) t → core_ok (with_buffer t c) → Q it (with_buffer t c)) →
  wpx catchable (on_buffer (Write d (Iter_fill UNICODE_SPACE attr limit) p wrap)) Q core_ok c.
Proof.
  intros Hc Ey HQ. pose proof (co_line c Hc). pose proof (co_top c Hc). pose proof (co_bot c Hc).
  apply wpx_on_buffer, narrowing_catchable.
  eapply wpx_mono; [apply (Write_keeps d filling _ _ _ _ (λ _ t', rows_only (_buffer c) t'))| |].
  - apply (co_buffer c Hc).
  - apply fill_writes.
  - apply filling_fill.
  - unfold row_count in *. lia.
  - done.
  - cbv beta. intros it t' Ht. by apply HQ, core_ok_rows.
  - intros t' Ht. by apply core_ok_rows.
Qed.

Lemma core_safe_erase_characters n : safe (Terminal_EraseCharacters d n).
Proof. apply safe_try. intros c Hc. repeat wpx_step. cbv zeta. repeat wpx_step. apply fill_safe; [done|done|]. intros. by wpx_step. Qed.

Lemma safe_erase_line t : safe (Terminal_EraseInLine d t).
Proof.
  apply safe_try. intros c Hc. repeat wpx_step. case_match; [|by wpx_step]. case_match. repeat wpx_step.
  apply fill_safe; [done|done|]. intros. by wpx_step.
Qed.

(** *** Modes and the rest *)

Lemma safe_input f : safe (input_modes f).
Proof. apply core_safe_bind; [plain_change|auto with core]. Qed.

Lemma safe_attributes a : safe (Terminal_SetTextAttributes a).
Proof.
  intros c Hc. apply wp_on_buffer, wp_modify. apply (core_ok_same c); [done| |done].
  by apply (buffer_part_ok (_buffer c)), (co_buffer c Hc).
Qed.

Lemma safe_looks (f : Cursor → Cursor) : (∀ k, _cPosition (f k) = _cPosition k) → safe (on_buffer_cursor f;; mret true).
Proof. intros Hf. apply core_safe_bind; [by apply safe_cursor|auto with core]. Qed.

Lemma safe_bell : safe Terminal_WarningBell.
Proof. unfold Terminal_WarningBell. auto with core. Qed.

Lemma safe_title title : safe (Terminal_SetWindowTitle title).
Proof.
  unfold Terminal_SetWindowTitle. apply safe_try, safe_throws_bind; [auto with core|]. intros s.
  case_match; [auto with core|]. apply safe_throws_bind; [|auto with core]. apply safe_throws. plain_change.
Qed.

Lemma safe_table i color : safe (Terminal_SetColorTableEntry i color).
Proof.
  apply safe_try, safe_throws_bind; [auto with core|]. intros table. case_match.
  - apply safe_throws, core_safe_bind; [plain_change|auto with core].
  - intros c Hc. by apply wpx_throw.
Qed.

Lemma core_safe_style s : safe (Terminal_SetCursorStyle s).
Proof.
  apply core_safe_bind; [auto with core|]. intros st. case_match; [|auto with core]. case_match.
  apply core_safe_bind; [by apply safe_cursor|]. intros _. by apply safe_looks.
Qed.

Lemma safe_foreground color : safe (Terminal_SetDefaultForeground color).
Proof. apply core_safe_bind; [plain_change|auto with core]. Qed.

Lemma safe_background color : safe (Terminal_SetDefaultBackground color).
Proof.
  apply safe_try, safe_throws_bind; [apply safe_throws; plain_change|auto with core].
Qed.

Lemma safe_visibility b : safe (Terminal_SetCursorVisibility b).
Proof. apply safe_looks. intros k. unfold SetIsVisible. by rewrite RedrawCursor_position. Qed.

Lemma safe_blinking b : safe (Terminal_EnableCursorBlinking b).
Proof. apply core_safe_bind; [by apply safe_cursor|]. intros _. by apply safe_looks. Qed.

Lemma safe_link suffix uri params : safe (Terminal_AddHyperlink suffix uri params).
Proof.
  intros c Hc. unfold Terminal_AddHyperlink. repeat wp_step.
  destruct (GetHyperlinkId_ suffix uri params (_buffer c)) as [id t] eqn:E. repeat wp_step.
  assert (∃ m k i, t = set_links m k i (_buffer c)) as (m & k & i & ->).
  { unfold GetHyperlinkId_ in E. repeat case_match; simplify_eq; eauto. }
  apply (core_ok_same c); [done| |done]. by apply (buffer_part_ok (_buffer c)), (co_buffer c Hc).
Qed.

Lemma safe_end_link : safe Terminal_EndHyperlink.
Proof.
  intros c Hc. unfold Terminal_EndHyperlink. repeat wp_step. apply wp_on_buffer, wp_modify. wp_step.
  apply (core_ok_same c); [done| |done]. by apply (buffer_part_ok (_buffer c)), (co_buffer c Hc).
Qed.

Lemma safe_taskbar state progress : safe (Terminal_SetTaskbarProgress state progress).
Proof.
  apply core_safe_bind; [auto with core|]. intros old. apply core_safe_bind; [plain_change|auto with core].
Qed.

(** The stack of attributes. *)
Lemma core_ok_sgr st c : core_ok c → (∃ l, holds st l) → core_ok (with_sgrStack st c).
Proof. intros [[Ha1 Ha2 Ha3 Ha4 Ha5 Ha6 Ha7] Ha8 Ha9] Hl. split; [by split|done|done]. Qed.

Lemma core_safe_push options : safe (Terminal_PushGraphicsRendition options).
Proof.
  intros c Hc. unfold Terminal_PushGraphicsRendition. repeat wp_step. destruct (co_sgr c Hc) as [l Hl].
  destruct (Push_refines (Terminal_GetTextAttributes c) options _ _ Hl) as (st & E & Hst).
  unfold on_sgrStack, on_part, wp. rewrite E. apply core_ok_sgr; eauto.
Qed.

Lemma core_safe_pop : safe Terminal_PopGraphicsRendition.
Proof.
  intros c Hc. unfold Terminal_PopGraphicsRendition. repeat wp_step. destruct (co_sgr c Hc) as [l Hl].
  destruct (Pop_refines (Terminal_GetTextAttributes c) _ _ Hl) as (st & E & Hst).
  unfold on_sgrStack, on_part. unfold wp at 1. rewrite E. repeat wp_step.
  eapply wp_mono; [apply safe_attributes, core_ok_sgr; eauto|]. cbv beta. intros _ c' Hc'. by wp_step.
Qed.
End operations.
