(* ===== verification/TerminalCoreErase.v ===== *)
(** Moving and erasing cells of the terminal core. *)

From stdpp Require Import strings.
From S2P Require Import Prelude DispatchTypes Utils OutputEngine TextColor TextAttribute SgrStack Viewport ViewportFacts OutputCell CharRow Row RowFacts Cursor TextBuffer TextBufferFacts TextNavFacts CircularFacts ScrollRowsFacts WriteFacts AdaptDispatch TerminalCore TerminalCoreFacts TerminalCoreSafe.

#[local] Open Scope Z_scope.

(** ** Writes *)

(** Only cells were written. *)
Definition written (c c' : TerminalCore) : Prop := ∃ t, rows_only (_buffer c) t ∧ c' = with_buffer t c.

Lemma written_refl c : core_ok c → written c c.
Proof. intros Hc. exists (_buffer c). split; [by apply rows_only_refl, (co_buffer c Hc)|by destruct c]. Qed.

Lemma written_trans c1 c2 c3 : written c1 c2 → written c2 c3 → written c1 c3.
Proof. intros (t1 & H1 & ->) (t2 & H2 & ->). exists t2. split; [by eapply rows_only_trans|done]. Qed.

Lemma written_ok c c' : core_ok c → written c c' → core_ok c'.
Proof. intros Hc (t & Ht & ->). by apply core_ok_rows. Qed.

Lemma written_same c c' : core_ok c → written c c' →
  row_count c' = row_count c ∧ width c' = width c ∧ cursor_position c' = cursor_position c.
Proof.
  intros Hc (t & Ht & ->). destruct (rows_only_rows _ t (co_buffer c Hc) Ht) as [Er Ew]. do 2 (split; [done|]).
  destruct Ht as [_ E]. unfold cursor_position. cbn. by injection E as _ -> _.
Qed.

(** ** Copying cells of a line *)

Section copy.
Context `{GlyphWidth} (d : LegacyDefaults).

Lemma GetCellDataAt_outside t p :
  buffer_ok t → 0 <= Y p < TotalRowCount t → ¬ inside (_size t) p → GetCellDataAt p t = inl InvalidArg.
Proof.
  intros Hok HY Hout. destruct (row_at t Hok (Y p) HY) as (r & Eg & _).
  unfold GetCellDataAt, GetCellDataAt_limits. rewrite Eg. cbn [mbind result_bind].
  by rewrite (IsInBounds_viewport_self t Hok), (IsInBounds_ok _ (size_ok t Hok)), bool_decide_false.
Qed.

(** The cells of [k] columns of line [y]. *)
Definition line_part (x y k : Z) : Viewport := mkViewport (mkRect x y (x + k - 1) y).

Lemma line_part_from x y k :
  -32768 <= x → 0 <= k → x + k <= 32767 → -32768 <= x + k - 1 → 0 <= y < 32767 →
  FromDimensions (mkCOORD x y) (mkCOORD k 1) = line_part x y k.
Proof.
  intros. unfold FromDimensions, FromExclusive, FromInclusive, line_part. cbn.
  rewrite !(i16_small (x + k)), !(i16_small (y + 1)), !i16_small by (rewrite ?i16_small; lia). do 2 f_equal. lia.
Qed.

Lemma line_part_ok x y k : -32768 < x → 0 < k <= 32767 → x + k <= 32767 → 0 <= y < 32767 → vp_ok (line_part x y k).
Proof. intros. unfold vp_ok, Left, Top, RightInclusive, BottomInclusive. cbn. lia. Qed.

Lemma line_part_area x y k : area (line_part x y k) = k.
Proof. unfold area, columns, rows, Left, Top, RightInclusive, BottomInclusive. cbn. lia. Qed.

Lemma line_part_row x y k dir j : 0 <= j < k → Y (walk_pos (line_part x y k) dir j) = y.
Proof.
  intros Hj. unfold walk_pos, columns, Left, Top, RightInclusive, BottomInclusive. cbn.
  rewrite Z.div_small by lia. destruct (wy dir); lia.
Qed.

(** One cell is read and written, or there is nothing to read. *)
Lemma copy_cell_ok {A} sourcePos targetPos c (m : prog TerminalCore A) (Q : A → TerminalCore → Prop) (E : TerminalCore → Prop) :
  core_ok c → 0 <= Y sourcePos < row_count c → 0 <= Y targetPos < row_count c →
  (∀ c', written c c' → wpx catchable m Q E c') → (∀ c', written c c' → E c') →
  wpx catchable (t ← gets _buffer; view ← lift (GetCellDataAt sourcePos t); it ← lift (Iter_cells [OutputCell_of_view view]);
       _ ← on_buffer (Write d it targetPos (Some true)); m) Q E c.
Proof.
  intros Hc Hs Ht HQ HE. pose proof (co_buffer c Hc) as Hb. repeat wpx_step.
  destruct (decide (inside (_size (_buffer c)) sourcePos)) as [Hin|Hout].
  - destruct (GetCellDataAt_ok _ _ Hb Hin) as (v & -> & _ & Hch & Hst). apply wpx_wp. eapply lift_ok; [done|].
    destruct (Iter_cells_one v Hch Hst) as (it & -> & Hit). wpx_step. apply wpx_wp. eapply lift_ok; [done|].
    wpx_step. apply wpx_on_buffer, narrowing_catchable.
    eapply wpx_mono; [apply (Write_keeps d (one_cell (OutputCell_of_view v)) _ _ _ _ (λ _ t', rows_only (_buffer c) t')); [done|apply one_cell_writes|done|exact Ht|done]|..].
    + cbv beta. intros it' t' Ht'. apply HQ. by exists t'.
    + intros t' Ht'. apply HE. by exists t'.
  - rewrite GetCellDataAt_outside by done. apply wpx_throw; [done|]. apply HE. by apply written_refl.
Qed.

(** A walk of [k] steps. *)
Definition steps (v : Viewport) (dir : WalkDir) (k : Z) : Prop :=
  ∀ j, 0 <= j < k → ∃ p, WalkInBounds v (walk_pos v dir j) dir false = inr (j + 1 <? k, p) ∧ (j + 1 < k → p = walk_pos v dir (j + 1)).

Lemma line_part_steps x y k dir : vp_ok (line_part x y k) → steps (line_part x y k) dir k.
Proof.
  intros Hv j Hj. rewrite (WalkInBounds_step _ Hv) by (by rewrite line_part_area). rewrite line_part_area.
  destruct (Z.ltb_spec (j + 1) k); eexists; (split; [done|]); [done|lia].
Qed.

(** The line part that starts at the least column, walked to the right. *)
Lemma far_left_steps y k dir : 0 < k < 32767 → 0 <= y < 32767 → wx dir = LeftToRight → steps (line_part (-32768) y k) dir k.
Proof.
  intros Hk Hy Hd j Hj.
  assert (∀ i, 0 <= i < k → walk_pos (line_part (-32768) y k) dir i = mkCOORD (-32768 + i) y) as Hw.
  { intros i Hi. unfold walk_pos, columns, Left, Top, RightInclusive, BottomInclusive. cbn -[Z.div Z.modulo]. rewrite Hd.
    rewrite Z.mod_small, Z.div_small by lia. destruct (wy dir); f_equal; lia. }
  rewrite Hw by done. unfold WalkInBounds, WalkInBoundsCircular.
  assert (IsInBounds (line_part (-32768) y k) (mkCOORD (-32768 + j) y) false = true) as ->.
  { unfold IsInBounds, RightExclusive, BottomExclusive, Left, Top. cbn. rewrite !i16_small by lia. lia. }
  rewrite Hd. cbn [negb andb X Y line_part _sr rLeft rTop rRight rBottom Left RightInclusive mbind result_bind].
  unfold RightInclusive, Left. cbn [_sr rLeft rRight line_part]. destruct (Z.eqb_spec (-32768 + j) (-32768 + k - 1)).
  - rewrite (proj2 (Z.ltb_ge (j + 1) k)) by lia. unfold walk_row, BottomInclusive, Top. cbn [_sr rTop rBottom line_part andb].
    rewrite !i16_small by lia. eexists.
    destruct (wy dir); [replace (y + 1 >? y) with true by (symmetry; apply Z.gtb_lt; lia)|rewrite (proj2 (Z.ltb_lt (y - 1) y)) by lia];
      (split; [done|lia]).
  - rewrite (proj2 (Z.ltb_lt (j + 1) k)) by lia. rewrite i16_small by lia. eexists. split; [done|]. intros _. rewrite Hw by lia. f_equal. lia.
Qed.

Lemma copy_cells_ok x x' y k dir fuel : ∀ c j,
  core_ok c → 0 <= y < row_count c → steps (line_part x y k) dir k → k = 1 ∨ steps (line_part x' y k) dir k →
  0 <= j < k → k - j <= Z.of_nat fuel →
  wpx catchable (copy_cells d fuel (line_part x y k) (line_part x' y k) dir
     (walk_pos (line_part x y k) dir j) (walk_pos (line_part x' y k) dir j)) (λ _, written c) (written c) c.
Proof.
  induction fuel as [|fuel IH]; intros c j Hc Hy Hs Ht Hj Hf; [lia|]. cbn [copy_cells].
  apply copy_cell_ok; [done|by rewrite line_part_row..| |done]. intros c1 H1.
  destruct (Hs j Hj) as (p & Ep & Hp). wpx_step. rewrite Ep. apply wpx_wp. eapply lift_ok; [done|].
  destruct (Z.ltb_spec (j + 1) k); [|by wpx_step]. destruct Ht as [->|Ht]; [lia|].
  destruct (Ht j Hj) as (p' & Ep' & Hp'). wpx_step. rewrite Ep'. apply wpx_wp. eapply lift_ok; [done|].
  rewrite (proj2 (Z.ltb_lt _ _)) by done. rewrite Hp, Hp' by done. destruct (written_same c c1 Hc H1) as (Er & _).
  eapply wpx_mono; [apply IH; [by eapply written_ok|by rewrite Er|done|by right|lia|lia]|..]; cbv beta; intros;
    by eapply written_trans.
Qed.

(** ** Inserting and deleting *)

(** The place of [k] cells from column [x'] on can be named. *)
Definition has_place (x x' k : Z) : Prop := x' + k <= 32767 ∧ -32768 <= x' ∧ (x' = -32768 → x' < x) ∨ k = 1 ∧ x' = 32767.

Lemma line_part_place x x' y k :
  has_place x x' k → 0 < k < 32767 → 0 <= y < 32767 → FromDimensions (mkCOORD x' y) (mkCOORD k 1) = line_part x' y k.
Proof.
  intros [(H1 & H2 & _)|[-> ->]] Hk Hy; [apply line_part_from; lia|].
  unfold FromDimensions, FromExclusive, FromInclusive, line_part. cbn [X Y rLeft rTop rRight rBottom]. change (i16 (i16 (32767 + 1) - 1)) with 32767.
  rewrite !i16_small by (rewrite ?i16_small; lia). do 2 f_equal. lia.
Qed.

(** A move of the rest of a line. *)
Lemma move_line_ok x x' c :
  core_ok c → let y := Y (cursor_position c) in
  x < width c → width c - x < 32767 → -32768 < x → has_place x x' (width c - x) →
  wpx catchable (move_line d (mkCOORD x y) (mkCOORD x' y)) (λ b c', b = true ∧ written c c') (written c) c.
Proof.
  intros Hc y Hw Hk Hx Hpl. pose proof (co_line c Hc). pose proof (co_top c Hc). pose proof (co_bot c Hc). pose proof (core_rows_range c Hc).
  pose proof (co_width c Hc). unfold move_line. repeat wpx_step. rewrite (Right_view c Hc). cbn [X]. unfold UIntToShort.
  rewrite !(wrapu_small 32) by lia. rewrite (proj2 (Z.leb_le _ _)) by lia. set (k := width c - x) in *.
  assert (0 <= y < 32767) as Hy by (subst y; lia). assert (0 < k < 32767) as Hk' by lia.
  rewrite (line_part_from x) by (subst k; lia). assert (vp_ok (line_part x y k)) as Hs by (apply line_part_ok; subst k; lia).
  rewrite (Dimensions_ok _ Hs). assert (columns (line_part x y k) = k ∧ rows (line_part x y k) = 1) as [-> ->].
  { unfold columns, rows, Left, Top, RightInclusive, BottomInclusive. cbn. lia. }
  rewrite (line_part_place x) by done. cbv zeta. set (dir := DetermineWalkDirection _ _).
  assert (∀ x0, GetWalkOrigin (line_part x0 y k) dir = walk_pos (line_part x0 y k) dir 0) as Ho.
  { intros x0. unfold GetWalkOrigin, walk_pos. rewrite Z.mod_0_l, Z.div_0_l; [destruct (wx dir), (wy dir); f_equal; lia|..];
      unfold columns, Left, RightInclusive; cbn; lia. }
  rewrite !Ho. wpx_step.
  eapply wpx_mono; [apply copy_cells_ok; [done|subst y; lia|by apply line_part_steps| |lia|lia]| |done].
  - destruct Hpl as [(Hp1 & Hp2 & Hp3)|[? ?]]; [right|by left]. destruct (decide (x' = -32768)) as [->|].
    + apply far_left_steps; [done|done|]. unfold dir. cbn. rewrite (proj2 (Z.ltb_lt _ _)); [done|]. by apply Hp3.
    + apply line_part_steps, line_part_ok; lia.
  - cbv beta. intros _ c' Hc'. by wpx_step.
Qed.

(** No cells are left of the line, or none can be named. *)
Lemma move_line_none x x' y c :
  32767 < u32 (width c - x) → core_ok c →
  wpx catchable (move_line d (mkCOORD x y) (mkCOORD x' y)) (λ b c', b = false ∧ written c c') (written c) c.
Proof.
  intros Hx Hc. unfold move_line. repeat wpx_step. rewrite (Right_view c Hc). cbn [X]. unfold UIntToShort.
  rewrite (proj2 (Z.leb_gt _ _)) by lia. wpx_step. split; [done|]. by apply written_refl.
Qed.
(** The move to the left of no cells at the end of the line throws. *)
Lemma move_line_empty x' c (Q : bool → TerminalCore → Prop) :
  core_ok c → let y := Y (cursor_position c) in x' < width c →
  wpx catchable (move_line d (mkCOORD (width c) y) (mkCOORD x' y)) Q (written c) c.
Proof.
  intros Hc y Hx. pose proof (co_line c Hc). pose proof (co_top c Hc). pose proof (co_bot c Hc). pose proof (core_rows_range c Hc).
  pose proof (co_width c Hc). unfold move_line. repeat wpx_step. rewrite (Right_view c Hc). cbn [X]. unfold UIntToShort.
  rewrite Z.sub_diag. change (if u32 0 <=? 32767 then Some (u32 0) else None) with (Some 0). cbn iota. rewrite line_part_from by (subst y; lia). cbv zeta.
  set (target := FromDimensions _ _). assert (wx (DetermineWalkDirection (line_part (width c) y 0) target) = LeftToRight) as Ed.
  { cbn. by rewrite (proj2 (Z.ltb_lt _ _)) by lia. }
  set (dir := DetermineWalkDirection _ _) in *. clearbody dir. set (ps := GetWalkOrigin (line_part _ _ _) dir).
  assert (ps = mkCOORD (width c) y) as -> by (unfold ps, GetWalkOrigin; rewrite Ed; cbn; by destruct (wy dir)).
  cbn [Z.to_nat copy_cells]. repeat wpx_step. rewrite GetCellDataAt_outside.
  - apply wpx_throw; [done|]. by apply written_refl.
  - apply (co_buffer c Hc).
  - cbn. unfold row_count in *. subst y. lia.
  - rewrite (inside_size _ (co_buffer c Hc)). unfold width in *. cbn. lia.
Qed.

Lemma u32_negative z : - 2 ^ 31 <= z < 0 → 32767 < u32 z.
Proof. intros. unfold wrapu. rewrite <-(Z.mod_unique z (2 ^ 32) (-1) (z + 2 ^ 32)) by lia. lia. Qed.

Lemma i16_high z : 32767 < z <= 65535 → i16 z = z - 65536.
Proof.
  intros. unfold wraps. change (2 ^ 16) with 65536. change (2 ^ (16 - 1)) with 32768.
  rewrite <-(Z.mod_unique (z + 32768) 65536 1 (z + 32768 - 65536)) by lia. lia.
Qed.

(** The calls that end the process. *)
Definition insert_fatal (n : Z) (c : TerminalCore) : Prop :=
  let x := X (cursor_position c) in
  x = width c ∧ x + n <= 32767 ∨ x + 1 < width c ∧ x + n <= 32767 ∧ 32767 < width c + n.
Definition delete_fatal (n : Z) (c : TerminalCore) : Prop := width c + 32769 <= X (cursor_position c) + n.

Lemma safe_delete n c :
  core_ok c → 1 <= n <= 32767 → ¬ delete_fatal n c → wp (Terminal_DeleteCharacter d n) (λ _, core_ok) c.
Proof.
  intros Hc Hn Hf. unfold delete_fatal in Hf. pose proof (co_column c Hc). pose proof (co_width c Hc). set (x := X (cursor_position c)) in *.
  apply wp_try_log. unfold SizeTToShort. rewrite (proj2 (Z.leb_le _ _)) by lia. wpx_step. wpx_step.
  apply (wpx_mono _ _ (λ _, written c) _ (written c)); [|intros; by eapply written_ok..].
  assert (cursor_position c = mkCOORD x (Y (cursor_position c))) as Ep by (by destruct (cursor_position c)).
  change (X (cursor_position c)) with x.
  match goal with |- wpx _ (move_line d ?a _) _ _ _ =>
    replace (move_line d a (cursor_position c)) with (move_line d a (mkCOORD x (Y (cursor_position c)))) by by rewrite <-Ep end.
  destruct (decide (x + n <= 32767)).
  - rewrite i16_small by lia. destruct (Z.lt_trichotomy (x + n) (width c)) as [?|[E|?]].
    + eapply wpx_mono; [apply (move_line_ok _ x); [done|unfold has_place; lia..]|naive_solver|done].
    + rewrite E. apply (move_line_empty x); [done|lia].
    + eapply wpx_mono; [apply move_line_none; [apply u32_negative; lia|done]|naive_solver|done].
  - rewrite i16_high by lia. eapply wpx_mono; [apply move_line_none; [|done]|naive_solver|done].
    rewrite wrapu_small by lia. lia.
Qed.

Lemma safe_insert n c :
  core_ok c → 1 <= n <= 32767 → ¬ insert_fatal n c → wp (Terminal_InsertCharacter d n) (λ _, core_ok) c.
Proof.
  intros Hc Hn Hf. unfold insert_fatal in Hf. pose proof (co_column c Hc). pose proof (co_width c Hc). set (x := X (cursor_position c)) in *.
  apply wp_try_log. unfold SizeTToShort. rewrite (proj2 (Z.leb_le _ _)) by lia. wpx_step. wpx_step. wpx_step.
  assert (cursor_position c = mkCOORD x (Y (cursor_position c))) as Ep by (by destruct (cursor_position c)). fold x.
  assert (∀ c', written c c' → core_ok c') as Hk by (intros; by eapply written_ok).
  eapply wpx_mono; [instantiate (1 := written c); instantiate (1 := λ _, written c)| |done].
  - rewrite Ep at 1. destruct (Z.lt_trichotomy x (width c)) as [?|[E|?]].
    + destruct (decide (x + n <= 32767)); [rewrite i16_small by lia|rewrite i16_high by lia];
        (eapply wpx_mono; [apply move_line_ok; [done|unfold has_place; lia..]|naive_solver|done]).
    + rewrite E. rewrite i16_high by lia. apply move_line_empty; [done|lia].
    + eapply wpx_mono; [apply move_line_none; [apply u32_negative; lia|done]|naive_solver|done].
  - cbv beta. intros [] c' Hc'; [|wpx_step; by apply Hk]. destruct (written_same c c' Hc Hc') as (_ & _ & E). repeat wpx_step.
    apply fill_safe; [by apply Hk|by rewrite E|]. intros. by wpx_step.
Qed.
(** *** What ends the process *)

Definition ends {W A} (m : prog W A) (w : W) : Prop := ∃ w', m w = Throw FailFast w'.

Lemma ends_bind {W A B} (m : prog W A) (f : A → prog W B) a w w' : m w = Ok a w' → ends (f a) w' → ends (m ≫= f) w.
Proof. intros E [w2 E2]. exists w2. unfold mbind, prog_bind. by rewrite E. Qed.

Lemma ends_first {W A B} (m : prog W A) (f : A → prog W B) w : ends m w → ends (m ≫= f) w.
Proof. intros [w' E]. exists w'. unfold mbind, prog_bind. by rewrite E. Qed.

Lemma ends_try {W} (m : prog W bool) w : ends m w → ends (try_log m) w.
Proof. intros [w' E]. exists w'. unfold try_log. by rewrite E. Qed.

Lemma ends_lift {W A B} (r : exn + A) (f : A → prog W B) w : r = inl FailFast → ends (lift r ≫= f) w.
Proof. intros ->. by exists w. Qed.

Lemma write_nothing it p c :
  core_ok c → X p < 0 ∨ width c <= X p → on_buffer (Write d it p (Some true)) c = Ok it c.
Proof.
  intros Hc Hp. pose proof (co_buffer c Hc) as Hb. pose proof (core_rows_range c Hc). unfold on_buffer, on_part, Write.
  unfold mbind at 1, prog_bind at 1. cbn [gets]. rewrite (Height_buffer c Hc).
  destruct (Z.to_nat (row_count c)) as [|fuel] eqn:Ef; [lia|]. cbn [write_lines].
  rewrite (IsInBounds_ok _ (size_ok _ Hb)), bool_decide_false, andb_false_r; [by destruct c|].
  rewrite (inside_size _ Hb). unfold width in *. lia.
Qed.

(** A walk that leaves a viewport it is not in. *)
Lemma copy_cells_ends source target dir ps pt fuel c :
  core_ok c → inside (_size (_buffer c)) ps → X pt < 0 ∨ width c <= X pt →
  WalkInBounds source ps dir false = inl FailFast
  ∨ (∃ p, WalkInBounds source ps dir false = inr (true, p)) ∧ WalkInBounds target pt dir false = inl FailFast →
  ends (copy_cells d (S fuel) source target dir ps pt) c.
Proof.
  intros Hc Hs Ht Hw. cbn [copy_cells]. destruct (GetCellDataAt_ok _ _ (co_buffer c Hc) Hs) as (v & Ev & _ & Hch & Hst).
  destruct (Iter_cells_one v Hch Hst) as (it & Ei & _).
  eapply ends_bind; [done|]. rewrite Ev. eapply ends_bind; [done|]. rewrite Ei. eapply ends_bind; [done|].
  eapply ends_bind; [by apply write_nothing|]. destruct Hw as [E|[[p E] E']].
  - by apply ends_lift.
  - rewrite E. eapply ends_bind; [done|]. by apply ends_lift.
Qed.

Lemma outside_walk v p dir : ¬ (Left v <= X p < RightExclusive v) → WalkInBounds v p dir false = inl FailFast.
Proof.
  intros Hp. unfold WalkInBounds, WalkInBoundsCircular, IsInBounds. cbn [andb].
  destruct (Z.geb_spec (X p) (Left v)), (Z.ltb_spec (X p) (RightExclusive v)); cbn; try done. lia.
Qed.

(** A move to the right of columns [x] to the last whose place wraps around. *)
Lemma move_line_ends x x' c :
  core_ok c → let y := Y (cursor_position c) in let k := width c - x in
  -32768 < x <= x' → x' <= 32767 → 0 <= k <= 32767 →
  k = 0 ∧ x' + k <= 32767 ∧ x < x' ∨ 2 <= k ∧ 32767 < x' + k →
  ends (move_line d (mkCOORD x y) (mkCOORD x' y)) c.
Proof.
  intros Hc y k Hx Hx' Hk Hcase. pose proof (co_line c Hc). pose proof (co_top c Hc). pose proof (co_bot c Hc). pose proof (core_rows_range c Hc).
  pose proof (co_width c Hc). unfold move_line. eapply ends_bind; [done|]. rewrite (Right_view c Hc). cbn [X]. unfold UIntToShort.
  fold k. rewrite !(wrapu_small 32) by lia. rewrite (proj2 (Z.leb_le _ _)) by lia. assert (0 <= y < 32767) as Hy by (subst y; lia).
  rewrite (line_part_from x) by (subst k; lia). cbv zeta. apply ends_first.
  assert (Dimensions (line_part x y k) = mkCOORD k 1) as ->.
  { unfold Dimensions, Width, Height, RightExclusive, BottomExclusive, Left, Top. cbn. rewrite !i16_small by (rewrite ?i16_small; subst k; lia).
    f_equal; lia. }
  set (target := FromDimensions _ _).
  assert (Left target = x' ∧ Top target = y ∧ RightInclusive target = i16 (i16 (x' + k) - 1) ∧ RightExclusive target = i16 (i16 (i16 (x' + k) - 1) + 1)) as (El & Et & Er & Ee) by done.
  assert (wx (DetermineWalkDirection (line_part x y k) target) = RightToLeft) as Hd.
  { unfold DetermineWalkDirection, Origin. cbn [wx X]. rewrite El. unfold Left. cbn. by rewrite (proj2 (Z.ltb_ge _ _)) by lia. }
  set (dir := DetermineWalkDirection _ _) in *. clearbody dir.
  assert (GetWalkOrigin (line_part x y k) dir = mkCOORD (width c - 1) y) as ->.
  { unfold GetWalkOrigin. rewrite Hd. unfold RightInclusive, Top, BottomInclusive. cbn. subst k. destruct (wy dir); f_equal; lia. }
  assert (X (GetWalkOrigin target dir) = i16 (i16 (x' + k) - 1)) as Ext by (unfold GetWalkOrigin; by rewrite Hd).
  apply copy_cells_ends; [done|apply (inside_size _ (co_buffer c Hc)); unfold width, row_count in *; cbn; subst y; lia|..].
  - rewrite Ext. destruct Hcase as [(E0 & ? & ?)|[? ?]].
    + right. rewrite !i16_small by (rewrite ?i16_small; lia). subst k. lia.
    + rewrite (i16_high (x' + k)) by lia. destruct (decide (x' + k = 32768)) as [->|]; [right; change (i16 (32768 - 65536 - 1)) with 32767; lia|].
      left. rewrite i16_small by lia. lia.
  - destruct Hcase as [(E0 & ? & ?)|[? ?]].
    + left. apply outside_walk. unfold Left, RightExclusive. cbn. rewrite i16_small by lia. subst k. lia.
    + right. split.
      * assert (vp_ok (line_part x y k)) as Hs by (apply line_part_ok; subst k; lia).
        destruct (line_part_steps x y k dir Hs 0) as (p & Ep & _); [lia|]. exists p. rewrite (proj2 (Z.ltb_lt _ _)) in Ep by lia. rewrite <-Ep. f_equal.
        unfold walk_pos. rewrite Hd, Z.mod_0_l, Z.div_0_l by (unfold columns, Left, RightInclusive; cbn; lia).
        unfold RightInclusive, Top, BottomInclusive. cbn. subst k. destruct (wy dir); f_equal; lia.
      * apply outside_walk. rewrite Ext, El, Ee. rewrite (i16_high (x' + k)) by lia.
        destruct (decide (x' + k = 32768)) as [->|]; [change (i16 (32768 - 65536 - 1)) with 32767; change (i16 (32767 + 1)) with (-32768); lia|].
        rewrite (i16_small (x' + k - 65536 - 1)) by lia. lia.
Qed.

Lemma insert_ends n c : core_ok c → 1 <= n <= 32767 → insert_fatal n c → ends (Terminal_InsertCharacter d n) c.
Proof.
  intros Hc Hn Hf. unfold insert_fatal in Hf. pose proof (co_column c Hc). pose proof (co_width c Hc).
  apply ends_try. unfold SizeTToShort. rewrite (proj2 (Z.leb_le _ _)) by lia. eapply ends_bind; [done|]. apply ends_first.
  assert (cursor_position c = mkCOORD (X (cursor_position c)) (Y (cursor_position c))) as Ep by (by destruct (cursor_position c)).
  rewrite i16_small by lia. rewrite Ep at 1. apply move_line_ends; [done|lia..].
Qed.

Lemma delete_ends n c : core_ok c → 1 <= n <= 32767 → delete_fatal n c → ends (Terminal_DeleteCharacter d n) c.
Proof.
  intros Hc Hn Hf. unfold delete_fatal in Hf. pose proof (co_column c Hc). pose proof (co_width c Hc).
  apply ends_try. unfold SizeTToShort. rewrite (proj2 (Z.leb_le _ _)) by lia. eapply ends_bind; [done|].
  set (x := X (cursor_position c)) in *.
  assert (cursor_position c = mkCOORD x (Y (cursor_position c))) as Ep by (by destruct (cursor_position c)).
  match goal with |- ends (move_line d ?a _) _ =>
    replace (move_line d a (cursor_position c)) with (move_line d a (mkCOORD x (Y (cursor_position c)))) by by rewrite <-Ep end.
  rewrite i16_high by lia. apply move_line_ends; [done|lia..].
Qed.
End copy.

(** ** Erasing the display *)

(** The window and the cursor after the last part of [EraseInDisplay]. *)
Record moved_to (newTop : Z) (rel : COORD) (c c' : TerminalCore) : Prop := {
  mv_ok : core_ok c';
  mv_screen : screen (_buffer c') = screen (_buffer c);
  mv_size : _size (_buffer c') = _size (_buffer c);
  mv_top : v_top c' = newTop;
  mv_height : v_height c' = v_height c;
  mv_offset : _scrollOffset c' = _scrollOffset c;
  mv_cursor : cursor_position c'
    = mkCOORD (std_clamp (i16 (X rel)) 0 (width c - 1)) (std_clamp (i16 (newTop + Y rel)) newTop (newTop + v_height c - 1))
}.

Lemma move_viewport_ok newTop rel c (Q : bool → TerminalCore → Prop) :
  view_ok c → 0 <= newTop → newTop + v_height c <= row_count c → (∀ c', moved_to newTop rel c c' → Q true c') →
  wp (move_viewport newTop (newTop + v_height c) rel) Q c.
Proof.
  intros Hc Ht Hb HQ. pose proof (core_rows_range c Hc). pose proof (co_width c Hc). pose proof (co_top c Hc). pose proof (co_scroll c Hc).
  unfold move_viewport. wp_step. wp_step. rewrite (Left_view c Hc), (Right_view c Hc).
  assert (FromExclusive (mkRect 0 newTop (width c) (newTop + v_height c))
    = mkViewport (mkRect 0 newTop (width c - 1) (newTop + v_height c - 1))) as ->.
  { unfold FromExclusive, FromInclusive. cbn. unfold v_height in *. by rewrite !i16_small by lia. }
  set (v := mkViewport _).
  set (c1 := with_viewport v c).
  assert (v_top c1 = newTop) as Et by done.
  assert (v_bot c1 = newTop + v_height c - 1) as Eb by done.
  assert (v_height c1 = v_height c) as Eh by (unfold v_height in *; lia).
  assert (view_ok c1) as Hc1.
  { destruct Hc as [Ha1 Ha2 Ha3 Ha4 Ha5 Ha6 Ha7]. split; rewrite ?Et, ?Eb, ?Eh; try done; unfold v_height in *; try lia.
    change (row_count c1) with (row_count c). lia. }
  wp_step. apply wp_notify_scroll; [done|]. intros l. wp_step. apply SetCursorPosition_ok.
  { by destruct Hc1; split. }
  intros c' p Hc' Ep Ep' ->. wp_step. apply HQ. set (c' := with_buffer _ _) in *. split; try done.
  rewrite Ep, Ep'. change (v_top (with_notified l c1)) with (v_top c1). change (v_bot (with_notified l c1)) with (v_bot c1).
  by rewrite Et, Eb.
Qed.

(** The last text of the window. *)
Lemma last_in_view v t :
  buffer_ok t → 0 <= Top v <= BottomInclusive v → BottomInclusive v < TotalRowCount t →
  ∃ p, GetLastNonSpaceCharacter (Some v) t = inr p ∧ Top v <= Y p <= BottomInclusive v ∧ 0 <= X p < t_width t
    ∧ (∀ q, inside (_size t) q → Y p < Y q <= BottomInclusive v → blank_cell t q).
Proof.
  intros Hb Ht Hbot. unfold GetLastNonSpaceCharacter. change (default (_size t) (Some v)) with v. pose proof (b_width t Hb).
  destruct (last_text_row_ok t Hb (Z.to_nat (BottomInclusive v - Top v)) (BottomInclusive v)) as (x & y & -> & Hy & Hx & Hbl & _); [lia|lia|].
  eexists. split; [done|]. cbn. split; [lia|]. split; [lia|]. intros q Hq Hyq. apply Hbl; [done|lia|lia].
Qed.

(** The rows that are reset. *)
Lemma reset_rows_ok n : ∀ row t (Q : unit → TextBuffer → Prop),
  buffer_ok t → 0 <= row → row + Z.of_nat n <= TotalRowCount t →
  (∀ t', rows_only t t' →
     (∀ y, 0 <= y < TotalRowCount t → screen t' !! Z.to_nat y =
        if decide (row <= y < row + Z.of_nat n) then Some (blank_line (t_width t) (_currentAttributes t)) else screen t !! Z.to_nat y) →
     Q tt t') →
  wp (reset_rows n row) Q t.
Proof.
  induction n as [|n IH]; intros row t Q Hb Hr Hn HQ; cbn [reset_rows].
  - wp_step. apply HQ; [done|]. intros y Hy. by rewrite decide_False by lia.
  - pose proof (b_height t Hb). destruct (row_at t Hb row ltac:(lia)) as (r & _ & Hrow & _ & _ & Hw & Hok).
    destruct (ROW_Reset_ok (_currentAttributes t) r (_unicodeStorage t) Hok) as (r' & Er & Hok' & Hid & Hw' & Hlr & Hwr & Hpad & Hsh & Hat).
    repeat wp_step. eapply on_row_ok; [done|lia|done|]. apply wp_modify. cbn [fst snd]. rewrite Er. cbn [snd].
    do 4 (split; [done|]). intros t1 Hb1 Hs1 Hrest. assert (rows_only t t1) as Ht1 by done.
    destruct (rows_only_rows t t1 Hb Ht1) as [En Ew]. assert (_currentAttributes t1 = _currentAttributes t) as Ea by by injection Hrest.
    apply IH; [done|rewrite i16_small; lia|rewrite i16_small; lia|]. intros t' Ht' Hs'. apply HQ; [by eapply rows_only_trans|].
    intros y Hy. rewrite Hs' by lia. rewrite i16_small by lia. rewrite Ew, Ea, Hs1. clear Hs'.
    assert (line_of (_unicodeStorage t) r' = blank_line (t_width t) (_currentAttributes t)) as ->.
    { unfold line_of, blank_line. rewrite Hsh, Hat, Hlr, Hwr, Hpad, Hw. done. }
    destruct (decide (y = row)) as [->|].
    + rewrite decide_False, decide_True by lia. apply list_lookup_insert_eq. rewrite length_screen. unfold TotalRowCount in *. lia.
    + rewrite list_lookup_insert_ne by lia. by repeat case_decide; try lia.
Qed.

(** A buffer of the same size. *)
Lemma view_ok_buffer t c : view_ok c → buffer_ok t → _size t = _size (_buffer c) → view_ok (with_buffer t c).
Proof.
  intros Hc Hb Es.
  assert (width (with_buffer t c) = width c) as Ew by (unfold width, t_width; cbn; by rewrite Es).
  assert (row_count (with_buffer t c) = row_count c) as Er.
  { unfold row_count. cbn. by rewrite <-(Height_size _ Hb), <-(Height_size _ (co_buffer c Hc)), Es. }
  destruct Hc as [Ha1 Ha2 Ha3 Ha4 Ha5 Ha6 Ha7]. split; rewrite ?Ew, ?Er; done.
Qed.

(** The display is erased by moving the window below its last text. *)
Lemma erase_all_ok c (Q : bool → TerminalCore → Prop) :
  core_ok c →
  (∀ p, GetLastNonSpaceCharacter (Some (_mutableViewport c)) (_buffer c) = inr p → X p = 0 ∧ Y p = 0 → Q true c) →
  (∀ p c1 c', GetLastNonSpaceCharacter (Some (_mutableViewport c)) (_buffer c) = inr p → v_top c <= Y p <= v_bot c →
     let n := Z.max 0 (Y p + 1 + v_height c - row_count c) in
     screen (_buffer c1) = scrolled_up (Z.to_nat n) (blank_line (width c) (_currentAttributes (_buffer c))) (screen (_buffer c)) →
     v_height c1 = v_height c → width c1 = width c →
     moved_to (Y p + 1 - n) (ConvertToOrigin_coord (_mutableViewport c) (cursor_position c)) c1 c' → Q true c') →
  wp (Terminal_EraseInDisplay EraseAll) Q c.
Proof.
  intros Hc HQ0 HQ. pose proof (co_buffer c Hc) as Hb. pose proof (core_rows_range c Hc). pose proof (co_top c Hc). pose proof (co_bot c Hc).
  destruct (last_in_view (_mutableViewport c) _ Hb) as (p & Ep & Hy & Hx & _); [done|done|]. fold (v_top c) (v_bot c) in Hy.
  apply wp_try_log, wpx_wp. repeat wp_step. cbn [id]. change (EraseAll =? EraseAll) with true. cbn iota.
  wp_step. rewrite Ep. eapply lift_ok; [done|].
  destruct ((X p =? 0) && (Y p =? 0)) eqn:E0; [wp_step; apply (HQ0 p); [done|apply andb_true_iff in E0; lia]|].
  rewrite (Height_view c Hc), (Height_buffer c Hc). unfold v_height in *. rewrite !(i16_small (Y p + 1)) by lia.
  rewrite (i16_small (Y p + 1 + _ - _)) by lia. cbv zeta. set (delta := Y p + 1 + (v_bot c - v_top c + 1) - row_count c).
  rewrite !i16_small by (rewrite ?i16_small; lia). wp_step.
  apply cycle_buffer_ok; [done|unfold row_count, TotalRowCount in *; lia|]. intros t Hbt Es Ec Ea Hs.
  pose proof (view_ok_buffer t c Hc Hbt Es) as Hc1. set (c1 := with_buffer t c) in *.
  assert (row_count c1 = row_count c) as Er.
  { unfold row_count. cbn. by rewrite <-(Height_size _ Hbt), <-(Height_size _ Hb), Es. }
  change (v_bot c - v_top c + 1) with (v_height c1). apply move_viewport_ok; [done|lia| |].
  - rewrite Er. unfold v_height. change (v_bot c1) with (v_bot c). change (v_top c1) with (v_top c). lia.
  - intros c' Hm. apply (HQ p c1); [done|done| |done|unfold width, t_width; cbn; by rewrite Es|done].
    change (_buffer c1) with t. rewrite Hs. f_equal. lia.
Qed.

Lemma ScrollRows_home t top h (Q : unit → TextBuffer → Prop) :
  buffer_ok t → 0 <= top → 0 <= h → top + h <= TotalRowCount t →
  (∀ t', buffer_ok t' → _size t' = _size t → _cursor t' = _cursor t → _currentAttributes t' = _currentAttributes t →
     (∀ y, 0 <= y < TotalRowCount t →
        screen t' !! Z.to_nat y
        = screen t !! Z.to_nat (if decide (y < h) then y + top else if decide (y < h + top) then y - h else y)) → Q tt t') →
  wp (ScrollRows top h (- top)) Q t.
Proof.
  intros Hb Ht Hh Hn HQ. destruct (decide (top = 0)) as [->|].
  - unfold ScrollRows. cbn. apply HQ; try done. intros y Hy. repeat case_decide; f_equal; lia.
  - apply ScrollRows_ok; [done|lia..|]. intros t' Hb' Hrest Hs. apply HQ; [done|by injection Hrest..|].
    intros y Hy. rewrite Hs by done. f_equal. unfold scroll_source. repeat case_decide; lia.
Qed.

(** The window has become the top of the buffer and nothing is left below it. *)
Record scrollback_erased (c c' : TerminalCore) : Prop := {
  se_ok : core_ok c';
  se_top : v_top c' = 0;
  se_height : v_height c' = v_height c;
  se_offset : _scrollOffset c' = 0;
  se_window : ∀ y, 0 <= y < v_height c → screen (_buffer c') !! Z.to_nat y = screen (_buffer c) !! Z.to_nat (v_top c + y);
  se_blank : ∀ x y, 0 <= x < width c → v_height c <= y <= v_bot c → blank_cell (_buffer c') (mkCOORD x y);
  se_below : ∀ y, v_bot c < y < row_count c → screen (_buffer c') !! Z.to_nat y = screen (_buffer c) !! Z.to_nat y;
  se_cursor : cursor_position c' = mkCOORD (Z.min (X (cursor_position c)) (width c - 1)) (Y (cursor_position c) - v_top c)
}.

(** Cells of equal lines. *)
Lemma blank_cell_line t t' q : screen t' !! Z.to_nat (Y q) = screen t !! Z.to_nat (Y q) → blank_cell t q → blank_cell t' q.
Proof. intros E (k & a & Hc). exists k, a. unfold cell_at in *. by rewrite E. Qed.

Lemma blank_line_cell t q w a :
  0 <= X q < w → screen t !! Z.to_nat (Y q) = Some (blank_line w a) → blank_cell t q.
Proof.
  intros Hx E. exists Single, a. unfold cell_at. rewrite E. cbn. unfold blank_cells.
  rewrite !lookup_replicate_2 by lia. done.
Qed.

Lemma erase_scrollback_ok c (Q : bool → TerminalCore → Prop) :
  core_ok c → (∀ c', scrollback_erased c c' → Q true c') → wp (Terminal_EraseInDisplay EraseScrollback) Q c.
Proof.
  intros Hc HQ. pose proof (co_buffer c Hc) as Hb. pose proof (core_rows_range c Hc). pose proof (co_top c Hc). pose proof (co_bot c Hc).
  pose proof (co_line c Hc). pose proof (co_column c Hc). pose proof (co_width c Hc).
  apply wp_try_log, wpx_wp. repeat wp_step. cbn [id]. change (EraseScrollback =? EraseAll) with false.
  change (EraseScrollback =? EraseScrollback) with true. cbn iota zeta. wp_step.
  rewrite (Height_view c Hc). unfold ConvertFromOrigin_coord, ConvertToOrigin_coord. cbn [X Y]. rewrite (Left_view c Hc), Z.add_0_l, Z.sub_0_r.
  change (Top (_mutableViewport c)) with (v_top c). unfold v_height in *. rewrite !i16_small by lia.
  set (rel := mkCOORD _ _). set (h := v_bot c - v_top c + 1) in *.
  apply wp_on_buffer, ScrollRows_home; [done|lia|lia|unfold row_count in *; lia|]. intros t1 Hb1 Es1 Ec1 Ea1 Hs1.
  assert (TotalRowCount t1 = row_count c) as En1 by (unfold row_count; by rewrite <-(Height_size _ Hb1), <-(Height_size _ Hb), Es1).
  assert (t_width t1 = width c) as Ew1 by (unfold width, t_width; by rewrite Es1).
  destruct (last_in_view (_mutableViewport c) t1 Hb1) as (p & Ep & Hy & _ & Hbl); [done|rewrite En1; done|].
  fold (v_top c) (v_bot c) in Hy, Hbl. repeat wp_step. eapply lift_ok; [exact Ep|]. wp_step.
  apply wp_on_buffer, reset_rows_ok; [done|lia|cbn; lia|]. cbn [_buffer with_buffer]. intros t2 Ht2 Hs2.
  change (with_buffer t2 (with_buffer t1 c)) with (with_buffer t2 c).
  destruct (rows_only_rows t1 t2 Hb1 Ht2) as [En2 Ew2]. assert (_size t2 = _size t1) as Es2 by (destruct Ht2 as [_ E]; by injection E).
  pose proof (view_ok_buffer t2 c Hc (proj1 Ht2) ltac:(congruence)) as Hv2. wp_step. wp_step. set (c2 := with_scrollOffset 0 _).
  assert (row_count c2 = row_count c) as Er2 by (change (row_count c2) with (TotalRowCount t2); congruence).
  assert (view_ok c2) as Hc2.
  { destruct Hv2 as [Ha1 Ha2 Ha3 Ha4 Ha5 Ha6 Ha7]. split; try done. change (v_height c2) with h. rewrite Er2.
    change (_scrollOffset c2) with 0. lia. }
  replace h with (0 + v_height c2) by done. apply move_viewport_ok; [done|lia|rewrite Er2; change (v_height c2) with h; lia|].
  intros c' Hm. apply HQ. pose proof (mv_screen _ _ _ _ Hm) as Hscr. change (_buffer c2) with t2 in Hscr.
  assert (width c2 = width c) as Ew by (change (width c2) with (t_width t2); congruence).
  assert (∀ y, 0 <= y < row_count c → screen (_buffer c') !! Z.to_nat y
    = if decide (h <= y <= Y p) then Some (blank_line (width c) (_currentAttributes t1)) else screen t1 !! Z.to_nat y) as Hall.
  { intros y Hyy. rewrite Hscr, Hs2, Ew1 by lia. clear Hs2. by repeat case_decide; try lia. }
  split; rewrite ?Hscr; try (change (v_height c) with h).
  - apply Hm.
  - apply Hm.
  - apply (mv_height _ _ _ _ Hm).
  - apply (mv_offset _ _ _ _ Hm).
  - intros y Hyy. rewrite <-Hscr, Hall by lia. rewrite decide_False by lia. rewrite Hs1 by (unfold row_count in *; lia).
    rewrite decide_True by lia. f_equal. lia.
  - intros x y Hx Hyy. pose proof (Hall y ltac:(lia)) as E. case_decide.
    + by eapply blank_line_cell.
    + eapply blank_cell_line; [exact E|]. apply Hbl; [|cbn; lia]. apply (inside_size _ Hb1). cbn. lia.
  - intros y Hyy. rewrite <-Hscr, Hall by lia. rewrite decide_False by lia. rewrite Hs1 by (unfold row_count in *; lia).
    rewrite !decide_False by lia. done.
  - rewrite (mv_cursor _ _ _ _ Hm). rewrite Ew. change (v_height c2) with h. unfold rel. cbn [X Y].
    rewrite !i16_small by lia. unfold std_clamp. f_equal; repeat case_match; zify_bool; lia.
Qed.

Lemma safe_erase_display t : safe (Terminal_EraseInDisplay t).
Proof.
  intros c Hc. destruct (decide (t = EraseAll)) as [->|]; [|destruct (decide (t = EraseScrollback)) as [->|]].
  - apply erase_all_ok; [done|done|]. intros p c1 c' _ _ n _ _ _ Hm. apply Hm.
  - apply erase_scrollback_ok; [done|]. intros c' Hc'. apply Hc'.
  - apply wp_try_log, wpx_wp. repeat wp_step. cbv zeta. rewrite !(proj2 (Z.eqb_neq _ _)) by done. by wp_step.
Qed.

(** C15: erasing the scrollback keeps what is in the window and nothing else.  The lines
    of the window become the first lines of the buffer, with their cells, attributes
    and flags; every cell between them and the former end of the window is blank;
    the view is at the top, the scroll offset is gone, and the cursor stays at its
    place of the window, or goes to the last column if it was behind it. *)
Theorem erase_scrollback_correct (c : TerminalCore) :
  core_ok c → wp (Terminal_EraseInDisplay EraseScrollback) (λ ok c', ok = true ∧ scrollback_erased c c') c.
Proof. intros Hc. by apply erase_scrollback_ok. Qed.
