(* ===== verification/TerminalSelection.v ===== *)
(** The selection of the Windows Terminal: [src/src/cascadia/TerminalCore/TerminalSelection.cpp].

    A drag keeps its pivot: the selection after any sequence of mouse moves is the one between
    the pivot and the last position, widened to words or lines, and copying it gives the text of
    its cells. *)

From S2P Require Import Prelude Utils TextColor TextAttribute Viewport ViewportFacts CharRow Row RowFacts Cursor TextBuffer TextNav TextBufferFacts TextNavFacts SelectionFacts AdaptDispatch AdaptFacts TerminalCore TerminalCoreFacts.

#[local] Open Scope Z_scope.
#[local] Abbreviation M := (prog TerminalCore).

(** ** Operations *)

(** [base::ClampedNumeric<short>]: arithmetic that saturates. *)
Definition clamp_short (z : Z) : Z := std_clamp z (-32768) 32767.

Definition _ConvertToBufferCell (viewportPos : COORD) (c : TerminalCore) : exn + COORD :=
  let yPos := clamp_short (clamp_short (_VisibleStartIndex c) + Y viewportPos) in
  clamped (_size (_buffer c)) (mkCOORD (X viewportPos) yPos).

(** The optional is read without a check. *)
Definition GetSelectionAnchor (c : TerminalCore) : exn + COORD :=
  match _selection c with Some s => inr (sel_start s) | None => inl UndefinedBehavior end.
Definition GetSelectionEnd (c : TerminalCore) : exn + COORD :=
  match _selection c with Some s => inr (sel_end s) | None => inl UndefinedBehavior end.

Definition IsBlockSelection (c : TerminalCore) : bool := _blockSelection c.

(** The exceptions of the buffer are logged. *)
Definition _GetSelectionRects (c : TerminalCore) : exn + list SMALL_RECT :=
  match _selection c with
  | None => inr []
  | Some s =>
      match GetTextRects (_buffer c) (sel_start s) (sel_end s) (_blockSelection c) false with
      | inr rects => inr rects
      | inl e => if catchable e then inr [] else inl e
      end
  end.

(** [_PivotSelection] returns the anchors and [targetStart]. *)
Definition _PivotSelection (targetPos pivot : COORD) (c : TerminalCore) : exn + (COORD * COORD * bool) :=
  d ← CompareInBounds (_size (_buffer c)) targetPos pivot false;
  inr (if d <=? 0 then (targetPos, pivot, true) else (pivot, targetPos, false)).

Definition _ExpandSelectionAnchors (start end_ : COORD) (c : TerminalCore) : exn + COORD * COORD :=
  let bufferSize := _size (_buffer c) in
  match _multiClickSelectionMode c with
  | ExpandLine => inr (mkCOORD (Left bufferSize) (Y start), mkCOORD (RightInclusive bufferSize) (Y end_))
  | ExpandWord =>
      s ← GetWordStart (_buffer c) (_wordDelimiters (_settings c)) start false;
      e ← GetWordEnd (_buffer c) (_wordDelimiters (_settings c)) end_ false;
      inr (s, e)
  | ExpandCell => inr (start, end_)
  end.

Definition SetSelectionEnd (viewportPos : COORD) (newExpansionMode : option SelectionExpansionMode) : M unit :=
  sel ← gets _selection;
  match sel with
  | None => mret tt
  | Some sel =>
      c ← gets id;
      textBufferPos ← lift (_ConvertToBufferCell viewportPos c);
      modify (with_mode (default (_multiClickSelectionMode c) newExpansionMode));;
      c ← gets id;
      '(start, end_, targetStart) ← lift (_PivotSelection textBufferPos (sel_pivot sel) c);
      '(first, second) ← lift (_ExpandSelectionAnchors start end_ c);
      modify (with_selection (Some
        (match newExpansionMode with
         | Some _ => if (targetStart : bool) then mkAnchors first (sel_pivot sel) (sel_pivot sel)
                     else mkAnchors (sel_pivot sel) second (sel_pivot sel)
         | None => mkAnchors first second (sel_pivot sel)
         end)))
  end.

(** [SelectionAnchors{}] with the pivot at a position of the view. *)
Definition new_anchors (viewportPos : COORD) : M unit :=
  modify (with_selection (Some (mkAnchors (mkCOORD 0 0) (mkCOORD 0 0) (mkCOORD 0 0))));;
  c ← gets id;
  pivot ← lift (_ConvertToBufferCell viewportPos c);
  modify (with_selection (Some (mkAnchors (mkCOORD 0 0) (mkCOORD 0 0) pivot))).

Definition on_anchors (f : SelectionAnchors → SelectionAnchors) : M unit :=
  modify (λ c, with_selection (f <$> _selection c) c).

Definition MultiClickSelection (viewportPos : COORD) (expansionMode : SelectionExpansionMode) : M unit :=
  new_anchors viewportPos;;
  modify (with_mode expansionMode);;
  SetSelectionEnd viewportPos None;;
  on_anchors (λ s, mkAnchors (sel_start s) (sel_end s) (sel_start s)).

Definition SetSelectionAnchor (viewportPos : COORD) : M unit :=
  new_anchors viewportPos;;
  modify (with_mode ExpandCell);;
  SetSelectionEnd viewportPos None;;
  on_anchors (λ s, mkAnchors (sel_pivot s) (sel_end s) (sel_pivot s)).

Definition SetBlockSelection (isEnabled : bool) : M unit := modify (with_blockSelection isEnabled).

Definition ClearSelection : M unit := modify (with_selection None).

Definition RetrieveSelectedTextFromBuffer (colors : option (TextAttribute → Z * Z)) (singleLine : bool)
    (c : TerminalCore) : exn + list RowText :=
  selectionRects ← _GetSelectionRects c;
  let includeCRLF := negb singleLine || _blockSelection c in
  let trimTrailingWhitespace := negb singleLine && (negb (_blockSelection c) || _trimBlockSelection (_settings c)) in
  TextBuffer_GetText (_buffer c) colors includeCRLF trimTrailingWhitespace selectionRects (_blockSelection c).

(** ** Anchors *)

(** The cell of the buffer that a position of the view stands for: the nearest one. *)
Definition cell_under (c : TerminalCore) (p : COORD) : COORD :=
  mkCOORD (std_clamp (X p) 0 (width c - 1)) (std_clamp (_VisibleStartIndex c + Y p) 0 (row_count c - 1)).

(** A place in reading order. *)
Definition place (c : TerminalCore) (p : COORD) : Z := Y p * width c + X p.

(** The selection lies in the buffer, in order, and has its pivot. *)
Definition anchors_ok (c : TerminalCore) (s : SelectionAnchors) : Prop :=
  inside (_size (_buffer c)) (sel_start s) ∧ inside (_size (_buffer c)) (sel_end s)
  ∧ inside (_size (_buffer c)) (sel_pivot s)
  ∧ place c (sel_start s) <= place c (sel_pivot s) <= place c (sel_end s).

(** The ends [s] and [e] of the selection from [p] to [q], widened. *)
Definition widened (c : TerminalCore) (m : SelectionExpansionMode) (p q s e : COORD) : Prop :=
  match m with
  | ExpandCell => s = p ∧ e = q
  | ExpandLine => s = mkCOORD 0 (Y p) ∧ e = mkCOORD (width c - 1) (Y q)
  | ExpandWord => GetWordStart (_buffer c) (_wordDelimiters (_settings c)) p false = inr s
                  ∧ GetWordEnd (_buffer c) (_wordDelimiters (_settings c)) q false = inr e
  end.

Section selection.
Context (c : TerminalCore) (Hc : view_ok c).

Lemma sel_inside p : inside (_size (_buffer c)) p ↔ 0 <= X p < width c ∧ 0 <= Y p < row_count c.
Proof using Hc. destruct p as [x y]. apply (inside_xy _ (co_buffer c Hc)). Qed.

Lemma cell_under_inside p : inside (_size (_buffer c)) (cell_under c p).
Proof using Hc.
  apply sel_inside. pose proof (co_width c Hc). pose proof (core_rows_range c Hc). unfold cell_under, std_clamp. cbn [X Y].
  repeat case_match; zify_bool; lia.
Qed.

Lemma ConvertToBufferCell_ok p : -32768 <= Y p <= 32767 → _ConvertToBufferCell p c = inr (cell_under c p).
Proof using Hc.
  intros Hp. unfold _ConvertToBufferCell, clamped, Clamp, cell_under. pose proof (core_rows_range c Hc) as Hr.
  pose proof (co_width c Hc) as Hwd. pose proof (co_buffer c Hc) as Hb.
  assert (IsValid (_size (_buffer c)) = true) as ->.
  { unfold IsValid. rewrite (Height_buffer c Hc), (Width_buffer c Hc). lia. }
  cbn [negb]. assert (Left (_size (_buffer c)) = 0 ∧ Top (_size (_buffer c)) = 0
    ∧ RightInclusive (_size (_buffer c)) = width c - 1 ∧ BottomInclusive (_size (_buffer c)) = row_count c - 1) as (-> & -> & -> & ->).
  { rewrite (b_size _ Hb). unfold Left, Top, RightInclusive, BottomInclusive. cbn. done. }
  cbn [X Y]. f_equal. f_equal. unfold clamp_short, std_clamp.
  assert (0 <= _VisibleStartIndex c <= 32767).
  { unfold _VisibleStartIndex, ViewStartIndex. pose proof (co_top c Hc). pose proof (co_bot c Hc). pose proof (co_scroll c Hc).
    unfold v_top in *. lia. }
  repeat case_match; zify_bool; lia.
Qed.

Lemma position_place p : position (_size (_buffer c)) p = place c p.
Proof using Hc.
  unfold position, walk_index, place. cbn [wx wy forward]. pose proof (co_buffer c Hc) as Hb.
  assert (Left (_size (_buffer c)) = 0 ∧ Viewport.Top (_size (_buffer c)) = 0) as [-> ->] by by rewrite (b_size _ Hb).
  rewrite !Z.sub_0_r. done.
Qed.

Lemma PivotSelection_ok p q : inside (_size (_buffer c)) p → inside (_size (_buffer c)) q →
  _PivotSelection p q c = inr (if place c p <=? place c q then (p, q, true) else (q, p, false)).
Proof using Hc.
  intros Hp Hq. unfold _PivotSelection. rewrite (CompareInBounds_ok _ (size_ok _ (co_buffer c Hc))) by done.
  cbn [mbind result_bind]. rewrite !position_place.
  destruct (Z.leb_spec (place c p - place c q) 0), (Z.leb_spec (place c p) (place c q)); done || lia.
Qed.

(** Widening moves the ends apart, within the buffer. *)
Lemma ExpandSelectionAnchors_ok p q : inside (_size (_buffer c)) p → inside (_size (_buffer c)) q →
  ∃ s e, _ExpandSelectionAnchors p q c = inr (s, e) ∧ inside (_size (_buffer c)) s ∧ inside (_size (_buffer c)) e
    ∧ place c s <= place c p ∧ place c q <= place c e ∧ widened c (_multiClickSelectionMode c) p q s e.
Proof using Hc.
  intros Hp Hq. pose proof (co_buffer c Hc) as Hb. unfold _ExpandSelectionAnchors.
  pose proof (proj1 (sel_inside _) Hp). pose proof (proj1 (sel_inside _) Hq). unfold place, widened.
  destruct (_multiClickSelectionMode c).
  - exists p, q. split_and!; done || lia.
  - destruct p as [x y], q as [x' y']. cbn [X Y] in *.
    destruct (word_left _ Hb (_wordDelimiters (_settings c)) x y Hp) as (a & Ea & Ha & _).
    destruct (word_right _ Hb (_wordDelimiters (_settings c)) x' y' Hq) as (b & Eb & Hb' & _).
    rewrite Ea, Eb. cbn [mbind result_bind]. exists (mkCOORD a y), (mkCOORD b y'). split; [done|].
    rewrite !sel_inside. cbn [X Y]. unfold width, t_width in *. split_and!; done || lia.
  - assert (Left (_size (_buffer c)) = 0 ∧ RightInclusive (_size (_buffer c)) = width c - 1) as [-> ->].
    { rewrite (b_size _ Hb). unfold Left, RightInclusive. cbn. done. }
    eexists _, _. split; [done|]. rewrite !sel_inside. cbn [X Y]. pose proof (co_width c Hc). split_and!; done || lia.
Qed.
End selection.

(** What only the selection and its mode tell apart does not matter for the view. *)
Lemma view_ok_selection c s m : view_ok c → view_ok (with_selection s (with_mode m c)).
Proof. by intros [? ? ? ? ? ? ?]; split. Qed.

(** ** Drags *)

(** Both ends of the range of a widening. *)
Definition reading_order (c : TerminalCore) (p q : COORD) : COORD * COORD :=
  if place c p <=? place c q then (p, q) else (q, p).

(** What a move to [q] selects around a pivot: a drag widens both ends, a shift-click only the
    one that moves. *)
Definition selected (c : TerminalCore) (m : SelectionExpansionMode) (pivot q : COORD) (shift : bool)
    (s : SelectionAnchors) : Prop :=
  let target := cell_under c q in
  ∃ a b, widened c m (reading_order c target pivot).1 (reading_order c target pivot).2 a b
    ∧ s = if shift then if place c target <=? place c pivot then mkAnchors a pivot pivot else mkAnchors pivot b pivot
          else mkAnchors a b pivot.

Definition move : Type := COORD * option SelectionExpansionMode.

(** A position of the view, in the type of the code. *)
Definition move_ok (mv : move) : Prop := -32768 <= Y mv.1 <= 32767.

Fixpoint drag (moves : list move) : M unit :=
  match moves with
  | [] => mret tt
  | mv :: moves => SetSelectionEnd mv.1 mv.2;; drag moves
  end.

Definition mode_after (m : SelectionExpansionMode) (moves : list move) : SelectionExpansionMode :=
  foldl (λ m (mv : move), default m mv.2) m moves.

(** The terminal with another selection. *)
Definition selecting (s : SelectionAnchors) (m : SelectionExpansionMode) (c : TerminalCore) : TerminalCore :=
  with_selection (Some s) (with_mode m c).

Lemma reading_order_same c p : reading_order c p p = (p, p).
Proof. unfold reading_order. by rewrite Z.leb_refl. Qed.

Section drags.
Context (c : TerminalCore) (Hc : view_ok c).

Lemma SetSelectionEnd_ok s m mv : move_ok mv → inside (_size (_buffer c)) (sel_pivot s) →
  ∃ s', SetSelectionEnd mv.1 mv.2 (selecting s m c) = Ok tt (selecting s' (default m mv.2) c)
    ∧ selected c (default m mv.2) (sel_pivot s) mv.1 (bool_decide (is_Some mv.2)) s'
    ∧ anchors_ok c s' ∧ sel_pivot s' = sel_pivot s.
Proof using Hc.
  intros Hmv Hp. destruct mv as [q om]. unfold move_ok in Hmv. cbn [fst snd] in *. set (m' := default m om).
  pose proof (view_ok_selection c (Some s) m' Hc) as Hc'.
  pose proof (cell_under_inside c Hc q) as Hq.
  destruct (ExpandSelectionAnchors_ok _ Hc' (reading_order c (cell_under c q) (sel_pivot s)).1
              (reading_order c (cell_under c q) (sel_pivot s)).2) as (a & b & Ex & Ha & Hb & Hpa & Hpb & Hw);
    [unfold reading_order; by case_match..|].
  exists (if bool_decide (is_Some om) then
        if place c (cell_under c q) <=? place c (sel_pivot s) then mkAnchors a (sel_pivot s) (sel_pivot s)
        else mkAnchors (sel_pivot s) b (sel_pivot s)
      else mkAnchors a b (sel_pivot s)).
  split; [|split; [by exists a, b|split]].
  - unfold SetSelectionEnd, mbind, prog_bind, gets, lift, modify. cbn [selecting _selection with_selection].
    replace (_ConvertToBufferCell q _) with (inr (cell_under c q) : exn + COORD)
      by (symmetry; exact (ConvertToBufferCell_ok c Hc q Hmv)).
    replace (_PivotSelection _ _ _) with (_PivotSelection (cell_under c q) (sel_pivot s) c) by done.
    rewrite (PivotSelection_ok c Hc) by done.
    unfold reading_order in *.
    change (id (with_mode _ (selecting s m c))) with (with_selection (Some s) (with_mode m' c)).
    destruct (place c (cell_under c q) <=? place c (sel_pivot s)); cbn [fst snd] in *; rewrite Ex; by destruct om.
  - change (place c a <= place c (reading_order c (cell_under c q) (sel_pivot s)).1) in Hpa.
    change (place c (reading_order c (cell_under c q) (sel_pivot s)).2 <= place c b) in Hpb.
    unfold reading_order in *. destruct (Z.leb_spec (place c (cell_under c q)) (place c (sel_pivot s))); cbn [fst snd] in *;
      case_match; cbn; unfold anchors_ok; cbn [sel_start sel_end sel_pivot]; split_and!; done || lia.
  - by repeat case_match.
Qed.

(** Any drags and shift-clicks succeed and keep the pivot; the last one says what is selected. *)
Lemma drag_ok moves mv : ∀ s m, Forall move_ok (moves ++ [mv]) → inside (_size (_buffer c)) (sel_pivot s) →
  ∃ s', drag (moves ++ [mv]) (selecting s m c) = Ok tt (selecting s' (mode_after m (moves ++ [mv])) c)
    ∧ selected c (mode_after m (moves ++ [mv])) (sel_pivot s) mv.1 (bool_decide (is_Some mv.2)) s'
    ∧ anchors_ok c s' ∧ sel_pivot s' = sel_pivot s.
Proof using Hc.
  induction moves as [|mv0 moves IH]; intros s m Hall Hp; cbn [app] in Hall |- *;
    apply Forall_cons in Hall as [Hmv Hall]; destruct (SetSelectionEnd_ok s m _ Hmv Hp) as (s1 & E1 & Hs1 & Ha1 & Hp1);
    cbn [drag mode_after foldl]; unfold mbind, prog_bind; rewrite E1.
  - by exists s1.
  - destruct (IH s1 (default m mv0.2) Hall) as (s2 & E2 & Hs2 & Ha2 & Hp2); [by rewrite Hp1|].
    exists s2. by rewrite <- Hp1.
Qed.

Lemma new_anchors_ok p : move_ok (p, None) →
  new_anchors p c = Ok tt (with_selection (Some (mkAnchors (mkCOORD 0 0) (mkCOORD 0 0) (cell_under c p))) c).
Proof using Hc.
  intros Hp. unfold new_anchors, mbind, prog_bind, gets, lift, modify.
  replace (_ConvertToBufferCell p _) with (inr (cell_under c p) : exn + COORD)
    by (symmetry; exact (ConvertToBufferCell_ok c Hc p Hp)).
  done.
Qed.

(** A click selects the cell, word or line under it, and its start becomes the pivot. *)
Lemma MultiClickSelection_ok p m : move_ok (p, None) →
  ∃ s, MultiClickSelection p m c = Ok tt (selecting s m c)
    ∧ widened c m (cell_under c p) (cell_under c p) (sel_start s) (sel_end s)
    ∧ anchors_ok c s ∧ sel_pivot s = sel_start s
    ∧ place c (sel_start s) <= place c (cell_under c p) <= place c (sel_end s).
Proof using Hc.
  intros Hp. unfold MultiClickSelection, mbind, prog_bind. rewrite new_anchors_ok by done.
  destruct (SetSelectionEnd_ok (mkAnchors (mkCOORD 0 0) (mkCOORD 0 0) (cell_under c p)) m (p, None) Hp
              (cell_under_inside c Hc p)) as (s & E & (a & b & Hw & ->) & Ha & _).
  cbn [modify]. change (with_mode m (with_selection ?x c)) with (with_selection x (with_mode m c)).
  cbn [fst snd default] in E. unfold selecting in E at 1. rewrite E. unfold on_anchors, modify.
  exists (mkAnchors a b a). split; [done|]. cbn [sel_start sel_end sel_pivot bool_decide] in *.
  change (widened c m (reading_order c (cell_under c p) (cell_under c p)).1 (reading_order c (cell_under c p) (cell_under c p)).2 a b)
    in Hw.
  rewrite reading_order_same in Hw. change (anchors_ok c (mkAnchors a b (cell_under c p))) in Ha.
  destruct Ha as (H1 & H2 & H3 & H4). cbn [sel_start sel_end sel_pivot] in H1, H2, H3, H4.
  split; [done|]. split; [|done]. unfold anchors_ok. cbn [sel_start sel_end sel_pivot]. split_and!; done || lia.
Qed.

(** A plain click is a click that selects one cell. *)
Lemma SetSelectionAnchor_cell p : move_ok (p, None) → SetSelectionAnchor p c = MultiClickSelection p ExpandCell c.
Proof using Hc.
  intros Hp. unfold SetSelectionAnchor, MultiClickSelection, mbind, prog_bind. rewrite new_anchors_ok by done.
  destruct (SetSelectionEnd_ok (mkAnchors (mkCOORD 0 0) (mkCOORD 0 0) (cell_under c p)) ExpandCell (p, None) Hp
              (cell_under_inside c Hc p)) as (s & E & (a & b & Hw & ->) & _).
  cbn [modify]. change (with_mode _ (with_selection ?x c)) with (with_selection x (with_mode ExpandCell c)).
  cbn [fst snd default] in E. unfold selecting in E at 1. rewrite E.
  change (widened c ExpandCell (reading_order c (cell_under c p) (cell_under c p)).1
            (reading_order c (cell_under c p) (cell_under c p)).2 a b) in Hw.
  rewrite reading_order_same in Hw. by destruct Hw as [-> ->].
Qed.
End drags.

(** C28: Selecting with the mouse: after a click that selects the cell, word or line under it and
    any sequence of drags and shift-clicks, the selection reaches from the start of what the click
    selected (the pivot) to the last position, widened at both ends (at the moving end for a
    shift-click) as the mode says that the moves have left: a shift-click with a mode sets it for
    the drags that follow, a drag keeps it.  So the earlier moves matter by the mode only, not by
    their positions.  No call fails, the selection lies in the buffer with its ends in reading
    order around the pivot, and nothing else of the terminal changes. *)
Theorem selection_keeps_pivot (c : TerminalCore) (p : COORD) (m : SelectionExpansionMode) (moves : list move) (mv : move) :
  view_ok c → Forall move_ok ((p, None) :: moves ++ [mv]) →
  ∃ clicked s, (MultiClickSelection p m;; drag (moves ++ [mv])) c = Ok tt (selecting s (mode_after m (moves ++ [mv])) c)
    ∧ widened c m (cell_under c p) (cell_under c p) (sel_start clicked) (sel_end clicked)
    ∧ selected c (mode_after m (moves ++ [mv])) (sel_start clicked) mv.1 (bool_decide (is_Some mv.2)) s
    ∧ anchors_ok c s ∧ sel_pivot s = sel_start clicked
    ∧ (m = ExpandCell → MultiClickSelection p m c = SetSelectionAnchor p c).
Proof.
  intros Hc [Hp Hall]%Forall_cons. destruct (MultiClickSelection_ok c Hc p m Hp) as (s & E & Hw & Ha & Hpv & _).
  destruct (drag_ok c Hc moves mv s m Hall) as (s' & E' & Hs' & Ha' & Hp'); [apply Ha|].
  exists s, s'. unfold mbind, prog_bind. rewrite E, E'. rewrite Hpv in Hs', Hp'. split_and!; try done.
  intros ->. rewrite <- E. symmetry. by apply SetSelectionAnchor_cell.
Qed.
