(* ===== verification/TerminalKeys.v ===== *)
(** The user's side of the Windows Terminal: keys, characters, the mouse and pasted text
    ([Terminal::SendKeyEvent], [SendCharEvent], [SendMouseEvent] and [WritePastedText] of
    [src/src/cascadia/TerminalCore/Terminal.cpp], [ControlKeyStates.hpp]).

    The keyboard layout of the system is a parameter: [Keyboard] and [KeyLayout]. *)

From stdpp Require Import strings.
From S2P Require Import Prelude DispatchTypes Utils Viewport InputEvent TerminalInput CharRow Row TextBuffer AdaptDispatch AdaptFacts TerminalCore TerminalCoreFacts.

#[local] Open Scope Z_scope.
#[local] Abbreviation M := (prog TerminalCore).

(** ** Modifier keys *)

Module ControlKeyStates.
Definition AreAllFlagsSet (states mask : Z) : bool := Z.land states mask =? mask.
Definition IsAnyFlagSet (states mask : Z) : bool := negb (Z.land states mask =? 0).
Definition IsShiftPressed (states : Z) : bool := IsAnyFlagSet states SHIFT_PRESSED.
Definition IsAltPressed (states : Z) : bool := IsAnyFlagSet states (Z.lor RIGHT_ALT_PRESSED LEFT_ALT_PRESSED).
Definition IsCtrlPressed (states : Z) : bool := IsAnyFlagSet states (Z.lor RIGHT_CTRL_PRESSED LEFT_CTRL_PRESSED).
Definition IsAltGrPressed (states : Z) : bool := AreAllFlagsSet states (Z.lor RIGHT_ALT_PRESSED LEFT_CTRL_PRESSED).
End ControlKeyStates.

(** ** What the application is sent *)

(** The characters of the key events. *)
Fixpoint _KeyEventsToText (inEventsToWrite : list IInputEvent) : wstring :=
  match inEventsToWrite with
  | [] => []
  | Key k :: rest => _charData k :: _KeyEventsToText rest
  | _ :: rest => _KeyEventsToText rest
  end.

(** What the input translator has written since it was [t]: the callback [passAlongInput] of the
    constructor gets it call by call. *)
Definition passed_along (t t' : TerminalInput) : list Notification :=
  (λ events, WriteInput (_KeyEventsToText events)) <$> drop (length (_written t)) (_written t').

Definition on_input (f : TerminalInput → TerminalInput * bool) : M bool := λ c,
  let '(t, handled) := f (_terminalInput c) in
  Ok handled (with_notified (notified c ++ (if _callbacks c pfnWriteInput then passed_along (_terminalInput c) t else []))
                (with_input t c)).

Lemma wp_on_input f (Q : bool → TerminalCore → Prop) c :
  (let r := f (_terminalInput c) in
   Q r.2 (with_notified (notified c ++ (if _callbacks c pfnWriteInput then passed_along (_terminalInput c) r.1 else []))
            (with_input r.1 c))) → wp (on_input f) Q c.
Proof. unfold wp, on_input. by destruct (f _). Qed.

(** ** Pasting *)

Definition paste_begin : wstring := wstr "[200~".
Definition paste_end : wstring := wstr "[201~".

Definition WritePastedText (stringView : wstring) : M unit :=
  let filtered := FilterStringForPaste stringView (Z.lor CarriageReturnNewline ControlCodes) in
  c ← gets id;
  let filtered := if _bracketedPasteMode c then (0x1B :: paste_begin) ++ filtered ++ 0x1B :: paste_end else filtered in
  call_back_if_set pfnWriteInput (WriteInput filtered).

(** ** Keys *)

Definition VK_SPACE : Z := 0x20.

(** [MapVirtualKeyW] to a virtual key; [ToUnicodeEx] with its result and the two characters of
    the buffer after it. *)
Class KeyLayout := {
  MapVirtualKey_VK : Z → Z;
  ToUnicodeEx : Z → Z → list Z → Z → Z * (wchar * wchar)
}.

Section keys.
Context `{Keyboard} `{KeyLayout}.

Definition _ScanCodeFromVirtualKey (vkey : Z) : Z := LOWORD (MapVirtualKey_VSC vkey).
Definition _VirtualKeyFromScanCode (scanCode : Z) : Z := LOWORD (MapVirtualKey_VK scanCode).

(** The word of the result is compared with -1. *)
Definition _VirtualKeyFromCharacter (ch : wchar) : Z :=
  let vkey := LOWORD (VkKeyScanW ch) in
  if vkey =? -1 then 0 else vkey.

Definition _CharacterFromKeyEvent (vkey scanCode states : Z) : wchar :=
  let pressed b := if (b : bool) then 0x80 else 0 in
  let keyState :=
    <[Z.to_nat VK_MENU := pressed (ControlKeyStates.IsAltPressed states)]>
      (<[Z.to_nat VK_CONTROL := pressed (ControlKeyStates.IsCtrlPressed states)]>
        (<[Z.to_nat VK_SHIFT := pressed (ControlKeyStates.IsShiftPressed states)]> (replicate 256 0))) in
  let '(result, buffer) := ToUnicodeEx vkey scanCode keyState 5 in
  if (result =? 1) || (result =? -1) then buffer.1 else 0.

Definition _StoreKeyEvent (vkey scanCode : Z) : M unit := modify (with_lastKey (Some (mkCodes vkey scanCode))).

Definition _TakeVirtualKeyFromLastKeyEvent (scanCode : Z) : M Z :=
  last ← gets _lastKeyEventCodes;
  let codes := default (mkCodes 0 0) last in
  modify (with_lastKey None);;
  mret (if ScanCode codes =? scanCode then VirtualKey codes else 0).

Definition SendKeyEvent (vkey scanCode states : Z) (keyDown : bool) : M bool :=
  (if negb (IsModifierKey vkey) && keyDown then TrySnapOnInput else mret tt);;
  _StoreKeyEvent vkey scanCode;;
  if (vkey =? 0) || (vkey >=? 0xff) then mret false
  else
    let sc := if scanCode =? 0 then _ScanCodeFromVirtualKey vkey else scanCode in
    if sc =? 0 then mret false
    else
      let isAltOnlyPressed := ControlKeyStates.IsAltPressed states && negb (ControlKeyStates.IsCtrlPressed states) in
      if isAltOnlyPressed && (vkey =? VK_SPACE) then mret false
      else
        settings ← gets _settings;
        let isSuppressedAltGrAlias :=
          negb (_altGrAliasing settings) && ControlKeyStates.IsAltPressed states && ControlKeyStates.IsCtrlPressed states
          && negb (ControlKeyStates.IsAltGrPressed states) in
        let ch := if isSuppressedAltGrAlias then 0 else _CharacterFromKeyEvent vkey sc states in
        if negb isAltOnlyPressed && negb (vkey =? VK_TAB) && negb (ch =? 0) then mret false
        else on_input (HandleKey (Some (Key (mkKeyEvent keyDown 1 vkey sc ch states)))).

Definition SendCharEvent (ch : wchar) (scanCode states : Z) : M bool :=
  if (ch =? 0x20) && ControlKeyStates.IsAltPressed states && negb (ControlKeyStates.IsCtrlPressed states) then mret false
  else
    vkey ← _TakeVirtualKeyFromLastKeyEvent scanCode;
    let vkey := if (vkey =? 0) && negb (scanCode =? 0) then _VirtualKeyFromScanCode scanCode else vkey in
    let vkey := if vkey =? 0 then _VirtualKeyFromCharacter ch else vkey in
    handledDown ← on_input (HandleKey (Some (Key (mkKeyEvent true 1 vkey scanCode ch states))));
    handledUp ← on_input (HandleKey (Some (Key (mkKeyEvent false 1 vkey scanCode ch states))));
    mret (handledDown || handledUp).
End keys.

(** ** The mouse *)

(** [GET_KEYSTATE_WPARAM] is the low word, as a [short]. *)
Definition SendMouseEvent (viewportPos : COORD) (uiButton states wheelDelta : Z) (state : MouseButtonState) : M bool :=
  c ← gets id;
  clampedPos ← lift (clamped (ToOrigin (_mutableViewport c)) viewportPos);
  on_input (HandleMouse clampedPos uiButton (i16 (LOWORD states)) wheelDelta state).

(** ** Pasted text *)

(** A sequence that starts with an escape does not start inside of text without one. *)
Lemma no_escape_inside (body rest pre post : wstring) :
  0x1B ∉ body → body ++ rest = pre ++ 0x1B :: post → ∃ pre', pre = body ++ pre' ∧ rest = pre' ++ 0x1B :: post.
Proof.
  revert pre. induction body as [|a body IH]; intros pre Hb E; [by exists pre|].
  apply not_elem_of_cons in Hb as [Ha Hb]. destruct pre as [|b pre]; cbn in E; [by injection E as -> _|].
  injection E as <- E. destruct (IH pre Hb E) as (pre' & -> & ->). by exists pre'.
Qed.

(** Nothing of the filtered text is a control code, a tab and a carriage return apart. *)
Lemma pasted_clean text c : c ∈ FilterStringForPaste text (Z.lor CarriageReturnNewline ControlCodes) →
  c = 0x09 ∨ c = 0x0D ∨ 0x20 <= c < 0x7F ∨ 0x9F < c.
Proof.
  rewrite FilterStringForPaste_ref. intros Hc.
  pose proof (proj1 (Forall_forall _ _) (paste_ref_clean (Z.lor CarriageReturnNewline ControlCodes) None text) c Hc) as [H1 H2].
  change (Utils.IsFlagSet _ CarriageReturnNewline) with true in H1. change (Utils.IsFlagSet _ ControlCodes) with true in H2.
  cbn [andb] in H1, H2. unfold isControlCode in H2. repeat case_match; zify_bool; lia.
Qed.

(** C29: pasted text cannot leave its brackets.  With the bracketed paste mode, the application is
    sent the begin mark, the pasted text without its control codes and the end mark, in one call:
    whatever the text, it has no escape or other control code but tabs and carriage returns, and
    an end mark is found nowhere in what is sent but at its end. *)
Theorem pasted_text_stays_bracketed (text : wstring) (c : TerminalCore) :
  _callbacks c pfnWriteInput = true → _bracketedPasteMode c = true →
  ∃ body, let sent := (0x1B :: paste_begin) ++ body ++ 0x1B :: paste_end in
    WritePastedText text c = Ok tt (with_notified (notified c ++ [WriteInput sent]) c)
    ∧ body = paste_ref (Z.lor CarriageReturnNewline ControlCodes) None text
    ∧ Forall (λ ch, ch = 0x09 ∨ ch = 0x0D ∨ 0x20 <= ch < 0x7F ∨ 0x9F < ch) body
    ∧ ∀ pre post, sent = pre ++ (0x1B :: paste_end) ++ post → pre = (0x1B :: paste_begin) ++ body ∧ post = [].
Proof.
  intros Hcb Hp. exists (FilterStringForPaste text (Z.lor CarriageReturnNewline ControlCodes)).
  set (body := FilterStringForPaste _ _). cbv zeta.
  assert (∀ ch, ch ∈ body → ch = 0x09 ∨ ch = 0x0D ∨ 0x20 <= ch < 0x7F ∨ 0x9F < ch) as Hclean by apply pasted_clean.
  split; [|split; [apply FilterStringForPaste_ref|split; [by apply Forall_forall|]]].
  - unfold WritePastedText, mbind, prog_bind, gets, call_back_if_set. cbn [id]. rewrite Hp. by unfold mbind, prog_bind, gets; rewrite Hcb.
  - intros pre post E. destruct pre as [|a pre]; [done|].
    assert ((paste_begin ++ body) ++ 0x1B :: paste_end = pre ++ 0x1B :: paste_end ++ post) as Etl
      by by rewrite <-app_assoc; injection E.
    assert (a = 0x1B) as -> by by injection E. clear E. rename Etl into E. apply no_escape_inside in E as (pre' & -> & E).
    + destruct pre' as [|b pre'].
      * rewrite app_nil_r. split; [done|]. cbn in E. injection E as E. by destruct post.
      * apply (f_equal length) in E. rewrite !length_app in E. cbn in E. lia.
    + rewrite elem_of_app. intros [Hin|Hin%Hclean]; [|lia]. apply list_elem_of_In in Hin. vm_compute in Hin. lia.
Qed.

(** ** Typed characters *)

Section typing.
Context `{Keyboard} `{KeyLayout}.

(** The key event that the character of a key is sent with. *)
Definition typed_key (down : bool) (vkey scanCode ch states : Z) : option IInputEvent :=
  Some (Key (mkKeyEvent down 1 vkey scanCode ch states)).

(** The key produces the character [ch], which a character event brings later: [SendKeyEvent] leaves it alone. *)
Definition brings_character (vkey scanCode states ch : Z) (c : TerminalCore) : Prop :=
  let sc := if scanCode =? 0 then _ScanCodeFromVirtualKey vkey else scanCode in
  0 < vkey < 0xFF ∧ vkey ≠ VK_TAB ∧ sc ≠ 0 ∧ ch ≠ 0 ∧ _CharacterFromKeyEvent vkey sc states = ch
  ∧ ControlKeyStates.IsAltPressed states && negb (ControlKeyStates.IsCtrlPressed states) = false
  ∧ negb (_altGrAliasing (_settings c)) && ControlKeyStates.IsAltPressed states && ControlKeyStates.IsCtrlPressed states
      && negb (ControlKeyStates.IsAltGrPressed states) = false.

(** A key press that is not a modifier brings the view back to the bottom. *)
Definition snapped (c : TerminalCore) : TerminalCore :=
  with_scrollOffset (if _snapOnInput (_settings c) then 0 else _scrollOffset c) c.

Lemma wp_snap Q c : view_ok c →
  (∀ n, Forall scroll_note n → Q tt (with_notified (notified c ++ n) (snapped c))) → wp TrySnapOnInput Q c.
Proof.
  intros Hc HQ. unfold TrySnapOnInput. repeat wp_step. unfold snapped in HQ.
  assert (with_notified (notified c ++ []) (with_scrollOffset (_scrollOffset c) c) = c) as Ec
    by (rewrite app_nil_r; by destruct c).
  cbn [id]. destruct (_snapOnInput (_settings c)) eqn:Es; cbn [andb].
  - destruct (Z.eqb_spec (_scrollOffset c) 0) as [E|E]; cbn [negb]; repeat wp_step.
    + specialize (HQ [] (Forall_nil_2 _)). rewrite <- E in HQ. by rewrite Ec in HQ.
    + apply wp_notify_scroll_notes; [|exact HQ]. destruct Hc as [? ? ? ? ? Hs ?]. split; try done.
      change (0 <= 0 <= row_count c - v_height c). lia.
  - wp_step. specialize (HQ [] (Forall_nil_2 _)). by rewrite Ec in HQ.
Qed.

(** The key is not translated, and remembered for its character. *)
Lemma SendKeyEvent_delegates Q vkey scanCode states ch c : view_ok c → brings_character vkey scanCode states ch c →
  IsModifierKey vkey = false →
  (∀ n, Forall scroll_note n →
     Q false (with_lastKey (Some (mkCodes vkey scanCode)) (with_notified (notified c ++ n) (snapped c)))) →
  wp (SendKeyEvent vkey scanCode states true) Q c.
Proof.
  intros Hc (Hv & Ht & Hsc & Hch & Ec & Ealt & Ealias) Hm HQ. unfold SendKeyEvent. rewrite Hm. cbn [negb andb].
  wp_step. apply wp_snap; [done|]. intros n Hn. unfold _StoreKeyEvent. repeat wp_step.
  destruct (Z.eqb_spec vkey 0); [lia|]. rewrite Z.geb_leb, (proj2 (Z.leb_gt _ _)) by lia. cbn [orb].
  destruct (Z.eqb_spec (if scanCode =? 0 then _ScanCodeFromVirtualKey vkey else scanCode) 0); [done|].
  rewrite Ealt. cbn [andb negb]. repeat wp_step. cbn [_settings with_lastKey with_notified snapped with_scrollOffset].
  rewrite Ealias, Ec. destruct (Z.eqb_spec vkey VK_TAB); [done|]. destruct (Z.eqb_spec ch 0); [done|]. cbn [negb andb].
  wp_step. by apply HQ.
Qed.

(** A character without a key has the key 0xFFFF, not 0: the comparison with -1 is of a word.  A
    character that needs Shift has a key above 0xFF: the state of the modifiers is not removed. *)
Lemma guessed_keys ch ch' : VkKeyScanW ch = -1 → VkKeyScanW ch' = 0x0151 →
  _VirtualKeyFromCharacter ch = 0xFFFF ∧ _VirtualKeyFromCharacter ch' = 0x0151.
Proof. unfold _VirtualKeyFromCharacter. by intros -> ->. Qed.

(** The key of a character event is the one that [SendKeyEvent] remembered. *)
Lemma wp_send_char Q vkey scanCode states ch c : vkey ≠ 0 → _lastKeyEventCodes c = Some (mkCodes vkey scanCode) →
  (ch =? 0x20) && ControlKeyStates.IsAltPressed states && negb (ControlKeyStates.IsCtrlPressed states) = false →
  (let down := HandleKey (typed_key true vkey scanCode ch states) (_terminalInput c) in
   let up := HandleKey (typed_key false vkey scanCode ch states) down.1 in
   Q (down.2 || up.2)
     (with_notified
        (notified c ++ (if _callbacks c pfnWriteInput
                        then passed_along (_terminalInput c) down.1 ++ passed_along down.1 up.1 else []))
        (with_input up.1 (with_lastKey None c)))) →
  wp (SendCharEvent ch scanCode states) Q c.
Proof.
  intros Hv Hlast Hspace HQ. unfold SendCharEvent. rewrite Hspace. unfold _TakeVirtualKeyFromLastKeyEvent. repeat wp_step.
  rewrite Hlast. cbn [default ScanCode VirtualKey]. repeat wp_step. rewrite Z.eqb_refl.
  assert (vkey =? 0 = false) as Ev by lia. cbn [id VirtualKey]. rewrite !Ev. cbn [andb]. rewrite ?Ev. apply wp_on_input.
  repeat (wp_step || apply wp_on_input || (cbv zeta; cbn [fst snd])). cbn [_terminalInput with_input with_notified with_lastKey notified _callbacks].
  revert HQ. unfold typed_key. cbv zeta. destruct (_callbacks c pfnWriteInput); by rewrite <-?app_assoc, ?app_nil_r.
Qed.

(** In the win32 input mode every key event is one sequence. *)
Lemma KeyEventsToText_chars s : _KeyEventsToText (char_key <$> s) = s.
Proof. induction s as [|ch s IH]; [done|]. cbn. by f_equal. Qed.

Lemma passed_along_win32 k t : _win32InputMode t = true → _forceDisableWin32InputMode t = false →
  let t' := (HandleKey (Some (Key k)) t).1 in
  passed_along t t' = [WriteInput (_GenerateWin32KeySequence k)]
  ∧ _win32InputMode t' = true ∧ _forceDisableWin32InputMode t' = false.
Proof.
  intros Hw Hf. unfold HandleKey. rewrite Hw, Hf. cbn [negb andb fst]. unfold _SendInputSequence.
  destruct (_GenerateWin32KeySequence k) as [|a s] eqn:E; [done|]. cbv zeta. unfold passed_along.
  cbn [_written _pfnWriteEvents _win32InputMode _forceDisableWin32InputMode]. rewrite drop_app_length.
  split; [|done]. exact (f_equal (λ text, [WriteInput text]) (KeyEventsToText_chars (a :: s))).
Qed.

(** C30: typing a character.  A key press that [SendKeyEvent] leaves to the character event: a
    key with a scan code that the layout gives a character for, but not Tab, not with Alt alone,
    and not with Ctrl and Alt unless they stand for AltGr.  It writes nothing (the view goes
    back to the bottom), and the character event that follows with the same scan code is sent as
    a press and a release of the key that was pressed, with its modifiers and the character,
    whatever key the keyboard layout would guess for it; in the win32 input mode these are two
    sequences with all the data of the key.  Tab and the keys with Alt are sent at once by
    [SendKeyEvent] and are not covered. *)
Theorem typed_character_keeps_its_key (vkey scanCode states ch : Z) (c : TerminalCore) :
  view_ok c → brings_character vkey scanCode states ch c → IsModifierKey vkey = false →
  let down := HandleKey (typed_key true vkey scanCode ch states) (_terminalInput c) in
  let up := HandleKey (typed_key false vkey scanCode ch states) down.1 in
  wp (pressed ← SendKeyEvent vkey scanCode states true; sent ← SendCharEvent ch scanCode states; mret (pressed, sent))
    (λ r c', r = (false, down.2 || up.2) ∧ ∃ n, Forall scroll_note n
       ∧ c' = with_input up.1 (with_lastKey None (snapped
                (with_notified (notified c ++ n ++ if _callbacks c pfnWriteInput
                                                   then passed_along (_terminalInput c) down.1 ++ passed_along down.1 up.1
                                                   else []) c)))) c
  ∧ (_win32InputMode (_terminalInput c) = true → _forceDisableWin32InputMode (_terminalInput c) = false →
     passed_along (_terminalInput c) down.1 ++ passed_along down.1 up.1
     = [WriteInput (_GenerateWin32KeySequence (mkKeyEvent true 1 vkey scanCode ch states));
        WriteInput (_GenerateWin32KeySequence (mkKeyEvent false 1 vkey scanCode ch states))]).
Proof.
  intros Hc Hb Hm down up. split.
  - pose proof Hb as (Hv & _ & _ & _ & _ & Ealt & _).
    wp_step. eapply SendKeyEvent_delegates; [done..|]. intros n Hn. wp_step.
    apply (wp_send_char _ vkey); [lia|done| |].
    { rewrite <- andb_assoc, Ealt. apply andb_false_r. }
    cbv zeta. wp_step. split; [done|]. exists n. split; [done|]. by rewrite app_assoc.
  - intros Hw Hf. destruct (passed_along_win32 (mkKeyEvent true 1 vkey scanCode ch states) _ Hw Hf) as (E1 & Hw1 & Hf1).
    destruct (passed_along_win32 (mkKeyEvent false 1 vkey scanCode ch states) _ Hw1 Hf1) as (E2 & _).
    unfold up, down, typed_key. by rewrite E1, E2.
Qed.
End typing.
