(* ===== verification/TerminalDispatchFacts.v ===== *)
(** The dispatch of the Windows Terminal keeps the terminal core well formed; the
    calls that end the process are named. *)

From stdpp Require Import strings.
From S2P Require Import Prelude DispatchTypes Utils ColorTable OutputEngine OutputFacts TextColor TextAttribute SgrStack Sgr Viewport ViewportFacts OutputCell CharRow Row Cursor TextBuffer TextBufferFacts CircularFacts WriteFacts TerminalInput AdaptDispatch TerminalCore TerminalDispatch TerminalCoreFacts TerminalCoreSafe TerminalCoreErase.

#[local] Open Scope Z_scope.

(** ** The invariant *)

Definition td_ok (d : TerminalDispatch) : Prop := core_ok (_terminalApi d).

Definition td_safe {A} (m : prog TerminalDispatch A) : Prop := ∀ d, td_ok d → wp m (λ _, td_ok) d.

Lemma wp_on_api {A} (m : prog TerminalCore A) (Q : A → TerminalDispatch → Prop) d :
  wp m (λ a c, Q a (set_api c d)) (_terminalApi d) → wp (on_api m) Q d.
Proof. unfold wp, on_api, on_part. by destruct (m _). Qed.

Lemma td_safe_api {A} (m : prog TerminalCore A) : safe m → td_safe (on_api m).
Proof. intros Hm d Hd. apply wp_on_api. by apply Hm. Qed.

Lemma td_safe_bind {A B} (m : prog TerminalDispatch A) (f : A → prog TerminalDispatch B) :
  td_safe m → (∀ a, td_safe (f a)) → td_safe (m ≫= f).
Proof. intros Hm Hf d Hd. apply wp_bind. eapply wp_mono; [by apply Hm|]. intros a d' Hd'. by apply Hf. Qed.

Lemma td_safe_ret {A} (a : A) : td_safe (mret a).
Proof. by intros d Hd. Qed.

Lemma td_safe_gets {A} (f : TerminalDispatch → A) : td_safe (gets f).
Proof. by intros d Hd. Qed.

Lemma td_safe_try m : td_safe m → td_safe (try_log m).
Proof. intros Hm d Hd. apply wp_try_log, wpx_wp. by apply Hm. Qed.

Lemma wp_noexcept {W A} (m : prog W A) (Q : A → W → Prop) w : wp m Q w → wp (noexcept m) Q w.
Proof. unfold wp, noexcept. by destruct (m w). Qed.

Lemma td_safe_noexcept {A} (m : prog TerminalDispatch A) : td_safe m → td_safe (noexcept m).
Proof. intros Hm d Hd. by apply wp_noexcept, Hm. Qed.

Lemma td_safe_stops f : (∀ d, _terminalApi (f d) = _terminalApi d) → td_safe (modify f).
Proof. intros Hf d Hd. apply wp_modify. unfold td_ok. by rewrite Hf. Qed.

Lemma td_safe_also m b : td_safe m → td_safe (also m b).
Proof. intros Hm. unfold also. apply td_safe_bind; [done|]. intros. apply td_safe_ret. Qed.

#[export] Hint Resolve td_safe_ret td_safe_gets td_safe_also : core.
#[export] Hint Resolve td_safe_api td_safe_bind td_safe_noexcept td_safe_try | 5 : core.
#[export] Hint Resolve core_safe_print safe_position safe_line_feed core_safe_erase_characters safe_erase_line safe_erase_display : core.
#[export] Hint Resolve safe_input safe_attributes safe_bell safe_title safe_table core_safe_style safe_foreground safe_background : core.
#[export] Hint Resolve safe_visibility safe_blinking safe_link safe_end_link safe_taskbar core_safe_push core_safe_pop : core.

(** ** Tab stops *)

(** The number of columns with a tab stop or without. *)
Definition stop_columns (d : TerminalDispatch) : Z :=
  Z.max (width (_terminalApi d)) (Z.of_nat (length (td_tabStopColumns d))).
Definition td_column (d : TerminalDispatch) : Z := X (cursor_position (_terminalApi d)).

Lemma api_column d : td_ok d → X (Terminal_GetCursorPosition (_terminalApi d)) = td_column d.
Proof.
  intros Hd. pose proof (co_column _ Hd). pose proof (co_width _ Hd). unfold Terminal_GetCursorPosition. cbn [X].
  rewrite (Left_view _ Hd), Z.sub_0_r. by apply i16_small; unfold td_column; lia.
Qed.

Lemma fold_stops_length n : ∀ (l : list Z) (tabs : list bool),
  length (fold_left (λ tabs column, if column >=? n then <[Z.to_nat column := true]> tabs else tabs) l tabs) = length tabs.
Proof. induction l as [|x l IH]; intros tabs; [done|]. cbn. rewrite IH. case_match; [apply length_insert|done]. Qed.

Lemma InitTabStops_ok d (Q : unit → TerminalDispatch → Prop) :
  td_ok d →
  (∀ tabs, Z.of_nat (length tabs) = stop_columns d → Q tt (set_stops tabs (td_initDefaultTabStops d) d)) →
  wp (TD_InitTabStopsForWidth (u64 (width (_terminalApi d)))) Q d.
Proof.
  intros Hd HQ. pose proof (co_width _ Hd). rewrite wrapu_small by lia. unfold TD_InitTabStopsForWidth, stop_columns in *.
  repeat wp_step. set (w := width _) in *. set (n := Z.of_nat _) in *. destruct (Z.gtb_spec w n).
  - destruct (Z.gtb_spec w (2 ^ 63 - 1)); [lia|]. wp_step. apply HQ.
    assert (Z.of_nat (length (td_tabStopColumns d ++ replicate (Z.to_nat (w - n)) false)) = w) as El
      by (rewrite length_app, length_replicate; lia).
    case_match; [rewrite fold_stops_length|]; lia.
  - wp_step. replace d with (set_stops (td_tabStopColumns d) (td_initDefaultTabStops d) d) at 1 by by destruct d.
    apply HQ. lia.
Qed.

Lemma td_set_stop_ok column b d (Q : unit → TerminalDispatch → Prop) :
  0 <= column < Z.of_nat (length (td_tabStopColumns d)) →
  (∀ tabs init, Q tt (set_stops tabs init d)) → wp (TD_set_stop column b) Q d.
Proof.
  intros Hc HQ. unfold TD_set_stop. repeat wp_step. rewrite (proj2 (Z.leb_le _ _)), (proj2 (Z.ltb_lt _ _)) by lia.
  cbn [andb]. wp_step. apply HQ.
Qed.

(** A tab stop can be changed in the columns that have one. *)
Lemma change_stop b d :
  td_ok d → td_column d < stop_columns d →
  wp (noexcept (width ← api_width; p ← api_cursor; TD_InitTabStopsForWidth (u64 width);; TD_set_stop (X p) b;; mret true))
     (λ _, td_ok) d.
Proof.
  intros Hd Hx. pose proof (co_column _ Hd). apply wp_noexcept. unfold api_width, api_cursor. repeat wp_step.
  rewrite (Width_buffer _ Hd), (api_column d Hd). apply InitTabStops_ok; [done|]. intros tabs Ht. wp_step.
  apply td_set_stop_ok; [cbn; unfold td_column in *; lia|]. intros. by wp_step.
Qed.

Lemma unchecked_stop_ok column (tabs : list bool) :
  0 <= column < Z.of_nat (length tabs) → ∃ b, unchecked_stop column tabs = inr b.
Proof.
  intros Hc. unfold unchecked_stop. rewrite (proj2 (Z.ltb_ge _ _)) by lia.
  destruct (lookup_lt_is_Some_2 tabs (Z.to_nat column)) as [b ->]; [lia|]. eauto.
Qed.

Lemma forward_stops_ok fuel : ∀ w n column performed tabs,
  0 <= column → w <= 32767 → w <= Z.of_nat (length tabs) → w - column <= Z.of_nat fuel →
  ∃ column', forward_stops fuel w n column performed tabs = inr column'.
Proof.
  induction fuel as [|fuel IH]; intros w n column performed tabs Hc Hw Hl Hf; cbn [forward_stops].
  - destruct (Z.ltb_spec (column + 1) w); [lia|]. cbn. eauto.
  - destruct (Z.ltb_spec (column + 1) w); cbn [andb]; [|eauto]. case_match; [|eauto]. rewrite i16_small by lia.
    destruct (unchecked_stop_ok (column + 1) tabs) as [b ->]; [lia|]. cbn [mbind result_bind]. apply IH; lia.
Qed.

Lemma backward_stops_ok fuel : ∀ n column performed tabs,
  0 <= column <= 32767 → column <= Z.of_nat (length tabs) → column <= Z.of_nat fuel →
  ∃ column', backward_stops fuel n column performed tabs = inr column'.
Proof.
  induction fuel as [|fuel IH]; intros n column performed tabs Hc Hl Hf; cbn [backward_stops].
  - destruct (Z.gtb_spec column 0); [lia|]. cbn. eauto.
  - destruct (Z.gtb_spec column 0); cbn [andb]; [|eauto]. case_match; [|eauto]. rewrite i16_small by lia.
    destruct (unchecked_stop_ok (column - 1) tabs) as [b ->]; [lia|]. cbn [mbind result_bind]. apply IH; lia.
Qed.

Lemma td_safe_forward n : td_safe (TD_ForwardTab n).
Proof.
  intros d Hd. pose proof (co_column _ Hd). pose proof (co_width _ Hd). apply wp_noexcept. unfold api_width, api_cursor. repeat wp_step.
  rewrite (Width_buffer _ Hd), (api_column d Hd). apply InitTabStops_ok; [done|]. intros tabs Ht. repeat wp_step. cbn [td_tabStopColumns set_stops].
  unfold td_column, stop_columns in *.
  destruct (forward_stops_ok (Z.to_nat (width (_terminalApi d) - X (cursor_position (_terminalApi d)))) (width (_terminalApi d)) n
    (X (cursor_position (_terminalApi d))) 0 tabs) as [c ->]; [lia..|].
  eapply lift_ok; [done|]. apply wp_on_api. by apply safe_position.
Qed.

Lemma safe_backwards n d : td_ok d → td_column d <= stop_columns d → wp (TD_BackwardsTab n) (λ _, td_ok) d.
Proof.
  intros Hd Hx. pose proof (co_column _ Hd). pose proof (co_width _ Hd). apply wp_noexcept. unfold api_width, api_cursor. repeat wp_step.
  rewrite (Width_buffer _ Hd), (api_column d Hd). apply InitTabStops_ok; [done|]. intros tabs Ht. repeat wp_step. cbn [td_tabStopColumns set_stops].
  unfold td_column, stop_columns in *.
  destruct (backward_stops_ok (Z.to_nat (X (cursor_position (_terminalApi d)))) n
    (X (cursor_position (_terminalApi d))) 0 tabs) as [c ->]; [lia..|].
  eapply lift_ok; [done|]. apply wp_on_api. by apply safe_position.
Qed.

(** ** Graphics

    The dispatch numbers the colours as xterm does and the adapter as the console
    does; apart from that they do the same. *)

Definition conhost_color (c : TextColor) : TextColor :=
  match _meta c with
  | IsIndex16_ | IsIndex256_ => mkTextColor (_meta c) (Xterm256ToWindowsIndex (_red c)) (_green c) (_blue c)
  | _ => c
  end.

Definition conhost_attribute (a : TextAttribute) : TextAttribute :=
  mkTextAttribute (_wAttrLegacy a) (_hyperlinkId a) (conhost_color (_foreground a)) (conhost_color (_background a)) (_extendedAttrs a).

Lemma xterm_index_byte i : 0 <= i < 256 → u8 (Xterm256ToWindowsIndex i) = Xterm256ToWindowsIndex i.
Proof. apply (forall_byte (λ i, u8 (Xterm256ToWindowsIndex i) = Xterm256ToWindowsIndex i)). vm_compute. reflexivity. Qed.

Lemma conhost_option opt a : Sgr.apply_option opt (conhost_attribute a) = conhost_attribute (Vt.apply_option opt a).
Proof. destruct opt as [|p|p]; try done. do 7 (destruct p as [p|p|]; try done). Qed.

Lemma conhost_helper options a fg :
  Sgr._SetRgbColorsHelper options (conhost_attribute a) fg
  = let '(n, a') := Vt._SetRgbColorsHelper options a fg in (n, conhost_attribute a').
Proof.
  unfold Sgr._SetRgbColorsHelper, Vt._SetRgbColorsHelper. cbv zeta. case_match; [case_match; [by destruct fg|done]|].
  case_match; [|done]. destruct (Z.leb_spec (value_or (params_at options 1) 0) 255); [|done].
  assert (0 <= value_or (params_at options 1) 0) by (unfold value_or; case_match; [apply wrapu_range; lia|done]).
  rewrite xterm_index_byte, (wrapu_small 8) by lia. by destruct fg.
Qed.

Lemma conhost_loop fuel : ∀ options i a,
  Sgr.sgr_loop fuel options i (conhost_attribute a)
  = match Vt.sgr_loop fuel options i a with inl e => inl e | inr a' => inr (conhost_attribute a') end.
Proof.
  induction fuel as [|fuel IH]; intros options i a; [done|]. cbn [Sgr.sgr_loop Vt.sgr_loop].
  destruct (i <? params_size options); [|done]. destruct (_ || _).
  - destruct (params_subspan _ _); [|done]. rewrite conhost_helper. destruct (Vt._SetRgbColorsHelper _ _ _). apply IH.
  - rewrite conhost_option. apply IH.
Qed.

Lemma vt_sgr_total options a :
  ∃ a', Vt.sgr_loop (S (Z.to_nat (params_size options))) options 0 a = inr a'
    ∧ Sgr.apply_options options (conhost_attribute a) = inr (conhost_attribute a').
Proof.
  destruct (sgr_loop_total (S (Z.to_nat (params_size options))) options 0 (conhost_attribute a)) as [b E];
    [done|unfold params_size; lia|lia|].
  unfold Sgr.apply_options. rewrite conhost_loop in *. destruct (Vt.sgr_loop _ _ _ _) as [|a']; [done|]. eauto.
Qed.

(** The attributes after SGR. *)
Definition vt_applied (options : VTParameters) (a : TextAttribute) : TextAttribute :=
  match Vt.sgr_loop (S (Z.to_nat (params_size options))) options 0 a with inr a' => a' | inl _ => a end.

Lemma vt_applied_agrees options a : Sgr.apply_options options (conhost_attribute a) = inr (conhost_attribute (vt_applied options a)).
Proof. unfold vt_applied. by destruct (vt_sgr_total options a) as (a' & -> & ->). Qed.

Lemma graphics_ok options d (Q : bool → TerminalDispatch → Prop) :
  (let c := _terminalApi d in
   Q true (set_api (with_buffer (SetCurrentAttributes (vt_applied options (Terminal_GetTextAttributes c)) (_buffer c)) c) d)) →
  wp (TD_SetGraphicsRendition options) Q d.
Proof.
  intros HQ. unfold TD_SetGraphicsRendition. repeat wp_step. unfold vt_applied in HQ.
  destruct (vt_sgr_total options (Terminal_GetTextAttributes (_terminalApi d))) as (a' & Ea & _). rewrite Ea in *.
  eapply lift_ok; [done|]. wp_step. apply wp_on_api. unfold Terminal_SetTextAttributes. apply wp_on_buffer, wp_modify. wp_step.
  by apply HQ.
Qed.

Lemma td_safe_graphics options : td_safe (TD_SetGraphicsRendition options).
Proof.
  intros d Hd. apply graphics_ok. intros c. apply (core_ok_same c); [done| |done].
  by apply (CircularFacts.buffer_part_ok (_buffer c)), (co_buffer c Hd).
Qed.

(** ** The calls *)

Section calls.
Context `{GlyphWidth} (defaults : LegacyDefaults) (suffix : wstring → wstring).

#[local] Abbreviation call := (td_call defaults suffix).

(** The calls that end the process: a tab stop is set or cleared, or looked for, right
    of the columns that have stops; cells move out of the range of a [SHORT], or are
    inserted just right of a full line; the path of a working directory is empty. *)
Definition fatal (k : DispatchCall) (d : TerminalDispatch) : Prop :=
  match k with
  | HorizontalTabSet => stop_columns d <= td_column d
  | TabClear t => t = 0 ∧ stop_columns d <= td_column d
  | BackwardsTab _ => stop_columns d < td_column d
  | OutputEngine.InsertCharacter n => insert_fatal n (_terminalApi d)
  | DeleteCharacter n => delete_fatal n (_terminalApi d)
  | DoConEmuAction string => ∃ part0 rest, SplitString string 59 = part0 :: [] :: rest ∧ StringToUint part0 = Some 9
  | _ => False
  end.

Lemma td_safe_then {A} (m : prog TerminalCore A) : safe m → td_safe (_ ← on_api m; mret true).
Proof. auto with core. Qed.

Lemma td_safe_move (f : COORD → Z → COORD) n :
  td_safe (try_log (p ← api_cursor; n ← lift (gsl_narrow n); on_api (Terminal_SetCursorPosition (X (f p n)) (Y (f p n))))).
Proof.
  intros d Hd. apply wp_try_log. unfold api_cursor. repeat wpx_step. unfold gsl_narrow. case_match; [|by apply wpx_throw].
  apply wpx_wp. eapply lift_ok; [done|]. apply wpx_wp, wp_on_api. by apply safe_position.
Qed.

Lemma td_safe_position line column : td_safe (TD_CursorPosition line column).
Proof. unfold TD_CursorPosition. repeat case_match; auto with core. Qed.

Lemma td_safe_modes param b : td_safe (TD_ModeParamsHelper param b).
Proof.
  unfold TD_ModeParamsHelper, switch. cbn [fold_right].
  repeat match goal with |- td_safe (if ?x then _ else _) => destruct x end; try (apply td_safe_then, safe_input);
    unfold TD_SetScreenMode, TD_CursorVisibility, TD_EnableCursorBlinking, TD_EnableXtermBracketedPasteMode; auto with core.
  - apply td_safe_api, core_safe_bind; [plain_change|auto with core].
  - apply td_safe_then, core_safe_bind; [plain_change|auto with core].
Qed.

Lemma td_safe_soft : td_safe TD_SoftReset.
Proof.
  unfold TD_SoftReset, TD_CursorVisibility. pose proof td_safe_graphics.
  assert (∀ b, td_safe (TD_SetKeypadMode b)) by (intros; apply td_safe_then, safe_input).
  assert (∀ b, td_safe (TD_SetCursorKeysMode b)) by (intros; apply td_safe_then, safe_input). auto 9 with core.
Qed.

Lemma td_safe_hard : td_safe TD_HardReset.
Proof.
  unfold TD_HardReset, TD_EraseInDisplay, TD_SetScreenMode, TD_ResetTabStops. pose proof td_safe_soft. pose proof td_safe_position.
  assert (safe (Terminal_SetScreenMode false)) by (apply core_safe_bind; [plain_change|auto with core]).
  assert (td_safe (modify (set_stops [] true))) by by apply td_safe_stops. auto 20 with core.
Qed.

Lemma td_safe_directory path d : td_ok d → path ≠ [] → wp (TD_set_directory path) (λ _, td_ok) d.
Proof.
  intros Hd Hp. destruct path as [|c path]; [done|]. unfold TD_set_directory.
  assert (∀ uri, safe (Terminal_SetWorkingDirectory uri)) as Hs by (intros; apply core_safe_bind; [plain_change|auto with core]).
  case_match; by apply td_safe_api.
Qed.

Lemma safe_conemu string d : td_ok d → ¬ fatal (DoConEmuAction string) d → wp (TD_DoConEmuAction string) (λ _, td_ok) d.
Proof.
  intros Hd Hf. unfold fatal in Hf. apply wp_noexcept. cbv zeta. destruct (SplitString string 59) as [|part0 rest]; [by wp_step|].
  destruct (StringToUint part0) as [n|] eqn:En; [|by wp_step]. destruct (Z.eqb_spec n 4).
  - repeat (case_match; try by wp_step). by apply td_safe_api; [apply safe_taskbar|].
  - destruct (Z.eqb_spec n 9) as [->|]; [|by wp_step]. destruct rest as [|path rest]; [by apply wp_ret|]. cbn.
    apply td_safe_directory; [done|]. intros ->. apply Hf. eauto.
Qed.

(** Every call returns and keeps the terminal well formed, unless it is one of those
    that end the process. *)
Lemma call_safe k d : dispatch_ok k → td_ok d → ¬ fatal k d → wp (call k) (λ _, td_ok) d.
Proof.
  intros Hk Hd Hf. pose proof td_safe_position. pose proof td_safe_modes. pose proof td_safe_soft. pose proof td_safe_hard.
  pose proof td_safe_graphics.
  destruct k; cbn [td_call] in *; try (by apply td_safe_ret);
    try (refine ((_ : td_safe _) d Hd);
         unfold TD_Print, TD_PrintString, TD_LineFeed, TD_SetMode, TD_ResetMode, TD_EraseInDisplay, TD_CarriageReturn, api_cursor; by auto with core).
  - apply (td_safe_move (λ p n, mkCOORD (X p) (i16 (Y p + n)))); done.
  - apply (td_safe_move (λ p n, mkCOORD (i16 (X p + n)) (Y p))); done.
  - apply (td_safe_move (λ p n, mkCOORD (i16 (X p - n)) (Y p))); done.
  - by apply wp_on_api, safe_insert.
  - by apply wp_on_api, safe_delete.
  - by apply td_safe_then; [apply safe_input|].
  - destruct t; by apply td_safe_api; [apply safe_line_feed|].
  - apply change_stop; [done|]. cbn in Hf. lia.
  - by apply td_safe_forward.
  - apply safe_backwards; [done|]. cbn in Hf. lia.
  - unfold TD_TabClear, switch. cbn [fold_right]. destruct (Z.eqb_spec t 0) as [->|]; [apply change_stop; [done|cbn in Hf; lia]|].
    case_match; [|by apply td_safe_ret]. unfold TD_ClearAllTabStops. refine ((_ : td_safe _) d Hd).
    apply td_safe_bind; [by apply td_safe_stops|auto with core].
  - apply td_safe_api; [|done]. by apply safe_looks.
  - refine ((_ : td_safe _) d Hd). unfold Terminal_CopyToClipboard. auto with core.
  - by apply safe_conemu.
Qed.
(** *** What ends the process *)

#[global] Instance fatal_dec k d : Decision (fatal k d).
Proof.
  destruct k; cbn [fatal]; try apply _; unfold insert_fatal, delete_fatal; cbv zeta; try apply _.
  destruct (SplitString str 59) as [|part0 [|[|] rest]]; try (right; by intros (? & ? & ? & ?)).
  destruct (decide (StringToUint part0 = Some 9)); [left; eauto|right; by intros (? & ? & [= <- <-] & ?)].
Defined.

Definition breaks {A} (m : prog TerminalDispatch A) (d : TerminalDispatch) : Prop := ∃ e d', m d = Throw e d' ∧ catchable e = false.

Lemma breaks_api {A} (m : prog TerminalCore A) d : ends m (_terminalApi d) → breaks (on_api m) d.
Proof. intros [c E]. unfold breaks, on_api, on_part. rewrite E. by eexists _, _. Qed.

(** An exception leaves a [noexcept] function. *)
Lemma breaks_noexcept {A} (m : prog TerminalDispatch A) d e d' : m d = Throw e d' → breaks (noexcept m) d.
Proof. intros E. unfold breaks, noexcept. rewrite E. eexists _, _. split; [done|]. by destruct e. Qed.

(** The start of the operations on tab stops. *)
Lemma breaks_stops (f : COORD → prog TerminalDispatch bool) d :
  td_ok d →
  (∀ tabs, Z.of_nat (length tabs) = stop_columns d → 
     ∃ e d', f (Terminal_GetCursorPosition (_terminalApi d)) (set_stops tabs (td_initDefaultTabStops d) d) = Throw e d') →
  breaks (noexcept (width ← api_width; p ← api_cursor; TD_InitTabStopsForWidth (u64 width);; f p)) d.
Proof.
  intros Hd Hf. destruct (wp_ok _ _ _ (InitTabStops_ok d (λ _ d', ∃ tabs, Z.of_nat (length tabs) = stop_columns d ∧ d' = set_stops tabs (td_initDefaultTabStops d) d)
    Hd (λ tabs Hl, ex_intro _ tabs (conj Hl eq_refl)))) as ([] & d1 & E & tabs & Hl & ->). destruct (Hf tabs Hl) as (e & d' & E').
  apply (breaks_noexcept _ _ e d'). unfold api_width, api_cursor. unfold mbind, prog_bind, gets in *. cbn. by rewrite (Width_buffer _ Hd), E.
Qed.

Lemma change_stop_breaks b d :
  td_ok d → stop_columns d <= td_column d →
  breaks (noexcept (width ← api_width; p ← api_cursor; TD_InitTabStopsForWidth (u64 width);; TD_set_stop (X p) b;; mret true)) d.
Proof.
  intros Hd Hx. apply breaks_stops; [done|]. intros tabs Hl. rewrite (api_column d Hd). unfold TD_set_stop, mbind, prog_bind, gets. cbn.
  rewrite Hl, (proj2 (Z.ltb_ge _ _)), andb_false_r by done. by eexists _, _.
Qed.

Lemma backwards_breaks n d : td_ok d → 1 <= n → stop_columns d < td_column d → breaks (TD_BackwardsTab n) d.
Proof.
  intros Hd Hn Hx. apply breaks_stops; [done|]. intros tabs Hl. rewrite (api_column d Hd). pose proof (co_column _ Hd). pose proof (co_width _ Hd).
  assert (backward_stops (Z.to_nat (td_column d)) n (td_column d) 0 tabs = inl UndefinedBehavior) as E.
  { destruct (Z.to_nat (td_column d)) as [|fuel] eqn:Ef; [unfold stop_columns in *; lia|]. cbn [backward_stops].
    unfold stop_columns, td_column in *.
    destruct (Z.gtb_spec (X (cursor_position (_terminalApi d))) 0); [|lia]. rewrite (proj2 (Z.ltb_lt 0 n)) by lia. cbn [andb].
    rewrite i16_small by lia. unfold unchecked_stop. rewrite (proj2 (Z.ltb_ge _ _)) by lia. rewrite lookup_ge_None_2 by lia. done. }
  unfold mbind, prog_bind, gets, lift. cbn [td_tabStopColumns set_stops]. rewrite E. by eexists _, _.
Qed.

(** These calls do end the process. *)
Lemma fatal_breaks k d : dispatch_ok k → td_ok d → fatal k d → breaks (call k) d.
Proof.
  intros Hk Hd Hf. destruct k; try done; cbn [td_call fatal dispatch_ok] in *.
  - by apply breaks_api, insert_ends.
  - by apply breaks_api, delete_ends.
  - by apply change_stop_breaks.
  - apply backwards_breaks; [done|lia|done].
  - destruct Hf as [-> Hf]. by apply change_stop_breaks.
  - destruct Hf as (part0 & rest & Es & En). apply (breaks_noexcept _ d OutOfRange d). cbv zeta. rewrite Es. cbn [mbind].
    rewrite En. done.
Qed.
(** C10: the calls that end the process are exactly those of [fatal], from a well-formed
    terminal and with the arguments that the engine gives.  Let [x] be the column of the
    cursor and [w] the width.  Let [m] be the greater of [w] and the number of
    entries of the table of tab stops.  Setting or clearing the tab stop of the cursor ends it
    when [x >= m], going back to a stop when [x > m].  Inserting [n] characters ends it when [x = w], just right
    of a full line, and [x + n <= 32767], also for a small [n]; and when the cursor has at least
    one column right of it, [x + n <= 32767] and [w + n > 32767].  It does not when [x + n > 32767]:
    the 16-bit column that the cells are moved to is then negative.  Deleting [n] characters ends it when
    [x + n >= w + 32769].  A ConEmu action 9 with an empty path ends it.  Every other call
    returns and keeps the terminal well formed. *)
Theorem calls_end_exactly_if_fatal (k : DispatchCall) (d : TerminalDispatch) :
  dispatch_ok k → td_ok d →
  if decide (fatal k d) then breaks (call k) d else wp (call k) (λ _, td_ok) d.
Proof. intros Hk Hd. case_decide; [by apply fatal_breaks|by apply call_safe]. Qed.
End calls.

(** C16: the two implementations of SGR agree.  For every list of options the dispatch
    of the Windows Terminal returns, changes nothing but the current attributes, and
    gives them the values that the console's adapter gives its own, with the colours
    numbered in the order of xterm instead of the console's. *)
Theorem graphics_agree (options : VTParameters) (d : TerminalDispatch) :
  let c := _terminalApi d in
  ∃ a', TD_SetGraphicsRendition options d = Ok true (set_api (with_buffer (SetCurrentAttributes a' (_buffer c)) c) d)
    ∧ Sgr.apply_options options (conhost_attribute (Terminal_GetTextAttributes c)) = inr (conhost_attribute a').
Proof.
  intros c. destruct (wp_ok _ _ _ (graphics_ok options d (λ b d', b = true
    ∧ d' = set_api (with_buffer (SetCurrentAttributes (vt_applied options (Terminal_GetTextAttributes c)) (_buffer c)) c) d)
    (conj eq_refl eq_refl))) as (b & d' & E & -> & ->). eexists. split; [exact E|]. apply vt_applied_agrees.
Qed.
