(* ===== verification/TerminalScreen.v ===== *)
(** Text on the screen of the Windows Terminal: the terminal core is a typewriter on
    endless paper, of which the buffer keeps the last lines. *)

From stdpp Require Import strings.
From S2P Require Import Prelude DispatchTypes Utils OutputEngine TextColor TextAttribute Utf16 Viewport ViewportFacts OutputCell CharRow Row RowFacts Cursor TextBuffer TextBufferFacts CircularFacts WriteFacts AdaptDispatch TerminalCore TerminalDispatch TerminalCoreFacts TerminalCoreSafe TerminalDispatchFacts.

#[local] Open Scope Z_scope.

(** ** The typewriter *)

Record Paper := mkPaper { sheet : list Line; px : Z; py : Z }.

Inductive Key := Char (ch : wchar) | Return | Feed | Back.

Section typewriter.
Context (w : Z) (a : TextAttribute).

(** The carriage goes to column [x] of the next line; below the last line the paper
    moves up. *)
Definition next_line (x : Z) (p : Paper) : Paper :=
  if decide (py p + 1 < Z.of_nat (length (sheet p))) then mkPaper (sheet p) x (py p + 1)
  else mkPaper (drop 1 (sheet p) ++ [blank_line w a]) x (py p).

(** A line that is full has been wrapped. *)
Definition put_cell (x : Z) (ch : wchar) (l : Line) : Line :=
  mkLine (<[Z.to_nat x := ([ch], Single)]> (l_cells l)) (<[Z.to_nat x := a]> (l_attrs l)) (l_rendition l)
    (if decide (x + 1 = w) then true else l_wrap l) (l_padded l).

(** Blanks in [n] columns from [x] on. *)
Definition blank_cells (wrap : bool) (x n : Z) (l : Line) : Line :=
  mkLine (splice (Z.to_nat x) (replicate (Z.to_nat n) ([UNICODE_SPACE], Single)) (l_cells l))
    (splice (Z.to_nat x) (replicate (Z.to_nat n) a) (l_attrs l)) (l_rendition l)
    (if decide (x + n = w) then wrap else l_wrap l) (l_padded l).

Definition end_line (l : Line) : Line := mkLine (l_cells l) (l_attrs l) (l_rendition l) false (l_padded l).

Definition type_char (ch : wchar) (p : Paper) : Paper :=
  let p := if decide (w <= px p) then next_line 0 p else p in
  mkPaper (alter (put_cell (px p) ch) (Z.to_nat (py p)) (sheet p)) (px p + 1) (py p).

Definition strike (p : Paper) (k : Key) : Paper :=
  match k with
  | Char ch => type_char ch p
  | Return => mkPaper (sheet p) 0 (py p)
  | Feed => next_line (px p) (mkPaper (alter end_line (Z.to_nat (py p)) (sheet p)) (px p) (py p))
  | Back => mkPaper (sheet p) (std_clamp (px p - 1) 0 (w - 1)) (py p)
  end.

Definition strikes (p : Paper) (l : list Key) : Paper := fold_left strike l p.
End typewriter.

(** ** The terminal core as a typewriter *)

Definition paper (c : TerminalCore) : Paper :=
  mkPaper (screen (_buffer c)) (X (cursor_position c)) (Y (cursor_position c)).
Definition ink (c : TerminalCore) : TextAttribute := _currentAttributes (_buffer c).

(** The terminal [c'] after typing: the window goes down as far as the carriage needs it; the
    view holds or follows as the user wants it. *)
Record typed (c : TerminalCore) (p : Paper) (c' : TerminalCore) : Prop := {
  ty_ok : core_ok c';
  ty_paper : paper c' = p;
  ty_size : _size (_buffer c') = _size (_buffer c);
  ty_ink : ink c' = ink c;
  ty_height : v_height c' = v_height c;
  ty_window : v_bot c' = Z.max (v_bot c) (py p)
}.

Lemma typed_width c p c' : typed c p c' → width c' = width c.
Proof. intros Ht. unfold width, t_width. by rewrite (ty_size _ _ _ Ht). Qed.

Lemma typed_trans c p c' p' c'' :
  py p <= Z.max (v_bot c) (py p') → typed c p c' → typed c' p' c'' → typed c p' c''.
Proof. intros Hp [_ _ H1 H2 H3 H4] [H5 H6 H7 H8 H9 H10]. split; [done|done|congruence..|lia]. Qed.

Lemma typed_refl c : core_ok c → typed c (paper c) c.
Proof. intros Hc. pose proof (co_line c Hc). split; try done. cbn. lia. Qed.

(** The carriage does not go up by typing. *)
Lemma next_line_down w a x p : py p <= py (next_line w a x p).
Proof. unfold next_line. case_decide; cbn; lia. Qed.

Lemma type_char_down w a ch p : py p <= py (type_char w a ch p).
Proof. unfold type_char. case_decide; cbn; [apply next_line_down|lia]. Qed.

Lemma strike_down w a p k : py p <= py (strike w a p k).
Proof. destruct k; cbn [strike]; [apply type_char_down|done|apply (next_line_down w a (px p) (mkPaper _ _ (py p)))|done]. Qed.

Lemma strikes_down w a l : ∀ p, py p <= py (strikes w a p l).
Proof.
  induction l as [|k l IH]; intros p; [done|]. etrans; [apply (strike_down w a)|apply IH].
Qed.

Lemma length_sheet c : Z.of_nat (length (screen (_buffer c))) = row_count c.
Proof. by rewrite length_screen. Qed.

(** The cursor goes on in its line, or to the next one. *)
Lemma adjusted_right x c c' : core_ok c → adjusted (mkCOORD x (Y (cursor_position c))) c c' →
  typed c (mkPaper (screen (_buffer c)) x (Y (cursor_position c))) c'.
Proof.
  intros Hc [Ha1 Ha2 Ha3 Ha4 Ha5 Ha6 Ha7 _ _]. pose proof (co_line c Hc). pose proof (co_bot c Hc). cbn [X Y] in *.
  assert (new_lines c (Y (cursor_position c)) = 0) as E by (unfold new_lines; lia). unfold window_moves in *. rewrite E in *.
  split; [done| |done|done|unfold v_height; lia|cbn; lia]. unfold paper. rewrite Ha4, Ha5. unfold scrolled_up. cbn. by rewrite app_nil_r, Z.sub_0_r.
Qed.

Lemma adjusted_down x c c' : core_ok c → adjusted (mkCOORD x (Y (cursor_position c) + 1)) c c' →
  typed c (next_line (width c) (ink c) x (paper c)) c'.
Proof.
  intros Hc [Ha1 Ha2 Ha3 Ha4 Ha5 Ha6 Ha7 _ _]. pose proof (co_line c Hc). pose proof (co_bot c Hc). cbn [X Y] in *.
  split; [done| |done|done|unfold v_height; lia|].
  2:{ unfold next_line, window_moves, new_lines in *. cbn [paper py sheet]. rewrite length_sheet. case_decide; cbn [py]; lia. }
  unfold next_line, paper. cbn [sheet px py]. rewrite length_sheet, Ha4, Ha5. unfold scrolled_up, new_lines. cbn [X Y].
  case_decide.
  - replace (Z.max 0 (Y (cursor_position c) + 1 - row_count c + 1)) with 0 by lia. cbn. by rewrite app_nil_r, Z.sub_0_r.
  - replace (Z.max 0 (Y (cursor_position c) + 1 - row_count c + 1)) with 1 by lia. by rewrite Z.add_simpl_r.
Qed.

Section write.
Context `{GlyphWidth} (d : LegacyDefaults).

(** A character of one column. *)
Definition narrow (ch : wchar) : Prop := is_wchar ch ∧ ¬ 0xD800 <= ch <= 0xDFFF ∧ IsGlyphFullWidth [ch] = false.

Lemma narrow_view ch rest : narrow ch → next_view (ch :: rest) = [ch].
Proof.
  intros (_ & Hs & _). cbn [next_view]. destruct (Z.leb_spec 0xD800 ch), (Z.leb_spec ch 0xDFFF); try done. lia.
Qed.

Lemma narrow_parse ch : narrow ch → ParseNext [ch] = [ch].
Proof.
  intros ([Ha Hb] & Hs & _). pose proof (ParseNext_scalar ch []) as Hp. unfold utf16_units in Hp.
  rewrite (proj2 (Z.ltb_lt _ _)) in Hp by lia. apply Hp. unfold scalar. lia.
Qed.

Lemma line_lengths t y l :
  buffer_ok t → screen t !! y = Some l → length (l_cells l) = Z.to_nat (t_width t) ∧ length (l_attrs l) = Z.to_nat (t_width t).
Proof.
  intros Hb Hl. pose proof (lookup_lt_Some _ _ _ Hl) as Hy. rewrite length_screen in Hy.
  destruct (row_at t Hb (Z.of_nat y)) as (r & _ & _ & Hs & _ & Hw & Hr); [unfold TotalRowCount; lia|].
  rewrite Nat2Z.id, Hl in Hs. injection Hs as ->. cbn. by rewrite length_shown, (length_attrs r _ Hr), (ok_chars _ _ Hr), Hw.
Qed.

(** One character at the cursor, in the line. *)
Lemma write_narrow ch c (Q : OutputCellIterator → TextBuffer → Prop) :
  let it := Iter_text_attr [ch] (ink c) in
  core_ok c → narrow ch → X (cursor_position c) < width c →
  (∀ it' t', rows_only (_buffer c) t' →
     screen t' = alter (put_cell (width c) (ink c) (X (cursor_position c)) ch) (Z.to_nat (Y (cursor_position c))) (screen (_buffer c)) →
     _ipos it' = 1 → _distance it' = 1 → Q it' t') →
  wp (Write_at_cursor d it) Q (_buffer c).
Proof.
  intros it Hc Hn Hx HQ. pose proof (co_buffer c Hc) as Hb. pose proof (co_line c Hc). pose proof (co_top c Hc). pose proof (co_bot c Hc).
  pose proof (core_rows_range c Hc). pose proof (co_column c Hc). pose proof (co_width c Hc). pose proof (narrow_parse ch Hn) as Ep. destruct Hn as (_ & _ & Ew).
  set (p := cursor_position c) in *. set (v := mkView [ch] Dbcs_default (ink c) Stored).
  assert (it = mkIter (Loose [ch]) (ink c) v 0 0 0) as Eit.
  { unfold it, Iter_text_attr, s_GenerateView_text. cbv zeta. by rewrite Ep, Ew. }
  set (it' := mkIter (Loose [ch]) (ink c) v 1 1 0).
  assert (Iter_next d it = inr it') as En by (rewrite Eit; reflexivity).
  assert (Iter_valid it = true ∧ Iter_valid it' = false) as [Hv Hv'] by (by rewrite Eit).
  assert (inside (_size (_buffer c)) p) as Hp by (apply (inside_size _ Hb); unfold width, row_count in *; lia).
  unfold Write_at_cursor. repeat wp_step. change (_cPosition (_cursor (_buffer c))) with p.
  unfold Write. repeat wp_step. rewrite (Height_buffer c Hc). destruct (Z.to_nat (row_count c)) as [|fuel] eqn:Ef; [lia|]. cbn [write_lines].
  rewrite (IsInBounds_ok _ (size_ok _ Hb)), bool_decide_true, Hv by done. cbn [andb]. wp_step.
  eapply (WriteLine_ok d _ Stored it [v] it' p (Some true) None); [done|done| | | | | | |].
  - change (X p <= width c - 1 < width c). lia.
  - rewrite Eit. eapply yields_cons; [by rewrite <-Eit|by rewrite <-Eit|]. apply yields_nil.
  - intros [|j] u [= <-]. split; [done|]. done.
  - change (X p + 1 <= width c - 1 + 1). lia.
  - by left.
  - rewrite Eit. done.
  - intros t' l Hb' Hl Hs Hrest. assert (rows_only (_buffer c) t') as Ht by done.
    assert (write_lines d fuel (_size (_buffer c)) (Some true) it' (mkCOORD 0 (i16 (Y p + 1))) = mret it') as ->.
    { destruct fuel; cbn [write_lines]; by rewrite Hv'. }
    wp_step. apply HQ; [done| |done|done]. rewrite Hs.
    assert (length (l_cells l) = Z.to_nat (width c) ∧ length (l_attrs l) = Z.to_nat (width c)) as [Hlc Hla].
    { by eapply line_lengths. }
    apply list_eq. intros i. destruct (decide (i = Z.to_nat (Y p))) as [->|Hi].
    + rewrite list_lookup_alter_eq, Hl, list_lookup_insert_eq by (by eapply lookup_lt_Some). cbn [fmap option_fmap option_map]. f_equal.
      unfold write_line, put_cell. change (written Stored [v]) with [([ch], Single)]. change (colored Stored [v]) with [ink c].
      rewrite !splice_insert by lia. f_equal. unfold wrapped. cbn [length default from_option]. fold (width c). repeat case_decide; naive_solver lia.
    + by rewrite list_lookup_alter_ne, list_lookup_insert_ne.
Qed.
(** Blanks from the column [x] on, in the line of the cursor. *)
Lemma fill_narrow x n wrap c (Q : OutputCellIterator → TextBuffer → Prop) :
  core_ok c → narrow UNICODE_SPACE → 0 <= x → 0 < n → x + n <= width c →
  (∀ it t', rows_only (_buffer c) t' →
     screen t' = alter (blank_cells (width c) (ink c) wrap x n) (Z.to_nat (Y (cursor_position c))) (screen (_buffer c)) → Q it t') →
  wp (Write d (Iter_fill UNICODE_SPACE (ink c) n) (mkCOORD x (Y (cursor_position c))) (Some wrap)) Q (_buffer c).
Proof.
  intros Hc (_ & _ & Hsp) Hx Hn Hxn HQ. pose proof (co_buffer c Hc) as Hb. pose proof (co_line c Hc). pose proof (co_top c Hc).
  pose proof (co_bot c Hc). pose proof (core_rows_range c Hc). pose proof (co_width c Hc).
  set (p := mkCOORD x (Y (cursor_position c))). set (v := mkView [UNICODE_SPACE] Dbcs_default (ink c) Stored).
  set (it k := mkIter Fill InvalidTextAttribute v k k n).
  assert (Iter_fill UNICODE_SPACE (ink c) n = it 0) as -> by (unfold Iter_fill, s_GenerateView_wchar_attr; by rewrite Hsp).
  assert (∀ k, 0 <= k → Iter_valid (it k) = (k <? n)) as Hv by (intros k Hk; change ((if n >? 0 then k <? n else true) = (k <? n)); by rewrite (proj2 (Z.gtb_lt n 0)) by lia).
  assert (∀ m k, 0 <= k → k + Z.of_nat m <= n → yields d (it k) (replicate m v) (it (k + Z.of_nat m))) as Hy.
  { induction m as [|m IH]; intros k Hk Hm; cbn [replicate]; [rewrite Z.add_0_r; apply yields_nil|].
    eapply (yields_cons d (it k) (it (k + 1))); [rewrite Hv by lia; apply Z.ltb_lt; lia| |].
    - set (it1 := set_distance (u64 (k + 1)) (it k)).
      change (@inr exn _ (if n >? 0 then set_ipos (u64 (k + 1)) it1 else it1) = inr (it (k + 1))).
      rewrite (proj2 (Z.gtb_lt n 0)) by lia. unfold it1, set_ipos, set_distance, it. cbn -[wrapu]. by rewrite !wrapu_small by lia.
    - replace (k + Z.of_nat (S m)) with (k + 1 + Z.of_nat m) by lia. apply IH; lia. }
  unfold Write. repeat wp_step. rewrite (Height_buffer c Hc). destruct (Z.to_nat (row_count c)) as [|fuel] eqn:Ef; [lia|]. cbn [write_lines].
  assert (inside (_size (_buffer c)) p) as Hp by (apply (inside_size _ Hb); unfold width, row_count in *; cbn; lia).
  rewrite (IsInBounds_ok _ (size_ok _ Hb)), bool_decide_true, Hv, (proj2 (Z.ltb_lt 0 n)) by (done || lia). cbn [andb]. wp_step.
  eapply (WriteLine_ok d _ Stored (it 0) (replicate (Z.to_nat n) v) (it (0 + Z.of_nat (Z.to_nat n))) p (Some wrap) None); [done|done| | | | | | |].
  - change (x <= width c - 1 < width c). lia.
  - apply Hy; lia.
  - intros j u [-> _]%lookup_replicate. done.
  - rewrite length_replicate. change (x + Z.of_nat (Z.to_nat n) <= width c - 1 + 1). lia.
  - left. rewrite Hv by lia. apply Z.ltb_ge. lia.
  - done.
  - intros t' l Hb' Hl Hs Hrest. set (it' := it _). assert (rows_only (_buffer c) t') as Ht by done.
    assert (write_lines d fuel (_size (_buffer c)) (Some wrap) it' (mkCOORD 0 (i16 (Y p + 1))) = mret it') as ->.
    { assert (Iter_valid it' = false) as Hv' by (unfold it'; rewrite Hv by lia; apply Z.ltb_ge; lia). destruct fuel; cbn [write_lines]; by rewrite Hv'. }
    wp_step. apply HQ; [done|]. rewrite Hs. apply list_eq. intros i. change (Y p) with (Y (cursor_position c)) in Hl |- *.
    destruct (decide (i = Z.to_nat (Y (cursor_position c)))) as [->|Hi].
    + rewrite list_lookup_alter_eq, Hl, list_lookup_insert_eq by (by eapply lookup_lt_Some). cbn [fmap option_fmap option_map]. f_equal.
      unfold write_line, blank_cells. assert (written Stored (replicate (Z.to_nat n) v) = replicate (Z.to_nat n) ([UNICODE_SPACE], Single)) as ->.
      { unfold written. rewrite decide_False by done. by rewrite fmap_replicate. }
      assert (colored Stored (replicate (Z.to_nat n) v) = replicate (Z.to_nat n) (ink c)) as ->.
      { unfold colored. rewrite decide_False by done. by rewrite fmap_replicate. }
      rewrite length_replicate. f_equal. unfold wrapped. cbn [default from_option X p]. fold (width c). repeat case_decide; naive_solver lia.
    + by rewrite list_lookup_alter_ne, list_lookup_insert_ne.
Qed.

(** Right of the last column nothing is written. *)
Lemma Write_outside it x y wrap c (Q : OutputCellIterator → TextBuffer → Prop) :
  core_ok c → width c <= x → Q it (_buffer c) → wp (Write d it (mkCOORD x y) wrap) Q (_buffer c).
Proof.
  intros Hc Hx HQ. pose proof (co_buffer c Hc) as Hb. pose proof (core_rows_range c Hc). unfold Write. repeat wp_step.
  rewrite (Height_buffer c Hc). destruct (Z.to_nat (row_count c)) as [|fuel] eqn:Ef; [lia|]. cbn [write_lines].
  rewrite (IsInBounds_ok _ (size_ok _ Hb)), bool_decide_false, andb_false_r; [by wp_step|].
  rewrite (inside_size _ Hb). unfold width in *. cbn. lia.
Qed.

Lemma write_outside it c (Q : OutputCellIterator → TextBuffer → Prop) :
  core_ok c → width c <= X (cursor_position c) → Q it (_buffer c) → wp (Write_at_cursor d it) Q (_buffer c).
Proof.
  intros Hc Hx HQ. unfold Write_at_cursor. repeat wp_step. fold (cursor_position c). destruct (cursor_position c) as [x y] eqn:E.
  by apply Write_outside.
Qed.

Lemma typed_rows c t' p :
  core_ok c → rows_only (_buffer c) t' → paper (with_buffer t' c) = p → typed c p (with_buffer t' c).
Proof.
  intros Hc Ht Hp. pose proof (co_line _ (core_ok_rows c t' Hc Ht)) as Hl. rewrite <-Hp.
  split; [by apply core_ok_rows|done|destruct Ht as [_ E]; by injection E|destruct Ht as [_ E]; by injection E|done|].
  change (v_bot c = Z.max (v_bot c) (Y (cursor_position (with_buffer t' c)))).
  change (v_bot (with_buffer t' c)) with (v_bot c) in Hl. lia.
Qed.

(** One round of the loop. *)
Lemma round_in ch rest fuel c (Q : unit → TerminalCore → Prop) :
  core_ok c → narrow ch → X (cursor_position c) < width c →
  (∀ c', typed c (type_char (width c) (ink c) ch (paper c)) c' → wp (write_chars d fuel rest) Q c') →
  wp (write_chars d (S fuel) (ch :: rest)) Q c.
Proof.
  intros Hc Hn Hx HQ. pose proof (co_line c Hc). pose proof (co_top c Hc). pose proof (co_bot c Hc).
  pose proof (core_rows_range c Hc). pose proof (co_column c Hc). pose proof (co_width c Hc).
  cbn [write_chars]. rewrite (narrow_view ch rest Hn). repeat wp_step. apply wp_on_buffer.
  apply write_narrow; [done|done|done|]. intros it' t' Ht Hs Hi Hd. unfold GetInputDistance, GetCellDistance. rewrite Hi, Hd.
  match goal with |- context [if ?b then _ else _] => change b with true end. cbn iota. wp_step. apply (lift_ok _ 1); [reflexivity|]. rewrite i16_small by lia. wp_step. set (c1 := with_buffer t' c).
  pose proof (core_ok_rows c t' Hc Ht) as Hc1. destruct (rows_only_rows _ t' (co_buffer c Hc) Ht) as [Er Ew].
  assert (cursor_position c1 = cursor_position c) as Ec by (destruct Ht as [_ E]; unfold cursor_position; cbn; by injection E as _ -> _).
  rewrite <-Ec. apply AdjustCursorPosition_ok; [done| |].
  { unfold target_ok, row_count, width in *. cbn [X Y]. rewrite Ec. change (_buffer c1) with t'. rewrite Er, Ew. change (v_top c1) with (v_top c). lia. }
  intros c2 Ha. change (drop (Pos.to_nat 1) (ch :: rest)) with rest. apply HQ. apply (adjusted_right _ c1 c2 Hc1) in Ha. rewrite Ec in Ha.
  apply (typed_trans c (paper c1) c1); [|by apply typed_rows|].
  { etrans; [|apply Z.le_max_l]. cbn. rewrite Ec. lia. }
  unfold type_char, paper. cbn [px py sheet].
  rewrite decide_False by lia. cbn [px py sheet]. change (_buffer c1) with t' in Ha. by rewrite Hs in Ha.
Qed.

Lemma round_out ch rest fuel c (Q : unit → TerminalCore → Prop) :
  core_ok c → narrow ch → width c <= X (cursor_position c) →
  (∀ c', typed c (next_line (width c) (ink c) 0 (paper c)) c' → wp (write_chars d fuel (ch :: rest)) Q c') →
  wp (write_chars d (S fuel) (ch :: rest)) Q c.
Proof.
  intros Hc Hn Hx HQ. pose proof (co_line c Hc). pose proof (co_top c Hc). pose proof (co_bot c Hc).
  pose proof (core_rows_range c Hc). pose proof (co_width c Hc). set (r := ch :: rest) in *.
  cbn [write_chars]. subst r. rewrite (narrow_view ch rest Hn). repeat wp_step. apply wp_on_buffer.
  apply write_outside; [done|done|]. unfold GetInputDistance. rewrite Z.sub_diag.
  match goal with |- context [if ?b then _ else _] => change b with false end. cbn iota. wp_step. rewrite i16_small by lia. replace (with_buffer (_buffer c) c) with c by by destruct c.
  apply AdjustCursorPosition_ok; [done|unfold target_ok; cbn; lia|]. intros c2 Ha. apply HQ. by apply adjusted_down.
Qed.

Lemma write_chars_types text : ∀ fuel c,
  core_ok c → Forall narrow text → (2 * length text <= fuel)%nat →
  wp (write_chars d fuel text) (λ _ c', typed c (strikes (width c) (ink c) (paper c) (Char <$> text)) c') c.
Proof.
  induction text as [|ch rest IH]; intros fuel c Hc Hn Hf.
  { destruct fuel; apply wp_ret; by apply typed_refl. }
  apply Forall_cons in Hn as [Hch Hn]. cbn [length] in Hf. destruct fuel as [|[|fuel]]; [lia|lia|].
  assert (∀ fuel c1 p, (2 * length rest <= fuel)%nat → typed c p c1 → X (cursor_position c1) < width c →
    type_char (width c) (ink c) ch p = type_char (width c) (ink c) ch (paper c) →
    wp (write_chars d (S fuel) (ch :: rest)) (λ _ c', typed c (strikes (width c) (ink c) (paper c) (Char <$> ch :: rest)) c') c1) as Hin.
  { intros f c1 p Hf1 H1 Hx Ep. pose proof (typed_width _ _ _ H1) as Ew. apply round_in; [apply H1|done|by rewrite Ew|].
    intros c2 H2. eapply wp_mono; [apply IH; [apply H2|done|done]|]. cbv beta. intros _ c3 H3.
    rewrite (typed_width _ _ _ H2), Ew, (ty_ink _ _ _ H2), (ty_ink _ _ _ H1), (ty_paper _ _ _ H2) in H3.
    rewrite Ew, (ty_ink _ _ _ H1), (ty_paper _ _ _ H1), Ep in H3. change (strikes (width c) (ink c) (paper c) (Char <$> ch :: rest))
      with (strikes (width c) (ink c) (type_char (width c) (ink c) ch (paper c)) (Char <$> rest)).
    assert (py p <= py (type_char (width c) (ink c) ch (paper c))) by (rewrite <-Ep; apply type_char_down).
    pose proof (strikes_down (width c) (ink c) (Char <$> rest) (type_char (width c) (ink c) ch (paper c))).
    apply (typed_trans c p c1); [lia|exact H1|]. rewrite Ew, (ty_ink _ _ _ H1), (ty_paper _ _ _ H1), Ep in H2.
    eapply typed_trans; [|exact H2|exact H3]. lia. }
  destruct (decide (width c <= X (cursor_position c))).
  - apply round_out; [done|done|done|]. intros c1 H1. eapply Hin; [lia|exact H1| |].
    + pose proof (f_equal px (ty_paper _ _ _ H1)) as E. cbn in E. rewrite E. pose proof (co_width c Hc). unfold next_line. case_decide; cbn; lia.
    + unfold type_char. rewrite (decide_True (P := width c <= px (paper c))) by done. rewrite decide_False; [done|].
      pose proof (co_width c Hc). unfold next_line. case_decide; cbn; lia.
  - eapply (Hin _ c (paper c)); [lia|by apply typed_refl|lia|done].
Qed.
End write.

(** ** The calls of the dispatch *)

Section calls.
Context `{GlyphWidth} (defaults : LegacyDefaults) (suffix : wstring → wstring).

Definition td_typed (d : TerminalDispatch) (p : Paper) (d' : TerminalDispatch) : Prop := typed (_terminalApi d) p (_terminalApi d').
Definition td_strikes (d : TerminalDispatch) (l : list Key) : Paper :=
  strikes (width (_terminalApi d)) (ink (_terminalApi d)) (paper (_terminalApi d)) l.

(** A change of the looks of the cursor. *)
Lemma typed_cursor f c p c1 :
  (∀ k, _cPosition (f k) = _cPosition k) → typed c p c1 →
  typed c p (with_buffer (set_cursor (f (_cursor (_buffer c1))) (_buffer c1)) c1).
Proof.
  intros Hf [H1 H2 H3 H4 H5 H6]. split; [by apply core_ok_cursor| |done|done|done|done]. rewrite <-H2. unfold paper, cursor_position.
  cbn [_buffer with_buffer set_cursor _cursor]. by rewrite Hf.
Qed.

Lemma print_types text d :
  td_ok d → Forall narrow text → wp (TD_PrintString defaults text) (λ b d', b = true ∧ td_typed d (td_strikes d (Char <$> text)) d') d.
Proof.
  intros Hd Hn. set (c := _terminalApi d). unfold TD_PrintString. wp_step. apply wp_on_api. fold c.
  apply wp_try_log, wpx_wp. unfold _WriteBuffer. wp_step. wp_step. apply wp_on_cursor.
  pose proof (typed_refl c Hd) as Hc. apply (typed_cursor StartDeferDrawing) in Hc; [|done]. set (c1 := with_buffer _ c) in *.
  wp_step. eapply wp_mono; [apply write_chars_types; [apply Hc|done|lia]|]. cbv beta. intros _ c2 H2.
  rewrite (typed_width _ _ _ Hc), (ty_ink _ _ _ Hc), (ty_paper _ _ _ Hc) in H2.
  apply wp_on_cursor. repeat wp_step. split; [done|]. unfold td_typed. cbn [_terminalApi set_api].
  eapply typed_cursor; [apply EndDefer_position|]. eapply typed_trans; [|exact Hc|exact H2].
  etrans; [apply (strikes_down (width c) (ink c) (Char <$> text))|apply Z.le_max_r].
Qed.

Lemma position_types x y c (Q : bool → TerminalCore → Prop) :
  core_ok c → -32768 <= x <= 32767 → 0 <= y < v_height c →
  (∀ c', typed c (mkPaper (screen (_buffer c)) (std_clamp x 0 (width c - 1)) (v_top c + y)) c' → Q true c') →
  wp (Terminal_SetCursorPosition x y) Q c.
Proof.
  intros Hc Hx Hy HQ. pose proof (co_top c Hc). pose proof (co_bot c Hc). pose proof (core_rows_range c Hc). unfold v_height in *.
  apply SetCursorPosition_ok; [apply Hc|]. intros c' p Hc' Ep Ep' Ec'. apply HQ.
  assert (p = mkCOORD (std_clamp x 0 (width c - 1)) (v_top c + y)) as ->.
  { rewrite Ep', !i16_small by lia. f_equal. unfold std_clamp. repeat case_match; zify_bool; lia. }
  subst c'. split; [done| |done|done|done|cbn; change (v_bot c = Z.max (v_bot c) (v_top c + y)); lia].
  unfold paper. by rewrite Ep.
Qed.

Lemma return_types d :
  td_ok d → wp TD_CarriageReturn (λ b d', b = true ∧ td_typed d (td_strikes d [Return]) d') d.
Proof.
  intros Hd. set (c := _terminalApi d). pose proof (co_line c Hd). pose proof (co_top c Hd). pose proof (co_bot c Hd).
  pose proof (core_rows_range c Hd). pose proof (co_width c Hd). unfold TD_CarriageReturn, api_cursor. repeat wp_step. apply wp_on_api. fold c.
  unfold Terminal_GetCursorPosition. cbn [Y]. change (Top (_mutableViewport c)) with (v_top c).
  rewrite (i16_small (Y _ - _)) by lia. apply position_types; [apply Hd|lia|unfold v_height; lia|]. intros c' Ht. split; [done|].
  unfold td_typed, td_strikes. cbn [_terminalApi set_api]. fold c. cbn. unfold std_clamp in Ht. revert Ht. repeat case_match; zify_bool; try lia.
  by replace (v_top c + (Y (cursor_position c) - v_top c)) with (Y (cursor_position c)) by lia.
Qed.

Lemma back_types d :
  td_ok d → wp (TD_CursorBackward 1) (λ b d', b = true ∧ td_typed d (td_strikes d [Back]) d') d.
Proof.
  intros Hd. set (c := _terminalApi d). pose proof (co_line c Hd). pose proof (co_top c Hd). pose proof (co_bot c Hd).
  pose proof (core_rows_range c Hd). pose proof (co_width c Hd). pose proof (co_column c Hd).
  unfold TD_CursorBackward, api_cursor. apply wp_try_log, wpx_wp. repeat wp_step.
  eapply lift_ok; [reflexivity|]. repeat wp_step. apply wp_on_api. fold c. unfold Terminal_GetCursorPosition. cbn [X Y].
  rewrite (Left_view c Hd), Z.sub_0_r. change (Top (_mutableViewport c)) with (v_top c). rewrite (i16_small (Y _ - _)), (i16_small (X (cursor_position c))) by lia. rewrite i16_small by lia.
  apply position_types; [done|lia|unfold v_height; lia|]. intros c' Ht. split; [done|].
  unfold td_typed, td_strikes. cbn [_terminalApi set_api]. fold c. cbn.
  by replace (v_top c + (Y (cursor_position c) - v_top c)) with (Y (cursor_position c)) in Ht by lia.
Qed.

Lemma feed_types d :
  td_ok d → wp (TD_LineFeed DependsOnMode) (λ b d', b = true ∧ td_typed d (td_strikes d [Feed]) d') d.
Proof.
  intros Hd. set (c := _terminalApi d). pose proof (co_line c Hd). pose proof (co_top c Hd). pose proof (co_bot c Hd).
  pose proof (core_rows_range c Hd). pose proof (co_width c Hd). pose proof (co_column c Hd). apply wp_on_api. fold c.
  apply wp_try_log, wpx_wp. repeat wp_step. apply wp_on_buffer, wrap_row_ok; [apply (co_buffer c Hd)|unfold row_count in *; lia|].
  intros t' l Ht Hl Hs. pose proof (core_ok_rows c t' Hd Ht) as Hc1. wp_step. rewrite i16_small by lia. set (c1 := with_buffer t' c) in *.
  destruct (rows_only_rows _ t' (co_buffer c Hd) Ht) as [Er Ew].
  assert (cursor_position c1 = cursor_position c) as Ec by (destruct Ht as [_ E]; unfold cursor_position; cbn; by injection E as _ -> _).
  rewrite <-Ec. apply AdjustCursorPosition_ok; [done| |].
  { unfold target_ok, row_count, width in *. cbn [X Y]. rewrite Ec. change (_buffer c1) with t'. rewrite Er, Ew. change (v_top c1) with (v_top c). lia. }
  intros c2 Ha. wp_step. split; [done|]. apply (adjusted_down _ c1 c2 Hc1) in Ha.
  assert (typed c (paper c1) c1) as Hty by by apply typed_rows.
  rewrite (typed_width _ _ _ Hty), (ty_ink _ _ _ Hty) in Ha. unfold td_typed. cbn [_terminalApi set_api].
  apply (typed_trans c (paper c1) c1); [|exact Hty|].
  { etrans; [|apply Z.le_max_l]. cbn. rewrite Ec. lia. }
  unfold td_strikes. fold c. cbn [strikes fold_left strike px py sheet paper].
  replace (mkPaper (alter end_line _ _) _ _) with (paper c1); [by rewrite Ec in Ha|]. unfold paper. rewrite Ec. f_equal.
  change (_buffer c1) with t'. rewrite Hs. symmetry. apply list_eq. intros i.
  destruct (decide (i = Z.to_nat (Y (cursor_position c)))) as [->|Hi].
  - rewrite list_lookup_alter_eq, Hl, list_lookup_insert_eq by (by eapply lookup_lt_Some). done.
  - by rewrite list_lookup_alter_ne, list_lookup_insert_ne.
Qed.
(** *** Erasing *)

Definition erased (wrap : bool) (n : Z) (w : Z) (a : TextAttribute) (p : Paper) : Paper :=
  if decide (px p < w) then mkPaper (alter (blank_cells w a wrap (px p) n) (Z.to_nat (py p)) (sheet p)) (px p) (py p) else p.

Lemma erase_types wrap n limit c (Q : OutputCellIterator → TerminalCore → Prop) :
  core_ok c → narrow UNICODE_SPACE →
  (X (cursor_position c) < width c → 0 < n ∧ X (cursor_position c) + n <= width c ∧ limit = n) →
  (∀ it c', typed c (erased wrap n (width c) (ink c) (paper c)) c' → Q it c') →
  wp (on_buffer (Write defaults (Iter_fill UNICODE_SPACE (ink c) limit) (cursor_position c) (Some wrap))) Q c.
Proof.
  intros Hc Hsp Hn HQ. apply wp_on_buffer. unfold erased in HQ. cbn [paper px py sheet] in HQ. case_decide as Hx.
  - destruct (Hn Hx) as (Hn1 & Hn2 & ->). pose proof (co_column c Hc).
    replace (cursor_position c) with (mkCOORD (X (cursor_position c)) (Y (cursor_position c))) at 1 by by destruct (cursor_position c).
    apply fill_narrow; [done|done|lia|done|done|]. intros it t' Ht Hs. apply HQ. apply typed_rows; [done|done|].
    unfold paper. cbn [_buffer with_buffer]. rewrite Hs. f_equal; destruct Ht as [_ E]; unfold cursor_position; cbn; by injection E as _ -> _.
  - destruct (cursor_position c) as [x y] eqn:E. cbn in Hx. apply Write_outside; [done|lia|].
    replace (with_buffer (_buffer c) c) with c by by destruct c. apply HQ. pose proof (typed_refl c Hc) as Ht. unfold paper in *. by rewrite E in *.
Qed.

Lemma erase_characters_types n d :
  td_ok d → narrow UNICODE_SPACE → 1 <= n <= 32767 →
  wp (td_call defaults suffix (EraseCharacters n)) (λ b d', b = true
    ∧ let c := _terminalApi d in
      td_typed d (erased true (Z.min n (width c - X (cursor_position c))) (width c) (ink c) (paper c)) d') d.
Proof.
  intros Hd Hsp Hn. set (c := _terminalApi d). pose proof (co_width c Hd). pose proof (co_column c Hd). cbn [td_call].
  apply wp_on_api, wp_try_log, wpx_wp. fold c. repeat wp_step. rewrite (Right_view c Hd), !i16_small by lia. cbv zeta. do 3 wp_step.
  eapply erase_types; [done|done| |].
  - intros Hx. split; [|split; [|apply wrapu_small]]; lia.
  - intros it c' Ht. by wp_step.
Qed.

Lemma erase_line_types d :
  td_ok d → narrow UNICODE_SPACE →
  wp (td_call defaults suffix (EraseInLine 0)) (λ b d', b = true
    ∧ let c := _terminalApi d in
      td_typed d (erased false (width c - X (cursor_position c)) (width c) (ink c) (paper c)) d') d.
Proof.
  intros Hd Hsp. set (c := _terminalApi d). pose proof (co_width c Hd). pose proof (co_column c Hd). cbn [td_call].
  apply wp_on_api, wp_try_log, wpx_wp. fold c. repeat wp_step. cbv zeta. rewrite (Right_view c Hd).
  match goal with |- context [switch ?a ?b ?e] => change (switch a b e) with (Some (X (cursor_position c), u32 (width c - X (cursor_position c)))) end.
  cbn iota beta. do 3 wp_step. replace (mkCOORD (X (cursor_position c)) (Y (cursor_position c))) with (cursor_position c) by by destruct (cursor_position c).
  eapply erase_types; [done|done| |].
  - intros Hx. split; [|split; [|apply wrapu_small]]; lia.
  - intros it c' Ht. by wp_step.
Qed.
End calls.
