(* ===== verification/WindowsTerminal.v ===== *)
(** The parser, the output engine and the dispatch over the terminal core: the Windows
    Terminal as one program, from the text of an application to the lines on the
    screen ([Terminal::Terminal] and [Terminal::Write] of
    [src/src/cascadia/TerminalCore/Terminal.cpp]). *)

From stdpp Require Import strings.
From S2P Require Import Prelude DispatchTypes StateMachine StateMachineFacts ParserEquiv ParserParams ParserCsi Utils ColorTable OutputEngine OutputFacts TextColor TextAttribute SgrStack Utf16 Viewport ViewportFacts OutputCell CharRow Row Cursor TextBuffer TextBufferFacts TextNavFacts WriteFacts InputEvent TerminalInput AdaptDispatch TerminalCore TerminalDispatch TerminalCoreFacts TerminalCoreSafe TerminalCoreErase TerminalSelection TerminalKeys TerminalDispatchFacts TerminalScreen.

Import AsciiChars.

#[local] Open Scope Z_scope.

(** The dispatch that the engine holds.  A call that ends the process is recorded with
    the state before it and ends all further work. *)
Record WindowsTerminal := mkWT {
  wt_dispatch : TerminalDispatch;
  wt_end : option (DispatchCall * TerminalDispatch * exn)
}.

Section terminal.
Context `{GlyphWidth} (defaults : LegacyDefaults) (suffix : wstring → wstring).

#[local] Instance wt_calls : ITermDispatch WindowsTerminal :=
  {| dispatch k w ansi :=
       match wt_end w with
       | Some _ => (false, w, ansi)
       | None =>
           match td_call defaults suffix k (wt_dispatch w) with
           | Ok r d => (r, mkWT d None, ansi)
           | Throw e d => (false, mkWT d (Some (k, wt_dispatch w, e)), ansi)
           end
       end |}.

(** The terminal is well formed, or was before a call that ends the process. *)
Definition wt_ok (w : WindowsTerminal) : Prop :=
  match wt_end w with
  | None => td_ok (wt_dispatch w)
  | Some (k, d, _) => td_ok d ∧ fatal k d
  end.

#[local] Instance wt_safe : DispatchSafe WindowsTerminal.
Proof.
  refine {| dispatch_inv := wt_ok |}. intros k w ansi Hk Hw. unfold wt_ok in Hw. cbn.
  destruct (wt_end w) as [[[k0 d0] e0]|] eqn:Ew; [cbn; unfold wt_ok; by rewrite Ew|].
  unfold wt_ok. destruct (decide (fatal k (wt_dispatch w))) as [Hf|Hf].
  - destruct (fatal_breaks defaults suffix k _ Hk Hw Hf) as (e & d' & -> & _). done.
  - pose proof (call_safe defaults suffix k _ Hk Hw Hf) as Hs. unfold wp in Hs. by destruct (td_call _ _ _ _).
Defined.

Context {T : Type} `{ITerminalOutputConnection T} `{Utf8Converter}.

#[local] Abbreviation Machine := (StateMachine (OutputStateMachineEngine WindowsTerminal T) Empty_set).

Definition wt_of (s : Machine) : WindowsTerminal := _dispatch (_engine s).
Definition core_of (s : Machine) : TerminalCore := _terminalApi (wt_dispatch (wt_of s)).

(** The objects that the constructor makes: the engine has no connection to flush to. *)
Definition new_windows_terminal (c : TerminalCore) : Machine :=
  StateMachine_init (mkOutputEngine (mkWT (TerminalDispatch_init c) None) None false AsciiChars.NUL).

(** C9: no text brings the Windows Terminal down but by the calls that are named
    here. *)
Theorem windows_terminal_ends_at_fatal_calls (strings : list wstring) (c : TerminalCore) :
  Forall (Forall is_wchar) strings → core_ok c →
  ∃ s', ProcessStrings strings (new_windows_terminal c) = Ok tt s' ∧ sm_wf s'
    ∧ match wt_end (wt_of s') with
      | None => core_ok (core_of s')
      | Some (k, d, _) => core_ok (_terminalApi d) ∧ fatal k d
      end.
Proof.
  intros Hs Hc. destruct (wp_ok (ProcessStrings strings) (λ _, sm_wf) (new_windows_terminal c)) as ([] & s' & E & Hw).
  { apply ProcessStrings_wf; [done|by right|]. by apply init_wf. }
  exists s'. split; [done|]. split; [done|]. exact (wf_engine _ Hw).
Qed.

(** ** Text *)

Section typing.
Context (mode : bool * option wstring).

(** An engine whose terminal has typed [p] since [c]; [mode] is what else it can see of the
    parser, the ANSI mode and the sequence that is kept. *)
Definition typing_engine (c : TerminalCore) (p : Paper) (v : EngineView (OutputStateMachineEngine WindowsTerminal T)) : Prop :=
  let w := _dispatch (ev_engine v) in
  wt_end w = None ∧ typed c p (_terminalApi (wt_dispatch w)) ∧ (ev_isInAnsiMode v, ev_cachedSequence v) = mode.

Lemma typing_disp c p k l v :
  typing_engine c p v →
  (let d := wt_dispatch (_dispatch (ev_engine v)) in
   td_ok d → wp (td_call defaults suffix k) (λ b d', b = true ∧ td_typed d (td_strikes d l) d') d) →
  wp (disp k) (λ _, typing_engine c (strikes (width c) (ink c) p l)) v.
Proof.
  intros (He & Ht & Hm) Hw. destruct (wp_ok _ _ _ (Hw (ty_ok _ _ _ Ht))) as (b & d' & E & -> & Ht').
  unfold wp, disp. cbn -[td_call]. rewrite He, E. split; [done|]. split; [|done]. cbn. unfold td_typed, td_strikes in Ht'.
  rewrite (typed_width _ _ _ Ht), (ty_ink _ _ _ Ht), (ty_paper _ _ _ Ht) in Ht'. eapply typed_trans; [|exact Ht|exact Ht'].
  pose proof (strikes_down (width c) (ink c) l p). lia.
Qed.

(** The parser hands a run of text and the controls to the dispatch. *)
Lemma print_typing c p text flush v :
  typing_engine c p v → Forall narrow text →
  wp (OutputEngine_ActionPrintString text flush) (λ _, typing_engine c (strikes (width c) (ink c) p (Char <$> text))) v.
Proof.
  intros Hv Hn. unfold OutputEngine_ActionPrintString. destruct text as [|ch text]; [by wp_step|]. cbv zeta.
  assert (∀ v', typing_engine c p v' → wp (_ ← disp (PrintString (ch :: text)); mret true)
    (λ _, typing_engine c (strikes (width c) (ink c) p (Char <$> ch :: text))) v') as Hd.
  { intros v' Hv'. wp_step. eapply wp_mono; [eapply typing_disp; [exact Hv'|intros d Hd; by apply print_types]|].
    cbv beta. intros b v2 Hv2. by wp_step. }
  wp_step. case_match; unfold set_lastPrintedChar; wp_step; by apply Hd.
Qed.

(** The keys of the text. *)
Definition key_of (ch : wchar) : Key := if ch =? CR then Return else if ch =? LF then Feed else if ch =? BS then Back else Char ch.

Definition typing_control (ch : wchar) : Prop := ch = CR ∨ ch = LF ∨ ch = BS.

Definition typeable (ch : wchar) : Prop := typing_control ch ∨ _isActionableFromGround ch = false ∧ narrow ch.

#[export] Instance typeable_dec ch : Decision (typeable ch).
Proof. unfold typeable, typing_control, narrow. apply _. Defined.

Lemma control_typing c p ch flush v :
  typing_engine c p v → typing_control ch →
  wp (OutputEngine_ActionExecute ch flush) (λ _, typing_engine c (strikes (width c) (ink c) p [key_of ch])) v.
Proof.
  intros Hv Hch. unfold OutputEngine_ActionExecute. wp_step.
  eapply wp_mono; [instantiate (1 := λ _, typing_engine c (strikes (width c) (ink c) p [key_of ch]))|].
  - destruct Hch as [-> |[-> | ->]]; cbn -[disp]; wp_step;
      (eapply wp_mono; [eapply typing_disp; [exact Hv|intros d Hd; first [by apply return_types|by apply feed_types|by apply back_types]]|]);
      cbv beta; intros b v2 Hv2; by wp_step.
  - cbv beta. intros _ v2 Hv2. unfold _ClearLastChar, set_lastPrintedChar. repeat wp_step. exact Hv2.
Qed.

(** ** The loop of the parser *)

Definition typing (c : TerminalCore) (p : Paper) (individually : bool) (s : Machine) : Prop :=
  _state s = Ground ∧ _processingIndividually s = individually ∧ typing_engine c p (view_of s).

Lemma typing_run c p b run (s : Machine) : typing c p b s → typing c p b (set_run run s).
Proof. done. Qed.

Lemma call_typing {A} c p p' b (m : EngM (OutputStateMachineEngine WindowsTerminal T) A) (s : Machine) :
  typing c p b s → (∀ flush v, typing_engine c p v → wp (m flush) (λ _, typing_engine c p') v) →
  wp (StateMachine.call m) (λ _, typing c p' b) s.
Proof.
  intros (Hs & Hi & Hv) Hm. unfold wp, StateMachine.call. specialize (Hm (FlushToTerminal (_run s)) _ Hv). unfold wp in Hm.
  destruct (m _ _); [|done]. by split.
Qed.

Lemma process_control c p ch (s : Machine) :
  typing c p true s → typing_control ch →
  wp (ProcessCharacter ch) (λ _, typing c (strikes (width c) (ink c) p [key_of ch]) true) s.
Proof.
  intros Hs Hch. pose proof Hs as (Hg & _). unfold ProcessCharacter. cbn [ProcessCharacter_fuel]. unfold ProcessCharacter_body.
  repeat wp_step. cbv zeta. assert (wp (_ActionExecute ch) (λ _, typing c (strikes (width c) (ink c) p [key_of ch]) true) s) as Hx.
  { unfold _ActionExecute. wp_step. eapply wp_mono; [apply (call_typing c p (strikes (width c) (ink c) p [key_of ch]) true); [done|intros; by apply control_typing]|].
    cbv beta. intros b s' Hs'. by wp_step. }
  unfold process_event. destruct Hch as [-> |[-> | ->]];
    match goal with |- wp (if ?b then _ else _) _ _ => change b with false end; cbn iota;
    match goal with |- wp (if ?b then _ else _) _ _ => change b with false end; cbn iota;
    match goal with |- wp (if ?b then _ else _) _ _ => change b with false end; cbn iota; repeat wp_step; rewrite Hg; exact Hx.
Qed.

Definition plain_text (l : wstring) : Prop := Forall (λ ch, _isActionableFromGround ch = false ∧ narrow ch) l.

Lemma plain_keys l : plain_text l → key_of <$> l = Char <$> l ∧ Forall narrow l.
Proof.
  induction 1 as [|ch l [Ha Hn] _ [IH1 IH2]]; [done|]. split; [|by constructor]. rewrite !fmap_cons, IH1. f_equal. unfold key_of.
  destruct (Z.eqb_spec ch CR) as [->|]; [done|]. destruct (Z.eqb_spec ch LF) as [->|]; [done|]. by destruct (Z.eqb_spec ch BS) as [->|].
Qed.

Lemma strikes_app w a p l l' : strikes w a p (l ++ l') = strikes w a (strikes w a p l) l'.
Proof. apply fold_left_app. Qed.

Lemma drop_pending string start current :
  (start <= current)%nat → drop start string = pending_of string start current ++ drop current string.
Proof.
  intros Hs. unfold pending_of, substr. rewrite <-(take_drop (current - start) (drop start string)) at 1. rewrite drop_drop.
  do 2 f_equal. lia.
Qed.

Lemma print_pending c p l b (s : Machine) :
  typing c p b s → plain_text l →
  wp (StateMachine.call (ActionPrintString (H:=Empty_set) l)) (λ _, typing c (strikes (width c) (ink c) p (key_of <$> l)) b) s.
Proof.
  intros Hs Hl. destruct (plain_keys l Hl) as [-> Hn]. apply (call_typing c p); [done|]. intros. by apply print_typing.
Qed.

(** The loop over text, up to a place in the string: what is pending there is still to be
    printed. *)
Lemma loop_types_until c string l rest n (Q : unit → Machine → Prop) fuel : ∀ start current p (s : Machine),
  Forall typeable l → drop start string = l ++ rest → n = (start + length l)%nat → (start <= current <= n)%nat →
  plain_text (pending_of string start current) → typing c p false s → (2 * (length string - current) < fuel)%nat →
  (∀ fuel' start' p' (s' : Machine), (start' <= n)%nat → plain_text (pending_of string start' n) → typing c p' false s' →
     strikes (width c) (ink c) p' (key_of <$> pending_of string start' n) = strikes (width c) (ink c) p (key_of <$> l) →
     (2 * (length string - n) < fuel')%nat → wp (loop_run fuel' string start' n) Q s') →
  wp (loop_run fuel string start current) Q s.
Proof.
  revert l. induction fuel as [fuel IH] using lt_wf_ind. intros l start current p s Hl Hdrop Hn Hsc Hpen Hs Hf HQ.
  pose proof Hs as (_ & Hi & _). assert (length l + length rest = length string - start)%nat as Hlen.
  { rewrite <-length_app, <-Hdrop. apply length_drop. }
  assert (l = pending_of string start n) as El.
  { unfold pending_of, substr. rewrite Hdrop, Hn, take_app_le, take_ge by lia. done. }
  destruct (decide (current = n)) as [->|Hne].
  { apply (HQ fuel start p s); [lia|done|done|by rewrite <-El|done]. }
  destruct fuel as [|fuel]; [lia|]. destruct (lookup_lt_is_Some_2 string current) as [ch Ec]; [lia|].
  assert (typeable ch) as Hch.
  { apply (Forall_lookup_1 _ l (current - start)); [done|]. rewrite <-(lookup_app_l l rest), <-Hdrop, lookup_drop by lia.
    rewrite <-Ec. f_equal. lia. }
  set (s1 := set_run (substr string start (current - start + 1)) s).
  destruct (_isActionableFromGround ch) eqn:Ea.
  - assert (typing_control ch) as Hc by (destruct Hch as [|[? _]]; [done|congruence]).
    unfold wp. rewrite (loop_run_actionable _ _ _ _ _ _ Ec) by (done || lia). fold s1.
    set (m := StateMachine.call _ ≫= _). change (wp m Q s1). subst m.
    wp_step. eapply wp_mono; [by apply (print_pending c p)|]. cbv beta. intros _ s2 (Hg2 & Hi2 & Hv2). repeat wp_step.
    set (s3 := set_processingIndividually true s2). destruct fuel as [|fuel]; [lia|].
    unfold wp. rewrite (loop_run_open _ _ _ _ ch) by done. set (s4 := set_run _ s3).
    set (m := ProcessCharacter _ ≫= _). change (wp m Q s4). subst m.
    wp_step. eapply wp_mono; [by apply process_control; [|exact Hc]|]. cbv beta. intros _ s5 (Hg5 & Hi5 & Hv5). repeat wp_step.
    rewrite decide_True by done. repeat wp_step.
    assert (l = pending_of string start current ++ ch :: drop (S current - start) l) as E.
    { rewrite <-(take_drop (S current - start) l) at 1. change (ch :: ?x) with ([ch] ++ x). rewrite app_assoc. f_equal.
      rewrite El. rewrite <-(pending_snoc _ _ _ _ Ec) by lia. unfold pending_of, substr. rewrite take_take. f_equal. lia. }
    eapply (IH fuel ltac:(lia) (drop (S current - start) l) (S current) (S current)); [| | |lia| | |lia|].
    + by apply Forall_drop.
    + replace (S current) with (start + (S current - start))%nat at 1 by lia.
      rewrite <-drop_drop, Hdrop. rewrite drop_app_le by lia. done.
    + rewrite length_drop. lia.
    + unfold pending_of. rewrite Nat.sub_diag. by constructor.
    + split; [done|]. split; [done|]. exact Hv5.
    + intros fuel' start' p' s' Q1 Q2 Q3 Q4 Q5. apply (HQ fuel' start' p'); [done..| |done]. rewrite Q4.
      rewrite E at 2. rewrite fmap_app, strikes_app, fmap_cons. done.
  - assert (narrow ch) as Hnr by (destruct Hch as [[->|[->| ->]]|[_ ?]]; done).
    unfold wp. rewrite (loop_run_text _ _ _ _ _ _ Ec) by done. fold s1.
    change (wp (loop_run fuel string start (S current)) Q s1).
    eapply (IH fuel ltac:(lia) l start (S current)); [done|done|done|lia| |done|lia|exact HQ].
    replace (pending_of string start (S current)) with (pending_of string start current ++ [ch]).
    + apply Forall_app. split; [done|]. by apply Forall_singleton.
    + rewrite <-(pending_snoc _ _ _ _ Ec) by lia. unfold pending_of. f_equal. lia.
Qed.

(** ... and at the end of the string. *)
Lemma tail_types c string fuel start p (s : Machine) :
  (start <= length string)%nat → plain_text (pending_of string start (length string)) → typing c p false s → (0 < fuel)%nat →
  wp (loop_run fuel string start (length string))
    (λ _, typing c (strikes (width c) (ink c) p (key_of <$> pending_of string start (length string))) false) s.
Proof.
  intros Hst Hpen Hs Hf. pose proof Hs as (_ & Hi & _). destruct fuel as [|fuel]; [lia|].
  assert (pending_of string start (length string) = drop start string) as Ep.
  { unfold pending_of, substr. apply take_ge. rewrite length_drop. lia. }
  rewrite Ep in *. unfold loop_run. cbn [ProcessString_loop]. rewrite lookup_ge_None_2 by lia. wp_step. wp_step.
  unfold ProcessString_tail. assert ((if decide (start < length string)%nat then drop start string else []) = drop start string) as ->.
  { case_decide; [done|]. by rewrite drop_ge by lia. }
  repeat wp_step. cbn [_processingIndividually set_run _run]. rewrite Hi. cbn [negb andb].
  case_bool_decide as Ed; cbn [negb]; [wp_step; by rewrite Ed|].
  wp_step. eapply wp_mono; [by apply (print_pending c p)|]. cbv beta. intros _ s2 Hs2. by wp_step.
Qed.

Lemma loop_types c string p (s : Machine) :
  Forall typeable string → typing c p false s →
  wp (ProcessString string) (λ _, typing c (strikes (width c) (ink c) p (key_of <$> string)) false) s.
Proof.
  intros Hstr Hs. eapply (loop_types_until c string string [] (length string) _ (2 * length string + 2) 0 0 p); [done|by rewrite app_nil_r|done|lia| |done|lia|].
  { unfold pending_of. by constructor. }
  intros fuel' start' p' s' Q1 Q2 Q3 Q4 Q5. rewrite <-Q4. apply tail_types; [done|done|done|lia].
Qed.

Lemma strings_type c strings : ∀ p (s : Machine),
  typing c p false s → Forall (Forall typeable) strings →
  wp (ProcessStrings strings) (λ _, typing c (strikes (width c) (ink c) p (key_of <$> concat strings)) false) s.
Proof.
  induction strings as [|string strings IH]; intros p s Hs Hl; [by apply wp_ret|]. apply Forall_cons in Hl as [Hstr Hl]. cbn [ProcessStrings concat].
  wp_step. eapply wp_mono; [by apply (loop_types c string p)|].
  cbv beta. intros _ s1 Hs1. rewrite fmap_app, strikes_app. by apply IH.
Qed.

End typing.

(** C7: what an application prints is what a typewriter would put on paper.  Text of
    characters of one column, carriage returns, line feeds and backspaces, cut into strings
    in any way, goes through the parser, the engine and the dispatch and is typed on the
    lines of the buffer: every character is put in the column of the cursor with the
    current attributes, a line that is full is wrapped to the next one and marked,
    a line feed ends a line, and below the last line the oldest line leaves the
    buffer; nothing else on the lines changes, the window goes down as far as the cursor
    needs it, and the terminal stays well formed. *)
Theorem windows_terminal_types (strings : list wstring) (s : Machine) :
  let c := core_of s in
  _state s = Ground → _processingIndividually s = false → wt_end (wt_of s) = None → core_ok c →
  Forall (Forall typeable) strings →
  ∃ s', ProcessStrings strings s = Ok tt s' ∧ wt_end (wt_of s') = None
    ∧ typed c (strikes (width c) (ink c) (paper c) (key_of <$> concat strings)) (core_of s').
Proof.
  intros c Hg Hi He Hc Hl. destruct (wp_ok _ _ _ (strings_type (_isInAnsiMode s, _cachedSequence s) c strings (paper c) s
    (conj Hg (conj Hi (conj He (conj (typed_refl c Hc) eq_refl)))) Hl)) as ([] & s' & E & _ & _ & He' & Ht & _).
  by exists s'.
Qed.
End terminal.

(** ** A new terminal *)

Lemma Create_ok w h scrollback settings callbacks paste :
  2 <= w <= 32000 → 1 <= h <= 32767 → 0 <= scrollback <= 32767 →
  ∃ c, Terminal_Create (mkCOORD w h) scrollback settings callbacks paste = inr c ∧ core_ok c
    ∧ paper c = mkPaper (replicate (Z.to_nat (Z.min (h + scrollback) 32767)) (blank_line w TextAttribute_default)) 0 0
    ∧ width c = w ∧ v_height c = h ∧ v_top c = 0 ∧ row_count c = Z.min (h + scrollback) 32767.
Proof.
  intros Hw Hh Hs. unfold Terminal_Create. cbn [X Y]. set (n := ClampToShortMax (h + scrollback) 1).
  assert (n = Z.min (h + scrollback) 32767) as En.
  { unfold n, ClampToShortMax, std_clamp. rewrite i16_small; repeat case_match; zify_bool; lia. }
  destruct (TextBuffer_init_ok w n TextAttribute_default 12) as (t & Et & Hb & Esz & Hscr); [lia|lia|].
  assert (_cPosition (_cursor t) = mkCOORD 0 0) as Ec.
  { unfold TextBuffer_init in Et. destruct (size_of_rows _) as [|sz]; [done|]. cbn in Et. by injection Et as <-. }
  rewrite Et. cbn [mbind result_bind]. eexists. split; [done|]. set (c := mkCore _ _ _ _ _ _ _ _ _ _ _ _ _ _ _ _ _ _ _ _ _).
  assert (_mutableViewport c = mkViewport (mkRect 0 0 (w - 1) (h - 1))) as Ev.
  { cbn. unfold FromDimensions, FromExclusive, FromInclusive. cbn. by rewrite !i16_small by (rewrite ?i16_small; lia). }
  assert (width c = w) as Ew by (unfold width, t_width, columns, Left, RightInclusive; cbn; rewrite Esz; cbn; lia).
  assert (row_count c = n) as Er.
  { unfold row_count, TotalRowCount. cbn. rewrite <-length_screen, Hscr, length_replicate. lia. }
  assert (v_top c = 0 ∧ v_bot c = h - 1) as [E1 E2] by (unfold v_top, v_bot; by rewrite Ev).
  split; [|split; [|unfold v_height; split_and!; [done|lia|done|lia]]].
  - split; [split|..]; unfold v_height, cursor_position; rewrite ?Ew, ?Er, ?E1, ?E2; cbn [_buffer c _scrollOffset TerminalCore._sgrStack];
      rewrite ?Ec; try done; cbn; try lia. exists []. apply holds_init.
  - unfold paper, cursor_position. cbn. by rewrite Hscr, Ec, En.
Qed.

(** ** The theorems on a small terminal *)

Import Recorder.

#[local] Existing Instance sample_width.

Definition small_settings : CoreSettings := mkSettings true false false false [] [] CursorLegacy.

Definition small_terminal : exn + TerminalCore :=
  Terminal_Create (mkCOORD 5 3) 2 small_settings (λ _, false) false.

Lemma small_terminal_ok : ∃ c, small_terminal = inr c ∧ core_ok c ∧ width c = 5 ∧ X (cursor_position c) = 0.
Proof.
  destruct (Create_ok 5 3 2 small_settings (λ _, false) false) as (c & E & Hc & Hp & Hw & _); [lia..|].
  exists c. split; [done|]. split; [done|]. split; [done|]. by injection Hp.
Qed.

#[local] Instance small_calls : ITermDispatch WindowsTerminal := wt_calls LegacyDefaults_init (λ uri, uri).

(** A line is filled, and a tab stop is set behind it. *)
Lemma windows_terminal_ends_at_fatal_calls_witness :
  ∃ c s', small_terminal = inr c
    ∧ ProcessStrings [wstr "abcde"; [ESC; 0x48]] (new_windows_terminal (T := Recorder.Tty) c) = Ok tt s' ∧ core_ok c
    ∧ match wt_end (wt_of s') with
      | None => core_ok (core_of s')
      | Some (k, d, _) => core_ok (_terminalApi d) ∧ fatal k d
      end.
Proof.
  destruct small_terminal_ok as (c & E & Hc & _).
  destruct (windows_terminal_ends_at_fatal_calls (T := Recorder.Tty) LegacyDefaults_init (λ uri, uri) [wstr "abcde"; [ESC; 0x48]] c)
    as (s' & Es & _ & Hs').
  - apply (bool_decide_unpack _). vm_compute. exact I.
  - exact Hc.
  - exists c, s'. split; [exact E|]. split; [exact Es|]. split; [exact Hc|exact Hs'].
Defined.

(** Two lines of text, of which the second one is too long. *)
Lemma windows_terminal_types_witness :
  ∃ c s', small_terminal = inr c
    ∧ ProcessStrings [wstr "ab" ++ [CR]; [LF] ++ wstr "cdefghi"] (new_windows_terminal (T := Recorder.Tty) c) = Ok tt s'
    ∧ typed c (strikes 5 (ink c) (paper c) ([Char 97; Char 98; Return; Feed] ++ (Char <$> wstr "cdefghi"))) (core_of s').
Proof.
  destruct small_terminal_ok as (c & E & Hc & Hw & _).
  destruct (windows_terminal_types (T := Recorder.Tty) LegacyDefaults_init (λ uri, uri) [wstr "ab" ++ [CR]; [LF] ++ wstr "cdefghi"]
    (new_windows_terminal c)) as (s' & Es & _ & Hs'); [reflexivity|reflexivity|reflexivity|exact Hc| |].
  - apply (bool_decide_unpack _). vm_compute. exact I.
  - exists c, s'. split; [exact E|]. split; [exact Es|]. change (core_of (new_windows_terminal (T := Recorder.Tty) c)) with c in Hs'.
    rewrite Hw in Hs'. exact Hs'.
Defined.

Lemma calls_end_exactly_if_fatal_witness :
  ∃ c, small_terminal = inr c
    ∧ wp (td_call LegacyDefaults_init (λ uri, uri) HorizontalTabSet) (λ _, td_ok) (TerminalDispatch_init c).
Proof.
  destruct small_terminal_ok as (c & E & Hc & Hw & Hx). exists c. split; [exact E|].
  pose proof (calls_end_exactly_if_fatal LegacyDefaults_init (λ uri, uri) HorizontalTabSet (TerminalDispatch_init c) I Hc) as Hk.
  rewrite decide_False in Hk; [exact Hk|]. unfold fatal, stop_columns, td_column. cbn. rewrite Hw, Hx. lia.
Defined.

(** The user has scrolled up by a line when the window moves. *)
Lemma scrolled_view_stays_witness :
  ∃ c, small_terminal = inr c
    ∧ wp (_AdjustCursorPosition (mkCOORD 0 3)) (λ _ c', core_ok c' ∧ visible_lines c' = visible_lines (with_scrollOffset 1 c))
         (with_scrollOffset 1 c).
Proof.
  destruct (Create_ok 5 3 2 small_settings (λ _, false) false) as (c & E & Hc & _ & Hw & Hh & Ht & Hr); [lia..|]. exists c. split; [exact E|].
  assert (core_ok (with_scrollOffset 1 c)) as Hc1.
  { destruct Hc as [[Ha1 Ha2 Ha3 Ha4 Ha5 Ha6 Ha7] Ha8 Ha9]. split; [split|..]; try done.
    change (row_count (with_scrollOffset 1 c)) with (row_count c). change (v_height (with_scrollOffset 1 c)) with (v_height c). cbn. lia. }
  eapply wp_mono; [apply (scrolled_view_stays (mkCOORD 0 3) (with_scrollOffset 1 c) Hc1)|].
  - unfold target_ok. cbn [X Y]. change (row_count (with_scrollOffset 1 c)) with (row_count c).
    change (v_top (with_scrollOffset 1 c)) with (v_top c). change (width (with_scrollOffset 1 c)) with (width c). lia.
  - cbv beta. intros _ c' [Hok Hv]. split; [exact Hok|].
    replace (holds_view (with_scrollOffset 1 c)) with true in Hv by (unfold holds_view; cbn; by rewrite orb_true_r).
    apply Hv. unfold new_lines, _VisibleStartIndex, ViewStartIndex. change (row_count (with_scrollOffset 1 c)) with (row_count c).
    change (Top (_mutableViewport (with_scrollOffset 1 c))) with (v_top c). cbn. lia.
Defined.

Lemma erase_scrollback_correct_witness :
  ∃ c, small_terminal = inr c ∧ wp (Terminal_EraseInDisplay EraseScrollback) (λ ok c', ok = true ∧ scrollback_erased c c') c.
Proof.
  destruct small_terminal_ok as (c & E & Hc & _). exists c. split; [exact E|]. by apply erase_scrollback_correct.
Defined.

(** A line is selected, the mouse goes far down and then to the line above. *)
Lemma selection_keeps_pivot_witness :
  ∃ c, small_terminal = inr c
    ∧ (MultiClickSelection (mkCOORD 1 1) ExpandLine;; drag [(mkCOORD 2 30, None); (mkCOORD 3 0, None)]) c
      = Ok tt (selecting (mkAnchors (mkCOORD 0 0) (mkCOORD 4 1) (mkCOORD 0 1)) ExpandLine c).
Proof.
  destruct (Create_ok 5 3 2 small_settings (λ _, false) false) as (c & E & Hc & _ & Hw & Hh & Ht & Hr); [lia..|].
  exists c. split; [exact E|].
  destruct (selection_keeps_pivot c (mkCOORD 1 1) ExpandLine [(mkCOORD 2 30, None)] (mkCOORD 3 0, None)) as
    (click & s & Er & [Hcs Hce] & (a & b & [Ha Hb] & Es) & _).
  - apply Hc.
  - repeat constructor; unfold move_ok; cbn; lia.
  - etransitivity; [exact Er|]. cbn in Es. subst s. rewrite Hcs in *.
    assert (_VisibleStartIndex c = 0) as Ev.
    { pose proof (co_scroll _ (co_v _ Hc)). unfold _VisibleStartIndex, ViewStartIndex. unfold v_top in Ht. lia. }
    assert (cell_under c (mkCOORD 1 1) = mkCOORD 1 1 ∧ cell_under c (mkCOORD 3 0) = mkCOORD 3 0) as [E1 E2]
      by (unfold cell_under; by rewrite Ev, Hw, Hr).
    cbn [fst] in Ha, Hb. rewrite E1, E2 in *. unfold reading_order, place in Ha, Hb. rewrite Hw in Ha, Hb.
    by rewrite Ha, Hb.
Defined.

(** The text has an end mark of its own, and two lines. *)
Lemma pasted_text_stays_bracketed_witness :
  ∃ c, Terminal_Create (mkCOORD 5 3) 2 small_settings (λ _, true) true = inr c
    ∧ WritePastedText ([0x1B] ++ wstr "[201~" ++ [0x78; 13; 10]) c
      = Ok tt (with_notified [WriteInput ([0x1B] ++ wstr "[200~[201~" ++ [0x78; 13; 0x1B] ++ wstr "[201~")] c).
Proof.
  destruct (Terminal_Create _ _ _ _ _) as [e|c] eqn:Ec; [discriminate Ec|]. exists c. split; [done|].
  destruct (pasted_text_stays_bracketed ([0x1B] ++ wstr "[201~" ++ [0x78; 13; 10]) c) as (body & E & Eb & _);
    [by injection Ec as <-..|].
  etransitivity; [exact E|]. rewrite Eb. by injection Ec as <-.
Defined.

(** A layout with one key. *)
#[local] Instance small_keyboard : Keyboard := {
  VkKeyScanW := λ _, -1; MapVirtualKey_VSC := λ _, 0; MapVirtualKey_CHAR := λ _, 0 }.
#[local] Instance small_layout : KeyLayout := {
  MapVirtualKey_VK := λ _, 0; ToUnicodeEx := λ vkey _ _ _, if vkey =? 0x51 then (1, (0x71, 0)) else (0, (0, 0)) }.

Lemma typed_character_keeps_its_key_witness :
  ∃ c, small_terminal = inr c
    ∧ wp (pressed ← SendKeyEvent 0x51 0x10 0 true; sent ← SendCharEvent 0x71 0x10 0; mret (pressed, sent))
         (λ r c', r = (false, true) ∧ _lastKeyEventCodes c' = None) c.
Proof.
  destruct small_terminal_ok as (c & E & Hc & _). exists c. split; [exact E|].
  destruct (typed_character_keeps_its_key 0x51 0x10 0 0x71 c) as [Hr _].
  - apply Hc.
  - unfold brings_character. split_and!; try done; try lia. cbn. by rewrite andb_false_r.
  - reflexivity.
  - eapply wp_mono; [exact Hr|]. cbv beta. intros r c' [-> (n & _ & ->)]. split; [|done].
    injection E as <-. reflexivity.
Defined.
