(* ===== verification/TerminalDisplay.v ===== *)
(** The Windows Terminal as a display: what a stream of text, colours and cursor movements does to
    the lines, the cursor and the window. *)

From stdpp Require Import strings.
From S2P Require Import Prelude DispatchTypes StateMachine StateMachineFacts ParserEquiv ParserParams ParserCsi Utils ColorTable OutputEngine OutputFacts InputFacts TextColor TextAttribute SgrStack Sgr Utf16 Viewport ViewportFacts OutputCell CharRow Row Cursor TextBuffer TextBufferFacts TextNavFacts CircularFacts WriteFacts AdaptDispatch TerminalCore TerminalDispatch TerminalCoreFacts TerminalCoreSafe TerminalDispatchFacts TerminalScreen WindowsTerminal.

Import AsciiChars.

#[local] Open Scope Z_scope.

(** ** The display *)

(** The paper with its ink, and the window: its width, its first line and its height. *)
Record Display := mkDisplay {
  d_paper : Paper;
  d_ink : TextAttribute;
  d_width : Z;
  d_top : Z;
  d_height : Z
}.

Definition d_bot (D : Display) : Z := d_top D + d_height D - 1.

Definition display (c : TerminalCore) : Display := mkDisplay (paper c) (ink c) (width c) (v_top c) (v_height c).

(** What a stream is made of: text with carriage returns, line feeds and backspaces; graphic
    renditions; the cursor at a row and a column, counted from 1, at the origin, or forward;
    blanks in a number of cells, or up to the end of the line; the cursor made visible or not. *)
Inductive Piece :=
  | Plain (l : wstring)
  | Style (ns : list Z)
  | MoveTo (row column : Z)
  | Home
  | Forward (n : Z)
  | EraseCells (n : Z)
  | EraseRight
  | ShowCursor (visible : bool).

Definition csi (ns : list Z) (final : wchar) : CsiSequence := mkCsi None (numbers ns) [] final.

Definition show_sequence (visible : bool) : CsiSequence := mkCsi (Some 0x3F) (numbers [25]) [] (if visible then 0x68 else 0x6C).

Definition sequence_of (p : Piece) : option (CsiSequence * DispatchCall) :=
  match p with
  | Plain _ => None
  | Style ns => Some (csi ns 0x6D, SetGraphicsRendition (parse_params (numbers ns)))
  | MoveTo row column => Some (csi [row; column] 0x48, CursorPosition row column)
  | Home => Some (csi [] 0x48, CursorPosition 1 1)
  | Forward n => Some (csi [n] 0x43, CursorForward n)
  | EraseCells n => Some (csi [n] 0x58, EraseCharacters n)
  | EraseRight => Some (csi [] 0x4B, EraseInLine 0)
  | ShowCursor visible => Some (show_sequence visible, (if visible then SetMode else ResetMode) (DECPrivateMode 25))
  end.

Definition piece_text (p : Piece) : wstring :=
  match p with
  | Plain l => l
  | Style ns => csi_string (csi ns 0x6D)
  | MoveTo row column => csi_string (csi [row; column] 0x48)
  | Home => csi_string (csi [] 0x48)
  | Forward n => csi_string (csi [n] 0x43)
  | EraseCells n => csi_string (csi [n] 0x58)
  | EraseRight => csi_string (csi [] 0x4B)
  | ShowCursor visible => csi_string (show_sequence visible)
  end.

Definition pieces_text (l : list Piece) : wstring := concat (piece_text <$> l).

(** The window goes down with the carriage. *)
Definition put_paper (p : Paper) (D : Display) : Display :=
  mkDisplay p (d_ink D) (d_width D) (Z.max (d_bot D) (py p) - d_height D + 1) (d_height D).

(** The cursor on a cell of the window. *)
Definition put_cursor (x y : Z) (D : Display) : Display :=
  mkDisplay (mkPaper (sheet (d_paper D)) (std_clamp (i16 x) 0 (d_width D - 1))
               (std_clamp (i16 (d_top D + y)) (d_top D) (d_bot D)))
    (d_ink D) (d_width D) (d_top D) (d_height D).

Definition act (D : Display) (p : Piece) : Display :=
  match p with
  | Plain l => put_paper (strikes (d_width D) (d_ink D) (d_paper D) (key_of <$> l)) D
  | Style ns => mkDisplay (d_paper D) (vt_applied (parse_params (numbers ns)) (d_ink D)) (d_width D) (d_top D) (d_height D)
  | MoveTo row column => put_cursor (column - 1) (row - 1) D
  | Home => put_cursor 0 0 D
  | Forward n => put_cursor (i16 (px (d_paper D) + n)) (py (d_paper D) - d_top D) D
  | EraseCells n =>
      put_paper (erased true (Z.min n (d_width D - px (d_paper D))) (d_width D) (d_ink D) (d_paper D)) D
  | EraseRight => put_paper (erased false (d_width D - px (d_paper D)) (d_width D) (d_ink D) (d_paper D)) D
  | ShowCursor _ => D
  end.

Definition acts (D : Display) (l : list Piece) : Display := fold_left act l D.

Section display.
Context `{GlyphWidth} (defaults : LegacyDefaults) (suffix : wstring → wstring).

Definition piece_ok (p : Piece) : Prop :=
  match p with
  | Plain l => Forall typeable l
  | Style ns => (length ns <= 32)%nat ∧ Forall (λ n, 0 <= n < 2 ^ 64) ns
  | MoveTo row column => 1 <= row <= 32767 ∧ 1 <= column <= 32767
  | Home => True
  | Forward n => 1 <= n <= 32767
  | EraseCells n => 1 <= n <= 32767 ∧ narrow UNICODE_SPACE
  | EraseRight => narrow UNICODE_SPACE
  | ShowCursor _ => True
  end.

(** ** The calls *)

Definition td_display (d : TerminalDispatch) : Display := display (_terminalApi d).

(** The dispatch [d'] is well formed and displays [D]. *)
Definition displays (D : Display) (d' : TerminalDispatch) : Prop := td_ok d' ∧ td_display d' = D.

Lemma typed_display c p c' : typed c p c' → display c' = put_paper p (display c).
Proof.
  intros Ht. unfold display, put_paper, d_bot. cbn. pose proof (ty_height _ _ _ Ht) as Eh. pose proof (ty_window _ _ _ Ht) as Ew.
  f_equal; [apply Ht|apply Ht|by eapply typed_width|unfold v_height in *; lia|done].
Qed.

Lemma position_display x y d :
  td_ok d → wp (on_api (Terminal_SetCursorPosition x y)) (λ b d', b = true ∧ displays (put_cursor x y (td_display d)) d') d.
Proof.
  intros Hd. apply wp_on_api, SetCursorPosition_ok; [apply Hd|]. intros c' p Hc' Ep Ep' Ec. split; [done|]. split; [done|].
  unfold td_display, put_cursor, display, d_bot. cbn [_terminalApi set_api d_top d_height d_width d_ink d_paper].
  subst c'. f_equal. unfold paper at 1. rewrite Ep, Ep'. cbn [X Y]. unfold v_height. f_equal. f_equal. lia.
Qed.

Lemma cursor_relative c : core_ok c →
  X (Terminal_GetCursorPosition c) = X (cursor_position c) ∧ Y (Terminal_GetCursorPosition c) = Y (cursor_position c) - v_top c.
Proof.
  intros Hc. pose proof (co_line c Hc). pose proof (co_top c Hc). pose proof (co_bot c Hc). pose proof (core_rows_range c Hc).
  pose proof (co_width c Hc). pose proof (co_column c Hc). unfold Terminal_GetCursorPosition. cbn [X Y].
  rewrite (Left_view c Hc), Z.sub_0_r. change (Top (_mutableViewport c)) with (v_top c). by rewrite !i16_small by lia.
Qed.

Lemma visible_position visible k : _cPosition (SetIsVisible visible k) = _cPosition k.
Proof. unfold SetIsVisible, _RedrawCursor. by repeat case_match. Qed.

Lemma put_paper_same c : core_ok c → put_paper (paper c) (display c) = display c.
Proof. intros Hc. pose proof (co_line c Hc). unfold put_paper, display, d_bot, v_height. cbn. f_equal. lia. Qed.

Lemma sequence_acts p q k d :
  sequence_of p = Some (q, k) → piece_ok p → td_ok d →
  wp (td_call defaults suffix k) (λ b d', b = true ∧ displays (act (td_display d) p) d') d.
Proof.
  intros Hq Hp Hd. destruct p as [l|ns|row column| |n|n| |visible]; simplify_eq/=; cbn [td_call].
  - apply graphics_ok. intros c. split; [done|]. split; [|done].
    apply (core_ok_same c); [done| |done]. by apply (CircularFacts.buffer_part_ok (_buffer c)), (co_buffer c Hd).
  - destruct Hp as [Hr Hc]. unfold TD_CursorPosition, SizeTToShort, ShortSub.
    rewrite !(proj2 (Z.leb_le _ 32767)) by lia. rewrite !(proj2 (Z.leb_le (-32768) _)) by lia. cbn [andb].
    by apply position_display.
  - by apply position_display.
  - unfold TD_CursorForward, api_cursor. apply wp_try_log, wpx_wp. repeat wp_step. eapply lift_ok.
    { unfold gsl_narrow. rewrite (proj2 (Z.leb_le (-32768) n)), (proj2 (Z.leb_le n 32767)) by lia. reflexivity. }
    destruct (cursor_relative _ Hd) as [-> ->]. by apply position_display.
  - destruct Hp as [Hn Hsp]. eapply wp_mono; [by apply erase_characters_types|]. cbv beta. intros b d' [-> Ht]. split; [done|].
    split; [apply Ht|]. exact (typed_display _ _ _ Ht).
  - eapply wp_mono; [by apply erase_line_types|]. cbv beta. intros b d' [-> Ht]. split; [done|].
    split; [apply Ht|]. exact (typed_display _ _ _ Ht).
  - assert (wp (on_api (Terminal_SetCursorVisibility visible)) (λ b d', b = true ∧ displays (td_display d) d') d) as Hw.
    { apply wp_on_api. unfold Terminal_SetCursorVisibility. wp_step. apply wp_on_cursor. wp_step. split; [done|].
      pose proof (typed_cursor (SetIsVisible visible) _ _ _ (visible_position visible) (typed_refl _ Hd)) as Ht.
      split; [apply Ht|]. unfold td_display at 1. cbn [_terminalApi set_api]. rewrite (typed_display _ _ _ Ht). by apply put_paper_same. }
    by destruct visible.
Qed.

(** ** The parser *)

#[local] Instance display_calls : ITermDispatch WindowsTerminal := wt_calls defaults suffix.

Context {T : Type} `{ITerminalOutputConnection T} `{Utf8Converter}.

#[local] Abbreviation Engine := (OutputStateMachineEngine WindowsTerminal T).
#[local] Abbreviation Machine := (StateMachine Engine Empty_set).

Lemma sequence_valid p q k : sequence_of p = Some (q, k) → piece_ok p →
  csi_valid q = true ∧ piece_text p = csi_string q
  ∧ ∀ v : EngineView Engine, text_switch (csi_chars q) csi_names (snd <$> csi_cases (parse_params (csi_text q))) (mret false) v = disp k v.
Proof.
  intros Hq Hp. destruct p as [l|ns|row column| |n|n| |visible]; simplify_eq/=.
  - destruct Hp as [Hl Hn]. split; [|done]. unfold csi_valid. cbn. destruct ns as [|n ns]; [done|].
    by rewrite (proj1 (parse_numbers (n :: ns) ltac:(done) Hl Hn)).
  - destruct Hp as [Hr Hc]. destruct (parse_numbers [row; column]) as [Hch Hparse]; [done|cbn; lia|repeat constructor; lia|].
    split; [unfold csi_valid; cbn -[numbers]; by rewrite Hch|]. split; [done|]. intros v. cbn [csi csi_text]. rewrite Hparse.
    change (disp (CursorPosition (as_numeric (VTParameter_of (Z.min 32767 row))) (as_numeric (VTParameter_of (Z.min 32767 column)))) v
      = disp (CursorPosition row column) v). by rewrite !as_numeric_number by lia.
  - done.
  - destruct (parse_numbers [n]) as [Hch Hparse]; [done|cbn; lia|repeat constructor; lia|].
    split; [unfold csi_valid; cbn -[numbers]; by rewrite Hch|]. split; [done|]. intros v. cbn [csi csi_text]. rewrite Hparse.
    change (disp (CursorForward (as_numeric (VTParameter_of (Z.min 32767 n)))) v = disp (CursorForward n) v).
    by rewrite as_numeric_number by lia.
  - destruct Hp as [Hn _]. destruct (parse_numbers [n]) as [Hch Hparse]; [done|cbn; lia|repeat constructor; lia|].
    split; [unfold csi_valid; cbn -[numbers]; by rewrite Hch|]. split; [done|]. intros v. cbn [csi csi_text]. rewrite Hparse.
    change (disp (EraseCharacters (as_numeric (VTParameter_of (Z.min 32767 n)))) v = disp (EraseCharacters n) v).
    by rewrite as_numeric_number by lia.
  - split; [done|]. split; [done|]. intros v.
    change (params_for_each (λ p, disp (EraseInLine (as_selective p))) [] v = disp (EraseInLine 0) v).
    change (match disp (EraseInLine 0) v with Ok a w => Ok a w | Throw e w => Throw e w end = disp (EraseInLine 0) v).
    by rewrite disp_eq.
  - split; [by destruct visible|]. split; [done|]. intros v.
    assert (∀ k, match disp k v with Ok a w => Ok a w | Throw e w => Throw e w end = disp k v) as E by (intros k; by rewrite disp_eq).
    destruct visible; [exact (E (SetMode (DECPrivateMode 25)))|exact (E (ResetMode (DECPrivateMode 25)))].
Qed.
(** The parser between two pieces of a string: [p] has been typed on the terminal since it was
    [c], and the text [l] is still to be printed. *)
#[local] Abbreviation typing' := (typing (T := T) (true, None)).

Definition shown_so_far (c : TerminalCore) (p : Paper) (l : wstring) : Display :=
  put_paper (strikes (width c) (ink c) p (key_of <$> l)) (display c).

Lemma shown_display c : core_ok c → shown_so_far c (paper c) [] = display c.
Proof.
  apply put_paper_same.
Qed.

Lemma act_plain c p pen l : act (shown_so_far c p pen) (Plain l) = shown_so_far c p (pen ++ l).
Proof.
  unfold shown_so_far, act. cbn [d_width d_ink d_paper put_paper display]. rewrite fmap_app, strikes_app.
  set (p1 := strikes _ _ p _). pose proof (strikes_down (width c) (ink c) (key_of <$> l) p1). unfold put_paper, d_bot. cbn. f_equal. lia.
Qed.

(** The state at the end. *)
Definition finished (D : Display) (s : Machine) : Prop :=
  at_ground s ∧ wt_end (wt_of s) = None ∧ displays D (wt_dispatch (wt_of s)).

Lemma typing_finished c p (s : Machine) :
  typing' c p false s → finished (put_paper p (display c)) s.
Proof.
  intros (Hg & Hi & He & Ht & Hm). injection Hm as Ha Hcs. split; [by split_and!|]. split; [done|]. split; [apply Ht|].
  by apply typed_display.
Qed.

(** A sequence in the string. *)
Lemma loop_sequence p q k string n rest c p1 fuel (s : Machine) (Q : unit → Machine → Prop) :
  sequence_of p = Some (q, k) → piece_ok p → drop n string = csi_string q ++ rest →
  _processingIndividually s = true → typing' c p1 true s →
  (∀ (s' : Machine), let c' := core_of s' in
     core_ok c' → display c' = act (put_paper p1 (display c)) p → typing' c' (paper c') false s' →
     wp (loop_run fuel string (n + length (csi_string q)) (n + length (csi_string q))) Q s') →
  wp (loop_run (length (csi_string q) + fuel) string n n) Q s.
Proof.
  intros Hq Hp Hdrop Hi (Hg & _ & He & Ht & Hm) HQ. injection Hm as Ha Hcs.
  destruct (sequence_valid p q k Hq Hp) as (Hv & _ & Hsw).
  set (d := wt_dispatch (wt_of s)). destruct (wp_ok _ _ _ (sequence_acts p q k d Hq Hp (ty_ok _ _ _ Ht))) as (b & d' & E & -> & Hd' & ED).
  set (v := StateMachine.mkView None true (mkOutputEngine (mkWT d' None) (_pTtyConnection (_engine s)) (_pfnFlushToTerminal (_engine s)) NUL)).
  destruct (loop_csi fuel string n q rest s true v) as [lim Hl]; [done|done|done|done|done| |].
  { etrans; [apply (CsiDispatch_success q _ _ _ (after_disp k (view_of s))); [done|]|].
    2:{ unfold forget_last, after_disp. cbn -[td_call]. unfold d, wt_of in E. cbn in He. rewrite He, E. cbn. by rewrite Hcs, Ha. }
    rewrite Hsw, disp_eq. unfold accepts. cbn -[td_call]. unfold d, wt_of in E. cbn in He. by rewrite He, E. }
  unfold wp, loop_run in *. unfold mbind, prog_bind in *. rewrite Hl. cbv zeta.
  apply (HQ (set_run (csi_string q) (csi_done q lim v))).
  - exact Hd'.
  - change (td_display d' = act (put_paper p1 (display c)) p). rewrite ED. f_equal. by apply typed_display.
  - split; [done|]. split; [done|]. split; [done|]. split; [|done]. by apply typed_refl.
Qed.

Lemma pieces_loop string l : ∀ n start p c fuel (s : Machine),
  Forall piece_ok l → drop n string = pieces_text l → (start <= n <= length string)%nat →
  plain_text (pending_of string start n) → typing' c p false s → (2 * (length string - n) < fuel)%nat →
  wp (loop_run fuel string start n) (λ _, finished (acts (shown_so_far c p (pending_of string start n)) l)) s.
Proof.
  induction l as [|p0 l IH]; intros n start p c fuel s Hok Hdrop Hn Hpen Hs Hf.
  - assert (n = length string) as ->.
    { apply (f_equal length) in Hdrop. rewrite length_drop in Hdrop. cbn in Hdrop. lia. }
    eapply wp_mono; [apply (tail_types defaults suffix (true, None) c); [lia|done|exact Hs|lia]|].
    cbv beta. intros _ s' Hs'. by apply typing_finished in Hs'.
  - apply Forall_cons in Hok as [Hp0 Hok]. unfold pieces_text in Hdrop. rewrite fmap_cons in Hdrop. cbn [concat] in Hdrop.
    assert (length (piece_text p0) + length (pieces_text l) = length string - n)%nat as Hlen.
    { unfold pieces_text. rewrite <-length_app, <-Hdrop. apply length_drop. }
    destruct (sequence_of p0) as [[q k]|] eqn:Hq.
    + destruct (sequence_valid p0 q k Hq Hp0) as (Hv & Et & _). rewrite Et in *.
      assert (0 < length (csi_string q))%nat by (cbn; lia).
      assert (string !! n = Some ESC) as Ec by (rewrite <-(Nat.add_0_r n), <-lookup_drop, Hdrop; done).
      pose proof Hs as (_ & Hi & _). destruct fuel as [|fuel]; [lia|].
      unfold wp. rewrite (loop_run_actionable _ _ _ _ _ _ Ec) by (done || lia).
      set (s1 := set_run _ s). set (m := StateMachine.call _ ≫= _).
      change (wp m (λ _, finished (acts (shown_so_far c p (pending_of string start n)) (p0 :: l))) s1). subst m.
      wp_step. eapply wp_mono; [apply (print_pending defaults suffix (true, None) c p); [exact Hs|done]|]. cbv beta.
      intros _ s2 (Hg2 & Hi2 & Hv2). repeat wp_step. set (s3 := set_processingIndividually true s2).
      replace fuel with (length (csi_string q) + (fuel - length (csi_string q)))%nat by lia.
      eapply loop_sequence; [exact Hq|done|exact Hdrop|done|split; [exact Hg2|split; [done|exact Hv2]]|].
      intros s' c' Hc' Ed Hs'. set (n' := (n + length (csi_string q))%nat).
      assert (pending_of string n' n' = []) as Epen by (unfold pending_of; by rewrite Nat.sub_diag).
      assert (acts (shown_so_far c p (pending_of string start n)) (p0 :: l) = acts (shown_so_far c' (paper c') (pending_of string n' n')) l) as ->.
      { by rewrite Epen, (shown_display c' Hc'), Ed. }
      apply IH; [done|unfold n'; by rewrite <-drop_drop, Hdrop, drop_app_length|unfold n'; lia|rewrite Epen; apply Forall_nil_2|exact Hs'|unfold n'; lia].
    + destruct p0 as [l0| | | | | | |]; try done. cbn [piece_text] in *.
      assert (pending_of string start n ++ l0 ++ pieces_text l = drop start string) as Ed.
      { rewrite (drop_pending string start n) by lia. by rewrite Hdrop. }
      assert (length (pending_of string start n) = n - start)%nat as Hlp.
      { unfold pending_of, substr. rewrite length_take, length_drop. lia. }
      eapply (loop_types_until defaults suffix (true, None) c string (pending_of string start n ++ l0) (pieces_text l) (n + length l0));
        [|by rewrite <-app_assoc|rewrite length_app; lia|lia|done|exact Hs|done|].
      { apply Forall_app. split; [|done]. eapply Forall_impl; [exact Hpen|]. intros ch Hch. by right. }
      intros fuel' start' p' s' Q1 Q2 Q3 Q4 Q5.
      assert (acts (shown_so_far c p (pending_of string start n)) (Plain l0 :: l)
        = acts (shown_so_far c p' (pending_of string start' (n + length l0))) l) as ->.
      { change (acts (act (shown_so_far c p (pending_of string start n)) (Plain l0)) l = acts (shown_so_far c p' (pending_of string start' (n + length l0))) l).
        rewrite act_plain. unfold shown_so_far. by rewrite Q4. }
      apply IH; [done|by rewrite <-drop_drop, Hdrop, drop_app_length|lia|done|done|done].
Qed.

Lemma strings_display (strings : list (list Piece)) (s : Machine) :
  at_ground s → wt_end (wt_of s) = None → core_ok (core_of s) → Forall (Forall piece_ok) strings →
  ∃ s', ProcessStrings (pieces_text <$> strings) s = Ok tt s' ∧ at_ground s' ∧ wt_end (wt_of s') = None ∧ core_ok (core_of s')
    ∧ display (core_of s') = acts (display (core_of s)) (concat strings).
Proof.
  revert s. induction strings as [|l strings IH]; intros s Hg He Hc Hok.
  { exists s. by split_and!. }
  apply Forall_cons in Hok as [Hl Hok]. pose proof Hg as (G1 & G2 & G3 & G4).
  destruct (wp_ok _ _ _ (pieces_loop (pieces_text l) l 0 0 (paper (core_of s)) (core_of s) (2 * length (pieces_text l) + 2) s Hl eq_refl
    ltac:(lia) ltac:(unfold pending_of; by constructor) (conj G1 (conj G2 (conj He (conj (typed_refl _ Hc) (f_equal2 pair G3 G4))))) ltac:(lia)))
    as ([] & s1 & E1 & Hg1 & He1 & Hd1 & ED1).
  destruct (IH s1 Hg1 He1 Hd1 Hok) as (s2 & E2 & Hg2 & He2 & Hc2 & ED2).
  exists s2. split_and!; [|done|done|done|].
  - rewrite fmap_cons. cbn [ProcessStrings]. rewrite (bind_ok _ _ _ _ _ E1). done.
  - rewrite ED2. change (display (core_of s1)) with (td_display (wt_dispatch (wt_of s1))). rewrite ED1.
    unfold pending_of. cbn [Nat.sub]. change (substr _ 0 0) with (@nil Z). rewrite shown_display by done.
    unfold acts. cbn [concat]. by rewrite fold_left_app.
Qed.

(** C8: the Windows Terminal refines the abstract display.  From a parser in its ground state, any
    strings made of text of one-column characters with carriage returns, line feeds and
    backspaces, graphic renditions (SGR), the cursor at a position (CUP) or at the origin of the
    window, the cursor forward (CUF), erasing a number of characters (ECH), erasing to the end of
    the line (EL 0) and the visibility of the cursor are processed without an exception and
    without the end of the process; the parser is in its ground state again, the
    terminal is well formed, and its lines, its cursor, its attributes and its window are what the
    pieces do one after the other to those that it had: the numbers come out of the parser as
    they were printed, the sequences reach the right call, and text that the parser holds back
    until a sequence begins is written before it.  Other sequences are not pieces of the display,
    so not the cursor up, down or back nor the other erasures. *)
Theorem windows_terminal_refines_display (strings : list (list Piece)) (s : Machine) :
  at_ground s → wt_end (wt_of s) = None → core_ok (core_of s) → Forall (Forall piece_ok) strings →
  ∃ s', ProcessStrings (pieces_text <$> strings) s = Ok tt s' ∧ at_ground s' ∧ wt_end (wt_of s') = None ∧ core_ok (core_of s')
    ∧ display (core_of s') = acts (display (core_of s)) (concat strings).
Proof. apply strings_display. Qed.
End display.

(** ** The theorem on a small terminal *)

Import Recorder.

#[local] Existing Instance sample_width.
#[local] Existing Instance small_calls.

#[export] Instance piece_ok_dec p : Decision (piece_ok p).
Proof. unfold piece_ok, narrow. destruct p; apply _. Defined.

(** Red text in the second line, of which the end is erased again. *)
Definition small_pieces : list (list Piece) :=
  [[Plain (wstr "ab"); Style [31]; MoveTo 2 2]; [Plain (wstr "cde"); MoveTo 2 4; EraseRight; Forward 1]].

Lemma windows_terminal_refines_display_witness :
  ∃ c s', small_terminal = inr c
    ∧ ProcessStrings (pieces_text <$> small_pieces) (new_windows_terminal (T := Recorder.Tty) c) = Ok tt s'
    ∧ display (core_of s') = acts (display c) (concat small_pieces).
Proof.
  destruct small_terminal_ok as (c & E & Hc & _).
  destruct (windows_terminal_refines_display (T := Recorder.Tty) LegacyDefaults_init (λ uri, uri) small_pieces (new_windows_terminal c))
    as (s' & Es & _ & _ & _ & Ed); [split_and!; reflexivity|reflexivity|exact Hc| |].
  - apply (bool_decide_unpack _). vm_compute. exact I.
  - exists c, s'. split; [exact E|]. split; [exact Es|exact Ed].
Defined.
