(* ===== verification/VtRenderer.v ===== *)
(** The renderer that writes the screen as text for another terminal ("conpty"):
    [src/src/renderer/vt], the classes [VtEngine], [XtermEngine] and [Xterm256Engine], and the
    titles of [src/src/renderer/base/RenderEngineBase.cpp].

    The renderer remembers what the terminal at the other end shows, the attributes
    ([_lastTextAttributes]) and the place of the cursor ([_lastText]), and writes only what
    changes them.  The text is collected in [_buffer] and written to a pipe; [written] has what the
    pipe was given, write by write, and [closed] how often the owner of the terminal was told that
    the pipe is broken.  A failed [HRESULT] is an exception: [RETURN_IF_FAILED] is the bind of
    [prog]; where a function returns one of the two successes, [true] is [S_OK] and [false]
    [S_FALSE].  The pipe is a valid handle, and allocation does not fail, so that [_Write] does not.
    [_WriteFormattedString] is a [_Write] of the formatted text; what it does when its buffer is
    too small is left out, and so is tracing. *)

From stdpp Require Import strings.
From S2P Require Import Prelude DispatchTypes TextColor TextAttribute ColorTable Viewport Utf8 Til Bitmap.

Import Til Bitmap.

#[local] Open Scope Z_scope.

Module VtRender.

(** The system: the conversion to UTF-8, whether the n-th write to the pipe succeeds, and the
    number of the process. *)
Class VtSystem := {
  WideCharToMultiByte : list Z → option (list Z);
  WriteFile : nat → bool;
  GetCurrentProcessId : Z
}.

(** [IRenderData], the part the engine reads. *)
Class IRenderData := {
  GetHyperlinkUri : Z → wstring;
  GetHyperlinkCustomId : Z → wstring
}.

Definition ERASE_CHARACTER_STRING_LENGTH : Z := 8.
Definition INVALID_COORDS : COORD := mkCOORD (-1) (-1).

Record Cluster := mkCluster { _text : wstring; _columns : Z }.

Record VtEngine := mkVtEngine {
  _buffer : list Z;
  _lastTextAttributes : TextAttribute;
  _lastViewport : Viewport;
  _invalidMap : bitmap;
  _lastText : COORD;
  _scrollDelta : point;
  _quickReturn : bool;
  _clearedAllThisFrame : bool;
  _cursorMoved : bool;
  _resized : bool;
  _suppressResizeRepaint : bool;
  _virtualTop : Z;
  _circled : bool;
  _firstPaint : bool;
  _skipCursor : bool;
  _newBottomLine : bool;
  _deferredCursorPos : COORD;
  _pipeBroken : bool;
  _terminalOwner : bool;
  _inResizeRequest : bool;
  _wrappedRow : option Z;
  _delayedEolWrap : bool;
  _resizeQuirk : bool;
  _newBottomLineBG : option TextColor;
  _titleChanged : bool;
  _lastFrameTitle : wstring;
  _fUseAsciiOnly : bool;
  _needToDisableCursor : bool;
  _lastCursorIsVisible : bool;
  _nextCursorIsVisible : bool;
  written : list (list Z);
  closed : nat
}.

Definition set_buffer (v : list Z) (r : VtEngine) : VtEngine :=
  mkVtEngine v (_lastTextAttributes r) (_lastViewport r) (_invalidMap r) (_lastText r) (_scrollDelta r)
    (_quickReturn r) (_clearedAllThisFrame r) (_cursorMoved r) (_resized r) (_suppressResizeRepaint r) (_virtualTop r)
    (_circled r) (_firstPaint r) (_skipCursor r) (_newBottomLine r) (_deferredCursorPos r) (_pipeBroken r)
    (_terminalOwner r) (_inResizeRequest r) (_wrappedRow r) (_delayedEolWrap r) (_resizeQuirk r) (_newBottomLineBG r)
    (_titleChanged r) (_lastFrameTitle r) (_fUseAsciiOnly r) (_needToDisableCursor r) (_lastCursorIsVisible r)
    (_nextCursorIsVisible r) (written r) (closed r).
Definition set_lastTextAttributes (v : TextAttribute) (r : VtEngine) : VtEngine :=
  mkVtEngine (_buffer r) v (_lastViewport r) (_invalidMap r) (_lastText r) (_scrollDelta r) (_quickReturn r)
    (_clearedAllThisFrame r) (_cursorMoved r) (_resized r) (_suppressResizeRepaint r) (_virtualTop r) (_circled r)
    (_firstPaint r) (_skipCursor r) (_newBottomLine r) (_deferredCursorPos r) (_pipeBroken r) (_terminalOwner r)
    (_inResizeRequest r) (_wrappedRow r) (_delayedEolWrap r) (_resizeQuirk r) (_newBottomLineBG r) (_titleChanged r)
    (_lastFrameTitle r) (_fUseAsciiOnly r) (_needToDisableCursor r) (_lastCursorIsVisible r) (_nextCursorIsVisible r)
    (written r) (closed r).
Definition set_lastViewport (v : Viewport) (r : VtEngine) : VtEngine :=
  mkVtEngine (_buffer r) (_lastTextAttributes r) v (_invalidMap r) (_lastText r) (_scrollDelta r) (_quickReturn r)
    (_clearedAllThisFrame r) (_cursorMoved r) (_resized r) (_suppressResizeRepaint r) (_virtualTop r) (_circled r)
    (_firstPaint r) (_skipCursor r) (_newBottomLine r) (_deferredCursorPos r) (_pipeBroken r) (_terminalOwner r)
    (_inResizeRequest r) (_wrappedRow r) (_delayedEolWrap r) (_resizeQuirk r) (_newBottomLineBG r) (_titleChanged r)
    (_lastFrameTitle r) (_fUseAsciiOnly r) (_needToDisableCursor r) (_lastCursorIsVisible r) (_nextCursorIsVisible r)
    (written r) (closed r).
Definition set_invalidMap (v : bitmap) (r : VtEngine) : VtEngine :=
  mkVtEngine (_buffer r) (_lastTextAttributes r) (_lastViewport r) v (_lastText r) (_scrollDelta r) (_quickReturn r)
    (_clearedAllThisFrame r) (_cursorMoved r) (_resized r) (_suppressResizeRepaint r) (_virtualTop r) (_circled r)
    (_firstPaint r) (_skipCursor r) (_newBottomLine r) (_deferredCursorPos r) (_pipeBroken r) (_terminalOwner r)
    (_inResizeRequest r) (_wrappedRow r) (_delayedEolWrap r) (_resizeQuirk r) (_newBottomLineBG r) (_titleChanged r)
    (_lastFrameTitle r) (_fUseAsciiOnly r) (_needToDisableCursor r) (_lastCursorIsVisible r) (_nextCursorIsVisible r)
    (written r) (closed r).
Definition set_lastText (v : COORD) (r : VtEngine) : VtEngine :=
  mkVtEngine (_buffer r) (_lastTextAttributes r) (_lastViewport r) (_invalidMap r) v (_scrollDelta r) (_quickReturn r)
    (_clearedAllThisFrame r) (_cursorMoved r) (_resized r) (_suppressResizeRepaint r) (_virtualTop r) (_circled r)
    (_firstPaint r) (_skipCursor r) (_newBottomLine r) (_deferredCursorPos r) (_pipeBroken r) (_terminalOwner r)
    (_inResizeRequest r) (_wrappedRow r) (_delayedEolWrap r) (_resizeQuirk r) (_newBottomLineBG r) (_titleChanged r)
    (_lastFrameTitle r) (_fUseAsciiOnly r) (_needToDisableCursor r) (_lastCursorIsVisible r) (_nextCursorIsVisible r)
    (written r) (closed r).
Definition set_scrollDelta (v : point) (r : VtEngine) : VtEngine :=
  mkVtEngine (_buffer r) (_lastTextAttributes r) (_lastViewport r) (_invalidMap r) (_lastText r) v (_quickReturn r)
    (_clearedAllThisFrame r) (_cursorMoved r) (_resized r) (_suppressResizeRepaint r) (_virtualTop r) (_circled r)
    (_firstPaint r) (_skipCursor r) (_newBottomLine r) (_deferredCursorPos r) (_pipeBroken r) (_terminalOwner r)
    (_inResizeRequest r) (_wrappedRow r) (_delayedEolWrap r) (_resizeQuirk r) (_newBottomLineBG r) (_titleChanged r)
    (_lastFrameTitle r) (_fUseAsciiOnly r) (_needToDisableCursor r) (_lastCursorIsVisible r) (_nextCursorIsVisible r)
    (written r) (closed r).
Definition set_quickReturn (v : bool) (r : VtEngine) : VtEngine :=
  mkVtEngine (_buffer r) (_lastTextAttributes r) (_lastViewport r) (_invalidMap r) (_lastText r) (_scrollDelta r) v
    (_clearedAllThisFrame r) (_cursorMoved r) (_resized r) (_suppressResizeRepaint r) (_virtualTop r) (_circled r)
    (_firstPaint r) (_skipCursor r) (_newBottomLine r) (_deferredCursorPos r) (_pipeBroken r) (_terminalOwner r)
    (_inResizeRequest r) (_wrappedRow r) (_delayedEolWrap r) (_resizeQuirk r) (_newBottomLineBG r) (_titleChanged r)
    (_lastFrameTitle r) (_fUseAsciiOnly r) (_needToDisableCursor r) (_lastCursorIsVisible r) (_nextCursorIsVisible r)
    (written r) (closed r).
Definition set_clearedAllThisFrame (v : bool) (r : VtEngine) : VtEngine :=
  mkVtEngine (_buffer r) (_lastTextAttributes r) (_lastViewport r) (_invalidMap r) (_lastText r) (_scrollDelta r)
    (_quickReturn r) v (_cursorMoved r) (_resized r) (_suppressResizeRepaint r) (_virtualTop r) (_circled r)
    (_firstPaint r) (_skipCursor r) (_newBottomLine r) (_deferredCursorPos r) (_pipeBroken r) (_terminalOwner r)
    (_inResizeRequest r) (_wrappedRow r) (_delayedEolWrap r) (_resizeQuirk r) (_newBottomLineBG r) (_titleChanged r)
    (_lastFrameTitle r) (_fUseAsciiOnly r) (_needToDisableCursor r) (_lastCursorIsVisible r) (_nextCursorIsVisible r)
    (written r) (closed r).
Definition set_cursorMoved (v : bool) (r : VtEngine) : VtEngine :=
  mkVtEngine (_buffer r) (_lastTextAttributes r) (_lastViewport r) (_invalidMap r) (_lastText r) (_scrollDelta r)
    (_quickReturn r) (_clearedAllThisFrame r) v (_resized r) (_suppressResizeRepaint r) (_virtualTop r) (_circled r)
    (_firstPaint r) (_skipCursor r) (_newBottomLine r) (_deferredCursorPos r) (_pipeBroken r) (_terminalOwner r)
    (_inResizeRequest r) (_wrappedRow r) (_delayedEolWrap r) (_resizeQuirk r) (_newBottomLineBG r) (_titleChanged r)
    (_lastFrameTitle r) (_fUseAsciiOnly r) (_needToDisableCursor r) (_lastCursorIsVisible r) (_nextCursorIsVisible r)
    (written r) (closed r).
Definition set_resized (v : bool) (r : VtEngine) : VtEngine :=
  mkVtEngine (_buffer r) (_lastTextAttributes r) (_lastViewport r) (_invalidMap r) (_lastText r) (_scrollDelta r)
    (_quickReturn r) (_clearedAllThisFrame r) (_cursorMoved r) v (_suppressResizeRepaint r) (_virtualTop r)
    (_circled r) (_firstPaint r) (_skipCursor r) (_newBottomLine r) (_deferredCursorPos r) (_pipeBroken r)
    (_terminalOwner r) (_inResizeRequest r) (_wrappedRow r) (_delayedEolWrap r) (_resizeQuirk r) (_newBottomLineBG r)
    (_titleChanged r) (_lastFrameTitle r) (_fUseAsciiOnly r) (_needToDisableCursor r) (_lastCursorIsVisible r)
    (_nextCursorIsVisible r) (written r) (closed r).
Definition set_suppressResizeRepaint (v : bool) (r : VtEngine) : VtEngine :=
  mkVtEngine (_buffer r) (_lastTextAttributes r) (_lastViewport r) (_invalidMap r) (_lastText r) (_scrollDelta r)
    (_quickReturn r) (_clearedAllThisFrame r) (_cursorMoved r) (_resized r) v (_virtualTop r) (_circled r)
    (_firstPaint r) (_skipCursor r) (_newBottomLine r) (_deferredCursorPos r) (_pipeBroken r) (_terminalOwner r)
    (_inResizeRequest r) (_wrappedRow r) (_delayedEolWrap r) (_resizeQuirk r) (_newBottomLineBG r) (_titleChanged r)
    (_lastFrameTitle r) (_fUseAsciiOnly r) (_needToDisableCursor r) (_lastCursorIsVisible r) (_nextCursorIsVisible r)
    (written r) (closed r).
Definition set_virtualTop (v : Z) (r : VtEngine) : VtEngine :=
  mkVtEngine (_buffer r) (_lastTextAttributes r) (_lastViewport r) (_invalidMap r) (_lastText r) (_scrollDelta r)
    (_quickReturn r) (_clearedAllThisFrame r) (_cursorMoved r) (_resized r) (_suppressResizeRepaint r) v (_circled r)
    (_firstPaint r) (_skipCursor r) (_newBottomLine r) (_deferredCursorPos r) (_pipeBroken r) (_terminalOwner r)
    (_inResizeRequest r) (_wrappedRow r) (_delayedEolWrap r) (_resizeQuirk r) (_newBottomLineBG r) (_titleChanged r)
    (_lastFrameTitle r) (_fUseAsciiOnly r) (_needToDisableCursor r) (_lastCursorIsVisible r) (_nextCursorIsVisible r)
    (written r) (closed r).
Definition set_circled (v : bool) (r : VtEngine) : VtEngine :=
  mkVtEngine (_buffer r) (_lastTextAttributes r) (_lastViewport r) (_invalidMap r) (_lastText r) (_scrollDelta r)
    (_quickReturn r) (_clearedAllThisFrame r) (_cursorMoved r) (_resized r) (_suppressResizeRepaint r) (_virtualTop r)
    v (_firstPaint r) (_skipCursor r) (_newBottomLine r) (_deferredCursorPos r) (_pipeBroken r) (_terminalOwner r)
    (_inResizeRequest r) (_wrappedRow r) (_delayedEolWrap r) (_resizeQuirk r) (_newBottomLineBG r) (_titleChanged r)
    (_lastFrameTitle r) (_fUseAsciiOnly r) (_needToDisableCursor r) (_lastCursorIsVisible r) (_nextCursorIsVisible r)
    (written r) (closed r).
Definition set_firstPaint (v : bool) (r : VtEngine) : VtEngine :=
  mkVtEngine (_buffer r) (_lastTextAttributes r) (_lastViewport r) (_invalidMap r) (_lastText r) (_scrollDelta r)
    (_quickReturn r) (_clearedAllThisFrame r) (_cursorMoved r) (_resized r) (_suppressResizeRepaint r) (_virtualTop r)
    (_circled r) v (_skipCursor r) (_newBottomLine r) (_deferredCursorPos r) (_pipeBroken r) (_terminalOwner r)
    (_inResizeRequest r) (_wrappedRow r) (_delayedEolWrap r) (_resizeQuirk r) (_newBottomLineBG r) (_titleChanged r)
    (_lastFrameTitle r) (_fUseAsciiOnly r) (_needToDisableCursor r) (_lastCursorIsVisible r) (_nextCursorIsVisible r)
    (written r) (closed r).
Definition set_skipCursor (v : bool) (r : VtEngine) : VtEngine :=
  mkVtEngine (_buffer r) (_lastTextAttributes r) (_lastViewport r) (_invalidMap r) (_lastText r) (_scrollDelta r)
    (_quickReturn r) (_clearedAllThisFrame r) (_cursorMoved r) (_resized r) (_suppressResizeRepaint r) (_virtualTop r)
    (_circled r) (_firstPaint r) v (_newBottomLine r) (_deferredCursorPos r) (_pipeBroken r) (_terminalOwner r)
    (_inResizeRequest r) (_wrappedRow r) (_delayedEolWrap r) (_resizeQuirk r) (_newBottomLineBG r) (_titleChanged r)
    (_lastFrameTitle r) (_fUseAsciiOnly r) (_needToDisableCursor r) (_lastCursorIsVisible r) (_nextCursorIsVisible r)
    (written r) (closed r).
Definition set_newBottomLine (v : bool) (r : VtEngine) : VtEngine :=
  mkVtEngine (_buffer r) (_lastTextAttributes r) (_lastViewport r) (_invalidMap r) (_lastText r) (_scrollDelta r)
    (_quickReturn r) (_clearedAllThisFrame r) (_cursorMoved r) (_resized r) (_suppressResizeRepaint r) (_virtualTop r)
    (_circled r) (_firstPaint r) (_skipCursor r) v (_deferredCursorPos r) (_pipeBroken r) (_terminalOwner r)
    (_inResizeRequest r) (_wrappedRow r) (_delayedEolWrap r) (_resizeQuirk r) (_newBottomLineBG r) (_titleChanged r)
    (_lastFrameTitle r) (_fUseAsciiOnly r) (_needToDisableCursor r) (_lastCursorIsVisible r) (_nextCursorIsVisible r)
    (written r) (closed r).
Definition set_deferredCursorPos (v : COORD) (r : VtEngine) : VtEngine :=
  mkVtEngine (_buffer r) (_lastTextAttributes r) (_lastViewport r) (_invalidMap r) (_lastText r) (_scrollDelta r)
    (_quickReturn r) (_clearedAllThisFrame r) (_cursorMoved r) (_resized r) (_suppressResizeRepaint r) (_virtualTop r)
    (_circled r) (_firstPaint r) (_skipCursor r) (_newBottomLine r) v (_pipeBroken r) (_terminalOwner r)
    (_inResizeRequest r) (_wrappedRow r) (_delayedEolWrap r) (_resizeQuirk r) (_newBottomLineBG r) (_titleChanged r)
    (_lastFrameTitle r) (_fUseAsciiOnly r) (_needToDisableCursor r) (_lastCursorIsVisible r) (_nextCursorIsVisible r)
    (written r) (closed r).
Definition set_pipeBroken (v : bool) (r : VtEngine) : VtEngine :=
  mkVtEngine (_buffer r) (_lastTextAttributes r) (_lastViewport r) (_invalidMap r) (_lastText r) (_scrollDelta r)
    (_quickReturn r) (_clearedAllThisFrame r) (_cursorMoved r) (_resized r) (_suppressResizeRepaint r) (_virtualTop r)
    (_circled r) (_firstPaint r) (_skipCursor r) (_newBottomLine r) (_deferredCursorPos r) v (_terminalOwner r)
    (_inResizeRequest r) (_wrappedRow r) (_delayedEolWrap r) (_resizeQuirk r) (_newBottomLineBG r) (_titleChanged r)
    (_lastFrameTitle r) (_fUseAsciiOnly r) (_needToDisableCursor r) (_lastCursorIsVisible r) (_nextCursorIsVisible r)
    (written r) (closed r).
Definition set_terminalOwner (v : bool) (r : VtEngine) : VtEngine :=
  mkVtEngine (_buffer r) (_lastTextAttributes r) (_lastViewport r) (_invalidMap r) (_lastText r) (_scrollDelta r)
    (_quickReturn r) (_clearedAllThisFrame r) (_cursorMoved r) (_resized r) (_suppressResizeRepaint r) (_virtualTop r)
    (_circled r) (_firstPaint r) (_skipCursor r) (_newBottomLine r) (_deferredCursorPos r) (_pipeBroken r) v
    (_inResizeRequest r) (_wrappedRow r) (_delayedEolWrap r) (_resizeQuirk r) (_newBottomLineBG r) (_titleChanged r)
    (_lastFrameTitle r) (_fUseAsciiOnly r) (_needToDisableCursor r) (_lastCursorIsVisible r) (_nextCursorIsVisible r)
    (written r) (closed r).
Definition set_inResizeRequest (v : bool) (r : VtEngine) : VtEngine :=
  mkVtEngine (_buffer r) (_lastTextAttributes r) (_lastViewport r) (_invalidMap r) (_lastText r) (_scrollDelta r)
    (_quickReturn r) (_clearedAllThisFrame r) (_cursorMoved r) (_resized r) (_suppressResizeRepaint r) (_virtualTop r)
    (_circled r) (_firstPaint r) (_skipCursor r) (_newBottomLine r) (_deferredCursorPos r) (_pipeBroken r)
    (_terminalOwner r) v (_wrappedRow r) (_delayedEolWrap r) (_resizeQuirk r) (_newBottomLineBG r) (_titleChanged r)
    (_lastFrameTitle r) (_fUseAsciiOnly r) (_needToDisableCursor r) (_lastCursorIsVisible r) (_nextCursorIsVisible r)
    (written r) (closed r).
Definition set_wrappedRow (v : option Z) (r : VtEngine) : VtEngine :=
  mkVtEngine (_buffer r) (_lastTextAttributes r) (_lastViewport r) (_invalidMap r) (_lastText r) (_scrollDelta r)
    (_quickReturn r) (_clearedAllThisFrame r) (_cursorMoved r) (_resized r) (_suppressResizeRepaint r) (_virtualTop r)
    (_circled r) (_firstPaint r) (_skipCursor r) (_newBottomLine r) (_deferredCursorPos r) (_pipeBroken r)
    (_terminalOwner r) (_inResizeRequest r) v (_delayedEolWrap r) (_resizeQuirk r) (_newBottomLineBG r)
    (_titleChanged r) (_lastFrameTitle r) (_fUseAsciiOnly r) (_needToDisableCursor r) (_lastCursorIsVisible r)
    (_nextCursorIsVisible r) (written r) (closed r).
Definition set_delayedEolWrap (v : bool) (r : VtEngine) : VtEngine :=
  mkVtEngine (_buffer r) (_lastTextAttributes r) (_lastViewport r) (_invalidMap r) (_lastText r) (_scrollDelta r)
    (_quickReturn r) (_clearedAllThisFrame r) (_cursorMoved r) (_resized r) (_suppressResizeRepaint r) (_virtualTop r)
    (_circled r) (_firstPaint r) (_skipCursor r) (_newBottomLine r) (_deferredCursorPos r) (_pipeBroken r)
    (_terminalOwner r) (_inResizeRequest r) (_wrappedRow r) v (_resizeQuirk r) (_newBottomLineBG r) (_titleChanged r)
    (_lastFrameTitle r) (_fUseAsciiOnly r) (_needToDisableCursor r) (_lastCursorIsVisible r) (_nextCursorIsVisible r)
    (written r) (closed r).
Definition set_resizeQuirk (v : bool) (r : VtEngine) : VtEngine :=
  mkVtEngine (_buffer r) (_lastTextAttributes r) (_lastViewport r) (_invalidMap r) (_lastText r) (_scrollDelta r)
    (_quickReturn r) (_clearedAllThisFrame r) (_cursorMoved r) (_resized r) (_suppressResizeRepaint r) (_virtualTop r)
    (_circled r) (_firstPaint r) (_skipCursor r) (_newBottomLine r) (_deferredCursorPos r) (_pipeBroken r)
    (_terminalOwner r) (_inResizeRequest r) (_wrappedRow r) (_delayedEolWrap r) v (_newBottomLineBG r)
    (_titleChanged r) (_lastFrameTitle r) (_fUseAsciiOnly r) (_needToDisableCursor r) (_lastCursorIsVisible r)
    (_nextCursorIsVisible r) (written r) (closed r).
Definition set_newBottomLineBG (v : option TextColor) (r : VtEngine) : VtEngine :=
  mkVtEngine (_buffer r) (_lastTextAttributes r) (_lastViewport r) (_invalidMap r) (_lastText r) (_scrollDelta r)
    (_quickReturn r) (_clearedAllThisFrame r) (_cursorMoved r) (_resized r) (_suppressResizeRepaint r) (_virtualTop r)
    (_circled r) (_firstPaint r) (_skipCursor r) (_newBottomLine r) (_deferredCursorPos r) (_pipeBroken r)
    (_terminalOwner r) (_inResizeRequest r) (_wrappedRow r) (_delayedEolWrap r) (_resizeQuirk r) v (_titleChanged r)
    (_lastFrameTitle r) (_fUseAsciiOnly r) (_needToDisableCursor r) (_lastCursorIsVisible r) (_nextCursorIsVisible r)
    (written r) (closed r).
Definition set_titleChanged (v : bool) (r : VtEngine) : VtEngine :=
  mkVtEngine (_buffer r) (_lastTextAttributes r) (_lastViewport r) (_invalidMap r) (_lastText r) (_scrollDelta r)
    (_quickReturn r) (_clearedAllThisFrame r) (_cursorMoved r) (_resized r) (_suppressResizeRepaint r) (_virtualTop r)
    (_circled r) (_firstPaint r) (_skipCursor r) (_newBottomLine r) (_deferredCursorPos r) (_pipeBroken r)
    (_terminalOwner r) (_inResizeRequest r) (_wrappedRow r) (_delayedEolWrap r) (_resizeQuirk r) (_newBottomLineBG r)
    v (_lastFrameTitle r) (_fUseAsciiOnly r) (_needToDisableCursor r) (_lastCursorIsVisible r)
    (_nextCursorIsVisible r) (written r) (closed r).
Definition set_lastFrameTitle (v : wstring) (r : VtEngine) : VtEngine :=
  mkVtEngine (_buffer r) (_lastTextAttributes r) (_lastViewport r) (_invalidMap r) (_lastText r) (_scrollDelta r)
    (_quickReturn r) (_clearedAllThisFrame r) (_cursorMoved r) (_resized r) (_suppressResizeRepaint r) (_virtualTop r)
    (_circled r) (_firstPaint r) (_skipCursor r) (_newBottomLine r) (_deferredCursorPos r) (_pipeBroken r)
    (_terminalOwner r) (_inResizeRequest r) (_wrappedRow r) (_delayedEolWrap r) (_resizeQuirk r) (_newBottomLineBG r)
    (_titleChanged r) v (_fUseAsciiOnly r) (_needToDisableCursor r) (_lastCursorIsVisible r) (_nextCursorIsVisible r)
    (written r) (closed r).
Definition set_fUseAsciiOnly (v : bool) (r : VtEngine) : VtEngine :=
  mkVtEngine (_buffer r) (_lastTextAttributes r) (_lastViewport r) (_invalidMap r) (_lastText r) (_scrollDelta r)
    (_quickReturn r) (_clearedAllThisFrame r) (_cursorMoved r) (_resized r) (_suppressResizeRepaint r) (_virtualTop r)
    (_circled r) (_firstPaint r) (_skipCursor r) (_newBottomLine r) (_deferredCursorPos r) (_pipeBroken r)
    (_terminalOwner r) (_inResizeRequest r) (_wrappedRow r) (_delayedEolWrap r) (_resizeQuirk r) (_newBottomLineBG r)
    (_titleChanged r) (_lastFrameTitle r) v (_needToDisableCursor r) (_lastCursorIsVisible r) (_nextCursorIsVisible r)
    (written r) (closed r).
Definition set_needToDisableCursor (v : bool) (r : VtEngine) : VtEngine :=
  mkVtEngine (_buffer r) (_lastTextAttributes r) (_lastViewport r) (_invalidMap r) (_lastText r) (_scrollDelta r)
    (_quickReturn r) (_clearedAllThisFrame r) (_cursorMoved r) (_resized r) (_suppressResizeRepaint r) (_virtualTop r)
    (_circled r) (_firstPaint r) (_skipCursor r) (_newBottomLine r) (_deferredCursorPos r) (_pipeBroken r)
    (_terminalOwner r) (_inResizeRequest r) (_wrappedRow r) (_delayedEolWrap r) (_resizeQuirk r) (_newBottomLineBG r)
    (_titleChanged r) (_lastFrameTitle r) (_fUseAsciiOnly r) v (_lastCursorIsVisible r) (_nextCursorIsVisible r)
    (written r) (closed r).
Definition set_lastCursorIsVisible (v : bool) (r : VtEngine) : VtEngine :=
  mkVtEngine (_buffer r) (_lastTextAttributes r) (_lastViewport r) (_invalidMap r) (_lastText r) (_scrollDelta r)
    (_quickReturn r) (_clearedAllThisFrame r) (_cursorMoved r) (_resized r) (_suppressResizeRepaint r) (_virtualTop r)
    (_circled r) (_firstPaint r) (_skipCursor r) (_newBottomLine r) (_deferredCursorPos r) (_pipeBroken r)
    (_terminalOwner r) (_inResizeRequest r) (_wrappedRow r) (_delayedEolWrap r) (_resizeQuirk r) (_newBottomLineBG r)
    (_titleChanged r) (_lastFrameTitle r) (_fUseAsciiOnly r) (_needToDisableCursor r) v (_nextCursorIsVisible r)
    (written r) (closed r).
Definition set_nextCursorIsVisible (v : bool) (r : VtEngine) : VtEngine :=
  mkVtEngine (_buffer r) (_lastTextAttributes r) (_lastViewport r) (_invalidMap r) (_lastText r) (_scrollDelta r)
    (_quickReturn r) (_clearedAllThisFrame r) (_cursorMoved r) (_resized r) (_suppressResizeRepaint r) (_virtualTop r)
    (_circled r) (_firstPaint r) (_skipCursor r) (_newBottomLine r) (_deferredCursorPos r) (_pipeBroken r)
    (_terminalOwner r) (_inResizeRequest r) (_wrappedRow r) (_delayedEolWrap r) (_resizeQuirk r) (_newBottomLineBG r)
    (_titleChanged r) (_lastFrameTitle r) (_fUseAsciiOnly r) (_needToDisableCursor r) (_lastCursorIsVisible r) v
    (written r) (closed r).
Definition set_written (v : list (list Z)) (r : VtEngine) : VtEngine :=
  mkVtEngine (_buffer r) (_lastTextAttributes r) (_lastViewport r) (_invalidMap r) (_lastText r) (_scrollDelta r)
    (_quickReturn r) (_clearedAllThisFrame r) (_cursorMoved r) (_resized r) (_suppressResizeRepaint r) (_virtualTop r)
    (_circled r) (_firstPaint r) (_skipCursor r) (_newBottomLine r) (_deferredCursorPos r) (_pipeBroken r)
    (_terminalOwner r) (_inResizeRequest r) (_wrappedRow r) (_delayedEolWrap r) (_resizeQuirk r) (_newBottomLineBG r)
    (_titleChanged r) (_lastFrameTitle r) (_fUseAsciiOnly r) (_needToDisableCursor r) (_lastCursorIsVisible r)
    (_nextCursorIsVisible r) v (closed r).
Definition set_closed (v : nat) (r : VtEngine) : VtEngine :=
  mkVtEngine (_buffer r) (_lastTextAttributes r) (_lastViewport r) (_invalidMap r) (_lastText r) (_scrollDelta r)
    (_quickReturn r) (_clearedAllThisFrame r) (_cursorMoved r) (_resized r) (_suppressResizeRepaint r) (_virtualTop r)
    (_circled r) (_firstPaint r) (_skipCursor r) (_newBottomLine r) (_deferredCursorPos r) (_pipeBroken r)
    (_terminalOwner r) (_inResizeRequest r) (_wrappedRow r) (_delayedEolWrap r) (_resizeQuirk r) (_newBottomLineBG r)
    (_titleChanged r) (_lastFrameTitle r) (_fUseAsciiOnly r) (_needToDisableCursor r) (_lastCursorIsVisible r)
    (_nextCursorIsVisible r) (written r) v.

#[local] Abbreviation R := (prog VtEngine).

(** [bitmap] methods may throw; in a [noexcept] function without a [try] that is the end. *)
Definition on_map (f : bitmap → exn + bitmap) : R unit :=
  b ← gets _invalidMap;
  map ← lift (f b);
  modify (set_invalidMap map).

Definition with_last (f : TextAttribute → TextAttribute) : R unit :=
  modify (λ r, set_lastTextAttributes (f (_lastTextAttributes r)) r).

Definition when (b : bool) (m : R unit) : R unit := if b then m else mret tt.

(** The [HRESULT] of a call whose failure is looked at later. *)
Definition result (m : R unit) : R (option exn) := λ r,
  match m r with
  | Ok _ r => Ok None r
  | Throw e r => if catchable e then Ok (Some e) r else Throw e r
  end.

(** The constructor of [VtEngine], and that of [XtermEngine] after it. *)
Definition VtEngine_init (initialViewport : Viewport) : exn + VtEngine :=
  map ← bitmap_init (mkSize (Width initialViewport) (Height initialViewport)) false;
  mret (mkVtEngine [] (TextAttribute_of_rgb INVALID_COLOR INVALID_COLOR) initialViewport map (mkCOORD 0 0) (mkPoint 0 0)
          false false false false true 0 false true false false INVALID_COORDS false false false None false false None
          false [] false false false true [] 0%nat).

Definition XtermEngine_init (initialViewport : Viewport) (fUseAsciiOnly : bool) : exn + VtEngine :=
  r ← VtEngine_init initialViewport;
  mret (set_lastText INVALID_COORDS
          (set_nextCursorIsVisible true (set_lastCursorIsVisible false
             (set_needToDisableCursor false (set_fUseAsciiOnly fUseAsciiOnly r))))).

Definition Xterm256Engine_init (initialViewport : Viewport) : exn + VtEngine := XtermEngine_init initialViewport false.

(** ** The text *)

Definition _Write (str : list Z) : R unit := modify (λ r, set_buffer (_buffer r ++ str) r).

Definition esc (s : string) : list Z := 0x1B :: wstr s.

Section system.
Context `{VtSystem}.

Definition _Flush : R unit :=
  r ← gets id;
  if _pipeBroken r then mret tt
  else
    modify (λ r, set_buffer [] (set_written (written r ++ [_buffer r]) r));;
    if WriteFile (length (written r)) then mret tt
    else
      modify (set_pipeBroken true);;
      when (_terminalOwner r) (modify (λ r, set_closed (S (closed r)) r));;
      throw Win32Error.

Definition WriteTerminalUtf8 (str : list Z) : R unit := _Write str.

(** [til::u16u8] *)
Definition u16u8 (str : wstring) : R (list Z) :=
  match Utf8.u16u8 WideCharToMultiByte str with
  | (Utf8.S_OK, out) | (Utf8.S_FALSE, out) => mret out
  | (Utf8.E_ABORT, _) => throw EAbort
  | (Utf8.E_UNEXPECTED, _) => throw EUnexpected
  end.

Definition _WriteTerminalUtf8 (str : wstring) : R unit :=
  s ← u16u8 str; _Write s.

Definition _WriteTerminalAscii (str : wstring) : R unit :=
  _Write ((λ wch, if wch >? 0x7f then 0x3F else wch) <$> str).

Definition WriteTerminalW (str : wstring) : R unit :=
  ascii ← gets _fUseAsciiOnly;
  (if (ascii : bool) then _WriteTerminalAscii str else _WriteTerminalUtf8 str);;
  _Flush.

(** ** Sequences *)

Definition _StopCursorBlinking : R unit := _Write (esc "[?12l").
Definition _StartCursorBlinking : R unit := _Write (esc "[?12h").
Definition _HideCursor : R unit := _Write (esc "[?25l").
Definition _ShowCursor : R unit := _Write (esc "[?25h").
Definition _EraseLine : R unit := _Write (esc "[K").
Definition _EraseCharacter (chars : Z) : R unit := _Write (esc "[" ++ print_int chars ++ wstr "X").
Definition _CursorForward (chars : Z) : R unit := _Write (esc "[" ++ print_int chars ++ wstr "C").
Definition _ClearScreen : R unit := _Write (esc "[2J").
Definition _ClearScrollback : R unit := _Write (esc "[3J").

Definition _InsertDeleteLine (sLines : Z) (fInsertLine : bool) : R unit :=
  if sLines <=? 0 then mret tt
  else if sLines =? 1 then _Write (if fInsertLine then esc "[L" else esc "[M")
  else _Write (esc "[" ++ print_int sLines ++ (if fInsertLine then wstr "L" else wstr "M")).
Definition _DeleteLine (sLines : Z) : R unit := _InsertDeleteLine sLines false.
Definition _InsertLine (sLines : Z) : R unit := _InsertDeleteLine sLines true.

Definition _CursorPosition (coord : COORD) : R unit :=
  let coordVt := mkCOORD (i16 (X coord + 1)) (i16 (Y coord + 1)) in
  _Write (esc "[" ++ print_int (Y coordVt) ++ wstr ";" ++ print_int (X coordVt) ++ wstr "H").

Definition _CursorHome : R unit := _Write (esc "[H").
Definition _SetGraphicsDefault : R unit := _Write (esc "[m").

Definition FOREGROUND_BLUE : Z := 0x0001.
Definition FOREGROUND_GREEN : Z := 0x0002.
Definition FOREGROUND_RED : Z := 0x0004.

Definition _SetGraphicsRendition16Color (wAttr : Z) (fIsForeground : bool) : R unit :=
  let vtIndex := 30 + (if fIsForeground then 0 else 10)
                 + (if WI_IsFlagSet wAttr FOREGROUND_INTENSITY then 60 else 0)
                 + (if WI_IsFlagSet wAttr FOREGROUND_RED then 1 else 0)
                 + (if WI_IsFlagSet wAttr FOREGROUND_GREEN then 2 else 0)
                 + (if WI_IsFlagSet wAttr FOREGROUND_BLUE then 4 else 0) in
  _Write (esc "[" ++ print_int vtIndex ++ wstr "m").

Definition _SetGraphicsRendition256Color (index : Z) (fIsForeground : bool) : R unit :=
  _Write (esc (if fIsForeground then "[38;5;" else "[48;5;") ++ print_int (Xterm256ToWindowsIndex index) ++ wstr "m").

Definition _SetGraphicsRenditionRGBColor (color : Z) (fIsForeground : bool) : R unit :=
  _Write (esc (if fIsForeground then "[38;2;" else "[48;2;") ++ print_int (GetRValue color) ++ wstr ";"
            ++ print_int (GetGValue color) ++ wstr ";" ++ print_int (GetBValue color) ++ wstr "m").

Definition _SetGraphicsRenditionDefaultColor (fIsForeground : bool) : R unit :=
  _Write (if fIsForeground then esc "[39m" else esc "[49m").

Definition _ResizeWindow (sWidth sHeight : Z) : R unit :=
  if (sWidth <? 0) || (sHeight <? 0) then throw InvalidArg
  else _Write (esc "[8;" ++ print_int sHeight ++ wstr ";" ++ print_int sWidth ++ wstr "t").

Definition _RequestCursor : R unit := _Write (esc "[6n").
Definition _ChangeTitle (title : list Z) : R unit := _Write (esc "]0;" ++ title ++ [0x07]).
Definition _SetBold (isBold : bool) : R unit := _Write (if isBold then esc "[1m" else esc "[22m").
Definition _SetFaint (isFaint : bool) : R unit := _Write (if isFaint then esc "[2m" else esc "[22m").
Definition _SetUnderlined (isUnderlined : bool) : R unit := _Write (if isUnderlined then esc "[4m" else esc "[24m").
Definition _SetDoublyUnderlined (isUnderlined : bool) : R unit :=
  _Write (if isUnderlined then esc "[21m" else esc "[24m").
Definition _SetOverlined (isOverlined : bool) : R unit := _Write (if isOverlined then esc "[53m" else esc "[55m").
Definition _SetItalic (isItalic : bool) : R unit := _Write (if isItalic then esc "[3m" else esc "[23m").
Definition _SetBlinking (isBlinking : bool) : R unit := _Write (if isBlinking then esc "[5m" else esc "[25m").
Definition _SetInvisible (isInvisible : bool) : R unit := _Write (if isInvisible then esc "[8m" else esc "[28m").
Definition _SetCrossedOut (isCrossedOut : bool) : R unit := _Write (if isCrossedOut then esc "[9m" else esc "[29m").
Definition _SetReverseVideo (isReversed : bool) : R unit := _Write (if isReversed then esc "[7m" else esc "[27m").
Definition _RequestWin32Input : R unit := _Write (esc "[?9001h").

(** The conversion throws here. *)
Definition _SetHyperlink (uri customId : wstring) (numberId : Z) : R unit := noexcept (
  match customId with
  | [] =>
      uri_str ← u16u8 uri;
      _Write (esc "]8;id=" ++ print_int GetCurrentProcessId ++ wstr "-" ++ print_int numberId ++ wstr ";" ++ uri_str
                ++ esc "\")
  | _ =>
      uri_str ← u16u8 uri;
      customId_str ← u16u8 customId;
      _Write (esc "]8;id=u-" ++ customId_str ++ wstr ";" ++ uri_str ++ esc "\")
  end).

Definition _EndHyperlink : R unit := _Write (esc "]8;;" ++ esc "\").

Definition ManuallyClearScrollback : R unit := mret tt.
Definition Xterm256Engine_ManuallyClearScrollback : R unit := _ClearScrollback.
Definition RequestCursor : R unit := _RequestCursor;; _Flush.
Definition RequestWin32Input : R unit := _RequestWin32Input;; _Flush.

(** ** Attributes *)

(** The part that [_RgbUpdateDrawingBrushes] has for each of the two colours. *)
Definition send_color (c : TextColor) (fIsForeground : bool) : R unit :=
  if IsDefault c then _SetGraphicsRenditionDefaultColor fIsForeground
  else if IsIndex16 c then _SetGraphicsRendition16Color (GetIndex c) fIsForeground
  else if IsIndex256 c then _SetGraphicsRendition256Color (GetIndex c) fIsForeground
  else when (IsRgb c) (_SetGraphicsRenditionRGBColor (GetRGB c) fIsForeground).

(** SGR 0, and what it leaves. *)
Definition reset_graphics : R unit :=
  _SetGraphicsDefault;;
  with_last SetDefaultBackground;;
  with_last SetDefaultForeground;;
  with_last SetDefaultMetaAttrs.

Definition _RgbUpdateDrawingBrushes (textAttributes : TextAttribute) : R unit :=
  let fg := GetForeground textAttributes in
  let bg := GetBackground textAttributes in
  last ← gets _lastTextAttributes;
  let reset := IsDefault fg && IsDefault bg && negb (IsDefault (GetForeground last) && IsDefault (GetBackground last)) in
  let lastFg := if reset then TextColor_default else GetForeground last in
  let lastBg := if reset then TextColor_default else GetBackground last in
  when reset reset_graphics;;
  when (bool_decide (fg ≠ lastFg)) (send_color fg true;; with_last (SetForeground fg));;
  when (bool_decide (bg ≠ lastBg)) (send_color bg false;; with_last (SetBackground bg)).

Definition _16ColorUpdateDrawingBrushes (textAttributes : TextAttribute) : R unit :=
  let fg := GetForeground textAttributes in
  let bg := GetBackground textAttributes in
  last ← gets _lastTextAttributes;
  let reset := (IsDefault fg && negb (IsDefault (GetForeground last)))
               || (IsDefault bg && negb (IsDefault (GetBackground last))) in
  let lastFg := if reset then TextColor_default else GetForeground last in
  let lastBg := if reset then TextColor_default else GetBackground last in
  when reset reset_graphics;;
  let brighten := IsBold textAttributes && CanBeBrightened fg in
  let fgIndex := Z.lor (GetLegacyIndex 0 fg) (if brighten then FOREGROUND_INTENSITY else 0) in
  let bgIndex := GetLegacyIndex 0 bg in
  let needBold := fgIndex >? 7 in
  last ← gets _lastTextAttributes;
  when (negb (eqb needBold (IsBold last))) (_SetBold needBold;; with_last (SetBold needBold));;
  let fgIndex := Z.land fgIndex 7 in
  let bgIndex := Z.land bgIndex 7 in
  when (negb (IsDefault fg) && (IsDefault lastFg || negb (fgIndex =? GetIndex lastFg)))
    (_SetGraphicsRendition16Color fgIndex true;; with_last (SetIndexedForeground fgIndex));;
  when (negb (IsDefault bg) && (IsDefault lastBg || negb (bgIndex =? GetIndex lastBg)))
    (_SetGraphicsRendition16Color bgIndex false;; with_last (SetIndexedBackground bgIndex)).

(** The blocks [if (is(attributes) != is(last)) { send; remember }]. *)
Definition update_flag (f : Flag) (send : bool → R unit) (textAttributes : TextAttribute) : R unit :=
  last ← gets _lastTextAttributes;
  let b := get_flag f textAttributes in
  when (negb (eqb b (get_flag f last))) (send b;; with_last (set_flag f b)).

Definition XtermEngine_UpdateDrawingBrushes (textAttributes : TextAttribute) : R unit :=
  _16ColorUpdateDrawingBrushes textAttributes;;
  update_flag FReverseVideo _SetReverseVideo textAttributes;;
  update_flag FUnderlined _SetUnderlined textAttributes.

(** Two flags that one sequence turns off together, and a block that turns a flag on. *)
Definition turn_off (f g : Flag) (send : bool → R unit) (textAttributes : TextAttribute) : R unit :=
  last ← gets _lastTextAttributes;
  when ((negb (get_flag f textAttributes) && get_flag f last) || (negb (get_flag g textAttributes) && get_flag g last))
    (send false;; with_last (set_flag f false);; with_last (set_flag g false)).

Definition turn_on (f : Flag) (send : bool → R unit) (textAttributes : TextAttribute) : R unit :=
  last ← gets _lastTextAttributes;
  when (get_flag f textAttributes && negb (get_flag f last)) (send true;; with_last (set_flag f true)).

Definition _UpdateExtendedAttrs (textAttributes : TextAttribute) : R unit :=
  turn_off FBold FFaint _SetBold textAttributes;;
  turn_on FBold _SetBold textAttributes;;
  turn_on FFaint _SetFaint textAttributes;;
  turn_off FUnderlined FDoublyUnderlined _SetUnderlined textAttributes;;
  turn_on FUnderlined _SetUnderlined textAttributes;;
  turn_on FDoublyUnderlined _SetDoublyUnderlined textAttributes;;
  update_flag FOverlined _SetOverlined textAttributes;;
  update_flag FItalic _SetItalic textAttributes;;
  update_flag FBlinking _SetBlinking textAttributes;;
  update_flag FInvisible _SetInvisible textAttributes;;
  update_flag FCrossedOut _SetCrossedOut textAttributes;;
  update_flag FReverseVideo _SetReverseVideo textAttributes.

Definition _UpdateHyperlinkAttr `{IRenderData} (textAttributes : TextAttribute) : R unit :=
  last ← gets _lastTextAttributes;
  when (negb (GetHyperlinkId textAttributes =? GetHyperlinkId last))
    ((if IsHyperlink textAttributes then
        let id := GetHyperlinkId textAttributes in
        let customId := GetHyperlinkCustomId id in
        _SetHyperlink (GetHyperlinkUri id) customId id
      else _EndHyperlink);;
     with_last (SetHyperlinkId (GetHyperlinkId textAttributes))).

Definition Xterm256Engine_UpdateDrawingBrushes `{IRenderData} (textAttributes : TextAttribute) : R unit :=
  _RgbUpdateDrawingBrushes textAttributes;;
  _UpdateHyperlinkAttr textAttributes;;
  _UpdateExtendedAttrs textAttributes.

(** ** The cursor *)

Definition _MoveCursor (coord : COORD) : R unit :=
  r ← gets id;
  let last := _lastText r in
  when (negb ((X coord =? X last) && (Y coord =? Y last)))
    ((if (X coord =? 0) && (Y coord =? 0) then modify (set_needToDisableCursor true);; _CursorHome
      else if _resized r && _resizeQuirk r then _CursorPosition coord
      else if (X coord =? 0) && (Y coord =? Y last + 1) then
        let previousLineWrapped := match _wrappedRow r with Some row => Y coord =? row + 1 | None => false end in
        if previousLineWrapped then mret tt else _Write [0x0D; 0x0A]
      else if _delayedEolWrap r then _CursorPosition coord
      else if (X coord =? 0) && (Y coord =? Y last) then _Write [0x0D]
      else if (X coord =? X last) && (Y coord =? Y last + 1) then _Write [0x0A]
      else if (X coord =? X last - 1) && (Y coord =? Y last) then _Write [0x08]
      else if (Y coord =? Y last) && (X coord >? X last) then _CursorForward (i16 (X coord - X last))
      else modify (set_needToDisableCursor true);; _CursorPosition coord);;
     modify (set_lastText coord));;
  modify (λ r, set_delayedEolWrap false (set_wrappedRow None (set_deferredCursorPos INVALID_COORDS r))).

(** [LOG_IF_FAILED]: the result is not looked at. *)
Definition PaintCursor (coordCursor : COORD) : R unit := result (_MoveCursor coordCursor);; mret tt.

Definition XtermEngine_PaintCursor (nextCursorPosition : COORD) : R unit :=
  modify (set_nextCursorIsVisible true);;
  r ← gets id;
  let cursorIsInDeferredWrap :=
    (X nextCursorPosition =? X (_lastText r) - 1) && (Y nextCursorPosition =? Y (_lastText r)) in
  when (negb ((cursorIsInDeferredWrap || _circled r) && _delayedEolWrap r
                && match _wrappedRow r with Some _ => true | None => false end))
    (PaintCursor nextCursorPosition).

(** ** Frames *)

(** [rectangle(SMALL_RECT)] and back: the corners are inclusive there. *)
Definition rect_of_small_rect (sr : SMALL_RECT) : exn + rectangle :=
  br ← point_add (mkPoint (rRight sr) (rBottom sr)) (mkPoint 1 1);
  mret (mkRectangle (mkPoint (rLeft sr) (rTop sr)) br).

Definition to_short (z : Z) : exn + Z := if (-32768 <=? z) && (z <=? 32767) then mret z else inl EAbort.

Definition small_rect_of_rect (rc : rectangle) : exn + SMALL_RECT :=
  l ← to_short (left rc);
  t ← to_short (top rc);
  r ← to_short (right rc - 1);
  b ← to_short (bottom rc - 1);
  mret (mkRect l t r b).

Definition GetDirtyArea : R (list rectangle) :=
  r ← gets id;
  '(area, map) ← noexcept (lift (runs (_invalidMap r)));
  modify (set_invalidMap map);;
  mret area.

Definition _WillWriteSingleChar : R bool :=
  r ← gets id;
  if negb (point_eqb (mkPoint 0 0) (_scrollDelta r)) then mret false
  else if negb (one (_invalidMap r)) then mret false
  else
    '(rs, map) ← lift (runs (_invalidMap r));
    modify (set_invalidMap map);;
    match rs with
    | [] => throw UndefinedBehavior
    | run :: _ =>
        let invalidPoint := _topLeft run in
        let last := _lastText r in
        mret (point_eqb invalidPoint (mkPoint (X last) (Y last)) || point_eqb invalidPoint (mkPoint (X last - 1) (Y last)))
    end.

Definition StartPaint : R bool :=
  r ← gets id;
  if _pipeBroken r then mret false
  else
    let somethingToDo :=
      any (_invalidMap r) || negb (point_eqb (_scrollDelta r) (mkPoint 0 0)) || _cursorMoved r || _titleChanged r in
    modify (set_quickReturn (negb somethingToDo));;
    mret somethingToDo.

(** The hull of the dirty rectangles, which nothing reads; a rectangle that is not a
    [SMALL_RECT] throws. *)
Fixpoint dirty_view (dirtyView : Viewport) (dirty : list rectangle) : exn + Viewport :=
  match dirty with
  | [] => mret dirtyView
  | rc :: dirty => sr ← small_rect_of_rect rc; dirty_view (Union dirtyView (FromInclusive sr)) dirty
  end.

Definition XtermEngine_StartPaint : R bool :=
  StartPaint;;
  modify (set_nextCursorIsVisible false);;
  first ← gets _firstPaint;
  (if (first : bool) then
     _ClearScreen;;
     modify (λ r, set_firstPaint false (set_clearedAllThisFrame true r))
   else
     dirty ← GetDirtyArea;
     match dirty with
     | [] => mret tt
     | rc :: dirty => noexcept (lift (sr ← small_rect_of_rect rc; dirty_view (FromInclusive sr) dirty));; mret tt
     end);;
  quick ← gets _quickReturn;
  when (negb quick) (single ← noexcept _WillWriteSingleChar; when single (modify (set_quickReturn true)));;
  mret true.

Definition EndPaint : R unit :=
  modify (λ r, set_invalidMap (reset_all (_invalidMap r)) r);;
  modify (λ r, set_resized false (set_skipCursor false (set_firstPaint false (set_cursorMoved false
                 (set_clearedAllThisFrame false (set_scrollDelta (mkPoint 0 0) r))))));;
  modify (λ r, if _circled r && (_virtualTop r >? 0) then set_virtualTop (_virtualTop r - 1) r else r);;
  modify (set_circled false);;
  deferred ← gets _deferredCursorPos;
  when (bool_decide (deferred ≠ INVALID_COORDS)) (_MoveCursor deferred);;
  _Flush.

Definition XtermEngine_EndPaint : R unit :=
  r ← gets id;
  when (_needToDisableCursor r && _lastCursorIsVisible r)
    (modify (λ r, set_lastCursorIsVisible false (set_buffer (esc "[?25l" ++ _buffer r) r)));;
  r ← gets id;
  (if _nextCursorIsVisible r && negb (_lastCursorIsVisible r) then _ShowCursor
   else if negb (_nextCursorIsVisible r) && _lastCursorIsVisible r then _HideCursor
   else mret tt);;
  modify (λ r, set_lastCursorIsVisible (_nextCursorIsVisible r) r);;
  EndPaint;;
  modify (set_needToDisableCursor false).

Definition Present : R bool := mret false.
Definition PaintBackground : R unit := mret tt.
Definition PaintBufferGridLines : R unit := mret tt.
Definition PaintSelection (rect : SMALL_RECT) : R unit := mret tt.

(** ** What has changed *)

Definition InvalidateSystem : R unit := mret tt.
Definition InvalidateSelection (rectangles : list SMALL_RECT) : R unit := mret tt.

Definition Invalidate (psrRegion : SMALL_RECT) : R unit :=
  rect ← lift (rect_of_small_rect (ToInclusive (FromExclusive psrRegion)));
  on_map (set rect).

Definition InvalidateCursor (psrRegion : SMALL_RECT) : R unit :=
  modify (λ r, if negb (_skipCursor r) && (_virtualTop r >? rTop psrRegion) then set_virtualTop (rTop psrRegion) r else r);;
  modify (λ r, set_cursorMoved true (set_skipCursor false r)).

Definition InvalidateAll : R unit := modify (λ r, set_invalidMap (set_all (_invalidMap r)) r).

(** The result is [pForcePaint]. *)
Definition InvalidateCircling : R bool :=
  inRequest ← gets _inResizeRequest;
  if (inRequest : bool) then mret false else modify (set_circled true);; mret true.

Definition PrepareForTeardown : R bool := mret true.

Definition InvalidateScroll (pcoordDelta : COORD) : R unit :=
  let delta := mkPoint (X pcoordDelta) (Y pcoordDelta) in
  when (negb (point_eqb delta (mkPoint 0 0)))
    (on_map (translate delta true);;
     r ← gets id;
     sum ← lift (point_add (_scrollDelta r) delta);
     modify (set_scrollDelta sum)).

(** [std::string(n, c)] *)
Definition string_of (n c : Z) : R (list Z) :=
  if n <? 0 then throw LengthError else mret (replicate (Z.to_nat n) c).

Definition ScrollFrame : R unit :=
  r ← gets id;
  if negb (x (_scrollDelta r) =? 0) then InvalidateAll
  else if y (_scrollDelta r) =? 0 then mret tt
  else
    dy ← lift (to_short (y (_scrollDelta r)));
    let absDy := i16 (Z.abs dy) in
    let oldWrappedRow := _wrappedRow r in
    let oldDelayedEolWrap := _delayedEolWrap r in
    modify (λ r, set_wrappedRow None (set_delayedEolWrap false r));;
    (if dy <? 0 then
       let bottom := BottomInclusive (_lastViewport r) in
       _MoveCursor (mkCOORD 0 bottom);;
       newlines ← string_of absDy 0x0A;
       _Write newlines
     else when (dy >? 0)
       (_MoveCursor (mkCOORD 0 0);;
        _InsertLine absDy));;
    modify (λ r, set_delayedEolWrap oldDelayedEolWrap (set_wrappedRow oldWrappedRow r));;
    modify (λ r, set_wrappedRow ((λ row, i16 (row + dy)) <$> _wrappedRow r) r);;
    r ← gets id;
    match _wrappedRow r with
    | Some row =>
        when (_delayedEolWrap r)
          (lastCellOfWrappedRow ←
             lift (rect_of_point_size (mkPoint (RightInclusive (_lastViewport r)) row) (mkSize 1 1));
           on_map (set lastCellOfWrappedRow))
    | None => mret tt
    end;;
    r ← gets id;
    let allInvalidated := all (_invalidMap r) in
    modify (set_newBottomLine (negb allInvalidated));;
    when (negb allInvalidated)
      (modify (λ r, set_newBottomLineBG (Some (GetBackground (_lastTextAttributes r))) r)).

(** ** Lines *)

(** The text of the clusters and their width; [narrow] is how a width becomes a [short]. *)
Fixpoint gather (narrow : Z → exn + Z) (clusters : list Cluster) (bufferLine : wstring) (totalWidth : Z)
    : exn + (wstring * Z) :=
  match clusters with
  | [] => mret (bufferLine, totalWidth)
  | cluster :: clusters =>
      columns ← narrow (_columns cluster);
      match ShortAdd totalWidth columns with
      | None => inl Win32Error
      | Some totalWidth => gather narrow clusters (bufferLine ++ _text cluster) totalWidth
      end
  end.

(** [gsl::narrow<short>] *)
Definition narrow_to_short (z : Z) : exn + Z := if (-32768 <=? z) && (z <=? 32767) then mret z else inl NarrowingError.

Definition _PaintAsciiBufferLine (clusters : list Cluster) (coord : COORD) : R unit :=
  _MoveCursor coord;;
  '(bufferLine, totalWidth) ← lift (gather narrow_to_short clusters [] 0);
  _WriteTerminalAscii bufferLine;;
  modify (λ r, set_lastText (mkCOORD (i16 (X (_lastText r) + totalWidth)) (Y (_lastText r))) r).

(** The index of the last character that is not a space, if there is one. *)
Fixpoint scan_spaces (i : Z) (line : wstring) (lastNonSpace : Z) (foundNonspace : bool) : Z * bool :=
  match line with
  | [] => (lastNonSpace, foundNonspace)
  | c :: line => if c =? 0x20 then scan_spaces (i + 1) line lastNonSpace foundNonspace
                 else scan_spaces (i + 1) line i true
  end.

(** The end of [_PaintUtf8BufferLine], after the text. *)
Definition finish_line (numSpaces : Z) (optimalToUseECH useEraseChar printingBottomLine removeSpaces : bool) : R unit :=
  sNumSpaces ← lift (narrow_to_short numSpaces);
  r ← gets id;
  let last := _lastText r in
  let deferred := mkCOORD (i16 (X last + sNumSpaces)) (Y last) in
  (if useEraseChar then
     modify (set_deferredCursorPos deferred);;
     if X deferred <=? RightInclusive (_lastViewport r) then _EraseCharacter sNumSpaces else _EraseLine
   else if _newBottomLine r && printingBottomLine then
     if optimalToUseECH then modify (set_deferredCursorPos deferred)
     else when ((numSpaces >? 0) && removeSpaces)
       (_WriteTerminalUtf8 (replicate (Z.to_nat numSpaces) 0x20);;
        modify (λ r, set_lastText (mkCOORD (i16 (X (_lastText r) + i16 numSpaces)) (Y (_lastText r))) r))
   else mret tt);;
  when printingBottomLine (modify (λ r, set_newBottomLineBG None (set_newBottomLine false r))).

Definition _PaintUtf8BufferLine (clusters : list Cluster) (coord : COORD) (lineWrapped : bool) : R unit :=
  r ← gets id;
  if Y coord <? _virtualTop r then mret tt
  else
    '(bufferLine, totalWidth) ← lift (gather (λ z, mret (i16 z)) clusters [] 0);
    let cchLine := Z.of_nat (length bufferLine) in
    let '(lastNonSpace, foundNonspace) := scan_spaces 0 bufferLine 0 false in
    let numSpaces := cchLine - lastNonSpace - (if foundNonspace then 1 else 0) in
    let optimalToUseECH := numSpaces >? ERASE_CHARACTER_STRING_LENGTH in
    let useEraseChar := optimalToUseECH && negb (_newBottomLine r) && negb (_clearedAllThisFrame r) in
    let printingBottomLine := Y coord =? BottomInclusive (_lastViewport r) in
    let bgMatched := match _newBottomLineBG r with
                     | Some bg => bool_decide (bg = GetBackground (_lastTextAttributes r))
                     | None => true
                     end in
    let removeSpaces := negb lineWrapped && (useEraseChar || _clearedAllThisFrame r
                          || (_newBottomLine r && printingBottomLine && bgMatched)) in
    let cchActual := if removeSpaces then cchLine - numSpaces else cchLine in
    let columnsActual := if removeSpaces then u64 (u64 totalWidth - numSpaces) else u64 totalWidth in
    when (cchActual =? 0) (modify (set_wrappedRow None));;
    _MoveCursor coord;;
    _WriteTerminalUtf8 (take (Z.to_nat cchActual) bufferLine);;
    when lineWrapped (modify (set_wrappedRow (Some (Y coord))));;
    modify (λ r, if X (_lastText r) <? RightExclusive (_lastViewport r)
                 then set_lastText (mkCOORD (i16 (X (_lastText r) + i16 columnsActual)) (Y (_lastText r))) r
                 else r);;
    modify (λ r, if X (_lastText r) >=? RightInclusive (_lastViewport r) then set_delayedEolWrap true r else r);;
    finish_line numSpaces optimalToUseECH useEraseChar printingBottomLine removeSpaces.

(** [VtEngine::PaintBufferLine] is the ASCII one. *)
Definition PaintBufferLine (clusters : list Cluster) (coord : COORD) (trimLeft lineWrapped : bool) : R unit :=
  _PaintAsciiBufferLine clusters coord.

Definition XtermEngine_PaintBufferLine (clusters : list Cluster) (coord : COORD) (trimLeft lineWrapped : bool) : R unit :=
  ascii ← gets _fUseAsciiOnly;
  if (ascii : bool) then _PaintAsciiBufferLine clusters coord else _PaintUtf8BufferLine clusters coord lineWrapped.

(** ** The window *)

Definition UpdateViewport (srNewViewport : SMALL_RECT) : R unit :=
  r ← gets id;
  let oldView := _lastViewport r in
  let newView := FromInclusive srNewViewport in
  modify (set_lastViewport newView);;
  hr ← (if negb (Height oldView =? Height newView) || negb (Width oldView =? Width newView) then
          hr ← (if negb (_suppressResizeRepaint r) then result (_ResizeWindow (Width newView) (Height newView))
                else mret None);
          modify (set_resized true);;
          mret hr
        else mret None);
  modify (set_suppressResizeRepaint false);;
  let dimensions := mkSize (Width newView) (Height newView) in
  let resize_map fill := noexcept (on_map (λ map, '(_, map) ← resize dimensions fill map; mret map)) in
  hr ← (if _resizeQuirk r then resize_map false;; mret hr
        else match hr with
             | Some _ => mret hr
             | None =>
                 resize_map true;;
                 if (Height oldView >? Height newView) || (Width oldView >? Width newView) then result InvalidateAll
                 else mret None
             end);
  match hr with Some e => throw e | None => mret tt end.

Definition _AllIsInvalid : R bool := gets (λ r, all (_invalidMap r)).
Definition SuppressResizeRepaint : R unit := modify (set_suppressResizeRepaint true).

Definition InheritCursor (coordCursor : COORD) : R unit :=
  modify (λ r, set_firstPaint false (set_skipCursor true (set_lastText coordCursor (set_virtualTop (Y coordCursor) r)))).

Definition SetTerminalOwner (terminalOwner : bool) : R unit := modify (set_terminalOwner terminalOwner).
Definition BeginResizeRequest : R unit := modify (set_inResizeRequest true).
Definition EndResizeRequest : R unit := modify (set_inResizeRequest false).
Definition SetResizeQuirk (resizeQuirk : bool) : R unit := modify (set_resizeQuirk resizeQuirk).

Definition UpdateFont : R unit := mret tt.
Definition UpdateDpi (iDpi : Z) : R unit := mret tt.
Definition GetProposedFont : R bool := mret false.
Definition GetFontSize : R (bool * COORD) := mret (false, mkCOORD 1 1).
Definition IsGlyphWideByFont (glyph : wstring) : R (bool * bool) := mret (false, false).

Definition _OrRect (existing toOr : SMALL_RECT) : SMALL_RECT :=
  mkRect (Z.min (rLeft existing) (rLeft toOr)) (Z.min (rTop existing) (rTop toOr))
         (Z.max (rRight existing) (rRight toOr)) (Z.max (rBottom existing) (rBottom toOr)).

(** ** The title *)

(** [ConvertToA(CP_UTF8, source)] *)
Definition ConvertToA (source : wstring) : exn + list Z :=
  match source with
  | [] => mret []
  | _ =>
      if 2 ^ 31 - 1 <? Z.of_nat (length source) then inl Win32Error
      else match WideCharToMultiByte source with
           | None | Some [] => inl Win32Error
           | Some out => mret out
           end
  end.

Definition _DoUpdateTitle (newTitle : wstring) : R unit := mret tt.

Definition XtermEngine_DoUpdateTitle (newTitle : wstring) : R unit :=
  ascii ← gets _fUseAsciiOnly;
  if (ascii : bool) then mret tt
  else converted ← lift (ConvertToA newTitle); _ChangeTitle converted.

Definition InvalidateTitle (proposedTitle : wstring) : R unit :=
  modify (λ r, if bool_decide (proposedTitle ≠ _lastFrameTitle r) then set_titleChanged true r else r).

Definition UpdateTitle (newTitle : wstring) : R bool :=
  r ← gets id;
  if bool_decide (newTitle ≠ _lastFrameTitle r) then
    XtermEngine_DoUpdateTitle newTitle;;
    modify (λ r, set_titleChanged false (set_lastFrameTitle newTitle r));;
    mret true
  else mret false.

End system.

End VtRender.
