(* ===== verification/VtFacts.v ===== *)
(** The attributes that the renderer sends: its text as a list of SGR sequences, and what they do
    at the other end. *)

From stdpp Require Import strings.
From S2P Require Import Prelude DispatchTypes StateMachine ParserParams ParserCsi OutputFacts InputFacts TextColor TextAttribute ColorTable SgrStack Sgr Viewport Utf8 Til Bitmap VtRenderer.

Import VtRender.

#[local] Open Scope Z_scope.

(** ** What a cell looks like *)

(** A colour without the bytes that it does not use. *)
Definition shade (c : TextColor) : TextColor :=
  match _meta c with
  | IsDefault_ => TextColor_default
  | IsRgb_ => c
  | k => mkTextColor k (_red c) 0 0
  end.

Definition color_ok (c : TextColor) : Prop :=
  match _meta c with
  | IsDefault_ => True
  | IsIndex16_ => 0 <= _red c < 16
  | IsIndex256_ => 0 <= _red c < 256
  | IsRgb_ => TextColor_wf c
  end.

#[export] Instance color_ok_dec c : Decision (color_ok c).
Proof. unfold color_ok, TextColor_wf. destruct (_meta c); apply _. Defined.

(** The colours are the same, and the ten flags of SGR. *)
Definition same_look (a b : TextAttribute) : Prop :=
  shade (_foreground a) = shade (_foreground b) ∧ shade (_background a) = shade (_background b)
  ∧ ∀ f, get_flag f a = get_flag f b.

#[export] Instance same_look_equiv : Equivalence same_look.
Proof.
  split.
  - by intros a.
  - intros a b (H1 & H2 & H3). repeat split; congruence || intros; by symmetry.
  - intros a b c (H1 & H2 & H3) (H4 & H5 & H6). split; [congruence|]. split; [congruence|]. intros f. by rewrite H3.
Qed.

Lemma look_flag f v a b : same_look a b → same_look (set_flag f v a) (set_flag f v b).
Proof.
  intros (H1 & H2 & H3). split; [by destruct f|]. split; [by destruct f|]. intros g. rewrite !get_set_flag. by case_decide.
Qed.

Lemma look_foreground c c' a b : shade c = shade c' → same_look a b → same_look (SetForeground c a) (SetForeground c' b).
Proof.
  intros Hc (H1 & H2 & H3). split; [done|]. split; [done|]. intros f. specialize (H3 f). rewrite !get_flag_bit in *. by destruct f.
Qed.

Lemma look_background c c' a b : shade c = shade c' → same_look a b → same_look (SetBackground c a) (SetBackground c' b).
Proof.
  intros Hc (H1 & H2 & H3). split; [done|]. split; [done|]. intros f. specialize (H3 f). rewrite !get_flag_bit in *. by destruct f.
Qed.

Lemma look_reset a b :
  same_look (SetDefaultMetaAttrs (SetDefaultForeground (SetDefaultBackground a)))
    (SetDefaultMetaAttrs (SetDefaultBackground (SetDefaultForeground b))).
Proof. split; [done|]. split; [done|]. by intros []. Qed.

(** ** Sequences *)

Definition sgr_sequence (ns : list Z) : CsiSequence := mkCsi None (numbers ns) [] 0x6D.
Definition sgr (ns : list Z) : wstring := csi_string (sgr_sequence ns).

(** What SGR makes of attributes. *)
Definition applied (ns : list Z) (a : TextAttribute) : TextAttribute :=
  match apply_options (parse_params (numbers ns)) a with inr a => a | inl _ => a end.
Definition applied_all (l : list (list Z)) (a : TextAttribute) : TextAttribute := fold_left (λ a ns, applied ns a) l a.

(** Parameters that the parser keeps as they are. *)
Definition short_numbers (ns : list Z) : Prop := (length ns <= 5)%nat ∧ Forall (λ n, 0 <= n < 256) ns.

Lemma applied_flag (f : Flag) (v : bool) (n : Z) :
  (f, v, n) ∈ [(FBold, true, 1); (FFaint, true, 2); (FUnderlined, true, 4); (FDoublyUnderlined, true, 21);
    (FOverlined, true, 53); (FOverlined, false, 55); (FItalic, true, 3); (FItalic, false, 23); (FBlinking, true, 5);
    (FBlinking, false, 25); (FInvisible, true, 8); (FInvisible, false, 28); (FCrossedOut, true, 9);
    (FCrossedOut, false, 29); (FReverseVideo, true, 7); (FReverseVideo, false, 27)] →
  short_numbers [n] ∧ ∀ a, applied [n] a = set_flag f v a.
Proof.
  rewrite list_elem_of_In. cbn [In]. intros H.
  repeat destruct H as [[= <- <- <-]|H]; try done; (split; [split; [cbn; lia|repeat constructor; lia]|done]).
Qed.
Lemma applied_nil a : applied [] a = SetDefaultMetaAttrs (SetDefaultBackground (SetDefaultForeground a)).
Proof. reflexivity. Qed.

(** ** Colours *)

Lemma bytes_of_RGB r g b : 0 <= r < 256 → 0 <= g < 256 → 0 <= b < 256 →
  GetRValue (RGB r g b) = r ∧ GetGValue (RGB r g b) = g ∧ GetBValue (RGB r g b) = b.
Proof.
  intros Hr Hg Hb. assert (RGB r g b = r + g * 256 + b * 65536) as ->.
  { unfold RGB. rewrite !(wrapu_small 8) by lia. rewrite (Z.lor_comm r), lor_shiftl_add by lia.
    rewrite Z.lor_comm, lor_shiftl_add by lia. lia. }
  unfold GetRValue, GetGValue, GetBValue, wrapu. rewrite !Z.shiftr_div_pow2 by lia.
  change (2 ^ 16) with 65536. change (2 ^ 8) with 256. split_and!; Z.div_mod_to_equations; lia.
Qed.

Definition set_color (fg : bool) : TextColor → TextAttribute → TextAttribute := if fg then SetForeground else SetBackground.

Lemma look_color fg c c' a b : shade c = shade c' → same_look a b → same_look (set_color fg c a) (set_color fg c' b).
Proof. destruct fg; [apply look_foreground|apply look_background]. Qed.

Definition extended_code (fg : bool) : Z := if fg then 38 else 48.

Abbreviation number n := (VTParameter_of (Z.min 32767 n)).

(** A colour of the extended kind at the end of the options. *)
Lemma apply_extended fg rest a a' :
  _SetRgbColorsHelper rest a fg = (Z.of_nat (length rest), a') → apply_options (number (extended_code fg) :: rest) a = inr a'.
Proof.
  intros E. unfold apply_options, params_size. cbn [length].
  destruct (Z.to_nat (Z.of_nat (S (length rest)) `max` 1)) as [|fuel] eqn:Ef; [lia|]. cbn [sgr_loop]. unfold params_size. cbn [length].
  rewrite (proj2 (Z.ltb_lt _ _)) by lia. set (opt := as_selective _).
  assert (opt = extended_code fg) as -> by by destruct fg.
  assert ((extended_code fg =? ForegroundExtended) || (extended_code fg =? BackgroundExtended) = true) as -> by by destruct fg.
  unfold params_subspan. cbn [length]. rewrite (proj2 (Z.leb_le _ _)) by lia.
  assert (∀ x : VTParameter, drop (Z.to_nat (0 + 1)) (x :: rest) = rest) as -> by done. assert ((extended_code fg =? ForegroundExtended) = fg) as -> by by destruct fg. rewrite E.
  cbn [sgr_loop]. unfold params_size. cbn [length]. by rewrite (proj2 (Z.ltb_ge _ _)) by lia.
Qed.

Lemma applied_rgb fg r g b a : 0 <= r < 256 → 0 <= g < 256 → 0 <= b < 256 →
  applied [extended_code fg; 2; r; g; b] a = set_color fg (mkTextColor IsRgb_ r g b) a.
Proof.
  intros Hr Hg Hb. unfold applied.
  destruct (parse_numbers [extended_code fg; 2; r; g; b]) as [_ ->];
    [done|cbn; lia|repeat constructor; try lia; destruct fg; done|].
  erewrite (apply_extended fg [number 2; number r; number g; number b]); [reflexivity|].
  unfold _SetRgbColorsHelper. cbv zeta. change (as_selective _ =? RGBColorOrFaint) with true. cbn iota.
  change (params_at _ 1) with (number r). change (params_at _ 2) with (number g). change (params_at _ 3) with (number b).
  rewrite !value_or_number by lia. rewrite !(proj2 (Z.leb_le _ _)) by lia. cbn [andb length].
  destruct (bytes_of_RGB r g b Hr Hg Hb) as (E1 & E2 & E3).
  unfold SetColor, SetForegroundRgb, SetBackgroundRgb, TextColor_rgb. rewrite E1, E2, E3. by destruct fg.
Qed.

Lemma xterm_index_range : ∀ i, 0 <= i < 256 → 0 <= Xterm256ToWindowsIndex i < 256.
Proof. apply (forall_byte (λ i, 0 <= Xterm256ToWindowsIndex i < 256)). vm_compute. reflexivity. Qed.

Lemma applied_256 fg i a : 0 <= i < 256 →
  applied [extended_code fg; 5; Xterm256ToWindowsIndex i] a = set_color fg (TextColor_index i true) a.
Proof.
  intros Hi. pose proof (XtermToWindowsIndex_involutive i Hi) as Hinv.
  assert (0 <= Xterm256ToWindowsIndex i < 256) as Hj by by apply xterm_index_range.
  unfold applied.
  destruct (parse_numbers [extended_code fg; 5; Xterm256ToWindowsIndex i]) as [_ ->];
    [done|cbn; lia|repeat constructor; try lia; destruct fg; done|].
  erewrite (apply_extended fg [number 5; number (Xterm256ToWindowsIndex i)]); [reflexivity|].
  unfold _SetRgbColorsHelper. cbv zeta. change (as_selective _ =? RGBColorOrFaint) with false. cbn iota.
  change (as_selective _ =? BlinkOrXterm256Index) with true. cbn iota.
  change (params_at _ 1) with (number (Xterm256ToWindowsIndex i)).
  rewrite !value_or_number by lia. rewrite !(proj2 (Z.leb_le _ _)), Hinv, (wrapu_small 8) by lia. by destruct fg.
Qed.

Definition code16 (fg : bool) (i : Z) : Z :=
  30 + (if fg then 0 else 10) + (if 8 <=? i then 60 else 0) + Z.land (XtermToWindowsIndex i) 7.

Lemma applied_16 fg i a : 0 <= i < 16 → applied [code16 fg i] a = set_color fg (TextColor_index i false) a.
Proof.
  intros Hi. assert (i ∈ seqZ 0 16) as Hin by (apply elem_of_seqZ; lia). revert Hin. rewrite list_elem_of_In. cbn.
  intros H. repeat destruct H as [<-|H]; try done; by destruct fg.
Qed.

(** ** The renderer and the terminal in step *)

(** Since [r0] the renderer has written the sequences [l]; it remembers the attributes [a], which
    look like those of a terminal that had [t] then. *)
Record in_step (r0 : VtEngine) (t a : TextAttribute) (l : list (list Z)) (r : VtEngine) : Prop := {
  is_plain : Forall short_numbers l;
  is_sent : r = set_lastTextAttributes a (set_buffer (_buffer r0 ++ concat (sgr <$> l)) r0);
  is_look : same_look a (applied_all l t);
  is_link : _hyperlinkId a = _hyperlinkId (_lastTextAttributes r0)
}.

Lemma in_step_refl r t : same_look (_lastTextAttributes r) t → in_step r t (_lastTextAttributes r) [] r.
Proof. intros Hl. split; [done| |done|done]. cbn. rewrite app_nil_r. by destruct r. Qed.

Lemma in_step_send r0 t a l r ns a' :
  in_step r0 t a l r → short_numbers ns → (∀ b, same_look a b → same_look a' (applied ns b)) → _hyperlinkId a' = _hyperlinkId a →
  in_step r0 t a' (l ++ [ns]) (set_lastTextAttributes a' (set_buffer (_buffer r ++ sgr ns) r)).
Proof.
  intros [H1 H2 H3 H4] Hns Ha Hi. split; [apply Forall_app; split; [done|by apply Forall_singleton]| | |congruence].
  - rewrite H2. cbn. rewrite fmap_app, concat_app, app_assoc. cbn. by rewrite app_nil_r.
  - unfold applied_all. rewrite fold_left_app. by apply Ha.
Qed.

(** The flags [fs] become those of [ta], everything else stays. *)
Definition flags_moved (fs : list Flag) (ta a a' : TextAttribute) : Prop :=
  _foreground a' = _foreground a ∧ _background a' = _background a
  ∧ ∀ g, get_flag g a' = if decide (g ∈ fs) then get_flag g ta else get_flag g a.

Definition updates (fs : list Flag) (ta : TextAttribute) (m : prog VtEngine unit) : Prop :=
  ∀ r0 t a l r, in_step r0 t a l r → wp m (λ _ r', ∃ a' l', in_step r0 t a' l' r' ∧ flags_moved fs ta a a') r.

Lemma updates_seq fs gs ta m m' : updates fs ta m → updates gs ta m' → updates (gs ++ fs) ta (m;; m').
Proof.
  intros Hm Hm' r0 t a l r Hr. wp_step. eapply wp_mono; [exact (Hm _ _ _ _ _ Hr)|]. cbv beta. intros _ r' (a' & l' & Hr' & H1 & H2 & H3).
  eapply wp_mono; [exact (Hm' _ _ _ _ _ Hr')|]. cbv beta. intros _ r2 (a2 & l2 & Hr2 & H4 & H5 & H6).
  exists a2, l2. split; [done|]. split; [congruence|]. split; [congruence|]. intros g. rewrite H6, H3.
  rewrite (decide_ext (g ∈ gs ++ fs) (g ∈ gs ∨ g ∈ fs)) by apply elem_of_app. by repeat case_decide; naive_solver.
Qed.

Lemma bool_decide_pair (h f g : Flag) : bool_decide (h ∈ [f; g]) = if decide (g = h) then true else if decide (f = h) then true else false.
Proof. by repeat case_decide; case_bool_decide; set_solver. Qed.

Lemma set_flag_link f v a : _hyperlinkId (set_flag f v a) = _hyperlinkId a.
Proof. by destruct f. Qed.

Lemma set_flag_colors f v a : _foreground (set_flag f v a) = _foreground a ∧ _background (set_flag f v a) = _background a.
Proof. by destruct f. Qed.

Lemma in_step_last r0 t a l r : in_step r0 t a l r → _lastTextAttributes r = a.
Proof. by intros [_ -> _ _]. Qed.

Section system.
Context `{VtSystem}.

(** [m] changes what is remembered, by [h]. *)
Definition remembers (m : prog VtEngine unit) (h : TextAttribute → TextAttribute) : Prop :=
  ∀ r, m r = Ok tt (set_lastTextAttributes (h (_lastTextAttributes r)) r).

Lemma remembers_one h : remembers (with_last h) h.
Proof. done. Qed.

Lemma remembers_seq m m' h h' : remembers m h → remembers m' h' → remembers (m;; m') (λ a, h' (h a)).
Proof. intros Hm Hm' r. unfold mbind, prog_bind. rewrite Hm, Hm'. done. Qed.

(** A sequence that is sent on a condition, and what is then remembered. *)
Lemma send_ok (c : bool) ns m h r0 t a l r (Q : unit → VtEngine → Prop) :
  in_step r0 t a l r → short_numbers ns → remembers m h →
  (∀ b, same_look a b → same_look (h a) (applied ns b)) → _hyperlinkId (h a) = _hyperlinkId a →
  (∀ l' r', in_step r0 t (if c then h a else a) l' r' → Q tt r') →
  wp (when c (_Write (sgr ns);; m)) Q r.
Proof.
  intros Hr Hn Hm Ha Hi HQ. destruct c; cbn [when]; [|wp_step; by eapply HQ]. unfold _Write. repeat wp_step.
  unfold wp. rewrite Hm. eapply HQ. change (_lastTextAttributes (set_buffer _ r)) with (_lastTextAttributes r).
  rewrite (in_step_last _ _ _ _ _ Hr). exact (in_step_send _ _ _ _ _ _ _ Hr Hn Ha Hi).
Qed.

(** [send] sets the flag [f]. *)
Definition sends (f : Flag) (v : bool) (send : bool → prog VtEngine unit) : Prop :=
  ∃ n, send v = _Write (sgr [n]) ∧ short_numbers [n] ∧ ∀ b, applied [n] b = set_flag f v b.

Lemma sends_ok (c : bool) f v send r0 t a l r (Q : unit → VtEngine → Prop) :
  in_step r0 t a l r → sends f v send →
  (∀ l' r', in_step r0 t (if c then set_flag f v a else a) l' r' → Q tt r') →
  wp (when c (send v;; with_last (set_flag f v))) Q r.
Proof.
  intros Hr (n & -> & Hn & Ha) HQ. eapply send_ok; [exact Hr|done|apply remembers_one| |apply set_flag_link|exact HQ].
  intros b Hb. rewrite Ha. by apply look_flag.
Qed.

Lemma update_flag_updates f send ta : sends f true send → sends f false send → updates [f] ta (update_flag f send ta).
Proof.
  intros Ht Hf r0 t a l r Hr. unfold update_flag. repeat wp_step. rewrite (in_step_last _ _ _ _ _ Hr).
  eapply sends_ok; [exact Hr|by destruct (get_flag f ta)|]. intros l' r' Hr'. eexists _, l'. split; [exact Hr'|].
  destruct (eqb _ _) eqn:E; cbn [negb]; (split; [by destruct f|split; [by destruct f|]]); intros g.
  - apply eqb_prop in E. case_decide as Hg; [|done]. apply list_elem_of_singleton in Hg as ->. by symmetry.
  - rewrite get_set_flag, (decide_ext (g ∈ [f]) (f = g)) by (rewrite list_elem_of_singleton; naive_solver). by case_decide as Hg; [rewrite Hg|].
Qed.

(** Two flags that one sequence turns off. *)
Lemma turn_updates f g sendf sendg n ta :
  f ≠ g → sendf false = _Write (sgr [n]) → short_numbers [n] → (∀ b, applied [n] b = set_flag g false (set_flag f false b)) →
  sends f true sendf → sends g true sendg →
  updates [f; g] ta (turn_off f g sendf ta;; turn_on f sendf ta;; turn_on g sendg ta).
Proof.
  intros Hfg Es Hn Ha Hf Hg r0 t a l r Hr. unfold turn_off, turn_on. wp_step. rewrite Es. repeat wp_step.
  rewrite (in_step_last _ _ _ _ _ Hr). eapply send_ok; [exact Hr|done|eapply remembers_seq; apply remembers_one| | |].
  { intros b Hb. rewrite Ha. by do 2 apply look_flag. }
  { cbv beta. by rewrite !set_flag_link. }
  intros l1 r1 H1. repeat wp_step. rewrite (in_step_last _ _ _ _ _ H1). eapply sends_ok; [exact H1|done|].
  intros l2 r2 H2. repeat wp_step. rewrite (in_step_last _ _ _ _ _ H2). eapply sends_ok; [exact H2|done|].
  intros l3 r3 H3. eexists _, l3. split; [exact H3|]. clear -Hfg. set (off := _ || _).
  set (a1 := if off then _ else a). set (on := get_flag f ta && negb (get_flag f a1)).
  set (a2 := if on then set_flag f true a1 else a1). set (on' := get_flag g ta && negb (get_flag g a2)).
  assert (∀ h, get_flag h a1 = if off && bool_decide (h ∈ [f; g]) then false else get_flag h a) as E1.
  { intros h. unfold a1. destruct off; [|done]. rewrite !get_set_flag. cbn [andb]. rewrite bool_decide_pair. by repeat case_decide. }
  assert (∀ h, get_flag h a2 = if on && bool_decide (h = f) then true else get_flag h a1) as E2.
  { intros h. unfold a2. destruct on; [|done]. rewrite !get_set_flag. cbn [andb]. rewrite bool_decide_decide. by repeat case_decide; naive_solver. }
  split; [|split].
  - unfold a2, a1. destruct off, on, on'; by rewrite ?(proj1 (set_flag_colors _ _ _)).
  - unfold a2, a1. destruct off, on, on'; by rewrite ?(proj2 (set_flag_colors _ _ _)).
  - intros h. assert (get_flag h (if on' then set_flag g true a2 else a2) = if on' && bool_decide (h = g) then true else get_flag h a2) as ->.
    { destruct on'; [|done]. rewrite !get_set_flag. cbn [andb]. rewrite bool_decide_decide. by repeat case_decide; naive_solver. }
    rewrite E2, E1. destruct (decide (h = f)) as [->|Hhf]; [|destruct (decide (h = g)) as [->|Hhg]].
    + rewrite (bool_decide_false (f = g)), (bool_decide_true (f = f)), (bool_decide_true (f ∈ _)), decide_True by set_solver.
      unfold on. rewrite E1, (bool_decide_true (f ∈ _)) by set_solver. unfold off.
      by destruct (get_flag f ta), (get_flag f a), on', (get_flag g ta), (get_flag g a).
    + rewrite (bool_decide_false (g = f)), (bool_decide_true (g = g)), (bool_decide_true (g ∈ _)), decide_True by set_solver.
      unfold on'. rewrite E2, E1, (bool_decide_false (g = f)), (bool_decide_true (g ∈ _)) by set_solver. unfold off.
      by destruct (get_flag f ta), (get_flag f a), on, (get_flag g ta), (get_flag g a).
    + rewrite (bool_decide_false (h = f)), (bool_decide_false (h = g)), (bool_decide_false (h ∈ _)), decide_False by set_solver.
      by rewrite !andb_false_r.
Qed.
Lemma updates_seq3 fs gs ta (m1 m2 m3 m : prog VtEngine unit) :
  updates fs ta (m1;; m2;; m3) → updates gs ta m → updates (gs ++ fs) ta (m1;; m2;; m3;; m).
Proof.
  intros H1 H2 r0 t a l r Hr. pose proof (updates_seq _ _ _ _ _ H1 H2 r0 t a l r Hr) as Hw. unfold wp, mbind, prog_bind in *.
  destruct (m1 r) as [? r1|]; [|done]. destruct (m2 r1) as [? r2|]; [|done]. by destruct (m3 r2).
Qed.

Lemma extended_updates ta : ∃ fs, (∀ f : Flag, f ∈ fs) ∧ updates fs ta (_UpdateExtendedAttrs ta).
Proof.
  assert (∀ f v n (send : bool → prog VtEngine unit), send v = _Write (sgr [n]) → short_numbers [n] → (∀ b, applied [n] b = set_flag f v b) → sends f v send) as Hs.
  { intros f v n send E1 E2 E3. by exists n. }
  assert (∀ n, 0 <= n < 256 → short_numbers [n]) as Hp by (intros n Hn; split; [cbn; lia|by apply Forall_singleton]).
  exists (((((((([FReverseVideo] ++ [FCrossedOut]) ++ [FInvisible]) ++ [FBlinking]) ++ [FItalic]) ++ [FOverlined])
    ++ [FUnderlined; FDoublyUnderlined]) ++ [FBold; FFaint])).
  split; [by intros []; apply (bool_decide_unpack _)|]. unfold _UpdateExtendedAttrs.
  assert (∀ f send n m, send true = _Write (sgr [n]) → send false = _Write (sgr [m]) → 0 <= n < 256 → 0 <= m < 256 →
    (∀ b, applied [n] b = set_flag f true b) → (∀ b, applied [m] b = set_flag f false b) → updates [f] ta (update_flag f send ta)) as Hu.
  { intros f send n m E1 E2 Hn Hm H1 H2. apply update_flag_updates; eapply Hs; [exact E1|by apply Hp|done|exact E2|by apply Hp|done]. }
  apply updates_seq3; [apply (turn_updates FBold FFaint _SetBold _SetFaint 22)|apply updates_seq3;
    [apply (turn_updates FUnderlined FDoublyUnderlined _SetUnderlined _SetDoublyUnderlined 24)|]];
    [done|done|by apply Hp|done|by apply (Hs _ _ 1); [|apply Hp|]|by apply (Hs _ _ 2); [|apply Hp|]
    |done|done|by apply Hp|done|by apply (Hs _ _ 4); [|apply Hp|]|by apply (Hs _ _ 21); [|apply Hp|]|].
  apply updates_seq; [by apply (Hu _ _ 53 55)|]. apply updates_seq; [by apply (Hu _ _ 3 23)|].
  apply updates_seq; [by apply (Hu _ _ 5 25)|]. apply updates_seq; [by apply (Hu _ _ 8 28)|].
  apply updates_seq; [by apply (Hu _ _ 9 29)|]. by apply (Hu _ _ 7 27).
Qed.

(** ** Colours *)

Lemma code16_text fg i : 0 <= i < 16 →
  0 <= code16 fg i < 256 ∧ _SetGraphicsRendition16Color i fg = _Write (sgr [code16 fg i]).
Proof.
  intros Hi. assert (i ∈ seqZ 0 16) as Hin by (apply elem_of_seqZ; lia). revert Hin. rewrite list_elem_of_In. cbn -[code16].
  intros Hin. repeat destruct Hin as [<-|Hin]; try done; by destruct fg.
Qed.

Lemma send_color_text c fg : color_ok c →
  ∃ ns, short_numbers ns ∧ send_color c fg = _Write (sgr ns) ∧ ∀ b, applied ns b = set_color fg (shade c) b.
Proof.
  unfold color_ok, send_color, IsDefault, IsIndex16, IsIndex256, IsRgb, shade, GetIndex, _index, GetRGB. destruct (_meta c) eqn:Em.
  - intros Hi. exists [extended_code fg; 5; Xterm256ToWindowsIndex (_red c)]. pose proof (xterm_index_range _ Hi).
    split; [split; [cbn; lia|repeat constructor; try lia; by destruct fg]|]. split; [|intros b; by apply applied_256].
    cbn -[sgr _SetGraphicsRendition256Color]. unfold _SetGraphicsRendition256Color. f_equal. 
    unfold sgr, csi_string, csi_body, sgr_sequence, numbers. by destruct fg.
  - intros Hi. exists [code16 fg (_red c)]. split; [|split; [|intros b; by apply applied_16]].
    + split; [cbn; lia|]. apply Forall_singleton, (code16_text fg _ Hi).
    + apply (code16_text fg _ Hi).
  - intros _. exists [if fg then 39 else 49]. split; [split; [cbn; lia|repeat constructor; by destruct fg]|]. by destruct fg.
  - intros (Hr & Hg & Hb). exists [extended_code fg; 2; _red c; _green c; _blue c].
    split; [split; [cbn; lia|repeat constructor; try lia; by destruct fg]|].
    split; [|intros b; rewrite applied_rgb by done; destruct c; cbn in *; by subst].
    cbn -[sgr _SetGraphicsRenditionRGBColor RGB]. unfold _SetGraphicsRenditionRGBColor.
    destruct (bytes_of_RGB _ _ _ Hr Hg Hb) as (-> & -> & ->). f_equal.
    unfold sgr, csi_string, csi_body, sgr_sequence, numbers. 
    cbn [fmap list_fmap join_with]. generalize (print_int (_red c)) (print_int (_green c)) (print_int (_blue c)). intros l l' l''. f_equal.
    destruct fg; cbn; by repeat (rewrite <-app_assoc; cbn).
Qed.
(** One of the two colours, where the terminal may still have another one. *)
Lemma send_color_ok (fg cond : bool) c r0 t a l r (Q : unit → VtEngine → Prop) :
  in_step r0 t a l r → color_ok c →
  (∀ l' r', in_step r0 t (if cond then set_color fg c a else a) l' r' → Q tt r') →
  wp (when cond (send_color c fg;; with_last (set_color fg c))) Q r.
Proof.
  intros Hr Hc HQ. destruct (send_color_text c fg Hc) as (ns & Hn & -> & Ha).
  eapply send_ok; [exact Hr|done|apply remembers_one| |by destruct fg|exact HQ].
  intros b Hb. rewrite Ha. apply look_color; [|done]. unfold shade. by destruct (_meta c) eqn:Em; cbn; rewrite ?Em.
Qed.

Lemma reset_ok (cond : bool) r0 t a l r (Q : unit → VtEngine → Prop) :
  in_step r0 t a l r →
  (∀ l' r', in_step r0 t (if cond then SetDefaultMetaAttrs (SetDefaultForeground (SetDefaultBackground a)) else a) l' r' → Q tt r') →
  wp (when cond reset_graphics) Q r.
Proof.
  intros Hr HQ. unfold reset_graphics. change _SetGraphicsDefault with (_Write (sgr [])).
  eapply send_ok; [exact Hr|split; [cbn; lia|done]|eapply remembers_seq; [apply remembers_one|eapply remembers_seq; apply remembers_one]| |done|exact HQ].
  intros b _. rewrite applied_nil. apply look_reset.
Qed.

Lemma colors_ok ta r0 t a l r (Q : unit → VtEngine → Prop) :
  in_step r0 t a l r → color_ok (_foreground ta) → color_ok (_background ta) →
  (∀ a' l' r', in_step r0 t a' l' r' → _foreground a' = _foreground ta → _background a' = _background ta → Q tt r') →
  wp (_RgbUpdateDrawingBrushes ta) Q r.
Proof.
  intros Hr Hf Hb HQ. unfold _RgbUpdateDrawingBrushes. repeat wp_step. rewrite (in_step_last _ _ _ _ _ Hr).
  set (reset := _ && negb _). eapply reset_ok; [exact Hr|]. intros l1 r1 H1. repeat wp_step.
  change (SetForeground (GetForeground ta)) with (set_color true (_foreground ta)).
  eapply send_color_ok; [exact H1|done|]. intros l2 r2 H2.
  change (SetBackground (GetBackground ta)) with (set_color false (_background ta)).
  eapply send_color_ok; [exact H2|done|]. intros l3 r3 H3. eapply HQ; [exact H3|..]; clear.
  - destruct reset; repeat case_bool_decide; try done; cbn in *; by destruct (decide (_foreground ta = TextColor_default)).
  - destruct reset; repeat case_bool_decide; done.
Qed.

(** The renderer sends the terminal what it needs to look as asked for. *)
Lemma attributes_ok `{IRenderData} ta r t (Q : unit → VtEngine → Prop) :
  same_look (_lastTextAttributes r) t → color_ok (_foreground ta) → color_ok (_background ta) →
  _hyperlinkId ta = _hyperlinkId (_lastTextAttributes r) →
  (∀ a' l' r', in_step r t a' l' r' → same_look a' ta → Q tt r') →
  wp (Xterm256Engine_UpdateDrawingBrushes ta) Q r.
Proof.
  intros Hl Hf Hb Hi HQ. unfold Xterm256Engine_UpdateDrawingBrushes. wp_step.
  eapply colors_ok; [by apply in_step_refl|done|done|]. intros a1 l1 r1 H1 Ef Eb. wp_step.
  unfold _UpdateHyperlinkAttr. repeat wp_step. rewrite (in_step_last _ _ _ _ _ H1).
  assert (GetHyperlinkId ta =? GetHyperlinkId a1 = true) as -> by (apply Z.eqb_eq; unfold GetHyperlinkId; rewrite (is_link _ _ _ _ _ H1); done).
  cbn [negb when]. repeat wp_step. destruct (extended_updates ta) as (fs & Hfs & Hu).
  eapply wp_mono; [exact (Hu _ _ _ _ _ H1)|]. cbv beta. intros [] r2 (a2 & l2 & H2 & E1 & E2 & E3).
  eapply HQ; [exact H2|]. split; [congruence|]. split; [congruence|]. intros f. rewrite E3. by rewrite decide_True.
Qed.
End system.
