(* ===== verification/Conpty.v ===== *)
(** The renderer of [src/src/renderer/vt] connected to the Windows Terminal: what it writes, read by
    the parser, the engine and the dispatch of the terminal, makes the terminal show what the
    renderer was told to paint. *)

From stdpp Require Import strings.
From S2P Require Import Prelude DispatchTypes StateMachine StateMachineFacts ParserEquiv ParserParams ParserCsi Utils ColorTable OutputEngine OutputFacts InputFacts TextColor TextAttribute SgrStack Sgr Utf16 Viewport ViewportFacts OutputCell CharRow Row RowFacts Cursor TextBuffer TextBufferFacts TextNavFacts WriteFacts AdaptDispatch TerminalCore TerminalDispatch TerminalCoreFacts TerminalCoreSafe TerminalDispatchFacts TerminalScreen WindowsTerminal TerminalDisplay Utf8 Til Bitmap BitmapFacts VtRenderer VtFacts.

Import AsciiChars.

#[local] Open Scope Z_scope.

(** ** Displays *)

(** The sheet has lines of the width of the window, which is on it, and the cursor is in the
    window. *)
Record display_ok (D : Display) : Prop := {
  do_width : 2 <= d_width D <= 32000;
  do_top : 0 <= d_top D;
  do_height : 1 <= d_height D;
  do_bot : d_bot D < Z.of_nat (length (sheet (d_paper D))) <= 32767;
  do_px : 0 <= px (d_paper D) <= d_width D + 8;
  do_py : d_top D <= py (d_paper D) <= d_bot D;
  do_lines : Forall (λ l, length (l_cells l) = Z.to_nat (d_width D) ∧ length (l_attrs l) = Z.to_nat (d_width D))
               (sheet (d_paper D))
}.

Lemma display_core c : core_ok c → display_ok (display c).
Proof.
  intros Hc. pose proof (core_rows_range c Hc). pose proof (length_sheet c). pose proof (co_top c Hc). pose proof (co_bot c Hc).
  pose proof (co_line c Hc). pose proof (co_column c Hc).
  split; unfold d_bot; cbn; unfold v_height; try lia; [apply (co_width c Hc)|].
  apply Forall_lookup_2. intros i l Hl. apply (line_lengths (_buffer c) i l (co_buffer c Hc) Hl).
Qed.

(** Two lines with the same cells; a line feed changes whether a line is wrapped. *)
Definition same_line (l l' : Line) : Prop :=
  l_cells l = l_cells l' ∧ l_attrs l = l_attrs l' ∧ l_rendition l = l_rendition l' ∧ l_padded l = l_padded l'.

#[export] Instance same_line_equiv : Equivalence same_line.
Proof. split; repeat intros [? ?] || intros ?; unfold same_line in *; naive_solver congruence. Qed.

(** ** Moving the cursor *)

(** The renderer knows the window, and where the cursor of the terminal is. *)
Record tracks (r : VtRender.VtEngine) (D : Display) : Prop := {
  tr_view : VtRender._lastViewport r = mkViewport (mkRect 0 0 (d_width D - 1) (d_height D - 1));
  tr_cursor : VtRender._lastText r = VtRender.INVALID_COORDS
              ∨ px (d_paper D) = X (VtRender._lastText r) ∧ py (d_paper D) = d_top D + Y (VtRender._lastText r)
}.

(** Only the cursor has moved, to a place counted from the first line of the window. *)
Record moved_to (D : Display) (coord : COORD) (D' : Display) : Prop := {
  mv_x : px (d_paper D') = X coord;
  mv_y : py (d_paper D') = d_top D + Y coord;
  mv_sheet : Forall2 same_line (sheet (d_paper D)) (sheet (d_paper D'));
  mv_rest : d_ink D' = d_ink D ∧ d_width D' = d_width D ∧ d_top D' = d_top D ∧ d_height D' = d_height D
}.

Definition in_window (D : Display) (coord : COORD) : Prop := 0 <= X coord < d_width D ∧ 0 <= Y coord < d_height D.

Lemma same_lines_refl l : Forall2 same_line l l.
Proof. by apply Forall_Forall2_diag, Forall_true. Qed.

Lemma moved_put_cursor D coord : display_ok D → in_window D coord → moved_to D coord (put_cursor (X coord) (Y coord) D).
Proof.
  intros [H1 H2 H3 H4 H5 H6 H7] [Hx Hy]. unfold put_cursor, d_bot in *. split; cbn; [..|apply same_lines_refl|done].
  - rewrite i16_small by lia. unfold std_clamp. repeat case_match; zify_bool; lia.
  - rewrite i16_small by lia. unfold std_clamp. repeat case_match; zify_bool; lia.
Qed.

Lemma same_lines_end y l : Forall2 same_line l (alter end_line y l).
Proof.
  apply Forall2_same_length_lookup_2; [by rewrite length_alter|]. intros i x x' Hx Hx'. rewrite list_lookup_alter, Hx in Hx'.
  case_decide; [subst y; rewrite Hx in Hx'|]; cbn in Hx'; by simplify_eq.
Qed.

(** The characters that move the cursor. *)
Lemma moved_return D coord : display_ok D → X coord = 0 → py (d_paper D) = d_top D + Y coord → moved_to D coord (act D (Plain [CR])).
Proof.
  intros [H1 H2 H3 H4 H5 H6 H7] Hx Hy. unfold d_bot in *. split; cbn; [done|done|apply same_lines_refl|].
  split_and!; [done|done| |done]. unfold d_bot. lia.
Qed.

Lemma moved_back D coord :
  display_ok D → in_window D coord → px (d_paper D) - 1 = X coord → py (d_paper D) = d_top D + Y coord → moved_to D coord (act D (Plain [BS])).
Proof.
  intros [H1 H2 H3 H4 H5 H6 H7] [Hx Hy] Ex Ey. unfold d_bot in *. split; cbn; [|done|apply same_lines_refl|].
  - unfold std_clamp. repeat case_match; zify_bool; lia.
  - split_and!; [done|done| |done]. unfold d_bot. lia.
Qed.

Lemma moved_feed D coord (l : wstring) x :
  display_ok D → in_window D coord → l = [LF] ∧ x = px (d_paper D) ∨ l = [CR; LF] ∧ x = 0 →
  X coord = x → py (d_paper D) + 1 = d_top D + Y coord → moved_to D coord (act D (Plain l)).
Proof.
  intros [H1 H2 H3 H4 H5 H6 H7] [Hx Hy] Hl Ex Ey. unfold d_bot in *.
  set (y := Z.to_nat (py (d_paper D))).
  assert (strikes (d_width D) (d_ink D) (d_paper D) (key_of <$> l) = mkPaper (alter end_line y (sheet (d_paper D))) x (py (d_paper D) + 1)) as E.
  { destruct Hl as [[-> ->]|[-> ->]]; cbn; unfold next_line; cbn; rewrite length_alter, decide_True by lia; done. }
  unfold act. rewrite E. split; cbn; [done|done|apply same_lines_end|]. split_and!; [done|done| |done]. unfold d_bot. lia.
Qed.

(** ** Typing in a line *)

(** Text in a line from column [x] on. *)
Definition paint_line (x : Z) (text : wstring) (a : TextAttribute) (l : Line) : Line :=
  mkLine (splice (Z.to_nat x) ((λ ch, ([ch], Single)) <$> text) (l_cells l))
    (splice (Z.to_nat x) (replicate (length text) a) (l_attrs l)) (l_rendition l) (l_wrap l) (l_padded l).

Definition line_ok (w : Z) (l : Line) : Prop := length (l_cells l) = Z.to_nat w ∧ length (l_attrs l) = Z.to_nat w.

Lemma same_line_ok w l l' : same_line l l' → line_ok w l → line_ok w l'.
Proof. intros (H1 & H2 & _). unfold line_ok. by rewrite H1, H2. Qed.

Lemma paint_line_same x text a l l' : same_line l l' → same_line (paint_line x text a l) (paint_line x text a l').
Proof. intros (H1 & H2 & H3 & H4). unfold same_line, paint_line. cbn. by rewrite H1, H2. Qed.

Lemma paint_line_ok w x text a l : 0 <= x → x + Z.of_nat (length text) <= w → line_ok w l → line_ok w (paint_line x text a l).
Proof.
  intros Hx Hl [H1 H2]. split; cbn; rewrite length_splice; rewrite ?length_fmap, ?length_replicate; lia.
Qed.

Lemma paint_line_app w x text text' a l : 0 <= x → x + Z.of_nat (length (text ++ text')) <= w → line_ok w l →
  paint_line (x + Z.of_nat (length text)) text' a (paint_line x text a l) = paint_line x (text ++ text') a l.
Proof.
  intros Hx Hl [H1 H2]. rewrite length_app in Hl. unfold paint_line. cbn. rewrite Z2Nat.inj_add, Nat2Z.id by lia. f_equal.
  - rewrite fmap_app. rewrite <-(length_fmap (λ ch, ([ch], Single)) text) at 1. apply splice_app. rewrite !length_fmap. lia.
  - rewrite length_app, replicate_add. rewrite <-(length_replicate (length text) a) at 1. apply splice_app. rewrite !length_replicate. lia.
Qed.

Lemma put_cell_paints w x ch a l : 0 <= x < w → line_ok w l → same_line (paint_line x [ch] a l) (put_cell w a x ch l).
Proof. intros Hx [H1 H2]. unfold same_line, paint_line. cbn. by rewrite !splice_insert by lia. Qed.

Lemma blank_cells_paints w x n a wrap l : same_line (paint_line x (replicate (Z.to_nat n) UNICODE_SPACE) a l) (blank_cells w a wrap x n l).
Proof. unfold same_line, paint_line. cbn. by rewrite fmap_replicate, length_replicate. Qed.

(** The painting of a line of the sheet. *)
Definition paint_sheet (y x : Z) (text : wstring) (a : TextAttribute) (s : list Line) : list Line :=
  alter (paint_line x text a) (Z.to_nat y) s.

#[export] Instance same_lines_equiv : Equivalence (Forall2 same_line).
Proof. split; apply _. Qed.

Lemma paint_sheet_alter w y x text a f s s' :
  Forall (line_ok w) s → Forall2 same_line s s' → (∀ l, line_ok w l → same_line (paint_line x text a l) (f l)) →
  Forall2 same_line (paint_sheet y x text a s) (alter f (Z.to_nat y) s').
Proof.
  intros Hs Hss Hf. apply Forall2_alter; [done|]. intros l l' Hl Hl' E. etrans; [apply paint_line_same, E|]. apply Hf.
  eapply same_line_ok; [exact E|]. by eapply Forall_lookup_1.
Qed.

Lemma paint_sheet_ok w y x text a s :
  0 <= x → x + Z.of_nat (length text) <= w → Forall (line_ok w) s → Forall (line_ok w) (paint_sheet y x text a s).
Proof. intros Hx Hl Hs. apply Forall_alter; [done|]. intros l Hlk Hok. by apply paint_line_ok. Qed.

Lemma same_lines_ok w s s' : Forall2 same_line s s' → Forall (line_ok w) s → Forall (line_ok w) s'.
Proof. intros Hss Hs. induction Hss; [done|]. apply Forall_cons in Hs as [? ?]. constructor; [by eapply same_line_ok|auto]. Qed.

Lemma paint_sheet_same y x text a s s' : Forall2 same_line s s' → Forall2 same_line (paint_sheet y x text a s) (paint_sheet y x text a s').
Proof. intros Hss. apply Forall2_alter; [done|]. intros l l' _ _. apply paint_line_same. Qed.

Lemma paint_sheet_app w y x text text' a s : 0 <= x → x + Z.of_nat (length (text ++ text')) <= w → Forall (line_ok w) s →
  paint_sheet y (x + Z.of_nat (length text)) text' a (paint_sheet y x text a s) = paint_sheet y x (text ++ text') a s.
Proof.
  intros Hx Hl Hs. unfold paint_sheet. rewrite list_alter_alter_eq. apply list_alter_ext; [|done].
  intros l Hlk. cbn. eapply paint_line_app; [done|done|]. by eapply Forall_lookup_1.
Qed.

Lemma strikes_paint w a text : ∀ p,
  0 <= px p → px p + Z.of_nat (length text) <= w → Forall (line_ok w) (sheet p) →
  ∃ s', strikes w a p (Char <$> text) = mkPaper s' (px p + Z.of_nat (length text)) (py p)
    ∧ Forall2 same_line (paint_sheet (py p) (px p) text a (sheet p)) s'.
Proof.
  induction text as [|ch text IH]; intros p Hx Hl Hs.
  - exists (sheet p). split; [destruct p; cbn; f_equal; lia|]. unfold paint_sheet. rewrite list_alter_id; [done|].
    intros l. unfold paint_line. cbn. rewrite !splice_nil. by destruct l.
  - cbn [length] in Hl. set (p1 := mkPaper (alter (put_cell w a (px p) ch) (Z.to_nat (py p)) (sheet p)) (px p + 1) (py p)).
    assert (strike w a p (Char ch) = p1) as E1 by (cbn; unfold type_char; by rewrite decide_False by lia).
    assert (Forall2 same_line (paint_sheet (py p) (px p) [ch] a (sheet p)) (sheet p1)) as Hp1.
    { apply (paint_sheet_alter w); [done|done|]. intros l Hok. apply put_cell_paints; [lia|done]. }
    destruct (IH p1) as (s' & E & Hs'); [cbn; lia|cbn; lia|eapply same_lines_ok; [exact Hp1|]; apply paint_sheet_ok; [done|cbn; lia|done]|].
    exists s'. split.
    + cbn [fmap list_fmap strikes fold_left]. rewrite E1. etrans; [exact E|]. cbn. f_equal. lia.
    + etrans; [|exact Hs']. rewrite <-(paint_sheet_app w _ _ [ch] text) by (done || cbn; lia). by apply paint_sheet_same.
Qed.

(** ** What is seen *)

(** The cells of a line, and their attributes in the numbering of the console host. *)
Definition GridLine : Type := list (wstring * DbcsKind) * list TextAttribute.
Definition grid_line (l : Line) : GridLine := (l_cells l, conhost_attribute <$> l_attrs l).
Definition grid (D : Display) : list GridLine := grid_line <$> sheet (d_paper D).

(** Two lines that look the same. *)
Definition same_grid_line (g g' : GridLine) : Prop := g.1 = g'.1 ∧ Forall2 same_look g.2 g'.2.

#[export] Instance same_grid_line_equiv : Equivalence same_grid_line.
Proof.
  split.
  - intros g. split; [done|reflexivity].
  - intros g g' [H1 H2]. split; [done|by symmetry].
  - intros g g' g'' [H1 H2] [H3 H4]. split; [congruence|by etrans].
Qed.

#[export] Instance same_grid_equiv : Equivalence (Forall2 same_grid_line).
Proof. split; apply _. Qed.

(** A run of text: its attributes, where it starts in the window, and the text. *)
Record Run := mkRun { run_attributes : TextAttribute; run_coord : COORD; run_text : wstring }.

(** The text of the run in a line, with its attributes. *)
Definition paint_grid_line (run : Run) (g : GridLine) : GridLine :=
  let x := Z.to_nat (X (run_coord run)) in
  (splice x ((λ ch, ([ch], Single)) <$> run_text run) g.1,
   splice x (replicate (length (run_text run)) (run_attributes run)) g.2).

(** The run on the lines, of which the window starts at [top]. *)
Definition paint_grid (top : Z) (g : list GridLine) (run : Run) : list GridLine :=
  alter (paint_grid_line run) (Z.to_nat (top + Y (run_coord run))) g.

Lemma splice_look n l l' k k' : Forall2 same_look l l' → Forall2 same_look k k' → Forall2 same_look (splice n l k) (splice n l' k').
Proof.
  intros Hl Hk. unfold splice. rewrite (Forall2_length _ _ _ Hl). apply Forall2_app; [by apply Forall2_take|]. apply Forall2_app; [done|]. by apply Forall2_drop.
Qed.

Lemma paint_grid_same top run g g' : Forall2 same_grid_line g g' → Forall2 same_grid_line (paint_grid top g run) (paint_grid top g' run).
Proof.
  intros Hg. apply Forall2_alter; [done|]. intros l l' _ _ [H1 H2]. split; cbn; [by rewrite H1|].
  apply splice_look; [reflexivity|done].
Qed.

Lemma fold_paint_same top runs : ∀ g g', Forall2 same_grid_line g g' →
  Forall2 same_grid_line (fold_left (paint_grid top) runs g) (fold_left (paint_grid top) runs g').
Proof. induction runs as [|run runs IH]; intros g g' Hg; [done|]. cbn. apply IH. by apply paint_grid_same. Qed.

Lemma grid_same s s' : Forall2 same_line s s' → Forall2 same_grid_line (grid_line <$> s) (grid_line <$> s').
Proof.
  intros Hs. apply Forall2_fmap. eapply Forall2_impl; [exact Hs|]. intros l l' (H1 & H2 & _). split; cbn; [done|]. rewrite H2. reflexivity.
Qed.

Lemma grid_paints top run a s : same_look (run_attributes run) (conhost_attribute a) →
  Forall2 same_grid_line (grid_line <$> paint_sheet (top + Y (run_coord run)) (X (run_coord run)) (run_text run) a s)
    (paint_grid top (grid_line <$> s) run).
Proof.
  intros Ha. unfold paint_sheet, paint_grid.
  rewrite (list_fmap_alter grid_line _ (paint_grid_line (mkRun (conhost_attribute a) (run_coord run) (run_text run)))).
  - apply Forall2_alter; [reflexivity|]. intros l l' _ _ [H1 H2]. split; cbn; [by rewrite H1|]. apply splice_look; [|done].
    apply Forall2_replicate. by symmetry.
  - apply Forall_forall. intros l _. unfold grid_line, paint_grid_line. cbn. f_equal. unfold splice.
    by rewrite !fmap_app, fmap_take, fmap_drop, fmap_replicate, !length_replicate.
Qed.

Section painting.
Context `{GlyphWidth} `{VtRender.VtSystem}.

(** What [_MoveCursor] changes, with [text] written and the cursor at [coord]. *)
Definition cursor_at (coord : COORD) (text : wstring) (disable : bool) (r : VtRender.VtEngine) : VtRender.VtEngine :=
  VtRender.set_delayedEolWrap false (VtRender.set_wrappedRow None (VtRender.set_deferredCursorPos VtRender.INVALID_COORDS
    (VtRender.set_lastText coord (VtRender.set_needToDisableCursor disable
       (VtRender.set_buffer (VtRender._buffer r ++ text) r))))).

Lemma csi_text2 n m f :
  VtRender.esc "[" ++ print_int n ++ wstr ";" ++ print_int m ++ [f] = csi_string (csi [n; m] f).
Proof.
  unfold csi_string, csi_body, csi, numbers. cbn. generalize (print_int n) (print_int m). intros l l'. do 2 f_equal. by rewrite <-app_assoc.
Qed.

(** [m] writes what brings the cursor to [coord]. *)
Definition goes (D : Display) (coord : COORD) (m : prog VtRender.VtEngine unit) (r : VtRender.VtEngine) : Prop :=
  ∃ l b, m r = Ok tt (VtRender.set_needToDisableCursor b (VtRender.set_buffer (VtRender._buffer r ++ pieces_text l) r))
    ∧ Forall piece_ok l ∧ moved_to D coord (acts D l).

Lemma goes_write D coord text r p :
  text = piece_text p → piece_ok p → moved_to D coord (act D p) → goes D coord (VtRender._Write text) r.
Proof.
  intros -> Hp Hm. exists [p], (VtRender._needToDisableCursor r). split; [|by split; [apply Forall_singleton|]].
  unfold pieces_text. cbn. rewrite app_nil_r. by destruct r.
Qed.

Lemma goes_disable D coord m r :
  goes D coord m (VtRender.set_needToDisableCursor true r) → goes D coord (modify (VtRender.set_needToDisableCursor true);; m) r.
Proof. intros (l & b & E & Hl). exists l, b. split; [|done]. unfold mbind, prog_bind. cbn. by rewrite E. Qed.

Lemma goes_position D coord r : display_ok D → in_window D coord → goes D coord (VtRender._CursorPosition coord) r.
Proof.
  intros Hd Hw. pose proof (moved_put_cursor D coord Hd Hw) as Hm. destruct Hd as [H1 H2 H3 H4 H5 H6 H7], Hw as [Hx Hy]. unfold d_bot in *.
  apply (goes_write _ _ _ _ (MoveTo (Y coord + 1) (X coord + 1))); [|cbn; lia|cbn; by rewrite !Z.add_simpl_r].
  cbn [X Y piece_text]. rewrite !i16_small by lia. apply csi_text2.
Qed.

Lemma goes_home D coord r : display_ok D → in_window D coord → X coord = 0 → Y coord = 0 → goes D coord VtRender._CursorHome r.
Proof.
  intros Hd Hw Hx Hy. apply (goes_write _ _ _ _ Home); [done|done|]. pose proof (moved_put_cursor D coord Hd Hw) as Hm.
  by rewrite Hx, Hy in Hm.
Qed.

Lemma goes_forward D coord r : display_ok D → in_window D coord → 0 <= px (d_paper D) < X coord → py (d_paper D) = d_top D + Y coord →
  goes D coord (VtRender._CursorForward (i16 (X coord - px (d_paper D)))) r.
Proof.
  intros Hd Hw Hp Hq. pose proof (moved_put_cursor D coord Hd Hw) as Hm. destruct Hd as [H1 H2 H3 H4 H5 H6 H7], Hw as [Hx Hy]. unfold d_bot in *.
  apply (goes_write _ _ _ _ (Forward (X coord - px (d_paper D)))); [|cbn; lia|].
  - rewrite i16_small by lia. done.
  - cbn [act]. rewrite i16_small by lia. replace (px (d_paper D) + (X coord - px (d_paper D))) with (X coord) by lia.
    by replace (py (d_paper D) - d_top D) with (Y coord) by lia.
Qed.

Lemma control_typeable l : Forall (λ ch, ch = CR ∨ ch = LF ∨ ch = BS) l → Forall typeable l.
Proof. intros Hl. eapply Forall_impl; [exact Hl|]. intros ch Hch. by left. Qed.

Lemma MoveCursor_moves coord r D :
  tracks r D → display_ok D → in_window D coord → VtRender._wrappedRow r = None →
  ∃ l b, VtRender._MoveCursor coord r = Ok tt (cursor_at coord (pieces_text l) b r)
    ∧ Forall piece_ok l ∧ moved_to D coord (acts D l).
Proof.
  intros [_ Hc] Hd Hw Hn. unfold VtRender._MoveCursor. unfold mbind at 1, prog_bind at 1, gets at 1. cbv beta iota zeta.
  destruct ((X coord =? X (VtRender._lastText (id r))) && (Y coord =? Y (VtRender._lastText (id r)))) eqn:E0; unfold id in *.
  - exists [], (VtRender._needToDisableCursor r). apply andb_prop in E0 as [E0 E1]. apply Z.eqb_eq in E0, E1.
    assert (coord = VtRender._lastText r) as -> by (destruct coord as [cx cy]; cbn in *; rewrite E0, E1; by destruct (VtRender._lastText r)).
    split; [|split; [done|]].
    + unfold cursor_at, pieces_text. cbn. rewrite app_nil_r. by destruct r.
    + destruct Hc as [Hc|[Ex Ey]]; [rewrite Hc in Hw; destruct Hw as [Hw _]; cbn in Hw; lia|].
      by split; [..|apply same_lines_refl|].
  - match goal with |- context [VtRender.when (negb false) (?m;; modify (VtRender.set_lastText coord))] => set (go := m) end.
    assert (goes D coord go r) as (l & b & E & Hl & Hm).
    2:{ exists l, b. split; [|done]. unfold mbind, prog_bind. cbn. unfold mbind, prog_bind. by rewrite E. }
    unfold go. clear go. rewrite Hn.
    assert (∀ c m m', (c = true → goes D coord m r) → (c = false → goes D coord m' r) → goes D coord (if c then m else m') r) as Hif
      by (intros []; auto).
    pose proof (do_px D Hd) as Hpx. destruct Hw as [Hwx Hwy]. pose proof (conj Hwx Hwy : in_window D coord) as Hw.
    apply Hif; intros C1; [apply goes_disable, goes_home; zify_bool; done || lia|].
    apply Hif; intros C2; [by apply goes_position|].
    destruct Hc as [Hc|[Ex Ey]].
    { rewrite Hc in *. cbn [X Y VtRender.INVALID_COORDS] in *. repeat (apply Hif; intros ?; [try by apply goes_position|]);
        [zify_bool; lia..|]. by apply goes_disable, goes_position. }
    rewrite <-Ex. set (ly := Y (VtRender._lastText r)) in *.
    apply Hif; intros C3.
    { apply (goes_write _ _ _ _ (Plain [CR; LF])); [done|by apply control_typeable; repeat constructor; tauto|].
      apply (moved_feed D coord _ 0); zify_bool; naive_solver lia. }
    apply Hif; intros C4; [by apply goes_position|].
    apply Hif; intros C5.
    { apply (goes_write _ _ _ _ (Plain [CR])); [done|by apply control_typeable; repeat constructor; tauto|].
      apply (moved_return D coord); zify_bool; done || lia. }
    apply Hif; intros C6.
    { apply (goes_write _ _ _ _ (Plain [LF])); [done|by apply control_typeable; repeat constructor; tauto|].
      apply (moved_feed D coord _ (px (d_paper D))); zify_bool; naive_solver lia. }
    apply Hif; intros C7.
    { apply (goes_write _ _ _ _ (Plain [BS])); [done|by apply control_typeable; repeat constructor; tauto|].
      apply (moved_back D coord); zify_bool; done || lia. }
    apply Hif; intros C8; [apply goes_forward; zify_bool; done || lia|]. by apply goes_disable, goes_position.
Qed.

(** ** Painting a run *)

(** The renderer between two runs of a frame: no row is wrapped, the screen was not cleared or
    scrolled in this frame, and the pipe works. *)
Record steady (r : VtRender.VtEngine) : Prop := {
  sd_wrapped : VtRender._wrappedRow r = None;
  sd_cleared : VtRender._clearedAllThisFrame r = false;
  sd_bottom : VtRender._newBottomLine r = false;
  sd_utf8 : VtRender._fUseAsciiOnly r = false;
  sd_top : VtRender._virtualTop r <= 0;
  sd_pipe : VtRender._pipeBroken r = false
}.

(** The renderer has written [l], and nothing to the pipe yet; what is to be painted stays. *)
Definition sent (r : VtRender.VtEngine) (l : list Piece) (r' : VtRender.VtEngine) : Prop :=
  VtRender._buffer r' = VtRender._buffer r ++ pieces_text l
  ∧ (VtRender.written r', VtRender._invalidMap r') = (VtRender.written r, VtRender._invalidMap r).

Lemma sent_trans r l r1 l1 r2 : sent r l r1 → sent r1 l1 r2 → sent r (l ++ l1) r2.
Proof. intros [H1 H2] [H3 H4]. split; [|congruence]. rewrite H3, H1. unfold pieces_text. by rewrite fmap_app, concat_app, app_assoc. Qed.

(** Printable ASCII. *)
Definition printable (ch : wchar) : Prop := 0x20 <= ch < 0x7F ∧ narrow ch.

Definition cluster (ch : wchar) : VtRender.Cluster := VtRender.mkCluster [ch] 1.

Lemma gather_clusters text : ∀ line n, 0 <= n → n + Z.of_nat (length text) <= 32767 →
  VtRender.gather (λ z, inr (i16 z)) (cluster <$> text) line n = inr (line ++ text, n + Z.of_nat (length text)).
Proof.
  induction text as [|ch text IH]; intros line n Hn Hl; cbn [fmap list_fmap VtRender.gather length] in *.
  - rewrite app_nil_r. do 2 f_equal. lia.
  - cbn [cluster VtRender._columns VtRender._text mbind result_bind]. change (i16 1) with 1. unfold ShortAdd.
    rewrite (proj2 (Z.leb_le _ _)), (proj2 (Z.leb_le _ _)) by lia. cbn [andb]. rewrite IH by lia. rewrite <-app_assoc. do 2 f_equal. lia.
Qed.

Lemma scan_spaces_split line : ∀ i pre last found,
  i = Z.of_nat (length pre) → 0 <= last → last + (if found : bool then 1 else 0) <= i →
  Forall (eq 0x20) (drop (Z.to_nat (last + if found then 1 else 0)) pre) →
  let '(last', found') := VtRender.scan_spaces i line last found in
  let k := last' + (if found' : bool then 1 else 0) in
  0 <= k <= Z.of_nat (length (pre ++ line)) ∧ Forall (eq 0x20) (drop (Z.to_nat k) (pre ++ line)).
Proof.
  induction line as [|c line IH]; intros i pre last found Hi Hlast Hk Hf; cbn [VtRender.scan_spaces].
  - rewrite app_nil_r. split; [destruct found; lia|done].
  - assert (pre ++ c :: line = (pre ++ [c]) ++ line) as -> by by rewrite <-app_assoc.
    destruct (Z.eqb_spec c 0x20) as [->|Hc].
    + apply IH; [rewrite length_app; cbn; lia|done|lia|]. rewrite drop_app_le by (destruct found; lia). apply Forall_app. split; [done|by repeat constructor].
    + apply IH; [rewrite length_app; cbn; lia|lia|lia|]. rewrite drop_ge; [constructor|]. rewrite length_app. cbn. lia.
Qed.

(** The spaces at the end. *)
Lemma trailing_spaces line :
  let '(last, found) := VtRender.scan_spaces 0 line 0 false in
  let n := Z.of_nat (length line) - last - (if found : bool then 1 else 0) in
  0 <= n <= Z.of_nat (length line) ∧ line = take (Z.to_nat (Z.of_nat (length line) - n)) line ++ replicate (Z.to_nat n) UNICODE_SPACE.
Proof.
  pose proof (scan_spaces_split line 0 [] 0 false) as Hs. destruct (VtRender.scan_spaces 0 line 0 false) as [last found].
  destruct Hs as [Hk Hs]; [done|done|cbn; lia|by constructor|]. cbn [app] in *. split; [destruct found; lia|].
  rewrite <-(take_drop (Z.to_nat (last + if found then 1 else 0)) line) at 1. f_equal; [f_equal; lia|].
  symmetry. apply replicate_as_Forall. split; [rewrite length_drop; lia|done].
Qed.

(** Text has been painted; the cursor is in its line. *)
Record painted (D : Display) (coord : COORD) (text : wstring) (D' : Display) : Prop := {
  pa_sheet : Forall2 same_line (paint_sheet (d_top D + Y coord) (X coord) text (d_ink D) (sheet (d_paper D))) (sheet (d_paper D'));
  pa_x : X coord <= px (d_paper D') <= X coord + Z.of_nat (length text);
  pa_y : py (d_paper D') = d_top D + Y coord;
  pa_rest : d_ink D' = d_ink D ∧ d_width D' = d_width D ∧ d_top D' = d_top D ∧ d_height D' = d_height D
}.

Lemma moved_ok D coord D' : display_ok D → in_window D coord → moved_to D coord D' → display_ok D'.
Proof.
  intros [H1 H2 H3 H4 H5 H6 H7] [Hx Hy] [Mx My Ms (Mi & Mw & Mt & Mh)]. unfold d_bot in *. pose proof (Forall2_length _ _ _ Ms) as El.
  split; unfold d_bot; rewrite ?Mw, ?Mt, ?Mh; try lia. by eapply same_lines_ok.
Qed.

Lemma painted_ok D coord text D' :
  display_ok D → in_window D coord → X coord + Z.of_nat (length text) <= d_width D → painted D coord text D' → display_ok D'.
Proof.
  intros [H1 H2 H3 H4 H5 H6 H7] [Hx Hy] Hl [Ps Px Py (Pi & Pw & Pt & Ph)]. unfold d_bot in *. pose proof (Forall2_length _ _ _ Ps) as El.
  unfold paint_sheet in El. rewrite length_alter in El.
  split; unfold d_bot; rewrite ?Pw, ?Pt, ?Ph; try lia. eapply same_lines_ok; [exact Ps|]. apply paint_sheet_ok; [lia|lia|exact H7].
Qed.

(** Text that is typed after the cursor has been moved. *)
Lemma moved_types D coord D1 text :
  display_ok D → in_window D coord → moved_to D coord D1 → Forall printable text →
  X coord + Z.of_nat (length text) <= d_width D →
  painted D coord text (act D1 (Plain text)) ∧ px (d_paper (act D1 (Plain text))) = X coord + Z.of_nat (length text).
Proof.
  intros Hd Hw Hm Ht Hl. pose proof (moved_ok _ _ _ Hd Hw Hm) as Hd1. destruct Hm as [Mx My Ms (Mi & Mw & Mt & Mh)], Hw as [Hx Hy].
  destruct (strikes_paint (d_width D1) (d_ink D1) text (d_paper D1)) as (s' & E & Hs'); [lia|lia|apply Hd1|].
  assert (key_of <$> text = Char <$> text) as Ek.
  { apply list_fmap_ext. intros i ch Hch. pose proof (Forall_lookup_1 _ _ _ _ Ht Hch) as [Hp _]. unfold key_of.
    rewrite !(proj2 (Z.eqb_neq _ _)); [done|unfold BS; lia|unfold LF; lia|unfold CR; lia]. }
  destruct Hd as [_ _ _ H4 _ H6 _], Hd1 as [_ _ _ H4' _ H6' _]. unfold d_bot in *.
  unfold act. rewrite Ek, E. split; [|cbn; lia]. split; cbn.
  - etrans; [|exact Hs']. rewrite Mx, My, Mi. by apply paint_sheet_same.
  - lia.
  - lia.
  - split_and!; [done|done| |done]. unfold d_bot. lia.
Qed.

(** Blanks after the text. *)
Lemma painted_erases wrap n D coord text D1 :
  display_ok D → in_window D coord → painted D coord text D1 → px (d_paper D1) = X coord + Z.of_nat (length text) →
  0 < n → px (d_paper D1) + n <= d_width D →
  painted D coord (text ++ replicate (Z.to_nat n) UNICODE_SPACE) (put_paper (erased wrap n (d_width D1) (d_ink D1) (d_paper D1)) D1).
Proof.
  intros Hd Hw Hp Ex Hn Hl. pose proof (painted_ok D coord text D1 Hd Hw ltac:(lia) Hp) as Hd1.
  destruct Hp as [Ps Px Py (Pi & Pw & Pt & Ph)], Hw as [Hx Hy]. destruct Hd1 as [_ _ _ _ _ H6' H7'], Hd as [_ _ _ _ _ _ H7]. unfold d_bot in *.
  unfold erased. rewrite decide_True by lia. split; cbn.
  - rewrite <-(paint_sheet_app (d_width D)); [|lia|rewrite length_app, length_replicate; lia|exact H7].
    rewrite <-Ex, <-Py, Pi. apply (paint_sheet_alter (d_width D1)).
    + rewrite Py, Pw. apply paint_sheet_ok; [lia|lia|exact H7].
    + by rewrite Py.
    + intros l _. apply blank_cells_paints.
  - rewrite length_app. lia.
  - done.
  - split_and!; [done|done| |done]. unfold d_bot. lia.
Qed.

(** The UTF-8 of ASCII is the text itself. *)
Context (utf8_ascii : ∀ l : wstring, l ≠ [] → Forall (λ ch, 0 <= ch < 0x80) l → VtRender.WideCharToMultiByte l = Some l).

Lemma WriteUtf8_ascii text r (Q : unit → VtRender.VtEngine → Prop) :
  Forall printable text → Z.of_nat (length text) <= 32767 →
  Q tt (VtRender.set_buffer (VtRender._buffer r ++ text) r) → wp (VtRender._WriteTerminalUtf8 text) Q r.
Proof.
  intros Ht Hl HQ. unfold VtRender._WriteTerminalUtf8, VtRender.u16u8. wp_step.
  assert (Utf8.u16u8 VtRender.WideCharToMultiByte text = (Utf8.S_OK, text)) as ->.
  { unfold Utf8.u16u8, Utf8.INT_MAX. destruct text as [|ch text]; [done|]. cbn [length Nat.eqb].
    rewrite (proj2 (Z.ltb_ge _ _)) by (cbn [length] in Hl; lia). rewrite utf8_ascii; [done|done|].
    eapply Forall_impl; [exact Ht|]. intros c [Hc _]. lia. }
  wp_step. unfold VtRender._Write. by wp_step.
Qed.

Lemma MoveCursor_ok coord r D (Q : unit → VtRender.VtEngine → Prop) :
  tracks r D → display_ok D → in_window D coord → VtRender._wrappedRow r = None →
  (∀ l b, Forall piece_ok l → moved_to D coord (acts D l) → Q tt (cursor_at coord (pieces_text l) b r)) →
  wp (VtRender._MoveCursor coord) Q r.
Proof.
  intros Ht Hd Hw Hn HQ. destruct (MoveCursor_moves coord r D Ht Hd Hw Hn) as (l & b & E & Hl & Hm).
  unfold wp. rewrite E. by apply HQ.
Qed.

(** The text [l] that paints [text] at [coord] has been written, and the renderer is ready for the next run. *)
Record shows_run (r : VtRender.VtEngine) (D : Display) (coord : COORD) (text : wstring) (l : list Piece) (r' : VtRender.VtEngine) : Prop := {
  sr_ok : Forall piece_ok l;
  sr_sent : sent r l r';
  sr_attributes : VtRender._lastTextAttributes r' = VtRender._lastTextAttributes r;
  sr_tracks : tracks r' (acts D l);
  sr_steady : steady r';
  sr_painted : painted D coord text (acts D l)
}.

Lemma acts_app D l l' : acts D (l ++ l') = acts (acts D l) l'.
Proof. apply fold_left_app. Qed.

Lemma sent_write r l r' p : sent r l r' → sent r (l ++ [p]) (VtRender.set_buffer (VtRender._buffer r' ++ piece_text p) r').
Proof. intros Hs. eapply sent_trans; [exact Hs|]. split; [|done]. unfold pieces_text. cbn. by rewrite app_nil_r. Qed.

Lemma sent_lastText coord r l r' : sent r l r' → sent r l (VtRender.set_lastText coord r').
Proof. intros [H1 H2]. by split. Qed.

Lemma sent_cursor_at coord b r l : sent r l (cursor_at coord (pieces_text l) b r).
Proof. by split. Qed.

(** What [finish_line] changes besides the text. *)
Definition bottom_done (b : bool) (r : VtRender.VtEngine) : VtRender.VtEngine :=
  if b then VtRender.set_newBottomLineBG None (VtRender.set_newBottomLine false r) else r.

Lemma bottom_done_same b r r0 D coord text l :
  shows_run r0 D coord text l r → shows_run r0 D coord text l (bottom_done b r).
Proof.
  intros [H1 H2 H3 [H4 H5] [H6 H7 H8 H9 H10 H11] H12]. destruct b; [|done]. by split; [..|split|split|].
Qed.

Lemma delayed_same b r r0 D coord text l :
  shows_run r0 D coord text l r → shows_run r0 D coord text l (VtRender.set_delayedEolWrap b r).
Proof. intros [H1 H2 H3 [H4 H5] [H6 H7 H8 H9 H10 H11] H12]. by split; [..|split|split|]. Qed.

Lemma finish_bottom b (Q : unit → VtRender.VtEngine → Prop) r :
  Q tt (bottom_done b r) → wp (VtRender.when b (modify (λ r, VtRender.set_newBottomLineBG None (VtRender.set_newBottomLine false r)))) Q r.
Proof. destruct b; cbn [VtRender.when]; intros HQ; by wp_step. Qed.

Lemma finish_line_paints n (erase bottom : bool) r D coord text l r1 :
  display_ok D → in_window D coord → narrow UNICODE_SPACE →
  shows_run r D coord text l r1 → px (d_paper (acts D l)) = X coord + Z.of_nat (length text) →
  VtRender._lastText r1 = mkCOORD (X coord + Z.of_nat (length text)) (Y coord) →
  0 <= n → X coord + Z.of_nat (length text) + (if erase then n else 0) <= d_width D → n <= 32767 → (erase = true → 0 < n) →
  wp (VtRender.finish_line n erase erase bottom erase)
    (λ _ r', ∃ l', shows_run r D coord (text ++ if erase then replicate (Z.to_nat n) UNICODE_SPACE else []) l' r') r1.
Proof.
  intros Hd Hw Hsp Hs Ex El Hn Hl Hn' He. unfold VtRender.finish_line. wp_step. eapply lift_ok.
  { unfold VtRender.narrow_to_short. by rewrite (proj2 (Z.leb_le _ _)), (proj2 (Z.leb_le _ _)) by lia. }
  do 2 wp_step. unfold id. rewrite (sd_bottom _ (sr_steady _ _ _ _ _ _ Hs)). cbn [andb]. wp_step. destruct erase.
  2:{ wp_step. apply finish_bottom. exists l. rewrite app_nil_r. by apply bottom_done_same. }
  destruct Hs as [H1 H2 H3 [H4 H5] H6 H7].
  pose proof (do_width D Hd) as Hwd. destruct Hw as [Hx Hy].
  rewrite El. cbn [X Y]. rewrite (i16_small (_ + n)) by lia. destruct (pa_rest _ _ _ _ H7) as (P1 & P2 & P3 & P4).
  set (D1 := acts D l) in *. set (d := mkCOORD _ _). set (r2 := VtRender.set_deferredCursorPos d r1).
  assert (∀ p wrap, piece_ok p → act D1 p = put_paper (erased wrap n (d_width D1) (d_ink D1) (d_paper D1)) D1 →
    shows_run r D coord (text ++ replicate (Z.to_nat n) UNICODE_SPACE) (l ++ [p]) (VtRender.set_buffer (VtRender._buffer r2 ++ piece_text p) r2)) as Hfin.
  { intros p wrap Hp Ep. assert (acts D (l ++ [p]) = put_paper (erased wrap n (d_width D1) (d_ink D1) (d_paper D1)) D1) as Ea
      by by rewrite acts_app.
    pose proof (painted_erases wrap n D coord text D1 Hd (conj Hx Hy) H7 Ex (He eq_refl) ltac:(lia)) as Hpe. rewrite <-Ea in Hpe.
    destruct (pa_rest _ _ _ _ Hpe) as (Q1 & Q2 & Q3 & Q4).
    split; [by apply Forall_app; split; [|apply Forall_singleton]|exact (sent_write _ _ _ p H2)|done| | |done].
    - split; [rewrite Q2, Q4; cbn; congruence|]. right. cbn. rewrite El. cbn [X Y]. split; [|rewrite (pa_y _ _ _ _ Hpe); lia].
      rewrite Ea. unfold erased. case_decide; cbn; lia.
    - destruct H6. by split. }
  wp_step. wp_step.
  match goal with |- wp (if ?c then _ else _) _ _ => destruct c eqn:C end; rewrite H4 in C; cbn in C;
    unfold VtRender._EraseCharacter, VtRender._EraseLine, VtRender._Write; wp_step; apply finish_bottom.
  - exists (l ++ [EraseCells n]). apply bottom_done_same. apply (Hfin (EraseCells n) true); [cbn; lia || by split; [lia|]|].
    cbn [act]. f_equal. f_equal. zify_bool. lia.
  - exists (l ++ [EraseRight]). apply bottom_done_same. apply (Hfin EraseRight false); [done|]. cbn [act]. f_equal. f_equal. zify_bool. lia.
Qed.

Lemma PaintLine_paints text coord r D :
  tracks r D → display_ok D → steady r → narrow UNICODE_SPACE → in_window D coord → Forall printable text →
  X coord + Z.of_nat (length text) <= d_width D →
  wp (VtRender._PaintUtf8BufferLine (cluster <$> text) coord false) (λ _ r', ∃ l, shows_run r D coord text l r') r.
Proof.
  intros Ht Hd Hst Hsp Hw Hp Hl. pose proof (do_width D Hd) as Hwd. pose proof Hw as [Hx Hy]. pose proof (trailing_spaces text) as Hsc.
  unfold VtRender._PaintUtf8BufferLine. wp_step. wp_step. unfold id.
  rewrite (proj2 (Z.ltb_ge _ _)) by (pose proof (sd_top _ Hst); lia). wp_step. eapply lift_ok; [apply gather_clusters; lia|].
  cbn [app]. rewrite Z.add_0_l. destruct (VtRender.scan_spaces 0 text 0 false) as [last found]. destruct Hsc as [Hn Hsplit].
  set (len := Z.of_nat (length text)) in *. set (n := len - last - (if found then 1 else 0)) in *.
  rewrite (sd_bottom _ Hst), (sd_cleared _ Hst). cbn [negb andb orb]. rewrite !andb_true_r, !orb_false_r.
  set (erase := n >? VtRender.ERASE_CHARACTER_STRING_LENGTH).
  set (cch := if erase then len - n else len). set (pre := take (Z.to_nat cch) text).
  assert (Z.of_nat (length pre) = cch) as Hpre by (unfold pre, cch; rewrite length_take; destruct erase; lia).
  assert ((if erase then u64 (u64 len - n) else u64 len) = cch) as -> by (unfold cch; destruct erase; rewrite ?(wrapu_small 64 len), ?(wrapu_small 64) by lia; done).
  assert (text = pre ++ if erase then replicate (Z.to_nat n) UNICODE_SPACE else []) as Htext.
  { unfold pre, cch. destruct erase; [done|]. by rewrite app_nil_r, Z2Nat.inj_pos || rewrite app_nil_r, take_ge by lia. }
  assert (erase = true → 0 < n) as Her by (unfold erase; intros He; zify_bool; unfold VtRender.ERASE_CHARACTER_STRING_LENGTH in *; lia).
  assert (0 <= cch <= len) as Hcch by (unfold cch; destruct erase; lia).
  assert (X coord + cch + (if erase then n else 0) <= d_width D) as Hfit by (unfold cch; destruct erase; lia).
  assert (Forall printable pre) as Hpp by by apply Forall_take.
  clearbody erase cch pre. clear Hsplit.
  wp_step. apply (wp_mono _ (λ _ r', r' = r)).
  { destruct (cch =? 0); cbn [VtRender.when]; wp_step; [|done]. pose proof (sd_wrapped _ Hst) as E. clear -E. by destruct r; cbn in *; subst. }
  intros _ ? ->. wp_step. eapply MoveCursor_ok; [exact Ht|done|done|apply Hst|]. intros lm b Hlm Hm. wp_step.
  apply WriteUtf8_ascii; [done|lia|]. cbn [VtRender.when]. repeat wp_step.
  set (r2 := VtRender.set_buffer _ _). change (VtRender._lastText r2) with coord. change (VtRender._lastViewport r2) with (VtRender._lastViewport r).
  assert (RightExclusive (VtRender._lastViewport r) = d_width D) as -> by (unfold RightExclusive; rewrite (tr_view _ _ Ht); cbn [_sr rRight]; rewrite i16_small by lia; lia).
  rewrite (proj2 (Z.ltb_lt _ _)), (i16_small cch), (i16_small (X coord + cch)) by lia.
  set (r3 := VtRender.set_lastText _ r2).
  destruct (moved_types D coord (acts D lm) pre Hd Hw Hm Hpp) as [Hpa Hpx]; [lia|]. rewrite Hpre in Hpx.
  assert (shows_run r D coord pre (lm ++ [Plain pre]) r3) as Hr3.
  { assert (acts D (lm ++ [Plain pre]) = act (acts D lm) (Plain pre)) as Ea by by rewrite acts_app.
    destruct (pa_rest _ _ _ _ Hpa) as (Q1 & Q2 & Q3 & Q4). rewrite <-Ea in *.
    split; [| |done| | |done].
    - apply Forall_app. split; [done|]. apply Forall_singleton. cbn. eapply Forall_impl; [exact Hpp|]. intros ch [Hc Hc']. right.
      split; [|done]. unfold _isActionableFromGround, _isC1ControlCharacter, _isDelete, US, DEL. lia.
    - apply sent_lastText, (sent_write r lm _ (Plain pre)), sent_cursor_at.
    - split; [rewrite Q2, Q4; apply Ht|]. right. cbn. split; [done|]. rewrite (pa_y _ _ _ _ Hpa). lia.
    - destruct Hst. by split. }
  rewrite Htext. set (r4 := if _ >=? _ then _ else r3).
  assert (shows_run r D coord pre (lm ++ [Plain pre]) r4 ∧ VtRender._lastText r4 = mkCOORD (X coord + cch) (Y coord)) as [Hr4 El].
  { unfold r4. destruct (_ >=? _); [|done]. split; [by apply delayed_same|done]. }
  apply (finish_line_paints n erase _ r D coord pre (lm ++ [Plain pre])); rewrite ?Hpre; [done|done|done|exact Hr4| |exact El|lia|lia|lia|done].
  by rewrite acts_app.
Qed.

(** ** Attributes *)

(** The renderer and the terminal agree: on the place of the cursor, and on how the next text
    looks, in the numbering of the console host. *)
Record synced (r : VtRender.VtEngine) (D : Display) : Prop := {
  sy_tracks : tracks r D;
  sy_display : display_ok D;
  sy_steady : steady r;
  sy_look : same_look (VtRender._lastTextAttributes r) (conhost_attribute (d_ink D));
  sy_link : _hyperlinkId (VtRender._lastTextAttributes r) = 0
}.

Definition with_ink (a : TextAttribute) (D : Display) : Display := mkDisplay (d_paper D) a (d_width D) (d_top D) (d_height D).

Lemma styles_ink l : ∀ D, ∃ a, acts D (Style <$> l) = with_ink a D ∧ conhost_attribute a = applied_all l (conhost_attribute (d_ink D)).
Proof.
  induction l as [|ns l IH]; intros D; [exists (d_ink D); by destruct D|].
  destruct (IH (act D (Style ns))) as (a & E & Ea). exists a. split; [exact E|]. rewrite Ea. cbn [d_ink act].
  unfold applied_all. cbn [fold_left]. f_equal. unfold applied. by rewrite vt_applied_agrees.
Qed.

Lemma styles_text l : concat (sgr <$> l) = pieces_text (Style <$> l).
Proof. unfold pieces_text. by rewrite <-list_fmap_compose. Qed.

Lemma styles_ok l : Forall short_numbers l → Forall piece_ok (Style <$> l).
Proof. intros Hl. apply Forall_fmap. eapply Forall_impl; [exact Hl|]. intros ns [H1 H2]. cbn. split; [lia|]. eapply Forall_impl; [exact H2|]. cbn. lia. Qed.

Lemma brushes_sync `{VtRender.IRenderData} ta r D :
  synced r D → color_ok (_foreground ta) → color_ok (_background ta) → _hyperlinkId ta = 0 →
  wp (VtRender.Xterm256Engine_UpdateDrawingBrushes ta) (λ _ r', ∃ l a,
    Forall piece_ok l ∧ sent r l r' ∧ acts D l = with_ink a D ∧ same_look ta (conhost_attribute a) ∧ synced r' (acts D l)) r.
Proof.
  intros [[S1 S1'] [S2 S2' S2'' S3 S4 S5 S6] [T1 T2 T3 T4 T5 T6] S7 S8] Hf Hb Hh.
  eapply attributes_ok; [exact S7|done|done|congruence|]. intros a' l r' [I1 I2 I3 I4] Hl.
  destruct (styles_ink l D) as (a & Ea & Ec). exists (Style <$> l), a. rewrite <-Ec in I3. subst r'.
  split; [by apply styles_ok|]. split; [by rewrite styles_text|]. split; [done|]. split; [by rewrite <-Hl|].
  rewrite Ea. by split; [split|split|split|..]; cbn; [..|congruence].
Qed.

(** ** Frames *)

Definition paint_run `{VtRender.IRenderData} (run : Run) : prog VtRender.VtEngine unit :=
  VtRender.Xterm256Engine_UpdateDrawingBrushes (run_attributes run);;
  VtRender.XtermEngine_PaintBufferLine (cluster <$> run_text run) (run_coord run) false false.

Fixpoint paint_runs `{VtRender.IRenderData} (runs : list Run) : prog VtRender.VtEngine unit :=
  match runs with
  | [] => mret tt
  | run :: runs => paint_run run;; paint_runs runs
  end.

(** A run in the window, of printable ASCII, that is not part of a link. *)
Record run_ok (D : Display) (run : Run) : Prop := {
  ro_foreground : color_ok (_foreground (run_attributes run));
  ro_background : color_ok (_background (run_attributes run));
  ro_link : _hyperlinkId (run_attributes run) = 0;
  ro_window : in_window D (run_coord run);
  ro_text : Forall printable (run_text run);
  ro_width : X (run_coord run) + Z.of_nat (length (run_text run)) <= d_width D
}.

(** The window has the same size and is on the same lines. *)
Definition same_window (D D' : Display) : Prop := d_width D' = d_width D ∧ d_top D' = d_top D ∧ d_height D' = d_height D.

Lemma run_ok_same D D' run : same_window D D' → run_ok D run → run_ok D' run.
Proof. intros (H1 & H2 & H3) [R1 R2 R3 [R4 R4'] R5 R6]. split; try done; [split|]; by rewrite ?H1, ?H2, ?H3. Qed.

(** [l] has been written since [r], by which the terminal shows [g]. *)
Definition showing (r : VtRender.VtEngine) (D : Display) (g : list GridLine) (l : list Piece) (r' : VtRender.VtEngine) : Prop :=
  Forall piece_ok l ∧ sent r l r' ∧ synced r' (acts D l) ∧ same_window D (acts D l) ∧ Forall2 same_grid_line (grid (acts D l)) g.

Section runs.
Context `{VtRender.IRenderData} (narrow_space : narrow UNICODE_SPACE).

Lemma run_shows run r D : synced r D → run_ok D run →
  wp (paint_run run) (λ _ r', ∃ l, showing r D (paint_grid (d_top D) (grid D) run) l r') r.
Proof.
  intros Hs [R1 R2 R3 R4 R5 R6]. unfold paint_run. wp_step. eapply wp_mono; [by apply brushes_sync|]. cbv beta.
  intros _ r1 (l1 & a & Hl1 & Hsent1 & Ea & Hlook & [Y1 Y2 Y3 Y4 Y5]). unfold VtRender.XtermEngine_PaintBufferLine. do 2 wp_step.
  rewrite (sd_utf8 _ Y3). eapply wp_mono; [apply (PaintLine_paints _ _ r1 (acts D l1)); try done; [..]|]; [by rewrite Ea|by rewrite Ea|].
  cbv beta. intros _ r2 (l2 & [P1 P2 P3 P4 P5 P6]). exists (l1 ++ l2).
  pose proof (painted_ok _ _ _ _ Y2 ltac:(by rewrite Ea) ltac:(by rewrite Ea) P6) as Hok. destruct P6 as [G1 G2 G3 (G4 & G5 & G6 & G7)].
  rewrite Ea in G4, G5, G6, G7, G1, Y4. cbn in G1, G4, G5, G6, G7, Y4. unfold showing. rewrite acts_app, Ea in *.
  split; [by apply Forall_app|]. split; [by eapply sent_trans|].
  split; [split; [done|done|done|by rewrite P3, G4|by rewrite P3]|]. split; [done|].
  unfold grid. etrans; [symmetry; apply grid_same, G1|]. by apply grid_paints.
Qed.

Lemma runs_show runs : ∀ r D, synced r D → Forall (run_ok D) runs →
  wp (paint_runs runs) (λ _ r', ∃ l, showing r D (fold_left (paint_grid (d_top D)) runs (grid D)) l r') r.
Proof.
  induction runs as [|run runs IH]; intros r D Hs Hr; cbn [paint_runs fold_left].
  - wp_step. exists []. split; [done|]. split; [split; [cbn; by rewrite app_nil_r|done]|]. split; [done|]. split; [done|reflexivity].
  - apply Forall_cons in Hr as [Hrun Hr]. wp_step. eapply wp_mono; [by apply run_shows|]. cbv beta.
    intros _ r1 (l1 & J1 & J2 & J3 & J4 & J5).
    eapply wp_mono; [apply (IH r1 (acts D l1) J3)|].
    { eapply Forall_impl; [exact Hr|]. intros run' Hrun'. by eapply run_ok_same. }
    cbv beta. intros _ r2 (l2 & K1 & K2 & K3 & K4 & K5). exists (l1 ++ l2). unfold showing. rewrite acts_app.
    destruct J4 as (E1 & E2 & E3), K4 as (E4 & E5 & E6).
    split; [by apply Forall_app|]. split; [by eapply sent_trans|]. split; [done|]. split; [split_and!; congruence|].
    etrans; [exact K5|]. rewrite E2. by apply fold_paint_same.
Qed.

(** A frame: the default brush of the renderer (the current attributes of the console), the runs that have changed, and the cursor. *)
Record Frame := mkFrame { frame_brush : TextAttribute; frame_runs : list Run; frame_cursor : COORD }.

(** The default brush is set before anything is painted. *)
Definition paint_rows (f : Frame) : prog VtRender.VtEngine unit :=
  VtRender.Xterm256Engine_UpdateDrawingBrushes (frame_brush f);;
  paint_runs (frame_runs f).

Definition brush_ok (ta : TextAttribute) : Prop := color_ok (_foreground ta) ∧ color_ok (_background ta) ∧ _hyperlinkId ta = 0.

Lemma rows_show f r D : synced r D → brush_ok (frame_brush f) → Forall (run_ok D) (frame_runs f) →
  wp (paint_rows f) (λ _ r', ∃ l, showing r D (fold_left (paint_grid (d_top D)) (frame_runs f) (grid D)) l r') r.
Proof using narrow_space utf8_ascii.
  intros Hs (B1 & B2 & B3) Hr. unfold paint_rows. wp_step. eapply wp_mono; [by apply brushes_sync|]. cbv beta.
  intros _ r1 (l1 & a & Hl1 & Hsent & Ea & _ & Hs1). eapply wp_mono; [apply (runs_show (frame_runs f) r1 (acts D l1) Hs1)|].
  { eapply Forall_impl; [exact Hr|]. intros run. apply run_ok_same. by rewrite Ea. }
  cbv beta. intros _ r2 (l2 & K1 & K2 & K3 & K4 & K5). exists (l1 ++ l2). unfold showing. rewrite acts_app.
  split; [by apply Forall_app|]. split; [by eapply sent_trans|]. split; [done|]. rewrite Ea in *. by split.
Qed.

(** The calls of the base renderer that reach this engine, but for scrolling, the title, overlays and the selection. *)
Definition paint_frame (f : Frame) : prog VtRender.VtEngine unit :=
  VtRender.XtermEngine_StartPaint;;
  paint_rows f;;
  VtRender.XtermEngine_PaintCursor (frame_cursor f);;
  VtRender.XtermEngine_EndPaint.

Definition frame_ok (D : Display) (f : Frame) : Prop :=
  (brush_ok (frame_brush f) ∧ Forall (run_ok D) (frame_runs f)) ∧ in_window D (frame_cursor f).

(** Between two frames the renderer has nothing left to write. *)
Record between_frames (r : VtRender.VtEngine) (D : Display) : Prop := {
  bf_synced : synced r D;
  bf_buffer : VtRender._buffer r = [];
  bf_first : VtRender._firstPaint r = false;
  bf_map : bm_ok (d_width D) (d_height D) (VtRender._invalidMap r)
}.

(** What [synced] is about. *)
Definition essence (r : VtRender.VtEngine) :=
  (VtRender._lastViewport r, VtRender._lastText r, VtRender._lastTextAttributes r,
   (VtRender._wrappedRow r, VtRender._clearedAllThisFrame r, VtRender._newBottomLine r, VtRender._fUseAsciiOnly r,
    VtRender._virtualTop r, VtRender._pipeBroken r)).

Lemma synced_same r r' D : essence r' = essence r → synced r D → synced r' D.
Proof.
  unfold essence. intros [= E1 E2 E3 E4 E5 E6 E7 E8 E9] [[S1 S2] S3 [] S5 S6].
  split; [split|..]; rewrite ?E1, ?E2, ?E3; try done. by split; rewrite ?E4, ?E5, ?E6, ?E7, ?E8, ?E9.
Qed.

Lemma moved_synced r D coord l b : synced r D → in_window D coord → moved_to D coord (acts D l) →
  synced (cursor_at coord (pieces_text l) b r) (acts D l).
Proof.
  intros [[S1 S2] S3 [] S5 S6] Hw Hm. pose proof (moved_ok _ _ _ S3 Hw Hm). destruct Hm as [M1 M2 M3 (M4 & M5 & M6 & M7)].
  split; [|done|by split|by rewrite M4|done]. split; [by rewrite M5, M7|]. right. cbn. rewrite M6. by split.
Qed.

Lemma cursor_shows coord r D : synced r D → in_window D coord →
  wp (VtRender.XtermEngine_PaintCursor coord) (λ _ r', ∃ l, showing r D (grid D) l r'
    ∧ moved_to D coord (acts D l) ∧ VtRender._deferredCursorPos r' = VtRender.INVALID_COORDS) r.
Proof.
  intros Hs Hw. unfold VtRender.XtermEngine_PaintCursor. do 2 wp_step. set (r1 := VtRender.set_nextCursorIsVisible true r). do 2 wp_step. unfold id.
  assert (synced r1 D) as Hs1 by by apply (synced_same r).
  pose proof (sy_steady _ _ Hs1) as Hst.
  rewrite (sd_wrapped _ Hst), andb_false_r. cbn [negb VtRender.when]. unfold VtRender.PaintCursor. wp_step.
  destruct (MoveCursor_moves coord r1 D) as (l & b & E & Hl & Hm); [apply Hs1|apply Hs1|done|apply Hst|].
  unfold wp at 1, VtRender.result. rewrite E. wp_step. exists l. split; [|by split].
  split; [done|]. split; [split; [reflexivity|reflexivity]|]. split; [by apply moved_synced|]. split; [by destruct Hm as [_ _ _ (_ & ? & ? & ?)]|].
  symmetry. apply grid_same, Hm.
Qed.

(** *** The start of a frame *)

Lemma runs_ok w h b : 0 <= w < 2 ^ 63 → 0 <= h < 2 ^ 63 → w * h < 2 ^ 63 → bm_ok w h b →
  ∃ rs b', Bitmap.runs b = inr (rs, b') ∧ bm_ok w h b' ∧ Forall (inside w h) rs ∧ Bitmap._bits b' = Bitmap._bits b
    ∧ (Bitmap.one b = true → rs ≠ []).
Proof.
  intros Hw Hh Ha Hb. destruct (iterate_ok _ _ Hw Hh Ha b Hb) as (rs & Hit & Hrs & Hsorted & Hcell).
  exists rs, (Bitmap.mkBitmap (Bitmap._sz b) (Bitmap._rc b) (Bitmap._bits b) (Some rs)). split_and!.
  - unfold Bitmap.runs. destruct (Bitmap._runs b) as [rs'|] eqn:E; [|by rewrite Hit].
    rewrite (ok_runs _ _ _ Hb rs' E) in Hit. injection Hit as ->. destruct b; cbn in *. by subst.
  - destruct Hb as [? ? ? ?]. split; try done. intros rs0 E. cbn in E. injection E as <-. exact Hit.
  - by eapply maximal_inside.
  - done.
  - intros Hone ->. apply Nat.eqb_eq in Hone.
    destruct (filter (λ x, x = true) (Bitmap._bits b)) as [|v l] eqn:Ef; [done|].
    assert (v ∈ filter (λ x, x = true) (Bitmap._bits b)) as Hv by (rewrite Ef; by left).
    apply list_elem_of_filter in Hv as [-> Hv]. apply list_elem_of_lookup in Hv as [i Hi].
    pose proof (lookup_lt_Some _ _ _ Hi) as Hlt. pose proof (ok_len _ _ _ Hb) as Hlen.
    pose proof (cell_of_index w h Hh (Bitmap._bits b) (Z.of_nat i) ltac:(lia)) as Hc. rewrite Hcell in Hc. cbn in Hc.
    unfold Bitmap.bit_at in Hc. by rewrite Nat2Z.id, Hi in Hc.
Qed.

Lemma small_rect_ok w h rc : w <= 32767 → h <= 32767 → inside w h rc → ∃ sr, VtRender.small_rect_of_rect rc = inr sr.
Proof.
  intros Hw Hh (B1 & B2 & B3 & B4). unfold VtRender.small_rect_of_rect, VtRender.to_short.
  eexists. do 8 rewrite (proj2 (Z.leb_le _ _)) by lia. reflexivity.
Qed.

Lemma dirty_view_ok w h rs : w <= 32767 → h <= 32767 → Forall (inside w h) rs → ∀ v, ∃ v', VtRender.dirty_view v rs = inr v'.
Proof.
  intros Hw Hh Hrs. induction Hrs as [|rc rs Hrc _ IH]; intros v; cbn [VtRender.dirty_view]; [by exists v|].
  destruct (small_rect_ok w h rc Hw Hh Hrc) as [sr ->]. cbn. apply IH.
Qed.

(** In a frame, before anything is painted. *)
Definition started (r : VtRender.VtEngine) (D : Display) (r' : VtRender.VtEngine) : Prop :=
  synced r' D ∧ VtRender._buffer r' = [] ∧ VtRender.written r' = VtRender.written r
  ∧ bm_ok (d_width D) (d_height D) (VtRender._invalidMap r').

Lemma started_same r D r1 r2 : started r D r1 → essence r2 = essence r1 →
  (VtRender._buffer r2, VtRender.written r2) = (VtRender._buffer r1, VtRender.written r1) →
  bm_ok (d_width D) (d_height D) (VtRender._invalidMap r2) → started r D r2.
Proof. intros (H1' & H2' & H3' & H4') He [= E1 E2] Hm. split; [by apply (synced_same r1)|]. by rewrite E1, E2. Qed.

(** The dirty area is read. *)
Lemma map_runs_ok r D r1 : started r D r1 → ∃ rs b', Bitmap.runs (VtRender._invalidMap r1) = inr (rs, b')
  ∧ Forall (inside (d_width D) (d_height D)) rs ∧ (Bitmap.one (VtRender._invalidMap r1) = true → rs ≠ [])
  ∧ started r D (VtRender.set_invalidMap b' r1).
Proof.
  intros Hst. pose proof Hst as (Hs & _ & _ & Hm). destruct (sy_display _ _ Hs) as [D1 D2 D3 D4 _ _ _]. unfold d_bot in *.
  destruct (runs_ok (d_width D) (d_height D) (VtRender._invalidMap r1)) as (rs & b' & E & Hb & Hin & _ & Hone); [lia|lia|nia|done|].
  exists rs, b'. split_and!; [done|done|done|]. by apply (started_same r D r1).
Qed.

Lemma start_frame r D : between_frames r D → wp VtRender.XtermEngine_StartPaint (λ _ r', started r D r') r.
Proof.
  intros [Hs Hb Hf Hm]. destruct (sy_display _ _ Hs) as [D1 D2 D3 D4 _ _ _]. unfold d_bot in *.
  unfold VtRender.XtermEngine_StartPaint, VtRender.StartPaint. do 3 wp_step. unfold id. rewrite (sd_pipe _ (sy_steady _ _ Hs)).
  repeat wp_step. set (r1 := VtRender.set_quickReturn _ r). set (r2 := VtRender.set_nextCursorIsVisible false r1).
  assert (started r D r2 ∧ VtRender._firstPaint r2 = false) as [Hr2 Hf2] by (split; [by apply (started_same r D r); [split_and!|..]|exact Hf]).
  clearbody r2. clear r1. rewrite Hf2. unfold VtRender.GetDirtyArea. repeat wp_step. apply wp_noexcept.
  destruct (map_runs_ok _ _ _ Hr2) as (rs & b' & E & Hin & _ & Hr3). eapply lift_ok; [exact E|]. cbv beta iota. repeat wp_step.
  set (r3 := VtRender.set_invalidMap b' r2) in *. clearbody r3.
  apply (wp_mono _ (λ _ r', r' = r3)).
  { destruct Hin as [|rc rs Hrc Hin]; [by wp_step|]. wp_step. apply wp_noexcept.
    destruct (small_rect_ok (d_width D) (d_height D) rc ltac:(lia) ltac:(lia) Hrc) as [sr Esr].
    destruct (dirty_view_ok (d_width D) (d_height D) rs ltac:(lia) ltac:(lia) Hin (FromInclusive sr)) as [v Ev].
    eapply lift_ok; [rewrite Esr; exact Ev|]. by wp_step. }
  intros _ ? ->. repeat wp_step. destruct (VtRender._quickReturn r3); cbn [negb VtRender.when]; [by repeat wp_step|].
  wp_step. apply wp_noexcept. unfold VtRender._WillWriteSingleChar. do 2 wp_step. unfold id.
  destruct (negb (Til.point_eqb (Til.mkPoint 0 0) _)); cbv iota; [wp_step; cbn [VtRender.when]; by repeat wp_step|].
  destruct (Bitmap.one _) eqn:Eone; cbn [negb]; cbv iota; [|wp_step; cbn [VtRender.when]; by repeat wp_step].
  destruct (map_runs_ok _ _ _ Hr3) as (rs' & b2 & E2 & _ & Hne & Hr4). wp_step. eapply lift_ok; [exact E2|]. cbv beta iota. repeat wp_step.
  destruct rs' as [|rc' rs']; [by destruct Hne|]. wp_step. destruct (_ || _); cbn [VtRender.when]; repeat wp_step; [|done].
  apply (started_same r D _ _ Hr4); [done|done|apply Hr4].
Qed.

(** *** The end of a frame *)

(** The pipe takes what it is given. *)
Context (pipe_works : ∀ n, VtRender.WriteFile n = true).

Definition show_cursor (v : option bool) : list Piece := match v with Some b => [ShowCursor b] | None => [] end.

Lemma Flush_ok r (Q : unit → VtRender.VtEngine → Prop) : VtRender._pipeBroken r = false →
  Q tt (VtRender.set_buffer [] (VtRender.set_written (VtRender.written r ++ [VtRender._buffer r]) r)) → wp VtRender._Flush Q r.
Proof.
  intros Hp HQ. unfold VtRender._Flush. do 2 wp_step. unfold id. rewrite Hp. repeat wp_step. rewrite pipe_works. by wp_step.
Qed.

(** The flags of the frame are reset. *)
Lemma frame_flags_reset m r D : synced r D → bm_ok (d_width D) (d_height D) m → VtRender._deferredCursorPos r = VtRender.INVALID_COORDS →
  let r1 := VtRender.set_resized false (VtRender.set_skipCursor false (VtRender.set_firstPaint false (VtRender.set_cursorMoved false
              (VtRender.set_clearedAllThisFrame false (VtRender.set_scrollDelta (Til.mkPoint 0 0) (VtRender.set_invalidMap m r)))))) in
  synced r1 D ∧ bm_ok (d_width D) (d_height D) (VtRender._invalidMap r1) ∧ VtRender._firstPaint r1 = false
  ∧ VtRender._deferredCursorPos r1 = VtRender.INVALID_COORDS
  ∧ (VtRender.written r1, VtRender._buffer r1) = (VtRender.written r, VtRender._buffer r).
Proof.
  intros Hs Hm Hd r1. assert (essence r1 = essence r) as E1.
  { pose proof (sd_cleared _ (sy_steady _ _ Hs)) as Hc. unfold essence. by rewrite Hc. }
  split; [exact (synced_same _ _ _ E1 Hs)|done].
Qed.

(** [VtEngine::EndPaint] where no move of the cursor is due. *)
Lemma VtEngine_EndPaint_ok r D (Q : unit → VtRender.VtEngine → Prop) :
  synced r D → bm_ok (d_width D) (d_height D) (VtRender._invalidMap r) → VtRender._deferredCursorPos r = VtRender.INVALID_COORDS →
  (∀ r', between_frames r' D → VtRender.written r' = VtRender.written r ++ [VtRender._buffer r] → Q tt r') → wp VtRender.EndPaint Q r.
Proof.
  intros Hs Hm Hdef HQ. unfold VtRender.EndPaint. do 4 wp_step.
  pose proof (frame_flags_reset (Bitmap.reset_all (VtRender._invalidMap r)) r D Hs) as Hr. destruct Hr as (Hs1 & F1 & F2 & F3 & F4).
  { apply with_bits_ok; [done|]. rewrite length_replicate. apply Hm. }
  { done. }
  revert Hs1 F1 F2 F3 F4. generalize (VtRender.set_resized false (VtRender.set_skipCursor false (VtRender.set_firstPaint false (VtRender.set_cursorMoved false
              (VtRender.set_clearedAllThisFrame false (VtRender.set_scrollDelta (Til.mkPoint 0 0) (VtRender.set_invalidMap (Bitmap.reset_all (VtRender._invalidMap r)) r))))))).
  intros r1 Hs1 F1 F2 F3 [= F4 F5]. do 2 wp_step.
  assert (VtRender._virtualTop r1 >? 0 = false) as Htop by (pose proof (sd_top _ (sy_steady _ _ Hs1)); lia).
  rewrite Htop, andb_false_r. do 4 wp_step. change (VtRender._deferredCursorPos (VtRender.set_circled false r1)) with (VtRender._deferredCursorPos r1).
  rewrite F3, bool_decide_false by (intros HH; by apply HH).
  cbn [VtRender.when]. do 2 wp_step. apply Flush_ok; [apply (sd_pipe _ (sy_steady _ _ Hs1))|]. apply HQ.
  - split; [by apply (synced_same r1)|done|done|done].
  - rewrite <-F4, <-F5. done.
Qed.

(** The renderer in a frame, with [buffer] written. *)
Record ending (r0 : VtRender.VtEngine) (D : Display) (buffer : wstring) (r : VtRender.VtEngine) : Prop := {
  en_synced : synced r D;
  en_map : bm_ok (d_width D) (d_height D) (VtRender._invalidMap r);
  en_deferred : VtRender._deferredCursorPos r = VtRender.INVALID_COORDS;
  en_written : VtRender.written r = VtRender.written r0;
  en_buffer : VtRender._buffer r = buffer
}.

Lemma ending_buffer r0 D buffer buffer' r : ending r0 D buffer r → ending r0 D buffer' (VtRender.set_buffer buffer' r).
Proof. intros [E1 E2 E3 E4 E5]. split; try done. by apply (synced_same r). Qed.

Lemma ending_visible r0 D buffer v r : ending r0 D buffer r → ending r0 D buffer (VtRender.set_lastCursorIsVisible v r).
Proof. intros [E1 E2 E3 E4 E5]. split; try done. by apply (synced_same r). Qed.

Lemma end_frame r0 r D buffer : ending r0 D buffer r →
  wp VtRender.XtermEngine_EndPaint (λ _ r', between_frames r' D ∧ ∃ v v',
    VtRender.written r' = VtRender.written r0 ++ [pieces_text (show_cursor v) ++ buffer ++ pieces_text (show_cursor v')]) r.
Proof.
  intros Hr. unfold VtRender.XtermEngine_EndPaint. do 3 wp_step. unfold id.
  apply (wp_mono _ (λ _ r', ∃ v, ending r0 D (pieces_text (show_cursor v) ++ buffer) r')).
  { destruct (_ && _); cbn [VtRender.when]; wp_step; [|by exists None]. exists (Some false).
    rewrite (en_buffer _ _ _ _ Hr). by apply ending_visible, (ending_buffer _ _ buffer). }
  intros _ r1 (v & Hr1). do 3 wp_step. unfold id.
  apply (wp_mono _ (λ _ r', ∃ v', ending r0 D (pieces_text (show_cursor v) ++ buffer ++ pieces_text (show_cursor v')) r')).
  { assert (∀ v', ending r0 D (pieces_text (show_cursor v) ++ buffer ++ pieces_text (show_cursor v'))
      (VtRender.set_buffer (VtRender._buffer r1 ++ pieces_text (show_cursor v')) r1)) as Hv.
    { intros v'. rewrite (en_buffer _ _ _ _ Hr1), <-app_assoc. by eapply ending_buffer. }
    destruct (VtRender._nextCursorIsVisible r1), (VtRender._lastCursorIsVisible r1); cbn [negb andb]; unfold VtRender._ShowCursor, VtRender._HideCursor, VtRender._Write;
      wp_step; [exists None|exists (Some true); exact (Hv (Some true))|exists (Some false); exact (Hv (Some false))|exists None]; by rewrite app_nil_r. }
  intros _ r2 (v' & Hr2). do 2 wp_step. apply (ending_visible _ _ _ (VtRender._nextCursorIsVisible r2)) in Hr2.
  revert Hr2. generalize (VtRender.set_lastCursorIsVisible (VtRender._nextCursorIsVisible r2) r2). intros r3 [E1 E2 E3 E4 E5].
  wp_step. eapply VtEngine_EndPaint_ok; [exact E1|exact E2|exact E3|]. intros r4 [B1 B2 B3 B4] Ew. wp_step.
  split; [split; [by apply (synced_same r4)|done|done|done]|]. exists v, v'. rewrite <-E5, <-E4. exact Ew.
Qed.

(** *** Whole frames *)

(** What the display is after a frame. *)
Record frame_shown (D : Display) (f : Frame) (D' : Display) : Prop := {
  fs_grid : Forall2 same_grid_line (grid D') (fold_left (paint_grid (d_top D)) (frame_runs f) (grid D));
  fs_window : same_window D D';
  fs_x : px (d_paper D') = X (frame_cursor f);
  fs_y : py (d_paper D') = d_top D + Y (frame_cursor f)
}.

Lemma frame_shows f r D : between_frames r D → frame_ok D f →
  wp (paint_frame f) (λ _ r', ∃ l, Forall piece_ok l ∧ VtRender.written r' = VtRender.written r ++ [pieces_text l]
    ∧ between_frames r' (acts D l) ∧ frame_shown D f (acts D l)) r.
Proof.
  intros Hr [[Hbrush Hruns] Hcur]. unfold paint_frame. wp_step. eapply wp_mono; [by apply start_frame|]. cbv beta.
  intros _ r1 (S1 & S2 & S3 & S4). wp_step. eapply wp_mono; [by apply rows_show|]. cbv beta.
  intros _ r2 (l2 & P1 & [P2 P3] & P4 & P5 & P6). injection P3 as P3 P3'. wp_step.
  eapply wp_mono; [apply (cursor_shows _ r2 (acts D l2) P4)|].
  { destruct P5 as (E1 & E2 & E3), Hcur as [Hx Hy]. split; by rewrite ?E1, ?E3. }
  cbv beta. intros _ r3 (l3 & (C1 & [C2 C3] & C4 & C5 & C6) & Hm & Hdef). injection C3 as C3 C3'.
  destruct P5 as (E1 & E2 & E3), C5 as (E4 & E5 & E6).
  eapply wp_mono; [apply (end_frame r r3 (acts (acts D l2) l3) (pieces_text (l2 ++ l3)))|].
  { split; [done| |done|congruence|].
    - rewrite C3', P3', E4, E6, E1, E3. done.
    - rewrite C2, P2, S2. unfold pieces_text. by rewrite fmap_app, concat_app. }
  cbv beta. intros _ r4 (Hb & v & v' & Hw). exists (show_cursor v ++ (l2 ++ l3) ++ show_cursor v').
  assert (∀ v D, acts D (show_cursor v) = D) as Hv by by intros [].
  assert (acts D (show_cursor v ++ (l2 ++ l3) ++ show_cursor v') = acts (acts D l2) l3) as Ea by by rewrite !acts_app, !Hv.
  assert (∀ v, Forall piece_ok (show_cursor v)) as Hvok by (intros []; by repeat constructor).
  split; [by repeat (apply Forall_app; split)|]. split; [rewrite Hw; unfold pieces_text; by rewrite !fmap_app, !concat_app|].
  rewrite Ea. split; [done|]. split.
  - etrans; [exact C6|exact P6].
  - split_and!; congruence.
  - apply Hm.
  - rewrite (mv_y _ _ _ Hm). by rewrite E2.
Qed.

Fixpoint paint_frames (fs : list Frame) : prog VtRender.VtEngine unit :=
  match fs with
  | [] => mret tt
  | f :: fs => paint_frame f;; paint_frames fs
  end.

(** The cursor is where the last frame has it. *)
Definition last_cursor (D : Display) (fs : list Frame) : Z * Z :=
  match last fs with
  | Some f => (X (frame_cursor f), d_top D + Y (frame_cursor f))
  | None => (px (d_paper D), py (d_paper D))
  end.

(** What the display is after frames: the lines have the runs of all of them. *)
Record frames_shown (D : Display) (fs : list Frame) (D' : Display) : Prop := {
  fss_grid : Forall2 same_grid_line (grid D') (fold_left (paint_grid (d_top D)) (concat (frame_runs <$> fs)) (grid D));
  fss_window : same_window D D';
  fss_cursor : (px (d_paper D'), py (d_paper D')) = last_cursor D fs
}.

Lemma frames_shown_cons D f fs D1 D2 : frame_shown D f D1 → frames_shown D1 fs D2 → frames_shown D (f :: fs) D2.
Proof.
  intros [G1 (W1 & W2 & W3) X1 Y1] [G2 (W4 & W5 & W6) C2]. split.
  - etrans; [exact G2|]. rewrite W2, fmap_cons. cbn [concat]. rewrite fold_left_app. by apply fold_paint_same.
  - split_and!; congruence.
  - rewrite C2. unfold last_cursor. destruct fs as [|f1 fs]; [cbn; congruence|]. rewrite last_cons_cons. rewrite W2, X1, Y1.
    destruct (last (f1 :: fs)) eqn:El; [done|]. by apply last_None in El.
Qed.

Lemma frames_show fs : ∀ r D, between_frames r D → Forall (frame_ok D) fs →
  ∃ r' ls, paint_frames fs r = Ok tt r' ∧ Forall (Forall piece_ok) ls ∧ VtRender.written r' = VtRender.written r ++ (pieces_text <$> ls)
    ∧ between_frames r' (acts D (concat ls)) ∧ frames_shown D fs (acts D (concat ls)).
Proof.
  induction fs as [|f fs IH]; intros r D Hr Hfs.
  - exists r, []. split; [done|]. split; [done|]. split; [by rewrite app_nil_r|]. split; [done|]. by split.
  - apply Forall_cons in Hfs as [Hf Hfs].
    destruct (wp_ok _ _ _ (frame_shows f r D Hr Hf)) as ([] & r1 & E1 & l1 & P1 & P2 & P3 & P4).
    destruct (IH r1 (acts D l1) P3) as (r2 & ls & E2 & Q1 & Q2 & Q3 & Q4).
    { pose proof (fs_window _ _ _ P4) as Hw. eapply Forall_impl; [exact Hfs|]. intros f' [[F0 F1] [F2 F3]]. split.
      - split; [done|]. eapply Forall_impl; [exact F1|]. intros run. by apply run_ok_same.
      - destruct Hw as (W1 & W2 & W3). split; by rewrite ?W1, ?W3. }
    exists r2, (l1 :: ls). split; [cbn [paint_frames]; by rewrite (bind_ok _ _ _ _ _ E1)|]. split; [by constructor|].
    split; [rewrite Q2, P2, <-app_assoc; done|]. cbn [concat]. rewrite acts_app. split; [done|]. by eapply frames_shown_cons.
Qed.
End runs.
End painting.

(** ** The renderer and the terminal *)

Section terminal.
Context `{GlyphWidth} `{VtRender.VtSystem} `{VtRender.IRenderData} (defaults : LegacyDefaults) (suffix : wstring → wstring).
Context {T : Type} `{ITerminalOutputConnection T} `{Utf8Converter}.

#[local] Instance conpty_calls : ITermDispatch WindowsTerminal := wt_calls defaults suffix.

#[local] Abbreviation Engine := (OutputStateMachineEngine WindowsTerminal T).
#[local] Abbreviation Machine := (StateMachine Engine Empty_set).

(** C6: the terminal shows the frames that the renderer paints.  Let the renderer agree with the
    terminal on the window, the place of the cursor and the look of the next text, between two
    frames, not before the first one.  Then painting any frames ends without an error, where a
    frame is StartPaint, the default brush, the runs, PaintCursor and EndPaint, and a run is its
    brush and the line of printable ASCII in any colours and renditions in the window, without a link and
    not marked as wrapped into the next row; nothing scrolls.  What has been written to the
    pipe, a string per frame, is processed by the parser, the engine and the core of the Windows
    Terminal without an exception, and then every line of the terminal has the characters, the
    colours and the flags that the runs put there one after the other, all other cells are as
    before, the cursor is where the last frame has it, the window has not moved, and the renderer
    and the terminal agree again.  So these shortcuts are sound: movements by carriage return,
    line feed, backspace or a relative sequence, differences of attributes, erasing instead of
    writing blanks, and a cursor that is hidden for the frame. *)
Theorem conpty_shows_frames (fs : list Frame) (r : VtRender.VtEngine) (s : Machine) :
  (∀ l : wstring, l ≠ [] → Forall (λ ch, 0 <= ch < 0x80) l → VtRender.WideCharToMultiByte l = Some l) →
  (∀ n, VtRender.WriteFile n = true) → narrow UNICODE_SPACE →
  at_ground s → wt_end (wt_of s) = None → core_ok (core_of s) →
  between_frames r (display (core_of s)) → Forall (frame_ok (display (core_of s))) fs →
  ∃ r' strings s', paint_frames fs r = Ok tt r' ∧ VtRender.written r' = VtRender.written r ++ strings
    ∧ ProcessStrings strings s = Ok tt s' ∧ at_ground s' ∧ wt_end (wt_of s') = None ∧ core_ok (core_of s')
    ∧ frames_shown (display (core_of s)) fs (display (core_of s')) ∧ between_frames r' (display (core_of s')).
Proof.
  intros Hutf8 Hpipe Hsp Hg He Hc Hr Hfs.
  destruct (frames_show Hutf8 Hsp Hpipe fs r _ Hr Hfs) as (r' & ls & Er & Hls & Ew & Hr' & Hs').
  destruct (strings_display defaults suffix ls s Hg He Hc Hls) as (s' & Es & Hg' & He' & Hc' & Ed).
  exists r', (pieces_text <$> ls), s'. rewrite Ed. by split_and!.
Qed.
End terminal.

(** ** The theorem on a small terminal *)

Import Recorder.

#[local] Existing Instance sample_width.
#[local] Existing Instance small_calls.

#[local] Instance small_system : VtRender.VtSystem := {
  VtRender.WideCharToMultiByte := λ l, if forallb (λ ch, ch <? 0x80) l then Some l else None;
  VtRender.WriteFile := λ _, true;
  VtRender.GetCurrentProcessId := 1 }.
#[local] Instance small_data : VtRender.IRenderData := { VtRender.GetHyperlinkUri := λ _, []; VtRender.GetHyperlinkCustomId := λ _, [] }.

(** A renderer after its first frames: the default attributes have been sent. *)
Definition small_renderer : exn + VtRender.VtEngine :=
  match VtRender.Xterm256Engine_init (mkViewport (mkRect 0 0 19 2)) with
  | inl e => inl e
  | inr r => inr (VtRender.set_firstPaint false (VtRender.set_lastTextAttributes TextAttribute_default r))
  end.

(** Bold text with many blanks after it, red text at the edge, and a frame in which only the cursor moves. *)
Definition small_frames : list Frame :=
  [mkFrame TextAttribute_default [mkRun (SetBold true TextAttribute_default) (mkCOORD 0 0) (wstr "hi" ++ replicate 12 0x20);
            mkRun (SetForeground (TextColor_index 4 false) TextAttribute_default) (mkCOORD 18 1) (wstr "xy")] (mkCOORD 2 0);
   mkFrame TextAttribute_default [] (mkCOORD 2 1)].

Lemma conpty_shows_frames_witness :
  ∃ c r r' strings s', Terminal_Create (mkCOORD 20 3) 2 small_settings (λ _, false) false = inr c ∧ small_renderer = inr r
    ∧ paint_frames small_frames r = Ok tt r' ∧ VtRender.written r' = VtRender.written r ++ strings
    ∧ ProcessStrings strings (new_windows_terminal (T := Recorder.Tty) c) = Ok tt s'
    ∧ frames_shown (display c) small_frames (display (core_of s')).
Proof.
  destruct (Create_ok 20 3 2 small_settings (λ _, false) false) as (c & E & Hc & Hp & Hw & Hh & Ht & Hr); [lia..|].
  destruct small_renderer as [e|r] eqn:Er; [vm_compute in Er; discriminate Er|].
  assert (display c = mkDisplay (paper c) (ink c) 20 0 3) as Ed by (unfold display; by rewrite Hw, Hh, Ht).
  assert (ink c = TextAttribute_default) as Ei by by injection E as <-.
  destruct (conpty_shows_frames (T := Recorder.Tty) LegacyDefaults_init (λ uri, uri) small_frames r (new_windows_terminal c))
    as (r' & strings & s' & E1 & E2 & E3 & _ & _ & _ & E4 & _).
  - intros l _ Hl. cbn. rewrite (proj2 (forallb_forall _ _)); [done|]. intros ch Hch. apply list_elem_of_In in Hch.
    rewrite Forall_forall in Hl. specialize (Hl ch Hch). cbv beta in Hl. apply Z.ltb_lt. lia.
  - done.
  - apply (bool_decide_unpack _). vm_compute. exact I.
  - split_and!; reflexivity.
  - reflexivity.
  - exact Hc.
  - change (core_of (new_windows_terminal c)) with c. vm_compute in Er. injection Er as <-. split; [split|done|done|].
    + rewrite Ed. split; [done|by left].
    + by apply display_core.
    + by split.
    + rewrite Ed. cbn [d_ink]. rewrite Ei. by split_and!.
    + done.
    + rewrite Ed. split; [done|done|done|]. intros rs [= <-]. vm_compute. reflexivity.
  - change (core_of (new_windows_terminal c)) with c. rewrite Ed.
    repeat constructor; cbn; try lia; try done; apply (bool_decide_unpack _); vm_compute; exact I.
  - exists c, r, r', strings, s'. split_and!; [exact E|done|exact E1|exact E2|exact E3|exact E4].
Defined.

(** A frame in which the cursor is not painted.  Its last run ends in so many blanks that the
    rest of the line is erased; at the end the cursor is moved one column behind the last one,
    where the terminal does not follow, and the next run, in the last column, arrives one column
    too far on the left. *)
Definition frames_without_cursor : prog VtRender.VtEngine unit :=
  paint_runs [mkRun TextAttribute_default (mkCOORD 0 0) (wstr "hi" ++ replicate 18 0x20)];;
  VtRender.XtermEngine_EndPaint;;
  paint_runs [mkRun TextAttribute_default (mkCOORD 19 0) (wstr "z")];;
  VtRender.XtermEngine_EndPaint.

Example hidden_cursor_off_by_one :
  match small_renderer, Terminal_Create (mkCOORD 20 3) 2 small_settings (λ _, false) false with
  | inr r, inr c =>
      match frames_without_cursor r with
      | Ok _ r' => match ProcessStrings (VtRender.written r') (new_windows_terminal (T := Recorder.Tty) c) with
                   | Ok _ s' => (λ l, concat (fst <$> l_cells l)) <$> head (sheet (paper (core_of s')))
                                = Some (wstr "hi" ++ replicate 16 0x20 ++ wstr "z ")
                   | Throw _ _ => False
                   end
      | Throw _ _ => False
      end
  | _, _ => False
  end.
Proof. vm_compute. reflexivity. Qed.

(** A line is scrolled in and painted on a red background, which is also that of the default brush
    (the attributes that the application has set).  The renderer leaves its blanks out,
    since a new line has the background of the attributes that are set; the terminal has a line
    below its window as long as its buffer is not full, and shows this one, with the background it
    has. *)
Definition on_red : TextAttribute := SetBackground (TextColor_index 4 false) TextAttribute_default.

Definition scrolled_frames : prog VtRender.VtEngine unit :=
  paint_frame (mkFrame on_red [mkRun on_red (mkCOORD 0 0) (wstr "x")] (mkCOORD 0 2));;
  VtRender.InvalidateScroll (mkCOORD 0 (-1));;
  VtRender.XtermEngine_StartPaint;;
  VtRender.Xterm256Engine_UpdateDrawingBrushes on_red;;
  VtRender.ScrollFrame;;
  paint_run (mkRun on_red (mkCOORD 0 2) (wstr "ab" ++ replicate 18 0x20));;
  VtRender.XtermEngine_PaintCursor (mkCOORD 0 2);;
  VtRender.XtermEngine_EndPaint.

(** The backgrounds of the last line of the window of a terminal with [scrollback] lines more. *)
Definition backgrounds_after_scroll (scrollback : Z) : option (list TextColor) :=
  match small_renderer, Terminal_Create (mkCOORD 20 3) scrollback small_settings (λ _, false) false with
  | inr r, inr c =>
      match scrolled_frames r with
      | Ok _ r' => match ProcessStrings (VtRender.written r') (new_windows_terminal (T := Recorder.Tty) c) with
                   | Ok _ s' => (λ l, GetBackground <$> l_attrs l) <$> (sheet (paper (core_of s')) !! Z.to_nat (v_bot (core_of s')))
                   | Throw _ _ => None
                   end
      | Throw _ _ => None
      end
  | _, _ => None
  end.

Example new_line_background_lost :
  backgrounds_after_scroll 0 = Some (replicate 20 (TextColor_index 1 false))
  ∧ backgrounds_after_scroll 2 = Some (replicate 2 (TextColor_index 1 false) ++ replicate 18 TextColor_default).
Proof. vm_compute. done. Qed.
